(* ===== verification/_CoqProject ===== *)
-Q . S2P
Prelude.v
Dispatcher.v
Vars.v
Db.v
Scheduler.v
Execution.v
TaskFlow.v
BlockIndex.v
BlockCache.v
Pool.v
ClientLogic.v
ExecClients.v
Wallet.v
Tests.v
Runner.v
Logger.v
Names.v
BlobTx.v
WalletPool.v
Registry.v
History.v
CheckBlocks.v
CheckAttestations.v
GenLoop.v
GenTasks.v
GenOps.v
Clients.v
ChainChecks.v
SingleTx.v
Shell.v
ExternalTasks.v
ScopeGraph.v
Queries.v
LoadTool.v
Api.v
Pages.v
EventStream.v
Startup.v
Rpc.v
Balance.v
TaskConfig.v
