(* ===== verification/Prelude.v ===== *)
(** * Assertoor: a verified model of the test coordinator (root file)

    Assertoor (src/pkg/coordinator) runs tests against Ethereum networks: it
    follows the consensus and execution nodes it is configured with, keeps a
    queue of test runs, executes the tasks of each test, stores what happened in
    a database and sends transactions from wallets it tracks.  This library
    models that program in Rocq, file by file, and proves what makes each part
    correct.  Definitions have the names of the Go functions where possible;
    a definition follows its function branch by branch, error returns included.

    ** Conventions

    - Go integers are [Z] with the wrap-around written out ([u64], [i64], [+u]
      below); where a counter cannot overflow in practice and is left unbounded
      (task indexes, the counters of the generator loop, run numbers) the file's
      header says so and the theorems bound it by a hypothesis.  [float64] is IEEE
      binary64 from the Standard Library.
    - Times are nanoseconds since the Unix epoch and durations nanoseconds, as in
      Go; rows of the database have the whole milliseconds ([UnixMilli]).
    - Objects that Go shares by pointer live in a store and are named by their
      address: scopes (Vars.v), tasks (their index in [taskStateMap]), blocks
      (BlockIndex.v), clients (their position in a pool), wallets (their account
      address), subscriptions and channels (Dispatcher.v).
    - Errors are [result], panics the third constructor of [go]; a task's
      [Execute] ends with an [outcome], which keeps the two apart as the
      scheduler's [recover] does.
    - Goroutines are interleaved by explicit sequences of events or steps; the
      theorems hold for every sequence, or say which one exists.
    - Code outside src/ is a parameter: a class with the documented laws of the
      functions it stands for, and a concrete instance in the witnesses.

    ** The parts and how they interact

    Library parts.  Prelude.v: machine integers, lists, strings, numbers as
    text, calls that may panic, sorting as Go's [sort.Slice].  Dispatcher.v:
    clients/*/subscriptions.go.  Vars.v: vars/*.go, the scopes tasks read their
    configuration from and write their outputs to.  Db.v: db/*.go, the tables as
    maps by primary key and the statements on them.

    The scheduler.  Scheduler.v: scheduler/scheduler.go, task_state.go and
    tasks/tasks.go; the state [TaskScheduler] is the Go struct with the shared
    scopes and the database.  Execution.v: scheduler/task_execution.go and the
    run loop; tasks are instances of [task_instance], flow tasks get
    [ExecuteTask] as an argument.  The contract between the two is
    [registry_ok]/[instance_ok]: an implementation touches only its own
    children.  TaskFlow.v (tasks/run_tasks, run_task_options,
    run_tasks_concurrent, run_task_matrix, run_task_background) and
    ExternalTasks.v (tasks/run_external_tasks) are implementations that satisfy
    it; ScopeGraph.v puts them together into the registry of a test and follows
    the graph of variable scopes they build.  Shell.v (run_shell, run_command) and Queries.v (check_eth_call, get_*,
    sleep) are leaf tasks on the same state.

    Tests and runs.  Tests.v: test/test.go, a test from its descriptor to its
    end.  Registry.v: testregistry.go and test/descriptor.go.  Runner.v:
    testrunner.go and coordinator.go, the queue, the semaphore, cron and
    start-up tests and restarts as a step relation [runner_step].  History.v:
    test/dbtest.go, a test read back from the rows that Scheduler.v wrote; the
    interface is [recorded].  Logger.v: logger/*.go.  Names.v:
    names/validatornames.go.  Startup.v: coordinator.go, config.go and
    web/server.go, the start of a process that puts these parts together, stage by
    stage.  Api.v: web/api/*.go, the handlers over runner,
    registry and history; Pages.v: web/handlers/*.go, the data of the pages.

    Clients.  BlockIndex.v: the block maps that both block caches share, over
    the interface [BlockLike].  BlockCache.v: clients/consensus/block.go,
    blockcache.go, chainspec.go.  Pool.v: forks.go and pool.go of both kinds of
    clients, over the interfaces [PoolClient] and [ChainView].  ClientLogic.v:
    clients/consensus/client.go and clientlogic.go, as a fold over a node's
    events.  ExecClients.v: the execution clients, with the blocks they are
    notified of.  Clients.v: clients/clients.go, which pairs the two, and the
    tasks that check their health and sync state.  EventStream.v:
    clients/consensus/rpc/eventstream and beaconstream.go, the goroutines behind
    the events that ClientLogic.v receives, as an interleaving on their mutex and
    channels ([system_step], [beacon_step]).  Rpc.v: clients/consensus/rpc/beaconapi.go
    and clients/execution/rpc/executionapi.go, whose answers feed the clients.

    Wallets and transactions.  Wallet.v: wallet/wallet.go and manager.go, fed by
    the blocks of the execution cache; Balance.v: the balances it prints.  WalletPool.v: wallet/walletpool.go.
    BlobTx.v: wallet/blobtx.  GenLoop.v: the loop of the five generator tasks as
    a transition system over [GenTask]; GenTasks.v: its instances (EOA, blob,
    deposit, consolidation and withdrawal transactions).  GenOps.v: exits,
    changes of withdrawal credentials and slashings.  SingleTx.v:
    generate_transaction, generate_child_wallet, get_wallet_details.  LoadTool.v:
    utils/tx_load_tool with tx_pool_latency_analysis, tx_pool_throughput_analysis
    and tx_pool_clean, over the announcements a peer sends.  TaskConfig.v: the
    descriptors of all tasks and the [LoadConfig] of those that another file does
    not load, with the wallets they fetch from the manager of Wallet.v ([loads],
    a program logic for these computations).

    Checks of the chain.  CheckBlocks.v (check_consensus_block_proposals),
    CheckAttestations.v (check_consensus_attestation_stats) and ChainChecks.v
    (finality, slot range, forks, reorgs, proposer duty, validator status) read
    the block cache of BlockIndex.v.

    ** What the theorems show

    - Scheduler and execution: the task tree is consistent in every reachable
      scheduler; tasks run in order up to the first failure and all cleanup tasks
      run; a task runs at most once; which verdict a task gets; the database row
      of a task shows its state; task lists are the depth-first order.
    - Flow tasks keep the scheduler's contract at every nesting depth; the verdict
      of concurrent children does not depend on their order; an external test
      runs its cleanup tasks unless its context is cancelled.
    - Runner: every run is executed once, the queue is first in first out and
      bounded, ids are fresh across restarts as long as the last id can be read,
      a queued test that has a free slot is started without waiting for the timer.
    - API and pages: the response for a finished run is the same before and after
      a restart but for a millisecond in the run time of a task, scheduled runs are pending and deleted ones gone, pages cover the
      lists.
    - Start-up: a successful one has gone through every stage in order, a failed
      one has started no test; what requests find in between.
    - Scopes: precedence, placeholders, well-formed heaps; in every state of a test
      the reads of every scope terminate, though the scopes point to each other in
      cycles.
    - Shell: streams are cut into lines independently of the buffer, the output
      loop handles every line in order under every interleaving and ends, result
      files are read back by index.
    - Block caches: the two maps agree in every reachable state, distances are
      those of the ancestor relation; forks partition the clients, selection is
      fair, the canonical fork has the most ready clients.
    - Event streams: events arrive in order and complete up to the last, no
      interleaving of readers and closers panics, an open stream makes progress;
      and where closing one can hang.
    - Wallets follow the ledger while transactions succeed, no sequence of
      operations panics as long as no resync overtakes the load of a wallet, and nonces are
      accounted for under every interleaving; set-code authorizations apply under
      the rule of the chain.
    - Generators: pending transactions are bounded by the channel, limits are
      respected, the operations signed are the intended ones (a slashing is
      slashable).
    - Configurations: which tasks run without one; loading only adds wallets to the
      manager, and a generator that loads holds wallets that can sign.
    - Load tool: each transaction gets the latency of its own first announcement
      or is counted as missed, whatever the order and the repetitions of the
      announcements.
    - Checks: a check is met iff the chain satisfies its configured conditions,
      the votes of attestations of one committee are counted once per branch whatever
      the order of blocks (with several committees the code loses votes).
    - Storage: what was registered, logged or executed is read back; blob data
      round trips through its encoding.
    - Where the code does not do what it means to, a theorem shows the behaviour
      ([*_panics], [*_crashes], [*_ignored], [*_skipped], ...).

    ** Bounds and fuel

    Reads of scopes take [lib_depth] steps down the scope graph; in every state of
    a test there is an amount that is enough for each of its scopes
    ([scope_reads_terminate]).  [exec] has fuel for the nesting
    depth of tasks.  [taskLess] needs the depth of its tasks, [dbLess] and
    [row_depth] the task ids, since parents have smaller ones.  Walks over
    parents take [distance_fuel], the number of cached blocks; the reorg, duty and
    validator status loops one more than the distance, the duties and the
    validator set.  [load_receipt] makes the six attempts of the code,
    [names_loop] has the length of the largest range, [encode_loop] the length of
    the data, [op_loop] the index count, the stream reader of Shell.v and
    [trim_left] the length of their text.  Each file proves that its fuel is enough.  Durations in
    seconds are exact ([timeout_seconds] ignores the rounding of a float); run ids
    stay below 2^64; [epoch_slots] is not for the last slot 2^64-1.

    ** Not modelled

    - The web templates, static files and the page of the clients; cmd and
      main.go: rendering of the state modelled here, and flags.
    - The libraries behind the RPC clients and the decoders of server-sent events
      and of JSON: their answers are inputs of Rpc.v, EventStream.v, ClientLogic.v,
      ExecClients.v and the tasks.
    - utils/sentry (a devp2p implementation: its announcements are inputs of
      LoadTool.v) and utils/hdr (a histogram that is written to a text output).
    - The generated deposit contract binding, build information and metrics; YAML
      decoding of configurations (its results are inputs).
    - SQL texts, connections and schema migration; logrus; goroutine scheduling
      other than the interleavings above; the cancellation of a context is an
      event or a decision of the environment.
    - The periodic refunding goroutine of the generators with child wallets: one
      [EnsureFunding] is modelled in WalletPool.v. *)

From Stdlib Require Export Ascii.
From Stdlib Require Strings.Byte.
From Stdlib Require Export Floats.SpecFloat.
From stdpp Require Export base gmap strings list fin_maps sorting pretty.
From stdpp Require Export sets.
From Stdlib Require Export Lia.

(** ** Machine integers

    Go's [uint64], [int64], [uint32] and [uint16] values are integers [Z]
    kept in range by the wrap-around of the language. *)

Open Scope Z_scope.

Definition two64 : Z := 18446744073709551616.
Definition two63 : Z := 9223372036854775808.
Definition MaxUint64 : Z := 18446744073709551615.
Definition MaxInt64 : Z := 9223372036854775807.

Definition u64 (z : Z) : Z := z mod two64.
Definition u32 (z : Z) : Z := z mod 4294967296.
Definition u16 (z : Z) : Z := z mod 65536.
Definition i64 (z : Z) : Z := (z + two63) mod two64 - two63.

Definition is_u64 (z : Z) : Prop := 0 <= z < two64.
Definition is_i64 (z : Z) : Prop := - two63 <= z < two63.

Declare Scope go_scope.
Delimit Scope go_scope with go.
Notation "x +u y" := (u64 (x + y)) (at level 50, left associativity) : go_scope.
Notation "x -u y" := (u64 (x - y)) (at level 50, left associativity) : go_scope.
Notation "x *u y" := (u64 (x * y)) (at level 40, left associativity) : go_scope.
Open Scope go_scope.

#[export] Instance byte_eq_decision : EqDecision Byte.byte := Byte.byte_eq_dec.

Create HintDb go.

Ltac unfold_ints :=
  unfold u64, u32, u16, i64, is_u64, is_i64, two64, two63, MaxUint64, MaxInt64 in *.

(** [go_lia] decides linear goals about wrapped integers. *)
Ltac go_lia := unfold_ints; Z.div_mod_to_equations; lia.

Lemma u64_id z : is_u64 z -> u64 z = z.
Proof. intros H. unfold u64. apply Z.mod_small. exact H. Qed.

Lemma u64_range z : is_u64 (u64 z).
Proof. go_lia. Qed.

Lemma i64_id z : is_i64 z -> i64 z = z.
Proof. intros H. go_lia. Qed.

Lemma u64_add_lt a b : is_u64 a -> 0 <= b -> a + b < two64 -> a +u b = a + b.
Proof. intros. apply u64_id. go_lia. Qed.

Lemma u64_sub_ge a b : is_u64 a -> 0 <= b <= a -> a -u b = a - b.
Proof. intros. apply u64_id. go_lia. Qed.

#[export] Hint Resolve u64_range u64_id : go.

(** ** Times and durations

    A [time.Time] is its wall clock in nanoseconds since the Unix epoch, a
    [time.Duration] its nanoseconds.  [Sub] of two readings of the running
    process uses Go's monotonic clock; the two clocks are taken to advance
    together. *)

Definition Millisecond : Z := 1000000.

(** [t.UnixMilli()] and [time.UnixMilli(ms)] *)
Definition UnixMilli (t : Z) : Z := t / Millisecond.
Definition of_UnixMilli (ms : Z) : Z := ms * Millisecond.

(** [t.Unix()] *)
Definition Unix (t : Z) : Z := t / 1000000000.

(** [a.Sub(b)]: a difference beyond the range of a duration saturates. *)
Definition time_Sub (a b : Z) : Z := Z.max (- two63) (Z.min (two63 - 1) (a - b)).

(** [d.Round(time.Millisecond)]: half away from zero; a result beyond the range
    of a duration becomes its end. *)
Definition Round_ms (d : Z) : Z :=
  let r := Z.rem d Millisecond in
  if d <? 0 then
    let r := - r in
    if r + r <? Millisecond then d + r
    else let d1 := i64 (d - Millisecond + r) in if d1 <? d then d1 else - two63
  else if r + r <? Millisecond then d - r
  else let d1 := i64 (d + Millisecond - r) in if d <? d1 then d1 else two63 - 1.

(** [d.Milliseconds()] *)
Definition Milliseconds (d : Z) : Z := d ÷ Millisecond.

(** [a.Sub(b).Round(time.Millisecond).Milliseconds()] *)
Definition elapsed_ms (a b : Z) : Z := Milliseconds (Round_ms (time_Sub a b)).

Lemma i64_alt z : - two63 - two64 <= z < two63 + two64 ->
  i64 z = if z <? - two63 then z + two64 else if z <? two63 then z else z - two64.
Proof.
  unfold i64. intros H. destruct (Z.ltb_spec z (-two63)); [|destruct (Z.ltb_spec z two63)];
     unfold two63, two64 in *; Z.div_mod_to_equations; lia.
Qed.

(** The nearest millisecond, up to the longest duration. *)
Lemma Milliseconds_Round_nonneg d : 0 <= d < two63 ->
  Milliseconds (Round_ms d) = Z.min 9223372036854 ((d + 500000) / Millisecond).
Proof.
  intros Hd. unfold Round_ms. rewrite (proj2 (Z.ltb_ge d 0)) by lia. rewrite Z.rem_mod_nonneg by (unfold Millisecond; lia).
  pose proof (Z.div_mod d Millisecond ltac:(easy)) as E. pose proof (Z.mod_pos_bound d Millisecond ltac:(easy)) as B.
  set (q := d / Millisecond) in *. set (r := d mod Millisecond) in *.
  unfold Milliseconds.
  destruct (Z.ltb_spec (r + r) Millisecond) as [Hr|Hr].
  - replace (d - r) with (q * Millisecond) by lia. rewrite Z.quot_mul by easy.
     assert ((d + 500000) / Millisecond = q) as -> by (symmetry; apply (Z.div_unique _ _ _ (r + 500000)); unfold Millisecond in *; lia).
     unfold Millisecond, two63 in *. lia.
  - assert ((d + 500000) / Millisecond = q + 1) as -> by (symmetry; apply (Z.div_unique _ _ _ (r - 500000)); unfold Millisecond in *; lia).
    rewrite i64_alt by (unfold Millisecond, two63, two64 in *; lia).
     replace (d + Millisecond - r) with ((q + 1) * Millisecond) by lia.
    rewrite (proj2 (Z.ltb_ge _ (- two63))) by (unfold Millisecond, two63 in *; lia).
     destruct (Z.ltb_spec ((q + 1) * Millisecond) two63) as [H|H].
     + rewrite (proj2 (Z.ltb_lt _ _)) by lia. rewrite Z.quot_mul by easy. unfold Millisecond, two63 in *. lia.
     + rewrite (proj2 (Z.ltb_ge _ _)) by (unfold Millisecond, two63, two64 in *; lia).
       change ((two63 - 1) ÷ Millisecond) with 9223372036854. unfold Millisecond, two63 in *. lia.
Qed.
Lemma Milliseconds_Round_neg d : - two63 <= d < 0 ->
  Milliseconds (Round_ms d) = - Z.min 9223372036854 ((- d + 500000) / Millisecond).
Proof.
  intros Hd. unfold Round_ms. rewrite (proj2 (Z.ltb_lt d 0)) by lia.
  replace (Z.rem d Millisecond) with (- ((- d) mod Millisecond)).
  2: { rewrite <- (Z.opp_involutive d) at 2. rewrite Z.rem_opp_l by easy. rewrite Z.rem_mod_nonneg by (unfold Millisecond; lia). lia. }
  rewrite Z.opp_involutive.
  pose proof (Z.div_mod (- d) Millisecond ltac:(easy)) as E. pose proof (Z.mod_pos_bound (- d) Millisecond ltac:(easy)) as B.
  set (q := (- d) / Millisecond) in *. set (r := (- d) mod Millisecond) in *.
  unfold Milliseconds.
  destruct (Z.ltb_spec (r + r) Millisecond) as [Hr|Hr].
  - replace (d + r) with ((- q) * Millisecond) by lia. rewrite Z.quot_mul by easy.
     assert ((- d + 500000) / Millisecond = q) as -> by (symmetry; apply (Z.div_unique _ _ _ (r + 500000)); unfold Millisecond in *; lia).
     unfold Millisecond, two63 in *. lia.
  - assert ((- d + 500000) / Millisecond = q + 1) as -> by (symmetry; apply (Z.div_unique _ _ _ (r - 500000)); unfold Millisecond in *; lia).
    rewrite i64_alt by (unfold Millisecond, two63, two64 in *; lia).
     replace (d - Millisecond + r) with ((- (q + 1)) * Millisecond) by lia.
     destruct (Z.ltb_spec (- (q + 1) * Millisecond) (- two63)) as [H|H].
     + rewrite (proj2 (Z.ltb_ge _ _)) by (unfold Millisecond, two63, two64 in *; lia).
       change ((- two63) ÷ Millisecond) with (-9223372036854). unfold Millisecond, two63 in *. lia.
     + rewrite (proj2 (Z.ltb_lt _ two63)) by (unfold Millisecond, two63 in *; lia).
       rewrite (proj2 (Z.ltb_lt _ _)) by lia. rewrite Z.quot_mul by easy. unfold Millisecond, two63 in *. lia.
Qed.

Lemma Round_ms_close d d' : - two63 <= d < two63 -> - two63 <= d' < two63 -> Z.abs (d - d') < Millisecond ->
  Z.abs (Milliseconds (Round_ms d) - Milliseconds (Round_ms d')) <= 1.
Proof.
  intros Hd Hd' Hc. destruct (Z.lt_ge_cases d 0), (Z.lt_ge_cases d' 0);
    rewrite ?(Milliseconds_Round_nonneg d), ?(Milliseconds_Round_nonneg d'), ?(Milliseconds_Round_neg d), ?(Milliseconds_Round_neg d') by lia;
    unfold Millisecond in *; Z.div_mod_to_equations; lia.
Qed.

Lemma UnixMilli_of_UnixMilli ms : UnixMilli (of_UnixMilli ms) = ms.
Proof. unfold UnixMilli, of_UnixMilli. by apply Z.div_mul. Qed.

(** Truncating both ends to milliseconds moves the rounded difference by at
    most one. *)
Lemma elapsed_ms_close a b :
  Z.abs (elapsed_ms (of_UnixMilli (UnixMilli a)) (of_UnixMilli (UnixMilli b)) - elapsed_ms a b) <= 1.
Proof.
  unfold elapsed_ms. apply Round_ms_close; unfold time_Sub, of_UnixMilli, UnixMilli, Millisecond, two63;
    Z.div_mod_to_equations; lia.
Qed.

(** Seconds are the same before and after the truncation. *)
Lemma Unix_of_UnixMilli t : Unix (of_UnixMilli (UnixMilli t)) = Unix t.
Proof. unfold Unix, of_UnixMilli, UnixMilli, Millisecond. Z.div_mod_to_equations. lia. Qed.

(** ** Errors

    A Go [error] is modelled by its message; a call returning [(T, error)]
    by [result T]. *)

Abbreviation error := string (only parsing).

Inductive result (A : Type) : Type :=
  | Ok (a : A)
  | Err (e : error).
Arguments Ok {A} _.
Arguments Err {A} _.

#[export] Instance result_eq_dec {A} `{EqDecision A} : EqDecision (result A).
Proof. solve_decision. Defined.

Definition is_ok {A} (r : result A) : bool :=
  match r with Ok _ => true | Err _ => false end.

Notation "'let!' x ':=' c 'in' k" :=
  (match c with Ok x => k | Err e => Err e end)
  (at level 10, x pattern, c at level 200, k at level 200) : go_scope.

(** ** Lists *)

Section list_lemmas.
Context {A : Type}.

(** [filterb] is Go's collecting loop [for .. { if p(x) { append } }]. *)
Definition filterb (p : A -> bool) (l : list A) : list A :=
  filter (fun x => p x = true) l.

Lemma filterb_nil (p : A -> bool) : filterb p [] = [].
Proof. reflexivity. Qed.

Lemma filterb_cons (p : A -> bool) x l :
  filterb p (x :: l) = if p x then x :: filterb p l else filterb p l.
Proof. unfold filterb. rewrite filter_cons. case_decide as Hp; destruct (p x); congruence. Qed.

Lemma filterb_app (p : A -> bool) l1 l2 :
  filterb p (l1 ++ l2) = filterb p l1 ++ filterb p l2.
Proof. apply filter_app. Qed.

Lemma elem_of_filterb (p : A -> bool) l x :
  x ∈ filterb p l <-> p x = true /\ x ∈ l.
Proof. unfold filterb. by rewrite list_elem_of_filter. Qed.

Lemma existsb_elem_of (p : A -> bool) l :
  existsb p l = true <-> exists x, x ∈ l /\ p x = true.
Proof. rewrite existsb_exists. by setoid_rewrite <- list_elem_of_In. Qed.

Lemma forallb_elem_of (p : A -> bool) l :
  forallb p l = true <-> forall x, x ∈ l -> p x = true.
Proof. rewrite forallb_forall. by setoid_rewrite <- list_elem_of_In. Qed.
End list_lemmas.

Lemma NoDup_fmap_filterb {A B} (f : A -> B) (p : A -> bool) l :
  NoDup (f <$> l) -> NoDup (f <$> filterb p l).
Proof.
  induction l as [|x l IH]; [done|]. rewrite filterb_cons. simpl.
  intros [Hx Hnd]%NoDup_cons. destruct (p x); [|by apply IH]. simpl.
  apply NoDup_cons. split; [|by apply IH].
  rewrite !list_elem_of_fmap in *. intros (y & Hy & [_ Hin]%elem_of_filterb). apply Hx. eauto.
Qed.

Lemma filterb_ext_in {A} (p q : A -> bool) l :
  (forall x, x ∈ l -> p x = q x) -> filterb p l = filterb q l.
Proof.
  induction l as [|x l IH]; intros Hpq; [done|]. rewrite !filterb_cons, IH, Hpq; [done|left|].
  intros y Hy. apply Hpq. by right.
Qed.

Lemma StronglySorted_filterb {A} (R : A -> A -> Prop) p l :
  StronglySorted R l -> StronglySorted R (filterb p l).
Proof.
  induction 1 as [|x l Hs IH Hx]; [constructor|]. rewrite filterb_cons.
  destruct (p x); [|done]. constructor; [done|]. rewrite Forall_forall in Hx |- *.
  intros y [_ Hy]%elem_of_filterb. by apply Hx.
Qed.

(** Positions in the order of the elements. *)
Lemma StronglySorted_lookup {A} (R : A -> A -> Prop) (l : list A) :
  (forall i j x y, (i < j)%nat -> l !! i = Some x -> l !! j = Some y -> R x y) -> StronglySorted R l.
Proof.
  induction l as [|x l IH]; intros HR; constructor.
  - apply IH. intros i j y z Hij Hi Hj. by apply (HR (S i) (S j)); [lia|..].
  - apply Forall_forall. intros y [j Hj]%list_elem_of_lookup. by apply (HR 0%nat (S j)); [lia|..].
Qed.

(** Go's [a[from:to]] on a slice whose bounds are known to be valid. *)
Definition slice {A} (from to : nat) (l : list A) : list A := take (to - from) (drop from l).

(** ** [sort.Slice]

    The standard library promises a permutation of the slice that is ordered
    by [less] when [less] is a strict weak order on the elements present; it
    does not promise stability.  The components that sort are proved against
    this interface, and [insertion_sort] (which Go runs on slices of up to
    twelve elements) is the instance the witnesses compute with. *)

Record StrictWeakOn {A} (less : A -> A -> bool) (l : list A) : Prop := {
  swo_irrefl : forall x, x ∈ l -> less x x = false;
  swo_trans : forall x y z, x ∈ l -> y ∈ l -> z ∈ l ->
    less x y = true -> less y z = true -> less x z = true;
  swo_neg : forall x y z, x ∈ l -> y ∈ l -> z ∈ l ->
    less x z = true -> less x y = true \/ less y z = true
}.

Class SliceSort := {
  slice_sort : forall {A}, (A -> A -> bool) -> list A -> list A;
  slice_sort_perm : forall {A} (less : A -> A -> bool) l, slice_sort less l ≡ₚ l;
  slice_sort_sorted : forall {A} (less : A -> A -> bool) l,
    StrictWeakOn less l ->
    StronglySorted (fun x y => less y x = false) (slice_sort less l)
}.

Section insertion_sort.
Context {A : Type} (less : A -> A -> bool).

(** Insert [x] before the first element that is greater than it. *)
Fixpoint insert_sorted (x : A) (l : list A) : list A :=
  match l with
  | [] => [x]
  | y :: l' => if less x y then x :: l else y :: insert_sorted x l'
  end.

Definition insertion_sort (l : list A) : list A :=
  fold_left (fun acc x => insert_sorted x acc) l [].

Lemma insert_sorted_perm x l : insert_sorted x l ≡ₚ x :: l.
Proof.
  induction l as [|y l IH]; simpl; [done|].
  destruct (less x y); [done|]. rewrite IH. constructor.
Qed.

Lemma insertion_sort_fold_perm l acc :
  fold_left (fun acc x => insert_sorted x acc) l acc ≡ₚ acc ++ l.
Proof.
  revert acc. induction l as [|x l IH]; intros acc; simpl; [by rewrite app_nil_r|].
  rewrite IH, insert_sorted_perm. apply Permutation_middle.
Qed.

Lemma StrictWeakOn_sub l l' :
  (forall x, x ∈ l -> x ∈ l') -> StrictWeakOn less l' -> StrictWeakOn less l.
Proof.
  intros Hsub [Hirr Htr Hneg]. split; intros; [eapply Hirr|eapply (Htr _ y)|eapply Hneg]; eauto.
Qed.

Lemma insert_sorted_sorted x l :
  StrictWeakOn less (x :: l) ->
  StronglySorted (fun a b => less b a = false) l ->
  StronglySorted (fun a b => less b a = false) (insert_sorted x l).
Proof.
  intros Hswo Hs. induction Hs as [|y l Hs IH Hy]; simpl; [repeat constructor|].
  pose proof Hswo as [Hirr Htr _].
  destruct (less x y) eqn:Hxy.
  - constructor; [by constructor|]. constructor.
    + destruct (less y x) eqn:Hyx; [|done].
      rewrite <- (Hirr x) by set_solver. symmetry.
      eapply (Htr x y x); set_solver.
    + rewrite Forall_forall in Hy |- *. intros z Hz.
      destruct (less z x) eqn:Hzx; [|done].
      rewrite <- (Hy z Hz). symmetry. eapply (Htr z x y); set_solver.
  - constructor.
    + apply IH. eapply StrictWeakOn_sub; [|exact Hswo].
      intros z. rewrite !elem_of_cons. tauto.
    + rewrite insert_sorted_perm. constructor; done.
Qed.

Lemma insertion_sort_fold_sorted l acc :
  StrictWeakOn less (acc ++ l) ->
  StronglySorted (fun a b => less b a = false) acc ->
  StronglySorted (fun a b => less b a = false)
    (fold_left (fun acc x => insert_sorted x acc) l acc).
Proof.
  revert acc. induction l as [|x l IH]; intros acc Hswo Hs; simpl; [done|].
  apply IH.
  - eapply StrictWeakOn_sub; [|exact Hswo].
    intros z. rewrite !elem_of_app, insert_sorted_perm, !elem_of_cons. tauto.
  - apply insert_sorted_sorted; [|done].
    eapply StrictWeakOn_sub; [|exact Hswo].
    intros z. rewrite elem_of_app, !elem_of_cons. tauto.
Qed.
End insertion_sort.

#[export] Program Instance insertion_slice_sort : SliceSort :=
  {| slice_sort := @insertion_sort |}.
Next Obligation. intros A less l. unfold insertion_sort. by rewrite insertion_sort_fold_perm. Qed.
Next Obligation.
  intros A less l H. apply insertion_sort_fold_sorted; [done|constructor].
Qed.

(** Sorting by a key with [<] or [>] on [Z] is always a strict weak order. *)
Lemma StrictWeakOn_key_gt {A} (key : A -> Z) l :
  StrictWeakOn (fun a b => key b <? key a) l.
Proof. split; intros; lia. Qed.

Lemma StrictWeakOn_key_lt {A} (key : A -> Z) l :
  StrictWeakOn (fun a b => key a <? key b) l.
Proof. split; intros; lia. Qed.
#[export] Hint Resolve StrictWeakOn_key_gt StrictWeakOn_key_lt : go.

(** ** Finite maps *)

(** Apply a partial function to every value of a map; fails if any call fails. *)
Definition map_traverse {A B} (f : A -> option B) (m : gmap string A) : option (gmap string B) :=
  list_to_map <$> mapM (fun kv : string * A => pair kv.1 <$> f kv.2) (map_to_list m).

Lemma traverse_keys {A B} (f : A -> option B) (l : list (string * A)) l' :
  Forall2 (fun kv y => pair kv.1 <$> f kv.2 = Some y) l l' -> l.*1 = l'.*1.
Proof.
  induction 1 as [|[a x] [b y] l l' Hxy _ IH]; [done|]. simpl in *.
  destruct (f x); simplify_eq/=. by f_equal.
Qed.

Lemma map_traverse_Some {A B} (f : A -> option B) m m' :
  map_traverse f m = Some m' -> forall k, m' !! k = m !! k ≫= f /\
    (is_Some (m !! k) -> is_Some (m' !! k)).
Proof.
  unfold map_traverse. destruct (mapM _ _) as [kvs|] eqn:Hm; simpl; [|done].
  intros [= <-] k. apply mapM_Some in Hm.
  assert (NoDup kvs.*1) as Hnd.
  { by rewrite <- (traverse_keys f _ _ Hm); apply NoDup_fst_map_to_list. }
  assert (forall v, (list_to_map kvs : gmap string B) !! k = Some v <-> exists x, m !! k = Some x /\ f x = Some v) as Hlk.
  { intros v. rewrite <- elem_of_list_to_map by done. split.
    - intros Hin. apply list_elem_of_lookup in Hin as [i Hi].
      destruct (Forall2_lookup_r _ _ _ _ _ Hm Hi) as ([a x] & Hax & Hf). simpl in Hf.
      destruct (f x) eqn:Hfx; simplify_eq/=. exists x. split; [|done].
      apply elem_of_map_to_list. eapply list_elem_of_lookup_2. eauto.
    - intros (x & Hx & Hf). apply elem_of_map_to_list, list_elem_of_lookup in Hx as [i Hi].
      destruct (Forall2_lookup_l _ _ _ _ _ Hm Hi) as (y & Hy & Hfy). simpl in Hfy.
      rewrite Hf in Hfy. simplify_eq/=. eapply list_elem_of_lookup_2. eauto. }
  split.
  - destruct (m !! k) as [x|] eqn:Hx; simpl.
    + destruct (f x) as [v|] eqn:Hf; [apply Hlk; eauto|].
      apply eq_None_not_Some. intros [v (x' & ? & ?)%Hlk]. congruence.
    + apply eq_None_not_Some. intros [v (x' & ? & ?)%Hlk]. congruence.
  - intros [x Hx]. apply elem_of_map_to_list, list_elem_of_lookup in Hx as [i Hi].
    destruct (Forall2_lookup_l _ _ _ _ _ Hm Hi) as ([b y] & Hy & Hfy). simpl in Hfy.
    destruct (f x) eqn:Hfx; simplify_eq/=. exists y.
    apply elem_of_list_to_map; [done|]. eapply list_elem_of_lookup_2. eauto.
Qed.

Lemma map_traverse_total {A B} (f : A -> option B) m :
  (forall k x, m !! k = Some x -> is_Some (f x)) -> is_Some (map_traverse f m).
Proof.
  intros Hf. unfold map_traverse. rewrite fmap_is_Some. apply mapM_is_Some, Forall_forall.
  intros [k x] Hin%elem_of_map_to_list. simpl. apply fmap_is_Some. eauto.
Qed.

Lemma map_traverse_is_Some_inv {A B} (f : A -> option B) m m' k x :
  map_traverse f m = Some m' -> m !! k = Some x -> is_Some (f x).
Proof.
  intros Hm Hk. destruct (map_traverse_Some f m m' Hm k) as [Heq Hs].
  rewrite Hk in Heq, Hs. simpl in Heq. rewrite <- Heq. by apply Hs.
Qed.

(** ** Strings *)

Lemma string_app_cons c (s t : string) : (String c s +:+ t = String c (s +:+ t))%string.
Proof. reflexivity. Qed.

Lemma string_app_nil_l (t : string) : ("" +:+ t = t)%string.
Proof. reflexivity. Qed.

Lemma string_app_nil_r (s : string) : (s +:+ "" = s)%string.
Proof. induction s as [|c s IH]; [done|]. by rewrite string_app_cons, IH. Qed.

Lemma string_app_assoc (s t u : string) : ((s +:+ t) +:+ u = s +:+ (t +:+ u))%string.
Proof. induction s as [|c s IH]; [done|]. by rewrite !string_app_cons, IH. Qed.

(** The string has no character [c]. *)
Fixpoint free_of (c : Ascii.ascii) (s : string) : bool :=
  match s with
  | "" => true
  | String d s' => negb (Ascii.eqb c d) && free_of c s'
  end%string.

(** ** Decimal digits

    What [strconv.ParseUint], [big.Int.SetString] and the JSON decoder have in
    common: a run of decimal digits, after the digits read as [acc]. *)
Fixpoint parse_digits (acc : Z) (s : string) : option Z :=
  match s with
  | EmptyString => Some acc
  | String c s =>
      let d := Z.of_nat (Ascii.nat_of_ascii c) - 48 in
      if (0 <=? d) && (d <=? 9) then parse_digits (10 * acc + d) s else None
  end.

(** [strconv.ParseUint(s, 10, 64)] *)
Definition ParseUint (s : string) : option Z :=
  match s with
  | EmptyString => None
  | _ => n ← parse_digits 0 s; if n <? two64 then Some n else None
  end.

Lemma pretty_N_char_digit (d : N) :
  (d < 10)%N -> Z.of_nat (Ascii.nat_of_ascii (pretty_N_char d)) - 48 = Z.of_N d.
Proof.
  intros H. assert (d ∈ [0; 1; 2; 3; 4; 5; 6; 7; 8; 9]%N) as Hd by (rewrite !elem_of_cons; lia).
  clear H. revert d Hd. apply Forall_forall. repeat constructor.
Qed.

Lemma parse_digits_char d s acc :
  (d < 10)%N -> parse_digits acc (String (pretty_N_char d) s) = parse_digits (10 * acc + Z.of_N d) s.
Proof.
  intros Hd. cbn [parse_digits]. cbv zeta. rewrite (pretty_N_char_digit d Hd).
  assert ((0 <=? Z.of_N d) && (Z.of_N d <=? 9) = true) as -> by lia. done.
Qed.

Lemma parse_pretty_go (x : N) s : parse_digits 0 (pretty_N_go x s) = parse_digits (Z.of_N x) s.
Proof.
  revert s. induction (N.lt_wf_0 x) as [x _ IH]; intros s.
  destruct (decide (0 < x)%N) as [Hx|Hx].
  - rewrite pretty_N_go_step by done. rewrite IH by (apply N.div_lt; lia).
    rewrite parse_digits_char by (apply N.mod_lt; lia). f_equal.
    pose proof (N.div_mod x 10 ltac:(done)). lia.
  - assert (x = 0%N) as -> by lia. by rewrite pretty_N_go_0.
Qed.

(** The first digit of a positive number is not zero. *)
Lemma pretty_go_head (x : N) s :
  (0 < x)%N -> exists d s', pretty_N_go x s = String (pretty_N_char d) s' /\ (0 < d < 10)%N.
Proof.
  revert s. induction (N.lt_wf_0 x) as [x _ IH]; intros s Hx. rewrite pretty_N_go_step by done.
  destruct (decide (0 < x `div` 10)%N) as [H|H]; [apply IH; [apply N.div_lt; lia|done]|].
  assert (x `div` 10 = 0)%N as Hz by (apply N.le_0_r, N.nlt_ge, H). rewrite Hz, pretty_N_go_0. eexists _, _. split; [done|].
  pose proof (N.div_mod x 10 ltac:(done)). pose proof (N.mod_lt x 10 ltac:(done)). lia.
Qed.

(** [strings.Split(s, sep)] for a separator of one character: the text up to
    the first separator, and the rest. *)
Fixpoint split_at (sep : Ascii.ascii) (s : string) : string * list string :=
  match s with
  | EmptyString => (EmptyString, [])
  | String c s =>
      let '(part, parts) := split_at sep s in
      if Ascii.eqb c sep then (EmptyString, part :: parts) else (String c part, parts)
  end.

Definition Split (sep : Ascii.ascii) (s : string) : list string :=
  let '(part, parts) := split_at sep s in part :: parts.

Lemma split_at_app sep (s t : string) :
  free_of sep s = true -> split_at sep (s +:+ String sep t) = (s, Split sep t).
Proof.
  induction s as [|c s IH]; intros Hs.
  - rewrite string_app_nil_l. cbn [split_at]. unfold Split.
    destruct (split_at sep t). by rewrite Ascii.eqb_refl.
  - simpl in Hs. apply andb_true_iff in Hs as [Hc Hs]. rewrite string_app_cons. cbn [split_at].
    rewrite IH by done. rewrite Ascii.eqb_sym. apply negb_true_iff in Hc. by rewrite Hc.
Qed.

Lemma split_at_free sep (s : string) : free_of sep s = true -> split_at sep s = (s, []).
Proof.
  induction s as [|c s IH]; intros Hs; [done|].
  simpl in Hs. apply andb_true_iff in Hs as [Hc Hs]. cbn [split_at].
  rewrite IH by done. rewrite Ascii.eqb_sym. apply negb_true_iff in Hc. by rewrite Hc.
Qed.

Lemma Split_app sep (s t : string) :
  free_of sep s = true -> Split sep (s +:+ String sep t) = s :: Split sep t.
Proof. intros Hs. unfold Split at 1. by rewrite split_at_app. Qed.

Lemma Split_free sep (s : string) : free_of sep s = true -> Split sep s = [s].
Proof. intros Hs. unfold Split. by rewrite split_at_free. Qed.

(** ** Numbers as text *)

Lemma pretty_go_free_of (c : Ascii.ascii) (x : N) (s : string) :
  (Ascii.nat_of_ascii c < 48)%nat -> free_of c s = true -> free_of c (pretty_N_go x s) = true.
Proof.
  intros Hc. revert s. induction (N.lt_wf_0 x) as [x _ IH]; intros s Hs.
  destruct (decide (0 < x)%N) as [Hx|Hx].
  - rewrite pretty_N_go_step by done. apply IH; [apply N.div_lt; lia|]. simpl. rewrite Hs, andb_true_r.
    apply negb_true_iff, Ascii.eqb_neq. intros ->.
    pose proof (pretty_N_char_digit (x `mod` 10)%N ltac:(apply N.mod_lt; lia)) as Hd.
    pose proof (N2Z.is_nonneg (x `mod` 10)). generalize dependent (Z.of_N (x `mod` 10)). lia.
  - assert (x = 0%N) as -> by lia. by rewrite pretty_N_go_0.
Qed.

(** [strconv.FormatUint] and [ParseUint] round trip. *)
Lemma ParseUint_pretty (z : Z) : is_u64 z -> ParseUint (pretty (Z.to_N z)) = Some z.
Proof.
  intros [H0 H1]. unfold pretty, pretty_N. case_decide as Hz.
  { assert (z = 0) as -> by lia. reflexivity. }
  assert (0 < Z.to_N z)%N as Hpos by lia.
  pose proof (parse_pretty_go (Z.to_N z) "") as Hp. simpl in Hp. rewrite Z2N.id in Hp by done.
  destruct (pretty_go_head (Z.to_N z) "" Hpos) as (d & s' & Hd & _). rewrite Hd in Hp |- *.
  cbn [ParseUint]. rewrite Hp. simpl. by assert (z <? two64 = true) as -> by lia.
Qed.

(** [strconv.Atoi]: an optional sign, digits, within 64 bits. *)
Definition Atoi (s : string) : option Z :=
  let digits (s : string) := match s with EmptyString => None | _ => parse_digits 0 s end in
  n ← match s with
      | String "-" s => Z.opp <$> digits s
      | String "+" s => digits s
      | _ => digits s
      end;
  if (- two63 <=? n) && (n <? two63) then Some n else None.

(** ** Calls that may panic *)

Inductive go (A : Type) : Type :=
  | Ret (a : A)
  | Fail (e : error)
  | Panic (what : string).
Arguments Ret {A} _.
Arguments Fail {A} _.
Arguments Panic {A} _.

Definition go_bind {A B} (c : go A) (k : A -> go B) : go B :=
  match c with Ret a => k a | Fail e => Fail e | Panic p => Panic p end.

Notation "'do!' x ':=' c 'in' k" :=
  (go_bind c (fun x => k)) (at level 10, x pattern, c at level 200, k at level 200) : go_scope.

Definition of_result {A} (r : result A) : go A := match r with Ok a => Ret a | Err e => Fail e end.

Lemma go_bind_Ret {A B} (c : go A) (k : A -> go B) b :
  go_bind c k = Ret b <-> exists a, c = Ret a /\ k a = Ret b.
Proof. destruct c; simpl; [|split; [done|by intros (a & ? & ?)]..]. split; [eauto|]. by intros (a' & [= ->] & ?). Qed.

(** [strings.HasPrefix], and [strings.Join] with a separator of one character. *)
Definition HasPrefix (s prefix : string) : bool := String.prefix prefix s.

Fixpoint Join (sep : Ascii.ascii) (parts : list string) : string :=
  match parts with
  | [] => EmptyString
  | [part] => part
  | part :: parts => part +:+ String sep (Join sep parts)
  end.

(** ** float64

    IEEE binary64 as the Standard Library specifies it. *)

Definition f64 (z : Z) : spec_float := binary_normalize 53 1024 z 0 false.
Definition f64_mul := SFmul 53 1024.
Definition f64_div := SFdiv 53 1024.
