(* ===== verification/Dispatcher.v ===== *)
(** * Event dispatchers

    The generic [Dispatcher[T]]/[Subscription[T]] pair of
    clients/consensus/subscriptions.go (and its verbatim copy in
    clients/execution/subscriptions.go): a dispatcher keeps the list of its
    subscriptions, each a buffered channel; [Fire] offers the event to every
    channel without blocking.  Pointers to subscriptions are locations in a
    store, so that aliasing between the list and the caller's handle is kept. *)

From S2P Require Import Prelude.

Open Scope Z_scope.

Section dispatcher.
Context {T : Type}.

(** [channel] holds the buffered events (oldest first), [capacity] the
    channel's buffer size; [dispatcher] is [true] when the back pointer is
    not nil. *)
Record Subscription := mkSubscription {
  channel : list T;
  capacity : nat;
  dispatcher : bool
}.

(** [subscriptions] is the dispatcher's slice of subscription pointers;
    [heap] the subscriptions ever allocated, [fresh] the next pointer. *)
Record Dispatcher := mkDispatcher {
  subscriptions : list nat;
  heap : gmap nat Subscription;
  fresh : nat
}.

Definition NewDispatcher : Dispatcher := mkDispatcher [] ∅ 0.

Definition Subscribe (cap : nat) (d : Dispatcher) : nat * Dispatcher :=
  let s := fresh d in
  (s, mkDispatcher (subscriptions d ++ [s])
        (<[s := mkSubscription [] cap true]> (heap d)) (S s)).

(** [for i, s := range d.subscriptions { if s == subscription { .. } }]:
    the found entry is overwritten by the last one and the slice shortened;
    the subscription's back pointer is cleared. *)
Definition Unsubscribe_loop (s : nat) (d : Dispatcher) : Dispatcher :=
  let count := length (subscriptions d) in
  match list_find (fun x => x = s) (subscriptions d) with
  | Some (i, _) =>
      let subs :=
        if decide (i < count - 1)%nat
        then match subscriptions d !! (count - 1)%nat with
             | Some lst => <[i := lst]> (subscriptions d)
             | None => subscriptions d
             end
        else subscriptions d in
      mkDispatcher (take (count - 1) subs)
        (alter (fun sub => mkSubscription (channel sub) (capacity sub) false) s (heap d))
        (fresh d)
  | None => d
  end.

(** [Dispatcher.Unsubscribe]; the early return is the code's guard
    [if subscription.dispatcher != nil { return }]. *)
Definition Dispatcher_Unsubscribe (s : nat) (d : Dispatcher) : Dispatcher :=
  match heap d !! s with
  | Some sub => if dispatcher sub then d else Unsubscribe_loop s d
  | None => d
  end.

(** [Subscription.Unsubscribe] *)
Definition Subscription_Unsubscribe (s : nat) (d : Dispatcher) : Dispatcher :=
  match heap d !! s with
  | Some sub => if dispatcher sub then Dispatcher_Unsubscribe s d else d
  | None => d
  end.

(** [select { case s.channel <- data: default: }] *)
Definition offer (data : T) (sub : Subscription) : Subscription :=
  if decide (length (channel sub) < capacity sub)%nat
  then mkSubscription (channel sub ++ [data]) (capacity sub) (dispatcher sub)
  else sub.

Definition Fire (data : T) (d : Dispatcher) : Dispatcher :=
  mkDispatcher (subscriptions d)
    (fold_left (fun h s => alter (offer data) s h) (subscriptions d) (heap d))
    (fresh d).

(** [<-s.Channel()] of a subscriber: the oldest buffered event, if any. *)
Definition receive (s : nat) (d : Dispatcher) : option T * Dispatcher :=
  match heap d !! s with
  | Some (mkSubscription (x :: ch) cap dp) =>
      (Some x, mkDispatcher (subscriptions d)
                 (<[s := mkSubscription ch cap dp]> (heap d)) (fresh d))
  | _ => (None, d)
  end.

(** The operations in any interleaving (each one runs under the mutex). *)
Inductive dispatcher_op :=
  | OpSubscribe (cap : nat)
  | OpUnsubscribe (s : nat)
  | OpFire (data : T)
  | OpReceive (s : nat).

Definition step_op (d : Dispatcher) (op : dispatcher_op) : Dispatcher :=
  match op with
  | OpSubscribe cap => (Subscribe cap d).2
  | OpUnsubscribe s => Subscription_Unsubscribe s d
  | OpFire x => Fire x d
  | OpReceive s => (receive s d).2
  end.

Definition run_ops (ops : list dispatcher_op) (d : Dispatcher) : Dispatcher :=
  fold_left step_op ops d.

Definition is_subscribe (op : dispatcher_op) : bool :=
  match op with OpSubscribe _ => true | _ => false end.

Definition subscribes (ops : list dispatcher_op) : nat := length (filterb is_subscribe ops).

(** ** Well-formedness: distinct, allocated pointers below [fresh]; no
    channel over its capacity; exactly the listed subscriptions attached. *)
Record dispatcher_wf (d : Dispatcher) : Prop := {
  dwf_nodup : NoDup (subscriptions d);
  dwf_alloc : forall s, s ∈ subscriptions d <->
    exists sub, heap d !! s = Some sub /\ dispatcher sub = true;
  dwf_fresh : forall s sub, heap d !! s = Some sub -> (s < fresh d)%nat;
  dwf_cap : forall s sub, heap d !! s = Some sub -> (length (channel sub) <= capacity sub)%nat
}.

Lemma Fire_heap_lookup data l (h : gmap nat Subscription) s :
  NoDup l ->
  fold_left (fun h s => alter (offer data) s h) l h !! s
  = (if decide (s ∈ l) then offer data <$> h !! s else h !! s).
Proof.
  revert h. induction l as [|x l IH]; intros h Hnd; cbn [fold_left].
  - case_decide; set_solver.
  - apply NoDup_cons in Hnd as [Hx Hnd]. rewrite IH by done.
    rewrite lookup_alter. destruct (decide (x = s)) as [->|Hne].
    + repeat case_decide; set_solver.
    + repeat case_decide; set_solver.
Qed.

Lemma offer_dispatcher x sub : dispatcher (offer x sub) = dispatcher sub.
Proof. unfold offer. by case_decide. Qed.

Lemma offer_cap x sub :
  (length (channel sub) <= capacity sub)%nat ->
  (length (channel (offer x sub)) <= capacity (offer x sub))%nat.
Proof. unfold offer. case_decide; simpl; rewrite ?length_app; simpl; lia. Qed.

Lemma Subscription_Unsubscribe_id s d : Subscription_Unsubscribe s d = d.
Proof.
  unfold Subscription_Unsubscribe, Dispatcher_Unsubscribe.
  destruct (heap d !! s) as [sub|] eqn:Hs; [|done].
  by destruct (dispatcher sub) eqn:Hd.
Qed.

Lemma Fire_lookup x d s :
  dispatcher_wf d ->
  heap (Fire x d) !! s
  = (if decide (s ∈ subscriptions d) then offer x <$> heap d !! s else heap d !! s).
Proof. intros Hwf. apply Fire_heap_lookup, Hwf. Qed.

Lemma step_op_wf d op : dispatcher_wf d -> dispatcher_wf (step_op d op).
Proof.
  intros Hwf. destruct op as [cap|s|x|s]; simpl.
  - destruct Hwf as [Hnd Hal Hfr Hcap]. split; simpl.
    + apply NoDup_app. split; [done|]. split; [|apply NoDup_singleton].
      intros y Hy%Hal. destruct Hy as (sub & Hy & _). apply Hfr in Hy. set_solver by lia.
    + intros y. rewrite elem_of_app, list_elem_of_singleton, Hal, lookup_insert.
      case_decide as Hy; [subst; naive_solver|]. naive_solver.
    + intros y sub. rewrite lookup_insert. case_decide; [naive_solver lia|].
      intros Hy%Hfr. lia.
    + intros y sub. rewrite lookup_insert. case_decide; [|eauto].
      intros [= <-]. simpl. lia.
  - by rewrite Subscription_Unsubscribe_id.
  - pose proof (Fire_lookup x d) as HF. pose proof Hwf as [Hnd Hal Hfr Hcap].
    split; simpl in *; [done| | |].
    + intros y. rewrite HF by done. rewrite Hal.
      case_decide; [|done]. destruct (heap d !! y) as [sub|]; simpl; [|naive_solver].
      split; intros (? & [= <-] & ?); eexists; split; eauto; by rewrite offer_dispatcher in *.
    + intros y sub. rewrite HF by done. case_decide; [|eauto].
      destruct (heap d !! y) eqn:Hy; simpl; [eauto|done].
    + intros y sub. rewrite HF by done. case_decide; [|eauto].
      destruct (heap d !! y) eqn:Hy; simpl; [|done]. intros [= <-]. apply offer_cap. eauto.
  - unfold receive. destruct (heap d !! s) as [[[|x ch] cap dp]|] eqn:Hs; simpl; try done.
    destruct Hwf as [Hnd Hal Hfr Hcap]. split; simpl; [done| | |].
    + intros y. rewrite Hal, lookup_insert. case_decide; [subst; naive_solver|done].
    + intros y sub. rewrite lookup_insert. case_decide; naive_solver.
    + intros y sub. rewrite lookup_insert. case_decide; [|eauto].
      intros [= <-]. apply Hcap in Hs. simpl in *. lia.
Qed.

Lemma NewDispatcher_wf : dispatcher_wf NewDispatcher.
Proof.
  split; simpl; [constructor|..]; [|by intros ??; rewrite lookup_empty..].
  intros s. rewrite lookup_empty. set_solver.
Qed.

Lemma run_ops_wf ops d : dispatcher_wf d -> dispatcher_wf (run_ops ops d).
Proof.
  revert d. induction ops as [|op ops IH]; intros d Hwf; simpl; [done|].
  apply IH, step_op_wf, Hwf.
Qed.

Lemma step_op_subscriptions d op :
  exists l, subscriptions (step_op d op) = subscriptions d ++ l /\
    length l = subscribes [op].
Proof.
  destruct op as [cap|s|x|s]; simpl.
  - by exists [fresh d].
  - rewrite Subscription_Unsubscribe_id. exists []. by rewrite app_nil_r.
  - exists []. by rewrite app_nil_r.
  - exists []. unfold receive.
    destruct (heap d !! s) as [[[|x ch] cap dp]|]; simpl; by rewrite app_nil_r.
Qed.
End dispatcher.
Arguments Subscription : clear implicits.
Arguments Dispatcher : clear implicits.
Arguments dispatcher_op : clear implicits.

(** ** Theorems *)

(** [Unsubscribe] never detaches anything. The guard of
    [Dispatcher.Unsubscribe] is inverted, so for every state and every
    subscription the call leaves the dispatcher unchanged, and along any
    interleaving of operations the dispatcher still holds one entry per
    [Subscribe] ever made. *)
Theorem unsubscribe_never_removes {T} (ops : list (dispatcher_op T)) :
  (forall s d, Subscription_Unsubscribe (T := T) s d = d) /\
  length (subscriptions (run_ops ops NewDispatcher)) = subscribes ops.
Proof.
  split; [intros; apply Subscription_Unsubscribe_id|].
  enough (forall d, length (subscriptions (run_ops ops d))
            = (length (subscriptions d) + subscribes ops)%nat) as H by apply H.
  unfold subscribes. induction ops as [|op ops IH]; intros d; simpl; [lia|].
  rewrite IH, filterb_cons. destruct (step_op_subscriptions d op) as (l & -> & Hl).
  rewrite length_app, Hl. unfold subscribes. rewrite filterb_cons, filterb_nil.
  destruct (is_subscribe op); simpl; lia.
Qed.

(** The loop behind that guard is correct: run on a well-formed
    dispatcher it removes exactly the given subscription, keeps all others
    (in some order) and clears the back pointer. *)
Theorem unsubscribe_loop_removes {T} (d : Dispatcher T) s :
  dispatcher_wf d -> s ∈ subscriptions d ->
  subscriptions d ≡ₚ s :: subscriptions (Unsubscribe_loop s d) /\
  dispatcher <$> heap (Unsubscribe_loop s d) !! s = Some false /\
  (forall s', s' <> s -> heap (Unsubscribe_loop s d) !! s' = heap d !! s').
Proof.
  intros Hwf Hs. unfold Unsubscribe_loop.
  destruct (list_find (fun x => x = s) (subscriptions d)) as [[i x]|] eqn:Hf; cycle 1.
  { apply list_find_None in Hf. rewrite Forall_forall in Hf. by destruct (Hf s Hs). }
  apply list_find_Some in Hf as (Hi & -> & _). simpl. split_and!.
  - set (l := subscriptions d) in *.
    assert (i < length l)%nat as Hlt by (eapply lookup_lt_Some; eauto).
    destruct (l !! (length l - 1)%nat) as [lst|] eqn:Hlast; cycle 1.
    { apply lookup_ge_None in Hlast. lia. }
    pose proof (take_drop_middle l (length l - 1) lst Hlast) as Hl.
    rewrite (drop_ge l (S (length l - 1))) in Hl by lia.
    case_decide as Hi'.
    + rewrite take_insert_lt by lia.
      assert (take (length l - 1) l !! i = Some s) as Hi2 by by rewrite lookup_take_lt.
      pose proof (take_drop_middle _ _ _ Hi2) as Hm.
      rewrite insert_take_drop by (rewrite length_take; lia).
      rewrite <- Hl at 1. rewrite <- Hm at 1. rewrite <- app_assoc. simpl.
      rewrite <- Permutation_middle. constructor.
      rewrite app_assoc. rewrite <- Permutation_cons_append. apply Permutation_middle.
    + assert (i = length l - 1)%nat as -> by lia. simplify_eq.
      rewrite <- Hl at 1. by rewrite <- Permutation_cons_append.
  - rewrite lookup_alter_eq. apply Hwf in Hs as (sub & -> & _). done.
  - intros s' Hne. by rewrite lookup_alter_ne.
Qed.

(** [Fire] appends the event to the channel of every subscription that
    has room, leaves full channels and all other subscriptions untouched, and
    never blocks; no channel ever exceeds its capacity. *)
Theorem Fire_delivers {T} (ops : list (dispatcher_op T)) (x : T) s sub :
  let d := run_ops ops NewDispatcher in
  heap d !! s = Some sub ->
  (length (channel sub) <= capacity sub)%nat /\
  heap (Fire x d) !! s = Some (
    if decide (s ∈ subscriptions d /\ (length (channel sub) < capacity sub)%nat)
    then mkSubscription (channel sub ++ [x]) (capacity sub) (dispatcher sub)
    else sub).
Proof.
  intros d Hs. assert (dispatcher_wf d) as Hwf by apply run_ops_wf, NewDispatcher_wf.
  split; [by eapply dwf_cap|]. rewrite Fire_lookup, Hs by done. simpl. unfold offer.
  repeat case_decide; naive_solver.
Qed.

Definition ex_ops : list (dispatcher_op Z) := [OpSubscribe 1; OpSubscribe 2; OpFire 5].
Definition ex_dispatcher : Dispatcher Z := run_ops ex_ops NewDispatcher.

Lemma unsubscribe_loop_removes_witness :
  subscriptions ex_dispatcher ≡ₚ 0%nat :: subscriptions (Unsubscribe_loop 0 ex_dispatcher).
Proof.
  apply (unsubscribe_loop_removes ex_dispatcher 0).
  - apply run_ops_wf, NewDispatcher_wf.
  - apply (bool_decide_unpack _). by vm_compute.
Defined.

Lemma Fire_delivers_witness :
  heap (Fire 6 ex_dispatcher) !! 0%nat = Some (mkSubscription [5] 1 true) /\
  heap (Fire 6 ex_dispatcher) !! 1%nat = Some (mkSubscription [5; 6] 2 true).
Proof.
  split.
  - apply (Fire_delivers ex_ops 6 0 (mkSubscription [5] 1 true)). by vm_compute.
  - apply (Fire_delivers ex_ops 6 1 (mkSubscription [5] 2 true)). by vm_compute.
Defined.
