(* ===== verification/Vars.v ===== *)
(** * Variable scopes

    pkg/coordinator/vars: the scopes a task reads its configuration from and
    publishes its outputs to.  A scope is a heap cell holding a parent scope,
    variables, defaults and named sub scopes; a [types.Variables] value is a
    pointer to a scope or a [ScopeFilter] wrapped around one.  Reads recurse
    through parents and sub scopes, so they take fuel; [GetVarsMap_total] and
    [LookupVar_total] give fuel where the graph of reads is well founded, which
    ScopeGraph.v shows of every state of a test. *)

From S2P Require Import Prelude.

Open Scope Z_scope.

(** Dynamic Go values ([interface{}]) as far as the code inspects them; a
    [float64] is given by its ["%f"] rendering, the only observation made. *)
Inductive value : Type :=
  | VNil
  | VBool (b : bool)
  | VUint8 (z : Z)
  | VUint64 (z : Z)
  | VInt (z : Z)
  | VFloat (fmt_f : string)
  | VString (s : string)
  | VList (l : list value)
  | VMap (m : gmap string value).

Record variableValue := mkVariableValue { isDefined : bool; vv_value : value }.

Definition zeroVariableValue : variableValue := mkVariableValue false VNil.

(** Go's [m[k]]: the zero value when the key is absent. *)
Definition map_get (m : gmap string variableValue) (k : string) : variableValue :=
  default zeroVariableValue (m !! k).

(** [types.Variables] interface values. *)
Inductive Variables_ref : Type :=
  | Ref (l : nat)
  | ScopeFilter (vars : Variables_ref).

Record Variables := mkVariables {
  parentScope : option Variables_ref;
  varsMap : gmap string variableValue;
  defaultsMap : gmap string variableValue;
  subScopes : gmap string Variables_ref
}.

Record heap := mkHeap { cells : gmap nat Variables; next : nat }.

Definition empty_heap : heap := mkHeap ∅ 0.

Definition NewVariables (parent : option Variables_ref) (h : heap) : heap * Variables_ref :=
  (mkHeap (<[next h := mkVariables parent ∅ ∅ ∅]> (cells h)) (S (next h)), Ref (next h)).

Definition NewScopeFilter (vars : Variables_ref) : Variables_ref := ScopeFilter vars.

(** All mutators of [ScopeFilter] delegate to the wrapped scope. *)
Fixpoint target (v : Variables_ref) : nat :=
  match v with Ref l => l | ScopeFilter v' => target v' end.

Definition update_scope (f : Variables -> Variables) (v : Variables_ref) (h : heap) : heap :=
  mkHeap (alter f (target v) (cells h)) (next h).

Definition SetVar (v : Variables_ref) (name : string) (val : value) : heap -> heap :=
  update_scope (fun s => mkVariables (parentScope s)
    (<[name := mkVariableValue true val]> (varsMap s)) (defaultsMap s) (subScopes s)) v.

Definition SetDefaultVar (v : Variables_ref) (name : string) (val : value) : heap -> heap :=
  update_scope (fun s => mkVariables (parentScope s) (varsMap s)
    (<[name := mkVariableValue true val]> (defaultsMap s)) (subScopes s)) v.

Definition SetSubScope (v : Variables_ref) (name : string) (sub : Variables_ref) : heap -> heap :=
  update_scope (fun s => mkVariables (parentScope s) (varsMap s) (defaultsMap s)
    (<[name := sub]> (subScopes s))) v.

(** [v.NewScope()]: a child scope of the (unwrapped) scope. *)
Definition NewScope (v : Variables_ref) (h : heap) : heap * Variables_ref :=
  NewVariables (Some (Ref (target v))) h.

Definition NewSubScope (v : Variables_ref) (name : string) (h : heap) : heap * Variables_ref :=
  let '(h1, sub) := NewVariables None h in (SetSubScope v name sub h1, sub).

(** [GetVarsMap(varsMap, skipParent)]: sub scopes, then variables, then the
    parent, then defaults, each only adding names not yet present.  [None] is
    running out of fuel (or dereferencing nil). *)
Fixpoint GetVarsMap (fuel : nat) (h : heap) (v : Variables_ref)
    (acc : gmap string value) (skipParent : bool) : option (gmap string value) :=
  match fuel with
  | O => None
  | S fuel =>
      match v with
      | ScopeFilter v' => GetVarsMap fuel h v' acc true
      | Ref l =>
          match cells h !! l with
          | None => None
          | Some s =>
              let newSubs := filter (fun kv => acc !! kv.1 = None) (subScopes s) in
              subs ← map_traverse (fun sub => GetVarsMap fuel h sub ∅ skipParent) newSubs;
              let m1 := acc ∪ (VMap <$> subs) in
              let m2 := m1 ∪ (vv_value <$> varsMap s) in
              m3 ← match parentScope s with
                   | Some p => if skipParent then Some m2 else GetVarsMap fuel h p m2 false
                   | None => Some m2
                   end;
              Some (m3 ∪ (vv_value <$> defaultsMap s))
          end
      end
  end.

(** [LookupVar(name)]: [Some (Some x)] is [(x, true)], [Some None] is
    [(nil, false)], [None] running out of fuel. *)
Fixpoint LookupVar (fuel : nat) (h : heap) (v : Variables_ref) (name : string)
    : option (option value) :=
  match fuel with
  | O => None
  | S fuel =>
      match v with
      | ScopeFilter v' => LookupVar fuel h v' name
      | Ref l =>
          match cells h !! l with
          | None => None
          | Some s =>
              match subScopes s !! name with
              | Some sub => m ← GetVarsMap fuel h sub ∅ false; Some (Some (VMap m))
              | None =>
                  let varValue := map_get (varsMap s) name in
                  let defValue := map_get (defaultsMap s) name in
                  if isDefined varValue then Some (Some (vv_value varValue))
                  else match parentScope s with
                       | Some p => LookupVar fuel h p name
                       | None => Some (if isDefined defValue then Some (vv_value defValue) else None)
                       end
              end
          end
      end
  end.

(** [GetVar(name)]: the same search, [nil] when nothing is found. *)
Fixpoint GetVar (fuel : nat) (h : heap) (v : Variables_ref) (name : string) : option value :=
  match fuel with
  | O => None
  | S fuel =>
      match v with
      | ScopeFilter v' => GetVar fuel h v' name
      | Ref l =>
          match cells h !! l with
          | None => None
          | Some s =>
              match subScopes s !! name with
              | Some sub => VMap <$> GetVarsMap fuel h sub ∅ false
              | None =>
                  let varValue := map_get (varsMap s) name in
                  let defValue := map_get (defaultsMap s) name in
                  if isDefined varValue then Some (vv_value varValue)
                  else match parentScope s with
                       | Some p => GetVar fuel h p name
                       | None => Some (if isDefined defValue then vv_value defValue else VNil)
                       end
              end
          end
      end
  end.

(** [GetSubScope(name)]: the existing sub scope, or a new one whose parent is
    the parent scope's sub scope of that name (created on demand too). *)
Fixpoint GetSubScope (fuel : nat) (v : Variables_ref) (name : string) (h : heap)
    : option (heap * Variables_ref) :=
  match fuel with
  | O => None
  | S fuel =>
      match v with
      | ScopeFilter v' => GetSubScope fuel v' name h
      | Ref l =>
          s ← cells h !! l;
          '(h1, parentSub) ←
            match parentScope s with
            | Some p => '(h1, ps) ← GetSubScope fuel p name h; Some (h1, Some ps)
            | None => Some (h, None)
            end;
          s1 ← cells h1 !! l;
          match subScopes s1 !! name with
          | Some sub => Some (h1, sub)
          | None =>
              let '(h2, sub) := NewVariables parentSub h1 in
              Some (SetSubScope (Ref l) name sub h2, sub)
          end
      end
  end.

(** ** Placeholders and queries *)

(** [regexp]'s [`\${([^}]+)}`] at the head of [s]: the captured name. *)
Fixpoint until_brace (s : string) : option string :=
  match s with
  | "" => None
  | String c s' => if Ascii.eqb c "}"%char then Some "" else String c <$> until_brace s'
  end%string.

Definition match_r1 (s : string) : option (string * nat) :=
  match s with
  | String "$" (String "{" rest) =>
      name ← until_brace rest;
      if String.eqb name "" then None else Some (name, String.length name + 3)%nat
  | _ => None
  end.

(** [`\${{(.*?)}}`] at the head of [s]: the shortest body, without newline. *)
Fixpoint until_braces (s : string) : option string :=
  match s with
  | String "}" (String "}" _) => Some ""
  | String c s' =>
      if Ascii.eqb c (Ascii.ascii_of_nat 10) then None else String c <$> until_braces s'
  | "" => None
  end%string.

Definition match_r2 (s : string) : option (string * nat) :=
  match s with
  | String "$" (String "{" (String "{" rest)) =>
      body ← until_braces rest; Some (body, String.length body + 5)%nat
  | _ => None
  end.

(** [ReplaceAllStringFunc]: leftmost matches, scanned without overlap; [repl]
    receives the capture and the whole match.  [skip] counts the characters of
    the current match still to be dropped. *)
Fixpoint ReplaceAll (mt : string -> option (string * nat)) (repl : string -> string -> string)
    (skip : nat) (s : string) : string :=
  match s with
  | "" => ""
  | String c s' =>
      match skip with
      | S k => ReplaceAll mt repl k s'
      | O =>
          match mt s with
          | Some (cap, len) =>
              (repl cap (String.substring 0 len s) ++ ReplaceAll mt repl (len - 1) s')%string
          | None => String c (ReplaceAll mt repl 0 s')
          end
      end
  end%string.

(** [NoScientificFloat64] values marshal as plain decimals: the trailing zeros
    of the ["%f"] rendering are trimmed, then a trailing point. *)
Fixpoint trim_zeros (rev_str : list Ascii.ascii) : list Ascii.ascii :=
  match rev_str with
  | c :: rest => if Ascii.eqb c "0"%char then trim_zeros rest else rev_str
  | [] => []
  end.

Definition getTrimmedFloat (fmt_f : string) : string :=
  match trim_zeros (reverse (String.list_ascii_of_string fmt_f)) with
  | c :: rest =>
      String.string_of_list_ascii (reverse (if Ascii.eqb c "."%char then rest else c :: rest))
  | [] => ""
  end%string.

Section queries.
(** YAML, jq and the rendering of dynamic values are library code. *)
Context {query : Type}.
Variable fmt_v : value -> string.
Variable yaml_Marshal : value -> result string.
Variable yaml_Unmarshal : string -> gmap string value -> result (gmap string value).
Variable gojq_Parse : string -> result query.
(** The first result of the query's iterator; runtime errors are values. *)
Variable query_Run : query -> gmap string value -> option value.

(** The functions below are [None] only when the scope graph is cyclic. *)
Definition getGeneralizedVarsMap (fuel : nat) (h : heap) (v : Variables_ref)
    : option (result (gmap string value)) :=
  varsMap ← GetVarsMap fuel h v ∅ false;
  Some (match yaml_Marshal (VMap varsMap) with
        | Err e => Err ("could not marshal scope variables: " ++ e)
        | Ok varsMapYaml =>
            match yaml_Unmarshal varsMapYaml varsMap with
            | Err e => Err ("could not unmarshal scope variables: " ++ e)
            | Ok m => Ok m
            end
        end)%string.

(** [Ok (Some x)] is [(x, true, nil)], [Ok None] is [(nil, false, nil)]. *)
Definition Variables_ResolveQuery (fuel : nat) (h : heap) (v : Variables_ref) (queryStr : string)
    : option (result (option value)) :=
  r ← getGeneralizedVarsMap fuel h v;
  Some (match r with
        | Err e => Err ("could not get generalized variables: " ++ e)
        | Ok varsMap =>
            match gojq_Parse ("." ++ queryStr) with
            | Err e => Err ("could not parse variable query '." ++ queryStr ++ "': " ++ e)
            | Ok q => Ok (query_Run q varsMap)
            end
        end)%string.

(** [ScopeFilter.ResolveQuery] delegates to the wrapped scope, whose own
    [GetVarsMap] is not filtered. *)
Definition ResolveQuery (fuel : nat) (h : heap) (v : Variables_ref) (queryStr : string) :=
  Variables_ResolveQuery fuel h (Ref (target v)) queryStr.

Definition resolve_var (fuel : nat) (h : heap) (v : Variables_ref) (name m : string) : string :=
  match LookupVar fuel h v name with
  | Some (Some varValue) => fmt_v varValue
  | _ => m
  end.

Definition resolve_query (fuel : nat) (h : heap) (v : Variables_ref) (q m : string) : string :=
  match ResolveQuery fuel h v q with
  | Some (Ok (Some varValue)) => fmt_v varValue
  | _ => "?"
  end%string.

Definition ResolvePlaceholders (fuel : nat) (h : heap) (v : Variables_ref) (str : string) : string :=
  ReplaceAll match_r2 (resolve_query fuel h v) 0
    (ReplaceAll match_r1 (resolve_var fuel h v) 0 str).

(** [ConsumeVars]'s loop over [consumeMap] (a Go map: any order [kvs]). *)
Fixpoint consume_loop (varsMap : gmap string value) (kvs : list (string * string))
    (applyMap : gmap string value) : result (gmap string value) :=
  match kvs with
  | [] => Ok applyMap
  | (cfgName, varQuery) :: kvs' =>
      match gojq_Parse ("." ++ varQuery) with
      | Err e => Err ("could not parse variable query '." ++ varQuery ++ "': " ++ e)
      | Ok q =>
          match query_Run q varsMap with
          | None => consume_loop varsMap kvs' applyMap
          | Some val =>
              let val := match val with VFloat f => VString (getTrimmedFloat f) | _ => val end in
              consume_loop varsMap kvs' (<[cfgName := val]> applyMap)
          end
      end
  end%string.

(** [ConsumeVars(config, consumeMap)]: the config is decoded from the YAML of
    the query results by [decode], its typed [yaml.Unmarshal]. *)
Definition ConsumeVars {config} (decode : string -> config -> result config)
    (fuel : nat) (h : heap) (v : Variables_ref) (cfg : config)
    (consumeMap : list (string * string)) : option (result config) :=
  r ← getGeneralizedVarsMap fuel h (Ref (target v));
  Some (match r with
        | Err e => Err ("could not get generalized variables: " ++ e)
        | Ok varsMap =>
            match consume_loop varsMap consumeMap ∅ with
            | Err e => Err e
            | Ok applyMap =>
                match yaml_Marshal (VMap applyMap) with
                | Err e => Err ("could not marshal dynamic config vars: " ++ e)
                | Ok applyYaml =>
                    match decode applyYaml cfg with
                    | Err e => Err ("could not unmarshal dynamic config vars: " ++ e)
                    | Ok cfg' => Ok cfg'
                    end
                end
            end
        end)%string.

(** [CopyVars(source, copyMap)]: each result is set before the next query
    runs; an error leaves the variables copied so far. *)
Fixpoint CopyVars (fuel : nat) (v source : Variables_ref) (copyMap : list (string * string))
    (h : heap) : option (heap * result unit) :=
  match copyMap with
  | [] => Some (h, Ok tt)
  | (cfgName, varQuery) :: rest =>
      r ← ResolveQuery fuel h source varQuery;
      match r with
      | Err e => Some (h, Err e)
      | Ok None => CopyVars fuel v source rest h
      | Ok (Some val) => CopyVars fuel v source rest (SetVar v cfgName val h)
      end
  end.
End queries.

(** ** Fuel *)

Lemma map_traverse_mono {A B} (f g : A -> option B) (m : gmap string A) r :
  (forall x y, f x = Some y -> g x = Some y) ->
  map_traverse f m = Some r -> map_traverse g m = Some r.
Proof.
  intros Hfg Hm.
  assert (is_Some (map_traverse g m)) as [r' Hr'].
  { apply map_traverse_total. intros k x Hk.
    destruct (map_traverse_is_Some_inv _ _ _ _ _ Hm Hk); eauto. }
  rewrite Hr'. f_equal. apply map_eq. intros k.
  destruct (map_traverse_Some _ _ _ Hm k) as [-> _].
  destruct (map_traverse_Some _ _ _ Hr' k) as [-> _].
  destruct (m !! k) as [x|] eqn:Hk; [|done]. simpl.
  destruct (map_traverse_is_Some_inv _ _ _ _ _ Hm Hk) as [y Hy].
  by rewrite Hy, (Hfg _ _ Hy).
Qed.

Lemma GetVarsMap_mono n n' h v acc skip m :
  GetVarsMap n h v acc skip = Some m -> (n <= n')%nat ->
  GetVarsMap n' h v acc skip = Some m.
Proof.
  revert n' v acc skip m. induction n as [|n IH]; intros [|n'] v acc skip m H Hle; simpl in *;
    try done; [lia|].
  destruct v as [l|v]; [|eapply IH; eauto; lia].
  destruct (cells h !! l) as [s|]; [|done].
  destruct (map_traverse _ _) as [subs|] eqn:Hsubs; simpl in H; [|done].
  assert (n <= n')%nat as Hle' by lia.
  rewrite (map_traverse_mono _ (fun sub => GetVarsMap n' h sub ∅ skip) _ _
    (fun x y Hx => IH n' x _ _ _ Hx Hle') Hsubs). simpl.
  destruct (parentScope s) as [p|]; [|done]. destruct skip; [done|].
  destruct (GetVarsMap n h p _ false) as [m3|] eqn:Hp; simpl in H; [|done].
  erewrite IH; [exact H|exact Hp|lia].
Qed.

Lemma GetVarsMap_det n n' h v acc skip m m' :
  GetVarsMap n h v acc skip = Some m -> GetVarsMap n' h v acc skip = Some m' -> m = m'.
Proof.
  intros H H'. eapply (GetVarsMap_mono _ (max n n')) in H; [|lia].
  eapply (GetVarsMap_mono _ (max n n')) in H'; [|lia]. congruence.
Qed.

Lemma LookupVar_mono n n' h v name r :
  LookupVar n h v name = Some r -> (n <= n')%nat -> LookupVar n' h v name = Some r.
Proof.
  revert n' v r. induction n as [|n IH]; intros [|n'] v r H Hle; simpl in *; try done; [lia|].
  destruct v as [l|v]; [|eapply IH; eauto; lia].
  destruct (cells h !! l) as [s|]; [|done].
  destruct (subScopes s !! name) as [sub|].
  - destruct (GetVarsMap n h sub ∅ false) as [m|] eqn:Hm; simpl in H; [|done].
    erewrite GetVarsMap_mono; [exact H|exact Hm|lia].
  - destruct (isDefined _); [done|]. destruct (parentScope s); [|done]. eapply IH; eauto; lia.
Qed.

(** [LookupVar] and [GetVar] make the same search. *)
Lemma GetVar_LookupVar n h v name :
  GetVar n h v name = (default VNil <$> LookupVar n h v name).
Proof.
  revert v. induction n as [|n IH]; intros v; simpl; [done|].
  destruct v as [l|v]; [|apply IH].
  destruct (cells h !! l) as [s|]; [|done].
  destruct (subScopes s !! name) as [sub|].
  - by destruct (GetVarsMap n h sub ∅ false).
  - destruct (isDefined (map_get (varsMap s) name)); [done|].
    destruct (parentScope s) as [p|]; [apply IH|]. by destruct (isDefined _).
Qed.

(** ** Termination

    [reads h (v, skip) (v', skip')]: evaluating [GetVarsMap] at [v] may call
    it at [v'].  A [ScopeFilter] drops the edge to the parent, which is what
    makes a sub scope that points back to its owner harmless. *)
Inductive reads (h : heap) : Variables_ref * bool -> Variables_ref * bool -> Prop :=
  | reads_filter v skip : reads h (v, true) (ScopeFilter v, skip)
  | reads_sub l s name sub skip :
      cells h !! l = Some s -> subScopes s !! name = Some sub ->
      reads h (sub, skip) (Ref l, skip)
  | reads_parent l s p :
      cells h !! l = Some s -> parentScope s = Some p ->
      reads h (p, false) (Ref l, false).

(** Every pointer stored in a scope leads to an allocated scope, and every
    stored variable is marked defined. *)
Definition scope_wf (h : heap) (s : Variables) : Prop :=
  (forall p, parentScope s = Some p -> is_Some (cells h !! target p)) /\
  (forall name sub, subScopes s !! name = Some sub -> is_Some (cells h !! target sub)) /\
  map_Forall (fun _ vv => isDefined vv = true) (varsMap s) /\
  map_Forall (fun _ vv => isDefined vv = true) (defaultsMap s).

Definition heap_wf (h : heap) : Prop :=
  (forall l, is_Some (cells h !! l) -> (l < next h)%nat) /\
  map_Forall (fun _ s => scope_wf h s) (cells h).

Lemma map_traverse_bounded (G : nat -> Variables_ref -> option (gmap string value))
    (m : gmap string Variables_ref) :
  (forall n n' x r, G n x = Some r -> (n <= n')%nat -> G n' x = Some r) ->
  (forall k x, m !! k = Some x -> exists n, is_Some (G n x)) ->
  exists n, is_Some (map_traverse (G n) m).
Proof.
  intros Hmono. induction m as [|k x m Hk IH] using map_ind; intros Hex.
  - exists O. apply map_traverse_total. intros k x. by rewrite lookup_empty.
  - destruct IH as [n1 [r1 H1]].
    { intros k' x' Hk'. apply (Hex k'). rewrite lookup_insert_ne; [done|congruence]. }
    destruct (Hex k x) as [n2 [r2 H2]]; [by rewrite lookup_insert_eq|].
    exists (max n1 n2). apply map_traverse_total. intros k' x' Hk'.
    destruct (decide (k' = k)) as [->|Hne].
    + rewrite lookup_insert_eq in Hk'. simplify_eq. exists r2. eapply Hmono; [exact H2|lia].
    + rewrite lookup_insert_ne in Hk' by done.
      destruct (map_traverse_is_Some_inv _ _ _ _ _ H1 Hk') as [r' Hr'].
      exists r'. eapply Hmono; [exact Hr'|lia].
Qed.

(** Where the graph of reads from a scope is well founded, [GetVarsMap]
    terminates: some fuel suffices, and more never changes the result. *)
Lemma GetVarsMap_total h v skip :
  heap_wf h -> is_Some (cells h !! target v) -> Acc (reads h) (v, skip) ->
  exists n, forall acc, is_Some (GetVarsMap n h v acc skip).
Proof.
  intros Hwf Hv Hacc. remember (v, skip) as vs eqn:Hvs. revert v skip Hvs Hv.
  induction Hacc as [vs _ IH]; intros v skip -> Hv.
  destruct v as [l|v].
  - simpl in Hv. destruct Hv as [s Hs].
    destruct (proj2 Hwf l s Hs) as (Hp & Hsub & _).
    destruct (map_traverse_bounded (fun n x => GetVarsMap n h x ∅ skip) (subScopes s))
      as [n1 [subs Hsubs]].
    { intros. eapply GetVarsMap_mono; eauto. }
    { intros k x Hk. edestruct (IH (x, skip)) as [n Hn]; eauto using reads_sub. }
    assert (exists n2, forall p acc, parentScope s = Some p -> skip = false ->
      is_Some (GetVarsMap n2 h p acc false)) as [n2 Hn2].
    { destruct (parentScope s) as [p|] eqn:Hps; [|by exists O].
      destruct skip; [by exists O|].
      edestruct (IH (p, false)) as [n2 Hn2]; eauto using reads_parent.
      exists n2. intros p' acc [= <-] _. apply Hn2. }
    exists (S (max n1 n2)). intros acc. simpl. rewrite Hs.
    destruct (map_traverse_total (fun sub => GetVarsMap (max n1 n2) h sub ∅ skip)
      (filter (fun kv => acc !! kv.1 = None) (subScopes s))) as [r Hr].
    { intros k x [Hk _]%map_lookup_filter_Some.
      destruct (map_traverse_is_Some_inv _ _ _ _ _ Hsubs Hk) as [r' Hr'].
      exists r'. eapply GetVarsMap_mono; [exact Hr'|lia]. }
    rewrite Hr. simpl.
    destruct (parentScope s) as [p|] eqn:Hps; [|done]. destruct skip; [done|].
    destruct (Hn2 p ((acc ∪ (VMap <$> r)) ∪ (vv_value <$> varsMap s)) eq_refl eq_refl) as [m3 Hm3].
    erewrite GetVarsMap_mono; [|exact Hm3|lia]. done.
  - edestruct (IH (v, true)) as [n Hn]; eauto using reads_filter.
    exists (S n). simpl. intros acc. apply Hn.
Qed.

(** ** The operations keep the heap well formed *)

(** One call on the scopes of a heap, through pointers to allocated scopes. *)
Inductive vars_step (h : heap) : heap -> Prop :=
  | step_NewVariables parent :
      (forall p, parent = Some p -> is_Some (cells h !! target p)) ->
      vars_step h (NewVariables parent h).1
  | step_SetVar v name val : vars_step h (SetVar v name val h)
  | step_SetDefaultVar v name val : vars_step h (SetDefaultVar v name val h)
  | step_SetSubScope v name sub :
      is_Some (cells h !! target sub) -> vars_step h (SetSubScope v name sub h)
  | step_NewScope v : is_Some (cells h !! target v) -> vars_step h (NewScope v h).1
  | step_NewSubScope v name : vars_step h (NewSubScope v name h).1
  | step_GetSubScope n v name h' sub :
      GetSubScope n v name h = Some (h', sub) -> vars_step h h'.

Lemma scope_wf_grow h h' s :
  (forall l, is_Some (cells h !! l) -> is_Some (cells h' !! l)) -> scope_wf h s -> scope_wf h' s.
Proof. intros Hle (Hp & Hs & Hv & Hd). split_and!; eauto. Qed.

Lemma heap_wf_NewVariables parent h :
  heap_wf h -> (forall p, parent = Some p -> is_Some (cells h !! target p)) ->
  heap_wf (NewVariables parent h).1.
Proof.
  intros [Hfresh Hall] Hp. unfold NewVariables. simpl.
  assert (forall l, is_Some (cells h !! l) ->
    is_Some (<[next h:=mkVariables parent ∅ ∅ ∅]> (cells h) !! l)) as Hgrow.
  { intros l Hl. rewrite lookup_insert_is_Some. destruct (decide (next h = l)); auto. }
  split; simpl.
  - intros l. rewrite lookup_insert_is_Some. intros [->|[_ Hl%Hfresh]]; lia.
  - apply map_Forall_insert_2.
    + split_and!; simpl; eauto; try apply map_Forall_empty.
    + intros l s Hs. eapply scope_wf_grow; [exact Hgrow|]. by eapply Hall.
Qed.

Lemma heap_wf_update f v h :
  heap_wf h ->
  (forall s, scope_wf h s -> scope_wf h (f s)) -> heap_wf (update_scope f v h).
Proof.
  intros [Hfresh Hall] Hf. unfold update_scope. split; simpl.
  - intros l Hl. apply Hfresh. by rewrite lookup_alter_is_Some in Hl.
  - intros l s Hs. eapply (scope_wf_grow h); simpl.
    { intros l' Hl'. by rewrite lookup_alter_is_Some. }
    destruct (decide (target v = l)) as [<-|Hne].
    + rewrite lookup_alter_eq, fmap_Some in Hs. destruct Hs as (s0 & Hs0 & ->).
      apply Hf. by eapply Hall.
    + rewrite lookup_alter_ne in Hs by done. by eapply Hall.
Qed.

Lemma heap_wf_SetSubScope v name sub h :
  heap_wf h -> is_Some (cells h !! target sub) -> heap_wf (SetSubScope v name sub h).
Proof.
  intros Hwf Hsub. apply heap_wf_update; [done|]. intros s (Hp & Hs & Hv & Hd).
  split_and!; simpl; eauto. intros name' sub' [[_ <-]|[_ Hl]]%lookup_insert_Some; eauto.
Qed.

Lemma NewVariables_fresh parent h :
  is_Some (cells (NewVariables parent h).1 !! target (NewVariables parent h).2).
Proof. simpl. by rewrite lookup_insert_eq. Qed.

Lemma GetSubScope_wf n v name h h' sub :
  GetSubScope n v name h = Some (h', sub) -> heap_wf h ->
  heap_wf h' /\ is_Some (cells h' !! target sub) /\
  (forall l, is_Some (cells h !! l) -> is_Some (cells h' !! l)).
Proof.
  revert v h h' sub. induction n as [|n IH]; intros v h h' sub H Hwf; simpl in H; [done|].
  destruct v as [l|v]; [|by eapply IH].
  destruct (cells h !! l) as [s|] eqn:Hl; simpl in H; [|done].
  assert (exists h1 ps, match parentScope s with
    | Some p => '(h1, ps) ← GetSubScope n p name h; Some (h1, Some ps)
    | None => Some (h, None) end = Some (h1, ps) /\ heap_wf h1 /\
    (forall p, ps = Some p -> is_Some (cells h1 !! target p)) /\
    (forall l, is_Some (cells h !! l) -> is_Some (cells h1 !! l))) as (h1 & ps & Heq & Hwf1 & Hps & Hgrow).
  { destruct (parentScope s) as [p|]; [|by exists h, None].
    destruct (GetSubScope n p name h) as [[h1 ps]|] eqn:Hg; simpl in H; [|done].
    destruct (IH _ _ _ _ Hg Hwf) as (? & ? & ?). exists h1, (Some ps). split_and!; auto.
    by intros p' [= <-]. }
  rewrite Heq in H. simpl in H.
  destruct (cells h1 !! l) as [s1|] eqn:Hl1; simpl in H; [|done].
  destruct (subScopes s1 !! name) as [sub'|] eqn:Hsub; simplify_eq.
  - split_and!; auto. by eapply (proj2 Hwf1 l s1).
  - pose proof (heap_wf_NewVariables ps h1 Hwf1 Hps) as Hwf2.
    pose proof (NewVariables_fresh ps h1) as Hnew. split_and!.
    + by apply heap_wf_SetSubScope.
    + unfold SetSubScope, update_scope. simpl. rewrite lookup_alter_is_Some. apply Hnew.
    + intros l' Hl'%Hgrow. unfold SetSubScope, update_scope. simpl.
      rewrite lookup_alter_is_Some, lookup_insert_is_Some.
      destruct (decide (next h1 = l')); auto.
Qed.

Lemma vars_step_wf h h' : vars_step h h' -> heap_wf h -> heap_wf h'.
Proof.
  intros Hstep Hwf. destruct Hstep.
  - by apply heap_wf_NewVariables.
  - apply heap_wf_update; [done|]. intros s (?&?&?&?).
    split_and!; simpl; auto. by apply map_Forall_insert_2.
  - apply heap_wf_update; [done|]. intros s (?&?&?&?).
    split_and!; simpl; auto. by apply map_Forall_insert_2.
  - by apply heap_wf_SetSubScope.
  - apply heap_wf_NewVariables; [done|]. by intros p [= <-].
  - apply heap_wf_SetSubScope; [by apply heap_wf_NewVariables|]. apply NewVariables_fresh.
  - by eapply GetSubScope_wf.
Qed.

Lemma empty_heap_wf : heap_wf empty_heap.
Proof. split; [by intros l [? ?]|apply map_Forall_empty]. Qed.

Lemma vars_steps_wf h h' : rtc vars_step h h' -> heap_wf h -> heap_wf h'.
Proof. induction 1; eauto using vars_step_wf. Qed.

(** Every sequence of calls that create, write and connect variable scopes
    leaves a well-formed heap: each parent and sub scope pointer leads to an
    allocated scope, and each stored variable or default is marked defined (so
    [isDefined] distinguishes exactly the absent names). *)
Theorem heap_wf_reachable h :
  rtc vars_step empty_heap h -> heap_wf h.
Proof. intros Hr. eapply vars_steps_wf; [exact Hr|apply empty_heap_wf]. Qed.

(** ** What a name denotes

    [chain h v ss]: [ss] are the scopes from [v] up to the root, none of them
    behind a filter. *)
Inductive chain (h : heap) : Variables_ref -> list Variables -> Prop :=
  | chain_root l s :
      cells h !! l = Some s -> parentScope s = None -> chain h (Ref l) [s]
  | chain_child l s p ss :
      cells h !! l = Some s -> parentScope s = Some p -> chain h p ss ->
      chain h (Ref l) (s :: ss).

(** The innermost sub scope or variable called [name]. *)
Fixpoint first_var (ss : list Variables) (name : string) : option (Variables_ref + value) :=
  match ss with
  | [] => None
  | s :: ss' =>
      match subScopes s !! name, varsMap s !! name with
      | Some sub, _ => Some (inl sub)
      | None, Some vv => Some (inr (vv_value vv))
      | None, None => first_var ss' name
      end
  end.

(** The outermost default called [name]. *)
Fixpoint outer_default (ss : list Variables) (name : string) : option value :=
  match ss with
  | [] => None
  | s :: ss' =>
      match outer_default ss' name with
      | Some d => Some d
      | None => vv_value <$> defaultsMap s !! name
      end
  end.

Definition root_default (ss : list Variables) (name : string) : option value :=
  s ← last ss; vv_value <$> defaultsMap s !! name.

Definition layered (ss : list Variables) (name : string) : option (Variables_ref + value) :=
  match first_var ss name with Some b => Some b | None => inr <$> outer_default ss name end.

(** A sub scope stands for the map of its own variables. *)
Definition denotes (h : heap) (b : Variables_ref + value) (x : value) : Prop :=
  match b with
  | inl sub => exists n m, GetVarsMap n h sub ∅ false = Some m /\ x = VMap m
  | inr y => x = y
  end.

(** [x] is what the binding [b], if any, stands for. *)
Definition denotes_opt (h : heap) (b : option (Variables_ref + value)) (x : option value) : Prop :=
  match b, x with
  | Some b, Some x => denotes h b x
  | None, None => True
  | _, _ => False
  end.

Lemma denotes_det h b x y : denotes h b x -> denotes h b y -> x = y.
Proof.
  destruct b as [sub|z]; simpl; [|congruence].
  intros (n & m & Hm & ->) (n' & m' & Hm' & ->). f_equal. by eapply GetVarsMap_det.
Qed.

Lemma denotes_opt_det h b x y : denotes_opt h b x -> denotes_opt h b y -> x = y.
Proof.
  destruct b, x, y; simpl; try done. intros. f_equal. by eapply denotes_det.
Qed.

(** One scope's own sub scopes and variables, added to [acc]. *)
Lemma own_layer n h s acc subs name :
  map_traverse (fun sub => GetVarsMap n h sub ∅ false)
    (filter (fun kv => acc !! kv.1 = None) (subScopes s)) = Some subs ->
  acc !! name = None ->
  let m := (acc ∪ (VMap <$> subs)) ∪ (vv_value <$> varsMap s) in
  match subScopes s !! name, varsMap s !! name with
  | Some sub, _ => exists x, m !! name = Some x /\ denotes h (inl sub) x
  | None, Some vv => m !! name = Some (vv_value vv)
  | None, None => m !! name = None
  end.
Proof.
  intros Hsubs Hacc m.
  destruct (map_traverse_Some _ _ _ Hsubs name) as [Hlk Hsome].
  rewrite map_lookup_filter in Hlk, Hsome.
  unfold m. rewrite !lookup_union, !lookup_fmap, Hacc.
  destruct (subScopes s !! name) as [sub|]; simpl in *.
  - rewrite option_guard_True in Hlk, Hsome by done. simpl in *.
    destruct Hsome as [m' Hm']; [done|]. rewrite Hm' in *. symmetry in Hlk.
    exists (VMap m'). split; [|by exists n, m']. by destruct (varsMap s !! name).
  - rewrite Hlk. by destruct (varsMap s !! name).
Qed.

Lemma layer_default (m : gmap string value) (d : gmap string variableValue) name :
  (m ∪ (vv_value <$> d)) !! name =
    match m !! name with Some x => Some x | None => vv_value <$> d !! name end.
Proof.
  destruct (m !! name) as [x|] eqn:Hm; [by apply lookup_union_Some_l|].
  by rewrite lookup_union_r, lookup_fmap.
Qed.

Lemma GetVarsMap_layered n h v ss acc m name :
  chain h v ss -> GetVarsMap n h v acc false = Some m ->
  match acc !! name with
  | Some x => m !! name = Some x
  | None => denotes_opt h (layered ss name) (m !! name)
  end.
Proof.
  intros Hc. revert n acc m. unfold layered.
  induction Hc as [l s Hl Hp|l s p ss Hl Hp _ IH]; intros [|n] acc m H; simpl in H; try done;
    rewrite Hl in H; destruct (map_traverse _ _) as [subs|] eqn:Hsubs; simpl in H; try done;
    rewrite Hp in H; simpl in H.
  - simplify_eq. destruct (acc !! name) as [x|] eqn:Hacc.
    { by do 3 apply lookup_union_Some_l. }
    pose proof (own_layer _ _ _ _ _ _ Hsubs Hacc) as Hown. cbv zeta in Hown.
    rewrite layer_default. cbn [first_var outer_default].
    destruct (subScopes s !! name) as [sub|]; [|destruct (varsMap s !! name) as [vv|]].
    + by destruct Hown as (x & -> & Hd).
    + by rewrite Hown.
    + rewrite Hown. by destruct (defaultsMap s !! name).
  - destruct (GetVarsMap n h p _ false) as [m3|] eqn:Hm3; simpl in H; [|done]. simplify_eq.
    apply IH in Hm3. destruct (acc !! name) as [x|] eqn:Hacc.
    { apply lookup_union_Some_l.
      by erewrite lookup_union_Some_l in Hm3; [|by apply lookup_union_Some_l]. }
    pose proof (own_layer _ _ _ _ _ _ Hsubs Hacc) as Hown. cbv zeta in Hown.
    rewrite layer_default. cbn [first_var outer_default].
    destruct (subScopes s !! name) as [sub|]; [|destruct (varsMap s !! name) as [vv|]].
    + destruct Hown as (x & Hx & Hd). rewrite Hx in Hm3. by rewrite Hm3.
    + rewrite Hown in Hm3. by rewrite Hm3.
    + rewrite Hown in Hm3. destruct (first_var ss name) as [b|]; simpl in *.
      { by destruct (m3 !! name). }
      destruct (outer_default ss name) as [d|]; simpl in *; [by destruct (m3 !! name)|].
      destruct (m3 !! name); [done|]. by destruct (defaultsMap s !! name).
Qed.

Lemma isDefined_map_get (m : gmap string variableValue) name :
  map_Forall (fun _ vv => isDefined vv = true) m ->
  isDefined (map_get m name) = bool_decide (is_Some (m !! name)) /\
  (is_Some (m !! name) -> Some (vv_value (map_get m name)) = vv_value <$> m !! name).
Proof.
  intros Hm. unfold map_get. destruct (m !! name) as [vv|] eqn:Hk; simpl.
  - by rewrite (Hm _ _ Hk).
  - split; [done|]. by intros [??].
Qed.

Lemma LookupVar_layered n h v ss name r :
  heap_wf h -> chain h v ss -> LookupVar n h v name = Some r ->
  match first_var ss name with
  | Some b => denotes_opt h (Some b) r
  | None => r = root_default ss name
  end.
Proof.
  intros [_ Hwf] Hc. revert n r.
  induction Hc as [l s Hl Hp|l s p ss Hl Hp Hc IH]; intros [|n] r H; simpl in H; try done;
    rewrite Hl, Hp in H; destruct (Hwf _ _ Hl) as (_ & _ & Hvars & Hdefs); simpl;
    destruct (subScopes s !! name) as [sub|].
  1,3: destruct (GetVarsMap n h sub ∅ false) as [m|] eqn:Hm; simpl in H; simplify_eq; by exists n, m.
  all: destruct (isDefined_map_get _ name Hvars) as [Hd Hv]; rewrite Hd in H; clear Hd;
    case_bool_decide as Hsome.
  - injection H as <-. destruct Hsome as [vv Hvv]. rewrite Hvv in *.
    by injection (Hv (mk_is_Some _ _ eq_refl)).
  - apply eq_None_not_Some in Hsome as ->. injection H as <-.
    unfold root_default. simpl. destruct (isDefined_map_get _ name Hdefs) as [-> Hv'].
    case_bool_decide as Hs; [by rewrite Hv'|]. by apply eq_None_not_Some in Hs as ->.
  - injection H as <-. destruct Hsome as [vv Hvv]. rewrite Hvv in *.
    by injection (Hv (mk_is_Some _ _ eq_refl)).
  - apply eq_None_not_Some in Hsome as ->. specialize (IH _ _ H).
    destruct (first_var ss name); [done|]. rewrite IH. unfold root_default.
    by destruct Hc.
Qed.

(** What a task's configuration can see.  For a scope whose ancestors are
    the scopes [ss], the map handed to jq queries binds a name to the innermost
    sub scope or variable of that name, and, when there is none, to the
    outermost default: sub scopes shadow variables, inner scopes shadow outer
    ones, variables anywhere on the chain shadow every default. *)
Theorem GetVarsMap_precedence n h v ss m name :
  chain h v ss -> GetVarsMap n h v ∅ false = Some m ->
  denotes_opt h (layered ss name) (m !! name).
Proof.
  intros Hc Hm. pose proof (GetVarsMap_layered _ _ _ _ _ _ name Hc Hm) as H.
  by rewrite lookup_empty in H.
Qed.

(** The lookup behind [${name}] placeholders agrees with the variables
    map behind queries, for every name that no scope below the root gives a
    default ([outer_default] is the root's own). *)
Theorem LookupVar_agrees n n' h v ss name m r :
  heap_wf h -> chain h v ss ->
  outer_default ss name = root_default ss name ->
  GetVarsMap n h v ∅ false = Some m -> LookupVar n' h v name = Some r ->
  r = m !! name.
Proof.
  intros Hwf Hc Hdef Hm%(GetVarsMap_layered _ _ _ _ _ _ name Hc) Hr%(LookupVar_layered _ _ _ _ _ _ Hwf Hc).
  rewrite lookup_empty in Hm. unfold layered in Hm.
  destruct (first_var ss name) as [b|]; [by eapply denotes_opt_det|].
  subst r. rewrite Hdef in Hm. destruct (root_default ss name), (m !! name); simpl in *; by subst.
Qed.

(** A default set on a scope that has a parent is invisible to
    placeholders and [GetVar], although the variables map contains it: when no
    scope of the chain holds [name] and the root has no default for it, the
    lookup finds nothing whatever the scope's own default is. *)
Theorem LookupVar_ignores_own_default n n' h l s p ss name d m r :
  heap_wf h -> cells h !! l = Some s -> parentScope s = Some p -> chain h p ss ->
  defaultsMap s !! name = Some d ->
  first_var (s :: ss) name = None -> outer_default ss name = None ->
  GetVarsMap n h (Ref l) ∅ false = Some m -> LookupVar n' h (Ref l) name = Some r ->
  m !! name = Some (vv_value d) /\ r = None /\ GetVar n' h (Ref l) name = Some VNil.
Proof.
  intros Hwf Hl Hp Hc Hd Hfirst Hout Hm Hr.
  assert (chain h (Ref l) (s :: ss)) as Hc' by eauto using chain_child.
  pose proof (GetVarsMap_layered _ _ _ _ _ _ name Hc' Hm) as Hg.
  pose proof (LookupVar_layered _ _ _ _ _ _ Hwf Hc' Hr) as Hlk.
  rewrite lookup_empty in Hg. unfold layered in Hg. rewrite Hfirst in Hg, Hlk.
  simpl in Hg. rewrite Hout, Hd in Hg. simpl in Hg.
  assert (forall ss, outer_default ss name = None -> root_default ss name = None) as Hroot.
  { clear. unfold root_default. induction ss as [|s ss IH]; [done|]. simpl.
    destruct (outer_default ss name) eqn:Ho; [done|]. specialize (IH eq_refl).
    destruct ss; [done|]. by intros _. }
  assert (r = None) as ->.
  { rewrite Hlk, <- (Hroot ss Hout). unfold root_default. by destruct Hc. }
  split_and!; [|done|by rewrite GetVar_LookupVar, Hr].
  destruct (m !! name); simpl in Hg; [by subst|done].
Qed.

Lemma LookupVar_total h v ss name :
  heap_wf h -> chain h v ss -> Acc (reads h) (v, false) ->
  exists n, is_Some (LookupVar n h v name).
Proof.
  intros Hwf Hc. induction Hc as [l s Hl Hp|l s p ss Hl Hp _ IH]; intros Hacc;
    destruct (subScopes s !! name) as [sub|] eqn:Hsub.
  1,3: destruct (GetVarsMap_total h sub false Hwf) as [n Hn];
    [by eapply (proj2 Hwf l s)|eapply Acc_inv; [exact Hacc|by eapply reads_sub]|];
    destruct (Hn ∅) as [m Hm]; exists (S n); simpl; by rewrite Hl, Hsub, Hm.
  - exists 1%nat. simpl. rewrite Hl, Hsub, Hp. by destruct (isDefined _).
  - destruct IH as [n Hn]; [eapply Acc_inv; [exact Hacc|by eapply reads_parent]|].
    exists (S n). simpl. rewrite Hl, Hsub, Hp. by destruct (isDefined _).
Qed.

(** ** Placeholders *)

Lemma until_brace_app name rest :
  free_of "}"%char name = true -> until_brace (name +:+ "}" +:+ rest) = Some name.
Proof.
  induction name as [|c name IH]; [done|].
  rewrite string_app_cons. cbn [free_of until_brace].
  intros [Hc Hn]%andb_prop. rewrite Ascii.eqb_sym in Hc.
  destruct (Ascii.eqb c "}"%char); [done|]. by rewrite IH.
Qed.

Lemma ReplaceAll_skip mt repl pre rest :
  ReplaceAll mt repl (String.length pre) (pre +:+ rest) = ReplaceAll mt repl 0 rest.
Proof. induction pre; [|done]. by destruct rest. Qed.

Lemma ReplaceAll_literal mt repl pre rest :
  (forall s, free_of "$"%char (String.substring 0 1 s) = true -> mt s = None) ->
  free_of "$"%char pre = true ->
  ReplaceAll mt repl 0 (pre +:+ rest) = (pre +:+ ReplaceAll mt repl 0 rest)%string.
Proof.
  intros Hmt. induction pre as [|c pre IH]; [done|]. rewrite !string_app_cons. cbn [free_of ReplaceAll].
  intros [Hc Hp]%andb_prop. rewrite Hmt; [by rewrite IH|].
  cbn [String.substring free_of]. rewrite Hc. by destruct (pre +:+ rest)%string.
Qed.

Lemma match_r1_dollar s : free_of "$"%char (String.substring 0 1 s) = true -> match_r1 s = None.
Proof.
  destruct s as [|c s]; [done|]. cbn [String.substring free_of]. intros [Hc _]%andb_prop.
  destruct (Ascii.eqb_spec "$"%char c) as [<-|Hne]; [done|].
  destruct c as [[] [] [] [] [] [] [] []]; try done.
Qed.

Lemma match_r2_dollar s : free_of "$"%char (String.substring 0 1 s) = true -> match_r2 s = None.
Proof.
  destruct s as [|c s]; [done|]. cbn [String.substring free_of]. intros [Hc _]%andb_prop.
  destruct (Ascii.eqb_spec "$"%char c) as [<-|Hne]; [done|].
  destruct c as [[] [] [] [] [] [] [] []]; try done.
Qed.

Lemma substring_app (pre rest : string) :
  String.substring 0 (String.length pre) (pre +:+ rest) = pre.
Proof.
  induction pre as [|c pre IH]; [by destruct rest|].
  rewrite string_app_cons. cbn [String.length String.substring]. by rewrite IH.
Qed.

Lemma ReplaceAll_match mt repl cap pre rest :
  pre <> ""%string -> mt (pre +:+ rest)%string = Some (cap, String.length pre) ->
  ReplaceAll mt repl 0 (pre +:+ rest) = (repl cap pre +:+ ReplaceAll mt repl 0 rest)%string.
Proof.
  intros Hne Hmt. pose proof (substring_app pre rest) as Hsub.
  destruct pre as [|c pre]; [done|]. rewrite string_app_cons in *. cbn [ReplaceAll].
  rewrite Hmt, Hsub. cbn [String.length]. by rewrite Nat.sub_1_r, Nat.pred_succ, ReplaceAll_skip.
Qed.

Lemma string_length_app (s t : string) :
  String.length (s +:+ t) = (String.length s + String.length t)%nat.
Proof. induction s as [|c s IH]; [done|]. rewrite string_app_cons. simpl. by rewrite IH. Qed.

Lemma free_of_app c s t : free_of c (s +:+ t) = free_of c s && free_of c t.
Proof.
  induction s as [|d s IH]; [done|]. rewrite string_app_cons. simpl. by rewrite IH, andb_assoc.
Qed.

Definition newline : Ascii.ascii := Ascii.ascii_of_nat 10.

Lemma until_braces_app q rest :
  free_of "}"%char q = true -> free_of newline q = true ->
  until_braces (q +:+ "}}" +:+ rest) = Some q.
Proof.
  induction q as [|c q IH]; [done|]. rewrite string_app_cons. cbn [free_of].
  intros [Hc Hq]%andb_prop [Hn Hq']%andb_prop.
  assert (until_braces (String c (q +:+ "}}" +:+ rest)) =
    String c <$> until_braces (q +:+ "}}" +:+ rest)) as ->; [|by rewrite IH].
  rewrite Ascii.eqb_sym in Hn. cbn [until_braces].
  change (Ascii.ascii_of_nat 10) with newline. apply negb_true_iff in Hn. rewrite Hn.
  destruct (Ascii.eqb_spec "}"%char c) as [<-|Hne]; [done|].
  destruct c as [[] [] [] [] [] [] [] []]; try done.
Qed.

Lemma match_r1_name name rest :
  name <> ""%string -> free_of "}"%char name = true ->
  match_r1 (("${" +:+ name +:+ "}") +:+ rest) =
    Some (name, String.length ("${" +:+ name +:+ "}")).
Proof.
  intros Hne Hfree. rewrite !string_app_assoc.
  change (match_r1 ("${" +:+ name +:+ "}" +:+ rest))
    with (cap ← until_brace (name +:+ "}" +:+ rest);
          if String.eqb cap "" then None else Some (cap, String.length cap + 3)%nat).
  rewrite until_brace_app by done. simpl. rewrite (proj2 (String.eqb_neq _ _) Hne).
  rewrite !string_length_app. simpl. repeat f_equal. lia.
Qed.

Lemma match_r2_body q rest :
  free_of "}"%char q = true -> free_of newline q = true ->
  match_r2 (("${{" +:+ q +:+ "}}") +:+ rest) =
    Some (q, String.length ("${{" +:+ q +:+ "}}")).
Proof.
  intros Hq Hn. rewrite !string_app_assoc.
  change (match_r2 ("${{" +:+ q +:+ "}}" +:+ rest))
    with (body ← until_braces (q +:+ "}}" +:+ rest); Some (body, String.length body + 5)%nat).
  rewrite until_braces_app by done. simpl. rewrite !string_length_app. simpl. repeat f_equal. lia.
Qed.

Section placeholders.
Context {query : Type} (fmt_v : value -> string)
  (yaml_Marshal : value -> result string)
  (yaml_Unmarshal : string -> gmap string value -> result (gmap string value))
  (gojq_Parse : string -> result query)
  (query_Run : query -> gmap string value -> option value)
  (fuel : nat) (h : heap) (v : Variables_ref).

(** A template: literal text, variables [${name}] and queries [${{query}}]. *)
Inductive segment :=
  | Lit (s : string)
  | PVar (name : string)
  | PQuery (q : string).

Definition segment_text (g : segment) : string :=
  match g with
  | Lit s => s
  | PVar name => "${" +:+ name +:+ "}"
  | PQuery q => "${{" +:+ q +:+ "}}"
  end%string.

Definition segment_value (g : segment) : string :=
  match g with
  | Lit s => s
  | PVar name => resolve_var fmt_v fuel h v name (segment_text g)
  | PQuery q => resolve_query fmt_v yaml_Marshal yaml_Unmarshal gojq_Parse query_Run
                  fuel h v q (segment_text g)
  end.

Definition template (f : segment -> string) (gs : list segment) : string :=
  foldr (fun g acc => f g +:+ acc)%string ""%string gs.

(** Segments whose text is not itself part of another placeholder.  A query
    is first tried as a variable whose name starts with a brace. *)
Definition segment_ok (g : segment) : bool :=
  match g with
  | Lit s => free_of "$"%char s
  | PVar name =>
      negb (String.eqb name "") && free_of "}"%char name && free_of "$"%char name &&
      negb (String.prefix "{" name) &&
      match LookupVar fuel h v name with
      | Some (Some x) => free_of "$"%char (fmt_v x)
      | _ => true
      end
  | PQuery q =>
      free_of "}"%char q && free_of newline q &&
      match LookupVar fuel h v (String "{" q) with Some (Some _) => false | _ => true end
  end%string.

Let pass1 := ReplaceAll match_r1 (resolve_var fmt_v fuel h v) 0.
Let pass2 := ReplaceAll match_r2
  (resolve_query fmt_v yaml_Marshal yaml_Unmarshal gojq_Parse query_Run fuel h v) 0.

Definition after_pass1 (g : segment) : string :=
  match g with PQuery _ => segment_text g | _ => segment_value g end.

Lemma pass1_segment g rest :
  segment_ok g = true -> pass1 (segment_text g +:+ rest) = (after_pass1 g +:+ pass1 rest)%string.
Proof.
  destruct g as [s|name|q]; simpl; intros Hok.
  - by apply ReplaceAll_literal; [apply match_r1_dollar|].
  - repeat apply andb_prop in Hok as [Hok ?].
    unfold pass1. apply ReplaceAll_match; [done|].
    apply match_r1_name; [|done]. by apply String.eqb_neq, negb_true_iff.
  - repeat apply andb_prop in Hok as [Hok ?].
    change ("${{" +:+ q +:+ "}}")%string with ("${" +:+ (String "{" q +:+ "}}"))%string.
    assert (pass1 (("${" +:+ String "{" q +:+ "}") +:+ String "}" rest) =
      (resolve_var fmt_v fuel h v (String "{" q) ("${" +:+ String "{" q +:+ "}"))
        +:+ pass1 (String "}" rest))%string as Hp.
    { unfold pass1. apply ReplaceAll_match; [done|]. by apply match_r1_name. }
    assert ((("${" +:+ (String "{" q +:+ "}}")) +:+ rest)%string =
      (("${" +:+ String "{" q +:+ "}") +:+ String "}" rest)%string) as ->.
    { by rewrite !string_app_assoc. }
    rewrite Hp. unfold resolve_var.
    assert (pass1 (String "}" rest) = "}" +:+ pass1 rest)%string as -> by done.
    destruct (LookupVar fuel h v (String "{" q)) as [[?|]|]; [done| |]; by rewrite !string_app_assoc.
Qed.

Lemma pass2_segment g rest :
  segment_ok g = true -> pass2 (after_pass1 g +:+ rest) = (segment_value g +:+ pass2 rest)%string.
Proof.
  destruct g as [s|name|q]; simpl; intros Hok.
  - by apply ReplaceAll_literal; [apply match_r2_dollar|].
  - repeat apply andb_prop in Hok as [Hok ?]. unfold resolve_var.
    assert (pass2 (("${" +:+ name +:+ "}") +:+ rest) =
      (("${" +:+ name +:+ "}") +:+ pass2 rest))%string as Hkeep.
    { rewrite !string_app_assoc. unfold pass2. destruct name as [|c name]; [done|].
      assert (match_r2 ("${" +:+ String c name +:+ "}" +:+ rest) = None) as Hno.
      { destruct c as [[] [] [] [] [] [] [] []]; try done; by destruct name. }
      change ("${" +:+ String c name +:+ "}" +:+ rest)%string
        with (String "$" ("{" +:+ String c name +:+ "}" +:+ rest)) in *.
      cbn [ReplaceAll]. rewrite Hno.
      rewrite <- !string_app_assoc, ReplaceAll_literal, !string_app_assoc; [done|apply match_r2_dollar|].
      rewrite !free_of_app. by apply andb_true_intro. }
    destruct (LookupVar fuel h v name) as [[x|]|]; [|done|done].
    by apply ReplaceAll_literal; [apply match_r2_dollar|].
  - apply andb_prop in Hok as [[? ?]%andb_prop _].
    unfold pass2. apply ReplaceAll_match; [done|]. by apply match_r2_body.
Qed.

(** What the text of a segment is to be replaced by, said without the code that
    replaces it.  A literal stays.  A variable that is found is replaced by its
    value, any other is left as it is written.  A query runs on the variables of
    the scope below a filter; it is replaced by its first result and by "?" when
    the variables cannot be had, when it does not parse and when it has no
    result. *)
Inductive rendered : segment -> string -> Prop :=
  | rendered_literal s : rendered (Lit s) s
  | rendered_variable name x :
      LookupVar fuel h v name = Some (Some x) -> rendered (PVar name) (fmt_v x)
  | rendered_unknown name :
      LookupVar fuel h v name = Some None -> rendered (PVar name) ("${" +:+ name +:+ "}")
  | rendered_query q vars p x :
      getGeneralizedVarsMap yaml_Marshal yaml_Unmarshal fuel h (Ref (target v)) = Some (Ok vars) ->
      gojq_Parse ("." +:+ q) = Ok p -> query_Run p vars = Some x -> rendered (PQuery q) (fmt_v x)
  | rendered_no_result q vars p :
      getGeneralizedVarsMap yaml_Marshal yaml_Unmarshal fuel h (Ref (target v)) = Some (Ok vars) ->
      gojq_Parse ("." +:+ q) = Ok p -> query_Run p vars = None -> rendered (PQuery q) "?"
  | rendered_no_query q vars e :
      getGeneralizedVarsMap yaml_Marshal yaml_Unmarshal fuel h (Ref (target v)) = Some (Ok vars) ->
      gojq_Parse ("." +:+ q) = Err e -> rendered (PQuery q) "?"
  | rendered_no_variables q e :
      getGeneralizedVarsMap yaml_Marshal yaml_Unmarshal fuel h (Ref (target v)) = Some (Err e) ->
      rendered (PQuery q) "?".

Lemma rendered_value g s : rendered g s -> segment_value g = s.
Proof.
  destruct 1 as [s|name x Hx|name Hn|q vars p x Hv Hp Hr|q vars p Hv Hp Hr|q vars e Hv Hp|q e Hv]; cbn [segment_value];
    unfold resolve_var, resolve_query, ResolveQuery, Variables_ResolveQuery; [done| | |rewrite Hv..]; cbn.
  - by rewrite Hx.
  - by rewrite Hn.
  - by rewrite Hp, Hr.
  - by rewrite Hp, Hr.
  - by rewrite Hp.
  - done.
Qed.

(** C24: Placeholder substitution.  A text made of literals, [${name}]
    variables and [${{query}}] queries becomes the concatenation, in order, of
    what each of them is to be replaced by: the literals as they are, the value
    of each variable that is found and the placeholder itself of one that is
    not, the first result of each query and "?" for a query that has no result,
    does not parse or cannot get the variables. *)
Theorem ResolvePlaceholders_template gs values :
  forallb segment_ok gs = true -> Forall2 rendered gs values ->
  ResolvePlaceholders fmt_v yaml_Marshal yaml_Unmarshal gojq_Parse query_Run fuel h v
    (template segment_text gs) = String.concat "" values.
Proof.
  intros Hok Hvals. transitivity (template segment_value gs).
  - clear Hvals. unfold ResolvePlaceholders. fold pass1 pass2.
    assert (pass1 (template segment_text gs) = template after_pass1 gs) as ->.
    { induction gs as [|g gs IH]; [done|]. apply andb_prop in Hok as [Hg Hgs].
      cbn [template foldr]. rewrite pass1_segment by done. f_equal. by apply IH. }
    induction gs as [|g gs IH]; [done|]. apply andb_prop in Hok as [Hg Hgs].
    cbn [template foldr]. rewrite pass2_segment by done. f_equal. by apply IH.
  - clear Hok. induction Hvals as [|g s gs values Hg _ IH]; [done|]. cbn [template foldr].
    rewrite (rendered_value _ _ Hg). fold (template segment_value gs). rewrite IH.
    destruct values; [by rewrite string_app_nil_r|done].
Qed.
End placeholders.

(** ** A concrete scope tree

    A root scope with a variable and a default, a task scope below it with a
    variable and a default of its own, and a sub scope of outputs. *)
Definition ex_heap0 : heap := (NewVariables None empty_heap).1.
Definition ex_heap1 : heap := SetVar (Ref 0) "net" (VString "devnet") ex_heap0.
Definition ex_heap2 : heap := SetDefaultVar (Ref 0) "slots" (VUint64 32) ex_heap1.
Definition ex_heap3 : heap := (NewScope (Ref 0) ex_heap2).1.
Definition ex_heap4 : heap := SetVar (Ref 1) "count" (VInt 3) ex_heap3.
Definition ex_heap5 : heap := SetDefaultVar (Ref 1) "hidden" (VInt 7) ex_heap4.
Definition ex_heap6 : heap := (NewSubScope (Ref 1) "outputs" ex_heap5).1.
Definition ex_heap : heap := SetVar (Ref 2) "ok" (VBool true) ex_heap6.

Definition ex_root : Variables := default (mkVariables None ∅ ∅ ∅) (cells ex_heap !! 0%nat).
Definition ex_child : Variables := default (mkVariables None ∅ ∅ ∅) (cells ex_heap !! 1%nat).

Lemma ex_heap_reachable : rtc vars_step empty_heap ex_heap.
Proof.
  apply (rtc_l _ _ ex_heap0); [exact (step_NewVariables _ None ltac:(done))|].
  apply (rtc_l _ _ ex_heap1); [apply step_SetVar|].
  apply (rtc_l _ _ ex_heap2); [apply step_SetDefaultVar|].
  apply (rtc_l _ _ ex_heap3); [apply step_NewScope; eexists; vm_compute; reflexivity|].
  apply (rtc_l _ _ ex_heap4); [apply step_SetVar|].
  apply (rtc_l _ _ ex_heap5); [apply step_SetDefaultVar|].
  apply (rtc_l _ _ ex_heap6); [apply step_NewSubScope|].
  apply rtc_once, step_SetVar.
Qed.

Lemma ex_chain : chain ex_heap (Ref 1) [ex_child; ex_root].
Proof. eapply chain_child; [reflexivity..|]. apply chain_root; reflexivity. Qed.

Lemma ex_heap_wf : heap_wf ex_heap.
Proof. eapply vars_steps_wf; [apply ex_heap_reachable|apply empty_heap_wf]. Qed.

Lemma heap_wf_reachable_witness : rtc vars_step empty_heap ex_heap /\ heap_wf ex_heap.
Proof. split; [apply ex_heap_reachable|]. apply heap_wf_reachable, ex_heap_reachable. Defined.

Definition ex_vars : gmap string value := default ∅ (GetVarsMap 5 ex_heap (Ref 1) ∅ false).

Lemma ex_vars_eq : GetVarsMap 5 ex_heap (Ref 1) ∅ false = Some ex_vars.
Proof. vm_compute. reflexivity. Qed.

Lemma GetVarsMap_precedence_witness : denotes_opt ex_heap (Some (inr (VInt 7))) (ex_vars !! "hidden").
Proof.
  assert (layered [ex_child; ex_root] "hidden" = Some (inr (VInt 7))) as <- by by vm_compute.
  exact (GetVarsMap_precedence _ _ _ _ _ "hidden" ex_chain ex_vars_eq).
Defined.

Lemma LookupVar_agrees_witness : Some (VUint64 32) = ex_vars !! "slots".
Proof.
  apply (LookupVar_agrees 5 5 ex_heap (Ref 1) [ex_child; ex_root] "slots" ex_vars
    (Some (VUint64 32)) ex_heap_wf ex_chain); [by vm_compute|apply ex_vars_eq|by vm_compute].
Defined.

Lemma LookupVar_ignores_own_default_witness :
  ex_vars !! "hidden" = Some (VInt 7) /\ GetVar 5 ex_heap (Ref 1) "hidden" = Some VNil.
Proof.
  destruct (LookupVar_ignores_own_default 5 5 ex_heap 1%nat ex_child (Ref 0) [ex_root] "hidden"
    (mkVariableValue true (VInt 7)) ex_vars None ex_heap_wf) as (H1 & _ & H2);
    [by vm_compute..| |by vm_compute|by vm_compute|by vm_compute|apply ex_vars_eq|by vm_compute|
     by split].
  apply chain_root; by vm_compute.
Defined.

Definition ex_template : list segment :=
  [Lit "run "; PVar "net"; Lit ": "; PVar "nope"; Lit " "; PQuery "net"; Lit " "; PQuery "gone"; Lit " "; PQuery "|"; Lit "!"].

Definition ex_fmt_v (x : value) : string :=
  match x with VString s => s | _ => "?" end%string.

(** Queries of one path each; ["|"] does not parse. *)
Definition ex_gojq_Parse (q : string) : result string :=
  if String.eqb q ".|" then Err "unexpected token"%string else Ok (String.substring 1 10 q).
Definition ex_query_Run (q : string) (m : gmap string value) : option value := m !! q.

(** ["run ${net}: ${nope} ${{net}} ${{gone}} ${{|}}!"] *)
Lemma ResolvePlaceholders_template_witness :
  ResolvePlaceholders ex_fmt_v (fun _ => Ok ""%string) (fun _ m => Ok m)
    ex_gojq_Parse ex_query_Run 5 ex_heap (Ref 1)
    (template segment_text ex_template) = "run devnet: ${nope} devnet ? ?!"%string.
Proof.
  rewrite (ResolvePlaceholders_template ex_fmt_v (fun _ => Ok ""%string) (fun _ m => Ok m)
    ex_gojq_Parse ex_query_Run 5 ex_heap (Ref 1) ex_template
    ["run "; "devnet"; ": "; "${nope}"; " "; "devnet"; " "; "?"; " "; "?"; "!"]%string);
    [reflexivity|by vm_compute|].
  unfold ex_template. repeat apply Forall2_cons_2; try constructor.
  - apply (rendered_variable ex_fmt_v _ _ _ _ _ _ _ "net" (VString "devnet")). by vm_compute.
  - by vm_compute.
  - by apply (rendered_query ex_fmt_v _ _ _ _ _ _ _ "net" ex_vars "net" (VString "devnet")); vm_compute.
  - by apply (rendered_no_result _ _ _ _ _ _ _ _ "gone" ex_vars "gone"); vm_compute.
  - by apply (rendered_no_query _ _ _ _ _ _ _ _ "|" ex_vars "unexpected token"); vm_compute.
Defined.
