(* ===== verification/Db.v ===== *)
(** * The database layer

    pkg/coordinator/db: the tables and the statements the package issues, as
    functions on finite maps keyed by each table's primary key, and
    [RunTransaction].  The SQL engine itself (sqlx and the drivers) is not
    modelled; where the statement differs by engine the SQLite text is
    followed.  Failures of the engine are an explicit argument. *)

From S2P Require Import Prelude.

Open Scope Z_scope.

(** ** Rows *)

Record TaskState := mkTaskRow {
  RunID : Z; TaskID : Z; ParentTask : Z;
  Name : string; Title : string; RefID : string;
  Timeout : Z; IfCond : string;
  RunFlags : Z; StartTime : Z; StopTime : Z; ScopeOwner : Z;
  TaskConfig : string; TaskStatus : string; TaskResult : Z; TaskError : string
}.

Definition TaskRunFlagCleanup : Z := 1.
Definition TaskRunFlagStarted : Z := 2.
Definition TaskRunFlagRunning : Z := 4.
Definition TaskRunFlagSkipped : Z := 8.
Definition TaskRunFlagTimeout : Z := 16.

Record TestRun := mkTestRun {
  tr_RunID : Z; tr_TestID : string; tr_Name : string; tr_Source : string;
  tr_Config : string; tr_StartTime : Z; tr_StopTime : Z; tr_Timeout : Z; tr_Status : string
}.

Record TaskLog := mkTaskLog {
  LogRunID : Z; LogTaskID : Z; LogIndex : Z; LogTime : Z; LogLevel : Z;
  LogFields : string; LogMessage : string
}.

Record TaskResultRow := mkTaskResultRow {
  res_RunID : Z; res_TaskID : Z; res_Type : string; res_Index : Z;
  res_Name : string; res_Size : Z; res_Data : list Z
}.

Record TestConfig := mkTestConfig {
  tc_TestID : string; tc_Source : string; tc_Name : string; tc_Timeout : Z;
  tc_Config : string; tc_ConfigVars : string; tc_ScheduleStartup : bool;
  tc_ScheduleCronYaml : string
}.

Record Database := mkDatabase {
  test_runs : gmap Z TestRun;
  task_states : gmap (Z * Z) TaskState;
  task_logs : gmap (Z * Z * Z) TaskLog;
  task_results : gmap (Z * Z * string * Z) TaskResultRow;
  test_configs : gmap string TestConfig;
  assertoor_state : gmap string string
}.

Definition empty_db : Database := mkDatabase ∅ ∅ ∅ ∅ ∅ ∅.

Definition set_task_states (t : gmap (Z * Z) TaskState) (db : Database) : Database :=
  mkDatabase (test_runs db) t (task_logs db) (task_results db) (test_configs db) (assertoor_state db).

Definition set_test_runs (t : gmap Z TestRun) (db : Database) : Database :=
  mkDatabase t (task_states db) (task_logs db) (task_results db) (test_configs db) (assertoor_state db).

Definition set_test_configs (t : gmap string TestConfig) (db : Database) : Database :=
  mkDatabase (test_runs db) (task_states db) (task_logs db) (task_results db) t (assertoor_state db).

(** ** Transactions *)

(** What the engine does with a transaction: run it, refuse to begin it, fail
    one of its statements or fail to commit it. *)
Inductive engine_outcome :=
  | EngineOk
  | EngineBeginErr (e : error)
  | EngineExecErr (e : error)
  | EngineCommitErr (e : error).

(** [RunTransaction(handler)]: anything but a commit leaves the data as it was
    (the deferred [Rollback]). *)
Definition RunTransaction (env : engine_outcome) (handler : Database -> result Database)
    (db : Database) : Database * option error :=
  match env with
  | EngineBeginErr e => (db, Some ("error starting db transactions: " ++ e))
  | EngineExecErr e => (db, Some e)
  | EngineCommitErr e =>
      match handler db with
      | Err e' => (db, Some e')
      | Ok _ => (db, Some ("error committing db transaction: " ++ e))
      end
  | EngineOk =>
      match handler db with
      | Err e => (db, Some e)
      | Ok db' => (db', None)
      end
  end%string.

(** ** task_states *)

Definition InsertTaskState (state : TaskState) (db : Database) : result Database :=
  Ok (set_task_states (<[(RunID state, TaskID state) := state]> (task_states db)) db).

(** One [SET column = value] of [UpdateTaskStateStatus]. *)
Definition set_field (state : TaskState) (field : string) (r : TaskState) : option TaskState :=
  let set f_title f_flags f_start f_stop f_config f_status f_result f_error :=
    Some (mkTaskRow (RunID r) (TaskID r) (ParentTask r) (Name r) f_title (RefID r)
      (Timeout r) (IfCond r) f_flags f_start f_stop (ScopeOwner r)
      f_config f_status f_result f_error) in
  if String.eqb field "title" then set (Title state) (RunFlags r) (StartTime r) (StopTime r)
    (TaskConfig r) (TaskStatus r) (TaskResult r) (TaskError r)
  else if String.eqb field "run_flags" then set (Title r) (RunFlags state) (StartTime r) (StopTime r)
    (TaskConfig r) (TaskStatus r) (TaskResult r) (TaskError r)
  else if String.eqb field "start_time" then set (Title r) (RunFlags r) (StartTime state) (StopTime r)
    (TaskConfig r) (TaskStatus r) (TaskResult r) (TaskError r)
  else if String.eqb field "stop_time" then set (Title r) (RunFlags r) (StartTime r) (StopTime state)
    (TaskConfig r) (TaskStatus r) (TaskResult r) (TaskError r)
  else if String.eqb field "task_config" then set (Title r) (RunFlags r) (StartTime r) (StopTime r)
    (TaskConfig state) (TaskStatus r) (TaskResult r) (TaskError r)
  else if String.eqb field "task_status" then set (Title r) (RunFlags r) (StartTime r) (StopTime r)
    (TaskConfig r) (TaskStatus state) (TaskResult r) (TaskError r)
  else if String.eqb field "task_result" then set (Title r) (RunFlags r) (StartTime r) (StopTime r)
    (TaskConfig r) (TaskStatus r) (TaskResult state) (TaskError r)
  else if String.eqb field "task_error" then set (Title r) (RunFlags r) (StartTime r) (StopTime r)
    (TaskConfig r) (TaskStatus r) (TaskResult r) (TaskError state)
  else None.

(** The assignments of an [UPDATE]; [None] is the unknown field error. *)
Fixpoint set_fields (state : TaskState) (updateFields : list string) (r : TaskState) : option TaskState :=
  match updateFields with
  | [] => Some r
  | f :: fs => r' ← set_field state f r; set_fields state fs r'
  end.

Definition known_field (f : string) : bool :=
  existsb (String.eqb f)
    ["title"; "run_flags"; "start_time"; "stop_time"; "task_config"; "task_status";
     "task_result"; "task_error"]%string.

(** An empty field list would be a malformed statement. *)
Definition UpdateTaskStateStatus (state : TaskState) (updateFields : list string)
    (db : Database) : result Database :=
  match updateFields with
  | [] => Err "syntax error"
  | _ =>
      if forallb known_field updateFields then
        match task_states db !! (RunID state, TaskID state) with
        | None => Ok db
        | Some r =>
            Ok (set_task_states
                  (<[(RunID state, TaskID state) := default r (set_fields state updateFields r)]>
                     (task_states db)) db)
        end
      else Err "unknown field"
  end%string.

Definition GetTaskStateByTaskID (runID taskID : Z) (db : Database) : option TaskState :=
  task_states db !! (runID, taskID).

Definition order_task (a b : TaskState) : Prop := TaskID a <= TaskID b.

#[export] Instance order_task_dec : RelDecision order_task.
Proof. intros a b. unfold order_task. apply _. Defined.

(** [SELECT .. WHERE run_id = $1 ORDER BY task_id ASC] *)
Definition GetTaskStateIndex (runID : Z) (db : Database) : list (Z * Z * Z) :=
  (fun r => (TaskID r, ParentTask r, RunFlags r)) <$>
    merge_sort order_task
      (filterb (fun r => RunID r =? runID) (map_to_list (task_states db)).*2).

(** ** test_runs *)

Definition InsertTestRun (run : TestRun) (db : Database) : result Database :=
  Ok (set_test_runs (<[tr_RunID run := run]> (test_runs db)) db).

Definition UpdateTestRunStatus (run : TestRun) (db : Database) : result Database :=
  Ok (set_test_runs
        ((fun r =>
            if (tr_RunID r =? tr_RunID run) && String.eqb (tr_TestID r) (tr_TestID run)
            then mkTestRun (tr_RunID r) (tr_TestID r) (tr_Name r) (tr_Source r) (tr_Config r)
                   (tr_StartTime run) (tr_StopTime run) (tr_Timeout r) (tr_Status run)
            else r) <$> test_runs db) db).

Definition GetTestRunByRunID (runID : Z) (db : Database) : option TestRun :=
  test_runs db !! runID.

Definition select_runs (testID : string) (firstRunID : Z) (db : Database) : list TestRun :=
  filterb (fun r => (String.eqb testID "" || String.eqb (tr_TestID r) testID) &&
                    ((firstRunID <=? 0) || (tr_RunID r <=? firstRunID)))
    (map_to_list (test_runs db)).*2.

Definition order_desc (a b : TestRun) : Prop := tr_RunID b <= tr_RunID a.

#[export] Instance order_desc_dec : RelDecision order_desc.
Proof. intros a b. unfold order_desc. apply _. Defined.

(** [GetTestRunRange]: the page and the total count; an OFFSET without LIMIT
    is a syntax error in SQLite. *)
Definition GetTestRunRange (testID : string) (firstRunID offset limit : Z) (db : Database)
    : result (list TestRun * Z) :=
  if (0 <? offset) && negb (0 <? limit) then Err "syntax error"%string
  else
    let runs := merge_sort order_desc (select_runs testID firstRunID db) in
    let page := drop (Z.to_nat offset) runs in
    let page := if 0 <? limit then take (Z.to_nat limit) page else page in
    Ok (page, Z.of_nat (length runs)).

Definition DeleteTestRun (runID : Z) (db : Database) : result Database :=
  Ok (mkDatabase (delete runID (test_runs db))
        (filter (fun kv => kv.1.1 <> runID) (task_states db))
        (filter (fun kv => kv.1.1.1 <> runID) (task_logs db))
        (task_results db) (test_configs db) (assertoor_state db)).

Definition CleanupUncleanTestRuns (db : Database) : result Database :=
  Ok (mkDatabase
        ((fun r => if String.eqb (tr_Status r) "running"
                   then mkTestRun (tr_RunID r) (tr_TestID r) (tr_Name r) (tr_Source r) (tr_Config r)
                          (tr_StartTime r) (tr_StopTime r) (tr_Timeout r) "aborted"
                   else r) <$> test_runs db)
        ((fun r => if 0 <? Z.land (RunFlags r) TaskRunFlagRunning
                   then mkTaskRow (RunID r) (TaskID r) (ParentTask r) (Name r) (Title r) (RefID r)
                          (Timeout r) (IfCond r)
                          (Z.land (RunFlags r) (Z.lnot TaskRunFlagRunning))
                          (StartTime r) (StopTime r) (ScopeOwner r)
                          (TaskConfig r) (TaskStatus r) (TaskResult r) (TaskError r)
                   else r) <$> task_states db)
        (task_logs db) (task_results db) (test_configs db) (assertoor_state db)).

(** ** task_logs, task_results, test_configs, assertoor_state *)

Definition InsertTaskLog (log : TaskLog) (db : Database) : result Database :=
  Ok (mkDatabase (test_runs db) (task_states db)
        (<[(LogRunID log, LogTaskID log, LogIndex log) := log]> (task_logs db))
        (task_results db) (test_configs db) (assertoor_state db)).

Definition order_log (a b : TaskLog) : Prop := LogIndex a <= LogIndex b.

#[export] Instance order_log_dec : RelDecision order_log.
Proof. intros a b. unfold order_log. apply _. Defined.

Definition select_logs (runID taskID fromIdx : Z) (db : Database) : list TaskLog :=
  filterb (fun r => (LogRunID r =? runID) && (LogTaskID r =? taskID) && (fromIdx <=? LogIndex r))
    (map_to_list (task_logs db)).*2.

Definition GetTaskLogs (runID taskID fromIdx limit : Z) (db : Database) : list TaskLog :=
  take (Z.to_nat limit) (merge_sort order_log (select_logs runID taskID fromIdx db)).

(** [COALESCE(MAX(log_idx), 0)] *)
Definition GetLastLogIndex (runID taskID : Z) (db : Database) : Z :=
  let rows := filterb (fun r => (LogRunID r =? runID) && (LogTaskID r =? taskID))
                (map_to_list (task_logs db)).*2 in
  match LogIndex <$> rows with
  | [] => 0
  | i :: rest => fold_left Z.max rest i
  end.

Definition UpsertTaskResult (r : TaskResultRow) (db : Database) : result Database :=
  Ok (mkDatabase (test_runs db) (task_states db) (task_logs db)
        (<[(res_RunID r, res_TaskID r, res_Type r, res_Index r) := r]> (task_results db))
        (test_configs db) (assertoor_state db)).

Definition GetTaskResultByIndex (runID taskID : Z) (resultType : string) (index : Z) (db : Database)
    : option TaskResultRow :=
  task_results db !! (runID, taskID, resultType, index).

Definition GetTaskResults (runID taskID : Z) (summaryType : string) (db : Database)
    : list TaskResultRow :=
  filterb (fun r => (res_RunID r =? runID) && (res_TaskID r =? taskID) &&
                    String.eqb (res_Type r) summaryType) (map_to_list (task_results db)).*2.

Definition GetTaskResultByName (runID taskID : Z) (resultType name : string) (db : Database)
    : option TaskResultRow :=
  head (filterb (fun r => String.eqb (res_Name r) name) (GetTaskResults runID taskID resultType db)).

Definition GetAllTaskResultHeaders (runID : Z) (db : Database)
    : list (Z * string * Z * string * Z) :=
  (fun r => (res_TaskID r, res_Type r, res_Index r, res_Name r, res_Size r)) <$>
    filterb (fun r => res_RunID r =? runID) (map_to_list (task_results db)).*2.

Definition InsertTestConfig (config : TestConfig) (db : Database) : result Database :=
  Ok (set_test_configs (<[tc_TestID config := config]> (test_configs db)) db).

Definition GetTestConfigs (db : Database) : list TestConfig := (map_to_list (test_configs db)).*2.

Definition DeleteTestConfig (testID : string) (db : Database) : result Database :=
  Ok (set_test_configs (delete testID (test_configs db)) db).

(** [(COUNT( * ), MAX(start_time))] of a test, when it has runs. *)
Definition GetTestRunStats (db : Database) : gmap string (Z * Z) :=
  foldr (fun r acc =>
           let '(n, t) := default (0, tr_StartTime r) (acc !! tr_TestID r) in
           <[tr_TestID r := (n + 1, Z.max t (tr_StartTime r))]> acc)
    ∅ (map_to_list (test_runs db)).*2.

(** JSON encoding is the standard library's; values are kept encoded. *)
Definition SetAssertoorState (key value : string) (db : Database) : result Database :=
  Ok (mkDatabase (test_runs db) (task_states db) (task_logs db) (task_results db)
        (test_configs db) (<[key := value]> (assertoor_state db))).

Definition GetAssertoorState (key : string) (db : Database) : option string :=
  assertoor_state db !! key.

(** ** Lemmas *)

Lemma RunTransaction_cases env handler db :
  (RunTransaction env handler db).2 = None /\
    handler db = Ok (RunTransaction env handler db).1 \/
  (RunTransaction env handler db).1 = db /\
    exists e, (RunTransaction env handler db).2 = Some e.
Proof. destruct env; simpl; eauto; destruct (handler db); simpl; eauto. Qed.

#[export] Instance order_desc_total : Total order_desc.
Proof. intros a b. unfold order_desc. lia. Qed.

#[export] Instance order_desc_trans : Transitive order_desc.
Proof. intros a b c. unfold order_desc. lia. Qed.

#[export] Instance order_log_total : Total order_log.
Proof. intros a b. unfold order_log. lia. Qed.

#[export] Instance order_log_trans : Transitive order_log.
Proof. intros a b c. unfold order_log. lia. Qed.

(** Each table row is stored under its own key. *)
Definition db_wf (db : Database) : Prop :=
  map_Forall (fun k r => tr_RunID r = k) (test_runs db) /\
  map_Forall (fun k r => (RunID r, TaskID r) = k) (task_states db) /\
  map_Forall (fun k r => (LogRunID r, LogTaskID r, LogIndex r) = k) (task_logs db).

Lemma elem_of_values {K A} `{Countable K} (m : gmap K A) x :
  x ∈ (map_to_list m).*2 <-> exists k, m !! k = Some x.
Proof.
  rewrite list_elem_of_fmap. split.
  - intros ([k y] & -> & Hin%elem_of_map_to_list). eauto.
  - intros [k Hk]. exists (k, x). split; [done|]. by apply elem_of_map_to_list.
Qed.

Lemma elem_of_select_runs testID first db r :
  r ∈ select_runs testID first db <->
  (exists k, test_runs db !! k = Some r) /\
  (testID = ""%string \/ tr_TestID r = testID) /\ (first <= 0 \/ tr_RunID r <= first).
Proof.
  unfold select_runs. rewrite elem_of_filterb, elem_of_values, andb_true_iff, !orb_true_iff,
    !String.eqb_eq, !Z.leb_le. tauto.
Qed.

Lemma set_field_id state f r r' :
  set_field state f r = Some r' -> RunID r' = RunID r /\ TaskID r' = TaskID r.
Proof. unfold set_field. intros H. by repeat case_match; simplify_eq. Qed.

Lemma set_fields_id state fs r r' :
  set_fields state fs r = Some r' -> RunID r' = RunID r /\ TaskID r' = TaskID r.
Proof.
  revert r. induction fs as [|f fs IH]; intros r H; simpl in H; simplify_eq; [done|].
  destruct (set_field state f r) as [r1|] eqn:H1; simpl in H; [|done].
  apply set_field_id in H1 as [<- <-]. by apply IH.
Qed.

Lemma known_set_field state f r : known_field f = true -> is_Some (set_field state f r).
Proof.
  unfold known_field. intros (x & Hx & ->%String.eqb_eq)%existsb_elem_of.
  unfold set_field. set_unfold in Hx. by repeat (destruct Hx as [->|Hx]; [by eexists|]).
Qed.

Lemma known_set_fields state fs r :
  forallb known_field fs = true -> is_Some (set_fields state fs r).
Proof.
  revert r. induction fs as [|f fs IH]; intros r; simpl; [by eexists|].
  intros [Hf Hfs]%andb_true_iff. destruct (known_set_field state f r Hf) as [r' ->].
  simpl. by apply IH.
Qed.

Lemma StronglySorted_desc l :
  StronglySorted order_desc l -> NoDup (tr_RunID <$> l) ->
  StronglySorted (fun a b => tr_RunID b < tr_RunID a) l.
Proof.
  induction 1 as [|a l Hs IH Hall]; intros Hnd; constructor; simpl in Hnd;
    apply NoDup_cons in Hnd as [Ha Hnd]; [by apply IH|].
  rewrite Forall_forall in Hall |- *. intros b Hb. pose proof (Hall b Hb) as Hle.
  unfold order_desc in Hle.
  assert (tr_RunID a <> tr_RunID b) by (intros Heq; apply Ha; rewrite Heq; by apply list_elem_of_fmap_2).
  lia.
Qed.

Lemma select_runs_nodup testID first db :
  db_wf db -> NoDup (tr_RunID <$> select_runs testID first db).
Proof.
  intros (Hruns & _). apply NoDup_fmap_filterb.
  assert (tr_RunID <$> (map_to_list (test_runs db)).*2 = (map_to_list (test_runs db)).*1) as Heq.
  { rewrite <- list_fmap_compose. apply list_fmap_ext. intros i [k r] Hi. simpl.
    apply list_elem_of_lookup_2, elem_of_map_to_list in Hi. by apply (Hruns k r). }
  rewrite Heq. apply NoDup_fst_map_to_list.
Qed.

(** The run history is paged correctly.  For every test filter and first
    run id, the pages requested with consecutive offsets are consecutive pieces
    of one list that holds each matching run exactly once, newest first, and
    the reported total is its length. *)
Theorem GetTestRunRange_pages testID first db :
  db_wf db ->
  exists runs,
    (forall r, r ∈ runs <-> (exists k, test_runs db !! k = Some r) /\
       (testID = ""%string \/ tr_TestID r = testID) /\ (first <= 0 \/ tr_RunID r <= first)) /\
    StronglySorted (fun a b => tr_RunID b < tr_RunID a) runs /\
    forall offset limit, 0 <= offset -> 0 < limit ->
      GetTestRunRange testID first offset limit db =
        Ok (take (Z.to_nat limit) (drop (Z.to_nat offset) runs), Z.of_nat (length runs)).
Proof.
  intros Hwf. set (runs := merge_sort order_desc (select_runs testID first db)).
  pose proof (merge_sort_Permutation order_desc (select_runs testID first db)) as Hperm.
  exists runs. split_and!.
  - intros r. by rewrite <- elem_of_select_runs, <- Hperm.
  - apply StronglySorted_desc; [apply (StronglySorted_merge_sort order_desc)|].
    unfold runs. rewrite Hperm. by apply select_runs_nodup.
  - intros offset limit Ho Hl. unfold GetTestRunRange.
    rewrite (proj2 (Z.ltb_lt 0 limit) Hl), andb_false_r. done.
Qed.

(** Start-up cleanup.  Afterwards no test run is "running" and no task
    carries the running flag; each run that was running is "aborted", each
    running task lost exactly that flag, and all other rows and columns, logs,
    results and configurations are as before. *)
Theorem CleanupUncleanTestRuns_correct db db' :
  CleanupUncleanTestRuns db = Ok db' ->
  (forall k r, test_runs db' !! k = Some r -> tr_Status r <> "running"%string) /\
  (forall k r, test_runs db !! k = Some r -> tr_Status r <> "running"%string ->
     test_runs db' !! k = Some r) /\
  (forall k r, test_runs db !! k = Some r -> tr_Status r = "running"%string ->
     exists r', test_runs db' !! k = Some r' /\ tr_Status r' = "aborted"%string /\
       tr_RunID r' = tr_RunID r /\ tr_Config r' = tr_Config r /\ tr_StopTime r' = tr_StopTime r) /\
  (forall k t, task_states db !! k = Some t -> 0 <= RunFlags t ->
     exists t', task_states db' !! k = Some t' /\ TaskID t' = TaskID t /\
       TaskResult t' = TaskResult t /\
       forall i, 0 <= i -> Z.testbit (RunFlags t') i = Z.testbit (RunFlags t) i && negb (i =? 2)) /\
  task_logs db' = task_logs db /\ task_results db' = task_results db /\
  test_configs db' = test_configs db.
Proof.
  intros [= <-]. simpl. split_and!; [| | | |done..].
  - intros k r. rewrite lookup_fmap, fmap_Some. intros (r0 & _ & ->).
    destruct (String.eqb_spec (tr_Status r0) "running"); [done|congruence].
  - intros k r Hr Hne. rewrite lookup_fmap, Hr. simpl.
    by rewrite (proj2 (String.eqb_neq _ _) Hne).
  - intros k r Hr He. eexists. rewrite lookup_fmap, Hr. simpl.
    by rewrite (proj2 (String.eqb_eq _ _) He).
  - intros k t Ht Hpos. eexists. rewrite lookup_fmap, Ht. simpl. split; [done|].
    change TaskRunFlagRunning with (2 ^ 2).
    destruct (Z.ltb_spec 0 (Z.land (RunFlags t) (2 ^ 2))) as [Hlt|Hge]; split_and!; try done;
      intros i Hi; simpl.
    + change 4 with (2 ^ 2).
      by rewrite Z.land_spec, Z.lnot_spec, Z.pow2_bits_eqb, Z.eqb_sym by lia.
    + assert (Z.testbit (RunFlags t) 2 = false) as H2.
      { rewrite <- (andb_true_r (Z.testbit _ 2)), <- (Z.pow2_bits_true 2), <- Z.land_spec by lia.
        assert (0 <= Z.land (RunFlags t) (2 ^ 2)) by (apply Z.land_nonneg; lia).
        by replace (Z.land (RunFlags t) (2 ^ 2)) with 0 by lia. }
      destruct (Z.eqb_spec i 2) as [->|]; [by rewrite H2|]. by rewrite andb_true_r.
Qed.

(** Deleting a run removes its row, its tasks and their logs and touches
    no other run, but leaves every stored task result in place. *)
Theorem DeleteTestRun_correct runID db db' :
  DeleteTestRun runID db = Ok db' ->
  (forall k, test_runs db' !! k = if decide (k = runID) then None else test_runs db !! k) /\
  (forall k, task_states db' !! k = if decide (k.1 = runID) then None else task_states db !! k) /\
  (forall k, task_logs db' !! k = if decide (k.1.1 = runID) then None else task_logs db !! k) /\
  task_results db' = task_results db.
Proof.
  intros [= <-]. simpl. split_and!; [..|done].
  - intros k. rewrite lookup_delete. repeat case_decide; congruence.
  - intros k. rewrite map_lookup_filter. destruct (task_states db !! k); simpl; by repeat case_decide.
  - intros k. rewrite map_lookup_filter. destruct (task_logs db !! k); simpl; by repeat case_decide.
Qed.

(** ** A concrete database *)

Definition ex_run (id : Z) (status : string) : TestRun :=
  mkTestRun id "test-a" "Test A" "" "" 100 0 60 status.

Definition ex_task (run id flags : Z) : TaskState :=
  mkTaskRow run id 0 "sleep" "Sleep" "" 0 "" flags 100 0 0 "" "" 0 "".

Definition ex_db : Database :=
  mkDatabase (<[1 := ex_run 1 "success"]> {[2 := ex_run 2 "running"]})
    (<[(1, 1) := ex_task 1 1 2]> {[(2, 1) := ex_task 2 1 6]}) ∅ ∅ ∅ ∅.

Lemma ex_db_wf : db_wf ex_db.
Proof. split_and!; apply (bool_decide_unpack _); by vm_compute. Qed.

Lemma GetTestRunRange_pages_witness :
  exists runs, (forall r, r ∈ runs <-> (exists k, test_runs ex_db !! k = Some r) /\
       ("test-a" = ""%string \/ tr_TestID r = "test-a"%string) /\ (0 <= 0 \/ tr_RunID r <= 0)) /\
    GetTestRunRange "test-a" 0 1 1 ex_db = Ok (take 1 (drop 1 runs), Z.of_nat (length runs)).
Proof.
  destruct (GetTestRunRange_pages "test-a" 0 ex_db ex_db_wf) as (runs & H & _ & Hp).
  exists runs. split; [exact H|]. apply (Hp 1 1); lia.
Defined.

Lemma CleanupUncleanTestRuns_correct_witness :
  exists db', CleanupUncleanTestRuns ex_db = Ok db' /\
    exists r', test_runs db' !! 2 = Some r' /\ tr_Status r' = "aborted"%string.
Proof.
  eexists. split; [reflexivity|].
  edestruct (CleanupUncleanTestRuns_correct ex_db) as (_ & _ & H & _); [reflexivity|].
  destruct (H 2 (ex_run 2 "running")) as (r' & ? & ? & _); [by vm_compute..|]. by exists r'.
Defined.

Lemma DeleteTestRun_correct_witness :
  exists db', DeleteTestRun 2 ex_db = Ok db' /\ test_runs db' !! 2 = None /\
    test_runs db' !! 1 = Some (ex_run 1 "success").
Proof.
  eexists. split; [reflexivity|].
  edestruct (DeleteTestRun_correct 2 ex_db) as (H & _); [reflexivity|].
  split; [exact (H 2)|exact (H 1)].
Defined.
