(* ===== verification/Scheduler.v ===== *)
(** * The task scheduler

    pkg/coordinator/scheduler (scheduler.go, task_state.go) with the task
    registry of tasks/tasks.go: the scheduler's task lists and state map, the
    creation of tasks, their result and database synchronisation, and the
    ordering of task lists.  A [*taskState] pointer is the task's index in
    [taskStateMap]; [sched_wf] is the invariant that makes this sound.
    Task indexes and depths are Go [uint64]s that count created tasks; they are
    not wrapped here, since a run cannot create 2^64 tasks.  Execution is in
    Execution.v. *)

From S2P Require Import Prelude Vars Db.

Open Scope Z_scope.

(** ** Library code the scheduler relies on *)

(** YAML, jq, value rendering, the clock and the SQL engine.  [lib_depth] is
    the recursion depth allowed to reads of variable scopes
    ([scope_reads_terminate] of ScopeGraph.v shows that a sufficient depth exists). *)
Class Library := {
  lib_query : Type;
  lib_fmt_v : value -> string;
  lib_yaml_Marshal : value -> result string;
  lib_yaml_Unmarshal : string -> gmap string value -> result (gmap string value);
  lib_gojq_Parse : string -> result lib_query;
  lib_query_Run : lib_query -> gmap string value -> option value;
  lib_depth : nat;
  (** clock readings in Unix nanoseconds *)
  lib_now : nat -> Z;
  lib_engine : nat -> engine_outcome
}.

(** ** Data *)

Inductive TaskResult := TaskResultNone | TaskResultSuccess | TaskResultFailure.

#[export] Instance TaskResult_eq_dec : EqDecision TaskResult.
Proof. solve_decision. Defined.

Definition TaskResult_int (r : TaskResult) : Z :=
  match r with TaskResultNone => 0 | TaskResultSuccess => 1 | TaskResultFailure => 2 end.

Record TaskOptions := mkTaskOptions {
  opt_Name : string;
  opt_Config : option value;
  opt_ConfigVars : list (string * string);
  opt_Title : string;
  opt_Timeout : Z;
  opt_ID : string;
  opt_If : string
}.

Record TaskDescriptor := mkTaskDescriptor { desc_Name : string; desc_Aliases : list string }.

Definition AvailableTaskDescriptors : list TaskDescriptor :=
  [ mkTaskDescriptor "check_clients_are_healthy" [];
    mkTaskDescriptor "check_consensus_attestation_stats" [];
    mkTaskDescriptor "check_consensus_block_proposals" [];
    mkTaskDescriptor "check_consensus_finality" [];
    mkTaskDescriptor "check_consensus_forks" [];
    mkTaskDescriptor "check_consensus_proposer_duty" [];
    mkTaskDescriptor "check_consensus_reorgs" [];
    mkTaskDescriptor "check_consensus_slot_range" [];
    mkTaskDescriptor "check_consensus_sync_status" [];
    mkTaskDescriptor "check_consensus_validator_status" [];
    mkTaskDescriptor "get_execution_block" [];
    mkTaskDescriptor "check_eth_call" [];
    mkTaskDescriptor "check_execution_sync_status" [];
    mkTaskDescriptor "generate_blob_transactions" [];
    mkTaskDescriptor "generate_bls_changes" [];
    mkTaskDescriptor "generate_child_wallet" [];
    mkTaskDescriptor "generate_consolidations" [];
    mkTaskDescriptor "generate_eoa_transactions" [];
    mkTaskDescriptor "generate_deposits" [];
    mkTaskDescriptor "generate_exits" [];
    mkTaskDescriptor "generate_slashings" [];
    mkTaskDescriptor "generate_transaction" [];
    mkTaskDescriptor "generate_withdrawal_requests" [];
    mkTaskDescriptor "get_pubkeys_from_mnemonic" [];
    mkTaskDescriptor "get_consensus_specs" [];
    mkTaskDescriptor "get_random_mnemonic" ["generate_random_mnemonic"];
    mkTaskDescriptor "get_wallet_details" [];
    mkTaskDescriptor "run_command" [];
    mkTaskDescriptor "run_external_tasks" [];
    mkTaskDescriptor "run_shell" [];
    mkTaskDescriptor "run_task_background" [];
    mkTaskDescriptor "run_task_matrix" [];
    mkTaskDescriptor "run_task_options" [];
    mkTaskDescriptor "run_tasks" [];
    mkTaskDescriptor "run_tasks_concurrent" [];
    mkTaskDescriptor "tx_pool_latency_analysis" [];
    mkTaskDescriptor "tx_pool_throughput_analysis" [];
    mkTaskDescriptor "tx_pool_clean" [];
    mkTaskDescriptor "sleep" [] ]%string.

Definition GetTaskDescriptor (name : string) : option TaskDescriptor :=
  head (filterb (fun d => String.eqb (desc_Name d) name ||
                          existsb (String.eqb name) (desc_Aliases d)) AvailableTaskDescriptors).

(** [parentState] holds the parent's index; [startTime]/[stopTime] are [None]
    for Go's zero time; [task] is the running instance's configuration. *)
Record taskState := mkTaskState {
  index : Z;
  options : TaskOptions;
  descriptor : TaskDescriptor;
  taskDepth : Z;
  taskVars : Variables_ref;
  parentState : option Z;
  isCleanup : bool;
  isStarted : bool;
  isRunning : bool;
  isSkipped : bool;
  isTimeout : bool;
  startTime : option Z;
  stopTime : option Z;
  task : option value;
  taskConfig : value;
  taskOutputs : Variables_ref;
  taskStatusVars : Variables_ref;
  updatedResult : bool;
  taskResult : TaskResult;
  taskError : option error;
  resultNotifyChan : option nat;
  dbTaskState : option Db.TaskState
}.

Definition set_isStarted (x : bool) (t : taskState) : taskState :=
  mkTaskState (index t) (options t) (descriptor t) (taskDepth t) (taskVars t) (parentState t)
    (isCleanup t) x (isRunning t) (isSkipped t) (isTimeout t) (startTime t) (stopTime t) (task t)
    (taskConfig t) (taskOutputs t) (taskStatusVars t) (updatedResult t) (taskResult t) (taskError t)
    (resultNotifyChan t) (dbTaskState t).

Definition set_isRunning (x : bool) (t : taskState) : taskState :=
  mkTaskState (index t) (options t) (descriptor t) (taskDepth t) (taskVars t) (parentState t)
    (isCleanup t) (isStarted t) x (isSkipped t) (isTimeout t) (startTime t) (stopTime t) (task t)
    (taskConfig t) (taskOutputs t) (taskStatusVars t) (updatedResult t) (taskResult t) (taskError t)
    (resultNotifyChan t) (dbTaskState t).

Definition set_isSkipped (x : bool) (t : taskState) : taskState :=
  mkTaskState (index t) (options t) (descriptor t) (taskDepth t) (taskVars t) (parentState t)
    (isCleanup t) (isStarted t) (isRunning t) x (isTimeout t) (startTime t) (stopTime t) (task t)
    (taskConfig t) (taskOutputs t) (taskStatusVars t) (updatedResult t) (taskResult t) (taskError t)
    (resultNotifyChan t) (dbTaskState t).

Definition set_isTimeout (x : bool) (t : taskState) : taskState :=
  mkTaskState (index t) (options t) (descriptor t) (taskDepth t) (taskVars t) (parentState t)
    (isCleanup t) (isStarted t) (isRunning t) (isSkipped t) x (startTime t) (stopTime t) (task t)
    (taskConfig t) (taskOutputs t) (taskStatusVars t) (updatedResult t) (taskResult t) (taskError t)
    (resultNotifyChan t) (dbTaskState t).

Definition set_startTime (x : option Z) (t : taskState) : taskState :=
  mkTaskState (index t) (options t) (descriptor t) (taskDepth t) (taskVars t) (parentState t)
    (isCleanup t) (isStarted t) (isRunning t) (isSkipped t) (isTimeout t) x (stopTime t) (task t)
    (taskConfig t) (taskOutputs t) (taskStatusVars t) (updatedResult t) (taskResult t) (taskError t)
    (resultNotifyChan t) (dbTaskState t).

Definition set_stopTime (x : option Z) (t : taskState) : taskState :=
  mkTaskState (index t) (options t) (descriptor t) (taskDepth t) (taskVars t) (parentState t)
    (isCleanup t) (isStarted t) (isRunning t) (isSkipped t) (isTimeout t) (startTime t) x (task t)
    (taskConfig t) (taskOutputs t) (taskStatusVars t) (updatedResult t) (taskResult t) (taskError t)
    (resultNotifyChan t) (dbTaskState t).

Definition set_task (x : option value) (t : taskState) : taskState :=
  mkTaskState (index t) (options t) (descriptor t) (taskDepth t) (taskVars t) (parentState t)
    (isCleanup t) (isStarted t) (isRunning t) (isSkipped t) (isTimeout t) (startTime t) (stopTime t)
    x (taskConfig t) (taskOutputs t) (taskStatusVars t) (updatedResult t) (taskResult t) (taskError
    t) (resultNotifyChan t) (dbTaskState t).

Definition set_taskConfig (x : value) (t : taskState) : taskState :=
  mkTaskState (index t) (options t) (descriptor t) (taskDepth t) (taskVars t) (parentState t)
    (isCleanup t) (isStarted t) (isRunning t) (isSkipped t) (isTimeout t) (startTime t) (stopTime t)
    (task t) x (taskOutputs t) (taskStatusVars t) (updatedResult t) (taskResult t) (taskError t)
    (resultNotifyChan t) (dbTaskState t).

Definition set_updatedResult (x : bool) (t : taskState) : taskState :=
  mkTaskState (index t) (options t) (descriptor t) (taskDepth t) (taskVars t) (parentState t)
    (isCleanup t) (isStarted t) (isRunning t) (isSkipped t) (isTimeout t) (startTime t) (stopTime t)
    (task t) (taskConfig t) (taskOutputs t) (taskStatusVars t) x (taskResult t) (taskError t)
    (resultNotifyChan t) (dbTaskState t).

Definition set_taskResult (x : TaskResult) (t : taskState) : taskState :=
  mkTaskState (index t) (options t) (descriptor t) (taskDepth t) (taskVars t) (parentState t)
    (isCleanup t) (isStarted t) (isRunning t) (isSkipped t) (isTimeout t) (startTime t) (stopTime t)
    (task t) (taskConfig t) (taskOutputs t) (taskStatusVars t) (updatedResult t) x (taskError t)
    (resultNotifyChan t) (dbTaskState t).

Definition set_taskError (x : option error) (t : taskState) : taskState :=
  mkTaskState (index t) (options t) (descriptor t) (taskDepth t) (taskVars t) (parentState t)
    (isCleanup t) (isStarted t) (isRunning t) (isSkipped t) (isTimeout t) (startTime t) (stopTime t)
    (task t) (taskConfig t) (taskOutputs t) (taskStatusVars t) (updatedResult t) (taskResult t) x
    (resultNotifyChan t) (dbTaskState t).

Definition set_resultNotifyChan (x : option nat) (t : taskState) : taskState :=
  mkTaskState (index t) (options t) (descriptor t) (taskDepth t) (taskVars t) (parentState t)
    (isCleanup t) (isStarted t) (isRunning t) (isSkipped t) (isTimeout t) (startTime t) (stopTime t)
    (task t) (taskConfig t) (taskOutputs t) (taskStatusVars t) (updatedResult t) (taskResult t)
    (taskError t) x (dbTaskState t).

Definition set_dbTaskState (x : option Db.TaskState) (t : taskState) : taskState :=
  mkTaskState (index t) (options t) (descriptor t) (taskDepth t) (taskVars t) (parentState t)
    (isCleanup t) (isStarted t) (isRunning t) (isSkipped t) (isTimeout t) (startTime t) (stopTime t)
    (task t) (taskConfig t) (taskOutputs t) (taskStatusVars t) (updatedResult t) (taskResult t)
    (taskError t) (resultNotifyChan t) x.

(** The scheduler, with the world it acts on: the variable scopes, the
    database ([None] for a nil service), the number of transactions and clock
    readings so far, and the notification channels made and closed. *)
Record TaskScheduler := mkTaskScheduler {
  rootVars : Variables_ref;
  testRunID : Z;
  taskCount : Z;
  allTasks : list Z;
  rootTasks : list Z;
  allCleanupTasks : list Z;
  rootCleanupTasks : list Z;
  taskStateMap : gmap Z taskState;
  scopes : Vars.heap;
  database : option Database;
  txCount : nat;
  clock : nat;
  nextChan : nat;
  closedChans : gset nat
}.

Definition upd_taskCount (x : Z) (w : TaskScheduler) : TaskScheduler :=
  mkTaskScheduler (rootVars w) (testRunID w) x (allTasks w) (rootTasks w) (allCleanupTasks w)
    (rootCleanupTasks w) (taskStateMap w) (scopes w) (database w) (txCount w) (clock w) (nextChan w)
    (closedChans w).

Definition upd_allTasks (x : list Z) (w : TaskScheduler) : TaskScheduler :=
  mkTaskScheduler (rootVars w) (testRunID w) (taskCount w) x (rootTasks w) (allCleanupTasks w)
    (rootCleanupTasks w) (taskStateMap w) (scopes w) (database w) (txCount w) (clock w) (nextChan w)
    (closedChans w).

Definition upd_rootTasks (x : list Z) (w : TaskScheduler) : TaskScheduler :=
  mkTaskScheduler (rootVars w) (testRunID w) (taskCount w) (allTasks w) x (allCleanupTasks w)
    (rootCleanupTasks w) (taskStateMap w) (scopes w) (database w) (txCount w) (clock w) (nextChan w)
    (closedChans w).

Definition upd_allCleanupTasks (x : list Z) (w : TaskScheduler) : TaskScheduler :=
  mkTaskScheduler (rootVars w) (testRunID w) (taskCount w) (allTasks w) (rootTasks w) x
    (rootCleanupTasks w) (taskStateMap w) (scopes w) (database w) (txCount w) (clock w) (nextChan w)
    (closedChans w).

Definition upd_rootCleanupTasks (x : list Z) (w : TaskScheduler) : TaskScheduler :=
  mkTaskScheduler (rootVars w) (testRunID w) (taskCount w) (allTasks w) (rootTasks w)
    (allCleanupTasks w) x (taskStateMap w) (scopes w) (database w) (txCount w) (clock w) (nextChan
    w) (closedChans w).

Definition upd_taskStateMap (x : gmap Z taskState) (w : TaskScheduler) : TaskScheduler :=
  mkTaskScheduler (rootVars w) (testRunID w) (taskCount w) (allTasks w) (rootTasks w)
    (allCleanupTasks w) (rootCleanupTasks w) x (scopes w) (database w) (txCount w) (clock w)
    (nextChan w) (closedChans w).

Definition upd_scopes (x : Vars.heap) (w : TaskScheduler) : TaskScheduler :=
  mkTaskScheduler (rootVars w) (testRunID w) (taskCount w) (allTasks w) (rootTasks w)
    (allCleanupTasks w) (rootCleanupTasks w) (taskStateMap w) x (database w) (txCount w) (clock w)
    (nextChan w) (closedChans w).

Definition upd_database (x : option Database) (w : TaskScheduler) : TaskScheduler :=
  mkTaskScheduler (rootVars w) (testRunID w) (taskCount w) (allTasks w) (rootTasks w)
    (allCleanupTasks w) (rootCleanupTasks w) (taskStateMap w) (scopes w) x (txCount w) (clock w)
    (nextChan w) (closedChans w).

Definition upd_txCount (x : nat) (w : TaskScheduler) : TaskScheduler :=
  mkTaskScheduler (rootVars w) (testRunID w) (taskCount w) (allTasks w) (rootTasks w)
    (allCleanupTasks w) (rootCleanupTasks w) (taskStateMap w) (scopes w) (database w) x (clock w)
    (nextChan w) (closedChans w).

Definition upd_clock (x : nat) (w : TaskScheduler) : TaskScheduler :=
  mkTaskScheduler (rootVars w) (testRunID w) (taskCount w) (allTasks w) (rootTasks w)
    (allCleanupTasks w) (rootCleanupTasks w) (taskStateMap w) (scopes w) (database w) (txCount w) x
    (nextChan w) (closedChans w).

Definition upd_nextChan (x : nat) (w : TaskScheduler) : TaskScheduler :=
  mkTaskScheduler (rootVars w) (testRunID w) (taskCount w) (allTasks w) (rootTasks w)
    (allCleanupTasks w) (rootCleanupTasks w) (taskStateMap w) (scopes w) (database w) (txCount w)
    (clock w) x (closedChans w).

Definition upd_closedChans (x : gset nat) (w : TaskScheduler) : TaskScheduler :=
  mkTaskScheduler (rootVars w) (testRunID w) (taskCount w) (allTasks w) (rootTasks w)
    (allCleanupTasks w) (rootCleanupTasks w) (taskStateMap w) (scopes w) (database w) (txCount w)
    (clock w) (nextChan w) x.

Section operations.
Context `{lib : Library}.

(** [v.GetVarsMap(nil, false)], [v.ResolveQuery(q)] and
    [v.ResolvePlaceholders(s)] on the scheduler's scopes. *)
Definition read_vars (v : Variables_ref) (w : TaskScheduler) : gmap string value :=
  default ∅ (GetVarsMap lib_depth (scopes w) v ∅ false).

Definition resolve_query (v : Variables_ref) (q : string) (w : TaskScheduler) : result (option value) :=
  default (Err "stack overflow"%string)
    (ResolveQuery lib_yaml_Marshal lib_yaml_Unmarshal lib_gojq_Parse lib_query_Run
       lib_depth (scopes w) v q).

Definition resolve_placeholders (v : Variables_ref) (s : string) (w : TaskScheduler) : string :=
  ResolvePlaceholders lib_fmt_v lib_yaml_Marshal lib_yaml_Unmarshal lib_gojq_Parse lib_query_Run
    lib_depth (scopes w) v s.

Definition set_var (v : Variables_ref) (name : string) (x : value) (w : TaskScheduler) : TaskScheduler :=
  upd_scopes (SetVar v name x (scopes w)) w.

Definition time_Now (w : TaskScheduler) : TaskScheduler * Z :=
  (upd_clock (S (clock w)) w, lib_now (clock w)).

(** [database.RunTransaction(handler)] on a database that is not nil. *)
Definition run_transaction (handler : Database -> result Database) (db : Database)
    (w : TaskScheduler) : TaskScheduler * option error :=
  let '(db', err) := RunTransaction (lib_engine (txCount w)) handler db in
  (upd_database (Some db') (upd_txCount (S (txCount w)) w), err).

(** Write through a [*taskState] pointer. *)
Definition update_task (i : Z) (f : taskState -> taskState) (w : TaskScheduler) : TaskScheduler :=
  upd_taskStateMap (alter f i (taskStateMap w)) w.

Definition getTaskState (i : Z) (w : TaskScheduler) : option taskState := taskStateMap w !! i.

Definition NewTaskScheduler (variables : Variables_ref) (runID : Z) (h : Vars.heap)
    (db : option Database) : TaskScheduler :=
  mkTaskScheduler variables runID 0 [] [] [] [] ∅ h db 0 0 0 ∅.

Definition Title_of (t : taskState) (w : TaskScheduler) : string :=
  resolve_placeholders (taskVars t) (opt_Title (options t)) w.

Definition Config_of (t : taskState) : value :=
  match task t with Some cfg => cfg | None => taskConfig t end.

Definition ParentIndex (t : taskState) : Z := default 0 (parentState t).

(** ** Creating a task *)

(** The row written when a task is created. *)
Definition initial_row (t : taskState) (w : TaskScheduler) : Db.TaskState :=
  mkTaskRow (testRunID w) (index t) (ParentIndex t) (opt_Name (options t)) (Title_of t w)
    (opt_ID (options t)) (opt_Timeout (options t) ÷ 1000000000) (opt_If (options t))
    (if isCleanup t then TaskRunFlagCleanup else 0) 0 0 0 "" "" 0 "".

(** [newTaskState(options, parentState, variables, isCleanupTask)]: the task's
    two scopes, its registration under [tasks.<id>], its entry in the map and
    the lists, and its database row.  When the row cannot be inserted the task
    stays registered and the caller gets the error. *)
Definition newTaskState (opts : TaskOptions) (parent : option Z) (variables : option Variables_ref)
    (isCleanupTask : bool) (w : TaskScheduler) : TaskScheduler * result Z :=
  let variables :=
    match variables with
    | Some v => v
    | None =>
        match parent ≫= fun p => taskStateMap w !! p with
        | Some p => taskVars p
        | None => rootVars w
        end
    end in
  match GetTaskDescriptor (opt_Name opts) with
  | None => (w, Err ("unknown task name: " ++ opt_Name opts)%string)
  | Some desc =>
      let taskIdx := taskCount w + 1 in
      let '(h1, outputs) := NewVariables None (scopes w) in
      let '(h2, statusVars) := NewVariables None h1 in
      let h3 := SetSubScope statusVars "outputs" outputs h2 in
      let h4 :=
        if String.eqb (opt_ID opts) "" then h3
        else match GetSubScope lib_depth variables "tasks" h3 with
             | Some (h', tasksScope) => SetSubScope tasksScope (opt_ID opts) statusVars h'
             | None => h3
             end in
      let depth := match parent ≫= fun p => taskStateMap w !! p with
                   | Some p => taskDepth p + 1
                   | None => 0
                   end in
      let t := mkTaskState taskIdx opts desc depth variables parent isCleanupTask
                 false false false false None None None VNil outputs statusVars
                 false TaskResultNone None None None in
      let w1 := upd_scopes h4 (upd_taskCount taskIdx
                  (upd_taskStateMap (<[taskIdx := t]> (taskStateMap w)) w)) in
      let w2 := if isCleanupTask then upd_allCleanupTasks (allCleanupTasks w1 ++ [taskIdx]) w1
                else upd_allTasks (allTasks w1 ++ [taskIdx]) w1 in
      match database w2 with
      | None => (w2, Ok taskIdx)
      | Some db =>
          let row := initial_row t w2 in
          let w3 := update_task taskIdx (set_dbTaskState (Some row)) w2 in
          let '(w4, err) := run_transaction (InsertTaskState row) db w3 in
          (w4, match err with Some e => Err e | None => Ok taskIdx end)
      end
  end.

Definition AddRootTask (opts : TaskOptions) (w : TaskScheduler) : TaskScheduler * result Z :=
  let '(w1, r) := newTaskState opts None None false w in
  match r with
  | Err e => (w1, Err e)
  | Ok i => (upd_rootTasks (rootTasks w1 ++ [i]) w1, Ok i)
  end.

Definition AddCleanupTask (opts : TaskOptions) (w : TaskScheduler) : TaskScheduler * result Z :=
  let '(w1, r) := newTaskState opts None None true w in
  match r with
  | Err e => (w1, Err e)
  | Ok i => (upd_rootCleanupTasks (rootCleanupTasks w1 ++ [i]) w1, Ok i)
  end.

(** ** Status synchronisation *)

Definition run_flags (t : taskState) : Z :=
  let flag (b : bool) f acc := if b then Z.lor acc f else acc in
  flag (isTimeout t) TaskRunFlagTimeout (flag (isSkipped t) TaskRunFlagSkipped
    (flag (isRunning t) TaskRunFlagRunning (flag (isStarted t) TaskRunFlagStarted
      (flag (isCleanup t) TaskRunFlagCleanup 0)))).

(** One [if new != old { old = new; changedFields = append(..) }] of
    [updateTaskState]: the mirrored value and the field to append. *)
Definition sync {A} (differs : bool) (field : string) (new old : A) : A * list string :=
  if differs then (new, [field]) else (old, []).

(** The mirror [dbTaskState] after the comparisons, and the changed fields. *)
Definition changed_row (t : taskState) (title cfgYaml statusYaml : string) (row : Db.TaskState)
    : Db.TaskState * list string :=
  let sTitle := sync (negb (String.eqb title (Title row))) "title" title (Title row) in
  let sFlags := sync (negb (run_flags t =? RunFlags row)) "run_flags" (run_flags t) (RunFlags row) in
  let sStart :=
    match startTime t with
    | Some s => sync (negb (UnixMilli s =? StartTime row)) "start_time" (UnixMilli s) (StartTime row)
    | None => (StartTime row, [])
    end in
  let sStop :=
    match stopTime t with
    | Some s => sync (negb (UnixMilli s =? StopTime row)) "stop_time" (UnixMilli s) (StopTime row)
    | None => (StopTime row, [])
    end in
  let sConfig := sync (negb (String.eqb cfgYaml (TaskConfig row))) "task_config" cfgYaml (TaskConfig row) in
  let sStatus := sync (negb (String.eqb statusYaml (TaskStatus row))) "task_status" statusYaml (TaskStatus row) in
  let res := TaskResult_int (taskResult t) in
  let sResult := sync (negb (res =? Db.TaskResult row)) "task_result" res (Db.TaskResult row) in
  let sError :=
    match taskError t with
    | Some e => sync (negb (String.eqb e (TaskError row))) "task_error" e (TaskError row)
    | None => (TaskError row, [])
    end in
  (mkTaskRow (RunID row) (TaskID row) (ParentTask row) (Name row) sTitle.1 (RefID row)
     (Timeout row) (IfCond row) sFlags.1 sStart.1 sStop.1 (ScopeOwner row)
     sConfig.1 sStatus.1 sResult.1 sError.1,
   sTitle.2 ++ sFlags.2 ++ sStart.2 ++ sStop.2 ++ sConfig.2 ++ sStatus.2 ++ sResult.2 ++ sError.2).

(** The mirror when only the fields compared before a YAML error were copied:
    [withConfig] tells whether the configuration was. *)
Definition partial_row (t : taskState) (title : string) (cfgYaml : option string) (row : Db.TaskState)
    : Db.TaskState :=
  let full := (changed_row t title (default (TaskConfig row) cfgYaml) (TaskStatus row) row).1 in
  mkTaskRow (RunID full) (TaskID full) (ParentTask full) (Name full) (Title full) (RefID full)
    (Timeout full) (IfCond full) (RunFlags full) (StartTime full) (StopTime full) (ScopeOwner full)
    (TaskConfig full) (TaskStatus full) (Db.TaskResult row) (TaskError row).

(** [updateTaskState()]: compare the task with the row it last saw, note the
    differences in the mirror and update those columns. *)
Definition updateTaskState (i : Z) (w : TaskScheduler) : TaskScheduler * option error :=
  match getTaskState i w with
  | None => (w, None)
  | Some t =>
      match dbTaskState t with
      | None => (w, None)
      | Some row =>
          let title := Title_of t w in
          match lib_yaml_Marshal (Config_of t) with
          | Err e => (update_task i (set_dbTaskState (Some (partial_row t title None row))) w, Some e)
          | Ok cfgYaml =>
              match lib_yaml_Marshal (VMap (read_vars (taskStatusVars t) w)) with
              | Err e =>
                  (update_task i (set_dbTaskState (Some (partial_row t title (Some cfgYaml) row))) w, Some e)
              | Ok statusYaml =>
                  let '(row', changed) := changed_row t title cfgYaml statusYaml row in
                  let w1 := update_task i (set_dbTaskState (Some row')) w in
                  match changed, database w1 with
                  | _ :: _, Some db => run_transaction (UpdateTaskStateStatus row' changed) db w1
                  | _, _ => (w1, None)
                  end
              end
          end
      end
  end.

(** ** Results and their notification *)

(** [setTaskResult(result, setUpdated)]; an update error is only logged. *)
Definition setTaskResult (i : Z) (res : TaskResult) (setUpdated : bool) (w : TaskScheduler)
    : TaskScheduler :=
  match getTaskState i w with
  | None => w
  | Some t0 =>
      let w0 := if setUpdated then update_task i (set_updatedResult true) w else w in
      if decide (taskResult t0 = res) then w0
      else
        let w1 := update_task i (set_taskResult res) w0 in
        let w2 := set_var (taskStatusVars t0) "result" (VUint8 (TaskResult_int res)) w1 in
        let w3 := (updateTaskState i w2).1 in
        match resultNotifyChan t0 with
        | Some c => upd_closedChans ({[c]} ∪ closedChans w3) (update_task i (set_resultNotifyChan None) w3)
        | None => w3
        end
  end.

(** [GetTaskResultUpdateChan(oldResult)]: [None] when the result already
    differs, else the channel that the next change closes. *)
Definition GetTaskResultUpdateChan (i : Z) (oldResult : TaskResult) (w : TaskScheduler)
    : TaskScheduler * option nat :=
  match getTaskState i w with
  | None => (w, None)
  | Some t =>
      if decide (taskResult t = oldResult) then
        match resultNotifyChan t with
        | Some c => (w, Some c)
        | None =>
            let c := nextChan w in
            (upd_nextChan (S c) (update_task i (set_resultNotifyChan (Some c)) w), Some c)
        end
      else (w, None)
  end.

(** [GetScopeOwner()] *)
Definition GetScopeOwner (i : Z) (w : TaskScheduler) : Z :=
  match getTaskState i w with
  | None => 0
  | Some t =>
      match LookupVar lib_depth (scopes w) (taskVars t) "scopeOwner" with
      | Some (Some (VUint64 z)) => z
      | _ => 0
      end
  end.

(** ** Task lists *)

(** The loop of the comparator of [sortTaskList]; [None] is a nil pointer
    dereference or running out of fuel. *)
Fixpoint taskLess_loop (fuel : nat) (m : gmap Z taskState) (a b : taskState) : option bool :=
  match fuel with
  | O => None
  | S fuel =>
      if decide (parentState a = Some (index b)) then Some false
      else if decide (parentState b = Some (index a)) then Some true
      else
        '(a', b') ←
          (if taskDepth b <? taskDepth a then
             a' ← parentState a ≫= fun p => m !! p; Some (a', b)
           else if taskDepth a <? taskDepth b then
             b' ← parentState b ≫= fun p => m !! p; Some (a, b')
           else
             a' ← parentState a ≫= fun p => m !! p;
             b' ← parentState b ≫= fun p => m !! p; Some (a', b'));
        if decide (parentState a' = parentState b') then Some (index a' <? index b')
        else taskLess_loop fuel m a' b'
  end.

Definition taskLess (m : gmap Z taskState) (x y : Z) : option bool :=
  a ← m !! x; b ← m !! y;
  if decide (parentState a = parentState b) then Some (index a <? index b)
  else taskLess_loop (S (Z.to_nat (taskDepth a + taskDepth b))) m a b.

Definition sortTaskList `{!SliceSort} (w : TaskScheduler) (taskList : list Z) : list Z :=
  slice_sort (fun x y => default false (taskLess (taskStateMap w) x y)) taskList.

Definition GetAllTasks `{!SliceSort} (w : TaskScheduler) : list Z := sortTaskList w (allTasks w).
Definition GetAllCleanupTasks `{!SliceSort} (w : TaskScheduler) : list Z :=
  sortTaskList w (allCleanupTasks w).
Definition GetRootTasks (w : TaskScheduler) : list Z := rootTasks w.
Definition GetRootCleanupTasks (w : TaskScheduler) : list Z := rootCleanupTasks w.
Definition GetTaskCount (w : option TaskScheduler) : Z :=
  match w with None => 0 | Some w => Z.of_nat (length (allTasks w)) end.

End operations.

(** ** Invariant *)

(** What identifies a task's place in the tree; no update changes it. *)
Definition same_place (t t' : taskState) : Prop :=
  index t = index t' /\ parentState t = parentState t' /\
  taskDepth t = taskDepth t' /\ isCleanup t = isCleanup t'.

#[export] Instance same_place_equiv : Equivalence same_place.
Proof. split; repeat intro; unfold same_place in *; intuition congruence. Qed.

Record sched_wf (w : TaskScheduler) : Prop := {
  swf_count : 0 <= taskCount w;
  swf_key : forall i t, taskStateMap w !! i = Some t ->
    index t = i /\ 1 <= i <= taskCount w /\ 0 <= taskDepth t < i;
  swf_parent : forall i t, taskStateMap w !! i = Some t ->
    match parentState t with
    | None => taskDepth t = 0
    | Some p => exists pt, taskStateMap w !! p = Some pt /\ p < i /\ taskDepth t = taskDepth pt + 1
    end;
  swf_nodup : NoDup (allTasks w) /\ NoDup (allCleanupTasks w) /\
    NoDup (rootTasks w) /\ NoDup (rootCleanupTasks w);
  swf_all : forall i, i ∈ allTasks w <->
    exists t, taskStateMap w !! i = Some t /\ isCleanup t = false;
  swf_cleanup : forall i, i ∈ allCleanupTasks w <->
    exists t, taskStateMap w !! i = Some t /\ isCleanup t = true;
  swf_root : forall i, i ∈ rootTasks w ->
    exists t, taskStateMap w !! i = Some t /\ isCleanup t = false /\ parentState t = None;
  swf_rootc : forall i, i ∈ rootCleanupTasks w ->
    exists t, taskStateMap w !! i = Some t /\ isCleanup t = true /\ parentState t = None
}.

(** Two schedulers with the same task tree and lists. *)
Record same_tree (w w' : TaskScheduler) : Prop := {
  st_count : taskCount w' = taskCount w;
  st_lists : allTasks w' = allTasks w /\ allCleanupTasks w' = allCleanupTasks w /\
    rootTasks w' = rootTasks w /\ rootCleanupTasks w' = rootCleanupTasks w;
  st_ids : testRunID w' = testRunID w /\ rootVars w' = rootVars w;
  st_map : forall i, option_Forall2 same_place (taskStateMap w !! i) (taskStateMap w' !! i)
}.

#[export] Instance same_tree_preorder : PreOrder same_tree.
Proof.
  split.
  - intros w. split; auto. intros i. destruct (_ !! i); by constructor.
  - intros w1 w2 w3 [Hc1 Hl1 Hi1 Hm1] [Hc2 Hl2 Hi2 Hm2]. split; [congruence|..].
    + destruct Hl1 as (?&?&?&?), Hl2 as (?&?&?&?). split_and!; congruence.
    + destruct Hi1, Hi2. split; congruence.
    + intros i. specialize (Hm1 i). specialize (Hm2 i).
      destruct Hm1; inversion Hm2; subst; constructor; by etrans.
Qed.

Lemma same_tree_fwd w w' i t :
  same_tree w w' -> taskStateMap w !! i = Some t ->
  exists t', taskStateMap w' !! i = Some t' /\ same_place t t'.
Proof. intros [_ _ _ Hm] Ht. specialize (Hm i). rewrite Ht in Hm. inversion Hm; eauto. Qed.

Lemma same_tree_bwd w w' i t' :
  same_tree w w' -> taskStateMap w' !! i = Some t' ->
  exists t, taskStateMap w !! i = Some t /\ same_place t t'.
Proof. intros [_ _ _ Hm] Ht. specialize (Hm i). rewrite Ht in Hm. inversion Hm; eauto. Qed.

Lemma same_tree_wf w w' : same_tree w w' -> sched_wf w -> sched_wf w'.
Proof.
  intros Hst [Hc Hk Hp Hnd Ha Hcl Hr Hrc]. pose proof Hst as [Ec (El1 & El2 & El3 & El4) _ _].
  split.
  - by rewrite Ec.
  - intros i t' Ht'. destruct (same_tree_bwd _ _ _ _ Hst Ht') as (t & Ht & (<- & _ & <- & _)).
    rewrite Ec. by apply Hk.
  - intros i t' Ht'. destruct (same_tree_bwd _ _ _ _ Hst Ht') as (t & Ht & (_ & <- & <- & _)).
    specialize (Hp i t Ht). destruct (parentState t) as [p|]; [|done].
    destruct Hp as (pt & Hpt & ? & ?).
    destruct (same_tree_fwd _ _ _ _ Hst Hpt) as (pt' & ? & (_ & _ & E & _)).
    exists pt'. by rewrite <- E.
  - by rewrite El1, El2, El3, El4.
  - intros i. rewrite El1, Ha. split; intros (t & Ht & Hcu).
    + destruct (same_tree_fwd _ _ _ _ Hst Ht) as (t' & ? & (_ & _ & _ & E)). exists t'. by rewrite <- E.
    + destruct (same_tree_bwd _ _ _ _ Hst Ht) as (t' & ? & (_ & _ & _ & E)). exists t'. by rewrite E.
  - intros i. rewrite El2, Hcl. split; intros (t & Ht & Hcu).
    + destruct (same_tree_fwd _ _ _ _ Hst Ht) as (t' & ? & (_ & _ & _ & E)). exists t'. by rewrite <- E.
    + destruct (same_tree_bwd _ _ _ _ Hst Ht) as (t' & ? & (_ & _ & _ & E)). exists t'. by rewrite E.
  - intros i. rewrite El3. intros (t & Ht & Hcu & Hpa)%Hr.
    destruct (same_tree_fwd _ _ _ _ Hst Ht) as (t' & ? & (_ & E1 & _ & E2)).
    exists t'. by rewrite <- E1, <- E2.
  - intros i. rewrite El4. intros (t & Ht & Hcu & Hpa)%Hrc.
    destruct (same_tree_fwd _ _ _ _ Hst Ht) as (t' & ? & (_ & E1 & _ & E2)).
    exists t'. by rewrite <- E1, <- E2.
Qed.

Section preservation.
Context `{lib : Library}.

Lemma same_tree_update i f w :
  (forall t, same_place t (f t)) -> same_tree w (update_task i f w).
Proof.
  intros Hf. split; simpl; auto. intros j. rewrite lookup_alter.
  case_decide; [subst j|]; destruct (taskStateMap w !! _) as [t|]; simpl; constructor; auto.
  done.
Qed.

Lemma same_tree_run_transaction handler db w : same_tree w (run_transaction handler db w).1.
Proof.
  unfold run_transaction. destruct (RunTransaction _ _ _) as [db' err]. simpl.
  split; simpl; auto. intros i. by destruct (_ !! i); constructor.
Qed.

Lemma same_tree_scopes h w : same_tree w (upd_scopes h w).
Proof. split; simpl; auto. intros i. by destruct (_ !! i); constructor. Qed.

Lemma same_tree_nextChan n w : same_tree w (upd_nextChan n w).
Proof. split; simpl; auto. intros i. by destruct (_ !! i); constructor. Qed.

Lemma same_tree_closedChans c w : same_tree w (upd_closedChans c w).
Proof. split; simpl; auto. intros i. by destruct (_ !! i); constructor. Qed.

Lemma same_tree_updateTaskState i w : same_tree w (updateTaskState i w).1.
Proof.
  unfold updateTaskState. destruct (getTaskState i w) as [t|]; [|done].
  destruct (dbTaskState t) as [row|]; [|done].
  destruct (lib_yaml_Marshal (Config_of t)); [|by apply same_tree_update].
  destruct (lib_yaml_Marshal (VMap _)); [|by apply same_tree_update].
  destruct (changed_row _ _ _ _ _) as [row' changed].
  assert (same_tree w (update_task i (set_dbTaskState (Some row')) w)) as Hst by by apply same_tree_update.
  destruct changed; [done|]. simpl. destruct (database w); [|done].
  etrans; [exact Hst|]. apply same_tree_run_transaction.
Qed.

Lemma same_tree_setTaskResult i r upd w : same_tree w (setTaskResult i r upd w).
Proof.
  unfold setTaskResult. destruct (getTaskState i w) as [t|]; [|done].
  assert (same_tree w (if upd then update_task i (set_updatedResult true) w else w)) as H0.
  { destruct upd; [by apply same_tree_update|done]. }
  case_decide; [done|].
  set (w0 := if upd then _ else w) in *.
  assert (same_tree w (updateTaskState i (set_var (taskStatusVars t) "result"
    (VUint8 (TaskResult_int r)) (update_task i (set_taskResult r) w0))).1) as Hst.
  { etrans; [exact H0|]. etrans; [by apply (same_tree_update i (set_taskResult r))|].
    etrans; [apply same_tree_scopes|]. apply same_tree_updateTaskState. }
  destruct (resultNotifyChan t); [|done].
  etrans; [exact Hst|].
  etrans; [by apply (same_tree_update i (set_resultNotifyChan None))|].
  apply same_tree_closedChans.
Qed.

Lemma same_tree_GetTaskResultUpdateChan i r w : same_tree w (GetTaskResultUpdateChan i r w).1.
Proof.
  unfold GetTaskResultUpdateChan. destruct (getTaskState i w) as [t|]; [|done].
  case_decide; [|done]. destruct (resultNotifyChan t); [done|]. simpl.
  etrans; [by apply (same_tree_update i (set_resultNotifyChan (Some (nextChan w))))|]. apply same_tree_nextChan.
Qed.

(** The state [newTaskState] reaches just before the database insert. *)
Definition with_task (t : taskState) (h : Vars.heap) (w : TaskScheduler) : TaskScheduler :=
  let w1 := upd_scopes h (upd_taskCount (index t)
              (upd_taskStateMap (<[index t := t]> (taskStateMap w)) w)) in
  if isCleanup t then upd_allCleanupTasks (allCleanupTasks w1 ++ [index t]) w1
  else upd_allTasks (allTasks w1 ++ [index t]) w1.

(** [newTaskState] fails without a trace on an unknown name; otherwise it adds
    one task with the next index and, up to the task tree, nothing else. *)
Lemma newTaskState_cases opts parent vars cleanup w :
  (GetTaskDescriptor (opt_Name opts) = None /\
   newTaskState opts parent vars cleanup w = (w, Err ("unknown task name: " ++ opt_Name opts)%string)) \/
  exists t h, index t = taskCount w + 1 /\ options t = opts /\ parentState t = parent /\
    isCleanup t = cleanup /\ taskResult t = TaskResultNone /\ isStarted t = false /\
    taskDepth t = match parent ≫= fun p => taskStateMap w !! p with
                  | Some p => taskDepth p + 1 | None => 0 end /\
    same_tree (with_task t h w) (newTaskState opts parent vars cleanup w).1 /\
    ((newTaskState opts parent vars cleanup w).2 = Ok (index t) \/
     is_Some (database w) /\ exists e, (newTaskState opts parent vars cleanup w).2 = Err e).
Proof.
  unfold newTaskState. destruct (GetTaskDescriptor (opt_Name opts)) as [desc|]; [right|by left].
  cbv zeta. cbn [NewVariables]. set (v := match vars with Some _ => _ | None => _ end).
  set (h4 := if String.eqb (opt_ID opts) "" then _ else _).
  set (t := mkTaskState _ _ _ _ _ _ _ _ _ _ _ _ _ _ _ _ _ _ _ _ _ _).
  exists t, h4. do 7 (split; [done|]). clearbody h4.
  set (w2 := if cleanup then _ else _).
  assert (w2 = with_task t h4 w) as -> by done.
  assert (database (with_task t h4 w) = database w) as -> by by destruct cleanup.
  destruct (database w) as [db|]; [|split; [done|by left]].
  set (w3 := update_task _ _ _).
  assert (same_tree (with_task t h4 w) w3) as H3 by by apply same_tree_update.
  pose proof (same_tree_run_transaction (InsertTaskState (initial_row t (with_task t h4 w))) db w3) as H4.
  change (taskCount w + 1) with (index t).
  destruct (run_transaction _ db w3) as [w4 err]. simpl in *.
  split; [by etrans|]. destruct err; [right|by left]. split; [by eexists|by eexists].
Qed.

Lemma with_task_wf t h w :
  sched_wf w -> index t = taskCount w + 1 ->
  (forall p, parentState t = Some p -> is_Some (taskStateMap w !! p)) ->
  taskDepth t = match parentState t ≫= fun p => taskStateMap w !! p with
                | Some p => taskDepth p + 1 | None => 0 end ->
  sched_wf (with_task t h w).
Proof.
  intros Hwf Hi Hpar Hdepth. pose proof Hwf as [Hc Hk Hp (Hn1 & Hn2 & Hn3 & Hn4) Ha Hcl Hr Hrc].
  assert (taskStateMap w !! index t = None) as Hnew.
  { apply eq_None_not_Some. intros [t' Ht']. destruct (Hk _ _ Ht') as (_ & ? & _). lia. }
  assert (forall i t', taskStateMap w !! i = Some t' ->
    <[index t:=t]> (taskStateMap w) !! i = Some t') as Hkeep.
  { intros i t' Ht'. rewrite lookup_insert_ne; [done|]. intros <-. congruence. }
  assert (taskStateMap (with_task t h w) = <[index t:=t]> (taskStateMap w)) as Em
    by by unfold with_task; destruct (isCleanup t).
  assert (match parentState t with
    | None => taskDepth t = 0
    | Some p => exists pt, taskStateMap w !! p = Some pt /\ p < index t /\ taskDepth t = taskDepth pt + 1
    end /\ 0 <= taskDepth t < index t) as [Hpt Hd].
  { destruct (parentState t) as [p|]; simpl in Hdepth; [|split; lia].
    destruct (Hpar p eq_refl) as [pt Hpt]. rewrite Hpt in Hdepth. simpl in Hdepth.
    destruct (Hk _ _ Hpt) as (_ & ? & ?).
    split; [|lia]. exists pt. split_and!; [done|lia|done]. }
  split.
  - unfold with_task. destruct (isCleanup t); simpl; lia.
  - intros i t'. rewrite Em. intros [[<- <-]|[_ Ht']]%lookup_insert_Some.
    + split; [done|]. split; [|done]. unfold with_task. destruct (isCleanup t); simpl; lia.
    + destruct (Hk _ _ Ht') as (? & ? & ?). split_and!; try lia.
      unfold with_task. destruct (isCleanup t); simpl; lia.
  - intros i t'. rewrite Em. intros [[<- <-]|[_ Ht']]%lookup_insert_Some.
    + destruct (parentState t); [|done]. destruct Hpt as (pt & ? & ? & ?). exists pt. auto.
    + specialize (Hp _ _ Ht'). destruct (parentState t'); [|done].
      destruct Hp as (pt & ? & ? & ?). exists pt. auto.
  - assert (forall l (P : Z -> Prop), NoDup l -> (forall i, i ∈ l -> is_Some (taskStateMap w !! i)) ->
      NoDup (l ++ [index t])) as Happ.
    { intros l _ Hnd Hin. apply NoDup_app. split; [done|]. split; [|apply NoDup_singleton].
      intros i Hi' ->%list_elem_of_singleton. destruct (Hin _ Hi') as [??]. congruence. }
    unfold with_task. destruct (isCleanup t); simpl; split_and!; try done.
    + apply (Happ _ (fun _ => True)); [done|]. intros i (t' & ? & _)%Hcl. eauto.
    + apply (Happ _ (fun _ => True)); [done|]. intros i (t' & ? & _)%Ha. eauto.
  - intros i. rewrite Em. unfold with_task. destruct (isCleanup t) eqn:Ecl; simpl.
    + rewrite Ha. split; intros (t' & Ht' & ?); [eauto|].
      apply lookup_insert_Some in Ht' as [[<- <-]|[_ Ht']]; [congruence|eauto].
    + rewrite elem_of_app, list_elem_of_singleton, Ha. split.
      * intros [(t' & ? & ?)| ->]; [eauto|]. exists t. by rewrite lookup_insert_eq.
      * intros (t' & Ht' & ?). apply lookup_insert_Some in Ht' as [[<- <-]|[_ Ht']]; eauto.
  - intros i. rewrite Em. unfold with_task. destruct (isCleanup t) eqn:Ecl; simpl.
    + rewrite elem_of_app, list_elem_of_singleton, Hcl. split.
      * intros [(t' & ? & ?)| ->]; [eauto|]. exists t. by rewrite lookup_insert_eq.
      * intros (t' & Ht' & ?). apply lookup_insert_Some in Ht' as [[<- <-]|[_ Ht']]; eauto.
    + rewrite Hcl. split; intros (t' & Ht' & ?); [eauto|].
      apply lookup_insert_Some in Ht' as [[<- <-]|[_ Ht']]; [congruence|eauto].
  - intros i. rewrite Em. unfold with_task. intros Hi'.
    assert (i ∈ rootTasks w) as (t' & ? & ? & ?)%Hr by (by destruct (isCleanup t)). eauto.
  - intros i. rewrite Em. unfold with_task. intros Hi'.
    assert (i ∈ rootCleanupTasks w) as (t' & ? & ? & ?)%Hrc by (by destruct (isCleanup t)). eauto.
Qed.
End preservation.

(** ** Reachable schedulers *)

Section reachable.
Context `{lib : Library}.

(** The operations that change a scheduler, in any order.  The status fields
    of a task are written by the execution of that task. *)
Inductive sched_step (w : TaskScheduler) : TaskScheduler -> Prop :=
  | step_newTaskState opts parent vars cleanup :
      (forall p, parent = Some p -> is_Some (taskStateMap w !! p)) ->
      sched_step w (newTaskState opts parent vars cleanup w).1
  | step_AddRootTask opts : sched_step w (AddRootTask opts w).1
  | step_AddCleanupTask opts : sched_step w (AddCleanupTask opts w).1
  | step_updateTaskState i : sched_step w (updateTaskState i w).1
  | step_setTaskResult i r upd : sched_step w (setTaskResult i r upd w)
  | step_GetTaskResultUpdateChan i r : sched_step w (GetTaskResultUpdateChan i r w).1
  | step_set_var v name x : sched_step w (set_var v name x w)
  | step_status i f : (forall t, same_place t (f t)) -> sched_step w (update_task i f w).

Lemma newTaskState_wf opts parent vars cleanup w :
  sched_wf w ->
  (forall p, parent = Some p -> is_Some (taskStateMap w !! p)) ->
  sched_wf (newTaskState opts parent vars cleanup w).1.
Proof.
  intros Hwf Hpar.
  destruct (newTaskState_cases opts parent vars cleanup w)
    as [[_ ->]|(t & h & Hi & _ & Hp & _ & _ & _ & Hd & Hst & _)]; [done|].
  eapply same_tree_wf; [exact Hst|]. apply with_task_wf; try done.
  - by rewrite Hp.
  - by rewrite Hd, Hp.
Qed.

(** A successful creation registers a fresh task at the given place. *)
Lemma newTaskState_Ok opts parent vars cleanup w i :
  sched_wf w ->
  (newTaskState opts parent vars cleanup w).2 = Ok i ->
  i = taskCount w + 1 /\ taskStateMap w !! i = None /\
  (cleanup = false -> allTasks (newTaskState opts parent vars cleanup w).1 = allTasks w ++ [i]) /\
  rootTasks (newTaskState opts parent vars cleanup w).1 = rootTasks w /\
  rootCleanupTasks (newTaskState opts parent vars cleanup w).1 = rootCleanupTasks w /\
  exists t, taskStateMap (newTaskState opts parent vars cleanup w).1 !! i = Some t /\
    parentState t = parent /\ isCleanup t = cleanup.
Proof.
  intros Hwf Hok.
  destruct (newTaskState_cases opts parent vars cleanup w)
    as [[_ Heq]|(t & h & Hi & _ & Hp & Hcl & _ & _ & _ & Hst & [Hr|(_ & e & Hr)])];
    [rewrite Heq in Hok; done| |congruence].
  rewrite Hr in Hok. injection Hok as <-.
  pose proof (swf_count _ Hwf).
  pose proof (st_lists _ _ Hst) as (El1 & _ & El3 & El4). unfold with_task in *. rewrite Hcl in *.
  split; [done|]. split.
  { apply eq_None_not_Some. intros [t' Ht']. apply (swf_key _ Hwf) in Ht'. lia. }
  split; [intros ->; exact El1|].
  split; [by rewrite El3; destruct cleanup|]. split; [by rewrite El4; destruct cleanup|].
  destruct (same_tree_fwd _ _ (index t) t Hst) as (t' & ? & (_ & Ep & _ & Ec)).
  { destruct cleanup; simpl; by rewrite lookup_insert_eq. }
  exists t'. split; [done|]. by rewrite <- Ep, <- Ec.
Qed.

Lemma sched_step_wf w w' : sched_step w w' -> sched_wf w -> sched_wf w'.
Proof.
  intros Hstep Hwf. destruct Hstep as [| opts|opts| | | | |].
  - by apply newTaskState_wf.
  - pose proof (newTaskState_wf opts None None false w Hwf ltac:(done)) as Hwf1.
    unfold AddRootTask. pose proof (newTaskState_Ok opts None None false w) as Hok.
    destruct (newTaskState opts None None false w) as [w1 [i|e]]; [|done]. simpl in *.
    destruct (Hok i Hwf eq_refl) as (_ & Hnew & _ & El & _ & t & Ht & Hp & Hcl).
    destruct Hwf1 as [Hc Hk Hpa (Hn1 & Hn2 & Hn3 & Hn4) Ha Hcl' Hr Hrc]. split; simpl; try done.
    + split_and!; try done. apply NoDup_app. split; [done|]. split; [|apply NoDup_singleton].
      intros j Hj ->%list_elem_of_singleton. rewrite El in Hj.
      destruct (swf_root _ Hwf i Hj) as (? & ? & _). congruence.
    + intros j. rewrite elem_of_app, list_elem_of_singleton. intros [Hj| ->]; eauto.
  - pose proof (newTaskState_wf opts None None true w Hwf ltac:(done)) as Hwf1.
    unfold AddCleanupTask. pose proof (newTaskState_Ok opts None None true w) as Hok.
    destruct (newTaskState opts None None true w) as [w1 [i|e]]; [|done]. simpl in *.
    destruct (Hok i Hwf eq_refl) as (_ & Hnew & _ & _ & El & t & Ht & Hp & Hcl).
    destruct Hwf1 as [Hc Hk Hpa (Hn1 & Hn2 & Hn3 & Hn4) Ha Hcl' Hr Hrc]. split; simpl; try done.
    + split_and!; try done. apply NoDup_app. split; [done|]. split; [|apply NoDup_singleton].
      intros j Hj ->%list_elem_of_singleton. rewrite El in Hj.
      destruct (swf_rootc _ Hwf i Hj) as (? & ? & _). congruence.
    + intros j. rewrite elem_of_app, list_elem_of_singleton. intros [Hj| ->]; eauto.
  - eapply same_tree_wf; [apply same_tree_updateTaskState|done].
  - eapply same_tree_wf; [apply same_tree_setTaskResult|done].
  - eapply same_tree_wf; [apply same_tree_GetTaskResultUpdateChan|done].
  - eapply same_tree_wf; [apply same_tree_scopes|done].
  - eapply same_tree_wf; [by apply same_tree_update|done].
Qed.

Lemma NewTaskScheduler_wf v id h db : sched_wf (NewTaskScheduler v id h db).
Proof.
  split; simpl; try (by intros ???); try lia; try set_solver.
  split_and!; constructor.
Qed.

Lemma sched_steps_wf w w' : rtc sched_step w w' -> sched_wf w -> sched_wf w'.
Proof. induction 1; eauto using sched_step_wf. Qed.
End reachable.

(** C13: The task tree of a scheduler is always consistent.  Whatever tasks are
    created, run, given results or synchronised, and also when creating a task
    fails half-way in the database: every task sits in the map under its own
    index, indexes run from 1 to the task count, a parent is older than its
    children and one level above them, each of the two task lists names exactly
    the tasks of its kind, once, and root lists name parentless tasks only. *)
Theorem sched_wf_reachable `{!Library} v id h db w :
  rtc sched_step (NewTaskScheduler v id h db) w -> sched_wf w.
Proof. intros Hr. eapply sched_steps_wf; [exact Hr|apply NewTaskScheduler_wf]. Qed.

(** Creating a task either fails on an unknown task name and changes
    nothing, or adds exactly one task with the next index under the given
    parent; a database error is returned although the task stays registered. *)
Theorem newTaskState_functional `{!Library} opts parent vars cleanup w :
  let r := newTaskState opts parent vars cleanup w in
  (GetTaskDescriptor (opt_Name opts) = None /\ r.1 = w /\ is_ok r.2 = false) \/
  (is_Some (GetTaskDescriptor (opt_Name opts)) /\ taskCount r.1 = taskCount w + 1 /\
   (if cleanup then allCleanupTasks r.1 = allCleanupTasks w ++ [taskCount w + 1]
    else allTasks r.1 = allTasks w ++ [taskCount w + 1]) /\
   (exists t, taskStateMap r.1 !! (taskCount w + 1) = Some t /\ parentState t = parent /\
      isCleanup t = cleanup) /\
   (r.2 = Ok (taskCount w + 1) \/ is_Some (database w) /\ is_ok r.2 = false)).
Proof.
  intros r. unfold r.
  destruct (newTaskState_cases opts parent vars cleanup w)
    as [[Hd ->]|(t & h & Hi & _ & Hp & Hcl & _ & _ & _ & Hst & Hr)]; [by left|right].
  split.
  { unfold newTaskState in Hst, Hr. destruct (GetTaskDescriptor (opt_Name opts)); [by eexists|].
    simpl in *. destruct Hr as [Hr|(_ & e & Hr)]; [done|].
    pose proof (st_lists _ _ Hst) as (E1 & E2 & _). unfold with_task in E1, E2.
    destruct (isCleanup t); simpl in *.
    - apply (f_equal length) in E2. rewrite length_app in E2. simpl in E2. lia.
    - apply (f_equal length) in E1. rewrite length_app in E1. simpl in E1. lia. }
  pose proof (st_count _ _ Hst) as Ec. pose proof (st_lists _ _ Hst) as (E1 & E2 & _ & _).
  unfold with_task in *. rewrite <- Hi, Hcl in *. split; [by rewrite Ec; destruct cleanup|].
  split; [by destruct cleanup|]. split.
  - destruct (same_tree_fwd _ _ (index t) t Hst) as (t' & ? & (_ & Ep & _ & Ec')).
    { destruct cleanup; simpl; by rewrite lookup_insert_eq. }
    exists t'. by rewrite <- Ep, <- Ec'.
  - destruct Hr as [Hr|(Hdb & e & Hr)]; [by left|right]. by rewrite Hr.
Qed.

(** ** Task order *)

(** The indexes from the root task down to [i]. *)
Inductive task_path (m : gmap Z taskState) : Z -> list Z -> Prop :=
  | path_root i t : m !! i = Some t -> parentState t = None -> task_path m i [i]
  | path_child i t p l :
      m !! i = Some t -> parentState t = Some p -> task_path m p l -> task_path m i (l ++ [i]).

(** Lexicographic order, a proper prefix first: an ancestor comes before its
    descendants, and two subtrees of one parent in the order of their roots. *)
Fixpoint lexb (l1 l2 : list Z) : bool :=
  match l1, l2 with
  | _, [] => false
  | [], _ :: _ => true
  | x :: l1, y :: l2 => if x =? y then lexb l1 l2 else x <? y
  end.

Lemma lexb_irrefl l : lexb l l = false.
Proof. induction l as [|x l IH]; simpl; [done|]. by rewrite Z.eqb_refl. Qed.

Lemma lexb_trans l1 l2 l3 : lexb l1 l2 = true -> lexb l2 l3 = true -> lexb l1 l3 = true.
Proof.
  revert l2 l3. induction l1 as [|x l1 IH]; intros [|y l2] [|z l3]; simpl; try done.
  destruct (Z.eqb_spec x y), (Z.eqb_spec y z), (Z.eqb_spec x z); subst; try lia; eauto.
Qed.

Lemma lexb_total l1 l2 : l1 = l2 \/ lexb l1 l2 = true \/ lexb l2 l1 = true.
Proof.
  revert l2. induction l1 as [|x l1 IH]; intros [|y l2]; simpl; auto.
  rewrite (Z.eqb_sym y x). destruct (Z.eqb_spec x y) as [->|]; [|lia].
  destruct (IH l2) as [->|[?|?]]; auto.
Qed.

(** Extending the longer path does not change the comparison. *)
Lemma lexb_extend_l l k r : (length r <= length l)%nat -> lexb (l ++ k) r = lexb l r.
Proof.
  revert r. induction l as [|x l IH]; intros [|y r] H; simpl in *; try lia.
  - by destruct k.
  - rewrite IH by lia. done.
Qed.

Lemma lexb_extend_r l r k : (length l <= length r)%nat -> l <> r -> lexb l (r ++ k) = lexb l r.
Proof.
  revert r. induction l as [|x l IH]; intros [|y r] H Hne; simpl in *; try lia; try done.
  destruct (Z.eqb_spec x y) as [->|]; [|done]. apply IH; [lia|congruence].
Qed.

Lemma lexb_extend_both l r k k' :
  length l = length r -> l <> r -> lexb (l ++ k) (r ++ k') = lexb l r.
Proof.
  revert r. induction l as [|x l IH]; intros [|y r] H Hne; simpl in *; try lia; try done.
  destruct (Z.eqb_spec x y) as [->|]; [|done]. apply IH; [lia|congruence].
Qed.

Lemma lexb_prefix l k : k <> [] -> lexb l (l ++ k) = true.
Proof. intros Hk. induction l as [|x l IH]; simpl; [by destruct k|]. by rewrite Z.eqb_refl. Qed.

Lemma lexb_siblings l i j : lexb (l ++ [i]) (l ++ [j]) = (i <? j).
Proof.
  induction l as [|x l IH]; simpl; [|by rewrite Z.eqb_refl].
  destruct (Z.eqb_spec i j) as [->|]; [lia|done].
Qed.

Section task_order.
Context (w : TaskScheduler) (Hwf : sched_wf w).
Let m := taskStateMap w.

Lemma task_path_inv i t l :
  m !! i = Some t -> task_path m i l ->
  match parentState t with
  | None => l = [i]
  | Some p => exists pt l', m !! p = Some pt /\ taskDepth t = taskDepth pt + 1 /\
      task_path m p l' /\ l = l' ++ [i]
  end.
Proof.
  intros Ht Hl. pose proof (swf_parent _ Hwf i t Ht) as Hp.
  destruct Hl as [i t' Ht' Hp'|i t' p l Ht' Hp' Hl]; simplify_eq; rewrite Hp' in *; [done|].
  destruct Hp as (pt & ? & _ & ?). by exists pt, l.
Qed.

Lemma task_path_length i t l :
  m !! i = Some t -> task_path m i l -> Z.of_nat (length l) = taskDepth t + 1.
Proof.
  intros Ht Hl. revert t Ht. induction Hl as [i t' Ht' Hp'|i t' p l Ht' Hp' Hl IH]; intros t Ht;
    assert (t' = t) by congruence; subst t';
    pose proof (swf_parent _ Hwf i t Ht) as Hp; rewrite Hp' in Hp.
  - rewrite Hp. done.
  - destruct Hp as (pt & Hpt & _ & ->). rewrite length_app. simpl. rewrite <- (IH pt Hpt). lia.
Qed.

Lemma task_path_det i l l' : task_path m i l -> task_path m i l' -> l = l'.
Proof.
  intros Hl. revert l'. induction Hl as [i t Ht Hp|i t p l Ht Hp _ IH]; intros l' Hl';
    apply (task_path_inv _ t) in Hl'; try done; rewrite Hp in Hl'; [done|].
  destruct Hl' as (pt & l'' & _ & _ & Hl'' & ->). by rewrite (IH l'').
Qed.

Lemma task_path_last i l : task_path m i l -> exists l', l = l' ++ [i].
Proof. destruct 1 as [|? ? ? l]; [by exists []|by exists l]. Qed.

Lemma task_path_inj i j l : task_path m i l -> task_path m j l -> i = j.
Proof.
  intros [l1 ->]%task_path_last [l2 Hl]%task_path_last. by apply app_inj_tail in Hl as [_ ->].
Qed.

Lemma task_path_exists i t : m !! i = Some t -> exists l, task_path m i l.
Proof.
  assert (forall n i t, m !! i = Some t -> (Z.to_nat i < n)%nat -> exists l, task_path m i l) as H.
  { clear i t. induction n as [|n IH]; [lia|]. intros i t Ht Hn.
    pose proof (swf_parent _ Hwf i t Ht) as Hp. destruct (swf_key _ Hwf i t Ht) as (_ & ? & _).
    destruct (parentState t) as [p|] eqn:Ep; [|exists [i]; by eapply path_root].
    destruct Hp as (pt & Hpt & ? & _). destruct (swf_key _ Hwf p pt Hpt) as (_ & ? & _).
    destruct (IH p pt Hpt) as [l Hl]; [lia|]. exists (l ++ [i]). by eapply path_child. }
  intros Ht. eapply H; [exact Ht|]. apply Nat.lt_succ_diag_r.
Qed.

Lemma task_depth_zero i t : m !! i = Some t -> parentState t = None <-> taskDepth t = 0.
Proof.
  intros Ht. pose proof (swf_parent _ Hwf i t Ht) as Hp. destruct (parentState t) as [p|]; [|done].
  destruct Hp as (pt & Hpt & _ & ?). destruct (swf_key _ Hwf p pt Hpt) as (_ & _ & ?).
  split; [done|lia].
Qed.

(** The comparator's loop, from states whose parents differ. *)
Lemma taskLess_loop_lexb fuel a b la lb :
  m !! index a = Some a -> m !! index b = Some b ->
  task_path m (index a) la -> task_path m (index b) lb ->
  parentState a <> parentState b ->
  (Z.to_nat (taskDepth a + taskDepth b) < fuel)%nat ->
  taskLess_loop fuel m a b = Some (lexb la lb).
Proof.
  revert a b la lb. induction fuel as [|fuel IH]; intros a b la lb Ha Hb Hla Hlb Hne Hfuel; [lia|].
  pose proof (task_path_length _ _ _ Ha Hla) as Lla. pose proof (task_path_length _ _ _ Hb Hlb) as Llb.
  pose proof (task_path_inv _ _ _ Ha Hla) as Ia. pose proof (task_path_inv _ _ _ Hb Hlb) as Ib.
  pose proof (swf_key _ Hwf _ _ Ha) as (_ & _ & Da). pose proof (swf_key _ Hwf _ _ Hb) as (_ & _ & Db).
  cbn [taskLess_loop].
  (* one step of the loop, from the pair it moves to *)
  assert (forall a' b' la' lb', m !! index a' = Some a' -> m !! index b' = Some b' ->
    task_path m (index a') la' -> task_path m (index b') lb' -> index a' <> index b' ->
    taskDepth a' + taskDepth b' < taskDepth a + taskDepth b ->
    lexb la lb = lexb la' lb' ->
    (if decide (parentState a' = parentState b') then Some (index a' <? index b')
     else taskLess_loop fuel m a' b') = Some (lexb la lb)) as Hstep.
  { intros a' b' la' lb' Ha' Hb' Hla' Hlb' Hneq Hlt ->. destruct (decide _) as [Heq|Hneq'].
    - pose proof (task_path_inv _ _ _ Ha' Hla') as Ia'. pose proof (task_path_inv _ _ _ Hb' Hlb') as Ib'.
      rewrite Heq in Ia'. destruct (parentState b') as [p|].
      + destruct Ia' as (? & k1 & _ & _ & Hk1 & ->), Ib' as (? & k2 & _ & _ & Hk2 & ->).
        rewrite (task_path_det _ _ _ Hk1 Hk2). by rewrite lexb_siblings.
      + subst. simpl. by destruct (Z.eqb_spec (index a') (index b')).
    - apply IH; try done. pose proof (swf_key _ Hwf _ _ Ha') as (_ & _ & ?).
      pose proof (swf_key _ Hwf _ _ Hb') as (_ & _ & ?). lia. }
  destruct (decide (parentState a = Some (index b))) as [Eab|Nab].
  { rewrite Eab in Ia. destruct Ia as (? & k & _ & _ & Hk & ->).
    rewrite (task_path_det _ _ _ Hk Hlb). by rewrite lexb_extend_l, lexb_irrefl by lia. }
  destruct (decide (parentState b = Some (index a))) as [Eba|Nba].
  { rewrite Eba in Ib. destruct Ib as (? & k & _ & _ & Hk & ->).
    rewrite (task_path_det _ _ _ Hk Hla). by rewrite lexb_prefix. }
  destruct (Z.ltb_spec (taskDepth b) (taskDepth a)) as [Hd|Hd].
  { pose proof (swf_parent _ Hwf _ _ Ha) as Hpa. destruct (parentState a) as [p|]; [|lia].
    destruct Ia as (pt & k & Hpt & ? & Hk & ->). simpl. rewrite Hpt. simpl.
    pose proof (swf_key _ Hwf _ _ Hpt) as (Ip & _ & _). rewrite length_app in Lla. simpl in Lla.
    apply (Hstep pt b k lb); rewrite ?Ip; try done; [congruence|lia|].
    apply lexb_extend_l. lia. }
  destruct (Z.ltb_spec (taskDepth a) (taskDepth b)) as [Hd'|Hd'].
  { pose proof (swf_parent _ Hwf _ _ Hb) as Hpb. destruct (parentState b) as [p|]; [|lia].
    destruct Ib as (pt & k & Hpt & ? & Hk & ->). simpl. rewrite Hpt. simpl.
    pose proof (swf_key _ Hwf _ _ Hpt) as (Ip & _ & _). rewrite length_app in Llb. simpl in Llb.
    apply (Hstep a pt la k); rewrite ?Ip; try done; [congruence|lia|].
    apply lexb_extend_r; [lia|]. intros ->.
    pose proof (task_path_inj _ _ _ Hla Hk). congruence. }
  pose proof (task_depth_zero _ _ Ha) as Hpa. pose proof (task_depth_zero _ _ Hb) as Hpb.
  assert (taskDepth a = taskDepth b) as Eab by lia. rewrite Eab in Hpa.
  destruct (parentState a) as [p|], (parentState b) as [q|]; try (exfalso; intuition congruence).
  destruct Ia as (pt & k & Hpt & ? & Hk & ->), Ib as (qt & k' & Hqt & ? & Hk' & ->).
  simpl. rewrite Hpt. simpl. rewrite Hqt. simpl.
  pose proof (swf_key _ Hwf _ _ Hpt) as (Ip & _ & _). pose proof (swf_key _ Hwf _ _ Hqt) as (Iq & _ & _).
  rewrite !length_app in *. simpl in *.
  apply (Hstep pt qt k k'); rewrite ?Ip, ?Iq; try done; [congruence|lia|].
  apply lexb_extend_both; [lia|].
  intros ->. pose proof (task_path_inj _ _ _ Hk Hk'). congruence.
Qed.
End task_order.

Lemma taskLess_lexb w i j li lj :
  sched_wf w -> task_path (taskStateMap w) i li -> task_path (taskStateMap w) j lj ->
  taskLess (taskStateMap w) i j = Some (lexb li lj).
Proof.
  intros Hwf Hi Hj. unfold taskLess.
  assert (is_Some (taskStateMap w !! i)) as [a Ha] by (destruct Hi; eauto).
  assert (is_Some (taskStateMap w !! j)) as [b Hb] by (destruct Hj; eauto).
  rewrite Ha, Hb. cbn [mbind option_bind].
  pose proof (swf_key _ Hwf _ _ Ha) as (Ia & _ & _). pose proof (swf_key _ Hwf _ _ Hb) as (Ib & _ & _).
  case_decide as Heq.
  - pose proof (task_path_inv w Hwf _ _ _ Ha Hi) as Pa. pose proof (task_path_inv w Hwf _ _ _ Hb Hj) as Pb.
    rewrite Heq in Pa. rewrite Ia, Ib. destruct (parentState b) as [p|].
    + destruct Pa as (? & k1 & _ & _ & Hk1 & ->), Pb as (? & k2 & _ & _ & Hk2 & ->).
      rewrite (task_path_det w Hwf _ _ _ Hk1 Hk2). by rewrite lexb_siblings.
    + rewrite Pa, Pb. simpl. destruct (Z.eqb_spec i j) as [->|]; [by rewrite Z.ltb_irrefl|done].
  - rewrite <- Ia in Ha, Hi. rewrite <- Ib in Hb, Hj.
    apply (taskLess_loop_lexb w Hwf); try done. lia.
Qed.

Definition precedes (w : TaskScheduler) (i j : Z) : Prop :=
  exists li lj, task_path (taskStateMap w) i li /\ task_path (taskStateMap w) j lj /\
    lexb li lj = true.

(** Sorting tasks with any comparator that is the order of the paths. *)
Lemma slice_sort_precedes `{!SliceSort} w (less : Z -> Z -> bool) l :
  sched_wf w -> NoDup l -> (forall i, i ∈ l -> is_Some (taskStateMap w !! i)) ->
  (forall i j li lj, task_path (taskStateMap w) i li -> task_path (taskStateMap w) j lj ->
    less i j = lexb li lj) ->
  slice_sort less l ≡ₚ l /\ StronglySorted (precedes w) (slice_sort less l).
Proof.
  intros Hwf Hnd Hin Hless.
  pose proof (slice_sort_perm less l) as Hperm. split; [done|].
  assert (forall i, i ∈ l -> exists li, task_path (taskStateMap w) i li) as Hpath.
  { intros i Hi. destruct (Hin i Hi) as [t Ht]. by eapply task_path_exists. }
  assert (StronglySorted (fun x y => less y x = false) (slice_sort less l)) as Hs.
  { apply slice_sort_sorted. split.
    - intros x Hx. destruct (Hpath x Hx) as [lx Hlx]. by rewrite (Hless _ _ _ _ Hlx Hlx), lexb_irrefl.
    - intros x y z Hx Hy Hz. destruct (Hpath x Hx) as [lx Hlx], (Hpath y Hy) as [ly Hly], (Hpath z Hz) as [lz Hlz].
      rewrite (Hless _ _ _ _ Hlx Hly), (Hless _ _ _ _ Hly Hlz), (Hless _ _ _ _ Hlx Hlz). apply lexb_trans.
    - intros x y z Hx Hy Hz. destruct (Hpath x Hx) as [lx Hlx], (Hpath y Hy) as [ly Hly], (Hpath z Hz) as [lz Hlz].
      rewrite (Hless _ _ _ _ Hlx Hly), (Hless _ _ _ _ Hly Hlz), (Hless _ _ _ _ Hlx Hlz). intros Hxz.
      destruct (lexb_total ly lz) as [->|[?|Hzy]]; [by left|by right|left].
      by eapply lexb_trans. }
  assert (forall i, i ∈ slice_sort less l -> i ∈ l) as Hsub by (intros i; by rewrite Hperm).
  assert (NoDup (slice_sort less l)) as Hnd' by by rewrite Hperm.
  clear Hperm. revert Hsub Hnd'. induction Hs as [|i k Hs IH Hall]; intros Hsub Hnd'; [constructor|].
  apply NoDup_cons in Hnd' as [Hi Hnd']. constructor.
  - apply IH; [|done]. intros j Hj. apply Hsub, elem_of_cons. by right.
  - rewrite Forall_forall in Hall |- *. intros j Hj.
    destruct (Hpath i) as [li Hli]; [apply Hsub, elem_of_cons; by left|].
    destruct (Hpath j) as [lj Hlj]; [apply Hsub, elem_of_cons; by right|].
    exists li, lj. split_and!; [done..|]. specialize (Hall j Hj). rewrite (Hless _ _ _ _ Hlj Hli) in Hall.
    destruct (lexb_total li lj) as [Heq|[?|?]]; [|done|congruence].
    subst. by rewrite (task_path_inj w _ _ _ Hli Hlj) in Hi.
Qed.

Lemma sortTaskList_sorted `{!SliceSort} w l :
  sched_wf w -> NoDup l -> (forall i, i ∈ l -> is_Some (taskStateMap w !! i)) ->
  sortTaskList w l ≡ₚ l /\ StronglySorted (precedes w) (sortTaskList w l).
Proof.
  intros Hwf Hnd Hin. apply slice_sort_precedes; [done..|].
  intros i j li lj Hi Hj. by rewrite (taskLess_lexb _ _ _ _ _ Hwf Hi Hj).
Qed.

(** A list of tasks in this order is determined by its members. *)
Lemma precedes_unique w l l' :
  sched_wf w -> StronglySorted (precedes w) l -> StronglySorted (precedes w) l' -> l ≡ₚ l' -> l = l'.
Proof.
  intros Hwf Hl Hl' Hp. assert (AntiSymm (=) (precedes w)) as Hanti; [|by apply (StronglySorted_unique (precedes w))].
  intros i j (li & lj & Hi & Hj & H1) (lj' & li' & Hj' & Hi' & H2).
  rewrite (task_path_det w Hwf _ _ _ Hj' Hj), (task_path_det w Hwf _ _ _ Hi' Hi) in H2.
  pose proof (lexb_trans _ _ _ H1 H2) as H. by rewrite lexb_irrefl in H.
Qed.

(** The comparator of the task lists always terminates, without a nil
    dereference, and is the lexicographic order on the paths from the root:
    an ancestor precedes its descendants, siblings are ordered by index, and
    unrelated tasks as their ancestors under the deepest common parent. *)
Theorem taskLess_path_order w i j ti tj :
  sched_wf w -> taskStateMap w !! i = Some ti -> taskStateMap w !! j = Some tj ->
  exists li lj, task_path (taskStateMap w) i li /\ task_path (taskStateMap w) j lj /\
    taskLess (taskStateMap w) i j = Some (lexb li lj).
Proof.
  intros Hwf Hi Hj. destruct (task_path_exists w Hwf i ti Hi) as [li Hli].
  destruct (task_path_exists w Hwf j tj Hj) as [lj Hlj].
  exists li, lj. split_and!; [done..|]. by apply taskLess_lexb.
Qed.

(** C14: [GetAllTasks] and [GetAllCleanupTasks] list every task of their kind
    exactly once, in the order of a depth-first walk of the task tree. *)
Theorem GetAllTasks_preorder `{!SliceSort} w :
  sched_wf w ->
  (forall i, i ∈ GetAllTasks w <-> exists t, taskStateMap w !! i = Some t /\ isCleanup t = false) /\
  (forall i, i ∈ GetAllCleanupTasks w <-> exists t, taskStateMap w !! i = Some t /\ isCleanup t = true) /\
  NoDup (GetAllTasks w) /\ NoDup (GetAllCleanupTasks w) /\
  StronglySorted (precedes w) (GetAllTasks w) /\ StronglySorted (precedes w) (GetAllCleanupTasks w).
Proof.
  intros Hwf. destruct (swf_nodup _ Hwf) as (Hn1 & Hn2 & _).
  destruct (sortTaskList_sorted w (allTasks w) Hwf Hn1) as [P1 S1].
  { intros i (t & ? & _)%(swf_all _ Hwf). eauto. }
  destruct (sortTaskList_sorted w (allCleanupTasks w) Hwf Hn2) as [P2 S2].
  { intros i (t & ? & _)%(swf_cleanup _ Hwf). eauto. }
  unfold GetAllTasks, GetAllCleanupTasks. split_and!; try done.
  - intros i. rewrite P1. apply (swf_all _ Hwf).
  - intros i. rewrite P2. apply (swf_cleanup _ Hwf).
  - by rewrite P1.
  - by rewrite P2.
Qed.

(** ** Synchronisation with the database *)

Lemma sync_spec {A} (differs : bool) f (new old : A) :
  (differs = false -> new = old) -> (sync differs f new old).1 = new.
Proof. unfold sync. destruct differs; [done|]. intros H. symmetry. auto. Qed.

(** Updating the listed columns turns the row last written into the mirror. *)
Lemma changed_row_set_fields t title cfg status row :
  let '(row', changed) := changed_row t title cfg status row in
  set_fields row' changed row = Some row' /\ forallb known_field changed = true /\
  RunID row' = RunID row /\ TaskID row' = TaskID row.
Proof.
  destruct row. unfold changed_row, sync. cbn -[String.eqb Z.eqb].
  destruct (startTime t), (stopTime t), (taskError t);
    repeat match goal with |- context [negb ?b] => destruct (negb b) end; repeat split.
Qed.

(** What the mirror says of the task. *)
Definition row_shows (t : taskState) (title cfg status : string) (row : Db.TaskState) : Prop :=
  Title row = title /\ RunFlags row = run_flags t /\
  (forall s, startTime t = Some s -> StartTime row = UnixMilli s) /\
  (forall s, stopTime t = Some s -> StopTime row = UnixMilli s) /\
  TaskConfig row = cfg /\ TaskStatus row = status /\
  Db.TaskResult row = TaskResult_int (taskResult t) /\
  (forall e, taskError t = Some e -> TaskError row = e).

Lemma changed_row_shows t title cfg status row :
  row_shows t title cfg status (changed_row t title cfg status row).1.
Proof.
  unfold row_shows, changed_row. cbn.
  split_and!; intros; simplify_option_eq; try (apply sync_spec; intros E%negb_false_iff; lia);
    apply sync_spec; by intros E%negb_false_iff%String.eqb_eq.
Qed.

(** A mirror that already shows the task has nothing to update. *)
Lemma changed_row_idem t title cfg status row :
  row_shows t title cfg status row -> changed_row t title cfg status row = (row, []).
Proof.
  intros (H1 & H2 & H3 & H4 & H5 & H6 & H7 & H8). destruct row. simpl in *. subst.
  unfold changed_row, sync. cbn -[String.eqb Z.eqb].
  rewrite !String.eqb_refl, !Z.eqb_refl. cbn -[String.eqb Z.eqb].
  destruct (startTime t), (stopTime t), (taskError t); simpl;
    rewrite <- ?(H3 _ eq_refl), <- ?(H4 _ eq_refl), <- ?(H8 _ eq_refl),
      ?String.eqb_refl, ?Z.eqb_refl; done.
Qed.

Section sync_theorems.
Context `{lib : Library}.

Lemma getTaskState_update i f w :
  getTaskState i (update_task i f w) = f <$> getTaskState i w.
Proof. apply lookup_alter_eq. Qed.

Lemma getTaskState_run_transaction i h db w :
  getTaskState i (run_transaction h db w).1 = getTaskState i w.
Proof. unfold run_transaction. by destruct (RunTransaction _ _ _). Qed.

(** The row of the database is the one the task last mirrored. *)
Definition in_sync (row : Db.TaskState) (w : TaskScheduler) : Prop :=
  exists db, database w = Some db /\ task_states db !! (RunID row, TaskID row) = Some row.

(** [updateTaskState] on a task with a mirror, when YAML encoding succeeds. *)
Lemma updateTaskState_eq i t row cfg status w :
  getTaskState i w = Some t -> dbTaskState t = Some row ->
  lib_yaml_Marshal (Config_of t) = Ok cfg ->
  lib_yaml_Marshal (VMap (read_vars (taskStatusVars t) w)) = Ok status ->
  updateTaskState i w =
    let '(row', changed) := changed_row t (Title_of t w) cfg status row in
    let w1 := update_task i (set_dbTaskState (Some row')) w in
    match changed, database w1 with
    | _ :: _, Some db => run_transaction (UpdateTaskStateStatus row' changed) db w1
    | _, _ => (w1, None)
    end.
Proof. intros Ht Hrow Hcfg Hst. unfold updateTaskState. by rewrite Ht, Hrow, Hcfg, Hst. Qed.
End sync_theorems.

(** C15: After a successful [updateTaskState] the database row of the task shows
    its title, flags, times, configuration, status variables, result and error,
    equals the mirror kept in memory, and no other row has changed. *)
Theorem updateTaskState_syncs `{!Library} i t row cfg status w :
  getTaskState i w = Some t -> dbTaskState t = Some row -> in_sync row w ->
  lib_yaml_Marshal (Config_of t) = Ok cfg ->
  lib_yaml_Marshal (VMap (read_vars (taskStatusVars t) w)) = Ok status ->
  (updateTaskState i w).2 = None ->
  exists row', row_shows t (Title_of t w) cfg status row' /\
    dbTaskState <$> getTaskState i (updateTaskState i w).1 = Some (Some row') /\
    in_sync row' (updateTaskState i w).1 /\
    (forall k, k <> (RunID row, TaskID row) ->
       (database (updateTaskState i w).1 ≫= fun db => task_states db !! k)
       = (database w ≫= fun db => task_states db !! k)).
Proof.
  intros Ht Hrow (db & Hdb & Hin) Hcfg Hst Hok.
  rewrite (updateTaskState_eq _ _ _ _ _ _ Ht Hrow Hcfg Hst) in *.
  pose proof (changed_row_set_fields t (Title_of t w) cfg status row) as Hset.
  pose proof (changed_row_shows t (Title_of t w) cfg status row) as Hshow.
  destruct (changed_row t (Title_of t w) cfg status row) as [row' changed].
  destruct Hset as (Hset & Hknown & Erun & Eid). simpl in Hshow. exists row'. split; [done|].
  simpl in *. rewrite Hdb in *.
  destruct changed as [|f fs].
  - simpl in *. injection Hset as <-. rewrite getTaskState_update, Ht. split; [done|].
    split; [by exists db|]. intros k _. by rewrite Hdb.
  - rewrite getTaskState_run_transaction, getTaskState_update, Ht. split; [done|].
    unfold run_transaction in *.
    destruct (RunTransaction_cases (lib_engine (txCount w)) (UpdateTaskStateStatus row' (f :: fs)) db)
      as [[Hn Hh]|[_ [e He]]]; simpl in *;
      destruct (RunTransaction _ _ _) as [db' err]; simpl in *; [|congruence].
    rewrite Hknown, Erun, Eid, Hin in Hh. injection Hh as <-. simpl in *. rewrite Hset. simpl.
    split.
    + eexists. split; [done|]. simpl. by rewrite Erun, Eid, lookup_insert_eq.
    + intros k Hk. by rewrite lookup_insert_ne by done.
Qed.

(** A database update that fails is lost.  The mirror is changed before the
    transaction runs, so when it fails, calling [updateTaskState] again issues
    no statement and reports success, although the row still differs from the
    task. *)
Theorem updateTaskState_failed_update_lost `{!Library} i t row cfg status db e w :
  getTaskState i w = Some t -> dbTaskState t = Some row ->
  lib_yaml_Marshal (Config_of t) = Ok cfg ->
  lib_yaml_Marshal (VMap (read_vars (taskStatusVars t) w)) = Ok status ->
  database w = Some db -> task_states db !! (RunID row, TaskID row) = Some row ->
  (updateTaskState i w).2 = Some e ->
  let w1 := (updateTaskState i w).1 in
  let w2 := (updateTaskState i w1).1 in
  (updateTaskState i w1).2 = None /\ txCount w2 = txCount w1 /\
  (database w2 ≫= fun db => task_states db !! (RunID row, TaskID row)) = Some row /\
  ~ row_shows t (Title_of t w) cfg status row.
Proof.
  intros Ht Hrow Hcfg Hst Hdb Hin Herr w1 w2.
  assert (exists row', row_shows t (Title_of t w) cfg status row' /\
    getTaskState i w1 = Some (set_dbTaskState (Some row') t) /\ database w1 = Some db /\
    scopes w1 = scopes w /\ ~ row_shows t (Title_of t w) cfg status row) as (row' & Hshow & Ht1 & Hdb1 & Hsc & Hno).
  { unfold w1. clear w1 w2. rewrite (updateTaskState_eq _ _ _ _ _ _ Ht Hrow Hcfg Hst) in *.
    pose proof (changed_row_shows t (Title_of t w) cfg status row) as Hshow.
    pose proof (changed_row_idem t (Title_of t w) cfg status row) as Hidem.
    destruct (changed_row t (Title_of t w) cfg status row) as [row' changed]. simpl in *.
    exists row'. rewrite Hdb in *. destruct changed as [|f fs]; [done|].
    rewrite getTaskState_run_transaction, getTaskState_update, Ht. split; [done|]. split; [done|].
    unfold run_transaction in *.
    destruct (RunTransaction_cases (lib_engine (txCount w)) (UpdateTaskStateStatus row' (f :: fs)) db)
      as [[Hn _]|[Hd _]]; simpl in *; destruct (RunTransaction _ _ _) as [db' err];
      simpl in *; [congruence|subst].
    split_and!; [done|done|]. intros Hs. by specialize (Hidem Hs). }
  assert (updateTaskState i w1 = (update_task i (set_dbTaskState (Some row')) w1, None)) as E.
  { rewrite (updateTaskState_eq i (set_dbTaskState (Some row') t) row' cfg status w1 Ht1 eq_refl Hcfg);
      [|unfold read_vars in *; by rewrite Hsc].
    rewrite (changed_row_idem _ _ cfg status row'); [done|].
    unfold Title_of, resolve_placeholders in *. simpl. by rewrite Hsc. }
  unfold w2. rewrite E. simpl. split_and!; try done. by rewrite Hdb1.
Qed.

(** Nobody waits in vain for a result.  A channel handed out for the
    current result is closed by the next [setTaskResult] that changes it, and
    the task then holds no channel; setting the same result again closes
    nothing; and asking with an outdated result returns no channel at all. *)
Theorem setTaskResult_notifies `{!Library} i t r upd w :
  getTaskState i w = Some t ->
  let w' := setTaskResult i r upd w in
  (forall c, resultNotifyChan t = Some c -> taskResult t <> r ->
     c ∈ closedChans w' /\ resultNotifyChan <$> getTaskState i w' = Some None) /\
  (taskResult t = r -> closedChans w' = closedChans w /\
     resultNotifyChan <$> getTaskState i w' = Some (resultNotifyChan t)) /\
  taskResult <$> getTaskState i w' = Some r /\
  (forall old, (GetTaskResultUpdateChan i old w').2 = None <-> old <> r).
Proof.
  intros Ht w'.
  assert (forall w0 t0, getTaskState i w0 = Some t0 -> exists t1,
    getTaskState i (updateTaskState i w0).1 = Some t1 /\ taskResult t1 = taskResult t0 /\
    resultNotifyChan t1 = resultNotifyChan t0) as Hupd.
  { intros w0 t0 H0. unfold updateTaskState. rewrite H0.
    destruct (dbTaskState t0) as [row|]; [|by exists t0].
    destruct (lib_yaml_Marshal (Config_of t0)); cycle 1.
    { eexists. cbn [fst]. rewrite getTaskState_update, H0. by split. }
    destruct (lib_yaml_Marshal _); cycle 1.
    { eexists. cbn [fst]. rewrite getTaskState_update, H0. by split. }
    destruct (changed_row _ _ _ _ _) as [row' ch]. destruct ch.
    { eexists. cbn [fst]. rewrite getTaskState_update, H0. by split. }
    destruct (database _); eexists; rewrite ?getTaskState_run_transaction; cbn [fst];
      rewrite getTaskState_update, H0; by split. }
  set (w0 := if upd then update_task i (set_updatedResult true) w else w).
  assert (exists t0, getTaskState i w0 = Some t0 /\ resultNotifyChan t0 = resultNotifyChan t /\
    taskResult t0 = taskResult t) as (t0 & Ht0 & En & Er).
  { unfold w0. destruct upd; [|by exists t]. eexists. rewrite getTaskState_update, Ht. by split. }
  assert (closedChans w0 = closedChans w) as Ecl by by unfold w0; destruct upd.
  assert (taskResult <$> getTaskState i w' = Some r /\
    (taskResult t = r -> w' = w0) /\
    (forall c, resultNotifyChan t = Some c -> taskResult t <> r ->
      c ∈ closedChans w' /\ resultNotifyChan <$> getTaskState i w' = Some None)) as (Hres & Hsame & Hcl).
  { unfold w', setTaskResult. rewrite Ht. fold w0. case_decide as Hd.
    - rewrite Ht0. simpl. split_and!; [congruence|done|done].
    - set (w2 := set_var _ _ _ _).
      assert (getTaskState i w2 = Some (set_taskResult r t0)) as Ht2.
      { unfold w2, set_var, getTaskState. simpl. rewrite lookup_alter_eq.
        unfold getTaskState in Ht0. by rewrite Ht0. }
      destruct (Hupd w2 _ Ht2) as (t3 & Ht3 & Er3 & En3). simpl in *.
      destruct (resultNotifyChan t) as [c|] eqn:Ec.
      + assert (getTaskState i (upd_closedChans ({[c]} ∪ closedChans (updateTaskState i w2).1)
          (update_task i (set_resultNotifyChan None) (updateTaskState i w2).1))
          = Some (set_resultNotifyChan None t3)) as ->.
        { unfold getTaskState in *. simpl. by rewrite lookup_alter_eq, Ht3. }
        simpl. split_and!; [by rewrite Er3|done|]. intros c' [= <-] _. split; [set_solver|done].
      + rewrite Ht3. simpl. by rewrite Er3. }
  split; [done|]. split; [|split; [done|]].
  - intros Heq. rewrite (Hsame Heq), Ht0. simpl. by rewrite En.
  - intros old. unfold GetTaskResultUpdateChan.
    destruct (getTaskState i w') as [t'|]; simpl in Hres; [|done]. injection Hres as Hres.
    rewrite Hres. case_decide as Ho; [|naive_solver]. destruct (resultNotifyChan t'); naive_solver.
Qed.

(** ** A concrete scheduler

    A root task with a child, then a second root task; the engine accepts every
    transaction except those numbered [bad]. *)
Definition ex_lib (bad : nat) : Library :=
  {| lib_query := string; lib_fmt_v := fun _ => ""%string;
     lib_yaml_Marshal := fun x => match x with VNil => Ok ""%string | _ => Ok "yaml"%string end;
     lib_yaml_Unmarshal := fun _ m => Ok m; lib_gojq_Parse := fun q => Ok q;
     lib_query_Run := fun q m => m !! q; lib_depth := 20; lib_now := fun n => 1000 + Z.of_nat n;
     lib_engine := fun n => if Nat.eqb n bad then EngineExecErr "disk full" else EngineOk |}.

Definition ex_opts (name id : string) : TaskOptions := mkTaskOptions name None [] name 0 id "".

Definition ex_sched0 : TaskScheduler :=
  NewTaskScheduler (Ref 0) 7 (NewVariables None empty_heap).1 (Some empty_db).

Section ex_sched.
#[local] Instance ex_lib_inst : Library := ex_lib 3.

Definition ex_sched1 : TaskScheduler := (AddRootTask (ex_opts "run_tasks" "a") ex_sched0).1.
Definition ex_sched2 : TaskScheduler :=
  (newTaskState (ex_opts "sleep" "") (Some 1) None false ex_sched1).1.
Definition ex_sched : TaskScheduler := (AddRootTask (ex_opts "sleep" "b") ex_sched2).1.

Lemma ex_sched_reachable : rtc sched_step ex_sched0 ex_sched.
Proof.
  apply (rtc_l _ _ ex_sched1); [apply step_AddRootTask|].
  apply (rtc_l _ _ ex_sched2).
  { refine (step_newTaskState ex_sched1 (ex_opts "sleep" "") (Some 1) None false _).
    intros p [= <-]; eexists; by vm_compute. }
  apply rtc_once, step_AddRootTask.
Qed.

Lemma ex_sched_wf : sched_wf ex_sched.
Proof. eapply sched_steps_wf; [apply ex_sched_reachable|apply NewTaskScheduler_wf]. Qed.
End ex_sched.

Lemma sched_wf_reachable_witness : sched_wf ex_sched.
Proof. exact (@sched_wf_reachable (ex_lib 3) _ _ _ _ _ ex_sched_reachable). Defined.

Lemma taskLess_path_order_witness :
  exists li lj, taskLess (taskStateMap ex_sched) 3 2 = Some (lexb li lj).
Proof.
  assert (exists t, taskStateMap ex_sched !! 3 = Some t) as [t3 H3] by (eexists; by vm_compute).
  assert (exists t, taskStateMap ex_sched !! 2 = Some t) as [t2 H2] by (eexists; by vm_compute).
  destruct (taskLess_path_order _ 3 2 t3 t2 ex_sched_wf H3 H2) as (li & lj & _ & _ & H).
  by exists li, lj.
Defined.

Lemma GetAllTasks_preorder_witness :
  GetAllTasks ex_sched = [1; 2; 3] /\ StronglySorted (precedes ex_sched) (GetAllTasks ex_sched).
Proof. split; [by vm_compute|]. apply (GetAllTasks_preorder ex_sched ex_sched_wf). Defined.

(** Task 1 marked as started, its row not yet updated. *)
Definition ex_started : TaskScheduler := update_task 1 (set_isStarted true) ex_sched.

Definition no_task : taskState :=
  mkTaskState 0 (ex_opts "" "") (mkTaskDescriptor "" []) 0 (Ref 0) None false false false
    false false None None None VNil (Ref 0) (Ref 0) false TaskResultNone None None None.

Definition ex_task1 : taskState := default no_task (taskStateMap ex_started !! 1).
Definition ex_db1 : Database := default empty_db (database ex_started).
Definition ex_row1 : Db.TaskState := mkTaskRow 7 1 0 "run_tasks" "run_tasks" "a" 0 "" 0 0 0 0 "" "" 0 "".

Lemma ex_task1_eq : getTaskState 1 ex_started = Some ex_task1.
Proof. by vm_compute. Qed.

Lemma ex_task1_row : dbTaskState ex_task1 = Some ex_row1.
Proof. by vm_compute. Qed.

Lemma ex_db1_row :
  database ex_started = Some ex_db1 /\ task_states ex_db1 !! (RunID ex_row1, TaskID ex_row1) = Some ex_row1.
Proof. by vm_compute. Qed.

Lemma updateTaskState_syncs_witness :
  exists row', in_sync row' (@updateTaskState (ex_lib 9) 1 ex_started).1 /\ RunFlags row' = 2.
Proof.
  destruct (@updateTaskState_syncs (ex_lib 9) 1 ex_task1 ex_row1 "" "yaml" ex_started
    ex_task1_eq ex_task1_row) as (row' & Hshow & _ & Hin & _).
  - exists ex_db1. apply ex_db1_row.
  - reflexivity.
  - reflexivity.
  - by vm_compute.
  - exists row'. split; [exact Hin|]. destruct Hshow as (_ & -> & _). by vm_compute.
Defined.

Lemma updateTaskState_failed_update_lost_witness :
  (@updateTaskState (ex_lib 3) 1 (@updateTaskState (ex_lib 3) 1 ex_started).1).2 = None.
Proof.
  apply (@updateTaskState_failed_update_lost (ex_lib 3) 1 ex_task1 ex_row1 "" "yaml" ex_db1 "disk full"
    ex_started ex_task1_eq ex_task1_row); try apply ex_db1_row; by vm_compute.
Defined.

Lemma setTaskResult_notifies_witness :
  let w := (GetTaskResultUpdateChan 1 TaskResultNone ex_started).1 in
  0%nat ∈ closedChans (@setTaskResult (ex_lib 9) 1 TaskResultSuccess true w).
Proof.
  intros w. assert (getTaskState 1 w = Some (set_resultNotifyChan (Some 0%nat) ex_task1)) as Hw
    by by vm_compute.
  destruct (@setTaskResult_notifies (ex_lib 9) 1 _ TaskResultSuccess true w Hw) as (H & _).
  apply (H 0%nat); [reflexivity|by vm_compute].
Defined.
