(* ===== verification/Execution.v ===== *)
(** * Executing tasks

    pkg/coordinator/scheduler/task_execution.go and the run loop of
    scheduler.go.  A task's implementation is a pair of state transformers
    [LoadConfig] and [Execute]; the ones that run child tasks get the
    scheduler's [ExecuteTask] as an argument, and [exec] ties the knot with
    fuel for the nesting depth of tasks.  What happens concurrently to a
    running task (its timer, the cancellation of its context) is decided by
    the environment, a parameter. *)

From S2P Require Import Prelude Vars Db Scheduler.

Open Scope Z_scope.

(** How a Go call ends: by returning an error value or by a panic, whose value
    is an [error] or something else. *)
Inductive outcome :=
  | Returned (err : option error)
  | Panicked (perr : option error).

(** A task after [LoadConfig]: its configuration, timeout and [Execute], which
    may use what [LoadConfig] stored in the instance. *)
Record loaded_task := mkLoadedTask {
  inst_Config : value;
  inst_Timeout : Z;
  inst_Execute : TaskScheduler -> TaskScheduler * outcome
}.

(** An instance made by a descriptor's [NewTask], represented by its
    [LoadConfig]. *)
Definition task_instance : Type := TaskScheduler -> TaskScheduler * result loaded_task.

(** The decisions of the environment: does the timer of task [i] fire before
    its [Execute] returns, and are the contexts of the test and of its cleanup
    cancelled when they are looked at. *)
Class Environment := {
  timer_fires : Z -> TaskScheduler -> bool;
  tasksCtx_Err : TaskScheduler -> option error;
  cleanupCtx_Err : TaskScheduler -> option error
}.

Section execute.
Context `{lib : Library} `{envm : Environment}.

(** [descriptor.NewTask(taskCtx, options)] for the task with this index. *)
Variable NewTask : Z -> TaskOptions -> result task_instance.

Definition status_vars (i : Z) (w : TaskScheduler) : Variables_ref :=
  from_option taskStatusVars (Ref 0) (getTaskState i w).

(** Lines 27-35: the task is marked and its row updated. *)
Definition start_task (i : Z) (w : TaskScheduler) : TaskScheduler :=
  let '(w, now) := time_Now w in
  let w := update_task i (fun t => set_isRunning true (set_startTime (Some now) (set_isStarted true t))) w in
  let w := set_var (status_vars i w) "started" (VBool true) w in
  let w := set_var (status_vars i w) "running" (VBool true) w in
  (updateTaskState i w).1.

(** Lines 37-47, deferred. *)
Definition finish_task (i : Z) (w : TaskScheduler) : TaskScheduler :=
  let '(w, now) := time_Now w in
  let w := update_task i (fun t => set_stopTime (Some now) (set_isRunning false t)) w in
  let w := set_var (status_vars i w) "running" (VBool false) w in
  (updateTaskState i w).1.

(** Lines 50-72: [Ok true] to go on, [Ok false] to skip the task. *)
Definition check_condition (t : taskState) (w : TaskScheduler) : result bool :=
  if String.eqb (opt_If (options t)) "" then Ok true
  else match resolve_query (taskVars t) (opt_If (options t)) w with
       | Err e => Err e
       | Ok r => Ok (match r with Some (VBool b) => b | _ => false end)
       end.

(** Lines 120-132: what the timer goroutine does when it fires. *)
Definition fire_timer (i : Z) (timeout : Z) (w : TaskScheduler) : TaskScheduler :=
  if (0 <? timeout) && timer_fires i w
  then set_var (status_vars i w) "timeout" (VBool true) (update_task i (set_isTimeout true) w)
  else w.

(** Lines 156-182, after [task.Execute] returned [err]. *)
Definition conclude_task (i : Z) (err : option error) (w : TaskScheduler)
    : TaskScheduler * option error :=
  let w := match err with
           | Some e => update_task i (fun t =>
               match taskError t with None => set_taskError (Some e) t | Some _ => t end) w
           | None => w
           end in
  match getTaskState i w with
  | None => (w, None)
  | Some t =>
      let w :=
        if negb (updatedResult t) || bool_decide (taskResult t = TaskResultNone)
        then setTaskResult i (if isTimeout t || bool_decide (err <> None)
                              then TaskResultFailure else TaskResultSuccess) false w
        else w in
      match getTaskState i w with
      | Some t' =>
          if decide (taskResult t' = TaskResultFailure)
          then (w, Some ("task failed: " ++ default "%!w(<nil>)" (taskError t'))%string)
          else (w, None)
      | None => (w, None)
      end
  end.

(** Lines 136-146: the recovered panic of [Execute]; the function then returns
    its zero result, no error. *)
Definition recover_panic (i : Z) (perr : option error) (w : TaskScheduler)
    : TaskScheduler * option error :=
  let w := match perr with
           | Some e => update_task i (set_taskError (Some e)) w
           | None => w
           end in
  (setTaskResult i TaskResultFailure false w, None).

(** Lines 109-182: a loaded task runs; the watcher, when there is one, first
    asks for the task's result channel. *)
Definition run_instance (watch : bool) (i : Z) (inst : loaded_task) (w : TaskScheduler)
    : TaskScheduler * option error :=
  let cfg := inst_Config inst in
  let w := update_task i (fun t => set_taskConfig cfg (set_task (Some cfg) t)) w in
  let w := if watch then (GetTaskResultUpdateChan i TaskResultNone w).1 else w in
  let '(w, out) := inst_Execute inst w in
  let w := fire_timer i (inst_Timeout inst) w in
  let '(w, ret) := match out with
                   | Returned err => conclude_task i err w
                   | Panicked perr => recover_panic i perr w
                   end in
  (update_task i (set_task None) w, ret).

(** Lines 49-182. *)
Definition execute_body (watch : bool) (i : Z) (t : taskState) (w : TaskScheduler)
    : TaskScheduler * option error :=
  match check_condition t w with
  | Err e =>
      (setTaskResult i TaskResultFailure false w,
       Some ("task condition evaluation failed: " ++ e)%string)
  | Ok false =>
      (setTaskResult i TaskResultNone false (update_task i (set_isSkipped true) w), None)
  | Ok true =>
      match NewTask i (options t) with
      | Err e => (w, Some ("failed task '" ++ opt_Name (options t) ++ "' initialization: " ++ e)%string)
      | Ok LoadConfig =>
          let '(w, r) := LoadConfig w in
          match r with
          | Err e =>
              (setTaskResult i TaskResultFailure false w,
               Some ("task " ++ opt_Name (options t) ++ " config validation failed: " ++ e)%string)
          | Ok inst => run_instance watch i inst w
          end
      end
  end.

(** [ExecuteTask(ctx, taskIndex, taskWatchFn)] *)
Definition ExecuteTask (watch : bool) (i : Z) (w : TaskScheduler) : TaskScheduler * option error :=
  match getTaskState i w with
  | None => (w, Some "task not found"%string)
  | Some t =>
      if isStarted t then (w, Some "task has already been executed"%string)
      else
        let '(w, err) := execute_body watch i t (start_task i w) in
        (finish_task i w, err)
  end.
End execute.

Section run.
Context `{lib : Library} `{envm : Environment}.

(** The registry's implementations, which may run other tasks. *)
Variable NewTask : (bool -> Z -> TaskScheduler -> TaskScheduler * option error) ->
  Z -> TaskOptions -> result task_instance.

(** Tasks nested up to [fuel] levels deep. *)
Fixpoint exec (fuel : nat) (watch : bool) (i : Z) (w : TaskScheduler)
    : TaskScheduler * option error :=
  match fuel with
  | O => (w, Some "task nesting too deep"%string)
  | S fuel => ExecuteTask (NewTask (exec fuel)) watch i w
  end.

Variable fuel : nat.

Fixpoint run_root_tasks (tasks : list Z) (w : TaskScheduler) : TaskScheduler * option error :=
  match tasks with
  | [] => (w, None)
  | i :: tasks =>
      let '(w, err) := exec fuel true i w in
      match err with
      | Some e => (w, Some e)
      | None =>
          match tasksCtx_Err w with
          | Some e => (w, Some e)
          | None => run_root_tasks tasks w
          end
      end
  end.

(** A failing cleanup task is only logged. *)
Fixpoint runCleanupTasks (tasks : list Z) (w : TaskScheduler) : TaskScheduler :=
  match tasks with
  | [] => w
  | i :: tasks =>
      match cleanupCtx_Err w with
      | Some _ => w
      | None => runCleanupTasks tasks (exec fuel true i w).1
      end
  end.

(** [RunTasks(ctx, timeout)]; the deferred cleanup runs on every return. *)
Definition RunTasks (w : TaskScheduler) : TaskScheduler * option error :=
  let '(w, err) := run_root_tasks (rootTasks w) w in
  (runCleanupTasks (rootCleanupTasks w) w, err).
End run.

(** ** Frame

    [grows R w w']: what every step of an execution guarantees.  The tree only
    grows, keeps every task at its place and its lists of root tasks, started
    tasks stay started, and a parentless task is started only if [R] says so. *)
Record grows (R : Z -> Prop) (w w' : TaskScheduler) : Prop := {
  gr_wf : sched_wf w -> sched_wf w';
  gr_task : forall j t, taskStateMap w !! j = Some t ->
    exists t', taskStateMap w' !! j = Some t' /\ same_place t t' /\
      (isStarted t = true -> isStarted t' = true) /\
      (parentState t = None -> ~ R j -> isStarted t' = isStarted t);
  gr_roots : rootTasks w' = rootTasks w /\ rootCleanupTasks w' = rootCleanupTasks w
}.

Lemma grows_refl R w : grows R w w.
Proof. split; auto. intros j t Ht. by exists t. Qed.

Lemma grows_trans R w1 w2 w3 : grows R w1 w2 -> grows R w2 w3 -> grows R w1 w3.
Proof.
  intros [W1 T1 [R1 C1]] [W2 T2 [R2 C2]]. split; [auto| |split; congruence].
  intros j t Ht. destruct (T1 j t Ht) as (t' & Ht' & Hp & Hs & Hr).
  destruct (T2 j t' Ht') as (t'' & Ht'' & Hp' & Hs' & Hr').
  exists t''. split; [done|]. split; [by etrans|]. split; [auto|].
  intros Hn HR. rewrite Hr'; [by apply Hr| |done]. destruct Hp as (_ & <- & _). done.
Qed.

#[export] Instance grows_preorder R : PreOrder (grows R).
Proof. split; [intros w; apply grows_refl|intros w1 w2 w3; apply grows_trans]. Qed.

Lemma grows_weaken (R R' : Z -> Prop) w w' :
  (forall j, R j -> R' j) -> grows R w w' -> grows R' w w'.
Proof.
  intros HR [W T C]. split; [done| |done]. intros j t Ht.
  destruct (T j t Ht) as (t' & ? & ? & ? & H). exists t'. split_and!; auto.
Qed.

Section frame.
Context `{lib : Library} `{envm : Environment}.

(** Steps that keep the tree and no task's [isStarted]. *)
Lemma grows_same_tree R w w' :
  same_tree w w' ->
  (forall j, isStarted <$> taskStateMap w' !! j = isStarted <$> taskStateMap w !! j) ->
  grows R w w'.
Proof.
  intros Hst Hs. split.
  - by apply same_tree_wf.
  - intros j t Ht. destruct (same_tree_fwd _ _ _ _ Hst Ht) as (t' & Ht' & Hp).
    specialize (Hs j). rewrite Ht, Ht' in Hs. simpl in Hs. injection Hs as Hs.
    exists t'. split_and!; auto; congruence.
  - destruct (st_lists _ _ Hst) as (_ & _ & ? & ?). done.
Qed.

Lemma grows_update R i f w :
  (forall t, same_place t (f t) /\ isStarted (f t) = isStarted t) ->
  grows R w (update_task i f w).
Proof.
  intros Hf. apply grows_same_tree; [apply same_tree_update; intros t; apply Hf|].
  intros j. simpl. rewrite lookup_alter. case_decide; [subst|done].
  destruct (taskStateMap w !! j) as [t|]; [|done]. simpl. by rewrite (proj2 (Hf t)).
Qed.

(** [updateTaskState] touches nothing of a task but its mirror. *)
Lemma updateTaskState_proj {A} (f : taskState -> A) i w j :
  (forall t row, f (set_dbTaskState row t) = f t) ->
  f <$> taskStateMap (updateTaskState i w).1 !! j = f <$> taskStateMap w !! j.
Proof.
  intros Hf.
  assert (forall row, f <$> taskStateMap (update_task i (set_dbTaskState row) w) !! j
    = f <$> taskStateMap w !! j) as Hu.
  { intros row. simpl. rewrite lookup_alter. case_decide; [subst|done].
    destruct (taskStateMap w !! j) as [t|]; [|done]. simpl. by rewrite Hf. }
  unfold updateTaskState. destruct (getTaskState i w) as [t|]; [|done].
  destruct (dbTaskState t) as [row|]; [|done].
  destruct (lib_yaml_Marshal (Config_of t)); [|apply Hu].
  destruct (lib_yaml_Marshal (VMap _)); [|apply Hu].
  destruct (changed_row _ _ _ _ _) as [row' ch]. destruct ch; [apply Hu|].
  destruct (database _); [|apply Hu]. unfold run_transaction.
  destruct (RunTransaction _ _ _). apply Hu.
Qed.

Lemma grows_updateTaskState R i w : grows R w (updateTaskState i w).1.
Proof. apply grows_same_tree; [apply same_tree_updateTaskState|]. intros j. by apply updateTaskState_proj. Qed.

Lemma grows_set_var R v name x w : grows R w (set_var v name x w).
Proof. apply grows_same_tree; [apply same_tree_scopes|done]. Qed.

Lemma grows_time R w : grows R w (time_Now w).1.
Proof. apply grows_same_tree; [|done]. split; simpl; auto. intros i. by destruct (_ !! i); constructor. Qed.

Lemma grows_closedChans R c w : grows R w (upd_closedChans c w).
Proof. apply grows_same_tree; [apply same_tree_closedChans|done]. Qed.

Lemma grows_setTaskResult R i r upd w : grows R w (setTaskResult i r upd w).
Proof.
  unfold setTaskResult. destruct (getTaskState i w) as [t|]; [|done].
  assert (grows R w (if upd then update_task i (set_updatedResult true) w else w)) as H0.
  { destruct upd; [by apply grows_update|done]. }
  case_decide; [done|]. etrans; [exact H0|].
  etrans; [by apply (grows_update R i (set_taskResult r))|].
  etrans; [apply (grows_set_var R (taskStatusVars t) "result" (VUint8 (TaskResult_int r)))|].
  etrans; [apply (grows_updateTaskState R i)|].
  destruct (resultNotifyChan t); [|done].
  etrans; [by apply (grows_update R i (set_resultNotifyChan None))|]. apply grows_closedChans.
Qed.

Lemma grows_GetTaskResultUpdateChan R i r w : grows R w (GetTaskResultUpdateChan i r w).1.
Proof.
  unfold GetTaskResultUpdateChan. destruct (getTaskState i w) as [t|]; [|done].
  case_decide; [|done]. destruct (resultNotifyChan t); [done|]. simpl.
  etrans; [by apply (grows_update R i (set_resultNotifyChan (Some (nextChan w))))|].
  apply grows_same_tree; [apply same_tree_nextChan|done].
Qed.

Lemma grows_start R (i : Z) w : (R i \/ forall t, taskStateMap w !! i = Some t -> parentState t <> None) ->
  grows R w (start_task i w).
Proof.
  intros HR. unfold start_task. destruct (time_Now w) as [w1 now] eqn:Et.
  etrans; [apply (grows_time R w)|]. rewrite Et. cbn [fst].
  assert (taskStateMap w1 = taskStateMap w) as Em by by injection Et as <- _.
  etrans; [|apply grows_updateTaskState]. etrans; [|apply grows_set_var]. etrans; [|apply grows_set_var].
  set (f := fun t => set_isRunning true (set_startTime (Some now) (set_isStarted true t))).
  assert (forall t, same_place t (f t)) as Hf by done. split.
  - apply same_tree_wf, same_tree_update, Hf.
  - intros j t Ht. simpl. rewrite lookup_alter. case_decide as Hij; [subst j|by exists t].
    rewrite Ht. simpl. exists (f t). split_and!; try done. rewrite Em in Ht.
    intros Hn Hnr. destruct HR as [HR|HR]; [done|]. by destruct (HR t Ht).
  - done.
Qed.

Lemma grows_finish R i w : grows R w (finish_task i w).
Proof.
  unfold finish_task. destruct (time_Now w) as [w1 now] eqn:Et.
  etrans; [apply (grows_time R w)|]. rewrite Et. cbn [fst].
  etrans; [|apply grows_updateTaskState]. etrans; [|apply grows_set_var]. by apply grows_update.
Qed.

Lemma grows_newTaskState R opts parent vars cleanup w :
  (forall p, parent = Some p -> is_Some (taskStateMap w !! p)) ->
  sched_wf w -> grows R w (newTaskState opts parent vars cleanup w).1.
Proof.
  intros Hpar Hwf. split; [intros _; by apply newTaskState_wf| |].
  - intros j t Ht.
    assert (isStarted <$> taskStateMap (newTaskState opts parent vars cleanup w).1 !! j = Some (isStarted t)
      /\ option_Forall2 same_place (Some t) (taskStateMap (newTaskState opts parent vars cleanup w).1 !! j))
      as [Hs Hp].
    { destruct (swf_key _ Hwf _ _ Ht) as (_ & Hj & _). pose proof (swf_count _ Hwf) as Hc.
      unfold newTaskState. destruct (GetTaskDescriptor _); simpl; [|by rewrite Ht; split; [|constructor]].
      unfold run_transaction. destruct cleanup; simpl; destruct (database w); simpl;
        try destruct (RunTransaction _ _ _); simpl;
        rewrite ?lookup_alter_ne, lookup_insert_ne, Ht by lia; by split; [|constructor]. }
    destruct (taskStateMap (newTaskState opts parent vars cleanup w).1 !! j) as [t'|]; [|done].
    simpl in Hs. injection Hs as Hs. inversion Hp; subst.
    exists t'. split_and!; try done; congruence.
  - destruct (newTaskState_cases opts parent vars cleanup w)
      as [[_ ->]|(t & h & _ & _ & _ & _ & _ & _ & _ & Hst & _)]; [done|].
    destruct (st_lists _ _ Hst) as (_ & _ & -> & ->). unfold with_task. by destruct (isCleanup t).
Qed.
End frame.

(** ** Well-behaved implementations *)

Definition no_task_at (j : Z) : Prop := False.

(** What the scheduler promises to the implementations it calls back. *)
Definition exec_ok (ex : bool -> Z -> TaskScheduler -> TaskScheduler * option error) : Prop :=
  forall watch i w, sched_wf w -> grows (eq i) w (ex watch i w).1.

(** What it needs from them: loading and executing keep the tree and start no
    task without a parent. *)
Definition instance_ok (i : Z) (LoadConfig : task_instance) : Prop :=
  forall w t, sched_wf w -> taskStateMap w !! i = Some t ->
    grows no_task_at w (LoadConfig w).1 /\
    forall inst, (LoadConfig w).2 = Ok inst ->
      forall w', grows no_task_at (LoadConfig w).1 w' -> sched_wf w' ->
        grows no_task_at w' (inst_Execute inst w').1.

Definition registry_ok
    (NewTask : (bool -> Z -> TaskScheduler -> TaskScheduler * option error) ->
       Z -> TaskOptions -> result task_instance) : Prop :=
  forall ex i opts LoadConfig, exec_ok ex -> NewTask ex i opts = Ok LoadConfig ->
    instance_ok i LoadConfig.

Section execute_lemmas.
Context `{lib : Library} `{envm : Environment}.

Lemma grows_fire_timer R i z w : grows R w (fire_timer i z w).
Proof.
  unfold fire_timer. destruct (_ && _); [|done].
  etrans; [by apply (grows_update R i (set_isTimeout true))|]. apply grows_set_var.
Qed.

Lemma grows_conclude R i err w : grows R w (conclude_task i err w).1.
Proof.
  unfold conclude_task. set (w0 := match err with Some _ => _ | None => _ end).
  assert (grows R w w0) as H0.
  { unfold w0. destruct err; [|done]. apply grows_update. intros t. by destruct (taskError t). }
  destruct (getTaskState i w0) as [t|]; [|done]. etrans; [exact H0|].
  set (w1 := if _ || _ then _ else _).
  assert (grows R w0 w1) as H1 by (unfold w1; destruct (_ || _); [apply grows_setTaskResult|done]).
  destruct (getTaskState i w1) as [t'|]; [|done]. by case_decide.
Qed.

Lemma grows_recover R i perr w : grows R w (recover_panic i perr w).1.
Proof.
  unfold recover_panic. cbn [fst]. etrans; [|apply grows_setTaskResult].
  destruct perr; [|done]. by apply grows_update.
Qed.

(** [run_instance] up to the end of [Execute]. *)
Lemma grows_run_instance watch i inst w :
  (forall w', grows no_task_at w w' -> sched_wf w' -> grows no_task_at w' (inst_Execute inst w').1) ->
  sched_wf w -> grows no_task_at w (run_instance watch i inst w).1.
Proof.
  intros Hex Hwf. unfold run_instance.
  set (w1 := update_task i _ w).
  set (w2 := if watch then _ else _).
  assert (grows no_task_at w w2) as H2.
  { etrans; [by apply (grows_update no_task_at i
      (fun t => set_taskConfig (inst_Config inst) (set_task (Some (inst_Config inst)) t)))|].
    unfold w2. destruct watch; [apply grows_GetTaskResultUpdateChan|done]. }
  specialize (Hex w2 H2 (gr_wf _ _ _ H2 Hwf)).
  destruct (inst_Execute inst w2) as [w3 out]. cbn [fst] in Hex.
  pose proof (grows_fire_timer no_task_at i (inst_Timeout inst) w3) as H4.
  set (w4 := fire_timer i (inst_Timeout inst) w3) in *.
  assert (forall r : TaskScheduler * option error, grows no_task_at w4 r.1 ->
    grows no_task_at w (let '(w5, ret) := r in (update_task i (set_task None) w5, ret)).1) as Hend.
  { intros [w5 ret] H5. cbn [fst] in *. etrans; [exact H2|]. etrans; [exact Hex|].
    etrans; [exact H4|]. etrans; [exact H5|]. by apply grows_update. }
  apply Hend. destruct out; [apply grows_conclude|apply grows_recover].
Qed.

Lemma grows_execute_body NewTask watch i t w :
  (forall LoadConfig, NewTask i (options t) = Ok LoadConfig -> instance_ok i LoadConfig) ->
  sched_wf w -> is_Some (taskStateMap w !! i) ->
  grows no_task_at w (execute_body NewTask watch i t w).1.
Proof.
  intros Hok Hwf [t' Ht']. unfold execute_body.
  destruct (check_condition t w) as [[|]|e].
  - destruct (NewTask i (options t)) as [LoadConfig|e]; [|done].
    destruct (Hok _ eq_refl w t' Hwf Ht') as [Hload Hrun].
    destruct (LoadConfig w) as [w1 [inst|e]]; cbn [fst snd] in *.
    + etrans; [exact Hload|]. apply grows_run_instance; [by apply Hrun|]. by apply (gr_wf _ _ _ Hload).
    + etrans; [exact Hload|]. apply grows_setTaskResult.
  - etrans; [by apply (grows_update no_task_at i (set_isSkipped true))|]. apply grows_setTaskResult.
  - apply grows_setTaskResult.
Qed.

Lemma ExecuteTask_grows NewTask watch i w :
  (forall opts LoadConfig, NewTask i opts = Ok LoadConfig -> instance_ok i LoadConfig) ->
  sched_wf w -> grows (eq i) w (ExecuteTask NewTask watch i w).1.
Proof.
  intros Hok Hwf. unfold ExecuteTask, getTaskState. destruct (taskStateMap w !! i) as [t|] eqn:Ht; [|done].
  destruct (isStarted t); [done|].
  assert (grows (eq i) w (start_task i w)) as H0 by (apply grows_start; by left).
  assert (grows (eq i) (start_task i w) (execute_body NewTask watch i t (start_task i w)).1) as H1.
  { eapply (grows_weaken no_task_at); [intros j []|]. apply grows_execute_body; [intros ? ?; by eapply Hok| |].
    - exact (gr_wf _ _ _ H0 Hwf).
    - destruct (gr_task _ _ _ H0 i t Ht) as (t' & ? & _). eauto. }
  destruct (execute_body _ _ _ _ _) as [w1 err]. cbn [fst] in *.
  etrans; [exact H0|]. etrans; [exact H1|]. apply grows_finish.
Qed.

Lemma exec_exec_ok NewTask fuel : registry_ok NewTask -> exec_ok (exec NewTask fuel).
Proof.
  intros Hreg. induction fuel as [|fuel IH]; intros watch i w Hwf; simpl; [done|].
  apply ExecuteTask_grows; [|done]. intros opts LoadConfig HN. by eapply Hreg.
Qed.
End execute_lemmas.

(** ** What an execution leaves behind *)

Section execute_results.
Context `{lib : Library} `{envm : Environment}.

Lemma finish_task_proj {A} (f : taskState -> A) i w t :
  (forall t row, f (set_dbTaskState row t) = f t) -> taskStateMap w !! i = Some t ->
  exists now, f <$> taskStateMap (finish_task i w) !! i
    = Some (f (set_stopTime (Some now) (set_isRunning false t))).
Proof.
  intros Hf Ht. exists (lib_now (clock w)). unfold finish_task, time_Now.
  rewrite updateTaskState_proj by done. simpl. by rewrite lookup_alter_eq, Ht.
Qed.

Lemma setTaskResult_task i r upd w t :
  taskStateMap w !! i = Some t ->
  exists t', taskStateMap (setTaskResult i r upd w) !! i = Some t' /\ taskResult t' = r /\
    taskError t' = taskError t /\ isStarted t' = isStarted t /\ isTimeout t' = isTimeout t /\
    updatedResult t' = upd || updatedResult t.
Proof.
  intros Ht. unfold setTaskResult, getTaskState. rewrite Ht.
  set (w0 := if upd then _ else _).
  assert (exists t0, taskStateMap w0 !! i = Some t0 /\ taskResult t0 = taskResult t /\
    taskError t0 = taskError t /\ isStarted t0 = isStarted t /\ isTimeout t0 = isTimeout t /\
    updatedResult t0 = upd || updatedResult t) as (t0 & H0 & Er & Ee & Es & Et & Eu).
  { unfold w0. destruct upd; [|by exists t]. eexists. simpl. by rewrite lookup_alter_eq, Ht. }
  case_decide as Hd; [exists t0; split_and!; congruence|].
  set (w2 := set_var _ _ _ _).
  assert (taskStateMap w2 !! i = Some (set_taskResult r t0)) as H2.
  { unfold w2. simpl. by rewrite lookup_alter_eq, H0. }
  pose proof (updateTaskState_proj (fun t => (taskResult t, taskError t, isStarted t, isTimeout t,
    updatedResult t)) i w2 i ltac:(done)) as Hp. rewrite H2 in Hp. simpl in Hp.
  destruct (taskStateMap (updateTaskState i w2).1 !! i) as [t3|] eqn:H3; [|done].
  simpl in Hp. injection Hp as E1 E2 E3 E4 E5.
  destruct (resultNotifyChan t) as [c|].
  - eexists. simpl. rewrite lookup_alter_eq, H3. split; [done|]. simpl. split_and!; congruence.
  - exists t3. split; [done|]. split_and!; congruence.
Qed.

Lemma ExecuteTask_known NewTask watch i t w :
  taskStateMap w !! i = Some t -> isStarted t = false ->
  ExecuteTask NewTask watch i w =
    (finish_task i (execute_body NewTask watch i t (start_task i w)).1,
     (execute_body NewTask watch i t (start_task i w)).2).
Proof.
  intros Ht Hs. unfold ExecuteTask, getTaskState. rewrite Ht, Hs. by destruct (execute_body _ _ _ _ _).
Qed.

(** *** A [LoadConfig] that panics

    [ExecuteTask] installs its [recover] after [LoadConfig]: a panic of
    [LoadConfig] only runs the function that was deferred before it. *)
Inductive call_end := Returns (err : option error) | Panics (what : string).

Definition panicking_load : Type := TaskScheduler -> TaskScheduler * (result loaded_task + string).

(** Lines 49-182 for such a [LoadConfig]. *)
Definition execute_body_panic (NewTask : Z -> TaskOptions -> result panicking_load) (watch : bool) (i : Z)
    (t : taskState) (w : TaskScheduler) : TaskScheduler * call_end :=
  match check_condition t w with
  | Err e =>
      (setTaskResult i TaskResultFailure false w,
       Returns (Some ("task condition evaluation failed: " ++ e)%string))
  | Ok false =>
      (setTaskResult i TaskResultNone false (update_task i (set_isSkipped true) w), Returns None)
  | Ok true =>
      match NewTask i (options t) with
      | Err e => (w, Returns (Some ("failed task '" ++ opt_Name (options t) ++ "' initialization: " ++ e)%string))
      | Ok LoadConfig =>
          let '(w, r) := LoadConfig w in
          match r with
          | inr what => (w, Panics what)
          | inl (Err e) =>
              (setTaskResult i TaskResultFailure false w,
               Returns (Some ("task " ++ opt_Name (options t) ++ " config validation failed: " ++ e)%string))
          | inl (Ok inst) => let '(w, err) := run_instance watch i inst w in (w, Returns err)
          end
      end
  end.

Definition ExecuteTask_panic (NewTask : Z -> TaskOptions -> result panicking_load) (watch : bool) (i : Z)
    (w : TaskScheduler) : TaskScheduler * call_end :=
  match getTaskState i w with
  | None => (w, Returns (Some "task not found"%string))
  | Some t =>
      if isStarted t then (w, Returns (Some "task has already been executed"%string))
      else
        let '(w, e) := execute_body_panic NewTask watch i t (start_task i w) in
        (finish_task i w, e)
  end.

(** Where no [LoadConfig] panics it is [ExecuteTask]. *)
Lemma ExecuteTask_panic_returns NewTask watch i w :
  ExecuteTask_panic (fun i opts => match NewTask i opts with
      | Ok LoadConfig => Ok (fun w => let '(w, r) := LoadConfig w in (w, inl r))
      | Err e => Err e
      end) watch i w =
  (let '(w, err) := ExecuteTask NewTask watch i w in (w, Returns err)).
Proof.
  unfold ExecuteTask_panic, ExecuteTask. destruct (getTaskState i w) as [t|]; [|done]. destruct (isStarted t); [done|].
  unfold execute_body_panic, execute_body. generalize (start_task i w). clear w. intros w.
  destruct (check_condition t w) as [[]|]; [|done..]. destruct (NewTask i (options t)) as [L|]; [|done].
  destruct (L w) as [w1 [inst|]]; [|done]. by destruct (run_instance watch i inst w1).
Qed.

(** The task of a call gets as far as its [LoadConfig]. *)
Definition reaches_load (i : Z) (w : TaskScheduler) (t : taskState) : Prop :=
  getTaskState i w = Some t /\ isStarted t = false /\ check_condition t (start_task i w) = Ok true.

Lemma ExecuteTask_panic_Panics NewTask watch i w what :
  (ExecuteTask_panic NewTask watch i w).2 = Panics what <->
  exists t L, reaches_load i w t /\ NewTask i (options t) = Ok L /\ (L (start_task i w)).2 = inr what.
Proof.
  unfold ExecuteTask_panic, reaches_load, execute_body_panic.
  destruct (getTaskState i w) as [t|]; [|split; [done|by intros (? & ? & [? _] & _)]].
  destruct (isStarted t) eqn:Hs; [split; [done|by intros (? & ? & ([= <-] & ? & _) & _); congruence]|].
  destruct (check_condition t (start_task i w)) as [b|e] eqn:Hc;
    [|split; [done|intros (? & ? & ([= <-] & _ & ?) & _); congruence]].
  destruct b; [|split; [done|intros (? & ? & ([= <-] & _ & ?) & _); congruence]].
  destruct (NewTask i (options t)) as [L|e] eqn:HN;
    [|split; [done|intros (? & ? & ([= <-] & _ & _) & ? & _); congruence]].
  transitivity ((L (start_task i w)).2 = inr what).
  - destruct (L (start_task i w)) as [w1 [[inst|]|p]]; simpl; [by destruct (run_instance _ _ _ _)|done|].
    split; congruence.
  - split; [intros H; by exists t, L|]. intros (? & L' & ([= <-] & _ & _) & HL & ?). congruence.
Qed.

(** The task of a panicking load is left started and stopped, without the
    failure that the recovered panics give. *)
Lemma ExecuteTask_panic_leaves NewTask watch i w t L what :
  reaches_load i w t -> NewTask i (options t) = Ok L -> (L (start_task i w)).2 = inr what ->
  (L (start_task i w)).1 = start_task i w ->
  exists t', getTaskState i (ExecuteTask_panic NewTask watch i w).1 = Some t' /\
    isStarted t' = true /\ isRunning t' = false /\ taskResult t' = taskResult t /\ taskError t' = taskError t.
Proof.
  intros (Ht & Hs & Hc) HN HL Hw. unfold ExecuteTask_panic, execute_body_panic. rewrite Ht, Hs, Hc, HN.
  destruct (L (start_task i w)) as [w1 r]. cbn [fst snd] in *. subst w1 r. cbn [fst].
  set (f := fun t => (isStarted t, isRunning t, taskResult t, taskError t)).
  assert (f <$> taskStateMap (start_task i w) !! i = Some (true, true, taskResult t, taskError t)) as H0.
  { unfold start_task, time_Now. cbv beta iota zeta. rewrite updateTaskState_proj by done. simpl.
    unfold getTaskState in Ht. by rewrite lookup_alter_eq, Ht. }
  destruct (taskStateMap (start_task i w) !! i) as [t1|] eqn:H1; [|done]. injection H0 as E1 E2 E3 E4.
  destruct (finish_task_proj f i _ t1 ltac:(done) H1) as [now Hf]. unfold getTaskState.
  destruct (taskStateMap (finish_task i (start_task i w)) !! i) as [t2|]; [|done]. simpl in Hf. injection Hf as F1 F2 F3 F4.
  exists t2. split_and!; [done|congruence..].
Qed.
End execute_results.

Section run_lemmas.
Context `{lib : Library} `{envm : Environment}.
Context (NewTask : (bool -> Z -> TaskScheduler -> TaskScheduler * option error) ->
  Z -> TaskOptions -> result task_instance) (Hreg : registry_ok NewTask) (fuel : nat).

Lemma exec_starts watch i w t :
  sched_wf w -> taskStateMap w !! i = Some t ->
  exists t', taskStateMap (exec NewTask (S fuel) watch i w).1 !! i = Some t' /\ isStarted t' = true /\
    (isStarted t = false -> isRunning t' = false /\ is_Some (stopTime t')).
Proof.
  intros Hwf Ht. simpl. destruct (isStarted t) eqn:Hs.
  { exists t. unfold ExecuteTask, getTaskState. by rewrite Ht, Hs. }
  rewrite (ExecuteTask_known _ _ _ _ _ Ht Hs). cbn [fst].
  assert (grows (eq i) w (start_task i w)) as H0 by (apply grows_start; by left).
  destruct (gr_task _ _ _ H0 i t Ht) as (t0 & Ht0 & _).
  assert (isStarted t0 = true) as Hs0.
  { unfold start_task, time_Now in Ht0. cbv beta iota zeta in Ht0.
    match type of Ht0 with taskStateMap (updateTaskState i ?w1).1 !! i = _ =>
      pose proof (updateTaskState_proj isStarted i w1 i ltac:(done)) as Hp end.
    rewrite Ht0 in Hp. simpl in Hp. rewrite lookup_alter_eq, Ht in Hp. by injection Hp. }
  pose proof (grows_execute_body (NewTask (exec NewTask fuel)) watch i t (start_task i w)) as H1.
  destruct (gr_task _ _ _ (H1 ltac:(intros L HL; eapply Hreg; [by apply exec_exec_ok|exact HL])
    (gr_wf _ _ _ H0 Hwf) ltac:(by eexists)) i t0 Ht0) as (t1 & Ht1 & _ & Hs1 & _).
  destruct (finish_task_proj (fun t => (isStarted t, isRunning t, stopTime t)) i _ t1 ltac:(done) Ht1)
    as [now Hf]. simpl in Hf.
  destruct (taskStateMap (finish_task i _) !! i) as [t2|]; [|done]. simpl in Hf.
  injection Hf as E1 E2 E3. exists t2. split; [done|]. rewrite E1, E2, E3. auto.
Qed.

Lemma exec_grows watch i w : sched_wf w -> grows (eq i) w (exec NewTask fuel watch i w).1.
Proof. apply exec_exec_ok, Hreg. Qed.
End run_lemmas.

(** C2: A task is executed at most once.  Executing a known task leaves it
    started and, if this call ran it, stopped with a stop time; whatever happens
    to the scheduler afterwards, executing it again only returns an error and
    changes nothing. *)
Theorem ExecuteTask_at_most_once `{lib : Library} `{envm : Environment} NewTask fuel watch i t w :
  registry_ok NewTask -> sched_wf w -> taskStateMap w !! i = Some t ->
  let w1 := (exec NewTask (S fuel) watch i w).1 in
  (exists t1, taskStateMap w1 !! i = Some t1 /\ isStarted t1 = true /\
     (isStarted t = false -> isRunning t1 = false /\ is_Some (stopTime t1))) /\
  forall R w2 watch', grows R w1 w2 ->
    exec NewTask (S fuel) watch' i w2 = (w2, Some "task has already been executed"%string).
Proof.
  intros Hreg Hwf Ht w1. destruct (exec_starts NewTask Hreg fuel watch i w t Hwf Ht) as (t1 & Ht1 & Hs1 & H1).
  split; [by exists t1|]. intros R w2 watch' Hg.
  destruct (gr_task _ _ _ Hg i t1 Ht1) as (t2 & Ht2 & _ & Hs2 & _).
  simpl. unfold ExecuteTask, getTaskState. by rewrite Ht2, (Hs2 Hs1).
Qed.

(** C3: The verdict of a task that ran to the end.  A result the task set
    itself, other than none, is kept; otherwise the result is failure exactly
    when [Execute] returned an error or the timer fired; and [ExecuteTask]
    returns an error exactly when the result is failure. *)
Theorem conclude_task_verdict `{lib : Library} i err w t :
  getTaskState i w = Some t ->
  let '(w', ret) := conclude_task i err w in
  exists t', getTaskState i w' = Some t' /\
    (updatedResult t = true -> taskResult t <> TaskResultNone -> taskResult t' = taskResult t) /\
    (updatedResult t = false \/ taskResult t = TaskResultNone ->
       taskResult t' = if isTimeout t || bool_decide (err <> None)
                       then TaskResultFailure else TaskResultSuccess) /\
    (ret = None <-> taskResult t' <> TaskResultFailure).
Proof.
  intros Ht. unfold conclude_task.
  set (w0 := match err with Some _ => _ | None => w end).
  assert (exists t0, getTaskState i w0 = Some t0 /\ taskResult t0 = taskResult t /\
    updatedResult t0 = updatedResult t /\ isTimeout t0 = isTimeout t) as (t0 & Ht0 & Er & Eu & Et).
  { unfold w0. destruct err; [|by exists t]. eexists. rewrite getTaskState_update, Ht.
    split; [done|]. simpl. by destruct (taskError t). }
  rewrite Ht0, Er, Eu, Et.
  set (v := if isTimeout t || bool_decide (err <> None) then TaskResultFailure else TaskResultSuccess).
  destruct (negb (updatedResult t) || bool_decide (taskResult t = TaskResultNone)) eqn:Hset.
  - destruct (setTaskResult_task i v false w0 t0 Ht0) as (t' & Ht' & Er' & _).
    unfold getTaskState in *. rewrite Ht'. clearbody v.
    assert (updatedResult t = true -> taskResult t <> TaskResultNone -> False) as Hno.
    { intros Hu Hn. by rewrite Hu, bool_decide_eq_false_2 in Hset. }
    destruct (decide (taskResult t' = TaskResultFailure)); exists t'; split_and!; auto;
      try (by intros; exfalso; auto); split; congruence.
  - apply orb_false_iff in Hset as [Hu%negb_false_iff Hn%bool_decide_eq_false].
    rewrite Ht0, Er. destruct (decide (taskResult t = TaskResultFailure)); exists t0; split_and!; auto;
      try (by intros [?|?]; congruence); split; congruence.
Qed.

(** A panic is reported as success.  When a task's [Execute] panics, the
    task gets the failure result, but [ExecuteTask] returns no error, so its
    caller goes on as after a success. *)
Theorem ExecuteTask_panic_returns_nil `{lib : Library} `{envm : Environment}
    NewTask watch i t w LoadConfig inst perr :
  taskStateMap w !! i = Some t -> isStarted t = false -> sched_wf w ->
  check_condition t (start_task i w) = Ok true ->
  NewTask i (options t) = Ok LoadConfig -> instance_ok i LoadConfig ->
  (LoadConfig (start_task i w)).2 = Ok inst ->
  (forall w', (inst_Execute inst w').2 = Panicked perr) ->
  (ExecuteTask NewTask watch i w).2 = None /\
  taskResult <$> getTaskState i (ExecuteTask NewTask watch i w).1 = Some TaskResultFailure.
Proof.
  intros Ht Hs Hwf Hc HN Hok Hl Hp. rewrite (ExecuteTask_known _ _ _ _ _ Ht Hs). cbn [fst snd].
  assert (grows (eq i) w (start_task i w)) as H0 by (apply grows_start; by left).
  destruct (gr_task _ _ _ H0 i t Ht) as (t0 & Ht0 & _).
  pose proof (gr_wf _ _ _ H0 Hwf) as Hwf0.
  destruct (Hok _ _ Hwf0 Ht0) as [Hload Hrun]. specialize (Hrun _ Hl).
  unfold execute_body. rewrite Hc, HN.
  destruct (LoadConfig (start_task i w)) as [w1 r]. cbn [fst snd] in *. subst r.
  unfold run_instance.
  set (w2 := update_task i _ w1). set (w3 := if watch then _ else _).
  assert (grows no_task_at w1 w3) as H3.
  { etrans; [by apply (grows_update no_task_at i
      (fun t => set_taskConfig (inst_Config inst) (set_task (Some (inst_Config inst)) t)))|].
    unfold w3. destruct watch; [apply grows_GetTaskResultUpdateChan|done]. }
  pose proof (gr_wf _ _ _ H3 (gr_wf _ _ _ Hload Hwf0)) as Hwf3.
  specialize (Hrun w3 H3 Hwf3). specialize (Hp w3).
  destruct (inst_Execute inst w3) as [w4 out]. cbn [fst snd] in *. subst out.
  set (w5 := fire_timer i (inst_Timeout inst) w4).
  assert (grows no_task_at (start_task i w) w5) as H5.
  { etrans; [exact Hload|]. etrans; [exact H3|]. etrans; [exact Hrun|]. apply grows_fire_timer. }
  destruct (gr_task _ _ _ H5 i t0 Ht0) as (t5 & Ht5 & _).
  unfold recover_panic. cbn [fst snd]. split; [done|].
  set (w6 := match perr with Some _ => _ | None => w5 end).
  assert (exists t6, taskStateMap w6 !! i = Some t6) as [t6 Ht6].
  { unfold w6. destruct perr; [|by exists t5]. simpl. rewrite lookup_alter_eq, Ht5. by eexists. }
  destruct (setTaskResult_task i TaskResultFailure false w6 t6 Ht6) as (t7 & Ht7 & Er & _).
  destruct (finish_task_proj taskResult i
    (update_task i (set_task None) (setTaskResult i TaskResultFailure false w6)) (set_task None t7))
    as [now Hf]; [done|by simpl; rewrite lookup_alter_eq, Ht7|].
  unfold getTaskState. rewrite Hf. simpl. by rewrite Er.
Qed.

(** ** The run of a whole test *)

Definition started (w : TaskScheduler) (i : Z) : option bool := isStarted <$> taskStateMap w !! i.

Section run_order.
Context `{lib : Library} `{envm : Environment}.
Context (NewTask : (bool -> Z -> TaskScheduler -> TaskScheduler * option error) ->
  Z -> TaskOptions -> result task_instance) (Hreg : registry_ok NewTask) (fuel : nat).

(** A parentless task known to [w]. *)
Definition is_root (w : TaskScheduler) (i : Z) : Prop :=
  exists t, taskStateMap w !! i = Some t /\ parentState t = None.

Lemma grows_started R w w' i :
  grows R w w' -> is_root w i -> ~ R i -> started w' i = started w i /\ is_root w' i.
Proof.
  intros Hg (t & Ht & Hp) HR. destruct (gr_task _ _ _ Hg i t Ht) as (t' & Ht' & Hpl & _ & Hs).
  unfold started. rewrite Ht, Ht'. simpl. rewrite (Hs Hp HR). split; [done|].
  exists t'. split; [done|]. destruct Hpl as (_ & <- & _). done.
Qed.

Lemma grows_keeps_started R w w' i :
  grows R w w' -> started w i = Some true -> started w' i = Some true.
Proof.
  unfold started. intros Hg Hs. destruct (taskStateMap w !! i) as [t|] eqn:Ht; [|done].
  simpl in Hs. injection Hs as Hs. destruct (gr_task _ _ _ Hg i t Ht) as (t' & -> & _ & Hs' & _).
  simpl. by rewrite Hs'.
Qed.

(** The states [ws] in which the first [k] tasks of [l] are executed one after
    the other from [w]: each takes the state its predecessor left, and all but
    the last return no error and leave the tasks context alive. *)
Definition executed_in_order (l : list Z) (k : nat) (w : TaskScheduler)
    (ws : nat -> TaskScheduler) : Prop :=
  ws 0%nat = w /\
  forall j i, l !! j = Some i -> (j < k)%nat ->
    let r := exec NewTask (S fuel) true i (ws j) in
    ws (S j) = r.1 /\ ((S j < k)%nat -> r.2 = None /\ tasksCtx_Err (ws (S j)) = None).

(** The error the [j]th task of [l], executed in [ws j], gives the run. *)
Definition task_run_error (l : list Z) (ws : nat -> TaskScheduler) (j : nat) : option error :=
  match l !! j with
  | None => None
  | Some i =>
      match (exec NewTask (S fuel) true i (ws j)).2 with
      | Some e => Some e
      | None => tasksCtx_Err (ws (S j))
      end
  end.

Lemma executed_in_order_cons i l k w w1 ws :
  exec NewTask (S fuel) true i w = (w1, None) -> tasksCtx_Err w1 = None ->
  executed_in_order l k w1 ws ->
  executed_in_order (i :: l) (S k) w (fun j => match j with 0%nat => w | S j => ws j end).
Proof.
  intros He Hctx (H0 & Hs). split; [done|]. intros [|j] i' Hi Hj.
  - injection Hi as <-. rewrite He, H0. done.
  - destruct (Hs j i' Hi) as [-> Hn]; [lia|]. split; [done|]. intros ?. apply Hn. lia.
Qed.

Lemma run_root_tasks_spec l w :
  sched_wf w -> NoDup l -> (forall i, i ∈ l -> is_root w i /\ started w i = Some false) ->
  let r := run_root_tasks NewTask (S fuel) l w in
  grows (fun j => j ∈ l) w r.1 /\
  exists k ws, (k <= length l)%nat /\ executed_in_order l k w ws /\ r.1 = ws k /\
    (r.2 = None -> k = length l) /\
    (forall e, r.2 = Some e -> (0 < k)%nat) /\ ((0 < k)%nat -> r.2 = task_run_error l ws (pred k)) /\
    forall n i, l !! n = Some i -> started r.1 i = Some (bool_decide (n < k)%nat).
Proof.
  revert w. induction l as [|i l IH]; intros w Hwf Hnd Hl; cbn [run_root_tasks].
  { split; [done|]. exists 0%nat, (fun _ => w). split_and!; done. }
  apply NoDup_cons in Hnd as [Hi Hnd].
  destruct (Hl i) as [(t & Ht & Hp) Hs]; [by apply elem_of_cons; left|].
  pose proof (exec_grows NewTask Hreg (S fuel) true i w Hwf) as Hg.
  destruct (exec_starts NewTask Hreg fuel true i w t Hwf Ht) as (t' & Ht' & Hs' & _).
  destruct (exec NewTask (S fuel) true i w) as [w1 err] eqn:Hex. cbn [fst] in *.
  assert (started w1 i = Some true) as Hst by (unfold started; rewrite Ht'; simpl; by rewrite Hs').
  assert (forall j, j ∈ l -> is_root w1 j /\ started w1 j = Some false) as Hl1.
  { intros j Hj. destruct (Hl j) as [Hr Hsj]; [by apply elem_of_cons; right|].
    destruct (grows_started _ _ _ j Hg Hr) as [-> ?]; [congruence|done]. }
  assert (grows (fun j => j ∈ i :: l) w w1) as Hg1.
  { eapply (grows_weaken (eq i)); [|exact Hg]. intros j <-. by apply elem_of_cons; left. }
  destruct (match err with Some e => Some e | None => tasksCtx_Err w1 end) as [e|] eqn:Hstop.
  { assert ((match err with Some e => (w1, Some e) | None =>
      match tasksCtx_Err w1 with Some e => (w1, Some e)
      | None => run_root_tasks NewTask (S fuel) l w1 end end) = (w1, Some e)) as ->.
    { destruct err; [by simplify_eq|]. by rewrite Hstop. }
    cbn [fst snd]. split; [done|].
    exists 1%nat, (fun j => match j with 0%nat => w | S _ => w1 end).
    split_and!; [simpl; lia| |done|done|lia| |].
    - split; [done|]. intros [|j] i' Hi' ?; [|lia]. injection Hi' as <-. rewrite Hex. split; [done|lia].
    - unfold task_run_error. cbn -[exec]. rewrite Hex. cbn -[exec]. by rewrite Hstop.
    - intros [|n] j Hj; [by simplify_eq/=|]. apply (list_elem_of_lookup_2 l n) in Hj.
      by rewrite (proj2 (Hl1 j Hj)). }
  destruct err as [e|]; [done|]. rewrite Hstop.
  destruct (IH w1 (gr_wf _ _ _ Hg Hwf) Hnd Hl1) as (Hg2 & k & ws & Hk & Hin & Hend & Hdone & Hpos & Herr & Hlk).
  assert (grows (fun j => j ∈ i :: l) w1 (run_root_tasks NewTask (S fuel) l w1).1) as Hg3.
  { eapply grows_weaken; [|exact Hg2]. intros j Hj. by apply elem_of_cons; right. }
  split; [by etrans|]. exists (S k), (fun j => match j with 0%nat => w | S j => ws j end).
  cbn [length]. split_and!; [lia|by eapply executed_in_order_cons|done|intros Hn; by rewrite Hdone|lia| |].
  - intros _. destruct k as [|k].
    + destruct (run_root_tasks _ _ _ _).2 as [e|] eqn:He; [by specialize (Hpos e eq_refl); lia|].
      unfold task_run_error. cbn -[exec]. rewrite Hex. cbn -[exec]. by rewrite (proj1 Hin).
    + rewrite Herr by lia. done.
  - intros [|n] j Hj.
    + injection Hj as <-. rewrite bool_decide_eq_true_2 by lia. by eapply grows_keeps_started.
    + change (l !! n = Some j) in Hj. rewrite (Hlk n j Hj). f_equal. apply bool_decide_ext. lia.
Qed.

Lemma runCleanupTasks_grows l w :
  sched_wf w -> grows (fun j => j ∈ l) w (runCleanupTasks NewTask (S fuel) l w).
Proof.
  revert w. induction l as [|i l IH]; intros w Hwf; cbn [runCleanupTasks]; [done|].
  destruct (cleanupCtx_Err w); [done|].
  pose proof (exec_grows NewTask Hreg (S fuel) true i w Hwf) as Hg.
  etrans; [eapply (grows_weaken (eq i)); [|exact Hg]; intros j <-; by apply elem_of_cons; left|].
  eapply grows_weaken; [|apply IH, (gr_wf _ _ _ Hg Hwf)]. intros j Hj. by apply elem_of_cons; right.
Qed.

Lemma runCleanupTasks_all l w :
  sched_wf w -> (forall i, i ∈ l -> is_Some (taskStateMap w !! i)) ->
  (forall w', cleanupCtx_Err w' = None) ->
  forall i, i ∈ l -> started (runCleanupTasks NewTask (S fuel) l w) i = Some true.
Proof.
  intros Hwf Hl Hctx. revert w Hwf Hl. induction l as [|i l IH]; intros w Hwf Hl j Hj; [by apply elem_of_nil in Hj|].
  cbn [runCleanupTasks]. rewrite Hctx.
  destruct (Hl i) as [t Ht]; [by apply elem_of_cons; left|].
  pose proof (exec_grows NewTask Hreg (S fuel) true i w Hwf) as Hg.
  destruct (exec_starts NewTask Hreg fuel true i w t Hwf Ht) as (t' & Ht' & Hs' & _).
  pose proof (gr_wf _ _ _ Hg Hwf) as Hwf1.
  apply elem_of_cons in Hj as [->|Hj].
  - eapply grows_keeps_started; [by apply runCleanupTasks_grows|].
    unfold started. rewrite Ht'. simpl. by rewrite Hs'.
  - apply IH; [done| |done]. intros j' Hj'.
    destruct (Hl j') as [t0 Ht0]; [by apply elem_of_cons; right|].
    destruct (gr_task _ _ _ Hg j' t0 Ht0) as (? & ? & _). eauto.
Qed.
End run_order.

(** C1: A test run executes its root tasks one after the other in their order
    and stops at the first failure or cancellation.  There are a number [k] and
    states [ws] such that the [j]th of the first [k] root tasks is executed by
    [ExecuteTask] in the state its predecessor left; every one of them but the
    last returned no error and left the tasks context alive; exactly these [k]
    have been started; the run succeeds only when [k] is the number of root
    tasks, and its result is that of the last of them: the error its execution
    returned, else the error of the cancelled context, else none.  (A task
    whose [Execute] panics returns no error from [ExecuteTask], so the run goes
    on after it: [ExecuteTask_panic_returns_nil].)  The cleanup tasks run from
    the state the last root task left, whatever the outcome: unless the cleanup
    context is cancelled, every one of them has been started. *)
Theorem RunTasks_order_and_cleanup `{lib : Library} `{envm : Environment} NewTask fuel w :
  registry_ok NewTask -> sched_wf w ->
  (forall i, i ∈ rootTasks w ++ rootCleanupTasks w -> started w i = Some false) ->
  let r := RunTasks NewTask (S fuel) w in
  sched_wf r.1 /\
  (exists k ws, (k <= length (rootTasks w))%nat /\
    executed_in_order NewTask fuel (rootTasks w) k w ws /\
    (r.2 = None -> k = length (rootTasks w)) /\
    (forall e, r.2 = Some e ->
       (0 < k)%nat /\ task_run_error NewTask fuel (rootTasks w) ws (pred k) = Some e) /\
    ((0 < k)%nat -> task_run_error NewTask fuel (rootTasks w) ws (pred k) = r.2) /\
    (forall n i, rootTasks w !! n = Some i -> started r.1 i = Some (bool_decide (n < k)%nat)) /\
    r.1 = runCleanupTasks NewTask (S fuel) (rootCleanupTasks w) (ws k)) /\
  ((forall w', cleanupCtx_Err w' = None) ->
    forall i, i ∈ rootCleanupTasks w -> started r.1 i = Some true).
Proof.
  intros Hreg Hwf Hun r. unfold r, RunTasks.
  destruct (swf_nodup _ Hwf) as (_ & _ & Hn & _).
  destruct (run_root_tasks_spec NewTask Hreg fuel (rootTasks w) w Hwf Hn)
    as (Hg & k & ws & Hk & Hin & Hend & Hdone & Hpos & Herr & Hlk).
  { intros i Hi. split; [|apply Hun, elem_of_app; by left].
    destruct (swf_root _ Hwf i Hi) as (t & ? & _ & ?). by exists t. }
  destruct (run_root_tasks NewTask (S fuel) (rootTasks w) w) as [w1 err]. cbn [fst snd] in *.
  pose proof (gr_wf _ _ _ Hg Hwf) as Hwf1. destruct (gr_roots _ _ _ Hg) as [_ Hrc]. rewrite Hrc.
  pose proof (runCleanupTasks_grows NewTask Hreg fuel (rootCleanupTasks w) w1 Hwf1) as Hg2.
  split; [by apply (gr_wf _ _ _ Hg2)|]. split.
  - exists k, ws. split_and!; [done..| | | |by rewrite Hend].
    + intros e He. pose proof (Hpos e He) as Hk0. split; [done|]. by rewrite <- Herr.
    + intros Hk0. by rewrite Herr.
    + intros n i Hi. rewrite <- (Hlk n i Hi).
      assert (i ∈ rootTasks w) as Hir by by eapply list_elem_of_lookup_2.
      destruct (swf_root _ Hwf i Hir) as (t & Ht & Hcl & Hp).
      destruct (gr_task _ _ _ Hg i t Ht) as (t1 & Ht1 & (_ & Ep & _) & _).
      eapply grows_started; [exact Hg2|exists t1; by rewrite <- Ep|].
      intros Hc. destruct (swf_rootc _ Hwf i Hc) as (t' & ? & ? & _). congruence.
  - intros Hctx i Hi. apply runCleanupTasks_all; try done. intros j Hj.
    destruct (swf_rootc _ Hwf j Hj) as (t & Ht & _).
    destruct (gr_task _ _ _ Hg j t Ht) as (? & ? & _). eauto.
Qed.

(** ** A concrete registry: tasks whose [Execute] ends at once, as given. *)

Definition ex_env : Environment :=
  {| timer_fires := fun _ _ => false; tasksCtx_Err := fun _ => None; cleanupCtx_Err := fun _ => None |}.

Definition ex_loaded (out : outcome) : loaded_task := mkLoadedTask VNil 0 (fun w => (w, out)).

Definition ex_instance (out : outcome) : task_instance := fun w => (w, Ok (ex_loaded out)).

(** Tasks called "sleep" fail, all others succeed. *)
Definition ex_registry (ex : bool -> Z -> TaskScheduler -> TaskScheduler * option error)
    (i : Z) (opts : TaskOptions) : result task_instance :=
  Ok (ex_instance (Returned (if String.eqb (opt_Name opts) "sleep" then Some "interrupted" else None)))%string.

Lemma ex_instance_ok i out : instance_ok i (ex_instance out).
Proof. intros w t Hwf Ht. split; [done|]. intros inst [= <-] w' Hg Hwf'. done. Qed.

Lemma ex_registry_ok : registry_ok ex_registry.
Proof. intros ex i opts LoadConfig _ [= <-]. apply ex_instance_ok. Qed.

(** Two root tasks, a child of the first, and a cleanup task. *)
Definition ex_test : TaskScheduler := (@AddCleanupTask (ex_lib 9) (ex_opts "run_shell" "") ex_sched).1.

Lemma ex_test_wf : sched_wf ex_test.
Proof.
  eapply (@sched_steps_wf (ex_lib 9)); [|apply ex_sched_wf]. apply rtc_once, step_AddCleanupTask.
Qed.

Lemma ExecuteTask_at_most_once_witness :
  exec (lib := ex_lib 9) (envm := ex_env) ex_registry 1 true 1
    (exec (lib := ex_lib 9) (envm := ex_env) ex_registry 1 true 1 ex_test).1 =
  ((exec (lib := ex_lib 9) (envm := ex_env) ex_registry 1 true 1 ex_test).1,
   Some "task has already been executed"%string).
Proof.
  assert (exists t, taskStateMap ex_test !! 1 = Some t) as [t Ht] by (eexists; by vm_compute).
  apply (proj2 (ExecuteTask_at_most_once (lib := ex_lib 9) (envm := ex_env) ex_registry 0 true 1 t
    ex_test ex_registry_ok ex_test_wf Ht) no_task_at). apply grows_refl.
Defined.

Lemma conclude_task_verdict_witness :
  exists t, getTaskState 1 (conclude_task (lib := ex_lib 9) 1 (Some "boom"%string) ex_started).1 = Some t /\
    taskResult t = TaskResultFailure.
Proof.
  pose proof (conclude_task_verdict (lib := ex_lib 9) 1 (Some "boom"%string) ex_started ex_task1 ex_task1_eq) as H.
  destruct (conclude_task (lib := ex_lib 9) 1 (Some "boom"%string) ex_started) as [w' ret].
  destruct H as (t & Ht & _ & Hr & _). exists t. split; [exact Ht|]. rewrite Hr; by vm_compute; auto.
Defined.

Lemma ExecuteTask_panic_returns_nil_witness :
  let NewTask := fun (_ : Z) (_ : TaskOptions) => Ok (ex_instance (Panicked (Some "nil pointer"%string))) in
  (ExecuteTask (lib := ex_lib 9) (envm := ex_env) NewTask true 1 ex_test).2 = None.
Proof.
  intros NewTask.
  assert (exists t, taskStateMap ex_test !! 1 = Some t /\ isStarted t = false /\ opt_If (options t) = ""%string)
    as (t & Ht & Hs & Hif) by (eexists; split; [by vm_compute|by split]).
  apply (ExecuteTask_panic_returns_nil (lib := ex_lib 9) (envm := ex_env) NewTask true 1 t ex_test
    (ex_instance (Panicked (Some "nil pointer"%string))) (ex_loaded (Panicked (Some "nil pointer"%string)))
    (Some "nil pointer"%string) Ht Hs ex_test_wf); try reflexivity.
  - unfold check_condition. by rewrite Hif.
  - apply ex_instance_ok.
Defined.

(** Task 3 fails: nothing after it runs, but the cleanup task 4 does. *)
Lemma RunTasks_order_and_cleanup_witness :
  let r := RunTasks (lib := ex_lib 9) (envm := ex_env) ex_registry 1 ex_test in
  sched_wf r.1 /\ started r.1 4 = Some true.
Proof.
  intros r.
  destruct (RunTasks_order_and_cleanup (lib := ex_lib 9) (envm := ex_env) ex_registry 0 ex_test
    ex_registry_ok ex_test_wf) as (Hwf & _ & Hc).
  - apply Forall_forall. apply (bool_decide_unpack _). by vm_compute.
  - split; [exact Hwf|]. apply Hc; [reflexivity|]. apply (bool_decide_unpack _). by vm_compute.
Defined.
