(* ===== verification/TaskFlow.v ===== *)
(** * Flow control tasks

    pkg/coordinator/tasks/run_*: the tasks that run other tasks.  [run_tasks]
    and [run_task_options] run their children one at a time and are
    implementations for Execution.v ([flow_registry]); [run_tasks_concurrent],
    [run_task_matrix] and [run_task_background] run children in goroutines, and
    are modelled by their [LoadConfig] and by the loops that turn the stream of
    child events, in any order, into a verdict. *)

From S2P Require Import Prelude Vars Db Scheduler Execution.

Open Scope Z_scope.

(** ** Loading a configuration *)

(** What the tasks do with [t.ctx]: [NewTask], [SetResult] and the outputs. *)
Definition ctx_Vars (i : Z) (w : TaskScheduler) : Variables_ref :=
  from_option taskVars (rootVars w) (getTaskState i w).
Definition ctx_Outputs (i : Z) (w : TaskScheduler) : Variables_ref :=
  from_option taskOutputs (Ref 0) (getTaskState i w).

Definition upd_scope_with (f : Vars.heap -> Vars.heap) (w : TaskScheduler) : TaskScheduler :=
  upd_scopes (f (scopes w)) w.

(** [outputs.SetSubScope(name, sub)] *)
Definition set_sub_scope (v : Variables_ref) (name : string) (sub : Variables_ref) (w : TaskScheduler)
    : TaskScheduler := upd_scope_with (SetSubScope v name sub) w.

(** [v.NewScope()] with the owner's index stored in it. *)
Definition new_child_scope (i : Z) (w : TaskScheduler) : TaskScheduler * Variables_ref :=
  let '(h, v) := NewScope (ctx_Vars i w) (scopes w) in
  (set_var v "scopeOwner" (VUint64 i) (upd_scopes h w), v).

Section flow.
Context `{lib : Library}.

(** [rawtask.Unmarshal] into task options, and typed YAML decoding. *)
Class Decoding := { dec_options : value -> result TaskOptions }.
Context `{dec : Decoding}.

Definition ctx_NewTask (i : Z) (opts : TaskOptions) (vars : option Variables_ref) (w : TaskScheduler)
    : TaskScheduler * result Z :=
  newTaskState opts (Some i) vars (from_option isCleanup false (getTaskState i w)) w.

Definition ctx_SetResult (i : Z) (r : TaskResult) (w : TaskScheduler) : TaskScheduler :=
  setTaskResult i r true w.

(** The common head of every [LoadConfig]: static configuration, dynamic
    variables, validation.  [Unmarshal] and [decode] are the typed decoders of
    the configuration. *)
Definition load_config {C} (TaskName : string) (DefaultConfig : C)
    (Unmarshal : value -> C -> result C) (decode : string -> C -> result C)
    (Validate : C -> option error) (i : Z) (opts : TaskOptions) (w : TaskScheduler) : result C :=
  match (match opt_Config opts with
         | None => Ok DefaultConfig
         | Some raw =>
             match Unmarshal raw DefaultConfig with
             | Err e => Err ("error parsing task config for " ++ TaskName ++ ": " ++ e)
             | Ok c => Ok c
             end
         end) with
  | Err e => Err e
  | Ok config =>
      match ConsumeVars lib_yaml_Marshal lib_yaml_Unmarshal lib_gojq_Parse lib_query_Run decode
              lib_depth (scopes w) (ctx_Vars i w) config (opt_ConfigVars opts) with
      | None => Err "stack overflow"
      | Some (Err e) => Err e
      | Some (Ok config) =>
          match Validate config with Some e => Err e | None => Ok config end
      end
  end%string.

(** ** run_tasks *)

Record run_tasks_Config := mkRunTasksConfig {
  rt_Tasks : list value;
  rt_StopChildOnResult : bool;
  rt_ExpectFailure : bool;
  rt_ContinueOnFailure : bool;
  rt_NewVariableScope : bool
}.

Definition run_tasks_DefaultConfig : run_tasks_Config := mkRunTasksConfig [] true false false false.

(** The zero value, which [t.config] holds until the end of [LoadConfig]. *)
Definition run_tasks_zeroConfig : run_tasks_Config := mkRunTasksConfig [] false false false false.

Definition run_tasks_Validate (c : run_tasks_Config) : option error :=
  match rt_Tasks c with [] => Some "at least one task must be specified"%string | _ => None end.

(** The loop that creates the children, [n] of them so far. *)
Fixpoint create_children (i : Z) (vars : option Variables_ref) (n : nat) (raws : list value)
    (w : TaskScheduler) : TaskScheduler * result (list Z) :=
  match raws with
  | [] => (w, Ok [])
  | raw :: raws =>
      match dec_options raw with
      | Err e => (w, Err ("failed parsing child task config #" ++ pretty (S n) ++ " : " ++ e))
      | Ok opts =>
          let '(w, r) := ctx_NewTask i opts vars w in
          match r with
          | Err e => (w, Err ("failed initializing child task #" ++ pretty (S n) ++ " : " ++ e))
          | Ok task =>
              let '(w, r) := create_children i vars (S n) raws w in
              (w, match r with Err e => Err e | Ok tasks => Ok (task :: tasks) end)
          end
      end
  end%string.

(** [LoadConfig]: the scope option is read from [tconfig], the instance's
    [t.config], not from the configuration just loaded. *)
Definition run_tasks_init (tconfig : run_tasks_Config) (i : Z) (config : run_tasks_Config)
    (w : TaskScheduler) : TaskScheduler * result (list Z) :=
  let '(w, taskVars) :=
    if rt_NewVariableScope tconfig then
      let '(w, v) := new_child_scope i w in
      (set_sub_scope (ctx_Outputs i w) "childScope" v w, Some v)
    else (w, None) in
  create_children i taskVars 0 (rt_Tasks config) w.

(** [Execute]; [n] children have run. *)
Fixpoint run_tasks_Execute (ex : bool -> Z -> TaskScheduler -> TaskScheduler * option error)
    (c : run_tasks_Config) (n : nat) (tasks : list Z) (w : TaskScheduler) : TaskScheduler * outcome :=
  match tasks with
  | [] => (w, Returned None)
  | task :: tasks =>
      let '(w, err) := ex (rt_StopChildOnResult c) task w in
      let continue := run_tasks_Execute ex c (S n) tasks w in
      if rt_ExpectFailure c then
        match err with
        | None => (w, Returned (Some ("child task #" ++ pretty (S n) ++ " succeeded, but should have failed")))
        | Some _ => continue
        end
      else if rt_ContinueOnFailure c then continue
      else
        match err with
        | Some e => (w, Returned (Some ("child task #" ++ pretty (S n) ++ " failed: " ++ e)))
        | None => continue
        end
  end%string.

Variable run_tasks_Unmarshal : value -> run_tasks_Config -> result run_tasks_Config.
Variable run_tasks_decode : string -> run_tasks_Config -> result run_tasks_Config.
Variable config_value : run_tasks_Config -> value.

Definition run_tasks_NewTask (ex : bool -> Z -> TaskScheduler -> TaskScheduler * option error)
    (i : Z) (opts : TaskOptions) : task_instance := fun w =>
  match load_config "run_tasks" run_tasks_DefaultConfig run_tasks_Unmarshal run_tasks_decode
          run_tasks_Validate i opts w with
  | Err e => (w, Err e)
  | Ok config =>
      let '(w, r) := run_tasks_init run_tasks_zeroConfig i config w in
      (w, match r with
          | Err e => Err e
          | Ok tasks => Ok (mkLoadedTask (config_value config) (opt_Timeout opts)
                              (run_tasks_Execute ex config 0 tasks))
          end)
  end.

(** ** run_task_options *)

Record run_task_options_Config := mkRunTaskOptionsConfig {
  ro_Task : option value;
  ro_PropagateResult : bool; ro_ExitOnResult : bool; ro_InvertResult : bool;
  ro_ExpectFailure : bool; ro_IgnoreFailure : bool;
  ro_RetryOnFailure : bool; ro_MaxRetryCount : nat; ro_NewVariableScope : bool
}.

Definition run_task_options_DefaultConfig : run_task_options_Config :=
  mkRunTaskOptionsConfig None false false false false false false 0 false.

Definition run_task_options_Validate (c : run_task_options_Config) : option error :=
  match ro_Task c with None => Some "child task must be specified"%string | Some _ => None end.

(** Lines 79-100: a fresh child is created and executed; [Err] is the failure
    to create it. *)
Definition options_attempt (ex : bool -> Z -> TaskScheduler -> TaskScheduler * option error)
    (i : Z) (c : run_task_options_Config) (w : TaskScheduler)
    : TaskScheduler * result (option error) :=
  match dec_options (default VNil (ro_Task c)) with
  | Err e => (w, Err ("failed parsing child task config: " ++ e))
  | Ok opts =>
      let '(w, vars) :=
        if ro_NewVariableScope c then
          let '(w, v) := new_child_scope i w in
          (set_sub_scope (ctx_Outputs i w) "childScope" (NewScopeFilter v) w, v)
        else (w, ctx_Vars i w) in
      let '(w, r) := ctx_NewTask i opts (Some vars) w in
      match r with
      | Err e => (w, Err ("failed initializing child task: " ++ e))
      | Ok task => let '(w, err) := ex true task w in (w, Ok err)
      end
  end%string.

(** Lines 102-129, for an attempt after which no retry follows. *)
Definition options_conclude (i : Z) (c : run_task_options_Config) (retrying : bool)
    (taskErr : option error) (w : TaskScheduler) : TaskScheduler * outcome :=
  if retrying then (w, Returned taskErr)
  else if ro_ExpectFailure c then
    match taskErr with
    | None =>
        (ctx_SetResult i TaskResultFailure w,
         Returned (Some "child task succeeded, but should have failed"))
    | Some _ => (ctx_SetResult i TaskResultSuccess w, Returned taskErr)
    end
  else if ro_IgnoreFailure c then (ctx_SetResult i TaskResultSuccess w, Returned taskErr)
  else
    match taskErr with
    | Some e => (ctx_SetResult i TaskResultFailure w, Returned (Some ("child task failed: " ++ e)))
    | None => (w, Returned None)
    end%string.

(** [Execute]: [left] is [MaxRetryCount - retryCount]. *)
Fixpoint run_task_options_Execute (ex : bool -> Z -> TaskScheduler -> TaskScheduler * option error)
    (i : Z) (c : run_task_options_Config) (left : nat) (w : TaskScheduler) : TaskScheduler * outcome :=
  let '(w, r) := options_attempt ex i c w in
  match r with
  | Err e => (w, Returned (Some e))
  | Ok taskErr =>
      match left with
      | S left' =>
          if ro_RetryOnFailure c then
            match taskErr with
            | Some _ => run_task_options_Execute ex i c left' w
            | None => options_conclude i c true taskErr w
            end
          else options_conclude i c false taskErr w
      | O => options_conclude i c false taskErr w
      end
  end.

(** The result [watchTaskResult] forwards for a child result. *)
Definition watched_result (c : run_task_options_Config) (r : TaskResult) : TaskResult :=
  if ro_InvertResult c then
    match r with
    | TaskResultNone => TaskResultSuccess
    | TaskResultSuccess => TaskResultNone
    | TaskResultFailure =>
        if ro_ExpectFailure c || ro_IgnoreFailure c then TaskResultSuccess else TaskResultFailure
    end
  else r.

Variable run_task_options_Unmarshal :
  value -> run_task_options_Config -> result run_task_options_Config.
Variable run_task_options_decode :
  string -> run_task_options_Config -> result run_task_options_Config.
Variable options_value : run_task_options_Config -> value.

Definition run_task_options_NewTask (ex : bool -> Z -> TaskScheduler -> TaskScheduler * option error)
    (i : Z) (opts : TaskOptions) : task_instance := fun w =>
  match load_config "run_task_options" run_task_options_DefaultConfig run_task_options_Unmarshal
          run_task_options_decode run_task_options_Validate i opts w with
  | Err e => (w, Err e)
  | Ok config =>
      (w, Ok (mkLoadedTask (options_value config) (opt_Timeout opts)
                (run_task_options_Execute ex i config (ro_MaxRetryCount config))))
  end.

(** ** The registry: flow tasks run their children through the scheduler, all
    other tasks are given by [leaf]. *)
Variable leaf : string -> Z -> TaskOptions -> result task_instance.

Definition flow_registry (ex : bool -> Z -> TaskScheduler -> TaskScheduler * option error)
    (i : Z) (opts : TaskOptions) : result task_instance :=
  match GetTaskDescriptor (opt_Name opts) with
  | None => Err ("unknown task name: " ++ opt_Name opts)%string
  | Some d =>
      if String.eqb (desc_Name d) "run_tasks" then Ok (run_tasks_NewTask ex i opts)
      else if String.eqb (desc_Name d) "run_task_options" then Ok (run_task_options_NewTask ex i opts)
      else leaf (desc_Name d) i opts
  end.
End flow.

(** ** Flow tasks are well-behaved implementations *)

(** Task [j] is a child, so running it starts no parentless task. *)
Definition has_parent (w : TaskScheduler) (j : Z) : Prop :=
  exists t p, taskStateMap w !! j = Some t /\ parentState t = Some p.

Lemma grows_has_parent R w w' j : grows R w w' -> has_parent w j -> has_parent w' j.
Proof.
  intros Hg (t & p & Ht & Hp). destruct (gr_task _ _ _ Hg j t Ht) as (t' & Ht' & (_ & E & _) & _).
  exists t', p. by rewrite <- E.
Qed.

Lemma grows_child w w' j : has_parent w j -> grows (eq j) w w' -> grows no_task_at w w'.
Proof.
  intros (t & p & Ht & Hp) [W T C]. split; [done| |done]. intros k tk Hk.
  destruct (T k tk Hk) as (tk' & ? & ? & ? & Hs). exists tk'. split_and!; try done.
  intros Hn _. apply Hs; [done|]. intros ->. congruence.
Qed.

Section flow_ok.
Context `{lib : Library} `{dec : Decoding}.

Lemma grows_upd_scope_with R f w : grows R w (upd_scope_with f w).
Proof. apply grows_same_tree; [apply same_tree_scopes|done]. Qed.

Lemma grows_new_child_scope R i w : grows R w (new_child_scope i w).1.
Proof.
  unfold new_child_scope. destruct (NewScope _ _) as [h v]. cbn [fst].
  etrans; [|apply grows_set_var]. apply grows_same_tree; [apply same_tree_scopes|done].
Qed.

Lemma ctx_NewTask_ok i opts vars w :
  sched_wf w -> is_Some (taskStateMap w !! i) ->
  grows no_task_at w (ctx_NewTask i opts vars w).1 /\
  forall j, (ctx_NewTask i opts vars w).2 = Ok j -> has_parent (ctx_NewTask i opts vars w).1 j.
Proof.
  intros Hwf Hi. unfold ctx_NewTask. split.
  - apply grows_newTaskState; [|done]. by intros p [= <-].
  - intros j Hj. apply newTaskState_Ok in Hj as (_ & _ & _ & _ & _ & t & Ht & Hp & _); [|done].
    by exists t, i.
Qed.

Lemma create_children_ok i vars n raws w :
  sched_wf w -> is_Some (taskStateMap w !! i) ->
  grows no_task_at w (create_children i vars n raws w).1 /\
  forall tasks, (create_children i vars n raws w).2 = Ok tasks ->
    forall j, j ∈ tasks -> has_parent (create_children i vars n raws w).1 j.
Proof.
  revert n w. induction raws as [|raw raws IH]; intros n w Hwf Hi; cbn [create_children].
  { split; [done|]. intros tasks [= <-] j Hj. by apply elem_of_nil in Hj. }
  destruct (dec_options raw) as [opts|e]; [|by split].
  destruct (ctx_NewTask_ok i opts vars w Hwf Hi) as [Hg Hch].
  destruct (ctx_NewTask i opts vars w) as [w1 [task|e]]; cbn [fst snd] in *; [|by split].
  assert (is_Some (taskStateMap w1 !! i)) as Hi1.
  { destruct Hi as [t Ht]. destruct (gr_task _ _ _ Hg i t Ht) as (? & ? & _). eauto. }
  destruct (IH (S n) w1 (gr_wf _ _ _ Hg Hwf) Hi1) as [Hg2 Hch2].
  destruct (create_children i vars (S n) raws w1) as [w2 r]. cbn [fst snd] in *.
  split; [by etrans|]. intros tasks Htasks j Hj. destruct r as [ts|]; [|done]. injection Htasks as <-.
  apply elem_of_cons in Hj as [->|Hj]; [eapply grows_has_parent; eauto|by eapply Hch2].
Qed.

Lemma run_tasks_init_ok tc i c w :
  sched_wf w -> is_Some (taskStateMap w !! i) ->
  grows no_task_at w (run_tasks_init tc i c w).1 /\
  forall tasks, (run_tasks_init tc i c w).2 = Ok tasks ->
    forall j, j ∈ tasks -> has_parent (run_tasks_init tc i c w).1 j.
Proof.
  intros Hwf Hi. unfold run_tasks_init.
  destruct (rt_NewVariableScope tc); [|by apply create_children_ok].
  pose proof (grows_new_child_scope no_task_at i w) as H1.
  destruct (new_child_scope i w) as [w1 v]. cbn [fst] in H1.
  assert (grows no_task_at w (set_sub_scope (ctx_Outputs i w1) "childScope" v w1)) as H2.
  { etrans; [exact H1|]. apply grows_upd_scope_with. }
  assert (is_Some (taskStateMap (set_sub_scope (ctx_Outputs i w1) "childScope" v w1) !! i)) as Hi1.
  { destruct Hi as [t Ht]. destruct (gr_task _ _ _ H2 i t Ht) as (? & ? & _). eauto. }
  destruct (create_children_ok i (Some v) 0 (rt_Tasks c) _ (gr_wf _ _ _ H2 Hwf) Hi1) as [Hg Hch].
  split; [by etrans|done].
Qed.

Lemma run_tasks_Execute_grows ex c n tasks w :
  exec_ok ex -> sched_wf w -> (forall j, j ∈ tasks -> has_parent w j) ->
  grows no_task_at w (run_tasks_Execute ex c n tasks w).1.
Proof.
  intros Hex. revert n w. induction tasks as [|j tasks IH]; intros n w Hwf Hch;
    cbn [run_tasks_Execute]; [done|].
  assert (grows no_task_at w (ex (rt_StopChildOnResult c) j w).1) as H1.
  { eapply grows_child; [apply Hch, elem_of_cons; by left|by apply Hex]. }
  destruct (ex (rt_StopChildOnResult c) j w) as [w1 err]. cbn [fst] in H1.
  assert (grows no_task_at w (run_tasks_Execute ex c (S n) tasks w1).1) as H2.
  { etrans; [exact H1|]. apply IH; [exact (gr_wf _ _ _ H1 Hwf)|].
    intros k Hk. eapply grows_has_parent; [exact H1|]. apply Hch, elem_of_cons. by right. }
  destruct (rt_ExpectFailure c), (rt_ContinueOnFailure c), err; done.
Qed.

Lemma options_attempt_grows ex i c w :
  exec_ok ex -> sched_wf w -> is_Some (taskStateMap w !! i) ->
  grows no_task_at w (options_attempt ex i c w).1.
Proof.
  intros Hex Hwf Hi. unfold options_attempt.
  destruct (dec_options _) as [opts|e]; [|done].
  destruct (if ro_NewVariableScope c then _ else _) as [w1 v] eqn:Hs.
  assert (grows no_task_at w w1) as H1.
  { destruct (ro_NewVariableScope c); [|by simplify_eq].
    pose proof (grows_new_child_scope no_task_at i w) as H1.
    destruct (new_child_scope i w) as [w0 v0]. cbn [fst] in H1. injection Hs as <- <-.
    etrans; [exact H1|]. apply grows_upd_scope_with. }
  pose proof (gr_wf _ _ _ H1 Hwf) as Hwf1.
  assert (is_Some (taskStateMap w1 !! i)) as Hi1.
  { destruct Hi as [t Ht]. destruct (gr_task _ _ _ H1 i t Ht) as (? & ? & _). eauto. }
  destruct (ctx_NewTask_ok i opts (Some v) w1 Hwf1 Hi1) as [H2 Hch].
  destruct (ctx_NewTask i opts (Some v) w1) as [w2 [task|e]]; cbn [fst snd] in *; [|by etrans].
  assert (grows no_task_at w2 (ex true task w2).1) as H3.
  { eapply grows_child; [by apply Hch|]. apply Hex. exact (gr_wf _ _ _ H2 Hwf1). }
  destruct (ex true task w2) as [w3 err]. cbn [fst] in *. etrans; [exact H1|]. by etrans.
Qed.

Lemma options_conclude_grows i c b e w : grows no_task_at w (options_conclude i c b e w).1.
Proof.
  unfold options_conclude, ctx_SetResult.
  destruct b, (ro_ExpectFailure c), (ro_IgnoreFailure c), e; try done; apply grows_setTaskResult.
Qed.

Lemma run_task_options_Execute_grows ex i c left w :
  exec_ok ex -> sched_wf w -> is_Some (taskStateMap w !! i) ->
  grows no_task_at w (run_task_options_Execute ex i c left w).1.
Proof.
  intros Hex. revert w. induction left as [|left IH]; intros w Hwf Hi; cbn [run_task_options_Execute];
    pose proof (options_attempt_grows ex i c w Hex Hwf Hi) as H1;
    destruct (options_attempt ex i c w) as [w1 [err|e]]; cbn [fst] in H1; try done.
  - etrans; [exact H1|]. apply options_conclude_grows.
  - assert (forall b, grows no_task_at w (options_conclude i c b err w1).1) as Hc.
    { intros b. etrans; [exact H1|]. apply options_conclude_grows. }
    destruct (ro_RetryOnFailure c); [|apply Hc]. destruct err; [|apply Hc].
    etrans; [exact H1|]. apply IH; [exact (gr_wf _ _ _ H1 Hwf)|].
    destruct Hi as [t Ht]. destruct (gr_task _ _ _ H1 i t Ht) as (? & ? & _). eauto.
Qed.

Context (run_tasks_Unmarshal : value -> run_tasks_Config -> result run_tasks_Config)
  (run_tasks_decode : string -> run_tasks_Config -> result run_tasks_Config)
  (config_value : run_tasks_Config -> value)
  (run_task_options_Unmarshal : value -> run_task_options_Config -> result run_task_options_Config)
  (run_task_options_decode : string -> run_task_options_Config -> result run_task_options_Config)
  (options_value : run_task_options_Config -> value)
  (leaf : string -> Z -> TaskOptions -> result task_instance).

(** The flow tasks keep the scheduler's contract.  Whatever the decoders
    yield, [run_tasks] and [run_task_options] load and execute by creating and
    running only children of their own, so together with leaf tasks that touch
    no other task they form a registry for which the theorems on [ExecuteTask]
    and [RunTasks] hold, at every nesting depth. *)
Theorem flow_registry_ok :
  (forall name i opts LoadConfig, leaf name i opts = Ok LoadConfig -> instance_ok i LoadConfig) ->
  registry_ok (flow_registry run_tasks_Unmarshal run_tasks_decode config_value
    run_task_options_Unmarshal run_task_options_decode options_value leaf).
Proof.
  intros Hleaf ex i opts LoadConfig Hex HN. unfold flow_registry in HN.
  destruct (GetTaskDescriptor _) as [d|]; [|done].
  destruct (String.eqb (desc_Name d) "run_tasks").
  { injection HN as <-. intros w t Hwf Ht. unfold run_tasks_NewTask.
    destruct (load_config _ _ _ _ _ _ _ _) as [c|e]; [|by split].
    destruct (run_tasks_init_ok run_tasks_zeroConfig i c w Hwf ltac:(by eexists)) as [Hg Hch].
    destruct (run_tasks_init _ i c w) as [w1 [tasks|e]]; cbn [fst snd] in *; [|by split].
    split; [done|]. intros inst [= <-] w' Hg' Hwf'. apply run_tasks_Execute_grows; [done..|].
    intros j Hj. eapply grows_has_parent; [exact Hg'|]. by eapply Hch. }
  destruct (String.eqb (desc_Name d) "run_task_options"); [|by eapply Hleaf].
  injection HN as <-. intros w t Hwf Ht. unfold run_task_options_NewTask.
  destruct (load_config _ _ _ _ _ _ _ _) as [c|e]; [|by split].
  split; [done|]. intros inst [= <-] w' Hg' Hwf'. cbn [fst] in Hg'.
  apply run_task_options_Execute_grows; [done..|].
  destruct (gr_task _ _ _ Hg' i t Ht) as (? & ? & _). eauto.
Qed.
End flow_ok.

(** ** Functional behaviour of run_tasks and run_task_options *)

(** The children run one after the other, with the error each returned. *)
Fixpoint run_children (ex : bool -> Z -> TaskScheduler -> TaskScheduler * option error)
    (watch : bool) (tasks : list Z) (w : TaskScheduler) : TaskScheduler * list (option error) :=
  match tasks with
  | [] => (w, [])
  | task :: tasks =>
      let '(w, err) := ex watch task w in
      let '(w, errs) := run_children ex watch tasks w in
      (w, err :: errs)
  end.

(** Whether the configuration lets [run_tasks] go on after this child. *)
Definition accepts (c : run_tasks_Config) (err : option error) : bool :=
  match err with
  | Some _ => rt_ExpectFailure c || rt_ContinueOnFailure c
  | None => negb (rt_ExpectFailure c)
  end.

(** [run_tasks] runs its children in order up to and including the first
    whose outcome the configuration does not accept (a success under
    [expectFailure], a failure by default, none under [continueOnFailure]), and
    returns an error exactly when there is such a child. *)
Theorem run_tasks_Execute_spec ex c n tasks w :
  exists k, (k <= length tasks)%nat /\
    let r := run_children ex (rt_StopChildOnResult c) (take k tasks) w in
    (run_tasks_Execute ex c n tasks w).1 = r.1 /\
    match (run_tasks_Execute ex c n tasks w).2 with
    | Returned None => k = length tasks /\ forallb (accepts c) r.2 = true
    | Returned (Some _) => exists errs err, r.2 = errs ++ [err] /\
        forallb (accepts c) errs = true /\ accepts c err = false
    | Panicked _ => False
    end.
Proof.
  revert n w. induction tasks as [|j tasks IH]; intros n w.
  { exists 0%nat. by simpl. }
  cbn [run_tasks_Execute]. destruct (ex (rt_StopChildOnResult c) j w) as [w1 err] eqn:Hex.
  destruct (accepts c err) eqn:Hacc.
  - destruct (IH (S n) w1) as (k & Hk & Hw & Hout). exists (S k). split; [simpl; lia|].
    cbn [take run_children]. rewrite Hex.
    match goal with |- context [if rt_ExpectFailure c then ?a else ?b] =>
      assert ((if rt_ExpectFailure c then a else b) = run_tasks_Execute ex c (S n) tasks w1) as -> end.
    { unfold accepts in Hacc. destruct (rt_ExpectFailure c), (rt_ContinueOnFailure c), err; done. }
    destruct (run_children ex (rt_StopChildOnResult c) (take k tasks) w1) as [w2 errs].
    cbn [fst snd] in *. split; [done|]. destruct (run_tasks_Execute ex c (S n) tasks w1).2 as [[e|]|]; [| |done].
    + destruct Hout as (es & er & -> & Hes & Her). exists (err :: es), er. simpl. by rewrite Hacc, Hes.
    + destruct Hout as [-> Hes]. simpl. by rewrite Hacc, Hes.
  - exists 1%nat. split; [simpl; lia|]. cbn [take run_children]. rewrite Hex. cbn [fst snd].
    unfold accepts in Hacc.
    destruct (rt_ExpectFailure c) eqn:He, (rt_ContinueOnFailure c) eqn:Hc, err as [e|]; try done; simpl;
      (split; [done|]); eexists [], _; (split; [done|]); (split; [done|]); simpl; by rewrite He, ?Hc.
Qed.

(** The [newVariableScope] option of [run_tasks] has no effect: the option
    is read before the loaded configuration is stored, so the children share
    the variables of the task and no child scope is published, whatever the
    configuration says. *)
Theorem run_tasks_scope_option_ignored `{lib : Library} `{dec : Decoding} Unmarshal decode cv ex i opts w :
  (forall b1 b2 raws s e f, run_tasks_init run_tasks_zeroConfig i (mkRunTasksConfig raws s e f b1) w
     = run_tasks_init run_tasks_zeroConfig i (mkRunTasksConfig raws s e f b2) w) /\
  (forall c, load_config "run_tasks" run_tasks_DefaultConfig Unmarshal decode run_tasks_Validate i opts w = Ok c ->
     (run_tasks_NewTask Unmarshal decode cv ex i opts w).1 = (create_children i None 0 (rt_Tasks c) w).1).
Proof.
  split; [done|]. intros c Hc. unfold run_tasks_NewTask. rewrite Hc. unfold run_tasks_init. simpl.
  by destruct (create_children _ _ _ _ _).
Qed.

(** [n] failed attempts in a row, from [w] to [w']. *)
Inductive failed_attempts `{lib : Library} `{dec : Decoding} ex i c : nat -> TaskScheduler -> TaskScheduler -> Prop :=
  | fa_none w : failed_attempts ex i c 0 w w
  | fa_step n w w1 w2 e :
      options_attempt ex i c w = (w1, Ok (Some e)) -> failed_attempts ex i c n w1 w2 ->
      failed_attempts ex i c (S n) w w2.

(** Retries are bounded.  With [retryOnFailure] the child is created and
    executed afresh until it succeeds, at most [maxRetryCount + 1] times; the
    attempts before the last all failed, and without the option there is
    exactly one attempt. *)
Theorem run_task_options_retries `{lib : Library} `{dec : Decoding} ex i c left w :
  exists n w1 w2 r, (n <= left)%nat /\ (ro_RetryOnFailure c = false -> n = 0%nat) /\
    failed_attempts ex i c n w w1 /\ options_attempt ex i c w1 = (w2, r) /\
    match r with
    | Err e => run_task_options_Execute ex i c left w = (w2, Returned (Some e))
    | Ok err =>
        run_task_options_Execute ex i c left w =
          options_conclude i c (ro_RetryOnFailure c && (n <? left)%nat) err w2 /\
        (ro_RetryOnFailure c = true -> (n < left)%nat -> err = None)
    end.
Proof.
  revert w. induction left as [|left IH]; intros w; cbn [run_task_options_Execute];
    destruct (options_attempt ex i c w) as [w1 r] eqn:Ha.
  { exists 0%nat, w, w1, r. split_and!; auto; [apply fa_none|]. destruct r; [|done].
    rewrite andb_false_r. split; [done|lia]. }
  destruct r as [err|e].
  - destruct (ro_RetryOnFailure c) eqn:Hr; cycle 1.
    { exists 0%nat, w, w1, (Ok err). split_and!; auto; [lia|apply fa_none|done]. }
    destruct err as [e|].
    + destruct (IH w1) as (n & w2 & w3 & r & Hn & Hno & Hf & Hat & Hr').
      exists (S n), w2, w3, r. split; [lia|]. split; [done|].
      split; [by eapply fa_step|]. split; [done|]. destruct r as [err|]; [|done].
      destruct Hr' as [-> Hs]. rewrite ?Hr in Hs; rewrite ?Hr. split; [done|]. intros _ Hlt. apply Hs; [done|lia].
    + exists 0%nat, w, w1, (Ok None). split_and!; try done; [lia|apply fa_none].
  - exists 0%nat, w, w1, (Err e). split_and!; try done; [lia|apply fa_none].
Qed.

(** [retryOnFailure] hides [expectFailure]: when a retry is still
    available and the first attempt succeeds, the task returns success and sets
    no failure result although the child was expected to fail; without
    [retryOnFailure] the same child makes the task fail. *)
Theorem run_task_options_retry_hides_expectFailure `{lib : Library} `{dec : Decoding} ex i c left w w1 :
  ro_ExpectFailure c = true -> options_attempt ex i c w = (w1, Ok None) ->
  run_task_options_Execute ex i c (S left) w =
    if ro_RetryOnFailure c then (w1, Returned None)
    else (ctx_SetResult i TaskResultFailure w1,
          Returned (Some "child task succeeded, but should have failed"%string)).
Proof.
  intros He Ha. cbn [run_task_options_Execute]. rewrite Ha. unfold options_conclude.
  rewrite He. by destruct (ro_RetryOnFailure c).
Qed.

(** ** run_tasks_concurrent and run_task_matrix *)

Record concurrent_Config := mkConcurrentConfig {
  cc_SucceedTaskCount : Z;
  cc_FailTaskCount : Z;
  cc_FailOnUndecided : bool;
  cc_NewVariableScope : bool;
  cc_Tasks : list value
}.

Definition concurrent_DefaultConfig : concurrent_Config := mkConcurrentConfig 0 1 false true [].

Definition concurrent_Validate (c : concurrent_Config) : option error :=
  match cc_Tasks c with [] => Some "at least one task must be specified"%string | _ => None end.

Record matrix_Config := mkMatrixConfig {
  mc_RunConcurrent : bool;
  mc_SucceedTaskCount : Z;
  mc_FailTaskCount : Z;
  mc_FailOnUndecided : bool;
  mc_MatrixValues : list value;
  mc_MatrixVar : string;
  mc_Task : option value
}.

Definition matrix_DefaultConfig : matrix_Config := mkMatrixConfig false 0 0 true [] "" None.

Section concurrent.
Context `{lib : Library} `{dec : Decoding}.

(** One child of either task: its options, its scope and its registration
    under the index [n] in [childScopes]. *)
Definition create_scoped_child (i : Z) (childScopes : Variables_ref) (n : nat) (raw : value)
    (taskVars : Variables_ref) (w : TaskScheduler) : TaskScheduler * result Z :=
  match dec_options raw with
  | Err e => (w, Err ("failed parsing child task config #" ++ pretty n ++ " : " ++ e))
  | Ok opts =>
      let '(w, r) := ctx_NewTask i opts (Some taskVars) w in
      match r with
      | Err e => (w, Err ("failed initializing child task #" ++ pretty n ++ " : " ++ e))
      | Ok task => (set_sub_scope childScopes (pretty n) (NewScopeFilter taskVars) w, Ok task)
      end
  end%string.

(** Lines 79-112 of run_tasks_concurrent's [LoadConfig]. *)
Fixpoint concurrent_children (i : Z) (childScopes : Variables_ref) (newScope : bool) (n : nat)
    (raws : list value) (w : TaskScheduler) : TaskScheduler * result (list Z) :=
  match raws with
  | [] => (w, Ok [])
  | raw :: raws =>
      let '(w, v) := if newScope then new_child_scope i w else (w, ctx_Vars i w) in
      let '(w, r) := create_scoped_child i childScopes n raw v w in
      match r with
      | Err e => (w, Err e)
      | Ok task =>
          let '(w, r) := concurrent_children i childScopes newScope (S n) raws w in
          (w, match r with Err e => Err e | Ok tasks => Ok (task :: tasks) end)
      end
  end.

Definition concurrent_init (i : Z) (c : concurrent_Config) (w : TaskScheduler)
    : TaskScheduler * result (list Z) :=
  let '(h, childScopes) := NewVariables None (scopes w) in
  let '(w, r) := concurrent_children i childScopes (cc_NewVariableScope c) 0 (cc_Tasks c) (upd_scopes h w) in
  match r with
  | Err e => (w, Err e)
  | Ok tasks =>
      (if cc_NewVariableScope c then set_sub_scope (ctx_Outputs i w) "childScopes" childScopes w else w,
       Ok tasks)
  end.

(** Lines 79-109 of run_task_matrix's [LoadConfig]. *)
Fixpoint matrix_children (i : Z) (childScopes : Variables_ref) (c : matrix_Config) (n : nat)
    (vals : list value) (w : TaskScheduler) : TaskScheduler * result (list Z) :=
  match vals with
  | [] => (w, Ok [])
  | val :: vals =>
      let '(w, v) := new_child_scope i w in
      let w := if String.eqb (mc_MatrixVar c) "" then w else set_var v (mc_MatrixVar c) val w in
      let '(w, r) := create_scoped_child i childScopes n (default VNil (mc_Task c)) v w in
      match r with
      | Err e => (w, Err e)
      | Ok task =>
          let '(w, r) := matrix_children i childScopes c (S n) vals w in
          (w, match r with Err e => Err e | Ok tasks => Ok (task :: tasks) end)
      end
  end.

Definition matrix_init (i : Z) (c : matrix_Config) (w : TaskScheduler)
    : TaskScheduler * result (list Z) :=
  let '(h, childScopes) := NewVariables None (scopes w) in
  let '(w, r) := matrix_children i childScopes c 0 (mc_MatrixValues c) (upd_scopes h w) in
  match r with
  | Err e => (w, Err e)
  | Ok tasks => (set_sub_scope (ctx_Outputs i w) "childScopes" childScopes w, Ok tasks)
  end.
End concurrent.

(** What the main loop of [Execute] selects on, in the order it happens. *)
Inductive child_event :=
  | ResultUpdate (task : Z) (result : TaskResult)
  | AllComplete
  | CtxDone (e : error).

Definition task_result_of (rm : gmap Z TaskResult) (task : Z) : TaskResult :=
  default TaskResultNone (rm !! task).

(** [for _, task := range t.tasks { switch resultMap[task] { .. } }] *)
Definition count_results (r : TaskResult) (rm : gmap Z TaskResult) (tasks : list Z) : Z :=
  Z.of_nat (length (filterb (fun t => bool_decide (task_result_of rm t = r)) tasks)).

(** A limit of zero stands for all tasks. *)
Definition limit_or_all (limit : Z) (tasks : list Z) : Z :=
  if limit =? 0 then Z.of_nat (length tasks) else limit.

(** Lines 165-219: [None] while the loop still waits, else the result the task
    sets or the context error it returns. *)
Fixpoint collect_results (successLimit failureLimit : Z) (undecided : TaskResult) (tasks : list Z)
    (resultMap : gmap Z TaskResult) (events : list child_event) : option (result TaskResult) :=
  match events with
  | [] => None
  | CtxDone e :: _ => Some (Err e)
  | AllComplete :: _ => Some (Ok undecided)
  | ResultUpdate task res :: events =>
      let resultMap := <[task := res]> resultMap in
      if successLimit <=? count_results TaskResultSuccess resultMap tasks then Some (Ok TaskResultSuccess)
      else if failureLimit <=? count_results TaskResultFailure resultMap tasks then Some (Ok TaskResultFailure)
      else collect_results successLimit failureLimit undecided tasks resultMap events
  end.

Definition concurrent_verdict (c : concurrent_Config) (tasks : list Z) (events : list child_event)
    : option (result TaskResult) :=
  collect_results (limit_or_all (cc_SucceedTaskCount c) tasks) (limit_or_all (cc_FailTaskCount c) tasks)
    (if cc_FailOnUndecided c then TaskResultFailure else TaskResultSuccess) tasks ∅ events.

Definition matrix_verdict (c : matrix_Config) (tasks : list Z) (events : list child_event)
    : option (result TaskResult) :=
  collect_results (limit_or_all (mc_SucceedTaskCount c) tasks) (limit_or_all (mc_FailTaskCount c) tasks)
    (if mc_FailOnUndecided c && bool_decide (0 < length tasks)%nat then TaskResultFailure
     else TaskResultSuccess) tasks ∅ events.

(** ** run_task_background *)

Record background_Config := mkBackgroundConfig {
  bc_ForegroundTask : option value;
  bc_BackgroundTask : option value;
  bc_ExitOnForegroundSuccess : bool;
  bc_ExitOnForegroundFailure : bool;
  bc_OnBackgroundComplete : string;
  bc_NewVariableScope : bool
}.

Section background.
Context `{lib : Library} `{dec : Decoding}.

(** Lines 78-113: the background task (0 when there is none) and the
    foreground task. *)
Definition background_init (i : Z) (c : background_Config) (w : TaskScheduler)
    : TaskScheduler * result (Z * Z) :=
  let '(w, bg) :=
    match bc_BackgroundTask c with
    | None => (w, Ok 0)
    | Some raw =>
        match dec_options raw with
        | Err e => (w, Err ("failed parsing background task config: " ++ e))
        | Ok opts =>
            let '(w, v) := new_child_scope i w in
            let w := set_sub_scope (ctx_Outputs i w) "backgroundScope" (NewScopeFilter v) w in
            let '(w, r) := ctx_NewTask i opts (Some v) w in
            (w, match r with Err e => Err ("failed initializing background task: " ++ e) | Ok t => Ok t end)
        end
    end in
  match bg with
  | Err e => (w, Err e)
  | Ok bg =>
      match dec_options (default VNil (bc_ForegroundTask c)) with
      | Err e => (w, Err ("failed parsing foreground task config: " ++ e))
      | Ok opts =>
          let '(w, v) :=
            if bc_NewVariableScope c then
              let '(w, v) := new_child_scope i w in
              (set_sub_scope (ctx_Outputs i w) "foregroundScope" (NewScopeFilter v) w, v)
            else (w, ctx_Vars i w) in
          let '(w, r) := ctx_NewTask i opts (Some v) w in
          (w, match r with
              | Err e => Err ("failed initializing foreground task: " ++ e)
              | Ok fg => Ok (bg, fg)
              end)
      end
  end%string.
End background.

(** What the two goroutines observe, in order: the background task ends (with
    its context alive or not), the foreground result changes, the foreground
    task ends. *)
Inductive background_event :=
  | BackgroundDone (ctxErr : bool) (res : TaskResult)
  | ForegroundUpdate (res : TaskResult) (err : option error)
  | ForegroundDone (res : TaskResult) (err : option error).

(** The [completeWithResult] call an event leads to, if any. *)
Definition completion (c : background_Config) (ev : background_event)
    : option (TaskResult * option error) :=
  match ev with
  | BackgroundDone true _ => None
  | BackgroundDone false res =>
      if String.eqb (bc_OnBackgroundComplete c) "fail"
      then Some (TaskResultFailure, Some "background task completed unexpectedly")
      else if String.eqb (bc_OnBackgroundComplete c) "success" || String.eqb (bc_OnBackgroundComplete c) "succeed"
      then Some (TaskResultSuccess, None)
      else if String.eqb (bc_OnBackgroundComplete c) "failOrIgnore" && bool_decide (res = TaskResultFailure)
      then Some (TaskResultFailure, Some "background task completed with failure")
      else None
  | ForegroundUpdate res err =>
      if bc_ExitOnForegroundSuccess c && bool_decide (res = TaskResultSuccess) then Some (TaskResultSuccess, None)
      else if bc_ExitOnForegroundFailure c && bool_decide (res = TaskResultFailure) then Some (TaskResultFailure, err)
      else None
  | ForegroundDone res err => Some (res, err)
  end%string.

(** [Execute] takes the first value sent to [resultChan]. *)
Fixpoint background_verdict (c : background_Config) (events : list background_event)
    : option (TaskResult * option error) :=
  match events with
  | [] => None
  | ev :: events =>
      match completion c ev with Some r => Some r | None => background_verdict c events end
  end.

(** ** The verdict of concurrent children *)

(** The number of updates with result [r]. *)
Definition reported (r : TaskResult) (ups : list (Z * TaskResult)) : Z :=
  Z.of_nat (length (filterb (fun u => bool_decide (u.2 = r)) ups)).

Lemma count_results_insert r rm tasks t res :
  NoDup tasks -> t ∈ tasks -> rm !! t = None -> r <> TaskResultNone ->
  count_results r (<[t := res]> rm) tasks =
    count_results r rm tasks + (if decide (res = r) then 1 else 0).
Proof.
  intros Hnd Ht Hrm Hr. unfold count_results.
  assert (forall l, t ∉ l ->
    filterb (fun t' => bool_decide (task_result_of (<[t := res]> rm) t' = r)) l =
    filterb (fun t' => bool_decide (task_result_of rm t' = r)) l) as Hother.
  { intros l. induction l as [|x l IH]; [done|]. intros [Hx Hl]%not_elem_of_cons.
    rewrite !filterb_cons, IH by done. unfold task_result_of. by rewrite lookup_insert_ne by done. }
  induction tasks as [|x l IH]; [by apply elem_of_nil in Ht|].
  apply NoDup_cons in Hnd as [Hx Hnd]. rewrite !filterb_cons.
  apply elem_of_cons in Ht as [->|Ht].
  - rewrite Hother by done.
    assert (task_result_of (<[x:=res]> rm) x = res) as -> by (unfold task_result_of; by rewrite lookup_insert_eq).
    assert (task_result_of rm x = TaskResultNone) as -> by (unfold task_result_of; by rewrite Hrm).
    rewrite (bool_decide_eq_false_2 (TaskResultNone = r)) by congruence.
    case_decide; [rewrite bool_decide_eq_true_2 by done; simpl; lia
                 |rewrite bool_decide_eq_false_2 by done; lia].
  - assert (x <> t) by (intros ->; done). specialize (IH Hnd Ht).
    assert (task_result_of (<[t:=res]> rm) x = task_result_of rm x) as Heq.
    { unfold task_result_of. by rewrite lookup_insert_ne. }
    rewrite Heq. destruct (bool_decide (task_result_of rm x = r)); simpl; [|done].
    case_decide; lia.
Qed.

Lemma count_results_le r1 r2 rm tasks :
  r1 <> r2 -> count_results r1 rm tasks + count_results r2 rm tasks <= Z.of_nat (length tasks).
Proof.
  intros Hne. unfold count_results. induction tasks as [|x l IH]; [done|].
  rewrite !filterb_cons. repeat case_bool_decide; simpl in *; try congruence; lia.
Qed.

Definition update_events (ups : list (Z * TaskResult)) : list child_event :=
  (fun u => ResultUpdate u.1 u.2) <$> ups.

Lemma reported_cons r u ups :
  reported r (u :: ups) = (if decide (u.2 = r) then 1 else 0) + reported r ups.
Proof.
  unfold reported. rewrite filterb_cons. case_decide;
    [rewrite bool_decide_eq_true_2 by done; simpl; lia|by rewrite bool_decide_eq_false_2 by done].
Qed.

Lemma reported_nonneg r ups : 0 <= reported r ups.
Proof. unfold reported. lia. Qed.

Lemma reported_total rm tasks ups :
  NoDup tasks -> NoDup ups.*1 -> (forall u, u ∈ ups -> u.1 ∈ tasks /\ rm !! u.1 = None) ->
  count_results TaskResultSuccess rm tasks + reported TaskResultSuccess ups +
    (count_results TaskResultFailure rm tasks + reported TaskResultFailure ups) <= Z.of_nat (length tasks).
Proof.
  intros Hnd. revert rm. induction ups as [|[t res] ups IH]; intros rm Hnu Hups.
  { unfold reported. simpl. pose proof (count_results_le TaskResultSuccess TaskResultFailure rm tasks ltac:(done)). lia. }
  simpl in Hnu. apply NoDup_cons in Hnu as [Ht Hnu].
  destruct (Hups (t, res)) as [Hin Hrm]; [apply elem_of_cons; by left|]. simpl in *.
  specialize (IH (<[t := res]> rm) Hnu). rewrite !count_results_insert in IH by done.
  rewrite !reported_cons. simpl.
  enough (forall u, u ∈ ups -> u.1 ∈ tasks /\ <[t := res]> rm !! u.1 = None) as H by (specialize (IH H); lia).
  intros u Hu. destruct (Hups u) as [? ?]; [apply elem_of_cons; by right|]. split; [done|].
  rewrite lookup_insert_ne; [done|]. intros ->. apply Ht. by apply list_elem_of_fmap_2.
Qed.

Lemma collect_results_spec sl fl und rm tasks ups :
  NoDup tasks -> NoDup ups.*1 -> (forall u, u ∈ ups -> u.1 ∈ tasks /\ rm !! u.1 = None) ->
  Z.of_nat (length tasks) < sl + fl ->
  count_results TaskResultSuccess rm tasks < sl -> count_results TaskResultFailure rm tasks < fl ->
  collect_results sl fl und tasks rm (update_events ups ++ [AllComplete]) =
    Some (Ok (if sl <=? count_results TaskResultSuccess rm tasks + reported TaskResultSuccess ups
              then TaskResultSuccess
              else if fl <=? count_results TaskResultFailure rm tasks + reported TaskResultFailure ups
              then TaskResultFailure else und)).
Proof.
  intros Hnd. revert rm. induction ups as [|[t res] ups IH]; intros rm Hnu Hups Hlim Hs Hf.
  { unfold reported. simpl. by rewrite !Z.add_0_r, !(proj2 (Z.leb_gt _ _)). }
  pose proof (reported_total rm tasks _ Hnd Hnu Hups) as Htot.
  simpl in Hnu. apply NoDup_cons in Hnu as [Ht Hnu].
  destruct (Hups (t, res)) as [Hin Hrm]; [apply elem_of_cons; by left|]. simpl in Hin, Hrm.
  assert (forall u, u ∈ ups -> u.1 ∈ tasks /\ <[t := res]> rm !! u.1 = None) as Hups'.
  { intros u Hu. destruct (Hups u) as [? ?]; [apply elem_of_cons; by right|]. split; [done|].
    rewrite lookup_insert_ne; [done|]. intros ->. apply Ht. by apply list_elem_of_fmap_2. }
  specialize (IH (<[t := res]> rm) Hnu Hups' Hlim).
  simpl. rewrite !reported_cons, !count_results_insert in * by done. simpl in *.
  pose proof (reported_nonneg TaskResultSuccess ups). pose proof (reported_nonneg TaskResultFailure ups).
  destruct (Z.leb_spec sl (count_results TaskResultSuccess rm tasks +
    (if decide (res = TaskResultSuccess) then 1 else 0))) as [Hsl|Hsl].
  { rewrite (proj2 (Z.leb_le _ _)); [done|lia]. }
  destruct (Z.leb_spec fl (count_results TaskResultFailure rm tasks +
    (if decide (res = TaskResultFailure) then 1 else 0))) as [Hfl|Hfl].
  { rewrite (proj2 (Z.leb_gt _ _)) by lia. rewrite (proj2 (Z.leb_le _ _)); [done|lia]. }
  rewrite (IH Hsl Hfl). by rewrite !Z.add_assoc.
Qed.

(** C8: The verdict of concurrent children does not depend on their timing.
    When the limits cannot both be reached (in particular with the defaults,
    all successes or one failure), and every child reports at most one result
    before all complete, the verdict is success if enough children succeeded,
    else failure if enough failed, else the undecided outcome, in whatever
    order the reports arrive. *)
Theorem concurrent_verdict_order_independent c tasks ups :
  NoDup tasks -> NoDup ups.*1 -> (forall u, u ∈ ups -> u.1 ∈ tasks) ->
  let sl := limit_or_all (cc_SucceedTaskCount c) tasks in
  let fl := limit_or_all (cc_FailTaskCount c) tasks in
  0 < sl -> 0 < fl -> Z.of_nat (length tasks) < sl + fl ->
  concurrent_verdict c tasks (update_events ups ++ [AllComplete]) =
    Some (Ok (if sl <=? reported TaskResultSuccess ups then TaskResultSuccess
              else if fl <=? reported TaskResultFailure ups then TaskResultFailure
              else if cc_FailOnUndecided c then TaskResultFailure else TaskResultSuccess)).
Proof.
  intros Hnd Hnu Hin sl fl Hs Hf Hlim. unfold concurrent_verdict. fold sl fl.
  assert (forall r, r <> TaskResultNone -> count_results r ∅ tasks = 0) as H0.
  { intros r Hr. unfold count_results. clear -Hr. induction tasks as [|x l IH]; [done|].
    rewrite filterb_cons.
    assert (task_result_of ∅ x = TaskResultNone) as -> by (unfold task_result_of; by rewrite lookup_empty).
    by rewrite bool_decide_eq_false_2. }
  rewrite collect_results_spec; rewrite ?H0 by done; try done.
  intros u Hu. split; [by apply Hin|apply lookup_empty].
Qed.

(** [run_task_background] always gets its verdict from the first event that
    completes it, and the end of the foreground task completes it at the
    latest; a background task that was cancelled, or ends under "ignore", has
    no say. *)
Theorem background_verdict_spec c events res err :
  (exists r, background_verdict c (events ++ [ForegroundDone res err]) = Some r) /\
  (Forall (fun ev => exists b r, ev = BackgroundDone b r /\
     (b = true \/ bc_OnBackgroundComplete c = "ignore"%string)) events ->
   background_verdict c (events ++ [ForegroundDone res err]) = Some (res, err)) /\
  (bc_OnBackgroundComplete c = "fail"%string -> forall r rest,
   background_verdict c (BackgroundDone false r :: rest) =
     Some (TaskResultFailure, Some "background task completed unexpectedly"%string)).
Proof.
  split; [|split].
  - induction events as [|ev events [r IH]]; simpl; [by eexists|]. destruct (completion c ev); eauto.
  - induction 1 as [|ev events (b & r & -> & Hb) _ IH]; simpl; [done|].
    destruct Hb as [->|Hb]; simpl; [done|]. by destruct b; simpl; rewrite ?Hb.
  - intros Hc r rest. simpl. by rewrite Hc.
Qed.

(** ** Concrete instances *)

(** Child tasks are written as their names. *)
Definition ex_dec : Decoding :=
  {| dec_options := fun raw => match raw with
                               | VString name => Ok (ex_opts name "")
                               | _ => Err "not a task"%string end |}.

Definition ex_unmarshal (raw : value) (c : run_tasks_Config) : result run_tasks_Config :=
  match raw with
  | VList l => Ok (mkRunTasksConfig l true false false false)
  | _ => Err "not a list"%string
  end.

Definition ex_flow := flow_registry (lib := ex_lib 9) (dec := ex_dec) ex_unmarshal (fun _ c => Ok c)
  (fun _ => VNil) (fun _ c => Ok c) (fun _ c => Ok c) (fun _ => VNil)
  (fun _ _ _ => Ok (ex_instance (Returned None))).

Lemma flow_registry_ok_witness : registry_ok ex_flow.
Proof.
  apply (flow_registry_ok (lib := ex_lib 9) (dec := ex_dec)).
  intros name i opts LoadConfig [= <-]. apply ex_instance_ok.
Defined.

Definition ex_options (retry : bool) : run_task_options_Config :=
  mkRunTaskOptionsConfig (Some (VString "sleep")) false false false true false retry 2 false.

Definition ex_ok (watch : bool) (i : Z) (w : TaskScheduler) : TaskScheduler * option error := (w, None).

Lemma ex_attempt_ok :
  (options_attempt (lib := ex_lib 9) (dec := ex_dec) ex_ok 1 (ex_options true) ex_test).2 = Ok None.
Proof. vm_compute. reflexivity. Qed.

Lemma pair_eta {A B} (p : A * B) y : p.2 = y -> p = (p.1, y).
Proof. destruct p. by intros <-. Qed.

Lemma run_task_options_retry_hides_expectFailure_witness :
  exists w1, run_task_options_Execute (lib := ex_lib 9) (dec := ex_dec) ex_ok 1 (ex_options true) 2 ex_test
    = (w1, Returned None).
Proof.
  exists (options_attempt (lib := ex_lib 9) (dec := ex_dec) ex_ok 1 (ex_options true) ex_test).1.
  exact (run_task_options_retry_hides_expectFailure (lib := ex_lib 9) (dec := ex_dec) ex_ok 1
    (ex_options true) 1 ex_test _ eq_refl (pair_eta _ _ ex_attempt_ok)).
Defined.

Lemma run_tasks_scope_option_ignored_witness :
  let opts := mkTaskOptions "run_tasks" (Some (VList [VString "sleep"])) [] "" 0 "" "" in
  (run_tasks_NewTask (lib := ex_lib 9) (dec := ex_dec) ex_unmarshal (fun _ c => Ok c) (fun _ => VNil)
     ex_ok 1 opts ex_test).1 =
  (create_children (lib := ex_lib 9) (dec := ex_dec) 1 None 0 [VString "sleep"] ex_test).1.
Proof.
  apply (run_tasks_scope_option_ignored (lib := ex_lib 9) (dec := ex_dec) ex_unmarshal (fun _ c => Ok c)
    (fun _ => VNil) ex_ok 1 (mkTaskOptions "run_tasks" (Some (VList [VString "sleep"])) [] "" 0 "" "") ex_test)
    with (c := mkRunTasksConfig [VString "sleep"] true false false false).
  by vm_compute.
Defined.

Lemma concurrent_verdict_order_independent_witness :
  concurrent_verdict (mkConcurrentConfig 0 1 false true []) [4; 5; 6]
    (update_events [(5, TaskResultSuccess); (4, TaskResultFailure)] ++ [AllComplete])
  = Some (Ok TaskResultFailure).
Proof.
  apply (concurrent_verdict_order_independent (mkConcurrentConfig 0 1 false true []) [4; 5; 6]
    [(5, TaskResultSuccess); (4, TaskResultFailure)]); try by vm_compute.
  - apply (bool_decide_unpack _). by vm_compute.
  - apply (bool_decide_unpack _). by vm_compute.
  - apply Forall_forall. apply (bool_decide_unpack _). by vm_compute.
Defined.

Lemma background_verdict_spec_witness :
  background_verdict (mkBackgroundConfig None None false false "fail" false)
    [BackgroundDone false TaskResultSuccess; ForegroundDone TaskResultSuccess None]
  = Some (TaskResultFailure, Some "background task completed unexpectedly"%string).
Proof.
  apply (background_verdict_spec (mkBackgroundConfig None None false false "fail" false) []
    TaskResultSuccess None). reflexivity.
Defined.
