(* ===== verification/BlockIndex.v ===== *)
(** * The block index shared by both block caches

    clients/consensus/blockcache.go and clients/execution/blockcache.go keep
    the same data: a map from slots (block numbers) to the list of the blocks
    seen there, a map from roots (hashes) to blocks and the highest slot, with
    the same code up to names.  It is modelled once, over any kind of block
    that satisfies the interface [BlockLike]; BlockCache.v and ExecClients.v
    give the two kinds.  Blocks are Go pointers: addresses in a store, since
    headers and bodies are filled in after a block entered the maps. *)

From S2P Require Import Prelude.

(** A 32 byte root or hash, read as a number. *)
Definition Root := N.
Bind Scope N_scope with Root.

(** What the index needs of a block: the two fields that never change after
    creation, the parent once the header (execution: the body) is known, and
    the block literal of [AddBlock]. *)
Class BlockLike (B : Type) := {
  blk_root : B -> Root;
  blk_slot : B -> Z;
  blk_parent : B -> option Root;
  blk_new : Root -> Z -> B;
  blk_root_new : forall r s, blk_root (blk_new r s) = r;
  blk_slot_new : forall r s, blk_slot (blk_new r s) = s
}.

Section index.
Context {B : Type} `{blk : BlockLike B}.

(** [blockHeap] are the [Block] objects by address, [heapNext] the next
    address; the other fields are those of the Go struct. *)
Record BlockIndex := mkBlockIndex {
  blockHeap : gmap nat B;
  heapNext : nat;
  blockSlotMap : gmap Z (list nat);
  blockRootMap : gmap Root nat;
  maxSlotIdx : Z;
  followDistance : Z
}.

Definition NewBlockIndex (follow : Z) : BlockIndex := mkBlockIndex ∅ 0 ∅ ∅ 0 follow.

(** [cache.maxSlotIdx - int64(cache.followDistance)] *)
Definition cutOff (c : BlockIndex) : Z := i64 (maxSlotIdx c - followDistance c).

(** The block, if the slot is not refused, and whether it is new. *)
Definition AddBlock (root : Root) (slot : Z) (c : BlockIndex) : BlockIndex * (option nat * bool) :=
  match blockRootMap c !! root with
  | Some p => (c, (Some p, false))
  | None =>
      if (0 <? cutOff c) && (slot <? u64 (cutOff c)) then (c, (None, false)) else
      let p := heapNext c in
      let slotMap :=
        match blockSlotMap c !! slot with
        | None => <[slot := [p]]> (blockSlotMap c)
        | Some blocks => <[slot := blocks ++ [p]]> (blockSlotMap c)
        end in
      let maxIdx :=
        if (maxSlotIdx c <? 0) || (u64 (maxSlotIdx c) <? slot) then i64 slot else maxSlotIdx c in
      (mkBlockIndex (<[p := blk_new root slot]> (blockHeap c)) (S p) slotMap
         (<[root := p]> (blockRootMap c)) maxIdx (followDistance c), (Some p, true))
  end.

Definition GetCachedBlockByRoot (root : Root) (c : BlockIndex) : option nat := blockRootMap c !! root.

(** A nil slice has no elements. *)
Definition GetCachedBlocksBySlot (slot : Z) (c : BlockIndex) : list nat :=
  default [] (blockSlotMap c !! slot).

Definition GetCachedBlocks `{SliceSort} (c : BlockIndex) : list nat :=
  let slots := slice_sort (fun a b => b <? a) (map_to_list (blockSlotMap c)).*1 in
  slots ≫= (fun slot => GetCachedBlocksBySlot slot c).

(** [for _, block := range blocks { delete(cache.blockRootMap, block.Root) }] *)
Definition delete_roots (h : gmap nat B) (m : gmap Root nat) (blocks : list nat) : gmap Root nat :=
  fold_left (fun m p => match h !! p with Some b => delete (blk_root b) m | None => m end) blocks m.

(** One iteration of the cleanup loop. *)
Definition cleanup_slot (minSlot : Z) (c : BlockIndex) (e : Z * list nat) : BlockIndex :=
  let '(slot, blocks) := e in
  if u64 minSlot <=? slot then c else
  mkBlockIndex (blockHeap c) (heapNext c) (delete slot (blockSlotMap c))
    (delete_roots (blockHeap c) (blockRootMap c) blocks) (maxSlotIdx c) (followDistance c).

Definition cleanupBlockCache (c : BlockIndex) : BlockIndex :=
  if cutOff c <=? 0 then c
  else fold_left (cleanup_slot (cutOff c)) (map_to_list (blockSlotMap c)) c.

(** [SetMinFollowDistance] takes a [uint64]; the stored distance is 32 bits. *)
Definition SetMinFollowDistance (distance : Z) (c : BlockIndex) : BlockIndex :=
  let distance := if 10000 <? distance then 10000 else distance in
  let distance32 := u32 distance in
  if followDistance c <? distance32
  then mkBlockIndex (blockHeap c) (heapNext c) (blockSlotMap c) (blockRootMap c) (maxSlotIdx c) distance32
  else c.

(** Writing through a block pointer: headers, bodies and observers. *)
Definition upd_block (p : nat) (f : B -> B) (c : BlockIndex) : BlockIndex :=
  mkBlockIndex (alter f p (blockHeap c)) (heapNext c) (blockSlotMap c) (blockRootMap c)
    (maxSlotIdx c) (followDistance c).

(** The cached block object with the root. *)
Definition lookup_block (c : BlockIndex) (root : Root) : option B :=
  blockRootMap c !! root ≫= fun p => blockHeap c !! p.

(** The [for headBlock != nil] loop of [GetBlockDistance]; [None] is only
    the exhaustion of the fuel, never an answer of the code. *)
Fixpoint distance_loop (fuel : nat) (c : BlockIndex) (blockRoot : Root) (blockSlot : Z)
    (headRoot : Root) (dist : Z) : option (bool * Z) :=
  match fuel with
  | O => None
  | S fuel =>
      match lookup_block c headRoot with
      | None => Some (false, 0)
      | Some headBlock =>
          if blk_slot headBlock <? blockSlot then Some (false, 0) else
          match blk_parent headBlock with
          | None => Some (false, 0)
          | Some parentRoot =>
              let dist := dist +u 1 in
              if decide (parentRoot = blockRoot) then Some (true, dist)
              else distance_loop fuel c blockRoot blockSlot parentRoot dist
          end
      end
  end.

Definition distance_fuel (c : BlockIndex) : nat := S (size (blockRootMap c)).

Definition GetBlockDistance (blockRoot headRoot : Root) (c : BlockIndex) : option (bool * Z) :=
  if decide (headRoot = blockRoot) then Some (true, 0) else
  match lookup_block c blockRoot with
  | None => Some (false, 0)
  | Some block => distance_loop (distance_fuel c) c blockRoot (blk_slot block) headRoot 0
  end.

Definition IsCanonicalBlock (blockRoot headRoot : Root) (c : BlockIndex) : option bool :=
  fst <$> GetBlockDistance blockRoot headRoot c.

(** ** Well-formedness *)

Record index_wf (c : BlockIndex) : Prop := {
  iwf_root : forall r p, blockRootMap c !! r = Some p ->
    exists b, blockHeap c !! p = Some b /\ blk_root b = r /\
      p ∈ GetCachedBlocksBySlot (blk_slot b) c;
  iwf_slot : forall s ps, blockSlotMap c !! s = Some ps -> ps <> [] /\ NoDup ps /\
    forall p, p ∈ ps -> exists b, blockHeap c !! p = Some b /\ blk_slot b = s /\
      blockRootMap c !! blk_root b = Some p;
  iwf_fresh : forall p, is_Some (blockHeap c !! p) -> (p < heapNext c)%nat;
  iwf_max : 0 <= maxSlotIdx c < two63 /\
    forall s, is_Some (blockSlotMap c !! s) -> 0 <= s <= maxSlotIdx c;
  iwf_follow : 0 <= followDistance c < 4294967296
}.

(** The operations on the index, in any order.  Slots stay below 2^63: the
    code stores the highest one as an [int64]. *)
Inductive index_step : BlockIndex -> BlockIndex -> Prop :=
  | index_add root slot c :
      0 <= slot < two63 -> index_step c (AddBlock root slot c).1
  | index_cleanup c : index_step c (cleanupBlockCache c)
  | index_follow d c : 0 <= d < two64 -> index_step c (SetMinFollowDistance d c)
  | index_update p f c :
      (forall b, blk_root (f b) = blk_root b /\ blk_slot (f b) = blk_slot b) ->
      index_step c (upd_block p f c).

(** ** Lemmas *)

Lemma cutOff_exact c : index_wf c -> cutOff c = maxSlotIdx c - followDistance c.
Proof. intros [_ _ _ [Hm _] Hf]. unfold cutOff. apply i64_id. go_lia. Qed.

(** A slot list entry leads back to its root entry. *)
Lemma elem_of_BySlot c s p :
  index_wf c -> p ∈ GetCachedBlocksBySlot s c ->
  exists b, blockHeap c !! p = Some b /\ blk_slot b = s /\ blockRootMap c !! blk_root b = Some p.
Proof.
  intros Hwf. unfold GetCachedBlocksBySlot.
  destruct (blockSlotMap c !! s) as [ps|] eqn:Hs; simpl; [|set_solver].
  apply (iwf_slot _ Hwf _ _ Hs).
Qed.

Lemma NoDup_BySlot c s : index_wf c -> NoDup (GetCachedBlocksBySlot s c).
Proof.
  intros Hwf. unfold GetCachedBlocksBySlot.
  destruct (blockSlotMap c !! s) as [ps|] eqn:Hs; simpl; [|constructor].
  apply (iwf_slot _ Hwf _ _ Hs).
Qed.

Lemma lookup_block_Some c r b :
  lookup_block c r = Some b <-> exists p, blockRootMap c !! r = Some p /\ blockHeap c !! p = Some b.
Proof. unfold lookup_block. apply bind_Some. Qed.

Lemma lookup_block_wf c r b :
  index_wf c -> lookup_block c r = Some b -> blk_root b = r /\ 0 <= blk_slot b <= maxSlotIdx c.
Proof.
  intros Hwf (p & Hp & Hb)%lookup_block_Some.
  destruct (iwf_root _ Hwf _ _ Hp) as (b' & Hb' & Hr & Hin). simplify_eq.
  split; [done|]. apply (iwf_max _ Hwf). unfold GetCachedBlocksBySlot in Hin.
  destruct (blockSlotMap c !! blk_slot b); [done|set_solver].
Qed.

(** The three outcomes of [AddBlock]. *)
Lemma AddBlock_new root slot c :
  blockRootMap c !! root = None ->
  (0 <? cutOff c) && (slot <? u64 (cutOff c)) = false ->
  let r := AddBlock root slot c in
  r.2 = (Some (heapNext c), true) /\
  blockHeap r.1 = <[heapNext c := blk_new root slot]> (blockHeap c) /\
  heapNext r.1 = S (heapNext c) /\
  blockRootMap r.1 = <[root := heapNext c]> (blockRootMap c) /\
  blockSlotMap r.1 = <[slot := GetCachedBlocksBySlot slot c ++ [heapNext c]]> (blockSlotMap c) /\
  maxSlotIdx r.1 = (if (maxSlotIdx c <? 0) || (u64 (maxSlotIdx c) <? slot) then i64 slot else maxSlotIdx c) /\
  followDistance r.1 = followDistance c.
Proof.
  intros Hr Hc r. subst r. unfold AddBlock. rewrite Hr, Hc. simpl.
  unfold GetCachedBlocksBySlot. by destruct (blockSlotMap c !! slot).
Qed.

Lemma BySlot_update c s s' ps :
  default [] (<[s := ps]> (blockSlotMap c) !! s') = if decide (s = s') then ps else GetCachedBlocksBySlot s' c.
Proof. unfold GetCachedBlocksBySlot. case_decide; [subst; by rewrite lookup_insert_eq|by rewrite lookup_insert_ne]. Qed.

Lemma AddBlock_wf root slot c :
  0 <= slot < two63 -> index_wf c -> index_wf (AddBlock root slot c).1.
Proof.
  intros Hslot Hwf. destruct (blockRootMap c !! root) as [q|] eqn:Hr; [unfold AddBlock; by rewrite Hr|].
  destruct ((0 <? cutOff c) && (slot <? u64 (cutOff c))) eqn:Hc; [unfold AddBlock; by rewrite Hr, Hc|].
  destruct (AddBlock_new root slot c Hr Hc) as (_ & Hheap & Hnext & Hroots & Hslots & Hmax & Hfol).
  set (c' := (AddBlock root slot c).1) in *.
  assert (blockHeap c !! heapNext c = None) as Hfresh.
  { apply eq_None_not_Some. intros Hs%(iwf_fresh _ Hwf). lia. }
  assert (forall s, GetCachedBlocksBySlot s c' = if decide (slot = s)
    then GetCachedBlocksBySlot slot c ++ [heapNext c] else GetCachedBlocksBySlot s c) as Hby.
  { intros s. unfold GetCachedBlocksBySlot at 1. rewrite Hslots. apply BySlot_update. }
  split.
  - intros r p. rewrite Hroots, Hheap. intros [[<- <-]|[Hne Hp]]%lookup_insert_Some.
    + exists (blk_new root slot). rewrite lookup_insert_eq, blk_root_new, blk_slot_new, Hby.
      split; [done|]. split; [done|]. rewrite decide_True by done. set_solver.
    + destruct (iwf_root _ Hwf _ _ Hp) as (b & Hb & Hrb & Hin). exists b.
      rewrite lookup_insert_ne by congruence. split; [done|]. split; [done|].
      rewrite Hby. case_decide; [subst; set_solver|done].
  - intros s ps Hs. assert (ps = GetCachedBlocksBySlot s c') as -> by (unfold GetCachedBlocksBySlot; by rewrite Hs).
    assert (forall s p, p ∈ GetCachedBlocksBySlot s c -> exists b, blockHeap c' !! p = Some b /\
      blk_slot b = s /\ blockRootMap c' !! blk_root b = Some p) as Hold.
    { intros s' p Hin. destruct (elem_of_BySlot _ _ _ Hwf Hin) as (b & Hb & Hsb & Hrb).
      exists b. rewrite Hheap, Hroots, lookup_insert_ne by congruence.
      rewrite lookup_insert_ne by congruence. done. }
    rewrite Hby. rewrite Hslots in Hs. case_decide; [subst s|].
    + split; [by intros []%app_nil|]. split.
      * apply NoDup_app. split; [by apply NoDup_BySlot|]. split; [|apply NoDup_singleton].
        intros p Hin ->%list_elem_of_singleton.
        destruct (elem_of_BySlot _ _ _ Hwf Hin) as (b & Hb & _). congruence.
      * intros p [Hin| ->%list_elem_of_singleton]%elem_of_app; [by apply Hold|].
        exists (blk_new root slot). rewrite Hheap, Hroots, blk_root_new, !lookup_insert_eq, blk_slot_new. done.
    + rewrite lookup_insert_ne in Hs by done. destruct (iwf_slot _ Hwf _ _ Hs) as (Hne & Hnd & _).
      unfold GetCachedBlocksBySlot. rewrite Hs. simpl. split; [done|]. split; [done|].
      intros p Hin. apply Hold. unfold GetCachedBlocksBySlot. by rewrite Hs.
  - intros p. rewrite Hheap, Hnext. destruct (decide (p = heapNext c)) as [->|]; [lia|].
    rewrite lookup_insert_ne by congruence. intros Hs%(iwf_fresh _ Hwf). lia.
  - pose proof (iwf_max _ Hwf) as [Hm Hs]. rewrite Hmax, Hslots.
    assert (u64 (maxSlotIdx c) = maxSlotIdx c) as -> by (apply u64_id; go_lia).
    assert (i64 slot = slot) as -> by (apply i64_id; go_lia).
    split.
    + destruct (maxSlotIdx c <? 0) eqn:?, (maxSlotIdx c <? slot) eqn:?; simpl; lia.
    + intros s. destruct (decide (s = slot)) as [->|].
      * intros _. destruct (maxSlotIdx c <? 0) eqn:?, (maxSlotIdx c <? slot) eqn:?; simpl; lia.
      * rewrite lookup_insert_ne by done. intros Hss%Hs.
        destruct (maxSlotIdx c <? 0) eqn:?, (maxSlotIdx c <? slot) eqn:?; simpl; lia.
  - rewrite Hfol. apply (iwf_follow _ Hwf).
Qed.

Lemma upd_block_wf p f c :
  (forall b, blk_root (f b) = blk_root b /\ blk_slot (f b) = blk_slot b) ->
  index_wf c -> index_wf (upd_block p f c).
Proof.
  intros Hf Hwf.
  assert (forall q b, blockHeap c !! q = Some b -> exists b', blockHeap (upd_block p f c) !! q = Some b' /\
    blk_root b' = blk_root b /\ blk_slot b' = blk_slot b) as Hheap.
  { intros q b Hb. simpl. destruct (decide (p = q)) as [->|].
    - rewrite lookup_alter_eq, Hb. exists (f b). split; [done|apply Hf].
    - rewrite lookup_alter_ne by done. eauto. }
  split; try apply Hwf.
  - intros r q Hq. destruct (iwf_root _ Hwf r q Hq) as (b & Hb & Hr & Hin).
    destruct (Hheap _ _ Hb) as (b' & Hb' & Hr' & Hs'). exists b'. rewrite Hr', Hs'. done.
  - intros s ps Hs. destruct (iwf_slot _ Hwf s ps Hs) as (? & ? & Hall). split; [done|]. split; [done|].
    intros q Hq. destruct (Hall q Hq) as (b & Hb & Hsb & Hr).
    destruct (Hheap _ _ Hb) as (b' & Hb' & Hr' & Hs'). exists b'. rewrite Hr', Hs'. done.
  - intros q. simpl. rewrite lookup_alter_is_Some. apply (iwf_fresh _ Hwf).
Qed.

Lemma SetMinFollowDistance_wf d c : 0 <= d < two64 -> index_wf c -> index_wf (SetMinFollowDistance d c).
Proof.
  intros Hd Hwf. unfold SetMinFollowDistance.
  set (d' := if 10000 <? d then 10000 else d).
  destruct (followDistance c <? u32 d'); [|done]. split; try apply Hwf. simpl.
  unfold u32. apply Z.mod_pos_bound. lia.
Qed.

(** *** Cleanup *)

Lemma delete_roots_lookup h m l r p :
  delete_roots h m l !! r = Some p <->
  m !! r = Some p /\ forall q b, q ∈ l -> h !! q = Some b -> blk_root b <> r.
Proof.
  unfold delete_roots. revert m. induction l as [|q l IH]; intros m; simpl.
  { split; [intros; split; [done|set_solver]|tauto]. }
  rewrite IH. destruct (h !! q) as [b|] eqn:Hq.
  - rewrite lookup_delete_Some. split.
    + intros [[Hne Hm] Hl]. split; [done|]. intros q' b' [->|]%elem_of_cons ?; [congruence|eauto].
    + intros [Hm Hl]. split; [split; [|done]|]; [eapply Hl; [apply elem_of_cons; by left|done]|].
      intros q' b' ? ?. eapply Hl; [apply elem_of_cons; by right|done].
  - split; intros [Hm Hl]; (split; [done|]); intros q' b' Hin ?.
    + apply elem_of_cons in Hin as [->|]; [congruence|eauto].
    + eapply Hl; [apply elem_of_cons; by right|done].
Qed.

(** The entry is dropped by a cleanup with the limit. *)
Definition stale (minSlot : Z) (l : list (Z * list nat)) (s : Z) (ps : list nat) : Prop :=
  (s, ps) ∈ l /\ s < u64 minSlot.

Lemma cleanup_fold minSlot l c :
  let c' := fold_left (cleanup_slot minSlot) l c in
  blockHeap c' = blockHeap c /\ heapNext c' = heapNext c /\ maxSlotIdx c' = maxSlotIdx c /\
  followDistance c' = followDistance c /\
  (forall s ps, blockSlotMap c' !! s = Some ps <->
    blockSlotMap c !! s = Some ps /\ forall ps', ~ stale minSlot l s ps') /\
  (forall r p, blockRootMap c' !! r = Some p <->
    blockRootMap c !! r = Some p /\ forall s ps q b, stale minSlot l s ps -> q ∈ ps ->
      blockHeap c !! q = Some b -> blk_root b <> r).
Proof.
  revert c. induction l as [|[s0 ps0] l IH]; intros c c'; subst c'; cbn [fold_left].
  { do 4 (split; [done|]). unfold stale. split; intros; split; try tauto; intros; try split; set_solver. }
  destruct (IH (cleanup_slot minSlot c (s0, ps0))) as (-> & -> & -> & -> & Hs & Hr). clear IH.
  assert (forall s ps, stale minSlot ((s0, ps0) :: l) s ps <->
    (s = s0 /\ ps = ps0 /\ s0 < u64 minSlot) \/ stale minSlot l s ps) as Hst.
  { intros s ps. unfold stale. rewrite elem_of_cons. naive_solver. }
  unfold cleanup_slot in *. destruct (u64 minSlot <=? s0) eqn:Hle.
  - do 4 (split; [done|]). setoid_rewrite Hst. split.
    + intros s ps. rewrite Hs. split; intros [? Hl]; (split; [done|]); [|naive_solver].
      intros ps' [(-> & _ & ?)|?]; [lia|naive_solver].
    + intros r p. rewrite Hr. split; intros [? Hl]; (split; [done|]); [|naive_solver].
      intros s ps q b [(-> & _ & ?)|?]; [lia|naive_solver].
  - simpl in *. do 4 (split; [done|]). setoid_rewrite Hst. split.
    + intros s ps. rewrite Hs, lookup_delete_Some. split.
      * intros [[Hne ?] Hl]. split; [done|]. naive_solver.
      * intros [? Hl]. split; [split; [|done]|naive_solver].
        intros <-. eapply Hl. left. split_and!; [done..|lia].
    + intros r p. rewrite Hr, delete_roots_lookup. split.
      * intros [[? Hd] Hl]. split; [done|]. intros s ps q b [(-> & -> & _)|?]; eauto.
      * intros [? Hl]. split; [split; [done|]|]; intros; eapply Hl; eauto.
        left. split_and!; [done..|lia].
Qed.

(** Whether the cleanup drops a slot. *)
Definition below_cutOff (c : BlockIndex) (slot : Z) : bool := (0 <? cutOff c) && (slot <? cutOff c).

Lemma cleanup_lookup c :
  index_wf c ->
  let c' := cleanupBlockCache c in
  blockHeap c' = blockHeap c /\ heapNext c' = heapNext c /\ maxSlotIdx c' = maxSlotIdx c /\
  followDistance c' = followDistance c /\
  (forall s, GetCachedBlocksBySlot s c' = if below_cutOff c s then [] else GetCachedBlocksBySlot s c) /\
  (forall s, is_Some (blockSlotMap c' !! s) <-> is_Some (blockSlotMap c !! s) /\ below_cutOff c s = false) /\
  (forall r p, blockRootMap c' !! r = Some p <-> blockRootMap c !! r = Some p /\
    forall b, blockHeap c !! p = Some b -> below_cutOff c (blk_slot b) = false).
Proof.
  intros Hwf. unfold cleanupBlockCache, below_cutOff.
  destruct (cutOff c <=? 0) eqn:Hcut; simpl.
  { assert (0 <? cutOff c = false) as -> by lia. simpl. naive_solver. }
  assert (0 <? cutOff c = true) as -> by lia. simpl.
  assert (u64 (cutOff c) = cutOff c) as Hu.
  { apply u64_id. rewrite cutOff_exact in * by done. destruct Hwf as [_ _ _ [? _] ?]. go_lia. }
  destruct (cleanup_fold (cutOff c) (map_to_list (blockSlotMap c)) c) as (-> & -> & -> & -> & Hs & Hr).
  unfold stale in Hs, Hr. rewrite Hu in Hs, Hr. do 4 (split; [done|]).
  assert (forall s ps, blockSlotMap (fold_left (cleanup_slot (cutOff c)) (map_to_list (blockSlotMap c)) c) !! s
    = Some ps <-> blockSlotMap c !! s = Some ps /\ (s <? cutOff c) = false) as Hs'.
  { intros s ps. rewrite Hs. setoid_rewrite elem_of_map_to_list. split; intros [Hsome Hl]; (split; [done|]).
    - destruct (s <? cutOff c) eqn:?; [|done]. destruct (Hl ps). split; [done|lia].
    - intros ps' [? ?]. lia. }
  split; [|split].
  - intros s. unfold GetCachedBlocksBySlot.
    destruct (blockSlotMap (fold_left _ _ _) !! s) as [ps|] eqn:Hps.
    + apply Hs' in Hps as [-> ->]. done.
    + destruct (s <? cutOff c) eqn:Hlt; [done|]. destruct (blockSlotMap c !! s) as [ps|] eqn:Hc; [|done].
      assert (blockSlotMap c !! s = Some ps /\ (s <? cutOff c) = false) as Habs%Hs' by done. congruence.
  - intros s. unfold is_Some. setoid_rewrite Hs'. naive_solver.
  - intros r p. rewrite Hr. split; intros [Hp Hl]; (split; [done|]).
    + intros b Hb. destruct (blk_slot b <? cutOff c) eqn:Hlt; [|done]. exfalso.
      destruct (iwf_root _ Hwf _ _ Hp) as (b' & Hb' & Hrb & Hin). simplify_eq.
      unfold GetCachedBlocksBySlot in Hin.
      destruct (blockSlotMap c !! blk_slot b) as [ps|] eqn:Hps; [|set_solver].
      eapply (Hl (blk_slot b) ps p b); [|done..].
      split; [by apply elem_of_map_to_list|lia].
    + intros s ps q b [Hin%elem_of_map_to_list Hlt] Hq Hb Heq.
      destruct (iwf_slot _ Hwf _ _ Hin) as (_ & _ & Hall). destruct (Hall q Hq) as (b' & ? & ? & ?).
      simplify_eq. specialize (Hl b Hb). lia.
Qed.

Lemma cleanup_wf c : index_wf c -> index_wf (cleanupBlockCache c).
Proof.
  intros Hwf. destruct (cleanup_lookup c Hwf) as (Hheap & Hnext & Hmax & Hfol & Hby & Hs & Hr).
  split.
  - intros r p [Hp Hb]%Hr. destruct (iwf_root _ Hwf _ _ Hp) as (b & ? & ? & ?). exists b.
    rewrite Hheap, Hby, (Hb b) by done. done.
  - intros s ps Hps.
    assert (below_cutOff c s = false) as Hlow by (apply Hs; eauto).
    assert (GetCachedBlocksBySlot s (cleanupBlockCache c) = ps) as Hps'.
    { unfold GetCachedBlocksBySlot. by rewrite Hps. }
    rewrite Hby, Hlow in Hps'. assert (is_Some (blockSlotMap c !! s)) as [ps' Hc] by (apply Hs; eauto).
    unfold GetCachedBlocksBySlot in Hps'. rewrite Hc in Hps'. simpl in Hps'. subst ps'.
    destruct (iwf_slot _ Hwf _ _ Hc) as (? & ? & Hall). split; [done|]. split; [done|].
    intros p Hp. destruct (Hall p Hp) as (b & Hb & Hsb & Hrb). exists b.
    rewrite Hheap. split; [done|]. split; [done|]. apply Hr. split; [done|].
    intros b' ?. simplify_eq. done.
  - intros p. rewrite Hheap, Hnext. apply (iwf_fresh _ Hwf).
  - rewrite Hmax. split; [apply (iwf_max _ Hwf)|]. intros s [? _]%Hs. by apply (iwf_max _ Hwf).
  - rewrite Hfol. apply (iwf_follow _ Hwf).
Qed.

Lemma NewBlockIndex_wf f : 0 <= f < 4294967296 -> index_wf (NewBlockIndex f).
Proof.
  intros Hf. split; simpl; [..|done].
  - intros r p. by rewrite lookup_empty.
  - intros s ps. by rewrite lookup_empty.
  - intros p. rewrite lookup_empty. by intros [? ?].
  - split; [done|]. intros s. rewrite lookup_empty. by intros [? ?].
Qed.

Lemma index_step_wf c c' : index_step c c' -> index_wf c -> index_wf c'.
Proof.
  destruct 1; [by apply AddBlock_wf|by apply cleanup_wf|by apply SetMinFollowDistance_wf|by apply upd_block_wf].
Qed.

Lemma index_steps_wf c c' : rtc index_step c c' -> index_wf c -> index_wf c'.
Proof. induction 1; eauto using index_step_wf. Qed.

(** The block that a successful [AddBlock] returns. *)
Lemma AddBlock_cached root slot (c c' : BlockIndex) b new :
  index_wf c -> 0 <= slot < two63 -> AddBlock root slot c = (c', (Some b, new)) ->
  exists bl, blockHeap c' !! b = Some bl /\ blk_root bl = root /\ blockRootMap c' !! root = Some b /\
    new = bool_decide (blockRootMap c !! root = None) /\ (new = true -> bl = blk_new root slot).
Proof.
  intros Hwf Hs Hadd. pose proof (AddBlock_wf root slot c Hs Hwf) as Hwf'. rewrite Hadd in Hwf'. simpl in Hwf'.
  assert (blockRootMap c' !! root = Some b /\ new = bool_decide (blockRootMap c !! root = None) /\
    (new = true -> blockHeap c' !! b = Some (blk_new root slot))) as (Hr & Hn & Hnew).
  { unfold AddBlock in Hadd. destruct (blockRootMap c !! root) as [q|] eqn:Hq; [by simplify_eq|].
    destruct (_ && _); simplify_eq. simpl. by rewrite !lookup_insert_eq. }
  destruct (iwf_root _ Hwf' _ _ Hr) as (bl & Hb & Hrb & _). exists bl.
  split; [done|]. split; [done|]. split; [done|]. split; [done|]. intros Ht%Hnew. congruence.
Qed.

(** *** The block lists *)

Lemma StronglySorted_bind {A C} (R : A -> A -> Prop) (S : C -> C -> Prop) (f : A -> list C) l :
  StronglySorted R l -> (forall x, x ∈ l -> StronglySorted S (f x)) ->
  (forall x y a b, x ∈ l -> y ∈ l -> R x y -> a ∈ f x -> b ∈ f y -> S a b) ->
  StronglySorted S (l ≫= f).
Proof.
  induction 1 as [|x l Hs IH Hx]; intros Hf Hc; [constructor|]. rewrite bind_cons.
  assert (StronglySorted S (l ≫= f)) as Htl.
  { apply IH; [set_solver|]. intros ???? ?? . apply Hc; apply elem_of_cons; by right. }
  assert (forall a b, a ∈ f x -> b ∈ l ≫= f -> S a b) as Hab.
  { intros a b Ha (y & Hb & Hy)%list_elem_of_bind. rewrite Forall_forall in Hx.
    apply (Hc x y); [set_solver..|by apply Hx|done|done]. }
  pose proof (Hf x ltac:(set_solver)) as Hhd. clear -Htl Hab Hhd.
  induction Hhd as [|a fx Hs IH Ha]; simpl; [done|]. constructor; [apply IH; set_solver|].
  apply Forall_app. split; [done|]. apply Forall_forall. set_solver.
Qed.

Definition slot_at (c : BlockIndex) (p : nat) : Z := from_option blk_slot 0 (blockHeap c !! p).

Lemma slot_at_BySlot c s p : index_wf c -> p ∈ GetCachedBlocksBySlot s c -> slot_at c p = s.
Proof.
  intros Hwf Hp. destruct (elem_of_BySlot _ _ _ Hwf Hp) as (b & Hb & Hs & _).
  unfold slot_at. by rewrite Hb.
Qed.

Lemma GetCachedBlocks_sound `{SliceSort} c :
  index_wf c ->
  NoDup (GetCachedBlocks c) /\
  StronglySorted (fun p q => slot_at c q <= slot_at c p) (GetCachedBlocks c) /\
  forall p, p ∈ GetCachedBlocks c <-> exists r, blockRootMap c !! r = Some p.
Proof.
  intros Hwf. unfold GetCachedBlocks.
  set (slots := slice_sort _ _).
  assert (slots ≡ₚ (map_to_list (blockSlotMap c)).*1) as Hperm by apply slice_sort_perm.
  split; [|split].
  - apply NoDup_bind.
    + intros s1 s2 p _ _ H1 H2. by rewrite <- (slot_at_BySlot _ _ _ Hwf H1), <- (slot_at_BySlot _ _ _ Hwf H2).
    + intros s _. by apply NoDup_BySlot.
    + rewrite Hperm. apply NoDup_fst_map_to_list.
  - eapply StronglySorted_bind; [apply slice_sort_sorted, (StrictWeakOn_key_gt id)| |].
    + intros s _. assert (forall l, (forall p, p ∈ l -> slot_at c p = s) ->
        StronglySorted (fun p q => slot_at c q <= slot_at c p) l) as Hl.
      { induction l as [|p l IH]; intros Hs; constructor; [apply IH; set_solver|].
        apply Forall_forall. intros q Hq. rewrite !Hs by set_solver. lia. }
      apply Hl. intros p. by apply slot_at_BySlot.
    + intros s t p q _ _ Hlt Hp%slot_at_BySlot Hq%slot_at_BySlot; [|done..].
      rewrite Hp, Hq. simpl in Hlt. lia.
  - intros p. rewrite list_elem_of_bind. split.
    + intros (s & Hp & _). destruct (elem_of_BySlot _ _ _ Hwf Hp) as (b & _ & _ & Hr). eauto.
    + intros [r Hr]. destruct (iwf_root _ Hwf _ _ Hr) as (b & _ & _ & Hin).
      exists (blk_slot b). split; [done|]. rewrite Hperm.
      unfold GetCachedBlocksBySlot in Hin. destruct (blockSlotMap c !! blk_slot b) as [ps|] eqn:Hs; [|set_solver].
      apply list_elem_of_fmap. exists (blk_slot b, ps). split; [done|]. by apply elem_of_map_to_list.
Qed.

(** *** Distances *)

(** [ancestor c n head r]: [r] is reached from [head] by [n] parent links
    of cached blocks. *)
Inductive ancestor (c : BlockIndex) : nat -> Root -> Root -> Prop :=
  | ancestor_self r : ancestor c 0 r r
  | ancestor_parent n head b p r :
      lookup_block c head = Some b -> blk_parent b = Some p -> ancestor c n p r ->
      ancestor c (S n) head r.

(** The rule of the chain: a parent has a lower slot. *)
Definition slots_decrease (c : BlockIndex) : Prop :=
  forall r b p b', lookup_block c r = Some b -> blk_parent b = Some p ->
    lookup_block c p = Some b' -> blk_slot b' < blk_slot b.

Lemma ancestor_trans c n m a b d : ancestor c n a b -> ancestor c m b d -> ancestor c (n + m) a d.
Proof. induction 1; simpl; [done|]. intros. econstructor; eauto. Qed.

(** Two blocks on one chain: one is an ancestor of the other. *)
Lemma ancestor_linear c n m head a b :
  ancestor c n head a -> ancestor c m head b -> (exists k, ancestor c k a b) \/ (exists k, ancestor c k b a).
Proof.
  intros Ha. revert m. induction Ha as [r|n r bl p a Hb Hp Ha IH]; intros m Hm; [eauto|].
  inversion Hm as [|m' ? bl' p' ? Hb' Hp' Hm']; subst.
  - right. exists (S n). by econstructor.
  - simplify_eq. eauto.
Qed.

Lemma ancestor_slot c n head r b br :
  slots_decrease c -> ancestor c (S n) head r -> lookup_block c head = Some b ->
  lookup_block c r = Some br -> blk_slot br < blk_slot b.
Proof.
  intros Hdec. revert head b. induction n as [|n IH]; intros head b Ha Hb Hbr.
  - inversion Ha as [|? ? b0 p ? Hb0 Hp Ha0]; subst. inversion Ha0; subst. simplify_eq. eauto.
  - inversion Ha as [|? ? b0 p ? Hb0 Hp Ha0]; subst. simplify_eq.
    assert (exists bp, lookup_block c p = Some bp) as [bp Hbp] by (inversion Ha0; eauto).
    pose proof (Hdec _ _ _ _ Hb Hp Hbp). pose proof (IH p bp Ha0 Hbp Hbr). lia.
Qed.

Lemma distance_loop_terminates c br bs fuel (X : gset Root) head d :
  slots_decrease c -> X ⊆ dom (blockRootMap c) ->
  (forall r b b', r ∈ X -> lookup_block c r = Some b -> lookup_block c head = Some b' ->
    blk_slot b' < blk_slot b) ->
  (size (dom (blockRootMap c)) < fuel + size X)%nat ->
  is_Some (distance_loop fuel c br bs head d).
Proof.
  intros Hdec. revert X head d. induction fuel as [|fuel IH]; intros X head d Hsub Hlow Hsize; simpl.
  { apply subseteq_size in Hsub. lia. }
  destruct (lookup_block c head) as [b|] eqn:Hb; [|done]. destruct (_ <? _); [done|].
  destruct (blk_parent b) as [p|] eqn:Hp; [|done]. case_decide; [done|].
  assert (head ∉ X) as Hnew by (intros Hin; pose proof (Hlow _ _ _ Hin Hb eq_refl); lia).
  apply (IH ({[head]} ∪ X)).
  - apply lookup_block_Some in Hb as (q & Hq & _).
    apply union_subseteq. split; [|done]. apply singleton_subseteq_l. apply elem_of_dom. eauto.
  - intros r b1 b2 [->%elem_of_singleton|Hr]%elem_of_union Hb1 Hb2.
    + simplify_eq. eauto.
    + pose proof (Hlow _ _ _ Hr Hb1 eq_refl). pose proof (Hdec _ _ _ _ Hb Hp Hb2). lia.
  - rewrite size_union, size_singleton by set_solver. lia.
Qed.

Lemma distance_loop_sound c br bb fuel head d l n :
  slots_decrease c -> lookup_block c br = Some bb -> 0 <= d -> 0 <= blk_slot bb ->
  (forall b, lookup_block c head = Some b -> d + blk_slot b < two63) ->
  distance_loop fuel c br (blk_slot bb) head d = Some (l, n) ->
  if l then exists k, ancestor c (S k) head br /\ n = d + Z.of_nat (S k)
  else n = 0 /\ forall k, ~ ancestor c (S k) head br.
Proof.
  intros Hdec Hbb. revert head d. induction fuel as [|fuel IH]; intros head d Hd Hbb0 Hbound; simpl; [done|].
  destruct (lookup_block c head) as [b|] eqn:Hb; cycle 1.
  { intros [= <- <-]. split; [done|]. intros k Ha. inversion Ha; congruence. }
  destruct (blk_slot b <? blk_slot bb) eqn:Hlt.
  { intros [= <- <-]. split; [done|]. intros k Ha.
    pose proof (ancestor_slot _ _ _ _ _ _ Hdec Ha Hb Hbb). lia. }
  destruct (blk_parent b) as [p|] eqn:Hp; cycle 1.
  { intros [= <- <-]. split; [done|]. intros k Ha. inversion Ha; congruence. }
  pose proof (Hbound b eq_refl) as Hdb.
  assert (d +u 1 = d + 1) as -> by (apply u64_id; go_lia).
  case_decide as Heq; [subst p|].
  { intros [= <- <-]. exists 0%nat. split; [|lia]. econstructor; [done..|constructor]. }
  intros Hl. apply IH in Hl; [|lia|done|].
  - destruct l.
    + destruct Hl as (k & Ha & ->). exists (S k). split; [by econstructor|lia].
    + destruct Hl as [-> Hno]. split; [done|]. intros k Ha. inversion Ha as [|? ? b0 p0 ? Hb0 Hp0 Ha0]; subst.
      simplify_eq. destruct k as [|k]; [inversion Ha0; congruence|by apply (Hno k)].
  - intros b' Hb'. pose proof (Hdec _ _ _ _ Hb Hp Hb'). lia.
Qed.

(** The answer of the code, complete: distance and link are exact. *)
Lemma GetBlockDistance_sound c r head :
  index_wf c -> slots_decrease c ->
  exists l n, GetBlockDistance r head c = Some (l, n) /\
  if l then exists k, ancestor c k head r /\ n = Z.of_nat k /\
    ((k > 0)%nat -> is_Some (lookup_block c r))
  else n = 0 /\ head <> r /\ (is_Some (lookup_block c r) -> forall k, ~ ancestor c k head r).
Proof.
  intros Hwf Hdec. unfold GetBlockDistance. case_decide as Heq; [subst|].
  { exists true, 0. split; [done|]. exists 0%nat. split; [constructor|]. split; [done|lia]. }
  destruct (lookup_block c r) as [bb|] eqn:Hbb; cycle 1.
  { exists false, 0. split; [done|]. split; [done|]. split; [done|]. by intros [? ?]. }
  destruct (lookup_block_wf _ _ _ Hwf Hbb) as [_ [Hs0 Hs1]].
  destruct (distance_loop_terminates c r (blk_slot bb) (distance_fuel c) ∅ head 0) as [[l n] Hl];
    [done|set_solver|set_solver| |].
  { unfold distance_fuel. rewrite size_dom, size_empty. lia. }
  exists l, n. split; [done|]. apply distance_loop_sound in Hl; [|done|done|lia|done|].
  - destruct l.
    + destruct Hl as (k & Ha & ->). exists (S k). eauto.
    + destruct Hl as [-> Hno]. split; [done|]. split; [done|]. intros _ [|k] Ha; [inversion Ha; congruence|by eapply Hno].
  - intros b Hb. destruct (lookup_block_wf _ _ _ Hwf Hb) as [_ ?]. destruct (iwf_max _ Hwf) as [? _]. lia.
Qed.

Lemma GetBlockDistance_true c r head n :
  index_wf c -> slots_decrease c ->
  GetBlockDistance r head c = Some (true, n) <->
  (head = r /\ n = 0) \/ (is_Some (lookup_block c r) /\ exists k, ancestor c (S k) head r /\ n = Z.of_nat (S k)).
Proof.
  intros Hwf Hdec. destruct (GetBlockDistance_sound c r head Hwf Hdec) as (l & m & Heq & Hl).
  rewrite Heq. destruct l; split.
  - intros [= <-]. destruct Hl as (k & Ha & -> & Hk). destruct k as [|k].
    + left. by inversion Ha.
    + right. split; [apply Hk; lia|]. eauto.
  - unfold GetBlockDistance in Heq. intros [[-> ->]|([bb Hbb] & k & Ha & ->)].
    + rewrite decide_True in Heq by done. congruence.
    + destruct Hl as (k' & Ha' & -> & _).
      assert (k' = S k) as ->; [|done].
      assert (forall i j h, ancestor c i h r -> ancestor c j h r -> i = j) as Huniq.
      { induction i as [|i IH]; intros [|j] h Hi Hj; [done| | |].
        - inversion Hi; subst. pose proof (ancestor_slot _ _ _ _ _ _ Hdec Hj Hbb Hbb). lia.
        - inversion Hj; subst. pose proof (ancestor_slot _ _ _ _ _ _ Hdec Hi Hbb Hbb). lia.
        - inversion Hi; inversion Hj; simplify_eq. f_equal. eauto. }
      by eapply Huniq.
  - done.
  - destruct Hl as (-> & Hne & Hno). intros [[-> _]|(Hs & k & Ha & _)]; [done|]. by destruct (Hno Hs (S k)).
Qed.
End index.

Arguments BlockIndex B : clear implicits.

(** ** A concrete kind of block, for the examples *)

Record ex_block := mkExBlock { ex_root : Root; ex_slot : Z; ex_parent : option Root }.

#[export] Program Instance ex_block_like : BlockLike ex_block := {|
  blk_root := ex_root; blk_slot := ex_slot; blk_parent := ex_parent;
  blk_new := fun r s => mkExBlock r s None |}.
Next Obligation. done. Qed.
Next Obligation. done. Qed.

Definition ex_link (parent : Root) (b : ex_block) : ex_block :=
  mkExBlock (ex_root b) (ex_slot b) (Some parent).

(** Roots 1 to 4 at slots 1, 2, 5 and 5; 4 and 3 are children of 2, and 2 of 1. *)
Definition ex_index : BlockIndex ex_block :=
  upd_block 3 (ex_link 2) (AddBlock 4 5 (upd_block 2 (ex_link 2) (AddBlock 3 5
    (upd_block 1 (ex_link 1) (AddBlock 2 2 (AddBlock 1 1 (NewBlockIndex 3)).1).1)).1)).1.

Lemma ex_index_steps : rtc index_step (NewBlockIndex 3) ex_index.
Proof.
  assert (forall r s (c : BlockIndex ex_block), 0 <= s < two63 ->
    index_step c (AddBlock r s c).1) as Hadd by (intros; by apply index_add).
  assert (forall p r (c : BlockIndex ex_block), index_step c (upd_block p (ex_link r) c)) as Hupd
    by (intros; apply index_update; done).
  assert (forall s, 0 <= s <= 5 -> 0 <= s < two63) as Hs by (intros; go_lia).
  unfold ex_index. repeat (eapply rtc_r; [|first [apply Hupd|apply Hadd, Hs; lia]]). constructor.
Qed.

Lemma ex_index_wf : index_wf ex_index.
Proof. eapply index_steps_wf; [apply ex_index_steps|]. apply NewBlockIndex_wf. lia. Qed.

Lemma ex_index_decrease : slots_decrease ex_index.
Proof.
  intros r b p b' (q & _ & Hq)%lookup_block_Some Hp (q' & Hr' & Hq')%lookup_block_Some.
  assert (map_Forall (fun _ b => forall p q b', blk_parent b = Some p -> blockRootMap ex_index !! p = Some q ->
    blockHeap ex_index !! q = Some b' -> blk_slot b' < blk_slot b) (blockHeap ex_index)) as Hall; [|by eapply Hall].
  clear. change (blockHeap ex_index) with
    (<[3%nat := mkExBlock 4 5 (Some 2%N)]> (<[2%nat := mkExBlock 3 5 (Some 2%N)]>
    (<[1%nat := mkExBlock 2 2 (Some 1%N)]> (<[0%nat := mkExBlock 1 1 None]> (∅ : gmap nat ex_block))))).
  repeat (apply map_Forall_insert_2; [|apply map_Forall_empty || idtac]); intros p q b' [= <-] Hp Hb;
    vm_compute in Hp; simplify_eq; vm_compute in Hb; simplify_eq; simpl; lia.
Qed.

(** ** Properties *)

(** C26: In every state that additions, cleanups, changes of the follow
    distance and writes through block pointers can produce, the two maps of
    a block cache describe the same set of blocks: every root leads to a
    block with that root which its slot's list contains, every list is
    non-empty, free of duplicates and leads back to the roots, and no slot is
    above the recorded maximum. *)
Theorem index_wf_reachable {B} `{BlockLike B} follow (c : BlockIndex B) :
  0 <= follow < 4294967296 -> rtc index_step (NewBlockIndex follow) c -> index_wf c.
Proof. intros Hf Hsteps. eapply index_steps_wf; [done|]. by apply NewBlockIndex_wf. Qed.

Lemma index_wf_reachable_witness : index_wf (cleanupBlockCache ex_index).
Proof.
  apply (index_wf_reachable 3); [lia|].
  eapply rtc_r; [apply ex_index_steps|apply index_cleanup].
Defined.

(** [AddBlock] returns the cached block of a known root and changes
    nothing; it refuses a slot more than the follow distance below the
    highest one and changes nothing; otherwise it creates one block with the
    given root and slot at an address never used before, appends it to its
    slot, leaves every other root and slot as it was and raises the maximum
    to the new slot. *)
Theorem AddBlock_outcomes {B} `{BlockLike B} root slot (c : BlockIndex B) :
  index_wf c -> 0 <= slot < two63 ->
  match AddBlock root slot c with
  | (c', (Some p, false)) => c' = c /\ GetCachedBlockByRoot root c = Some p
  | (c', (None, false)) =>
      c' = c /\ GetCachedBlockByRoot root c = None /\ slot < maxSlotIdx c - followDistance c
  | (c', (Some p, true)) =>
      GetCachedBlockByRoot root c = None /\ maxSlotIdx c - followDistance c <= slot /\
      blockHeap c !! p = None /\ GetCachedBlockByRoot root c' = Some p /\
      lookup_block c' root = Some (blk_new root slot) /\
      (forall r, r <> root -> lookup_block c' r = lookup_block c r) /\
      (forall s, GetCachedBlocksBySlot s c' =
        GetCachedBlocksBySlot s c ++ (if decide (s = slot) then [p] else [])) /\
      maxSlotIdx c' = Z.max (maxSlotIdx c) slot
  | (_, (None, true)) => False
  end.
Proof.
  intros Hwf Hslot. pose proof (cutOff_exact c Hwf) as Hcut. destruct (iwf_max _ Hwf) as [Hm _].
  assert (u64 (maxSlotIdx c) = maxSlotIdx c) as Hum by (apply u64_id; go_lia).
  pose proof (iwf_follow _ Hwf) as Hfol.
  destruct (blockRootMap c !! root) as [q|] eqn:Hr.
  { unfold AddBlock, GetCachedBlockByRoot. by rewrite Hr. }
  destruct ((0 <? cutOff c) && (slot <? u64 (cutOff c))) eqn:Hc.
  { unfold AddBlock, GetCachedBlockByRoot. rewrite Hr, Hc. split; [done|]. split; [done|].
    apply andb_true_iff in Hc as [H1 H2]. rewrite u64_id in H2 by go_lia. lia. }
  destruct (AddBlock_new root slot c Hr Hc) as (Hres & Hheap & _ & Hroots & Hslots & Hmax & _).
  destruct (AddBlock root slot c) as [c' res] eqn:Hadd. simpl in *. subst res.
  assert (blockHeap c !! heapNext c = None) as Hfresh.
  { apply eq_None_not_Some. intros Hs%(iwf_fresh _ Hwf). lia. }
  unfold GetCachedBlockByRoot, lookup_block.
  rewrite Hroots, Hheap, !lookup_insert_eq. simpl. rewrite lookup_insert_eq.
  split; [done|]. split.
  { apply andb_false_iff in Hc as [Hc|Hc]; [lia|]. destruct (decide (0 <= cutOff c)); [rewrite u64_id in Hc by go_lia|]; lia. }
  split; [done|]. split; [done|]. split; [done|]. split; [|split].
  - intros r Hne. rewrite lookup_insert_ne by done.
    destruct (blockRootMap c !! r) as [p|] eqn:Hp; simpl; [|done].
    destruct (iwf_root _ Hwf _ _ Hp) as (b & Hb & _). by rewrite lookup_insert_ne by congruence.
  - intros s. unfold GetCachedBlocksBySlot at 1. rewrite Hslots. rewrite BySlot_update.
    repeat case_decide; subst; try done; by rewrite app_nil_r.
  - rewrite Hmax, Hum. rewrite i64_id by go_lia.
    destruct (maxSlotIdx c <? 0) eqn:?, (maxSlotIdx c <? slot) eqn:?; simpl; lia.
Qed.

Lemma AddBlock_outcomes_witness :
  (AddBlock 9 1 ex_index).2 = (None, false) /\ (AddBlock 9 3 ex_index).2 = (Some 4%nat, true) /\
  lookup_block (AddBlock 9 3 ex_index).1 9 = Some (mkExBlock 9 3 None).
Proof.
  pose proof (AddBlock_outcomes 9 3 ex_index ex_index_wf ltac:(go_lia)) as Hadd.
  split; [by vm_compute|]. split; [by vm_compute|].
  assert ((AddBlock 9 3 ex_index).2 = (Some 4%nat, true)) as Hres by (by vm_compute).
  destruct (AddBlock 9 3 ex_index) as [c' r]. simpl in *. subst r.
  destruct Hadd as (_ & _ & _ & _ & Hl & _). exact Hl.
Defined.

(** The periodic cleanup keeps exactly the blocks at most the follow
    distance below the highest slot: a root stays cached, with its block,
    iff the block's slot is not below that limit, the lists of lower slots
    disappear and the others are untouched, and block objects that somebody
    still holds are not changed. *)
Theorem cleanupBlockCache_exact {B} `{BlockLike B} (c : BlockIndex B) :
  index_wf c ->
  let c' := cleanupBlockCache c in
  let limit := maxSlotIdx c - followDistance c in
  (forall r b, lookup_block c' r = Some b <-> lookup_block c r = Some b /\ limit <= blk_slot b) /\
  (forall s, GetCachedBlocksBySlot s c' = if s <? limit then [] else GetCachedBlocksBySlot s c) /\
  blockHeap c' = blockHeap c /\ maxSlotIdx c' = maxSlotIdx c.
Proof.
  intros Hwf. destruct (cleanup_lookup c Hwf) as (Hheap & _ & Hmax & _ & Hby & _ & Hr). simpl.
  pose proof (cutOff_exact c Hwf) as Hcut. unfold below_cutOff in *. rewrite Hcut in *.
  split; [|split; [|done]].
  - intros r b. rewrite !lookup_block_Some, Hheap. split.
    + intros (p & [Hp Hb]%Hr & Hbl). split; [eauto|]. specialize (Hb b Hbl).
      destruct (lookup_block_wf c r b Hwf) as [_ ?]; [apply lookup_block_Some; eauto|]. lia.
    + intros [(p & Hp & Hb) Hl]. exists p. split; [|done]. apply Hr. split; [done|].
      intros b' ?. simplify_eq. lia.
  - intros s. rewrite Hby. destruct (0 <? _) eqn:H0; simpl; [done|].
    destruct (s <? _) eqn:Hs; [|done]. unfold GetCachedBlocksBySlot.
    destruct (blockSlotMap c !! s) as [ps|] eqn:Hps; [|done].
    destruct (iwf_max _ Hwf) as [_ Hmaxs]. pose proof (Hmaxs s ltac:(eauto)). lia.
Qed.

Lemma cleanupBlockCache_exact_witness :
  lookup_block (cleanupBlockCache ex_index) 1 = None /\
  lookup_block (cleanupBlockCache ex_index) 2 = Some (mkExBlock 2 2 (Some 1%N)).
Proof.
  destruct (cleanupBlockCache_exact ex_index ex_index_wf) as (Hl & _). split.
  - apply eq_None_not_Some. intros [b Hb]. apply Hl in Hb as [Hb Hs].
    assert (lookup_block ex_index 1 = Some (mkExBlock 1 1 None)) as Hb' by (by vm_compute).
    rewrite Hb' in Hb. injection Hb as <-. vm_compute in Hs. by apply Hs.
  - apply Hl. split; [by vm_compute|by vm_compute].
Defined.

(** [GetCachedBlocks] lists every cached block exactly once, in order of
    descending slots. *)
Theorem GetCachedBlocks_newest_first {B} `{BlockLike B} `{SliceSort} (c : BlockIndex B) :
  index_wf c ->
  NoDup (GetCachedBlocks c) /\
  StronglySorted (fun p q => slot_at c q <= slot_at c p) (GetCachedBlocks c) /\
  forall p, p ∈ GetCachedBlocks c <-> exists r, GetCachedBlockByRoot r c = Some p.
Proof. intros Hwf. by apply GetCachedBlocks_sound. Qed.

Lemma GetCachedBlocks_newest_first_witness :
  GetCachedBlocks ex_index = [2; 3; 1; 0]%nat /\ NoDup (GetCachedBlocks ex_index).
Proof. split; [by vm_compute|]. apply (GetCachedBlocks_newest_first ex_index ex_index_wf). Defined.

(** C27: When parents have lower slots than their children, the walk of
    [GetBlockDistance] always ends (one step per cached block is enough), it
    answers [true, n] iff the block is the head itself (n = 0) or is cached
    and reached from the head by exactly n parent links of cached blocks,
    without overflow of n, and [false, 0] in every other case. *)
Theorem GetBlockDistance_correct {B} `{BlockLike B} (c : BlockIndex B) (r head : Root) :
  index_wf c -> slots_decrease c ->
  exists l n, GetBlockDistance r head c = Some (l, n) /\ (l = false -> n = 0) /\
    forall m, (l, n) = (true, m) <-> (head = r /\ m = 0) \/
      (is_Some (lookup_block c r) /\ exists k, ancestor c (S k) head r /\ m = Z.of_nat (S k)).
Proof.
  intros Hwf Hdec. destruct (GetBlockDistance_sound c r head Hwf Hdec) as (l & n & Heq & Hl).
  exists l, n. split; [done|]. split; [intros ->; apply Hl|].
  intros m. rewrite <- GetBlockDistance_true by done. rewrite Heq. split; congruence.
Qed.

Lemma GetBlockDistance_correct_witness :
  GetBlockDistance 1 4 ex_index = Some (true, 2) /\ GetBlockDistance 3 4 ex_index = Some (false, 0) /\
  ancestor ex_index 2 4 1.
Proof.
  assert (GetBlockDistance 1 4 ex_index = Some (true, 2)) as H14 by (by vm_compute).
  split; [done|]. split; [by vm_compute|].
  destruct (GetBlockDistance_correct ex_index 1 4 ex_index_wf ex_index_decrease) as (l & n & Heq & _ & Hiff).
  rewrite Heq in H14. injection H14 as -> ->.
  destruct (proj1 (Hiff 2) eq_refl) as [[? _]|(_ & k & Ha & Hk)]; [done|].
  assert (k = 1%nat) as -> by lia. exact Ha.
Defined.

(** ** The interface to the fork detection *)

(** What the client pools use of a block cache; [cv_distance b h] are the two
    results of [GetBlockDistance(b, h)]. *)
Class ChainView := { cv_distance : Root -> Root -> bool * Z }.

Definition cv_canonical `{ChainView} (blockRoot headRoot : Root) : bool := (cv_distance blockRoot headRoot).1.

(** The promise: being on the chain of a head is reflexive and transitive, two
    blocks on the chain of one head are on one chain, and unrelated blocks
    have distance 0. *)
Class ChainOrder (v : ChainView) : Prop := {
  cv_refl : forall r, cv_distance r r = (true, 0);
  cv_linear : forall a b c, cv_canonical a c = true -> cv_canonical b c = true ->
    cv_canonical a b = true \/ cv_canonical b a = true;
  cv_trans : forall a b c, cv_canonical a b = true -> cv_canonical b c = true -> cv_canonical a c = true;
  cv_unrelated : forall a b, cv_canonical a b = false -> cv_distance a b = (false, 0);
  cv_positive : forall a b, 0 <= (cv_distance a b).2
}.

Definition index_view {B} `{BlockLike B} (c : BlockIndex B) : ChainView :=
  {| cv_distance := fun b h => default (false, 0) (GetBlockDistance b h c) |}.

(** Every well-formed cache keeps the promise. *)
Lemma index_view_order {B} `{BlockLike B} (c : BlockIndex B) :
  index_wf c -> slots_decrease c -> ChainOrder (index_view c).
Proof.
  intros Hwf Hdec.
  assert (forall a b, cv_canonical (H := index_view c) a b = true <->
    exists n, GetBlockDistance a b c = Some (true, n)) as Hcan.
  { intros a b. unfold cv_canonical, index_view. simpl.
    destruct (GetBlockDistance a b c) as [[l n]|]; simpl; naive_solver. }
  split.
  - intros r. simpl. unfold GetBlockDistance. by rewrite decide_True.
  - intros a b d (n & Had)%Hcan (m & Hbd)%Hcan. rewrite !Hcan. setoid_rewrite GetBlockDistance_true; [|done..].
    apply GetBlockDistance_true in Had, Hbd; [|done..].
    destruct Had as [[-> _]|(Ha & k & Hk & _)], Hbd as [[<- _]|(Hb & k' & Hk' & _)]; [left; eauto|right; eauto 6|left; eauto 6|].
    destruct (ancestor_linear c _ _ _ _ _ Hk Hk') as [(i & Hi)|(i & Hi)]; [right|left];
      (destruct i as [|i]; [inversion Hi; subst; eexists; left; eauto|eexists; right; eauto]).
  - intros a b d (n & Hab)%Hcan (m & Hbd)%Hcan. apply Hcan. setoid_rewrite GetBlockDistance_true; [|done..].
    apply GetBlockDistance_true in Hab, Hbd; [|done..].
    destruct Hab as [[-> _]|(Ha & k & Hk & _)], Hbd as [[-> _]|(Hb & k' & Hk' & _)]; eauto 6.
    eexists. right. split; [done|]. exists (k' + S k)%nat. split; [|done].
    change (S (k' + S k)) with (S k' + S k)%nat. by eapply ancestor_trans.
  - intros a b. unfold cv_canonical. simpl.
    destruct (GetBlockDistance_sound c a b Hwf Hdec) as (l & n & -> & Hl). simpl. intros ->.
    by destruct Hl as [-> _].
  - intros a b. simpl. destruct (GetBlockDistance_sound c a b Hwf Hdec) as (l & n & -> & Hl). simpl.
    destruct l; [destruct Hl as (? & _ & -> & _)|destruct Hl as [-> _]]; lia.
Qed.
