(* ===== verification/BlockCache.v ===== *)
(** * The consensus block cache

    clients/consensus/block.go, blockcache.go and chainspec.go.  The block
    maps are those of BlockIndex.v; this file adds the block objects with
    their lazily loaded header and body, the chain parameters shared by all
    clients, the finalized checkpoint and the cached validator set. *)

From S2P Require Import Prelude Dispatcher BlockIndex.

Open Scope Z_scope.

(** [clients/consensus/chainspec.go]: times, durations and fork versions are
    numbers. *)
Record ChainSpec := mkChainSpec {
  PresetBase : string;
  ConfigName : string;
  MinGenesisTime : Z;
  GenesisForkVersion : Z;
  AltairForkVersion : Z;
  AltairForkEpoch : Z;
  BellatrixForkVersion : Z;
  BellatrixForkEpoch : Z;
  CappellaForkVersion : Z;
  CappellaForkEpoch : Z;
  SecondsPerSlot : Z;
  SlotsPerEpoch : Z;
  MaxCommitteesPerSlot : Z
}.

(** The reflective loop over the fields: the names of those that differ, in
    the order of the struct. *)
Definition CheckMismatch (chain chain2 : ChainSpec) : list string :=
  let differ {A} `{EqDecision A} (name : string) (f : ChainSpec -> A) :=
    if decide (f chain = f chain2) then [] else [name] in
  differ "PresetBase"%string PresetBase ++ differ "ConfigName"%string ConfigName ++
  differ "MinGenesisTime"%string MinGenesisTime ++
  differ "GenesisForkVersion"%string GenesisForkVersion ++
  differ "AltairForkVersion"%string AltairForkVersion ++
  differ "AltairForkEpoch"%string AltairForkEpoch ++
  differ "BellatrixForkVersion"%string BellatrixForkVersion ++
  differ "BellatrixForkEpoch"%string BellatrixForkEpoch ++
  differ "CappellaForkVersion"%string CappellaForkVersion ++
  differ "CappellaForkEpoch"%string CappellaForkEpoch ++
  differ "SecondsPerSlot"%string SecondsPerSlot ++
  differ "SlotsPerEpoch"%string SlotsPerEpoch ++
  differ "MaxCommitteesPerSlot"%string MaxCommitteesPerSlot.

(** Code outside the repository: the beacon block and validator types of
    go-eth2-client, the decoding of a spec map ([smapping]) and the wall
    clock, whose current epoch is read from it at a time. *)
Class Eth2 := {
  BlockBody : Type;
  ValidatorMap : Type;
  SpecValues : Type;
  FillStructByTags : SpecValues -> result ChainSpec;
  Wallclock : Type;
  NewEthereumBeaconChain : Z -> Z -> Z -> Wallclock;
  wallclock_epoch : Wallclock -> Z -> Z
}.

(** A client as the caches see it: its pointer and its fixed index. *)
Record ClientRef := mkClientRef { client_ptr : nat; clientIdx : Z }.

#[export] Instance ClientRef_eq_dec : EqDecision ClientRef.
Proof. solve_decision. Defined.

(** The parts of a signed block header that the repository reads. *)
Record BlockHeader := mkBlockHeader { header_Slot : Z; header_ParentRoot : Root }.

(** A call that may panic: closing a closed channel does. *)
Inductive go_result (A : Type) : Type :=
  | Returned (a : A)
  | Panicked (msg : string).
Arguments Returned {A} _.
Arguments Panicked {A} _.

Section block.
Context `{eth : Eth2}.

(** [headerChan]/[blockChan] are [true] once closed. *)
Record Block := mkBlock {
  Block_Root : Root;
  Block_Slot : Z;
  headerChan : bool;
  header : option BlockHeader;
  blockChan : bool;
  block : option BlockBody;
  seenMap : gmap Z ClientRef
}.

Definition newBlock (root : Root) (slot : Z) : Block := mkBlock root slot false None false None ∅.

Definition GetParentRoot (b : Block) : option Root := header_ParentRoot <$> header b.

#[export] Program Instance block_like : BlockLike Block := {|
  blk_root := Block_Root; blk_slot := Block_Slot; blk_parent := GetParentRoot; blk_new := newBlock |}.
Next Obligation. done. Qed.
Next Obligation. done. Qed.

Definition SetSeenBy (client : ClientRef) (b : Block) : Block :=
  mkBlock (Block_Root b) (Block_Slot b) (headerChan b) (header b) (blockChan b) (block b)
    (<[clientIdx client := client]> (seenMap b)).

Definition GetSeenBy `{SliceSort} (b : Block) : list ClientRef :=
  slice_sort (fun x y => clientIdx x <? clientIdx y) (map_to_list (seenMap b)).*2.

Definition SetHeader (h : option BlockHeader) (b : Block) : Block :=
  mkBlock (Block_Root b) (Block_Slot b) (headerChan b) h (blockChan b) (block b) (seenMap b).

(** [EnsureHeader] with the outcome the loader would have: the loader is only
    called when the header is missing (first component).  A nil header
    without an error is stored as such. *)
Definition EnsureHeader (load : result (option BlockHeader)) (b : Block)
    : bool * Block * go_result (option error) :=
  match header b with
  | Some _ => (false, b, Returned None)
  | None =>
      match load with
      | Err e => (true, b, Returned (Some e))
      | Ok h =>
          let b1 := SetHeader h b in
          if headerChan b then (true, b1, Panicked "close of closed channel")
          else (true, mkBlock (Block_Root b) (Block_Slot b) true h (blockChan b) (block b) (seenMap b),
                Returned None)
      end
  end.

Definition EnsureBlock (load : result (option BlockBody)) (b : Block)
    : bool * Block * go_result (bool * option error) :=
  match block b with
  | Some _ => (false, b, Returned (false, None))
  | None =>
      match load with
      | Err e => (true, b, Returned (false, Some e))
      | Ok body =>
          let b1 := mkBlock (Block_Root b) (Block_Slot b) (headerChan b) (header b) (blockChan b) body (seenMap b) in
          if blockChan b then (true, b1, Panicked "close of closed channel")
          else (true, mkBlock (Block_Root b) (Block_Slot b) (headerChan b) (header b) true body (seenMap b),
                Returned (true, None))
      end
  end.

(** A block whose channels are closed exactly when the data is there. *)
Definition block_wf (b : Block) : Prop :=
  (headerChan b = true <-> is_Some (header b)) /\ (blockChan b = true <-> is_Some (block b)) /\
  forall i c, seenMap b !! i = Some c -> clientIdx c = i.

Lemma newBlock_wf root slot : block_wf (newBlock root slot).
Proof.
  split_and!; simpl; try (split; [done|by intros [? ?]]). intros i c. by rewrite lookup_empty.
Qed.

Lemma SetSeenBy_wf c b : block_wf b -> block_wf (SetSeenBy c b).
Proof.
  intros (? & ? & Hs). split_and!; [done..|]. intros i c'. simpl.
  intros [[<- <-]|[_ ?]]%lookup_insert_Some; [done|by apply Hs].
Qed.

(** ** Chain parameters *)

Record Genesis := mkGenesis { GenesisTime : Z; GenesisValidatorsRoot : Root; Genesis_ForkVersion : Z }.

Record FinalizedCheckpoint := mkFinalizedCheckpoint { Epoch : Z; Checkpoint_Root : Root }.

Record BlockCache := mkBlockCache {
  blocks : BlockIndex Block;
  specs : option ChainSpec;
  fullSpecs : option SpecValues;
  genesis : option Genesis;
  wallclock : option Wallclock;
  finalizedEpoch : Z;
  finalizedRoot : Root;
  valsetEpoch : Z;
  valsetMap : option ValidatorMap;
  blockDispatcher : Dispatcher nat;
  checkpointDispatcher : Dispatcher FinalizedCheckpoint
}.

Definition NewBlockCache (follow : Z) : result BlockCache :=
  if follow =? 0 then Err "cannot initialize block cache without follow distance"
  else Ok (mkBlockCache (NewBlockIndex follow) None None None None 0 0%N 0 None NewDispatcher NewDispatcher).

Definition with_blocks (x : BlockIndex Block) (c : BlockCache) : BlockCache :=
  mkBlockCache x (specs c) (fullSpecs c) (genesis c) (wallclock c) (finalizedEpoch c) (finalizedRoot c)
    (valsetEpoch c) (valsetMap c) (blockDispatcher c) (checkpointDispatcher c).

Definition with_specs (s : ChainSpec) (v : SpecValues) (c : BlockCache) : BlockCache :=
  mkBlockCache (blocks c) (Some s) (Some v) (genesis c) (wallclock c) (finalizedEpoch c) (finalizedRoot c)
    (valsetEpoch c) (valsetMap c) (blockDispatcher c) (checkpointDispatcher c).

Definition with_genesis (g : Genesis) (c : BlockCache) : BlockCache :=
  mkBlockCache (blocks c) (specs c) (fullSpecs c) (Some g) (wallclock c) (finalizedEpoch c) (finalizedRoot c)
    (valsetEpoch c) (valsetMap c) (blockDispatcher c) (checkpointDispatcher c).

Definition with_wallclock (w : Wallclock) (c : BlockCache) : BlockCache :=
  mkBlockCache (blocks c) (specs c) (fullSpecs c) (genesis c) (Some w) (finalizedEpoch c) (finalizedRoot c)
    (valsetEpoch c) (valsetMap c) (blockDispatcher c) (checkpointDispatcher c).

Definition with_valset (e : Z) (m : option ValidatorMap) (c : BlockCache) : BlockCache :=
  mkBlockCache (blocks c) (specs c) (fullSpecs c) (genesis c) (wallclock c) (finalizedEpoch c) (finalizedRoot c)
    e m (blockDispatcher c) (checkpointDispatcher c).

(** [notifyBlockReady] *)
Definition notifyBlockReady (b : nat) (c : BlockCache) : BlockCache :=
  mkBlockCache (blocks c) (specs c) (fullSpecs c) (genesis c) (wallclock c) (finalizedEpoch c) (finalizedRoot c)
    (valsetEpoch c) (valsetMap c) (Fire b (blockDispatcher c)) (checkpointDispatcher c).

Definition SetGenesis (g : Genesis) (c : BlockCache) : BlockCache * option error :=
  match genesis c with
  | Some g0 =>
      if decide (GenesisTime g0 = GenesisTime g) then
        if decide (GenesisValidatorsRoot g0 = GenesisValidatorsRoot g) then (c, None)
        else (c, Some "genesis mismatch: GenesisValidatorsRoot")
      else (c, Some "genesis mismatch: GenesisTime")
  | None => (with_genesis g c, None)
  end%string.

Definition SetClientSpecs (values : SpecValues) (c : BlockCache) : BlockCache * option error :=
  match FillStructByTags values with
  | Err e => (c, Some e)
  | Ok s =>
      let mismatches := match specs c with Some s0 => CheckMismatch s0 s | None => [] end in
      if decide (mismatches = []) then (with_specs s values c, None)
      else (c, Some ("spec mismatch: " +:+ String.concat ", " mismatches)%string)
  end.

Definition InitWallclock (c : BlockCache) : BlockCache :=
  match wallclock c with
  | Some _ => c
  | None =>
      match specs c, genesis c with
      | Some s, Some g =>
          with_wallclock (NewEthereumBeaconChain (GenesisTime g) (SecondsPerSlot s) (SlotsPerEpoch s)) c
      | _, _ => c
      end
  end.

(** ** The finalized checkpoint *)

Definition SetFinalizedCheckpoint (epoch : Z) (root : Root) (c : BlockCache) : BlockCache :=
  if epoch <=? finalizedEpoch c then c
  else mkBlockCache (blocks c) (specs c) (fullSpecs c) (genesis c) (wallclock c) epoch root
         (valsetEpoch c) (valsetMap c) (blockDispatcher c)
         (Fire (mkFinalizedCheckpoint epoch root) (checkpointDispatcher c)).

Definition GetFinalizedCheckpoint (c : BlockCache) : Z * Root := (finalizedEpoch c, finalizedRoot c).

(** ** The validator set *)

(** The clock's epoch, or 0 without a clock and for numbers that do not fit
    an [int64]. *)
Definition current_epoch (now : Z) (c : BlockCache) : Z :=
  match wallclock c with
  | Some w => if wallclock_epoch w now <? MaxInt64 then wallclock_epoch w now else 0
  | None => 0
  end.

(** [load] is what the loader would return; the boolean tells whether it is called. *)
Definition getCachedValidatorSet (now : Z) (load : option ValidatorMap) (c : BlockCache)
    : bool * BlockCache * option ValidatorMap :=
  let epoch := current_epoch now c in
  if (match valsetMap c with None => true | Some _ => false end) || (valsetEpoch c <? epoch) then
    let c' := match load with Some m => with_valset epoch (Some m) c | None => c end in
    (true, c', valsetMap c')
  else (false, c, valsetMap c).

Definition cleanupValsetCache (now : Z) (c : BlockCache) : BlockCache :=
  match valsetMap c with
  | None => c
  | Some _ =>
      if 2 <=? (current_epoch now c) -u (valsetEpoch c) then with_valset (valsetEpoch c) None c else c
  end.
End block.

(** ** Sequences of calls *)

Section cache_calls.
Context `{eth : Eth2}.

(** Calls of [EnsureBlock] on one block, with the outcome the loader would
    have at each call; stops at a panic.  The result lists per call whether
    the loader ran and whether the call reported a newly loaded body. *)
Fixpoint ensure_blocks (loads : list (result (option BlockBody))) (b : Block)
    : list (bool * bool) * Block * bool :=
  match loads with
  | [] => ([], b, false)
  | load :: loads =>
      match EnsureBlock load b with
      | (called, b', Panicked _) => ([(called, false)], b', true)
      | (called, b', Returned (loaded, _)) =>
          let '(rs, b'', p) := ensure_blocks loads b' in ((called, loaded) :: rs, b'', p)
      end
  end.

(** The loader fails, or has the body. *)
Definition no_missing_body (load : result (option BlockBody)) : bool :=
  match load with Ok None => false | _ => true end.

Definition load_ok (load : result (option BlockBody)) : bool :=
  match load with Ok (Some _) => true | _ => false end.

Definition load_body (load : result (option BlockBody)) : option BlockBody :=
  match load with Ok o => o | Err _ => None end.

Lemma ensure_blocks_loaded loads b :
  is_Some (block b) -> ensure_blocks loads b = (replicate (length loads) (false, false), b, false).
Proof.
  intros [body Hb]. induction loads as [|load loads IH]; simpl; [done|].
  unfold EnsureBlock. rewrite Hb. by rewrite IH.
Qed.

Lemma ensure_blocks_first pre body post b :
  block b = None -> blockChan b = false -> forallb no_missing_body pre = true ->
  forallb (fun l => negb (load_ok l)) pre = true ->
  ensure_blocks (pre ++ Ok (Some body) :: post) b =
    (replicate (length pre) (true, false) ++ (true, true) :: replicate (length post) (false, false),
     mkBlock (Block_Root b) (Block_Slot b) (headerChan b) (header b) true (Some body) (seenMap b), false).
Proof.
  intros Hb Hchan. induction pre as [|load pre IH]; simpl.
  - intros _ _. unfold EnsureBlock. rewrite Hb, Hchan. rewrite ensure_blocks_loaded; [done|]. simpl. eauto.
  - intros [Hl Hp]%andb_true_iff [Hn Ho]%andb_true_iff. unfold EnsureBlock at 1. rewrite Hb.
    destruct load as [[x|]|e]; [done|done|]. by rewrite IH.
Qed.

(** ** The reports of the clients about finality *)

Definition report_all (reports : list (Z * Root)) (c : BlockCache) : BlockCache :=
  fold_left (fun c r => SetFinalizedCheckpoint r.1 r.2 c) reports c.

(** The reports above every earlier one. *)
Fixpoint advances (e : Z) (reports : list (Z * Root)) : list FinalizedCheckpoint :=
  match reports with
  | [] => []
  | (epoch, root) :: reports =>
      if epoch <=? e then advances e reports
      else mkFinalizedCheckpoint epoch root :: advances epoch reports
  end.

Lemma advances_above e reports x : x ∈ advances e reports -> e < Epoch x.
Proof.
  revert e. induction reports as [|[e' r'] reports IH]; intros e; simpl; [set_solver|].
  destruct (e' <=? e) eqn:He; [apply IH|].
  intros [->|Hin]%elem_of_cons; simpl; [lia|]. specialize (IH _ Hin). lia.
Qed.

Lemma advances_sorted e reports : StronglySorted (fun x y => Epoch x < Epoch y) (advances e reports).
Proof.
  revert e. induction reports as [|[e' r'] reports IH]; intros e; simpl; [constructor|].
  destruct (e' <=? e); [done|]. constructor; [done|].
  apply Forall_forall. intros x. apply advances_above.
Qed.

Lemma report_all_spec reports c :
  let c' := report_all reports c in
  finalizedEpoch c' = fold_left Z.max reports.*1 (finalizedEpoch c) /\
  GetFinalizedCheckpoint c' = match last (advances (finalizedEpoch c) reports) with
    | Some x => (Epoch x, Checkpoint_Root x) | None => GetFinalizedCheckpoint c end /\
  checkpointDispatcher c' =
    fold_left (fun d x => Fire x d) (advances (finalizedEpoch c) reports) (checkpointDispatcher c) /\
  blocks c' = blocks c.
Proof.
  revert c. induction reports as [|[e r] reports IH]; intros c c'; subst c'; [done|].
  unfold report_all in *. cbn [fold_left fst snd advances fmap list_fmap].
  destruct (IH (SetFinalizedCheckpoint e r c)) as (-> & -> & -> & ->). unfold SetFinalizedCheckpoint.
  destruct (e <=? finalizedEpoch c) eqn:He; simpl.
  - rewrite Z.max_l by lia. done.
  - rewrite Z.max_r by lia. split; [done|]. split; [|done].
    destruct (advances e reports) as [|x l] eqn:Ha; [done|].
    change (mkFinalizedCheckpoint e r :: x :: l) with ([mkFinalizedCheckpoint e r] ++ x :: l).
    rewrite last_app. by destruct (last (x :: l)) eqn:Hl; [|apply last_None in Hl].
Qed.
End cache_calls.

Lemma CheckMismatch_nil s1 s2 : CheckMismatch s1 s2 = [] <-> s1 = s2.
Proof.
  unfold CheckMismatch. rewrite !app_nil. destruct s1, s2; simpl. split.
  - intros H. repeat match goal with H : _ /\ _ |- _ => destruct H end.
    repeat match goal with H : (if decide ?P then _ else _) = [] |- _ =>
      destruct (decide P) as [->|]; [clear H|discriminate H] end. done.
  - intros [=]. subst. by rewrite !decide_True.
Qed.

(** ** A concrete instance for the examples: bodies are numbers, a spec map is
    the number of its slots per epoch, the clock counts epochs. *)
Definition ex_spec (n : Z) : ChainSpec := mkChainSpec "mainnet" "devnet" 0 0 1 0 2 0 3 0 12 n 64.

Definition ex_eth : Eth2 := {|
  BlockBody := N; ValidatorMap := list N; SpecValues := Z;
  FillStructByTags := fun n => if n =? 0 then Err "bad spec"%string else Ok (ex_spec n);
  Wallclock := Z; NewEthereumBeaconChain := fun g _ _ => g; wallclock_epoch := fun g now => now - g |}.

(** ** Properties *)

(** The finalized checkpoint only advances.  Whatever the clients
    report, in any order, the stored epoch is the highest one reported, the
    stored pair is the last report that exceeded all earlier ones, and
    subscribers are notified of exactly those reports, whose epochs strictly
    increase. *)
Theorem SetFinalizedCheckpoint_monotone `{eth : Eth2} (reports : list (Z * Root)) (c : BlockCache) :
  let c' := report_all reports c in
  let news := advances (finalizedEpoch c) reports in
  finalizedEpoch c' = fold_left Z.max reports.*1 (finalizedEpoch c) /\
  GetFinalizedCheckpoint c' =
    from_option (fun x => (Epoch x, Checkpoint_Root x)) (GetFinalizedCheckpoint c) (last news) /\
  checkpointDispatcher c' = fold_left (fun d x => Fire x d) news (checkpointDispatcher c) /\
  StronglySorted (fun x y => Epoch x < Epoch y) news.
Proof.
  destruct (report_all_spec reports c) as (H1 & H2 & H3 & _). split; [done|].
  split; [rewrite H2; by destruct (last _)|]. split; [done|]. apply advances_sorted.
Qed.

(** On a new block the body is fetched until it is available and never
    again: every failed attempt leaves the block unchanged, the first
    success stores the body, releases the waiters and is the only call that
    reports a new block, and later calls do not load and do not panic, as
    long as the loader never reports success without a body. *)
Theorem EnsureBlock_loads_once `{eth : Eth2} (pre post : list (result (option BlockBody)))
    (body : BlockBody) root slot :
  forallb no_missing_body pre = true -> forallb (fun l => negb (load_ok l)) pre = true ->
  exists b', ensure_blocks (pre ++ Ok (Some body) :: post) (newBlock root slot) =
    (replicate (length pre) (true, false) ++ (true, true) :: replicate (length post) (false, false), b', false) /\
  block b' = Some body /\ blockChan b' = true /\ block_wf b'.
Proof.
  intros H1 H2. eexists. split; [by apply ensure_blocks_first|]. simpl. split; [done|]. split; [done|].
  destruct (newBlock_wf root slot) as (Hh & _ & Hs). split; [done|]. split; [|done]. simpl. split; eauto.
Qed.

Lemma EnsureBlock_loads_once_witness :
  exists b', @ensure_blocks ex_eth [Err "timeout"%string; Ok (Some 7%N); Ok None] (newBlock 1 1) =
    ([(true, false); (true, true); (false, false)], b', false) /\
  @block ex_eth b' = Some 7%N.
Proof.
  destruct (@EnsureBlock_loads_once ex_eth [Err "timeout"%string] [Ok None] 7%N 1%N 1 eq_refl eq_refl)
    as (b' & He & Hb & _).
  exists b'. split; [exact He|exact Hb].
Defined.

(** The beacon client's [GetBlockBodyByBlockroot] reports a 404 as
    success without a body; then [EnsureBlock] closes the channel, reports a
    new block and leaves it empty, so that the next client for which the
    body is found (or again missing) closes the channel a second time and
    panics. *)
Theorem EnsureBlock_missing_body_panics `{eth : Eth2} root slot (load : result (option BlockBody)) :
  let '(_, b1, r1) := EnsureBlock (Ok None) (newBlock root slot) in
  r1 = Returned (true, None) /\ block b1 = None /\ blockChan b1 = true /\
  (is_ok load = true -> exists b2, EnsureBlock load b1 = (true, b2, Panicked "close of closed channel")).
Proof.
  simpl. split; [done|]. split; [done|]. split; [done|].
  destruct load as [o|e]; simpl; [|done]. intros _. unfold EnsureBlock. simpl. by eexists.
Qed.

Lemma EnsureBlock_missing_body_panics_witness :
  exists b2, @EnsureBlock ex_eth (Ok (Some 7%N)) (EnsureBlock (Ok None) (newBlock 1 1)).1.2 =
    (true, b2, Panicked "close of closed channel").
Proof.
  pose proof (@EnsureBlock_missing_body_panics ex_eth 1%N 1 (Ok (Some 7%N))) as H. simpl in H.
  destruct H as (_ & _ & _ & H). by apply H.
Defined.

(** All accepted clients agree on the chain.  A genesis is accepted iff
    none is known or its time and validators root are those of the first
    accepted one, which is kept; a spec map is accepted iff it decodes and
    none is known or every field equals the stored one; a refusal changes
    nothing. *)
Theorem chain_parameters_agree `{eth : Eth2} (g : Genesis) (values : SpecValues) (c : BlockCache) :
  (let (c', e) := SetGenesis g c in
   genesis c' = Some (default g (genesis c)) /\ (is_Some (genesis c) -> c' = c) /\
   (e = None <-> GenesisTime (default g (genesis c)) = GenesisTime g /\
     GenesisValidatorsRoot (default g (genesis c)) = GenesisValidatorsRoot g)) /\
  (let (c', e) := SetClientSpecs values c in
   (e = None <-> exists s, FillStructByTags values = Ok s /\ default s (specs c) = s) /\
   (e = None -> FillStructByTags values = from_option Ok (Err "") (specs c')%string /\ fullSpecs c' = Some values) /\
   (e <> None -> c' = c)).
Proof.
  split.
  - unfold SetGenesis. destruct (genesis c) as [g0|] eqn:Hg; simpl.
    + repeat case_decide; rewrite ?Hg; naive_solver.
    + split; [done|]. split; [by intros [? ?]|done].
  - unfold SetClientSpecs. destruct (FillStructByTags values) as [s|err]; cycle 1.
    { split; [split; [done|by intros (? & ? & ?)]|]. split; done. }
    destruct (specs c) as [s0|] eqn:Hs; cbn [default from_option].
    + pose proof (CheckMismatch_nil s0 s) as Hm.
      case_decide as Hd; simpl.
      * apply Hm in Hd as ->. naive_solver.
      * split; [|naive_solver]. split; [done|]. intros (? & [= <-] & ->). exfalso. apply Hd, Hm. done.
    + rewrite decide_True by done. simpl. naive_solver.
Qed.

(** The validator set is loaded iff none is cached or the cached one is
    from an earlier epoch than the clock's; a successful load is returned
    and cached for the current epoch, a failed one leaves the old set in
    place, and a second request in the same epoch does not load again.  The
    periodic cleanup drops the set iff it is at least two epochs old or the
    clock is behind it. *)
Theorem validator_set_cache `{eth : Eth2} now (load : option ValidatorMap) (c : BlockCache) :
  0 <= current_epoch now c -> 0 <= valsetEpoch c < two63 ->
  let '(called, c', res) := getCachedValidatorSet now load c in
  (called = true <-> valsetMap c = None \/ valsetEpoch c < current_epoch now c) /\
  res = valsetMap c' /\
  (called = false -> c' = c) /\
  (called = true -> load = None -> c' = c) /\
  (forall m, called = true -> load = Some m -> res = Some m /\ valsetEpoch c' = current_epoch now c /\
    forall load2, getCachedValidatorSet now load2 c' = (false, c', Some m)) /\
  (valsetMap (cleanupValsetCache now c) = None <-> valsetMap c = None \/
    valsetEpoch c + 2 <= current_epoch now c \/ current_epoch now c < valsetEpoch c).
Proof.
  intros Hcur Hval. assert (current_epoch now c < two63) as Hcur'.
  { unfold current_epoch. destruct (wallclock c) as [w|]; [|done].
    destruct (_ <? _) eqn:?; [go_lia|done]. }
  assert (valsetMap (cleanupValsetCache now c) = None <-> valsetMap c = None \/
    valsetEpoch c + 2 <= current_epoch now c \/ current_epoch now c < valsetEpoch c) as Hclean.
  { unfold cleanupValsetCache. destruct (valsetMap c) as [m|] eqn:Hm; [|naive_solver].
    destruct (2 <=? current_epoch now c -u valsetEpoch c) eqn:Hd; simpl.
    - split; [|done]. intros _. right.
      destruct (decide (current_epoch now c < valsetEpoch c)); [by right|left].
      rewrite u64_sub_ge in Hd by go_lia. lia.
    - rewrite Hm. split; [done|]. intros [?|Hor]; [done|]. exfalso. revert Hd. go_lia. }
  unfold getCachedValidatorSet. destruct (valsetMap c) as [m0|] eqn:Hm; simpl.
  - destruct (valsetEpoch c <? current_epoch now c) eqn:Hlt.
    + split; [split; [intros _; right; lia|done]|]. split; [done|]. split; [done|].
      split; [by intros _ ->|]. split; [|done]. intros m _ ->. simpl. split; [done|]. split; [done|].
      intros load2. unfold current_epoch. simpl. by rewrite Z.ltb_irrefl.
    + split; [split; [done|intros [?|?]; [done|lia]]|]. done.
  - split; [split; [by left|done]|]. split; [done|]. split; [done|].
    split; [by intros _ ->|]. split; [|done]. intros m _ ->. simpl. split; [done|]. split; [done|].
    intros load2. unfold current_epoch. simpl. by rewrite Z.ltb_irrefl.
Qed.

Definition ex_cache : @BlockCache ex_eth :=
  @mkBlockCache ex_eth (NewBlockIndex 3) None None None (Some 0) 0 0%N 3 (Some [1%N]) NewDispatcher NewDispatcher.

Lemma validator_set_cache_witness :
  @getCachedValidatorSet ex_eth 4 (Some [2%N]) ex_cache =
    (true, @with_valset ex_eth 4 (Some [2%N]) ex_cache, Some [2%N]) /\
  @valsetMap ex_eth (cleanupValsetCache 5 ex_cache) = None.
Proof.
  split; [by vm_compute|].
  assert (0 <= @valsetEpoch ex_eth ex_cache < two63) as Hv by (simpl; go_lia).
  pose proof (@validator_set_cache ex_eth 5 None ex_cache ltac:(vm_compute; done) Hv) as H.
  destruct (getCachedValidatorSet 5 None ex_cache) as [[called c'] res].
  destruct H as (_ & _ & _ & _ & _ & H). apply H. right. left. by vm_compute.
Defined.

(** [GetSeenBy] lists every client that reported the block exactly once,
    in strictly ascending order of the client index. *)
Theorem GetSeenBy_sorted `{eth : Eth2} `{SliceSort} (b : Block) :
  block_wf b ->
  StronglySorted (fun x y => clientIdx x < clientIdx y) (GetSeenBy b) /\
  forall c, c ∈ GetSeenBy b <-> seenMap b !! clientIdx c = Some c.
Proof.
  intros (_ & _ & Hseen). unfold GetSeenBy.
  set (l := slice_sort _ _).
  assert (l ≡ₚ (map_to_list (seenMap b)).*2) as Hperm by apply slice_sort_perm.
  assert (forall c, c ∈ l <-> seenMap b !! clientIdx c = Some c) as Hin.
  { intros c. rewrite Hperm, list_elem_of_fmap. split.
    - intros ([i c'] & -> & Hi%elem_of_map_to_list). simpl. by rewrite (Hseen _ _ Hi).
    - intros Hc. exists (clientIdx c, c). split; [done|]. by apply elem_of_map_to_list. }
  split; [|done].
  assert (StronglySorted (fun x y => (clientIdx y <? clientIdx x) = false) l) as Hs.
  { apply (slice_sort_sorted (fun x y => clientIdx x <? clientIdx y)). apply (StrictWeakOn_key_lt clientIdx). }
  assert (NoDup (clientIdx <$> l)) as Hnd.
  { rewrite Hperm. assert (clientIdx <$> (map_to_list (seenMap b)).*2 = (map_to_list (seenMap b)).*1) as ->.
    - rewrite <- list_fmap_compose. apply list_fmap_ext. intros i [k c] Hk%list_elem_of_lookup_2%elem_of_map_to_list.
      simpl. by apply Hseen.
    - apply NoDup_fst_map_to_list. }
  clear Hperm Hin. clearbody l. induction Hs as [|x l Hs IH Hx]; [constructor|].
  apply NoDup_cons in Hnd as [Hnin Hnd]. constructor; [by apply IH|].
  rewrite Forall_forall in Hx |- *. intros y Hy. pose proof (Hx y Hy).
  assert (clientIdx y <> clientIdx x) as Hne; [|lia].
  intros Heq. apply Hnin. rewrite <- Heq. by apply list_elem_of_fmap_2.
Qed.

Lemma GetSeenBy_sorted_witness :
  let b := SetSeenBy (mkClientRef 0 0) (SetSeenBy (mkClientRef 2 2) (@newBlock ex_eth 1 1)) in
  GetSeenBy b = [mkClientRef 0 0; mkClientRef 2 2] /\ mkClientRef 2 2 ∈ GetSeenBy b.
Proof.
  intros b. split; [by vm_compute|].
  assert (block_wf b) as Hwf by (apply SetSeenBy_wf, SetSeenBy_wf, newBlock_wf).
  apply (proj2 (GetSeenBy_sorted b Hwf)). by vm_compute.
Defined.
