(* ===== verification/Pool.v ===== *)
(** * Client pools: head forks and client selection

    clients/consensus/forks.go and pool.go; the execution pool
    (clients/execution/forks.go and pool.go) has the same code up to names,
    except that it shuffles the ready clients before it selects one.  Clients
    are pointers: positions of the pool's slice, which only grows.  The pool
    is modelled over any kind of client that satisfies [PoolClient], and over
    the block cache's interface [ChainView]. *)

From S2P Require Import Prelude BlockIndex.

Open Scope Z_scope.

(** ** Client types: clients/consensus/clienttype.go *)

Definition ClientType := Z.
Definition AnyClient : ClientType := 0.
Definition UnknownClient : ClientType := -1.
Definition LighthouseClient : ClientType := 1.
Definition LodestarClient : ClientType := 2.
Definition NimbusClient : ClientType := 3.
Definition PrysmClient : ClientType := 4.
Definition TekuClient : ClientType := 5.
Definition GrandineClient : ClientType := 6.
Definition CaplinClient : ClientType := 7.

(** The patterns [(?i)^name/.*] by their names in lower case. *)
Definition clientTypePatterns : list (ClientType * string) :=
  [(LighthouseClient, "lighthouse/"); (LodestarClient, "lodestar/"); (NimbusClient, "nimbus/");
   (PrysmClient, "prysm/"); (TekuClient, "teku/"); (GrandineClient, "grandine/");
   (CaplinClient, "caplin/")]%string.

(** Case folding of one pattern letter [c] at the start of the input: ASCII
    upper case, and the two non-ASCII letters (in UTF-8) that fold to [s] and
    [k].  The rest of the input after the letter. *)
Definition match_letter (c : Ascii.ascii) (s : string) : option string :=
  match s with
  | "" => None
  | String d s' =>
      let n := Ascii.nat_of_ascii d in
      let lower := if (65 <=? n)%nat && (n <=? 90)%nat then Ascii.ascii_of_nat (n + 32) else d in
      if Ascii.eqb lower c then Some s'
      else match c, s with
           | "s"%char, String "197" (String "191" s') => Some s'
           | "k"%char, String "226" (String "132" (String "170" s')) => Some s'
           | _, _ => None
           end
  end%string.

Fixpoint match_fold (pattern s : string) : bool :=
  match pattern with
  | "" => true
  | String c pattern =>
      match match_letter c s with Some s' => match_fold pattern s' | None => false end
  end%string.

(** [parseClientVersion]; the order is the one in which the range over the
    pattern map visits its entries. *)
Fixpoint parseClientVersion (order : list (ClientType * string)) (version : string) : ClientType :=
  match order with
  | [] => UnknownClient
  | (clientType, pattern) :: order =>
      if match_fold pattern version then clientType else parseClientVersion order version
  end.

Definition ParseClientType (name : string) : ClientType :=
  if decide (name = "lighthouse") then LighthouseClient
  else if decide (name = "lodestar") then LodestarClient
  else if decide (name = "nimbus") then NimbusClient
  else if decide (name = "prysm") then PrysmClient
  else if decide (name = "teku") then TekuClient
  else if decide (name = "grandine") then GrandineClient
  else if decide (name = "caplin") then CaplinClient
  else UnknownClient.

Definition ClientType_String (clientType : ClientType) : string :=
  if decide (clientType = LighthouseClient) then "lighthouse"
  else if decide (clientType = LodestarClient) then "lodestar"
  else if decide (clientType = NimbusClient) then "nimbus"
  else if decide (clientType = PrysmClient) then "prysm"
  else if decide (clientType = TekuClient) then "teku"
  else if decide (clientType = GrandineClient) then "grandine"
  else if decide (clientType = CaplinClient) then "caplin"
  else "unknown: " +:+ pretty clientType.

(** ** The pool *)

(** What the pool reads of a client: its index, its type, whether
    [GetStatus() == ClientStatusOnline], and [GetLastHead]. *)
Class PoolClient (C : Type) := {
  pc_idx : C -> Z;
  pc_type : C -> ClientType;
  pc_online : C -> bool;
  pc_head : C -> Z * Root
}.

Record HeadFork := mkHeadFork {
  Fork_Slot : Z;
  Fork_Root : Root;
  ReadyClients : list nat;
  AllClients : list nat
}.

Section pool.
Context {C : Type} `{pcl : PoolClient C}.

(** [ForkDistance] is the configured one; [round_robin] is
    [schedulerMode == RoundRobinScheduler], the only mode [NewPool] accepts. *)
Record Pool := mkPool {
  ForkDistance : Z;
  round_robin : bool;
  clientCounter : Z;
  clients : list C;
  forkCache : gmap Z (list HeadFork);
  rrLastIndexes : gmap ClientType Z
}.

Definition NewPool (forkDistance : Z) (schedulerMode : string) : result Pool :=
  if decide (schedulerMode ∈ [""; "rr"; "roundrobin"]%string)
  then Ok (mkPool forkDistance true 0 [] ∅ ∅)
  else Err ("unknown pool schedulerMode: " +:+ schedulerMode)%string.

(** [new] is [newPoolClient], which fails when the RPC client cannot be created. *)
Definition AddEndpoint (new : Z -> result C) (pool : Pool) : Pool * result nat :=
  let idx := clientCounter pool in
  let counter := u16 (clientCounter pool + 1) in
  match new idx with
  | Err e => (mkPool (ForkDistance pool) (round_robin pool) counter (clients pool) (forkCache pool)
                (rrLastIndexes pool), Err e)
  | Ok client =>
      (mkPool (ForkDistance pool) (round_robin pool) counter (clients pool ++ [client]) (forkCache pool)
         (rrLastIndexes pool), Ok (length (clients pool)))
  end.

Definition with_forkCache (x : gmap Z (list HeadFork)) (pool : Pool) : Pool :=
  mkPool (ForkDistance pool) (round_robin pool) (clientCounter pool) (clients pool) x (rrLastIndexes pool).

Definition with_clients (x : list C) (pool : Pool) : Pool :=
  mkPool (ForkDistance pool) (round_robin pool) (clientCounter pool) x (forkCache pool) (rrLastIndexes pool).

Definition resetHeadForkCache (pool : Pool) : Pool := with_forkCache ∅ pool.

(** *** forks.go *)

Section forks.
Context `{view : ChainView}.

Definition join_fork (p : nat) (fork : HeadFork) : HeadFork :=
  mkHeadFork (Fork_Slot fork) (Fork_Root fork) (ReadyClients fork) (AllClients fork ++ [p]).

(** The search for a matching fork: the first fork whose chain has the
    client's head, or whose head is on the client's chain (then the fork
    moves to the client's head). *)
Fixpoint match_fork (p : nat) (cHeadSlot : Z) (cHeadRoot : Root) (forks : list HeadFork)
    : option (list HeadFork) :=
  match forks with
  | [] => None
  | fork :: rest =>
      if bool_decide (Fork_Root fork = cHeadRoot) || cv_canonical cHeadRoot (Fork_Root fork)
      then Some (join_fork p fork :: rest)
      else if cv_canonical (Fork_Root fork) cHeadRoot
      then Some (join_fork p (mkHeadFork cHeadSlot cHeadRoot (ReadyClients fork) (AllClients fork)) :: rest)
      else cons fork <$> match_fork p cHeadSlot cHeadRoot rest
  end.

(** One iteration of [for _, client := range pool.clients]. *)
Definition place_client (forks : list HeadFork) (e : nat * C) : list HeadFork :=
  let '(p, client) := e in
  let '(cHeadSlot, cHeadRoot) := pc_head client in
  match match_fork p cHeadSlot cHeadRoot forks with
  | Some forks => forks
  | None => forks ++ [mkHeadFork cHeadSlot cHeadRoot [] [p]]
  end.

Definition client_entries (pool : Pool) : list (nat * C) := imap pair (clients pool).

(** The condition under which the second loop appends a client. *)
Definition fork_ready (forkDistance : Z) (pool : Pool) (fork : HeadFork) (p : nat) : bool :=
  match clients pool !! p with
  | Some client =>
      let cHeadRoot := (pc_head client).2 in
      let headDistance :=
        if decide (Fork_Root fork = cHeadRoot) then 0 else (cv_distance cHeadRoot (Fork_Root fork)).2 in
      pc_online client && ((forkDistance <? 0) || (headDistance <=? u64 forkDistance))
  | None => false
  end.

Definition fill_ready (forkDistance : Z) (pool : Pool) (fork : HeadFork) : HeadFork :=
  mkHeadFork (Fork_Slot fork) (Fork_Root fork) (filterb (fork_ready forkDistance pool fork) (AllClients fork))
    (AllClients fork).

Definition ready_count (fork : HeadFork) : Z := Z.of_nat (length (ReadyClients fork)).

(** The forks computed from scratch. *)
Definition computeHeadForks `{SliceSort} (forkDistance : Z) (pool : Pool) : list HeadFork :=
  let headForks := fold_left place_client (client_entries pool) [] in
  slice_sort (fun a b => ready_count b <? ready_count a) (fill_ready forkDistance pool <$> headForks).

Definition GetHeadForks `{SliceSort} (forkDistance : Z) (pool : Pool) : Pool * list HeadFork :=
  let forkDistance := if forkDistance <? 0 then ForkDistance pool else forkDistance in
  match forkCache pool !! forkDistance with
  | Some forks => (pool, forks)
  | None =>
      let headForks := computeHeadForks forkDistance pool in
      (with_forkCache (<[forkDistance := headForks]> (forkCache pool)) pool, headForks)
  end.

Definition GetCanonicalFork `{SliceSort} (forkDistance : Z) (pool : Pool) : Pool * option HeadFork :=
  let (pool, forks) := GetHeadForks forkDistance pool in (pool, head forks).

(** [HeadFork.IsClientReady] compares indexes. *)
Definition Fork_IsClientReady (pool : Pool) (fork : option HeadFork) (p : nat) : bool :=
  match fork, clients pool !! p with
  | Some fork, Some client =>
      existsb (fun q => match clients pool !! q with
        | Some cli => pc_idx cli =? pc_idx client | None => false end) (ReadyClients fork)
  | _, _ => false
  end.

(** [Pool.IsClientReady] compares pointers. *)
Definition IsClientReady `{SliceSort} (client : option nat) (pool : Pool) : Pool * bool :=
  match client with
  | None => (pool, false)
  | Some p =>
      match GetCanonicalFork (-1) pool with
      | (pool, None) => (pool, false)
      | (pool, Some fork) => (pool, existsb (Nat.eqb p) (ReadyClients fork))
      end
  end.
End forks.

(** *** The round robin scheduler *)

Definition with_rr (t : ClientType) (idx : Z) (pool : Pool) : Pool :=
  mkPool (ForkDistance pool) (round_robin pool) (clientCounter pool) (clients pool) (forkCache pool)
    (<[t := idx]> (rrLastIndexes pool)).

Definition type_matches (t : ClientType) (client : C) : bool :=
  (t =? AnyClient) || (t =? pc_type client).

(** The loop over the ready clients: the first matching one above the last
    index ([inl]), or at the end the first matching one ([inr]). *)
Fixpoint rr_loop (t : ClientType) (lastIdx : Z) (pool : Pool) (first : option nat) (ready : list nat)
    : nat + option nat :=
  match ready with
  | [] => inr first
  | p :: ready =>
      match clients pool !! p with
      | None => rr_loop t lastIdx pool first ready
      | Some client =>
          if negb (type_matches t client) then rr_loop t lastIdx pool first ready else
          let first := match first with None => Some p | Some q => Some q end in
          if lastIdx <? pc_idx client then inl p else rr_loop t lastIdx pool first ready
      end
  end.

Definition idx_of (pool : Pool) (p : nat) : Z := from_option pc_idx 0 (clients pool !! p).

Definition runClientScheduler (ready : list nat) (t : ClientType) (pool : Pool) : Pool * option nat :=
  if round_robin pool then
    match rr_loop t (default 0 (rrLastIndexes pool !! t)) pool None ready with
    | inl p => (with_rr t (idx_of pool p) pool, Some p)
    | inr None => (pool, None)
    | inr (Some p) => (with_rr t (idx_of pool p) pool, Some p)
    end
  else (pool, head ready).

Definition GetReadyEndpoint `{ChainView} `{SliceSort} (t : ClientType) (pool : Pool) : Pool * option nat :=
  match GetCanonicalFork (-1) pool with
  | (pool, None) => (pool, None)
  | (pool, Some canonicalFork) =>
      match ReadyClients canonicalFork with
      | [] => (pool, None)
      | ready => runClientScheduler ready t pool
      end
  end.

(** *** The execution pool: a random permutation before the selection *)

(** [shuffled[perm[i]] = ready[i]] for every [i]; [perm n] below is what
    [rand.Perm(n)] returns. *)
Definition shuffle (perm ready : list nat) : list nat :=
  fold_left (fun acc e => <[e.1 := e.2]> acc) (zip perm ready) (replicate (length ready) 0%nat).

Definition exec_GetReadyEndpoints `{ChainView} `{SliceSort} (perm : option (nat -> list nat)) (pool : Pool)
    : Pool * list nat :=
  match GetCanonicalFork (-1) pool with
  | (pool, None) => (pool, [])
  | (pool, Some canonicalFork) =>
      match ReadyClients canonicalFork with
      | [] => (pool, [])
      | ready => (pool, match perm with Some perm => shuffle (perm (length ready)) ready | None => ready end)
      end
  end.

Definition exec_GetReadyEndpoint `{ChainView} `{SliceSort} (perm : nat -> list nat) (t : ClientType) (pool : Pool)
    : Pool * option nat :=
  let (pool, ready) := exec_GetReadyEndpoints (Some perm) pool in
  runClientScheduler ready t pool.

(** ** Lemmas: forks *)

(** A symmetric relation between any two elements of a list. *)
Fixpoint pairwise {A} (R : A -> A -> Prop) (l : list A) : Prop :=
  match l with [] => True | x :: l => Forall (R x) l /\ pairwise R l end.

Lemma pairwise_perm {A} (R : A -> A -> Prop) l1 l2 :
  Symmetric R -> l1 ≡ₚ l2 -> pairwise R l1 -> pairwise R l2.
Proof.
  intros Hsym. induction 1 as [|x l1 l2 Hp IH|x y l|l1 l2 l3 _ IH1 _ IH2]; simpl; [done| | |by eauto].
  - intros [Hx Hl]. split; [by rewrite <- Hp|by apply IH].
  - rewrite !Forall_cons. naive_solver.
Qed.

Section fork_lemmas.
Context `{view : ChainView} `{!ChainOrder view}.

(** Neither root is on the chain of the other. *)
Definition unrelated (f g : HeadFork) : Prop :=
  cv_canonical (Fork_Root f) (Fork_Root g) = false /\ cv_canonical (Fork_Root g) (Fork_Root f) = false.

#[local] Instance unrelated_sym : Symmetric unrelated.
Proof. intros f g [? ?]. done. Qed.

Definition unrelated_to (h : Root) (f : HeadFork) : Prop :=
  cv_canonical (Fork_Root f) h = false /\ cv_canonical h (Fork_Root f) = false.

Lemma cv_canonical_refl r : cv_canonical r r = true.
Proof. unfold cv_canonical. by rewrite cv_refl. Qed.

Lemma match_fork_cases p s h forks :
  match match_fork p s h forks with
  | None => Forall (unrelated_to h) forks
  | Some forks' => exists f rest f', forks ≡ₚ f :: rest /\ forks' ≡ₚ f' :: rest /\
      ReadyClients f' = ReadyClients f /\ AllClients f' = AllClients f ++ [p] /\
      ((cv_canonical h (Fork_Root f) = true /\ Fork_Root f' = Fork_Root f /\ Fork_Slot f' = Fork_Slot f) \/
       (cv_canonical (Fork_Root f) h = true /\ cv_canonical h (Fork_Root f) = false /\
        Fork_Root f' = h /\ Fork_Slot f' = s))
  end.
Proof.
  induction forks as [|f forks IH]; simpl; [done|].
  assert (bool_decide (Fork_Root f = h) || cv_canonical h (Fork_Root f) = cv_canonical h (Fork_Root f)) as ->.
  { case_bool_decide; [subst; by rewrite cv_canonical_refl|done]. }
  destruct (cv_canonical h (Fork_Root f)) eqn:Hhf.
  { exists f, forks, (join_fork p f). split_and!; [done..|]. by left. }
  destruct (cv_canonical (Fork_Root f) h) eqn:Hfh.
  { eexists f, forks, _. split_and!; [done|reflexivity|done|done|]. right. done. }
  destruct (match_fork p s h forks) as [forks'|]; simpl; [|by constructor].
  destruct IH as (g & rest & g' & H1 & H2 & Hrest). exists g, (f :: rest), g'.
  split; [rewrite H1; constructor|]. split; [rewrite H2; constructor|done].
Qed.

Lemma StronglySorted_mono {A} (R S : A -> A -> Prop) l :
  (forall x y, R x y -> S x y) -> StronglySorted R l -> StronglySorted S l.
Proof.
  intros HRS. induction 1 as [|x l _ IH Hx]; constructor; [done|].
  eapply Forall_impl; [exact Hx|]. apply HRS.
Qed.

(** What holds of a fork when the entries have been placed. *)
Record fork_inv (entries : list (nat * C)) (f : HeadFork) : Prop := {
  finv_sorted : StronglySorted lt (AllClients f);
  finv_chain : forall p, p ∈ AllClients f -> exists c, (p, c) ∈ entries /\
    cv_canonical (pc_head c).2 (Fork_Root f) = true;
  finv_head : exists p c, p ∈ AllClients f /\ (p, c) ∈ entries /\ pc_head c = (Fork_Slot f, Fork_Root f)
}.

Record forks_inv (entries : list (nat * C)) (forks : list HeadFork) : Prop := {
  fsinv_all : forks ≫= AllClients ≡ₚ entries.*1;
  fsinv_each : Forall (fork_inv entries) forks;
  fsinv_unrelated : pairwise unrelated forks
}.

Lemma StronglySorted_snoc (l : list nat) p :
  StronglySorted lt l -> (forall q, q ∈ l -> (q < p)%nat) -> StronglySorted lt (l ++ [p]).
Proof.
  induction 1 as [|x l Hs IH Hx]; simpl; intros Hlt; [repeat constructor|].
  constructor; [apply IH; set_solver|]. apply Forall_app. split; [done|].
  constructor; [apply Hlt; set_solver|constructor].
Qed.

Lemma fork_inv_mono entries e f : fork_inv entries f -> fork_inv (entries ++ [e]) f.
Proof.
  intros [Hs Hc (p & c & ? & ? & ?)]. split; [done| |].
  - intros q Hq. destruct (Hc q Hq) as (c' & ? & ?). exists c'. set_solver.
  - exists p, c. set_solver.
Qed.

Lemma fork_inv_join entries p c f f' :
  (forall q c', (q, c') ∈ entries -> (q < p)%nat) ->
  fork_inv entries f -> AllClients f' = AllClients f ++ [p] ->
  (cv_canonical (pc_head c).2 (Fork_Root f) = true /\ Fork_Root f' = Fork_Root f /\ Fork_Slot f' = Fork_Slot f) \/
  (cv_canonical (Fork_Root f) (pc_head c).2 = true /\ cv_canonical (pc_head c).2 (Fork_Root f) = false /\
   Fork_Root f' = (pc_head c).2 /\ Fork_Slot f' = (pc_head c).1) ->
  fork_inv (entries ++ [(p, c)]) f'.
Proof.
  intros Hlt [Hs Hc (p0 & c0 & Hp0 & He0 & Hh0)] Hall Hcase. split; rewrite Hall.
  - apply StronglySorted_snoc; [done|]. intros q Hq. destruct (Hc q Hq) as (c' & ? & _). eauto.
  - intros q [Hq| ->%list_elem_of_singleton]%elem_of_app.
    + destruct (Hc q Hq) as (c' & Hin & Hcan). exists c'. split; [set_solver|].
      destruct Hcase as [(_ & -> & _)|(Hm & _ & -> & _)]; [done|by eapply cv_trans].
    + exists c. split; [set_solver|].
      destruct Hcase as [(Hm & -> & _)|(_ & _ & -> & _)]; [done|apply cv_canonical_refl].
  - destruct Hcase as [(_ & -> & ->)|(_ & _ & -> & ->)].
    + exists p0, c0. set_solver.
    + exists p, c. split; [set_solver|]. split; [set_solver|]. by destruct (pc_head c).
Qed.

(** A fork that moves to a descendant stays unrelated to the others. *)
Lemma unrelated_move f f' g h :
  cv_canonical (Fork_Root f) h = true -> Fork_Root f' = h -> unrelated f g -> unrelated f' g.
Proof.
  intros Hfh Hf' [Hfg Hgf]. unfold unrelated. rewrite Hf'. split; apply not_true_is_false; intros Hc.
  - pose proof (cv_trans _ _ _ Hfh Hc). congruence.
  - destruct (cv_linear _ _ _ Hfh Hc); congruence.
Qed.

Lemma place_client_inv entries forks p c :
  (forall q c', (q, c') ∈ entries -> (q < p)%nat) ->
  forks_inv entries forks -> forks_inv (entries ++ [(p, c)]) (place_client forks (p, c)).
Proof.
  intros Hlt [Hall Heach Hun]. simpl. destruct (pc_head c) as [s h] eqn:Hh.
  pose proof (match_fork_cases p s h forks) as Hm. destruct (match_fork p s h forks) as [forks'|].
  - destruct Hm as (f & rest & f' & Hf & Hf' & _ & Hjoin & Hcase).
    rewrite Hf in Hall, Heach. apply Forall_cons in Heach as [Hinv Hrest].
    pose proof (pairwise_perm _ _ _ unrelated_sym Hf Hun) as [Hfr Hrr]. split.
    + rewrite Hf', fmap_app, !bind_cons, Hjoin. rewrite bind_cons in Hall. rewrite <- Hall. simpl. solve_Permutation.
    + rewrite Hf'. constructor.
      * eapply fork_inv_join; [done|exact Hinv|done|]. by rewrite Hh.
      * eapply Forall_impl; [exact Hrest|]. intros g. apply fork_inv_mono.
    + apply (pairwise_perm _ (f' :: rest) _ unrelated_sym); [by symmetry|]. split; [|done].
      destruct Hcase as [(_ & Hr & _)|(Hm & _ & Hr & _)].
      * eapply Forall_impl; [exact Hfr|]. intros g. unfold unrelated. by rewrite Hr.
      * eapply Forall_impl; [exact Hfr|]. intros g. by eapply unrelated_move.
  - split.
    + rewrite bind_app, fmap_app, Hall. done.
    + apply Forall_app. split; [eapply Forall_impl; [exact Heach|]; intros g; apply fork_inv_mono|].
      constructor; [|constructor]. split; simpl.
      * repeat constructor.
      * intros q ->%list_elem_of_singleton. exists c. rewrite Hh. simpl. split; [set_solver|apply cv_canonical_refl].
      * exists p, c. rewrite Hh. set_solver.
    + apply (pairwise_perm _ (mkHeadFork s h [] [p] :: forks) _ unrelated_sym); [by rewrite <- Permutation_cons_append|].
      split; [|done]. eapply Forall_impl; [exact Hm|]. intros g [? ?]. done.
Qed.

Lemma place_clients_inv entries forks es n :
  forks_inv entries forks -> (forall q c, (q, c) ∈ entries -> (q < n)%nat) ->
  es.*1 = seq n (length es) -> forks_inv (entries ++ es) (fold_left place_client es forks).
Proof.
  revert entries forks n. induction es as [|[p c] es IH]; intros entries forks n Hinv Hlt Hes; simpl.
  { by rewrite app_nil_r. }
  simpl in Hes. injection Hes as -> Hes. rewrite (app_assoc _ [(n, c)] es).
  apply (IH _ _ (S n)); [by apply place_client_inv| |done].
  intros q c' [Hq|[= -> ->]%list_elem_of_singleton]%elem_of_app; [apply Hlt in Hq|]; lia.
Qed.

Lemma client_entries_fst pool : (client_entries pool).*1 = seq 0 (length (clients pool)).
Proof.
  unfold client_entries. apply list_eq. intros i. rewrite list_lookup_fmap, list_lookup_imap.
  destruct (clients pool !! i) eqn:Hi; simpl.
  - symmetry. apply lookup_seq. split; [done|]. apply lookup_lt_Some in Hi. lia.
  - symmetry. apply lookup_seq_ge. by apply lookup_ge_None.
Qed.

Lemma elem_of_client_entries pool p c : (p, c) ∈ client_entries pool <-> clients pool !! p = Some c.
Proof.
  unfold client_entries. rewrite elem_of_lookup_imap. split; [intros (? & ? & ? & ?); by simplify_eq|eauto].
Qed.

Lemma head_forks_inv pool : forks_inv (client_entries pool) (fold_left place_client (client_entries pool) []).
Proof.
  refine (place_clients_inv [] [] (client_entries pool) 0 _ _ _).
  - split; simpl; [done|constructor|done].
  - set_solver.
  - rewrite client_entries_fst. unfold client_entries. by rewrite length_imap.
Qed.

Lemma computeHeadForks_sound `{SliceSort} d pool :
  let forks := computeHeadForks d pool in
  (forks ≫= AllClients ≡ₚ seq 0 (length (clients pool))) /\
  (forall f, f ∈ forks -> fork_inv (client_entries pool) f /\
    ReadyClients f = filterb (fork_ready d pool f) (AllClients f)) /\
  pairwise unrelated forks /\
  StronglySorted (fun f g => ready_count g <= ready_count f) forks.
Proof.
  destruct (head_forks_inv pool) as [Hall Heach Hun]. unfold computeHeadForks.
  set (base := fold_left _ _ _) in *.
  set (forks := slice_sort _ _). simpl.
  assert (forks ≡ₚ fill_ready d pool <$> base) as Hperm by apply slice_sort_perm.
  split; [|split; [|split]].
  - rewrite Hperm, <- client_entries_fst, <- Hall. rewrite list_fmap_bind. done.
  - intros f. rewrite Hperm, list_elem_of_fmap. intros (g & -> & Hg). split; [|done].
    rewrite Forall_forall in Heach. destruct (Heach g Hg) as [? ? ?]. done.
  - eapply (pairwise_perm _ _ _ unrelated_sym); [by symmetry|]. clear -Hun.
    induction base as [|f base IH]; simpl in *; [done|]. destruct Hun as [Hf Hun].
    split; [|by apply IH]. rewrite Forall_fmap. done.
  - subst forks. eapply StronglySorted_mono; [|apply (slice_sort_sorted _ _ (StrictWeakOn_key_gt ready_count _))].
    intros f g. simpl. lia.
Qed.
End fork_lemmas.

(** ** Lemmas: selection *)

(** The ready clients of the requested type. *)
Definition matching (t : ClientType) (pool : Pool) (ready : list nat) : list nat :=
  filterb (fun p => from_option (type_matches t) false (clients pool !! p)) ready.

Definition first_above (lastIdx : Z) (pool : Pool) (l : list nat) : option nat :=
  head (filterb (fun p => lastIdx <? idx_of pool p) l).

Lemma rr_loop_matching t lastIdx pool first ready :
  rr_loop t lastIdx pool first ready =
    match first_above lastIdx pool (matching t pool ready) with
    | Some p => inl p
    | None => inr (match first with Some q => Some q | None => head (matching t pool ready) end)
    end.
Proof.
  unfold first_above, matching. revert first. induction ready as [|p ready IH]; intros first; simpl.
  { by destruct first. }
  rewrite filterb_cons. destruct (clients pool !! p) as [client|] eqn:Hp; simpl; [|by rewrite IH].
  destruct (type_matches t client); simpl; [|by rewrite IH].
  rewrite filterb_cons. unfold idx_of at 1. rewrite Hp. simpl.
  destruct (lastIdx <? pc_idx client); simpl; [done|]. rewrite IH. by destruct first.
Qed.

(** The outcome of a selection, in one equation. *)
Definition rr_choice (lastIdx : Z) (pool : Pool) (l : list nat) : option nat :=
  match first_above lastIdx pool l with Some p => Some p | None => head l end.

Lemma runClientScheduler_choice ready t pool :
  round_robin pool = true ->
  runClientScheduler ready t pool =
    match rr_choice (default 0 (rrLastIndexes pool !! t)) pool (matching t pool ready) with
    | Some p => (with_rr t (idx_of pool p) pool, Some p)
    | None => (pool, None)
    end.
Proof.
  intros Hrr. unfold runClientScheduler, rr_choice. rewrite Hrr, rr_loop_matching.
  destruct (first_above _ _ _); [done|]. by destruct (head _).
Qed.

Lemma first_above_Some lastIdx pool l p :
  first_above lastIdx pool l = Some p -> p ∈ l /\ lastIdx < idx_of pool p.
Proof.
  unfold first_above. intros Hp%head_Some_elem_of. apply elem_of_filterb in Hp as [Hlt ?].
  apply Z.ltb_lt in Hlt. done.
Qed.

Lemma rr_choice_elem lastIdx pool l p : rr_choice lastIdx pool l = Some p -> p ∈ l.
Proof.
  unfold rr_choice. destruct (first_above lastIdx pool l) eqn:Hf.
  - intros [= <-]. by destruct (first_above_Some _ _ _ _ Hf).
  - apply head_Some_elem_of.
Qed.

Lemma rr_choice_None lastIdx pool l : rr_choice lastIdx pool l = None <-> l = [].
Proof.
  unfold rr_choice. split; [|intros ->; reflexivity].
  destruct (first_above _ _ _); [done|]. by destruct l.
Qed.

(** [n] selections from the same ready list. *)
Fixpoint select_n (n : nat) (ready : list nat) (t : ClientType) (pool : Pool) : Pool * list (option nat) :=
  match n with
  | O => (pool, [])
  | S n =>
      let (pool, sel) := runClientScheduler ready t pool in
      let (pool, sels) := select_n n ready t pool in
      (pool, sel :: sels)
  end.

Lemma first_above_split lastIdx pool l1 l2 :
  (forall p, p ∈ l1 -> idx_of pool p <= lastIdx) -> (forall p, p ∈ l2 -> lastIdx < idx_of pool p) ->
  first_above lastIdx pool (l1 ++ l2) = head l2.
Proof.
  intros H1 H2. unfold first_above. rewrite filterb_app.
  assert (filterb (fun p => lastIdx <? idx_of pool p) l1 = []) as ->.
  { destruct (filterb _ l1) as [|p l] eqn:Hl; [done|].
    assert (p ∈ p :: l) as Hp by set_solver. rewrite <- Hl in Hp.
    apply elem_of_filterb in Hp as [? Hp%H1]. lia. }
  destruct l2 as [|p l2]; simpl; [done|]. rewrite filterb_cons.
  assert (lastIdx <? idx_of pool p = true) as -> by (specialize (H2 p ltac:(set_solver)); lia). done.
Qed.

Definition by_idx (pool : Pool) (l : list nat) : Prop :=
  StronglySorted (fun p q => idx_of pool p < idx_of pool q) l.

Lemma by_idx_app pool l1 x l2 :
  by_idx pool (l1 ++ x :: l2) ->
  (forall p, p ∈ l1 ++ [x] -> idx_of pool p <= idx_of pool x) /\
  (forall p, p ∈ l2 -> idx_of pool x < idx_of pool p).
Proof.
  unfold by_idx. induction l1 as [|y l1 IH]; simpl; intros Hs; inversion Hs as [|? ? Hs' Hy]; subst.
  - rewrite Forall_forall in Hy. split; [|done]. intros p ->%list_elem_of_singleton. lia.
  - destruct (IH Hs') as [H1 H2]. split; [|done]. intros p [->|Hp]%elem_of_cons; [|by apply H1].
    rewrite Forall_forall in Hy. specialize (Hy x ltac:(set_solver)). lia.
Qed.

(** From the position after [l1], the next selections are those of [l2]. *)
Lemma select_n_ahead ready t pool l1 l2 l3 lastIdx :
  round_robin pool = true -> matching t pool ready = l1 ++ l2 ++ l3 -> by_idx pool (l1 ++ l2 ++ l3) ->
  default 0 (rrLastIndexes pool !! t) = lastIdx ->
  (forall p, p ∈ l1 -> idx_of pool p <= lastIdx) -> (forall p, p ∈ l2 ++ l3 -> lastIdx < idx_of pool p) ->
  exists pool' lastIdx', select_n (length l2) ready t pool = (pool', Some <$> l2) /\
    round_robin pool' = true /\ clients pool' = clients pool /\
    default 0 (rrLastIndexes pool' !! t) = lastIdx' /\
    (forall p, p ∈ l1 ++ l2 -> idx_of pool p <= lastIdx') /\ (forall p, p ∈ l3 -> lastIdx' < idx_of pool p).
Proof.
  revert pool l1 lastIdx. induction l2 as [|x l2 IH]; intros pool l1 lastIdx Hrr Hm Hs Hlast H1 H2; simpl.
  { exists pool, lastIdx. rewrite app_nil_r. done. }
  rewrite runClientScheduler_choice, Hlast, Hm by done. unfold rr_choice.
  rewrite (first_above_split lastIdx pool l1) by done. simpl.
  destruct (by_idx_app pool l1 x (l2 ++ l3) Hs) as [Hle Hgt].
  destruct (IH (with_rr t (idx_of pool x) pool) (l1 ++ [x]) (idx_of pool x)) as (pool' & last' & -> & ? & ? & ? & Ha & Hb).
  - done.
  - rewrite <- app_assoc. exact Hm.
  - rewrite <- app_assoc. exact Hs.
  - simpl. by rewrite lookup_insert_eq.
  - exact Hle.
  - exact Hgt.
  - exists pool', last'. rewrite <- app_assoc in Ha. done.
Qed.

Lemma select_n_app n m ready t pool :
  select_n (n + m) ready t pool =
    (let (pool1, s1) := select_n n ready t pool in
     let (pool2, s2) := select_n m ready t pool1 in (pool2, s1 ++ s2)).
Proof.
  revert pool. induction n as [|n IH]; intros pool; simpl.
  - by destruct (select_n m ready t pool).
  - destruct (runClientScheduler ready t pool) as [pool1 s]. rewrite IH.
    destruct (select_n n ready t pool1) as [pool2 s1]. by destruct (select_n m ready t pool2).
Qed.

Lemma matching_clients t pool pool' ready :
  clients pool' = clients pool -> matching t pool' ready = matching t pool ready.
Proof. intros Hc. unfold matching. by rewrite Hc. Qed.

Lemma idx_of_clients pool pool' : clients pool' = clients pool -> idx_of pool' = idx_of pool.
Proof. intros Hc. unfold idx_of. by rewrite Hc. Qed.

(** Any last index splits the matching clients. *)
Lemma by_idx_split pool l lastIdx :
  by_idx pool l -> exists l1 l2, l = l1 ++ l2 /\
    (forall p, p ∈ l1 -> idx_of pool p <= lastIdx) /\ (forall p, p ∈ l2 -> lastIdx < idx_of pool p).
Proof.
  induction 1 as [|x l Hs (l1 & l2 & -> & H1 & H2) Hx]; [exists [], []; set_solver|].
  rewrite Forall_forall in Hx. destruct (decide (idx_of pool x <= lastIdx)).
  - exists (x :: l1), l2. split; [done|]. split; [set_solver|done].
  - exists [], (x :: l1 ++ l2). split; [done|]. split; [set_solver|].
    intros p [->|Hp]%elem_of_cons; [lia|]. specialize (Hx p Hp). lia.
Qed.

Lemma round_robin_rotation ready t pool l1 l2 :
  round_robin pool = true -> matching t pool ready = l1 ++ l2 -> by_idx pool (l1 ++ l2) ->
  (forall p, p ∈ l1 -> idx_of pool p <= default 0 (rrLastIndexes pool !! t)) ->
  (forall p, p ∈ l2 -> default 0 (rrLastIndexes pool !! t) < idx_of pool p) ->
  (select_n (length (l1 ++ l2)) ready t pool).2 = Some <$> l2 ++ l1.
Proof.
  intros Hrr Hm Hs H1 H2. rewrite length_app, Nat.add_comm, select_n_app.
  destruct (select_n_ahead ready t pool l1 l2 [] (default 0 (rrLastIndexes pool !! t)) Hrr) as (pool' & last' & -> & Hrr' & Hc & Hlast & Hle & _);
    [by rewrite app_nil_r..|done|done|by rewrite app_nil_r|].
  destruct l1 as [|x l1]; [simpl; by rewrite !app_nil_r|]. simpl.
  assert (matching t pool' ready = x :: l1 ++ l2) as Hm' by (by rewrite (matching_clients _ pool)).
  assert (idx_of pool' = idx_of pool) as Hidx by (by apply idx_of_clients).
  rewrite runClientScheduler_choice, Hm', Hlast by done. unfold rr_choice.
  assert (first_above last' pool' (x :: l1 ++ l2) = None) as ->.
  { change (x :: l1 ++ l2) with ((x :: l1) ++ l2). rewrite <- (app_nil_r ((x :: l1) ++ l2)).
    rewrite first_above_split; [done|rewrite Hidx; exact Hle|set_solver]. }
  simpl. set (pool1 := with_rr _ _ _).
  destruct (by_idx_app pool [] x (l1 ++ l2) Hs) as [Hx Hgt].
  destruct (select_n_ahead ready t pool1 [x] l1 l2 (idx_of pool x)) as (pool2 & ? & -> & _); [done|..].
  - rewrite (matching_clients _ pool') by done. exact Hm'.
  - unfold by_idx. rewrite (idx_of_clients pool pool1) by done. exact Hs.
  - subst pool1. simpl. rewrite lookup_insert_eq. simpl. by rewrite Hidx.
  - rewrite (idx_of_clients pool pool1) by done. exact Hx.
  - rewrite (idx_of_clients pool pool1) by done. exact Hgt.
  - simpl. by rewrite fmap_app.
Qed.

(** *** The shuffle *)

Lemma insert_fold_lookup (es : list (nat * nat)) acc k :
  NoDup es.*1 -> (forall e, e ∈ es -> (e.1 < length acc)%nat) ->
  fold_left (fun acc (e : nat * nat) => <[e.1 := e.2]> acc) es acc !! k =
    match (list_to_map es : gmap nat nat) !! k with Some v => Some v | None => acc !! k end.
Proof.
  revert acc. induction es as [|[i v] es IH]; intros acc; simpl; [done|].
  intros [Hi Hnd]%NoDup_cons Hlt. rewrite IH; [|done|intros e He; rewrite length_insert; apply Hlt; set_solver].
  destruct (decide (k = i)) as [->|].
  - rewrite lookup_insert_eq. rewrite (not_elem_of_list_to_map_1 _ _ Hi).
    rewrite list_lookup_insert_eq; [done|]. by apply (Hlt (i, v)); set_solver.
  - rewrite lookup_insert_ne by done. by rewrite list_lookup_insert_ne.
Qed.

Lemma shuffle_perm perm ready :
  perm ≡ₚ seq 0 (length ready) -> shuffle perm ready ≡ₚ ready.
Proof.
  intros Hperm. assert (length perm = length ready) as Hlen by (by rewrite Hperm, length_seq).
  assert ((zip perm ready).*1 = perm) as Hfst by (apply fst_zip; lia).
  assert (NoDup (zip perm ready).*1) as Hnd by (rewrite Hfst, Hperm; apply NoDup_seq).
  assert (length (shuffle perm ready) = length ready) as Hls.
  { unfold shuffle. generalize (zip perm ready). intros es.
    assert (forall acc, length (fold_left (fun acc (e : nat * nat) => <[e.1 := e.2]> acc) es acc) = length acc) as ->.
    { induction es as [|e es IH]; intros acc; simpl; [done|]. by rewrite IH, length_insert. }
    by rewrite length_replicate. }
  assert (forall i k v, perm !! i = Some k -> ready !! i = Some v -> shuffle perm ready !! k = Some v) as Hlk.
  { intros i k v Hi Hv. unfold shuffle. rewrite insert_fold_lookup; [|done|].
    - assert ((list_to_map (zip perm ready) : gmap nat nat) !! k = Some v) as ->; [|done].
      apply elem_of_list_to_map; [done|]. apply list_elem_of_lookup. exists i.
      rewrite lookup_zip_with, Hi. simpl. by rewrite Hv.
    - intros [a b] Hab. simpl. rewrite length_replicate.
      assert (a ∈ perm) as Ha by (rewrite <- Hfst; by apply (list_elem_of_fmap_2 fst _ (a, b))).
      rewrite Hperm in Ha. apply elem_of_seq in Ha. lia. }
  assert (ready = (fun k => default 0%nat (shuffle perm ready !! k)) <$> perm) as Hready.
  { apply list_eq. intros i. rewrite list_lookup_fmap.
    destruct (ready !! i) as [v|] eqn:Hv.
    - destruct (lookup_lt_is_Some_2 perm i) as [k Hk]; [apply lookup_lt_Some in Hv; lia|].
      rewrite Hk. simpl. by rewrite (Hlk i k v).
    - apply lookup_ge_None in Hv. by rewrite (proj2 (lookup_ge_None perm i)) by lia. }
  remember (shuffle perm ready) as s eqn:Hs. clear Hs.
  assert (s = (fun k => default 0%nat (s !! k)) <$> seq 0 (length s)) as Hid.
  { apply list_eq. intros i. rewrite list_lookup_fmap. destruct (s !! i) as [v|] eqn:Hv.
    - rewrite lookup_seq_lt by (by apply lookup_lt_Some in Hv). simpl. by rewrite Hv.
    - apply lookup_ge_None in Hv. by rewrite lookup_seq_ge. }
  rewrite Hready, Hid at 1. apply fmap_Permutation. rewrite Hls. by symmetry.
Qed.

(** Indexes grow with the position and are below the counter. *)
Definition indexes_ok (pool : Pool) : Prop :=
  (forall p q c d, clients pool !! p = Some c -> clients pool !! q = Some d -> (p < q)%nat -> pc_idx c < pc_idx d) /\
  (forall p c, clients pool !! p = Some c -> 0 <= pc_idx c < clientCounter pool).

Lemma matching_by_idx t pool l :
  indexes_ok pool -> StronglySorted lt l -> by_idx pool (matching t pool l).
Proof.
  intros [Hasc _] Hs. unfold matching, by_idx.
  induction Hs as [|p l Hs IH Hp]; [constructor|]. rewrite filterb_cons.
  destruct (clients pool !! p) as [c|] eqn:Hc; simpl; [|done].
  destruct (type_matches t c); [|done]. constructor; [done|].
  rewrite Forall_forall in Hp |- *. intros q [Hq Hin]%elem_of_filterb.
  destruct (clients pool !! q) as [d|] eqn:Hd; [|done]. unfold idx_of. rewrite Hc, Hd. simpl.
  eapply Hasc; [done..|by apply Hp].
Qed.
End pool.

Arguments Pool C : clear implicits.

(** ** A concrete pool for the examples *)

Record ex_client := mkExClient { ex_idx : Z; ex_type : ClientType; ex_online : bool; ex_head : Z * Root }.

#[export] Instance ex_pool_client : PoolClient ex_client := {|
  pc_idx := ex_idx; pc_type := ex_type; pc_online := ex_online; pc_head := ex_head |}.

(** Four clients on the blocks of [ex_index]: two forks, one client offline. *)
Definition ex_pool : Pool ex_client := mkPool 2 true 4
  [mkExClient 0 LighthouseClient true (5, 3%N); mkExClient 1 TekuClient true (1, 1%N);
   mkExClient 2 LighthouseClient true (5, 4%N); mkExClient 3 PrysmClient false (2, 2%N)] ∅ ∅.

#[export] Instance ex_view : ChainView := index_view ex_index.

#[export] Instance ex_view_order : ChainOrder ex_view.
Proof. apply index_view_order; [apply ex_index_wf|apply ex_index_decrease]. Qed.

Definition ex_forks : list HeadFork :=
  [mkHeadFork 5 3 [0; 1]%nat [0; 1; 3]%nat; mkHeadFork 5 4 [2]%nat [2]%nat].

Lemma ex_pool_forks : computeHeadForks 2 ex_pool = ex_forks.
Proof. by vm_compute. Qed.

Lemma ex_pool_indexes : indexes_ok ex_pool.
Proof.
  split.
  - intros p q c d Hp Hq Hlt.
    do 4 (destruct p as [|p]; [do 5 (destruct q as [|q]; simpl in *; simplify_eq; simpl; try lia)|]).
    all: simpl in *; simplify_eq.
  - intros p c Hp. do 4 (destruct p as [|p]; simpl in *; simplify_eq; simpl; try lia).
Qed.

(** ** Properties *)

(** C28: The head forks partition the clients: every client of the pool is in
    exactly one fork, in the order of the pool; the head of a fork is the
    last head of one of its clients, every client of the fork has its head on
    the fork's chain, and no fork's head is on the chain of another fork. *)
Theorem computeHeadForks_partition {C} `{PoolClient C} `{!ChainOrder view} `{SliceSort} d (pool : Pool C) :
  let forks := computeHeadForks d pool in
  forks ≫= AllClients ≡ₚ seq 0 (length (clients pool)) /\
  pairwise (fun f g => cv_canonical (Fork_Root f) (Fork_Root g) = false /\
    cv_canonical (Fork_Root g) (Fork_Root f) = false) forks /\
  forall f, f ∈ forks -> StronglySorted lt (AllClients f) /\
    (exists p c, p ∈ AllClients f /\ clients pool !! p = Some c /\ pc_head c = (Fork_Slot f, Fork_Root f)) /\
    (forall p, p ∈ AllClients f -> exists c, clients pool !! p = Some c /\
      cv_canonical (pc_head c).2 (Fork_Root f) = true).
Proof.
  destruct (computeHeadForks_sound d pool) as (Hall & Heach & Hun & _).
  split; [done|]. split; [done|]. intros f Hf. destruct (Heach f Hf) as [[Hs Hc (p & c & ? & Hin & ?)] _].
  split; [done|]. split.
  - exists p, c. by rewrite <- elem_of_client_entries.
  - intros q Hq. destruct (Hc q Hq) as (c' & ? & ?). exists c'. by rewrite <- elem_of_client_entries.
Qed.

Lemma computeHeadForks_partition_witness :
  computeHeadForks 2 ex_pool = ex_forks /\ ex_forks ≫= AllClients ≡ₚ [0; 1; 2; 3]%nat.
Proof.
  split; [apply ex_pool_forks|].
  destruct (computeHeadForks_partition 2 ex_pool) as (Hall & _).
  rewrite ex_pool_forks in Hall. exact Hall.
Defined.

(** C29: On a pool whose fork cache was reset, [GetCanonicalFork] returns a
    fork with the most ready clients (none iff the pool has no clients), and
    a client of a fork is ready iff it is online and its head is at most the
    fork distance behind the fork's head. *)
Theorem GetCanonicalFork_most_ready {C} `{PoolClient C} `{!ChainOrder view} `{SliceSort} d (pool : Pool C) :
  0 <= d < two64 ->
  let forks := computeHeadForks d pool in
  let fork := (GetCanonicalFork d (resetHeadForkCache pool)).2 in
  (fork = None <-> clients pool = []) /\
  (forall f, fork = Some f -> f ∈ forks /\
    forall g, g ∈ forks -> (length (ReadyClients g) <= length (ReadyClients f))%nat) /\
  (forall f p, f ∈ forks -> p ∈ ReadyClients f <-> p ∈ AllClients f /\
    exists c, clients pool !! p = Some c /\ pc_online c = true /\
      (cv_distance (pc_head c).2 (Fork_Root f)).2 <= d).
Proof.
  intros Hd forks fork. destruct (computeHeadForks_sound d pool) as (Hall & Heach & Hun & Hs).
  fold forks in Hall, Heach, Hs.
  assert (fork = head forks) as ->.
  { subst fork. unfold GetCanonicalFork, GetHeadForks. assert (d <? 0 = false) as -> by lia.
    simpl. rewrite lookup_empty. done. }
  split; [|split].
  - split.
    + destruct forks as [|f l]; [|done]. intros _. simpl in Hall. apply Permutation_nil_l in Hall.
      destruct (clients pool); [done|]. discriminate Hall.
    + intros Hnil. rewrite Hnil in Hall. simpl in Hall. destruct forks as [|f l] eqn:Hf; [done|].
      destruct (Heach f ltac:(set_solver)) as [[_ _ (p & c & Hp & _)] _].
      rewrite bind_cons in Hall. symmetry in Hall. apply Permutation_nil_l in Hall.
      symmetry in Hall. apply app_nil in Hall as [Hnil' _]. rewrite Hnil' in Hp. set_solver.
  - intros f Hf. destruct forks as [|f' l]; simpl in Hf; simplify_eq. split; [set_solver|].
    intros g [->|Hg]%elem_of_cons; [done|]. apply StronglySorted_inv in Hs as [_ Hs].
    rewrite Forall_forall in Hs. specialize (Hs g Hg). unfold ready_count in Hs. lia.
  - intros f p Hf. destruct (Heach f Hf) as [_ ->]. rewrite elem_of_filterb. unfold fork_ready.
    assert (d <? 0 = false) as -> by lia. rewrite u64_id by done. simpl.
    destruct (clients pool !! p) as [c|]; [|naive_solver].
    rewrite andb_true_iff, Z.leb_le.
    assert ((if decide (Fork_Root f = (pc_head c).2) then 0 else (cv_distance (pc_head c).2 (Fork_Root f)).2)
      = (cv_distance (pc_head c).2 (Fork_Root f)).2) as ->.
    { case_decide as Heq; [|done]. by rewrite <- Heq, cv_refl. }
    naive_solver.
Qed.

Lemma GetCanonicalFork_most_ready_witness :
  exists f, (GetCanonicalFork 2 (resetHeadForkCache ex_pool)).2 = Some f /\
    ReadyClients f = [0; 1]%nat /\ forall g, g ∈ ex_forks -> (length (ReadyClients g) <= 2)%nat.
Proof.
  exists (mkHeadFork 5 3 [0; 1]%nat [0; 1; 3]%nat).
  assert ((GetCanonicalFork 2 (resetHeadForkCache ex_pool)).2 = Some (mkHeadFork 5 3 [0; 1]%nat [0; 1; 3]%nat))
    as Hf by (by vm_compute).
  split; [exact Hf|]. split; [done|].
  destruct (GetCanonicalFork_most_ready 2 ex_pool ltac:(go_lia)) as (_ & Hmax & _).
  rewrite ex_pool_forks in Hmax. apply (Hmax _ Hf).
Defined.

(** Fork lists are cached per distance: once computed, whatever happens
    to the clients' status, the same forks with the same ready clients are
    returned until [resetHeadForkCache], which makes the next call compute
    them from the current clients.  Only head changes reset the cache, so a
    client that goes offline stays a ready endpoint until some client
    receives a block. *)
Theorem GetHeadForks_stale_until_reset {C} `{PoolClient C} `{ChainView} `{SliceSort} d (pool : Pool C) (cs : list C) :
  let (pool1, forks) := GetHeadForks d pool in
  GetHeadForks d (with_clients cs pool1) = (with_clients cs pool1, forks) /\
  (GetHeadForks d (resetHeadForkCache (with_clients cs pool1))).2 =
    computeHeadForks (if d <? 0 then ForkDistance pool else d) (with_clients cs pool).
Proof.
  unfold GetHeadForks. set (d' := if d <? 0 then ForkDistance pool else d).
  destruct (forkCache pool !! d') as [forks|] eqn:Hc; simpl.
  - fold d'. rewrite Hc. split; [done|]. rewrite lookup_empty. done.
  - fold d'. rewrite lookup_insert_eq. split; [done|]. rewrite lookup_empty. done.
Qed.

(** An endpoint returned by [GetReadyEndpoint] after a reset is a client
    of the pool that was online when the forks were computed and has the
    requested type; none is returned iff the canonical fork (the one with
    the most ready clients) has no ready client of that type. *)
Theorem GetReadyEndpoint_ready {C} `{PoolClient C} `{ChainView} `{SliceSort} t (pool : Pool C) :
  round_robin pool = true -> 0 <= ForkDistance pool -> forkCache pool = ∅ ->
  match (GetReadyEndpoint t pool).2 with
  | Some p => exists f c, head (computeHeadForks (ForkDistance pool) pool) = Some f /\
      p ∈ ReadyClients f /\ clients pool !! p = Some c /\ (t = AnyClient \/ pc_type c = t)
  | None => forall f p c, head (computeHeadForks (ForkDistance pool) pool) = Some f ->
      p ∈ ReadyClients f -> clients pool !! p = Some c -> t <> AnyClient /\ pc_type c <> t
  end.
Proof.
  intros Hrr Hd Hc. unfold GetReadyEndpoint, GetCanonicalFork, GetHeadForks. simpl.
  rewrite Hc, lookup_empty. simpl. set (forks := computeHeadForks (ForkDistance pool) pool).
  destruct forks as [|f forks]; simpl; [naive_solver|].
  destruct (ReadyClients f) as [|p0 ready] eqn:Hready.
  { simpl. intros f' p c [= <-]. rewrite Hready. set_solver. }
  rewrite <- Hready. rewrite runClientScheduler_choice by done.
  set (pool1 := with_forkCache _ _).
  assert (clients pool1 = clients pool) as Hcl by done.
  destruct (rr_choice _ pool1 _) as [p|] eqn:Hch; simpl.
  - apply rr_choice_elem in Hch. unfold matching in Hch. apply elem_of_filterb in Hch as [Ht Hp].
    rewrite Hcl in Ht. destruct (clients pool !! p) as [c|] eqn:Hpc; [|done]. simpl in Ht.
    exists f, c. split; [done|]. split; [done|]. split; [done|].
    unfold type_matches in Ht. apply orb_true_iff in Ht as [Ht|Ht]; [left|right]; lia.
  - apply rr_choice_None in Hch. intros f' p c [= <-] Hp Hpc.
    assert (type_matches t c = false) as Ht.
    { apply not_true_is_false. intros Ht. assert (p ∈ matching t pool1 (ReadyClients f)) as Hin.
      { unfold matching. apply elem_of_filterb. rewrite Hcl, Hpc. done. }
      rewrite Hch in Hin. set_solver. }
    unfold type_matches in Ht. apply orb_false_iff in Ht. lia.
Qed.

Lemma GetReadyEndpoint_ready_witness :
  (GetReadyEndpoint LighthouseClient ex_pool).2 = Some 0%nat /\
  exists c, clients ex_pool !! 0%nat = Some c /\ pc_type c = LighthouseClient.
Proof.
  assert ((GetReadyEndpoint LighthouseClient ex_pool).2 = Some 0%nat) as Hres by (by vm_compute).
  split; [exact Hres|].
  pose proof (GetReadyEndpoint_ready LighthouseClient ex_pool eq_refl ltac:(simpl; lia) eq_refl) as H.
  rewrite Hres in H. destruct H as (f & c & _ & _ & Hc & [Ht|Ht]); [discriminate Ht|].
  exists c. split; [exact Hc|exact Ht].
Defined.

(** C30: The scheduler is a fair round robin.  For a fork of the pool, as many
    consecutive selections as it has ready clients of the requested type
    return each of them exactly once, in the order of the indexes starting
    after the last selected index, whatever that index is. *)
Theorem round_robin_fair {C} `{PoolClient C} `{!ChainOrder view} `{SliceSort} d t (pool : Pool C) f :
  round_robin pool = true -> indexes_ok pool -> f ∈ computeHeadForks d pool ->
  let candidates := matching t pool (ReadyClients f) in
  let lastIdx := default 0 (rrLastIndexes pool !! t) in
  exists before after, candidates = before ++ after /\
    (forall p, p ∈ before -> idx_of pool p <= lastIdx) /\ (forall p, p ∈ after -> lastIdx < idx_of pool p) /\
    (select_n (length candidates) (ReadyClients f) t pool).2 = Some <$> after ++ before.
Proof.
  intros Hrr Hidx Hf candidates lastIdx. destruct (computeHeadForks_sound d pool) as (_ & Heach & _).
  destruct (Heach f Hf) as [[Hs _ _] Hready].
  assert (by_idx pool candidates) as Hby.
  { apply matching_by_idx; [done|]. rewrite Hready. by apply StronglySorted_filterb. }
  destruct (by_idx_split pool candidates lastIdx Hby) as (l1 & l2 & Heq & H1 & H2).
  exists l1, l2. split; [done|]. split; [done|]. split; [done|].
  rewrite Heq. apply round_robin_rotation; try done. by rewrite <- Heq.
Qed.

Lemma round_robin_fair_witness :
  (select_n 2 [0; 1]%nat AnyClient ex_pool).2 = [Some 1; Some 0]%nat /\
  exists before after, matching AnyClient ex_pool [0; 1]%nat = before ++ after /\
    (select_n 2 [0; 1]%nat AnyClient ex_pool).2 = Some <$> after ++ before.
Proof.
  split; [by vm_compute|].
  assert (mkHeadFork 5 3 [0; 1]%nat [0; 1; 3]%nat ∈ computeHeadForks 2 ex_pool) as Hf.
  { rewrite ex_pool_forks. unfold ex_forks. set_solver. }
  destruct (round_robin_fair 2 AnyClient ex_pool _ eq_refl ex_pool_indexes Hf)
    as (before & after & Heq & _ & _ & Hsel).
  exists before, after. split; [exact Heq|exact Hsel].
Defined.

(** Adding endpoints, successfully or not, keeps the client indexes
    strictly ascending in the order of the pool and below the counter, up to
    the 65535th call; a failed call changes nothing but the counter. *)
Theorem AddEndpoint_indexes {C} `{PoolClient C} new (pool : Pool C) :
  indexes_ok pool -> 0 <= clientCounter pool < 65535 ->
  (forall idx c, new idx = Ok c -> pc_idx c = idx) ->
  let (pool', r) := AddEndpoint new pool in
  indexes_ok pool' /\ clientCounter pool' = clientCounter pool + 1 /\
  match r with
  | Ok p => exists c, clients pool' = clients pool ++ [c] /\ p = length (clients pool) /\ pc_idx c = clientCounter pool
  | Err _ => clients pool' = clients pool
  end.
Proof.
  intros [Hasc Hlt] Hcnt Hnew. unfold AddEndpoint.
  assert (u16 (clientCounter pool + 1) = clientCounter pool + 1) as Hu by (unfold u16; apply Z.mod_small; lia).
  rewrite Hu. destruct (new (clientCounter pool)) as [c|e] eqn:Hn; simpl.
  - apply Hnew in Hn. split; [|split; [done|by exists c]]. split; simpl.
    + intros p q c1 c2 [H1|[? H1]]%lookup_app_Some [H2|[? H2]]%lookup_app_Some Hpq.
      * by eapply (Hasc p q).
      * apply list_lookup_singleton_Some in H2 as [_ <-]. apply Hlt in H1. lia.
      * apply lookup_lt_Some in H2. lia.
      * apply list_lookup_singleton_Some in H1 as [? _], H2 as [? _]. lia.
    + intros p c1 [H1|[_ H1]]%lookup_app_Some; [apply Hlt in H1; lia|].
      apply list_lookup_singleton_Some in H1 as [_ <-]. lia.
  - split; [|done]. split; [done|]. simpl. intros p c1 H1%Hlt. lia.
Qed.

Lemma AddEndpoint_indexes_witness :
  indexes_ok (AddEndpoint (fun i => Ok (mkExClient i TekuClient false (0, 0%N))) ex_pool).1.
Proof.
  pose proof (AddEndpoint_indexes (fun i => Ok (mkExClient i TekuClient false (0, 0%N))) ex_pool
    ex_pool_indexes ltac:(simpl; lia)) as H.
  apply H. by intros idx c [= <-].
Defined.

(** The execution pool hands out the ready clients of the canonical fork
    in the order of the random permutation: the shuffled list is a
    permutation of the fork's list, and the selected endpoint is one of
    them, of the requested type; none is selected iff there is no ready
    client of the type. *)
Theorem exec_GetReadyEndpoint_ready {C} `{PoolClient C} `{ChainView} `{SliceSort} perm t (pool : Pool C) :
  round_robin pool = true -> (forall n, perm n ≡ₚ seq 0 n) ->
  let ready := (exec_GetReadyEndpoints None pool).2 in
  (exec_GetReadyEndpoints (Some perm) pool).2 ≡ₚ ready /\
  match (exec_GetReadyEndpoint perm t pool).2 with
  | Some p => p ∈ matching t pool ready
  | None => matching t pool ready = []
  end.
Proof.
  intros Hrr Hperm. unfold exec_GetReadyEndpoint, exec_GetReadyEndpoints, GetCanonicalFork.
  assert (clients (GetHeadForks (-1) pool).1 = clients pool /\ round_robin (GetHeadForks (-1) pool).1 = true) as [Hcl Hrr'].
  { unfold GetHeadForks. by case_match. }
  destruct (GetHeadForks (-1) pool) as [pool1 forks]. simpl in *.
  assert (forall ready, match (runClientScheduler ready t pool1).2 with
    | Some p => p ∈ matching t pool ready | None => matching t pool ready = [] end) as Hsel.
  { intros ready. rewrite runClientScheduler_choice by done.
    rewrite <- (matching_clients t pool pool1 ready Hcl).
    destruct (rr_choice _ pool1 _) as [p|] eqn:Hch; [by eapply rr_choice_elem|by eapply rr_choice_None]. }
  destruct (head forks) as [f|]; simpl; [|split; [done|apply (Hsel [])]].
  destruct (ReadyClients f) as [|p0 ready]; simpl; [split; [done|apply (Hsel [])]|].
  pose proof (shuffle_perm (perm (length (p0 :: ready))) (p0 :: ready) (Hperm _)) as Hsh.
  split; [exact Hsh|]. specialize (Hsel (shuffle (perm (length (p0 :: ready))) (p0 :: ready))).
  simpl in *. assert (matching t pool (shuffle (perm (S (length ready))) (p0 :: ready)) ≡ₚ matching t pool (p0 :: ready)) as Hm.
  { unfold matching, filterb. by rewrite Hsh. }
  destruct (runClientScheduler _ t pool1) as [pool2 [p|]]; simpl in *; [by rewrite <- Hm|].
  rewrite Hsel in Hm. by apply Permutation_nil_l in Hm.
Qed.

Lemma exec_GetReadyEndpoint_ready_witness :
  (exec_GetReadyEndpoint (fun n => rev (seq 0 n)) AnyClient ex_pool).2 = Some 1%nat /\
  (1%nat ∈ matching AnyClient ex_pool (exec_GetReadyEndpoints None ex_pool).2).
Proof.
  assert ((exec_GetReadyEndpoint (fun n => rev (seq 0 n)) AnyClient ex_pool).2 = Some 1%nat) as Hres by (by vm_compute).
  split; [exact Hres|].
  assert (forall n, rev (seq 0 n) ≡ₚ seq 0 n) as Hperm by (intros n; symmetry; apply Permutation_rev).
  destruct (exec_GetReadyEndpoint_ready (fun n => rev (seq 0 n)) AnyClient ex_pool eq_refl Hperm) as [_ H].
  rewrite Hres in H. exact H.
Defined.

(** The names of client types round trip: a name that [ParseClientType]
    recognises is printed back unchanged by [String], and every declared
    type is recovered from its name, any other value parses as unknown. *)
Theorem client_type_roundtrip (name : string) (t : ClientType) :
  (ParseClientType name <> UnknownClient -> ClientType_String (ParseClientType name) = name) /\
  (1 <= t <= 7 -> ParseClientType (ClientType_String t) = t) /\
  (~ 1 <= t <= 7 -> ParseClientType (ClientType_String t) = UnknownClient).
Proof.
  split; [|split].
  - unfold ParseClientType. repeat case_decide; subst; done.
  - intros Ht. assert (t ∈ [1; 2; 3; 4; 5; 6; 7]) as Hin by (rewrite !elem_of_cons; lia).
    repeat (apply elem_of_cons in Hin as [->|Hin]; [by vm_compute|]). set_solver.
  - intros Ht. unfold ClientType_String.
    rewrite !decide_False by (unfold LighthouseClient, LodestarClient, NimbusClient, PrysmClient,
      TekuClient, GrandineClient, CaplinClient; lia).
    unfold ParseClientType. by rewrite !decide_False by (intros [=]).
Qed.

Lemma client_type_roundtrip_witness : ClientType_String (ParseClientType "teku") = "teku"%string.
Proof. destruct (client_type_roundtrip "teku" 5) as [H _]. apply H. by vm_compute. Defined.

(** An ASCII letter of a pattern. *)
Definition is_ascii (c : Ascii.ascii) : bool := (Ascii.nat_of_ascii c <? 128)%nat.

Lemma match_letter_fun c c' s s1 s2 :
  is_ascii c = true -> is_ascii c' = true ->
  match_letter c s = Some s1 -> match_letter c' s = Some s2 -> c = c' /\ s1 = s2.
Proof.
  intros Hc Hc'. destruct s as [|d s]; [done|]. unfold match_letter.
  set (lower := if (65 <=? Ascii.nat_of_ascii d)%nat && (Ascii.nat_of_ascii d <=? 90)%nat
    then Ascii.ascii_of_nat (Ascii.nat_of_ascii d + 32) else d).
  assert (is_ascii lower = true -> d <> "197"%char /\ d <> "226"%char) as Hlow.
  { intros Hl. split; intros ->; vm_compute in Hl; done. }
  destruct (Ascii.eqb_spec lower c) as [<-|], (Ascii.eqb_spec lower c') as [<-|].
  - by intros [= ->] [= ->].
  - intros _ H2. exfalso. destruct (Hlow Hc). repeat case_match; simplify_eq.
  - intros H1. exfalso. destruct (Hlow Hc'). repeat case_match; simplify_eq.
  - repeat case_match; intros; simplify_eq; done.
Qed.

Fixpoint all_ascii (s : string) : bool :=
  match s with "" => true | String c s => is_ascii c && all_ascii s end%string.

Lemma match_fold_prefix p1 p2 v :
  all_ascii p1 = true -> all_ascii p2 = true -> match_fold p1 v = true -> match_fold p2 v = true ->
  String.prefix p1 p2 = true \/ String.prefix p2 p1 = true.
Proof.
  revert p2 v. induction p1 as [|c p1 IH]; intros p2 v; simpl; [intros; left; by destruct p2|].
  destruct p2 as [|c' p2]; simpl; [intros; right; by destruct p1|].
  intros [Hc H1]%andb_true_iff [Hc' H2]%andb_true_iff.
  destruct (match_letter c v) as [s1|] eqn:Hm1; [|done].
  destruct (match_letter c' v) as [s2|] eqn:Hm2; [|done].
  destruct (match_letter_fun _ _ _ _ _ Hc Hc' Hm1 Hm2) as [-> ->].
  intros. destruct (Ascii.ascii_dec c' c') as [_|]; [|done]. by apply (IH _ s2).
Qed.

(** The type of a client is the one whose pattern its version string
    matches, or unknown if none does, in whatever order the pattern map is
    visited: at most one pattern can match. *)
Theorem parseClientVersion_order_independent (order : list (ClientType * string)) (version : string) :
  order ≡ₚ clientTypePatterns ->
  match parseClientVersion order version with
  | t => (t = UnknownClient /\ forall e, e ∈ clientTypePatterns -> match_fold e.2 version = false) \/
      (exists pat, (t, pat) ∈ clientTypePatterns /\ match_fold pat version = true /\
        forall e, e ∈ clientTypePatterns -> match_fold e.2 version = true -> e = (t, pat))
  end.
Proof.
  intros Hperm.
  assert (forall e1 e2, e1 ∈ clientTypePatterns -> e2 ∈ clientTypePatterns ->
    match_fold e1.2 version = true -> match_fold e2.2 version = true -> e1 = e2) as Huniq.
  { assert (Forall (fun e1 => Forall (fun e2 : ClientType * string => all_ascii e1.2 = true /\ all_ascii e2.2 = true /\
      (String.prefix e1.2 e2.2 = true \/ String.prefix e2.2 e1.2 = true -> e1 = e2))
      clientTypePatterns) clientTypePatterns) as Hall.
    { repeat (constructor; [repeat (constructor; [split; [done|split; [done|by intros [Hp|Hp]]]|]); constructor|]). constructor. }
    intros e1 e2 H1 H2 Hm1 Hm2. rewrite Forall_forall in Hall. specialize (Hall e1 H1).
    rewrite Forall_forall in Hall. destruct (Hall e2 H2) as (Ha & Hb & Hp).
    apply Hp. by eapply match_fold_prefix. }
  setoid_rewrite <- Hperm. setoid_rewrite <- Hperm in Huniq. clear Hperm.
  assert (forall l, (forall e, e ∈ l -> e ∈ order) ->
    (parseClientVersion l version = UnknownClient /\ forall e, e ∈ l -> match_fold e.2 version = false) \/
    (exists pat, (parseClientVersion l version, pat) ∈ l /\ match_fold pat version = true)) as Hl.
  { induction l as [|[t pat] l IH]; intros Hsub; simpl; [left; split; [done|set_solver]|].
    destruct (match_fold pat version) eqn:Hm; [right; exists pat; set_solver|].
    destruct IH as [[-> Hno]|(pat' & ? & ?)]; [set_solver| |right; exists pat'; set_solver].
    left. split; [done|]. intros e [->|He]%elem_of_cons; [done|by apply Hno]. }
  destruct (Hl order ltac:(done)) as [?|(pat & Hin & Hm)]; [by left|right].
  exists pat. split; [done|]. split; [done|]. intros e He Hme. by apply Huniq.
Qed.

Lemma parseClientVersion_order_independent_witness :
  parseClientVersion (rev clientTypePatterns) "teku/v24.1.0" = TekuClient.
Proof.
  assert (rev clientTypePatterns ≡ₚ clientTypePatterns) as Hperm by (symmetry; apply Permutation_rev).
  pose proof (parseClientVersion_order_independent (rev clientTypePatterns) "teku/v24.1.0" Hperm) as H.
  destruct H as [[_ Hno]|(pat & _ & _ & Hu)].
  - specialize (Hno (TekuClient, "teku/"%string)). vm_compute in Hno. exfalso.
    discriminate Hno. apply list_elem_of_lookup. by exists 4%nat.
  - assert ((TekuClient, "teku/"%string) ∈ clientTypePatterns) as Hin by (apply list_elem_of_lookup; by exists 4%nat).
    symmetry. exact (f_equal fst (Hu _ Hin eq_refl)).
Defined.
