(* ===== verification/ClientLogic.v ===== *)
(** * The consensus client

    clients/consensus/client.go and clientlogic.go: one client follows one
    beacon node, fills the shared block cache and reports heads and
    finality.  What the node answers, and the order of events, are inputs of
    the operations; the goroutine's loop is a function of the list of its
    events. *)

From S2P Require Import Prelude Dispatcher BlockIndex BlockCache Pool.

Open Scope Z_scope.

Inductive ClientStatus :=
  | ClientStatusOnline
  | ClientStatusOffline
  | ClientStatusSynchronizing
  | ClientStatusOptimistic.

#[export] Instance ClientStatus_eq_dec : EqDecision ClientStatus.
Proof. solve_decision. Defined.

(** The state of a client.  Its context, logger, RPC connection and the time
    of its last event, which only decides when the loop polls, are not
    state here. *)
Record Client := mkClient {
  cl_index : Z;
  versionStr : string;
  clientType : ClientType;
  isOnline : bool;
  isSyncing : bool;
  isOptimistic : bool;
  retryCounter : Z;
  lastError : option error;
  headSlot : Z;
  headRoot : Root;
  cl_finalizedEpoch : Z;
  cl_finalizedRoot : Root;
  cl_blockDispatcher : Dispatcher nat;
  cl_checkpointDispatcher : Dispatcher FinalizedCheckpoint
}.

Definition newPoolClient (idx : Z) : Client :=
  mkClient idx "" AnyClient false false false 0 None 0 0%N 0 0%N NewDispatcher NewDispatcher.

Definition GetStatus (c : Client) : ClientStatus :=
  if isSyncing c then ClientStatusSynchronizing
  else if isOptimistic c then ClientStatusOptimistic
  else if isOnline c then ClientStatusOnline
  else ClientStatusOffline.

Definition GetLastHead (c : Client) : Z * Root := (headSlot c, headRoot c).

#[export] Instance client_in_pool : PoolClient Client := {|
  pc_idx := cl_index; pc_type := clientType;
  pc_online := fun c => bool_decide (GetStatus c = ClientStatusOnline);
  pc_head := GetLastHead |}.

Definition set_head (slot : Z) (root : Root) (c : Client) : Client :=
  mkClient (cl_index c) (versionStr c) (clientType c) (isOnline c) (isSyncing c) (isOptimistic c)
    (retryCounter c) (lastError c) slot root (cl_finalizedEpoch c) (cl_finalizedRoot c)
    (cl_blockDispatcher c) (cl_checkpointDispatcher c).

Definition fire_block (b : nat) (c : Client) : Client :=
  mkClient (cl_index c) (versionStr c) (clientType c) (isOnline c) (isSyncing c) (isOptimistic c)
    (retryCounter c) (lastError c) (headSlot c) (headRoot c) (cl_finalizedEpoch c) (cl_finalizedRoot c)
    (Fire b (cl_blockDispatcher c)) (cl_checkpointDispatcher c).

Definition set_finalized (epoch : Z) (root : Root) (c : Client) : Client :=
  mkClient (cl_index c) (versionStr c) (clientType c) (isOnline c) (isSyncing c) (isOptimistic c)
    (retryCounter c) (lastError c) (headSlot c) (headRoot c) epoch root
    (cl_blockDispatcher c) (cl_checkpointDispatcher c).

Definition fire_checkpoint (x : FinalizedCheckpoint) (c : Client) : Client :=
  mkClient (cl_index c) (versionStr c) (clientType c) (isOnline c) (isSyncing c) (isOptimistic c)
    (retryCounter c) (lastError c) (headSlot c) (headRoot c) (cl_finalizedEpoch c) (cl_finalizedRoot c)
    (cl_blockDispatcher c) (Fire x (cl_checkpointDispatcher c)).

Definition set_online (x : bool) (c : Client) : Client :=
  mkClient (cl_index c) (versionStr c) (clientType c) x (isSyncing c) (isOptimistic c)
    (retryCounter c) (lastError c) (headSlot c) (headRoot c) (cl_finalizedEpoch c) (cl_finalizedRoot c)
    (cl_blockDispatcher c) (cl_checkpointDispatcher c).

Definition set_sync (syncing optimistic : bool) (c : Client) : Client :=
  mkClient (cl_index c) (versionStr c) (clientType c) (isOnline c) syncing optimistic
    (retryCounter c) (lastError c) (headSlot c) (headRoot c) (cl_finalizedEpoch c) (cl_finalizedRoot c)
    (cl_blockDispatcher c) (cl_checkpointDispatcher c).

Definition set_version (version : string) (t : ClientType) (c : Client) : Client :=
  mkClient (cl_index c) version t (isOnline c) (isSyncing c) (isOptimistic c)
    (retryCounter c) (lastError c) (headSlot c) (headRoot c) (cl_finalizedEpoch c) (cl_finalizedRoot c)
    (cl_blockDispatcher c) (cl_checkpointDispatcher c).

Definition set_retry (online : bool) (retries : Z) (e : option error) (c : Client) : Client :=
  mkClient (cl_index c) (versionStr c) (clientType c) online (isSyncing c) (isOptimistic c)
    retries e (headSlot c) (headRoot c) (cl_finalizedEpoch c) (cl_finalizedRoot c)
    (cl_blockDispatcher c) (cl_checkpointDispatcher c).

Section logic.
Context `{eth : Eth2}.

(** The pool and the block cache it owns. *)
Record World := mkWorld { w_cache : BlockCache; w_pool : Pool Client }.

Definition on_cache (f : BlockCache -> BlockCache) (w : World) : World :=
  mkWorld (f (w_cache w)) (w_pool w).

Definition on_client (p : nat) (f : Client -> Client) (w : World) : World :=
  mkWorld (w_cache w) (with_clients (alter f p (clients (w_pool w))) (w_pool w)).

Definition reset_forks (w : World) : World := mkWorld (w_cache w) (resetHeadForkCache (w_pool w)).

Definition client_ref (p : nat) (w : World) : ClientRef :=
  mkClientRef p (from_option cl_index 0 (clients (w_pool w) !! p)).

Definition on_block (b : nat) (f : Block -> Block) (w : World) : World :=
  on_cache (fun c => with_blocks (upd_block b f (blocks c)) c) w.

(** What the node answers while one block is processed: the header and the
    body by root. *)
Record block_answers := mkBlockAnswers {
  GetBlockHeaderByBlockroot : result BlockHeader;
  GetBlockBodyByBlockroot : result (option BlockBody)
}.

(** The last part of [processBlock]: the client's head. *)
Definition move_head (p b : nat) (slot : Z) (root : Root) (w : World) : World :=
  if decide (from_option headRoot 0%N (clients (w_pool w) !! p) = root) then w
  else on_client p (fire_block b) (reset_forks (on_client p (set_head slot root) w)).

(** The loader passed to [EnsureHeader]: the polled header, or the node's. *)
Definition header_load (hdr : option BlockHeader) (ans : block_answers) : result (option BlockHeader) :=
  match hdr with
  | Some h => Ok (Some h)
  | None => match GetBlockHeaderByBlockroot ans with Ok h => Ok (Some h) | Err e => Err e end
  end.

Definition processBlock (p : nat) (root : Root) (slot : Z) (hdr : option BlockHeader)
    (ans : block_answers) (w : World) : World * go_result (option error) :=
  let '(index, (cachedBlock, _)) := AddBlock root slot (blocks (w_cache w)) in
  match cachedBlock with
  | None => (w, Returned (Some "could not add block to cache"%string))
  | Some b =>
      let w := on_cache (with_blocks index) w in
      let w := on_block b (SetSeenBy (client_ref p w)) w in
      match blockHeap (blocks (w_cache w)) !! b with
      | None => (w, Panicked "invalid memory address or nil pointer dereference")
      | Some blk =>
          let '(_, blk1, r1) := EnsureHeader (header_load hdr ans) blk in
          let w := on_block b (fun _ => blk1) w in
          match r1 with
          | Panicked m => (w, Panicked m)
          | Returned (Some e) => (w, Returned (Some e))
          | Returned None =>
              let '(_, blk2, r2) := EnsureBlock (GetBlockBodyByBlockroot ans) blk1 in
              let w := on_block b (fun _ => blk2) w in
              match r2 with
              | Panicked m => (w, Panicked m)
              | Returned (_, Some e) => (w, Returned (Some e))
              | Returned (loaded, None) =>
                  let w := if loaded then on_cache (notifyBlockReady b) w else w in
                  (move_head p b slot root w, Returned None)
              end
          end
      end
  end.

Definition setFinalizedHead (p : nat) (epoch : Z) (root : Root) (w : World) : World :=
  if decide (from_option cl_finalizedRoot 0%N (clients (w_pool w) !! p) = root) then w
  else on_client p (fire_checkpoint (mkFinalizedCheckpoint epoch root))
         (on_cache (SetFinalizedCheckpoint epoch root) (on_client p (set_finalized epoch root) w)).

(** A block event moves the head even when the block was known. *)
Definition processBlockEvent (p : nat) (slot : Z) (root : Root) (ans : block_answers) (w : World)
    : World * go_result (option error) :=
  match processBlock p root slot None ans w with
  | (w, Panicked m) => (w, Panicked m)
  | (w, Returned (Some e)) => (w, Returned (Some ("could not process block: " +:+ e)%string))
  | (w, Returned None) => (reset_forks (on_client p (set_head slot root) w), Returned None)
  end.

Definition processFinalizedEvent (p : nat) (epoch : Z) (root : Root) (w : World) : World :=
  setFinalizedHead p epoch root w.

(** The answers to a poll: the latest head (a nil header is possible), the
    block's body and the finality checkpoint. *)
Record poll_answers := mkPollAnswers {
  GetLatestBlockHead : result (option (Root * BlockHeader));
  poll_block : block_answers;
  GetFinalityCheckpoints : result (Z * Root)
}.

Definition pollClientHead (p : nat) (ans : poll_answers) (w : World) : World * go_result (option error) :=
  match GetLatestBlockHead ans with
  | Err e => (w, Returned (Some ("could not get latest header: " +:+ e)%string))
  | Ok None => (w, Returned (Some "could not find latest header"%string))
  | Ok (Some (root, h)) =>
      match processBlock p root (header_Slot h) (Some h) (poll_block ans) w with
      | (w, Panicked m) => (w, Panicked m)
      | (w, Returned (Some e)) => (w, Returned (Some ("could not get process block: " +:+ e)%string))
      | (w, Returned None) =>
          match GetFinalityCheckpoints ans with
          | Err e => (w, Returned (Some ("could not get finality checkpoint: " +:+ e)%string))
          | Ok (epoch, root) => (setFinalizedHead p epoch root w, Returned None)
          end
      end
  end.

(** The answers to the start-up checks; the sync status may be nil. *)
Record check_answers := mkCheckAnswers {
  Initialize : option error;
  GetNodeVersion : result string;
  GetGenesis : result Genesis;
  GetConfigSpecs : result SpecValues;
  GetNodeSyncing : result (option (bool * bool))
}.

(** [order] is the order in which the pattern map is visited. *)
Definition checkClient (order : list (ClientType * string)) (p : nat) (ans : check_answers) (w : World)
    : World * option error :=
  match Initialize ans with
  | Some e => (w, Some ("initialization of attestantio/go-eth2-client failed: " +:+ e)%string)
  | None =>
  match GetNodeVersion ans with
  | Err e => (w, Some ("error while fetching node version: " +:+ e)%string)
  | Ok nodeVersion =>
  let w := on_client p (set_version nodeVersion (parseClientVersion order nodeVersion)) w in
  match GetGenesis ans with
  | Err e => (w, Some ("error while fetching genesis: " +:+ e)%string)
  | Ok g =>
  let (c, err) := SetGenesis g (w_cache w) in
  let w := on_cache (fun _ => c) w in
  match err with
  | Some e => (w, Some ("invalid genesis: " +:+ e)%string)
  | None =>
  match GetConfigSpecs ans with
  | Err e => (w, Some ("error while fetching specs: " +:+ e)%string)
  | Ok values =>
  let (c, err) := SetClientSpecs values (w_cache w) in
  let w := on_cache (fun _ => c) w in
  match err with
  | Some e => (w, Some ("invalid node specs: " +:+ e)%string)
  | None =>
  let w := on_cache InitWallclock w in
  match GetNodeSyncing ans with
  | Err e => (w, Some ("error while fetching synchronization status: " +:+ e)%string)
  | Ok None => (w, Some "could not get synchronization status"%string)
  | Ok (Some (syncing, optimistic)) => (on_client p (set_sync syncing optimistic) w, None)
  end end end end end end end.

(** [runClientLogic] up to the event loop. *)
Definition start_logic (p : nat) (ans : poll_answers) (w : World) : World * go_result (option error) :=
  match pollClientHead p ans w with
  | (w, Panicked m) => (w, Panicked m)
  | (w, Returned (Some e)) => (w, Returned (Some e))
  | (w, Returned None) =>
      match clients (w_pool w) !! p with
      | None => (w, Panicked "invalid memory address or nil pointer dereference")
      | Some client =>
          if isSyncing client then (w, Returned (Some "beacon node is synchronizing"%string))
          else if isOptimistic client then (w, Returned (Some "beacon node is optimistic"%string))
          else match specs (w_cache w) with
          | None => (w, Panicked "invalid memory address or nil pointer dereference")
          | Some s =>
              if headSlot client <? finalizedEpoch (w_cache w) *u SlotsPerEpoch s
              then (w, Returned (Some "beacon node is behind finalized checkpoint"%string))
              else (w, Returned None)
          end
      end
  end.

(** What the select of the event loop receives. *)
Inductive client_event :=
  | CtxDone
  | StreamBlock (slot : Z) (root : Root) (ans : block_answers)
  | StreamFinalized (epoch : Z) (root : Root)
  | StreamReady (ready : bool)
  | EventTimeout (ans : poll_answers).

(** The loop over the received events: [Some] is the loop's return value, the
    end of the list means it is still waiting. *)
Fixpoint event_loop (p : nat) (events : list client_event) (w : World)
    : World * go_result (option (option error)) :=
  match events with
  | [] => (w, Returned None)
  | CtxDone :: _ => (w, Returned (Some None))
  | StreamBlock slot root ans :: events =>
      match processBlockEvent p slot root ans w with
      | (w, Panicked m) => (w, Panicked m)
      | (w, Returned _) => event_loop p events w
      end
  | StreamFinalized epoch root :: events => event_loop p events (processFinalizedEvent p epoch root w)
  | StreamReady ready :: events => event_loop p events (on_client p (set_online ready) w)
  | EventTimeout ans :: events =>
      match pollClientHead p ans w with
      | (w, Panicked m) => (w, Panicked m)
      | (w, Returned (Some e)) => (on_client p (set_online false) w, Returned (Some (Some e)))
      | (w, Returned None) => event_loop p events w
      end
  end.

Definition runClientLogic (p : nat) (ans : poll_answers) (events : list client_event) (w : World)
    : World * go_result (option (option error)) :=
  match start_logic p ans w with
  | (w, Panicked m) => (w, Panicked m)
  | (w, Returned (Some e)) => (w, Returned (Some (Some e)))
  | (w, Returned None) => event_loop p events w
  end.

(** The wait before the next attempt, in seconds, after [retries] failures. *)
Definition waitTime (retries : Z) : Z :=
  if 10 <? retries then 300 else if 5 <? retries then 60 else 10.

(** One round of [runClientLoop]: [None] while the logic is still running,
    [Some None] when the loop ends and [Some (Some s)] when it retries after
    [s] seconds.  A panic ends the loop: it is recovered by the goroutine's
    deferred function, which only logs it. *)
Definition client_round (order : list (ClientType * string)) (p : nat) (check : check_answers)
    (poll : poll_answers) (events : list client_event) (w : World) : World * option (option Z) :=
  let '(w, r) :=
    match checkClient order p check w with
    | (w, Some e) => (w, Returned (Some (Some e)))
    | (w, None) => runClientLogic p poll events w
    end in
  match r with
  | Panicked _ => (w, Some None)
  | Returned None => (w, None)
  | Returned (Some None) => (on_client p (fun c => set_retry (isOnline c) 0 (lastError c) c) w, Some None)
  | Returned (Some (Some e)) =>
      let retries := from_option retryCounter 0 (clients (w_pool w) !! p) +u 1 in
      (on_client p (set_retry false retries (Some e)) w, Some (Some (waitTime retries)))
  end.

(** ** What every step of a client preserves *)

(** The index and the failure count of a client: only [runClientLoop] itself
    changes the count. *)
Definition client_key (c : Client) : Z * Z := (cl_index c, retryCounter c).

(** The cache stays well-formed, keeps its chain parameters, its finalized
    epoch does not go back, and no client appears, disappears or changes its
    index or failure count. *)
Record world_le (w w' : World) : Prop := {
  wle_index : index_wf (blocks (w_cache w)) -> index_wf (blocks (w_cache w'));
  wle_genesis : genesis (w_cache w') = genesis (w_cache w);
  wle_specs : specs (w_cache w') = specs (w_cache w);
  wle_finalized : finalizedEpoch (w_cache w) <= finalizedEpoch (w_cache w');
  wle_clients : client_key <$> clients (w_pool w') = client_key <$> clients (w_pool w)
}.

#[export] Instance world_le_preorder : PreOrder world_le.
Proof.
  split; [intros w; split; auto; lia|].
  intros w1 w2 w3 [] []. split; [auto|congruence|congruence|lia|congruence].
Qed.

Lemma on_client_le p f w :
  (forall c, client_key (f c) = client_key c) -> world_le w (on_client p f w).
Proof.
  intros Hf. split; simpl; auto; [lia|]. apply list_eq. intros i. rewrite !list_lookup_fmap.
  destruct (decide (p = i)) as [->|]; [|by rewrite list_lookup_alter_ne].
  rewrite list_lookup_alter_eq. destruct (clients (w_pool w) !! i); simpl; [by rewrite Hf|done].
Qed.

Lemma reset_forks_le w : world_le w (reset_forks w).
Proof. split; simpl; auto; lia. Qed.

Lemma on_block_le b f w :
  (forall x, blockHeap (blocks (w_cache w)) !! b = Some x -> Block_Root (f x) = Block_Root x /\ Block_Slot (f x) = Block_Slot x) ->
  world_le w (on_block b f w).
Proof.
  intros Hf. split; simpl; auto; [|lia]. intros Hwf.
  set (g := fun x : Block => if decide (Block_Root (f x) = Block_Root x /\ Block_Slot (f x) = Block_Slot x) then f x else x).
  assert (upd_block b f (blocks (w_cache w)) = upd_block b g (blocks (w_cache w))) as ->.
  { unfold upd_block. f_equal. apply map_eq. intros i. destruct (decide (b = i)) as [->|].
    - rewrite !lookup_alter_eq. destruct (blockHeap (blocks (w_cache w)) !! i) as [x|] eqn:Hx; [|done].
      simpl. f_equal. unfold g. rewrite decide_True; [done|by apply Hf].
    - by rewrite !lookup_alter_ne. }
  apply upd_block_wf; [|done]. intros x. simpl. unfold g. case_decide; tauto.
Qed.

Lemma add_block_le root slot w :
  0 <= slot < two63 -> world_le w (on_cache (with_blocks (AddBlock root slot (blocks (w_cache w))).1) w).
Proof. intros Hs. split; simpl; auto; [|lia]. intros Hwf. by apply AddBlock_wf. Qed.

Lemma move_head_le p b slot root w : world_le w (move_head p b slot root w).
Proof.
  unfold move_head. case_decide; [reflexivity|].
  etransitivity; [|by apply on_client_le]. etransitivity; [|apply reset_forks_le]. by apply on_client_le.
Qed.

Lemma EnsureHeader_keeps load b r :
  EnsureHeader load b = r -> Block_Root r.1.2 = Block_Root b /\ Block_Slot r.1.2 = Block_Slot b /\
  seenMap r.1.2 = seenMap b /\ blockChan r.1.2 = blockChan b /\ block r.1.2 = block b.
Proof. intros <-. unfold EnsureHeader. by repeat case_match. Qed.

Lemma EnsureBlock_keeps load b r :
  EnsureBlock load b = r -> Block_Root r.1.2 = Block_Root b /\ Block_Slot r.1.2 = Block_Slot b /\
  seenMap r.1.2 = seenMap b /\ headerChan r.1.2 = headerChan b /\ header r.1.2 = header b.
Proof. intros <-. unfold EnsureBlock. by repeat case_match. Qed.

(** Storing a block object that differs from the stored one only in its data. *)
Lemma store_block_le b blk blk' w :
  blockHeap (blocks (w_cache w)) !! b = Some blk -> Block_Root blk' = Block_Root blk -> Block_Slot blk' = Block_Slot blk ->
  world_le w (on_block b (fun _ => blk') w).
Proof. intros Hb Hr Hs. apply on_block_le. intros x Hx. by simplify_eq. Qed.

Lemma lookup_on_block b f w :
  blockHeap (blocks (w_cache (on_block b f w))) !! b = f <$> blockHeap (blocks (w_cache w)) !! b.
Proof. simpl. by rewrite lookup_alter_eq. Qed.

Lemma notify_le b w : world_le w (on_cache (notifyBlockReady b) w).
Proof. split; simpl; auto; lia. Qed.

Lemma processBlock_le p root slot hdr ans w w' r :
  0 <= slot < two63 -> processBlock p root slot hdr ans w = (w', r) -> world_le w w'.
Proof.
  intros Hslot. unfold processBlock. pose proof (add_block_le root slot w Hslot) as Hadd.
  destruct (AddBlock root slot (blocks (w_cache w))) as [index [[b|] new]]; [|by intros [= <- _]].
  cbn [fst] in Hadd. set (w0 := on_cache (with_blocks index) w) in *.
  set (w1 := on_block b (SetSeenBy (client_ref p w0)) w0).
  assert (world_le w w1) as H1 by (etransitivity; [done|by apply on_block_le]). clear Hadd.
  destruct (blockHeap (blocks (w_cache w1)) !! b) as [blk|] eqn:Hblk; [|by intros [= <- _]].
  destruct (EnsureHeader _ blk) as [[c1 blk1] r1] eqn:Hh. apply EnsureHeader_keeps in Hh as (Hr1 & Hs1 & _). simpl in Hr1, Hs1.
  assert (world_le w (on_block b (fun _ => blk1) w1)) as H2 by (etransitivity; [done|by eapply store_block_le]).
  destruct r1 as [[e|]|m]; [by intros [= <- _]| |by intros [= <- _]].
  destruct (EnsureBlock _ blk1) as [[c2 blk2] r2] eqn:Hb. apply EnsureBlock_keeps in Hb as (Hr2 & Hs2 & _). simpl in Hr2, Hs2.
  assert (world_le w (on_block b (fun _ => blk2) (on_block b (fun _ => blk1) w1))) as H3.
  { etransitivity; [done|]. eapply (store_block_le b blk1); [|done..]. by rewrite lookup_on_block, Hblk. }
  destruct r2 as [[loaded [e|]]|m]; [by intros [= <- _]| |by intros [= <- _]].
  intros [= <- _]. etransitivity; [exact H3|]. etransitivity; [|apply move_head_le].
  destruct loaded; [apply notify_le|reflexivity].
Qed.

Lemma SetFinalizedCheckpoint_le epoch root w : world_le w (on_cache (SetFinalizedCheckpoint epoch root) w).
Proof. unfold on_cache, SetFinalizedCheckpoint. destruct (_ <=? _) eqn:?; split; simpl; auto; lia. Qed.

Lemma setFinalizedHead_le p epoch root w : world_le w (setFinalizedHead p epoch root w).
Proof.
  unfold setFinalizedHead. case_decide; [reflexivity|].
  etransitivity; [|by apply on_client_le]. etransitivity; [|apply SetFinalizedCheckpoint_le]. by apply on_client_le.
Qed.

Lemma processBlockEvent_le p slot root ans w w' r :
  0 <= slot < two63 -> processBlockEvent p slot root ans w = (w', r) -> world_le w w'.
Proof.
  intros Hslot. unfold processBlockEvent. destruct (processBlock _ _ _ _ _ w) as [w1 r1] eqn:Hp.
  apply processBlock_le in Hp; [|done]. destruct r1 as [[e|]|m]; intros [= <- _]; [done| |done].
  etransitivity; [done|]. etransitivity; [|apply reset_forks_le]. by apply on_client_le.
Qed.

Definition poll_slot_ok (ans : poll_answers) : Prop :=
  match GetLatestBlockHead ans with Ok (Some (_, h)) => 0 <= header_Slot h < two63 | _ => True end.

Lemma pollClientHead_le p ans w w' r :
  poll_slot_ok ans -> pollClientHead p ans w = (w', r) -> world_le w w'.
Proof.
  unfold poll_slot_ok, pollClientHead. destruct (GetLatestBlockHead ans) as [[[root h]|]|e]; [|by intros _ [= <- _]..].
  intros Hslot. destruct (processBlock _ _ _ _ _ w) as [w1 r1] eqn:Hp. apply processBlock_le in Hp; [|done].
  destruct r1 as [[e|]|m]; [by intros [= <- _]| |by intros [= <- _]].
  destruct (GetFinalityCheckpoints ans) as [[epoch root']|e]; intros [= <- _]; [|done].
  etransitivity; [done|apply setFinalizedHead_le].
Qed.

Definition event_slot_ok (e : client_event) : Prop :=
  match e with
  | StreamBlock slot _ _ => 0 <= slot < two63
  | EventTimeout ans => poll_slot_ok ans
  | _ => True
  end.

Lemma event_loop_le p events w w' r :
  Forall event_slot_ok events -> event_loop p events w = (w', r) -> world_le w w'.
Proof.
  intros Hev. revert w. induction Hev as [|e events He _ IH]; intros w; simpl; [by intros [= <- _]|].
  destruct e as [|slot root ans|epoch root|ready|ans]; [by intros [= <- _]| | | |].
  - destruct (processBlockEvent _ _ _ _ w) as [w1 r1] eqn:Hp. apply processBlockEvent_le in Hp; [|done].
    destruct r1; [|by intros [= <- _]]. intros Hl. etransitivity; [done|by apply IH].
  - intros Hl. apply IH in Hl. etransitivity; [|exact Hl]. apply setFinalizedHead_le.
  - intros Hl. apply IH in Hl. etransitivity; [|exact Hl]. by apply on_client_le.
  - destruct (pollClientHead _ _ w) as [w1 r1] eqn:Hp. apply pollClientHead_le in Hp; [|done].
    destruct r1 as [[e|]|m]; [| |by intros [= <- _]].
    + intros [= <- _]. etransitivity; [done|by apply on_client_le].
    + intros Hl. etransitivity; [done|by apply IH].
Qed.

Lemma world_le_client w w' p c :
  client_key <$> clients (w_pool w') = client_key <$> clients (w_pool w) -> clients (w_pool w) !! p = Some c ->
  exists c', clients (w_pool w') !! p = Some c' /\ client_key c' = client_key c.
Proof.
  intros Hc Hp. apply (f_equal (fun l => l !! p)) in Hc. rewrite !list_lookup_fmap, Hp in Hc.
  destruct (clients (w_pool w') !! p) as [c'|]; simpl in Hc; [|discriminate Hc].
  injection Hc as Hi Hr. exists c'. split; [done|]. unfold client_key. congruence.
Qed.

Lemma checkClient_clients order p ans w :
  client_key <$> clients (w_pool (checkClient order p ans w).1) = client_key <$> clients (w_pool w).
Proof.
  assert (forall f (l : list Client), (forall c, client_key (f c) = client_key c) ->
    client_key <$> alter f p l = client_key <$> l) as Hon.
  { intros f l Hf. by destruct (on_client_le p f (mkWorld (w_cache w) (with_clients l (w_pool w))) Hf). }
  unfold checkClient. repeat case_match; simpl; rewrite ?Hon by done; done.
Qed.

Lemma runClientLogic_clients p ans events w :
  poll_slot_ok ans -> Forall event_slot_ok events ->
  client_key <$> clients (w_pool (runClientLogic p ans events w).1) = client_key <$> clients (w_pool w).
Proof.
  intros Hp Hev. unfold runClientLogic, start_logic. destruct (pollClientHead p ans w) as [w1 r1] eqn:Hpoll.
  apply pollClientHead_le in Hpoll as [_ _ _ _ Hc]; [|done].
  destruct r1 as [[e|]|m]; simpl; [done| |done].
  repeat (case_match; simplify_eq/=; try done).
  all: destruct (event_loop _ _ _) as [w2 r2] eqn:Hl; apply event_loop_le in Hl as [_ _ _ _ Hc']; [|done]; simpl; congruence.
Qed.

(** ** One run of [processBlock] *)

Lemma on_block_twice b f x w : on_block b (fun _ => x) (on_block b f w) = on_block b (fun _ => x) w.
Proof.
  unfold on_block, on_cache, with_blocks, upd_block. simpl.
  assert (alter (fun _ => x) b (alter f b (blockHeap (blocks (w_cache w)))) =
    alter (fun _ => x) b (blockHeap (blocks (w_cache w)))) as ->; [|done]. apply map_eq. intros i. destruct (decide (b = i)) as [->|].
  - rewrite !lookup_alter_eq. by destruct (blockHeap _ !! i).
  - by rewrite !lookup_alter_ne.
Qed.

(** The state after the block was found or created, and the client noted. *)
Definition added_world (index : BlockIndex Block) (w : World) : World := on_cache (with_blocks index) w.

Lemma processBlock_eq p root slot hdr ans w index b new blk :
  AddBlock root slot (blocks (w_cache w)) = (index, (Some b, new)) -> blockHeap index !! b = Some blk ->
  processBlock p root slot hdr ans w =
    let w0 := added_world index w in
    let '(_, blk1, r1) := EnsureHeader (header_load hdr ans) (SetSeenBy (client_ref p w) blk) in
    match r1 with
    | Panicked m => (on_block b (fun _ => blk1) w0, Panicked m)
    | Returned (Some e) => (on_block b (fun _ => blk1) w0, Returned (Some e))
    | Returned None =>
        let '(_, blk2, r2) := EnsureBlock (GetBlockBodyByBlockroot ans) blk1 in
        let w2 := on_block b (fun _ => blk2) w0 in
        match r2 with
        | Panicked m => (w2, Panicked m)
        | Returned (_, Some e) => (w2, Returned (Some e))
        | Returned (loaded, None) =>
            (move_head p b slot root (if loaded then on_cache (notifyBlockReady b) w2 else w2), Returned None)
        end
    end.
Proof.
  intros Hadd Hb. unfold processBlock. rewrite Hadd, lookup_on_block. simpl. rewrite Hb. simpl.
  change (mkWorld (with_blocks index (w_cache w)) (w_pool w)) with (added_world index w).
  change (client_ref p (on_cache (with_blocks index) w)) with (client_ref p w).
  unfold added_world. destruct (EnsureHeader _ _) as [[c1 blk1] [[e|]|m]]; rewrite ?on_block_twice; [done| |done].
  destruct (EnsureBlock _ _) as [[c2 blk2] [[loaded [e|]]|m]]; rewrite ?on_block_twice; done.
Qed.

End logic.

(** ** A concrete world for the examples: two clients, an empty cache *)

Definition ex_world : @World ex_eth := @mkWorld ex_eth
  (@mkBlockCache ex_eth (NewBlockIndex 10) (Some (ex_spec 32)) (Some 32) None None 0 0%N 0 None NewDispatcher NewDispatcher)
  (mkPool 1 true 2 [newPoolClient 0; newPoolClient 1] ∅ ∅).

Definition ex_answers (body : result (option N)) : @block_answers ex_eth :=
  @mkBlockAnswers ex_eth (Ok (mkBlockHeader 7 5%N)) body.

Lemma ex_world_wf : index_wf (blocks (@w_cache ex_eth ex_world)).
Proof. apply NewBlockIndex_wf. lia. Qed.

(** ** Properties *)

(** When [processBlock] succeeds, the block is in the cache under its
    root, with its header, noted as seen by the client, and it is the
    client's head; if the head changed, the head slot is the block's, the
    fork cache was reset and the client's block subscribers were notified,
    otherwise the pool is untouched. *)
Theorem processBlock_success `{eth : Eth2} p root slot hdr ans (w w' : World) client :
  index_wf (blocks (w_cache w)) -> 0 <= slot < two63 -> clients (w_pool w) !! p = Some client ->
  processBlock p root slot hdr ans w = (w', Returned None) ->
  exists b blk client',
    blockRootMap (blocks (w_cache w')) !! root = Some b /\ blockHeap (blocks (w_cache w')) !! b = Some blk /\
    Block_Root blk = root /\ is_Some (header blk) /\
    seenMap blk !! cl_index client = Some (mkClientRef p (cl_index client)) /\
    clients (w_pool w') !! p = Some client' /\ headRoot client' = root /\
    (headRoot client = root -> w_pool w' = w_pool w) /\
    (headRoot client <> root -> headSlot client' = slot /\ forkCache (w_pool w') = ∅ /\
      cl_blockDispatcher client' = Fire b (cl_blockDispatcher client)).
Proof.
  intros Hwf Hslot Hp. destruct (AddBlock root slot (blocks (w_cache w))) as [index [[b|] new]] eqn:Hadd;
    [|by unfold processBlock; rewrite Hadd].
  destruct (AddBlock_cached _ _ _ _ _ _ Hwf Hslot Hadd) as (blk & Hb & Hroot & Hmap & _).
  rewrite (processBlock_eq _ _ _ _ _ _ _ _ _ _ Hadd Hb). cbn zeta.
  assert (client_ref p w = mkClientRef p (cl_index client)) as -> by (unfold client_ref; by rewrite Hp).
  set (blk0 := SetSeenBy (mkClientRef p (cl_index client)) blk).
  destruct (EnsureHeader _ blk0) as [[c1 blk1] r1] eqn:Hh.
  pose proof (EnsureHeader_keeps _ _ _ Hh) as (Hr1 & _ & Hs1 & _). simpl in Hr1, Hs1.
  assert (r1 = Returned None -> is_Some (header blk1)) as Hheader.
  { unfold EnsureHeader, header_load in Hh. intros ->. destruct (header blk0) eqn:H0; [simplify_eq; by rewrite H0|].
    repeat case_match; simplify_eq; by eexists. }
  destruct r1 as [[e|]|m]; [done| |done].
  destruct (EnsureBlock _ blk1) as [[c2 blk2] r2] eqn:He.
  pose proof (EnsureBlock_keeps _ _ _ He) as (Hr2 & _ & Hs2 & _ & Hh2). simpl in Hr2, Hs2, Hh2.
  destruct r2 as [[loaded [e|]]|m]; [done| |done]. intros [= <-].
  set (w2 := on_block b (fun _ => blk2) (added_world index w)).
  set (w3 := if loaded then on_cache (notifyBlockReady b) w2 else w2).
  assert (w_pool w3 = w_pool w) as Hpool by (subst w3; by destruct loaded).
  assert (blocks (w_cache w3) = blocks (w_cache w2)) as Hcache by (subst w3; by destruct loaded).
  assert (blocks (w_cache (move_head p b slot root w3)) = blocks (w_cache w2)) as Hc.
  { rewrite <- Hcache. unfold move_head. by case_decide. }
  rewrite Hc. unfold move_head. rewrite Hpool, Hp. simpl. exists b, blk2.
  rewrite lookup_alter_eq, Hb, Hr2, Hr1, Hh2, Hs2, Hs1. simpl. rewrite lookup_insert_eq.
  case_decide as Hhead.
  - exists client. rewrite Hpool. split_and!; try done. by apply Hheader.
  - exists (fire_block b (set_head slot root client)). simpl. rewrite Hpool, list_lookup_alter_eq, list_lookup_alter_eq, Hp.
    split_and!; try done. by apply Hheader.
Qed.

Lemma processBlock_success_witness :
  exists w', processBlock 0 5 7 None (ex_answers (Ok (Some 9%N))) ex_world = (w', Returned None) /\
  exists b, blockRootMap (blocks (w_cache w')) !! 5%N = Some b.
Proof.
  destruct (processBlock 0 5 7 None (ex_answers (Ok (Some 9%N))) ex_world) as [w' r] eqn:Hrun.
  assert (r = Returned None) as -> by (apply (f_equal snd) in Hrun; vm_compute in Hrun; congruence).
  exists w'. split; [reflexivity|].
  destruct (processBlock_success 0 5 7 None (ex_answers (Ok (Some 9%N))) ex_world w' (newPoolClient 0)
    ex_world_wf ltac:(go_lia) eq_refl Hrun) as (b & _ & _ & Hb & _).
  exists b. exact Hb.
Defined.

(** A beacon node that answers the body request of a new block with 404
    (success without a body) makes the block unusable: the first client
    takes the block as loaded and notifies, and every other client that
    receives the body then panics in [processBlock]; its event loop is
    over, no matter which events follow, while its status is still what it
    was before, so an online client stays online without following the
    chain. *)
Theorem missing_body_kills_clients `{eth : Eth2} p q root slot hdr ans1 ans2 events (w : World) :
  index_wf (blocks (w_cache w)) -> 0 <= slot < two63 ->
  blockRootMap (blocks (w_cache w)) !! root = None ->
  maxSlotIdx (blocks (w_cache w)) - followDistance (blocks (w_cache w)) <= slot ->
  is_ok (header_load hdr ans1) = true -> GetBlockBodyByBlockroot ans1 = Ok None ->
  is_ok (GetBlockBodyByBlockroot ans2) = true ->
  let (w1, r1) := processBlock p root slot hdr ans1 w in
  r1 = Returned None /\
  exists w2, event_loop q (StreamBlock slot root ans2 :: events) w1 =
    (w2, Panicked "close of closed channel") /\
  GetStatus <$> clients (w_pool w2) = GetStatus <$> clients (w_pool w1).
Proof.
  intros Hwf Hslot Hnone Hcut Hh1 Hb1 Hb2.
  destruct (AddBlock root slot (blocks (w_cache w))) as [index [[b|] new]] eqn:Hadd; cycle 1.
  { exfalso. unfold AddBlock in Hadd. rewrite Hnone in Hadd.
    destruct ((0 <? cutOff (blocks (w_cache w))) && (slot <? u64 (cutOff (blocks (w_cache w))))) eqn:Hc; [|by simplify_eq].
    rewrite cutOff_exact in Hc by done. apply andb_true_iff in Hc as [? Hc].
    destruct (iwf_max _ Hwf) as [? _]. pose proof (iwf_follow _ Hwf). rewrite u64_id in Hc by go_lia. lia. }
  destruct (AddBlock_cached _ _ _ _ _ _ Hwf Hslot Hadd) as (blk & Hb & Hroot & Hmap & Hn & Hnew).
  rewrite bool_decide_true in Hn by done. specialize (Hnew Hn). subst new blk.
  rewrite (processBlock_eq _ _ _ _ _ _ _ _ _ _ Hadd Hb). cbn zeta.
  unfold EnsureHeader at 1. simpl. destruct (header_load hdr ans1) as [oh|e] eqn:Hload; [|done].
  assert (is_Some oh) as [h ->] by (unfold header_load in Hload; repeat case_match; simplify_eq; eauto).
  rewrite Hb1. unfold EnsureBlock. simpl.
  set (blk2 := mkBlock _ _ _ _ _ _ _). set (w3 := on_cache (notifyBlockReady b) _).
  split; [done|]. unfold processBlockEvent.
  set (w4 := move_head p b slot root w3).
  assert (blocks (w_cache w4) = upd_block b (fun _ => blk2) index) as Hw4.
  { subst w4. unfold move_head. case_decide; done. }
  assert (AddBlock root slot (blocks (w_cache w4)) = (blocks (w_cache w4), (Some b, false))) as Hadd2.
  { unfold AddBlock. rewrite Hw4. simpl. by rewrite Hmap. }
  assert (blockHeap (blocks (w_cache w4)) !! b = Some blk2) as Hb4.
  { rewrite Hw4. simpl. by rewrite lookup_alter_eq, Hb. }
  rewrite (processBlock_eq _ _ _ _ _ _ _ _ _ _ Hadd2 Hb4). cbn zeta.
  unfold EnsureHeader, EnsureBlock. simpl.
  destruct (GetBlockBodyByBlockroot ans2) as [body|e]; [|done]. eexists. split; [done|]. done.
Qed.

Lemma missing_body_kills_clients_witness :
  let (w1, r1) := processBlock 0 5 7 None (ex_answers (Ok None)) ex_world in
  exists w2, event_loop 1 [StreamBlock 7 5 (ex_answers (Ok (Some 9%N))); CtxDone] w1 =
    (w2, Panicked "close of closed channel").
Proof.
  assert (7 = 7 -> 0 <= 7 < two63) as Hs by (intros _; go_lia).
  pose proof (@missing_body_kills_clients ex_eth 0%nat 1%nat 5%N 7 None (ex_answers (Ok None)) (ex_answers (Ok (Some 9%N)))
    [CtxDone] ex_world ex_world_wf (Hs eq_refl) eq_refl ltac:(simpl; lia) eq_refl eq_refl eq_refl) as H.
  destruct (processBlock 0 5 7 None (ex_answers (Ok None)) ex_world) as [w1 r1].
  destruct H as (_ & w2 & H & _). exists w2. exact H.
Defined.

(** Whatever a node sends and in whatever order, a client's event loop
    keeps the shared state sound: the block cache stays well-formed, genesis
    and chain parameters do not change, the finalized epoch never goes back
    and the pool keeps its clients and their indexes. *)
Theorem event_loop_preserves `{eth : Eth2} p events (w w' : World) r :
  Forall event_slot_ok events -> index_wf (blocks (w_cache w)) -> event_loop p events w = (w', r) ->
  index_wf (blocks (w_cache w')) /\ genesis (w_cache w') = genesis (w_cache w) /\
  specs (w_cache w') = specs (w_cache w) /\ finalizedEpoch (w_cache w) <= finalizedEpoch (w_cache w') /\
  cl_index <$> clients (w_pool w') = cl_index <$> clients (w_pool w).
Proof.
  intros Hev Hwf Hl. destruct (event_loop_le _ _ _ _ _ Hev Hl) as [? ? ? ? Hc]. split_and!; auto.
  apply (f_equal (fmap fst)) in Hc. by rewrite <- !list_fmap_compose in Hc.
Qed.

Definition ex_events : list (@client_event ex_eth) :=
  [StreamReady true; StreamBlock 7 5 (ex_answers (Ok (Some 9%N))); StreamFinalized 3 5; StreamFinalized 2 4; CtxDone].

Lemma event_loop_preserves_witness :
  let (w', r) := event_loop 0 ex_events ex_world in
  r = Returned (Some None) /\ finalizedEpoch (w_cache w') = 3 /\ index_wf (blocks (w_cache w')).
Proof.
  destruct (event_loop 0 ex_events ex_world) as [w' r] eqn:Hl.
  assert ((r, finalizedEpoch (w_cache w')) = (Returned (Some None), 3)) as [= -> ->].
  { transitivity (let (w', r) := event_loop 0 ex_events ex_world in (r, finalizedEpoch (w_cache w'))).
    - by rewrite Hl.
    - by vm_compute. }
  split; [reflexivity|]. split; [reflexivity|].
  apply (event_loop_preserves 0 ex_events ex_world w' (Returned (Some None))); [|apply ex_world_wf|exact Hl].
  repeat constructor; by vm_compute.
Defined.

(** A round of [runClientLoop] that fails, in the checks or later, marks
    the client offline, records the error, counts the failure and waits 10
    seconds after each of the first five consecutive failures, 60 after the
    next five and 300 after that; a round that ends without an error resets
    the count and does not retry, and nothing else touches the count. *)
Theorem client_round_outcome `{eth : Eth2} order p check poll events (w : World) client :
  clients (w_pool w) !! p = Some client -> Forall event_slot_ok events -> poll_slot_ok poll ->
  0 <= retryCounter client < MaxUint64 ->
  let '(w', r) := client_round order p check poll events w in
  exists client', clients (w_pool w') !! p = Some client' /\ cl_index client' = cl_index client /\
  match r with
  | Some (Some secs) => isOnline client' = false /\ is_Some (lastError client') /\
      retryCounter client' = retryCounter client + 1 /\
      secs = (if retryCounter client + 1 <=? 5 then 10 else if retryCounter client + 1 <=? 10 then 60 else 300)
  | Some None => retryCounter client' = 0 \/ retryCounter client' = retryCounter client
  | None => retryCounter client' = retryCounter client
  end.
Proof.
  intros Hp Hev Hpoll Hretry. unfold client_round.
  assert (exists w1 r1, match checkClient order p check w with
    | (w, Some e) => (w, Returned (Some (Some e)))
    | (w, None) => runClientLogic p poll events w end = (w1, r1) /\
    client_key <$> clients (w_pool w1) = client_key <$> clients (w_pool w)) as (w1 & r1 & -> & Hc).
  { pose proof (checkClient_clients order p check w) as Hcc.
    destruct (checkClient order p check w) as [wc [e|]]; simpl in Hcc; [by eexists _, _|].
    pose proof (runClientLogic_clients p poll events wc Hpoll Hev) as Hrc.
    destruct (runClientLogic p poll events wc) as [w1 r1]. exists w1, r1. split; [done|]. simpl in Hrc. congruence. }
  destruct (world_le_client w w1 p client Hc Hp) as (c1 & Hc1 & [= Hi Hr]).
  destruct r1 as [[[e|]|]|m]; simpl; rewrite ?list_lookup_alter_eq, ?Hc1; simpl; eexists; (split; [done|]); simpl;
    (split; [done|]); [|by left|done|by right].
  rewrite Hr. assert (retryCounter client +u 1 = retryCounter client + 1) as -> by (apply u64_id; go_lia).
  split; [done|]. split; [by eexists|]. split; [done|]. unfold waitTime.
  repeat match goal with |- context [?a <? ?b] => destruct (Z.ltb_spec a b) | |- context [?a <=? ?b] => destruct (Z.leb_spec a b) end; lia.
Qed.

Lemma client_round_outcome_witness :
  let check := @mkCheckAnswers ex_eth (Some "connection refused"%string) (Err ""%string) (Err ""%string)
    (Err ""%string) (Err ""%string) in
  let poll := @mkPollAnswers ex_eth (Err ""%string) (ex_answers (Ok None)) (Err ""%string) in
  exists client', clients (w_pool (client_round clientTypePatterns 0 check poll [] ex_world).1) !! 0%nat = Some client' /\
    retryCounter client' = 1 /\ (client_round clientTypePatterns 0 check poll [] ex_world).2 = Some (Some 10).
Proof.
  intros check poll.
  assert (@poll_slot_ok ex_eth poll) as Hpoll by exact I.
  assert (0 <= retryCounter (newPoolClient 0) < MaxUint64) as Hr by (simpl; go_lia).
  pose proof (@client_round_outcome ex_eth clientTypePatterns 0%nat check poll [] ex_world (newPoolClient 0) eq_refl
    (List.Forall_nil _) Hpoll Hr) as H.
  assert ((client_round clientTypePatterns 0 check poll [] ex_world).2 = Some (Some 10)) as Hres by (by vm_compute).
  destruct (client_round clientTypePatterns 0 check poll [] ex_world) as [w' r]. simpl in Hres. subst r.
  destruct H as (client' & Hc & _ & _ & _ & Hn & _). exists client'. split; [exact Hc|]. split; [exact Hn|reflexivity].
Defined.
