(* ===== verification/ExecClients.v ===== *)
(** * The execution clients

    clients/execution/block.go, blockcache.go, client.go and clientlogic.go.
    The block maps are those of BlockIndex.v, the head forks and the
    selection of clients those of Pool.v: the Go code of the two packages is
    the same up to names.  What differs is modelled here: blocks carry their
    parent in the body, observers can be awaited, and a client learns of new
    blocks by notifications from its consensus partner. *)

From S2P Require Import Prelude Dispatcher BlockIndex BlockCache Pool.

Open Scope Z_scope.

(** Code outside the repository: go-ethereum's [types.Block]. *)
Class Geth := {
  ElBlock : Type;
  ParentHash : ElBlock -> Root;
  ElHash : ElBlock -> Root;
  ElNumber : ElBlock -> Z
}.

Section exec.
Context `{geth : Geth}.

(** ** Blocks *)

(** [seenChan] is [None] for nil, else whether the channel is closed. *)
Record ExecBlock := mkExecBlock {
  x_Hash : Root;
  x_Number : Z;
  x_blockChan : bool;
  x_block : option ElBlock;
  x_seenChan : option bool;
  x_seenMap : gmap Z ClientRef
}.

Definition exec_newBlock (hash : Root) (number : Z) : ExecBlock :=
  mkExecBlock hash number false None None ∅.

Definition GetParentHash (b : ExecBlock) : option Root := ParentHash <$> x_block b.

#[export] Program Instance exec_block_like : BlockLike ExecBlock := {|
  blk_root := x_Hash; blk_slot := x_Number; blk_parent := GetParentHash; blk_new := exec_newBlock |}.
Next Obligation. done. Qed.
Next Obligation. done. Qed.

Definition exec_GetSeenBy `{SliceSort} (b : ExecBlock) : list ClientRef :=
  slice_sort (fun x y => clientIdx x <? clientIdx y) (map_to_list (x_seenMap b)).*2.

Definition exec_SetSeenBy (client : ClientRef) (b : ExecBlock) : ExecBlock * go_result unit :=
  let seen := <[clientIdx client := client]> (x_seenMap b) in
  match x_seenChan b with
  | None => (mkExecBlock (x_Hash b) (x_Number b) (x_blockChan b) (x_block b) None seen, Returned tt)
  | Some true =>
      (mkExecBlock (x_Hash b) (x_Number b) (x_blockChan b) (x_block b) (Some true) seen,
       Panicked "close of closed channel")
  | Some false =>
      (mkExecBlock (x_Hash b) (x_Number b) (x_blockChan b) (x_block b) (Some true) seen, Returned tt)
  end.

Definition checkSeenBy (client : ClientRef) (b : ExecBlock) : ExecBlock * (bool * option bool) :=
  let ok := bool_decide (is_Some (x_seenMap b !! clientIdx client)) in
  let chan := match x_seenChan b with None => if ok then None else Some false | Some c => Some c end in
  (mkExecBlock (x_Hash b) (x_Number b) (x_blockChan b) (x_block b) chan (x_seenMap b), (ok, chan)).

(** One iteration of [AwaitSeenBy]: [Some true] is the result [true], [None]
    means that the select waits, [Some false] that the channel it holds is
    already closed and the loop runs again at once. *)
Definition await_iteration (client : ClientRef) (b : ExecBlock) : ExecBlock * option bool :=
  match checkSeenBy client b with
  | (b, (true, _)) => (b, Some true)
  | (b, (false, Some true)) => (b, Some false)
  | (b, (false, _)) => (b, None)
  end.

Definition exec_EnsureBlock (load : result (option ElBlock)) (b : ExecBlock)
    : bool * ExecBlock * go_result (bool * option error) :=
  match x_block b with
  | Some _ => (false, b, Returned (false, None))
  | None =>
      match load with
      | Err e => (true, b, Returned (false, Some e))
      | Ok body =>
          let b1 := mkExecBlock (x_Hash b) (x_Number b) true body (x_seenChan b) (x_seenMap b) in
          if x_blockChan b then (true, b1, Panicked "close of closed channel")
          else (true, b1, Returned (true, None))
      end
  end.

(** ** The block cache *)

Record ExecBlockCache := mkExecBlockCache {
  x_blocks : BlockIndex ExecBlock;
  x_specs : option string;
  x_blockDispatcher : Dispatcher nat
}.

Definition exec_NewBlockCache (follow : Z) : result ExecBlockCache :=
  if follow =? 0 then Err "cannot initialize block cache without follow distance"
  else Ok (mkExecBlockCache (NewBlockIndex follow) None NewDispatcher).

(** The index operations of clients/execution/blockcache.go. *)
Definition exec_AddBlock : Root -> Z -> BlockIndex ExecBlock -> BlockIndex ExecBlock * (option nat * bool) := AddBlock.
Definition exec_GetCachedBlockByRoot : Root -> BlockIndex ExecBlock -> option nat := GetCachedBlockByRoot.
Definition exec_GetCachedBlocks `{SliceSort} : BlockIndex ExecBlock -> list nat := GetCachedBlocks.
Definition exec_cleanupCache : BlockIndex ExecBlock -> BlockIndex ExecBlock := cleanupBlockCache.
Definition exec_SetMinFollowDistance : Z -> BlockIndex ExecBlock -> BlockIndex ExecBlock := SetMinFollowDistance.
Definition exec_GetBlockDistance : Root -> Root -> BlockIndex ExecBlock -> option (bool * Z) := GetBlockDistance.
Definition exec_IsCanonicalBlock : Root -> Root -> BlockIndex ExecBlock -> option bool := IsCanonicalBlock.

Definition x_with_blocks (x : BlockIndex ExecBlock) (c : ExecBlockCache) : ExecBlockCache :=
  mkExecBlockCache x (x_specs c) (x_blockDispatcher c).

Definition exec_notifyBlockReady (b : nat) (c : ExecBlockCache) : ExecBlockCache :=
  mkExecBlockCache (x_blocks c) (x_specs c) (Fire b (x_blockDispatcher c)).

(** The only field of the execution [ChainSpec] is the chain id. *)
Definition exec_CheckMismatch (chain chain2 : string) : list string :=
  if decide (chain = chain2) then [] else ["ChainID"]%string.

Definition exec_SetClientSpecs (s : string) (c : ExecBlockCache) : ExecBlockCache * option error :=
  let mismatches := match x_specs c with Some s0 => exec_CheckMismatch s0 s | None => [] end in
  if decide (mismatches = []) then (mkExecBlockCache (x_blocks c) (Some s) (x_blockDispatcher c), None)
  else (c, Some ("spec mismatch: " +:+ String.concat ", " mismatches)%string).

(** [big.Int.SetString(s, 10)]: an optional sign and at least one digit. *)
Definition SetString (s : string) : option Z :=
  match s with
  | "" => None
  | String "-" "" | String "+" "" => None
  | String "-" s => Z.opp <$> parse_digits 0 s
  | String "+" s => parse_digits 0 s
  | s => parse_digits 0 s
  end%string.

Definition GetChainID (c : ExecBlockCache) : option Z := x_specs c ≫= SetString.

(** ** The client *)

Inductive ExecStatus := ExecOnline | ExecOffline | ExecSynchronizing.

#[export] Instance ExecStatus_eq_dec : EqDecision ExecStatus.
Proof. solve_decision. Defined.

Record clientBlockNotification := mkNotification { n_hash : Root; n_number : Z }.

(** [updateChan] holds the buffered notifications (capacity 10). *)
Record ExecClient := mkExecClient {
  x_index : Z;
  x_versionStr : string;
  x_clientType : ClientType;
  x_isOnline : bool;
  x_isSyncing : bool;
  x_headHash : Root;
  x_headNumber : Z;
  updateChan : list clientBlockNotification;
  x_retryCounter : Z;
  x_lastError : option error
}.

Definition exec_newPoolClient (idx : Z) : ExecClient := mkExecClient idx "" AnyClient false false 0%N 0 [] 0 None.

Definition exec_GetStatus (c : ExecClient) : ExecStatus :=
  if x_isSyncing c then ExecSynchronizing else if x_isOnline c then ExecOnline else ExecOffline.

#[export] Instance exec_client_in_pool : PoolClient ExecClient := {|
  pc_idx := x_index; pc_type := x_clientType;
  pc_online := fun c => bool_decide (exec_GetStatus c = ExecOnline);
  pc_head := fun c => (x_headNumber c, x_headHash c) |}.

(** *** Client types: clients/execution/clienttype.go *)

Definition BesuClient : ClientType := 1.
Definition ErigonClient : ClientType := 2.
Definition EthjsClient : ClientType := 3.
Definition GethClient : ClientType := 4.
Definition NethermindClient : ClientType := 5.
Definition RethClient : ClientType := 6.

Definition exec_clientTypePatterns : list (ClientType * string) :=
  [(BesuClient, "besu/"); (ErigonClient, "erigon/"); (EthjsClient, "ethereumjs/"); (GethClient, "geth/");
   (NethermindClient, "nethermind/"); (RethClient, "reth/")]%string.

(** The loop of the execution [parseClientVersion] is that of the consensus one. *)
Definition exec_parseClientVersion : list (ClientType * string) -> string -> ClientType := parseClientVersion.

Definition exec_ParseClientType (name : string) : ClientType :=
  if decide (name = "besu") then BesuClient
  else if decide (name = "erigon") then ErigonClient
  else if decide (name = "ethjs") then EthjsClient
  else if decide (name = "geth") then GethClient
  else if decide (name = "nethermind") then NethermindClient
  else if decide (name = "reth") then RethClient
  else UnknownClient.

Definition exec_ClientType_String (clientType : ClientType) : string :=
  if decide (clientType = BesuClient) then "besu"
  else if decide (clientType = ErigonClient) then "erigon"
  else if decide (clientType = EthjsClient) then "ethjs"
  else if decide (clientType = GethClient) then "geth"
  else if decide (clientType = NethermindClient) then "nethermind"
  else if decide (clientType = RethClient) then "reth"
  else "unknown: " +:+ pretty clientType.

(** The forks of the execution pool. *)
Definition exec_GetHeadForks `{ChainView} `{SliceSort} : Z -> Pool ExecClient -> Pool ExecClient * list HeadFork :=
  GetHeadForks.
Definition exec_GetCanonicalFork `{ChainView} `{SliceSort}
  : Z -> Pool ExecClient -> Pool ExecClient * option HeadFork := GetCanonicalFork.
Definition exec_runClientScheduler : list nat -> ClientType -> Pool ExecClient -> Pool ExecClient * option nat :=
  runClientScheduler.
Definition exec_AddEndpoint : (Z -> result ExecClient) -> Pool ExecClient -> Pool ExecClient * result nat := AddEndpoint.

Definition x_set_head (hash : Root) (number : Z) (c : ExecClient) : ExecClient :=
  mkExecClient (x_index c) (x_versionStr c) (x_clientType c) (x_isOnline c) (x_isSyncing c) hash number (updateChan c)
    (x_retryCounter c) (x_lastError c).

Definition x_set_online (x : bool) (c : ExecClient) : ExecClient :=
  mkExecClient (x_index c) (x_versionStr c) (x_clientType c) x (x_isSyncing c) (x_headHash c) (x_headNumber c) (updateChan c)
    (x_retryCounter c) (x_lastError c).

Definition x_set_chan (x : list clientBlockNotification) (c : ExecClient) : ExecClient :=
  mkExecClient (x_index c) (x_versionStr c) (x_clientType c) (x_isOnline c) (x_isSyncing c) (x_headHash c) (x_headNumber c) x
    (x_retryCounter c) (x_lastError c).

Definition x_set_version (version : string) (t : ClientType) (c : ExecClient) : ExecClient :=
  mkExecClient (x_index c) version t (x_isOnline c) (x_isSyncing c) (x_headHash c) (x_headNumber c) (updateChan c)
    (x_retryCounter c) (x_lastError c).

Definition x_set_sync (syncing : bool) (c : ExecClient) : ExecClient :=
  mkExecClient (x_index c) (x_versionStr c) (x_clientType c) (x_isOnline c) syncing (x_headHash c) (x_headNumber c)
    (updateChan c) (x_retryCounter c) (x_lastError c).

Definition x_set_retry (online : bool) (retries : Z) (e : option error) (c : ExecClient) : ExecClient :=
  mkExecClient (x_index c) (x_versionStr c) (x_clientType c) online (x_isSyncing c) (x_headHash c) (x_headNumber c)
    (updateChan c) retries e.

(** [None]: the send blocks on the full channel. *)
Definition NotifyNewBlock (hash : Root) (number : Z) (c : ExecClient) : option ExecClient :=
  if x_isOnline c then
    if (length (updateChan c) <? 10)%nat then Some (x_set_chan (updateChan c ++ [mkNotification hash number]) c)
    else None
  else Some c.

(** ** Following the chain *)

Record ExecWorld := mkExecWorld { x_cache : ExecBlockCache; x_pool : Pool ExecClient }.

Definition x_on_client (p : nat) (f : ExecClient -> ExecClient) (w : ExecWorld) : ExecWorld :=
  mkExecWorld (x_cache w) (with_clients (alter f p (clients (x_pool w))) (x_pool w)).

Definition x_on_cache (f : ExecBlockCache -> ExecBlockCache) (w : ExecWorld) : ExecWorld :=
  mkExecWorld (f (x_cache w)) (x_pool w).

Definition x_put_block (b : nat) (blk : ExecBlock) (w : ExecWorld) : ExecWorld :=
  x_on_cache (fun c => x_with_blocks (upd_block b (fun _ => blk) (x_blocks c)) c) w.

Definition x_ref (p : nat) (w : ExecWorld) : ClientRef :=
  mkClientRef p (from_option x_index 0 (clients (x_pool w) !! p)).

(** [block] is the polled body; otherwise the node is asked ([rpc]). *)
Definition exec_processBlock (p : nat) (hash : Root) (number : Z) (block : option ElBlock)
    (rpc : result (option ElBlock)) (w : ExecWorld) : ExecWorld * go_result (option error) :=
  let '(index, (cachedBlock, _)) := exec_AddBlock hash number (x_blocks (x_cache w)) in
  match cachedBlock with
  | None => (w, Returned (Some "could not add block to cache"%string))
  | Some b =>
      let w := x_on_cache (x_with_blocks index) w in
      match blockHeap index !! b with
      | None => (w, Panicked "invalid memory address or nil pointer dereference")
      | Some blk =>
          let '(blk1, r1) := exec_SetSeenBy (x_ref p w) blk in
          let w := x_put_block b blk1 w in
          match r1 with
          | Panicked m => (w, Panicked m)
          | Returned _ =>
              let load := match block with Some x => Ok (Some x) | None => rpc end in
              let '(_, blk2, r2) := exec_EnsureBlock load blk1 in
              let w := x_put_block b blk2 w in
              match r2 with
              | Panicked m => (w, Panicked m)
              | Returned (_, Some e) => (w, Returned (Some e))
              | Returned (loaded, None) =>
                  let w := if loaded then x_on_cache (exec_notifyBlockReady b) w else w in
                  if decide (from_option x_headHash 0%N (clients (x_pool w) !! p) = hash)
                  then (w, Returned None)
                  else
                    let w := x_on_client p (x_set_head hash number) w in
                    (mkExecWorld (x_cache w) (resetHeadForkCache (x_pool w)), Returned None)
              end
          end
      end
  end.

(** An error of [processBlock] is only logged. *)
Definition exec_pollClientHead (p : nat) (latest : result (option ElBlock)) (w : ExecWorld)
    : ExecWorld * go_result (option error) :=
  match latest with
  | Err e => (w, Returned (Some ("could not get latest block: " +:+ e)%string))
  | Ok None => (w, Returned (Some "could not find latest block"%string))
  | Ok (Some b) =>
      match exec_processBlock p (ElHash b) (ElNumber b) (Some b) (Err "") w with
      | (w, Panicked m) => (w, Panicked m)
      | (w, Returned _) => (w, Returned None)
      end
  end.

(** The retry loop for one notification; [rpcs] are the node's answers to the
    attempts, [n] the attempts left. *)
Fixpoint process_notification (n : nat) (p : nat) (u : clientBlockNotification)
    (rpcs : list (result (option ElBlock))) (w : ExecWorld) : ExecWorld * go_result (option error) * nat :=
  match n, rpcs with
  | S n, rpc :: rpcs =>
      match exec_processBlock p (n_hash u) (n_number u) None rpc w with
      | (w, Panicked m) => (w, Panicked m, 1%nat)
      | (w, Returned None) => (w, Returned None, 1%nat)
      | (w, Returned (Some e)) =>
          match n with
          | O => (w, Returned (Some e), 1%nat)
          | S _ => let '(w, r, k) := process_notification n p u rpcs w in (w, r, S k)
          end
      end
  | _, _ => (w, Returned None, 0%nat)
  end.

(** What the event loop of [runClientLogic] receives.  A notification is the
    oldest one buffered in [updateChan]. *)
Inductive exec_event :=
  | X_CtxDone
  | X_Update (rpcs : list (result (option ElBlock)))
  | X_Timeout (latest : result (option ElBlock)).

Fixpoint exec_event_loop (p : nat) (events : list exec_event) (w : ExecWorld)
    : ExecWorld * go_result (option (option error)) :=
  match events with
  | [] => (w, Returned None)
  | X_CtxDone :: _ => (w, Returned (Some None))
  | X_Update rpcs :: events =>
      match clients (x_pool w) !! p ≫= (fun c => head (updateChan c)) with
      | None => (w, Returned None)
      | Some u =>
          let w := x_on_client p (fun c => x_set_chan (tail (updateChan c)) c) w in
          match process_notification 3 p u rpcs w with
          | (w, Panicked m, _) => (w, Panicked m)
          | (w, Returned _, _) => exec_event_loop p events w
          end
      end
  | X_Timeout latest :: events =>
      match exec_pollClientHead p latest w with
      | (w, Panicked m) => (w, Panicked m)
      | (w, Returned (Some e)) => (x_on_client p (x_set_online false) w, Returned (Some (Some e)))
      | (w, Returned None) => exec_event_loop p events w
      end
  end.

(** [runClientLogic]: a new notification channel replaces the old one. *)
Definition exec_runClientLogic (p : nat) (latest : result (option ElBlock)) (events : list exec_event)
    (w : ExecWorld) : ExecWorld * go_result (option (option error)) :=
  match exec_pollClientHead p latest w with
  | (w, Panicked m) => (w, Panicked m)
  | (w, Returned (Some e)) => (w, Returned (Some (Some e)))
  | (w, Returned None) =>
      if from_option x_isSyncing false (clients (x_pool w) !! p)
      then (w, Returned (Some (Some "beacon node is synchronizing"%string)))
      else exec_event_loop p events
             (x_on_client p (fun c => x_set_chan [] (x_set_online true c)) w)
  end.

(** The answers to the start-up checks; the sync status may be nil. *)
Record exec_check_answers := mkExecCheckAnswers {
  x_Initialize : option error;
  GetClientVersion : result string;
  GetChainSpec : result string;
  x_GetNodeSyncing : result (option bool)
}.

Definition exec_checkClient (order : list (ClientType * string)) (p : nat) (ans : exec_check_answers)
    (w : ExecWorld) : ExecWorld * option error :=
  match x_Initialize ans with
  | Some e => (w, Some ("initialization of execution client failed: " +:+ e)%string)
  | None =>
  match GetClientVersion ans with
  | Err e => (w, Some ("error while fetching node version: " +:+ e)%string)
  | Ok nodeVersion =>
  let w := x_on_client p (x_set_version nodeVersion (exec_parseClientVersion order nodeVersion)) w in
  match GetChainSpec ans with
  | Err e => (w, Some ("error while fetching specs: " +:+ e)%string)
  | Ok specs =>
  let (c, err) := exec_SetClientSpecs specs (x_cache w) in
  let w := x_on_cache (fun _ => c) w in
  match err with
  | Some e => (w, Some ("invalid node specs: " +:+ e)%string)
  | None =>
  match x_GetNodeSyncing ans with
  | Err e => (w, Some ("error while fetching synchronization status: " +:+ e)%string)
  | Ok None => (w, Some "could not get synchronization status"%string)
  | Ok (Some syncing) => (x_on_client p (x_set_sync syncing) w, None)
  end end end end end.

(** One round of the execution [runClientLoop]: [None] while the logic runs,
    [Some None] when the loop ends (a panic included: it is only logged) and
    [Some (Some s)] when it retries after [s] seconds. *)
Definition exec_client_round (order : list (ClientType * string)) (p : nat) (check : exec_check_answers)
    (latest : result (option ElBlock)) (events : list exec_event) (w : ExecWorld)
    : ExecWorld * option (option Z) :=
  let '(w, r) :=
    match exec_checkClient order p check w with
    | (w, Some e) => (w, Returned (Some (Some e)))
    | (w, None) => exec_runClientLogic p latest events w
    end in
  match r with
  | Panicked _ => (w, Some None)
  | Returned None => (w, None)
  | Returned (Some None) => (x_on_client p (fun c => x_set_retry (x_isOnline c) 0 (x_lastError c) c) w, Some None)
  | Returned (Some (Some e)) =>
      let retries := from_option x_retryCounter 0 (clients (x_pool w) !! p) +u 1 in
      let waitTime := if 10 <? retries then 300 else if 5 <? retries then 60 else 10 in
      (x_on_client p (x_set_retry false retries (Some e)) w, Some (Some waitTime))
  end.

(** ** Lemmas *)

Lemma exec_SetSeenBy_keeps c b :
  let r := exec_SetSeenBy c b in
  x_Hash r.1 = x_Hash b /\ x_Number r.1 = x_Number b /\ x_block r.1 = x_block b /\
  x_seenMap r.1 = <[clientIdx c := c]> (x_seenMap b).
Proof. unfold exec_SetSeenBy. by repeat case_match. Qed.

Lemma exec_EnsureBlock_keeps load b :
  let r := exec_EnsureBlock load b in
  x_Hash r.1.2 = x_Hash b /\ x_Number r.1.2 = x_Number b /\ x_seenMap r.1.2 = x_seenMap b.
Proof. unfold exec_EnsureBlock. by repeat case_match. Qed.

Lemma lookup_put_block b x w :
  blockHeap (x_blocks (x_cache (x_put_block b x w))) !! b = (fun _ => x) <$> blockHeap (x_blocks (x_cache w)) !! b.
Proof. simpl. by rewrite lookup_alter_eq. Qed.

Lemma put_block_wf b blk x w :
  blockHeap (x_blocks (x_cache w)) !! b = Some blk -> x_Hash x = x_Hash blk -> x_Number x = x_Number blk ->
  index_wf (x_blocks (x_cache w)) -> index_wf (x_blocks (x_cache (x_put_block b x w))).
Proof.
  intros Hb Hh Hn Hwf. simpl.
  set (g := fun y : ExecBlock => if decide (x_Hash x = x_Hash y /\ x_Number x = x_Number y) then x else y).
  assert (upd_block b (fun _ => x) (x_blocks (x_cache w)) = upd_block b g (x_blocks (x_cache w))) as ->.
  { unfold upd_block. f_equal. apply map_eq. intros i. destruct (decide (b = i)) as [->|].
    - rewrite !lookup_alter_eq, Hb. simpl. f_equal. unfold g. by rewrite decide_True.
    - by rewrite !lookup_alter_ne. }
  apply upd_block_wf; [|done]. intros y. simpl. unfold g. case_decide; tauto.
Qed.

(** Everything [processBlock] can do to the shared state. *)
Lemma exec_processBlock_wf p hash number block rpc w :
  0 <= number < two63 -> index_wf (x_blocks (x_cache w)) ->
  index_wf (x_blocks (x_cache (exec_processBlock p hash number block rpc w).1)) /\
  x_specs (x_cache (exec_processBlock p hash number block rpc w).1) = x_specs (x_cache w) /\
  x_index <$> clients (x_pool (exec_processBlock p hash number block rpc w).1) = x_index <$> clients (x_pool w).
Proof.
  intros Hn Hwf. unfold exec_processBlock, exec_AddBlock.
  destruct (AddBlock hash number (x_blocks (x_cache w))) as [index [[b|] new]] eqn:Hadd; [|done].
  destruct (AddBlock_cached _ _ _ _ _ _ Hwf Hn Hadd) as (blk & Hb & _). rewrite Hb.
  pose proof (AddBlock_wf hash number _ Hn Hwf) as Hwf0. rewrite Hadd in Hwf0. simpl in Hwf0.
  set (w0 := x_on_cache (x_with_blocks index) w).
  pose proof (exec_SetSeenBy_keeps (x_ref p w0) blk) as (H1 & H2 & _).
  destruct (exec_SetSeenBy (x_ref p w0) blk) as [blk1 r1]. simpl in H1, H2.
  pose proof (put_block_wf b blk blk1 w0 Hb H1 H2 Hwf0) as Hwf1.
  assert (blockHeap (x_blocks (x_cache (x_put_block b blk1 w0))) !! b = Some blk1) as Hb1.
  { rewrite lookup_put_block. simpl. by rewrite Hb. }
  destruct r1; [|done].
  pose proof (exec_EnsureBlock_keeps (match block with Some x => Ok (Some x) | None => rpc end) blk1) as (H3 & H4 & _).
  destruct (exec_EnsureBlock _ blk1) as [[c2 blk2] r2]. simpl in H3, H4.
  pose proof (put_block_wf b blk1 blk2 _ Hb1 H3 H4 Hwf1) as Hwf2.
  destruct r2 as [[loaded [e|]]|m]; [done| |done].
  assert (forall f (l : list ExecClient), (forall c, x_index (f c) = x_index c) -> x_index <$> alter f p l = x_index <$> l) as Hal.
  { intros f l Hf. apply list_eq. intros i. rewrite !list_lookup_fmap.
    destruct (decide (p = i)) as [->|]; [|by rewrite list_lookup_alter_ne].
    rewrite list_lookup_alter_eq. destruct (l !! i); simpl; [by rewrite Hf|done]. }
  destruct loaded; case_decide; simpl; rewrite ?Hal; done.
Qed.

Lemma process_notification_S n p u rpc rpcs w :
  process_notification (S (S n)) p u (rpc :: rpcs) w =
    match exec_processBlock p (n_hash u) (n_number u) None rpc w with
    | (w, Panicked m) => (w, Panicked m, 1%nat)
    | (w, Returned None) => (w, Returned None, 1%nat)
    | (w, Returned (Some e)) => let '(w, r, k) := process_notification (S n) p u rpcs w in (w, r, S k)
    end.
Proof. reflexivity. Qed.

Lemma process_notification_bound n p u rpcs w w' r k :
  (S n <= length rpcs)%nat -> process_notification (S n) p u rpcs w = (w', r, k) ->
  (1 <= k <= S n)%nat /\ (forall e, r = Returned (Some e) -> k = S n).
Proof.
  revert rpcs w w' r k. induction n as [|n IH]; intros rpcs w w' r k Hlen; (destruct rpcs as [|rpc rpcs]; simpl in Hlen; [lia|]).
  - simpl. destruct (exec_processBlock _ _ _ _ _ _) as [w1 [[e|]|m]]; intros [= <- <- <-]; split; [lia|done|lia|done|lia|done].
  - rewrite process_notification_S.
    destruct (exec_processBlock _ _ _ _ _ _) as [w1 [[e|]|m]]; [|intros [= <- <- <-]; split; [lia|done]..].
    destruct (process_notification (S n) p u rpcs w1) as [[w2 r2] k2] eqn:Hp.
    apply IH in Hp as [Hk He]; [|lia]. intros [= <- <- <-]. split; [lia|]. intros e' Hr. by rewrite (He e').
Qed.
End exec.

(** ** A concrete instance for the examples: a body is hash, number and parent *)

Definition ex_geth : Geth := {| ElBlock := Root * Z * Root; ParentHash := snd;
  ElHash := fun b => b.1.1; ElNumber := fun b => b.1.2 |}.

Definition ex_exec_world : @ExecWorld ex_geth := @mkExecWorld ex_geth
  (@mkExecBlockCache ex_geth (NewBlockIndex 10) None NewDispatcher)
  (mkPool 1 true 2 [exec_newPoolClient 0; exec_newPoolClient 1] ∅ ∅).

(** ** Properties *)

(** Waiting for a client to see a block breaks the block.  Once
    [AwaitSeenBy] waits, the next client that reports the block closes the
    shared channel and leaves it in place: the waiter, if that was another
    client, spins without blocking, and every later report, of any client,
    closes the channel again and panics. *)
Theorem exec_SetSeenBy_second_panics `{geth : Geth} (waited reporter later : ClientRef) (b : ExecBlock) :
  x_seenChan b = None -> x_seenMap b !! clientIdx waited = None ->
  clientIdx reporter <> clientIdx waited ->
  let (b1, r1) := await_iteration waited b in
  let (b2, r2) := exec_SetSeenBy reporter b1 in
  r1 = None /\ r2 = Returned tt /\
  (forall n, Nat.iter n (fun x => (await_iteration waited x).1) b2 = b2) /\
  (await_iteration waited b2).2 = Some false /\
  (exec_SetSeenBy later b2).2 = Panicked "close of closed channel".
Proof.
  intros Hchan Hseen Hne. unfold await_iteration, checkSeenBy. rewrite Hchan, Hseen.
  rewrite bool_decide_false by (by intros [? ?]). simpl. split; [done|]. split; [done|].
  rewrite lookup_insert_ne by done. rewrite Hseen.
  rewrite bool_decide_false by (by intros [? ?]). simpl. split; [|done].
  induction n as [|n IH]; [done|]. simpl. rewrite IH. simpl.
  rewrite lookup_insert_ne by done. rewrite Hseen. by rewrite bool_decide_false by (by intros [? ?]).
Qed.

Lemma exec_SetSeenBy_second_panics_witness :
  let b1 := (await_iteration (mkClientRef 1 1) (@exec_newBlock ex_geth 5 7)).1 in
  let b2 := (exec_SetSeenBy (mkClientRef 0 0) b1).1 in
  (exec_SetSeenBy (mkClientRef 1 1) b2).2 = Panicked "close of closed channel".
Proof.
  pose proof (@exec_SetSeenBy_second_panics ex_geth (mkClientRef 1 1) (mkClientRef 0 0) (mkClientRef 1 1)
    (exec_newBlock 5 7) eq_refl eq_refl ltac:(discriminate)) as H.
  destruct (await_iteration (mkClientRef 1 1) (@exec_newBlock ex_geth 5 7)) as [b1 r1]. simpl in *.
  destruct (exec_SetSeenBy (mkClientRef 0 0) b1) as [b2 r2]. simpl in *.
  destruct H as (_ & _ & _ & _ & H). exact H.
Defined.

(** A successful [processBlock] of an execution client leaves the block in
    the cache under its hash, noted as seen by the client, and makes it the
    client's head: when the head moves, the number is the block's and the
    fork cache is reset, otherwise the pool is untouched. *)
Theorem exec_processBlock_success `{geth : Geth} p hash number block rpc (w w' : ExecWorld) client :
  index_wf (x_blocks (x_cache w)) -> 0 <= number < two63 -> clients (x_pool w) !! p = Some client ->
  exec_processBlock p hash number block rpc w = (w', Returned None) ->
  exists b blk client',
    blockRootMap (x_blocks (x_cache w')) !! hash = Some b /\ blockHeap (x_blocks (x_cache w')) !! b = Some blk /\
    x_Hash blk = hash /\ x_seenMap blk !! x_index client = Some (mkClientRef p (x_index client)) /\
    clients (x_pool w') !! p = Some client' /\ x_headHash client' = hash /\
    (x_headHash client = hash -> x_pool w' = x_pool w) /\
    (x_headHash client <> hash -> x_headNumber client' = number /\ forkCache (x_pool w') = ∅).
Proof.
  intros Hwf Hn Hp. unfold exec_processBlock, exec_AddBlock.
  destruct (AddBlock hash number (x_blocks (x_cache w))) as [index [[b|] new]] eqn:Hadd; [|done].
  destruct (AddBlock_cached _ _ _ _ _ _ Hwf Hn Hadd) as (blk & Hb & Hroot & Hmap & _). rewrite Hb.
  set (w0 := x_on_cache (x_with_blocks index) w).
  assert (x_ref p w0 = mkClientRef p (x_index client)) as -> by (unfold x_ref; simpl; by rewrite Hp).
  pose proof (exec_SetSeenBy_keeps (mkClientRef p (x_index client)) blk) as (H1 & H2 & _ & Hs1).
  destruct (exec_SetSeenBy _ blk) as [blk1 r1]. simpl in H1, H2, Hs1. destruct r1; [|done].
  pose proof (exec_EnsureBlock_keeps (match block with Some x => Ok (Some x) | None => rpc end) blk1) as (H3 & H4 & Hs2).
  destruct (exec_EnsureBlock _ blk1) as [[c2 blk2] r2]. simpl in H3, H4, Hs2.
  destruct r2 as [[loaded [e|]]|m]; [done| |done].
  set (w2 := x_put_block b blk2 _). set (w3 := if loaded then _ else _).
  assert (x_pool w3 = x_pool w) as Hpool by (subst w3; by destruct loaded).
  assert (x_blocks (x_cache w3) = x_blocks (x_cache w2)) as Hcache by (subst w3; by destruct loaded).
  assert (blockRootMap (x_blocks (x_cache w2)) !! hash = Some b /\
    blockHeap (x_blocks (x_cache w2)) !! b = Some blk2) as [Hr Hh].
  { split; [done|]. subst w2. rewrite lookup_put_block, lookup_put_block. simpl. by rewrite Hb. }
  assert (x_seenMap blk2 !! x_index client = Some (mkClientRef p (x_index client))) as Hseen.
  { rewrite Hs2, Hs1. by rewrite lookup_insert_eq. }
  assert (x_Hash blk2 = hash) as Hhash by (rewrite H3, H1; done).
  rewrite Hpool, Hp. simpl. case_decide as Hhead; intros [= <-]; exists b, blk2.
  - exists client. rewrite Hcache, Hpool. done.
  - eexists. simpl. rewrite Hcache, Hpool, list_lookup_alter_eq, Hp. done.
Qed.

Lemma exec_processBlock_success_witness :
  exists w', exec_processBlock 0 5 7 None (Ok (Some ((5%N, 7, 4%N) : @ElBlock ex_geth))) ex_exec_world = (w', Returned None) /\
  exists c, clients (x_pool w') !! 0%nat = Some c /\ x_headHash c = 5%N.
Proof.
  destruct (exec_processBlock 0 5 7 None (Ok (Some ((5%N, 7, 4%N) : @ElBlock ex_geth))) ex_exec_world) as [w' r] eqn:Hrun.
  assert (r = Returned None) as -> by (apply (f_equal snd) in Hrun; vm_compute in Hrun; congruence).
  exists w'. split; [reflexivity|].
  destruct (@exec_processBlock_success ex_geth 0%nat 5%N 7 None (Ok (Some (5%N, 7, 4%N))) ex_exec_world w' (exec_newPoolClient 0)
    (NewBlockIndex_wf 10 ltac:(lia)) ltac:(go_lia) eq_refl Hrun) as (_ & _ & c & _ & _ & _ & _ & Hc & Hh & _).
  exists c. split; [exact Hc|exact Hh].
Defined.

(** One notification is processed with at most three attempts, the loop
    stops at the first that succeeds, an error is reported only after the
    third, and the cache stays well-formed and the pool keeps its clients
    whatever the node answers. *)
Theorem process_notification_attempts `{geth : Geth} p u rpcs (w w' : ExecWorld) r k :
  (3 <= length rpcs)%nat -> 0 <= n_number u < two63 -> index_wf (x_blocks (x_cache w)) ->
  process_notification 3 p u rpcs w = (w', r, k) ->
  (1 <= k <= 3)%nat /\ (forall e, r = Returned (Some e) -> k = 3%nat) /\
  index_wf (x_blocks (x_cache w')) /\ x_specs (x_cache w') = x_specs (x_cache w) /\
  x_index <$> clients (x_pool w') = x_index <$> clients (x_pool w).
Proof.
  intros Hlen Hn Hwf Hp. destruct (process_notification_bound 2 p u rpcs w w' r k Hlen Hp) as [Hk He].
  split; [done|]. split; [done|]. clear Hlen Hk He. revert rpcs w k Hwf Hp. generalize 3%nat.
  induction n as [|n IH]; intros rpcs w k Hwf; simpl; [by intros [= <- _ _]|].
  destruct rpcs as [|rpc rpcs]; [by intros [= <- _ _]|].
  pose proof (exec_processBlock_wf p (n_hash u) (n_number u) None rpc w Hn Hwf) as (H1 & H2 & H3).
  destruct (exec_processBlock _ _ _ _ _ w) as [w1 [[e|]|m]]; simpl in H1, H2, H3; [|by intros [= <- _ _]..].
  destruct n as [|n]; [by intros [= <- _ _]|].
  destruct (process_notification (S n) p u rpcs w1) as [[w2 r2] k2] eqn:Hp. intros [= <- <- _].
  destruct (IH rpcs w1 k2 H1 Hp) as (? & ? & ?). split; [done|]. split; congruence.
Qed.

Lemma process_notification_attempts_witness :
  exists w', process_notification 3 0 (mkNotification 5 7)
    [Err "timeout"%string; Ok (Some ((5%N, 7, 4%N) : @ElBlock ex_geth)); Err "unused"%string] ex_exec_world =
    (w', Returned None, 2%nat) /\ index_wf (x_blocks (x_cache w')).
Proof.
  destruct (process_notification 3 0 (mkNotification 5 7)
    [Err "timeout"%string; Ok (Some ((5%N, 7, 4%N) : @ElBlock ex_geth)); Err "unused"%string] ex_exec_world)
    as [[w' r] k] eqn:Hrun.
  assert ((r, k) = (Returned None, 2%nat)) as [= -> ->].
  { transitivity (let '(_, r, k) := process_notification 3 0 (mkNotification 5 7)
      [Err "timeout"%string; Ok (Some ((5%N, 7, 4%N) : @ElBlock ex_geth)); Err "unused"%string] ex_exec_world in (r, k)).
    - by rewrite Hrun.
    - by vm_compute. }
  exists w'. split; [reflexivity|].
  apply (process_notification_attempts 0 (mkNotification 5 7) _ ex_exec_world w' (Returned None) 2%nat) in Hrun.
  - destruct Hrun as (_ & _ & Hwf & _). exact Hwf.
  - simpl. lia.
  - simpl. go_lia.
  - apply NewBlockIndex_wf. lia.
Defined.
