(* ===== verification/Wallet.v ===== *)
(** * Wallets

    wallet/wallet.go and wallet/manager.go: a wallet tracks the nonce and the
    balance of one account, confirmed by the blocks the execution pool sees
    and pending with the transactions built from it; the manager feeds every
    new block to its wallets. *)

From S2P Require Import Prelude.

Open Scope Z_scope.

Definition Address := N.
Bind Scope N_scope with Address.

(** Code outside the repository: go-ethereum's transactions, receipts,
    signatures and keys. [Sender] is recovery with the signer of a chain id;
    amounts are [big.Int], unbounded. *)
Class EthTypes := {
  Tx : Type;
  Tx_Hash : Tx -> N;
  Tx_Nonce : Tx -> Z;
  Tx_Value : Tx -> Z;
  Tx_To : Tx -> option Address;
  Tx_Sender : Tx -> result Address;
  (** the authorities of a set-code transaction, [None] for other types *)
  Tx_Authorities : Tx -> option (list (result Address));
  Receipt : Type;
  Receipt_TxHash : Receipt -> N;
  Receipt_Status : Receipt -> Z;
  EffectiveGasPrice : Receipt -> Z;
  GasUsed : Receipt -> Z;
  PrivateKey : Type;
  (** signing with a nil key is part of the library's behaviour *)
  SignTx : Tx -> option PrivateKey -> result Tx
}.

Section wallet.
Context `{types : EthTypes}.

(** A [nonceStatus] object: the receipt and whether its channel is closed. *)
Record nonceStatus := mkNonceStatus { ns_receipt : option Receipt; ns_closed : bool }.

(** [txNonceChans] maps nonces to [nonceStatus] objects by address in
    [statuses]: a waiter keeps its object after the entry is deleted.
    [readyChan] is a channel by number, [closedReady] the closed ones.  The
    balances are nil in Go until [isReady]; no operation reads them before. *)
Record Wallet := mkWallet {
  address : Address;
  privkey : option PrivateKey;
  isReady : bool;
  isSyncing : bool;
  readyChan : nat;
  closedReady : gset nat;
  pendingNonce : Z;
  pendingBalance : Z;
  confirmedNonce : Z;
  confirmedBalance : Z;
  lastConfirmation : Z;
  txNonceChans : gmap Z nat;
  statuses : gmap nat nonceStatus;
  nextStatus : nat
}.

Definition set_sync (syncing : bool) (chan : nat) (w : Wallet) : Wallet :=
  mkWallet (address w) (privkey w) (isReady w) syncing chan (closedReady w) (pendingNonce w) (pendingBalance w)
    (confirmedNonce w) (confirmedBalance w) (lastConfirmation w) (txNonceChans w) (statuses w) (nextStatus w).

Definition set_pending (nonce balance : Z) (w : Wallet) : Wallet :=
  mkWallet (address w) (privkey w) (isReady w) (isSyncing w) (readyChan w) (closedReady w) nonce balance
    (confirmedNonce w) (confirmedBalance w) (lastConfirmation w) (txNonceChans w) (statuses w) (nextStatus w).

Definition set_confirmed (nonce balance : Z) (w : Wallet) : Wallet :=
  mkWallet (address w) (privkey w) (isReady w) (isSyncing w) (readyChan w) (closedReady w) (pendingNonce w)
    (pendingBalance w) nonce balance (lastConfirmation w) (txNonceChans w) (statuses w) (nextStatus w).

Definition set_lastConfirmation (n : Z) (w : Wallet) : Wallet :=
  mkWallet (address w) (privkey w) (isReady w) (isSyncing w) (readyChan w) (closedReady w) (pendingNonce w)
    (pendingBalance w) (confirmedNonce w) (confirmedBalance w) n (txNonceChans w) (statuses w) (nextStatus w).

Definition set_chans (chans : gmap Z nat) (st : gmap nat nonceStatus) (next : nat) (w : Wallet) : Wallet :=
  mkWallet (address w) (privkey w) (isReady w) (isSyncing w) (readyChan w) (closedReady w) (pendingNonce w)
    (pendingBalance w) (confirmedNonce w) (confirmedBalance w) (lastConfirmation w) chans st next.

Definition set_privkey (k : PrivateKey) (w : Wallet) : Wallet :=
  mkWallet (address w) (Some k) (isReady w) (isSyncing w) (readyChan w) (closedReady w) (pendingNonce w)
    (pendingBalance w) (confirmedNonce w) (confirmedBalance w) (lastConfirmation w) (txNonceChans w) (statuses w)
    (nextStatus w).

(** *** Loading the state *)

(** [loadState] until its goroutine starts: nothing when one is running. *)
Definition loadState (w : Wallet) : Wallet :=
  if isSyncing w then w else set_sync true (S (readyChan w)) w.

(** The end of the goroutine: it stores the node's answers and clears
    [isSyncing] ... *)
Definition load_values (nonce balance : Z) (w : Wallet) : Wallet :=
  mkWallet (address w) (privkey w) true false (readyChan w) (closedReady w) nonce balance
    nonce balance (lastConfirmation w) (txNonceChans w) (statuses w) (nextStatus w).

(** ... and then closes the channel that is [readyChan] by now: [None] is the
    panic of closing a closed channel. *)
Definition close_ready (w : Wallet) : option Wallet :=
  if decide (readyChan w ∈ closedReady w) then None
  else Some (mkWallet (address w) (privkey w) (isReady w) (isSyncing w) (readyChan w) ({[readyChan w]} ∪ closedReady w)
               (pendingNonce w) (pendingBalance w) (confirmedNonce w) (confirmedBalance w) (lastConfirmation w)
               (txNonceChans w) (statuses w) (nextStatus w)).

(** Both, with no call of [loadState] in between. *)
Definition loadState_done (nonce balance : Z) (w : Wallet) : option Wallet := close_ready (load_values nonce balance w).

Definition ResyncState (w : Wallet) : Wallet := loadState w.

Definition newWallet (addr : Address) : Wallet :=
  loadState (mkWallet addr None false false 0 ∅ 0 0 0 0 0 ∅ ∅ 0).

(** [AwaitReady]: [None] while it blocks, else its result; [ctxErr] is the
    error of a context that is done (and is chosen when both are). *)
Definition AwaitReady (ctxErr : option error) (w : Wallet) : option (option error) :=
  match ctxErr with
  | Some e => Some (Some e)
  | None => if decide (readyChan w ∈ closedReady w) then Some None else None
  end.

(** *** Building transactions *)

Definition UseNextNonce (increase : bool) (w : Wallet) : Wallet * Z :=
  (if increase then set_pending (pendingNonce w +u 1) (pendingBalance w) w else w, pendingNonce w).

(** [BuildTransaction]; [None] while it waits for the wallet's state. *)
Definition BuildTransaction (ctxErr : option error) (buildFn : Z -> result Tx) (w : Wallet)
    : Wallet * option (result Tx) :=
  match AwaitReady ctxErr w with
  | None => (w, None)
  | Some (Some e) => (w, Some (Err e))
  | Some None =>
      match buildFn (pendingNonce w) with
      | Err e => (w, Some (Err e))
      | Ok tx =>
          match SignTx tx (privkey w) with
          | Err e => (w, Some (Err e))
          | Ok signedTx =>
              let nonce := if pendingNonce w <? Tx_Nonce tx +u 1 then Tx_Nonce tx +u 1 else pendingNonce w in
              (set_pending nonce (pendingBalance w - Tx_Value tx) w, Some (Ok signedTx))
          end
      end
  end.

(** *** Waiting for inclusion *)

Definition getTxNonceChan (targetNonce : Z) (w : Wallet) : Wallet * option nat :=
  if targetNonce <? confirmedNonce w then (w, None) else
  match txNonceChans w !! targetNonce with
  | Some p => (w, Some p)
  | None =>
      let p := nextStatus w in
      (set_chans (<[targetNonce := p]> (txNonceChans w)) (<[p := mkNonceStatus None false]> (statuses w)) (S p) w,
       Some p)
  end.

(** The rest of [awaitTransaction], once the channel is closed (or there is
    none): the receipt of the status if it is the transaction's, nothing if
    another transaction took the nonce, else what [loadTransactionReceipt]
    returns. *)
Definition await_result (tx : Tx) (status : option nonceStatus) (loaded : option Receipt) : option Receipt :=
  match status with
  | Some (mkNonceStatus (Some receipt) _) =>
      if decide (Receipt_TxHash receipt = Tx_Hash tx) then Some receipt else None
  | _ => loaded
  end.

(** [loadTransactionReceipt]: six attempts with the clients in turn, each
    with the answer of its number; [None] when the loop has no fuel left, a
    panic for the division by the number of clients. *)
Fixpoint load_receipt (fuel : nat) (retryCount : nat) (clients : nat) (answer : nat -> nat -> result Receipt)
    : option (list nat * option Receipt) :=
  match fuel, clients with
  | O, _ | _, O => None
  | S fuel, S _ =>
      let client := (retryCount mod clients)%nat in
      match answer retryCount client with
      | Ok receipt => Some ([client], Some receipt)
      | Err _ =>
          if (retryCount <? 5)%nat then
            '(tried, r) ← load_receipt fuel (S retryCount) clients answer; Some (client :: tried, r)
          else Some ([client], None)
      end
  end.

(** *** Sending *)

Definition client_at {C} (clients : list C) (i : Z) : option C :=
  clients !! Z.to_nat (u64 i mod Z.of_nat (length clients)).

(** The loop over the clients: the log of attempts and the last error. *)
Fixpoint send_loop {C} (n : nat) (i offset : Z) (clients : list C) (send : C -> option error)
    (err : option error) : list (C * option error) * option error :=
  match n with
  | O => ([], err)
  | S n =>
      match client_at clients (i + offset) with
      | None => ([], err)
      | Some client =>
          match send client with
          | None => ([(client, None)], None)
          | Some e =>
              let '(log, r) := send_loop n (i + 1) offset clients send (Some e) in
              ((client, Some e) :: log, r)
          end
      end
  end.

(** The first broadcast of [SendTransaction]. *)
Definition send_first {C} (clients : list C) (startOffset : Z) (send : C -> option error)
    : list (C * option error) * option error :=
  send_loop (length clients) 0 startOffset clients send None.

(** Round [i] of the rebroadcasts. *)
Definition rebroadcast {C} (i : Z) (clients : list C) (startOffset : Z) (send : C -> option error)
    : list (C * option error) * option error :=
  send_loop (length clients) 0 (i + startOffset + 1) clients send None.

(** *** Blocks *)

(** [close(ch.channel)]; a receipt is set before on the status itself. *)
Definition close_status (receipt : option Receipt) (set : bool) (st : nonceStatus) : nonceStatus :=
  mkNonceStatus (if set then receipt else ns_receipt st) true.

(** The loops over [txNonceChans] that close and delete the entries of some
    nonces, one entry at a time; [None] is the panic of closing a closed
    channel (or of a nil status). *)
Definition close_entry (sel : Z -> bool) (upd : Z -> nonceStatus -> nonceStatus)
    (acc : option (gmap Z nat * gmap nat nonceStatus)) (e : Z * nat) : option (gmap Z nat * gmap nat nonceStatus) :=
  '(chans, sts) ← acc;
  if sel e.1 then
    st ← sts !! e.2;
    if ns_closed st then None else Some (delete e.1 chans, <[e.2 := upd e.1 st]> sts)
  else Some (chans, sts).

Definition close_entries (sel : Z -> bool) (upd : Z -> nonceStatus -> nonceStatus) (w : Wallet)
    : option (gmap Z nat * gmap nat nonceStatus) :=
  fold_left (close_entry sel upd) (map_to_list (txNonceChans w)) (Some (txNonceChans w, statuses w)).

(** The loop of [processTransactionInclusion]. *)
Definition confirm_chans (nonce : Z) (receipt : option Receipt) (w : Wallet)
    : option (gmap Z nat * gmap nat nonceStatus) :=
  close_entries (fun n => n <=? nonce) (fun n => close_status receipt (bool_decide (n = nonce))) w.

Definition txFee (r : Receipt) : Z := EffectiveGasPrice r * GasUsed r.

(** The balances after an included transaction. *)
Definition pay (tx : Tx) (receipt : option Receipt) (w : Wallet) : Wallet :=
  match receipt with
  | Some r =>
      set_pending (pendingNonce w) (pendingBalance w - txFee r)
        (set_confirmed (confirmedNonce w) (confirmedBalance w - Tx_Value tx - txFee r) w)
  | None => w
  end.

Definition processTransactionInclusion (number : Z) (tx : Tx) (receipt : option Receipt) (w : Wallet)
    : option Wallet :=
  if negb (isReady w) then Some w else
  let nonce := Tx_Nonce tx in
  if nonce <? confirmedNonce w then Some w else
  let w := pay tx receipt (set_lastConfirmation number w) in
  '(chans, sts) ← confirm_chans nonce receipt w;
  let w := set_chans chans sts (nextStatus w) w in
  let w := set_confirmed (nonce +u 1) (confirmedBalance w) w in
  Some (if pendingNonce w <? confirmedNonce w
        then set_pending (confirmedNonce w) (confirmedBalance w) w else w).

(** Recovery of confirmations that were missed; [lastNonce] is the answer of
    the first client that saw the block. *)
Definition processStaleConfirmations (number : Z) (lastNonce : result Z) (w : Wallet) : option Wallet :=
  if negb (isReady w) then Some w else
  if negb (0 <? size (txNonceChans w))%nat || (number <=? lastConfirmation w +u 10) then Some w else
  let w := set_lastConfirmation number w in
  match lastNonce with
  | Err _ => Some w
  | Ok lastNonce =>
      if lastNonce <=? confirmedNonce w then Some w else
      '(chans, sts) ← close_entries (fun n => n <? lastNonce) (fun _ => close_status None false) w;
      Some (set_chans chans sts (nextStatus w) w)
  end.

Definition processTransactionReceival (tx : Tx) (w : Wallet) : Wallet :=
  if negb (isReady w) then w else
  set_pending (pendingNonce w) (pendingBalance w + Tx_Value tx)
    (set_confirmed (confirmedNonce w) (confirmedBalance w + Tx_Value tx) w).

(** ** The manager *)

(** The wallets by address; a wallet object never moves. *)
Abbreviation Manager := (gmap Address Wallet) (only parsing).

Definition GetWalletByAddress (addr : Address) (m : Manager) : Manager * Wallet :=
  match m !! addr with
  | Some w => (m, w)
  | None => let w := newWallet addr in (<[addr := w]> m, w)
  end.

(** [addr] is the address of the key. *)
Definition GetWalletByPrivkey (key : PrivateKey) (addr : Address) (m : Manager) : Manager * Wallet :=
  let '(m, w) := GetWalletByAddress addr m in
  match privkey w with
  | Some _ => (m, w)
  | None => let w := set_privkey key w in (<[addr := w]> m, w)
  end.

(** Apply a step to one wallet, if it is known. *)
Definition on_wallet (addr : Address) (f : Wallet -> option Wallet) (m : Manager) : option Manager :=
  match m !! addr with
  | Some w => w' ← f w; Some (<[addr := w']> m)
  | None => Some m
  end.

Definition resync_authorities (auths : option (list (result Address))) (m : Manager) : Manager :=
  fold_left (fun m a => match a with
    | Ok addr => alter ResyncState addr m
    | Err _ => m
    end) (default [] auths) m.

(** One iteration of the loop over the transactions; a transaction whose
    sender cannot be recovered is skipped. *)
Definition process_tx (number : Z) (receipts : list Receipt) (m : option Manager) (e : nat * Tx) : option Manager :=
  let '(idx, tx) := e in
  m ← m;
  match Tx_Sender tx with
  | Err _ => Some m
  | Ok from =>
      m ← on_wallet from (processTransactionInclusion number tx (receipts !! idx)) m;
      m ← match Tx_To tx with
          | Some to => on_wallet to (fun w => Some (processTransactionReceival tx w)) m
          | None => Some m
          end;
      Some (resync_authorities (Tx_Authorities tx) m)
  end.

(** [receipts] is what [loadBlockReceipts] returns when it is called (the
    empty list for nil), [lastNonce] the answer to a wallet's stale check. *)
Definition processBlockTransactions (number : Z) (txs : list Tx) (receipts : list Receipt)
    (lastNonce : Address -> result Z) (m : Manager) : option Manager :=
  m ← fold_left (process_tx number receipts) (imap pair txs) (Some m);
  fold_left (fun m (e : Address * Wallet) =>
      m ← m; on_wallet e.1 (processStaleConfirmations number (lastNonce e.1)) m) (map_to_list m) (Some m).

(** ** Invariants *)

(** Every pending nonce has its own status object, without receipt and with
    an open channel. *)
Record chans_wf (w : Wallet) : Prop := {
  cwf_open : forall n p, txNonceChans w !! n = Some p -> statuses w !! p = Some (mkNonceStatus None false);
  cwf_inj : forall n m p, txNonceChans w !! n = Some p -> txNonceChans w !! m = Some p -> n = m;
  cwf_next : forall p, is_Some (statuses w !! p) -> (p < nextStatus w)%nat
}.

(** While the state is loaded [readyChan] is open; channels of the future are
    new. *)
Definition ready_wf (w : Wallet) : Prop :=
  (isSyncing w = true -> readyChan w ∉ closedReady w) /\
  forall c, c ∈ closedReady w -> (c <= readyChan w)%nat.

(** A waiter is only attached to a nonce's object while it is in the map, so
    what it finds in the object at the end was put there by the close. *)
Record wallet_inv (w : Wallet) : Prop := {
  winv_chans : chans_wf w;
  winv_nonces : 0 <= confirmedNonce w <= pendingNonce w /\ pendingNonce w < two64;
  winv_ready : ready_wf w
}.

Lemma close_fold sel upd (l : list (Z * nat)) chans sts :
  NoDup l.*1 -> NoDup l.*2 ->
  (forall n p, (n, p) ∈ l -> exists st, sts !! p = Some st /\ ns_closed st = false) ->
  exists chans' sts', fold_left (close_entry sel upd) l (Some (chans, sts)) = Some (chans', sts') /\
    (forall n, chans' !! n = if sel n && bool_decide (n ∈ l.*1) then None else chans !! n) /\
    (forall n p, (n, p) ∈ l -> sel n = true -> sts' !! p = upd n <$> sts !! p) /\
    (forall p, (forall n, (n, p) ∈ l -> sel n = false) -> sts' !! p = sts !! p).
Proof.
  revert chans sts. induction l as [|[n0 p0] l IH]; intros chans sts Hk Hp Hst; cbn [fold_left].
  { exists chans, sts. split; [done|]. split; [|split; [set_solver|done]].
    intros n. rewrite bool_decide_false by set_solver. by rewrite andb_false_r. }
  simpl in Hk, Hp. apply NoDup_cons in Hk as [Hn0 Hk], Hp as [Hp0 Hp].
  assert (forall n p, (n, p) ∈ l -> p <> p0) as Hne.
  { intros n p Hin ->. apply Hp0. by apply (list_elem_of_fmap_2 snd _ (n, p0)). }
  destruct (Hst n0 p0 ltac:(set_solver)) as (st0 & Hst0 & Hopen).
  unfold close_entry at 2. simpl. destruct (sel n0) eqn:Hsel; simpl.
  - rewrite Hst0. simpl. rewrite Hopen.
    destruct (IH (delete n0 chans) (<[p0 := upd n0 st0]> sts) Hk Hp) as (chans' & sts' & -> & H1 & H2 & H3).
    { intros n p Hin. rewrite lookup_insert_ne by (apply not_eq_sym; eauto). apply (Hst n p). set_solver. }
    exists chans', sts'. split; [done|]. split; [|split].
    + intros n. rewrite H1. destruct (decide (n = n0)) as [->|Hnn].
      * rewrite (bool_decide_false (n0 ∈ l.*1)) by done. rewrite Hsel, bool_decide_true by set_solver. simpl.
        by rewrite lookup_delete_eq.
      * rewrite lookup_delete_ne by done. simpl.
        destruct (bool_decide_reflect (n ∈ l.*1)) as [Hin|Hin].
        -- by rewrite bool_decide_true by set_solver.
        -- by rewrite bool_decide_false by set_solver.
    + intros n p [[= -> ->]|Hin]%elem_of_cons Hs.
      * rewrite H3; [by rewrite lookup_insert_eq, Hst0|]. intros m Hm. by destruct (Hne m p0 Hm).
      * rewrite (H2 n p Hin Hs). rewrite lookup_insert_ne by (apply not_eq_sym; eauto). done.
    + intros p Hno. rewrite H3 by set_solver. rewrite lookup_insert_ne; [done|].
      intros ->. specialize (Hno n0 ltac:(set_solver)). congruence.
  - destruct (IH chans sts Hk Hp) as (chans' & sts' & -> & H1 & H2 & H3); [set_solver|].
    exists chans', sts'. split; [done|]. split; [|split].
    + intros n. rewrite H1. simpl. destruct (decide (n = n0)) as [->|Hnn]; [by rewrite Hsel|].
      destruct (bool_decide_reflect (n ∈ l.*1)) as [Hin|Hin].
      * by rewrite bool_decide_true by set_solver.
      * by rewrite bool_decide_false by set_solver.
    + intros n p [[= -> ->]|Hin]%elem_of_cons Hs; [congruence|by apply H2].
    + intros p Hno. apply H3. set_solver.
Qed.

(** Closing some entries of a well-formed map never panics. *)
Lemma close_entries_ok sel upd w :
  chans_wf w ->
  exists chans' sts', close_entries sel upd w = Some (chans', sts') /\
    (forall n, chans' !! n = if sel n then None else txNonceChans w !! n) /\
    (forall n p, txNonceChans w !! n = Some p -> sel n = true -> sts' !! p = Some (upd n (mkNonceStatus None false))) /\
    (forall p, (forall n, txNonceChans w !! n = Some p -> sel n = false) -> sts' !! p = statuses w !! p) /\
    (forall next, (nextStatus w <= next)%nat -> chans_wf (set_chans chans' sts' next w)).
Proof.
  intros [Hopen Hinj Hnext].
  destruct (close_fold sel upd (map_to_list (txNonceChans w)) (txNonceChans w) (statuses w))
    as (chans' & sts' & Heq & H1 & H2 & H3).
  - apply NoDup_fst_map_to_list.
  - apply NoDup_fmap_2_strong; [|apply NoDup_map_to_list].
    intros [n p] [m q] Hn%elem_of_map_to_list Hm%elem_of_map_to_list ?. simpl in *. subst q.
    by rewrite (Hinj _ _ _ Hn Hm).
  - intros n p Hin%elem_of_map_to_list. eauto.
  - assert (forall n, chans' !! n = if sel n then None else txNonceChans w !! n) as Hc.
    { intros n. rewrite H1. destruct (sel n); simpl; [|done].
      case_bool_decide as Hin; [done|]. apply eq_None_not_Some. intros [p Hp]. apply Hin.
      apply (list_elem_of_fmap_2 fst _ (n, p)). by apply elem_of_map_to_list. }
    assert (forall n p, txNonceChans w !! n = Some p -> sel n = true ->
      sts' !! p = Some (upd n (mkNonceStatus None false))) as Hcl.
    { intros n p Hp Hs. rewrite (H2 n p); [by rewrite (Hopen n p Hp)|by apply elem_of_map_to_list|done]. }
    assert (forall p, (forall n, txNonceChans w !! n = Some p -> sel n = false) -> sts' !! p = statuses w !! p) as Hold.
    { intros p Hp. apply H3. intros n Hin%elem_of_map_to_list. eauto. }
    exists chans', sts'. split; [done|]. split; [done|]. split; [done|]. split; [done|].
    intros next Hle. split; simpl.
    + intros n p. rewrite Hc. destruct (sel n) eqn:Hs; [done|]. intros Hp. rewrite Hold; [eauto|].
      intros m Hm. by rewrite (Hinj _ _ _ Hm Hp).
    + intros n m p. rewrite !Hc. destruct (sel n), (sel m); try done. apply Hinj.
    + intros p Hp. destruct (decide (is_Some (statuses w !! p))) as [Hs|Hs]; [apply Hnext in Hs; lia|].
      rewrite Hold in Hp; [by apply Hnext in Hp; lia|].
      intros n Hn. by rewrite (Hopen n p Hn) in Hs; destruct Hs.
Qed.

(** The operations on one wallet, in any order, with any answers.  The state
    is loaded by a goroutine that [loadState] started, whose end is one step;
    nonces of transactions stay below 2^64 - 1 (EIP-2681). *)
Inductive wallet_op :=
  | OpResync
  | OpLoaded (nonce balance : Z)
  | OpNextNonce (increase : bool)
  | OpBuild (ctxErr : option error) (buildFn : Z -> result Tx)
  | OpAwait (nonce : Z)
  | OpInclusion (number : Z) (tx : Tx) (receipt : option Receipt)
  | OpStale (number : Z) (lastNonce : result Z)
  | OpReceival (tx : Tx).

Definition wallet_run_op (op : wallet_op) (w : Wallet) : option Wallet :=
  match op with
  | OpResync => Some (ResyncState w)
  | OpLoaded nonce balance => loadState_done nonce balance w
  | OpNextNonce increase => Some (UseNextNonce increase w).1
  | OpBuild ctxErr buildFn => Some (BuildTransaction ctxErr buildFn w).1
  | OpAwait nonce => Some (getTxNonceChan nonce w).1
  | OpInclusion number tx receipt => processTransactionInclusion number tx receipt w
  | OpStale number lastNonce => processStaleConfirmations number lastNonce w
  | OpReceival tx => Some (processTransactionReceival tx w)
  end.

Definition nonce_ok (n : Z) : Prop := 0 <= n < MaxUint64.

Definition op_ok (op : wallet_op) (w : Wallet) : Prop :=
  match op with
  | OpLoaded nonce _ => isSyncing w = true /\ nonce_ok nonce
  | OpNextNonce _ => pendingNonce w < MaxUint64
  | OpBuild _ buildFn => forall tx, buildFn (pendingNonce w) = Ok tx -> nonce_ok (Tx_Nonce tx)
  | OpInclusion _ tx _ => nonce_ok (Tx_Nonce tx)
  | _ => True
  end.

Lemma nonce_succ n : nonce_ok n -> n +u 1 = n + 1.
Proof. intros H. unfold nonce_ok in H. apply u64_id. go_lia. Qed.

Lemma chans_wf_same w w' :
  txNonceChans w' = txNonceChans w -> statuses w' = statuses w -> nextStatus w' = nextStatus w ->
  chans_wf w -> chans_wf w'.
Proof. intros H1 H2 H3 []. split; rewrite ?H1, ?H2, ?H3; done. Qed.

Lemma ready_wf_same w w' :
  isSyncing w' = isSyncing w -> readyChan w' = readyChan w -> closedReady w' = closedReady w -> ready_wf w -> ready_wf w'.
Proof. unfold ready_wf. by intros -> -> ->. Qed.

Lemma loadState_wf w : ready_wf w -> ready_wf (loadState w).
Proof.
  unfold loadState. destruct (isSyncing w) eqn:Hs; [done|]. intros [_ Hle]. split; simpl.
  - intros _ Hin%Hle. lia.
  - intros c Hc%Hle. lia.
Qed.

(** A running load ends without a panic. *)
Lemma loadState_done_ok nonce balance w :
  ready_wf w -> isSyncing w = true -> exists w', loadState_done nonce balance w = Some w' /\ ready_wf w' /\
    isReady w' = true /\ isSyncing w' = false /\ readyChan w' ∈ closedReady w' /\
    confirmedNonce w' = nonce /\ pendingNonce w' = nonce /\ confirmedBalance w' = balance /\ pendingBalance w' = balance /\
    txNonceChans w' = txNonceChans w /\ statuses w' = statuses w /\ nextStatus w' = nextStatus w.
Proof.
  intros [Hr Hle] Hs. unfold loadState_done, close_ready. simpl. rewrite decide_False by auto.
  eexists. split; [done|]. split; [|simpl; split_and!; try done; set_solver].
  split; [done|]. simpl. intros c [->%elem_of_singleton|Hc%Hle]%elem_of_union; lia.
Qed.

Lemma inclusion_spec number tx receipt w :
  wallet_inv w -> nonce_ok (Tx_Nonce tx) -> isReady w = true -> confirmedNonce w <= Tx_Nonce tx ->
  let nonce := Tx_Nonce tx in
  let cost := from_option (fun r => Tx_Value tx + txFee r) 0 receipt in
  exists w', processTransactionInclusion number tx receipt w = Some w' /\
    isReady w' = true /\ confirmedNonce w' = nonce + 1 /\ confirmedBalance w' = confirmedBalance w - cost /\
    pendingNonce w' = Z.max (pendingNonce w) (nonce + 1) /\
    pendingBalance w' = (if pendingNonce w <=? nonce then confirmedBalance w - cost
                         else pendingBalance w - from_option txFee 0 receipt) /\
    (forall n, txNonceChans w' !! n = if n <=? nonce then None else txNonceChans w !! n) /\
    (forall n p, txNonceChans w !! n = Some p -> n <= nonce ->
      statuses w' !! p = Some (mkNonceStatus (if decide (n = nonce) then receipt else None) true)) /\
    (forall p, (forall n, txNonceChans w !! n = Some p -> nonce < n) -> statuses w' !! p = statuses w !! p) /\
    wallet_inv w'.
Proof.
  intros [Hwf Hn Hrd] Hok Hready Hle nonce cost. unfold processTransactionInclusion. rewrite Hready. simpl.
  assert (Tx_Nonce tx <? confirmedNonce w = false) as -> by lia. fold nonce.
  set (w1 := pay tx receipt (set_lastConfirmation number w)).
  assert (chans_wf w1) as Hwf1 by (subst w1; destruct receipt; by apply (chans_wf_same w)).
  assert (txNonceChans w1 = txNonceChans w /\ statuses w1 = statuses w /\ nextStatus w1 = nextStatus w /\
    pendingNonce w1 = pendingNonce w /\ isReady w1 = true /\
    confirmedBalance w1 = confirmedBalance w - cost /\
    pendingBalance w1 = pendingBalance w - from_option txFee 0 receipt) as (Hc & Hst & Hnx & Hpn & Hr1 & Hcb & Hpb).
  { subst w1 cost. destruct receipt; simpl; rewrite ?Hready; split_and!; try done; lia. }
  assert (ready_wf w1) as Hrd1 by (subst w1; destruct receipt; by apply (ready_wf_same w)).
  destruct (close_entries_ok (fun n => n <=? nonce) (fun n => close_status receipt (bool_decide (n = nonce))) w1 Hwf1)
    as (chans & sts & Heq & H1 & H2 & H3 & H4).
  unfold confirm_chans. rewrite Heq. simpl. rewrite Hc in H1, H2, H3. rewrite Hst in H3.
  rewrite (nonce_succ nonce) by done. rewrite Hpn.
  specialize (H4 (nextStatus w1) (Nat.le_refl _)).
  eexists. split; [done|]. unfold nonce_ok in Hok.
  destruct (pendingNonce w <? nonce + 1) eqn:Hcmp; simpl.
  - assert (pendingNonce w <=? nonce = true) as -> by lia.
    split; [done|]. split; [done|]. split; [done|]. split; [lia|]. split; [done|]. split; [done|].
    split; [|split].
    + intros n p Hp Hnp. rewrite (H2 n p Hp ltac:(lia)). unfold close_status. by repeat case_decide; case_bool_decide.
    + intros p Hp. apply H3. intros n Hnp. specialize (Hp n Hnp). lia.
    + split; simpl; [by apply (chans_wf_same (set_chans chans sts (nextStatus w1) w1))|go_lia|by apply (ready_wf_same w1)].
  - assert (pendingNonce w <=? nonce = false) as -> by lia.
    split; [done|]. split; [done|]. split; [done|]. split; [lia|]. split; [done|]. split; [done|].
    split; [|split].
    + intros n p Hp Hnp. rewrite (H2 n p Hp ltac:(lia)). unfold close_status. by repeat case_decide; case_bool_decide.
    + intros p Hp. apply H3. intros n Hnp. specialize (Hp n Hnp). lia.
    + split; simpl; [by apply (chans_wf_same (set_chans chans sts (nextStatus w1) w1))|go_lia|by apply (ready_wf_same w1)].
Qed.

Lemma inclusion_known number tx receipt w :
  isReady w = false \/ Tx_Nonce tx < confirmedNonce w -> processTransactionInclusion number tx receipt w = Some w.
Proof.
  intros H. unfold processTransactionInclusion. destruct (isReady w); simpl; [|done].
  destruct H as [|H]; [done|]. assert (Tx_Nonce tx <? confirmedNonce w = true) as -> by lia. done.
Qed.

Lemma inclusion_inv number tx receipt w :
  nonce_ok (Tx_Nonce tx) -> wallet_inv w ->
  exists w', processTransactionInclusion number tx receipt w = Some w' /\ wallet_inv w'.
Proof.
  intros Hok Hinv. destruct (isReady w) eqn:Hr; [|exists w; split; [apply inclusion_known; by left|done]].
  destruct (decide (Tx_Nonce tx < confirmedNonce w)); [exists w; split; [apply inclusion_known; by right|done]|].
  destruct (inclusion_spec number tx receipt w Hinv Hok Hr ltac:(lia)) as (w' & ? & H). exists w'. split; [done|].
  apply H.
Qed.

(** The stale check closes channels but leaves nonces and balances alone. *)
Lemma stale_spec number lastNonce w :
  wallet_inv w -> exists w', processStaleConfirmations number lastNonce w = Some w' /\ wallet_inv w' /\
    isReady w' = isReady w /\ confirmedNonce w' = confirmedNonce w /\ confirmedBalance w' = confirmedBalance w /\
    pendingNonce w' = pendingNonce w /\ pendingBalance w' = pendingBalance w.
Proof.
  intros [Hwf Hn Hrd]. unfold processStaleConfirmations.
  destruct (isReady w) eqn:Hr; simpl; [|by exists w].
  destruct (_ || _); [by exists w|].
  set (w1 := set_lastConfirmation number w).
  assert (chans_wf w1) as Hwf1 by (by apply (chans_wf_same w)).
  destruct lastNonce as [last|e]; [|by exists w1].
  destruct (last <=? confirmedNonce w); [by exists w1|].
  destruct (close_entries_ok (fun n => n <? last) (fun _ => close_status None false) w1 Hwf1)
    as (chans & sts & Heq & _ & _ & _ & H4). fold w1. rewrite Heq. simpl.
  eexists. split; [done|]. split; [|done]. split; [by apply H4|done|by apply (ready_wf_same w)].
Qed.

Lemma getTxNonceChan_inv n w : wallet_inv w -> wallet_inv (getTxNonceChan n w).1.
Proof.
  intros [[Hopen Hinj Hnext] Hn Hrd]. unfold getTxNonceChan. destruct (n <? confirmedNonce w); [done|].
  destruct (txNonceChans w !! n) as [p|] eqn:Hp; [done|]. simpl.
  assert (forall m q, txNonceChans w !! m = Some q -> q <> nextStatus w) as Hfresh.
  { intros m q Hq ->. apply Hopen in Hq. assert (nextStatus w < nextStatus w)%nat; [apply Hnext; eauto|lia]. }
  split; [|done|by apply (ready_wf_same w)]. split; simpl.
  - intros m q [[<- <-]|[Hne Hq]]%lookup_insert_Some; [by rewrite lookup_insert_eq|].
    rewrite lookup_insert_ne by (apply not_eq_sym; eauto). eauto.
  - intros m k q [[Hm Hq]|[Hm Hq]]%lookup_insert_Some [[Hk Hq']|[Hk Hq']]%lookup_insert_Some; subst; try done.
    + by destruct (Hfresh _ _ Hq').
    + by destruct (Hfresh _ _ Hq).
    + eauto.
  - intros q. destruct (decide (q = nextStatus w)) as [->|]; [lia|].
    rewrite lookup_insert_ne by done. intros Hq%Hnext. lia.
Qed.

Lemma BuildTransaction_inv ctxErr buildFn w :
  (forall tx, buildFn (pendingNonce w) = Ok tx -> nonce_ok (Tx_Nonce tx)) -> wallet_inv w ->
  wallet_inv (BuildTransaction ctxErr buildFn w).1.
Proof.
  intros Hb [Hwf Hn Hrd]. unfold BuildTransaction.
  destruct (AwaitReady ctxErr w) as [[e|]|]; [done| |done].
  destruct (buildFn (pendingNonce w)) as [tx|e]; [|done]. specialize (Hb tx eq_refl).
  destruct (SignTx tx (privkey w)); [|done]. simpl. rewrite nonce_succ by done. unfold nonce_ok in Hb.
  split; [by apply (chans_wf_same w)| |by apply (ready_wf_same w)].
  simpl. destruct (pendingNonce w <? Tx_Nonce tx + 1) eqn:?; go_lia.
Qed.

Lemma wallet_op_inv op w :
  op_ok op w -> wallet_inv w -> exists w', wallet_run_op op w = Some w' /\ wallet_inv w'.
Proof.
  intros Hok Hinv. destruct op as [|nonce balance|inc|ctxErr buildFn|n|number tx r|number last|tx]; simpl in *.
  - eexists. split; [done|]. destruct Hinv as [Hwf Hn Hrd]. unfold ResyncState.
    split; [..|by apply loadState_wf]; unfold loadState; destruct (isSyncing w); try done. by apply (chans_wf_same w).
  - destruct Hinv as [Hwf Hn Hrd], Hok as [Hs Hok]. unfold nonce_ok in Hok.
    destruct (loadState_done_ok nonce balance w Hrd Hs) as (w' & -> & Hrd' & _ & _ & _ & Hc & Hp & _ & _ & E1 & E2 & E3).
    exists w'. split; [done|]. split; [by apply (chans_wf_same w)| |done]. rewrite Hc, Hp. go_lia.
  - eexists. split; [done|]. destruct inc; [|done]. destruct Hinv as [Hwf Hn Hrd].
    split; [by apply (chans_wf_same w)| |by apply (ready_wf_same w)].
    simpl. rewrite nonce_succ by (unfold nonce_ok; go_lia). go_lia.
  - eexists. split; [done|]. by apply BuildTransaction_inv.
  - eexists. split; [done|]. by apply getTxNonceChan_inv.
  - by apply inclusion_inv.
  - destruct (stale_spec number last w Hinv) as (w' & ? & ? & _). eauto.
  - eexists. split; [done|]. unfold processTransactionReceival. destruct (isReady w); [|done].
    destruct Hinv as [Hwf Hn Hrd]. split; [by apply (chans_wf_same w)|done|by apply (ready_wf_same w)].
Qed.

Fixpoint wallet_run (ops : list wallet_op) (w : Wallet) : option Wallet :=
  match ops with
  | [] => Some w
  | op :: ops => wallet_run_op op w ≫= wallet_run ops
  end.

Fixpoint ops_ok (ops : list wallet_op) (w : Wallet) : Prop :=
  match ops with
  | [] => True
  | op :: ops => op_ok op w /\ match wallet_run_op op w with Some w => ops_ok ops w | None => True end
  end.

Lemma wallet_run_inv ops w :
  ops_ok ops w -> wallet_inv w -> exists w', wallet_run ops w = Some w' /\ wallet_inv w'.
Proof.
  revert w. induction ops as [|op ops IH]; intros w; simpl; [eauto|].
  intros [Hok Hops] Hinv. destruct (wallet_op_inv op w Hok Hinv) as (w1 & Hrun & Hinv1).
  rewrite Hrun in Hops |- *. by apply IH.
Qed.

Lemma newWallet_inv addr : wallet_inv (newWallet addr).
Proof.
  split; [|simpl; go_lia|]; [|split; simpl; set_solver]. split; simpl.
  - intros n p. by rewrite lookup_empty.
  - intros n m p. by rewrite lookup_empty.
  - intros p. rewrite lookup_empty. by intros [? ?].
Qed.

(** ** Accounting *)








(** ** The chain's ledger *)

Record Account := mkAccount { acc_nonce : Z; acc_balance : Z }.
Definition Ledger := Address -> Account.

(** The value a transaction moves: none when it is reverted. *)
Definition moved (tx : Tx) (r : Receipt) : Z := if Receipt_Status r =? 1 then Tx_Value tx else 0.

Definition ledger_tx (from : Address) (tx : Tx) (r : Receipt) (L : Ledger) : Ledger := fun a =>
  mkAccount (acc_nonce (L a) + (if decide (a = from) then 1 else 0))
    (acc_balance (L a) - (if decide (a = from) then moved tx r + txFee r else 0)
       + (if decide (Tx_To tx = Some a) then moved tx r else 0)).

(** A block of transactions with their receipts; [None] if a transaction is
    not valid: its sender unknown or its nonce not the account's. *)
Fixpoint ledger_block (ps : list (Tx * Receipt)) (L : Ledger) : option Ledger :=
  match ps with
  | [] => Some L
  | (tx, r) :: ps =>
      match Tx_Sender tx with
      | Ok from => if decide (Tx_Nonce tx = acc_nonce (L from)) then ledger_block ps (ledger_tx from tx r L) else None
      | Err _ => None
      end
  end.

(** The error a reverted transaction leaves in the tracked balance of [a]. *)
Definition drift_tx (tx : Tx) (r : Receipt) (a : Address) : Z :=
  if Receipt_Status r =? 1 then 0
  else (if decide (Tx_To tx = Some a) then Tx_Value tx else 0)
       - (if decide (Tx_Sender tx = Ok a) then Tx_Value tx else 0).

Definition drift_block (ps : list (Tx * Receipt)) (a : Address) : Z :=
  foldr (fun p d => drift_tx p.1 p.2 a + d) 0 ps.

(** Every known wallet is loaded and follows the ledger up to a drift. *)
Definition tracks (d : Address -> Z) (m : Manager) (L : Ledger) : Prop :=
  forall a w, m !! a = Some w -> wallet_inv w /\ isReady w = true /\
    confirmedNonce w = acc_nonce (L a) /\ confirmedBalance w = acc_balance (L a) + d a.

Definition plain_txs (ps : list (Tx * Receipt)) : Prop := forall p, p ∈ ps -> Tx_Authorities p.1 = None.

Definition block_nonces_ok (ps : list (Tx * Receipt)) : Prop := forall p, p ∈ ps -> nonce_ok (Tx_Nonce p.1).

Lemma receival_spec tx w :
  wallet_inv w -> isReady w = true ->
  let w' := processTransactionReceival tx w in
  wallet_inv w' /\ isReady w' = true /\ confirmedNonce w' = confirmedNonce w /\
  confirmedBalance w' = confirmedBalance w + Tx_Value tx.
Proof.
  intros [Hc Hn Hrd] Hr. unfold processTransactionReceival. rewrite Hr. simpl. split; [|done].
  split; [by apply (chans_wf_same w)|done|by apply (ready_wf_same w)].
Qed.

Lemma process_tx_tracks number receipts idx tx r from d m L :
  receipts !! idx = Some r -> Tx_Sender tx = Ok from -> Tx_Authorities tx = None ->
  nonce_ok (Tx_Nonce tx) -> Tx_Nonce tx = acc_nonce (L from) -> tracks d m L ->
  exists m', process_tx number receipts (Some m) (idx, tx) = Some m' /\ dom m' = dom m /\
    tracks (fun a => drift_tx tx r a + d a) m' (ledger_tx from tx r L).
Proof.
  intros Hrec Hfrom Hauth Hok Hnonce Ht. unfold process_tx. simpl. rewrite Hfrom, Hrec, Hauth.
  (* the sender *)
  assert (exists m1, on_wallet from (processTransactionInclusion number tx (Some r)) m = Some m1 /\ dom m1 = dom m /\
    forall a w, m1 !! a = Some w -> wallet_inv w /\ isReady w = true /\
      confirmedNonce w = acc_nonce (L a) + (if decide (a = from) then 1 else 0) /\
      confirmedBalance w = acc_balance (L a) + d a - (if decide (a = from) then Tx_Value tx + txFee r else 0))
    as (m1 & -> & Hdom1 & Ht1).
  { unfold on_wallet. destruct (m !! from) as [w|] eqn:Hw.
    - destruct (Ht from w Hw) as (Hinv & Hr & Hc & Hb).
      destruct (inclusion_spec number tx (Some r) w Hinv Hok Hr ltac:(lia)) as (w' & Heq & Hr' & Hc' & Hb' & _ & _ & _ & _ & _ & Hinv').
      rewrite Heq. simpl. eexists. split; [done|]. split; [rewrite dom_insert_L; apply elem_of_dom_2 in Hw; set_solver|].
      intros a x [[<- <-]|[Hne Hx]]%lookup_insert_Some.
      + rewrite !decide_True by done. split; [done|]. split; [done|]. simpl in Hb'. lia.
      + destruct (Ht a x Hx) as (? & ? & ? & ?). rewrite !decide_False by done. split; [done|]. split; [done|]. lia.
    - exists m. split; [done|]. split; [done|]. intros a x Hx. destruct (Ht a x Hx) as (? & ? & ? & ?).
      rewrite !decide_False by congruence. split; [done|]. split; [done|]. lia. }
  cbn [mbind option_bind].
  (* the recipient *)
  assert (exists m2, match Tx_To tx with
      | Some to => on_wallet to (fun w => Some (processTransactionReceival tx w)) m1
      | None => Some m1 end = Some m2 /\ dom m2 = dom m1 /\
    forall a w, m2 !! a = Some w -> wallet_inv w /\ isReady w = true /\
      confirmedNonce w = acc_nonce (L a) + (if decide (a = from) then 1 else 0) /\
      confirmedBalance w = acc_balance (L a) + d a - (if decide (a = from) then Tx_Value tx + txFee r else 0)
        + (if decide (Tx_To tx = Some a) then Tx_Value tx else 0)) as (m2 & -> & Hdom2 & Ht2).
  { destruct (Tx_To tx) as [to|].
    - unfold on_wallet. destruct (m1 !! to) as [w|] eqn:Hw.
      + destruct (Ht1 to w Hw) as (Hinv & Hr & Hc & Hb). destruct (receival_spec tx w Hinv Hr) as (Hinv' & Hr' & Hc' & Hb').
        simpl. eexists. split; [done|]. split; [rewrite dom_insert_L; apply elem_of_dom_2 in Hw; set_solver|].
        intros a x [[<- <-]|[Hne Hx]]%lookup_insert_Some.
        * rewrite (decide_True (P := Some to = Some to)) by done. split; [done|]. split; [done|]. lia.
        * destruct (Ht1 a x Hx) as (? & ? & ? & ?). rewrite (decide_False (P := Some to = Some a)) by congruence.
          split; [done|]. split; [done|]. lia.
      + exists m1. split; [done|]. split; [done|]. intros a x Hx. destruct (Ht1 a x Hx) as (? & ? & ? & ?).
        rewrite (decide_False (P := Some to = Some a)) by congruence. split; [done|]. split; [done|]. lia.
    - exists m1. split; [done|]. split; [done|]. intros a x Hx. destruct (Ht1 a x Hx) as (? & ? & ? & ?).
      rewrite (decide_False (P := None = Some a)) by done. split; [done|]. split; [done|]. lia. }
  cbn [mbind option_bind]. exists m2. split; [done|]. split; [congruence|].
  intros a w Hw. destruct (Ht2 a w Hw) as (Hinv & Hr & Hc & Hb). split; [done|]. split; [done|].
  unfold ledger_tx, drift_tx, moved. simpl. split; [done|]. rewrite Hb, Hfrom.
  assert ((if decide (Ok from = Ok a) then Tx_Value tx else 0) = (if decide (a = from) then Tx_Value tx else 0)) as ->.
  { repeat case_decide; congruence. }
  destruct (Receipt_Status r =? 1); repeat case_decide; lia.
Qed.

Lemma process_txs_tracks number receipts base ps d m L L' :
  (forall i p, ps !! i = Some p -> receipts !! (base + i)%nat = Some p.2) ->
  plain_txs ps -> block_nonces_ok ps -> ledger_block ps L = Some L' -> tracks d m L ->
  exists m', fold_left (process_tx number receipts) (imap (fun i tx => ((base + i)%nat, tx)) ps.*1) (Some m) = Some m' /\
    dom m' = dom m /\ tracks (fun a => drift_block ps a + d a) m' L'.
Proof.
  revert base d m L. induction ps as [|[tx r] ps IH]; intros base d m L Hrec Hplain Hok Hl Ht.
  { simpl in Hl. injection Hl as <-. exists m. split; [done|]. split; [done|]. exact Ht. }
  cbn [ledger_block] in Hl. destruct (Tx_Sender tx) as [from|] eqn:Hfrom; [|done]. case_decide as Hnonce; [|done].
  rewrite fmap_cons. cbn [imap fold_left fst].
  destruct (process_tx_tracks number receipts (base + 0)%nat tx r from d m L) as (m1 & Hm1 & Hdom1 & Ht1);
    [by apply (Hrec 0%nat (tx, r))|done|apply (Hplain (tx, r)); set_solver|apply (Hok (tx, r)); set_solver|done|done|].
  rewrite Hm1.
  destruct (IH (S base) (fun a => drift_tx tx r a + d a) m1 (ledger_tx from tx r L)) as (m2 & Hm2 & Hdom2 & Ht2);
    [|intros p Hp; apply Hplain; set_solver|intros p Hp; apply Hok; set_solver|done|done|].
  { intros i p Hp. replace (S base + i)%nat with (base + S i)%nat by lia. by apply Hrec. }
  exists m2. split; [|split; [congruence|]].
  - rewrite <- Hm2. f_equal. apply imap_ext. intros i t _. simpl. f_equal. lia.
  - intros a w Hw. destruct (Ht2 a w Hw) as (? & ? & ? & ?). split_and!; [done..|]. simpl. lia.
Qed.

Lemma stale_tracks number lastNonce (l : list (Address * Wallet)) d m L :
  tracks d m L ->
  exists m', fold_left (fun m (e : Address * Wallet) =>
      m ← m; on_wallet e.1 (processStaleConfirmations number (lastNonce e.1)) m) l (Some m) = Some m' /\
    dom m' = dom m /\ tracks d m' L.
Proof.
  revert m. induction l as [|[a w0] l IH]; intros m Ht; cbn [fold_left]; [by exists m|].
  cbn [mbind option_bind fst]. unfold on_wallet at 2. destruct (m !! a) as [w|] eqn:Hw; [|by apply IH].
  destruct (Ht a w Hw) as (Hinv & Hr & Hc & Hb).
  destruct (stale_spec number (lastNonce a) w Hinv) as (w' & Heq & Hinv' & Hr' & Hc' & Hb' & _).
  rewrite Heq. cbn [mbind option_bind].
  destruct (IH (<[a := w']> m)) as (m' & -> & Hdom & Ht').
  - intros b x [[<- <-]|[Hne Hx]]%lookup_insert_Some; [|by apply Ht].
    split; [done|]. split; [congruence|]. split; congruence.
  - exists m'. split; [done|]. split; [|done]. rewrite Hdom, dom_insert_L. apply elem_of_dom_2 in Hw. set_solver.
Qed.

Lemma block_tracks number ps lastNonce d m L L' :
  plain_txs ps -> block_nonces_ok ps -> ledger_block ps L = Some L' -> tracks d m L ->
  exists m', processBlockTransactions number ps.*1 ps.*2 lastNonce m = Some m' /\ dom m' = dom m /\
    tracks (fun a => drift_block ps a + d a) m' L'.
Proof.
  intros Hplain Hok Hl Ht. unfold processBlockTransactions.
  destruct (process_txs_tracks number ps.*2 0 ps d m L L') as (m1 & Hm1 & Hdom1 & Ht1); [|done..|].
  { intros i p Hp. simpl. rewrite list_lookup_fmap. by rewrite Hp. }
  assert (imap (fun i tx => ((0 + i)%nat, tx)) ps.*1 = imap pair ps.*1) as Himap by done.
  rewrite Himap in Hm1. rewrite Hm1. cbn [mbind option_bind].
  destruct (stale_tracks number lastNonce (map_to_list m1) _ m1 L' Ht1) as (m2 & -> & Hdom2 & Ht2).
  exists m2. split; [done|]. split; [congruence|done].
Qed.


(** ** Lemmas: sending *)

Lemma send_loop_spec {C} n i offset (clients : list C) send err log r :
  send_loop n i offset clients send err = (log, r) -> clients <> [] ->
  (length log <= n)%nat /\
  (forall k c e, log !! k = Some (c, e) -> client_at clients (i + Z.of_nat k + offset) = Some c /\ send c = e) /\
  (forall k c e, log !! k = Some (c, e) -> (S k < length log)%nat -> is_Some e) /\
  (match r with
   | None => (n = 0%nat /\ err = None) \/ exists c, last log = Some (c, None)
   | Some e => length log = n /\ (n = 0%nat -> err = Some e) /\
       (forall k c e', log !! k = Some (c, e') -> is_Some e')
   end).
Proof.
  intros Hrun Hne. revert i err log r Hrun.
  assert (forall j, is_Some (client_at clients j)) as Hat.
  { intros j. unfold client_at. apply lookup_lt_is_Some_2.
    assert (0 < Z.of_nat (length clients)) by (destruct clients; [done|simpl; lia]).
    pose proof (Z.mod_pos_bound (u64 j) (Z.of_nat (length clients)) ltac:(lia)). lia. }
  induction n as [|n IH]; intros i err log r; simpl.
  { intros [= <- <-]. split; [simpl; lia|]. split; [done|]. split; [done|].
    destruct err; [split; [done|split; [done|done]]|by left]. }
  destruct (Hat (i + offset)) as [c Hc]. rewrite Hc. destruct (send c) as [e|] eqn:Hsend.
  - destruct (send_loop n (i + 1) offset clients send (Some e)) as [log' r'] eqn:Hl.
    intros [= <- <-]. destruct (IH _ _ _ _ Hl) as (Hlen & Hlog & Hmid & Hr). simpl. split; [lia|]. split; [|split].
    + intros [|k] c' e' Hk; simpl in Hk; simplify_eq.
      * replace (i + Z.of_nat 0 + offset) with (i + offset) by lia. done.
      * destruct (Hlog k c' e' Hk) as [Hck ?]. split; [|done]. rewrite <- Hck. f_equal. lia.
    + intros [|k] c' e' Hk Hlt; simpl in Hk; simplify_eq; [by eexists|]. apply (Hmid k c' e' Hk). lia.
    + destruct r' as [e'|].
      * destruct Hr as (Hn & _ & Hall). split; [lia|]. split; [done|].
        intros [|k] c' e'' Hk; simpl in Hk; simplify_eq; [by eexists|]. by apply (Hall k c' e'').
      * right. destruct Hr as [[_ ?]|[c' Hlast]]; [done|]. exists c'. by destruct log'.
  - intros [= <- <-]. simpl. split; [lia|]. split; [|split].
    + intros [|k] c' e' Hk; simpl in Hk; simplify_eq.
      replace (i + Z.of_nat 0 + offset) with (i + offset) by lia. done.
    + intros [|k] c' e' Hk Hlt; simpl in *; simplify_eq. lia.
    + right. by exists c.
Qed.
End wallet.

(** ** A concrete instance for the examples *)

Record ex_tx := mkExTx { et_from : Address; et_nonce : Z; et_value : Z; et_to : Address }.

(** A receipt: hash, status, price and gas. *)
Definition ex_types : EthTypes := {|
  Tx := ex_tx; Tx_Hash := fun t => Z.to_N (et_nonce t); Tx_Nonce := et_nonce; Tx_Value := et_value;
  Tx_To := fun t => Some (et_to t); Tx_Sender := fun t => Ok (et_from t); Tx_Authorities := fun _ => None;
  Receipt := N * Z * Z * Z; Receipt_TxHash := fun r => r.1.1.1; Receipt_Status := fun r => r.1.1.2;
  EffectiveGasPrice := fun r => r.1.2; GasUsed := snd;
  PrivateKey := N; SignTx := fun t k => match k with Some _ => Ok t | None => Err "no key"%string end |}.

Definition ex_wallet (addr : Address) (nonce balance : Z) : @Wallet ex_types :=
  let w := set_privkey (types := ex_types) 1%N (newWallet addr) in default w (loadState_done nonce balance w).

Lemma ex_wallet_inv addr nonce balance : nonce_ok nonce -> wallet_inv (ex_wallet addr nonce balance).
Proof.
  intros Hn. destruct (newWallet_inv (types := ex_types) addr) as [Hc _ Hrd].
  destruct (wallet_op_inv (types := ex_types) (OpLoaded nonce balance) (set_privkey (types := ex_types) 1%N (newWallet addr)))
    as (w & Hw & Hinv); [done| |by unfold ex_wallet; simpl in Hw; rewrite Hw].
  split; [by apply (chans_wf_same (newWallet addr))|done|by apply (ready_wf_same (newWallet addr))].
Qed.

(** Account 1 pays 5 to account 2, at nonce 7, for a fee of 6. *)
Definition ex_pay : ex_tx := mkExTx 1 7 5 2.
Definition ex_receipt (status : Z) : @Receipt ex_types := ((7%N, status, 2), 3).

Definition ex_manager : gmap Address (@Wallet ex_types) :=
  <[1%N := ex_wallet 1 7 100]> (<[2%N := ex_wallet 2 0 50]> ∅).

Definition ex_ledger : Ledger := fun a =>
  if decide (a = 1%N) then mkAccount 7 100 else if decide (a = 2%N) then mkAccount 0 50 else mkAccount 0 0.

Lemma ex_tracks : tracks (types := ex_types) (fun _ => 0) ex_manager ex_ledger.
Proof.
  intros a w Hw. unfold ex_manager in Hw.
  apply lookup_insert_Some in Hw as [[<- <-]|[_ Hw]].
  { split; [apply ex_wallet_inv; unfold nonce_ok; go_lia|]. split_and!; reflexivity. }
  apply lookup_insert_Some in Hw as [[<- <-]|[_ Hw]].
  { split; [apply ex_wallet_inv; unfold nonce_ok; go_lia|]. split_and!; reflexivity. }
  by rewrite lookup_empty in Hw.
Qed.

(** ** Properties *)



(** The status of a receipt is not looked at: after a block with reverted
    transactions every wallet shows the account's nonce, but its balance is
    off by the values of the reverted transactions, which the sender is
    charged and the recipient credited although nothing was transferred. *)
Theorem reverted_transactions_drift `{types : EthTypes} number ps lastNonce m (L L' : Ledger) :
  plain_txs ps -> block_nonces_ok ps -> ledger_block ps L = Some L' -> tracks (fun _ => 0) m L ->
  exists m', processBlockTransactions number ps.*1 ps.*2 lastNonce m = Some m' /\
    forall a w, m' !! a = Some w -> confirmedNonce w = acc_nonce (L' a) /\
      confirmedBalance w = acc_balance (L' a) + drift_block ps a.
Proof.
  intros Hplain Hok Hl Ht. destruct (block_tracks number ps lastNonce _ m L L' Hplain Hok Hl Ht) as (m' & ? & ? & Ht').
  exists m'. split; [done|]. intros a w Hw. destruct (Ht' a w Hw) as (? & ? & ? & Hb). split; [done|]. lia.
Qed.

Lemma reverted_transactions_drift_witness :
  drift_block (types := ex_types) [(ex_pay, ex_receipt 0)] 1%N = -5 /\
  exists m' L', processBlockTransactions (types := ex_types) 10 [ex_pay] [ex_receipt 0] (fun _ => Ok 0) ex_manager = Some m' /\
    forall w, m' !! 1%N = Some w -> confirmedBalance w = acc_balance (L' 1%N) + -5.
Proof.
  split; [by vm_compute|].
  destruct (ledger_block (types := ex_types) [(ex_pay, ex_receipt 0)] ex_ledger) as [L'|] eqn:HL; [|discriminate HL].
  assert (plain_txs (types := ex_types) [(ex_pay, ex_receipt 0)]) as Hp by (intros p _; reflexivity).
  assert (block_nonces_ok (types := ex_types) [(ex_pay, ex_receipt 0)]) as Hn.
  { intros p ->%list_elem_of_singleton. unfold nonce_ok. simpl. go_lia. }
  destruct (reverted_transactions_drift (types := ex_types) 10 [(ex_pay, ex_receipt 0)] (fun _ => Ok 0)
    ex_manager ex_ledger L' Hp Hn HL ex_tracks) as (m' & Hm & Hw).
  exists m', L'. split; [exact Hm|]. intros w Hmw. destruct (Hw 1%N w Hmw) as [_ Hb].
  exact Hb.
Defined.



(** C22: No sequence of operations on a wallet, with any answers of the node
    and any number of loads of its state, closes a channel twice, neither
    [readyChan] nor the one of a nonce, or dereferences a missing status; in
    every reachable state the confirmed nonce is at most the pending nonce,
    every pending nonce has its own open channel, and [readyChan] is open while
    the state is loaded.  The end of a load is one step here: between its
    clearing of [isSyncing] and its close of [readyChan] no other load starts
    ([resync_during_load_panics] shows what happens when one does). *)
Theorem wallet_never_panics `{types : EthTypes} addr ops :
  ops_ok ops (newWallet addr) -> exists w, wallet_run ops (newWallet addr) = Some w /\ wallet_inv w.
Proof. intros Hok. apply wallet_run_inv; [done|apply newWallet_inv]. Qed.

Definition ex_ops : list (@wallet_op ex_types) :=
  [OpLoaded 7 100; OpAwait 7; OpAwait 8; OpInclusion (types := ex_types) 10 ex_pay (Some (ex_receipt 1)); OpStale 30 (Ok 9);
   OpResync; OpResync; OpLoaded 9 80].

Lemma wallet_never_panics_witness :
  exists w, wallet_run ex_ops (newWallet 1) = Some w /\ wallet_inv w.
Proof.
  apply (wallet_never_panics (types := ex_types) 1 ex_ops).
  split; [split; [reflexivity|unfold nonce_ok; go_lia]|]. vm_compute. intuition congruence.
Defined.

(** The end of a load does not hold the mutex: when [ResyncState] runs between
    the clearing of [isSyncing] and the close of [readyChan], it replaces the
    channel, the first load closes the new one, its waiters see values that are
    about to be replaced, and the second load panics when it closes the channel
    again. *)
Theorem resync_during_load_panics `{types : EthTypes} w nonce1 balance1 nonce2 balance2 :
  ready_wf w -> isSyncing w = true ->
  exists w1, close_ready (ResyncState (load_values nonce1 balance1 w)) = Some w1 /\
    isSyncing w1 = true /\ AwaitReady None w1 = Some None /\ ~ readyChan w ∈ closedReady w1 /\
    loadState_done nonce2 balance2 w1 = None.
Proof.
  intros [Hr Hle] Hs. unfold close_ready at 1. simpl. rewrite decide_False by (intros Hin%Hle; lia).
  eexists. split; [done|]. split; [done|]. split; [|split].
  - unfold AwaitReady. simpl. by rewrite decide_True by set_solver.
  - simpl. intros [Hin%elem_of_singleton|Hin]%elem_of_union; [lia|by apply Hr].
  - unfold loadState_done, close_ready. simpl. by rewrite decide_True by set_solver.
Qed.

Lemma resync_during_load_panics_witness :
  exists w1, close_ready (ResyncState (load_values 7 100 (newWallet (types := ex_types) 1))) = Some w1 /\
    loadState_done 7 100 w1 = None.
Proof.
  destruct (resync_during_load_panics (types := ex_types) (newWallet 1) 7 100 7 100) as (w1 & H1 & _ & _ & _ & H2).
  - exact (winv_ready _ (newWallet_inv (types := ex_types) 1)).
  - reflexivity.
  - exists w1. split; [exact H1|exact H2].
Defined.

(** The inclusion of a transaction with an unconfirmed nonce confirms that
    nonce and everything below it: exactly the channels up to the nonce are
    closed and forgotten, the waiters of the nonce find the receipt, those of
    lower nonces nothing, later ones keep waiting.  A waiter whose
    transaction was replaced by another one gets no receipt, one whose nonce
    was skipped loads the receipt itself. *)
Theorem inclusion_notifies `{types : EthTypes} number tx receipt w :
  wallet_inv w -> nonce_ok (Tx_Nonce tx) -> isReady w = true -> confirmedNonce w <= Tx_Nonce tx ->
  exists w', processTransactionInclusion number tx (Some receipt) w = Some w' /\
    confirmedNonce w' = Tx_Nonce tx + 1 /\ pendingNonce w' = Z.max (pendingNonce w) (Tx_Nonce tx + 1) /\
    (forall n, txNonceChans w' !! n = if n <=? Tx_Nonce tx then None else txNonceChans w !! n) /\
    (forall n p mine loaded, txNonceChans w !! n = Some p -> n <= Tx_Nonce tx ->
      exists st, statuses w' !! p = Some st /\ ns_closed st = true /\
      await_result mine (Some st) loaded =
        if decide (n = Tx_Nonce tx)
        then (if decide (Receipt_TxHash receipt = Tx_Hash mine) then Some receipt else None) else loaded) /\
    (forall n p, txNonceChans w !! n = Some p -> Tx_Nonce tx < n ->
      statuses w' !! p = Some (mkNonceStatus None false)).
Proof.
  intros Hinv Hok Hr Hle.
  destruct (inclusion_spec number tx (Some receipt) w Hinv Hok Hr Hle)
    as (w' & Heq & _ & Hc & _ & Hp & _ & Hchans & Hclosed & Hkept & _).
  exists w'. split; [done|]. split; [done|]. split; [done|]. split; [done|]. split.
  - intros n p mine loaded Hn Hle'. eexists. split; [by apply (Hclosed n p)|]. split; [done|].
    destruct (decide (n = Tx_Nonce tx)); reflexivity.
  - intros n p Hn Hlt. destruct Hinv as [[Hopen Hinj _] _ _]. rewrite Hkept; [by apply (Hopen n)|].
    intros m Hm. by rewrite (Hinj _ _ _ Hm Hn).
Qed.

Lemma inclusion_notifies_witness :
  let w := (getTxNonceChan 7 (ex_wallet 1 7 100)).1 in
  exists w', processTransactionInclusion (types := ex_types) 10 ex_pay (Some (ex_receipt 1)) w = Some w' /\ txNonceChans w' !! 7 = None.
Proof.
  intros w.
  assert (nonce_ok 7) as H7 by (unfold nonce_ok; go_lia).
  assert (wallet_inv w) as Hw by (apply getTxNonceChan_inv, ex_wallet_inv, H7).
  destruct (inclusion_notifies (types := ex_types) 10 ex_pay (ex_receipt 1) w Hw H7 eq_refl ltac:(vm_compute; done))
    as (w' & Heq & _ & _ & Hch & _).
  exists w'. split; [exact Heq|]. rewrite Hch. reflexivity.
Defined.

(** Resynchronising a wallet (as the manager does for the authorities of
    set-code transactions) forgets the transactions that are built but not
    yet included: the next transaction is built with a nonce that is already
    taken by one of them. *)
Theorem resync_reuses_nonces `{types : EthTypes} (w w1 w1' w2 : Wallet) tx tx1 tx2 buildFn balance :
  isSyncing w = false -> pendingNonce w = confirmedNonce w -> nonce_ok (pendingNonce w) ->
  (forall n, exists t, buildFn n = Ok t /\ Tx_Nonce t = n) -> buildFn (pendingNonce w) = Ok tx ->
  BuildTransaction None buildFn w = (w1, Some (Ok tx1)) ->
  loadState_done (confirmedNonce w1) balance (ResyncState w1) = Some w1' ->
  BuildTransaction None buildFn w1' = (w2, Some (Ok tx2)) ->
  tx2 = tx1 /\ pendingNonce w1 = Tx_Nonce tx + 1.
Proof.
  intros Hsync Hp Hok Hfn Htx Hb1 Hload Hb2. destruct (Hfn (pendingNonce w)) as (t & Ht & Hn).
  assert (t = tx) as -> by congruence. unfold BuildTransaction in Hb1. simpl in Hb1.
  destruct (decide _); [|done]. rewrite Htx in Hb1. destruct (SignTx tx (privkey w)) as [s|er] eqn:Hs; [|done].
  rewrite Hn, nonce_succ in Hb1 by done.
  assert (pendingNonce w <? pendingNonce w + 1 = true) as Hlt by lia. rewrite Hlt in Hb1. simplify_eq/=.
  unfold loadState_done, close_ready, ResyncState, loadState in Hload. simpl in Hload. rewrite Hsync in Hload. simpl in Hload.
  destruct (decide _) in Hload; [done|]. injection Hload as <-.
  split; [|lia]. unfold BuildTransaction in Hb2. simpl in Hb2.
  rewrite <- Hp, Htx in Hb2. destruct (decide _); [|done]. rewrite Hs in Hb2. by simplify_eq.
Qed.

Lemma resync_reuses_nonces_witness :
  let w := ex_wallet 1 7 100 in
  let build := fun n => Ok (mkExTx 1 n 5 2) in
  let w1 := (BuildTransaction (types := ex_types) None build w).1 in
  exists w1', loadState_done (confirmedNonce w1) 100 (ResyncState w1) = Some w1' /\
    (BuildTransaction (types := ex_types) None build w1').2 = Some (Ok ex_pay).
Proof.
  intros w build w1.
  assert (nonce_ok (pendingNonce w)) as Hok by (split; vm_compute; congruence).
  destruct (loadState_done (confirmedNonce w1) 100 (ResyncState w1)) as [w1'|] eqn:Hl; [|vm_compute in Hl; discriminate Hl].
  exists w1'. split; [reflexivity|].
  destruct (BuildTransaction (types := ex_types) None build w1') as [w2 r] eqn:H2.
  assert (exists t, r = Some (Ok t)) as [t ->].
  { vm_compute in Hl. injection Hl as <-. apply (f_equal snd) in H2. vm_compute in H2. subst r. eexists. reflexivity. }
  destruct (resync_reuses_nonces (types := ex_types) w w1 w1' w2 ex_pay ex_pay t build 100 eq_refl eq_refl Hok
    (fun n => ex_intro _ (mkExTx 1 n 5 2) (conj eq_refl eq_refl)) eq_refl eq_refl Hl H2) as [-> _].
  reflexivity.
Defined.

(** A transaction is offered to the clients in turn, starting at the given
    offset and wrapping around, each at most once, until one accepts it; an
    error is returned iff every client refused, and then each was tried
    once.  Without clients nothing is sent and no error is returned. *)
Theorem SendTransaction_broadcast {C} (clients : list C) offset send log r :
  send_first clients offset send = (log, r) ->
  (clients = [] -> log = [] /\ r = None) /\
  (clients <> [] ->
    (length log <= length clients)%nat /\
    (forall k c e, log !! k = Some (c, e) -> client_at clients (Z.of_nat k + offset) = Some c /\ send c = e) /\
    (forall k c e, log !! k = Some (c, e) -> (S k < length log)%nat -> is_Some e) /\
    (r = None <-> exists c, last log = Some (c, None)) /\
    (forall e, r = Some e -> length log = length clients)).
Proof.
  intros Hsend. split.
  - intros ->. unfold send_first in Hsend. simpl in Hsend. by simplify_eq.
  - intros Hne. destruct (send_loop_spec _ _ _ _ _ _ _ _ Hsend Hne) as (Hlen & Hlog & Hmid & Hr).
    split; [done|]. split; [intros k c e Hk; by apply (Hlog k c e)|]. split; [done|].
    destruct r as [e|].
    + destruct Hr as (Hn & _ & Hall). split; [|by intros ? [= <-]].
      split; [done|]. intros [c Hlast]. rewrite last_lookup in Hlast. by destruct (Hall _ _ _ Hlast).
    + split; [|done]. split; [intros _|done]. destruct Hr as [[Hz _]|Hex]; [|done]. by destruct clients.
Qed.

Lemma SendTransaction_broadcast_witness :
  let send := fun c : nat => if Nat.eqb c 1 then None else Some "refused"%string in
  send_first [0; 1; 2]%nat 2 send = ([(2, Some "refused"%string); (0, Some "refused"%string); (1, None)]%nat, None) /\
  exists c, last [(2, Some "refused"%string); (0, Some "refused"%string); (1, None)]%nat = Some (c, None).
Proof.
  intros send.
  assert (send_first [0; 1; 2]%nat 2 send =
    ([(2, Some "refused"%string); (0, Some "refused"%string); (1, None)]%nat, None)) as Hs by (by vm_compute).
  split; [exact Hs|].
  destruct (SendTransaction_broadcast _ _ _ _ _ Hs) as [_ H]. destruct (H ltac:(discriminate)) as (_ & _ & _ & Hr & _).
  by apply Hr.
Defined.
