(* ===== verification/Tests.v ===== *)
(** * Tests

    test/test.go with the descriptor and status types of types/test.go: a test
    is created from its descriptor (variables, database row, scheduler with
    the parsed tasks), validated, run and aborted.  The tests of a coordinator
    share one world: the variable scopes, the database and the clock. *)

From S2P Require Import Prelude Vars Db Scheduler Execution.

Open Scope Z_scope.

(** ** Data *)

Inductive TestStatus :=
  | TestStatusPending | TestStatusRunning | TestStatusSuccess
  | TestStatusFailure | TestStatusSkipped | TestStatusAborted.

#[export] Instance TestStatus_eq_dec : EqDecision TestStatus.
Proof. solve_decision. Defined.

Definition TestStatus_string (s : TestStatus) : string :=
  match s with
  | TestStatusPending => "pending" | TestStatusRunning => "running"
  | TestStatusSuccess => "success" | TestStatusFailure => "failure"
  | TestStatusSkipped => "skipped" | TestStatusAborted => "aborted"
  end.

Lemma TestStatus_string_inj s s' : TestStatus_string s = TestStatus_string s' -> s = s'.
Proof. by destruct s, s'. Qed.

Record TestSchedule := mkTestSchedule { Startup : bool; Cron : list string; SkipQueue : bool }.

(** YAML nodes kept for later decoding ([helper.RawMessage]) and their
    decoding into task options are the YAML library's. *)
Class RawMessages := {
  RawMessage : Type;
  Unmarshal_TaskOptions : RawMessage -> result TaskOptions
}.

Section tests.
Context `{lib : Library} `{raw : RawMessages}.

(** Durations are in nanoseconds. *)
Record TestConfig := mkTestCfg {
  cfg_ID : string;
  cfg_Name : string;
  cfg_Timeout : Z;
  cfg_Config : gmap string value;
  cfg_ConfigVars : gmap string string;
  cfg_Tasks : list RawMessage;
  cfg_CleanupTasks : list RawMessage;
  cfg_Schedule : option TestSchedule
}.

Record Descriptor := mkDescriptor {
  td_id : string;
  td_source : string;
  td_config : TestConfig;
  td_vars : Variables_ref;
  td_err : option error
}.

(** [cancels] is [None] until [RunTasks] makes the two contexts, then whether
    the tasks' and the cleanup's context are cancelled. *)
Record Test := mkTest {
  runID : Z;
  test_descriptor : Descriptor;
  variables : Variables_ref;
  taskScheduler : TaskScheduler;
  dbTestRun : TestRun;
  status : TestStatus;
  test_startTime : option Z;
  test_stopTime : option Z;
  timeout : Z;
  cancels : option (bool * bool)
}.

Definition TestID (t : Test) : string := td_id (test_descriptor t).

Definition set_status (s : TestStatus) (t : Test) : Test :=
  mkTest (runID t) (test_descriptor t) (variables t) (taskScheduler t) (dbTestRun t) s
    (test_startTime t) (test_stopTime t) (timeout t) (cancels t).

Definition set_times (start stop : option Z) (t : Test) : Test :=
  mkTest (runID t) (test_descriptor t) (variables t) (taskScheduler t) (dbTestRun t) (status t)
    start stop (timeout t) (cancels t).

Definition set_dbTestRun (r : TestRun) (t : Test) : Test :=
  mkTest (runID t) (test_descriptor t) (variables t) (taskScheduler t) r (status t)
    (test_startTime t) (test_stopTime t) (timeout t) (cancels t).

Definition set_taskScheduler (s : TaskScheduler) (t : Test) : Test :=
  mkTest (runID t) (test_descriptor t) (variables t) s (dbTestRun t) (status t)
    (test_startTime t) (test_stopTime t) (timeout t) (cancels t).

Definition set_cancels (c : option (bool * bool)) (t : Test) : Test :=
  mkTest (runID t) (test_descriptor t) (variables t) (taskScheduler t) (dbTestRun t) (status t)
    (test_startTime t) (test_stopTime t) (timeout t) c.

(** *** The shared world *)

Record World := mkWorld { w_scopes : Vars.heap; w_db : Database; w_tx : nat; w_clock : nat }.

Definition set_w_scopes (h : Vars.heap) (w : World) : World := mkWorld h (w_db w) (w_tx w) (w_clock w).

Definition now (w : World) : World * Z :=
  (mkWorld (w_scopes w) (w_db w) (w_tx w) (S (w_clock w)), lib_now (w_clock w)).

(** [services.Database().RunTransaction(handler)] *)
Definition run_tx (handler : Database -> result Database) (w : World) : World * option error :=
  let '(db, err) := RunTransaction (lib_engine (w_tx w)) handler (w_db w) in
  (mkWorld (w_scopes w) db (S (w_tx w)) (w_clock w), err).

(** A test's scheduler acts on the shared world. *)
Definition enter (w : World) (s : TaskScheduler) : TaskScheduler :=
  upd_clock (w_clock w) (upd_txCount (w_tx w) (upd_database (Some (w_db w)) (upd_scopes (w_scopes w) s))).

Definition leave (s : TaskScheduler) (w : World) : World :=
  mkWorld (scopes s) (default (w_db w) (database s)) (txCount s) (clock s).

(** ** Run ids in the database

    [SetAssertoorState] stores the JSON of a uint64, its decimal digits;
    [GetAssertoorState] reads it back. *)
Definition json_uint64 (n : Z) : string := pretty (Z.to_N n).

(** No sign, fraction or exponent, no leading zeros, and in range. *)
Definition parse_uint64 (s : string) : option Z :=
  match s with
  | "" => None
  | "0" => Some 0
  | String "0" _ => None
  | _ => n ← parse_digits 0 s; (if n <? two64 then Some n else None)%Z
  end%string.

Definition lastRunId_key : string := "test.lastRunId".

(** What [Coordinator.Run] passes to [NewTestRunner], when the query of
    [GetAssertoorState] fails with [readErr] or gives its entry: its error is
    ignored, and a failed query, a missing entry and an unreadable one all
    leave the zero the variable was declared with. *)
Definition lastTestRunID (readErr : option error) (db : Database) : Z :=
  match readErr with
  | Some _ => 0
  | None => default 0 (GetAssertoorState lastRunId_key db ≫= parse_uint64)
  end.
#[global] Arguments lastTestRunID _ _ : simpl never.

(** ** Creating a test *)

(** [int32(test.timeout.Seconds())]: the whole seconds of a duration. *)
Definition timeout_seconds (t : Z) : Z := (t ÷ 1000000000 + 2147483648) mod 4294967296 - 2147483648.

Definition insert_test_run (row : TestRun) (db : Database) : result Database :=
  let! db := InsertTestRun row db in
  SetAssertoorState lastRunId_key (json_uint64 (tr_RunID row)) db.

Definition ParseTaskOptions (rawtask : RawMessage) : result TaskOptions :=
  match Unmarshal_TaskOptions rawtask with
  | Err e => Err ("error parsing task: " ++ e)%string
  | Ok options => Ok options
  end.

Fixpoint add_tasks (add : TaskOptions -> TaskScheduler -> TaskScheduler * result Z) (tasks : list RawMessage)
    (s : TaskScheduler) : TaskScheduler * option error :=
  match tasks with
  | [] => (s, None)
  | task :: tasks =>
      match ParseTaskOptions task with
      | Err e => (s, Some e)
      | Ok options =>
          let '(s, r) := add options s in
          match r with
          | Err e => (s, Some e)
          | Ok _ => add_tasks add tasks s
          end
      end
  end.

(** The variables of a test: the descriptor's with the overrides of the run. *)
Definition test_variables (descriptor : Descriptor) (configOverrides : list (string * value)) (h : Vars.heap)
    : Vars.heap * Variables_ref :=
  let '(h, v) := NewVariables (Some (td_vars descriptor)) h in
  (fold_left (fun h kv => SetVar v kv.1 kv.2 h) configOverrides h, v).

(** [CreateTest]; the row stays in the database when parsing the tasks fails. *)
Definition CreateTest (id : Z) (descriptor : Descriptor) (configOverrides : list (string * value)) (w : World)
    : World * result Test :=
  let cfg := td_config descriptor in
  let timeout := if 0 <? cfg_Timeout cfg then cfg_Timeout cfg else 0 in
  let '(h, v) := test_variables descriptor configOverrides (w_scopes w) in
  let w := set_w_scopes h w in
  match lib_yaml_Marshal (VMap (default ∅ (GetVarsMap lib_depth h v ∅ false))) with
  | Err e => (w, Err e)
  | Ok configYaml =>
      let row := mkTestRun id (td_id descriptor) (cfg_Name cfg) (td_source descriptor) configYaml 0 0
                   (timeout_seconds timeout) (TestStatus_string TestStatusPending) in
      let '(w, err) := run_tx (insert_test_run row) w in
      match err with
      | Some e => (w, Err e)
      | None =>
          let s := enter w (NewTaskScheduler v id (w_scopes w) (Some (w_db w))) in
          let '(s, err) := add_tasks AddRootTask (cfg_Tasks cfg) s in
          match err with
          | Some e => (leave s w, Err e)
          | None =>
              let '(s, err) := add_tasks AddCleanupTask (cfg_CleanupTasks cfg) s in
              match err with
              | Some e => (leave s w, Err e)
              | None =>
                  (leave s w, Ok (mkTest id descriptor v s row TestStatusPending None None timeout None))
              end
          end
      end
  end.

(** ** Running a test *)

Definition updateTestStatus (t : Test) (w : World) : World * Test * option error :=
  let r := dbTestRun t in
  let row := mkTestRun (tr_RunID r) (tr_TestID r) (tr_Name r) (tr_Source r) (tr_Config r)
               (default 0 (UnixMilli <$> test_startTime t)) (default 0 (UnixMilli <$> test_stopTime t)) (tr_Timeout r)
               (TestStatus_string (status t)) in
  let '(w, err) := run_tx (UpdateTestRunStatus row) w in
  (w, set_dbTestRun row t, err).

(** A test without tasks fails; the database is not told. *)
Definition Validate (t : Test) : Test * option error :=
  if GetTaskCount (Some (taskScheduler t)) =? 0
  then (set_status TestStatusFailure t, Some ("test " ++ cfg_Name (td_config (test_descriptor t)) ++ " has no tasks")%string)
  else (t, None).

(** [Run] up to the call of [RunTasks], which makes the two contexts. *)
Definition run_start (t : Test) (w : World) : World * Test * option error :=
  if decide (status t = TestStatusPending) then
    let '(w, start) := now w in
    let t := set_status TestStatusRunning (set_times (Some start) (test_stopTime t) t) in
    let '(w, t, _) := updateTestStatus t w in
    (w, set_cancels (Some (false, false)) t, None)
  else (w, t, Some "test has already been started"%string).

(** [Run] after [RunTasks] returned [err]: the verdict, then the deferred
    update.  [ctxErr] says whether the coordinator's context is done. *)
Definition run_finish (ctxErr : bool) (err : option error) (t : Test) (w : World)
    : World * Test * option error :=
  let '(t, ret) :=
    if ctxErr then (set_status TestStatusAborted t, Some "test aborted"%string)
    else if decide (status t = TestStatusAborted) then (t, Some "test aborted"%string)
    else match err with
         | Some e => (set_status TestStatusFailure t, Some e)
         | None => (set_status TestStatusSuccess t, None)
         end in
  let '(w, stop) := now w in
  let '(w, t, _) := updateTestStatus (set_times (test_startTime t) (Some stop) t) w in
  (w, t, ret).

(** [CancelTasks]: nothing while there are no contexts. *)
Definition CancelTasks (cancelCleanup : bool) (t : Test) : Test :=
  match cancels t with
  | None => t
  | Some (_, cleanup) => set_cancels (Some (true, cleanup || cancelCleanup)) t
  end.

Definition AbortTest (skipCleanup : bool) (t : Test) : Test :=
  CancelTasks skipCleanup (set_status TestStatusAborted t).
End tests.

Section run.
Context `{lib : Library} `{raw : RawMessages} `{envm : Environment}.
Variable NewTask : (bool -> Z -> TaskScheduler -> TaskScheduler * option error) ->
  Z -> TaskOptions -> result task_instance.
Variable fuel : nat.

(** The whole of [Run] when nothing else happens meanwhile. *)
Definition Test_Run (ctxErr : World -> bool) (t : Test) (w : World) : World * Test * option error :=
  let '(w, t, err) := run_start t w in
  match err with
  | Some e => (w, t, Some e)
  | None =>
      let '(s, err) := RunTasks NewTask fuel (enter w (taskScheduler t)) in
      let w := leave s w in
      run_finish (ctxErr w) err (set_taskScheduler s t) w
  end.

(** [TestRunner.runTest]: a test that fails validation is not run. *)
Definition runTest (ctxErr : World -> bool) (t : Test) (w : World) : World * Test :=
  let '(t, err) := Validate t in
  match err with
  | Some _ => (w, t)
  | None => let '(w, t, _) := Test_Run ctxErr t w in (w, t)
  end.
End run.

(** ** Run ids are read back as they were written *)

Lemma parse_json_uint64 n : is_u64 n -> parse_uint64 (json_uint64 n) = Some n.
Proof.
  intros Hn. unfold json_uint64, pretty, pretty_N. case_decide as Hz.
  { assert (n = 0) as -> by (unfold is_u64 in Hn; lia). done. }
  destruct (pretty_go_head (Z.to_N n) "" ltac:(lia)) as (d & s' & Heq & Hd).
  assert (parse_digits 0 (pretty_N_go (Z.to_N n) "") = Some n) as Hp.
  { rewrite parse_pretty_go. simpl. f_equal. unfold is_u64 in Hn. lia. }
  rewrite Heq in Hp |- *.
  assert (parse_uint64 (String (pretty_N_char d) s') =
    (x ← parse_digits 0 (String (pretty_N_char d) s'); if x <? two64 then Some x else None)) as ->.
  { assert (d ∈ [1; 2; 3; 4; 5; 6; 7; 8; 9]%N) as Hd' by (rewrite !elem_of_cons; lia).
    clear -Hd'. revert d Hd'. apply Forall_forall. repeat constructor. }
  rewrite Hp. simpl. assert (n <? two64 = true) as -> by go_lia. done.
Qed.

(** ** Running tasks leaves the table of runs alone *)

Definition runs_of (db : Database) : gmap Z TestRun * gmap string string := (test_runs db, assertoor_state db).

Definition keeps_runs (s s' : TaskScheduler) : Prop := runs_of <$> database s' = runs_of <$> database s.

#[export] Instance keeps_runs_preorder : PreOrder keeps_runs.
Proof. split; [done|]. intros x y z. unfold keeps_runs. congruence. Qed.

(** Loading and executing a task keeps the runs, if the calls it makes do. *)
Definition instance_keeps (LoadConfig : task_instance) : Prop :=
  forall s, keeps_runs s (LoadConfig s).1 /\
    forall inst, (LoadConfig s).2 = Ok inst -> forall s', keeps_runs s' (inst_Execute inst s').1.

Definition registry_keeps
    (NewTask : (bool -> Z -> TaskScheduler -> TaskScheduler * option error) ->
       Z -> TaskOptions -> result task_instance) : Prop :=
  forall ex i opts LoadConfig, (forall watch j s, keeps_runs s (ex watch j s).1) ->
    NewTask ex i opts = Ok LoadConfig -> instance_keeps LoadConfig.

Section frame.
Context `{lib : Library} `{envm : Environment}.

Lemma keeps_run_transaction handler db s :
  database s = Some db -> (forall db', handler db = Ok db' -> runs_of db' = runs_of db) ->
  keeps_runs s (run_transaction handler db s).1.
Proof.
  intros Hdb Hh. unfold run_transaction, keeps_runs. rewrite Hdb.
  destruct (RunTransaction_cases (lib_engine (txCount s)) handler db) as [[_ Hok]|[Hsame _]];
    destruct (RunTransaction _ _ _) as [db' err]; simpl in *; f_equal; [by apply Hh|by subst].
Qed.

Lemma keeps_updateTaskState i s : keeps_runs s (updateTaskState i s).1.
Proof.
  unfold updateTaskState. destruct (getTaskState i s) as [t|]; [|done].
  destruct (dbTaskState t) as [row|]; [|done].
  destruct (lib_yaml_Marshal (Config_of t)); [|done].
  destruct (lib_yaml_Marshal (VMap _)); [|done].
  destruct (changed_row _ _ _ _ _) as [row' ch]. destruct ch as [|f ch]; [done|].
  destruct (database _) as [db|] eqn:Hdb; [|done].
  match goal with |- keeps_runs s (run_transaction ?h ?d ?s1).1 =>
    change (keeps_runs s1 (run_transaction h d s1).1); apply keeps_run_transaction; [done|] end.
  intros db' Hh. unfold UpdateTaskStateStatus in Hh. destruct (forallb _ _); [|done].
  destruct (task_states db !! _); by simplify_eq.
Qed.

Lemma keeps_start i s : keeps_runs s (start_task i s).
Proof. unfold start_task, time_Now. etrans; [|apply keeps_updateTaskState]. done. Qed.

Lemma keeps_finish i s : keeps_runs s (finish_task i s).
Proof. unfold finish_task, time_Now. etrans; [|apply keeps_updateTaskState]. done. Qed.

Lemma keeps_setTaskResult i r upd s : keeps_runs s (setTaskResult i r upd s).
Proof.
  unfold setTaskResult. destruct (getTaskState i s) as [t|]; [|done].
  set (s0 := if upd then _ else _). assert (keeps_runs s s0) as H0 by (by unfold s0; destruct upd).
  case_decide; [done|]. etrans; [exact H0|].
  destruct (resultNotifyChan t); (etrans; [|apply keeps_updateTaskState]); done.
Qed.

Lemma keeps_newTaskState opts parent vars cleanup s : keeps_runs s (newTaskState opts parent vars cleanup s).1.
Proof.
  unfold newTaskState. destruct (GetTaskDescriptor _) as [desc|]; [|done].
  destruct (NewVariables None (scopes s)) as [h1 o]. destruct (NewVariables None h1) as [h2 st]. cbv zeta.
  set (tk := mkTaskState _ _ _ _ _ _ _ _ _ _ _ _ _ _ _ _ _ _ _ _ _ _). set (s2 := if cleanup then _ else _).
  assert (database s2 = database s) as Hdb by (by unfold s2; destruct cleanup).
  rewrite Hdb. destruct (database s) as [db|] eqn:Hd; [|unfold keeps_runs; simpl; by rewrite Hdb, Hd].
  set (s3 := update_task _ _ s2).
  assert (keeps_runs s s3) as H3 by (unfold keeps_runs; simpl; by rewrite Hdb, Hd).
  pose proof (keeps_run_transaction (InsertTaskState (initial_row tk s2)) db s3) as Htx.
  destruct (run_transaction (InsertTaskState (initial_row tk s2)) db s3) as [s4 err]. simpl.
  etrans; [exact H3|]. apply Htx; [simpl; by rewrite Hdb|]. by intros db' [= <-].
Qed.

Lemma keeps_fire_timer i z s : keeps_runs s (fire_timer i z s).
Proof. unfold fire_timer. by destruct (_ && _). Qed.

Lemma keeps_conclude i err s : keeps_runs s (conclude_task i err s).1.
Proof.
  unfold conclude_task. set (s0 := match err with Some _ => _ | None => _ end).
  assert (keeps_runs s s0) as H0 by (by unfold s0; destruct err).
  destruct (getTaskState i s0) as [t|]; [|done]. etrans; [exact H0|].
  set (s1 := if _ || _ then _ else _).
  assert (keeps_runs s0 s1) as H1 by (unfold s1; destruct (_ || _); [apply keeps_setTaskResult|done]).
  destruct (getTaskState i s1) as [t'|]; [|done]. by case_decide.
Qed.

Lemma keeps_run_instance watch i inst s :
  (forall s', keeps_runs s' (inst_Execute inst s').1) -> keeps_runs s (run_instance watch i inst s).1.
Proof.
  intros Hex. unfold run_instance. set (s1 := update_task i _ s). set (s2 := if watch then _ else _).
  assert (keeps_runs s s2) as H2.
  { unfold s2, GetTaskResultUpdateChan. destruct watch; [|done].
    destruct (getTaskState i s1) as [t|]; [|done]. case_decide; [|done]. by destruct (resultNotifyChan t). }
  specialize (Hex s2). destruct (inst_Execute inst s2) as [s3 out]. simpl in Hex.
  pose proof (keeps_fire_timer i (inst_Timeout inst) s3) as H4.
  set (s4 := fire_timer i (inst_Timeout inst) s3) in *.
  assert (forall r : TaskScheduler * option error, keeps_runs s4 r.1 ->
    keeps_runs s (let '(s5, ret) := r in (update_task i (set_task None) s5, ret)).1) as Hend.
  { intros [s5 ret] H5. simpl in *. etrans; [exact H2|]. etrans; [exact Hex|]. by etrans; [exact H4|]. }
  apply Hend. destruct out as [err|perr]; [apply keeps_conclude|].
  unfold recover_panic. simpl. etrans; [|apply keeps_setTaskResult]. by destruct perr.
Qed.

Lemma keeps_exec NewTask fuel watch i s :
  registry_keeps NewTask -> keeps_runs s (exec NewTask fuel watch i s).1.
Proof.
  intros Hreg. revert watch i s. induction fuel as [|fuel IH]; intros watch i s; simpl; [done|].
  unfold ExecuteTask. destruct (getTaskState i s) as [t|]; [|done]. destruct (isStarted t); [done|].
  assert (keeps_runs (start_task i s) (execute_body (NewTask (exec NewTask fuel)) watch i t (start_task i s)).1) as Hb.
  { unfold execute_body. destruct (check_condition t (start_task i s)) as [[|]|e];
      [|exact (keeps_setTaskResult i TaskResultNone false (update_task i (set_isSkipped true) (start_task i s)))
       |apply keeps_setTaskResult].
    destruct (NewTask (exec NewTask fuel) i (options t)) as [LoadConfig|e] eqn:HN; [|done].
    destruct (Hreg _ _ _ _ IH HN (start_task i s)) as [Hl Hi].
    destruct (LoadConfig (start_task i s)) as [s1 [inst|e]]; simpl in *.
    - etrans; [exact Hl|]. apply keeps_run_instance. by apply Hi.
    - etrans; [exact Hl|]. apply keeps_setTaskResult. }
  destruct (execute_body _ _ _ _ _) as [s1 err]. simpl in *.
  etrans; [apply keeps_start|]. etrans; [exact Hb|]. apply keeps_finish.
Qed.

Lemma keeps_RunTasks NewTask fuel s : registry_keeps NewTask -> keeps_runs s (RunTasks NewTask fuel s).1.
Proof.
  intros Hreg. unfold RunTasks.
  assert (forall l s, keeps_runs s (run_root_tasks NewTask fuel l s).1) as Hroot.
  { induction l as [|i l IH]; intros s0; simpl; [done|].
    pose proof (keeps_exec NewTask fuel true i s0 Hreg) as He.
    destruct (exec NewTask fuel true i s0) as [s1 [e|]]; simpl in *; [done|].
    destruct (tasksCtx_Err s1); [done|]. by etrans. }
  assert (forall l s, keeps_runs s (runCleanupTasks NewTask fuel l s)) as Hcl.
  { induction l as [|i l IH]; intros s0; simpl; [done|]. destruct (cleanupCtx_Err s0); [done|].
    etrans; [by apply (keeps_exec NewTask fuel true i s0)|]. done. }
  specialize (Hroot (rootTasks s) s). destruct (run_root_tasks NewTask fuel (rootTasks s) s) as [s1 err].
  simpl in *. by etrans.
Qed.
End frame.

(** ** What the operations do *)

Section specs.
Context `{lib : Library} `{raw : RawMessages}.

Lemma run_tx_cases handler w :
  w_tx (run_tx handler w).1 = S (w_tx w) /\ w_scopes (run_tx handler w).1 = w_scopes w /\
  w_clock (run_tx handler w).1 = w_clock w /\
  ((run_tx handler w).2 = None /\ handler (w_db w) = Ok (w_db (run_tx handler w).1) \/
   w_db (run_tx handler w).1 = w_db w /\ exists e, (run_tx handler w).2 = Some e).
Proof.
  unfold run_tx. pose proof (RunTransaction_cases (lib_engine (w_tx w)) handler (w_db w)) as H.
  destruct (RunTransaction _ _ _) as [db err]. simpl in *. tauto.
Qed.

Lemma run_tx_ok handler w db :
  lib_engine (w_tx w) = EngineOk -> handler (w_db w) = Ok db ->
  run_tx handler w = (mkWorld (w_scopes w) db (S (w_tx w)) (w_clock w), None).
Proof. intros He Hh. unfold run_tx. rewrite He. simpl. by rewrite Hh. Qed.

(** The table of runs after a test was created (or not): its row is there
    together with its id as the last run id, or nothing changed. *)
Definition created_row (id : Z) (descriptor : Descriptor) (row : TestRun) : Prop :=
  tr_RunID row = id /\ tr_TestID row = td_id descriptor /\ tr_Status row = "pending"%string.

Lemma keeps_add_tasks add tasks s :
  (forall o s, keeps_runs s (add o s).1) -> keeps_runs s (add_tasks add tasks s).1.
Proof.
  intros Hadd. revert s. induction tasks as [|task tasks IH]; intros s; simpl; [done|].
  destruct (ParseTaskOptions task) as [o|e]; [|done]. specialize (Hadd o s).
  destruct (add o s) as [s1 [i|e]]; simpl in *; [by etrans|done].
Qed.

Lemma keeps_AddRootTask o s : keeps_runs s (AddRootTask o s).1.
Proof.
  unfold AddRootTask. pose proof (keeps_newTaskState o None None false s) as H.
  destruct (newTaskState o None None false s) as [s1 [i|e]]; exact H.
Qed.

Lemma keeps_AddCleanupTask o s : keeps_runs s (AddCleanupTask o s).1.
Proof.
  unfold AddCleanupTask. pose proof (keeps_newTaskState o None None true s) as H.
  destruct (newTaskState o None None true s) as [s1 [i|e]]; exact H.
Qed.

Lemma leave_runs w s s' : keeps_runs s s' -> database s = Some (w_db w) -> runs_of (w_db (leave s' w)) = runs_of (w_db w).
Proof.
  unfold keeps_runs, leave. intros Hk Hdb. rewrite Hdb in Hk. simpl in *.
  destruct (database s') as [db|]; simpl in *; congruence.
Qed.

Lemma sched_steps_add_tasks (add : TaskOptions -> TaskScheduler -> TaskScheduler * result Z) tasks s :
  (forall o s, sched_step s (add o s).1) -> rtc sched_step s (add_tasks add tasks s).1.
Proof.
  intros Hadd. revert s. induction tasks as [|task tasks IH]; intros s; simpl; [done|].
  destruct (ParseTaskOptions task) as [o|e]; [|done]. specialize (Hadd o s).
  destruct (add o s) as [s1 [i|e]]; simpl in *; [by eapply rtc_l|by apply rtc_once].
Qed.

Lemma enter_wf w s : sched_wf s -> sched_wf (enter w s).
Proof. apply same_tree_wf. split; simpl; auto. intros i. by destruct (_ !! i); constructor. Qed.

Lemma CreateTest_spec id descriptor overrides w w' r :
  CreateTest id descriptor overrides w = (w', r) ->
  (runs_of (w_db w') = runs_of (w_db w) /\ (forall t, r <> Ok t) \/
   exists row, created_row id descriptor row /\
     runs_of (w_db w') = (<[id := row]> (test_runs (w_db w)),
                          <[lastRunId_key := json_uint64 id]> (assertoor_state (w_db w))) /\
     forall t, r = Ok t -> dbTestRun t = row) /\
  (forall t, r = Ok t -> runID t = id /\ test_descriptor t = descriptor /\ status t = TestStatusPending /\
    test_startTime t = None /\ test_stopTime t = None /\ cancels t = None /\
    timeout t = Z.max 0 (cfg_Timeout (td_config descriptor)) /\ sched_wf (taskScheduler t)).
Proof.
  unfold CreateTest. destruct (test_variables descriptor overrides (w_scopes w)) as [h v].
  set (w0 := set_w_scopes h w).
  destruct (lib_yaml_Marshal _) as [configYaml|e]; [|intros [= <- <-]; split; [left; by split|done]].
  set (row := mkTestRun _ _ _ _ _ _ _ _ _).
  destruct (run_tx_cases (insert_test_run row) w0) as (_ & _ & _ & Htx).
  destruct (run_tx (insert_test_run row) w0) as [w1 err]. simpl in Htx.
  destruct Htx as [[-> Hok]|[Hdb [e ->]]]; [|intros [= <- <-]; split; [left; split; [by rewrite Hdb|done]|done]].
  assert (created_row id descriptor row) as Hrow by done.
  assert (runs_of (w_db w1) = (<[id := row]> (test_runs (w_db w)),
    <[lastRunId_key := json_uint64 id]> (assertoor_state (w_db w)))) as Hruns by (injection Hok as <-; done).
  set (s0 := enter w1 _).
  assert (sched_wf s0) as Hwf0 by (apply enter_wf, NewTaskScheduler_wf).
  pose proof (keeps_add_tasks AddRootTask (cfg_Tasks (td_config descriptor)) s0 keeps_AddRootTask) as Hk1.
  pose proof (sched_steps_add_tasks AddRootTask (cfg_Tasks (td_config descriptor)) s0
    (fun o s => step_AddRootTask s o)) as Hs1.
  destruct (add_tasks AddRootTask (cfg_Tasks (td_config descriptor)) s0) as [s1 [e|]]; simpl in Hk1, Hs1.
  { intros [= <- <-]. split; [|done]. right. exists row. split; [done|]. split; [|done]. by rewrite (leave_runs w1 s0). }
  pose proof (keeps_add_tasks AddCleanupTask (cfg_CleanupTasks (td_config descriptor)) s1 keeps_AddCleanupTask) as Hk2.
  assert (keeps_runs s0 (add_tasks AddCleanupTask (cfg_CleanupTasks (td_config descriptor)) s1).1) as Hk
    by (etrans; [exact Hk1|exact Hk2]).
  pose proof (sched_steps_add_tasks AddCleanupTask (cfg_CleanupTasks (td_config descriptor)) s1
    (fun o s => step_AddCleanupTask s o)) as Hs2.
  destruct (add_tasks AddCleanupTask (cfg_CleanupTasks (td_config descriptor)) s1) as [s2 [e|]]; simpl in Hk, Hs2.
  { intros [= <- <-]. split; [|done]. right. exists row. split; [done|]. split; [|done]. by rewrite (leave_runs w1 s0). }
  intros [= <- <-]. split.
  { right. exists row. split; [done|]. split; [by rewrite (leave_runs w1 s0)|]. intros t [= <-]. reflexivity. }
  intros t [= <-]. simpl. split_and!; try done.
  - destruct (0 <? _) eqn:E; lia.
  - eapply sched_steps_wf; [etrans; [exact Hs1|exact Hs2]|done].
Qed.

Lemma run_start_pending t w w1 t1 r :
  run_start t w = (w1, t1, r) ->
  (status t <> TestStatusPending /\ w1 = w /\ t1 = t /\ r = Some "test has already been started"%string) \/
  (status t = TestStatusPending /\ r = None /\ status t1 = TestStatusRunning /\
   test_descriptor t1 = test_descriptor t /\ runID t1 = runID t /\ taskScheduler t1 = taskScheduler t /\
   test_startTime t1 = Some (lib_now (w_clock w)) /\ test_stopTime t1 = test_stopTime t /\
   cancels t1 = Some (false, false) /\ w_tx w1 = S (w_tx w) /\
   tr_RunID (dbTestRun t1) = tr_RunID (dbTestRun t) /\ tr_TestID (dbTestRun t1) = tr_TestID (dbTestRun t) /\
   (UpdateTestRunStatus (dbTestRun t1) (w_db w) = Ok (w_db w1) \/ w_db w1 = w_db w)).
Proof.
  unfold run_start. case_decide as Hp; [|intros [= <- <- <-]; by left].
  destruct (now w) as [w0 start] eqn:Hnow. injection Hnow as <- <-. unfold updateTestStatus. simpl.
  match goal with |- context [run_tx ?h ?w0] => destruct (run_tx_cases h w0) as (Hn & _ & _ & Htx);
    destruct (run_tx h w0) as [w2 err] end.
  simpl in *. intros [= <- <- <-]. right. split_and!; try done. destruct Htx as [[_ ?]|[? _]]; auto.
Qed.

End specs.
(** The row of a test in a table of runs shows its status and times. *)
Definition row_matches (t : TestRun) (r : TestRun) : Prop :=
  tr_RunID r = tr_RunID t /\ tr_TestID r = tr_TestID t.

Section rows.
Context `{lib : Library} `{raw : RawMessages}.

Definition row_shows_test (t : Test) (r : TestRun) : Prop :=
  tr_Status r = TestStatus_string (status t) /\
  tr_StartTime r = default 0 (UnixMilli <$> test_startTime t) /\
  tr_StopTime r = default 0 (UnixMilli <$> test_stopTime t).

Lemma UpdateTestRunStatus_lookup row db db' id :
  UpdateTestRunStatus row db = Ok db' ->
  exists f, test_runs db' !! id = f <$> test_runs db !! id /\ assertoor_state db' = assertoor_state db /\
    (forall r, tr_RunID r <> tr_RunID row -> f r = r) /\
    (forall r, tr_RunID (f r) = tr_RunID r /\ tr_TestID (f r) = tr_TestID r) /\
    (forall r, row_matches row r ->
      tr_Status (f r) = tr_Status row /\ tr_StartTime (f r) = tr_StartTime row /\ tr_StopTime (f r) = tr_StopTime row).
Proof.
  intros [= <-]. eexists. simpl. split; [by rewrite lookup_fmap|]. split; [done|]. split; [|split].
  - intros r Hne. destruct (Z.eqb_spec (tr_RunID r) (tr_RunID row)); [done|]. done.
  - intros r. by destruct ((tr_RunID r =? tr_RunID row) && _).
  - intros r [H1 H2]. by rewrite H1, H2, Z.eqb_refl, String.eqb_refl.
Qed.

Lemma run_finish_spec ctxErr err t w w' t' ret :
  run_finish ctxErr err t w = (w', t', ret) ->
  status t' = (if ctxErr then TestStatusAborted
               else if decide (status t = TestStatusAborted) then TestStatusAborted
               else match err with Some _ => TestStatusFailure | None => TestStatusSuccess end) /\
  (ret = None <-> status t' = TestStatusSuccess) /\
  taskScheduler t' = taskScheduler t /\ runID t' = runID t /\ test_descriptor t' = test_descriptor t /\
  test_startTime t' = test_startTime t /\ test_stopTime t' = Some (lib_now (w_clock w)) /\
  tr_RunID (dbTestRun t') = tr_RunID (dbTestRun t) /\ tr_TestID (dbTestRun t') = tr_TestID (dbTestRun t) /\
  row_shows_test t' (dbTestRun t') /\
  (UpdateTestRunStatus (dbTestRun t') (w_db w) = Ok (w_db w') \/
   w_db w' = w_db w /\ lib_engine (w_tx w) <> EngineOk).
Proof.
  unfold run_finish. set (p := if ctxErr then _ else _).
  assert (status p.1 = (if ctxErr then TestStatusAborted
      else if decide (status t = TestStatusAborted) then TestStatusAborted
      else match err with Some _ => TestStatusFailure | None => TestStatusSuccess end) /\
    (p.2 = None <-> status p.1 = TestStatusSuccess) /\ taskScheduler p.1 = taskScheduler t /\
    runID p.1 = runID t /\ test_descriptor p.1 = test_descriptor t /\ test_startTime p.1 = test_startTime t /\
    dbTestRun p.1 = dbTestRun t) as (Hs & Hr & H1 & H2 & H3 & H4 & H5).
  { unfold p. destruct ctxErr; [by split_and!|]. case_decide; [split_and!; try done; simpl; split; congruence|].
    by destruct err. }
  destruct p as [t0 ret0]. simpl in *. unfold updateTestStatus.
  match goal with |- context [run_tx ?h ?w0] => destruct (run_tx_cases h w0) as (_ & _ & _ & Htx);
    pose proof (run_tx_ok h w0) as Hok; destruct (run_tx h w0) as [w2 err2] end.
  simpl in *. rewrite H5, H4 in Htx, Hok |- *. intros [= <- <- <-]. simpl. rewrite ?H4. split_and!; try done.
  destruct Htx as [[_ Heq]|[Heq [e He]]]; [by left|]. right. split; [done|].
  intros Heng. specialize (Hok _ Heng eq_refl). congruence.
Qed.
End rows.

(** Running a pending test that is not aborted meanwhile runs its tasks and
    ends in "aborted" when the coordinator's context is done, else in
    "failure" or "success" as the tasks did; the error is nil exactly on
    success; start and stop times are set; and unless the database refuses
    the last update, the test's row shows the status and the times while the
    rows of all other runs and the last run id are untouched. *)
Theorem Test_Run_verdict `{lib : Library} `{raw : RawMessages} `{envm : Environment} NewTask fuel ctxErr t w :
  registry_keeps NewTask -> status t = TestStatusPending ->
  exists w1 t1 s err, run_start t w = (w1, t1, None) /\ status t1 = TestStatusRunning /\
    RunTasks NewTask fuel (enter w1 (taskScheduler t)) = (s, err) /\
    let '(w', t', ret) := Test_Run NewTask fuel ctxErr t w in
    status t' = (if ctxErr (leave s w1) then TestStatusAborted
                 else match err with Some _ => TestStatusFailure | None => TestStatusSuccess end) /\
    (ret = None <-> status t' = TestStatusSuccess) /\ taskScheduler t' = s /\
    test_startTime t' = Some (lib_now (w_clock w)) /\ is_Some (test_stopTime t') /\
    (forall id r, test_runs (w_db w) !! id = Some r ->
      exists r', test_runs (w_db w') !! id = Some r' /\
        (tr_RunID r <> tr_RunID (dbTestRun t) -> r' = r) /\
        (row_matches (dbTestRun t) r -> lib_engine (w_tx (leave s w1)) = EngineOk -> row_shows_test t' r')) /\
    assertoor_state (w_db w') = assertoor_state (w_db w).
Proof.
  intros Hreg Hp. destruct (run_start t w) as [[w1 t1] r1] eqn:Hstart.
  destruct (run_start_pending _ _ _ _ _ Hstart) as [[? _]|(_ & -> & Hs1 & _ & _ & Hsch & Hst & _ & _ & _ & Hid & Htid & Hdb)];
    [done|].
  destruct (RunTasks NewTask fuel (enter w1 (taskScheduler t))) as [s err] eqn:Hrun.
  exists w1, t1, s, err. split; [done|]. split; [done|]. split; [done|].
  unfold Test_Run. rewrite Hstart, Hsch, Hrun.
  destruct (run_finish (ctxErr (leave s w1)) err (set_taskScheduler s t1) (leave s w1)) as [[w' t'] ret] eqn:Hfin.
  destruct (run_finish_spec _ _ _ _ _ _ _ Hfin) as (Hs & Hret & Hs' & _ & _ & Hstart' & Hstop & Hid' & Htid' & Hshow & Hdb').
  simpl in *. rewrite Hs1 in Hs. simpl in Hs.
  pose proof (keeps_RunTasks NewTask fuel (enter w1 (taskScheduler t)) Hreg) as Hk. rewrite Hrun in Hk.
  pose proof (leave_runs w1 _ _ Hk eq_refl) as Hleave. injection Hleave as Hruns Hstate.
  split; [by rewrite Hs|]. split; [done|]. split; [done|]. split; [congruence|]. split; [eauto|]. split.
  - intros id r Hr.
    assert (exists r1, test_runs (w_db w1) !! id = Some r1 /\ tr_RunID r1 = tr_RunID r /\ tr_TestID r1 = tr_TestID r /\
      (tr_RunID r <> tr_RunID (dbTestRun t) -> r1 = r)) as (r1 & Hr1 & E1 & E2 & Ho1).
    { destruct Hdb as [Hdb| ->]; [|by exists r].
      destruct (UpdateTestRunStatus_lookup _ _ _ id Hdb) as (f & Hf & _ & Hne & Hkey & _). rewrite Hr in Hf.
      exists (f r). destruct (Hkey r). split_and!; try done. intros Hn. apply Hne. congruence. }
    rewrite <- Hruns in Hr1. destruct Hdb' as [Hdb'|[-> Heng]].
    + destruct (UpdateTestRunStatus_lookup _ _ _ id Hdb') as (f & Hf & _ & Hne & Hkey & Hm). rewrite Hr1 in Hf.
      exists (f r1). split; [done|]. split.
      * intros Hn. rewrite Hne by congruence. by apply Ho1.
      * intros [M1 M2] _. destruct (Hm r1) as (A & B & C); [split; congruence|].
        destruct Hshow as (S1 & S2 & S3). unfold row_shows_test. by rewrite A, B, C.
    + exists r1. split; [done|]. split; [done|]. done.
  - destruct Hdb' as [Hdb'|[-> _]];
      [destruct (UpdateTestRunStatus_lookup _ _ _ 0 Hdb') as (_ & _ & -> & _)|];
      (rewrite Hstate; destruct Hdb as [Hdb| ->]; [|done]);
      by destruct (UpdateTestRunStatus_lookup _ _ _ 0 Hdb) as (_ & _ & -> & _).
Qed.

(** A test that is aborted while it waits, or that has no tasks, ends in
    memory only: its database row keeps showing a pending run.  Running it
    later is refused with an error and writes nothing. *)
Theorem unstarted_tests_stay_pending `{lib : Library} `{raw : RawMessages} `{envm : Environment}
    NewTask fuel ctxErr t w skipCleanup :
  let aborted := AbortTest skipCleanup t in
  status aborted = TestStatusAborted /\ runTest NewTask fuel ctxErr aborted w =
    (w, if GetTaskCount (Some (taskScheduler t)) =? 0 then set_status TestStatusFailure aborted else aborted) /\
  (GetTaskCount (Some (taskScheduler t)) = 0 ->
    runTest NewTask fuel ctxErr t w = (w, set_status TestStatusFailure t)).
Proof.
  assert (forall t', taskScheduler (AbortTest skipCleanup t') = taskScheduler t' /\
    status (AbortTest skipCleanup t') = TestStatusAborted) as Hab.
  { intros t'. unfold AbortTest, CancelTasks. simpl. by destruct (cancels t') as [[]|]. }
  destruct (Hab t) as [Hs Hst]. split; [done|]. split.
  - unfold runTest, Validate. rewrite Hs. destruct (_ =? 0); [done|].
    unfold Test_Run, run_start. by rewrite Hst.
  - intros Hc. unfold runTest, Validate. by rewrite Hc.
Qed.

(** ** Examples *)

Definition ex_raw : RawMessages := {| RawMessage := TaskOptions; Unmarshal_TaskOptions := Ok |}.

Definition ex_schedule (skip : bool) : option TestSchedule := Some (mkTestSchedule true [] skip).

(** A test with tasks of the given names (tasks called "sleep" fail). *)
Definition ex_descriptor (id : string) (tasks : list string) : @Descriptor ex_raw :=
  mkDescriptor (raw := ex_raw) id "local-1"
    (mkTestCfg (raw := ex_raw) id id 60000000000 ∅ ∅ ((fun n => ex_opts n "") <$> tasks) [] (ex_schedule false))
    (Ref 0) None.

Definition ex_world : World := mkWorld (NewVariables None empty_heap).1 empty_db 0 0.

Definition ex_created (tasks : list string) : World * result (@Test ex_raw) :=
  CreateTest (lib := ex_lib 9) (raw := ex_raw) 1 (ex_descriptor "t1" tasks) [] ex_world.

Lemma ex_registry_keeps : registry_keeps ex_registry.
Proof. intros ex i opts LoadConfig _ [= <-] s. split; [done|]. by intros inst [= <-] s'. Qed.

Lemma ex_created_eq tasks :
  ex_created tasks = CreateTest (lib := ex_lib 9) (raw := ex_raw) 1 (ex_descriptor "t1" tasks) [] ex_world.
Proof. reflexivity. Qed.

Lemma ex_created_ok : exists w t, ex_created ["run_tasks"]%string = (w, Ok t) /\
  option_map tr_TestID (test_runs (w_db w) !! 1) = Some "t1"%string.
Proof.
  destruct (ex_created ["run_tasks"]%string) as [w r] eqn:Hc.
  assert (is_ok (ex_created ["run_tasks"]%string).2 = true) as Hok by (by vm_compute).
  assert (option_map tr_TestID (test_runs (w_db (ex_created ["run_tasks"]%string).1) !! 1) = Some "t1"%string) as Hid
    by (by vm_compute).
  rewrite Hc in Hok, Hid. simpl in Hok, Hid. destruct r as [t|e]; [|discriminate Hok]. by exists w, t.
Qed.

Lemma Test_Run_verdict_witness :
  exists w t w' t' ret, ex_created ["run_tasks"]%string = (w, Ok t) /\
    Test_Run (lib := ex_lib 9) (raw := ex_raw) (envm := ex_env) ex_registry 3 (fun _ => false) t w = (w', t', ret) /\
    (ret = None <-> status t' = TestStatusSuccess) /\ is_Some (test_stopTime t').
Proof.
  destruct ex_created_ok as (w & t & Hc & _). pose proof Hc as Hc'. rewrite ex_created_eq in Hc'.
  destruct (CreateTest_spec (lib := ex_lib 9) (raw := ex_raw) _ _ _ _ _ _ Hc') as [_ Ht].
  destruct (Ht t eq_refl) as (_ & _ & Hp & _).
  destruct (Test_Run_verdict (lib := ex_lib 9) (raw := ex_raw) (envm := ex_env) ex_registry 3 (fun _ => false) t w
    ex_registry_keeps Hp) as (w1 & t1 & s & err & _ & _ & _ & H).
  destruct (Test_Run ex_registry 3 (fun _ => false) t w) as [[w' t'] ret] eqn:Hrun.
  destruct H as (_ & Hret & _ & _ & Hstop & _).
  exists w, t, w', t', ret. split; [exact Hc|]. split; [exact Hrun|]. split; [exact Hret|exact Hstop].
Defined.
