(* ===== verification/Runner.v ===== *)
(** * The test runner

    testrunner.go, with the parts of coordinator.go that act on test runs: the
    queue of scheduled tests, the execution loop with its semaphore, the
    off-queue executions, the selection of start-up and cron tests, the run
    history, and restarts of the process on the same database.  Goroutines
    take turns at the points where they touch shared state or block; what they
    do in one turn is a step of [runner_step]. *)

From S2P Require Import Prelude Vars Db Scheduler Execution Tests.

Open Scope Z_scope.

(** Where [RunTestExecutionLoop] is: about to look at the queue, holding a
    test and waiting for the semaphore, waiting for a notification, ended. *)
Inductive loop_state := LoopCheck | LoopHeld (id : Z) | LoopWait | LoopDone.

(** A goroutine executing [runTest]: before and during [RunTasks]. *)
Inductive run_phase := Spawned | InTasks.

Section runner.
Context `{lib : Library} `{raw : RawMessages}.

(** A [*Test] is its run id in [tests].  [toNotify] counts the calls of
    [ScheduleTest] between the append to the queue and the notification,
    [toSend] holds the tests of those about to send off-queue, and [offQueue]
    what was sent (a sender blocked on the full channel counts as sent).
    [slots] are the goroutines that hold a semaphore slot, [offSlots] the
    off-queue ones. *)
Record TestRunner := mkTestRunner {
  runIDCounter : Z;
  tests : gmap Z Test;
  testRunMap : gset Z;
  testQueue : list Z;
  notification : bool;
  toNotify : nat;
  toSend : list Z;
  offQueue : list Z;
  loop : loop_state;
  slots : gmap Z run_phase;
  offSlots : gmap Z run_phase;
  rworld : World
}.

Definition NewTestRunner (lastRunID : Z) (w : World) : TestRunner :=
  mkTestRunner lastRunID ∅ ∅ [] false 0 [] [] LoopCheck ∅ ∅ w.

Definition set_test (id : Z) (t : Test) (r : TestRunner) : TestRunner :=
  mkTestRunner (runIDCounter r) (<[id := t]> (tests r)) (testRunMap r) (testQueue r) (notification r) (toNotify r)
    (toSend r) (offQueue r) (loop r) (slots r) (offSlots r) (rworld r).

Definition set_world (w : World) (r : TestRunner) : TestRunner :=
  mkTestRunner (runIDCounter r) (tests r) (testRunMap r) (testQueue r) (notification r) (toNotify r)
    (toSend r) (offQueue r) (loop r) (slots r) (offSlots r) w.

Definition set_queue (q : list Z) (r : TestRunner) : TestRunner :=
  mkTestRunner (runIDCounter r) (tests r) (testRunMap r) q (notification r) (toNotify r)
    (toSend r) (offQueue r) (loop r) (slots r) (offSlots r) (rworld r).

Definition set_runMap (m : gset Z) (r : TestRunner) : TestRunner :=
  mkTestRunner (runIDCounter r) (tests r) m (testQueue r) (notification r) (toNotify r)
    (toSend r) (offQueue r) (loop r) (slots r) (offSlots r) (rworld r).

Definition set_notify (b : bool) (n : nat) (r : TestRunner) : TestRunner :=
  mkTestRunner (runIDCounter r) (tests r) (testRunMap r) (testQueue r) b n
    (toSend r) (offQueue r) (loop r) (slots r) (offSlots r) (rworld r).

Definition set_sends (s o : list Z) (r : TestRunner) : TestRunner :=
  mkTestRunner (runIDCounter r) (tests r) (testRunMap r) (testQueue r) (notification r) (toNotify r)
    s o (loop r) (slots r) (offSlots r) (rworld r).

Definition set_loop (l : loop_state) (r : TestRunner) : TestRunner :=
  mkTestRunner (runIDCounter r) (tests r) (testRunMap r) (testQueue r) (notification r) (toNotify r)
    (toSend r) (offQueue r) l (slots r) (offSlots r) (rworld r).

(** The slots of queued ([off = false]) or off-queue goroutines. *)
Definition get_slots (off : bool) (r : TestRunner) : gmap Z run_phase := if off then offSlots r else slots r.

Definition set_slots (off : bool) (s : gmap Z run_phase) (r : TestRunner) : TestRunner :=
  mkTestRunner (runIDCounter r) (tests r) (testRunMap r) (testQueue r) (notification r) (toNotify r)
    (toSend r) (offQueue r) (loop r) (if off then slots r else s) (if off then s else offSlots r) (rworld r).

(** *** Lookup *)

Definition GetTestByRunID (id : Z) (r : TestRunner) : option Test :=
  if decide (id ∈ testRunMap r) then tests r !! id else None.

Definition GetTestQueue (r : TestRunner) : list Test := omap (fun id => tests r !! id) (testQueue r).

Fixpoint remove_first (id : Z) (l : list Z) : list Z :=
  match l with
  | [] => []
  | x :: l => if x =? id then l else x :: remove_first id l
  end.

Definition RemoveTestFromQueue (id : Z) (r : TestRunner) : TestRunner * bool :=
  if decide (id ∈ testQueue r) then
    if decide (status <$> tests r !! id = Some TestStatusRunning) then (r, false)
    else (set_runMap (testRunMap r ∖ {[id]}) (set_queue (remove_first id (testQueue r)) r), true)
  else (r, false).

(** *** Scheduling *)

Definition createTestRun (descriptor : Descriptor) (configOverrides : list (string * value))
    (allowDuplicate skipQueue : bool) (r : TestRunner) : TestRunner * result Z :=
  if negb allowDuplicate && existsb (fun t => String.eqb (TestID t) (td_id descriptor)) (GetTestQueue r)
  then (r, Err "test already in queue"%string)
  else
    let id := runIDCounter r +u 1 in
    let '(w, res) := CreateTest id descriptor configOverrides (rworld r) in
    let r := mkTestRunner id (tests r) (testRunMap r) (testQueue r) (notification r) (toNotify r)
               (toSend r) (offQueue r) (loop r) (slots r) (offSlots r) w in
    match res with
    | Err e => (r, Err ("failed initializing test run: " ++ e)%string)
    | Ok t =>
        let r := if skipQueue then r else set_queue (testQueue r ++ [id]) r in
        (set_runMap ({[id]} ∪ testRunMap r) (set_test id t r), Ok id)
    end.

(** [ScheduleTest] until it notifies the loop or sends the test off-queue. *)
Definition ScheduleTest (descriptor : Descriptor) (configOverrides : list (string * value))
    (allowDuplicate skipQueue : bool) (r : TestRunner) : TestRunner * result Z :=
  match td_err descriptor with
  | Some e => (r, Err ("cannot create test from failed test descriptor: " ++ e)%string)
  | None =>
      let '(r, res) := createTestRun descriptor configOverrides allowDuplicate skipQueue r in
      match res with
      | Err e => (r, Err e)
      | Ok id =>
          (if skipQueue then set_sends (toSend r ++ [id]) (offQueue r) r
           else set_notify (notification r) (S (toNotify r)) r, Ok id)
      end
  end.

(** The rest of [ScheduleTest]: the non-blocking send on the channel of
    capacity one, and the send to the off-queue channel. *)
Definition notify (r : TestRunner) : option TestRunner :=
  match toNotify r with
  | O => None
  | S n => Some (set_notify true n r)
  end.

Definition send_off_queue (id : Z) (r : TestRunner) : option TestRunner :=
  if decide (id ∈ toSend r) then Some (set_sends (remove_first id (toSend r)) (offQueue r ++ [id]) r) else None.

(** *** The execution loops *)

Definition concurrency (concurrencyLimit : Z) : Z := if concurrencyLimit <? 1 then 1 else concurrencyLimit.

(** One look at the queue. *)
Definition loop_check (r : TestRunner) : option TestRunner :=
  match loop r, testQueue r with
  | LoopCheck, id :: q => Some (set_loop (LoopHeld id) (set_queue q r))
  | LoopCheck, [] => Some (set_loop LoopWait r)
  | _, _ => None
  end.

(** [semaphore <- true] and what follows; it blocks while the channel is full. *)
Definition loop_acquire (limit : Z) (ctxDone : bool) (r : TestRunner) : option TestRunner :=
  match loop r with
  | LoopHeld id =>
      if Z.of_nat (size (slots r)) <? concurrency limit then
        if ctxDone then Some (set_loop LoopDone r)
        else Some (set_loop LoopCheck (set_slots false (<[id := Spawned]> (slots r)) r))
      else None
  | _ => None
  end.

(** The select of an idle loop. *)
Inductive wake := WakeCtxDone | WakeNotification | WakeTimer.

Definition loop_wake (why : wake) (r : TestRunner) : option TestRunner :=
  match loop r with
  | LoopWait =>
      match why with
      | WakeCtxDone => Some (set_loop LoopDone r)
      | WakeNotification => if notification r then Some (set_loop LoopCheck (set_notify false (toNotify r) r)) else None
      | WakeTimer => Some (set_loop LoopCheck r)
      end
  | _ => None
  end.

(** [RunOffQueueTestExecutionLoop]: one received test. *)
Definition off_queue_start (r : TestRunner) : option TestRunner :=
  match offQueue r with
  | [] => None
  | id :: q => Some (set_slots true (<[id := Spawned]> (offSlots r)) (set_sends (toSend r) q r))
  end.

(** [runTest] up to [RunTasks]: a test that fails validation or was started or
    aborted before ends the goroutine (and frees its slot); the flag says
    whether the tasks start. *)
Definition begin_run (off : bool) (id : Z) (r : TestRunner) : option (TestRunner * bool) :=
  match get_slots off r !! id, tests r !! id with
  | Some Spawned, Some t =>
      let done t r := (set_slots off (delete id (get_slots off r)) (set_test id t r), false) in
      let '(t, err) := Validate t in
      match err with
      | Some _ => Some (done t r)
      | None =>
          let '(w, t, err) := run_start t (rworld r) in
          let r := set_world w r in
          match err with
          | Some _ => Some (done t r)
          | None => Some (set_slots off (<[id := InTasks]> (get_slots off r)) (set_test id t r), true)
          end
      end
  | _, _ => None
  end.

(** ... and after [RunTasks] returned [err], leaving the scheduler [s]. *)
Definition end_run (off : bool) (id : Z) (ctxErr : bool) (s : TaskScheduler) (err : option error) (r : TestRunner)
    : option TestRunner :=
  match get_slots off r !! id, tests r !! id with
  | Some InTasks, Some t =>
      let '(w, t, _) := run_finish ctxErr err (set_taskScheduler s t) (rworld r) in
      Some (set_slots off (delete id (get_slots off r)) (set_test id t (set_world w r)))
  | _, _ => None
  end.

(** *** The coordinator's operations on runs *)

Definition abort_test (id : Z) (skipCleanup : bool) (r : TestRunner) : option TestRunner :=
  t ← GetTestByRunID id r; Some (set_test id (AbortTest skipCleanup t) r).

(** [Coordinator.DeleteTestRun] *)
Definition coordinator_DeleteTestRun (id : Z) (r : TestRunner) : TestRunner * option error :=
  let delete_row r :=
    let '(w, err) := run_tx (DeleteTestRun id) (rworld r) in (set_world w r, err) in
  match GetTestByRunID id r with
  | None => delete_row r
  | Some t =>
      if decide (status t = TestStatusPending) then
        let '(r, removed) := RemoveTestFromQueue id r in
        if removed then delete_row r else (r, Some "could not remove test from queue"%string)
      else (r, Some "cannot delete running test"%string)
  end.

(** An entry of the run history: a live test or a row. *)
Inductive test_view := LiveTest (t : Test) | DbTest (row : TestRun).

Definition GetTestHistory (testID : string) (firstRunID offset limit : Z) (r : TestRunner) : list test_view * Z :=
  match GetTestRunRange testID firstRunID offset limit (w_db (rworld r)) with
  | Err _ => ([], 0)
  | Ok (rows, total) =>
      ((fun row => match GetTestByRunID (tr_RunID row) r with Some t => LiveTest t | None => DbTest row end) <$> rows,
       total)
  end.

(** The start of the process on a database: [Coordinator.Run] up to the
    runner; no test of the previous process is left but its rows.  [readErr] is
    the error of the query for the last run id. *)
Definition coordinator_start (readErr : option error) (h : Vars.heap) (w : World) : option TestRunner :=
  let last := lastTestRunID readErr (w_db w) in
  let '(w, err) := run_tx CleanupUncleanTestRuns w in
  match err with
  | Some _ => None
  | None => Some (NewTestRunner last (set_w_scopes h w))
  end.
End runner.

(** ** Steps *)

Inductive event :=
  | EvCreated (id : Z)
  | EvAcquired (id : Z)
  | EvStarted (id : Z)
  | EvRemoved (id : Z).

Definition created_ids (tr : list event) : list Z :=
  omap (fun e => match e with EvCreated id => Some id | _ => None end) tr.
Definition acquired_ids (tr : list event) : list Z :=
  omap (fun e => match e with EvAcquired id => Some id | _ => None end) tr.
Definition started_ids (tr : list event) : list Z :=
  omap (fun e => match e with EvStarted id => Some id | _ => None end) tr.
Definition removed_ids (tr : list event) : list Z :=
  omap (fun e => match e with EvRemoved id => Some id | _ => None end) tr.

Section steps.
Context `{lib : Library} `{raw : RawMessages}.
Variable limit : Z.

(** One turn of a goroutine, with what it did to the tests.  Run ids stay
    below 2^64.  Running tasks change the world but not the table of runs
    ([keeps_RunTasks]).  The restarts are those whose query for the last run id
    succeeds ([failed_read_reuses_ids] shows what one that fails does). *)
Inductive runner_step (r : TestRunner) : list event -> TestRunner -> Prop :=
  | step_schedule descriptor overrides dup skip r' res :
      runIDCounter r + 1 < two64 ->
      ScheduleTest descriptor overrides dup skip r = (r', res) ->
      runner_step r (match res with Ok id => [EvCreated id] | Err _ => [] end) r'
  | step_notify r' : notify r = Some r' -> runner_step r [] r'
  | step_send id r' : send_off_queue id r = Some r' -> runner_step r [] r'
  | step_check r' : loop_check r = Some r' -> runner_step r [] r'
  | step_acquire id r' :
      loop r = LoopHeld id -> loop_acquire limit false r = Some r' -> runner_step r [EvAcquired id] r'
  | step_stop r' : loop_acquire limit true r = Some r' -> runner_step r [] r'
  | step_wake why r' : loop_wake why r = Some r' -> runner_step r [] r'
  | step_off_queue r' : off_queue_start r = Some r' -> runner_step r [] r'
  | step_begin off id r' started :
      begin_run off id r = Some (r', started) ->
      runner_step r (if started then [EvStarted id] else []) r'
  | step_tasks w : runs_of (w_db w) = runs_of (w_db (rworld r)) -> runner_step r [] (set_world w r)
  | step_end off id ctxErr s err r' : end_run off id ctxErr s err r = Some r' -> runner_step r [] r'
  | step_abort id skip r' : abort_test id skip r = Some r' -> runner_step r [] r'
  | step_remove id r' : RemoveTestFromQueue id r = (r', true) -> runner_step r [EvRemoved id] r'
  | step_delete_row id w err :
      run_tx (DeleteTestRun id) (rworld r) = (w, err) -> runner_step r [] (set_world w r)
  | step_restart h r' : coordinator_start None h (rworld r) = Some r' -> runner_step r [] r'.

Inductive runner_steps : TestRunner -> list event -> TestRunner -> Prop :=
  | steps_refl r : runner_steps r [] r
  | steps_snoc r tr r1 e r2 : runner_steps r tr r1 -> runner_step r1 e r2 -> runner_steps r (tr ++ e) r2.

(** ** The invariant *)

Definition held_ids (l : loop_state) : list Z := match l with LoopHeld id => [id] | _ => [] end.

(** The tests that have not begun to run, and those of goroutines. *)
Definition waiting_ids (r : TestRunner) : list Z :=
  held_ids (loop r) ++ testQueue r ++ toSend r ++ offQueue r.

Definition slot_ids (r : TestRunner) : list Z :=
  (map_to_list (slots r)).*1 ++ (map_to_list (offSlots r)).*1.

Definition spawned (r : TestRunner) (id : Z) : Prop :=
  slots r !! id = Some Spawned \/ offSlots r !! id = Some Spawned.

(** [last_id]: the last run id the database knows. *)
Definition last_id (r : TestRunner) : Z := lastTestRunID None (w_db (rworld r)).

Record runner_inv (tr : list event) (r : TestRunner) : Prop := {
  (** ids *)
  ri_counter : 0 <= last_id r <= runIDCounter r /\ runIDCounter r < two64;
  ri_rows : forall id, is_Some (test_runs (w_db (rworld r)) !! id) -> id <= last_id r;
  ri_created : forall id, id ∈ created_ids tr -> id <= last_id r;
  ri_tests : forall id, is_Some (tests r !! id) -> id ∈ created_ids tr;
  ri_map : forall id, id ∈ testRunMap r -> is_Some (tests r !! id);
  (** places *)
  ri_places : forall id, id ∈ waiting_ids r \/ is_Some (slots r !! id) \/ is_Some (offSlots r !! id) ->
    is_Some (tests r !! id);
  ri_waiting : NoDup (waiting_ids r);
  ri_slots : forall id, id ∈ waiting_ids r -> slots r !! id = None /\ offSlots r !! id = None;
  ri_disjoint : forall id, is_Some (slots r !! id) -> offSlots r !! id = None;
  (** order and bound of the queued executions *)
  ri_order : StronglySorted Z.lt (acquired_ids tr ++ held_ids (loop r) ++ testQueue r);
  ri_acquired : forall id, id ∈ acquired_ids tr -> id ∈ created_ids tr;
  ri_limit : Z.of_nat (size (slots r)) <= concurrency limit;
  (** starts *)
  ri_started : forall id, id ∈ started_ids tr -> id ∈ created_ids tr;
  ri_once : NoDup (started_ids tr);
  ri_not_started : forall id, id ∈ waiting_ids r \/ spawned r id -> id ∉ started_ids tr;
  ri_removed : forall id, id ∈ removed_ids tr ->
    id ∈ created_ids tr /\ id ∉ started_ids tr /\ id ∉ waiting_ids r /\ ~ spawned r id;
  (** the loop is woken *)
  ri_wake : loop r = LoopWait -> testQueue r <> [] -> notification r = true \/ (0 < toNotify r)%nat
}.

Lemma created_app tr tr' : created_ids (tr ++ tr') = created_ids tr ++ created_ids tr'.
Proof. apply omap_app. Qed.
Lemma acquired_app tr tr' : acquired_ids (tr ++ tr') = acquired_ids tr ++ acquired_ids tr'.
Proof. apply omap_app. Qed.
Lemma started_app tr tr' : started_ids (tr ++ tr') = started_ids tr ++ started_ids tr'.
Proof. apply omap_app. Qed.
Lemma removed_app tr tr' : removed_ids (tr ++ tr') = removed_ids tr ++ removed_ids tr'.
Proof. apply omap_app. Qed.

(** Removing an element from a duplicate-free list. *)
Lemma elem_of_remove_first id x l : NoDup l -> x ∈ remove_first id l <-> x ∈ l /\ x <> id.
Proof.
  induction l as [|y l IH]; intros Hnd; simpl; [set_solver|]. apply NoDup_cons in Hnd as [Hy Hnd].
  destruct (Z.eqb_spec y id) as [->|Hne].
  - rewrite elem_of_cons. split; [intros Hx; split; [by right|set_solver]|]. intros [[->|Hx] Hn]; [done|done].
  - rewrite !elem_of_cons, IH by done. split; [intros [->|[? ?]]; auto|]. intros [[->|?] ?]; auto.
Qed.

Lemma remove_first_split id l : id ∈ l -> exists l1 l2, l = l1 ++ id :: l2 /\ remove_first id l = l1 ++ l2.
Proof.
  induction l as [|x l IH]; [set_solver|]. intros Hin. simpl. destruct (Z.eqb_spec x id) as [->|Hne].
  - by exists [], l.
  - destruct IH as (l1 & l2 & -> & ->); [set_solver|]. by exists (x :: l1), l2.
Qed.

(** What the invariant says only depends on some parts of the runner. *)
Lemma runner_inv_same tr r r' :
  runIDCounter r' = runIDCounter r -> (forall id, is_Some (tests r' !! id) <-> is_Some (tests r !! id)) ->
  testRunMap r' = testRunMap r -> testQueue r' = testQueue r -> notification r' = notification r ->
  toNotify r' = toNotify r -> toSend r' = toSend r -> offQueue r' = offQueue r -> loop r' = loop r ->
  slots r' = slots r -> offSlots r' = offSlots r -> last_id r' = last_id r ->
  (forall id, is_Some (test_runs (w_db (rworld r')) !! id) -> id <= last_id r) ->
  runner_inv tr r -> runner_inv tr r'.
Proof.
  intros E1 Et E3 E4 E5 E6 E7 E8 E9 E10 E11 E12 Hrows [].
  split; unfold waiting_ids, spawned in *; rewrite ?E1, ?E3, ?E4, ?E5, ?E6, ?E7, ?E8, ?E9, ?E10, ?E11, ?E12;
    try done; setoid_rewrite Et; auto.
Qed.
End steps.

(** ** Preservation *)

Section preservation.
Context `{lib : Library} `{raw : RawMessages}.
Variable limit : Z.
#[local] Notation inv := (runner_inv limit).

Lemma last_id_runs db db' : runs_of db = runs_of db' -> lastTestRunID None db = lastTestRunID None db'.
Proof. unfold lastTestRunID, GetAssertoorState. by intros [= _ ->]. Qed.

Lemma runs_rows db db' : runs_of db = runs_of db' -> test_runs db = test_runs db'.
Proof. by intros [= ? _]. Qed.

Lemma lastTestRunID_insert db id m :
  is_u64 id -> assertoor_state db = <[lastRunId_key := json_uint64 id]> m -> lastTestRunID None db = id.
Proof.
  intros Hid Hdb. unfold lastTestRunID, GetAssertoorState. rewrite Hdb, lookup_insert_eq. simpl.
  by rewrite parse_json_uint64.
Qed.

(** Steps that keep ids, places and runs. *)
Lemma inv_set_test tr id t r :
  is_Some (tests r !! id) -> inv tr r -> inv tr (set_test id t r).
Proof.
  intros Hid H. pose proof (ri_rows _ _ _ H) as Hrows. revert H. apply runner_inv_same; try done.
  intros j. simpl. destruct (decide (j = id)) as [->|Hne]; [rewrite lookup_insert_eq; split; eauto|].
  by rewrite lookup_insert_ne.
Qed.

Lemma inv_set_world tr w r :
  lastTestRunID None (w_db w) = last_id r ->
  (forall id, is_Some (test_runs (w_db w) !! id) -> is_Some (test_runs (w_db (rworld r)) !! id)) ->
  inv tr r -> inv tr (set_world w r).
Proof.
  intros Hl Hr H. pose proof (ri_rows _ _ _ H) as Hrows. revert H. apply runner_inv_same; try done.
  intros id Hid. apply Hrows, Hr, Hid.
Qed.

Lemma UpdateTestRunStatus_runs row db db' :
  UpdateTestRunStatus row db = Ok db' ->
  lastTestRunID None db' = lastTestRunID None db /\ forall id, is_Some (test_runs db' !! id) -> is_Some (test_runs db !! id).
Proof.
  intros Hup. split.
  - destruct (UpdateTestRunStatus_lookup row db db' 0 Hup) as (_ & _ & Hs & _).
    unfold lastTestRunID, GetAssertoorState. by rewrite Hs.
  - intros id. destruct (UpdateTestRunStatus_lookup row db db' id Hup) as (f & -> & _). by rewrite fmap_is_Some.
Qed.

(** The queue after an append, and a fresh id. *)
Lemma inv_counter tr id w r :
  runIDCounter r + 1 < two64 -> id = runIDCounter r + 1 ->
  runs_of (w_db w) = runs_of (w_db (rworld r)) \/
  (exists row, runs_of (w_db w) = (<[id := row]> (test_runs (w_db (rworld r))),
                                   <[lastRunId_key := json_uint64 id]> (assertoor_state (w_db (rworld r))))) ->
  inv tr r ->
  inv tr (mkTestRunner id (tests r) (testRunMap r) (testQueue r) (notification r) (toNotify r)
            (toSend r) (offQueue r) (loop r) (slots r) (offSlots r) w).
Proof.
  intros Hlt -> Hruns [[Hc Hc'] Hrows Hcr ? ? ? ? ? ? ? ? ? ? ? ? ? ?]. set (r' := mkTestRunner _ _ _ _ _ _ _ _ _ _ _ _).
  assert (last_id r <= last_id r' <= runIDCounter r + 1 /\
    forall id, is_Some (test_runs (w_db w) !! id) -> id <= last_id r') as [Hl Hr'].
  { unfold last_id in *. simpl. destruct Hruns as [Hsame|[row Hnew]].
    - rewrite (last_id_runs _ _ Hsame), (runs_rows _ _ Hsame). split; [lia|done].
    - injection Hnew as Hn Hs. rewrite (lastTestRunID_insert (w_db w) (runIDCounter r + 1) _ ltac:(go_lia) Hs). split; [lia|].
      intros id. rewrite Hn. destruct (decide (id = runIDCounter r + 1)) as [->|Hne]; [lia|].
      rewrite lookup_insert_ne by done. intros Hid%Hrows. lia. }
  split; try done.
  - split; [|done]. simpl. lia.
  - intros id Hid. specialize (Hcr id Hid). lia.
Qed.

Lemma inv_schedule tr descriptor overrides dup skip r r' res :
  runIDCounter r + 1 < two64 -> ScheduleTest descriptor overrides dup skip r = (r', res) -> inv tr r ->
  inv (tr ++ match res with Ok id => [EvCreated id] | Err _ => [] end) r'.
Proof.
  intros Hlt. unfold ScheduleTest. destruct (td_err descriptor); [intros [= <- <-]; by rewrite app_nil_r|].
  unfold createTestRun. destruct (negb dup && _); [intros [= <- <-]; by rewrite app_nil_r|]. intros Hs Hinv.
  pose proof (ri_counter _ _ _ Hinv) as Hc.
  assert (runIDCounter r +u 1 = runIDCounter r + 1) as Hid by (apply u64_id; go_lia). rewrite Hid in Hs.
  destruct (CreateTest (runIDCounter r + 1) descriptor overrides (rworld r)) as [w rt] eqn:Hct.
  destruct (CreateTest_spec _ _ _ _ _ _ Hct) as [Hruns Ht].
  assert (Hinv1 := inv_counter tr (runIDCounter r + 1) w r Hlt eq_refl
    ltac:(destruct Hruns as [[? _]|(row & _ & ? & _)]; eauto) Hinv).
  destruct rt as [t|e]; [|injection Hs as <- <-; by rewrite app_nil_r].
  destruct Hruns as [[_ Hno]|(row & _ & Hruns & _)]; [by destruct (Hno t)|]. injection Hruns as Hn Hst.
  assert (lastTestRunID None (w_db w) = runIDCounter r + 1) as Hlast
    by (apply (lastTestRunID_insert (w_db w) (runIDCounter r + 1) _ ltac:(go_lia) Hst)).
  assert (forall id, id ∈ created_ids tr -> id < runIDCounter r + 1) as Hold.
  { intros id Hin. pose proof (ri_created _ _ _ Hinv id Hin). lia. }
  assert (forall id, is_Some (tests r !! id) -> id < runIDCounter r + 1) as Hfresh.
  { intros id Hin. by apply Hold, (ri_tests _ _ _ Hinv). }
  assert (r' = (if skip then set_sends (toSend r ++ [runIDCounter r + 1]) (offQueue r) else fun r => set_notify (notification r) (S (toNotify r)) r)
    (set_runMap ({[runIDCounter r + 1]} ∪ testRunMap r) (set_test (runIDCounter r + 1) t
      (mkTestRunner (runIDCounter r + 1) (tests r) (testRunMap r)
         (if skip then testQueue r else testQueue r ++ [runIDCounter r + 1]) (notification r) (toNotify r)
         (toSend r) (offQueue r) (loop r) (slots r) (offSlots r) w))) /\ res = Ok (runIDCounter r + 1)) as [-> ->]
    by (by destruct skip; injection Hs as <- <-). clear Hs.
  set (id0 := runIDCounter r + 1) in *.
  assert (id0 ∉ waiting_ids r) as Hnw.
  { intros Hin. assert (is_Some (tests r !! id0)) as Hs by (apply (ri_places _ _ _ Hinv); auto).
    specialize (Hfresh _ Hs). lia. }
  assert (slots r !! id0 = None /\ offSlots r !! id0 = None) as [Hns Hno].
  { split; apply eq_None_not_Some; intros Hs;
      (assert (is_Some (tests r !! id0)) as Hs' by (apply (ri_places _ _ _ Hinv); auto));
      specialize (Hfresh _ Hs'); lia. }
  set (r' := _ : TestRunner).
  assert (waiting_ids r' ≡ₚ id0 :: waiting_ids r) as Hperm
    by (unfold r', waiting_ids; destruct skip; simpl; solve_Permutation).
  assert (forall id, id ∈ waiting_ids r' <-> id ∈ waiting_ids r \/ id = id0) as Hw
    by (intros id; rewrite Hperm, elem_of_cons; tauto).
  assert (slots r' = slots r /\ offSlots r' = offSlots r /\ tests r' = <[id0 := t]> (tests r) /\
    testRunMap r' = {[id0]} ∪ testRunMap r /\ runIDCounter r' = id0 /\ rworld r' = w /\ loop r' = loop r /\
    testQueue r' = (if skip then testQueue r else testQueue r ++ [id0]))
    as (Es & Eo & Et & Em & Ecn & Ew & El & Eq) by (by destruct skip).
  destruct Hinv as [? Hrows Hcreated Htests Hmap Hplaces Hwaiting Hslots Hdisj Horder Hacq Hlim Hstarted Honce Hnst Hrem Hwake].
  assert (forall id, is_Some (tests r' !! id) <-> is_Some (tests r !! id) \/ id = id0) as Htest'.
  { intros id. rewrite Et. destruct (decide (id = id0)) as [->|Hne].
    - rewrite lookup_insert_eq. split; eauto.
    - rewrite lookup_insert_ne by done. tauto. }
  split; unfold spawned in *; unfold last_id in *; rewrite ?Es, ?Eo, ?Em, ?Ecn, ?Ew, ?El, ?Eq, ?Hlast,
    ?created_app, ?acquired_app, ?started_app, ?removed_app; simpl; rewrite ?app_nil_r; try done.
  - split; unfold id0; lia.
  - intros id. rewrite Hn. destruct (decide (id = id0)) as [->|Hne]; [lia|].
    rewrite lookup_insert_ne by done. intros Hid'%Hrows. lia.
  - intros id [Hin| ->%list_elem_of_singleton]%elem_of_app; [|lia]. specialize (Hold id Hin). lia.
  - intros id [Hin| ->]%Htest'; [|set_solver]. apply elem_of_app. left. by apply Htests.
  - intros id [ ->%elem_of_singleton|Hin]%elem_of_union; apply Htest'; auto.
  - intros id [[Hin| ->]%Hw|Hin]; apply Htest'; auto.
  - rewrite Hperm. by apply NoDup_cons.
  - intros id [Hin| ->]%Hw; auto.
  - destruct skip; [done|]. rewrite !app_assoc. apply StronglySorted_app_2; [|by rewrite <- app_assoc|repeat constructor].
    intros id ? Hin ->%list_elem_of_singleton. apply elem_of_app in Hin as [[Hin|Hin]%elem_of_app|Hin];
      [by apply Hold, Hacq|apply Hfresh, Hplaces; left; unfold waiting_ids; set_solver..].
  - intros id Hin. apply elem_of_app. auto.
  - intros id Hin. apply elem_of_app. auto.
  - intros id [[Hin| ->]%Hw|Hin]; [auto| |auto]. intros Hin%Hstarted%Hold. lia.
  - intros id Hin. destruct (Hrem id Hin) as (H1 & H2 & H3 & H4). split; [set_solver|]. split; [done|].
    split; [|done]. intros [?| ->]%Hw; [done|]. specialize (Hold _ H1). lia.
  - intros Hl Hq. destruct skip; simpl; [auto|]. right. lia.
Qed.
End preservation.

Section preservation2.
Context `{lib : Library} `{raw : RawMessages}.
Variable limit : Z.
#[local] Notation inv := (runner_inv limit).

Ltac same_ids H := destruct H as [? ? ? ? ? ? ? ? ? ? ? ? ? ? ? ? ?]; split; unfold waiting_ids, spawned, last_id in *; simpl in *.

Lemma inv_notify tr r r' : notify r = Some r' -> inv tr r -> inv tr r'.
Proof.
  unfold notify. destruct (toNotify r) as [|n] eqn:Hn; [done|]. intros [= <-] H. same_ids H; try done. auto.
Qed.

Lemma inv_send tr id r r' : send_off_queue id r = Some r' -> inv tr r -> inv tr r'.
Proof.
  unfold send_off_queue. case_decide as Hin; [|done]. intros [= <-] H.
  assert (waiting_ids (set_sends (remove_first id (toSend r)) (offQueue r ++ [id]) r) ≡ₚ waiting_ids r) as Hperm.
  { unfold waiting_ids. simpl. destruct (remove_first_split id (toSend r) Hin) as (l1 & l2 & -> & ->). solve_Permutation. }
  set (r' := set_sends _ _ r) in *.
  destruct H as [Hc Hrows Hcreated Htests Hmap Hplaces Hwaiting Hslots Hdisj Horder Hacq Hlim Hstarted Honce Hnst Hrem Hwake].
  split; try done; try setoid_rewrite Hperm; done.
Qed.

Lemma inv_check tr r r' : loop_check r = Some r' -> inv tr r -> inv tr r'.
Proof.
  unfold loop_check. destruct (loop r) eqn:Hl; [|done..]. destruct (testQueue r) as [|id q] eqn:Hq; intros [= <-] H.
  - same_ids H; try done; rewrite ?Hl, ?Hq in *; done.
  - same_ids H; rewrite ?Hl, ?Hq in *; done.
Qed.

Lemma inv_wake tr why r r' : loop_wake why r = Some r' -> inv tr r -> inv tr r'.
Proof.
  unfold loop_wake. destruct (loop r) eqn:Hl; [done..| |done].
  destruct why; [|destruct (notification r); [|done]|]; intros [= <-] H; same_ids H; rewrite ?Hl in *; done.
Qed.

Lemma inv_stop tr r r' : loop_acquire limit true r = Some r' -> inv tr r -> inv tr r'.
Proof.
  unfold loop_acquire. destruct (loop r) as [|id| |] eqn:Hl; try done. destruct (_ <? _); [|done]. intros [= <-] H.
  destruct H as [Hc Hrows Hcreated Htests Hmap Hplaces Hwaiting Hslots Hdisj Horder Hacq Hlim Hstarted Honce Hnst Hrem Hwake].
  unfold waiting_ids, spawned in *. rewrite Hl in *. simpl in *.
  split; unfold waiting_ids, spawned; simpl; try done.
  - intros j Hj. apply Hplaces. set_solver.
  - by apply NoDup_cons in Hwaiting as [_ ?].
  - intros j Hj. apply Hslots. set_solver.
  - apply StronglySorted_app in Horder as (H1 & H2 & H3). apply StronglySorted_app. split; [|split; [done|]].
    + intros x1 x2 ? ?. apply H1; [done|]. by right.
    + by apply StronglySorted_cons in H3 as [_ ?].
  - intros j [Hj|Hj]; apply Hnst; [left; set_solver|by right].
  - intros j Hj. destruct (Hrem j Hj) as (? & ? & Hn & ?). split_and!; try done. set_solver.
Qed.

Lemma inv_acquire tr id r r' :
  loop r = LoopHeld id -> loop_acquire limit false r = Some r' -> inv tr r -> inv (tr ++ [EvAcquired id]) r'.
Proof.
  intros Hl. unfold loop_acquire. rewrite Hl. destruct (_ <? _) eqn:Hlt; [|done]. intros [= <-] H.
  destruct H as [Hc Hrows Hcreated Htests Hmap Hplaces Hwaiting Hslots Hdisj Horder Hacq Hlim Hstarted Honce Hnst Hrem Hwake].
  unfold waiting_ids, spawned in *. rewrite Hl in *. simpl in *.
  assert (is_Some (tests r !! id)) as Hid by (apply Hplaces; left; set_solver).
  destruct (Hslots id ltac:(set_solver)) as [Hns Hno]. apply NoDup_cons in Hwaiting as [Hnw Hwaiting].
  assert (id ∉ started_ids tr) as Hnstart by (apply Hnst; left; set_solver).
  split; unfold waiting_ids, spawned; rewrite ?created_app, ?acquired_app, ?started_app, ?removed_app; simpl;
    rewrite ?app_nil_r; try done.
  - intros j [Hj|[Hj|Hj]]; [apply Hplaces; set_solver| |apply Hplaces; auto].
    destruct (decide (j = id)) as [->|Hne]; [done|]. rewrite lookup_insert_ne in Hj by done. apply Hplaces; auto.
  - intros j Hj. rewrite lookup_insert_ne by (intros ->; done). apply Hslots. set_solver.
  - intros j. destruct (decide (j = id)) as [->|Hne]; [done|]. rewrite lookup_insert_ne by done. auto.
  - by rewrite <- app_assoc.
  - intros j [Hj| ->%list_elem_of_singleton]%elem_of_app; [by apply Hacq|by apply Htests].
  - rewrite map_size_insert_None by done. lia.
  - intros j [Hj|[Hj|Hj]]; [apply Hnst; left; set_solver| |apply Hnst; auto].
    destruct (decide (j = id)) as [->|Hne]; [done|]. rewrite lookup_insert_ne in Hj by done. apply Hnst; auto.
  - intros j Hj. destruct (Hrem j Hj) as (? & ? & Hn & Hsp). split_and!; try done; [set_solver|].
    intros [Hj'|Hj']; [|by apply Hsp; right].
    destruct (decide (j = id)) as [->|Hne]; [set_solver|]. rewrite lookup_insert_ne in Hj' by done. apply Hsp. by left.
Qed.

Lemma inv_off_queue tr r r' : off_queue_start r = Some r' -> inv tr r -> inv tr r'.
Proof.
  unfold off_queue_start. destruct (offQueue r) as [|id q] eqn:Hq; [done|]. intros [= <-] H.
  destruct H as [Hc Hrows Hcreated Htests Hmap Hplaces Hwaiting Hslots Hdisj Horder Hacq Hlim Hstarted Honce Hnst Hrem Hwake].
  unfold waiting_ids, spawned in *. rewrite Hq in *. simpl in *.
  assert (is_Some (tests r !! id)) as Hid by (apply Hplaces; left; set_solver).
  destruct (Hslots id ltac:(set_solver)) as [Hns Hno].
  assert (id ∉ held_ids (loop r) ++ testQueue r ++ toSend r ++ q /\ NoDup (held_ids (loop r) ++ testQueue r ++ toSend r ++ q))
    as [Hnw Hnd].
  { apply NoDup_cons. revert Hwaiting. by rewrite (assoc_L (++)), (assoc_L (++)), <- Permutation_middle, <- !(assoc_L (++)). }
  assert (id ∉ started_ids tr) as Hnstart by (apply Hnst; left; set_solver).
  split; unfold waiting_ids, spawned; simpl; try done.
  - intros j [Hj|[Hj|Hj]]; [apply Hplaces; set_solver|apply Hplaces; auto|].
    destruct (decide (j = id)) as [->|Hne]; [done|]. rewrite lookup_insert_ne in Hj by done. apply Hplaces; auto.
  - intros j Hj. rewrite lookup_insert_ne by (intros ->; done). apply Hslots. set_solver.
  - intros j Hj. destruct (decide (j = id)) as [->|Hne]; [by rewrite Hns in Hj; destruct Hj|].
    rewrite lookup_insert_ne by done. auto.
  - intros j [Hj|[Hj|Hj]]; [apply Hnst; left; set_solver|apply Hnst; auto|].
    destruct (decide (j = id)) as [->|Hne]; [done|]. rewrite lookup_insert_ne in Hj by done. apply Hnst; auto.
  - intros j Hj. destruct (Hrem j Hj) as (? & ? & Hn & Hsp). split_and!; try done; [set_solver|].
    intros [Hj'|Hj']; [by apply Hsp; left|].
    destruct (decide (j = id)) as [->|Hne]; [set_solver|]. rewrite lookup_insert_ne in Hj' by done. apply Hsp. by right.
Qed.

Lemma inv_remove tr id r r' :
  RemoveTestFromQueue id r = (r', true) -> inv tr r -> inv (tr ++ [EvRemoved id]) r'.
Proof.
  unfold RemoveTestFromQueue. case_decide as Hin; [|done]. case_decide as Hrun; [done|]. intros [= <-] H.
  destruct H as [Hc Hrows Hcreated Htests Hmap Hplaces Hwaiting Hslots Hdisj Horder Hacq Hlim Hstarted Honce Hnst Hrem Hwake].
  unfold waiting_ids, spawned in *.
  destruct (remove_first_split id (testQueue r) Hin) as (l1 & l2 & Hq & Hrm).
  assert (id ∉ held_ids (loop r) ++ (l1 ++ l2) ++ toSend r ++ offQueue r /\
    NoDup (held_ids (loop r) ++ (l1 ++ l2) ++ toSend r ++ offQueue r)) as [Hnw Hnd].
  { apply NoDup_cons. revert Hwaiting. rewrite Hq. assert (forall a b c, NoDup a -> a ≡ₚ b -> b = c -> NoDup (A:=Z) c) as Hp
      by (intros a b c Ha Hab <-; by rewrite <- Hab).
    intros Hnd. eapply Hp; [exact Hnd| |reflexivity]. solve_Permutation. }
  assert (is_Some (tests r !! id)) as Hid by (apply Hplaces; left; set_solver).
  destruct (Hslots id ltac:(set_solver)) as [Hns Hno].
  assert (id ∉ started_ids tr) as Hnstart by (apply Hnst; left; set_solver).
  assert (forall j, j ∈ held_ids (loop r) ++ (l1 ++ l2) ++ toSend r ++ offQueue r ->
    j ∈ held_ids (loop r) ++ testQueue r ++ toSend r ++ offQueue r) as Hsub by (rewrite Hq; set_solver).
  split; unfold waiting_ids, spawned; rewrite ?created_app, ?acquired_app, ?started_app, ?removed_app; simpl;
    rewrite ?app_nil_r, ?Hrm; try done.
  - intros j [Hj _]%elem_of_difference. auto.
  - intros j [Hj|Hj]; apply Hplaces; auto.
  - intros j Hj. auto.
  - rewrite Hq in Horder. rewrite !(assoc_L (++)) in *. apply StronglySorted_app in Horder as (H1 & H2 & H3).
    apply StronglySorted_cons in H3 as [_ H3]. apply StronglySorted_app. split; [|done]. set_solver.
  - intros j [Hj|Hj]; apply Hnst; auto.
  - intros j [Hj| ->%list_elem_of_singleton]%elem_of_app.
    + destruct (Hrem j Hj) as (? & ? & Hn & ?). split_and!; try done. auto.
    + split; [by apply Htests|]. split; [done|]. split; [done|]. rewrite Hns, Hno. by intros [?|?].
  - intros Hl' Hne. apply Hwake; [done|]. rewrite Hq. by destruct l1.
Qed.
End preservation2.

Section preservation3.
Context `{lib : Library} `{raw : RawMessages}.
Variable limit : Z.
#[local] Notation inv := (runner_inv limit).

(** A goroutine goes on into [RunTasks] ([Some InTasks]) or ends ([None]). *)
Lemma inv_slot off id p v tr r :
  get_slots off r !! id = Some p -> v <> Some Spawned ->
  inv tr r -> inv tr (set_slots off (partial_alter (fun _ => v) id (get_slots off r)) r).
Proof.
  intros Hp Hv H. set (m := partial_alter _ _ _).
  destruct H as [Hc Hrows Hcreated Htests Hmap Hplaces Hwaiting Hslots Hdisj Horder Hacq Hlim Hstarted Honce Hnst Hrem Hwake].
  assert (forall j, is_Some (m !! j) -> is_Some (get_slots off r !! j)) as Hsub.
  { intros j. unfold m. destruct (decide (j = id)) as [->|Hne]; [by rewrite Hp; eauto|].
    by rewrite lookup_partial_alter_ne. }
  assert (forall j, m !! j = Some Spawned -> get_slots off r !! j = Some Spawned) as Hsp.
  { intros j. unfold m. destruct (decide (j = id)) as [->|Hne]; [by rewrite lookup_partial_alter_eq|].
    by rewrite lookup_partial_alter_ne. }
  assert (size m <= size (get_slots off r))%nat as Hsize.
  { rewrite <- !size_dom. apply subseteq_size. intros j. rewrite !elem_of_dom. apply Hsub. }
  set (r' := set_slots off m r).
  assert (forall j, is_Some (slots r' !! j) -> is_Some (slots r !! j)) as Hs1 by (destruct off; [done|apply Hsub]).
  assert (forall j, is_Some (offSlots r' !! j) -> is_Some (offSlots r !! j)) as Hs2 by (destruct off; [apply Hsub|done]).
  assert (forall j, spawned r' j -> spawned r j) as Hs3.
  { intros j [Hj|Hj]; destruct off; [by left|left; by apply Hsp|right; by apply Hsp|by right]. }
  assert (size (slots r') <= size (slots r))%nat as Hs4 by (destruct off; [done|exact Hsize]).
  assert (forall j, slots r !! j = None -> slots r' !! j = None) as Hs5.
  { intros j Hj. apply eq_None_not_Some. intros Hs%Hs1. rewrite Hj in Hs. by destruct Hs. }
  assert (forall j, offSlots r !! j = None -> offSlots r' !! j = None) as Hs6.
  { intros j Hj. apply eq_None_not_Some. intros Hs%Hs2. rewrite Hj in Hs. by destruct Hs. }
  assert (waiting_ids r' = waiting_ids r) as Hw by done.
  split; try done; rewrite ?Hw.
  - intros j [Hj|[Hj|Hj]]; apply Hplaces; auto.
  - intros j Hj. destruct (Hslots j Hj). auto.
  - intros j Hj. auto.
  - lia.
  - intros j [Hj|Hj]; apply Hnst; auto.
  - intros j Hj. destruct (Hrem j Hj) as (? & ? & ? & Hn). split_and!; auto.
Qed.

Lemma inv_start id tr r :
  id ∉ started_ids tr -> id ∈ created_ids tr -> id ∉ waiting_ids r -> ~ spawned r id -> id ∉ removed_ids tr ->
  inv tr r -> inv (tr ++ [EvStarted id]) r.
Proof.
  intros H1 H2 H3 H4 H5 H.
  destruct H as [Hc Hrows Hcreated Htests Hmap Hplaces Hwaiting Hslots Hdisj Horder Hacq Hlim Hstarted Honce Hnst Hrem Hwake].
  split; rewrite ?created_app, ?acquired_app, ?started_app, ?removed_app; simpl; rewrite ?app_nil_r; try done.
  - intros j [Hj| ->%list_elem_of_singleton]%elem_of_app; auto.
  - apply NoDup_app. split; [done|]. split; [|apply NoDup_singleton]. intros j Hj ->%list_elem_of_singleton. done.
  - intros j Hj. rewrite elem_of_app, list_elem_of_singleton. intros [Hj'| ->]; [by apply (Hnst j)|by destruct Hj].
  - intros j Hj. destruct (Hrem j Hj) as (? & ? & ? & ?). split_and!; auto.
    rewrite elem_of_app, list_elem_of_singleton. by intros [?| ->].
Qed.

Lemma spawned_slot off id r : get_slots off r !! id = Some Spawned -> spawned r id.
Proof. destruct off; [by right|by left]. Qed.

Lemma inv_begin tr off id r r' st :
  begin_run off id r = Some (r', st) -> inv tr r -> inv (tr ++ if st then [EvStarted id] else []) r'.
Proof.
  unfold begin_run. destruct (get_slots off r !! id) as [[|]|] eqn:Hs; try done.
  destruct (tests r !! id) as [t|] eqn:Ht; [|done]. intros Hb Hinv.
  assert (forall t' w, (UpdateTestRunStatus (dbTestRun t') (w_db (rworld r)) = Ok (w_db w) \/ w_db w = w_db (rworld r)) ->
    inv tr (set_world w r)) as Hworld.
  { intros t' w Hw. apply inv_set_world; [..|done]; destruct Hw as [Hw| ->]; try done;
      by apply (UpdateTestRunStatus_runs _ _ _ Hw). }
  assert (forall t', inv tr (set_slots off (delete id (get_slots off r)) (set_test id t' r))) as Hdone.
  { intros t'. apply (inv_slot off id Spawned None tr (set_test id t' r)); [by destruct off|done|].
    apply inv_set_test; eauto. }
  destruct (Validate t) as [t0 [e|]] eqn:Hv; [injection Hb as <- <-; rewrite app_nil_r; apply Hdone|].
  destruct (run_start t0 (rworld r)) as [[w t1] err] eqn:Hrs.
  destruct (run_start_pending _ _ _ _ _ Hrs) as [(Hn & -> & -> & ->)|(_ & -> & _ & _ & _ & _ & _ & _ & _ & _ & _ & _ & Hdb)].
  { injection Hb as <- <-. rewrite app_nil_r. apply (Hdone t0). }
  injection Hb as <- <-.
  assert (spawned r id) as Hsp by (by eapply spawned_slot).
  assert (inv tr (set_slots off (<[id := InTasks]> (get_slots off r)) (set_test id t1 (set_world w r)))) as Hinv1.
  { apply (inv_slot off id Spawned (Some InTasks) tr (set_test id t1 (set_world w r))); [by destruct off|done|].
    apply inv_set_test; [simpl; rewrite Ht; eauto|]. by apply (Hworld t1). }
  apply inv_start; [..|exact Hinv1].
  - apply (ri_not_started _ _ _ Hinv). by right.
  - apply (ri_tests _ _ _ Hinv). rewrite Ht. eauto.
  - intros Hw. destruct (ri_slots _ _ _ Hinv id Hw) as [H1 H2]. destruct Hsp; congruence.
  - intros [Hj|Hj]; destruct off; simpl in *; rewrite ?lookup_insert_eq in Hj; try done.
    + assert (offSlots r !! id = None) as Ho by (apply (ri_disjoint _ _ _ Hinv); eauto). congruence.
    + assert (offSlots r !! id = None) as Ho by (apply (ri_disjoint _ _ _ Hinv); eauto). congruence.
  - intros Hr. destruct (ri_removed _ _ _ Hinv id Hr) as (_ & _ & _ & Hn). done.
Qed.

Lemma inv_end tr off id ctxErr s err r r' : end_run off id ctxErr s err r = Some r' -> inv tr r -> inv tr r'.
Proof.
  unfold end_run. destruct (get_slots off r !! id) as [[|]|] eqn:Hs; try done.
  destruct (tests r !! id) as [t|] eqn:Ht; [|done].
  destruct (run_finish ctxErr err (set_taskScheduler s t) (rworld r)) as [[w t'] ret] eqn:Hf. intros [= <-] Hinv.
  destruct (run_finish_spec _ _ _ _ _ _ _ Hf) as (_ & _ & _ & _ & _ & _ & _ & _ & _ & _ & Hdb).
  apply (inv_slot off id InTasks None tr (set_test id t' (set_world w r))); [by destruct off|done|].
  apply inv_set_test; [simpl; rewrite Ht; eauto|].
  destruct Hdb as [Hdb|[Hdb _]]; (apply inv_set_world; [..|done]); try (by rewrite Hdb);
    by apply (UpdateTestRunStatus_runs _ _ _ Hdb).
Qed.

Lemma inv_abort tr id skip r r' : abort_test id skip r = Some r' -> inv tr r -> inv tr r'.
Proof.
  unfold abort_test, GetTestByRunID. case_decide as Hm; [|done].
  destruct (tests r !! id) as [t|] eqn:Ht; [|done]. intros [= <-]. apply inv_set_test. eauto.
Qed.

Lemma inv_delete_row tr id w err r :
  run_tx (DeleteTestRun id) (rworld r) = (w, err) -> inv tr r -> inv tr (set_world w r).
Proof.
  intros Htx. destruct (run_tx_cases (DeleteTestRun id) (rworld r)) as (_ & _ & _ & Hc). rewrite Htx in Hc. simpl in Hc.
  apply inv_set_world; unfold last_id; destruct Hc as [[_ [= <-]]|[-> _]]; try done.
  intros j. simpl. rewrite lookup_delete_is_Some. by intros [_ ?].
Qed.

Lemma inv_restart tr h r r' : coordinator_start None h (rworld r) = Some r' -> inv tr r -> inv tr r'.
Proof.
  unfold coordinator_start. destruct (run_tx_cases CleanupUncleanTestRuns (rworld r)) as (_ & _ & _ & Hc).
  destruct (run_tx CleanupUncleanTestRuns (rworld r)) as [w [e|]]; [done|]. simpl in Hc. intros [= <-] Hinv.
  assert (lastTestRunID None (w_db w) = last_id r) as Hl by (unfold last_id; by destruct Hc as [[_ [= <-]]|[-> _]]).
  assert (forall id, is_Some (test_runs (w_db w) !! id) -> is_Some (test_runs (w_db (rworld r)) !! id)) as Hr.
  { intros id. destruct Hc as [[_ [= <-]]|[-> _]]; [|done]. simpl. rewrite lookup_fmap. by rewrite fmap_is_Some. }
  destruct Hinv as [Hc' Hrows Hcreated Htests Hmap Hplaces Hwaiting Hslots Hdisj Horder Hacq Hlim Hstarted Honce Hnst Hrem Hwake].
  assert (runner_inv limit tr (NewTestRunner (last_id r) (set_w_scopes h w))) as Hnew; [|exact Hnew].
  unfold NewTestRunner. split; unfold waiting_ids, spawned; simpl; unfold last_id in *; simpl; rewrite ?Hl; try done.
  - lia.
  - intros id Hid. by apply Hrows, Hr.
  - intros id. rewrite lookup_empty. by intros [? ?].
  - intros id [Hin|[[? Hin]|[? Hin]]]; try (by rewrite lookup_empty in Hin); set_solver.
  - constructor.
  - rewrite app_nil_r. apply StronglySorted_app in Horder. tauto.
  - unfold concurrency. destruct (limit <? 1) eqn:El; [done|]. change (Z.of_nat (size ∅)) with 0. lia.
  - intros id [Hin|[Hin|Hin]]; try (by rewrite lookup_empty in Hin); set_solver.
  - intros id Hin. destruct (Hrem id Hin) as (? & ? & _ & _). split; [done|]. split; [done|]. split; [set_solver|].
    rewrite !lookup_empty. by intros [?|?].
Qed.

Lemma inv_step tr r e r' : runner_step limit r e r' -> inv tr r -> inv (tr ++ e) r'.
Proof.
  intros Hstep Hinv. destruct Hstep; rewrite ?app_nil_r.
  - by eapply inv_schedule.
  - by eapply inv_notify.
  - by eapply inv_send.
  - by eapply inv_check.
  - by eapply inv_acquire.
  - by eapply inv_stop.
  - by eapply inv_wake.
  - by eapply inv_off_queue.
  - by eapply inv_begin.
  - apply inv_set_world; [..|done]; [by apply last_id_runs|]. by rewrite (runs_rows _ _ H).
  - by eapply inv_end.
  - by eapply inv_abort.
  - by eapply inv_remove.
  - by eapply inv_delete_row.
  - by eapply inv_restart.
Qed.

Lemma inv_steps r tr r' : inv [] r -> runner_steps limit r tr r' -> inv tr r'.
Proof. intros H0. induction 1; [done|]. by eapply inv_step; [|apply IHrunner_steps]. Qed.

(** A process started on a database whose last run id covers its rows. *)
Lemma inv_start_process h w r :
  (forall id, is_Some (test_runs (w_db w) !! id) -> id <= lastTestRunID None (w_db w)) ->
  0 <= lastTestRunID None (w_db w) < two64 - 1 ->
  coordinator_start None h w = Some r -> inv [] r.
Proof.
  intros Hrows Hl Hs. apply (inv_restart [] h (NewTestRunner (lastTestRunID None (w_db w)) w)); [done|].
  split; unfold waiting_ids, spawned, last_id; simpl; try done; try (by intros id Hin; set_solver).
  - lia.
  - intros id. rewrite lookup_empty. by intros [? ?].
  - intros id [Hin|[[? Hin]|[? Hin]]]; try (by rewrite lookup_empty in Hin); set_solver.
  - constructor.
  - constructor.
  - unfold concurrency. destruct (limit <? 1) eqn:El; [done|]. change (Z.of_nat (size ∅)) with 0. lia.
  - constructor.
Qed.
End preservation3.

(** ** Properties *)

(** A database whose last run id covers its rows, as [CreateTest] leaves it. *)
Definition sane_db (db : Database) : Prop :=
  (forall id, is_Some (test_runs db !! id) -> id <= lastTestRunID None db) /\ 0 <= lastTestRunID None db < two64 - 1.

Lemma process_inv `{lib : Library} `{raw : RawMessages} limit h w r0 tr r :
  sane_db (w_db w) -> coordinator_start None h w = Some r0 -> runner_steps limit r0 tr r -> runner_inv limit tr r.
Proof. intros [Hr Hl] Hs. apply inv_steps. by eapply inv_start_process. Qed.

Lemma steps_cons `{lib : Library} `{raw : RawMessages} limit r1 r2 e tr r3 :
  runner_step limit r1 e r2 -> runner_steps limit r2 tr r3 -> runner_steps limit r1 (e ++ tr) r3.
Proof.
  intros H1 Hs. induction Hs as [r|r tr r3 e' r4 _ IH Hst].
  - rewrite app_nil_r. apply (steps_snoc _ r1 [] r1 e); [constructor|done].
  - rewrite (assoc_L (++)). apply (steps_snoc _ r1 (e ++ tr) r3 e' r4); [by apply IH|done].
Qed.

(** [createTestRun] after its duplicate check. *)
Lemma create_result `{lib : Library} `{raw : RawMessages} id descriptor overrides (skip : bool) r r' res :
  (let '(w, res) := CreateTest id descriptor overrides (rworld r) in
   let r := mkTestRunner id (tests r) (testRunMap r) (testQueue r) (notification r) (toNotify r)
              (toSend r) (offQueue r) (loop r) (slots r) (offSlots r) w in
   match res with
   | Err e => (r, Err ("failed initializing test run: " ++ e)%string)
   | Ok t =>
       let r := if skip then r else set_queue (testQueue r ++ [id]) r in
       (set_runMap ({[id]} ∪ testRunMap r) (set_test id t r), Ok id)
   end) = (r', res) ->
  runIDCounter r' = id /\
  ((exists e, res = Err ("failed initializing test run: " ++ e)%string /\
     tests r' = tests r /\ testQueue r' = testQueue r /\ testRunMap r' = testRunMap r) \/
   (exists t, res = Ok id /\ tests r' = <[id := t]> (tests r) /\ testRunMap r' = {[id]} ∪ testRunMap r /\
     runID t = id /\ TestID t = td_id descriptor /\ status t = TestStatusPending /\
     testQueue r' = if skip then testQueue r else testQueue r ++ [id])).
Proof.
  destruct (CreateTest id descriptor overrides (rworld r)) as [w rt] eqn:Hct.
  destruct (CreateTest_spec _ _ _ _ _ _ Hct) as [_ Ht]. destruct rt as [t|e].
  - destruct (Ht t eq_refl) as (? & Hd & ? & _). intros Hr. split; [by destruct skip; injection Hr as <- <-|].
    right. exists t. unfold TestID. rewrite Hd. by destruct skip; injection Hr as <- <-.
  - intros [= <- <-]. split; [done|]. left. by exists e.
Qed.

(** C4: Whatever schedules, loops, goroutines, aborts, removals, deletions and
    restarts of the process interleave, no test run is started twice, only
    created runs are started, and a run that was removed from the queue is
    never started. *)
Theorem runner_runs_once `{lib : Library} `{raw : RawMessages} limit h w r0 tr r :
  sane_db (w_db w) -> coordinator_start None h w = Some r0 -> runner_steps limit r0 tr r ->
  NoDup (started_ids tr) /\ (forall id, id ∈ started_ids tr -> id ∈ created_ids tr) /\
  (forall id, id ∈ removed_ids tr -> id ∈ created_ids tr /\ id ∉ started_ids tr).
Proof.
  intros Hdb Hs Hsteps. destruct (process_inv _ _ _ _ _ _ Hdb Hs Hsteps).
  split; [done|]. split; [done|]. intros id Hid. by destruct (ri_removed0 id Hid) as (? & ? & _).
Qed.

(** C5: Queued tests are taken up in the order of their run ids, across
    restarts too, and at most the configured number of them (at least one)
    hold an execution slot at any time. *)
Theorem queue_fifo_bounded `{lib : Library} `{raw : RawMessages} limit h w r0 tr r :
  sane_db (w_db w) -> coordinator_start None h w = Some r0 -> runner_steps limit r0 tr r ->
  StronglySorted Z.lt (acquired_ids tr ++ held_ids (loop r) ++ testQueue r) /\
  Z.of_nat (size (slots r)) <= Z.max 1 limit.
Proof.
  intros Hdb Hs Hsteps. destruct (process_inv _ _ _ _ _ _ Hdb Hs Hsteps). split; [done|].
  unfold concurrency in *. destruct (limit <? 1) eqn:E; lia.
Qed.

(** A successful [ScheduleTest] takes the next id and stores the run under it. *)
Lemma ScheduleTest_Ok `{lib : Library} `{raw : RawMessages} descriptor overrides dup skip r r' id :
  runIDCounter r + 1 < two64 -> 0 <= runIDCounter r ->
  ScheduleTest descriptor overrides dup skip r = (r', Ok id) ->
  id = runIDCounter r + 1 /\ exists row, tr_Status row = "pending"%string /\
    test_runs (w_db (rworld r')) = <[id := row]> (test_runs (w_db (rworld r))) /\
    lastTestRunID None (w_db (rworld r')) = id.
Proof.
  intros Hlt Hpos. assert (runIDCounter r +u 1 = runIDCounter r + 1) as Hid by (apply u64_id; go_lia).
  unfold ScheduleTest, createTestRun. destruct (td_err descriptor); [done|].
  destruct (negb dup && _); [done|]. rewrite Hid.
  destruct (CreateTest (runIDCounter r + 1) descriptor overrides (rworld r)) as [w' rt] eqn:Hct.
  destruct (CreateTest_spec _ _ _ _ _ _ Hct) as [Hruns _]. destruct rt as [t|e]; [|done].
  destruct Hruns as [[_ Hno]|(row & Hrow & Hruns & _)]; [by destruct (Hno t)|]. injection Hruns as Hn Hst.
  intros Hres.
  assert (id = runIDCounter r + 1 /\ rworld r' = w') as [-> ->] by (by destruct skip; injection Hres as <- <-).
  split; [done|]. exists row. split_and!; [by destruct Hrow as (_ & _ & ?)|done|].
  apply (lastTestRunID_insert (w_db w') (runIDCounter r + 1) _ ltac:(go_lia) Hst).
Qed.

(** C6: As long as every start of the process reads the last run id from the
    database without an error, a new run gets an id that no earlier run ever
    had, neither one of this process nor one of an earlier process on the same
    database, so its row never overwrites another run's; afterwards the
    database knows the id.  The error of that read is ignored by the code, and
    [failed_read_reuses_ids] shows that the ids then start over. *)
Theorem run_ids_fresh `{lib : Library} `{raw : RawMessages} limit h w r0 tr r descriptor overrides dup skip r' id :
  sane_db (w_db w) -> coordinator_start None h w = Some r0 -> runner_steps limit r0 tr r ->
  runIDCounter r + 1 < two64 -> ScheduleTest descriptor overrides dup skip r = (r', Ok id) ->
  id ∉ created_ids tr /\ test_runs (w_db (rworld r)) !! id = None /\
  (exists row, test_runs (w_db (rworld r')) !! id = Some row /\ tr_Status row = "pending"%string) /\
  lastTestRunID None (w_db (rworld r')) = id.
Proof.
  intros Hdb Hs Hsteps Hlt Hsch. destruct (process_inv _ _ _ _ _ _ Hdb Hs Hsteps) as [Hc Hrows Hcr _ _ _ _ _ _ _ _ _ _ _ _ _ _].
  destruct (ScheduleTest_Ok _ _ _ _ _ _ _ Hlt ltac:(go_lia) Hsch) as (-> & row & Hst & Hn & Hlast).
  split; [intros Hin%Hcr; lia|]. split; [apply eq_None_not_Some; intros Hin%Hrows; lia|].
  split; [|done]. exists row. by rewrite Hn, lookup_insert_eq.
Qed.

(** [Coordinator.Run] ignores the error of the query for the last run id: a
    process whose query fails starts counting at zero, its first run gets the
    id 1, the row and the history of an earlier run 1 in the same database are
    overwritten, and the database takes 1 for the last run id from then on,
    whatever it was before. *)
Theorem failed_read_reuses_ids `{lib : Library} `{raw : RawMessages} e h w r0 descriptor overrides dup skip r' id :
  coordinator_start (Some e) h w = Some r0 -> ScheduleTest descriptor overrides dup skip r0 = (r', Ok id) ->
  id = 1 /\ lastTestRunID None (w_db (rworld r')) = 1 /\
  (exists row, test_runs (w_db (rworld r')) !! 1 = Some row /\ tr_Status row = "pending"%string) /\
  forall i, i <> 1 -> is_Some (test_runs (w_db (rworld r')) !! i) <-> is_Some (test_runs (w_db w) !! i).
Proof.
  unfold coordinator_start. destruct (run_tx_cases CleanupUncleanTestRuns w) as (_ & _ & _ & Hc).
  destruct (run_tx CleanupUncleanTestRuns w) as [w1 [e1|]]; [done|]. simpl in Hc. intros [= <-] Hsch.
  change (lastTestRunID (Some e) (w_db w)) with 0 in Hsch.
  destruct (ScheduleTest_Ok _ _ _ _ (NewTestRunner 0 (set_w_scopes h w1)) _ _ ltac:(reflexivity) ltac:(discriminate) Hsch) as (-> & row & Hst & Hn & Hlast).
  cbn [runIDCounter NewTestRunner rworld] in *. split; [done|]. split; [done|].
  split; [exists row; by rewrite Hn, lookup_insert_eq|].
  intros i Hi. rewrite Hn, lookup_insert_ne by done.
  change (w_db (set_w_scopes h w1)) with (w_db w1).
  destruct Hc as [[_ [= <-]]|[-> _]]; [|done]. simpl. rewrite lookup_fmap. by rewrite fmap_is_Some.
Qed.

(** *** Wake-ups

    The turns of the execution loop and of the schedulers about to notify it,
    without the timer of an idle loop. *)
Inductive prompt_step `{lib : Library} `{raw : RawMessages} (limit : Z) (r : TestRunner)
    : list event -> TestRunner -> Prop :=
  | prompt_notify r' : notify r = Some r' -> prompt_step limit r [] r'
  | prompt_check r' : loop_check r = Some r' -> prompt_step limit r [] r'
  | prompt_acquire id r' :
      loop r = LoopHeld id -> loop_acquire limit false r = Some r' -> prompt_step limit r [EvAcquired id] r'
  | prompt_wake r' : loop_wake WakeNotification r = Some r' -> prompt_step limit r [] r'.

Inductive prompt_steps `{lib : Library} `{raw : RawMessages} (limit : Z)
    : nat -> TestRunner -> list event -> TestRunner -> Prop :=
  | prompts_refl r : prompt_steps limit 0 r [] r
  | prompts_cons n r e r1 tr r2 :
      prompt_step limit r e r1 -> prompt_steps limit n r1 tr r2 -> prompt_steps limit (S n) r (e ++ tr) r2.

Lemma prompt_step_runner `{lib : Library} `{raw : RawMessages} limit r e r' :
  prompt_step limit r e r' -> runner_step limit r e r'.
Proof.
  destruct 1; [by apply step_notify|by apply step_check|by apply step_acquire|by apply (step_wake _ _ WakeNotification)].
Qed.

Lemma prompt_steps_runner `{lib : Library} `{raw : RawMessages} limit n r tr r' :
  prompt_steps limit n r tr r' -> runner_steps limit r tr r'.
Proof.
  induction 1 as [r|n r e r1 tr r2 Hst%prompt_step_runner _ IH]; [constructor|]. by apply (steps_cons _ _ r1).
Qed.

Section progress.
Context `{lib : Library} `{raw : RawMessages}.
Context (limit : Z) (r : TestRunner) (Hsize : Z.of_nat (size (slots r)) < Z.max 1 limit).

(** The head of the queue is acquired within [n] prompt turns. *)
Definition acquires (n : nat) (r1 : TestRunner) (id : Z) : Prop :=
  exists r2, prompt_steps limit n r1 [EvAcquired id] r2 /\ slots r2 = <[id := Spawned]> (slots r).

Lemma acquires_step n r1 r2 id : prompt_step limit r1 [] r2 -> acquires n r2 id -> acquires (S n) r1 id.
Proof. intros Hst (r3 & Hs & ?). exists r3. split; [|done]. by apply (prompts_cons _ _ r1 [] r2). Qed.

Lemma acquires_held r1 id : loop r1 = LoopHeld id -> slots r1 = slots r -> acquires 1 r1 id.
Proof.
  intros Hr1 Hsl. exists (set_loop LoopCheck (set_slots false (<[id := Spawned]> (slots r1)) r1)).
  split; [|simpl; by rewrite Hsl].
  apply (prompts_cons _ _ r1 [EvAcquired id] (set_loop LoopCheck (set_slots false (<[id := Spawned]> (slots r1)) r1)) []);
    [|constructor].
  apply (prompt_acquire _ _ id); [done|]. unfold loop_acquire. rewrite Hr1, Hsl.
  assert (concurrency limit = Z.max 1 limit) as -> by (unfold concurrency; destruct (limit <? 1) eqn:El; lia).
  assert (Z.of_nat (size (slots r)) <? Z.max 1 limit = true) as -> by (by apply Z.ltb_lt). done.
Qed.

Lemma acquires_check r1 id rest :
  loop r1 = LoopCheck -> testQueue r1 = id :: rest -> slots r1 = slots r -> acquires 2 r1 id.
Proof.
  intros Hr1 Hq1 Hsl. apply (acquires_step _ _ (set_loop (LoopHeld id) (set_queue rest r1))).
  - apply prompt_check. unfold loop_check. by rewrite Hr1, Hq1.
  - by apply acquires_held.
Qed.

Lemma acquires_notified r1 id rest :
  loop r1 = LoopWait -> notification r1 = true -> testQueue r1 = id :: rest -> slots r1 = slots r ->
  acquires 3 r1 id.
Proof.
  intros Hr1 Hn Hq1 Hsl. apply (acquires_step _ _ (set_loop LoopCheck (set_notify false (toNotify r1) r1))).
  - apply prompt_wake. unfold loop_wake. by rewrite Hr1, Hn.
  - by apply (acquires_check _ _ rest).
Qed.
End progress.

(** C7: No wake-up is lost: whenever the execution loop sleeps while tests are
    queued, its notification is pending or a scheduler is about to notify it;
    and while the loop runs and a slot is free, at most four turns of the loop
    and of such a scheduler, none of them the loop's timer, give the slot to
    the next test. *)
Theorem queued_test_progress `{lib : Library} `{raw : RawMessages} limit h w r0 tr r id rest :
  sane_db (w_db w) -> coordinator_start None h w = Some r0 -> runner_steps limit r0 tr r ->
  loop r <> LoopDone -> held_ids (loop r) ++ testQueue r = id :: rest ->
  (loop r = LoopWait -> notification r = true \/ (0 < toNotify r)%nat) /\
  (Z.of_nat (size (slots r)) < Z.max 1 limit ->
   exists n r', (n <= 4)%nat /\ prompt_steps limit n r [EvAcquired id] r' /\
     slots r' = <[id := Spawned]> (slots r)).
Proof.
  intros Hdb Hs Hsteps Hl Hq. pose proof (ri_wake _ _ _ (process_inv _ _ _ _ _ _ Hdb Hs Hsteps)) as Hwake.
  assert (loop r = LoopWait -> testQueue r = id :: rest) as Hw by (intros E; by rewrite E in Hq).
  assert (loop r = LoopWait -> notification r = true \/ (0 < toNotify r)%nat) as Hnot.
  { intros E. apply Hwake; [done|]. by rewrite Hw. }
  split; [done|]. intros Hsize.
  assert (forall n, (n <= 4)%nat -> acquires limit r n r id -> exists n r', (n <= 4)%nat /\
    prompt_steps limit n r [EvAcquired id] r' /\ slots r' = <[id := Spawned]> (slots r)) as Hfin.
  { intros n ? (r' & ? & ?). by exists n, r'. }
  destruct (loop r) as [|i| |] eqn:Hloop; simpl in Hq; [| | |done].
  - apply (Hfin 2%nat); [lia|]. by apply (acquires_check _ _ Hsize _ _ rest).
  - injection Hq as -> _. apply (Hfin 1%nat); [lia|]. by apply acquires_held.
  - destruct (Hnot eq_refl) as [Hn|Hn].
    + apply (Hfin 3%nat); [lia|]. by apply (acquires_notified _ _ Hsize _ _ rest).
    + destruct (toNotify r) as [|n] eqn:Hnn; [lia|]. apply (Hfin 4%nat); [lia|].
      apply (acquires_step _ _ _ _ (set_notify true n r)); [apply prompt_notify; unfold notify; by rewrite Hnn|].
      by apply (acquires_notified _ _ Hsize _ _ rest).
Qed.

(** Another run of the test is in the queue. *)
Definition queued_duplicate `{lib : Library} `{raw : RawMessages} (descriptor : Descriptor) (r : TestRunner) : Prop :=
  exists i t, i ∈ testQueue r /\ tests r !! i = Some t /\ TestID t = td_id descriptor.

(** [createTestRun] refuses a duplicate only while the other run of the
    test is still in the queue; otherwise the run gets the next id, a failed
    creation uses the id up without a trace in queue and map, and a
    successful one is appended to the queue unless it skips it. *)
Theorem createTestRun_spec `{lib : Library} `{raw : RawMessages} descriptor overrides dup skip r r' res :
  is_u64 (runIDCounter r) -> runIDCounter r <> MaxUint64 ->
  createTestRun descriptor overrides dup skip r = (r', res) ->
  (dup = false /\ queued_duplicate descriptor r /\ r' = r /\ res = Err "test already in queue"%string) \/
  (~ (dup = false /\ queued_duplicate descriptor r) /\ runIDCounter r' = runIDCounter r + 1 /\
   ((exists e, res = Err ("failed initializing test run: " ++ e)%string /\
      tests r' = tests r /\ testQueue r' = testQueue r /\ testRunMap r' = testRunMap r) \/
    (exists t, res = Ok (runIDCounter r + 1) /\ tests r' = <[runIDCounter r + 1 := t]> (tests r) /\
      testRunMap r' = {[runIDCounter r + 1]} ∪ testRunMap r /\ runID t = runIDCounter r + 1 /\ TestID t = td_id descriptor /\ status t = TestStatusPending /\
      testQueue r' = if skip then testQueue r else testQueue r ++ [runIDCounter r + 1]))).
Proof.
  intros Hu Hmax. unfold createTestRun.
  assert (runIDCounter r +u 1 = runIDCounter r + 1) as Hid by (apply u64_id; go_lia). rewrite Hid.
  assert (existsb (fun t => String.eqb (TestID t) (td_id descriptor)) (GetTestQueue r) = true <-> queued_duplicate descriptor r) as Hdup.
  { rewrite existsb_elem_of. unfold GetTestQueue, queued_duplicate. setoid_rewrite list_elem_of_omap. setoid_rewrite String.eqb_eq. naive_solver. }
  destruct (existsb _ (GetTestQueue r)) eqn:He.
  - destruct dup; simpl; [|intros [= <- <-]; left; split_and!; try done; by apply Hdup].
    intros Hs. right. split; [by intros [? _]|]. by apply (create_result _ descriptor overrides skip r).
  - assert (~ queued_duplicate descriptor r) as Hnd by (intros ?%Hdup; congruence).
    rewrite andb_false_r. intros Hs. right. split; [tauto|]. by apply (create_result _ descriptor overrides skip r).
Qed.

(** ** Start-up and cron tests *)

(** The cron library; times are Unix seconds. *)
Class CronLibrary := {
  cron_expr : Type;
  cron_Parse : string -> result cron_expr;
  cron_Next : cron_expr -> Z -> Z
}.

Section scheduled.
Context `{lib : Library} `{raw : RawMessages} `{cron : CronLibrary}.

Definition no_err (d : Descriptor) : bool := match td_err d with None => true | Some _ => false end.

Definition getStartupTests (descriptors : list Descriptor) : list Descriptor :=
  filterb (fun d => no_err d &&
    match cfg_Schedule (td_config d) with None => true | Some s => Startup s end) descriptors.

(** The loop over the expressions of a test; it gives up at an invalid one. *)
Fixpoint cron_triggers (exprs : list string) (cronTime : Z) : bool :=
  match exprs with
  | [] => false
  | e :: exprs =>
      match cron_Parse e with
      | Err _ => false
      | Ok expr => if cron_Next expr (cronTime - 1) =? cronTime then true else cron_triggers exprs cronTime
      end
  end.

Definition getCronTests (descriptors : list Descriptor) (cronTime : Z) : list Descriptor :=
  filterb (fun d => no_err d &&
    match cfg_Schedule (td_config d) with
    | None => false
    | Some s => negb (Nat.eqb (length (Cron s)) 0) && cron_triggers (Cron s) cronTime
    end) descriptors.

Definition schedule_skipQueue (d : Descriptor) : bool :=
  match cfg_Schedule (td_config d) with Some s => SkipQueue s | None => false end.

(** [RunTestScheduler]'s loops: schedule without duplicates, log failures. *)
Definition schedule_all (descriptors : list Descriptor) (r : TestRunner) : TestRunner :=
  fold_left (fun r d =>
    let '(r, res) := ScheduleTest d [] false (schedule_skipQueue d) r in
    match res with
    | Err _ => r
    | Ok id => default r (if schedule_skipQueue d then send_off_queue id r else notify r)
    end) descriptors r.

(** The times the cron loop looks at, from the start time on. *)
Fixpoint cron_times (n : nat) (start : Z) : list Z :=
  match n with
  | O => []
  | S n => (start / 60 * 60 + 60) :: cron_times n (start / 60 * 60 + 60)
  end.
End scheduled.

(** A test is triggered in a minute iff it has a valid descriptor and one
    of its cron expressions matches that minute, provided all expressions
    listed before it are valid (an invalid one hides the rest); tests are
    selected in the order of the registry. *)
Theorem getCronTests_selects `{raw : RawMessages} `{cron : CronLibrary}
    (matches : cron_expr -> Z -> Prop) descriptors cronTime
    (Hnext : forall e t, t < cron_Next e t -> matches e (cron_Next e t))
    (Hleast : forall e t s, t < s -> matches e s -> t < cron_Next e t <= s) d :
  getCronTests descriptors cronTime `sublist_of` descriptors /\
  (d ∈ getCronTests descriptors cronTime <->
   d ∈ descriptors /\ td_err d = None /\
   exists s pre e expr post, cfg_Schedule (td_config d) = Some s /\ Cron s = pre ++ e :: post /\
     (forall e', e' ∈ pre -> exists x, cron_Parse e' = Ok x) /\ cron_Parse e = Ok expr /\ matches expr cronTime).
Proof.
  assert (forall exprs, cron_triggers exprs cronTime = true <-> exists pre e expr post, exprs = pre ++ e :: post /\
    (forall e', e' ∈ pre -> exists x, cron_Parse e' = Ok x) /\ cron_Parse e = Ok expr /\ matches expr cronTime) as Htr.
  { assert (forall e, cron_Next e (cronTime - 1) = cronTime <-> matches e cronTime) as Hm.
    { intros e. split.
      - intros Heq. rewrite <- Heq. apply Hnext. lia.
      - intros Hm. destruct (Hleast e (cronTime - 1) cronTime ltac:(lia) Hm). lia. }
    induction exprs as [|e exprs IH]; simpl.
    { split; [done|]. by intros ([|??] & ? & ? & ? & ? & _). }
    destruct (cron_Parse e) as [x|er] eqn:Hp.
    - destruct (Z.eqb_spec (cron_Next x (cronTime - 1)) cronTime) as [Heq|Hne].
      + split; [|done]. intros _. exists [], e, x, exprs. split; [done|]. split; [set_solver|]. split; [done|by apply Hm].
      + rewrite IH. split; intros (pre & e' & x' & post & Heq & Hpre & He & Hx).
        * exists (e :: pre), e', x', post. split; [by rewrite Heq|]. split; [|done].
          intros e0 [->|Hin]%elem_of_cons; eauto.
        * destruct pre as [|e0 pre]; simplify_eq/=; [by apply Hm in Hx; congruence|].
          exists pre, e', x', post. split; [done|]. split; [|done]. intros e1 Hin. apply Hpre. set_solver.
    - split; [done|]. intros (pre & e' & x' & post & Heq & Hpre & He & Hx).
      destruct pre as [|e0 pre]; injection Heq as -> _; [congruence|].
      destruct (Hpre e0 ltac:(set_solver)). congruence. }
  split.
  { unfold getCronTests, filterb. apply sublist_filter. }
  unfold getCronTests. rewrite elem_of_filterb. unfold no_err.
  destruct (td_err d) eqn:Herr; simpl; [split; [by intros [? _]|by intros (_ & ? & _)]|].
  destruct (cfg_Schedule (td_config d)) as [s|]; simpl; [|split; [by intros [? _]|by intros (_ & _ & ? & ? & ? & ? & ? & ? & _)]].
  rewrite andb_true_iff, Htr. split.
  - intros [[_ Hex] Hin]. destruct Hex as (pre & e0 & x0 & post & Hex). split; [done|]. split; [done|]. by exists s, pre, e0, x0, post.
  - intros (Hin & _ & s' & pre & e & x & post & [= <-] & Hc & Hrest). split; [|done]. split.
    + rewrite Hc, length_app. simpl. by rewrite Nat.add_succ_r.
    + by exists pre, e, x, post.
Qed.

(** ** Examples *)

Section ex_runner.
#[local] Instance ex_runner_lib : Library := ex_lib 9.
#[local] Existing Instance ex_raw.

Definition ex_r0 : TestRunner := NewTestRunner 0 (mkWorld (w_scopes ex_world) empty_db 1 0).

Definition ex_schedule_1 : TestRunner * result Z := ScheduleTest (ex_descriptor "t1" ["run_tasks"]%string) [] false false ex_r0.
Definition ex_r1 : TestRunner := ex_schedule_1.1.
Definition ex_schedule_2 : TestRunner * result Z := ScheduleTest (ex_descriptor "t2" ["run_tasks"]%string) [] false false ex_r1.
Definition ex_r2 : TestRunner := ex_schedule_2.1.
Definition ex_r3 : TestRunner := default ex_r2 (loop_check ex_r2).
Definition ex_r4 : TestRunner := default ex_r3 (loop_acquire 1 false ex_r3).
Definition ex_r5 : TestRunner := default ex_r4 (fst <$> begin_run false 1 ex_r4).
Definition ex_r6 : TestRunner := (RemoveTestFromQueue 2 ex_r5).1.

Definition ex_trace : list event := [EvCreated 1; EvCreated 2; EvAcquired 1; EvStarted 1; EvRemoved 2].

Lemma ex_process : coordinator_start None (w_scopes ex_world) ex_world = Some ex_r0.
Proof. reflexivity. Qed.

Lemma ex_sane : sane_db (w_db ex_world).
Proof. split; [intros id; by intros [? ?]|]. by vm_compute. Qed.

Lemma default_some {A} (d : A) (o : option A) : (if o then true else false) = true -> o = Some (default d o).
Proof. by destruct o. Qed.

Lemma ex_schedule_1_eq :
  ex_schedule_1 = ScheduleTest (ex_descriptor "t1" ["run_tasks"]%string) [] false false ex_r0.
Proof. reflexivity. Qed.

Lemma ex_step_1 : runner_step 1 ex_r0 [EvCreated 1] ex_r1.
Proof.
  assert (ex_schedule_1.2 = Ok 1) as Hr by (by vm_compute).
  apply (step_schedule 1 ex_r0 (ex_descriptor "t1" ["run_tasks"]%string) [] false false ex_r1 (Ok 1)); [done|].
  rewrite <- ex_schedule_1_eq, <- Hr. unfold ex_r1. apply surjective_pairing.
Qed.

Lemma ex_schedule_2_eq :
  ex_schedule_2 = ScheduleTest (ex_descriptor "t2" ["run_tasks"]%string) [] false false ex_r1.
Proof. reflexivity. Qed.

Lemma ex_step_2 : runner_step 1 ex_r1 [EvCreated 2] ex_r2.
Proof.
  assert (ex_schedule_2.2 = Ok 2) as Hr by (by vm_compute).
  apply (step_schedule 1 ex_r1 (ex_descriptor "t2" ["run_tasks"]%string) [] false false ex_r2 (Ok 2)); [by vm_compute|].
  rewrite <- ex_schedule_2_eq, <- Hr. unfold ex_r2. apply surjective_pairing.
Qed.

Lemma ex_step_3 : runner_step 1 ex_r2 [] ex_r3.
Proof. apply step_check, default_some. by vm_compute. Qed.

Lemma ex_step_4 : runner_step 1 ex_r3 [EvAcquired 1] ex_r4.
Proof. apply (step_acquire 1 ex_r3 1); [by vm_compute|]. apply default_some. by vm_compute. Qed.

Lemma ex_step_5 : runner_step 1 ex_r4 [EvStarted 1] ex_r5.
Proof.
  apply (step_begin 1 ex_r4 false 1 ex_r5 true).
  assert (snd <$> begin_run false 1 ex_r4 = Some true) as Hs by (by vm_compute).
  unfold ex_r5. destruct (begin_run false 1 ex_r4) as [[r st]|]; [|discriminate Hs]. simpl in *. congruence.
Qed.

Lemma ex_step_6 : runner_step 1 ex_r5 [EvRemoved 2] ex_r6.
Proof.
  apply (step_remove 1 ex_r5 2 ex_r6).
  assert ((RemoveTestFromQueue 2 ex_r5).2 = true) as Hs by (by vm_compute).
  rewrite <- Hs. unfold ex_r6. apply surjective_pairing.
Qed.

Lemma ex_steps_2 : runner_steps 1 ex_r0 [EvCreated 1; EvCreated 2] ex_r2.
Proof.
  apply (steps_snoc 1 ex_r0 [EvCreated 1] ex_r1 [EvCreated 2]); [|apply ex_step_2].
  apply (steps_snoc 1 ex_r0 [] ex_r0 [EvCreated 1]); [constructor|apply ex_step_1].
Qed.

Lemma ex_steps : runner_steps 1 ex_r0 ex_trace ex_r6.
Proof.
  apply (steps_snoc 1 ex_r0 [EvCreated 1; EvCreated 2; EvAcquired 1; EvStarted 1] ex_r5 [EvRemoved 2]); [|apply ex_step_6].
  apply (steps_snoc 1 ex_r0 [EvCreated 1; EvCreated 2; EvAcquired 1] ex_r4 [EvStarted 1]); [|apply ex_step_5].
  apply (steps_snoc 1 ex_r0 [EvCreated 1; EvCreated 2] ex_r3 [EvAcquired 1]); [|apply ex_step_4].
  apply (steps_snoc 1 ex_r0 [EvCreated 1; EvCreated 2] ex_r2 []); [apply ex_steps_2|apply ex_step_3].
Qed.

Lemma runner_runs_once_witness : NoDup (started_ids ex_trace) /\ 2 ∉ started_ids ex_trace.
Proof.
  destruct (runner_runs_once 1 (w_scopes ex_world) ex_world ex_r0 ex_trace ex_r6 ex_sane ex_process ex_steps)
    as (Hnd & _ & Hrem). split; [exact Hnd|]. apply Hrem. simpl. set_solver.
Defined.

Lemma queue_fifo_bounded_witness : Z.of_nat (size (slots ex_r6)) <= Z.max 1 1.
Proof.
  exact (proj2 (queue_fifo_bounded 1 (w_scopes ex_world) ex_world ex_r0 ex_trace ex_r6 ex_sane ex_process ex_steps)).
Defined.

Lemma run_ids_fresh_witness :
  exists r', ScheduleTest (ex_descriptor "t2" ["run_tasks"]%string) [] false false ex_r1 = (r', Ok 2) /\
    lastTestRunID None (w_db (rworld r')) = 2.
Proof.
  assert (ex_schedule_2.2 = Ok 2) as Hr by (by vm_compute).
  assert (ScheduleTest (ex_descriptor "t2" ["run_tasks"]%string) [] false false ex_r1 = (ex_r2, Ok 2)) as Hs
    by (rewrite <- ex_schedule_2_eq, <- Hr; unfold ex_r2; apply surjective_pairing).
  assert (runner_steps 1 ex_r0 [EvCreated 1] ex_r1) as Hst
    by (apply (steps_snoc 1 ex_r0 [] ex_r0 [EvCreated 1]); [constructor|apply ex_step_1]).
  exists ex_r2. split; [exact Hs|].
  destruct (run_ids_fresh 1 (w_scopes ex_world) ex_world ex_r0 [EvCreated 1] ex_r1 (ex_descriptor "t2" ["run_tasks"]%string)
    [] false false ex_r2 2 ex_sane ex_process Hst ltac:(by vm_compute) Hs) as (_ & _ & _ & Hl). exact Hl.
Defined.

(** The loop goes to sleep before the first test is scheduled. *)
Definition ex_w0 : TestRunner := default ex_r0 (loop_check ex_r0).
Definition ex_schedule_w : TestRunner * result Z := ScheduleTest (ex_descriptor "t1" ["run_tasks"]%string) [] false false ex_w0.
Definition ex_w1 : TestRunner := ex_schedule_w.1.

Lemma ex_schedule_w_eq :
  ex_schedule_w = ScheduleTest (ex_descriptor "t1" ["run_tasks"]%string) [] false false ex_w0.
Proof. reflexivity. Qed.

Lemma ex_steps_w : runner_steps 1 ex_r0 [EvCreated 1] ex_w1.
Proof.
  assert (ex_schedule_w.2 = Ok 1) as Hr by (by vm_compute).
  apply (steps_snoc 1 ex_r0 [] ex_w0 [EvCreated 1]).
  - apply (steps_snoc 1 ex_r0 [] ex_r0 []); [constructor|]. apply step_check, default_some. by vm_compute.
  - apply (step_schedule 1 ex_w0 (ex_descriptor "t1" ["run_tasks"]%string) [] false false ex_w1 (Ok 1)); [by vm_compute|].
    rewrite <- ex_schedule_w_eq, <- Hr. unfold ex_w1. apply surjective_pairing.
Qed.

Lemma queued_test_progress_witness :
  loop ex_w1 = LoopWait /\ notification ex_w1 = false /\
  exists n r', (n <= 4)%nat /\ prompt_steps 1 n ex_w1 [EvAcquired 1] r'.
Proof.
  split; [by vm_compute|]. split; [by vm_compute|].
  destruct (queued_test_progress 1 (w_scopes ex_world) ex_world ex_r0 [EvCreated 1] ex_w1 1 []
    ex_sane ex_process ex_steps_w) as (_ & Hp).
  - by vm_compute.
  - by vm_compute.
  - destruct Hp as (n & r' & H1 & H2 & _); [by vm_compute|]. exists n, r'. split; [exact H1|exact H2].
Defined.

Lemma ex_duplicate : queued_duplicate (ex_descriptor "t1" ["run_tasks"]%string) ex_r1.
Proof.
  assert (option_map TestID (tests ex_r1 !! 1) = Some "t1"%string) as Hm by (by vm_compute).
  assert (testQueue ex_r1 = [1]) as Hq by (by vm_compute).
  destruct (tests ex_r1 !! 1) as [t|] eqn:Ht; [|discriminate Hm].
  exists 1, t. rewrite Hq. split; [constructor|]. split; [exact Ht|]. injection Hm as Hm. exact Hm.
Qed.

Lemma createTestRun_spec_witness :
  exists r', createTestRun (ex_descriptor "t1" ["run_tasks"]%string) [] false false ex_r1 = (r', Err "test already in queue"%string).
Proof.
  assert (is_u64 (runIDCounter ex_r1)) as H1 by (by vm_compute).
  assert (runIDCounter ex_r1 <> MaxUint64) as H2 by (by vm_compute).
  destruct (createTestRun (ex_descriptor "t1" ["run_tasks"]%string) [] false false ex_r1) as [r' res] eqn:Hc.
  exists r'.
  destruct (createTestRun_spec (ex_descriptor "t1" ["run_tasks"]%string) [] false false ex_r1 r' res H1 H2 Hc)
    as [(_ & _ & _ & Hr)|[Hn _]]; [rewrite Hr; reflexivity|].
  exfalso. apply Hn. split; [reflexivity|exact ex_duplicate].
Defined.

(** "*" is every minute; nothing else parses. *)
#[local] Instance ex_cron : CronLibrary :=
  {| cron_expr := unit; cron_Parse := fun s => if String.eqb s "*" then Ok tt else Err "syntax"%string;
     cron_Next := fun _ t => (t / 60 + 1) * 60 |}.

Definition ex_cron_test : Descriptor :=
  mkDescriptor "c" "local-2" (mkTestCfg "c" "c" 0 ∅ ∅ [] [] (Some (mkTestSchedule false ["*"%string] false))) (Ref 0) None.

Lemma getCronTests_selects_witness : ex_cron_test ∈ getCronTests [ex_cron_test] 120.
Proof.
  apply (getCronTests_selects (fun _ t => t mod 60 = 0) [ex_cron_test] 120); simpl.
  - intros e t _. Z.div_mod_to_equations. lia.
  - intros e t s Hts Hs. Z.div_mod_to_equations. lia.
  - split; [set_solver|]. split; [reflexivity|]. exists (mkTestSchedule false ["*"%string] false), [], "*"%string, tt, [].
    split; [reflexivity|]. split; [reflexivity|]. split; [set_solver|]. split; reflexivity.
Defined.
End ex_runner.
