(* ===== verification/Logger.v ===== *)
(** * Task logs

    logger/membuf.go, logger/dbwriter.go, logger/dbreader.go and
    logger/logscope.go: a log scope keeps the entries of a task (or of the
    coordinator) either in a ring buffer or in the database behind a write
    buffer.  Forwarding to the parent logger is logrus' and not modelled. *)

From S2P Require Import Prelude Vars Db Scheduler.

Open Scope Z_scope.

Section logger.
Context `{lib : Library}.

(** A logrus entry; [le_fields] is [None] when it has no data. *)
Record log_entry := mkLogEntry { le_time : Z; le_level : Z; le_message : string; le_fields : option value }.

Record ScopeOptions := mkScopeOptions { BufferSize : Z; TestRunID : Z; LogTask : Z }.

(** Lines 33-40 of [NewLogger]. *)
Definition default_options (o : ScopeOptions) : ScopeOptions :=
  mkScopeOptions (if BufferSize o =? 0 then 100 else BufferSize o) (TestRunID o) (LogTask o).

(** The row of an entry; fields that cannot be encoded are left out. *)
Definition task_log (o : ScopeOptions) (logIdx : Z) (e : log_entry) : TaskLog :=
  mkTaskLog (TestRunID o) (LogTask o) logIdx (le_time e) (u32 (le_level e))
    (match le_fields e with
     | None => ""
     | Some v => match lib_yaml_Marshal v with Ok s => s | Err _ => "" end
     end)%string (le_message e).

(** ** The ring buffer *)

Record logMemBuffer := mkMemBuffer { mem_bufIdx : Z; mem_buf : list TaskLog; mem_lastIdx : Z }.

Definition newLogMemBuffer : logMemBuffer := mkMemBuffer 0 [] 0.

Definition mem_Fire (o : ScopeOptions) (e : log_entry) (b : logMemBuffer) : logMemBuffer :=
  let logIdx := mem_lastIdx b +u 1 in
  let log := task_log o logIdx e in
  mkMemBuffer (mem_bufIdx b +u 1)
    (if BufferSize o <=? mem_bufIdx b
     then <[Z.to_nat (mem_bufIdx b mod BufferSize o) := log]> (mem_buf b)
     else mem_buf b ++ [log])
    logIdx.

(** Go's [l[:limit]] when there are more, all for a limit of zero. *)
Definition limit_entries {A} (limit : Z) (l : list A) : list A :=
  if (limit =? 0) || (Z.of_nat (length l) <=? limit) then l else take (Z.to_nat limit) l.

Definition mem_GetLogEntries (o : ScopeOptions) (from limit : Z) (b : logMemBuffer) : list TaskLog :=
  let entries :=
    if BufferSize o <=? mem_bufIdx b then
      let firstIdx := Z.to_nat (mem_bufIdx b mod BufferSize o) in
      drop firstIdx (mem_buf b) ++ take firstIdx (mem_buf b)
    else mem_buf b in
  match entries with
  | [] => []
  | e0 :: _ =>
      if LogIndex e0 <? from then
        let indexDiff := from -u LogIndex e0 in
        if Z.of_nat (length entries) <=? indexDiff then []
        else limit_entries limit (drop (Z.to_nat indexDiff) entries)
      else limit_entries limit entries
  end.

(** ** The database writer *)

(** [chan]: the flushing channel, [Some closed] when there is one. *)
Record logDBWriter := mkDBWriter {
  lastIdx : Z; flushIdx : Z; bufIdx : Z; buf : list TaskLog; flushing : bool; chan : option bool }.

Definition newLogDBWriter : logDBWriter := mkDBWriter 0 0 0 [] false None.

(** How a call ends: it may close a closed channel, or wait for a mutex that
    its own goroutine holds. *)
Inductive call (A : Type) := Done (a : A) | Panics | Deadlocks.
Arguments Done {A} _.
Arguments Panics {A}.
Arguments Deadlocks {A}.

Definition insert_logs (logs : list TaskLog) (db : Database) : result Database :=
  fold_left (fun db log => let! db := db in InsertTaskLog log db) logs (Ok db).

(** [flushDelayed]: the goroutine is started unless one is running. *)
Definition flushDelayed (w : logDBWriter) : logDBWriter :=
  if flushing w then w else mkDBWriter (lastIdx w) (flushIdx w) (bufIdx w) (buf w) true (Some false).

(** [Fire] after its flush. *)
Definition append_entry (o : ScopeOptions) (e : log_entry) (w : logDBWriter) : logDBWriter :=
  let logIdx := lastIdx w +u 1 in
  flushDelayed (mkDBWriter logIdx (flushIdx w) (bufIdx w +u 1) (buf w ++ [task_log o logIdx e]) (flushing w) (chan w)).

Definition flush_error_entry (now : Z) (e : error) : log_entry :=
  mkLogEntry now 2 ("failed to write log entries to db: " ++ e)%string None.

(** [flushToDB]; [locked] says whether the caller holds the buffer's mutex.
    A failure is logged to the scope itself: [Fire] then needs that mutex,
    and with a full buffer the flush mutex, which this call holds. *)
Definition flushToDB (o : ScopeOptions) (locked : bool) (env : engine_outcome) (now : Z) (w : logDBWriter)
    (db : Database) : call (logDBWriter * Database) :=
  match chan w with
  | Some true => Panics
  | c =>
      let w := mkDBWriter (lastIdx w) (flushIdx w) (bufIdx w) (buf w) (flushing w)
                 (match c with Some _ => Some true | None => None end) in
      match buf w with
      | [] => Done (w, db)
      | _ =>
          let '(db, err) := RunTransaction env (insert_logs (buf w)) db in
          match err with
          | Some e =>
              if locked || (BufferSize o <=? bufIdx w) then Deadlocks
              else Done (append_entry o (flush_error_entry now e) w, db)
          | None => Done (mkDBWriter (lastIdx w) (lastIdx w) 0 [] (flushing w) (chan w), db)
          end
      end
  end.

(** [Fire]; [env] is used when the buffer is full. *)
Definition Fire (o : ScopeOptions) (env : engine_outcome) (e : log_entry) (w : logDBWriter) (db : Database)
    : call (logDBWriter * Database) :=
  if BufferSize o <=? bufIdx w then
    match flushToDB o true env (le_time e) w db with
    | Done (w, db) => Done (append_entry o e w, db)
    | Panics => Panics
    | Deadlocks => Deadlocks
    end
  else Done (append_entry o e w, db).

(** [LogScope.Flush] *)
Definition Flush (o : ScopeOptions) (env : engine_outcome) (now : Z) (w : logDBWriter) (db : Database)
    : call (logDBWriter * Database) := flushToDB o false env now w db.

(** The goroutine of [flushDelayed]: cancelled by a flush, or its timer ran
    out; [None] while neither holds. *)
Definition flusher_cancelled (w : logDBWriter) : option logDBWriter :=
  match flushing w, chan w with
  | true, Some true => Some (mkDBWriter (lastIdx w) (flushIdx w) (bufIdx w) (buf w) false None)
  | _, _ => None
  end.

Definition flusher_timeout (o : ScopeOptions) (env : engine_outcome) (now : Z) (w : logDBWriter) (db : Database)
    : call (logDBWriter * Database) :=
  match flushToDB o true env now (mkDBWriter (lastIdx w) (flushIdx w) (bufIdx w) (buf w) (flushing w) None) db with
  | Done (w, db) => Done (mkDBWriter (lastIdx w) (flushIdx w) (bufIdx w) (buf w) false (chan w), db)
  | r => r
  end.

(** [GetLogEntries] of the writer, with the database as it is when it is
    read; [None] is the panic of slicing beyond the end. *)
Definition GetLogEntries (o : ScopeOptions) (from limit : Z) (w : logDBWriter) (db : Database)
    : option (list TaskLog) :=
  let bufEntries := take (Z.to_nat (bufIdx w)) (buf w) in
  let dbEntries := GetTaskLogs (TestRunID o) (LogTask o) from limit db in
  match bufEntries with
  | [] => Some dbEntries
  | b :: _ =>
      let firstIdx := LogIndex b in
      if from <? firstIdx then
        if Z.of_nat (length bufEntries) <=? firstIdx - from then Some []
        else Some (limit_entries limit (drop (Z.to_nat (firstIdx - from)) bufEntries))
      else if from =? firstIdx then Some (limit_entries limit bufEntries)
      else if Z.of_nat (length dbEntries) =? limit then Some dbEntries
      else
        let overlap := match last dbEntries with
                       | Some d => if firstIdx <=? LogIndex d then LogIndex d - firstIdx + 1 else 0
                       | None => 0
                       end in
        if Z.of_nat (length bufEntries) <? overlap then None
        else
          let dbEntries := dbEntries ++ drop (Z.to_nat overlap) bufEntries in
          Some (if limit <? Z.of_nat (length dbEntries) then take (Z.to_nat limit) dbEntries else dbEntries)
  end.

(** [logDBReader]: the count is read once. *)
Definition reader_GetLogEntryCount (o : ScopeOptions) (cached : option Z) (db : Database) : option Z * Z :=
  match cached with
  | Some n => (Some n, n)
  | None => let n := GetLastLogIndex (TestRunID o) (LogTask o) db in (Some n, n)
  end.
End logger.

Arguments Done {A} _.
Arguments Panics {A}.
Arguments Deadlocks {A}.

(** ** The ring buffer keeps the newest entries *)

(** The log of a scope: the entries in order, indexes counting from one. *)
Definition scope_log `{lib : Library} (o : ScopeOptions) (es : list log_entry) : list TaskLog :=
  imap (fun i e => task_log o (Z.of_nat i + 1) e) es.

(** What a reader asks for: the entries from an index on, up to a limit. *)
Definition log_page (logs : list TaskLog) (from limit : Z) : list TaskLog :=
  limit_entries limit (filterb (fun l => from <=? LogIndex l) logs).

Section ring.
Context `{lib : Library}.
Variable o : ScopeOptions.

Lemma scope_log_length es : length (scope_log o es) = length es.
Proof. apply length_imap. Qed.

Lemma scope_log_lookup es i l :
  scope_log o es !! i = Some l -> LogIndex l = Z.of_nat i + 1 /\ LogRunID l = TestRunID o /\ LogTaskID l = LogTask o.
Proof. unfold scope_log. rewrite list_lookup_imap. by destruct (es !! i) as [e|]; intros [= <-]. Qed.

Lemma scope_log_snoc es e :
  scope_log o (es ++ [e]) = scope_log o es ++ [task_log o (Z.of_nat (length es) + 1) e].
Proof. unfold scope_log. rewrite imap_app. simpl. by rewrite Nat.add_0_r. Qed.

(** Entries from an index on are a suffix. *)
Lemma filter_from_drop (logs : list TaskLog) first from :
  (forall i l, logs !! i = Some l -> LogIndex l = first + Z.of_nat i) ->
  filterb (fun l => from <=? LogIndex l) logs = drop (Z.to_nat (from - first)) logs.
Proof.
  revert first. induction logs as [|l logs IH]; intros first Hidx; [by rewrite drop_nil|].
  rewrite filterb_cons. pose proof (Hidx 0%nat l eq_refl) as Hl. rewrite Z.add_0_r in Hl. rewrite Hl.
  assert (forall i l', logs !! i = Some l' -> LogIndex l' = first + 1 + Z.of_nat i) as Hidx'.
  { intros i l' Hi. rewrite (Hidx (S i) l' Hi). lia. }
  rewrite (IH (first + 1) Hidx').
  destruct (Z.leb_spec from first) as [Hle|Hgt].
  - replace (Z.to_nat (from - first)) with 0%nat by lia. by replace (Z.to_nat (from - (first + 1))) with 0%nat by lia.
  - by replace (Z.to_nat (from - first)) with (S (Z.to_nat (from - (first + 1)))) by lia.
Qed.

Lemma mod_window_ne b n i : 0 < b -> 0 < n - i < b -> i mod b <> n mod b.
Proof.
  intros Hb Hni Heq. pose proof (Z.div_mod i b ltac:(lia)). pose proof (Z.div_mod n b ltac:(lia)).
  assert (n - i = b * (n / b - i / b)) as Hd by lia.
  assert (n / b - i / b <= 0 \/ 1 <= n / b - i / b) as [?|?] by lia; nia.
Qed.

(** [b] holds the log of [es]. *)
Record ring_of (es : list log_entry) (b : logMemBuffer) : Prop := {
  ring_idx : mem_bufIdx b = Z.of_nat (length es) /\ mem_lastIdx b = Z.of_nat (length es);
  ring_small : Z.of_nat (length es) <= BufferSize o -> mem_buf b = scope_log o es;
  ring_full : BufferSize o <= Z.of_nat (length es) -> length (mem_buf b) = Z.to_nat (BufferSize o);
  ring_at : forall i, Z.of_nat (length es) - BufferSize o <= i < Z.of_nat (length es) -> 0 <= i ->
    mem_buf b !! Z.to_nat (i mod BufferSize o) = scope_log o es !! Z.to_nat i
}.

Lemma ring_Fire es e b :
  0 < BufferSize o -> Z.of_nat (length es) + 1 < two64 -> ring_of es b -> ring_of (es ++ [e]) (mem_Fire o e b).
Proof.
  intros Hs Hlt [[Hi Hl] Hsmall Hfull Hat]. unfold mem_Fire. rewrite Hi, Hl.
  rewrite u64_id by go_lia. set (n := Z.of_nat (length es)) in *.
  assert (Z.of_nat (length (es ++ [e])) = n + 1) as Hlen by (rewrite length_app; simpl; lia).
  set (new := task_log o (n + 1) e).
  assert (scope_log o (es ++ [e]) = scope_log o es ++ [new]) as Hlog by apply scope_log_snoc.
  assert (scope_log o (es ++ [e]) !! length es = Some new) as Hnew.
  { rewrite Hlog, lookup_app_r by (by rewrite scope_log_length). by rewrite scope_log_length, Nat.sub_diag. }
  destruct (Z.leb_spec (BufferSize o) n) as [Hge|Hltn].
  - split; simpl; rewrite ?Hlen; [done| | |].
    + lia.
    + intros _. rewrite length_insert. by apply Hfull.
    + intros i Hi' Hi0.
      assert (0 <= n mod BufferSize o < BufferSize o) as Hm by (by apply Z.mod_pos_bound).
      destruct (decide (i = n)) as [->|Hne].
      * rewrite list_lookup_insert_eq by (rewrite Hfull by done; lia).
        rewrite <- Hnew. f_equal. lia.
      * assert (i mod BufferSize o <> n mod BufferSize o) as Hneq.
        { apply mod_window_ne; lia. }
        assert (0 <= i mod BufferSize o) by (by apply Z.mod_pos_bound).
        rewrite list_lookup_insert_ne by lia. rewrite Hat by lia. rewrite Hlog, lookup_app_l; [done|].
        rewrite scope_log_length. lia.
  - assert (mem_buf b = scope_log o es) as Hb by (apply Hsmall; lia).
    split; simpl; rewrite ?Hlen; [done| | |].
    + intros _. by rewrite Hlog, Hb.
    + intros Hge. rewrite Hb, length_app, scope_log_length. simpl. lia.
    + intros i Hi' Hi0. rewrite Hb, <- Hlog. f_equal. rewrite Z.mod_small by lia. done.
Qed.

Lemma ring_new : 0 < BufferSize o -> ring_of [] newLogMemBuffer.
Proof. intros Hs. split; simpl; try done; try lia. Qed.

Lemma ring_entries es b :
  0 < BufferSize o -> ring_of es b ->
  (let entries :=
     if BufferSize o <=? mem_bufIdx b then
       let firstIdx := Z.to_nat (mem_bufIdx b mod BufferSize o) in
       drop firstIdx (mem_buf b) ++ take firstIdx (mem_buf b)
     else mem_buf b in entries) = drop (length es - Z.to_nat (BufferSize o)) (scope_log o es).
Proof.
  intros Hs [[Hi _] Hsmall Hfull Hat]. rewrite Hi. set (n := Z.of_nat (length es)) in *.
  destruct (Z.leb_spec (BufferSize o) n) as [Hge|Hlt].
  - assert (0 <= n mod BufferSize o < BufferSize o) as Hm by (by apply Z.mod_pos_bound).
    specialize (Hfull Hge). apply list_eq. intros j. rewrite lookup_drop.
    destruct (decide (j < Z.to_nat (BufferSize o))%nat) as [Hj|Hj].
    + specialize (Hat (n - BufferSize o + Z.of_nat j) ltac:(lia) ltac:(lia)).
      assert (Z.to_nat (n - BufferSize o + Z.of_nat j) = (length es - Z.to_nat (BufferSize o) + j)%nat) as Hidx by lia.
      rewrite Hidx in Hat. rewrite <- Hat. clear Hat.
      assert ((n - BufferSize o + Z.of_nat j) mod BufferSize o =
        if Z.of_nat j <? BufferSize o - n mod BufferSize o then n mod BufferSize o + Z.of_nat j
        else n mod BufferSize o + Z.of_nat j - BufferSize o) as Hmod.
      { destruct (Z.ltb_spec (Z.of_nat j) (BufferSize o - n mod BufferSize o)).
        - symmetry. apply (Z.mod_unique_pos _ _ (n / BufferSize o - 1)); [lia|]. pose proof (Z.div_mod n (BufferSize o) ltac:(lia)). lia.
        - symmetry. apply (Z.mod_unique_pos _ _ (n / BufferSize o)); [lia|]. pose proof (Z.div_mod n (BufferSize o) ltac:(lia)). lia. }
      rewrite Hmod. destruct (Z.ltb_spec (Z.of_nat j) (BufferSize o - n mod BufferSize o)).
      * rewrite lookup_app_l by (rewrite length_drop; lia). rewrite lookup_drop. f_equal. lia.
      * rewrite lookup_app_r by (rewrite length_drop; lia). rewrite length_drop, lookup_take_lt by lia. f_equal. lia.
    + rewrite lookup_ge_None_2, lookup_ge_None_2; [done| |].
      * rewrite scope_log_length. lia.
      * rewrite length_app, length_drop, length_take. lia.
  - rewrite Hsmall by lia. by replace (length es - Z.to_nat (BufferSize o))%nat with 0%nat by lia.
Qed.
End ring.

(** The ring buffer is a bounded log: after any entries, a reader gets
    exactly the entries it asks for (from an index on, up to a limit, all of
    them for limit zero) among the newest [BufferSize] ones, in order. *)
Theorem mem_GetLogEntries_window `{lib : Library} o es from limit :
  0 < BufferSize o -> Z.of_nat (length es) < two64 -> is_u64 from ->
  mem_GetLogEntries o from limit (fold_left (fun b e => mem_Fire o e b) es newLogMemBuffer) =
    log_page (drop (length es - Z.to_nat (BufferSize o)) (scope_log o es)) from limit.
Proof.
  intros Hs Hlen Hfrom.
  assert (ring_of o es (fold_left (fun b e => mem_Fire o e b) es newLogMemBuffer)) as Hring.
  { revert Hlen. induction es as [|e es IH] using rev_ind; intros Hlen; [by apply ring_new|].
    rewrite length_app in Hlen. simpl in Hlen. rewrite fold_left_app. simpl. apply ring_Fire; [done|lia|].
    apply IH. lia. }
  pose proof (ring_entries o es _ Hs Hring) as Hentries. cbv zeta in Hentries.
  unfold mem_GetLogEntries. rewrite Hentries. clear Hentries Hring.
  set (k := (length es - Z.to_nat (BufferSize o))%nat). set (entries := drop k (scope_log o es)).
  assert (forall i l, entries !! i = Some l -> LogIndex l = Z.of_nat k + 1 + Z.of_nat i) as Hidx.
  { intros i l Hi. unfold entries in Hi. rewrite lookup_drop in Hi. destruct (scope_log_lookup _ _ _ _ Hi) as (-> & _). lia. }
  assert (length entries = (length es - k)%nat) as Hel by (unfold entries; by rewrite length_drop, scope_log_length).
  unfold log_page. rewrite (filter_from_drop entries _ from Hidx).
  clearbody entries. destruct entries as [|e0 entries'].
  { rewrite drop_nil. unfold limit_entries. destruct (_ || _); [done|by rewrite take_nil]. }
  pose proof (Hidx 0%nat e0 eq_refl) as H0. rewrite Z.add_0_r in H0. rewrite H0.
  set (entries := e0 :: entries') in *. assert (0 < length entries)%nat by (simpl; lia).
  destruct (Z.ltb_spec (Z.of_nat k + 1) from) as [Hlt|Hge].
  - rewrite u64_id by (unfold is_u64 in *; lia).
    destruct (Z.leb_spec (Z.of_nat (length entries)) (from - (Z.of_nat k + 1))); [|done].
    rewrite drop_ge by lia. unfold limit_entries. simpl. by destruct (_ || _); rewrite ?take_nil.
  - by replace (Z.to_nat (from - (Z.of_nat k + 1))) with 0%nat by lia.
Qed.

(** ** The writer is an append-only log *)

Section writer.
Context `{lib : Library}.
Variable o : ScopeOptions.

(** The rows of this scope are the first [k] entries. *)
Definition rows_are (k : nat) (logs : list TaskLog) (db : Database) : Prop :=
  forall idx, task_logs db !! (TestRunID o, LogTask o, idx) =
    if (1 <=? idx) && (idx <=? Z.of_nat k) then logs !! Z.to_nat (idx - 1) else None.

(** The persisted part and the buffer make up the whole log. *)
Record writer_inv (es : list log_entry) (w : logDBWriter) (db : Database) : Prop := {
  wi_last : lastIdx w = Z.of_nat (length es);
  wi_bufIdx : bufIdx w = Z.of_nat (length (buf w));
  wi_flushed : exists k, (k <= length es)%nat /\ flushIdx w = Z.of_nat k /\ buf w = drop k (scope_log o es) /\
    rows_are k (scope_log o es) db;
  wi_wf : map_Forall (fun key r => (LogRunID r, LogTaskID r, LogIndex r) = key) (task_logs db)
}.

Lemma writer_inv_flags es w db f c :
  writer_inv es w db -> writer_inv es (mkDBWriter (lastIdx w) (flushIdx w) (bufIdx w) (buf w) f c) db.
Proof. intros []. by split. Qed.

Lemma insert_logs_Ok logs db : exists db', insert_logs logs db = Ok db'.
Proof.
  unfold insert_logs. revert db. induction logs as [|l logs IH]; intros db; simpl; [by eexists|]. apply IH.
Qed.

Lemma insert_logs_lookup logs db db' key :
  insert_logs logs db = Ok db' ->
  NoDup ((fun l => (LogRunID l, LogTaskID l, LogIndex l)) <$> logs) ->
  (forall l, l ∈ logs -> (LogRunID l, LogTaskID l, LogIndex l) = key -> task_logs db' !! key = Some l) /\
  ((forall l, l ∈ logs -> (LogRunID l, LogTaskID l, LogIndex l) <> key) -> task_logs db' !! key = task_logs db !! key).
Proof.
  unfold insert_logs. revert db. induction logs as [|l logs IH]; intros db; simpl.
  - intros [= <-] _. split; [set_solver|done].
  - intros Hf [Hl Hnd]%NoDup_cons.
    set (db1 := match InsertTaskLog l db with Ok d => d | Err _ => db end).
    change (InsertTaskLog l db) with (Ok db1) in Hf.
    destruct (IH db1 Hf Hnd) as [H1 H2]. split.
    + intros l' [->|Hin]%elem_of_cons Hk; [|by apply H1]. rewrite H2; [simpl; by rewrite Hk, lookup_insert_eq|].
      intros l0 Hin0 Hk0. apply Hl. rewrite Hk, <- Hk0. by apply (list_elem_of_fmap_2 (fun l => (LogRunID l, LogTaskID l, LogIndex l))).
    + intros Hne. rewrite H2 by set_solver. simpl. apply lookup_insert_ne. apply Hne. set_solver.
Qed.

Lemma scope_log_keys es k :
  NoDup ((fun l => (LogRunID l, LogTaskID l, LogIndex l)) <$> drop k (scope_log o es)).
Proof.
  apply NoDup_fmap_2_strong; [|].
  - intros l1 l2 [i Hi]%list_elem_of_lookup [j Hj]%list_elem_of_lookup [= _ _ Heq].
    rewrite lookup_drop in Hi, Hj. destruct (scope_log_lookup _ _ _ _ Hi) as (H1 & _).
    destruct (scope_log_lookup _ _ _ _ Hj) as (H2 & _). assert (i = j) as -> by lia. congruence.
  - apply NoDup_alt. intros i j l Hi Hj. rewrite lookup_drop in Hi, Hj.
    destruct (scope_log_lookup _ _ _ _ Hi) as (H1 & _). destruct (scope_log_lookup _ _ _ _ Hj) as (H2 & _). lia.
Qed.

Lemma task_log_wf_insert logs db db' :
  insert_logs logs db = Ok db' ->
  map_Forall (fun key r => (LogRunID r, LogTaskID r, LogIndex r) = key) (task_logs db) ->
  map_Forall (fun key r => (LogRunID r, LogTaskID r, LogIndex r) = key) (task_logs db').
Proof.
  unfold insert_logs. revert db. induction logs as [|l logs IH]; intros db; simpl; [by intros [= <-]|].
  intros Hf Hwf. apply (IH _ Hf). simpl. by apply map_Forall_insert_2.
Qed.

(** Writing the buffer makes the whole log persistent. *)
Lemma flush_rows es w db db' :
  writer_inv es w db -> insert_logs (buf w) db = Ok db' -> rows_are (length es) (scope_log o es) db'.
Proof.
  intros [_ _ (k & Hk & _ & Hb & Hrows) _] Hins idx. rewrite Hb in Hins.
  destruct (insert_logs_lookup _ _ _ (TestRunID o, LogTask o, idx) Hins (scope_log_keys es k)) as [Hin Hout].
  destruct ((1 <=? idx) && (idx <=? Z.of_nat (length es))) eqn:Hrange.
  - assert (1 <= idx <= Z.of_nat (length es)) as Hr by lia.
    destruct (lookup_lt_is_Some_2 (scope_log o es) (Z.to_nat (idx - 1))) as [l Hl]; [rewrite scope_log_length; lia|].
    destruct (scope_log_lookup _ _ _ _ Hl) as (Hi & Hrun & Htask). rewrite Hl.
    destruct (decide (Z.of_nat k < idx)) as [Hgt|Hle].
    + apply Hin; [|f_equal; [f_equal|]; [done|done|lia]]. apply list_elem_of_lookup. exists (Z.to_nat (idx - 1) - k)%nat.
      rewrite lookup_drop. rewrite <- Hl. f_equal. lia.
    + rewrite Hout, Hrows.
      * assert ((1 <=? idx) && (idx <=? Z.of_nat k) = true) as -> by lia. done.
      * intros l' [j Hj]%list_elem_of_lookup [= _ _ Heq]. rewrite lookup_drop in Hj.
        destruct (scope_log_lookup _ _ _ _ Hj) as (? & _). lia.
  - rewrite Hout, Hrows.
    + destruct ((1 <=? idx) && (idx <=? Z.of_nat k)) eqn:?; [lia|done].
    + intros l' [j Hj]%list_elem_of_lookup [= _ _ Heq]. rewrite lookup_drop in Hj.
      assert (k + j < length (scope_log o es))%nat as Hlt by (by apply lookup_lt_Some in Hj).
      rewrite scope_log_length in Hlt. destruct (scope_log_lookup _ _ _ _ Hj) as (? & _). lia.
Qed.

Lemma append_inv es e w db :
  Z.of_nat (length es) + 1 < two64 -> writer_inv es w db -> writer_inv (es ++ [e]) (append_entry o e w) db.
Proof.
  intros Hlt [Hl Hb (k & Hk & Hf & Hbuf & Hrows) Hwf].
  assert (length (buf w) <= length es)%nat as Hble by (rewrite Hbuf, length_drop, scope_log_length; lia).
  assert (writer_inv (es ++ [e]) (mkDBWriter (lastIdx w +u 1) (flushIdx w) (bufIdx w +u 1)
    (buf w ++ [task_log o (lastIdx w +u 1) e]) (flushing w) (chan w)) db) as Hinv.
  { rewrite Hl, Hb, !u64_id by go_lia. split; simpl; rewrite ?length_app; simpl; try lia; try done.
    exists k. split; [lia|]. split; [done|]. rewrite scope_log_snoc, drop_app_le by (rewrite scope_log_length; lia).
    split; [by rewrite Hbuf|]. intros idx. rewrite Hrows. destruct ((1 <=? idx) && (idx <=? Z.of_nat k)) eqn:Hr; [|done].
    rewrite lookup_app_l; [done|]. rewrite scope_log_length. lia. }
  unfold append_entry, flushDelayed. simpl. destruct (flushing w); [exact Hinv|].
  apply (writer_inv_flags _ _ _ true (Some false) Hinv).
Qed.

(** The failure of a flush, and what it logs. *)
Definition flush_error (env : engine_outcome) (w : logDBWriter) (db : Database) : option error :=
  match buf w with [] => None | _ => (RunTransaction env (insert_logs (buf w)) db).2 end.

Definition flush_logs (env : engine_outcome) (now : Z) (w : logDBWriter) (db : Database) : list log_entry :=
  match flush_error env w db with Some e => [flush_error_entry now e] | None => [] end.

Lemma flush_inv es locked env now w db w' db' :
  Z.of_nat (length es) + 1 < two64 -> flushToDB o locked env now w db = Done (w', db') -> writer_inv es w db ->
  writer_inv (es ++ flush_logs env now w db) w' db' /\ (locked = true -> flush_logs env now w db = []) /\
  (flush_logs env now w db = [] -> buf w' = []).
Proof.
  intros Hlt. unfold flushToDB, flush_logs, flush_error. intros Hf Hinv.
  set (w1 := mkDBWriter (lastIdx w) (flushIdx w) (bufIdx w) (buf w) (flushing w)
    (match chan w with Some _ => Some true | None => None end)) in *.
  assert (writer_inv es w1 db) as Hinv1 by (by apply writer_inv_flags).
  assert (match buf w with
      | [] => Done (w1, db)
      | _ => let '(db, err) := RunTransaction env (insert_logs (buf w)) db in
          match err with
          | Some e => if locked || (BufferSize o <=? bufIdx w) then Deadlocks
                      else Done (append_entry o (flush_error_entry now e) w1, db)
          | None => Done (mkDBWriter (lastIdx w) (lastIdx w) 0 [] (flushing w) (chan w1), db)
          end
      end = Done (w', db')) as Hf' by (unfold w1; destruct (chan w) as [[|]|]; [done|exact Hf|exact Hf]).
  clear Hf. destruct (buf w) as [|l0 ls] eqn:Hbuf.
  { injection Hf' as <- <-. rewrite app_nil_r. split; [done|]. split; [done|]. by unfold w1. }
  rewrite <- Hbuf in Hf' |- *. destruct (insert_logs_Ok (buf w) db) as [db1 Hins].
  destruct (RunTransaction_cases env (insert_logs (buf w)) db) as [[Herr Hok]|[Hsame [e Herr]]];
    destruct (RunTransaction env (insert_logs (buf w)) db) as [db2 err]; simpl in *; subst err.
  - injection Hf' as <- <-. rewrite app_nil_r. split; [|done]. destruct Hinv as [Hl Hb Hfl Hwf].
    split; simpl; try done.
    + exists (length es). split; [done|]. split; [done|]. split; [by rewrite drop_ge by (by rewrite scope_log_length)|].
      apply (flush_rows es w db); [by split|done].
    + by eapply task_log_wf_insert.
  - destruct (locked || _) eqn:Hd; [done|]. injection Hf' as <- <-. subst db2.
    apply orb_false_iff in Hd as [-> _]. split; [by apply append_inv|]. done.
Qed.

(** One step of a scope: what it logged, and the writer and database after it;
    other users of the database leave the rows of this scope alone. *)
Inductive writer_step (w : logDBWriter) (db : Database) : list log_entry -> logDBWriter -> Database -> Prop :=
  | wstep_Fire env e w' db' : Fire o env e w db = Done (w', db') -> writer_step w db [e] w' db'
  | wstep_Flush env now w' db' :
      Flush o env now w db = Done (w', db') -> writer_step w db (flush_logs env now w db) w' db'
  | wstep_cancelled w' : flusher_cancelled w = Some w' -> writer_step w db [] w' db
  | wstep_timeout env now w' db' : flusher_timeout o env now w db = Done (w', db') -> writer_step w db [] w' db'
  | wstep_other db' :
      (forall idx, task_logs db' !! (TestRunID o, LogTask o, idx) = task_logs db !! (TestRunID o, LogTask o, idx)) ->
      map_Forall (fun key r => (LogRunID r, LogTaskID r, LogIndex r) = key) (task_logs db') ->
      writer_step w db [] w db'.

Inductive writer_steps : logDBWriter -> Database -> list log_entry -> logDBWriter -> Database -> Prop :=
  | wsteps_refl w db : writer_steps w db [] w db
  | wsteps_snoc w db es w1 db1 es' w2 db2 :
      writer_steps w db es w1 db1 -> writer_step w1 db1 es' w2 db2 -> writer_steps w db (es ++ es') w2 db2.

Lemma flush_logs_length env now w db : (length (flush_logs env now w db) <= 1)%nat.
Proof. unfold flush_logs. destruct (flush_error _ _ _); simpl; lia. Qed.

Lemma writer_step_inv es w db es' w' db' :
  Z.of_nat (length (es ++ es')) + 1 < two64 -> writer_step w db es' w' db' -> writer_inv es w db ->
  writer_inv (es ++ es') w' db'.
Proof.
  rewrite length_app. intros Hlt Hstep Hinv. destruct Hstep as [env e w' db' Hf|env now w' db' Hf|w' Hf|env now w' db' Hf|db' Hrows Hwf].
  - unfold Fire in Hf. simpl in Hlt. destruct (BufferSize o <=? bufIdx w).
    + destruct (flushToDB o true env (le_time e) w db) as [[w1 db1]| |] eqn:Hfl; [|done..]. injection Hf as <- <-.
      destruct (flush_inv es true env (le_time e) w db w1 db1 ltac:(lia) Hfl Hinv) as (Hinv1 & Hno & _).
      rewrite (Hno eq_refl), app_nil_r in Hinv1. apply append_inv; [lia|done].
    + injection Hf as <- <-. apply append_inv; [lia|done].
  - apply (flush_inv es false env now w db w' db'); [lia|exact Hf|done].
  - rewrite app_nil_r. unfold flusher_cancelled in Hf. destruct (flushing w); [|done]. destruct (chan w) as [[|]|]; [|done..].
    injection Hf as <-. by apply writer_inv_flags.
  - rewrite app_nil_r. unfold flusher_timeout in Hf. simpl in Hlt.
    set (w0 := mkDBWriter (lastIdx w) (flushIdx w) (bufIdx w) (buf w) (flushing w) None) in *.
    destruct (flushToDB o true env now w0 db) as [[w1 db1]| |] eqn:Hfl; [|done..]. injection Hf as <- <-.
    destruct (flush_inv es true env now w0 db w1 db1 ltac:(lia) Hfl ltac:(by apply writer_inv_flags)) as (Hinv1 & Hno & _).
    rewrite (Hno eq_refl), app_nil_r in Hinv1. by apply writer_inv_flags.
  - rewrite app_nil_r. destruct Hinv as [? ? (k & ? & ? & ? & Hr) _]. split; try done.
    exists k. split_and!; try done. intros idx. by rewrite Hrows.
Qed.
End writer.

(** ** Reading a scope that writes to the database *)

Section reading.
Context `{lib : Library}.
Variable o : ScopeOptions.

Lemma rows_sorted k logs db from :
  (forall i l, logs !! i = Some l -> LogIndex l = Z.of_nat i + 1 /\ LogRunID l = TestRunID o /\ LogTaskID l = LogTask o) ->
  (k <= length logs)%nat -> rows_are o k logs db ->
  map_Forall (fun key r => (LogRunID r, LogTaskID r, LogIndex r) = key) (task_logs db) ->
  merge_sort order_log (select_logs (TestRunID o) (LogTask o) from db) =
    filterb (fun l => from <=? LogIndex l) (take k logs).
Proof.
  intros Hlogs Hk Hrows Hwf.
  assert (forall l, l ∈ select_logs (TestRunID o) (LogTask o) from db <->
    l ∈ filterb (fun l => from <=? LogIndex l) (take k logs)) as Hiff.
  { intros l. unfold select_logs. rewrite !elem_of_filterb, elem_of_values, !andb_true_iff, !Z.eqb_eq. split.
    - intros [[[H1 H2] H3] [key Hkey]]. split; [done|]. pose proof (Hwf _ _ Hkey) as Hk'. simpl in Hk'. subst key.
      rewrite H1, H2, Hrows in Hkey. destruct (_ && _) eqn:Hr; [|done]. apply list_elem_of_lookup.
      exists (Z.to_nat (LogIndex l - 1)). rewrite lookup_take_lt by lia. done.
    - intros [H3 [i Hi]%list_elem_of_lookup]. apply lookup_take_Some in Hi as [Hi Hik].
      destruct (Hlogs i l Hi) as (H0 & H1 & H2). split; [done|].
      exists (TestRunID o, LogTask o, LogIndex l). rewrite Hrows, H0.
      assert ((1 <=? Z.of_nat i + 1) && (Z.of_nat i + 1 <=? Z.of_nat k) = true) as -> by lia.
      rewrite <- Hi. f_equal. lia. }
  assert (NoDup (select_logs (TestRunID o) (LogTask o) from db)) as Hnd1.
  { unfold select_logs, filterb. apply NoDup_filter. apply (NoDup_fmap_1 (fun l => (LogRunID l, LogTaskID l, LogIndex l))).
    assert ((fun l => (LogRunID l, LogTaskID l, LogIndex l)) <$> (map_to_list (task_logs db)).*2 = (map_to_list (task_logs db)).*1) as ->.
    { rewrite <- list_fmap_compose. apply list_fmap_ext. intros i [key r] Hi. simpl.
      apply list_elem_of_lookup_2, elem_of_map_to_list in Hi. by apply (Hwf key r). }
    apply NoDup_fst_map_to_list. }
  assert (forall i j l, take k logs !! i = Some l -> take k logs !! j = Some l -> i = j) as Hinj.
  { intros i j l [Hi _]%lookup_take_Some [Hj _]%lookup_take_Some.
    destruct (Hlogs i l Hi) as [H1 _], (Hlogs j l Hj) as [H2 _]. lia. }
  assert (NoDup (filterb (fun l => from <=? LogIndex l) (take k logs))) as Hnd2.
  { unfold filterb. apply NoDup_filter, NoDup_alt. exact Hinj. }
  pose proof (merge_sort_Permutation order_log (select_logs (TestRunID o) (LogTask o) from db)) as Hperm.
  apply (StronglySorted_unique_strong order_log).
  - intros x y Hx Hy H1 H2. rewrite Hperm in Hx. apply Hiff in Hx.
    apply elem_of_filterb in Hx as [_ [i Hi]%list_elem_of_lookup].
    apply elem_of_filterb in Hy as [_ [j Hj]%list_elem_of_lookup].
    apply lookup_take_Some in Hi as [Hi _], Hj as [Hj _].
    destruct (Hlogs i x Hi) as [Hx1 _], (Hlogs j y Hj) as [Hy1 _]. unfold order_log in *.
    assert (i = j) as -> by lia. congruence.
  - apply (StronglySorted_merge_sort order_log).
  - assert (StronglySorted order_log (take k logs)) as Hs.
    { apply StronglySorted_lookup. intros i j x y Hij [Hi _]%lookup_take_Some [Hj _]%lookup_take_Some.
      destruct (Hlogs i x Hi) as [H1 _], (Hlogs j y Hj) as [H2 _]. unfold order_log. lia. }
    by apply StronglySorted_filterb.
  - rewrite Hperm. by apply NoDup_Permutation.
Qed.
End reading.

(** The writer implements an append-only log.  Whatever entries, automatic
    and explicit flushes, timers of the flusher and uses of the database by
    others interleave, as long as no call hangs: the rows of the scope
    followed by the buffer are exactly the entries logged, in order, indexed
    from one, none lost and none duplicated. *)
Theorem writer_append_only `{lib : Library} o db0 es w db :
  (forall idx, task_logs db0 !! (TestRunID o, LogTask o, idx) = None) ->
  map_Forall (fun key r => (LogRunID r, LogTaskID r, LogIndex r) = key) (task_logs db0) ->
  Z.of_nat (length es) + 1 < two64 ->
  writer_steps o newLogDBWriter db0 es w db ->
  exists k, (k <= length es)%nat /\ flushIdx w = Z.of_nat k /\ lastIdx w = Z.of_nat (length es) /\
    buf w = drop k (scope_log o es) /\
    (forall idx, task_logs db !! (TestRunID o, LogTask o, idx) =
      if (1 <=? idx) && (idx <=? Z.of_nat k) then scope_log o es !! Z.to_nat (idx - 1) else None).
Proof.
  intros Hnone Hwf Hlen Hsteps.
  assert (writer_inv o es w db) as [? ? (k & ? & ? & ? & ?) _]; [|by exists k].
  revert Hlen. remember newLogDBWriter as w0 eqn:Hw0.
  induction Hsteps as [w db|w db es w1 db1 es' w2 db2 Hs IH Hst]; intros Hlen; subst.
  - split; try done. exists 0%nat. split_and!; try done. intros idx. rewrite Hnone.
    by destruct (Z.leb_spec 1 idx), (Z.leb_spec idx (Z.of_nat 0)); simpl; try done; lia.
  - apply (writer_step_inv o es w1 db1 es' w2 db2); [lia|done|]. apply IH; try done.
    rewrite length_app in Hlen. lia.
Qed.

(** How a scope with a database is read.  When everything is flushed, and
    when the first buffered entry is the one asked for, the reader gets the
    page it asked for.  Otherwise it does not: asking for an earlier entry
    skips all persisted entries and as many of the buffer as the request
    lies before it, and asking for a later one returns the buffer from its
    start. *)
Theorem GetLogEntries_pages `{lib : Library} o es w db from limit k :
  writer_inv o es w db -> flushIdx w = Z.of_nat k -> is_u64 from -> 0 < limit ->
  (k = length es -> GetLogEntries o from limit w db = Some (log_page (scope_log o es) from limit)) /\
  ((k < length es)%nat ->
    (from = Z.of_nat k + 1 -> GetLogEntries o from limit w db = Some (log_page (scope_log o es) from limit)) /\
    (from <= Z.of_nat k -> GetLogEntries o from limit w db =
       Some (limit_entries limit (drop (Z.to_nat (2 * (Z.of_nat k + 1) - from - 1)) (scope_log o es)))) /\
    (Z.of_nat k + 1 < from -> GetLogEntries o from limit w db =
       Some (limit_entries limit (drop k (scope_log o es))))).
Proof.
  intros [Hl Hb (k' & Hk & Hf & Hbuf & Hrows) Hwf] Hfk Hfrom Hlim. assert (k' = k) as -> by lia.
  assert (forall i l, scope_log o es !! i = Some l ->
    LogIndex l = Z.of_nat i + 1 /\ LogRunID l = TestRunID o /\ LogTaskID l = LogTask o) as Hlogs by (by apply scope_log_lookup).
  assert (GetTaskLogs (TestRunID o) (LogTask o) from limit db =
    take (Z.to_nat limit) (filterb (fun l => from <=? LogIndex l) (take k (scope_log o es)))) as Hget.
  { unfold GetTaskLogs. f_equal. apply (rows_sorted o k (scope_log o es)); try done. by rewrite scope_log_length. }
  assert (forall (l : list TaskLog), limit_entries limit l = take (Z.to_nat limit) l) as Htake.
  { intros l. unfold limit_entries. destruct (Z.eqb_spec limit 0); [lia|]. simpl.
    destruct (Z.leb_spec (Z.of_nat (length l)) limit); [|done]. by rewrite take_ge by lia. }
  assert (filterb (fun l => from <=? LogIndex l) (scope_log o es) = drop (Z.to_nat (from - 1)) (scope_log o es)) as Hall.
  { apply filter_from_drop. intros i l Hi. destruct (Hlogs i l Hi) as [-> _]. lia. }
  assert (length (scope_log o es) = length es) as Hlen by apply scope_log_length.
  unfold GetLogEntries, log_page. rewrite Hget, Hb, Nat2Z.id, firstn_all, Hbuf.
  split.
  { intros ->. rewrite (drop_ge (scope_log o es) (length es)) by lia.
    rewrite (take_ge (scope_log o es) (length es)) by lia. by rewrite Htake. }
  intros Hlt. destruct (lookup_lt_is_Some_2 (scope_log o es) k) as [b Hbk]; [lia|].
  rewrite (drop_S _ b) by done. set (rest := drop (S k) (scope_log o es)).
  assert (b :: rest = drop k (scope_log o es)) as Hbr by (by rewrite (drop_S _ b)).
  destruct (Hlogs k b Hbk) as [Hbi _]. rewrite Hbi.
  split; [|split].
  - intros ->. rewrite Z.ltb_irrefl, Z.eqb_refl. f_equal. rewrite Hall, Hbr. do 2 f_equal. lia.
  - intros Hle. assert (from <? Z.of_nat k + 1 = true) as -> by lia. rewrite Hbr, length_drop, Hlen.
    destruct (Z.leb_spec (Z.of_nat (length es - k)) (Z.of_nat k + 1 - from)).
    + f_equal. rewrite drop_ge by lia. by rewrite Htake, take_nil.
    + f_equal. rewrite drop_drop. do 2 f_equal. unfold is_u64 in Hfrom. lia.
  - intros Hgt. assert (from <? Z.of_nat k + 1 = false) as -> by lia. assert (from =? Z.of_nat k + 1 = false) as -> by lia.
    assert (filterb (fun l => from <=? LogIndex l) (take k (scope_log o es)) = []) as ->.
    { rewrite (filter_from_drop _ 1) by (intros i l [Hi _]%lookup_take_Some; destruct (Hlogs i l Hi) as [-> _]; lia).
      apply drop_ge. rewrite length_take. lia. }
    rewrite take_nil. change (Z.of_nat (length (@nil TaskLog))) with 0. assert (0 =? limit = false) as -> by lia.
    cbn [last]. rewrite Hbr. change (Z.to_nat 0) with 0%nat. rewrite drop_0. cbn [app].
    assert (Z.of_nat (length (drop k (scope_log o es))) <? 0 = false) as -> by (apply Z.ltb_ge, Nat2Z.is_nonneg). rewrite Htake.
    destruct (Z.ltb_spec limit (Z.of_nat (length (drop k (scope_log o es))))); [done|]. by rewrite take_ge by lia.
Qed.

(** When the database refuses the buffered entries, the failure is logged
    to the same scope while its mutex is held: the flusher's timer, and the
    entry that finds the buffer full, wait for ever. *)
Theorem failed_flush_deadlocks `{lib : Library} o env w db e now :
  buf w <> [] -> (RunTransaction env (insert_logs (buf w)) db).2 = Some e -> chan w <> Some true ->
  flusher_timeout o env now w db = Deadlocks /\
  (BufferSize o <= bufIdx w -> forall entry, Fire o env entry w db = Deadlocks).
Proof.
  intros Hne Herr Hc. unfold flusher_timeout, Fire, flushToDB. simpl.
  destruct (buf w) as [|l ls]; [done|]. destruct (RunTransaction env (insert_logs (l :: ls)) db) as [db' err].
  simpl in Herr. subst err. split; [done|]. intros Hle entry.
  assert (BufferSize o <=? bufIdx w = true) as -> by lia. by destruct (chan w) as [[|]|].
Qed.

(** Between a flush and the next turn of the flusher's goroutine a second
    flush, explicit or by a full buffer, closes the flushing channel again and
    panics. *)
Theorem second_flush_panics `{lib : Library} o env1 env2 now1 now2 w db w' db' :
  chan w = Some false -> flush_error env1 w db = None -> Flush o env1 now1 w db = Done (w', db') ->
  Flush o env2 now2 w' db' = Panics /\
  (forall w'' e, lastIdx w'' = lastIdx w' -> chan w'' = chan w' -> BufferSize o <= bufIdx w'' ->
    Fire o env2 e w'' db' = Panics).
Proof.
  intros Hc Hok. unfold Flush, flushToDB at 1. rewrite Hc. simpl. intros Hf.
  assert (chan w' = Some true) as Hc'.
  { unfold flush_error in Hok. destruct (buf w) as [|l ls]; [by injection Hf as <- _|].
    destruct (RunTransaction env1 (insert_logs (l :: ls)) db) as [db1 err]. simpl in Hok. subst err. by injection Hf as <- _. }
  split; [unfold flushToDB; by rewrite Hc'|]. intros w'' e _ Hcc Hle. unfold Fire, flushToDB.
  assert (BufferSize o <=? bufIdx w'' = true) as -> by lia. by rewrite Hcc, Hc'.
Qed.

(** ** Examples *)

Definition ex_scope : ScopeOptions := mkScopeOptions 2 7 1.
Definition ex_entry (n : Z) : log_entry := mkLogEntry n 4 "m" None.

Lemma mem_GetLogEntries_window_witness :
  LogIndex <$> mem_GetLogEntries ex_scope 0 0
    (fold_left (fun b e => mem_Fire (lib := ex_lib 9) ex_scope e b) [ex_entry 1; ex_entry 2; ex_entry 3] newLogMemBuffer) = [2; 3].
Proof.
  rewrite (mem_GetLogEntries_window (lib := ex_lib 9) ex_scope [ex_entry 1; ex_entry 2; ex_entry 3] 0 0);
    [reflexivity|by vm_compute|by vm_compute|by vm_compute].
Defined.

(** Three entries: the third finds the buffer full and flushes it. *)
Definition ex_writer1 : logDBWriter := append_entry (lib := ex_lib 9) ex_scope (ex_entry 1) newLogDBWriter.
Definition ex_writer2 : logDBWriter := append_entry (lib := ex_lib 9) ex_scope (ex_entry 2) ex_writer1.
Definition ex_fire3 : call (logDBWriter * Database) := Fire (lib := ex_lib 9) ex_scope EngineOk (ex_entry 3) ex_writer2 empty_db.
Definition ex_writer3 : logDBWriter := match ex_fire3 with Done (w, _) => w | _ => ex_writer2 end.
Definition ex_log_db : Database := match ex_fire3 with Done (_, db) => db | _ => empty_db end.

Lemma ex_fire3_eq : Fire (lib := ex_lib 9) ex_scope EngineOk (ex_entry 3) ex_writer2 empty_db = Done (ex_writer3, ex_log_db).
Proof. reflexivity. Qed.

Lemma ex_writer_steps :
  writer_steps (lib := ex_lib 9) ex_scope newLogDBWriter empty_db [ex_entry 1; ex_entry 2; ex_entry 3] ex_writer3 ex_log_db.
Proof.
  apply (wsteps_snoc (lib := ex_lib 9) ex_scope newLogDBWriter empty_db [ex_entry 1; ex_entry 2] ex_writer2 empty_db [ex_entry 3]);
    [|by apply (wstep_Fire (lib := ex_lib 9) ex_scope ex_writer2 empty_db EngineOk), ex_fire3_eq].
  apply (wsteps_snoc (lib := ex_lib 9) ex_scope newLogDBWriter empty_db [ex_entry 1] ex_writer1 empty_db [ex_entry 2]);
    [|by apply (wstep_Fire (lib := ex_lib 9) ex_scope ex_writer1 empty_db EngineOk)].
  apply (wsteps_snoc (lib := ex_lib 9) ex_scope newLogDBWriter empty_db [] newLogDBWriter empty_db [ex_entry 1]);
    [constructor|by apply (wstep_Fire (lib := ex_lib 9) ex_scope newLogDBWriter empty_db EngineOk)].
Qed.

Lemma ex_writer3_inv : writer_inv (lib := ex_lib 9) ex_scope [ex_entry 1; ex_entry 2; ex_entry 3] ex_writer3 ex_log_db.
Proof.
  assert (writer_inv (lib := ex_lib 9) ex_scope [] newLogDBWriter empty_db) as H0.
  { split; try done. exists 0%nat. split_and!; try done. intros idx. transitivity (@None TaskLog); [reflexivity|].
    by destruct (Z.leb_spec 1 idx), (Z.leb_spec idx (Z.of_nat 0)); simpl; try done; lia. }
  assert (writer_inv (lib := ex_lib 9) ex_scope [ex_entry 1] ex_writer1 empty_db) as H1
    by (apply (append_inv (lib := ex_lib 9) ex_scope []); [by vm_compute|exact H0]).
  assert (writer_inv (lib := ex_lib 9) ex_scope [ex_entry 1; ex_entry 2] ex_writer2 empty_db) as H2
    by (apply (append_inv (lib := ex_lib 9) ex_scope [ex_entry 1]); [by vm_compute|exact H1]).
  apply (writer_step_inv (lib := ex_lib 9) ex_scope [ex_entry 1; ex_entry 2] ex_writer2 empty_db [ex_entry 3]);
    [by vm_compute| |exact H2].
  apply (wstep_Fire (lib := ex_lib 9) ex_scope ex_writer2 empty_db EngineOk), ex_fire3_eq.
Qed.

Lemma writer_append_only_witness :
  lastIdx ex_writer3 = 3 /\ task_logs ex_log_db !! (7, 1, 2) = Some (task_log (lib := ex_lib 9) ex_scope 2 (ex_entry 2)).
Proof.
  destruct (writer_append_only (lib := ex_lib 9) ex_scope empty_db [ex_entry 1; ex_entry 2; ex_entry 3] ex_writer3 ex_log_db
    (fun idx => lookup_empty _) (map_Forall_empty _) ltac:(by vm_compute) ex_writer_steps)
    as (k & _ & Hf & Hl & _ & Hrows).
  split; [exact Hl|]. change (2 = Z.of_nat k) in Hf. assert (k = 2)%nat as -> by lia. exact (Hrows 2).
Defined.

(** From 0 the reader misses the two persisted entries, and the third. *)
Lemma GetLogEntries_pages_witness : GetLogEntries ex_scope 0 100 ex_writer3 ex_log_db = Some [].
Proof.
  destruct (GetLogEntries_pages (lib := ex_lib 9) ex_scope [ex_entry 1; ex_entry 2; ex_entry 3] ex_writer3 ex_log_db 0 100 2
    ex_writer3_inv eq_refl ltac:(by vm_compute) ltac:(by vm_compute)) as [_ H].
  destruct (H ltac:(simpl; lia)) as (_ & H0 & _). exact (H0 ltac:(simpl; lia)).
Defined.

Lemma failed_flush_deadlocks_witness :
  Fire (lib := ex_lib 9) ex_scope (EngineExecErr "disk full") (ex_entry 3) ex_writer2 empty_db = Deadlocks.
Proof.
  apply (failed_flush_deadlocks (lib := ex_lib 9) ex_scope (EngineExecErr "disk full") ex_writer2 empty_db "disk full"%string 0);
    [by vm_compute|reflexivity|by vm_compute|by vm_compute].
Defined.

Lemma second_flush_panics_witness :
  exists w db, Flush (lib := ex_lib 9) ex_scope EngineOk 0 ex_writer1 empty_db = Done (w, db) /\
    Flush (lib := ex_lib 9) ex_scope EngineOk 0 w db = Panics.
Proof.
  destruct (Flush (lib := ex_lib 9) ex_scope EngineOk 0 ex_writer1 empty_db) as [[w db]| |] eqn:Hf;
    [|by vm_compute in Hf..].
  exists w, db. split; [reflexivity|].
  exact (proj1 (second_flush_panics (lib := ex_lib 9) ex_scope EngineOk EngineOk 0 0 ex_writer1 empty_db w db
    eq_refl eq_refl Hf)).
Defined.
