(* ===== verification/Names.v ===== *)
(** * Validator names

    pkg/coordinator/names/validatornames.go: the names of validators, loaded
    from a YAML file, from a web inventory and from the configuration.  Each
    source is a map from index ranges to names; Go iterates over it in any
    order, so a source is given here as the list of its entries in the order
    of the iteration.  Reading the file and the HTTP answer are parameters. *)

From S2P Require Import Prelude.

Open Scope Z_scope.

Definition inventory : Type := list (string * string).

Record Config := mkConfig {
  InventoryYaml : string;
  InventoryURL : string;
  Inventory : option inventory }.

(** [names] is nil until the first load. *)
Record ValidatorNames := mkValidatorNames { config : option Config; names : option (gmap Z string) }.

Definition NewValidatorNames (c : option Config) : ValidatorNames := mkValidatorNames c None.

(** [locked]: a load holds the mutex, so [TryRLock] fails. *)
Definition GetValidatorName (locked : bool) (index : Z) (vn : ValidatorNames) : string :=
  if locked then ""%string
  else match names vn with None => ""%string | Some m => default ""%string (m !! index) end.

(** The bounds of a key: ["7"], or ["7-12"] (further parts are ignored). *)
Definition parse_range (idxStr : string) : option (Z * Z) :=
  match Split "-" idxStr with
  | [] => None
  | part :: parts =>
      minIdx ← ParseUint part;
      match parts with
      | [] => Some (minIdx, minIdx +u 1)
      | part :: _ => maxIdx ← ParseUint part; Some (minIdx, maxIdx)
      end
  end.

(** [for idx := minIdx; idx <= maxIdx; idx++]; [None] when the fuel runs out. *)
Fixpoint names_loop (fuel : nat) (name : string) (maxIdx idx : Z) (st : gmap Z string * Z)
    : option (gmap Z string * Z) :=
  if idx <=? maxIdx then
    match fuel with
    | O => None
    | S fuel => names_loop fuel name maxIdx (idx +u 1) (<[idx := name]> st.1, st.2 + 1)
    end
  else Some st.

(** [parseNamesMap], and the same loop of [loadFromRangesAPI]. *)
Fixpoint parse_entries (fuel : nat) (entries : inventory) (st : gmap Z string * Z) : option (gmap Z string * Z) :=
  match entries with
  | [] => Some st
  | (idxStr, name) :: entries =>
      match parse_range idxStr with
      | None => parse_entries fuel entries st
      | Some (minIdx, maxIdx) =>
          st ← names_loop fuel name maxIdx minIdx st; parse_entries fuel entries st
      end
  end.

Definition parseNamesMap (fuel : nat) (entries : inventory) (m : gmap Z string) : option (gmap Z string * Z) :=
  parse_entries fuel entries (m, 0).

(** What the outside world answers. *)
Inductive http_answer :=
  | Unreachable (e : error)
  | Answered (StatusCode : Z) (body : result inventory).

Section load.
Context (open_yaml : string -> result inventory) (get : string -> http_answer).

(** [loadFromYaml]; [None] when it does not return. *)
Definition loadFromYaml (fuel : nat) (fileName : string) (m : gmap Z string)
    : option (gmap Z string * option error) :=
  match open_yaml fileName with
  | Err e => Some (m, Some e)
  | Ok namesYaml => st ← parseNamesMap fuel namesYaml m; Some (st.1, None)
  end.

Definition loadFromRangesAPI (fuel : nat) (apiURL : string) (m : gmap Z string)
    : option (gmap Z string * option error) :=
  match get apiURL with
  | Unreachable e => Some (m, Some ("could not fetch inventory: " ++ e)%string)
  | Answered code body =>
      if code =? 200 then
        match body with
        | Err e => Some (m, Some ("error parsing validator ranges response: " ++ e)%string)
        | Ok ranges => st ← parse_entries fuel ranges (m, 0); Some (st.1, None)
        end
      else if code =? 404 then Some (m, None)
      else Some (m, Some "error-response"%string)
  end.

(** [LoadValidatorNames]: errors are only logged. *)
Definition LoadValidatorNames (fuel : nat) (vn : ValidatorNames) : option ValidatorNames :=
  let m : gmap Z string := ∅ in
  match config vn with
  | None => Some (mkValidatorNames None (Some m))
  | Some c =>
      m ← (if String.eqb (InventoryYaml c) "" then Some m else fst <$> loadFromYaml fuel (InventoryYaml c) m);
      m ← (if String.eqb (InventoryURL c) "" then Some m else fst <$> loadFromRangesAPI fuel (InventoryURL c) m);
      m ← (match Inventory c with None => Some m | Some inv => fst <$> parseNamesMap fuel inv m end);
      Some (mkValidatorNames (Some c) (Some m))
  end.

(** The entries that a load applies, in order. *)
Definition sources (c : Config) : inventory :=
  (if String.eqb (InventoryYaml c) "" then [] else match open_yaml (InventoryYaml c) with Ok l => l | Err _ => [] end) ++
  (if String.eqb (InventoryURL c) "" then []
   else match get (InventoryURL c) with
        | Answered code (Ok l) => if code =? 200 then l else []
        | _ => []
        end) ++
  default [] (Inventory c).
End load.

(** ** What the ranges mean *)

(** The entry names the validator. *)
Definition covers (entry : string * string) (idx : Z) : bool :=
  match parse_range entry.1 with
  | Some (minIdx, maxIdx) => (minIdx <=? idx) && (idx <=? maxIdx)
  | None => false
  end.

(** The last entry that names it. *)
Fixpoint last_name (entries : inventory) (idx : Z) : option string :=
  match entries with
  | [] => None
  | entry :: entries =>
      match last_name entries idx with
      | Some name => Some name
      | None => if covers entry idx then Some entry.2 else None
      end
  end.

(** Entries whose loop ends: it never does when the range reaches the largest
    index, which is not below any index. *)
Definition ends (entry : string * string) : bool :=
  match parse_range entry.1 with
  | Some (minIdx, maxIdx) => (maxIdx <? minIdx) || (maxIdx <? MaxUint64)
  | None => true
  end.

(** The number of iterations of the entry's loop. *)
Definition range_size (entry : string * string) : nat :=
  match parse_range entry.1 with
  | Some (minIdx, maxIdx) => Z.to_nat (maxIdx - minIdx + 1)
  | None => 0
  end.

Definition range_sizes (entries : inventory) : nat := foldr (fun entry n => Nat.max (range_size entry) n) 0%nat entries.

Lemma parse_digits_nonneg s acc n : 0 <= acc -> parse_digits acc s = Some n -> 0 <= n.
Proof.
  revert acc. induction s as [|c s IH]; intros acc Hacc; cbn [parse_digits].
  { by intros [= <-]. }
  cbv zeta. destruct (_ && _) eqn:Hd; [|done]. apply IH. apply andb_true_iff in Hd as [Hd _]. lia.
Qed.

Lemma ParseUint_u64 s n : ParseUint s = Some n -> is_u64 n.
Proof.
  unfold ParseUint. destruct s as [|c s]; [done|].
  destruct (parse_digits 0 (String c s)) as [k|] eqn:Hp; [|done].
  apply parse_digits_nonneg in Hp; [|done]. simpl.
  destruct (k <? two64) eqn:Hk; [|done]. intros [= <-]. go_lia.
Qed.

Lemma parse_range_u64 s minIdx maxIdx :
  parse_range s = Some (minIdx, maxIdx) -> is_u64 minIdx /\ is_u64 maxIdx.
Proof.
  unfold parse_range. destruct (Split "-" s) as [|p [|q l]]; [done|..];
    (destruct (ParseUint p) as [a|] eqn:Ha; [|done]); apply ParseUint_u64 in Ha; simpl.
  - intros [= <- <-]. split; [done|apply u64_range].
  - destruct (ParseUint q) as [b|] eqn:Hb; [|done]. apply ParseUint_u64 in Hb. by intros [= <- <-].
Qed.

(** The loop over one range. *)
Lemma names_loop_spec fuel name maxIdx idx st :
  is_u64 idx -> is_u64 maxIdx -> maxIdx < idx \/ maxIdx < MaxUint64 -> (Z.to_nat (maxIdx - idx + 1) <= fuel)%nat ->
  exists st', names_loop fuel name maxIdx idx st = Some st' /\
    st'.2 = st.2 + Z.of_nat (Z.to_nat (maxIdx - idx + 1)) /\
    forall i, st'.1 !! i = if (idx <=? i) && (i <=? maxIdx) then Some name else st.1 !! i.
Proof.
  revert idx st. induction fuel as [|fuel IH]; intros idx st Hi Hm Hor Hf; simpl.
  - destruct (idx <=? maxIdx) eqn:Hle; [lia|]. eexists. split; [done|]. split; [lia|].
    intros i. destruct (_ && _) eqn:Hi'; [lia|done].
  - destruct (idx <=? maxIdx) eqn:Hle.
    + assert (idx +u 1 = idx + 1) as Hs by (apply u64_add_lt; go_lia). rewrite Hs.
      destruct (IH (idx + 1) (<[idx := name]> st.1, st.2 + 1)) as (st' & Heq & Hc & Hl);
        [go_lia|done|go_lia|lia|]. exists st'. split; [done|]. split; [simpl in Hc; lia|].
      intros i. rewrite Hl. destruct (decide (i = idx)) as [->|Hne].
      * destruct (_ && _) eqn:H1; [lia|]. simpl. rewrite lookup_insert_eq.
        by assert ((idx <=? idx) && (idx <=? maxIdx) = true) as -> by lia.
      * simpl. rewrite lookup_insert_ne by done.
        destruct ((idx + 1 <=? i) && (i <=? maxIdx)) eqn:H1; [by assert ((idx <=? i) && (i <=? maxIdx) = true) as -> by lia|].
        by assert ((idx <=? i) && (i <=? maxIdx) = false) as -> by lia.
    + eexists. split; [done|]. split; [lia|]. intros i. destruct (_ && _) eqn:Hi'; [lia|done].
Qed.

Lemma names_loop_diverges fuel name idx st :
  is_u64 idx -> names_loop fuel name MaxUint64 idx st = None.
Proof.
  revert idx st. induction fuel as [|fuel IH]; intros idx st Hi; simpl;
    (assert (idx <=? MaxUint64 = true) as -> by go_lia); [done|]. apply IH, u64_range.
Qed.

Lemma parse_entries_spec fuel entries st :
  forallb ends entries = true -> (range_sizes entries <= fuel)%nat ->
  exists st', parse_entries fuel entries st = Some st' /\
    forall i, st'.1 !! i = match last_name entries i with Some name => Some name | None => st.1 !! i end.
Proof.
  revert st. induction entries as [|[idxStr name] entries IH]; intros st He Hf; simpl; [eauto|].
  simpl in He, Hf. apply andb_true_iff in He as [He He']. unfold ends, range_size, covers in *. simpl in *.
  destruct (parse_range idxStr) as [[minIdx maxIdx]|] eqn:Hp.
  - destruct (parse_range_u64 _ _ _ Hp) as [Hmin Hmax].
    destruct (names_loop_spec fuel name maxIdx minIdx st) as (st1 & -> & _ & Hl); [done..| |lia|].
    { apply orb_true_iff in He as [?|?]; lia. }
    simpl. destruct (IH st1) as (st' & -> & Hst'); [done|lia|]. eexists. split; [done|].
    intros i. rewrite Hst', Hl. by destruct (last_name entries i); [|destruct (_ && _)].
  - destruct (IH st) as (st' & -> & Hst'); [done|lia|]. eexists. split; [done|].
    intros i. rewrite Hst'. by destruct (last_name entries i).
Qed.

Lemma parse_entries_diverges fuel entries st :
  forallb ends entries = false -> parse_entries fuel entries st = None.
Proof.
  revert st. induction entries as [|[idxStr name] entries IH]; intros st He; [done|]. simpl in He |- *.
  unfold ends in He at 1. simpl in He.
  destruct (parse_range idxStr) as [[minIdx maxIdx]|] eqn:Hp; [|by apply IH].
  destruct (parse_range_u64 _ _ _ Hp) as [Hmin Hmax].
  destruct ((maxIdx <? minIdx) || (maxIdx <? MaxUint64)) eqn:Hb; simpl in He.
  - destruct (names_loop fuel name maxIdx minIdx st) as [st1|]; [|done]. by apply IH.
  - assert (maxIdx = MaxUint64) as -> by go_lia. by rewrite names_loop_diverges.
Qed.

(** ** Properties *)

Lemma names_loop_count fuel name maxIdx idx m n n' :
  fst <$> names_loop fuel name maxIdx idx (m, n) = fst <$> names_loop fuel name maxIdx idx (m, n').
Proof. revert idx m n n'. induction fuel as [|fuel IH]; intros; simpl; destruct (_ <=? _); done. Qed.

Lemma parse_entries_count fuel l m n n' :
  fst <$> parse_entries fuel l (m, n) = fst <$> parse_entries fuel l (m, n').
Proof.
  revert m n n'. induction l as [|[k name] l IH]; intros m n n'; [done|]. simpl.
  destruct (parse_range k) as [[a b]|]; [|apply IH].
  pose proof (names_loop_count fuel name b a m n n') as H.
  destruct (names_loop fuel name b a (m, n)) as [[m1 n1]|], (names_loop fuel name b a (m, n')) as [[m2 n2]|];
    simplify_eq/=; [apply IH|done].
Qed.

(** The names after applying some entries. *)
Definition applied (fuel : nat) (l : inventory) (m : gmap Z string) : option (gmap Z string) :=
  fst <$> parse_entries fuel l (m, 0).

Lemma applied_app fuel l1 l2 m : applied fuel (l1 ++ l2) m = applied fuel l1 m ≫= applied fuel l2.
Proof.
  unfold applied. revert m. induction l1 as [|[k n] l1 IH]; intros m; [done|].
  simpl. destruct (parse_range k) as [[a b]|]; [|apply IH].
  destruct (names_loop _ _ _ _ _) as [[m' c']|]; [|done]. cbn [mbind option_bind].
  rewrite (parse_entries_count _ (l1 ++ l2) _ c' 0), (parse_entries_count _ l1 _ c' 0). apply IH.
Qed.

Lemma applied_nil fuel m : applied fuel [] m = Some m.
Proof. reflexivity. Qed.

Section loading.
Context (open_yaml : string -> result inventory) (get : string -> http_answer).

Lemma yaml_stage fuel f m :
  (if String.eqb f "" then Some m else fst <$> loadFromYaml open_yaml fuel f m) =
  applied fuel (if String.eqb f "" then [] else match open_yaml f with Ok l => l | Err _ => [] end) m.
Proof.
  unfold loadFromYaml, parseNamesMap. destruct (String.eqb f ""); [done|]. destruct (open_yaml f) as [l|e]; [|done].
  unfold applied. by destruct (parse_entries _ _ _).
Qed.

Lemma api_stage fuel u m :
  (if String.eqb u "" then Some m else fst <$> loadFromRangesAPI get fuel u m) =
  applied fuel (if String.eqb u "" then []
                else match get u with
                     | Answered code (Ok l) => if code =? 200 then l else []
                     | _ => []
                     end) m.
Proof.
  unfold loadFromRangesAPI. destruct (String.eqb u ""); [done|]. destruct (get u) as [e|code [l|e]]; [done|..].
  - destruct (code =? 200); [|by destruct (code =? 404)]. unfold applied. by destruct (parse_entries _ _ _).
  - destruct (code =? 200); [done|]. by destruct (code =? 404).
Qed.

Lemma config_stage fuel inv m :
  match inv with None => Some m | Some inv => fst <$> parseNamesMap fuel inv m end = applied fuel (default [] inv) m.
Proof. by destruct inv. Qed.

(** A load applies the entries of its sources. *)
Lemma LoadValidatorNames_sources fuel c nm :
  LoadValidatorNames open_yaml get fuel (mkValidatorNames (Some c) nm) =
  (fun m => mkValidatorNames (Some c) (Some m)) <$> applied fuel (sources open_yaml get c) ∅.
Proof.
  unfold LoadValidatorNames, sources. cbn [config]. cbv zeta. rewrite applied_app, yaml_stage.
  destruct (applied fuel _ ∅) as [m1|]; [|done]. cbn [mbind option_bind]. rewrite api_stage, applied_app.
  destruct (applied fuel _ m1) as [m2|]; [|done]. cbn [mbind option_bind]. rewrite config_stage.
  by destruct (applied fuel _ m2).
Qed.

(** Loading the names: a validator has the name of the last entry that covers
    its index, where the configuration overrides the web inventory and that
    the YAML file; the load returns if and only if no entry reaches up to the
    largest index, and then as soon as the fuel exceeds the largest range. *)
Theorem LoadValidatorNames_names (c : Config) (nm : option (gmap Z string)) :
  (forallb ends (sources open_yaml get c) = true ->
   forall fuel, (range_sizes (sources open_yaml get c) <= fuel)%nat ->
   exists vn, LoadValidatorNames open_yaml get fuel (mkValidatorNames (Some c) nm) = Some vn /\
     forall idx, GetValidatorName false idx vn = default ""%string (last_name (sources open_yaml get c) idx)) /\
  (forallb ends (sources open_yaml get c) = false ->
   forall fuel, LoadValidatorNames open_yaml get fuel (mkValidatorNames (Some c) nm) = None).
Proof.
  split; intros He fuel; rewrite LoadValidatorNames_sources; unfold applied.
  - intros Hf. destruct (parse_entries_spec fuel _ (∅, 0) He Hf) as (st & -> & Hst). eexists. split; [done|].
    intros idx. unfold GetValidatorName. simpl. rewrite Hst. simpl. by destruct (last_name _ idx).
  - by rewrite parse_entries_diverges.
Qed.
End loading.

(** The text of a range is read back as its bounds, while the text of a single
    index is read as this index and the next one. *)
Theorem range_roundtrip (a b : Z) :
  is_u64 a -> is_u64 b ->
  parse_range (pretty (Z.to_N a) +:+ "-" +:+ pretty (Z.to_N b)) = Some (a, b) /\
  parse_range (pretty (Z.to_N a)) = Some (a, a +u 1).
Proof.
  intros Ha Hb. assert (forall z, is_u64 z -> free_of "-" (pretty (Z.to_N z)) = true) as Hfree.
  { intros z Hz. unfold pretty, pretty_N. case_decide; [done|]. apply pretty_go_free_of; [by apply Nat.ltb_lt|done]. }
  assert (forall s, ("-" +:+ s = String "-" s)%string) as Hdash by done.
  unfold parse_range. split.
  - rewrite Hdash, Split_app, Split_free by auto. by rewrite !ParseUint_pretty.
  - rewrite Split_free by auto. by rewrite ParseUint_pretty.
Qed.

(** ** Witnesses *)

Definition ex_open (f : string) : result inventory :=
  if String.eqb f "names.yaml" then Ok [("0-9", "lighthouse"); ("10-19", "teku")]%string
  else Err "no such file"%string.
Definition ex_get (u : string) : http_answer :=
  if String.eqb u "http://inventory" then Answered 200 (Ok [("5-6", "api")]%string) else Unreachable "dial"%string.
Definition ex_config : Config := mkConfig "names.yaml" "http://inventory" (Some [("6", "mine"); ("x-1", "skipped")]%string).

Lemma LoadValidatorNames_names_witness :
  exists vn, LoadValidatorNames ex_open ex_get 10 (mkValidatorNames (Some ex_config) None) = Some vn /\
    GetValidatorName false 4 vn = "lighthouse"%string /\ GetValidatorName false 5 vn = "api"%string /\
    GetValidatorName false 6 vn = "mine"%string /\ GetValidatorName false 7 vn = "mine"%string /\
    GetValidatorName false 20 vn = ""%string.
Proof.
  destruct (LoadValidatorNames_names ex_open ex_get ex_config None) as [H _].
  destruct (H eq_refl 10%nat) as (vn & Hvn & Hn); [vm_compute; lia|]. exists vn.
  split; [exact Hvn|]. clear H Hvn. rewrite !Hn. vm_compute. repeat split.
Defined.

Lemma range_roundtrip_witness :
  is_u64 7 /\ parse_range "7-12" = Some (7, 12) /\ parse_range "7" = Some (7, 8).
Proof.
  assert (forall z, 0 <= z < 100 -> is_u64 z) as Hu by (intros; go_lia).
  split; [apply Hu; lia|]. apply (range_roundtrip 7 12); apply Hu; lia.
Defined.
