(* ===== verification/BlobTx.v ===== *)
(** * Blob transactions

    pkg/coordinator/wallet/blobtx: blob data from the references of a task's
    configuration ([parseBlobRefs]), its encoding into field elements
    ([encodeBlobData]) and the sidecar of a transaction.  The number of field
    elements of a blob is a constant of go-ethereum (4096) and a parameter, as
    are its KZG functions and hexadecimal decoder, SHA-256, the random source
    and the answers of the file system and of web servers. *)

From Stdlib Require Import Strings.Byte.
From S2P Require Import Prelude.

Open Scope Z_scope.

Notation bytes := (list byte).

(** Go's [copy(dst[off:], src)]. *)
Definition copy_at (off : nat) (src dst : bytes) : bytes :=
  let n := Nat.min (length src) (length dst - off) in
  take off dst ++ take n src ++ drop (off + n) dst.

Class Kzg := {
  BlobTxFieldElementsPerBlob : nat;
  kzg_BlobToCommitment : bytes -> result bytes;
  kzg_ComputeBlobProof : bytes -> bytes -> result bytes;
  sha256_Sum256 : bytes -> bytes;
  FromHex : string -> bytes
}.

(** Answers from outside; the random source is asked with a running number. *)
Class BlobSources := {
  src_ReadFile : string -> result bytes;
  src_loadURLRef : string -> result bytes;
  src_Intn : nat -> Z -> Z;
  src_Read : nat -> Z -> result bytes
}.

Record BlobCommitment := mkBlobCommitment {
  Blob : bytes;
  Commitment : bytes;
  Proof : bytes;
  VersionedHash : bytes }.

Section blobs.
Context `{kzg : Kzg} `{src : BlobSources}.

Definition BlobTxBytesPerFieldElement : nat := 32.

(** The loop from [data[i:]] on; [fieldIndex] as after its increment. *)
Fixpoint encode_loop (fuel fieldIndex : nat) (data blob : bytes) : option bytes :=
  match data with
  | [] => Some blob
  | _ =>
      if decide (fieldIndex = BlobTxFieldElementsPerBlob) then Some blob
      else
        match fuel with
        | O => None
        | S fuel => encode_loop fuel (S fieldIndex) (drop 31 data) (copy_at (fieldIndex * 32 + 1) (take 31 data) blob)
        end
  end.

Definition zero_blob : bytes := replicate (BlobTxFieldElementsPerBlob * 32) x00.

(** [encodeBlobData]; the loop ends within one iteration per byte. *)
Definition encodeBlobData (data : bytes) : option bytes := encode_loop (length data) 0 data zero_blob.

Definition max_data : nat := BlobTxFieldElementsPerBlob * (BlobTxBytesPerFieldElement - 1).

Definition set_version (hash : bytes) : bytes := match hash with [] => [] | _ :: h => x01 :: h end.

Definition EncodeBlob (data : bytes) : go BlobCommitment :=
  if Nat.ltb max_data (length data) then Fail "blob data longer than allowed"
  else
    match encodeBlobData data with
    | None => Panic "encodeBlobData does not return"
    | Some blob =>
        match kzg_BlobToCommitment blob with
        | Err e => Fail ("failed generating blob commitment: " ++ e)
        | Ok commitment =>
            match kzg_ComputeBlobProof blob commitment with
            | Err e => Fail ("failed generating blob proof: " ++ e)
            | Ok proof => Ret (mkBlobCommitment blob commitment proof (set_version (sha256_Sum256 commitment)))
            end
        end
    end%string.

(** [%0<width>d] *)
Fixpoint zeros (n : nat) : string := match n with O => "" | S n => String "0" (zeros n) end.
Definition padded (width : nat) (z : Z) : string :=
  let s := pretty (Z.to_N z) in zeros (width - String.length s) +:+ s.

Definition identifier_label (txIdx blobIdx replacementIdx : Z) : string :=
  "0x1611BB0000" +:+ padded 8 txIdx +:+ "FF" +:+ padded 2 blobIdx +:+ "FF" +:+ padded 4 replacementIdx +:+ "FEED".

(** [make] and the copies of a repeat reference: the product wraps, and then
    either [make] or a slice expression panics. *)
Definition repeat_bytes (count : Z) (b : bytes) : go bytes :=
  let n := i64 (count * Z.of_nat (length b)) in
  if (n =? count * Z.of_nat (length b)) && (0 <=? n) then Ret (concat (replicate (Z.to_nat count) b))
  else Panic "makeslice: len out of range".

Definition randomBlobData (draw : nat) (size : Z) : go bytes :=
  if size <? 0 then Panic "makeslice: len out of range"
  else
    match src_Read draw size with
    | Err e => Fail e
    | Ok data => if Z.of_nat (length data) =? size then Ret data else Fail "could not create random blob data"
    end.

(** One reference; [have] bytes were produced by the ones before. *)
Definition parse_ref (txIdx blobIdx replacementIdx : Z) (draw have : nat) (blobRef : string) : go bytes :=
  if HasPrefix blobRef "0x" then Ret (FromHex blobRef)
  else
    let refParts := Split ":" blobRef in
    let kind := nth 0 refParts "" in
    if String.eqb kind "identifier" then Ret (FromHex (identifier_label txIdx blobIdx replacementIdx))
    else if String.eqb kind "file" then of_result (src_ReadFile (Join ":" (drop 1 refParts)))
    else if String.eqb kind "url" then of_result (src_loadURLRef (Join ":" (drop 1 refParts)))
    else if String.eqb kind "repeat" then
      match refParts with
      | [_; hex; count] =>
          match Atoi count with
          | None => Fail ("invalid repeat count: " ++ count)
          | Some count => repeat_bytes count (FromHex hex)
          end
      | _ => Fail ("invalid repeat ref format: " ++ blobRef)
      end
    else if String.eqb kind "random" then
      match refParts with
      | [_] =>
          let room := Z.of_nat max_data - Z.of_nat have in
          if room <=? 0 then Panic "invalid argument to Intn" else randomBlobData draw (src_Intn draw room)
      | [] | [_; _] => Panic "index out of range [2]"
      | _ :: _ :: count :: _ =>
          match Atoi count with
          | None => Fail ("invalid repeat count: " ++ count)
          | Some blobLen => randomBlobData draw blobLen
          end
      end
    else Fail ("unknown blob ref: " ++ blobRef).

Fixpoint parse_refs (txIdx blobIdx replacementIdx : Z) (draw : nat) (refs : list string) (blobBytes : bytes) : go bytes :=
  match refs with
  | [] => Ret blobBytes
  | blobRef :: refs =>
      do! b := parse_ref txIdx blobIdx replacementIdx draw (length blobBytes) blobRef in
      parse_refs txIdx blobIdx replacementIdx (S draw) refs (blobBytes ++ b)
  end.

Definition parseBlobRefs (blobRefs : string) (txIdx blobIdx replacementIdx : Z) : go BlobCommitment :=
  do! blobBytes := parse_refs txIdx blobIdx replacementIdx 0 (Split "," blobRefs) [] in
  match EncodeBlob blobBytes with
  | Fail e => Fail ("invalid blob: " ++ e)
  | r => r
  end.

(** [BlobTxSidecar] and the hashes, in the order of the references. *)
Record BlobTxSidecar := mkSidecar { Blobs : list bytes; Commitments : list bytes; Proofs : list bytes }.

Fixpoint sidecar_loop (txIdx replacementIdx idx : Z) (blobRefs : list string) (hashes : list bytes) (sc : BlobTxSidecar)
    : go (list bytes * BlobTxSidecar) :=
  match blobRefs with
  | [] => Ret (hashes, sc)
  | blobRef :: blobRefs =>
      do! c := parseBlobRefs blobRef txIdx idx replacementIdx in
      sidecar_loop txIdx replacementIdx (idx + 1) blobRefs (hashes ++ [VersionedHash c])
        (mkSidecar (Blobs sc ++ [Blob c]) (Commitments sc ++ [Commitment c]) (Proofs sc ++ [Proof c]))
  end.

Definition GenerateBlobSidecar (blobRefs : list string) (txIdx replacementIdx : Z) : go (list bytes * BlobTxSidecar) :=
  sidecar_loop txIdx replacementIdx 0 blobRefs [] (mkSidecar [] [] []).
End blobs.

(** ** Reading a blob back *)

(** The 31 data bytes of each field element. *)
Fixpoint decode_fields (fields : nat) (blob : bytes) : bytes :=
  match fields with
  | O => []
  | S n => take 31 (drop 1 blob) ++ decode_fields n (drop 32 blob)
  end.

(** A field element of 32 bytes, and a whole blob of them. *)
Definition field_element (chunk : bytes) : bytes := x00 :: chunk ++ replicate (31 - length chunk) x00.

Fixpoint chunks (fields : nat) (data : bytes) : list bytes :=
  match fields with O => [] | S n => take 31 data :: chunks n (drop 31 data) end.

Lemma length_field_element chunk : (length chunk <= 31)%nat -> length (field_element chunk) = 32%nat.
Proof. intros H. unfold field_element. simpl. rewrite length_app, length_replicate. lia. Qed.

Lemma field_element_data chunk rest :
  (length chunk <= 31)%nat ->
  take 31 (drop 1 (field_element chunk ++ rest)) = chunk ++ replicate (31 - length chunk) x00 /\
  drop 32 (field_element chunk ++ rest) = rest.
Proof.
  intros H. split.
  - unfold field_element. cbn [app drop]. apply take_app_length'. rewrite length_app, length_replicate. lia.
  - apply drop_app_length'. by rewrite length_field_element.
Qed.

Lemma copy_at_field pre chunk n :
  (length chunk <= 31)%nat ->
  copy_at (length pre + 1) chunk (pre ++ replicate (S n * 32) x00) = pre ++ field_element chunk ++ replicate (n * 32) x00.
Proof.
  intros Hc. unfold copy_at, field_element. rewrite length_app, length_replicate.
  assert (Nat.min (length chunk) (length pre + S n * 32 - (length pre + 1)) = length chunk) as -> by lia.
  rewrite take_app_add'; [|done]. rewrite drop_app_ge by lia. rewrite drop_replicate.
  rewrite (take_ge chunk) by lia.
  assert (take 1 (replicate (S n * 32) x00) = [x00]) as -> by done.
  replace (S n * 32 - (length pre + 1 + length chunk - length pre))%nat with ((31 - length chunk) + n * 32)%nat by lia.
  rewrite replicate_add, <- !app_assoc. cbn [app]. by rewrite <- !app_assoc.
Qed.

Section encode.
Context `{kzg : Kzg}.

Lemma encode_loop_spec fuel n pre fieldIndex data :
  length pre = (fieldIndex * 32)%nat -> (fieldIndex + n)%nat = BlobTxFieldElementsPerBlob ->
  (length data <= 31 * n)%nat -> (length data <= fuel)%nat ->
  encode_loop fuel fieldIndex data (pre ++ replicate (n * 32) x00) =
  Some (pre ++ concat (field_element <$> chunks n data)).
Proof.
  revert n pre fieldIndex data. induction fuel as [|fuel IH]; intros n pre fi data Hpre Hn Hd Hf.
  - destruct data; [|simpl in Hf; lia]. simpl. do 2 f_equal. clear. induction n as [|n IH]; [done|].
    simpl chunks. simpl. by rewrite IH.
  - destruct data as [|b data].
    { simpl. do 2 f_equal. clear. induction n as [|n IH]; [done|]. simpl chunks. simpl. by rewrite IH. }
    destruct n as [|n]; [simpl in Hd; lia|].
    cbn [encode_loop]. rewrite decide_False by lia. rewrite <- Hpre, copy_at_field by (rewrite length_take; lia).
    rewrite app_assoc, IH.
    + by rewrite <- app_assoc.
    + rewrite length_app, length_field_element by (rewrite length_take; lia). lia.
    + lia.
    + rewrite length_drop. lia.
    + rewrite length_drop. simpl in Hf |- *. lia.
Qed.

Lemma encodeBlobData_chunks data :
  (length data <= max_data)%nat ->
  encodeBlobData data = Some (concat (field_element <$> chunks BlobTxFieldElementsPerBlob data)).
Proof.
  intros Hd. unfold encodeBlobData, zero_blob. unfold max_data, BlobTxBytesPerFieldElement in Hd.
  apply (encode_loop_spec _ _ []); simpl; lia.
Qed.

Lemma length_chunks n data : length (concat (field_element <$> chunks n data)) = (n * 32)%nat.
Proof.
  revert data. induction n as [|n IH]; intros data; [done|]. cbn [chunks fmap list_fmap concat].
  rewrite length_app, IH, length_field_element by (rewrite length_take; lia). lia.
Qed.

Lemma decode_chunks n data :
  decode_fields n (concat (field_element <$> chunks n data)) = take (31 * n) data ++ replicate (31 * n - length data) x00.
Proof.
  revert data. induction n as [|n IH]; intros data; [done|].
  cbn [chunks fmap list_fmap concat decode_fields].
  destruct (field_element_data (take 31 data) (concat (field_element <$> chunks n (drop 31 data)))) as [-> ->];
    [rewrite length_take; lia|]. rewrite IH, length_drop, length_take.
  destruct (decide (31 <= length data)%nat) as [H|H].
  - replace (31 - Nat.min 31 (length data))%nat with 0%nat by lia. simpl (replicate 0 _). rewrite app_nil_r, app_assoc.
    f_equal; [|f_equal; lia]. replace (31 * S n)%nat with (31 + 31 * n)%nat by lia. by rewrite take_take_drop.
  - rewrite (take_ge data 31), (take_ge data (31 * S n)), (drop_ge data 31) by lia. rewrite take_nil. simpl ([] ++ _).
    rewrite <- app_assoc, <- replicate_add. do 2 f_equal. lia.
Qed.

(** Every field element starts with a zero byte. *)
Lemma encoded_heads n data i :
  (i < n)%nat -> concat (field_element <$> chunks n data) !! (i * 32)%nat = Some x00.
Proof.
  revert data i. induction n as [|n IH]; intros data i Hi; [lia|]. cbn [chunks fmap list_fmap concat].
  destruct i as [|i]; [done|].
  rewrite lookup_app_r; rewrite length_field_element by (rewrite length_take; lia); [|lia].
  replace (S i * 32 - 32)%nat with (i * 32)%nat by lia. apply IH. lia.
Qed.

(** C40: Blob data round trips: up to the limit that [EncodeBlob] checks, the loop
    ends, the blob has its fixed size, the bytes of the field elements after
    their first are the data followed by zeros, and the first byte of every
    field element is zero, which keeps it below the modulus of the field. *)
Theorem encodeBlobData_roundtrip (data : bytes) :
  (length data <= max_data)%nat ->
  exists blob, encodeBlobData data = Some blob /\ length blob = (BlobTxFieldElementsPerBlob * 32)%nat /\
    decode_fields BlobTxFieldElementsPerBlob blob = data ++ replicate (max_data - length data) x00 /\
    forall i, (i < BlobTxFieldElementsPerBlob)%nat -> blob !! (i * 32)%nat = Some x00.
Proof.
  intros Hd. eexists. split; [by apply encodeBlobData_chunks|]. split; [apply length_chunks|]. split.
  - rewrite decode_chunks. unfold max_data, BlobTxBytesPerFieldElement in *.
    rewrite take_ge by lia. do 2 f_equal. lia.
  - intros i Hi. by apply encoded_heads.
Qed.
End encode.

Section sidecar.
Context `{kzg : Kzg} `{src : BlobSources}.

(** The commitments of the references, each with its position. *)
Fixpoint commitments (txIdx replacementIdx idx : Z) (blobRefs : list string) (cs : list BlobCommitment) : Prop :=
  match blobRefs, cs with
  | [], [] => True
  | blobRef :: blobRefs, c :: cs =>
      parseBlobRefs blobRef txIdx idx replacementIdx = Ret c /\
      commitments txIdx replacementIdx (idx + 1) blobRefs cs
  | _, _ => False
  end.

Definition append_sidecar (hashes : list bytes) (sc : BlobTxSidecar) (cs : list BlobCommitment) : list bytes * BlobTxSidecar :=
  (hashes ++ (VersionedHash <$> cs),
   mkSidecar (Blobs sc ++ (Blob <$> cs)) (Commitments sc ++ (Commitment <$> cs)) (Proofs sc ++ (Proof <$> cs))).

Lemma sidecar_loop_spec tx r idx refs hashes sc out :
  sidecar_loop tx r idx refs hashes sc = Ret out <->
  exists cs, commitments tx r idx refs cs /\ out = append_sidecar hashes sc cs.
Proof.
  revert idx hashes sc. induction refs as [|ref refs IH]; intros idx hashes [b c p]; cbn [sidecar_loop].
  - unfold append_sidecar. split.
    + intros [= <-]. exists []. split; [done|]. simpl. by rewrite !app_nil_r.
    + intros ([|c' cs] & Hcs & ->); [|done]. simpl. by rewrite !app_nil_r.
  - rewrite go_bind_Ret. setoid_rewrite IH. unfold append_sidecar. split.
    + intros (c' & Hc & cs & Hcs & ->). exists (c' :: cs). split; [done|]. simpl. by rewrite <- !app_assoc.
    + intros ([|c' cs] & Hcs & ->); [done|]. destruct Hcs as [Hc Hcs]. exists c'. split; [done|]. exists cs.
      split; [done|]. simpl. by rewrite <- !app_assoc.
Qed.

Lemma parseBlobRefs_Ret ref tx idx r c :
  parseBlobRefs ref tx idx r = Ret c ->
  exists data, parse_refs tx idx r 0 (Split "," ref) [] = Ret data /\ (length data <= max_data)%nat /\
    encodeBlobData data = Some (Blob c) /\ kzg_BlobToCommitment (Blob c) = Ok (Commitment c) /\
    kzg_ComputeBlobProof (Blob c) (Commitment c) = Ok (Proof c) /\
    VersionedHash c = set_version (sha256_Sum256 (Commitment c)).
Proof.
  unfold parseBlobRefs. rewrite go_bind_Ret. intros (data & Hd & He). exists data. split; [done|].
  unfold EncodeBlob in He. destruct (Nat.ltb _ _) eqn:Hl; [done|]. apply Nat.ltb_ge in Hl. split; [done|].
  destruct (encodeBlobData data) as [blob|]; [|done].
  destruct (kzg_BlobToCommitment blob) as [cm|] eqn:Hcm; [|done].
  destruct (kzg_ComputeBlobProof blob cm) as [pf|] eqn:Hpf; [|done]. by injection He as <-.
Qed.

(** A sidecar is aligned with its references: the transaction gets one hash,
    blob, commitment and proof per reference, in order; each is computed from
    the data of its own reference, which is at most one blob long, and the
    hashes carry the version byte. *)
Theorem GenerateBlobSidecar_aligned (blobRefs : list string) (txIdx replacementIdx : Z) hashes sc :
  GenerateBlobSidecar blobRefs txIdx replacementIdx = Ret (hashes, sc) ->
  length hashes = length blobRefs /\ length (Blobs sc) = length blobRefs /\
  forall (i : nat) ref, blobRefs !! i = Some ref ->
    exists data blob cm pf,
      parse_refs txIdx (Z.of_nat i) replacementIdx 0 (Split "," ref) [] = Ret data /\
      (length data <= max_data)%nat /\ encodeBlobData data = Some blob /\
      kzg_BlobToCommitment blob = Ok cm /\ kzg_ComputeBlobProof blob cm = Ok pf /\
      Blobs sc !! i = Some blob /\ Commitments sc !! i = Some cm /\ Proofs sc !! i = Some pf /\
      hashes !! i = Some (set_version (sha256_Sum256 cm)).
Proof.
  unfold GenerateBlobSidecar. rewrite sidecar_loop_spec. intros (cs & Hcs & [= -> ->]). simpl.
  rewrite !length_fmap.
  assert (Hgen : forall refs cs idx, commitments txIdx replacementIdx idx refs cs ->
    length cs = length refs /\ forall i ref, refs !! i = Some ref ->
      exists c, cs !! i = Some c /\ parseBlobRefs ref txIdx (idx + Z.of_nat i) replacementIdx = Ret c).
  { clear. induction refs as [|ref refs IH]; intros [|c cs] idx Hcs; try done.
    destruct Hcs as [Hc Hcs]. destruct (IH _ _ Hcs) as [Hl Hi]. split; [simpl; lia|].
    intros [|i] ref' Hr; simpl in Hr; simplify_eq.
    - exists c. split; [done|]. by rewrite Z.add_0_r.
    - destruct (Hi i ref' Hr) as (c' & ? & Hp). exists c'. split; [done|].
      by replace (idx + Z.of_nat (S i)) with (idx + 1 + Z.of_nat i) by lia. }
  destruct (Hgen _ _ _ Hcs) as [Hl Hi]. split; [done|]. split; [done|]. intros i ref Hr.
  destruct (Hi i ref Hr) as (c & Hc & Hp). destruct (parseBlobRefs_Ret _ _ _ _ _ Hp) as (data & Hd & Hlen & He & Hcm & Hpf & Hv).
  exists data, (Blob c), (Commitment c), (Proof c). rewrite !list_lookup_fmap, Hc. simpl. rewrite Hv. by repeat split.
Qed.

(** A random reference with a length, as the format suggests it, panics: its
    second part is read from a position the list does not have. *)
Theorem random_length_panics (txIdx blobIdx replacementIdx : Z) (draw have : nat) (len : string) :
  free_of ":" len = true ->
  parse_ref txIdx blobIdx replacementIdx draw have ("random:" +:+ len) = Panic "index out of range [2]".
Proof.
  intros Hl. unfold parse_ref. replace ("random:" +:+ len)%string with ("random" +:+ String ":" len)%string by done.
  rewrite Split_app, Split_free by done. done.
Qed.
End sidecar.

(** ** Witnesses *)

(** A small instance: four field elements per blob, and the commitments and
    proofs are prefixes of the blob. *)
Definition ex_hex (s : string) : bytes := String.list_byte_of_string s.
Definition ex_kzg : Kzg := {|
  BlobTxFieldElementsPerBlob := 4;
  kzg_BlobToCommitment b := Ok (take 48 b);
  kzg_ComputeBlobProof b c := Ok (take 8 c);
  sha256_Sum256 c := take 32 (c ++ replicate 32 x00);
  FromHex := ex_hex |}.
Definition ex_sources : BlobSources := {|
  src_ReadFile f := if String.eqb f "a:b" then Ok (String.list_byte_of_string "file data") else Err "no such file"%string;
  src_loadURLRef u := Err "offline"%string;
  src_Intn n room := room - 1;
  src_Read n size := Ok (replicate (Z.to_nat size) xff) |}.

Lemma encodeBlobData_roundtrip_witness :
  let data := replicate 40 x2a in
  exists blob, @encodeBlobData ex_kzg data = Some blob /\ length blob = 128%nat /\
    decode_fields 4 blob = data ++ replicate 84 x00.
Proof.
  intros data. destruct (@encodeBlobData_roundtrip ex_kzg data) as (blob & He & Hl & Hd & _).
  { apply Nat.leb_le. reflexivity. }
  exists blob. split; [exact He|]. split; [exact Hl|]. exact Hd.
Defined.

Lemma GenerateBlobSidecar_aligned_witness :
  exists hashes sc,
    @GenerateBlobSidecar ex_kzg ex_sources ["repeat:0xab:3,file:a:b"; "random"]%string 1 0 = Ret (hashes, sc) /\
    length hashes = 2%nat.
Proof.
  eexists _, _. split; [vm_compute; reflexivity|].
  refine (proj1 (@GenerateBlobSidecar_aligned ex_kzg ex_sources ["repeat:0xab:3,file:a:b"; "random"]%string 1 0 _ _ _)).
  vm_compute. reflexivity.
Defined.

Lemma random_length_panics_witness :
  @parse_ref ex_kzg ex_sources 0 0 0 0 0 "random:128" = Panic "index out of range [2]".
Proof. exact (@random_length_panics ex_kzg ex_sources 0 0 0 0 0 "128" eq_refl). Defined.
