(* ===== verification/WalletPool.v ===== *)
(** * Wallet pools

    pkg/coordinator/wallet/walletpool.go: child wallets derived from a root
    key and a seed, handed out in turn ([GetNextChildWallet]) and refilled
    from the root wallet ([EnsureFunding]).  Wallets are the objects of the
    manager's map, named by their address.  The refill runs in two parts: one
    pass over the children that builds the transactions, and a loop that
    sends them with a bounded number in flight, given by its steps. *)

From S2P Require Import Prelude Wallet.

Open Scope Z_scope.

(** Keys, hashing and the refill transaction, from go-ethereum and the
    standard library. *)
Class PoolTypes `{types : EthTypes} := {
  FromECDSA : PrivateKey -> list Z;
  Sum256 : list Z -> list Z;
  ToECDSA : list Z -> result PrivateKey;
  PubkeyToAddress : PrivateKey -> Address;
  NewTx : Z -> Address -> Z -> Tx;
  NewTx_Nonce : forall nonce to value, Tx_Nonce (NewTx nonce to value) = nonce;
  NewTx_Value : forall nonce to value, Tx_Value (NewTx nonce to value) = value;
  NewTx_To : forall nonce to value, Tx_To (NewTx nonce to value) = Some to
}.

(** [binary.BigEndian.PutUint64] *)
Fixpoint be_bytes (n : nat) (z : Z) : list Z :=
  match n with O => [] | S n => be_bytes n (Z.shiftr z 8) ++ [Z.land z 255] end.

Section pool.
Context `{types : EthTypes} `{!PoolTypes}.
#[local] Existing Instance types.

Record WalletPool := mkWalletPool { rootWallet : Address; wallets : list Address; nextIdx : Z }.

Definition get_wallet (m : gmap Address Wallet) (a : Address) : Wallet := default (newWallet a) (m !! a).

(** What is hashed for a child's key. *)
Definition child_preimage (root : PrivateKey) (childIdx : Z) (childSeed : list Z) : list Z :=
  FromECDSA root ++ be_bytes 8 childIdx ++ childSeed.

Definition newChildWallet (root : PrivateKey) (childIdx : Z) (childSeed : list Z) (m : gmap Address Wallet)
    : gmap Address Wallet * result Address :=
  match ToECDSA (Sum256 (child_preimage root childIdx childSeed)) with
  | Err e => (m, Err e)
  | Ok childKey =>
      let a := PubkeyToAddress childKey in
      ((GetWalletByPrivkey childKey a m).1, Ok a)
  end.

Fixpoint pool_loop (root : PrivateKey) (childSeed : list Z) (n : nat) (i : Z) (m : gmap Address Wallet)
    : gmap Address Wallet * result (list Address) :=
  match n with
  | O => (m, Ok [])
  | S n =>
      let '(m, r) := newChildWallet root i childSeed m in
      match r with
      | Err e => (m, Err e)
      | Ok a =>
          let '(m, r) := pool_loop root childSeed n (i + 1) m in
          (m, match r with Err e => Err e | Ok l => Ok (a :: l) end)
      end
  end.

Definition GetWalletPoolByPrivkey (privkey : PrivateKey) (walletCount : nat) (childSeed : list Z)
    (m : gmap Address Wallet) : gmap Address Wallet * result WalletPool :=
  let root := PubkeyToAddress privkey in
  let m := (GetWalletByPrivkey privkey root m).1 in
  let '(m, r) := pool_loop privkey childSeed walletCount 0 m in
  (m, match r with Err e => Err e | Ok l => Ok (mkWalletPool root l 0) end).

Definition GetChildWallet (index : Z) (pool : WalletPool) : option Address :=
  if Z.of_nat (length (wallets pool)) <=? index then None else wallets pool !! Z.to_nat index.

Definition GetNextChildWallet (pool : WalletPool) : go (WalletPool * Address) :=
  match wallets pool !! Z.to_nat (nextIdx pool) with
  | None => Panic "index out of range"
  | Some w =>
      let nextIdx := nextIdx pool +u 1 in
      let nextIdx := if Z.of_nat (length (wallets pool)) <=? nextIdx then 0 else nextIdx in
      Ret (mkWalletPool (rootWallet pool) (wallets pool) nextIdx, w)
  end.

(** ** [EnsureFunding]: which children are refilled

    [minBalance] is a pointer of the caller: [minBalance.Sub(minBalance, ..)]
    changes the number behind it, for the wallets that follow and for the
    caller. *)

Record scan := mkScan {
  sc_wallets : gmap Address Wallet;
  sc_minBalance : Z;
  sc_refillTxs : list Tx;
  sc_refillError : option error }.

Definition refill_amount (minBalance refillAmount balance : Z) : Z * Z :=
  if refillAmount <? minBalance then
    let diffAmount := minBalance - balance in
    (diffAmount, if refillAmount <? diffAmount then diffAmount else refillAmount)
  else (minBalance, refillAmount).

Definition refill_tx (root a : Address) (amount : Z) (ctxErr : option error) (m : gmap Address Wallet)
    : gmap Address Wallet * option (result Tx) :=
  let '(w, r) := BuildTransaction ctxErr (fun nonce => Ok (NewTx nonce a amount)) (get_wallet m root) in
  (<[root := w]> m, r).

(** The pass; the inner option is [None] while it waits for a wallet, and an
    error ends it. *)
Fixpoint scan_wallets (root : Address) (refillAmount : Z) (ctxErr : option error) (l : list Address) (s : scan)
    : scan * option (result unit) :=
  match l with
  | [] => (s, Some (Ok tt))
  | a :: l =>
      let wallet := get_wallet (sc_wallets s) a in
      match AwaitReady ctxErr wallet with
      | None => (s, None)
      | Some (Some e) => (s, Some (Err e))
      | Some None =>
          if sc_minBalance s <? pendingBalance wallet then scan_wallets root refillAmount ctxErr l s
          else
            let '(minBalance, amount) := refill_amount (sc_minBalance s) refillAmount (pendingBalance wallet) in
            let '(m, r) := refill_tx root a amount ctxErr (sc_wallets s) in
            match r with
            | None => (mkScan m minBalance (sc_refillTxs s) (sc_refillError s), None)
            | Some (Err e) =>
                scan_wallets root refillAmount ctxErr l (mkScan m minBalance (sc_refillTxs s) (Some e))
            | Some (Ok tx) =>
                scan_wallets root refillAmount ctxErr l
                  (mkScan m minBalance (sc_refillTxs s ++ [tx]) (sc_refillError s))
            end
      end
  end.

(** ** [EnsureFunding]: sending the refills *)

Fixpoint send_first_ok {C} (send : C -> option error) (clients : list C) (err : option error) : option error :=
  match clients with
  | [] => err
  | c :: clients => match send c with None => None | Some e => send_first_ok send clients (Some e) end
  end.

(** [todo]: not yet taken by the loop; [inflight]: awaited by goroutines;
    [failed]: a send failed and the loop was left; [cancelled]: the call
    returned from its [ctx.Done] case. *)
Record sending := mkSending {
  todo : list Tx; inflight : list Tx; sent : list Tx; failed : bool; refillError : option error;
  cancelled : option error }.

Inductive funding_event {C : Type} :=
  | FundSend (send : C -> option error)
  | FundAwaited (i : nat) (awaitErr : option error)
  | FundCancelled (ctxErr : error).
Arguments funding_event C : clear implicits.

Definition funding_step {C} (clients : list C) (pendingLimit : Z) (e : funding_event C) (s : sending) : option sending :=
  match e with
  | FundSend send =>
      if failed s || bool_decide (is_Some (cancelled s)) then None
      else
        match todo s with
        | [] => None
        | tx :: rest =>
            if Z.of_nat (length (inflight s)) <? pendingLimit then
              match send_first_ok send clients None with
              | Some e => Some (mkSending rest (inflight s) (sent s) true (Some e) None)
              | None => Some (mkSending rest (inflight s ++ [tx]) (sent s ++ [tx]) false (refillError s) None)
              end
            else None
        end
  | FundAwaited i awaitErr =>
      match inflight s !! i with
      | None => None
      | Some _ =>
          Some (mkSending (todo s) (delete i (inflight s)) (sent s) (failed s)
                 (match awaitErr with Some _ => awaitErr | None => refillError s end) (cancelled s))
      end
  | FundCancelled ctxErr =>
      if failed s || bool_decide (is_Some (cancelled s)) || bool_decide (todo s = []) then None
      else Some (mkSending (todo s) (inflight s) (sent s) false (refillError s) (Some ctxErr))
  end.

Fixpoint funding_run {C} (clients : list C) (pendingLimit : Z) (es : list (funding_event C)) (s : sending) : option sending :=
  match es with
  | [] => Some s
  | e :: es => s ← funding_step clients pendingLimit e s; funding_run clients pendingLimit es s
  end.

Definition funding_start (s : scan) : sending := mkSending (sc_refillTxs s) [] [] false (sc_refillError s) None.

(** What the call returns: from the [ctx.Done] case at once, else when
    [txWg.Wait()] is over. *)
Definition funding_result (s : sending) : option (option error) :=
  if cancelled s is Some e then Some (Some e)
  else if failed s || bool_decide (todo s = []) then
    if bool_decide (inflight s = []) then Some (refillError s) else None
  else None.
End pool.

(** ** Lemmas *)

Lemma be_bytes_length n z : length (be_bytes n z) = n.
Proof. revert z. induction n as [|n IH]; intros z; simpl; [done|]. rewrite length_app, IH. simpl. lia. Qed.

Lemma be_bytes_inj n a b :
  0 <= a < 2 ^ (8 * Z.of_nat n) -> 0 <= b < 2 ^ (8 * Z.of_nat n) -> be_bytes n a = be_bytes n b -> a = b.
Proof.
  revert a b. induction n as [|n IH]; intros a b Ha Hb.
  { change (2 ^ (8 * Z.of_nat 0)) with 1 in *. lia. }
  replace (8 * Z.of_nat (S n)) with (8 * Z.of_nat n + 8) in Ha, Hb by lia.
  rewrite Z.pow_add_r in Ha, Hb by lia. change (2 ^ 8) with 256 in Ha, Hb.
  cbn [be_bytes]. intros [Hhi Hlo]%app_inj_2; [|done]. injection Hlo as Hlo.
  change 255 with (Z.ones 8) in Hlo. rewrite !Z.land_ones in Hlo by lia. change (2 ^ 8) with 256 in Hlo.
  apply IH in Hhi; rewrite !Z.shiftr_div_pow2 in * by lia; change (2 ^ 8) with 256 in *.
  - rewrite (Z.div_mod a 256), (Z.div_mod b 256) by lia. lia.
  - split; [apply Z.div_pos; lia|apply Z.div_lt_upper_bound; lia].
  - split; [apply Z.div_pos; lia|apply Z.div_lt_upper_bound; lia].
Qed.

Section pool_lemmas.
Context `{types : EthTypes} `{!PoolTypes}.
#[local] Existing Instance types.

Definition ready (m : gmap Address Wallet) (a : Address) : Prop :=
  readyChan (get_wallet m a) ∈ closedReady (get_wallet m a).

(** The wallets a pass refills when the threshold stays fixed. *)
Definition needs_funding (m : gmap Address Wallet) (minBalance : Z) (a : Address) : bool :=
  negb (minBalance <? pendingBalance (get_wallet m a)).

Lemma AwaitReady_ready m a : ready m a -> AwaitReady None (get_wallet m a) = Some None.
Proof. intros Hrd. unfold AwaitReady. by rewrite decide_True. Qed.

Lemma refill_tx_ok root a amount m sign :
  ready m root -> nonce_ok (pendingNonce (get_wallet m root)) ->
  (forall tx, SignTx tx (privkey (get_wallet m root)) = Ok (sign tx)) ->
  let w := get_wallet m root in
  refill_tx root a amount None m =
    (<[root := set_pending (pendingNonce w + 1) (pendingBalance w - amount) w]> m,
     Some (Ok (sign (NewTx (pendingNonce w) a amount)))).
Proof.
  intros Hr Hn Hs. unfold refill_tx, BuildTransaction. rewrite AwaitReady_ready, Hs by done.
  rewrite NewTx_Nonce, NewTx_Value, nonce_succ by done.
  by assert (pendingNonce (get_wallet m root) <? pendingNonce (get_wallet m root) + 1 = true) as -> by lia.
Qed.

Lemma get_wallet_insert m a w b : get_wallet (<[a := w]> m) b = if decide (a = b) then w else get_wallet m b.
Proof.
  unfold get_wallet. destruct (decide (a = b)) as [->|]; [by rewrite lookup_insert_eq|by rewrite lookup_insert_ne].
Qed.

(** One pass with a fixed amount: the transactions, and the root wallet. *)
Lemma scan_fixed root amount minBalance sign l m txs err :
  root ∉ l -> (forall a, a ∈ root :: l -> ready m a) -> minBalance <= amount ->
  0 <= pendingNonce (get_wallet m root) -> pendingNonce (get_wallet m root) + Z.of_nat (length l) < MaxUint64 ->
  (forall tx, SignTx tx (privkey (get_wallet m root)) = Ok (sign tx)) ->
  let funded := filterb (needs_funding m minBalance) l in
  exists m',
    scan_wallets root amount None l (mkScan m minBalance txs err) =
      (mkScan m' minBalance
         (txs ++ imap (fun i a => sign (NewTx (pendingNonce (get_wallet m root) + Z.of_nat i) a amount)) funded) err,
       Some (Ok tt)) /\
    pendingNonce (get_wallet m' root) = pendingNonce (get_wallet m root) + Z.of_nat (length funded) /\
    pendingBalance (get_wallet m' root) = pendingBalance (get_wallet m root) - Z.of_nat (length funded) * amount /\
    forall a, a <> root -> get_wallet m' a = get_wallet m a.
Proof.
  intros Hroot. revert m txs. induction l as [|a l IH]; intros m txs Hr Hle H0 Hn Hs.
  { exists m. rewrite filterb_nil. cbn [imap length]. simpl imap. rewrite app_nil_r. split_and!; [done|lia|lia|done]. }
  cbn [scan_wallets sc_wallets sc_minBalance sc_refillTxs sc_refillError]. cbv zeta.
  rewrite not_elem_of_cons in Hroot. destruct Hroot as [Hra Hroot].
  rewrite AwaitReady_ready by (apply Hr; set_solver). rewrite filterb_cons.
  change (needs_funding m minBalance a) with (negb (minBalance <? pendingBalance (get_wallet m a))).
  destruct (minBalance <? pendingBalance (get_wallet m a)) eqn:Hb; cbn [negb].
  { apply IH; try done; [set_solver|simpl in Hn; lia]. }
  unfold refill_amount. assert (amount <? minBalance = false) as -> by lia.
  rewrite (refill_tx_ok _ _ _ _ sign); [|apply Hr; set_solver|simpl in Hn; unfold nonce_ok; lia|done].
  set (w := get_wallet m root). set (w' := set_pending _ _ w).
  assert (Hroot' : get_wallet (<[root := w']> m) root = w') by (rewrite get_wallet_insert; by rewrite decide_True).
  assert (Hoth : forall b, b <> root -> get_wallet (<[root := w']> m) b = get_wallet m b).
  { intros b Hne. rewrite get_wallet_insert. by rewrite decide_False. }
  destruct (IH Hroot (<[root := w']> m) (txs ++ [sign (NewTx (pendingNonce w) a amount)])) as (m' & -> & Hpn & Hpb & Ho).
  - intros b Hbl. unfold ready. destruct (decide (b = root)) as [->|Hne].
    + rewrite Hroot'. simpl. apply Hr. set_solver.
    + rewrite Hoth by done. apply Hr. set_solver.
  - done.
  - rewrite Hroot'. simpl. fold w in H0. lia.
  - rewrite Hroot'. simpl in *. fold w in Hn. lia.
  - rewrite Hroot'. exact Hs.
  - assert (filterb (needs_funding (<[root:=w']> m) minBalance) l = filterb (needs_funding m minBalance) l) as Hf.
    { apply filterb_ext_in. intros b Hbl. unfold needs_funding. rewrite Hoth; [done|]. set_solver. }
    rewrite Hf in *. rewrite Hroot' in *. simpl in Hpn, Hpb |- *. fold w in Hpn, Hpb |- *.
    exists m'. split_and!; [|lia|lia|].
    + do 2 f_equal. rewrite <- app_assoc. do 2 f_equal. simpl. f_equal.
      * by rewrite Z.add_0_r.
      * apply imap_ext. intros i b _. simpl. do 2 f_equal. lia.
    + intros b Hne. rewrite Ho by done. by apply Hoth.
Qed.
End pool_lemmas.

(** ** Properties *)

Section pool_properties.
Context `{types : EthTypes} `{PT : !PoolTypes}.
#[local] Existing Instance types.

(** Which children are refilled.  When the refill amount is at least the
    minimum, a pass over ready wallets refills exactly the children whose
    pending balance is not above the minimum, in order, each with the refill
    amount and the next nonce of the root wallet, which is charged for them;
    the minimum and the other wallets stay as they were. *)
Theorem EnsureFunding_refills root amount minBalance sign (l : list Address) m :
  root ∉ l -> (forall a, a ∈ root :: l -> ready m a) -> minBalance <= amount ->
  0 <= pendingNonce (get_wallet m root) -> pendingNonce (get_wallet m root) + Z.of_nat (length l) < MaxUint64 ->
  (forall tx, SignTx tx (privkey (get_wallet m root)) = Ok (sign tx)) ->
  exists m',
    scan_wallets root amount None l (mkScan m minBalance [] None) =
      (mkScan m' minBalance
         (imap (fun i a => sign (NewTx (pendingNonce (get_wallet m root) + Z.of_nat i) a amount))
            (filterb (needs_funding m minBalance) l)) None, Some (Ok tt)) /\
    pendingBalance (get_wallet m' root) =
      pendingBalance (get_wallet m root) - Z.of_nat (length (filterb (needs_funding m minBalance) l)) * amount /\
    forall a, a <> root -> get_wallet m' a = get_wallet m a.
Proof.
  intros Hroot Hr Hle H0 Hn Hs.
  destruct (scan_fixed root amount minBalance sign l m [] None Hroot Hr Hle H0 Hn Hs) as (m' & Hm & _ & Hb & Ho).
  exists m'. by split_and!.
Qed.

(** The threshold shrinks.  When the refill amount is below the minimum, the
    first refilled child's balance is subtracted from the minimum itself, so
    a second child that is short as well, but not by so much, gets nothing;
    and the caller is left with the smaller minimum for its next pass. *)
Theorem EnsureFunding_threshold_shrinks root a b amount minBalance sign m :
  root <> a -> root <> b -> a <> b -> (forall x, x ∈ [root; a; b] -> ready m x) ->
  amount < minBalance -> pendingBalance (get_wallet m a) <= minBalance ->
  minBalance - pendingBalance (get_wallet m a) < pendingBalance (get_wallet m b) <= minBalance ->
  nonce_ok (pendingNonce (get_wallet m root)) ->
  (forall tx, SignTx tx (privkey (get_wallet m root)) = Ok (sign tx)) ->
  exists s, scan_wallets root amount None [a; b] (mkScan m minBalance [] None) = (s, Some (Ok tt)) /\
    (exists tx, sc_refillTxs s = [sign tx] /\ Tx_To tx = Some a) /\
    sc_minBalance s = minBalance - pendingBalance (get_wallet m a).
Proof.
  intros Hra Hrb Hab Hr Hlt Ha Hb Hn Hs.
  assert (Hrd : forall x, x ∈ [root; a; b] -> AwaitReady None (get_wallet m x) = Some None).
  { intros x Hx. by apply AwaitReady_ready, Hr. }
  cbn [scan_wallets sc_wallets sc_minBalance sc_refillTxs sc_refillError]. rewrite Hrd by set_solver.
  assert (minBalance <? pendingBalance (get_wallet m a) = false) as -> by lia.
  unfold refill_amount. assert (amount <? minBalance = true) as -> by lia.
  set (diff := minBalance - _). set (amt := if amount <? diff then diff else amount). cbv zeta.
  rewrite (refill_tx_ok _ _ _ _ sign) by (try done; apply Hr; set_solver). cbv zeta.
  cbn [scan_wallets sc_wallets sc_minBalance sc_refillTxs sc_refillError].
  rewrite get_wallet_insert, decide_False by done. rewrite Hrd by set_solver.
  assert (diff <? pendingBalance (get_wallet m b) = true) as -> by lia.
  eexists. split; [done|]. split; [|done]. eexists. split; [done|]. apply NewTx_To.
Qed.

(** *** Sending *)

Record funding_inv (pendingLimit : Z) (txs : list Tx) (err0 : option error) (s : sending) : Prop := {
  fi_bound : Z.of_nat (length (inflight s)) <= Z.max 0 pendingLimit;
  fi_order : exists stuck, txs = sent s ++ stuck ++ todo s /\ (length stuck <= 1)%nat /\
    (failed s = false -> stuck = []);
  fi_sub : forall tx, tx ∈ inflight s -> tx ∈ sent s;
  fi_failed : failed s = true -> exists e, refillError s = Some e;
  fi_err : err0 <> None -> refillError s <> None
}.

Lemma funding_step_inv {C} (clients : list C) pendingLimit txs err0 e s s' :
  funding_inv pendingLimit txs err0 s -> funding_step clients pendingLimit e s = Some s' ->
  funding_inv pendingLimit txs err0 s'.
Proof.
  intros [Hb (stuck & Ho & Hst & Hnf) Hsub Hf He]. destruct e as [send|i awaitErr|ctxErr]; simpl.
  - destruct (failed s) eqn:Hfs; [done|]. case_bool_decide; [done|]. simpl. rewrite (Hnf eq_refl) in Ho. destruct (todo s) as [|tx rest] eqn:Ht; [done|].
    destruct (_ <? pendingLimit) eqn:Hlt; [|done].
    destruct (send_first_ok send clients None) as [e|]; intros [= <-]; split; simpl; try done.
    + exists [tx]. split; [done|]. split; [simpl; lia|done].
    + by eexists.
    + rewrite length_app. simpl. lia.
    + exists []. split; [|by split; [simpl; lia|]]. by rewrite Ho, <- app_assoc.
    + intros x [?|Hx]%elem_of_app; apply elem_of_app; [left; by apply Hsub|by right].
  - destruct (inflight s !! i) as [tx|] eqn:Hi; [|done]. intros [= <-]. split; simpl.
    + rewrite length_delete by done. lia.
    + by exists stuck.
    + intros x Hx. apply Hsub. eapply elem_of_submseteq; [done|]. apply sublist_submseteq, sublist_delete.
    + intros Hfs. destruct awaitErr; [by eexists|]. by apply Hf.
    + intros H0. destruct awaitErr; [done|]. by apply He.
  - destruct (failed s) eqn:Hfs; [done|]. do 2 (case_bool_decide; [done|]).
    intros [= <-]. split; simpl; try done. exists stuck. by rewrite (Hnf eq_refl) in *.
Qed.

Lemma funding_run_inv {C} (clients : list C) pendingLimit txs err0 es s s' :
  funding_inv pendingLimit txs err0 s -> funding_run clients pendingLimit es s = Some s' ->
  funding_inv pendingLimit txs err0 s'.
Proof.
  revert s. induction es as [|e es IH]; intros s Hinv; simpl; [by intros [= <-]|].
  destruct (funding_step clients pendingLimit e s) as [s1|] eqn:Hs; [|done]. simpl.
  apply IH. by eapply funding_step_inv.
Qed.

(** Sending the refills, in any order of the answers: never more than
    [pendingLimit] transactions await their confirmation; what was sent is a
    beginning of the refills in order, short of the one whose sending failed
    and those after it; and the call succeeds only if every refill was
    accepted and confirmed.  A cancelled call returns the context's error at
    once, whatever is in flight.  With a limit of zero nothing is ever sent. *)
Theorem EnsureFunding_bounded {C} (clients : list C) (pendingLimit : Z) (s0 : scan) es s :
  funding_run clients pendingLimit es (funding_start s0) = Some s ->
  Z.of_nat (length (inflight s)) <= Z.max 0 pendingLimit /\
  sent s `prefix_of` sc_refillTxs s0 /\
  (funding_result s = Some None -> sent s = sc_refillTxs s0 /\ inflight s = []) /\
  (pendingLimit <= 0 -> sent s = [] /\ todo s = sc_refillTxs s0).
Proof.
  intros Hrun.
  assert (funding_inv pendingLimit (sc_refillTxs s0) (sc_refillError s0) (funding_start s0)) as Hinv0.
  { split; simpl; try done; [lia|]. exists []. split; [done|]. split; [simpl; lia|done]. }
  pose proof (funding_run_inv _ _ _ _ _ _ _ Hinv0 Hrun) as [Hb (stuck & Ho & Hst & Hnf) _ Hf _].
  split; [done|]. split; [by eexists|]. split.
  - unfold funding_result. destruct (cancelled s); [done|]. destruct (failed s) eqn:Hfs; simpl.
    + destruct (Hf eq_refl) as [e He]. rewrite He. by case_bool_decide.
    + rewrite (Hnf eq_refl) in Ho. case_bool_decide as Ht; [|done]. case_bool_decide; [|done]. intros _. split; [|done].
      rewrite Ht in Ho. rewrite Ho. by list_simplifier.
  - intros Hz. clear - Hz Hrun. assert (forall es0 s1, inflight s1 = [] -> funding_run clients pendingLimit es0 s1 = Some s ->
      sent s = sent s1 /\ todo s = todo s1) as Hgen; [|by apply (Hgen es (funding_start s0))].
    clear Hrun. induction es0 as [|e es' IH]; intros s1 Hi; cbn [funding_run]; [by intros [= <-]|].
    destruct e as [send|i awaitErr|ctxErr]; cbn [funding_step]; rewrite ?Hi; [|done|].
    + destruct (failed s1 || _); [done|]. destruct (todo s1); [done|]. cbn [length].
      by rewrite (proj2 (Z.ltb_ge (Z.of_nat 0) _) Hz).
    + destruct (failed s1 || _ || _); [done|]. cbn [mbind option_bind].
      intros H. by apply (IH (mkSending (todo s1) [] (sent s1) false (refillError s1) (Some ctxErr))) in H.
Qed.

(** *** Children *)

(** The keys of a pool's children are hashes of different data: for one root
    key, two children have the same preimage only if they have the same index
    and the same seed. *)
Theorem child_preimage_injective (root : PrivateKey) (i j : Z) (seed seed' : list Z) :
  is_u64 i -> is_u64 j -> child_preimage root i seed = child_preimage root j seed' -> i = j /\ seed = seed'.
Proof.
  intros Hi Hj [Hb Hs]%app_inv_head%app_inj_1; [|by rewrite !be_bytes_length].
  split; [|done]. apply (be_bytes_inj 8); [exact Hi|exact Hj|done].
Qed.

(** The child wallets are handed out in turn: the [k]-th call from the first
    child on returns child [k] modulo their number, and a pool without
    children panics. *)
Fixpoint next_children (k : nat) (pool : WalletPool) : go (WalletPool * list Address) :=
  match k with
  | O => Ret (pool, [])
  | S k =>
      do! (pool, w) := GetNextChildWallet pool in
      do! (pool, ws) := next_children k pool in
      Ret (pool, w :: ws)
  end.

Lemma next_children_spec k root l i :
  (0 < length l)%nat -> Z.of_nat (length l) < two64 -> (i < length l)%nat ->
  next_children k (mkWalletPool root l (Z.of_nat i)) =
  Ret (mkWalletPool root l (Z.of_nat ((i + k) mod length l)),
       (fun j => nth ((i + j) mod length l) l 0%N) <$> seq 0 k).
Proof.
  revert i. induction k as [|k IH]; intros i Hl Hw Hi.
  { simpl. by rewrite Nat.add_0_r, Nat.mod_small. }
  cbn [next_children]. unfold GetNextChildWallet at 1. cbn [wallets nextIdx rootWallet]. rewrite Nat2Z.id.
  destruct (lookup_lt_is_Some_2 l i Hi) as [w Hwi]. rewrite Hwi. cbn [go_bind].
  assert (Z.of_nat i +u 1 = Z.of_nat (S i)) as -> by (rewrite u64_add_lt; go_lia).
  assert ((if Z.of_nat (length l) <=? Z.of_nat (S i) then 0 else Z.of_nat (S i)) = Z.of_nat (S i mod length l)) as ->.
  { destruct (Z.leb_spec (Z.of_nat (length l)) (Z.of_nat (S i))) as [H|H].
    - assert (S i = length l) as -> by lia. by rewrite Nat.Div0.mod_same.
    - rewrite Nat.mod_small by lia. done. }
  rewrite IH by (try done; apply Nat.mod_upper_bound; lia). cbn [go_bind].
  assert (forall x y, (x mod length l + y) mod length l = (x + y) mod length l)%nat as Hmod.
  { intros x y. by rewrite Nat.Div0.add_mod_idemp_l. }
  f_equal. f_equal.
  - do 2 f_equal. rewrite Hmod. f_equal. lia.
  - cbn [seq fmap list_fmap]. f_equal.
    + rewrite Nat.add_0_r, Nat.mod_small by done. symmetry. by apply nth_lookup_Some.
    + rewrite <- (fmap_S_seq 0 k), <- list_fmap_compose. apply list_fmap_ext. intros _ j _. simpl.
      f_equal. rewrite (Hmod (S i) j). f_equal. lia.
Qed.

Theorem GetNextChildWallet_cycles (root : Address) (l : list Address) (k : nat) :
  0 < Z.of_nat (length l) < two64 ->
  next_children k (mkWalletPool root l 0) =
    Ret (mkWalletPool root l (Z.of_nat (k mod length l)), (fun j => nth (j mod length l) l 0%N) <$> seq 0 k) /\
  GetNextChildWallet (mkWalletPool root [] 0) = Panic "index out of range".
Proof.
  intros Hl. split; [|done]. apply (next_children_spec k root l 0); lia.
Qed.
End pool_properties.

(** ** Witnesses *)

#[local] Existing Instance ex_types.

Definition ex_newtx (nonce : Z) (to : Address) (value : Z) : ex_tx := mkExTx 1 nonce value to.
Definition ex_pool_types : PoolTypes (types := ex_types) := {|
  FromECDSA := fun k : @PrivateKey ex_types => [Z.of_N k];
  Sum256 := fun b => b;
  ToECDSA := fun b => Ok (Z.to_N (nth 8 b 0 + 10) : @PrivateKey ex_types);
  PubkeyToAddress := fun k : @PrivateKey ex_types => k;
  NewTx := ex_newtx;
  NewTx_Nonce := fun _ _ _ => eq_refl;
  NewTx_Value := fun _ _ _ => eq_refl;
  NewTx_To := fun _ _ _ => eq_refl |}.
#[local] Existing Instance ex_pool_types.

(** The root wallet 1 and the children 10, 11 and 12. *)
Definition ex_wallets (b1 b2 b3 : Z) : gmap Address (@Wallet ex_types) :=
  <[1%N := ex_wallet 1 5 1000]> (<[10%N := ex_wallet 10 0 b1]> (<[11%N := ex_wallet 11 0 b2]>
  (<[12%N := ex_wallet 12 0 b3]> ∅))).

Lemma ex_wallets_ready b1 b2 b3 a : a ∈ [1; 10; 11; 12]%N -> ready (types := ex_types) (ex_wallets b1 b2 b3) a.
Proof. rewrite !elem_of_cons. intros [->|[->|[->|[->|H]]]]; [| | | |by apply elem_of_nil in H]; vm_compute; done. Qed.

Lemma ex_wallet_signs b1 b2 b3 (tx : @Tx ex_types) :
  SignTx tx (privkey (get_wallet (types := ex_types) (ex_wallets b1 b2 b3) 1)) = Ok tx.
Proof. reflexivity. Qed.

Lemma EnsureFunding_refills_witness :
  exists s, scan_wallets (types := ex_types) 1 50 None [10; 11; 12]%N (mkScan (ex_wallets 5 80 30) 30 [] None) = (s, Some (Ok tt)) /\
    sc_refillTxs s = [ex_newtx 5 10 50; ex_newtx 6 12 50].
Proof.
  destruct (EnsureFunding_refills (types := ex_types) 1 50 30 id [10; 11; 12]%N (ex_wallets 5 80 30)) as (m' & Hm & _).
  - rewrite !elem_of_cons. intros [?|[?|[?|Hin]]]; [done..|by apply elem_of_nil in Hin].
  - intros a Ha. by apply ex_wallets_ready.
  - lia.
  - by vm_compute.
  - by vm_compute.
  - intros tx. apply ex_wallet_signs.
  - eexists. split; [exact Hm|]. reflexivity.
Defined.

Lemma EnsureFunding_threshold_shrinks_witness :
  exists s, scan_wallets (types := ex_types) 1 10 None [10; 11]%N (mkScan (ex_wallets 60 60 0) 100 [] None) = (s, Some (Ok tt)) /\
    length (sc_refillTxs s) = 1%nat /\ sc_minBalance s = 40.
Proof.
  destruct (EnsureFunding_threshold_shrinks (types := ex_types) 1 10 11 10 100 id (ex_wallets 60 60 0)) as (s & Hs & (tx & Htx & _) & Hmin).
  - done.
  - done.
  - done.
  - intros x Hx. apply ex_wallets_ready. set_solver.
  - lia.
  - by vm_compute.
  - split; by vm_compute.
  - split; by vm_compute.
  - intros tx. apply ex_wallet_signs.
  - exists s. split; [exact Hs|]. split; [by rewrite Htx|exact Hmin].
Defined.

Definition ex_scan : scan (types := ex_types) := mkScan (types := ex_types) ∅ 0 [ex_newtx 5 10 50; ex_newtx 6 12 50] None.

Lemma EnsureFunding_bounded_witness :
  exists s, funding_run (types := ex_types) [tt] 1
      [FundSend (fun _ => None); FundAwaited 0 None; FundSend (fun _ => None); FundAwaited 0 None]
      (funding_start ex_scan) = Some s /\
    funding_result s = Some None /\ Z.of_nat (length (inflight s)) <= 1.
Proof.
  eexists. split; [reflexivity|]. split; [reflexivity|].
  apply (EnsureFunding_bounded (types := ex_types) [tt] 1 ex_scan
    [FundSend (fun _ => None); FundAwaited 0 None; FundSend (fun _ => None); FundAwaited 0 None]). reflexivity.
Defined.

Lemma child_preimage_injective_witness :
  child_preimage (types := ex_types) 7%N 258 [1] = child_preimage (types := ex_types) 7%N 258 [1] /\ (258 = 258 /\ [1] = [1]).
Proof.
  split; [reflexivity|]. apply (child_preimage_injective (types := ex_types) 7%N 258 258 [1] [1]).
  - split; by vm_compute.
  - split; by vm_compute.
  - reflexivity.
Defined.

Lemma GetNextChildWallet_cycles_witness :
  next_children 4 (mkWalletPool 1 [10; 11; 12]%N 0) = Ret (mkWalletPool 1 [10; 11; 12]%N 1, [10; 11; 12; 10]%N).
Proof.
  destruct (GetNextChildWallet_cycles 1 [10; 11; 12]%N 4) as [H _]; [split; by vm_compute|]. exact H.
Defined.
