(* ===== verification/Registry.v ===== *)
(** * The test registry

    pkg/coordinator/testregistry.go with test/descriptor.go: descriptors of
    the tests a coordinator knows, from its configuration, from the database
    and from the API, in the order of their registration.  Go iterates over
    maps in any order; [iterate] is the order it takes.  Reading files and
    URLs and decoding YAML are parameters. *)

From S2P Require Import Prelude Vars Db Scheduler Execution Tests.

Open Scope Z_scope.

(** [types.ExternalTestConfig] *)
Record ExternalTestConfig := mkExternal {
  ext_ID : string;
  ext_File : string;
  ext_Name : string;
  ext_Timeout : option Z;
  ext_Config : gmap string value;
  ext_ConfigVars : gmap string string;
  ext_Schedule : option TestSchedule
}.

Definition set_ext_ID (id name : string) (e : ExternalTestConfig) : ExternalTestConfig :=
  mkExternal id (ext_File e) name (ext_Timeout e) (ext_Config e) (ext_ConfigVars e) (ext_Schedule e).

Definition second : Z := 1000000000.

(** A web server's answer. *)
Inductive url_answer := Unreachable (e : error) | Answered (StatusCode : Z) (body : string).

Section registry.
Context `{lib : Library} `{raw : RawMessages}.

Class RegistrySources := {
  (** the order of the iteration over a map *)
  iterate : forall {A}, gmap string A -> list (string * A);
  iterate_perm : forall {A} (m : gmap string A), iterate m ≡ₚ map_to_list m;
  src_open : string -> result string;
  src_get : string -> url_answer;
  (** [yaml.Decoder.Decode] into a [types.TestConfig] *)
  src_Decode : string -> result TestConfig;
  (** [yaml.Unmarshal] into the fields of a stored test, and [yaml.Marshal] *)
  Unmarshal_Config : string -> result (gmap string value);
  Unmarshal_ConfigVars : string -> result (gmap string string);
  Unmarshal_Cron : string -> result (list string);
  Marshal_Config : gmap string value -> result string;
  Marshal_ConfigVars : gmap string string -> result string;
  Marshal_Cron : list string -> result string
}.
Context `{srcs : RegistrySources}.

(** *** test/descriptor.go *)

Definition NewDescriptor (testID testSrc : string) (config : TestConfig) (v : Variables_ref) : Descriptor :=
  mkDescriptor testID testSrc config v None.

Definition copy_vars (v source : Variables_ref) (copyMap : gmap string string) (h : Vars.heap)
    : Vars.heap * option error :=
  match CopyVars lib_yaml_Marshal lib_yaml_Unmarshal lib_gojq_Parse lib_query_Run
          lib_depth v source (iterate copyMap) h with
  | None => (h, Some "stack overflow"%string)
  | Some (h, Ok _) => (h, None)
  | Some (h, Err e) => (h, Some e)
  end.

Definition set_vars (v : Variables_ref) (m : gmap string value) (h : Vars.heap) : Vars.heap :=
  fold_left (fun h kv => SetVar v kv.1 kv.2 h) (iterate m) h.
Definition set_defaults (v : Variables_ref) (m : gmap string value) (h : Vars.heap) : Vars.heap :=
  fold_left (fun h kv => SetDefaultVar v kv.1 kv.2 h) (iterate m) h.

(** The loop over local tests; [testIdx] are before. *)
Definition local_descriptor (globalVars : Variables_ref) (testIdx : nat) (testCfg : TestConfig) (h : Vars.heap)
    : Vars.heap * Descriptor :=
  let testSrc := ("local-" +:+ pretty (S testIdx))%string in
  let testID := if String.eqb (cfg_ID testCfg) "" then testSrc else cfg_ID testCfg in
  let '(h, testVars) := NewScope globalVars h in
  let h := set_vars testVars (cfg_Config testCfg) h in
  let '(h, err) := copy_vars testVars globalVars (cfg_ConfigVars testCfg) h in
  (h, mkDescriptor testID testSrc testCfg testVars err).

Definition read_external (file : string) : result string :=
  if HasPrefix file "http://" || HasPrefix file "https://" then
    match src_get file with
    | Unreachable e => Err e
    | Answered code body =>
        if code =? 200 then Ok body else Err ("error loading test config from url: " ++ file)
    end
  else
    match src_open file with
    | Err e => Err ("error loading test config from file " ++ file ++ ": " ++ e)
    | Ok text => Ok text
    end%string.

(** The configuration of an external test over the one of its file: [m ∪ m'] keeps
    the entries of [m]. *)
Definition merge_external (testConfig : TestConfig) (ext : ExternalTestConfig) : TestConfig :=
  mkTestCfg
    (if String.eqb (ext_ID ext) "" then cfg_ID testConfig else ext_ID ext)
    (if String.eqb (ext_Name ext) "" then cfg_Name testConfig else ext_Name ext)
    (default (cfg_Timeout testConfig) (ext_Timeout ext))
    (ext_Config ext ∪ cfg_Config testConfig)
    (ext_ConfigVars ext ∪ cfg_ConfigVars testConfig)
    (cfg_Tasks testConfig) (cfg_CleanupTasks testConfig)
    (match ext_Schedule ext with Some s => Some s | None => cfg_Schedule testConfig end).

Definition LoadExternalTestConfig (globalVars : Variables_ref) (ext : ExternalTestConfig) (h : Vars.heap)
    : Vars.heap * result (TestConfig * Variables_ref) :=
  match read_external (ext_File ext) with
  | Err e => (h, Err e)
  | Ok text =>
      let '(h, testVars) := NewScope globalVars h in
      match src_Decode text with
      | Err e => (h, Err ("error decoding external test config " ++ ext_File ext ++ ": " ++ e))
      | Ok fileConfig =>
          let h := set_defaults testVars (cfg_Config fileConfig) h in
          let testConfig := merge_external fileConfig ext in
          let h := set_vars testVars (ext_Config ext) h in
          let '(h, err) := copy_vars testVars testVars (cfg_ConfigVars testConfig) h in
          match err with
          | Some e => (h, Err ("error decoding external test configVars " ++ ext_File ext ++ ": " ++ e))
          | None => (h, Ok (testConfig, testVars))
          end
      end
  end%string.

(** A descriptor whose load failed has neither configuration nor variables;
    nothing reads them when there is an error. *)
Definition nil_config : TestConfig := mkTestCfg "" "" 0 ∅ ∅ [] [] None.

Definition external_descriptor (globalVars : Variables_ref) (testIdx : nat) (ext : ExternalTestConfig) (h : Vars.heap)
    : Vars.heap * Descriptor :=
  let testSrc := ("external:" +:+ ext_File ext)%string in
  let fallback := ("external-" +:+ pretty testIdx)%string in
  let '(h, r) := LoadExternalTestConfig globalVars ext h in
  match r with
  | Err e => (h, mkDescriptor fallback testSrc nil_config globalVars (Some e))
  | Ok (testConfig, testVars) =>
      (h, mkDescriptor (if String.eqb (cfg_ID testConfig) "" then fallback else cfg_ID testConfig)
            testSrc testConfig testVars None)
  end.

Fixpoint load_loop {A} (load : nat -> A -> Vars.heap -> Vars.heap * Descriptor) (testIdx : nat) (l : list A)
    (h : Vars.heap) : Vars.heap * list Descriptor :=
  match l with
  | [] => (h, [])
  | x :: l =>
      let '(h, d) := load testIdx x h in
      let '(h, ds) := load_loop load (S testIdx) l h in
      (h, d :: ds)
  end.

Definition LoadTestDescriptors (globalVars : Variables_ref) (localTests : list TestConfig)
    (externalTests : list ExternalTestConfig) (h : Vars.heap) : Vars.heap * list Descriptor :=
  let '(h, locals) := load_loop (local_descriptor globalVars) 0 localTests h in
  let '(h, externals) := load_loop (external_descriptor globalVars) 0 externalTests h in
  (h, locals ++ externals).

(** *** testregistry.go *)

Record TestRegistry := mkRegistry {
  globalVars : Variables_ref;
  testDescriptors : gmap string (Descriptor * Z);
  testDescriptorIndex : Z
}.

Definition NewTestRegistry (g : Variables_ref) : TestRegistry := mkRegistry g ∅ 0.

Definition GetTestDescriptors `{SliceSort} (c : TestRegistry) : list Descriptor :=
  let index d := from_option snd 0 (testDescriptors c !! td_id d) in
  slice_sort (fun a b => index a <? index b) (fst <$> (iterate (testDescriptors c)).*2).

(** A stored test; [None] when one of its fields cannot be decoded. *)
Definition externalTest_of_db (tc : Db.TestConfig) : option ExternalTestConfig :=
  match Unmarshal_Config (tc_Config tc), Unmarshal_ConfigVars (tc_ConfigVars tc),
        (if String.eqb (tc_ScheduleCronYaml tc) "" then Ok [] else Unmarshal_Cron (tc_ScheduleCronYaml tc)) with
  | Ok config, Ok configVars, Ok cron =>
      Some (mkExternal (tc_TestID tc) (tc_Source tc) (tc_Name tc)
        (if 0 <? tc_Timeout tc then Some (i64 (tc_Timeout tc * second)) else None)
        config configVars (Some (mkTestSchedule false cron false)))
  | _, _, _ => None
  end.

Definition externalTestCfgToDB (e : ExternalTestConfig) : result Db.TestConfig :=
  let! cronYaml := match ext_Schedule e with
    | Some s => match Cron s with [] => Ok ""%string | cron => Marshal_Cron cron end
    | None => Ok ""%string
    end in
  let! configYaml := Marshal_Config (ext_Config e) in
  let! configVarsYaml := Marshal_ConfigVars (ext_ConfigVars e) in
  Ok (mkTestConfig (ext_ID e) (ext_File e) (ext_Name e)
    (from_option (fun t => t ÷ second) 0 (ext_Timeout e)) configYaml configVarsYaml
    (from_option Startup true (ext_Schedule e)) cronYaml).

(** Register a descriptor; a known test keeps its index. *)
Definition register (d : Descriptor) (c : TestRegistry) : TestRegistry :=
  match from_option snd 0 (testDescriptors c !! td_id d) with
  | 0 =>
      let i := testDescriptorIndex c +u 1 in
      mkRegistry (globalVars c) (<[td_id d := (d, i)]> (testDescriptors c)) i
  | i => mkRegistry (globalVars c) (<[td_id d := (d, i)]> (testDescriptors c)) (testDescriptorIndex c)
  end.

Definition AddLocalTest (testConfig : TestConfig) (c : TestRegistry) (w : World)
    : TestRegistry * World * result Descriptor :=
  if String.eqb (cfg_ID testConfig) "" then (c, w, Err "cannot add test descriptor without ID"%string)
  else
    let '(h, testVars) := NewVariables (Some (globalVars c)) (w_scopes w) in
    let h := set_vars testVars (cfg_Config testConfig) h in
    let '(h, err) := copy_vars testVars (globalVars c) (cfg_ConfigVars testConfig) h in
    let w := set_w_scopes h w in
    match err with
    | Some e => (c, w, Err ("failed decoding configVars: " ++ e)%string)
    | None =>
        let d := NewDescriptor (cfg_ID testConfig) "api-call" testConfig testVars in
        (register d c, w, Ok d)
    end.

(** [AddExternalTest]; the caller's configuration gets the test's ID and name.
    A failing insert is only logged. *)
Definition AddExternalTest (ext : ExternalTestConfig) (c : TestRegistry) (w : World)
    : TestRegistry * World * ExternalTestConfig * result Descriptor :=
  let '(h, r) := LoadExternalTestConfig (globalVars c) ext (w_scopes w) in
  let w := set_w_scopes h w in
  match r with
  | Err e => (c, w, ext, Err ("failed loading test config from " ++ ext_File ext ++ ": " ++ e))
  | Ok (testConfig, testVars) =>
      if String.eqb (cfg_ID testConfig) "" then (c, w, ext, Err "test id missing or empty")
      else if String.eqb (cfg_Name testConfig) "" then (c, w, ext, Err "test name missing or empty")
      else if bool_decide (cfg_Tasks testConfig = []) then (c, w, ext, Err "test must have 1 or more tasks")
      else
        let d := NewDescriptor (cfg_ID testConfig) ("external:" +:+ ext_File ext) testConfig testVars in
        let ext := set_ext_ID (cfg_ID testConfig) (cfg_Name testConfig) ext in
        match externalTestCfgToDB ext with
        | Err e => (c, w, ext, Err ("error converting external test config " ++ ext_ID ext ++ " for db: " ++ e))
        | Ok row =>
            let '(w, _) := run_tx (InsertTestConfig row) w in
            (register d c, w, ext, Ok d)
        end
  end%string.

(** The stored test a configured one is taken for. *)
Definition same_test (cfg externalTest : ExternalTestConfig) : bool :=
  String.eqb (ext_ID externalTest) (ext_ID cfg) || String.eqb (ext_File externalTest) (ext_File cfg).

(** The loop over the configured external tests: the registry and world (with
    the tests [AddExternalTest] added), the rows to insert and the new
    descriptors. *)
Fixpoint configured_loop (stored external : list ExternalTestConfig) (c : TestRegistry) (w : World)
    : TestRegistry * World * list ExternalTestConfig * list Db.TestConfig * list Descriptor :=
  match external with
  | [] => (c, w, [], [], [])
  | cfg :: external =>
      match List.find (same_test cfg) stored with
      | Some e =>
          let cfg := mkExternal (ext_ID cfg) (ext_File cfg) (ext_Name cfg) (ext_Timeout cfg)
                       (ext_Config e) (ext_ConfigVars e) (ext_Schedule e) in
          let '(c, w, cfgs, rows, ds) := configured_loop stored external c w in
          (c, w, cfg :: cfgs, rows, ds)
      | None =>
          let dbTestCfg := externalTestCfgToDB cfg in
          let '(c, w, cfg, r) := AddExternalTest cfg c w in
          let '(row, d) := match r, dbTestCfg with
            | Ok d, Ok row =>
                ([mkTestConfig (td_id d) (tc_Source row) (cfg_Name (td_config d)) (tc_Timeout row) (tc_Config row)
                    (tc_ConfigVars row) (tc_ScheduleStartup row) (tc_ScheduleCronYaml row)], [d])
            | _, _ => ([], [])
            end in
          let '(c, w, cfgs, rows, ds) := configured_loop stored external c w in
          (c, w, cfg :: cfgs, row ++ rows, d ++ ds)
      end
  end.

Fixpoint insert_configs (rows : list Db.TestConfig) (db : Database) : result Database :=
  match rows with
  | [] => Ok db
  | row :: rows => let! db := InsertTestConfig row db in insert_configs rows db
  end.

(** The final loop: every descriptor gets a new index. *)
Definition register_new (d : Descriptor) (c : TestRegistry) : TestRegistry :=
  let i := testDescriptorIndex c +u 1 in
  mkRegistry (globalVars c) (<[td_id d := (d, i)]> (testDescriptors c)) i.

(** [LoadTests]; [stored] is what [GetTestConfigs] returns, in the order of
    the query ([None] when it fails, which is logged). *)
Definition LoadTests (stored : option (list Db.TestConfig)) (local : list TestConfig)
    (external : list ExternalTestConfig) (c : TestRegistry) (w : World)
    : TestRegistry * World * list ExternalTestConfig :=
  let externalTests := omap externalTest_of_db (default [] stored) in
  let '(h, descriptors) := LoadTestDescriptors (globalVars c) local externalTests (w_scopes w) in
  let w := set_w_scopes h w in
  let '(c, w, external, newCfgTests, added) := configured_loop externalTests external c w in
  let w := match newCfgTests with [] => w | _ => (run_tx (insert_configs newCfgTests) w).1 end in
  let c := mkRegistry (globalVars c) ∅ (testDescriptorIndex c) in
  (fold_left (fun c d => register_new d c) (descriptors ++ added) c, w, external).

Definition DeleteTest (testID : string) (c : TestRegistry) (w : World) : TestRegistry * World * option error :=
  match testDescriptors c !! testID with
  | None => (c, w, None)
  | Some _ =>
      let c := mkRegistry (globalVars c) (delete testID (testDescriptors c)) (testDescriptorIndex c) in
      let '(w, err) := run_tx (DeleteTestConfig testID) w in
      (c, w, err)
  end.
End registry.

(** ** Invariant *)

(** Every entry is filed under its descriptor's ID with an index of its own,
    up to the counter. *)
Record registry_wf `{raw : RawMessages} (c : TestRegistry) : Prop := {
  rw_counter : 0 <= testDescriptorIndex c < two64;
  rw_entry : forall id d i, testDescriptors c !! id = Some (d, i) -> td_id d = id /\ 0 < i <= testDescriptorIndex c;
  rw_index : forall id id' d d' i, testDescriptors c !! id = Some (d, i) -> testDescriptors c !! id' = Some (d', i) -> id = id'
}.

(** There is room for [n] more indices. *)
Definition room `{raw : RawMessages} (n : nat) (c : TestRegistry) : Prop := testDescriptorIndex c + Z.of_nat n < two64.

Section registry_lemmas.
Context `{lib : Library} `{raw : RawMessages} `{srcs : !RegistrySources}.

Lemma NewTestRegistry_wf g : registry_wf (NewTestRegistry g).
Proof. split; simpl; [go_lia|by intros ???; rewrite lookup_empty..]. Qed.

Lemma register_new_wf d c : registry_wf c -> room 1 c ->
  registry_wf (register_new d c) /\ testDescriptorIndex (register_new d c) = testDescriptorIndex c + 1.
Proof.
  intros [Hc He Hi] Hr. unfold room in Hr. unfold register_new.
  assert (testDescriptorIndex c +u 1 = testDescriptorIndex c + 1) as -> by (apply u64_add_lt; go_lia).
  split; [|done]. split; simpl; [lia| |].
  - intros id d' i [[<- [= <- <-]]|[_ H]]%lookup_insert_Some; [split; [done|lia]|].
    destruct (He _ _ _ H). split; [done|lia].
  - intros id id' d1 d2 i [[<- [= <- <-]]|[_ H1]]%lookup_insert_Some [[<- H2']|[_ H2]]%lookup_insert_Some.
    + done.
    + destruct (He _ _ _ H2). lia.
    + injection H2' as <- <-. destruct (He _ _ _ H1). lia.
    + by eapply Hi.
Qed.

Lemma register_wf d c : registry_wf c -> room 1 c -> registry_wf (register d c).
Proof.
  intros Hwf Hr. unfold register. destruct (testDescriptors c !! td_id d) as [[d0 i0]|] eqn:Hd; simpl.
  - destruct Hwf as [Hc He Hi]. destruct (He _ _ _ Hd) as [Hid Hb].
    destruct i0 as [|p|p]; [lia| |lia]. cbn iota. set (i0 := Z.pos p) in *. clearbody i0.
    split; simpl; [done| |].
    + intros id d' i [[<- [= <- <-]]|[_ H]]%lookup_insert_Some; [done|by eapply He].
    + intros id id' d1 d2 i [[<- [= <- <-]]|[_ H1]]%lookup_insert_Some [[<- H2']|[Hne H2]]%lookup_insert_Some.
      * done.
      * by eapply Hi.
      * injection H2' as <- <-. by eapply Hi.
      * by eapply Hi.
  - by destruct (register_new_wf d c Hwf Hr).
Qed.

Lemma fold_register_wf ds c : registry_wf c -> room (length ds) c ->
  registry_wf (fold_left (fun c d => register_new d c) ds c).
Proof.
  revert c. induction ds as [|d ds IH]; intros c Hwf Hr; [done|]. simpl.
  unfold room in *. simpl in Hr. destruct (register_new_wf d c Hwf) as [Hwf' Hi]; [unfold room; lia|].
  apply IH; [done|]. unfold room. rewrite Hi. lia.
Qed.

Lemma AddLocalTest_wf cfg c w : registry_wf c -> room 1 c -> registry_wf (AddLocalTest cfg c w).1.1.
Proof.
  intros Hwf Hr. unfold AddLocalTest. destruct (String.eqb _ _); [done|].
  destruct (NewVariables _ _) as [h v]. destruct (copy_vars _ _ _ _) as [h' [e|]]; [done|]. by apply register_wf.
Qed.

(** What a call of [AddExternalTest] can do. *)
Lemma AddExternalTest_cases ext c w c' w' ext' r :
  AddExternalTest ext c w = (c', w', ext', r) ->
  match r with
  | Err _ => c' = c /\ w_db w' = w_db w
  | Ok d => exists row, c' = register d c /\ cfg_Tasks (td_config d) <> [] /\ td_err d = None /\
      td_id d = cfg_ID (td_config d) /\ td_id d <> ""%string /\
      ext' = set_ext_ID (td_id d) (cfg_Name (td_config d)) ext /\ externalTestCfgToDB ext' = Ok row /\
      w_db w' = (RunTransaction (lib_engine (w_tx w)) (InsertTestConfig row) (w_db w)).1
  end.
Proof.
  unfold AddExternalTest. destruct (LoadExternalTestConfig _ _ _) as [h [[tc tv]|e]]; [|by intros [= <- <- <- <-]].
  destruct (String.eqb (cfg_ID tc) "") eqn:Hid; [by intros [= <- <- <- <-]|].
  destruct (String.eqb (cfg_Name tc) ""); [by intros [= <- <- <- <-]|].
  case_bool_decide as Ht; [by intros [= <- <- <- <-]|].
  destruct (externalTestCfgToDB _) as [row|e] eqn:Hrow; [|by intros [= <- <- <- <-]].
  unfold run_tx. cbn [set_w_scopes w_tx w_db w_clock w_scopes].
  destruct (RunTransaction _ _ _) as [db err] eqn:Htx. intros [= <- <- <- <-]. exists row.
  apply String.eqb_neq in Hid. by rewrite Htx.
Qed.

Lemma AddExternalTest_wf ext c w : registry_wf c -> room 1 c ->
  registry_wf (AddExternalTest ext c w).1.1.1 /\
  testDescriptorIndex c <= testDescriptorIndex (AddExternalTest ext c w).1.1.1 <= testDescriptorIndex c + 1.
Proof.
  intros Hwf Hr. destruct (AddExternalTest ext c w) as [[[c' w'] ext'] r] eqn:Ha.
  apply AddExternalTest_cases in Ha. simpl. destruct r as [d|e]; [|destruct Ha as [-> _]; split; [done|lia]].
  destruct Ha as (row & -> & _). split; [by apply register_wf|]. unfold register.
  destruct Hwf as [Hc He _]. unfold room in Hr.
  assert (testDescriptorIndex c +u 1 = testDescriptorIndex c + 1) as Hs by (apply u64_add_lt; go_lia).
  destruct (from_option snd 0 _); simpl; rewrite ?Hs; lia.
Qed.

Lemma configured_loop_wf stored external c w :
  registry_wf c -> room (length external) c ->
  let '(c', _, _, _, added) := configured_loop stored external c w in
  registry_wf c' /\ testDescriptorIndex c' <= testDescriptorIndex c + Z.of_nat (length external) /\
  (length added <= length external)%nat.
Proof.
  revert c w. induction external as [|cfg external IH]; intros c w Hwf Hr; simpl; [split_and!; [done|lia|lia]|].
  unfold room in Hr. simpl in Hr. destruct (List.find _ _) as [e|].
  - specialize (IH c w Hwf ltac:(unfold room; lia)).
    destruct (configured_loop stored external c w) as [[[[c' w'] cfgs] rows] ds]. destruct IH as (? & ? & ?).
    split_and!; [done|lia|simpl; lia].
  - destruct (AddExternalTest_wf cfg c w Hwf ltac:(unfold room; lia)) as [Hwf1 Hi1].
    destruct (AddExternalTest cfg c w) as [[[c1 w1] cfg1] r]. simpl in Hwf1, Hi1.
    specialize (IH c1 w1 Hwf1 ltac:(unfold room; lia)).
    destruct r as [d|e], (externalTestCfgToDB cfg) as [row|e'];
      destruct (configured_loop stored external c1 w1) as [[[[c' w'] cfgs] rows] ds]; destruct IH as (? & ? & ?);
      split_and!; simpl; done || lia.
Qed.
End registry_lemmas.

Section listing.
Context `{lib : Library} `{raw : RawMessages} `{srcs : !RegistrySources}.

Definition index_of (c : TestRegistry) (d : Descriptor) : Z := from_option snd 0 (testDescriptors c !! td_id d).

Lemma iterate_values (m : gmap string (Descriptor * Z)) d :
  d ∈ fst <$> (iterate m).*2 <-> exists id i, m !! id = Some (d, i).
Proof.
  rewrite (iterate_perm m), list_elem_of_fmap. split.
  - intros ([d' i] & -> & H). apply list_elem_of_fmap in H as ([id [d1 i1]] & [= -> ->] & H).
    exists id, i1. by apply elem_of_map_to_list.
  - intros (id & i & H). exists (d, i). split; [done|]. apply list_elem_of_fmap. exists (id, (d, i)).
    split; [done|]. by apply elem_of_map_to_list.
Qed.

Lemma registered_ids c : registry_wf c -> NoDup (td_id <$> (fst <$> (iterate (testDescriptors c)).*2)).
Proof.
  intros [_ He _]. rewrite (iterate_perm (testDescriptors c)), <- !list_fmap_compose.
  match goal with |- NoDup ?l => assert (l = (map_to_list (testDescriptors c)).*1) as -> end.
  { apply list_fmap_ext. intros _ [id [d i]] H%list_elem_of_lookup_2. apply elem_of_map_to_list in H. simpl.
    by destruct (He _ _ _ H). }
  apply NoDup_fst_map_to_list.
Qed.

Lemma GetTestDescriptors_perm `{SliceSort} c : GetTestDescriptors c ≡ₚ fst <$> (iterate (testDescriptors c)).*2.
Proof. unfold GetTestDescriptors. apply slice_sort_perm. Qed.

Lemma GetTestDescriptors_sorted `{SliceSort} c :
  registry_wf c -> StronglySorted (fun a b => index_of c a < index_of c b) (GetTestDescriptors c).
Proof.
  intros Hwf. assert (Hids : NoDup (td_id <$> GetTestDescriptors c)).
  { rewrite GetTestDescriptors_perm. by apply registered_ids. }
  assert (Hs : StronglySorted (fun x y => (index_of c y <? index_of c x) = false) (GetTestDescriptors c)).
  { apply (slice_sort_sorted (fun a b => index_of c a <? index_of c b)). apply StrictWeakOn_key_lt. }
  assert (Hin : forall d, d ∈ GetTestDescriptors c -> testDescriptors c !! td_id d = Some (d, index_of c d)).
  { intros d. rewrite GetTestDescriptors_perm, iterate_values. intros (id & i & Hd).
    destruct Hwf as [_ He _]. destruct (He _ _ _ Hd) as [<- _]. unfold index_of. by rewrite Hd. }
  revert Hids Hs Hin. generalize (GetTestDescriptors c). induction l as [|d l IH]; intros Hids Hs Hin; constructor.
  - simpl in Hids. apply NoDup_cons in Hids as [_ Hids]. apply StronglySorted_inv in Hs as [Hs _].
    apply IH; [done..|]. intros d' Hd'. apply Hin. by right.
  - simpl in Hids. apply NoDup_cons in Hids as [Hd _]. apply StronglySorted_inv in Hs as [_ Hall].
    rewrite Forall_forall in Hall |- *. intros d' Hd'. specialize (Hall d' Hd').
    pose proof (Hin d ltac:(by left)) as H1. pose proof (Hin d' ltac:(by right)) as H2.
    assert (index_of c d <> index_of c d') as Hne; [|lia].
    intros Heq. rewrite <- Heq in H2. destruct Hwf as [_ _ Hi]. pose proof (Hi _ _ _ _ _ H1 H2) as Hsame.
    apply Hd. rewrite Hsame. by apply list_elem_of_fmap_2.
Qed.

(** *** The order after a load *)

(** Of descriptors with the same ID the last one remains. *)
Fixpoint keep_last (ds : list Descriptor) : list Descriptor :=
  match ds with
  | [] => []
  | d :: ds => if existsb (fun d' => String.eqb (td_id d') (td_id d)) ds then keep_last ds else d :: keep_last ds
  end.

Fixpoint last_entry (k : Z) (ds : list Descriptor) (id : string) : option (Descriptor * Z) :=
  match ds with
  | [] => None
  | d :: ds =>
      match last_entry (k + 1) ds id with
      | Some x => Some x
      | None => if String.eqb (td_id d) id then Some (d, k + 1) else None
      end
  end.

Lemma fold_register_lookup ds c id :
  0 <= testDescriptorIndex c -> room (length ds) c ->
  testDescriptors (fold_left (fun c d => register_new d c) ds c) !! id =
  match last_entry (testDescriptorIndex c) ds id with Some x => Some x | None => testDescriptors c !! id end.
Proof.
  revert c. induction ds as [|d ds IH]; intros c H0 Hr; [done|]. unfold room in Hr. cbn [length fold_left last_entry] in *.
  assert (testDescriptorIndex c +u 1 = testDescriptorIndex c + 1) as Hs by (apply u64_add_lt; go_lia).
  rewrite IH; unfold room, register_new; cbn [testDescriptorIndex testDescriptors]; rewrite ?Hs; [|lia|lia].
  destruct (last_entry _ ds id); [done|]. destruct (String.eqb_spec (td_id d) id) as [->|Hne].
  - by rewrite lookup_insert_eq.
  - by rewrite lookup_insert_ne.
Qed.

Lemma last_entry_None k ds id :
  last_entry k ds id = None <-> existsb (fun d' => String.eqb (td_id d') id) ds = false.
Proof.
  revert k. induction ds as [|d ds IH]; intros k; [done|]. simpl. rewrite orb_false_iff, <- (IH (k + 1)).
  destruct (last_entry (k + 1) ds id), (String.eqb (td_id d) id); split; naive_solver.
Qed.

Lemma last_entry_gt k ds id d i : last_entry k ds id = Some (d, i) -> k < i /\ td_id d = id.
Proof.
  revert k. induction ds as [|d0 ds IH]; intros k; [done|]. simpl.
  destruct (last_entry (k + 1) ds id) as [[d1 i1]|] eqn:Hl.
  - intros [= -> ->]. destruct (IH _ Hl). split; [lia|done].
  - destruct (String.eqb_spec (td_id d0) id) as [Heq|]; [|done]. intros [= <- <-]. split; [lia|done].
Qed.

Lemma keep_last_entry k ds d :
  d ∈ keep_last ds <-> exists i, last_entry k ds (td_id d) = Some (d, i).
Proof.
  revert k. induction ds as [|d0 ds IH]; intros k.
  { simpl. split; [by intros ?%elem_of_nil|by intros [? ?]]. }
  cbn [keep_last last_entry]. destruct (existsb _ ds) eqn:He.
  - rewrite (IH (k + 1)). split; [intros [i ->]; eauto|].
    destruct (last_entry (k + 1) ds (td_id d)) as [[d1 i1]|] eqn:Hl; [intros [i [= -> ->]]; eauto|].
    destruct (String.eqb_spec (td_id d0) (td_id d)) as [Heq|]; [|by intros [??]].
    apply last_entry_None in Hl. by rewrite Heq, Hl in He.
  - rewrite elem_of_cons, (IH (k + 1)). split.
    + intros [->|[i ->]]; [|eauto]. apply (last_entry_None (k + 1)) in He. rewrite He, String.eqb_refl. eauto.
    + intros [i Hi]. destruct (last_entry (k + 1) ds (td_id d)) as [[d1 i1]|] eqn:Hl; [right; naive_solver|].
      left. destruct (String.eqb (td_id d0) (td_id d)); [|done]. by injection Hi as -> _.
Qed.

Lemma keep_last_sorted (f : Descriptor -> Z) k ds :
  (forall d i, last_entry k ds (td_id d) = Some (d, i) -> f d = i) -> StronglySorted (fun a b => f a < f b) (keep_last ds).
Proof.
  revert k. induction ds as [|d ds IH]; intros k Hf; [constructor|]. cbn [keep_last].
  assert (Hf' : forall d' i, last_entry (k + 1) ds (td_id d') = Some (d', i) -> f d' = i).
  { intros d' i Hl. apply Hf. cbn [last_entry]. by rewrite Hl. }
  destruct (existsb _ ds) eqn:He; [by eapply IH|]. constructor; [by eapply IH|]. apply Forall_forall. intros d' Hd'.
  apply (keep_last_entry (k + 1)) in Hd' as [i Hi]. rewrite (Hf' _ _ Hi). apply last_entry_gt in Hi as [Hi _].
  rewrite (Hf d (k + 1)); [lia|]. cbn [last_entry]. apply (last_entry_None (k + 1)) in He. by rewrite He, String.eqb_refl.
Qed.

Lemma keep_last_ids ds : NoDup (td_id <$> keep_last ds).
Proof.
  induction ds as [|d ds IH]; [constructor|]. cbn [keep_last]. destruct (existsb _ ds) eqn:He; [done|].
  simpl. constructor; [|done]. intros (d' & Heq & Hd')%list_elem_of_fmap. apply (keep_last_entry 0) in Hd' as [i Hi].
  rewrite <- Heq in Hi. apply (last_entry_None 0) in He. congruence.
Qed.

Lemma keep_last_NoDup ds : NoDup (td_id <$> ds) -> keep_last ds = ds.
Proof.
  induction ds as [|d ds IH]; [done|]. simpl. intros [Hd Hnd]%NoDup_cons. rewrite IH by done.
  destruct (existsb _ ds) eqn:He; [|done]. apply existsb_elem_of in He as (d' & Hd' & Heq%String.eqb_eq).
  destruct Hd. rewrite <- Heq. by apply list_elem_of_fmap_2.
Qed.

Lemma fresh_registry_lists `{SliceSort} c ds :
  registry_wf c -> testDescriptors c = ∅ -> room (length ds) c ->
  GetTestDescriptors (fold_left (fun c d => register_new d c) ds c) = keep_last ds.
Proof.
  intros Hwf Hempty Hr. set (c' := fold_left _ ds c).
  assert (Hlk : forall id, testDescriptors c' !! id = last_entry (testDescriptorIndex c) ds id).
  { intros id. unfold c'. rewrite fold_register_lookup; [|by destruct Hwf as [[]]|done].
    rewrite Hempty, lookup_empty. by destruct (last_entry _ _ _). }
  assert (registry_wf c') as Hwf' by by apply fold_register_wf.
  eapply (StronglySorted_unique (fun a b => index_of c' a < index_of c' b)).
  - by apply GetTestDescriptors_sorted.
  - apply (keep_last_sorted _ (testDescriptorIndex c)). intros d i Hi. unfold index_of. by rewrite Hlk, Hi.
  - rewrite GetTestDescriptors_perm. apply NoDup_Permutation.
    + eapply NoDup_fmap_1, registered_ids. done.
    + eapply NoDup_fmap_1, keep_last_ids.
    + intros d. rewrite iterate_values, (keep_last_entry (testDescriptorIndex c)). split.
      * intros (id & i & Hd). rewrite Hlk in Hd. exists i. by destruct (last_entry_gt _ _ _ _ _ Hd) as [_ ->].
      * intros [i Hd]. exists (td_id d), i. by rewrite Hlk.
  Unshelve. intros a b. lia.
Qed.
End listing.

(** ** Properties *)

Section properties.
Context `{lib : Library} `{raw : RawMessages} `{srcs : !RegistrySources}.

(** The calls that change a registry. *)
Inductive registry_step : TestRegistry * World -> TestRegistry * World -> Prop :=
  | step_LoadTests stored local external c w c' w' external' :
      room (length local + length (default [] stored) + 2 * length external) c ->
      LoadTests stored local external c w = (c', w', external') -> registry_step (c, w) (c', w')
  | step_AddLocalTest cfg c w c' w' r :
      room 1 c -> AddLocalTest cfg c w = (c', w', r) -> registry_step (c, w) (c', w')
  | step_AddExternalTest ext c w c' w' ext' r :
      room 1 c -> AddExternalTest ext c w = (c', w', ext', r) -> registry_step (c, w) (c', w')
  | step_DeleteTest id c w c' w' r :
      DeleteTest id c w = (c', w', r) -> registry_step (c, w) (c', w').

Lemma load_loop_length {A} load i (l : list A) h : length (load_loop load i l h).2 = length l.
Proof.
  revert i h. induction l as [|x l IH]; intros i h; [done|]. simpl. destruct (load i x h) as [h1 d].
  specialize (IH (S i) h1). destruct (load_loop load (S i) l h1) as [h2 ds]. simpl in *. lia.
Qed.

Lemma LoadTestDescriptors_length g local external h :
  length (LoadTestDescriptors g local external h).2 = (length local + length external)%nat.
Proof.
  unfold LoadTestDescriptors. pose proof (load_loop_length (local_descriptor g) 0 local h) as H1.
  destruct (load_loop _ 0 local h) as [h1 d1]. pose proof (load_loop_length (external_descriptor g) 0 external h1) as H2.
  destruct (load_loop _ 0 external h1) as [h2 d2]. simpl in *. rewrite length_app. lia.
Qed.

(** The registry that the final loop of [LoadTests] starts from. *)
Lemma LoadTests_registers stored local external c w c' w' external' :
  registry_wf c -> room (length local + length (default [] stored) + 2 * length external) c ->
  LoadTests stored local external c w = (c', w', external') ->
  exists ds c0, c' = fold_left (fun c d => register_new d c) ds c0 /\ registry_wf c0 /\
    testDescriptors c0 = ∅ /\ room (length ds) c0 /\
    ds = (LoadTestDescriptors (globalVars c) local (omap externalTest_of_db (default [] stored)) (w_scopes w)).2 ++
         (configured_loop (omap externalTest_of_db (default [] stored)) external c
            (set_w_scopes (LoadTestDescriptors (globalVars c) local (omap externalTest_of_db (default [] stored)) (w_scopes w)).1 w)).2.
Proof.
  intros Hwf Hr. unfold LoadTests. set (exts := omap externalTest_of_db _).
  assert (length exts <= length (default [] stored))%nat as He.
  { unfold exts. generalize (default [] stored). induction l as [|x l IH]; [done|]. csimpl.
    destruct (externalTest_of_db x); simpl; lia. }
  pose proof (LoadTestDescriptors_length (globalVars c) local exts (w_scopes w)) as Hl.
  destruct (LoadTestDescriptors _ local exts _) as [h descriptors]. simpl in Hl. cbn [fst snd].
  unfold room in Hr. pose proof (configured_loop_wf exts external c (set_w_scopes h w) Hwf ltac:(unfold room; lia)) as Hc.
  destruct (configured_loop exts external c (set_w_scopes h w)) as [[[[c1 w1] cfgs] rows] added].
  destruct Hc as (Hwf1 & Hi1 & Ha). intros [= <- <- <-].
  eexists (descriptors ++ added), _. split; [reflexivity|]. split_and!.
  - destruct Hwf1 as [Hc1 _ _]. split; simpl; [done|by intros ???; rewrite lookup_empty..].
  - done.
  - unfold room. simpl. rewrite length_app. lia.
  - done.
Qed.

(** C38: In every reachable registry each test is filed under its descriptor's ID
    and has an index of its own, up to the counter; as long as the counter
    does not overflow. *)
Theorem registry_wf_reachable (g : Variables_ref) (w w' : World) (c : TestRegistry) :
  rtc registry_step (NewTestRegistry g, w) (c, w') -> registry_wf c.
Proof.
  intros Hsteps. pose proof (NewTestRegistry_wf g) as Hwf.
  change (registry_wf (NewTestRegistry g, w).1) in Hwf. change (registry_wf (c, w').1).
  induction Hsteps as [|x y z Hxy _ IH]; [done|]. apply IH. clear IH.
  destruct Hxy as [stored local external c0 w0 c' w1 ex Hr Hl|cfg c0 w0 c' w1 r Hr Hl|ext c0 w0 c' w1 ex r Hr Hl|id c0 w0 c' w1 r Hl];
    simpl in *.
  - destruct (LoadTests_registers _ _ _ _ _ _ _ _ Hwf Hr Hl) as (ds & c1 & -> & Hwf1 & _ & Hr1 & _).
    by apply fold_register_wf.
  - pose proof (AddLocalTest_wf cfg c0 w0 Hwf Hr) as H. by rewrite Hl in H.
  - destruct (AddExternalTest_wf ext c0 w0 Hwf Hr) as [H _]. by rewrite Hl in H.
  - unfold DeleteTest in Hl. destruct (testDescriptors c0 !! id) as [p|]; [|by injection Hl as <- _ _].
    destruct (run_tx _ _) as [w2 err]. injection Hl as <- _ _. destruct Hwf as [Hc He Hi].
    split; simpl; [done| |].
    + intros id' d i [_ H]%lookup_delete_Some. by eapply He.
    + intros id1 id2 d d' i [_ H1]%lookup_delete_Some [_ H2]%lookup_delete_Some. by eapply Hi.
Qed.

(** The order of the tests.  After a load the registry lists the local tests,
    the stored external tests and the newly configured ones, in this order,
    where of several with one ID the last remains; in any registry the list
    has every test once, ordered by its index, whatever the order of the
    iteration over the map. *)
Theorem LoadTests_order `{SliceSort} stored local external c w c' w' external' :
  registry_wf c -> room (length local + length (default [] stored) + 2 * length external) c ->
  LoadTests stored local external c w = (c', w', external') ->
  let exts := omap externalTest_of_db (default [] stored) in
  let '(h, ds) := LoadTestDescriptors (globalVars c) local exts (w_scopes w) in
  let added := (configured_loop exts external c (set_w_scopes h w)).2 in
  GetTestDescriptors c' = keep_last (ds ++ added) /\
  (NoDup (td_id <$> ds ++ added) -> GetTestDescriptors c' = ds ++ added).
Proof.
  intros Hwf Hr Hl. destruct (LoadTests_registers _ _ _ _ _ _ _ _ Hwf Hr Hl) as (ds & c1 & -> & Hwf1 & He & Hr1 & Hds).
  cbv zeta. destruct (LoadTestDescriptors _ local _ _) as [h ds0]. cbn [fst snd] in Hds.
  rewrite <- Hds, fresh_registry_lists by done. split; [done|]. apply keep_last_NoDup.
Qed.

(** A stored external test is not configured any more.  A configured test that
    has the ID or the file of a stored one is taken for it, and then has no
    effect: the registry and the database are as if it were not configured. *)
Theorem stored_test_wins stored local external c w :
  (forall cfg, cfg ∈ external -> exists e, e ∈ omap externalTest_of_db (default [] stored) /\ same_test cfg e = true) ->
  (LoadTests stored local external c w).1 = (LoadTests stored local [] c w).1.
Proof.
  intros Hall. unfold LoadTests. set (exts := omap externalTest_of_db _) in *.
  destruct (LoadTestDescriptors _ local exts _) as [h ds]. set (w1 := set_w_scopes h w).
  assert (exists cfgs, configured_loop exts external c w1 = (c, w1, cfgs, [], [])) as [cfgs ->]; [|done].
  induction external as [|cfg external IH]; [by eexists|].
  destruct IH as [cfgs Hc]; [intros cfg' Hin; apply Hall; by right|]. cbn [configured_loop].
  destruct (List.find (same_test cfg) exts) as [e|] eqn:Hf.
  - rewrite Hc. by eexists.
  - destruct (Hall cfg ltac:(by left)) as (e & He & Hs).
    pose proof (List.find_none _ _ Hf e) as Hn. rewrite Hn in Hs; [done|]. by apply list_elem_of_In.
Qed.
End properties.

(** *** Storing a test *)

(** YAML round trips on the fields of a stored test. *)
Class YamlRoundTrip `{lib : Library} `{raw : RawMessages} `{srcs : !RegistrySources} : Prop := {
  yaml_Config : forall m s, Marshal_Config m = Ok s -> Unmarshal_Config s = Ok m;
  yaml_ConfigVars : forall m s, Marshal_ConfigVars m = Ok s -> Unmarshal_ConfigVars s = Ok m;
  yaml_Cron : forall l s, Marshal_Cron l = Ok s -> s <> ""%string /\ Unmarshal_Cron s = Ok l
}.

Section storing.
Context `{lib : Library} `{raw : RawMessages} `{srcs : !RegistrySources} `{!YamlRoundTrip}.

(** What remains of an external test. *)
Definition stored_form (e : ExternalTestConfig) : ExternalTestConfig :=
  mkExternal (ext_ID e) (ext_File e) (ext_Name e)
    (match ext_Timeout e with
     | Some t => if second <=? t then Some (t ÷ second * second) else None
     | None => None
     end)
    (ext_Config e) (ext_ConfigVars e)
    (Some (mkTestSchedule false (from_option Cron [] (ext_Schedule e)) false)).

Lemma externalTest_of_stored e row :
  (forall t, ext_Timeout e = Some t -> is_i64 t) ->
  externalTestCfgToDB e = Ok row -> externalTest_of_db row = Some (stored_form e) /\ tc_TestID row = ext_ID e.
Proof.
  intros Ht. unfold externalTestCfgToDB, externalTest_of_db, stored_form.
  set (cy := match ext_Schedule e with Some s => match Cron s with [] => Ok ""%string | cron => Marshal_Cron cron end | None => Ok ""%string end).
  assert (Hcron : forall s, cy = Ok s ->
    (if String.eqb s "" then Ok [] else Unmarshal_Cron s) = Ok (from_option Cron [] (ext_Schedule e))).
  { intros s. unfold cy. destruct (ext_Schedule e) as [[st cron sk]|]; simpl; [|by intros [= <-]].
    destruct cron as [|x l]; [by intros [= <-]|]. intros Hm. destruct (yaml_Cron _ _ Hm) as [Hne Hu].
    by apply String.eqb_neq in Hne as ->. }
  destruct cy as [cronYaml|] eqn:Hc; [|done]. pose proof (Hcron _ eq_refl) as Hcr.
  destruct (Marshal_Config _) as [cs|] eqn:Hcs; [|done]. destruct (Marshal_ConfigVars _) as [vs|] eqn:Hvs; [|done].
  intros [= <-]. simpl. split; [|done]. rewrite (yaml_Config _ _ Hcs), (yaml_ConfigVars _ _ Hvs), Hcr.
  do 2 f_equal. destruct (ext_Timeout e) as [t|]; simpl; [|done]. specialize (Ht t eq_refl).
  unfold second in *. destruct (Z.leb_spec 1000000000 t) as [Hge|Hge].
  - assert (t ÷ 1000000000 = t / 1000000000) as -> by (apply Z.quot_div_nonneg; lia).
    assert (0 <? t / 1000000000 = true) as -> by (apply Z.ltb_lt; go_lia). f_equal. apply i64_id. go_lia.
  - destruct (Z.ltb_spec 0 (t ÷ 1000000000)) as [Hq|]; [|done]. exfalso.
    destruct (Z.le_gt_cases 0 t) as [Hp|Hp]; [rewrite (Z.quot_small t) in Hq by (split; assumption); lia|].
    pose proof (Z.quot_le_mono t 0 1000000000 ltac:(lia) ltac:(lia)) as Hm. change (0 ÷ 1000000000) with 0 in Hm. lia.
Qed.

(** An external test that was added survives a restart: when the transaction
    succeeds, the database holds one row of its ID, the other rows are as
    before, and reading the row gives the test back with the file, name,
    configuration and cron expressions it was added with, the timeout cut to
    seconds, and without its start-up schedule and its place outside the queue. *)
Theorem external_test_survives ext c w c' w' ext' d :
  (forall t, ext_Timeout ext = Some t -> is_i64 t) -> lib_engine (w_tx w) = EngineOk ->
  AddExternalTest ext c w = (c', w', ext', Ok d) ->
  exists row, test_configs (w_db w') = <[td_id d := row]> (test_configs (w_db w)) /\
    externalTest_of_db row = Some (stored_form (set_ext_ID (td_id d) (cfg_Name (td_config d)) ext)).
Proof.
  intros Ht Heng Ha. destruct (AddExternalTest_cases _ _ _ _ _ _ _ Ha) as (row & _ & _ & _ & _ & _ & -> & Hrow & Hdb).
  exists row. destruct (externalTest_of_stored (set_ext_ID (td_id d) (cfg_Name (td_config d)) ext) row Ht Hrow) as [Hs Hid].
  split; [|exact Hs]. rewrite Hdb, Heng. unfold RunTransaction, InsertTestConfig. simpl. by rewrite Hid.
Qed.
End storing.

(** ** Witnesses *)

#[local] Existing Instance ex_raw.
#[local] Instance ex_registry_lib : Library := ex_lib 9.

(** Files hold a test with two tasks; only empty maps and one cron expression
    can be stored. *)
Definition ex_file_config : TestConfig :=
  mkTestCfg "" "" 60000000000 ∅ ∅ [ex_opts "run_tasks" ""; ex_opts "run_tasks" ""] [] None.
Definition ex_sources : RegistrySources := {|
  iterate := fun A m => map_to_list m;
  iterate_perm := fun A m => reflexivity (map_to_list m);
  src_open := fun f => if String.eqb f "a.yaml" then Ok "a"%string else Err "no such file"%string;
  src_get := fun u => Answered 404 "";
  src_Decode := fun _ => Ok ex_file_config;
  Unmarshal_Config := fun s => Ok ∅;
  Unmarshal_ConfigVars := fun s => Ok ∅;
  Unmarshal_Cron := fun s => Ok [s];
  Marshal_Config := fun m => if decide (m = ∅) then Ok "{}"%string else Err "unsupported"%string;
  Marshal_ConfigVars := fun m => if decide (m = ∅) then Ok "{}"%string else Err "unsupported"%string;
  Marshal_Cron := fun l => match l with [String c s] => Ok (String c s) | _ => Err "unsupported"%string end |}.
#[local] Existing Instance ex_sources.

Lemma ex_yaml : YamlRoundTrip.
Proof.
  split.
  - intros m t. simpl. by destruct (decide (m = ∅)) as [->|].
  - intros m t. simpl. by destruct (decide (m = ∅)) as [->|].
  - intros [|[|c x] [|? ?]] t; try done. by intros [= <-].
Qed.

Definition ex_external : ExternalTestConfig :=
  mkExternal "e1" "a.yaml" "external test" (Some 1500000000) ∅ ∅ (Some (mkTestSchedule true ["0 * * * *"%string] true)).
Definition ex_local : TestConfig :=
  mkTestCfg "l1" "local test" 0 ∅ ∅ [ex_opts "run_tasks" ""] [] None.

Definition ex_stored_row : Db.TestConfig :=
  mkTestConfig "e1" "a.yaml" "external test" 1 "{}" "{}" true "0 * * * *".

Lemma ex_registry_room n : (n < 1000)%nat -> room n (NewTestRegistry (Ref 0)).
Proof. intros H. unfold room. simpl. go_lia. Qed.

Lemma registry_wf_reachable_witness :
  exists c w, rtc registry_step (NewTestRegistry (Ref 0), ex_world) (c, w) /\ registry_wf c /\
    (testDescriptors c !! "l1"%string ≫= fun p => Some p.2) = Some 1.
Proof.
  destruct (AddLocalTest ex_local (NewTestRegistry (Ref 0)) ex_world) as [[c w] r] eqn:Hl.
  assert ((testDescriptors c !! "l1"%string ≫= fun p => Some p.2) = Some 1) as Hi.
  { apply (f_equal (fun x => (testDescriptors x.1.1 !! "l1"%string ≫= fun p => Some p.2))) in Hl.
    cbn [fst snd] in Hl. rewrite <- Hl. by vm_compute. }
  assert (rtc registry_step (NewTestRegistry (Ref 0), ex_world) (c, w)) as Hs.
  { apply rtc_once. eapply step_AddLocalTest; [by apply ex_registry_room; lia|exact Hl]. }
  exists c, w. split; [exact Hs|]. split; [|exact Hi]. apply (registry_wf_reachable (Ref 0) ex_world w c). exact Hs.
Defined.

Lemma LoadTests_order_witness :
  exists c w e, LoadTests (Some [ex_stored_row]) [ex_local] [] (NewTestRegistry (Ref 0)) ex_world = (c, w, e) /\
    (td_id <$> GetTestDescriptors c) = ["l1"; "e1"]%string.
Proof.
  destruct (LoadTests (Some [ex_stored_row]) [ex_local] [] (NewTestRegistry (Ref 0)) ex_world) as [[c w] e] eqn:Hl.
  exists c, w, e. split; [reflexivity|].
  pose proof (LoadTests_order (Some [ex_stored_row]) [ex_local] [] (NewTestRegistry (Ref 0)) ex_world c w e
    (NewTestRegistry_wf (Ref 0)) ltac:(apply ex_registry_room; simpl; lia) Hl) as H.
  cbv zeta in H. destruct (LoadTestDescriptors _ _ _ _) as [h ds] eqn:Hds.
  assert ((td_id <$> keep_last (ds ++ [])) = ["l1"; "e1"]%string) as Hk.
  { apply (f_equal (fun x : Vars.heap * list Descriptor => td_id <$> keep_last (x.2 ++ []))) in Hds.
    cbn [snd] in Hds. rewrite <- Hds. by vm_compute. }
  destruct H as [H _]. rewrite H. exact Hk.
Defined.

Lemma stored_test_wins_witness :
  (LoadTests (Some [ex_stored_row]) [] [ex_external] (NewTestRegistry (Ref 0)) ex_world).1 =
  (LoadTests (Some [ex_stored_row]) [] [] (NewTestRegistry (Ref 0)) ex_world).1.
Proof.
  apply (stored_test_wins (Some [ex_stored_row]) [] [ex_external] (NewTestRegistry (Ref 0)) ex_world).
  intros cfg Hcfg. apply list_elem_of_singleton in Hcfg as ->. eexists. split; [by left|reflexivity].
Defined.

Lemma external_test_survives_witness :
  exists c w e d, AddExternalTest ex_external (NewTestRegistry (Ref 0)) ex_world = (c, w, e, Ok d) /\
    exists row, test_configs (w_db w) = <[td_id d := row]> (test_configs (w_db ex_world)) /\
      ext_Schedule <$> externalTest_of_db row = Some (Some (mkTestSchedule false ["0 * * * *"%string] false)) /\
      (externalTest_of_db row ≫= ext_Timeout) = Some 1000000000.
Proof.
  destruct (AddExternalTest ex_external (NewTestRegistry (Ref 0)) ex_world) as [[[c w] e] r] eqn:Ha.
  assert (is_ok r = true) as Hr.
  { apply (f_equal (fun x => is_ok x.2)) in Ha. cbn [snd] in Ha. rewrite <- Ha. by vm_compute. }
  destruct r as [d|]; [|discriminate Hr]. exists c, w, e, d. split; [reflexivity|].
  pose proof ex_yaml as Hyaml.
  destruct (external_test_survives ex_external (NewTestRegistry (Ref 0)) ex_world c w e d) as (row & Hrow & Hs).
  - intros t [= <-]. split; by vm_compute.
  - reflexivity.
  - exact Ha.
  - exists row. split; [exact Hrow|]. rewrite Hs. split; reflexivity.
Defined.
