(* ===== verification/History.v ===== *)
(** * The history view of a test

    pkg/coordinator/test/dbtest.go: a test that is no longer in memory, read
    from its database rows.  Its task lists are meant to be those of the
    scheduler that wrote the rows; the interface between the two is
    [recorded], which every scheduler with a working database keeps. *)

From S2P Require Import Prelude Vars Db Scheduler Execution Tests.

Open Scope Z_scope.

(** A row of [GetTaskStateIndex]. *)
Abbreviation TaskStateIndex := (Z * Z * Z)%type (only parsing).
Definition ti_TaskID (t : TaskStateIndex) : Z := t.1.1.
Definition ti_ParentTask (t : TaskStateIndex) : Z := t.1.2.
Definition ti_RunFlags (t : TaskStateIndex) : Z := t.2.

Record dbTest := mkDbTest {
  dt_runID : Z;
  dt_testRun : TestRun;
  dt_taskIndex : option (list TaskStateIndex) }.

Definition LoadTestFromDB (runID : Z) (db : Database) : result dbTest :=
  match GetTestRunByRunID runID db with
  | None => Err "sql: no rows in result set"%string
  | Some testRun => Ok (mkDbTest runID testRun None)
  end.

Definition WrapDBTestRun (test : TestRun) : dbTest := mkDbTest (tr_RunID test) test None.

Definition dt_TestID (d : dbTest) : string := tr_TestID (dt_testRun d).
Definition dt_Timeout (d : dbTest) : Z := i64 (tr_Timeout (dt_testRun d) * 1000000000).
Definition dt_Status (d : dbTest) : string := tr_Status (dt_testRun d).

(** [loadTaskIndex]: the rows are read once; a run without rows gives a nil
    slice and is read again. *)
Definition loadTaskIndex (db : Database) (d : dbTest) : dbTest :=
  match dt_taskIndex d with
  | Some _ => d
  | None =>
      match GetTaskStateIndex (dt_runID d) db with
      | [] => d
      | rows => mkDbTest (dt_runID d) (dt_testRun d) (Some rows)
      end
  end.

Definition task_rows (db : Database) (d : dbTest) : list TaskStateIndex :=
  default [] (dt_taskIndex (loadTaskIndex db d)).

Definition history_GetTaskCount (db : Database) (d : dbTest) : Z := Z.of_nat (length (task_rows db d)).

Definition is_cleanup_row (t : TaskStateIndex) : bool := negb (Z.land (ti_RunFlags t) TaskRunFlagCleanup =? 0).

(** *** The comparator of [sortTaskList] *)

Definition taskMap (rows : list TaskStateIndex) : gmap Z TaskStateIndex :=
  fold_left (fun m t => <[ti_TaskID t := t]> m) rows ∅.

(** The loop that counts the ancestors; [None] when the fuel runs out. *)
Fixpoint row_depth (fuel : nat) (m : gmap Z TaskStateIndex) (taskState : option TaskStateIndex) : option Z :=
  match taskState with
  | None => Some 0
  | Some t =>
      if ti_ParentTask t =? 0 then Some 0
      else
        match fuel with
        | O => None
        | S fuel => d ← row_depth fuel m (m !! ti_ParentTask t); Some (d + 1)
        end
  end.

(** The loop of the comparator for the tasks [x] and [y], now at [a] and [b];
    [None] for a nil dereference as well.  A parent is older than its
    children, so that a task's ID bounds its depth. *)
Fixpoint dbLess_loop (fuel : nat) (m : gmap Z TaskStateIndex) (x y : Z) (a b : TaskStateIndex) : option bool :=
  match fuel with
  | O => None
  | S fuel =>
      if ti_ParentTask a =? y then Some false
      else if ti_ParentTask b =? x then Some true
      else
        da ← row_depth (Z.to_nat (ti_TaskID a)) m (Some a);
        db ← row_depth (Z.to_nat (ti_TaskID b)) m (Some b);
        '(a', b') ←
          (if db <? da then a' ← m !! ti_ParentTask a; Some (a', b)
           else if da <? db then b' ← m !! ti_ParentTask b; Some (a, b')
           else a' ← m !! ti_ParentTask a; b' ← m !! ti_ParentTask b; Some (a', b'));
        if ti_ParentTask a' =? ti_ParentTask b' then Some (ti_TaskID a' <? ti_TaskID b')
        else dbLess_loop fuel m x y a' b'
  end.

Definition dbLess (m : gmap Z TaskStateIndex) (x y : Z) : option bool :=
  match m !! x, m !! y with
  | Some a, Some b =>
      if ti_ParentTask a =? ti_ParentTask b then Some (ti_TaskID a <? ti_TaskID b)
      else dbLess_loop (S (Z.to_nat x + Z.to_nat y)) m x y a b
  | _, _ => Some false
  end.

Definition history_sortTaskList `{!SliceSort} (rows : list TaskStateIndex) (taskList : list Z) : list Z :=
  slice_sort (fun x y => default false (dbLess (taskMap rows) x y)) taskList.

Definition select_tasks (p : TaskStateIndex -> bool) (rows : list TaskStateIndex) : list Z :=
  ti_TaskID <$> filterb p rows.

Definition history_GetAllTasks `{!SliceSort} (db : Database) (d : dbTest) : list Z :=
  let rows := task_rows db d in history_sortTaskList rows (select_tasks (fun t => negb (is_cleanup_row t)) rows).

Definition history_GetAllCleanupTasks `{!SliceSort} (db : Database) (d : dbTest) : list Z :=
  let rows := task_rows db d in history_sortTaskList rows (select_tasks is_cleanup_row rows).

Definition history_GetRootTasks (db : Database) (d : dbTest) : list Z :=
  select_tasks (fun t => (ti_ParentTask t =? 0) && negb (is_cleanup_row t)) (task_rows db d).

Definition history_GetRootCleanupTasks (db : Database) (d : dbTest) : list Z :=
  select_tasks (fun t => (ti_ParentTask t =? 0) && is_cleanup_row t) (task_rows db d).

(** *** The state of one task *)

Definition history_GetTaskState (db : Database) (d : dbTest) (taskIndex : Z) : option TaskState :=
  GetTaskStateByTaskID (dt_runID d) taskIndex db.

Definition has_flag (f : Z) (r : TaskState) : bool := negb (Z.land (RunFlags r) f =? 0).

(** [types.TaskStatus], less the logger. *)
Record TaskStatus := mkTaskStatus {
  st_Index : Z; st_ParentIndex : Z; st_IsStarted : bool; st_IsRunning : bool; st_IsSkipped : bool;
  st_StartTime : Z; st_StopTime : Z; st_Result : Z; st_Error : option error }.

Definition history_GetTaskStatus (r : TaskState) : TaskStatus :=
  mkTaskStatus (TaskID r) (ParentTask r) (has_flag TaskRunFlagStarted r) (has_flag TaskRunFlagRunning r)
    (has_flag TaskRunFlagSkipped r) (of_UnixMilli (StartTime r)) (of_UnixMilli (StopTime r)) (Db.TaskResult r)
    (if String.eqb (TaskError r) "" then None else Some (TaskError r)).

(** ** What the rows of a scheduler record *)

Record place_row (t : taskState) (r : TaskState) : Prop := {
  pr_id : TaskID r = index t;
  pr_parent : ParentTask r = default 0 (parentState t);
  pr_cleanup : negb (Z.land (RunFlags r) TaskRunFlagCleanup =? 0) = isCleanup t
}.

Record recorded_in (w : TaskScheduler) (db : Database) : Prop := {
  rd_database : database w = Some db;
  rd_keys : forall k r, task_states db !! k = Some r -> k = (RunID r, TaskID r);
  rd_rows : forall i r, task_states db !! (testRunID w, i) = Some r ->
    exists t, taskStateMap w !! i = Some t /\ place_row t r;
  rd_tasks : forall i t, taskStateMap w !! i = Some t ->
    is_Some (task_states db !! (testRunID w, i)) /\
    exists row, dbTaskState t = Some row /\ RunID row = testRunID w /\ TaskID row = i
}.

Definition recorded (w : TaskScheduler) : Prop := exists db, recorded_in w db.

(** ** The rows of a recorded scheduler *)

Lemma taskMap_lookup rows i t :
  NoDup (ti_TaskID <$> rows) -> taskMap rows !! i = Some t <-> t ∈ rows /\ ti_TaskID t = i.
Proof.
  unfold taskMap. induction rows as [|r rows IH] using rev_ind; intros Hnd.
  { simpl. rewrite lookup_empty. split; [done|]. by intros [?%elem_of_nil _]. }
  rewrite fmap_app in Hnd. apply NoDup_app in Hnd as (Hnd & Hr & _).
  rewrite fold_left_app. simpl. rewrite lookup_insert_Some, IH by done.
  rewrite elem_of_app, list_elem_of_singleton. split.
  - intros [[<- <-]|(Hne & Hin & <-)]; [split; [by right|done]|split; [by left|done]].
  - intros [[Hin| ->] <-]; [right|by left]. split_and!; try done. intros Heq.
    apply (Hr (ti_TaskID t)); [by apply list_elem_of_fmap_2|]. simpl. rewrite <- Heq. by left.
Qed.

Lemma index_rows run db t :
  (forall k r, task_states db !! k = Some r -> k = (RunID r, TaskID r)) ->
  t ∈ GetTaskStateIndex run db <->
  exists r, task_states db !! (run, TaskID r) = Some r /\ RunID r = run /\ t = (TaskID r, ParentTask r, RunFlags r).
Proof.
  intros Hk. unfold GetTaskStateIndex. rewrite list_elem_of_fmap. setoid_rewrite (merge_sort_Permutation order_task).
  setoid_rewrite elem_of_filterb. setoid_rewrite Z.eqb_eq. split.
  - intros (r & -> & Hrun & Hin). apply list_elem_of_fmap in Hin as ([k r'] & -> & Hin). apply elem_of_map_to_list in Hin.
    simpl in *. exists r'. pose proof (Hk _ _ Hin) as ->. by rewrite <- Hrun.
  - intros (r & Hr & Hrun & ->). exists r. split_and!; [done..|]. apply list_elem_of_fmap. exists (run, TaskID r, r).
    split; [done|]. by apply elem_of_map_to_list.
Qed.

Lemma index_ids_NoDup run db :
  (forall k r, task_states db !! k = Some r -> k = (RunID r, TaskID r)) ->
  NoDup (ti_TaskID <$> GetTaskStateIndex run db).
Proof.
  intros Hk. unfold GetTaskStateIndex. rewrite <- list_fmap_compose, (merge_sort_Permutation order_task).
  assert (Hkeys : (fun r => (RunID r, TaskID r)) <$> (map_to_list (task_states db)).*2 = (map_to_list (task_states db)).*1).
  { rewrite <- list_fmap_compose. apply list_fmap_ext. intros _ [k r] H%list_elem_of_lookup_2.
    apply elem_of_map_to_list in H. simpl. by rewrite <- (Hk _ _ H). }
  pose proof (NoDup_fst_map_to_list (task_states db)) as Hnd. rewrite <- Hkeys in Hnd.
  apply (NoDup_fmap_filterb _ (fun r => RunID r =? run)) in Hnd. revert Hnd.
  assert (Hall : forall r, r ∈ filterb (fun r => RunID r =? run) (map_to_list (task_states db)).*2 -> RunID r = run).
  { intros r [H%Z.eqb_eq _]%elem_of_filterb. done. }
  revert Hall. generalize (filterb (fun r => RunID r =? run) (map_to_list (task_states db)).*2).
  induction l as [|r l IH]; intros Hall Hnd; [constructor|]. simpl in *. apply NoDup_cons in Hnd as [Hr Hnd].
  constructor; [|apply IH; [|done]; intros r' Hr'; apply Hall; by right].
  intros (r' & Heq & Hr')%list_elem_of_fmap. apply Hr, list_elem_of_fmap. exists r'. unfold ti_TaskID in Heq. simpl in Heq.
  split; [|done]. rewrite (Hall r ltac:(by left)), (Hall r' ltac:(by right)). by rewrite Heq.
Qed.

Section order.
Context (w : TaskScheduler) (db : Database) (Hwf : sched_wf w) (Hrec : recorded_in w db).
Let rows := GetTaskStateIndex (testRunID w) db.
Let m := taskStateMap w.

Lemma rows_NoDup : NoDup (ti_TaskID <$> rows).
Proof. apply index_ids_NoDup, (rd_keys _ _ Hrec). Qed.

(** A row and the task it was written for. *)
Definition row_of (t : taskState) (a : TaskStateIndex) : Prop :=
  ti_TaskID a = index t /\ ti_ParentTask a = default 0 (parentState t) /\ is_cleanup_row a = isCleanup t.

Lemma rows_tasks a : a ∈ rows <-> exists t, m !! ti_TaskID a = Some t /\ row_of t a /\ a ∈ rows.
Proof.
  split; [|by intros (? & _ & _ & ?)]. intros Ha. pose proof Ha as Ha'.
  apply (index_rows _ _ _ (rd_keys _ _ Hrec)) in Ha as (r & Hr & _ & ->).
  destruct (rd_rows _ _ Hrec _ _ Hr) as (t & Ht & [H1 H2 H3]). exists t. by split_and!.
Qed.

Lemma row_exists i t : m !! i = Some t -> exists a, taskMap rows !! i = Some a /\ row_of t a /\ a ∈ rows.
Proof.
  intros Ht. destruct (rd_tasks _ _ Hrec i t Ht) as [[r Hr] _].
  pose proof (rd_keys _ _ Hrec _ _ Hr) as Hk. injection Hk as Hrun Hi.
  set (a := (TaskID r, ParentTask r, RunFlags r)). assert (Ha : a ∈ rows).
  { apply (index_rows _ _ _ (rd_keys _ _ Hrec)). exists r. split_and!; [by rewrite <- Hi|by symmetry|done]. }
  exists a. split; [apply taskMap_lookup; [apply rows_NoDup|by split]|].
  split; [|done]. apply rows_tasks in Ha as (t' & Ht' & Hrow & _). unfold a, ti_TaskID in Ht'. simpl in Ht'.
  rewrite <- Hi, Ht in Ht'. by injection Ht' as <-.
Qed.

Lemma taskMap_Some i a : taskMap rows !! i = Some a -> exists t, m !! i = Some t /\ row_of t a.
Proof.
  rewrite taskMap_lookup by apply rows_NoDup. intros [Ha <-]. apply rows_tasks in Ha as (t & ? & ? & _). eauto.
Qed.

Lemma row_parent t a p : m !! index t = Some t -> row_of t a ->
  1 <= p -> ti_ParentTask a = p <-> parentState t = Some p.
Proof.
  intros Ht (_ & -> & _) Hp. pose proof (swf_parent _ Hwf _ _ Ht) as Hpar. destruct (parentState t) as [q|]; simpl.
  - split; congruence.
  - split; [lia|done].
Qed.

Lemma row_depth_spec n i t a : m !! i = Some t -> row_of t a -> (Z.to_nat (taskDepth t) <= n)%nat ->
  row_depth n (taskMap rows) (Some a) = Some (taskDepth t).
Proof.
  revert i t a. induction n as [|n IH]; intros i t a Ht Ha Hn; pose proof (swf_key _ Hwf _ _ Ht) as (Hi & H1 & Hd);
    pose proof (swf_parent _ Hwf _ _ Ht) as Hpar; pose proof Ha as (_ & Hpa & _); cbn [row_depth]; rewrite Hpa;
    destruct (parentState t) as [p|]; simpl; try (by rewrite Hpar); destruct Hpar as (pt & Hpt & Hlt & Hdep);
    pose proof (swf_key _ Hwf _ _ Hpt) as (_ & ? & ?).
  - lia.
  - assert (p =? 0 = false) as -> by lia. destruct (row_exists p pt Hpt) as (pa & -> & Hrow & _).
    rewrite (IH p pt pa) by (done || lia). simpl. f_equal. lia.
Qed.

(** The comparator's loop; [x] and [y] are the tasks it started from. *)
Lemma dbLess_loop_taskLess fuel tx ty a b ta tb :
  m !! index tx = Some tx -> m !! index ty = Some ty ->
  m !! index ta = Some ta -> m !! index tb = Some tb -> row_of ta a -> row_of tb b ->
  (tb = ty \/ taskDepth ta <= taskDepth tb < taskDepth ty) ->
  (ta = tx \/ taskDepth tb <= taskDepth ta < taskDepth tx) ->
  dbLess_loop fuel (taskMap rows) (index tx) (index ty) a b = taskLess_loop fuel m ta tb.
Proof.
  revert a b ta tb. induction fuel as [|fuel IH]; intros a b ta tb Hx Hy Hta Htb Ha Hb Ib Ia; [done|].
  cbn [dbLess_loop taskLess_loop].
  pose proof (swf_key _ Hwf _ _ Hx) as (_ & Hx1 & _). pose proof (swf_key _ Hwf _ _ Hy) as (_ & Hy1 & _).
  pose proof (swf_key _ Hwf _ _ Hta) as (_ & Ha1 & Hda). pose proof (swf_key _ Hwf _ _ Htb) as (_ & Hb1 & Hdb).
  pose proof (swf_parent _ Hwf _ _ Hta) as Pa. pose proof (swf_parent _ Hwf _ _ Htb) as Pb.
  assert (HA : ti_ParentTask a = index ty <-> parentState ta = Some (index tb)).
  { rewrite (row_parent ta a) by (done || lia). destruct Ib as [->|Ib]; [done|].
    split; intros E; rewrite E in Pa; destruct Pa as (pt & Hpt & _ & Hd);
      [assert (pt = ty) by (unfold m in *; congruence)|assert (pt = tb) by (unfold m in *; congruence)]; subst pt; lia. }
  assert (HB : ti_ParentTask b = index tx <-> parentState tb = Some (index ta)).
  { rewrite (row_parent tb b) by (done || lia). destruct Ia as [->|Ia]; [done|].
    split; intros E; rewrite E in Pb; destruct Pb as (pt & Hpt & _ & Hd);
      [assert (pt = tx) by (unfold m in *; congruence)|assert (pt = ta) by (unfold m in *; congruence)]; subst pt; lia. }
  destruct (Z.eqb_spec (ti_ParentTask a) (index ty)) as [E|E]; [by rewrite decide_True by tauto|].
  rewrite (decide_False (P := parentState ta = _)) by tauto.
  destruct (Z.eqb_spec (ti_ParentTask b) (index tx)) as [E'|E']; [by rewrite decide_True by tauto|].
  rewrite (decide_False (P := parentState tb = _)) by tauto.
  pose proof Ha as (IDa & PRa & _). pose proof Hb as (IDb & PRb & _).
  rewrite (row_depth_spec _ (index ta) ta a), (row_depth_spec _ (index tb) tb b) by (done || rewrite ?IDa, ?IDb; lia).
  cbn [mbind option_bind].
  assert (Hup : forall t c, m !! index t = Some t -> row_of t c ->
    match parentState t ≫= fun p => m !! p with
    | Some t' => exists c', taskMap rows !! ti_ParentTask c = Some c' /\ row_of t' c' /\ m !! index t' = Some t' /\
        taskDepth t = taskDepth t' + 1
    | None => taskMap rows !! ti_ParentTask c = None
    end).
  { intros t c Ht (_ & PR & _). rewrite PR. pose proof (swf_parent _ Hwf _ _ Ht) as P. destruct (parentState t) as [p|]; simpl.
    - destruct P as (pt & Hpt & _ & Hd). fold m in Hpt. rewrite Hpt. destruct (row_exists p pt Hpt) as (c' & ? & ? & _).
      exists c'. split_and!; try done. by destruct (swf_key _ Hwf _ _ Hpt) as (-> & _).
    - destruct (taskMap rows !! 0) as [c'|] eqn:H0; [|done]. apply taskMap_Some in H0 as (t' & Ht' & _).
      apply (swf_key _ Hwf) in Ht' as (_ & ? & _). lia. }
  (* one step of the loop, from the pair it moves to *)
  assert (Hstep : forall a' b' ta' tb', m !! index ta' = Some ta' -> m !! index tb' = Some tb' -> row_of ta' a' -> row_of tb' b' ->
    (tb' = ty \/ taskDepth ta' <= taskDepth tb' < taskDepth ty) ->
    (ta' = tx \/ taskDepth tb' <= taskDepth ta' < taskDepth tx) ->
    (if ti_ParentTask a' =? ti_ParentTask b' then Some (ti_TaskID a' <? ti_TaskID b')
     else dbLess_loop fuel (taskMap rows) (index tx) (index ty) a' b') =
    (if decide (parentState ta' = parentState tb') then Some (index ta' <? index tb') else taskLess_loop fuel m ta' tb')).
  { intros a' b' ta' tb' Hta' Htb' Ha' Hb' Ib' Ia'.
    assert (Heq : ti_ParentTask a' = ti_ParentTask b' <-> parentState ta' = parentState tb').
    { pose proof Ha' as (_ & PA & _). pose proof Hb' as (_ & PB & _).
      pose proof (swf_parent _ Hwf _ _ Hta') as P1. pose proof (swf_parent _ Hwf _ _ Htb') as P2. rewrite PA, PB.
      destruct (parentState ta') as [p|], (parentState tb') as [q|]; simpl;
        try (destruct P1 as (? & ?%(swf_key _ Hwf) & _)); try (destruct P2 as (? & ?%(swf_key _ Hwf) & _));
        split; intros; simplify_eq; done || lia. }
    destruct (Z.eqb_spec (ti_ParentTask a') (ti_ParentTask b')) as [E1|E1].
    - rewrite decide_True by tauto. destruct Ha' as (-> & _), Hb' as (-> & _). done.
    - rewrite decide_False by tauto. by apply IH. }
  pose proof (Hup ta a Hta Ha) as Ua. pose proof (Hup tb b Htb Hb) as Ub.
  destruct (Z.ltb_spec (taskDepth tb) (taskDepth ta)) as [Hlt|Hge].
  { destruct (parentState ta ≫= fun p => m !! p) as [ta'|]; [|by rewrite Ua].
    destruct Ua as (a' & -> & Ha' & Hta' & Hd). simpl. apply Hstep; try done.
    - destruct Ib as [->|Ib]; [by left|lia].
    - right. destruct Ia as [->|Ia]; lia. }
  destruct (Z.ltb_spec (taskDepth ta) (taskDepth tb)) as [Hlt'|Hge'].
  { destruct (parentState tb ≫= fun p => m !! p) as [tb'|]; [|by rewrite Ub].
    destruct Ub as (b' & -> & Hb' & Htb' & Hd). simpl. apply Hstep; try done.
    - right. destruct Ib as [->|Ib]; lia.
    - destruct Ia as [->|Ia]; [by left|lia]. }
  destruct (parentState ta ≫= fun p => m !! p) as [ta'|]; [|by rewrite Ua].
  destruct (parentState tb ≫= fun p => m !! p) as [tb'|]; destruct Ua as (a' & -> & Ha' & Hta' & Hda');
    [|simpl; by rewrite Ub].
  destruct Ub as (b' & -> & Hb' & Htb' & Hdb'). simpl. apply Hstep; try done.
  - right. destruct Ib as [->|Ib]; lia.
  - right. destruct Ia as [->|Ia]; lia.
Qed.

Lemma dbLess_lexb i j li lj : task_path m i li -> task_path m j lj ->
  dbLess (taskMap rows) i j = Some (lexb li lj).
Proof.
  intros Hi Hj. pose proof (taskLess_lexb w i j li lj Hwf Hi Hj) as Hless. fold m in Hless.
  assert (is_Some (m !! i)) as [ti Hti] by (destruct Hi; eauto).
  assert (is_Some (m !! j)) as [tj Htj] by (destruct Hj; eauto).
  destruct (row_exists i ti Hti) as (a & Ha & Ra & _). destruct (row_exists j tj Htj) as (b & Hb & Rb & _).
  pose proof (swf_key _ Hwf _ _ Hti) as (Ei & Hi1 & Hdi). pose proof (swf_key _ Hwf _ _ Htj) as (Ej & Hj1 & Hdj).
  unfold dbLess. rewrite Ha, Hb. unfold taskLess in Hless. rewrite Hti, Htj in Hless. simpl in Hless.
  assert (Heq : ti_ParentTask a = ti_ParentTask b <-> parentState ti = parentState tj).
  { pose proof Ra as (_ & PA & _). pose proof Rb as (_ & PB & _).
    pose proof (swf_parent _ Hwf _ _ Hti) as P1. pose proof (swf_parent _ Hwf _ _ Htj) as P2. rewrite PA, PB.
    destruct (parentState ti) as [p|], (parentState tj) as [q|]; simpl;
      try (destruct P1 as (? & ?%(swf_key _ Hwf) & _)); try (destruct P2 as (? & ?%(swf_key _ Hwf) & _));
      split; intros; simplify_eq; done || lia. }
  destruct (Z.eqb_spec (ti_ParentTask a) (ti_ParentTask b)) as [E|E].
  - rewrite decide_True in Hless by tauto. destruct Ra as (-> & _), Rb as (-> & _). done.
  - rewrite decide_False in Hless by tauto. subst i j.
    rewrite (dbLess_loop_taskLess _ ti tj a b ti tj) by (done || by left).
    apply (taskLess_loop_lexb w Hwf); try done; [tauto|lia].
Qed.
End order.

(** ** Every scheduler whose creations succeed is recorded *)

Definition same_row (r r' : TaskState) : Prop :=
  RunID r' = RunID r /\ TaskID r' = TaskID r /\ ParentTask r' = ParentTask r /\
  Z.land (RunFlags r') TaskRunFlagCleanup = Z.land (RunFlags r) TaskRunFlagCleanup.

#[export] Instance same_row_preorder : PreOrder same_row.
Proof. split; repeat intro; unfold same_row in *; intuition congruence. Qed.

Definition same_key (r r' : TaskState) : Prop := RunID r' = RunID r /\ TaskID r' = TaskID r.

#[export] Instance same_key_preorder : PreOrder same_key.
Proof. split; repeat intro; unfold same_key in *; intuition congruence. Qed.

(** The tree, the places of all rows and the keys of the mirrors are kept. *)
Record keeps_rows (w w' : TaskScheduler) : Prop := {
  kr_tree : same_tree w w';
  kr_rows : option_Forall2 (fun db db' => forall k, option_Forall2 same_row (task_states db !! k) (task_states db' !! k))
    (database w) (database w');
  kr_mirror : forall i t t', taskStateMap w !! i = Some t -> taskStateMap w' !! i = Some t' ->
    option_Forall2 same_key (dbTaskState t) (dbTaskState t')
}.

Lemma option_Forall2_trans {A} (R : relation A) `{!Transitive R} : Transitive (option_Forall2 R).
Proof. intros x y z Hxy Hyz. destruct Hxy; inversion Hyz; subst; constructor. by etrans. Qed.

Lemma option_Forall2_refl {A} (R : relation A) `{!Reflexive R} : Reflexive (option_Forall2 R).
Proof. intros [x|]; constructor. done. Qed.

#[export] Instance keeps_rows_preorder : PreOrder keeps_rows.
Proof.
  split.
  - intros w. split; [done| |].
    + apply option_Forall2_refl. intros db k. by apply option_Forall2_refl, _.
    + intros i t t' Ht Ht'. rewrite Ht in Ht'. injection Ht' as <-. by apply option_Forall2_refl, _.
  - intros w1 w2 w3 [T1 D1 M1] [T2 D2 M2]. split; [by etrans| |].
    + eapply option_Forall2_trans; [|exact D1|exact D2]. intros a b c Hab Hbc k.
      by eapply option_Forall2_trans; [apply _|apply Hab|apply Hbc].
    + intros i t1 t3 H1 H3. destruct (same_tree_fwd _ _ _ _ T1 H1) as (t2 & H2 & _).
      by eapply option_Forall2_trans; [apply _|apply (M1 i t1 t2)|apply (M2 i t2 t3)].
Qed.

Lemma keeps_rows_recorded w w' : keeps_rows w w' -> recorded w -> recorded w'.
Proof.
  intros [Ht Hd Hm] (db & [Hdb Hk Hr Hta]). pose proof (st_ids _ _ Ht) as [Hid _].
  rewrite Hdb in Hd. inversion Hd as [? db' Hrows E1 E2|]; subst. exists db'. split; [done|..].
  - intros k r' Hr'. specialize (Hrows k). rewrite Hr' in Hrows. inversion Hrows as [r ? (R1 & R2 & _) E|]; subst.
    rewrite R1, R2. by apply Hk.
  - intros i r' Hr'. rewrite Hid in Hr'. specialize (Hrows (testRunID w, i)). rewrite Hr' in Hrows.
    inversion Hrows as [r ? (_ & R2 & R3 & R4) E|]; subst. destruct (Hr i r) as (t & Hti & [P1 P2 P3]); [done|].
    destruct (same_tree_fwd _ _ _ _ Ht Hti) as (t' & Ht' & (S1 & S2 & _ & S4)). exists t'. split; [done|].
    split; [by rewrite R2, P1, S1|by rewrite R3, P2, S2|by rewrite R4, P3, S4].
  - intros i t' Ht'. destruct (same_tree_bwd _ _ _ _ Ht Ht') as (t & Hti & _). destruct (Hta i t Hti) as [Hsome (row & Hrow & Hrun & Htask)].
    rewrite Hid. split.
    + specialize (Hrows (testRunID w, i)). destruct Hsome as [r Hsome]. rewrite Hsome in Hrows. inversion Hrows; eauto.
    + pose proof (Hm i t t' Hti Ht') as Hmir. rewrite Hrow in Hmir. inversion Hmir as [? row' [K1 K2]|]; subst.
      exists row'. split_and!; congruence.
Qed.

Lemma keeps_rows_update i f w :
  (forall t, same_place t (f t)) -> (forall t, option_Forall2 same_key (dbTaskState t) (dbTaskState (f t))) ->
  keeps_rows w (update_task i f w).
Proof.
  intros Hp Hk. split; [by apply same_tree_update| |].
  - apply option_Forall2_refl. intros db k. by apply option_Forall2_refl, _.
  - intros j t t' Ht. simpl. rewrite lookup_alter. case_decide; [subst j|]; intros Ht'.
    + rewrite Ht in Ht'. injection Ht' as <-. done.
    + rewrite Ht in Ht'. injection Ht' as <-. by apply option_Forall2_refl, _.
Qed.

Lemma keeps_rows_meta (w w' : TaskScheduler) :
  same_tree w w' -> database w' = database w -> taskStateMap w' = taskStateMap w -> keeps_rows w w'.
Proof.
  intros Ht Hd Hm. split; [done| |].
  - rewrite Hd. apply option_Forall2_refl. intros db k. by apply option_Forall2_refl, _.
  - intros i t t' H. rewrite Hm, H. intros [= <-]. by apply option_Forall2_refl, _.
Qed.

(** Assignments from a state with the same cleanup flag keep a row's place. *)
Lemma set_fields_same_row state fs r r' :
  Z.land (RunFlags state) TaskRunFlagCleanup = Z.land (RunFlags r) TaskRunFlagCleanup ->
  set_fields state fs r = Some r' -> same_row r r'.
Proof.
  revert r. induction fs as [|f fs IH]; intros r Hf H; simpl in H; [by simplify_eq|].
  destruct (set_field state f r) as [r1|] eqn:H1; simpl in H; [|done].
  assert (same_row r r1) as Hs by (unfold set_field in H1; repeat case_match; simplify_eq; done).
  etrans; [exact Hs|]. apply IH; [|done]. destruct Hs as (_ & _ & _ & ->). done.
Qed.

Lemma run_flags_cleanup t : Z.land (run_flags t) TaskRunFlagCleanup = if isCleanup t then 1 else 0.
Proof. unfold run_flags. by destruct (isCleanup t), (isStarted t), (isRunning t), (isSkipped t), (isTimeout t). Qed.

Section preservation.
Context `{lib : Library}.

(** A failed transaction keeps the data; an update keeps the places. *)
Lemma keeps_rows_UpdateTaskState row' changed db w :
  database w = Some db ->
  (forall r, task_states db !! (RunID row', TaskID row') = Some r ->
    Z.land (RunFlags row') TaskRunFlagCleanup = Z.land (RunFlags r) TaskRunFlagCleanup) ->
  keeps_rows w (run_transaction (UpdateTaskStateStatus row' changed) db w).1.
Proof.
  intros Hdb Hflags. pose proof (same_tree_run_transaction (UpdateTaskStateStatus row' changed) db w) as Ht.
  set (db1 := (RunTransaction (lib_engine (txCount w)) (UpdateTaskStateStatus row' changed) db).1).
  assert (forall k, option_Forall2 same_row (task_states db !! k) (task_states db1 !! k)) as Hrows.
  { assert (forall k, option_Forall2 same_row (task_states db !! k) (task_states db !! k)) as Hid
      by (intros k; by apply option_Forall2_refl, _).
    intros k. unfold db1, RunTransaction. destruct (lib_engine _); simpl; try apply Hid.
    2: { by destruct (UpdateTaskStateStatus _ _ _). }
    unfold UpdateTaskStateStatus. destruct changed as [|f fs]; [apply Hid|]. destruct (forallb _ _) eqn:Hk; [|apply Hid].
    destruct (task_states db !! (RunID row', TaskID row')) as [r|] eqn:Hr; [|apply Hid]. simpl.
    destruct (decide (k = (RunID row', TaskID row'))) as [->|Hne]; [|by rewrite lookup_insert_ne].
    rewrite lookup_insert_eq, Hr. constructor. destruct (known_set_fields row' (f :: fs) r Hk) as [r' Hr'].
    simpl in Hr'. rewrite Hr'. by eapply (set_fields_same_row row' (f :: fs)); [apply Hflags|]. }
  split; [done| |].
  - rewrite Hdb. unfold run_transaction. fold db1. destruct (RunTransaction _ _ _). by constructor.
  - intros i t t' H. unfold run_transaction. destruct (RunTransaction _ _ _). simpl. rewrite H.
    intros [= <-]. by apply option_Forall2_refl, _.
Qed.

Lemma recorded_flags w i t row r db : recorded_in w db -> taskStateMap w !! i = Some t -> dbTaskState t = Some row ->
  task_states db !! (RunID row, TaskID row) = Some r ->
  Z.land (RunFlags r) TaskRunFlagCleanup = if isCleanup t then 1 else 0.
Proof.
  intros Hrec Ht Hrow Hr. destruct (rd_tasks _ _ Hrec i t Ht) as [_ (row0 & Hrow0 & E1 & E2)].
  rewrite Hrow in Hrow0. injection Hrow0 as <-. rewrite E1, E2 in Hr.
  destruct (rd_rows _ _ Hrec i r Hr) as (t' & Ht' & [_ _ P]). rewrite Ht in Ht'. injection Ht' as <-. rewrite <- P.
  unfold TaskRunFlagCleanup. pose proof (Z.land_ones (RunFlags r) 1 ltac:(lia)) as Hones. change (Z.ones 1) with 1 in Hones.
  rewrite Hones in *. pose proof (Z.mod_pos_bound (RunFlags r) (2 ^ 1) ltac:(lia)).
  destruct (Z.eqb_spec (RunFlags r mod 2 ^ 1) 0); simpl; lia.
Qed.

Lemma keeps_rows_updateTaskState i w : recorded w -> keeps_rows w (updateTaskState i w).1.
Proof.
  intros (db & Hrec). unfold updateTaskState. destruct (getTaskState i w) as [t|] eqn:Ht; [|done].
  destruct (dbTaskState t) as [row|] eqn:Hrow; [|done].
  assert (forall row', same_key row row' -> keeps_rows w (update_task i (set_dbTaskState (Some row')) w)) as Hmir.
  { intros row' Hk. split; [by apply same_tree_update| |].
    - apply option_Forall2_refl. intros d k. by apply option_Forall2_refl, _.
    - intros j t1 t2 H1. simpl. rewrite lookup_alter. case_decide; [subst j|]; rewrite H1; intros H2; injection H2 as <-;
        [|by apply option_Forall2_refl, _].
      unfold getTaskState in Ht. rewrite H1 in Ht. injection Ht as ->. rewrite Hrow. by constructor. }
  destruct (lib_yaml_Marshal (Config_of t)) as [cfg|]; [|by apply Hmir].
  destruct (lib_yaml_Marshal (VMap _)) as [st|]; [|by apply Hmir].
  pose proof (changed_row_set_fields t (Title_of t w) cfg st row) as Hset.
  pose proof (changed_row_shows t (Title_of t w) cfg st row) as Hshow.
  destruct (changed_row _ _ _ _ _) as [row' changed]. destruct Hset as (_ & _ & K1 & K2). destruct Hshow as (_ & Hflag & _).
  simpl in Hflag. assert (keeps_rows w (update_task i (set_dbTaskState (Some row')) w)) as Hk by (apply Hmir; by split).
  destruct changed as [|c cs]; [done|]. cbv zeta. rewrite (rd_database _ _ Hrec : database (update_task _ _ _) = _).
  etrans; [exact Hk|]. apply keeps_rows_UpdateTaskState; [apply (rd_database _ _ Hrec)|].
  intros r Hr. rewrite Hflag, run_flags_cleanup. rewrite K1, K2 in Hr. symmetry. by eapply recorded_flags.
Qed.

Lemma keeps_rows_setTaskResult i r upd w : recorded w -> keeps_rows w (setTaskResult i r upd w).
Proof.
  intros Hrec. unfold setTaskResult. destruct (getTaskState i w) as [t|]; [|done].
  assert (forall f w', (forall t, same_place t (f t) /\ dbTaskState (f t) = dbTaskState t) -> keeps_rows w' (update_task i f w')) as Hf.
  { intros f w' Hf. apply keeps_rows_update; intros t0; [apply Hf|]. destruct (Hf t0) as [_ ->]. by apply option_Forall2_refl, _. }
  assert (keeps_rows w (if upd then update_task i (set_updatedResult true) w else w)) as H0 by (destruct upd; [by apply Hf|done]).
  case_decide; [done|]. set (w0 := if upd then _ else w) in *.
  assert (keeps_rows w (set_var (taskStatusVars t) "result" (VUint8 (TaskResult_int r)) (update_task i (set_taskResult r) w0))) as H1.
  { etrans; [exact H0|]. etrans; [by apply (Hf (set_taskResult r))|]. by apply keeps_rows_meta; [apply same_tree_scopes|..]. }
  set (w1 := set_var _ _ _ _) in *.
  assert (keeps_rows w (updateTaskState i w1).1) as H2.
  { etrans; [exact H1|]. apply keeps_rows_updateTaskState. by eapply keeps_rows_recorded. }
  destruct (resultNotifyChan t); [|done]. etrans; [exact H2|]. etrans; [by apply (Hf (set_resultNotifyChan None))|].
  by apply keeps_rows_meta; [apply same_tree_closedChans|..].
Qed.

Lemma keeps_rows_GetTaskResultUpdateChan i r w : keeps_rows w (GetTaskResultUpdateChan i r w).1.
Proof.
  unfold GetTaskResultUpdateChan. destruct (getTaskState i w) as [t|]; [|done].
  case_decide; [|done]. destruct (resultNotifyChan t); [done|]. simpl.
  etrans; [apply (keeps_rows_update i (set_resultNotifyChan (Some (nextChan w)))); [done|]|].
  - intros t0. by apply option_Forall2_refl, _.
  - by apply keeps_rows_meta; [apply same_tree_nextChan|..].
Qed.

Lemma recorded_newTaskState opts parent vars cleanup w i :
  recorded w -> (newTaskState opts parent vars cleanup w).2 = Ok i -> recorded (newTaskState opts parent vars cleanup w).1.
Proof.
  intros (db & [Hdb Hk Hr Ht]). unfold newTaskState. destruct (GetTaskDescriptor _) as [desc|]; [|done].
  cbv zeta. cbn [NewVariables]. set (v := match vars with Some _ => _ | None => _ end).
  set (h4 := if String.eqb (opt_ID opts) "" then _ else _). clearbody h4.
  set (t := mkTaskState _ _ _ _ _ _ _ _ _ _ _ _ _ _ _ _ _ _ _ _ _ _).
  set (w2 := if cleanup then _ else _).
  assert (taskStateMap w2 = <[index t := t]> (taskStateMap w) /\ testRunID w2 = testRunID w /\ database w2 = Some db)
    as (Em & Ei & ->) by by destruct cleanup.
  set (row := initial_row t w2). set (w3 := update_task _ _ w2). unfold run_transaction.
  destruct (lib_engine _) as [|e|e|e] eqn:He; cbn [RunTransaction InsertTaskState snd fst]; try done. intros _.
  assert (taskStateMap w3 = <[index t := set_dbTaskState (Some row) t]> (taskStateMap w)) as Em3.
  { unfold w3. simpl. rewrite Em. change (taskCount w + 1) with (index t). apply map_eq. intros j. rewrite lookup_alter.
    case_decide; [subst j; by rewrite !lookup_insert_eq|by rewrite !lookup_insert_ne]. }
  assert (testRunID w3 = testRunID w) as Ei3 by (unfold w3; simpl; done). clearbody w3.
  assert (RunID row = testRunID w /\ TaskID row = index t /\ place_row (set_dbTaskState (Some row) t) row) as (Er & Eid & Hplace).
  { split_and!; [done|done|]. split; [done..|]. simpl. by destruct cleanup. }
  clearbody row. exists (set_task_states (<[(RunID row, TaskID row) := row]> (task_states db)) db). split; simpl.
  - done.
  - intros k r [[<- <-]|[_ H]]%lookup_insert_Some; [done|by apply Hk].
  - intros j r. rewrite Ei3, Em3, Er, Eid. intros [[E <-]|[Hne H]]%lookup_insert_Some.
    + injection E as <-. exists (set_dbTaskState (Some row) t). by rewrite lookup_insert_eq.
    + destruct (Hr j r H) as (t' & Ht' & P). exists t'. split; [|done]. rewrite lookup_insert_ne; [done|].
      intros E. apply Hne. by rewrite <- E.
  - intros j t'. rewrite Ei3, Em3, Er, Eid. intros [[<- <-]|[Hne H]]%lookup_insert_Some.
    + split; [|by exists row]. rewrite lookup_insert_eq. by eexists.
    + destruct (Ht j t' H) as [[r Hrow] Hm]. split; [|done]. rewrite lookup_insert_ne; [by eexists|].
      intros E. injection E as E. by apply Hne.
Qed.
End preservation.

(** ** The lists *)

Lemma task_rows_fresh db run tr : task_rows db (mkDbTest run tr None) = GetTaskStateIndex run db.
Proof. unfold task_rows, loadTaskIndex. simpl. by destruct (GetTaskStateIndex run db). Qed.

Lemma GetTaskStateIndex_sorted run db : StronglySorted Z.le (ti_TaskID <$> GetTaskStateIndex run db).
Proof.
  unfold GetTaskStateIndex. rewrite <- list_fmap_compose.
  assert (StronglySorted order_task (merge_sort order_task (filterb (fun r => RunID r =? run) (map_to_list (task_states db)).*2))) as Hs.
  { apply StronglySorted_merge_sort.
    - intros a b c. unfold order_task. lia.
    - intros a b. unfold order_task. lia. }
  induction Hs as [|r l Hl IH Hr]; simpl; constructor; [done|]. apply Forall_fmap. exact Hr.
Qed.

Section lists.
Context `{ssort : !SliceSort} (w : TaskScheduler) (db : Database) (Hwf : sched_wf w) (Hrec : recorded_in w db).
Let rows := GetTaskStateIndex (testRunID w) db.

Lemma select_tasks_elem p q i :
  (forall t a, taskStateMap w !! index t = Some t -> row_of t a -> p a = q t) ->
  i ∈ select_tasks p rows <-> exists t, taskStateMap w !! i = Some t /\ q t = true.
Proof.
  intros Hpq. unfold select_tasks. rewrite list_elem_of_fmap. setoid_rewrite elem_of_filterb. split.
  - intros (a & -> & Hp & Ha). apply (rows_tasks _ _ Hrec) in Ha as (t & Ht & Hrow & _). exists t. split; [done|].
    rewrite <- (Hpq t a); [done| |done]. destruct Hrow as [<- _]. done.
  - intros (t & Ht & Hq). destruct (row_exists _ _ Hrec i t Ht) as (a & Hm & Hrow & Ha). exists a.
    pose proof (swf_key _ Hwf _ _ Ht) as (Hi & _). pose proof Hrow as [E _]. split; [by rewrite E|]. split; [|done].
    rewrite (Hpq t a); [done| |done]. by rewrite Hi.
Qed.

Lemma select_tasks_NoDup p : NoDup (select_tasks p rows).
Proof. apply NoDup_fmap_filterb, (rows_NoDup _ _ Hrec). Qed.

Lemma select_tasks_sorted p : StronglySorted Z.le (select_tasks p rows).
Proof.
  unfold select_tasks. pose proof (GetTaskStateIndex_sorted (testRunID w) db) as Hs. fold rows in Hs. revert Hs.
  generalize rows. intros l. induction l as [|a l IH]; [constructor|]. simpl. intros [Hl Ha]%StronglySorted_inv.
  rewrite filterb_cons. destruct (p a); [|by apply IH]. simpl. constructor; [by apply IH|]. rewrite Forall_forall in Ha |- *.
  intros i (b & -> & [_ Hb]%elem_of_filterb)%list_elem_of_fmap. apply Ha. by apply list_elem_of_fmap_2.
Qed.

Lemma cleanup_row_of t a : row_of t a -> is_cleanup_row a = isCleanup t.
Proof. by intros (_ & _ & ?). Qed.

(** Both sides sort the same tasks by the same order. *)
Lemma history_sort_eq p q l :
  (forall t a, taskStateMap w !! index t = Some t -> row_of t a -> p a = q t) ->
  NoDup l -> (forall i, i ∈ l <-> exists t, taskStateMap w !! i = Some t /\ q t = true) ->
  history_sortTaskList rows (select_tasks p rows) = sortTaskList w l.
Proof.
  intros Hpq Hnd Hl. assert (forall i, i ∈ select_tasks p rows <-> i ∈ l) as Hin
    by (intros i; by rewrite (select_tasks_elem p q), Hl).
  assert (forall i, i ∈ l -> is_Some (taskStateMap w !! i)) as Hsome by (intros i (t & ? & _)%Hl; eauto).
  destruct (slice_sort_precedes w (fun x y => default false (dbLess (taskMap rows) x y)) (select_tasks p rows) Hwf
    (select_tasks_NoDup p)) as [P1 S1]; [intros i Hi; by apply Hsome, Hin|..].
  { intros i j li lj Hi Hj. unfold rows. by rewrite (dbLess_lexb w db Hwf Hrec i j li lj). }
  destruct (sortTaskList_sorted w l Hwf Hnd Hsome) as [P2 S2].
  apply (precedes_unique w); [done..|]. unfold history_sortTaskList. rewrite P1, P2.
  apply NoDup_Permutation; [apply select_tasks_NoDup|done|done].
Qed.

Lemma Zlt_le_sorted l : StronglySorted Z.lt l -> StronglySorted Z.le l /\ NoDup l.
Proof.
  induction 1 as [|i l Hl [IH1 IH2] Hi]; [split; constructor|]. rewrite Forall_forall in Hi. split; constructor; try done.
  - apply Forall_forall. intros j Hj. specialize (Hi j Hj). lia.
  - intros Hin. specialize (Hi i Hin). lia.
Qed.

Lemma history_root_eq p q l :
  (forall t a, taskStateMap w !! index t = Some t -> row_of t a -> p a = q t) ->
  StronglySorted Z.lt l -> (forall i, i ∈ l <-> exists t, taskStateMap w !! i = Some t /\ q t = true) ->
  select_tasks p rows = l.
Proof.
  intros Hpq Hs Hl. destruct (Zlt_le_sorted l Hs) as [Hle Hnd]. apply (StronglySorted_unique Z.le); [|done|].
  - apply select_tasks_sorted.
  - apply NoDup_Permutation; [apply select_tasks_NoDup|done|]. intros i. by rewrite (select_tasks_elem p q), Hl.
Qed.

Lemma history_count : length rows = (length (allTasks w) + length (allCleanupTasks w))%nat.
Proof.
  destruct (swf_nodup _ Hwf) as (N1 & N2 & _ & _). rewrite <- length_app, <- (length_fmap ti_TaskID rows).
  apply Permutation_length, NoDup_Permutation.
  - apply (rows_NoDup _ _ Hrec).
  - apply NoDup_app. split_and!; [done| |done]. intros i (t & Ht & H1)%(swf_all _ Hwf) (t' & Ht' & H2)%(swf_cleanup _ Hwf). congruence.
  - intros i. rewrite elem_of_app, (swf_all _ Hwf), (swf_cleanup _ Hwf), list_elem_of_fmap. split.
    + intros (a & -> & Ha). apply (rows_tasks _ _ Hrec) in Ha as (t & Ht & _). destruct (isCleanup t) eqn:E; eauto.
    + intros H. assert (exists t, taskStateMap w !! i = Some t) as [t Ht] by (destruct H as [(t & ? & _)|(t & ? & _)]; eauto).
      destruct (row_exists _ _ Hrec i t Ht) as (a & _ & [E _] & Ha). exists a. split; [|done]. rewrite E.
      by destruct (swf_key _ Hwf _ _ Ht) as [-> _].
Qed.
End lists.

(** ** Root lists *)

Record roots_ok (w : TaskScheduler) : Prop := {
  ro_sorted : StronglySorted Z.lt (rootTasks w) /\ StronglySorted Z.lt (rootCleanupTasks w);
  ro_root : forall i t, taskStateMap w !! i = Some t -> parentState t = None ->
    i ∈ (if isCleanup t then rootCleanupTasks w else rootTasks w)
}.

Lemma roots_ok_same_tree w w' : same_tree w w' -> roots_ok w -> roots_ok w'.
Proof.
  intros Ht [Hs Hr]. pose proof (st_lists _ _ Ht) as (_ & _ & E1 & E2). split; rewrite E1, E2; [done|].
  intros i t' Ht' Hp. destruct (same_tree_bwd _ _ _ _ Ht Ht') as (t & Hti & (_ & E3 & _ & E4)). rewrite <- E4. apply Hr; congruence.
Qed.

Lemma StronglySorted_snoc_lt l n : StronglySorted Z.lt l -> (forall i, i ∈ l -> i < n) -> StronglySorted Z.lt (l ++ [n]).
Proof.
  induction 1 as [|i l Hl IH Hi]; intros Hn; simpl; [repeat constructor|]. constructor.
  - apply IH. intros j Hj. apply Hn. by right.
  - apply Forall_app. split; [done|]. repeat constructor. apply Hn. by left.
Qed.

Section reachable.
Context `{lib : Library}.

(** The operations of a scheduler whose task creations succeed; updates may
    fail.  Only [AddRootTask] and [AddCleanupTask] create parentless tasks. *)
Inductive history_step (w : TaskScheduler) : TaskScheduler -> Prop :=
  | hs_root opts i : (AddRootTask opts w).2 = Ok i -> history_step w (AddRootTask opts w).1
  | hs_cleanup opts i : (AddCleanupTask opts w).2 = Ok i -> history_step w (AddCleanupTask opts w).1
  | hs_child opts p vars cleanup i :
      is_Some (taskStateMap w !! p) -> (newTaskState opts (Some p) vars cleanup w).2 = Ok i ->
      history_step w (newTaskState opts (Some p) vars cleanup w).1
  | hs_updateTaskState i : history_step w (updateTaskState i w).1
  | hs_setTaskResult i r upd : history_step w (setTaskResult i r upd w)
  | hs_GetTaskResultUpdateChan i r : history_step w (GetTaskResultUpdateChan i r w).1
  | hs_set_var v name x : history_step w (set_var v name x w)
  | hs_status i f : (forall t, same_place t (f t) /\ dbTaskState (f t) = dbTaskState t) ->
      history_step w (update_task i f w).

Record history_ok (w : TaskScheduler) : Prop := {
  ho_wf : sched_wf w; ho_recorded : recorded w; ho_roots : roots_ok w }.

Lemma history_ok_keeps w w' : keeps_rows w w' -> history_ok w -> history_ok w'.
Proof.
  intros Hk [H1 H2 H3]. split; [by eapply same_tree_wf, H1; apply Hk|by eapply keeps_rows_recorded|].
  by eapply roots_ok_same_tree, H3; apply Hk.
Qed.

(** The tasks of a scheduler after a successful creation. *)
Lemma newTaskState_tasks opts parent vars cleanup w i :
  sched_wf w -> (newTaskState opts parent vars cleanup w).2 = Ok i ->
  forall j t', taskStateMap (newTaskState opts parent vars cleanup w).1 !! j = Some t' ->
    (j = i /\ parentState t' = parent /\ isCleanup t' = cleanup) \/
    exists t, taskStateMap w !! j = Some t /\ parentState t = parentState t' /\ isCleanup t = isCleanup t'.
Proof.
  intros Hwf Hok j t' Ht'.
  destruct (newTaskState_cases opts parent vars cleanup w)
    as [[_ Heq]|(t & h & Hi & _ & Hp & Hcl & _ & _ & _ & Hst & [Hr|(_ & e & Hr)])];
    [rewrite Heq in Hok; done| |congruence].
  rewrite Hr in Hok. injection Hok as <-. destruct (same_tree_bwd _ _ _ _ Hst Ht') as (t0 & Ht0 & (_ & E1 & _ & E2)).
  assert (taskStateMap (with_task t h w) = <[index t := t]> (taskStateMap w)) as Em by (unfold with_task; by destruct (isCleanup t)).
  rewrite Em in Ht0. apply lookup_insert_Some in Ht0 as [[<- <-]|[_ Ht0]]; [left|right; by exists t0].
  split_and!; congruence.
Qed.

(** [AddRootTask] and [AddCleanupTask] after their creation. *)
Lemma history_ok_append cleanup opts w i (w1 := (newTaskState opts None None cleanup w).1) :
  history_ok w -> (newTaskState opts None None cleanup w).2 = Ok i -> sched_wf (if cleanup
    then upd_rootCleanupTasks (rootCleanupTasks w1 ++ [i]) w1 else upd_rootTasks (rootTasks w1 ++ [i]) w1) ->
  history_ok (if cleanup
    then upd_rootCleanupTasks (rootCleanupTasks w1 ++ [i]) w1 else upd_rootTasks (rootTasks w1 ++ [i]) w1).
Proof.
  intros [Hwf Hrec [[S1 S2] Hr]] Hok Hwf'. split; [done| |].
  { destruct (recorded_newTaskState opts None None cleanup w i Hrec Hok) as (db & [H1 H2 H3 H4]). exists db.
    by destruct cleanup; split. }
  pose proof (newTaskState_tasks opts None None cleanup w i Hwf Hok) as Htasks.
  destruct (newTaskState_Ok opts None None cleanup w i Hwf Hok) as (Hi & _ & _ & E1 & E2 & _).
  fold w1 in Htasks, E1, E2. clearbody w1. split.
  - assert (forall j, j ∈ rootTasks w \/ j ∈ rootCleanupTasks w -> j < i) as Hlt.
    { intros j [(t & Ht & _)%(swf_root _ Hwf)|(t & Ht & _)%(swf_rootc _ Hwf)]; apply (swf_key _ Hwf) in Ht; lia. }
    destruct cleanup; simpl; rewrite E1, E2; split; try done; apply StronglySorted_snoc_lt; auto.
  - intros j t' Ht' Hp. destruct (Htasks j t') as [(-> & _ & Hc)|(t & Ht & Ep & Ec)]; [by destruct cleanup| |].
    + rewrite Hc. destruct cleanup; simpl; apply elem_of_app; right; by left.
    + specialize (Hr j t Ht ltac:(congruence)). rewrite <- Ec. destruct cleanup, (isCleanup t); simpl; rewrite ?E1, ?E2;
        try done; apply elem_of_app; by left.
Qed.

Lemma history_step_ok w w' : history_step w w' -> history_ok w -> history_ok w'.
Proof.
  intros Hstep Hok. pose proof Hok as [Hwf Hrec Hr].
  destruct Hstep as [opts i Hi|opts i Hi|opts p vars cleanup i Hp Hi|i|i r upd|i r|v name x|i f Hf].
  - pose proof (sched_step_wf _ _ (step_AddRootTask w opts) Hwf) as Hwf'. unfold AddRootTask in *.
    pose proof (history_ok_append false opts w) as H. destruct (newTaskState opts None None false w) as [w1 [j|e]]; [|done].
    by apply H.
  - pose proof (sched_step_wf _ _ (step_AddCleanupTask w opts) Hwf) as Hwf'. unfold AddCleanupTask in *.
    pose proof (history_ok_append true opts w) as H. destruct (newTaskState opts None None true w) as [w1 [j|e]]; [|done].
    by apply H.
  - split.
    + apply newTaskState_wf; [done|]. by intros ? [= <-].
    + by eapply recorded_newTaskState.
    + destruct (newTaskState_Ok opts (Some p) vars cleanup w i Hwf Hi) as (_ & _ & _ & E1 & E2 & _). destruct Hr as [Hs Hr].
      split; rewrite ?E1, ?E2; [done|]. intros j t' Ht' Hpar.
      destruct (newTaskState_tasks opts (Some p) vars cleanup w i Hwf Hi j t' Ht') as [(_ & H & _)|(t & Ht & Ep & Ec)];
        [congruence|]. rewrite <- Ec. apply Hr; congruence.
  - eapply history_ok_keeps; [by apply keeps_rows_updateTaskState|done].
  - eapply history_ok_keeps; [by apply keeps_rows_setTaskResult|done].
  - eapply history_ok_keeps; [apply keeps_rows_GetTaskResultUpdateChan|done].
  - eapply history_ok_keeps; [by apply keeps_rows_meta; [apply same_tree_scopes|..]|done].
  - eapply history_ok_keeps; [|done]. apply keeps_rows_update; intros t; [apply Hf|]. destruct (Hf t) as [_ ->].
    by apply option_Forall2_refl, _.
Qed.

Lemma NewTaskScheduler_history_ok v id h db :
  (forall k r, task_states db !! k = Some r -> k = (RunID r, TaskID r) /\ RunID r <> id) ->
  history_ok (NewTaskScheduler v id h (Some db)).
Proof.
  intros Hdb. split; [apply NewTaskScheduler_wf| |].
  - exists db. split; simpl; [done|by intros k r [? _]%Hdb| |].
    + intros i r Hr. destruct (Hdb _ _ Hr) as [E Hne]. injection E as E _. congruence.
    + intros i t. by rewrite lookup_empty.
  - split; simpl; [by repeat constructor|]. intros i t. by rewrite lookup_empty.
Qed.

Lemma history_steps_ok w w' : rtc history_step w w' -> history_ok w -> history_ok w'.
Proof. induction 1; eauto using history_step_ok. Qed.
End reachable.

Lemma newTaskState_id `{!Library} opts parent vars cleanup w :
  testRunID (newTaskState opts parent vars cleanup w).1 = testRunID w.
Proof.
  destruct (newTaskState_cases opts parent vars cleanup w) as [[_ ->]|(t & h & _ & _ & _ & _ & _ & _ & _ & Hst & _)]; [done|].
  destruct (st_ids _ _ Hst) as [-> _]. unfold with_task. by destruct (isCleanup t).
Qed.

Lemma history_step_id `{!Library} w w' : history_step w w' -> testRunID w' = testRunID w.
Proof.
  intros []; rewrite ?newTaskState_id; try done.
  - pose proof (newTaskState_id opts None None false w). unfold AddRootTask. by destruct (newTaskState opts None None false w) as [w1 []].
  - pose proof (newTaskState_id opts None None true w). unfold AddCleanupTask. by destruct (newTaskState opts None None true w) as [w1 []].
  - apply (same_tree_updateTaskState i w).
  - apply (same_tree_setTaskResult i r upd w).
  - apply (same_tree_GetTaskResultUpdateChan i r w).
Qed.

(** The root lists hold all parentless tasks of their kind. *)
Lemma roots_elem w (i : Z) (b : bool) : sched_wf w -> roots_ok w ->
  i ∈ (if b then rootCleanupTasks w else rootTasks w) <->
  exists t, taskStateMap w !! i = Some t /\ (if parentState t is Some _ then false else Bool.eqb (isCleanup t) b) = true.
Proof.
  intros Hwf [_ Hr]. split.
  - intros Hi. destruct b; [apply (swf_rootc _ Hwf) in Hi|apply (swf_root _ Hwf) in Hi];
      destruct Hi as (t & Ht & Hc & Hp); exists t; by rewrite Hp, Hc.
  - intros (t & Ht & H). destruct (parentState t) eqn:Hp; [done|]. apply eqb_prop in H. subst b. by apply Hr.
Qed.

Lemma root_row w b t a : sched_wf w -> taskStateMap w !! index t = Some t -> row_of t a ->
  (ti_ParentTask a =? 0) && Bool.eqb (is_cleanup_row a) b = (if parentState t is Some _ then false else Bool.eqb (isCleanup t) b).
Proof.
  intros Hwf Ht (_ & -> & ->). pose proof (swf_parent _ Hwf _ _ Ht) as Hp. destruct (parentState t) as [p|]; [|done].
  destruct Hp as (pt & Hpt & _). apply (swf_key _ Hwf) in Hpt. simpl. assert (p =? 0 = false) as -> by lia. done.
Qed.

(** The four lists of a recorded scheduler are those its rows give. *)
Lemma history_lists `{!SliceSort} w db' run : sched_wf w -> recorded_in w db' -> roots_ok w ->
  let d := mkDbTest (testRunID w) run None in
  history_GetAllTasks db' d = GetAllTasks w /\ history_GetAllCleanupTasks db' d = GetAllCleanupTasks w /\
  history_GetRootTasks db' d = GetRootTasks w /\ history_GetRootCleanupTasks db' d = GetRootCleanupTasks w /\
  history_GetTaskCount db' d = GetTaskCount (Some w) + Z.of_nat (length (GetAllCleanupTasks w)).
Proof.
  intros Hwf Hrec Hroots d. pose proof Hroots as [[S1 S2] Hr]. destruct (swf_nodup _ Hwf) as (N1 & N2 & _ & _).
  unfold history_GetAllTasks, history_GetAllCleanupTasks, history_GetRootTasks, history_GetRootCleanupTasks,
    history_GetTaskCount, d. rewrite !task_rows_fresh. split_and!.
  - apply (history_sort_eq w db' Hwf Hrec _ (fun t => negb (isCleanup t))); [|done|].
    + intros t a _ ->%cleanup_row_of. done.
    + intros i. rewrite (swf_all _ Hwf). by setoid_rewrite negb_true_iff.
  - apply (history_sort_eq w db' Hwf Hrec _ isCleanup); [|done|apply (swf_cleanup _ Hwf)].
    intros t a _ ->%cleanup_row_of. done.
  - apply (history_root_eq w db' Hwf Hrec _ (fun t => if parentState t is Some _ then false else Bool.eqb (isCleanup t) false)); [|done|].
    + intros t a Ht Ha. rewrite <- (root_row w false t a) by done. by destruct (is_cleanup_row a).
    + intros i. by apply (roots_elem w i false).
  - apply (history_root_eq w db' Hwf Hrec _ (fun t => if parentState t is Some _ then false else Bool.eqb (isCleanup t) true)); [|done|].
    + intros t a Ht Ha. rewrite <- (root_row w true t a) by done. by destruct (is_cleanup_row a).
    + intros i. by apply (roots_elem w i true).
  - rewrite (history_count w db' Hwf Hrec). unfold GetAllCleanupTasks, sortTaskList. rewrite slice_sort_perm. simpl. lia.
Qed.

Lemma history_steps_id `{!Library} w w' : rtc history_step w w' -> testRunID w' = testRunID w.
Proof. induction 1 as [|w1 w2 w3 Hs _ IH]; [done|]. rewrite IH. by apply history_step_id. Qed.

(** C37: The history of a run reads back its task tree: for a scheduler with a
    database that has no rows of its run yet and whose task creations
    succeed (updates of rows may fail), the lists of all tasks, of cleanup
    tasks and of their roots that the rows give are those of the scheduler, in
    the same order, although the two comparators are different code; the task
    count is not, since the history counts cleanup tasks too. *)
Theorem history_lists_tasks `{!Library, !SliceSort} v id h db w :
  (forall k r, task_states db !! k = Some r -> k = (RunID r, TaskID r) /\ RunID r <> id) ->
  rtc history_step (NewTaskScheduler v id h (Some db)) w ->
  exists db', database w = Some db' /\ forall run, let d := mkDbTest id run None in
    history_GetAllTasks db' d = GetAllTasks w /\ history_GetAllCleanupTasks db' d = GetAllCleanupTasks w /\
    history_GetRootTasks db' d = GetRootTasks w /\ history_GetRootCleanupTasks db' d = GetRootCleanupTasks w /\
    history_GetTaskCount db' d = GetTaskCount (Some w) + Z.of_nat (length (GetAllCleanupTasks w)).
Proof.
  intros Hdb Hsteps. pose proof (history_steps_ok _ _ Hsteps (NewTaskScheduler_history_ok v id h db Hdb)) as [Hwf (db' & Hrec) Hroots].
  assert (testRunID w = id) as <- by (apply history_steps_id in Hsteps; done).
  exists db'. split; [apply (rd_database _ _ Hrec)|]. intros run. by apply history_lists.
Qed.

(** The status read back from a row that shows a task. *)
Lemma history_GetTaskStatus_shows t title cfg status row : row_shows t title cfg status row ->
  let s := history_GetTaskStatus row in
  st_IsStarted s = isStarted t /\ st_IsRunning s = isRunning t /\ st_IsSkipped s = isSkipped t /\
  st_Result s = TaskResult_int (taskResult t) /\
  (forall e, taskError t = Some e -> e <> ""%string -> st_Error s = Some e).
Proof.
  intros (_ & Hf & _ & _ & _ & _ & Hr & He). simpl. unfold has_flag. rewrite Hf, Hr. unfold run_flags. split_and!; try done.
  1-3: by destruct (isCleanup t), (isStarted t), (isRunning t), (isSkipped t), (isTimeout t).
  intros e Ht Hne. rewrite (He e Ht). by destruct (String.eqb_spec e "").
Qed.

(** ** A concrete run: two root tasks and a child, one failed update *)

Section example.
#[local] Instance ex_lib_inst : Library := ex_lib 3.

Definition ex_hist : TaskScheduler := (updateTaskState 2 (update_task 2 (set_isStarted true) ex_sched)).1.

Lemma ex_hist_steps : rtc history_step ex_sched0 ex_hist.
Proof.
  apply (rtc_l _ _ ex_sched1); [by apply (hs_root ex_sched0 _ 1); vm_compute|].
  apply (rtc_l _ _ ex_sched2); [apply (hs_child ex_sched1 _ 1 None false 2); [eexists|]; by vm_compute|].
  apply (rtc_l _ _ ex_sched); [by apply (hs_root ex_sched2 _ 3); vm_compute|].
  apply (rtc_l _ _ (update_task 2 (set_isStarted true) ex_sched)); [by apply hs_status|].
  apply rtc_once, hs_updateTaskState.
Qed.

Lemma history_lists_tasks_witness : exists db', database ex_hist = Some db' /\
  let d := mkDbTest 7 (mkTestRun 7 "t" "" "" "" 0 0 0 "") None in
  history_GetAllTasks db' d = [1; 2; 3] /\ history_GetRootTasks db' d = [1; 3].
Proof.
  destruct (@history_lists_tasks _ insertion_slice_sort (Ref 0) 7 (NewVariables None empty_heap).1 empty_db ex_hist)
    as (db' & Hdb & H); [intros k r; simpl; by rewrite lookup_empty|exact ex_hist_steps|].
  exists db'. split; [exact Hdb|]. cbv zeta. destruct (H (mkTestRun 7 "t" "" "" "" 0 0 0 "")) as (-> & _ & -> & _). by vm_compute.
Defined.
End example.
