(* ===== verification/CheckBlocks.v ===== *)
(** * The task check_consensus_block_proposals

    tasks/check_consensus_block_proposals: waits until enough blocks satisfy
    every configured filter.  Blocks come from the block cache (a walk back
    from its newest block, then its block events).  The accessors of a signed
    beacon block (go-eth2-client), regular expressions, hex decoding and the
    intersection of two slices are parameters. *)

From Stdlib Require Import Strings.Byte.
From S2P Require Import Prelude Dispatcher BlockIndex BlockCache Scheduler.

Open Scope Z_scope.

(** ** Data *)

Abbreviation bytes := (list Byte.byte) (only parsing).

Record ExpectedSlashing := mkExpSlashing { es_PublicKey : string; es_SlashingType : string }.
Record ExpectedBlsChange := mkExpBls { eb_PublicKey : string; eb_Address : string }.
Record ExpectedWithdrawal := mkExpWithdrawal {
  ew_PublicKey : string; ew_Address : string; ew_MinAmount : option Z; ew_MaxAmount : option Z }.
Record ExpectedDepositRequest := mkExpDepReq {
  ed_PublicKey : string; ed_WithdrawalCredentials : string; ed_Amount : option Z }.
Record ExpectedWithdrawalRequest := mkExpWdReq {
  er_SourceAddress : string; er_ValidatorPubkey : string; er_Amount : option Z }.
Record ExpectedConsolidationRequest := mkExpConsReq {
  ec_SourceAddress : string; ec_SourcePubkey : string; ec_TargetPubkey : string }.

Record Config := mkConfig {
  CheckLookback : Z;
  BlockCount : Z;
  GraffitiPattern : string;
  ValidatorNamePattern : string;
  ExtraDataPattern : string;
  MinAttestationCount : Z;
  MinDepositCount : Z;
  MinExitCount : Z;
  MinSlashingCount : Z;
  MinAttesterSlashingCount : Z;
  MinProposerSlashingCount : Z;
  MinBlsChangeCount : Z;
  MinWithdrawalCount : Z;
  MinTransactionCount : Z;
  MinBlobCount : Z;
  MinDepositRequestCount : Z;
  MinWithdrawalRequestCount : Z;
  MinConsolidationRequestCount : Z;
  ExpectDeposits : list string;
  ExpectExits : list string;
  ExpectSlashings : list ExpectedSlashing;
  ExpectBlsChanges : list ExpectedBlsChange;
  ExpectWithdrawals : list ExpectedWithdrawal;
  ExpectDepositRequests : list ExpectedDepositRequest;
  ExpectWithdrawalRequests : list ExpectedWithdrawalRequest;
  ExpectConsolidationRequests : list ExpectedConsolidationRequest
}.

Definition DefaultConfig : Config :=
  mkConfig 1 1 "" "" "" 0 0 0 0 0 0 0 0 0 0 0 0 0 [] [] [] [] [] [] [] [].

(** What the checks read of a signed beacon block and of the validator set. *)
Class BeaconBlocks `{eth : Eth2} := {
  Pubkey : Type;
  Pubkey_String : Pubkey -> string;
  Pubkey_bytes : Pubkey -> bytes;
  ExecAddress : Type;
  Address_String : ExecAddress -> string;
  Address_bytes : ExecAddress -> bytes;
  Attestation : Type;
  IndexedAttestation : Type;
  AttestingIndices : IndexedAttestation -> result (list Z);
  AttesterSlashing : Type;
  Attestation1 : AttesterSlashing -> result IndexedAttestation;
  Attestation2 : AttesterSlashing -> result IndexedAttestation;
  get_Graffiti : BlockBody -> result string;
  get_ProposerIndex : BlockBody -> result Z;
  get_ExtraData : BlockBody -> result string;
  get_Attestations : BlockBody -> result (list Attestation);
  (** public keys of deposits, indexes of exits and of first headers *)
  get_Deposits : BlockBody -> result (list Pubkey);
  get_VoluntaryExits : BlockBody -> result (list Z);
  get_AttesterSlashings : BlockBody -> result (list AttesterSlashing);
  get_ProposerSlashings : BlockBody -> result (list Z);
  (** validator index and execution address *)
  get_BLSToExecutionChanges : BlockBody -> result (list (Z * ExecAddress));
  (** validator index, address and amount *)
  get_Withdrawals : BlockBody -> result (list (Z * ExecAddress * Z));
  get_ExecutionTransactions : BlockBody -> result (list bytes);
  get_BlobKZGCommitments : BlockBody -> result (list bytes);
  (** of [ExecutionRequests()]: public key, credentials and amount; source
      address, validator key and amount; source address, source and target *)
  get_RequestDeposits : BlockBody -> result (list (Pubkey * bytes * Z));
  get_RequestWithdrawals : BlockBody -> result (list (ExecAddress * Pubkey * Z));
  get_RequestConsolidations : BlockBody -> result (list (ExecAddress * Pubkey * Pubkey));
  (** [validatorSet[index]], [None] for a nil entry *)
  validator_PublicKey : ValidatorMap -> Z -> option Pubkey;
  (** libraries *)
  regexp_MatchString : string -> string -> result bool;
  common_FromHex : string -> bytes;
  intersect_Simple : list Z -> list Z -> list Z;
  intersect_Simple_spec : forall a b x, x ∈ intersect_Simple a b <-> x ∈ a /\ x ∈ b
}.

Definition fold_char (c : Ascii.ascii) : Ascii.ascii :=
  let n := Ascii.nat_of_ascii c in
  if (65 <=? Z.of_nat n) && (Z.of_nat n <=? 90) then Ascii.ascii_of_nat (n + 32) else c.

(** [strings.EqualFold]; one side is always the hex form of an address, for
    whose characters the Unicode folding is the ASCII one. *)
Fixpoint EqualFold (s t : string) : bool :=
  match s, t with
  | EmptyString, EmptyString => true
  | String c s, String d t => Ascii.eqb (fold_char c) (fold_char d) && EqualFold s t
  | _, _ => false
  end.

(** Loops that leave at the first hit, and at the first miss. *)
Fixpoint any_go {A} (test : A -> go bool) (l : list A) : go bool :=
  match l with
  | [] => Ret false
  | x :: l => do! b := test x in if b then Ret true else any_go test l
  end.

Fixpoint all_go {A} (test : A -> go bool) (l : list A) : go bool :=
  match l with
  | [] => Ret true
  | x :: l => do! b := test x in if b then all_go test l else Ret false
  end.

Definition len {A} (l : list A) : Z := Z.of_nat (length l).

Section checks.
Context `{bb : BeaconBlocks}.

(** What a check sees besides the block: the validator set of the cache at
    that time ([None] for nil) and the names of validators. *)
Record Services := mkServices { GetValidatorSet : option ValidatorMap; GetValidatorName : Z -> string }.

Context (cfg : Config) (sv : Services).

Definition matches (pattern text : string) : bool :=
  match regexp_MatchString pattern text with Ok matched => matched | Err _ => false end.

Definition checkBlockGraffiti (b : BlockBody) : bool :=
  match get_Graffiti b with Err _ => false | Ok graffiti => matches (GraffitiPattern cfg) graffiti end.

Definition checkBlockValidatorName (b : BlockBody) : bool :=
  match get_ProposerIndex b with
  | Err _ => false
  | Ok proposerIndex => matches (ValidatorNamePattern cfg) (GetValidatorName sv proposerIndex)
  end.

Definition checkBlockExtraData (b : BlockBody) : bool :=
  match get_ExtraData b with Err _ => false | Ok extraData => matches (ExtraDataPattern cfg) extraData end.

Definition checkBlockAttestations (b : BlockBody) : bool :=
  match get_Attestations b with
  | Err _ => false
  | Ok attestations => negb (len attestations <? MinAttestationCount cfg)
  end.

Definition checkBlockDeposits (b : BlockBody) : bool :=
  match get_Deposits b with
  | Err _ => false
  | Ok deposits =>
      if len deposits <? MinDepositCount cfg then false
      else forallb (fun pubkey => existsb (fun deposit => String.eqb (Pubkey_String deposit) pubkey) deposits)
             (ExpectDeposits cfg)
  end.

(** [validatorSet[index]] is a validator with the public key. *)
Definition has_key (validatorSet : ValidatorMap) (index : Z) (pubkey : string) : bool :=
  match validator_PublicKey validatorSet index with
  | None => false
  | Some key => String.eqb (Pubkey_String key) pubkey
  end.

(** The second half of a check with expectations about validators. *)
Definition with_validators {A} (expected : list A) (check : ValidatorMap -> A -> bool) : bool :=
  match expected with
  | [] => true
  | _ =>
      match GetValidatorSet sv with
      | None => false
      | Some validatorSet => forallb (check validatorSet) expected
      end
  end.

Definition checkBlockExits (b : BlockBody) : bool :=
  match get_VoluntaryExits b with
  | Err _ => false
  | Ok exits =>
      if len exits <? MinExitCount cfg then false
      else with_validators (ExpectExits cfg) (fun validatorSet pubkey =>
             existsb (fun index => has_key validatorSet index pubkey) exits)
  end.

Definition attester_slashed (validatorSet : ValidatorMap) (pubkey : string) (slashing : AttesterSlashing) : bool :=
  match Attestation1 slashing, Attestation2 slashing with
  | Ok att1, Ok att2 =>
      match AttestingIndices att1, AttestingIndices att2 with
      | Ok att1indices, Ok att2indices =>
          existsb (fun valIdx => has_key validatorSet valIdx pubkey) (intersect_Simple att1indices att2indices)
      | _, _ => false
      end
  | _, _ => false
  end.

Definition slashing_found (validatorSet : ValidatorMap) (attSlashings : list AttesterSlashing)
    (propSlashings : list Z) (expected : ExpectedSlashing) : bool :=
  let type := es_SlashingType expected in
  let found := (String.eqb type "" || String.eqb type "attester") &&
    existsb (attester_slashed validatorSet (es_PublicKey expected)) attSlashings in
  if found then true
  else (String.eqb type "" || String.eqb type "proposer") &&
    existsb (fun index => has_key validatorSet index (es_PublicKey expected)) propSlashings.

Definition checkBlockSlashings (b : BlockBody) : bool :=
  match get_AttesterSlashings b, get_ProposerSlashings b with
  | Ok attSlashings, Ok propSlashings =>
      if len attSlashings + len propSlashings <? MinSlashingCount cfg then false
      else with_validators (ExpectSlashings cfg) (fun validatorSet => slashing_found validatorSet attSlashings propSlashings)
  | _, _ => false
  end.

Definition checkBlockAttesterSlashings (b : BlockBody) : bool :=
  match get_AttesterSlashings b with
  | Err _ => false
  | Ok attSlashings => negb (len attSlashings <? MinAttesterSlashingCount cfg)
  end.

Definition checkBlockProposerSlashings (b : BlockBody) : bool :=
  match get_ProposerSlashings b with
  | Err _ => false
  | Ok propSlashings => negb (len propSlashings <? MinProposerSlashingCount cfg)
  end.

(** The loop stops at the first change of the validator, right or wrong. *)
Fixpoint bls_change_found (validatorSet : ValidatorMap) (expected : ExpectedBlsChange)
    (blsChanges : list (Z * ExecAddress)) : bool :=
  match blsChanges with
  | [] => false
  | (index, address) :: blsChanges =>
      if has_key validatorSet index (eb_PublicKey expected) then
        negb (negb (String.eqb (eb_Address expected) "") && negb (EqualFold (eb_Address expected) (Address_String address)))
      else bls_change_found validatorSet expected blsChanges
  end.

Definition checkBlockBlsChanges (b : BlockBody) : bool :=
  match get_BLSToExecutionChanges b with
  | Err _ => false
  | Ok blsChanges =>
      if len blsChanges <? MinBlsChangeCount cfg then false
      else with_validators (ExpectBlsChanges cfg) (fun validatorSet expected => bls_change_found validatorSet expected blsChanges)
  end.

(** [x != nil && x.Cmp(0) > 0 && x.Cmp(amount) > 0], and [< 0] for a maximum. *)
Definition below_min (min : option Z) (amount : Z) : bool :=
  match min with None => false | Some min => (0 <? min) && (amount <? min) end.

Definition above_max (max : option Z) (amount : Z) : bool :=
  match max with None => false | Some max => (0 <? max) && (max <? amount) end.

Definition withdrawal_ok (validatorSet : ValidatorMap) (expected : ExpectedWithdrawal) (withdrawal : Z * ExecAddress * Z) : bool :=
  let '(index, address, amount) := withdrawal in
  if has_key validatorSet index (ew_PublicKey expected) then
    if negb (String.eqb (ew_Address expected) "") && negb (EqualFold (ew_Address expected) (Address_String address)) then false
    else if below_min (ew_MinAmount expected) amount then false
    else if above_max (ew_MaxAmount expected) amount then false
    else true
  else false.

Definition checkBlockWithdrawals (b : BlockBody) : bool :=
  match get_Withdrawals b with
  | Err _ => false
  | Ok withdrawals =>
      if len withdrawals <? MinWithdrawalCount cfg then false
      else with_validators (ExpectWithdrawals cfg) (fun validatorSet expected =>
             existsb (withdrawal_ok validatorSet expected) withdrawals)
  end.

Definition checkBlockTransactions (b : BlockBody) : bool :=
  match get_ExecutionTransactions b with
  | Err _ => false
  | Ok transactions => negb (len transactions <? MinTransactionCount cfg)
  end.

Definition checkBlockBlobs (b : BlockBody) : bool :=
  match get_BlobKZGCommitments b with
  | Err _ => false
  | Ok blobs => negb (len blobs <? MinBlobCount cfg)
  end.

(** [Amount] is compared without a test for nil. *)
Definition deposit_request_ok (expected : ExpectedDepositRequest) (request : Pubkey * bytes * Z) : go bool :=
  let '(pubkey, credentials, amount) := request in
  if String.eqb (ed_PublicKey expected) "" || String.eqb (Pubkey_String pubkey) (ed_PublicKey expected) then
    if negb (String.eqb (ed_WithdrawalCredentials expected) "") &&
       negb (bool_decide (common_FromHex (ed_WithdrawalCredentials expected) = credentials)) then Ret false
    else
      match ed_Amount expected with
      | None => Panic "nil pointer dereference"
      | Some want => Ret (negb ((0 <? want) && negb (want =? amount)))
      end
  else Ret false.

Definition checkBlockDepositRequests (b : BlockBody) : go bool :=
  match get_RequestDeposits b with
  | Err _ => Ret false
  | Ok depositRequests =>
      if len depositRequests <? MinDepositRequestCount cfg then Ret false
      else all_go (fun expected => any_go (deposit_request_ok expected) depositRequests) (ExpectDepositRequests cfg)
  end.

Definition withdrawal_request_ok (expected : ExpectedWithdrawalRequest) (request : ExecAddress * Pubkey * Z) : bool :=
  let '(source, pubkey, amount) := request in
  if String.eqb (er_ValidatorPubkey expected) "" ||
     bool_decide (Pubkey_bytes pubkey = common_FromHex (er_ValidatorPubkey expected)) then
    if negb (String.eqb (er_SourceAddress expected) "") &&
       negb (bool_decide (common_FromHex (er_SourceAddress expected) = Address_bytes source)) then false
    else
      match er_Amount expected with
      | Some want => want =? amount
      | None => true
      end
  else false.

Definition checkBlockWithdrawalRequests (b : BlockBody) : bool :=
  match get_RequestWithdrawals b with
  | Err _ => false
  | Ok withdrawalRequests =>
      if len withdrawalRequests <? MinWithdrawalRequestCount cfg then false
      else forallb (fun expected => existsb (withdrawal_request_ok expected) withdrawalRequests) (ExpectWithdrawalRequests cfg)
  end.

Definition consolidation_request_ok (expected : ExpectedConsolidationRequest) (request : ExecAddress * Pubkey * Pubkey) : bool :=
  let '(address, source, target) := request in
  if String.eqb (ec_SourcePubkey expected) "" ||
     bool_decide (Pubkey_bytes source = common_FromHex (ec_SourcePubkey expected)) then
    if negb (String.eqb (ec_SourceAddress expected) "") &&
       negb (bool_decide (common_FromHex (ec_SourceAddress expected) = Address_bytes address)) then false
    else if negb (String.eqb (ec_TargetPubkey expected) "") &&
       negb (bool_decide (common_FromHex (ec_TargetPubkey expected) = Pubkey_bytes target)) then false
    else true
  else false.

Definition checkBlockConsolidationRequests (b : BlockBody) : bool :=
  match get_RequestConsolidations b with
  | Err _ => false
  | Ok consolidationRequests =>
      if len consolidationRequests <? MinConsolidationRequestCount cfg then false
      else forallb (fun expected => existsb (consolidation_request_ok expected) consolidationRequests)
             (ExpectConsolidationRequests cfg)
  end.

Definition wanted {A} (min : Z) (expected : list A) : bool := (0 <? min) || (0 <? len expected).

(** [checkBlock]; the argument is what [AwaitBlock] returned. *)
Definition checkBlock (blockData : option BlockBody) : go bool :=
  match blockData with
  | None => Ret false
  | Some b =>
      if negb (String.eqb (ValidatorNamePattern cfg) "") && negb (checkBlockValidatorName b) then Ret false
      else if negb (String.eqb (GraffitiPattern cfg) "") && negb (checkBlockGraffiti b) then Ret false
      else if negb (String.eqb (ExtraDataPattern cfg) "") && negb (checkBlockExtraData b) then Ret false
      else if (0 <? MinAttestationCount cfg) && negb (checkBlockAttestations b) then Ret false
      else if wanted (MinDepositCount cfg) (ExpectDeposits cfg) && negb (checkBlockDeposits b) then Ret false
      else if wanted (MinExitCount cfg) (ExpectExits cfg) && negb (checkBlockExits b) then Ret false
      else if wanted (MinSlashingCount cfg) (ExpectSlashings cfg) && negb (checkBlockSlashings b) then Ret false
      else if (0 <? MinAttesterSlashingCount cfg) && negb (checkBlockAttesterSlashings b) then Ret false
      else if (0 <? MinProposerSlashingCount cfg) && negb (checkBlockProposerSlashings b) then Ret false
      else if wanted (MinBlsChangeCount cfg) (ExpectBlsChanges cfg) && negb (checkBlockBlsChanges b) then Ret false
      else if wanted (MinWithdrawalCount cfg) (ExpectWithdrawals cfg) && negb (checkBlockWithdrawals b) then Ret false
      else if (0 <? MinTransactionCount cfg) && negb (checkBlockTransactions b) then Ret false
      else if (0 <? MinBlobCount cfg) && negb (checkBlockBlobs b) then Ret false
      else
        do! deposits :=
          (if wanted (MinDepositRequestCount cfg) (ExpectDepositRequests cfg) then checkBlockDepositRequests b else Ret true) in
        if negb deposits then Ret false
        else if wanted (MinWithdrawalRequestCount cfg) (ExpectWithdrawalRequests cfg) &&
                negb (checkBlockWithdrawalRequests b) then Ret false
        else if wanted (MinConsolidationRequestCount cfg) (ExpectConsolidationRequests cfg) &&
                negb (checkBlockConsolidationRequests b) then Ret false
        else Ret true
  end.
End checks.

(** ** The task *)

Section execute.
Context `{bb : BeaconBlocks} `{!SliceSort}.

(** What check number [k] of the block [p] is given: the body that
    [AwaitBlock] returns and the services at that time. *)
Context (cfg : Config) (await : nat -> nat -> option BlockBody) (services : nat -> Services).

(** [checks] counts the checks made; [lastResult] is the last [SetResult] and
    [outputs] the blocks given to [setMatchingBlocksOutput]. *)
Record progress := mkProgress {
  checks : nat;
  totalMatches : Z;
  matchingBlocks : list nat;
  lastResult : TaskResult;
  outputs : option (list nat) }.

Definition initial : progress := mkProgress 0 0 [] TaskResultNone None.

Definition checkBlockMatch (p : nat) (st : progress) : go (progress * bool) :=
  do! found := checkBlock cfg (services (checks st)) (await (checks st) p) in
  let total := if found : bool then totalMatches st + 1 else totalMatches st in
  let blocks := if found then matchingBlocks st ++ [p] else matchingBlocks st in
  if 0 <? BlockCount cfg then
    if BlockCount cfg <=? total
    then Ret (mkProgress (S (checks st)) total blocks TaskResultSuccess (Some blocks), true)
    else Ret (mkProgress (S (checks st)) total blocks (lastResult st) (outputs st), false)
  else
    Ret (mkProgress (S (checks st)) total blocks
           (if found then TaskResultSuccess else TaskResultNone) (outputs st), false).

(** The walk from a block towards its ancestors, for at most [rest] more. *)
Fixpoint lookback_loop (rest : nat) (c : BlockIndex Block) (p : nat) : list nat :=
  p :: match rest with
       | O => []
       | S rest =>
           match blockHeap c !! p ≫= GetParentRoot with
           | None => []
           | Some parentRoot =>
               match GetCachedBlockByRoot parentRoot c with
               | None => []
               | Some q => lookback_loop rest c q
               end
           end
       end.

(** The blocks checked at the start, oldest first. *)
Definition lookback (c : BlockIndex Block) : list nat :=
  if 0 <? CheckLookback cfg then
    match GetCachedBlocks c with
    | [] => []
    | p :: _ => rev (lookback_loop (Z.to_nat (CheckLookback cfg - 1)) c p)
    end
  else [].

Fixpoint check_all (ps : list nat) (st : progress) : go (progress * bool) :=
  match ps with
  | [] => Ret (st, false)
  | p :: ps =>
      do! (st, enough) := checkBlockMatch p st in
      if enough then Ret (st, true) else check_all ps st
  end.

Inductive event := BlockEvent (p : nat) | ContextDone (e : error).

(** The [select] loop; [None] while it waits, then what [Execute] returns. *)
Fixpoint event_loop (es : list event) (st : progress) : go (progress * option (option error)) :=
  match es with
  | [] => Ret (st, None)
  | BlockEvent p :: es =>
      do! (st, enough) := checkBlockMatch p st in
      if enough then Ret (st, Some None) else event_loop es st
  | ContextDone e :: _ => Ret (st, Some (Some e))
  end.

Definition Execute (c : BlockIndex Block) (es : list event) : go (progress * option (option error)) :=
  do! (st, enough) := check_all (lookback c) initial in
  if enough then Ret (st, Some None) else event_loop es st.
End execute.

(** ** The declarative meaning of the filters *)

Section meaning.
Context `{bb : BeaconBlocks} (cfg : Config) (sv : Services).

Definition text_ok (pattern : string) (text : result string) : Prop :=
  pattern <> ""%string -> exists t, text = Ok t /\ regexp_MatchString pattern t = Ok true.

(** Enough elements and, for every expectation, one that meets it. *)
Definition enough_of {A X} (min : Z) (expected : list X) (found : result (list A)) (meets : list A -> X -> Prop) : Prop :=
  0 < min \/ expected <> [] ->
  exists l, found = Ok l /\ min <= len l /\ forall x, x ∈ expected -> meets l x.

(** The key of a validator of the current set. *)
Definition validator_key (index : Z) (pubkey : string) : Prop :=
  exists vs key, GetValidatorSet sv = Some vs /\ validator_PublicKey vs index = Some key /\ Pubkey_String key = pubkey.

Definition slashed_attester (pubkey : string) (s : AttesterSlashing) : Prop :=
  exists att1 att2 l1 l2 index, Attestation1 s = Ok att1 /\ Attestation2 s = Ok att2 /\
    AttestingIndices att1 = Ok l1 /\ AttestingIndices att2 = Ok l2 /\ index ∈ l1 /\ index ∈ l2 /\ validator_key index pubkey.

Definition address_ok (want : string) (a : ExecAddress) : Prop :=
  want = ""%string \/ EqualFold want (Address_String a) = true.

Definition min_ok (min : option Z) (amount : Z) : Prop := forall m, min = Some m -> m <= 0 \/ m <= amount.
Definition max_ok (max : option Z) (amount : Z) : Prop := forall m, max = Some m -> m <= 0 \/ amount <= m.

Definition bytes_ok (want : string) (have : bytes) : Prop := want = ""%string \/ common_FromHex want = have.

Record block_satisfies (b : BlockBody) : Prop := {
  bs_name : text_ok (ValidatorNamePattern cfg)
    (match get_ProposerIndex b with Ok i => Ok (GetValidatorName sv i) | Err e => Err e end);
  bs_graffiti : text_ok (GraffitiPattern cfg) (get_Graffiti b);
  bs_extra : text_ok (ExtraDataPattern cfg) (get_ExtraData b);
  bs_attestations : enough_of (X := Empty_set) (MinAttestationCount cfg) [] (get_Attestations b) (fun _ _ => False);
  bs_deposits : enough_of (MinDepositCount cfg) (ExpectDeposits cfg) (get_Deposits b)
    (fun l pubkey => exists d, d ∈ l /\ Pubkey_String d = pubkey);
  bs_exits : enough_of (MinExitCount cfg) (ExpectExits cfg) (get_VoluntaryExits b)
    (fun l pubkey => exists i, i ∈ l /\ validator_key i pubkey);
  bs_slashings : 0 < MinSlashingCount cfg \/ ExpectSlashings cfg <> [] ->
    exists atts props, get_AttesterSlashings b = Ok atts /\ get_ProposerSlashings b = Ok props /\
      MinSlashingCount cfg <= len atts + len props /\
      forall x, x ∈ ExpectSlashings cfg ->
        (es_SlashingType x ∈ [""; "attester"]%string /\ exists s, s ∈ atts /\ slashed_attester (es_PublicKey x) s) \/
        (es_SlashingType x ∈ [""; "proposer"]%string /\ exists i, i ∈ props /\ validator_key i (es_PublicKey x));
  bs_attester_slashings : enough_of (X := Empty_set) (MinAttesterSlashingCount cfg) [] (get_AttesterSlashings b) (fun _ _ => False);
  bs_proposer_slashings : enough_of (X := Empty_set) (MinProposerSlashingCount cfg) [] (get_ProposerSlashings b) (fun _ _ => False);
  bs_bls : enough_of (MinBlsChangeCount cfg) (ExpectBlsChanges cfg) (get_BLSToExecutionChanges b)
    (fun l x => exists l1 i a l2, l = l1 ++ (i, a) :: l2 /\ validator_key i (eb_PublicKey x) /\
      (forall j, j ∈ l1.*1 -> ~ validator_key j (eb_PublicKey x)) /\ address_ok (eb_Address x) a);
  bs_withdrawals : enough_of (MinWithdrawalCount cfg) (ExpectWithdrawals cfg) (get_Withdrawals b)
    (fun l x => exists i a amount, (i, a, amount) ∈ l /\ validator_key i (ew_PublicKey x) /\ address_ok (ew_Address x) a /\
      min_ok (ew_MinAmount x) amount /\ max_ok (ew_MaxAmount x) amount);
  bs_transactions : enough_of (X := Empty_set) (MinTransactionCount cfg) [] (get_ExecutionTransactions b) (fun _ _ => False);
  bs_blobs : enough_of (X := Empty_set) (MinBlobCount cfg) [] (get_BlobKZGCommitments b) (fun _ _ => False);
  bs_deposit_requests : enough_of (MinDepositRequestCount cfg) (ExpectDepositRequests cfg) (get_RequestDeposits b)
    (fun l x => exists k c amount, (k, c, amount) ∈ l /\ (ed_PublicKey x = ""%string \/ Pubkey_String k = ed_PublicKey x) /\
      bytes_ok (ed_WithdrawalCredentials x) c /\ forall m, ed_Amount x = Some m -> m <= 0 \/ m = amount);
  bs_withdrawal_requests : enough_of (MinWithdrawalRequestCount cfg) (ExpectWithdrawalRequests cfg) (get_RequestWithdrawals b)
    (fun l x => exists a k amount, (a, k, amount) ∈ l /\ bytes_ok (er_ValidatorPubkey x) (Pubkey_bytes k) /\
      bytes_ok (er_SourceAddress x) (Address_bytes a) /\ forall m, er_Amount x = Some m -> m = amount);
  bs_consolidation_requests : enough_of (MinConsolidationRequestCount cfg) (ExpectConsolidationRequests cfg)
      (get_RequestConsolidations b)
    (fun l x => exists a s t, (a, s, t) ∈ l /\ bytes_ok (ec_SourcePubkey x) (Pubkey_bytes s) /\
      bytes_ok (ec_SourceAddress x) (Address_bytes a) /\ bytes_ok (ec_TargetPubkey x) (Pubkey_bytes t))
}.
End meaning.

(** ** Lemmas *)

Lemma guard_Ret (guard check : bool) (k : go bool) :
  (if guard && negb check then Ret false else k) = Ret true <-> (guard = true -> check = true) /\ k = Ret true.
Proof. destruct guard, check; simpl; intuition congruence. Qed.

Lemma guard_true (guard rest : bool) : (if guard then false else rest) = true <-> guard = false /\ rest = true.
Proof. destruct guard; intuition congruence. Qed.

Lemma wanted_true {X} min (expected : list X) : wanted min expected = true <-> 0 < min \/ expected <> [].
Proof.
  unfold wanted, len. rewrite orb_true_iff, !Z.ltb_lt. destruct expected; simpl; [|split; intros [?|?]; auto; right; done || lia].
  split; intros [?|?]; auto; lia || done.
Qed.

Lemma any_go_pure {A} (test : A -> go bool) (p : A -> bool) l :
  (forall x, x ∈ l -> test x = Ret (p x)) -> any_go test l = Ret (existsb p l).
Proof.
  induction l as [|x l IH]; intros Ht; [done|]. simpl. rewrite (Ht x ltac:(by left)). simpl.
  destruct (p x); [done|]. apply IH. intros y Hy. apply Ht. by right.
Qed.

Lemma all_go_pure {A} (test : A -> go bool) (p : A -> bool) l :
  (forall x, x ∈ l -> test x = Ret (p x)) -> all_go test l = Ret (forallb p l).
Proof.
  induction l as [|x l IH]; intros Ht; [done|]. simpl. rewrite (Ht x ltac:(by left)). simpl.
  destruct (p x); [|done]. apply IH. intros y Hy. apply Ht. by right.
Qed.

Lemma existsb_elem {A} (p : A -> bool) l : existsb p l = true <-> exists x, x ∈ l /\ p x = true.
Proof. rewrite existsb_exists. by setoid_rewrite <- list_elem_of_In. Qed.

Section filter_lemmas.
Context `{bb : BeaconBlocks} (cfg : Config) (sv : Services).

Lemma text_ok_spec pattern (text : result string) :
  (negb (String.eqb pattern "") = true -> match text with Err _ => false | Ok t => matches pattern t end = true) <->
  text_ok pattern text.
Proof.
  unfold text_ok, matches. rewrite negb_true_iff, String.eqb_neq. split; intros H Hne; specialize (H Hne).
  - destruct text as [t|]; [|done]. exists t. split; [done|]. destruct (regexp_MatchString pattern t) as [[]|]; done.
  - destruct H as (t & -> & ->). done.
Qed.

Lemma has_key_spec vs i pubkey : GetValidatorSet sv = Some vs -> has_key vs i pubkey = true <-> validator_key sv i pubkey.
Proof.
  intros Hvs. unfold has_key, validator_key. rewrite Hvs. destruct (validator_PublicKey vs i) as [k|] eqn:Hk.
  - rewrite String.eqb_eq. split; [eauto|]. intros (? & ? & [= <-] & ? & ?). congruence.
  - split; [done|]. intros (? & ? & [= <-] & ? & ?). congruence.
Qed.

(** A count check, and one with expectations. *)
Lemma count_spec {A} min (found : result (list A)) :
  ((0 <? min) = true -> match found with Err _ => false | Ok l => negb (len l <? min) end = true) <->
  enough_of (X := Empty_set) min [] found (fun _ _ => False).
Proof.
  unfold enough_of. rewrite Z.ltb_lt. split.
  - intros H [Hm|?]; [|done]. specialize (H Hm). destruct found as [l|]; [|done]. exists l. split; [done|].
    apply negb_true_iff, Z.ltb_ge in H. split; [done|]. by intros [].
  - intros H Hm. destruct H as (l & -> & Hl & _); [by left|]. apply negb_true_iff, Z.ltb_ge. done.
Qed.

Lemma enough_spec {A X} min (expected : list X) (found : result (list A)) (rest : list A -> bool) (meets : list A -> X -> Prop) :
  (forall l, found = Ok l -> rest l = true <-> forall x, x ∈ expected -> meets l x) ->
  (wanted min expected = true ->
    match found with Err _ => false | Ok l => if len l <? min then false else rest l end = true) <->
  enough_of min expected found meets.
Proof.
  intros Hrest. unfold enough_of. rewrite wanted_true. split; intros H Hw; specialize (H Hw).
  - destruct found as [l|]; [|done]. apply guard_true in H as [Hl H]. exists l. split; [done|]. split; [lia|]. by apply Hrest.
  - destruct H as (l & -> & Hl & H). apply guard_true. split; [lia|]. by apply Hrest.
Qed.

(** The expectations about validators; [meets] fails without a validator set. *)
Lemma with_validators_spec {X} (expected : list X) check (meets : X -> Prop) :
  (forall x, meets x -> is_Some (GetValidatorSet sv)) ->
  (forall vs x, GetValidatorSet sv = Some vs -> check vs x = true <-> meets x) ->
  with_validators sv expected check = true <-> forall x, x ∈ expected -> meets x.
Proof.
  intros Hset Hcheck. unfold with_validators. destruct expected as [|x0 expected]; [by split; [intros _ x ?%elem_of_nil|]|].
  destruct (GetValidatorSet sv) as [vs|] eqn:Hvs.
  - rewrite forallb_elem_of. split; intros H x Hx; by apply (Hcheck vs), H.
  - split; [done|]. intros H. destruct (Hset x0); [apply H; by left|done].
Qed.

Lemma validator_key_set i k : validator_key sv i k -> is_Some (GetValidatorSet sv).
Proof. intros (vs & _ & -> & _). by eexists. Qed.

Lemma address_ok_spec want a :
  negb (String.eqb want "") && negb (EqualFold want (Address_String a)) = false <-> address_ok want a.
Proof.
  unfold address_ok. destruct (String.eqb_spec want ""); simpl; [by split; [left|]|].
  rewrite negb_false_iff. split; [by right|]. by intros [|].
Qed.

Lemma bytes_ok_spec want have :
  negb (String.eqb want "") && negb (bool_decide (common_FromHex want = have)) = false <-> bytes_ok want have.
Proof.
  unfold bytes_ok. destruct (String.eqb_spec want ""); simpl; [by split; [left|]|].
  rewrite negb_false_iff, bool_decide_eq_true. split; [by right|]. by intros [|].
Qed.

Lemma bytes_ok_alt want have :
  String.eqb want "" || bool_decide (have = common_FromHex want) = true <-> bytes_ok want have.
Proof.
  unfold bytes_ok. rewrite orb_true_iff, String.eqb_eq, bool_decide_eq_true. by split; intros [?|?]; auto.
Qed.

Lemma min_ok_spec min amount : below_min min amount = false <-> min_ok min amount.
Proof.
  unfold below_min, min_ok. destruct min as [m|]; [|done]. rewrite andb_false_iff, !Z.ltb_ge. split; [by intros ? ? [= <-]|eauto].
Qed.

Lemma max_ok_spec max amount : above_max max amount = false <-> max_ok max amount.
Proof.
  unfold above_max, max_ok. destruct max as [m|]; [|done]. rewrite andb_false_iff, !Z.ltb_ge. split; [by intros ? ? [= <-]|eauto].
Qed.

Lemma attester_slashed_spec vs pubkey s : GetValidatorSet sv = Some vs ->
  attester_slashed vs pubkey s = true <-> slashed_attester sv pubkey s.
Proof.
  intros Hvs. unfold attester_slashed, slashed_attester. split.
  - destruct (Attestation1 s) as [a1|], (Attestation2 s) as [a2|]; try done.
    destruct (AttestingIndices a1) as [l1|] eqn:E1, (AttestingIndices a2) as [l2|] eqn:E2; try done.
    intros (i & [H1 H2]%intersect_Simple_spec & Hk)%existsb_elem. exists a1, a2, l1, l2, i. split_and!; try done. by apply (has_key_spec vs).
  - intros (a1 & a2 & l1 & l2 & i & -> & -> & -> & -> & H1 & H2 & Hk). apply existsb_elem. exists i.
    split; [by apply intersect_Simple_spec|]. by apply (has_key_spec vs).
Qed.

Lemma bls_change_found_spec vs x l : GetValidatorSet sv = Some vs ->
  bls_change_found vs x l = true <->
  exists l1 i a l2, l = l1 ++ (i, a) :: l2 /\ validator_key sv i (eb_PublicKey x) /\
    (forall j, j ∈ l1.*1 -> ~ validator_key sv j (eb_PublicKey x)) /\ address_ok (eb_Address x) a.
Proof.
  intros Hvs. induction l as [|[i a] l IH]; simpl.
  { split; [done|]. intros ([] & ? & ? & ? & ? & _); done. }
  destruct (has_key vs i (eb_PublicKey x)) eqn:Hk.
  - apply (has_key_spec vs) in Hk; [|done]. rewrite negb_true_iff, address_ok_spec. split.
    + intros Ha. exists [], i, a, l. split_and!; try done. by intros j ?%elem_of_nil.
    + intros (l1 & i' & a' & l2 & Heq & Hk' & Hn & Ha). destruct l1 as [|[j b] l1]; simplify_eq/=; [done|].
      destruct (Hn j); [by left|done].
  - assert (~ validator_key sv i (eb_PublicKey x)) as Hnk by (rewrite <- (has_key_spec vs) by done; congruence).
    rewrite IH. split.
    + intros (l1 & i' & a' & l2 & -> & Hk' & Hn & Ha). exists ((i, a) :: l1), i', a', l2. split_and!; try done.
      intros j [->|Hj]%elem_of_cons; [done|by apply Hn].
    + intros (l1 & i' & a' & l2 & Heq & Hk' & Hn & Ha). destruct l1 as [|[j b] l1]; simplify_eq/=; [done|].
      exists l1, i', a', l2. split_and!; try done. intros j' Hj'. apply Hn. by right.
Qed.
End filter_lemmas.

#[export] Instance go_bool_eq_dec : EqDecision (go bool).
Proof. solve_decision. Defined.

Section filters.
Context `{bb : BeaconBlocks} (cfg : Config) (sv : Services).

Lemma slashing_found_spec vs atts props x : GetValidatorSet sv = Some vs ->
  slashing_found vs atts props x = true <->
  (es_SlashingType x ∈ [""; "attester"]%string /\ exists s, s ∈ atts /\ slashed_attester sv (es_PublicKey x) s) \/
  (es_SlashingType x ∈ [""; "proposer"]%string /\ exists i, i ∈ props /\ validator_key sv i (es_PublicKey x)).
Proof.
  intros Hvs. unfold slashing_found.
  assert (forall a b : bool, (if a then true else b) = true <-> a = true \/ b = true) as -> by (intros [] []; intuition congruence).
  rewrite !andb_true_iff, !orb_true_iff, !String.eqb_eq, !existsb_elem, !elem_of_cons, !elem_of_nil.
  setoid_rewrite (attester_slashed_spec sv vs); [|done]. setoid_rewrite (has_key_spec sv vs); [|done]. tauto.
Qed.

Lemma checkBlockSlashings_spec b :
  (wanted (MinSlashingCount cfg) (ExpectSlashings cfg) = true -> checkBlockSlashings cfg sv b = true) <->
  (0 < MinSlashingCount cfg \/ ExpectSlashings cfg <> [] ->
    exists atts props, get_AttesterSlashings b = Ok atts /\ get_ProposerSlashings b = Ok props /\
      MinSlashingCount cfg <= len atts + len props /\
      forall x, x ∈ ExpectSlashings cfg ->
        (es_SlashingType x ∈ [""; "attester"]%string /\ exists s, s ∈ atts /\ slashed_attester sv (es_PublicKey x) s) \/
        (es_SlashingType x ∈ [""; "proposer"]%string /\ exists i, i ∈ props /\ validator_key sv i (es_PublicKey x))).
Proof.
  rewrite wanted_true. unfold checkBlockSlashings.
  assert (forall (atts : list AttesterSlashing) (props : list Z) x, (es_SlashingType x ∈ [""; "attester"]%string /\ exists s, s ∈ atts /\ slashed_attester sv (es_PublicKey x) s) \/
    (es_SlashingType x ∈ [""; "proposer"]%string /\ exists i, i ∈ props /\ validator_key sv i (es_PublicKey x)) ->
    is_Some (GetValidatorSet sv)) as Hset.
  { intros atts props x [(_ & s & _ & (? & ? & ? & ? & ? & _ & _ & _ & _ & _ & _ & Hk))|(_ & i & _ & Hk)];
      by eapply validator_key_set. }
  split; intros H Hw; specialize (H Hw).
  - destruct (get_AttesterSlashings b) as [atts|]; [|done]. destruct (get_ProposerSlashings b) as [props|]; [|done].
    apply guard_true in H as [Hl H]. exists atts, props. split_and!; [done..|lia|].
    revert H. apply with_validators_spec; [apply (Hset atts props)|]. intros. by apply slashing_found_spec.
  - destruct H as (atts & props & -> & -> & Hl & H). apply guard_true. split; [lia|].
    revert H. apply with_validators_spec; [apply (Hset atts props)|]. intros. by apply slashing_found_spec.
Qed.

Lemma withdrawal_ok_spec vs x i a amount : GetValidatorSet sv = Some vs ->
  withdrawal_ok vs x (i, a, amount) = true <->
  validator_key sv i (ew_PublicKey x) /\ address_ok (ew_Address x) a /\ min_ok (ew_MinAmount x) amount /\ max_ok (ew_MaxAmount x) amount.
Proof.
  intros Hvs. unfold withdrawal_ok. rewrite <- (has_key_spec sv vs) by done. rewrite <- address_ok_spec, <- min_ok_spec, <- max_ok_spec.
  destruct (has_key _ _ _); [|split; [done|by intros [? _]]]. rewrite !guard_true. tauto.
Qed.

Lemma deposit_request_ok_spec x k c amount m : ed_Amount x = Some m ->
  exists r, deposit_request_ok x (k, c, amount) = Ret r /\
  (r = true <-> (ed_PublicKey x = ""%string \/ Pubkey_String k = ed_PublicKey x) /\
    bytes_ok (ed_WithdrawalCredentials x) c /\ forall m, ed_Amount x = Some m -> m <= 0 \/ m = amount).
Proof.
  intros Hm. unfold deposit_request_ok. rewrite Hm.
  pose proof (bytes_ok_spec (ed_WithdrawalCredentials x) c) as Hb.
  destruct (String.eqb (ed_PublicKey x) "" || String.eqb (Pubkey_String k) (ed_PublicKey x)) eqn:Hk.
  - rewrite orb_true_iff, !String.eqb_eq in Hk. destruct (negb _ && negb _); (eexists; split; [done|]).
    + split; [done|]. by intros (_ & ?%Hb & _).
    + rewrite negb_true_iff, andb_false_iff, Z.ltb_ge, negb_false_iff, Z.eqb_eq. split.
      * intros H. split_and!; [done|by apply Hb|]. by intros ? [= <-].
      * intros (_ & _ & H). by apply H.
  - eexists. split; [done|]. rewrite orb_false_iff, !String.eqb_neq in Hk. split; [done|]. tauto.
Qed.

(** Every expected deposit request states its amount. *)
Definition amounts_given : Prop := forall x, x ∈ ExpectDepositRequests cfg -> is_Some (ed_Amount x).

Lemma checkBlockDepositRequests_spec b : amounts_given ->
  exists r, checkBlockDepositRequests cfg b = Ret r /\
  (r = true <-> match get_RequestDeposits b with
    | Err _ => false
    | Ok l => if len l <? MinDepositRequestCount cfg then false else
        forallb (fun x => existsb (fun q => bool_decide (deposit_request_ok x q = Ret true)) l) (ExpectDepositRequests cfg)
    end = true).
Proof.
  intros Ha. unfold checkBlockDepositRequests. destruct (get_RequestDeposits b) as [l|]; [|by eexists].
  destruct (len l <? _); [by eexists|]. eexists. split; [|done].
  apply all_go_pure. intros x Hx. apply any_go_pure. intros [[k c] amount] _. destruct (Ha x Hx) as [m Hm].
  destruct (deposit_request_ok_spec x k c amount m Hm) as (r & -> & _). by destruct r.
Qed.
(** *** One lemma per filter *)

Lemma name_spec b :
  (negb (String.eqb (ValidatorNamePattern cfg) "") = true -> checkBlockValidatorName cfg sv b = true) <->
  text_ok (ValidatorNamePattern cfg) (match get_ProposerIndex b with Ok i => Ok (GetValidatorName sv i) | Err e => Err e end).
Proof. rewrite <- text_ok_spec. unfold checkBlockValidatorName. by destruct (get_ProposerIndex b). Qed.

Lemma graffiti_spec b :
  (negb (String.eqb (GraffitiPattern cfg) "") = true -> checkBlockGraffiti cfg b = true) <->
  text_ok (GraffitiPattern cfg) (get_Graffiti b).
Proof. apply text_ok_spec. Qed.

Lemma extra_spec b :
  (negb (String.eqb (ExtraDataPattern cfg) "") = true -> checkBlockExtraData cfg b = true) <->
  text_ok (ExtraDataPattern cfg) (get_ExtraData b).
Proof. apply text_ok_spec. Qed.

Lemma deposits_spec b :
  (wanted (MinDepositCount cfg) (ExpectDeposits cfg) = true -> checkBlockDeposits cfg b = true) <->
  enough_of (MinDepositCount cfg) (ExpectDeposits cfg) (get_Deposits b)
    (fun l pubkey => exists d, d ∈ l /\ Pubkey_String d = pubkey).
Proof.
  apply (enough_spec _ _ _ (fun deposits => forallb _ (ExpectDeposits cfg))). intros l _.
  rewrite forallb_elem_of. setoid_rewrite existsb_elem. by setoid_rewrite String.eqb_eq.
Qed.

Lemma exits_spec b :
  (wanted (MinExitCount cfg) (ExpectExits cfg) = true -> checkBlockExits cfg sv b = true) <->
  enough_of (MinExitCount cfg) (ExpectExits cfg) (get_VoluntaryExits b)
    (fun l pubkey => exists i, i ∈ l /\ validator_key sv i pubkey).
Proof.
  apply (enough_spec _ _ _ (fun exits => with_validators sv (ExpectExits cfg) _)). intros l _. apply with_validators_spec.
  - intros k (i & _ & Hk). by eapply validator_key_set.
  - intros vs k Hvs. rewrite existsb_elem. by setoid_rewrite (has_key_spec sv vs); [|done].
Qed.

Lemma bls_spec b :
  (wanted (MinBlsChangeCount cfg) (ExpectBlsChanges cfg) = true -> checkBlockBlsChanges cfg sv b = true) <->
  enough_of (MinBlsChangeCount cfg) (ExpectBlsChanges cfg) (get_BLSToExecutionChanges b)
    (fun l x => exists l1 i a l2, l = l1 ++ (i, a) :: l2 /\ validator_key sv i (eb_PublicKey x) /\
      (forall j, j ∈ l1.*1 -> ~ validator_key sv j (eb_PublicKey x)) /\ address_ok (eb_Address x) a).
Proof.
  apply (enough_spec _ _ _ (fun blsChanges => with_validators sv (ExpectBlsChanges cfg) _)). intros l _. apply with_validators_spec.
  - intros x (l1 & i & a & l2 & _ & Hk & _). by eapply validator_key_set.
  - intros vs x Hvs. by apply bls_change_found_spec.
Qed.

Lemma withdrawals_spec b :
  (wanted (MinWithdrawalCount cfg) (ExpectWithdrawals cfg) = true -> checkBlockWithdrawals cfg sv b = true) <->
  enough_of (MinWithdrawalCount cfg) (ExpectWithdrawals cfg) (get_Withdrawals b)
    (fun l x => exists i a amount, (i, a, amount) ∈ l /\ validator_key sv i (ew_PublicKey x) /\ address_ok (ew_Address x) a /\
      min_ok (ew_MinAmount x) amount /\ max_ok (ew_MaxAmount x) amount).
Proof.
  apply (enough_spec _ _ _ (fun withdrawals => with_validators sv (ExpectWithdrawals cfg) _)). intros l _. apply with_validators_spec.
  - intros x (i & a & amount & _ & Hk & _). by eapply validator_key_set.
  - intros vs x Hvs. rewrite existsb_elem. split.
    + intros ([[i a] amount] & Hin & H%withdrawal_ok_spec); [|done]. by exists i, a, amount.
    + intros (i & a & amount & Hin & H). exists (i, a, amount). split; [done|]. by apply withdrawal_ok_spec.
Qed.

Lemma deposit_requests_spec b : amounts_given ->
  exists r, checkBlockDepositRequests cfg b = Ret r /\
  ((wanted (MinDepositRequestCount cfg) (ExpectDepositRequests cfg) = true -> r = true) <->
   enough_of (MinDepositRequestCount cfg) (ExpectDepositRequests cfg) (get_RequestDeposits b)
    (fun l x => exists k c amount, (k, c, amount) ∈ l /\ (ed_PublicKey x = ""%string \/ Pubkey_String k = ed_PublicKey x) /\
      bytes_ok (ed_WithdrawalCredentials x) c /\ forall m, ed_Amount x = Some m -> m <= 0 \/ m = amount)).
Proof.
  intros Ha. destruct (checkBlockDepositRequests_spec b Ha) as (r & Hr & Hspec). exists r. split; [done|]. rewrite Hspec.
  apply (enough_spec _ _ _ (fun l => forallb _ (ExpectDepositRequests cfg))). intros l _. rewrite forallb_elem_of.
  split; intros H x Hx; destruct (Ha x Hx) as [m Hm].
  - destruct (proj1 (existsb_elem _ _) (H x Hx)) as ([[k c] amount] & Hin & Hok%bool_decide_eq_true). exists k, c, amount. split; [done|].
    destruct (deposit_request_ok_spec x k c amount m Hm) as (r' & E & Hr'). rewrite Hok in E. injection E as <-. by apply Hr'.
  - destruct (H x Hx) as (k & c & amount & Hin & Hok). apply existsb_elem. exists (k, c, amount). split; [done|].
    destruct (deposit_request_ok_spec x k c amount m Hm) as (r' & E & Hr'). apply bool_decide_eq_true. rewrite E. f_equal. by apply Hr'.
Qed.

Lemma withdrawal_requests_spec b :
  (wanted (MinWithdrawalRequestCount cfg) (ExpectWithdrawalRequests cfg) = true -> checkBlockWithdrawalRequests cfg b = true) <->
  enough_of (MinWithdrawalRequestCount cfg) (ExpectWithdrawalRequests cfg) (get_RequestWithdrawals b)
    (fun l x => exists a k amount, (a, k, amount) ∈ l /\ bytes_ok (er_ValidatorPubkey x) (Pubkey_bytes k) /\
      bytes_ok (er_SourceAddress x) (Address_bytes a) /\ forall m, er_Amount x = Some m -> m = amount).
Proof.
  apply (enough_spec _ _ _ (fun l => forallb _ (ExpectWithdrawalRequests cfg))). intros l _. rewrite forallb_elem_of.
  setoid_rewrite existsb_elem.
  assert (forall x a k amount, withdrawal_request_ok x (a, k, amount) = true <-> bytes_ok (er_ValidatorPubkey x) (Pubkey_bytes k) /\
    bytes_ok (er_SourceAddress x) (Address_bytes a) /\ forall m, er_Amount x = Some m -> m = amount) as Hok.
  { intros x a k amount. unfold withdrawal_request_ok. rewrite <- bytes_ok_alt, <- bytes_ok_spec.
    destruct (_ || _); [|split; [done|by intros [? _]]]. rewrite guard_true.
    destruct (er_Amount x) as [m|]; [rewrite Z.eqb_eq|]; split.
    - intros [? ->]. split_and!; [done..|]. by intros ? [= <-].
    - intros (_ & ? & H). split; [done|by apply H].
    - by intros [? _].
    - by intros (_ & ? & _). }
  split; intros H x Hx.
  - destruct (H x Hx) as ([[a k] amount] & Hin & Hq). exists a, k, amount. split; [done|]. by apply Hok.
  - destruct (H x Hx) as (a & k & amount & Hin & Hq). exists (a, k, amount). split; [done|]. by apply Hok.
Qed.

Lemma consolidation_requests_spec b :
  (wanted (MinConsolidationRequestCount cfg) (ExpectConsolidationRequests cfg) = true -> checkBlockConsolidationRequests cfg b = true) <->
  enough_of (MinConsolidationRequestCount cfg) (ExpectConsolidationRequests cfg) (get_RequestConsolidations b)
    (fun l x => exists a s t, (a, s, t) ∈ l /\ bytes_ok (ec_SourcePubkey x) (Pubkey_bytes s) /\
      bytes_ok (ec_SourceAddress x) (Address_bytes a) /\ bytes_ok (ec_TargetPubkey x) (Pubkey_bytes t)).
Proof.
  apply (enough_spec _ _ _ (fun l => forallb _ (ExpectConsolidationRequests cfg))). intros l _. rewrite forallb_elem_of.
  setoid_rewrite existsb_elem.
  assert (forall x a s t, consolidation_request_ok x (a, s, t) = true <-> bytes_ok (ec_SourcePubkey x) (Pubkey_bytes s) /\
    bytes_ok (ec_SourceAddress x) (Address_bytes a) /\ bytes_ok (ec_TargetPubkey x) (Pubkey_bytes t)) as Hok.
  { intros x a s t. unfold consolidation_request_ok. rewrite <- bytes_ok_alt, <- !bytes_ok_spec.
    destruct (_ || _); [|split; [done|by intros [? _]]]. rewrite !guard_true. tauto. }
  split; intros H x Hx.
  - destruct (H x Hx) as ([[a k] amount] & Hin & Hq). exists a, k, amount. split; [done|]. by apply Hok.
  - destruct (H x Hx) as (a & k & amount & Hin & Hq). exists (a, k, amount). split; [done|]. by apply Hok.
Qed.
End filters.

(** C34: A block passes [checkBlock] exactly when it satisfies every
    configured filter in its declarative reading: each pattern matches, each
    list can be read and is long enough, and for each expectation there is an
    entry that meets it, provided each expected deposit request has an amount;
    and then no check panics. *)
Theorem checkBlock_satisfies `{bb : BeaconBlocks} (cfg : Config) (sv : Services) (b : BlockBody) :
  amounts_given cfg ->
  exists r, checkBlock cfg sv (Some b) = Ret r /\ (r = true <-> block_satisfies cfg sv b).
Proof.
  intros Hamounts.
  destruct (deposit_requests_spec cfg b Hamounts) as (rd & Hrd & Hdep).
  assert (exists r, checkBlock cfg sv (Some b) = Ret r) as [r Hr].
  { unfold checkBlock. rewrite Hrd. do 13 (destruct (_ && negb _); [by eexists|]).
    destruct (wanted (MinDepositRequestCount cfg) _); cbn [go_bind negb]; [destruct rd; cbn [negb]; [|by eexists]|];
      do 2 (destruct (_ && negb _); [by eexists|]); by eexists. }
  exists r. split; [done|].
  assert (r = true <-> checkBlock cfg sv (Some b) = Ret true) as -> by (rewrite Hr; split; [by intros ->|by intros [= ->]]).
  unfold checkBlock. rewrite !guard_Ret, go_bind_Ret.
  assert (forall (w d : bool) (k : go bool), (exists a, (if w then Ret d else Ret true) = Ret a /\ (if negb a then Ret false else k) = Ret true) <->
    (w = true -> d = true) /\ k = Ret true) as Hbind.
  { intros w d k. split.
    - intros (a & Ha & Hk). destruct w; injection Ha as <-; [destruct d|]; done.
    - intros [Hd Hk]. exists (if w then d else true). by destruct w; [rewrite Hd|]. }
  rewrite Hrd, Hbind, !guard_Ret, Hdep. clear Hbind Hdep Hrd Hr.
  unfold checkBlockAttestations, checkBlockAttesterSlashings, checkBlockProposerSlashings, checkBlockTransactions, checkBlockBlobs.
  rewrite !count_spec, checkBlockSlashings_spec, name_spec, graffiti_spec, extra_spec, deposits_spec, exits_spec, bls_spec,
    withdrawals_spec, withdrawal_requests_spec, consolidation_requests_spec.
  split; [intros H; split; apply H|intros []; done].
Qed.

(** ** The run of the task *)

Section run.
Context `{bb : BeaconBlocks} `{ssort : !SliceSort}.
Context (cfg : Config) (await : nat -> nat -> option BlockBody) (services : nat -> Services).

(** The blocks among the checked ones that matched. *)
Definition matched (tr : list (nat * bool)) : list nat := (filterb snd tr).*1.

(** [tr]: the blocks checked so far and the outcomes of their checks. *)
Record accounts_for (tr : list (nat * bool)) (st : progress) : Prop := {
  af_checks : checks st = length tr;
  af_trace : forall k p b, tr !! k = Some (p, b) -> checkBlock cfg (services k) (await k p) = Ret b;
  af_matching : matchingBlocks st = matched tr;
  af_total : totalMatches st = len (matched tr);
  af_none : BlockCount cfg <= 0 -> outputs st = None /\
    (lastResult st = TaskResultSuccess <-> exists p, last tr = Some (p, true)) /\ lastResult st <> TaskResultFailure
}.

(** While the count is not reached nothing is reported; then everything is. *)
Definition reported (tr : list (nat * bool)) (st : progress) (enough : bool) : Prop :=
  if enough then 0 < BlockCount cfg /\ len (matched tr) = BlockCount cfg /\
    lastResult st = TaskResultSuccess /\ outputs st = Some (matched tr)
  else 0 < BlockCount cfg -> len (matched tr) < BlockCount cfg /\ lastResult st = TaskResultNone /\ outputs st = None.

Lemma matched_snoc tr p b : matched (tr ++ [(p, b)]) = matched tr ++ (if b : bool then [p] else []).
Proof. unfold matched. rewrite filterb_app, fmap_app. by destruct b. Qed.

Lemma checkBlockMatch_accounts p st tr st' enough :
  accounts_for tr st -> reported tr st false -> checkBlockMatch cfg await services p st = Ret (st', enough) ->
  exists b, accounts_for (tr ++ [(p, b)]) st' /\ reported (tr ++ [(p, b)]) st' enough.
Proof.
  intros [Hc Ht Hm Hn Ho] Hrep. unfold checkBlockMatch. intros (b & Hb & Hst)%go_bind_Ret. exists b.
  assert (len (matched (tr ++ [(p, b)])) = if b then totalMatches st + 1 else totalMatches st) as Hlen.
  { rewrite matched_snoc, Hn. unfold len. rewrite length_app. destruct b; simpl; lia. }
  assert ((if b then matchingBlocks st ++ [p] else matchingBlocks st) = matched (tr ++ [(p, b)])) as Hblocks.
  { rewrite matched_snoc, Hm. destruct b; [done|]. by rewrite app_nil_r. }
  assert (forall k q c, (tr ++ [(p, b)]) !! k = Some (q, c) -> checkBlock cfg (services k) (await k q) = Ret c) as Ht'.
  { intros k q c [H|[Hk H]]%lookup_app_Some; [by apply Ht|]. apply list_lookup_singleton_Some in H as [Hz [= -> ->]].
    assert (k = checks st) as -> by lia. done. }
  rewrite Hblocks, <- Hlen in Hst.
  destruct (Z.ltb_spec 0 (BlockCount cfg)) as [Hbc|Hbc].
  - assert (forall r o, accounts_for (tr ++ [(p, b)]) (mkProgress (S (checks st)) (len (matched (tr ++ [(p, b)])))
      (matched (tr ++ [(p, b)])) r o)) as Hacc.
    { intros r o. split; simpl; try done; [rewrite length_app; simpl; lia|lia]. }
    destruct (Hrep Hbc) as (Hlt & Hr & Hout). rewrite <- Hn in Hlt.
    destruct (Z.leb_spec (BlockCount cfg) (len (matched (tr ++ [(p, b)])))) as [Hge|Hlt']; injection Hst as <- <-; (split; [apply Hacc|]).
    + unfold reported. split_and!; try done. destruct b; lia.
    + intros _. by rewrite Hr, Hout.
  - injection Hst as <- <-. split; [|intros Hpos; exfalso; lia]. split; simpl; try done.
    + rewrite length_app. simpl. lia.
    + intros _. destruct (Ho Hbc) as (-> & _). split; [done|]. rewrite last_snoc. destruct b; (split; [|done]); split; try done.
      * intros _. by eexists.
      * by intros [? [=]].
Qed.

Lemma check_all_accounts ps st tr st' enough :
  accounts_for tr st -> reported tr st false -> check_all cfg await services ps st = Ret (st', enough) ->
  exists tr', accounts_for (tr ++ tr') st' /\ reported (tr ++ tr') st' enough /\
    if enough then tr'.*1 `prefix_of` ps else tr'.*1 = ps.
Proof.
  revert st tr. induction ps as [|p ps IH]; intros st tr Hacc Hrep H; simpl in H.
  { injection H as <- <-. exists []. by rewrite app_nil_r. }
  apply go_bind_Ret in H as ([st1 e1] & H1 & H2).
  destruct (checkBlockMatch_accounts p st tr st1 e1 Hacc Hrep H1) as (b & Hacc1 & Hrep1). destruct e1.
  - injection H2 as <- <-. exists [(p, b)]. split_and!; [done..|]. simpl. apply prefix_cons, prefix_nil.
  - destruct (IH st1 _ Hacc1 Hrep1 H2) as (tr' & Ha & Hr & Hp). exists ((p, b) :: tr').
    rewrite <- app_assoc in Ha, Hr. split_and!; [done..|]. simpl. destruct enough; [by apply prefix_cons|f_equal; exact Hp].
Qed.

(** The blocks that the events deliver before the context ends. *)
Fixpoint event_blocks (es : list event) : list nat :=
  match es with
  | BlockEvent p :: es => p :: event_blocks es
  | _ => []
  end.

Lemma event_loop_accounts es st tr st' r :
  accounts_for tr st -> reported tr st false -> event_loop cfg await services es st = Ret (st', r) ->
  exists tr', accounts_for (tr ++ tr') st' /\ reported (tr ++ tr') st' (bool_decide (r = Some None)) /\
    if bool_decide (r = Some None) then tr'.*1 `prefix_of` event_blocks es else tr'.*1 = event_blocks es.
Proof.
  revert st tr. induction es as [|[p|e] es IH]; intros st tr Hacc Hrep H; simpl in H.
  - injection H as <- <-. exists []. by rewrite app_nil_r.
  - apply go_bind_Ret in H as ([st1 e1] & H1 & H2).
    destruct (checkBlockMatch_accounts p st tr st1 e1 Hacc Hrep H1) as (b & Hacc1 & Hrep1). destruct e1.
    + injection H2 as <- <-. exists [(p, b)]. split_and!; [done..|]. simpl. apply prefix_cons, prefix_nil.
    + destruct (IH st1 _ Hacc1 Hrep1 H2) as (tr' & Ha & Hr & Hp). exists ((p, b) :: tr').
      rewrite <- app_assoc in Ha, Hr. split_and!; [done..|]. simpl. case_bool_decide; [by apply prefix_cons|f_equal; exact Hp].
  - injection H as <- <-. exists []. by rewrite app_nil_r.
Qed.

Definition cached_parent (c : BlockIndex Block) (q : nat) : option nat :=
  r ← (blockHeap c !! q ≫= GetParentRoot); blockRootMap c !! r.

(** The walk follows the parent links of the cache, for [rest] steps at most,
    and stops early only where there is no cached parent. *)
Lemma lookback_loop_chain rest (c : BlockIndex Block) p :
  let walk := lookback_loop rest c p in
  head walk = Some p /\
  (forall k q, walk !! k = Some q -> walk !! S k = if (k <? rest)%nat then cached_parent c q else None).
Proof.
  revert p. induction rest as [|rest IH]; intros p; simpl.
  - split; [done|]. by intros [|[]] q.
  - split; [done|]. intros [|k] q; simpl.
    + intros [= <-]. unfold cached_parent. destruct (blockHeap c !! p ≫= GetParentRoot) as [r|]; [|done]. simpl.
      unfold GetCachedBlockByRoot. destruct (blockRootMap c !! r) as [q0|]; [|done]. destruct (IH q0) as [H0 _].
      by rewrite <- head_lookup.
    + destruct (blockHeap c !! p ≫= GetParentRoot) as [r|]; [|done].
      destruct (GetCachedBlockByRoot r c) as [q0|]; [|done]. destruct (IH q0) as [_ Hk]. apply Hk.
Qed.
End run.

(** The task succeeds at the first moment enough blocks matched.  The
    blocks are checked oldest first along the walk back from the newest cached
    block, at most [checkLookback] of them, then as they arrive; each check
    has the outcome of [checkBlock] at its time.  With a positive
    [blockCount] the call returns exactly at the check that brings the number
    of matches to it, with the success result and exactly the matching blocks,
    in order, as outputs; until then, or when the context ends, all blocks were
    checked, too few matched and nothing is reported.  With a [blockCount] of 0
    it never returns by itself and the result follows the last block. *)
Theorem Execute_matches `{bb : BeaconBlocks} `{!SliceSort} cfg await services c es st r :
  Execute cfg await services c es = Ret (st, r) ->
  exists tr : list (nat * bool),
    (forall k p b, tr !! k = Some (p, b) -> checkBlock cfg (services k) (await k p) = Ret b) /\
    tr.*1 `prefix_of` lookback cfg c ++ event_blocks es /\ matchingBlocks st = matched tr /\
    (r = Some None -> 0 < BlockCount cfg /\ len (matched tr) = BlockCount cfg /\
       lastResult st = TaskResultSuccess /\ outputs st = Some (matched tr)) /\
    (r <> Some None -> tr.*1 = lookback cfg c ++ event_blocks es /\ outputs st = None /\
       (0 < BlockCount cfg -> len (matched tr) < BlockCount cfg /\ lastResult st = TaskResultNone) /\
       (BlockCount cfg <= 0 -> lastResult st = TaskResultSuccess <-> exists p, last tr = Some (p, true))) /\
    (BlockCount cfg <= 0 -> r <> Some None).
Proof.
  unfold Execute. intros ([st1 e1] & H1 & H2)%go_bind_Ret.
  assert (accounts_for cfg await services [] initial) as Hacc0.
  { split; try done. intros _. split_and!; try done. split; [done|]. by intros [? [=]]. }
  assert (reported cfg [] initial false) as Hrep0 by by intros Hpos.
  destruct (check_all_accounts cfg await services _ _ [] _ _ Hacc0 Hrep0 H1) as (tr & Hacc & Hrep & Hp). simpl in *.
  destruct e1.
  - injection H2 as <- <-. exists tr. destruct Hacc as [Hc Ht Hm _ _]. split_and!; try done; [by apply prefix_app_r|].
    intros Hb. destruct Hrep as (? & _). lia.
  - destruct (event_loop_accounts cfg await services _ _ _ _ _ Hacc Hrep H2) as (tr' & [Hc Ht Hm Hn Ho] & Hrep' & Hp').
    exists (tr ++ tr'). rewrite fmap_app, Hp. revert Hrep' Hp'. case_bool_decide as Hr; intros Hrep' Hp'.
    + split_and!; try done; [by apply prefix_app|]. intros Hb. destruct Hrep' as (? & _). lia.
    + split_and!; try done; [by rewrite Hp'|]. intros _. split; [by rewrite Hp'|].
      destruct (Z.ltb_spec 0 (BlockCount cfg)) as [Hb|Hb].
      * destruct (Hrep' Hb) as (Hlt & Hres & Hout). split_and!; [done|done|]. intros. lia.
      * destruct (Ho Hb) as (Hout & Hres & _). split_and!; [done|intros; lia|done].
Qed.

(** The block events are subscribed before the cache is read, so a block
    that arrives in between is both in the walk and among the events, and is
    counted twice: with [blockCount: 2] one matching block is enough. *)
Theorem lookback_counts_twice `{bb : BeaconBlocks} `{!SliceSort} cfg await services c p rest es :
  BlockCount cfg = 2 -> CheckLookback cfg = 1 -> GetCachedBlocks c = p :: rest ->
  (forall k, checkBlock cfg (services k) (await k p) = Ret true) ->
  Execute cfg await services c (BlockEvent p :: es) =
    Ret (mkProgress 2 2 [p; p] TaskResultSuccess (Some [p; p]), Some None).
Proof.
  intros Hbc Hlb Hc Hm. unfold Execute, lookback. rewrite Hlb, Hc. simpl.
  unfold checkBlockMatch. rewrite Hm. simpl. rewrite Hbc. simpl. by rewrite Hm.
Qed.

(** An expected deposit request without an amount panics the task as soon
    as a block has a deposit request with its key and credentials. *)
Theorem missing_amount_panics `{bb : BeaconBlocks} cfg b l k c amount x :
  get_RequestDeposits b = Ok l -> MinDepositRequestCount cfg <= len l -> head (ExpectDepositRequests cfg) = Some x ->
  ed_Amount x = None -> head l = Some (k, c, amount) -> Pubkey_String k = ed_PublicKey x -> bytes_ok (ed_WithdrawalCredentials x) c ->
  exists what, checkBlockDepositRequests cfg b = Panic what.
Proof.
  intros Hl Hn Hx Ha Hh Hk Hc. unfold checkBlockDepositRequests. rewrite Hl.
  assert (len l <? MinDepositRequestCount cfg = false) as -> by lia.
  destruct (ExpectDepositRequests cfg) as [|y ys]; [done|]. injection Hx as ->. destruct l as [|q l]; [done|]. injection Hh as ->.
  simpl. unfold deposit_request_ok. rewrite Hk, String.eqb_refl, orb_true_r. apply bytes_ok_spec in Hc. rewrite Hc, Ha. by eexists.
Qed.

(** ** Concrete runs *)

Record ex_body := mkExBody {
  ex_graffiti : string; ex_deposits : list string; ex_exits : list Z; ex_requests : list (string * bytes * Z) }.

Definition ex_eth2 : Eth2 := {|
  BlockBody := ex_body; ValidatorMap := list string; SpecValues := unit; FillStructByTags := fun _ => Err "none"%string;
  Wallclock := unit; NewEthereumBeaconChain := fun _ _ _ => tt; wallclock_epoch := fun _ _ => 0 |}.

Program Definition ex_bb : BeaconBlocks (eth := ex_eth2) := {|
  Pubkey := string; Pubkey_String := id; Pubkey_bytes := String.list_byte_of_string;
  ExecAddress := string; Address_String := id; Address_bytes := String.list_byte_of_string;
  Attestation := unit; IndexedAttestation := list Z; AttestingIndices := fun l => Ok l;
  AttesterSlashing := list Z; Attestation1 := fun l => Ok l; Attestation2 := fun l => Ok l;
  get_Graffiti := fun b => Ok (ex_graffiti b); get_ProposerIndex := fun _ => Ok 0; get_ExtraData := fun _ => Ok ""%string;
  get_Attestations := fun _ => Ok []; get_Deposits := fun b => Ok (ex_deposits b);
  get_VoluntaryExits := fun b => Ok (ex_exits b); get_AttesterSlashings := fun _ => Ok []; get_ProposerSlashings := fun _ => Ok [];
  get_BLSToExecutionChanges := fun _ => Ok []; get_Withdrawals := fun _ => Ok []; get_ExecutionTransactions := fun _ => Ok [];
  get_BlobKZGCommitments := fun _ => Ok []; get_RequestDeposits := fun b => Ok (ex_requests b);
  get_RequestWithdrawals := fun _ => Ok []; get_RequestConsolidations := fun _ => Ok [];
  validator_PublicKey := fun vs i => vs !! Z.to_nat i;
  regexp_MatchString := fun pattern text => Ok (String.eqb pattern text);
  common_FromHex := String.list_byte_of_string;
  intersect_Simple := fun a b => filterb (fun x => bool_decide (x ∈ b)) a |}.
Next Obligation. intros a b x. simpl. rewrite elem_of_filterb, bool_decide_eq_true. tauto. Qed.

Section examples.
#[local] Existing Instance ex_eth2.
#[local] Existing Instance ex_bb.

Definition ex_cfg (count : Z) : Config :=
  mkConfig 1 count "hello" "" "" 0 0 0 0 0 0 0 0 0 0 0 0 0 [] ["key1"%string] [] [] [] [] [] [].

Definition ex_services : Services := mkServices (Some ["key0"; "key1"]%string) (fun _ => ""%string).
Definition ex_block : @BlockBody ex_eth2 := mkExBody "hello" ["key7"%string] [1] [("key7"%string, [], 32)].

Lemma checkBlock_satisfies_witness :
  checkBlock (ex_cfg 1) ex_services (Some ex_block) = Ret true /\ block_satisfies (ex_cfg 1) ex_services ex_block.
Proof.
  split; [reflexivity|]. destruct (checkBlock_satisfies (ex_cfg 1) ex_services ex_block) as (r & Hr & Hs).
  { intros x ?%elem_of_nil. done. }
  apply Hs. injection Hr as <-. reflexivity.
Defined.

(** A cache with one block, and a second one that arrives later. *)
Definition ex_index : BlockIndex Block := (AddBlock 9%N 3 (NewBlockIndex 10)).1.
Definition ex_await (k p : nat) : option (@BlockBody ex_eth2) := Some ex_block.

Lemma Execute_matches_witness :
  exists st, Execute (ex_cfg 2) ex_await (fun _ => ex_services) ex_index [BlockEvent 1; BlockEvent 2] = Ret (st, Some None) /\
    len (matchingBlocks st) = 2.
Proof.
  eexists. split; [vm_compute; reflexivity|].
  edestruct (Execute_matches (ex_cfg 2) ex_await (fun _ => ex_services) ex_index [BlockEvent 1; BlockEvent 2])
    as (tr & _ & _ & -> & H & _); [vm_compute; reflexivity|]. by apply H.
Defined.

Lemma lookback_counts_twice_witness :
  Execute (ex_cfg 2) ex_await (fun _ => ex_services) ex_index [BlockEvent 0] =
    Ret (mkProgress 2 2 [0; 0]%nat TaskResultSuccess (Some [0; 0]%nat), Some None).
Proof.
  apply (lookback_counts_twice (ex_cfg 2) ex_await (fun _ => ex_services) ex_index 0 [] []); [reflexivity|reflexivity|by vm_compute|].
  intros k. reflexivity.
Defined.

Definition ex_cfg_requests : Config :=
  mkConfig 1 1 "" "" "" 0 0 0 0 0 0 0 0 0 0 0 0 0 [] [] [] [] [] [mkExpDepReq "key7" "" None] [] [].

Lemma missing_amount_panics_witness : exists what, checkBlockDepositRequests ex_cfg_requests ex_block = Panic what.
Proof.
  refine (missing_amount_panics ex_cfg_requests ex_block (ex_requests ex_block) ("key7"%string : @Pubkey ex_eth2 ex_bb) [] 32
    (mkExpDepReq "key7" "" None) _ _ _ _ _ _ _); try reflexivity; [by vm_compute|by left].
Defined.
End examples.
