(* ===== verification/CheckAttestations.v ===== *)
(** * The task check_consensus_attestation_stats

    tasks/check_consensus_attestation_stats: the votes of an epoch are counted
    along every branch of the cached block tree and the branch of the
    canonical head is checked against the configured percentages.  Attestation
    accessors and bit fields (go-eth2-client, go-bitfield) are parameters;
    [float64] is IEEE binary64 as the Standard Library specifies it. *)

From S2P Require Import Prelude Dispatcher BlockIndex BlockCache Scheduler.

Open Scope Z_scope.

(** ** Percentages *)

(** [float64(votes) * 100.0 / float64(balance)] *)
Definition percent (votes balance : Z) : spec_float := f64_div (f64_mul (f64 votes) (f64 100)) (f64 balance).

(** ** Data *)

Record Config := mkConfig {
  MinTargetPercent : Z; MaxTargetPercent : Z; MinHeadPercent : Z; MaxHeadPercent : Z;
  MinTotalPercent : Z; MaxTotalPercent : Z; FailOnCheckMiss : bool; MinCheckedEpochs : Z }.

Definition DefaultConfig : Config := mkConfig 0 100 0 100 0 100 false 1.

Record attesterDuty := mkDuty { validator : Z; balance : Z }.

Record attesterDuties := mkDuties {
  validatorCount : Z; validatorBalance : Z; duties : gmap string (list attesterDuty) }.

(** What is read of attestations and validators. *)
Record AttestationData := mkAttData { att_Slot : Z; att_Index : Z; att_Target : Root; att_BeaconBlockRoot : Root }.
Record ValidatorInfo := mkValidator { ActivationEpoch : Z; ExitEpoch : Z; EffectiveBalance : Z }.
Record Committee := mkCommittee { com_Slot : Z; com_Index : Z; com_Validators : list Z }.

Class AttestationTypes `{eth : Eth2} := {
  VersionedAttestation : Type;
  Bitfield : Type;
  BitAt : Bitfield -> Z -> bool;
  get_Attestations : BlockBody -> result (list VersionedAttestation);
  Data : VersionedAttestation -> result AttestationData;
  AggregationBits : VersionedAttestation -> result Bitfield;
  CommitteeBits : VersionedAttestation -> result Bitfield;
  (** [att.Version >= spec.DataVersionElectra] *)
  since_electra : VersionedAttestation -> bool;
  validator_entries : ValidatorMap -> gmap Z ValidatorInfo
}.

(** The counters of one epoch. *)
Record voteCounts := mkCounts {
  targetVoteAmount : Z; targetVoteCount : Z; headVoteAmount : Z; headVoteCount : Z;
  totalVoteAmount : Z; totalVoteCount : Z }.

Record epochVotes := mkVotes {
  headRoot : Root;
  dependentRoot : Root;
  targetRoot : Root;
  attester_duties : option attesterDuties;
  currentEpoch : voteCounts;
  nextEpoch : voteCounts;
  activityMap : gset Z }.

Definition no_counts : voteCounts := mkCounts 0 0 0 0 0 0.

(** [newEpochVotes(base)]: the activity map is copied; a nil base leaves the
    zero value. *)
Definition newEpochVotes (base : option epochVotes) : epochVotes :=
  match base with
  | None => mkVotes 0%N 0%N 0%N None no_counts no_counts ∅
  | Some b => mkVotes 0%N (dependentRoot b) (targetRoot b) (attester_duties b) (currentEpoch b) (nextEpoch b) (activityMap b)
  end.

Definition set_activity (a : gset Z) (v : epochVotes) : epochVotes :=
  mkVotes (headRoot v) (dependentRoot v) (targetRoot v) (attester_duties v) (currentEpoch v) (nextEpoch v) a.

Definition set_counts (isNextEpoch : bool) (n : voteCounts) (v : epochVotes) : epochVotes :=
  mkVotes (headRoot v) (dependentRoot v) (targetRoot v) (attester_duties v)
    (if isNextEpoch then currentEpoch v else n) (if isNextEpoch then n else nextEpoch v) (activityMap v).

Definition counts_of (isNextEpoch : bool) (v : epochVotes) : voteCounts :=
  if isNextEpoch then nextEpoch v else currentEpoch v.

(** [fmt.Sprintf("%v-%v", slot, committee)] *)
Definition attKey (slot committee : Z) : string :=
  pretty (Z.to_N slot) +:+ String "-" (pretty (Z.to_N committee)).

(** ** Counting the votes of a block *)

Section counting.
Context `{att : AttestationTypes}.

(** The loop of [aggregateAttestationVotes] from duty number [bitIdx] on. *)
Fixpoint count_bits (aggregationBits : Bitfield) (offset bitIdx : Z) (l : list attesterDuty)
    (active : gset Z) (voteAmount voteCount : Z) : gset Z * Z * Z :=
  match l with
  | [] => (active, voteAmount, voteCount)
  | d :: l =>
      if BitAt aggregationBits (bitIdx +u offset) && negb (bool_decide (validator d ∈ active))
      then count_bits aggregationBits offset (bitIdx + 1) l ({[validator d]} ∪ active) (voteAmount +u balance d) (voteCount +u 1)
      else count_bits aggregationBits offset (bitIdx + 1) l active voteAmount voteCount
  end.

Definition duties_of (votes : epochVotes) (slot committee : Z) : list attesterDuty :=
  from_option (fun ds => default [] (duties ds !! attKey slot committee)) [] (attester_duties votes).

Definition aggregateAttestationVotes (votes : epochVotes) (slot committee : Z) (aggregationBits : Bitfield) (offset : Z)
    : epochVotes * Z * Z * Z :=
  let voteValidators := duties_of votes slot committee in
  let '(active, amount, count) := count_bits aggregationBits offset 0 voteValidators (activityMap votes) 0 0 in
  (set_activity active votes, amount, count, Z.of_nat (length voteValidators)).

(** The loop over the committees from number [committee] on.  The running
    offset [aggregationBitsOffset] is computed and not used. *)
Fixpoint count_committees (n : nat) (committee : Z) (committeeBits aggregationBits : Bitfield) (slot : Z)
    (aggregationBitsOffset : Z) (votes : epochVotes) (voteAmount voteCount : Z) : epochVotes * Z * Z :=
  match n with
  | O => (votes, voteAmount, voteCount)
  | S n =>
      if BitAt committeeBits committee then
        let '(votes, voteAmt, voteCnt, committeeSize) := aggregateAttestationVotes votes slot committee aggregationBits 0 in
        count_committees n (committee + 1) committeeBits aggregationBits slot (aggregationBitsOffset +u committeeSize)
          votes (voteAmount +u voteAmt) (voteCount +u voteCnt)
      else count_committees n (committee + 1) committeeBits aggregationBits slot aggregationBitsOffset votes voteAmount voteCount
  end.

Definition add_votes (isTarget isHead : bool) (amount count : Z) (n : voteCounts) : voteCounts :=
  mkCounts
    (if isTarget then targetVoteAmount n +u amount else targetVoteAmount n)
    (if isTarget then targetVoteCount n +u count else targetVoteCount n)
    (if isHead then headVoteAmount n +u amount else headVoteAmount n)
    (if isHead then headVoteCount n +u count else headVoteCount n)
    (totalVoteAmount n +u amount) (totalVoteCount n +u count).

(** One iteration of the loop over the attestations of a block. *)
Definition count_attestation (specs : ChainSpec) (epoch : Z) (parentRoot : Root) (isNextEpoch : bool)
    (votes : epochVotes) (a : VersionedAttestation) : epochVotes :=
  match Data a with
  | Err _ => votes
  | Ok attData =>
      if negb (att_Slot attData `div` SlotsPerEpoch specs =? epoch) then votes
      else
        match AggregationBits a with
        | Err _ => votes
        | Ok bits =>
            let counted :=
              if since_electra a then
                match CommitteeBits a with
                | Err _ => None
                | Ok committeeBits =>
                    Some (count_committees (Z.to_nat (MaxCommitteesPerSlot specs)) 0 committeeBits bits (att_Slot attData) 0 votes 0 0)
                end
              else
                let '(votes, voteAmt, voteCnt, _) := aggregateAttestationVotes votes (att_Slot attData) (att_Index attData) bits 0 in
                Some (votes, 0 +u voteAmt, 0 +u voteCnt) in
            match counted with
            | None => votes
            | Some (votes, voteAmount, voteCount) =>
                set_counts isNextEpoch
                  (add_votes (bool_decide (att_Target attData = targetRoot votes))
                     (bool_decide (att_BeaconBlockRoot attData = parentRoot)) voteAmount voteCount (counts_of isNextEpoch votes))
                  votes
            end
        end
  end.

Definition count_block (specs : ChainSpec) (epoch : Z) (parentRoot : Root) (isNextEpoch : bool) (body : BlockBody)
    (votes : epochVotes) : epochVotes :=
  match get_Attestations body with
  | Err _ => votes
  | Ok atts => fold_left (count_attestation specs epoch parentRoot isNextEpoch) atts votes
  end.

(** ** All branches of the block tree *)

(** [attesterDutyMap]; a nil inner map has no entries. *)
Definition DutyMap : Type := gmap Z (gmap Root attesterDuties).

Definition lookup_duties (m : DutyMap) (epoch : Z) (root : Root) : option attesterDuties :=
  default ∅ (m !! epoch) !! root.

Record aggregation := mkAgg { allHeads : gset Root; allVotes : gmap Root epochVotes }.

Definition set_roots (head dependent target : Root) (ds : option attesterDuties) (v : epochVotes) : epochVotes :=
  mkVotes head dependent target ds (currentEpoch v) (nextEpoch v) (activityMap v).

(** The votes of a block before its attestations are counted; [None] when the
    duties of its epoch are unknown. *)
Definition start_votes (dutyMap : DutyMap) (epoch firstSlot slot : Z) (parent : option epochVotes) (root parentRoot : Root)
    : option epochVotes :=
  let votes := newEpochVotes parent in
  match parent with
  | Some _ => Some (set_roots root (dependentRoot votes) (targetRoot votes) (attester_duties votes) votes)
  | None =>
      ds ← lookup_duties dutyMap epoch parentRoot;
      Some (set_roots root parentRoot (if slot =? firstSlot then root else parentRoot) (Some ds) votes)
  end.

(** One block of the double loop; [body] is what [AwaitBlock] returned. *)
Definition agg_block (specs : ChainSpec) (dutyMap : DutyMap) (epoch firstSlot slot : Z) (b : Block) (body : option BlockBody)
    (st : aggregation) : aggregation :=
  match body, GetParentRoot b with
  | Some body, Some parentRoot =>
      let parent := allVotes st !! parentRoot in
      match start_votes dutyMap epoch firstSlot slot parent (Block_Root b) parentRoot with
      | None => st
      | Some votes =>
          let heads := match parent with Some _ => allHeads st ∖ {[parentRoot]} | None => allHeads st end in
          let isNextEpoch := SlotsPerEpoch specs <=? slot -u firstSlot in
          mkAgg ({[Block_Root b]} ∪ heads)
            (<[Block_Root b := count_block specs epoch parentRoot isNextEpoch body votes]> (allVotes st))
      end
  | _, _ => st
  end.

(** The slots of the loop; it would not end for a last slot of 2^64 - 1. *)
Definition epoch_slots (specs : ChainSpec) (epoch : Z) : list Z :=
  let firstSlot := epoch *u SlotsPerEpoch specs in
  let lastSlot := firstSlot +u (2 *u SlotsPerEpoch specs) in
  seqZ firstSlot (lastSlot - firstSlot + 1).

(** The cached blocks of the slots with the bodies that are awaited. *)
Definition epoch_blocks (specs : ChainSpec) (epoch : Z) (c : BlockIndex Block) : list (Z * Block * nat) :=
  epoch_slots specs epoch ≫= fun slot =>
    omap (fun p => (fun b => (slot, b, p)) <$> blockHeap c !! p) (GetCachedBlocksBySlot slot c).

Definition aggregate_tree (specs : ChainSpec) (dutyMap : DutyMap) (epoch : Z) (c : BlockIndex Block)
    (await : nat -> option BlockBody) : aggregation :=
  fold_left (fun st '(slot, b, p) => agg_block specs dutyMap epoch (epoch *u SlotsPerEpoch specs) slot b (await p) st)
    (epoch_blocks specs epoch c) (mkAgg ∅ ∅).

(** The votes of the heads, in the order of the map iteration. *)
Definition aggregateEpochVotes (specs : ChainSpec) (dutyMap : DutyMap) (epoch : Z) (c : BlockIndex Block)
    (await : nat -> option BlockBody) : list epochVotes :=
  let st := aggregate_tree specs dutyMap epoch c await in
  omap (fun root => allVotes st !! root) (elements (allHeads st)).
End counting.

(** ** The check of an epoch *)

(** [if min > 0 && percent < float64(min) ..; if max < 100 && percent > float64(max) ..] *)
Definition percent_ok (min max : Z) (p : spec_float) : bool :=
  if (0 <? min) && SFltb p (f64 min) then false
  else if (max <? 100) && SFltb (f64 max) p then false
  else true.

(** The outputs of the task. *)
Record checkOutputs := mkOutputs {
  lastCheckedEpoch : Z; out_validatorCount : Z; out_validatorBalance : Z;
  targetVotes : Z; targetVotesPercent : spec_float; headVotes : Z; headVotesPercent : spec_float;
  totalVotes : Z; totalVotesPercent : spec_float }.

Definition nil_duties : attesterDuties := mkDuties 0 0 ∅.

Definition epoch_outputs (epoch : Z) (v : epochVotes) : checkOutputs :=
  let ds := default nil_duties (attester_duties v) in
  let cur := currentEpoch v in
  let next := nextEpoch v in
  mkOutputs epoch (validatorCount ds) (validatorBalance ds)
    (targetVoteCount cur +u targetVoteCount next) (percent (targetVoteAmount cur +u targetVoteAmount next) (validatorBalance ds))
    (headVoteCount cur +u headVoteCount next) (percent (headVoteAmount cur +u headVoteAmount next) (validatorBalance ds))
    (totalVoteCount cur +u totalVoteCount next) (percent (totalVoteAmount cur +u totalVoteAmount next) (validatorBalance ds)).

Definition checkEpochVotes (cfg : Config) (epoch : Z) (v : epochVotes) : bool * checkOutputs :=
  let out := epoch_outputs epoch v in
  (if negb (percent_ok (MinTargetPercent cfg) (MaxTargetPercent cfg) (targetVotesPercent out)) then false
   else if negb (percent_ok (MinHeadPercent cfg) (MaxHeadPercent cfg) (headVotesPercent out)) then false
   else if negb (percent_ok (MinTotalPercent cfg) (MaxTotalPercent cfg) (totalVotesPercent out)) then false
   else true, out).

Section task.
Context `{att : AttestationTypes}.

(** The fields of the task, its last [SetResult] and its outputs. *)
Record Task := mkTask {
  attesterDutyMap : DutyMap;
  passedEpochs : Z;
  lastResult : TaskResult;
  outputs : option checkOutputs }.

Definition NewTask : Task := mkTask ∅ 0 TaskResultNone None.

(** The loop over the votes of the heads: only the first canonical one is
    checked. *)
Fixpoint check_first (cfg : Config) (epoch : Z) (isCanonical : Root -> bool) (votes : list epochVotes) (t : Task) : Task :=
  match votes with
  | [] => t
  | v :: votes =>
      if isCanonical (headRoot v) then
        let '(result, out) := checkEpochVotes cfg epoch v in
        if result then
          let passed := passedEpochs t +u 1 in
          mkTask (attesterDutyMap t) passed
            (if MinCheckedEpochs cfg <=? passed then TaskResultSuccess else lastResult t) (Some out)
        else mkTask (attesterDutyMap t) 0 (if FailOnCheckMiss cfg then TaskResultFailure else TaskResultNone) (Some out)
      else check_first cfg epoch isCanonical votes t
  end.

(** [runAttestationStatsCheck]; [canonicalRoot] is that of
    [GetCanonicalFork(1)], whose nil result is dereferenced. *)
Definition runAttestationStatsCheck (cfg : Config) (specs : ChainSpec) (epoch : Z) (c : BlockIndex Block)
    (await : nat -> option BlockBody) (canonicalRoot : option Root) (t : Task) : go Task :=
  let votes := aggregateEpochVotes specs (attesterDutyMap t) epoch c await in
  let t := mkTask (delete epoch (attesterDutyMap t)) (passedEpochs t) (lastResult t) (outputs t) in
  match votes, canonicalRoot with
  | [], _ => Ret t
  | _, None => Panic "nil pointer dereference"
  | _, Some root =>
      Ret (check_first cfg epoch (fun head => default false (IsCanonicalBlock head root c)) votes t)
  end.

(** ** The duties of an epoch *)

(** What the calls of [processBlock] return. *)
Record duty_answers := mkDutyAnswers {
  da_body : option BlockBody;
  da_validators : option ValidatorMap;
  da_committees : result (list Committee) }.

Definition add_validator (epoch : Z) (v : ValidatorInfo) (ds : attesterDuties) : attesterDuties :=
  if (ActivationEpoch v <=? epoch) && (epoch <? ExitEpoch v)
  then mkDuties (validatorCount ds +u 1) (validatorBalance ds +u EffectiveBalance v) (duties ds)
  else ds.

(** A validator index without entry is a nil pointer. *)
Fixpoint add_committee (vals : gmap Z ValidatorInfo) (slot committee : Z) (l : list Z) (ds : attesterDuties) : go attesterDuties :=
  match l with
  | [] => Ret ds
  | valIndex :: l =>
      match vals !! valIndex with
      | None => Panic "nil pointer dereference"
      | Some v =>
          let k := attKey slot committee in
          add_committee vals slot committee l
            (mkDuties (validatorCount ds) (validatorBalance ds)
               (<[k := default [] (duties ds !! k) ++ [mkDuty valIndex (EffectiveBalance v)]]> (duties ds)))
      end
  end.

Fixpoint add_committees (vals : gmap Z ValidatorInfo) (l : list Committee) (ds : attesterDuties) : go attesterDuties :=
  match l with
  | [] => Ret ds
  | com :: l => do! ds := add_committee vals (com_Slot com) (com_Index com) (com_Validators com) ds in add_committees vals l ds
  end.

Definition load_duties (vals : gmap Z ValidatorInfo) (epoch : Z) (committees : list Committee) : go attesterDuties :=
  add_committees vals committees (map_fold (fun _ v ds => add_validator epoch v ds) nil_duties vals).

Definition set_duty_map (m : DutyMap) (t : Task) : Task := mkTask m (passedEpochs t) (lastResult t) (outputs t).

(** [processBlock]; the block is a copy of the object, the parent's header is
    dereferenced. *)
Definition processBlock `{SliceSort} (specs : ChainSpec) (c : BlockIndex Block) (b : Block) (ans : duty_answers) (t : Task) : go Task :=
  match da_body ans with
  | None => Ret t
  | Some _ =>
      match GetParentRoot b with
      | None => Panic "nil pointer dereference"
      | Some parentRoot =>
          match lookup_block c parentRoot with
          | None => Ret t
          | Some parentBlock =>
              let currentBlockEpoch := Block_Slot b `div` SlotsPerEpoch specs in
              if Block_Slot parentBlock `div` SlotsPerEpoch specs =? currentBlockEpoch then Ret t
              else
                match header parentBlock with
                | None => Panic "nil pointer dereference"
                | Some _ =>
                    let inner := attesterDutyMap t !! currentBlockEpoch in
                    let t1 := set_duty_map (<[currentBlockEpoch := default ∅ inner]> (attesterDutyMap t)) t in
                    match (default ∅ inner : gmap Root attesterDuties) !! Block_Root parentBlock with
                    | Some _ => Ret t
                    | None =>
                        match da_validators ans with
                        | None => Ret t1
                        | Some vals =>
                            match GetSeenBy b with
                            | [] => Panic "index out of range"
                            | _ =>
                                match da_committees ans with
                                | Err _ => Ret t1
                                | Ok committees =>
                                    do! ds := load_duties (validator_entries vals) currentBlockEpoch committees in
                                    Ret (set_duty_map (<[currentBlockEpoch :=
                                      <[Block_Root parentBlock := ds]> (default ∅ inner)]> (attesterDutyMap t)) t)
                                end
                            end
                        end
                    end
                end
          end
      end
  end.

(** ** The loop of [Execute] *)

(** The block cache at the time of the event and the answers to it. *)
Inductive event :=
  | BlockEvent (c : BlockIndex Block) (b : Block) (ans : duty_answers)
  | EpochEvent (epoch : Z) (c : BlockIndex Block) (await : nat -> option BlockBody) (canonicalRoot : option Root)
  | ContextDone (e : error).

(** [None] while the loop waits, then the error it returns; the list of the
    epochs that were checked is a ghost. *)
Fixpoint event_loop `{SliceSort} (cfg : Config) (specs : ChainSpec) (lastChecked : Z) (es : list event) (t : Task)
    : go (Task * option error * list Z) :=
  match es with
  | [] => Ret (t, None, [])
  | BlockEvent c b ans :: es =>
      do! t := processBlock specs c b ans t in event_loop cfg specs lastChecked es t
  | EpochEvent epoch c await canonicalRoot :: es =>
      let checkEpoch := epoch -u 2 in
      if (epoch <? 2) || (checkEpoch <=? lastChecked) then event_loop cfg specs lastChecked es t
      else
        do! t := runAttestationStatsCheck cfg specs checkEpoch c await canonicalRoot t in
        do! (t, r, checked) := event_loop cfg specs checkEpoch es t in
        Ret (t, r, checkEpoch :: checked)
  | ContextDone e :: _ => Ret (t, Some e, [])
  end.

(** [Execute] from the wall clock's epoch on (the duty map is dropped at the
    end). *)
Definition Execute `{SliceSort} (cfg : Config) (specs : ChainSpec) (now : result Z) (es : list event)
    : go (Task * option error * list Z) :=
  match now with
  | Err e => Ret (NewTask, Some ("failed fetching wallclock: " ++ e)%string, [])
  | Ok epoch => event_loop cfg specs epoch es NewTask
  end.
End task.

(** ** Counting, declaratively *)

Section counting_lemmas.
Context `{att : AttestationTypes}.

Lemma count_bits_spec bits offset bitIdx l active amount count :
  0 <= bitIdx ->
  let '(active', amount', count') := count_bits bits offset bitIdx l active amount count in
  (forall i, i ∈ active' <-> i ∈ active \/
    exists j d, l !! j = Some d /\ validator d = i /\ BitAt bits ((bitIdx + Z.of_nat j) +u offset) = true) /\
  exists k, size active' = (size active + k)%nat /\ (is_u64 count -> count' = u64 (count + Z.of_nat k) /\ is_u64 count').
Proof.
  revert bitIdx active amount count. induction l as [|d l IH]; intros bitIdx active amount count Hb; simpl.
  { split; [intros i; split; [by left|by intros [?|(j & d & ? & _)]]|]. exists 0%nat. split; [lia|].
    intros Hc. rewrite Z.add_0_r, u64_id by done. done. }
  assert (forall i, (exists j d', (d :: l) !! j = Some d' /\ validator d' = i /\ BitAt bits (bitIdx + Z.of_nat j +u offset) = true) <->
    (validator d = i /\ BitAt bits (bitIdx +u offset) = true) \/
    exists j d', l !! j = Some d' /\ validator d' = i /\ BitAt bits (bitIdx + 1 + Z.of_nat j +u offset) = true) as Hcons.
  { intros i. split.
    - intros ([|j] & d' & Hj & Hv & Hbit); simpl in Hj.
      + injection Hj as <-. left. by rewrite Z.add_0_r in Hbit.
      + right. exists j, d'. split_and!; [done..|]. by replace (bitIdx + 1 + Z.of_nat j) with (bitIdx + Z.of_nat (S j)) by lia.
    - intros [[Hv Hbit]|(j & d' & Hj & Hv & Hbit)].
      + exists 0%nat, d. by rewrite Z.add_0_r.
      + exists (S j), d'. split_and!; [done..|]. by replace (bitIdx + Z.of_nat (S j)) with (bitIdx + 1 + Z.of_nat j) by lia. }
  destruct (BitAt bits (bitIdx +u offset)) eqn:Hbit; simpl; [case_bool_decide as Hin; simpl|].
  - specialize (IH (bitIdx + 1) active amount count ltac:(lia)). destruct (count_bits _ _ _ _ _ _ _) as [[a' am'] c'].
    destruct IH as [Ha Hk]. split; [|done]. intros i. rewrite Ha, Hcons.
    split; [intros [?|?]|intros [?|[[<- _]|?]]]; auto.
  - specialize (IH (bitIdx + 1) ({[validator d]} ∪ active) (amount +u balance d) (count +u 1) ltac:(lia)).
    destruct (count_bits _ _ _ _ _ _ _) as [[a' am'] c']. destruct IH as [Ha (k & Hs & Hc)]. split.
    + intros i. rewrite Ha, Hcons, elem_of_union, elem_of_singleton.
      split; [intros [[->|?]|?]|intros [?|[[<- _]|?]]]; auto.
    + exists (S k). rewrite Hs, size_union by set_solver. rewrite size_singleton. split; [lia|]. intros Hu.
      destruct (Hc (u64_range _)) as [-> Hc']. split; [|done]. go_lia.
  - specialize (IH (bitIdx + 1) active amount count ltac:(lia)). destruct (count_bits _ _ _ _ _ _ _) as [[a' am'] c'].
    destruct IH as [Ha Hk]. split; [|done]. intros i. rewrite Ha, Hcons.
    split; [intros [?|?]|intros [?|[[_ ?]|?]]]; auto; done.
Qed.

(** What the loop over one committee reads: the bits from the start of the list,
    whichever committees the attestation selects. *)
Definition read_bit (ds : option attesterDuties) (slot committee : Z) (bits : Bitfield) (i : Z) : Prop :=
  exists j d, from_option (fun ds => default [] (duties ds !! attKey slot committee)) [] ds !! j = Some d /\
    validator d = i /\ BitAt bits (u64 (Z.of_nat j)) = true.

(** The same votes up to the activity map. *)
Definition same_but_active (v v' : epochVotes) : Prop := exists a, v' = set_activity a v.

Lemma same_but_active_fields v v' : same_but_active v v' ->
  headRoot v' = headRoot v /\ dependentRoot v' = dependentRoot v /\ targetRoot v' = targetRoot v /\
  attester_duties v' = attester_duties v /\ currentEpoch v' = currentEpoch v /\ nextEpoch v' = nextEpoch v.
Proof. by intros [a ->]. Qed.

Lemma aggregateAttestationVotes_spec v slot committee bits :
  let '(v', amount, count, sz) := aggregateAttestationVotes v slot committee bits 0 in
  same_but_active v v' /\
  (forall i, i ∈ activityMap v' <-> i ∈ activityMap v \/ read_bit (attester_duties v) slot committee bits i) /\
  exists k, size (activityMap v') = (size (activityMap v) + k)%nat /\ count = u64 (Z.of_nat k).
Proof.
  unfold aggregateAttestationVotes.
  pose proof (count_bits_spec bits 0 0 (duties_of v slot committee) (activityMap v) 0 0 ltac:(lia)) as H.
  destruct (count_bits _ _ _ _ _ _ _) as [[active amount] count]. destruct H as [Ha (k & Hs & Hc)].
  split; [by exists active|]. split.
  - intros i. simpl. rewrite Ha. unfold read_bit, duties_of. split; intros [?|(j & d & Hj & Hv & Hb)]; auto; right; exists j, d;
      (split_and!; [done..|]); [by rewrite Z.add_0_r, Z.add_0_l in Hb|by rewrite Z.add_0_r, Z.add_0_l].
  - exists k. split; [done|]. by destruct Hc as [-> _].
Qed.

Lemma count_committees_spec n committee cbits bits slot offset v amount count :
  is_u64 count ->
  let '(v', amount', count') := count_committees n committee cbits bits slot offset v amount count in
  same_but_active v v' /\
  (forall i, i ∈ activityMap v' <-> i ∈ activityMap v \/
    exists k, committee <= k < committee + Z.of_nat n /\ BitAt cbits k = true /\ read_bit (attester_duties v) slot k bits i) /\
  exists k, size (activityMap v') = (size (activityMap v) + k)%nat /\ count' = u64 (count + Z.of_nat k).
Proof.
  revert committee offset v amount count. induction n as [|n IH]; intros committee offset v amount count Hu; simpl.
  { split; [exists (activityMap v); by destruct v|]. split; [|exists 0%nat; rewrite Z.add_0_r, u64_id by done; split; [lia|done]].
    intros i. split; [by left|]. intros [?|(k & ? & _)]; [done|lia]. }
  assert (forall P : Z -> Prop, (exists k, committee <= k < committee + Z.of_nat (S n) /\ P k) <->
    P committee \/ exists k, committee + 1 <= k < committee + 1 + Z.of_nat n /\ P k) as Hcons.
  { intros P. split.
    - intros (k & Hk & HP). destruct (decide (k = committee)) as [->|]; [by left|right]. exists k. split; [lia|done].
    - intros [HP|(k & Hk & HP)]; [exists committee|exists k]; (split; [lia|done]). }
  destruct (BitAt cbits committee) eqn:Hbit.
  - pose proof (aggregateAttestationVotes_spec v slot committee bits) as Hagg.
    destruct (aggregateAttestationVotes _ _ _ _ _) as [[[v1 am1] c1] sz]. destruct Hagg as (S1 & A1 & k1 & K1 & ->).
    specialize (IH (committee + 1) (offset +u sz) v1 (amount +u am1) (count +u u64 (Z.of_nat k1)) (u64_range _)).
    destruct (count_committees _ _ _ _ _ _ _ _ _) as [[v' am'] c']. destruct IH as (S2 & A2 & k2 & K2 & ->).
    destruct (same_but_active_fields _ _ S1) as (_ & _ & _ & Ed & _). destruct S1 as [a1 ->], S2 as [a2 ->].
    split; [by exists a2|]. split.
    + intros i. rewrite A2, A1, Hcons. simpl. rewrite Hbit. tauto.
    + exists (k1 + k2)%nat. split; [lia|]. go_lia.
  - specialize (IH (committee + 1) offset v amount count Hu).
    destruct (count_committees _ _ _ _ _ _ _ _ _) as [[v' am'] c']. destruct IH as (S2 & A2 & k2 & K2 & ->).
    split; [done|]. split; [|by exists k2]. intros i. rewrite A2, Hcons, Hbit.
    split; [intros [?|?]|intros [?|[[? _]|?]]]; auto; done.
Qed.

(** The attestation makes validator [i] active in the code. *)
Definition counted_in (specs : ChainSpec) (epoch : Z) (ds : option attesterDuties) (a : VersionedAttestation) (i : Z) : Prop :=
  exists data bits committee, Data a = Ok data /\ att_Slot data `div` SlotsPerEpoch specs = epoch /\
    AggregationBits a = Ok bits /\
    (if since_electra a then exists cbits, CommitteeBits a = Ok cbits /\ 0 <= committee < MaxCommitteesPerSlot specs /\
       BitAt cbits committee = true
     else committee = att_Index data) /\
    read_bit ds (att_Slot data) committee bits i.

(** The total of an epoch's counters is the number of active validators. *)
Definition totals_ok (v : epochVotes) : Prop :=
  totalVoteCount (currentEpoch v) +u totalVoteCount (nextEpoch v) = u64 (Z.of_nat (size (activityMap v))).

Lemma totals_ok_set_counts v v1 isNext isT isH amount k :
  same_but_active v v1 -> size (activityMap v1) = (size (activityMap v) + k)%nat -> totals_ok v ->
  totals_ok (set_counts isNext (add_votes isT isH amount (u64 (Z.of_nat k)) (counts_of isNext v1)) v1).
Proof.
  intros [a ->] Hs Ht. unfold totals_ok, counts_of in *. destruct isNext; simpl in *; rewrite Hs; go_lia.
Qed.

Lemma count_attestation_spec specs epoch parentRoot isNext v a :
  let v' := count_attestation specs epoch parentRoot isNext v a in
  attester_duties v' = attester_duties v /\ headRoot v' = headRoot v /\ targetRoot v' = targetRoot v /\
  dependentRoot v' = dependentRoot v /\
  (forall i, i ∈ activityMap v' <-> i ∈ activityMap v \/ counted_in specs epoch (attester_duties v) a i) /\
  (totals_ok v -> totals_ok v').
Proof.
  simpl. unfold count_attestation, counted_in. destruct (Data a) as [data|]; [|by split_and!; try done; intros i; split; [by left|intros [?|(? & ? & ? & ? & _)]]].
  destruct (Z.eqb_spec (att_Slot data `div` SlotsPerEpoch specs) epoch) as [He|He]; simpl;
    [|by split_and!; try done; intros i; split; [by left|intros [?|(? & ? & ? & [= <-] & ? & _)]]].
  destruct (AggregationBits a) as [bits|]; [|by split_and!; try done; intros i; split; [by left|intros [?|(? & ? & ? & _ & _ & ? & _)]]].
  destruct (since_electra a).
  - destruct (CommitteeBits a) as [cbits|];
      [|by split_and!; try done; intros i; split; [by left|intros [?|(? & ? & ? & _ & _ & _ & (? & ? & _) & _)]]].
    pose proof (count_committees_spec (Z.to_nat (MaxCommitteesPerSlot specs)) 0 cbits bits (att_Slot data) 0 v 0 0 ltac:(go_lia)) as H.
    destruct (count_committees _ _ _ _ _ _ _ _ _) as [[v1 am] count]. destruct H as (Hsame & Ha & k & Hk & ->).
    destruct (same_but_active_fields _ _ Hsame) as (E1 & E2 & E3 & E4 & _). split_and!; try done.
    + intros i. simpl. rewrite Ha. split; (intros [?|Hi]; [by left|right]).
      * destruct Hi as (com & Hcom & Hcb & Hbit). exists data, bits, com. split_and!; try done. exists cbits. split_and!; [done|lia..|done].
      * destruct Hi as (data' & bits' & com & [= <-] & _ & [= <-] & (cb & [= <-] & Hcom & Hcb) & Hbit). exists com. split; [lia|done].
    + rewrite Z.add_0_l. by apply totals_ok_set_counts.
  - pose proof (aggregateAttestationVotes_spec v (att_Slot data) (att_Index data) bits) as H.
    destruct (aggregateAttestationVotes _ _ _ _ _) as [[[v1 am] count] sz]. destruct H as (Hsame & Ha & k & Hk & ->).
    destruct (same_but_active_fields _ _ Hsame) as (E1 & E2 & E3 & E4 & _). split_and!; try done.
    + intros i. simpl. rewrite Ha. split; (intros [?|Hi]; [by left|right]).
      * by exists data, bits, (att_Index data).
      * by destruct Hi as (data' & bits' & com & [= <-] & _ & [= <-] & -> & Hbit).
    + rewrite !Z.add_0_l, (u64_id (u64 (Z.of_nat k))) by apply u64_range. by apply totals_ok_set_counts.
Qed.
End counting_lemmas.

(** ** The branches of the block tree *)

Abbreviation entry := (Z * Block * nat)%type (only parsing).

Definition entry_root `{eth : Eth2} (e : entry) : Root := Block_Root e.1.2.

Section branches.
Context `{att : AttestationTypes}.
Context (specs : ChainSpec) (dutyMap : DutyMap) (epoch : Z) (c : BlockIndex Block) (await : nat -> option BlockBody).

Let firstSlot : Z := epoch *u SlotsPerEpoch specs.

Definition is_next (slot : Z) : bool := SlotsPerEpoch specs <=? slot -u firstSlot.

(** [branch path ds v]: a path of cached blocks, each the child of the one
    before, that starts below a block with the duties [ds]; [v] are the votes
    counted block by block along it. *)
Inductive branch (ds : attesterDuties) : list entry -> epochVotes -> Prop :=
  | branch_first slot b p body parentRoot :
      (slot, b, p) ∈ epoch_blocks specs epoch c -> await p = Some body -> GetParentRoot b = Some parentRoot ->
      lookup_duties dutyMap epoch parentRoot = Some ds ->
      branch ds [(slot, b, p)]
        (count_block specs epoch parentRoot (is_next slot) body
           (mkVotes (Block_Root b) parentRoot (if slot =? firstSlot then Block_Root b else parentRoot) (Some ds)
              no_counts no_counts ∅))
  | branch_next path v e slot b p body :
      branch ds path v -> last path = Some e ->
      (slot, b, p) ∈ epoch_blocks specs epoch c -> await p = Some body -> GetParentRoot b = Some (entry_root e) ->
      branch ds (path ++ [(slot, b, p)])
        (count_block specs epoch (entry_root e) (is_next slot) body
           (mkVotes (Block_Root b) (dependentRoot v) (targetRoot v) (attester_duties v)
              (currentEpoch v) (nextEpoch v) (activityMap v))).

Lemma count_block_spec parentRoot isNext body v :
  let v' := count_block specs epoch parentRoot isNext body v in
  attester_duties v' = attester_duties v /\ headRoot v' = headRoot v /\ targetRoot v' = targetRoot v /\
  dependentRoot v' = dependentRoot v /\
  (forall i, i ∈ activityMap v' <-> i ∈ activityMap v \/
    exists atts a, get_Attestations body = Ok atts /\ a ∈ atts /\ counted_in specs epoch (attester_duties v) a i) /\
  (totals_ok v -> totals_ok v').
Proof.
  simpl. unfold count_block. destruct (get_Attestations body) as [atts|].
  2: { split_and!; try done. intros i. split; [by left|]. by intros [?|(? & ? & ? & _)]. }
  assert (forall i, (exists atts0 a, Ok atts = Ok atts0 /\ a ∈ atts0 /\ counted_in specs epoch (attester_duties v) a i) <->
    exists a, a ∈ atts /\ counted_in specs epoch (attester_duties v) a i) as Hex.
  { intros i. split; [intros (? & a & [= <-] & H); eauto|intros (a & H); eauto]. }
  setoid_rewrite Hex. clear Hex. revert v. induction atts as [|a atts IH]; intros v; simpl.
  { split_and!; try done. intros i. split; [by left|]. by intros [?|(? & ?%elem_of_nil & _)]. }
  destruct (count_attestation_spec specs epoch parentRoot isNext v a) as (E1 & E2 & E3 & E4 & Ha & Ht).
  destruct (IH (count_attestation specs epoch parentRoot isNext v a)) as (F1 & F2 & F3 & F4 & Fa & Ft).
  rewrite F1, F2, F3, F4, E1, E2, E3, E4. split_and!; try done; [|by intros; apply Ft, Ht].
  intros i. rewrite Fa, Ha, E1. setoid_rewrite elem_of_cons. split.
  - intros [[?|?]|(a' & ? & ?)]; [by left|right; exists a; auto|right; exists a'; auto].
  - intros [?|(a' & [->|?] & ?)]; [auto..|right; eauto].
Qed.

(** ... in some block of the path. *)
Definition counted_on (ds : attesterDuties) (path : list entry) (i : Z) : Prop :=
  exists slot b p body atts a, (slot, b, p) ∈ path /\ await p = Some body /\ get_Attestations body = Ok atts /\ a ∈ atts /\
    counted_in specs epoch (Some ds) a i.

Lemma branch_counts ds path v : branch ds path v ->
  attester_duties v = Some ds /\ (exists e, last path = Some e /\ headRoot v = entry_root e) /\
  (forall i, i ∈ activityMap v <-> counted_on ds path i) /\ totals_ok v.
Proof.
  induction 1 as [slot b p body parentRoot Hin Hbody Hpar Hds|path v e slot b p body Hbr (IHd & _ & IHa & IHt) Hlast Hin Hbody Hpar].
  - set (v0 := mkVotes _ _ _ _ _ _ _). destruct (count_block_spec parentRoot (is_next slot) body v0) as (E1 & E2 & E3 & E4 & Ha & Ht).
    split; [done|]. split; [eexists; by split|]. split; [|by apply Ht].
    intros i. rewrite Ha. unfold counted_on. split.
    + intros [?%elem_of_empty|(atts & a & H1 & H2 & H3)]; [done|]. exists slot, b, p, body, atts, a. split; [by left|done].
    + intros (slot' & b' & p' & body' & atts & a & Hp%list_elem_of_singleton & H1 & H2 & H3 & H4). right. exists atts, a.
      injection Hp as -> -> ->. rewrite Hbody in H1. injection H1 as <-. done.
  - set (v0 := mkVotes _ _ _ _ _ _ _). destruct (count_block_spec (entry_root e) (is_next slot) body v0) as (E1 & E2 & E3 & E4 & Ha & Ht).
    split; [by rewrite E1|]. split; [eexists; split; [apply last_snoc|]; by rewrite E2|]. split; [|by apply Ht].
    intros i. rewrite Ha. simpl. rewrite IHa. unfold counted_on. setoid_rewrite elem_of_app. rewrite IHd. split.
    + intros [(slot' & b' & p' & body' & atts & a & H1 & H2)|(atts & a & H1 & H2 & H3)].
      * exists slot', b', p', body', atts, a. split; [by left|done].
      * exists slot, b, p, body, atts, a. split; [right; by left|done].
    + intros (slot' & b' & p' & body' & atts & a & [H1|H1%list_elem_of_singleton] & H2 & H3 & H4 & H5).
      * left. by exists slot', b', p', body', atts, a.
      * right. exists atts, a. injection H1 as -> -> ->. rewrite Hbody in H2. injection H2 as <-. done.
Qed.

(** The map of all votes holds, for each block, the count of a branch that
    ends in it. *)
Definition agg_ok (st : aggregation) : Prop :=
  (forall r v, allVotes st !! r = Some v -> exists ds path e, branch ds path v /\ last path = Some e /\ entry_root e = r) /\
  (forall r, r ∈ allHeads st -> is_Some (allVotes st !! r)).

Lemma agg_block_ok slot b p st :
  (slot, b, p) ∈ epoch_blocks specs epoch c -> agg_ok st ->
  agg_ok (agg_block specs dutyMap epoch firstSlot slot b (await p) st).
Proof.
  intros Hin [Hv Hh]. unfold agg_block. destruct (await p) as [body|] eqn:Hbody; [|done].
  destruct (GetParentRoot b) as [parentRoot|] eqn:Hpar; [|done].
  destruct (start_votes _ _ _ _ _ _ _) as [votes|] eqn:Hstart; [|done]. split; simpl.
  - intros r v [[<- <-]|[_ Hr]]%lookup_insert_Some; [|by apply Hv].
    unfold start_votes in Hstart. destruct (allVotes st !! parentRoot) as [pv|] eqn:Hpv.
    + injection Hstart as <-. destruct (Hv _ _ Hpv) as (ds & path & e & Hbr & Hlast & <-).
      exists ds, (path ++ [(slot, b, p)]), (slot, b, p). split_and!; [|by rewrite last_snoc|done]. exact (branch_next ds path pv e slot b p body Hbr Hlast Hin Hbody Hpar).
    + destruct (lookup_duties dutyMap epoch parentRoot) as [ds|] eqn:Hds; [|done]. injection Hstart as <-.
      exists ds, [(slot, b, p)], (slot, b, p). split_and!; [|done|done]. exact (branch_first ds slot b p body parentRoot Hin Hbody Hpar Hds).
  - intros r [->%elem_of_singleton|Hr]%elem_of_union; [by rewrite lookup_insert_eq|]. apply lookup_insert_is_Some.
    destruct (decide (Block_Root b = r)); [by left|right]. split; [done|]. apply Hh. destruct (allVotes st !! parentRoot); [|done].
    by apply elem_of_difference in Hr as [? _].
Qed.

Lemma aggregate_tree_ok : agg_ok (aggregate_tree specs dutyMap epoch c await).
Proof.
  unfold aggregate_tree. assert (agg_ok (mkAgg ∅ ∅)) as H0 by (split; [intros r v; simpl; by rewrite lookup_empty|intros r; simpl; set_solver]).
  fold firstSlot. assert (forall l, (forall x, x ∈ l -> x ∈ epoch_blocks specs epoch c) -> forall st, agg_ok st ->
    agg_ok (fold_left (fun st '(slot, b, p) => agg_block specs dutyMap epoch firstSlot slot b (await p) st) l st)) as Hfold; [|by apply Hfold].
  induction l as [|[[slot b] p] l IH]; intros Hin st Hst; [done|]. simpl. apply IH; [intros x Hx; apply Hin; by right|].
  apply agg_block_ok; [|done]. apply Hin. by left.
Qed.
End branches.

(** ** At most one head of the aggregation is canonical *)

Section canonical.
Context `{att : AttestationTypes}.
Context (specs : ChainSpec) (dutyMap : DutyMap) (epoch : Z) (c : BlockIndex Block) (await : nat -> option BlockBody).
Hypothesis (Hwf : index_wf c).

Let firstSlot : Z := epoch *u SlotsPerEpoch specs.
Let process (st : aggregation) (e : entry) : aggregation :=
  agg_block specs dutyMap epoch firstSlot e.1.1 e.1.2 (await e.2) st.

Lemma elem_of_epoch_blocks slot b p :
  (slot, b, p) ∈ epoch_blocks specs epoch c <->
  slot ∈ epoch_slots specs epoch /\ p ∈ GetCachedBlocksBySlot slot c /\ blockHeap c !! p = Some b.
Proof.
  unfold epoch_blocks. rewrite list_elem_of_bind. setoid_rewrite list_elem_of_omap. split.
  - intros (s & (q & Hq & Hb) & Hs). destruct (blockHeap c !! q) as [b'|] eqn:E; [|done]. simpl in Hb. by injection Hb as -> -> ->.
  - intros (Hs & Hp & Hb). exists slot. split; [|done]. exists p. split; [done|]. by rewrite Hb.
Qed.

(** A cached block of one of the slots. *)
Lemma epoch_blocks_entry slot b p : (slot, b, p) ∈ epoch_blocks specs epoch c ->
  Block_Slot b = slot /\ blockRootMap c !! Block_Root b = Some p /\ blockHeap c !! p = Some b.
Proof.
  intros (_ & Hp & Hb)%elem_of_epoch_blocks. destruct (elem_of_BySlot c slot p Hwf Hp) as (b' & Hb' & Hs & Hr).
  rewrite Hb in Hb'. by injection Hb' as <-.
Qed.

Lemma epoch_blocks_cached r b : lookup_block c r = Some b -> Block_Slot b ∈ epoch_slots specs epoch ->
  exists p, (Block_Slot b, b, p) ∈ epoch_blocks specs epoch c.
Proof.
  intros (p & Hp & Hb)%lookup_block_Some Hs. exists p. apply elem_of_epoch_blocks. split_and!; [done| |done].
  destruct (iwf_root _ Hwf _ _ Hp) as (b' & Hb' & _ & Hin). rewrite Hb in Hb'. by injection Hb' as <-.
Qed.

Lemma epoch_blocks_same_root e e' : e ∈ epoch_blocks specs epoch c -> e' ∈ epoch_blocks specs epoch c ->
  entry_root e = entry_root e' -> e = e'.
Proof.
  destruct e as [[s b] p], e' as [[s' b'] p']. intros (<- & Hr & Hb)%epoch_blocks_entry (<- & Hr' & Hb')%epoch_blocks_entry Heq.
  unfold entry_root in Heq. simpl in Heq. rewrite Heq in Hr. congruence.
Qed.

(** Sorted by slot, without repetition. *)
Lemma epoch_blocks_sorted : StronglySorted (fun e e' : entry => e.1.1 <= e'.1.1) (epoch_blocks specs epoch c) /\
  NoDup (epoch_blocks specs epoch c).
Proof.
  assert (forall s e, e ∈ omap (fun p => (fun b => (s, b, p)) <$> blockHeap c !! p) (GetCachedBlocksBySlot s c) -> e.1.1 = s) as Hslot.
  { intros s e (p & _ & H)%list_elem_of_omap. destruct (blockHeap c !! p); [|done]. simpl in H. by injection H as <-. }
  unfold epoch_blocks, epoch_slots. set (n := _ - _ + 1). generalize (epoch *u SlotsPerEpoch specs). intros first. clearbody n.
  assert (StronglySorted Z.lt (seqZ first n)) as Hs.
  { unfold seqZ. assert (forall l : list nat, StronglySorted lt l -> StronglySorted Z.lt ((fun i => Z.of_nat i + first) <$> l)) as Hf.
    { induction 1 as [|i l Hl IH Hi]; simpl; constructor; [done|]. apply Forall_fmap. eapply Forall_impl; [done|]. intros j Hj. simpl in *. lia. }
    apply Hf. generalize 0%nat. intros m. revert m. induction (Z.to_nat n) as [|k IH]; intros m; simpl; constructor; [done|].
    apply Forall_forall. intros j Hj%elem_of_seq. lia. }
  induction Hs as [|s l Hl [IH1 IH2] Hall]; simpl; [split; constructor|]. rewrite Forall_forall in Hall. split.
  - assert (forall e, e ∈ (l ≫= fun slot => omap (fun p => (fun b => (slot, b, p)) <$> blockHeap c !! p) (GetCachedBlocksBySlot slot c)) -> s <= e.1.1) as Hge.
    { intros e (s' & He%Hslot & Hs')%list_elem_of_bind. rewrite He. specialize (Hall s' Hs'). lia. }
    pose proof (Hslot s) as Hcur. revert Hcur. generalize (omap (fun p => (fun b => (s, b, p)) <$> blockHeap c !! p) (GetCachedBlocksBySlot s c)).
    induction l0 as [|e k IHk]; intros Hcur; [done|]. simpl. constructor; [apply IHk; intros; apply Hcur; by right|].
    apply Forall_forall. intros e' [He'|He']%elem_of_app; rewrite (Hcur e) by (by left).
    + rewrite (Hcur e') by (by right). done.
    + by apply Hge.
  - apply NoDup_app. split_and!.
    + pose proof (NoDup_BySlot c s Hwf) as Hnd. revert Hnd. generalize (GetCachedBlocksBySlot s c). induction 1 as [|p k Hp Hk IHk]; simpl; [constructor|].
      destruct (blockHeap c !! p) as [b|]; simpl; [|done]. constructor; [|done]. intros (q & Hq & H)%list_elem_of_omap.
      destruct (blockHeap c !! q); [|done]. simpl in H. injection H as _ ->. done.
    + intros e He%Hslot (s' & He'%Hslot & Hs')%list_elem_of_bind. specialize (Hall s' Hs'). lia.
    + done.
Qed.

Lemma process_votes st e r : is_Some (allVotes (process st e) !! r) -> r = entry_root e \/ is_Some (allVotes st !! r).
Proof.
  unfold process, agg_block. destruct (await e.2), (GetParentRoot e.1.2); try by right. destruct (start_votes _ _ _ _ _ _ _); [|by right].
  simpl. intros [H|[_ ?]]%lookup_insert_is_Some; [left; by symmetry|by right].
Qed.

Lemma process_heads st e r : r ∈ allHeads (process st e) -> r = entry_root e \/ r ∈ allHeads st.
Proof.
  unfold process, agg_block. destruct (await e.2), (GetParentRoot e.1.2) as [r0|]; try by right. destruct (start_votes _ _ _ _ _ _ _); [|by right].
  simpl. intros [->%elem_of_singleton|H]%elem_of_union; [by left|right]. destruct (allVotes st !! r0); [|done]. set_solver.
Qed.

Lemma process_mono st e r : is_Some (allVotes st !! r) -> is_Some (allVotes (process st e) !! r).
Proof.
  intros H. unfold process, agg_block. destruct (await e.2), (GetParentRoot e.1.2); try done. destruct (start_votes _ _ _ _ _ _ _); [|done].
  simpl. apply lookup_insert_is_Some. destruct (decide (Block_Root e.1.2 = r)); [by left|by right].
Qed.

Lemma fold_votes l st r : is_Some (allVotes (fold_left process l st) !! r) ->
  (exists e, e ∈ l /\ r = entry_root e) \/ is_Some (allVotes st !! r).
Proof.
  revert st. induction l as [|e l IH]; intros st H; [by right|]. simpl in H. apply IH in H as [(e' & ? & ?)|H].
  - left. exists e'. split; [by right|done].
  - apply process_votes in H as [->|?]; [left; exists e; split; [by left|done]|by right].
Qed.

Lemma fold_heads l st r : r ∈ allHeads (fold_left process l st) -> (exists e, e ∈ l /\ r = entry_root e) \/ r ∈ allHeads st.
Proof.
  revert st. induction l as [|e l IH]; intros st H; [by right|]. simpl in H. apply IH in H as [(e' & ? & ?)|H].
  - left. exists e'. split; [by right|done].
  - apply process_heads in H as [->|?]; [left; exists e; split; [by left|done]|by right].
Qed.

Lemma fold_heads_votes l st : (forall r, r ∈ allHeads st -> is_Some (allVotes st !! r)) ->
  forall r, r ∈ allHeads (fold_left process l st) -> is_Some (allVotes (fold_left process l st) !! r).
Proof.
  revert st. induction l as [|e l IH]; intros st Hst; [done|]. simpl. apply IH. intros r Hr.
  destruct (process_heads _ _ _ Hr) as [->|Hr']; [|by apply process_mono, Hst].
  revert Hr. unfold process, agg_block. destruct (await e.2), (GetParentRoot e.1.2); try apply Hst.
  destruct (start_votes _ _ _ _ _ _ _); [|apply Hst]. intros _. simpl. by rewrite lookup_insert_eq.
Qed.

(** A head with a child among the blocks would have been replaced by it. *)
Lemma head_has_no_child e e' body :
  e ∈ epoch_blocks specs epoch c -> e' ∈ epoch_blocks specs epoch c -> e.1.1 < e'.1.1 ->
  GetParentRoot e'.1.2 = Some (entry_root e) -> await e'.2 = Some body ->
  entry_root e ∉ allHeads (fold_left process (epoch_blocks specs epoch c) (mkAgg ∅ ∅)).
Proof.
  intros He He' Hlt Hpar Hbody Hhead. destruct epoch_blocks_sorted as [Hs Hnd].
  destruct (list_elem_of_split _ _ He) as (l1 & l2 & Hl).
  assert (e' ∈ l2) as He2.
  { rewrite Hl in He'. apply elem_of_app in He' as [Hin|[->|Hin]%elem_of_cons]; [|lia|done].
    rewrite Hl in Hs. apply StronglySorted_app_1_elem_of with (x1 := e') (x2 := e) in Hs; [lia|done|by left]. }
  destruct (list_elem_of_split _ _ He2) as (l3 & l4 & ->).
  assert (forall x, x ∈ l1 ++ l3 ++ e' :: l4 -> entry_root x <> entry_root e) as Hne.
  { intros x Hx Hroot. assert (x = e) as ->.
    { apply epoch_blocks_same_root; [|done..]. rewrite Hl. rewrite !elem_of_app, !elem_of_cons in *. set_solver. }
    rewrite Hl in Hnd. apply NoDup_app in Hnd as (_ & Hd & Hn%NoDup_cons). destruct Hn as [Hn _].
    rewrite elem_of_app in Hx. destruct Hx as [Hx|Hx]; [|by apply Hn]. apply (Hd e Hx). by left. }
  rewrite Hl, fold_left_app in Hhead. cbn [fold_left] in Hhead. rewrite fold_left_app in Hhead. cbn [fold_left] in Hhead.
  set (st1 := process (fold_left process l1 (mkAgg ∅ ∅)) e) in Hhead.
  assert (entry_root e ∈ allHeads st1 /\ entry_root e ∈ allHeads (process (fold_left process l3 st1) e')) as [Hst1 Hchild].
  { apply fold_heads in Hhead as [(x & Hx & Hr)|Hhead].
    { destruct (Hne x); [|done]. rewrite !elem_of_app, elem_of_cons. auto. }
    split; [|done]. apply process_heads in Hhead as [Hr|Hhead].
    { destruct (Hne e'); [|done]. rewrite !elem_of_app, elem_of_cons. auto. }
    apply fold_heads in Hhead as [(x & Hx & Hr)|Hhead]; [|done].
    destruct (Hne x); [|done]. rewrite !elem_of_app, elem_of_cons. auto. }
  (* [e] was counted when it was processed, so that its child replaces it *)
  assert (is_Some (allVotes (fold_left process l3 st1) !! entry_root e)) as [v Hv].
  { assert (is_Some (allVotes st1 !! entry_root e)) as Hsome.
    { pose proof (fold_heads_votes (l1 ++ [e]) (mkAgg ∅ ∅)) as H. rewrite fold_left_app in H. apply H; [|done]. intros r; simpl; set_solver. }
    revert Hsome. clear. generalize st1. induction l3 as [|x l3 IH]; intros st Hst; [done|]. simpl. by apply IH, process_mono. }
  revert Hchild. unfold process at 1, agg_block. rewrite Hbody, Hpar, Hv. simpl.
  intros [Heq%elem_of_singleton|Hin]%elem_of_union; [|set_solver].
  apply (Hne e'); [|done]. rewrite !elem_of_app, elem_of_cons. auto.
Qed.

(** The bodies of all blocks of the window are available. *)
Hypothesis (Hbodies : forall e, e ∈ epoch_blocks specs epoch c -> is_Some (await e.2)).
Hypothesis (Hslots : slots_decrease c).

(** One of two different blocks on a chain has a child on it. *)
Lemma ancestor_child k r1 r2 : ancestor c k r1 r2 -> r1 <> r2 ->
  exists b1 b, lookup_block c r1 = Some b1 /\ (exists r, lookup_block c r = Some b) /\ GetParentRoot b = Some r2 /\
    Block_Slot b <= Block_Slot b1.
Proof.
  induction 1 as [r|n r1 b p r Hb Hp Hanc IH]; intros Hne; [done|].
  destruct (decide (p = r)) as [->|Hpr]; [exists b, b; split_and!; [done|by exists r1|done|lia]|].
  destruct (IH Hpr) as (b1 & b' & Hb1 & Hb' & Hpar & Hle). exists b, b'. split_and!; try done.
  pose proof (Hslots _ _ _ _ Hb Hp Hb1) as Hdec. simpl in Hdec. lia.
Qed.

Lemma canonical_head_unique root r1 r2 :
  r1 ∈ allHeads (aggregate_tree specs dutyMap epoch c await) -> r2 ∈ allHeads (aggregate_tree specs dutyMap epoch c await) ->
  IsCanonicalBlock r1 root c = Some true -> IsCanonicalBlock r2 root c = Some true -> r1 = r2.
Proof.
  assert (aggregate_tree specs dutyMap epoch c await = fold_left process (epoch_blocks specs epoch c) (mkAgg ∅ ∅)) as Htree.
  { unfold aggregate_tree. fold firstSlot. generalize (mkAgg ∅ ∅). generalize (epoch_blocks specs epoch c).
    induction l as [|[[s b] p] l IH]; intros st; [done|]. simpl. by rewrite IH. }
  assert (forall r, r ∈ allHeads (aggregate_tree specs dutyMap epoch c await) -> exists e, e ∈ epoch_blocks specs epoch c /\ r = entry_root e) as Hentry.
  { intros r. rewrite Htree. intros [?|H]%fold_heads; [done|]. simpl in H. set_solver. }
  assert (forall k ra rb, ra ∈ allHeads (aggregate_tree specs dutyMap epoch c await) -> rb ∈ allHeads (aggregate_tree specs dutyMap epoch c await) ->
    ancestor c k ra rb -> ra = rb) as Hanc.
  { intros k ra rb Ha Hb Hanc. destruct (decide (ra = rb)) as [|Hne]; [done|exfalso].
    destruct (Hentry ra Ha) as ([[sa ba] pa] & Hina & ->), (Hentry rb Hb) as ([[sb bb] pb] & Hinb & ->).
    destruct (ancestor_child _ _ _ Hanc Hne) as (b1 & b & Hb1 & (r & Hr) & Hpar & Hle).
    pose proof (epoch_blocks_entry _ _ _ Hina) as (Esa & Era & Ehea). pose proof (epoch_blocks_entry _ _ _ Hinb) as (Esb & Erb & Eheb).
    unfold entry_root in *. simpl in *.
    assert (b1 = ba) as -> by (apply lookup_block_Some in Hb1 as (q & Hq & Hqb); congruence).
    assert (lookup_block c (Block_Root bb) = Some bb) as Hlbb by (apply lookup_block_Some; eauto).
    pose proof (Hslots _ _ _ _ Hr Hpar Hlbb) as Hlt. simpl in Hlt.
    pose proof (proj1 (elem_of_epoch_blocks _ _ _) Hina) as (Hsa & _). pose proof (proj1 (elem_of_epoch_blocks _ _ _) Hinb) as (Hsb & _).
    assert (Block_Slot b ∈ epoch_slots specs epoch) as Hsl.
    { unfold epoch_slots in *. rewrite elem_of_seqZ in *. subst. lia. }
    destruct (epoch_blocks_cached r b Hr Hsl) as (p & Hp). destruct (Hbodies _ Hp) as [body Hbody].
    rewrite Htree in Hb. revert Hb. apply (head_has_no_child (sb, bb, pb) (Block_Slot b, b, p) body); simpl; try done. lia. }
  intros H1 H2 C1 C2.
  assert (forall r, IsCanonicalBlock r root c = Some true -> exists k, ancestor c k root r) as Hcanon.
  { intros r Hr. unfold IsCanonicalBlock in Hr. destruct (GetBlockDistance r root c) as [[l n]|] eqn:Hd; [|done]. simpl in Hr.
    injection Hr as ->. apply GetBlockDistance_true in Hd as [[-> _]|(_ & k & Hk & _)]; try done; eexists; [constructor|done]. }
  destruct (Hcanon _ C1) as [k1 A1], (Hcanon _ C2) as [k2 A2].
  destruct (ancestor_linear _ _ _ _ _ _ A1 A2) as [[k Hk]|[k Hk]]; [by eapply Hanc|symmetry; by eapply Hanc].
Qed.
End canonical.

(** ** Lemmas for the properties *)

Section lemmas.
Context `{att : AttestationTypes}.

Lemma aggregateEpochVotes_elem specs dutyMap epoch c await v :
  v ∈ aggregateEpochVotes specs dutyMap epoch c await ->
  exists ds path e, branch specs dutyMap epoch c await ds path v /\ last path = Some e /\ headRoot v = entry_root e /\
    entry_root e ∈ allHeads (aggregate_tree specs dutyMap epoch c await) /\
    allVotes (aggregate_tree specs dutyMap epoch c await) !! headRoot v = Some v.
Proof.
  unfold aggregateEpochVotes. intros (r & Hr%elem_of_elements & Hv)%list_elem_of_omap.
  destruct (aggregate_tree_ok specs dutyMap epoch c await) as [Hok _]. destruct (Hok _ _ Hv) as (ds & path & e & Hbr & Hlast & <-).
  pose proof (branch_counts _ _ _ _ _ _ _ _ Hbr) as (_ & (e' & He' & Hh) & _). rewrite Hlast in He'. injection He' as <-.
  exists ds, path, e. by rewrite Hh.
Qed.

Lemma check_first_filter cfg epoch isCanonical votes t :
  check_first cfg epoch isCanonical votes t =
  match filterb (fun v => isCanonical (headRoot v)) votes with
  | [] => t
  | v :: _ => check_first cfg epoch isCanonical [v] t
  end.
Proof.
  induction votes as [|v votes IH]; [done|]. rewrite filterb_cons. cbn [check_first].
  destruct (isCanonical (headRoot v)) eqn:Hc; [|done]. by rewrite Hc.
Qed.

Lemma filterb_perm {A} (p : A -> bool) l l' : l ≡ₚ l' -> filterb p l ≡ₚ filterb p l'.
Proof. unfold filterb. by intros ->. Qed.

Lemma event_loop_epochs `{SliceSort} cfg specs last es t t' r checked :
  event_loop cfg specs last es t = Ret (t', r, checked) ->
  StronglySorted Z.lt checked /\ (forall e, e ∈ checked -> last < e) /\
  (forall e, e ∈ checked -> exists n c await root, EpochEvent n c await root ∈ es /\ 2 <= n /\ e = n -u 2).
Proof.
  revert last t t' r checked. induction es as [|ev es IH]; intros last t t' r checked; simpl.
  { intros [= <- <- <-]. split; [constructor|]. split; intros e ?%elem_of_nil; done. }
  destruct ev as [c b ans|n c await root|e].
  - intros (t1 & _ & H1)%go_bind_Ret. apply IH in H1 as (Hs & Hlt & Hin). split_and!; [done..|].
    intros e He. destruct (Hin e He) as (n & c' & aw & rt & ? & ? & ?). exists n, c', aw, rt. split; [by right|done].
  - destruct (Z.ltb_spec n 2) as [Hn|Hn]; simpl; [|destruct (Z.leb_spec (n -u 2) last) as [Hl|Hl]].
    1,2: intros H1; apply IH in H1 as (Hs & Hlt & Hin); split_and!; [done..|]; intros e He;
      destruct (Hin e He) as (n' & c' & aw & rt & ? & ? & ?); exists n', c', aw, rt; split; [by right|done].
    intros (t1 & _ & (([t2 r2] & l2) & H1 & [= <- <- <-])%go_bind_Ret)%go_bind_Ret.
    apply IH in H1 as (Hs & Hlt & Hin). split; [|split].
    + constructor; [done|]. apply Forall_forall. intros e He. by apply Hlt.
    + intros e [->|He]%elem_of_cons; [done|]. specialize (Hlt e He). lia.
    + intros e [->|He]%elem_of_cons; [exists n, c, await, root; split_and!; [by left|lia|done]|].
      destruct (Hin e He) as (n' & c' & aw & rt & ? & ? & ?). exists n', c', aw, rt. split; [by right|done].
  - intros [= <- <- <-]. split; [constructor|]. split; intros e' ?%elem_of_nil; done.
Qed.

(** No committee of the attestation's slot has a set bit where the code looks. *)
Lemma no_bits_no_votes specs epoch parentRoot isNext v a bits :
  AggregationBits a = Ok bits ->
  (forall slot committee j d, duties_of v slot committee !! j = Some d -> BitAt bits (u64 (Z.of_nat j)) = false) ->
  activityMap (count_attestation specs epoch parentRoot isNext v a) = activityMap v.
Proof.
  intros Hbits Hno. destruct (count_attestation_spec specs epoch parentRoot isNext v a) as (_ & _ & _ & _ & Ha & _).
  apply set_eq. intros i. rewrite Ha. split; [|by left].
  intros [?|(data & bits' & com & _ & _ & Hb & _ & (j & d & Hj & _ & Hbit))]; [done|].
  rewrite Hbits in Hb. injection Hb as <-. by rewrite (Hno _ _ _ _ Hj) in Hbit.
Qed.
End lemmas.

(** ** Properties *)

(** *** Whose vote an attestation holds

    The rule of the chain.  Before Electra an attestation holds one bit for each
    member of the committee of its index.  Since Electra (EIP-7549) it selects
    committees of its slot and holds the bits of their members, one selected
    committee after the other: those of a committee start where the members of
    the selected committees before it end. *)
Section rule.
Context `{att : AttestationTypes}.

Definition committee_members (ds : attesterDuties) (slot committee : Z) : list attesterDuty :=
  default [] (duties ds !! attKey slot committee).

Definition bits_before (ds : attesterDuties) (slot : Z) (committeeBits : Bitfield) (committee : Z) : Z :=
  foldr Z.add 0 ((fun k => Z.of_nat (length (committee_members ds slot k))) <$>
    filterb (BitAt committeeBits) (seqZ 0 committee)).

Definition casts_vote (specs : ChainSpec) (epoch : Z) (ds : attesterDuties) (a : VersionedAttestation) (i : Z) : Prop :=
  exists data bits committee j d, Data a = Ok data /\ att_Slot data `div` SlotsPerEpoch specs = epoch /\
    AggregationBits a = Ok bits /\ committee_members ds (att_Slot data) committee !! j = Some d /\ validator d = i /\
    if since_electra a then exists cbits, CommitteeBits a = Ok cbits /\ 0 <= committee < MaxCommitteesPerSlot specs /\
      BitAt cbits committee = true /\
      BitAt bits (u64 (bits_before ds (att_Slot data) cbits committee + Z.of_nat j)) = true
    else committee = att_Index data /\ BitAt bits (u64 (Z.of_nat j)) = true.

(** Validator [i] casts a vote in some block of the path. *)
Definition votes_on (specs : ChainSpec) (epoch : Z) (await : nat -> option BlockBody) (ds : attesterDuties)
    (path : list entry) (i : Z) : Prop :=
  exists slot b p body atts a, (slot, b, p) ∈ path /\ await p = Some body /\ get_Attestations body = Ok atts /\ a ∈ atts /\
    casts_vote specs epoch ds a i.

(** An Electra attestation selects one committee only; any other attestation
    does anyway. *)
Definition one_committee (specs : ChainSpec) (a : VersionedAttestation) : Prop :=
  since_electra a = true -> forall cbits k k', CommitteeBits a = Ok cbits ->
    0 <= k < MaxCommitteesPerSlot specs -> 0 <= k' < MaxCommitteesPerSlot specs ->
    BitAt cbits k = true -> BitAt cbits k' = true -> k = k'.

Lemma counted_casts specs epoch ds a i :
  one_committee specs a -> counted_in specs epoch (Some ds) a i <-> casts_vote specs epoch ds a i.
Proof.
  intros Hone. unfold counted_in, casts_vote, read_bit. simpl. fold (committee_members ds).
  assert (forall slot cbits k, CommitteeBits a = Ok cbits -> since_electra a = true -> 0 <= k < MaxCommitteesPerSlot specs ->
    BitAt cbits k = true -> bits_before ds slot cbits k = 0) as Hzero.
  { intros slot cbits k Hc He Hk Hb. unfold bits_before. destruct (filterb (BitAt cbits) (seqZ 0 k)) as [|k' l] eqn:Hf; [done|].
    assert (k' ∈ filterb (BitAt cbits) (seqZ 0 k)) as [Hb' Hk']%elem_of_filterb by (rewrite Hf; by left).
    apply elem_of_seqZ in Hk'. assert (k' = k); [|lia]. apply (Hone He cbits); [done|lia|lia|done|done]. }
  destruct (since_electra a) eqn:He; split.
  - intros (data & bits & k & Hd & Hs & Hb & (cbits & Hc & Hk & Hbit) & j & d & Hj & Hv & Hr).
    exists data, bits, k, j, d. split_and!; try done. exists cbits. by rewrite (Hzero _ cbits k).
  - intros (data & bits & k & j & d & Hd & Hs & Hb & Hj & Hv & cbits & Hc & Hk & Hbit & Hr).
    rewrite (Hzero _ cbits k) in Hr by done. exists data, bits, k. split_and!; try done; [by exists cbits|by exists j, d].
  - intros (data & bits & k & Hd & Hs & Hb & -> & j & d & Hj & Hv & Hr). by exists data, bits, (att_Index data), j, d.
  - intros (data & bits & k & j & d & Hd & Hs & Hb & Hj & Hv & -> & Hr). exists data, bits, (att_Index data).
    split_and!; try done. by exists j, d.
Qed.
End rule.

(** C35: The votes that are reported for a head are those of its branch:
    although the counts of common ancestors are shared in one pass over the
    block tree, they equal the counts of the path of blocks that ends in the
    head, block by block; and however often a validator's vote is included,
    the number of votes is the number of active validators.  If no Electra
    attestation on the path selects more than one committee, the active
    validators are exactly those that cast a vote in an attestation of the
    epoch in one of these blocks; [second_committee_lost] shows that the votes
    of an attestation of several committees are attributed wrongly. *)
Theorem epoch_votes_counted `{att : AttestationTypes} specs dutyMap epoch c await v :
  v ∈ aggregateEpochVotes specs dutyMap epoch c await ->
  exists ds path e, branch specs dutyMap epoch c await ds path v /\ last path = Some e /\ headRoot v = entry_root e /\
    attester_duties v = Some ds /\
    ((forall slot b p body atts a, (slot, b, p) ∈ path -> await p = Some body -> get_Attestations body = Ok atts ->
        a ∈ atts -> one_committee specs a) ->
     forall i, i ∈ activityMap v <-> votes_on specs epoch await ds path i) /\
    totalVotes (epoch_outputs epoch v) = u64 (Z.of_nat (size (activityMap v))).
Proof.
  intros (ds & path & e & Hbr & Hlast & Hhead & _)%aggregateEpochVotes_elem.
  destruct (branch_counts _ _ _ _ _ _ _ _ Hbr) as (Hds & _ & Ha & Ht). exists ds, path, e. split_and!; try done.
  intros Hone i. rewrite Ha. unfold counted_on, votes_on.
  split; intros (slot & b & p & body & atts & a & H1 & H2 & H3 & H4 & H5); exists slot, b, p, body, atts, a;
    (split_and!; [done..|]); by apply (counted_casts specs epoch ds a i (Hone _ _ _ _ _ _ H1 H2 H3 H4)).
Qed.

(** The verdict of an epoch does not depend on the iteration order of the
    map of heads: when the bodies of the epoch's blocks are available and
    parents have lower slots, at most one head is canonical, so every order of
    the votes gives the same task. *)
Theorem epoch_verdict_order_independent `{att : AttestationTypes} cfg specs dutyMap epoch c await root votes t :
  index_wf c -> slots_decrease c -> (forall e, e ∈ epoch_blocks specs epoch c -> is_Some (await e.2)) ->
  votes ≡ₚ aggregateEpochVotes specs dutyMap epoch c await ->
  let isCanonical := fun head => default false (IsCanonicalBlock head root c) in
  check_first cfg epoch isCanonical votes t =
  check_first cfg epoch isCanonical (aggregateEpochVotes specs dutyMap epoch c await) t.
Proof.
  intros Hwf Hslots Hbodies Hperm isCanonical. rewrite (check_first_filter _ _ _ votes), (check_first_filter _ _ _ (aggregateEpochVotes _ _ _ _ _)).
  pose proof (filterb_perm (fun v => isCanonical (headRoot v)) _ _ Hperm) as Hp.
  assert (forall v, v ∈ filterb (fun v => isCanonical (headRoot v)) votes -> isCanonical (headRoot v) = true /\
    v ∈ aggregateEpochVotes specs dutyMap epoch c await) as Hin.
  { intros v [Hc Hv]%elem_of_filterb. split; [done|]. by rewrite <- Hperm. }
  assert (forall v w, isCanonical (headRoot v) = true -> isCanonical (headRoot w) = true ->
    v ∈ aggregateEpochVotes specs dutyMap epoch c await -> w ∈ aggregateEpochVotes specs dutyMap epoch c await -> v = w) as Huniq.
  { intros v w Cv Cw (? & ? & e & _ & _ & Ev & Hv & Lv)%aggregateEpochVotes_elem (? & ? & e' & _ & _ & Ew & Hw & Lw)%aggregateEpochVotes_elem.
    assert (forall r, isCanonical r = true -> IsCanonicalBlock r root c = Some true) as Hcan.
    { intros r. unfold isCanonical. by destruct (IsCanonicalBlock r root c) as [[]|]. }
    rewrite <- Ev in Hv. rewrite <- Ew in Hw.
    rewrite (canonical_head_unique specs dutyMap epoch c await Hwf Hbodies Hslots root _ _ Hv Hw (Hcan _ Cv) (Hcan _ Cw)) in Lv. congruence. }
  destruct (filterb _ votes) as [|v l] eqn:Hf.
  - apply Permutation_nil_l in Hp. by rewrite <- Hp.
  - destruct (filterb _ (aggregateEpochVotes _ _ _ _ _)) as [|w l'] eqn:Hf'; [by symmetry in Hp; apply Permutation_nil_cons in Hp|].
    destruct (Hin v) as [Cv Iv]; [by left|]. assert (w ∈ filterb (fun v => isCanonical (headRoot v)) (aggregateEpochVotes specs dutyMap epoch c await)) as Hw
      by (rewrite Hf'; by left). apply elem_of_filterb in Hw as [Cw Iw]. by rewrite (Huniq v w).
Qed.

(** Every epoch is checked at most once, in increasing order, two epochs
    after it ended its own slots, and never the epoch in which the task was
    started or one before it. *)
Theorem epochs_checked_once `{att : AttestationTypes} `{!SliceSort} cfg specs epoch es t r checked :
  Execute cfg specs (Ok epoch) es = Ret (t, r, checked) ->
  StronglySorted Z.lt checked /\ (forall e, e ∈ checked -> epoch < e) /\
  (forall e, e ∈ checked -> exists n c await root, EpochEvent n c await root ∈ es /\ 2 <= n /\ e = n -u 2).
Proof. apply event_loop_epochs. Qed.

(** Since Electra one attestation holds the bits of several committees one
    after the other, but the bits of every committee are read from the start:
    when the set bits all lie behind the size of each committee, nobody is
    counted, whichever validators of later committees voted. *)
Theorem electra_offset_ignored `{att : AttestationTypes} specs epoch parentRoot isNext v a bits (n : nat) :
  AggregationBits a = Ok bits ->
  (forall slot committee, (length (duties_of v slot committee) <= n)%nat) ->
  (forall j : nat, (j < n)%nat -> BitAt bits (u64 (Z.of_nat j)) = false) ->
  activityMap (count_attestation specs epoch parentRoot isNext v a) = activityMap v.
Proof.
  intros Hbits Hn Hno. apply (no_bits_no_votes _ _ _ _ _ _ bits Hbits). intros slot com j d Hj%lookup_lt_Some.
  apply Hno. specialize (Hn slot com). lia.
Qed.

Lemma nan_not_less x : SFltb S754_nan x = false /\ SFltb x S754_nan = false.
Proof. split; [done|]. by destruct x as [[]|[]| |[]]. Qed.

(** An epoch without validator balance and votes passes every check: 0/0
    is NaN, which is neither below a minimum nor above a maximum. *)
Theorem no_balance_passes cfg epoch v :
  validatorBalance (default nil_duties (attester_duties v)) = 0 -> currentEpoch v = no_counts -> nextEpoch v = no_counts ->
  (checkEpochVotes cfg epoch v).1 = true.
Proof.
  intros Hb Hc Hn. unfold checkEpochVotes, epoch_outputs. rewrite Hb, Hc, Hn. cbn -[percent percent_ok u64].
  assert (percent (0 +u 0) 0 = S754_nan) as -> by by vm_compute.
  assert (forall min max, percent_ok min max S754_nan = true) as Hok.
  { intros min max. unfold percent_ok. destruct (nan_not_less (f64 min)) as [-> _], (nan_not_less (f64 max)) as [_ ->]. by rewrite !andb_false_r. }
  by rewrite !Hok.
Qed.

(** The rule of the chain, decided on a concrete index. *)
Lemma slots_decrease_check {B} `{BlockLike B} (c : BlockIndex B) :
  forallb (fun kv => match blk_parent kv.2 with
    | None => true
    | Some p => match lookup_block c p with None => true | Some b' => blk_slot b' <? blk_slot kv.2 end
    end) (map_to_list (blockHeap c)) = true -> slots_decrease c.
Proof.
  rewrite forallb_forall. intros Hall r b p b' (q & _ & Hq)%lookup_block_Some Hp Hb'.
  specialize (Hall (q, b)). simpl in Hall. rewrite Hp, Hb' in Hall. apply Z.ltb_lt, Hall.
  by apply list_elem_of_In, elem_of_map_to_list.
Qed.

(** ** A concrete block tree

    Epoch 1 of four slots: block 2 at slot 4 below block 1 of epoch 0, and its
    children 3 and 4 at slots 6 and 7.  Bodies are lists of attestations. *)

Record ex_att := mkExAtt { ex_data : AttestationData; ex_bits : list Z; ex_committees : option (list Z) }.

Definition ex_eth2 : Eth2 := {|
  BlockBody := list ex_att; ValidatorMap := gmap Z ValidatorInfo; SpecValues := unit; FillStructByTags := fun _ => Err "none"%string;
  Wallclock := unit; NewEthereumBeaconChain := fun _ _ _ => tt; wallclock_epoch := fun _ _ => 0 |}.

Definition ex_att_types : AttestationTypes (eth := ex_eth2) :=
  @Build_AttestationTypes ex_eth2 ex_att (list Z) (fun l i => existsb (Z.eqb i) l) (fun b => Ok b) (fun a => Ok (ex_data a))
    (fun a => Ok (ex_bits a)) (fun a => from_option Ok (Err "no committee bits"%string) (ex_committees a))
    (fun a => if ex_committees a then true else false) (fun m => m).

Section examples.
#[local] Existing Instance ex_eth2.
#[local] Existing Instance ex_att_types.

Definition ex_header (slot : Z) (parent : Root) (b : Block) : Block := SetHeader (Some (mkBlockHeader slot parent)) b.

Definition ex_tree : BlockIndex (@Block ex_eth2) :=
  upd_block 3 (ex_header 7 2) (AddBlock 4 7 (upd_block 2 (ex_header 6 2) (AddBlock 3 6
    (upd_block 1 (ex_header 4 1) (AddBlock 2 4 (AddBlock 1 3 (NewBlockIndex 30)).1).1)).1)).1.

Lemma ex_tree_steps : rtc index_step (NewBlockIndex 30) ex_tree.
Proof.
  assert (forall r s (c : BlockIndex (@Block ex_eth2)), 0 <= s < two63 ->
    index_step c (AddBlock r s c).1) as Hadd by (intros; by apply index_add).
  assert (forall p s r (c : BlockIndex (@Block ex_eth2)), index_step c (upd_block p (ex_header s r) c)) as Hupd
    by (intros; apply index_update; done).
  assert (forall s, 0 <= s <= 7 -> 0 <= s < two63) as Hs by (intros; go_lia).
  unfold ex_tree. repeat (eapply rtc_r; [|first [apply Hupd|apply Hadd, Hs; lia]]). constructor.
Qed.

Lemma ex_tree_wf : index_wf ex_tree.
Proof. eapply index_steps_wf; [apply ex_tree_steps|]. apply NewBlockIndex_wf. lia. Qed.

Lemma ex_tree_decrease : slots_decrease ex_tree.
Proof. apply slots_decrease_check. by vm_compute. Qed.

Definition ex_duties : attesterDuties :=
  mkDuties 3 96 {[attKey 4 0 := [mkDuty 10 32; mkDuty 11 32]; attKey 4 1 := [mkDuty 12 32]]}.
Definition ex_duty_map : DutyMap := {[1 := {[1%N := ex_duties]}]}.

(** Block 3 includes the vote of validator 11, block 4 both votes of the
    committee, twice. *)
Definition ex_vote (bits : list Z) : ex_att := mkExAtt (mkAttData 4 0 2%N 2%N) bits None.
Definition ex_await (p : nat) : option (@BlockBody ex_eth2) :=
  Some (match p with 2%nat => [ex_vote [1]] | 3%nat => [ex_vote [0; 1]; ex_vote [1]] | _ => [] end).

Definition ex_branch_votes : epochVotes := default (newEpochVotes None) (allVotes (aggregate_tree (ex_spec 4) ex_duty_map 1 ex_tree ex_await) !! 4%N).

Lemma ex_branch_votes_in : ex_branch_votes ∈ aggregateEpochVotes (ex_spec 4) ex_duty_map 1 ex_tree ex_await.
Proof. apply list_elem_of_omap. exists 4%N. split; [apply elem_of_elements; by vm_compute|by vm_compute]. Qed.

Lemma epoch_votes_counted_witness :
  totalVotes (epoch_outputs 1 ex_branch_votes) = 2 /\
  exists ds path, attester_duties ex_branch_votes = Some ds /\ votes_on (ex_spec 4) 1 ex_await ds path 10.
Proof.
  split; [by vm_compute|].
  destruct (epoch_votes_counted (ex_spec 4) ex_duty_map 1 ex_tree ex_await ex_branch_votes ex_branch_votes_in)
    as (ds & path & e & _ & _ & _ & Hds & Hv & _).
  exists ds, path. split; [exact Hds|]. apply Hv; [|apply (bool_decide_unpack _); by vm_compute].
  intros slot b p body atts a _ Hb Hatts Ha He. exfalso. injection Hb as <-. injection Hatts as <-.
  destruct p as [|[|[|[|p]]]]; repeat (apply elem_of_cons in Ha as [->|Ha]; [discriminate He|]); by apply elem_of_nil in Ha.
Defined.

(** The attestation of slot 4 selects both committees; its only bit is the
    third, that of the one member of the second committee.  The validator casts
    a vote, but nobody is counted.  With the first bit set instead, the vote
    of the first member of the first committee is counted for the member of
    the second one, too. *)
Lemma second_committee_lost :
  let a := mkExAtt (mkAttData 4 0 2%N 2%N) [2] (Some [0; 1]) in
  let a' := mkExAtt (mkAttData 4 0 2%N 2%N) [0] (Some [0; 1]) in
  let v := mkVotes 2%N 1%N 2%N (Some ex_duties) no_counts no_counts ∅ in
  casts_vote (ex_spec 4) 1 ex_duties a 12 /\
  activityMap (count_attestation (ex_spec 4) 1 2%N false v a) = ∅ /\
  ~ casts_vote (ex_spec 4) 1 ex_duties a' 12 /\
  activityMap (count_attestation (ex_spec 4) 1 2%N false v a') = {[10; 12]}.
Proof.
  intros a a' v. split; [|split; [by vm_compute|split; [|by vm_compute]]].
  - exists (mkAttData 4 0 2%N 2%N), [2], 1, 0%nat, (mkDuty 12 32).
    split; [done|]. split; [by vm_compute|]. split; [done|]. split; [by vm_compute|]. split; [done|].
    exists [0; 1]. split; [done|]. split; [by vm_compute|]. split; by vm_compute.
  - intros (data & bits & k & j & d & [= <-] & _ & [= <-] & Hj & Hd & cbits & [= <-] & _ & Hk & Hb). simpl in Hk, Hb.
    rewrite orb_false_r in Hk, Hb. apply Z.eqb_eq in Hb.
    apply orb_prop in Hk as [->%Z.eqb_eq| ->%Z.eqb_eq].
    + change (committee_members ex_duties _ 0) with [mkDuty 10 32; mkDuty 11 32] in Hj.
      destruct j as [|[|j]]; [|by vm_compute in Hb|done]. injection Hj as <-. discriminate Hd.
    + change (committee_members ex_duties _ 1) with [mkDuty 12 32] in Hj.
      destruct j as [|j]; [by vm_compute in Hb|done].
Qed.

Lemma epoch_verdict_order_independent_witness :
  check_first DefaultConfig 1 (fun head => default false (IsCanonicalBlock head 4 ex_tree))
    (rev (aggregateEpochVotes (ex_spec 4) ex_duty_map 1 ex_tree ex_await)) NewTask =
  check_first DefaultConfig 1 (fun head => default false (IsCanonicalBlock head 4 ex_tree))
    (aggregateEpochVotes (ex_spec 4) ex_duty_map 1 ex_tree ex_await) NewTask.
Proof.
  apply (epoch_verdict_order_independent DefaultConfig (ex_spec 4) ex_duty_map 1 ex_tree ex_await 4
    (rev (aggregateEpochVotes (ex_spec 4) ex_duty_map 1 ex_tree ex_await)) NewTask ex_tree_wf ex_tree_decrease).
  - intros e _. by eexists.
  - symmetry. apply Permutation_rev.
Defined.

Definition ex_events : list event :=
  [EpochEvent 2 ex_tree ex_await (Some 4%N); EpochEvent 3 ex_tree ex_await (Some 4%N); EpochEvent 4 ex_tree ex_await (Some 4%N)].

Lemma epochs_checked_once_witness :
  exists t, Execute (H := insertion_slice_sort) DefaultConfig (ex_spec 4) (Ok 0) ex_events = Ret (t, None, [1; 2]) /\ forall e, e ∈ [1; 2] -> 0 < e.
Proof.
  eexists. split; [vm_compute; reflexivity|].
  edestruct (epochs_checked_once DefaultConfig (ex_spec 4) 0 ex_events) as (_ & H & _); [vm_compute; reflexivity|exact H].
Defined.

(** Both committees have set committee bits; validator 12 of the second one
    voted: its bit follows the two bits of the first. *)
Definition ex_electra : @VersionedAttestation ex_eth2 ex_att_types := mkExAtt (mkAttData 4 0 2%N 2%N) [2] (Some [0; 1]).
Definition ex_start : epochVotes := mkVotes 2 1 2 (Some ex_duties) no_counts no_counts ∅.

Lemma electra_offset_ignored_witness :
  activityMap (count_attestation (ex_spec 4) 1 2 false ex_start ex_electra) = ∅.
Proof.
  apply (electra_offset_ignored (ex_spec 4) 1 2 false ex_start ex_electra [2] 2).
  - reflexivity.
  - intros slot com. unfold duties_of. cbn [from_option attester_duties ex_start duties ex_duties].
    destruct (_ !! attKey slot com) as [l|] eqn:Hl; [|simpl; lia].
    apply lookup_insert_Some in Hl as [[_ <-]|[_ [_ <-]%lookup_singleton_Some]]; simpl; lia.
  - intros [|[|j]] Hj; [by vm_compute..|lia].
Defined.

Lemma no_balance_passes_witness :
  (checkEpochVotes (mkConfig 90 100 90 100 90 100 true 1) 1 (mkVotes 2 1 2 (Some (mkDuties 0 0 ∅)) no_counts no_counts ∅)).1 = true.
Proof. by apply no_balance_passes. Defined.
End examples.
