(* ===== verification/GenLoop.v ===== *)
(** * The loop of the transaction generators

    tasks/generate_eoa_transactions, generate_blob_transactions,
    generate_deposits, generate_consolidations and
    generate_withdrawal_requests run the same loop: take a token of
    [pendingChan], build and send the transaction of the next index, give the
    token back when its confirmation callback runs (or when it could not be
    sent), and stop or wait at the limits.  The callbacks run in goroutines of
    the wallet, so the loop is a transition system: the task's goroutine is at
    a [point], each started callback is an entry of [callbacks], and every
    event moves one of them.  What the tasks do differently is a [GenTask];
    GenTasks.v has its instances.

    Counters are unbounded here: Go's [int] counters and the 32-bit counter
    of a wait group are not reached by one task. *)

From S2P Require Import Prelude.

Open Scope Z_scope.

Section loop.
Context {Tx Receipt A : Type}.

(** The settings of a task and the parts of the loop that are its own: the
    callback, the branch of a transaction that was sent, and what follows the
    loop (given [totalCount]), all on the task's own variables [A]. *)
Record GenTask := mkGenTask {
  LimitPerSlot : Z;
  LimitTotal : Z;
  LimitPending : Z;
  AwaitReceipt : bool;
  (** is there a wait group at all, and does a context that is found done
      after an iteration give its error or nil *)
  hasWaitGroup : bool;
  returnsCtxErr : bool;
  onConfirm : Tx -> option Receipt -> option error -> A -> A;
  onSent : Tx -> A -> A;
  afterLoop : Z -> A -> A
}.

(** Where the task's goroutine is: before an iteration, in the call that
    builds and sends (with the transaction once the wallet's goroutine for it
    is started), giving back the token of a failed call, in the two waits, or
    returned. *)
Inductive point :=
  | AtTop
  | Generating (accountIdx : Z) (launched : option Tx)
  | Releasing
  | AwaitingBlock
  | AwaitingReceipts
  | Returned (err : option error).

(** [pendingChan] and [pendingWg] by their fill level and counter,
    [blockQueue] the block events in the subscription's buffer; a callback
    is marked once it has taken a token. *)
Record gen := mkGen {
  nextIndex : Z;
  lastIndex : Z;
  perSlotCount : Z;
  totalCount : Z;
  pendingChan : nat;
  pendingWg : nat;
  blockQueue : nat;
  callbacks : list (Tx * bool);
  ctxErr : option error;
  at_point : point;
  vars : A
}.

Inductive event :=
  | Acquire                                        (** an iteration starts *)
  | Launch (tx : Tx)                               (** the wallet starts the goroutine of the callback *)
  | GenerateReturns (err : option error)
  | Release                                        (** [<-pendingChan] after an error *)
  | BlockEvent                                     (** the block cache fires *)
  | NewBlock                                       (** [<-subscription.Channel()] *)
  | Waited                                         (** [pendingWg.Wait()] is over *)
  | CtxDone                                        (** a [<-ctx.Done()] case *)
  | Cancel (err : error)                           (** the context is cancelled *)
  | CbReceive (i : nat)                            (** [<-pendingChan] in a callback *)
  | CbFinish (i : nat) (receipt : option Receipt) (err : option error).

Context (t : GenTask).

(** [make(chan bool, LimitPending)] only for a positive limit. *)
Definition hasChan : bool := 0 <? LimitPending t.

Definition goto (p : point) (g : gen) : gen :=
  mkGen (nextIndex g) (lastIndex g) (perSlotCount g) (totalCount g) (pendingChan g) (pendingWg g) (blockQueue g)
    (callbacks g) (ctxErr g) p (vars g).
Definition set_pending (chan wg : nat) (g : gen) : gen :=
  mkGen (nextIndex g) (lastIndex g) (perSlotCount g) (totalCount g) chan wg (blockQueue g) (callbacks g) (ctxErr g)
    (at_point g) (vars g).
Definition set_queue (n : nat) (g : gen) : gen :=
  mkGen (nextIndex g) (lastIndex g) (perSlotCount g) (totalCount g) (pendingChan g) (pendingWg g) n (callbacks g)
    (ctxErr g) (at_point g) (vars g).
Definition set_callbacks (cbs : list (Tx * bool)) (g : gen) : gen :=
  mkGen (nextIndex g) (lastIndex g) (perSlotCount g) (totalCount g) (pendingChan g) (pendingWg g) (blockQueue g) cbs
    (ctxErr g) (at_point g) (vars g).
Definition set_counts (perSlot total : Z) (g : gen) : gen :=
  mkGen (nextIndex g) (lastIndex g) perSlot total (pendingChan g) (pendingWg g) (blockQueue g) (callbacks g) (ctxErr g)
    (at_point g) (vars g).
Definition set_next (n : Z) (g : gen) : gen :=
  mkGen n (lastIndex g) (perSlotCount g) (totalCount g) (pendingChan g) (pendingWg g) (blockQueue g) (callbacks g)
    (ctxErr g) (at_point g) (vars g).
Definition set_vars (v : A) (g : gen) : gen :=
  mkGen (nextIndex g) (lastIndex g) (perSlotCount g) (totalCount g) (pendingChan g) (pendingWg g) (blockQueue g)
    (callbacks g) (ctxErr g) (at_point g) v.
Definition set_ctxErr (e : error) (g : gen) : gen :=
  mkGen (nextIndex g) (lastIndex g) (perSlotCount g) (totalCount g) (pendingChan g) (pendingWg g) (blockQueue g)
    (callbacks g) (Some e) (at_point g) (vars g).

(** [pendingWg.Add(1)] and [pendingWg.Done()]. *)
Definition wg_add (g : gen) : gen :=
  if hasWaitGroup t then set_pending (pendingChan g) (S (pendingWg g)) g else g.
Definition wg_done (g : gen) : go gen :=
  if hasWaitGroup t then
    match pendingWg g with
    | O => Panic "sync: negative WaitGroup counter"
    | S n => Ret (set_pending (pendingChan g) n g)
    end
  else Ret g.

(** [<-pendingChan] under its test for nil; [None] while it blocks. *)
Definition chan_receive (g : gen) : option gen :=
  if hasChan then
    match pendingChan g with O => None | S n => Some (set_pending n (pendingWg g) g) end
  else Some g.

Definition finish_task (g : gen) : gen :=
  goto (Returned None) (set_vars (afterLoop t (totalCount g) (vars g)) g).

Definition leave_loop (g : gen) : gen :=
  if AwaitReceipt t then goto AwaitingReceipts g else finish_task g.

(** The tests at the end of an iteration. *)
Definition loop_end (g : gen) : gen :=
  if (0 <? lastIndex g) && (lastIndex g <=? nextIndex g) then leave_loop g
  else if (0 <? LimitTotal t) && (LimitTotal t <=? totalCount g) then leave_loop g
  else if (0 <? LimitPerSlot t) && (LimitPerSlot t <=? perSlotCount g) then
    goto AwaitingBlock (set_counts 0 (totalCount g) g)
  else
    match ctxErr g with
    | Some e => goto (Returned (if returnsCtxErr t then Some e else None)) g
    | None => goto AtTop g
    end.

(** One event; [None] when it is not possible in the state (a blocked
    channel operation included). *)
Definition gen_step (e : event) (g : gen) : option (go gen) :=
  match e, at_point g with
  | Acquire, AtTop =>
      if hasChan && (LimitPending t <=? Z.of_nat (pendingChan g)) then None
      else
        let accountIdx := nextIndex g in
        let g := set_next (nextIndex g +u 1) g in
        let g := if hasChan then set_pending (S (pendingChan g)) (pendingWg g) g else g in
        Some (Ret (goto (Generating accountIdx None) (wg_add g)))
  | Launch tx, Generating accountIdx None =>
      Some (Ret (goto (Generating accountIdx (Some tx)) (set_callbacks (callbacks g ++ [(tx, false)]) g)))
  | GenerateReturns (Some _), Generating _ _ =>
      if hasChan then Some (Ret (goto Releasing g))
      else Some (do! g := wg_done g in Ret (loop_end g))
  | GenerateReturns None, Generating _ (Some tx) =>
      Some (Ret (loop_end (set_vars (onSent t tx (vars g))
                             (set_counts (perSlotCount g + 1) (totalCount g + 1) g))))
  | Release, Releasing =>
      g ← chan_receive g; Some (do! g := wg_done g in Ret (loop_end g))
  | BlockEvent, _ =>
      if 0 <? LimitPerSlot t then
        Some (Ret (if (blockQueue g <? 10)%nat then set_queue (S (blockQueue g)) g else g))
      else None
  | NewBlock, AwaitingBlock =>
      match blockQueue g with O => None | S n => Some (Ret (goto AtTop (set_queue n g))) end
  | Waited, AwaitingReceipts =>
      if decide (pendingWg g = O) then Some (Ret (finish_task g)) else None
  | CtxDone, AtTop =>
      if hasChan && bool_decide (is_Some (ctxErr g))
      then Some (Ret (goto (Returned None) (set_next (nextIndex g +u 1) g))) else None
  | CtxDone, AwaitingBlock =>
      if bool_decide (is_Some (ctxErr g)) then Some (Ret (goto (Returned None) g)) else None
  | Cancel err, _ => if ctxErr g is Some _ then None else Some (Ret (set_ctxErr err g))
  | CbReceive i, _ =>
      match callbacks g !! i with
      | Some (tx, false) => g ← chan_receive g; Some (Ret (set_callbacks (<[i := (tx, true)]> (callbacks g)) g))
      | _ => None
      end
  | CbFinish i receipt err, _ =>
      match callbacks g !! i with
      | Some (tx, true) =>
          let g := set_vars (onConfirm t tx receipt err (vars g)) (set_callbacks (delete i (callbacks g)) g) in
          Some (wg_done g)
      | _ => None
      end
  | _, _ => None
  end.

Fixpoint gen_run (es : list event) (g : gen) : option (go gen) :=
  match es with
  | [] => Some (Ret g)
  | e :: es =>
      match gen_step e g with
      | Some (Ret g) => gen_run es g
      | r => r
      end
  end.

(** The head of [Execute]: the range of indexes. *)
Definition gen_start (StartIndex IndexCount : Z) (v : A) : gen :=
  let nextIndex := if 0 <? StartIndex then u64 StartIndex else 0 in
  let lastIndex := if 0 <? IndexCount then nextIndex +u u64 IndexCount else 0 in
  mkGen nextIndex lastIndex 0 0 0 0 0 [] None AtTop v.

(** The send of a transaction was refused by every client: the call fails
    although its callback is started. *)
Definition send_refused (e : event) (g : gen) : bool :=
  match e, at_point g with GenerateReturns (Some _), Generating _ (Some _) => true | _, _ => false end.

Fixpoint sends_accepted (es : list event) (g : gen) : Prop :=
  match es with
  | [] => True
  | e :: es =>
      send_refused e g = false /\
      match gen_step e g with Some (Ret g) => sends_accepted es g | _ => True end
  end.

(** ** Invariants *)

Definition unreceived (g : gen) : nat := length (filterb (fun cb => negb cb.2) (callbacks g)).

(** Does the task's goroutine hold a token that no callback will give back? *)
Definition holding (g : gen) : nat :=
  match at_point g with Generating _ None | Releasing => 1 | _ => 0 end%nat.

Record pending_inv (g : gen) : Prop := {
  pi_chan : if hasChan then pendingChan g = (unreceived g + holding g)%nat else pendingChan g = 0%nat;
  pi_wg : if hasWaitGroup t then pendingWg g = (length (callbacks g) + holding g)%nat else pendingWg g = 0%nat;
  pi_bound : hasChan = true -> Z.of_nat (pendingChan g) <= LimitPending t
}.
End loop.

#[local] Arguments LimitPerSlot {Tx Receipt A} _.
#[local] Arguments LimitTotal {Tx Receipt A} _.
#[local] Arguments LimitPending {Tx Receipt A} _.

(** ** Lemmas *)

(** Go through one step of the loop: the cases of the event and the point. *)
Ltac gen_cases H :=
  unfold gen_step in H; repeat case_match; simplify_option_eq; try discriminate.

Section loop_lemmas.
Context {Tx Receipt A : Type} (t : GenTask (Tx := Tx) (Receipt := Receipt) (A := A)).

Lemma unreceived_launch (g : gen) (tx : Tx) :
  unreceived (set_callbacks (A := A) (callbacks g ++ [(tx, false)]) g) = S (unreceived g).
Proof. unfold unreceived. simpl. rewrite filterb_app, length_app. simpl. lia. Qed.

Lemma filterb_length_delete {B} (p : B -> bool) l i (x : B) :
  l !! i = Some x -> length (filterb p l) = (length (filterb p (delete i l)) + if p x then 1 else 0)%nat.
Proof.
  intros Hi. rewrite delete_take_drop. pose proof (take_drop_middle l i x Hi) as E.
  revert E. generalize (take i l) (drop (S i) l). intros l1 l2 <-.
  rewrite !filterb_app, !length_app, filterb_cons. destruct (p x); simpl; lia.
Qed.

Lemma unreceived_receive (g : gen) i (tx : Tx) :
  callbacks g !! i = Some (tx, false) ->
  unreceived g = S (unreceived (set_callbacks (A := A) (<[i := (tx, true)]> (callbacks g)) g)).
Proof.
  intros Hi. unfold unreceived. simpl.
  rewrite (filterb_length_delete _ (callbacks g) i (tx, false)) by done.
  rewrite (filterb_length_delete _ (<[i:=(tx,true)]> (callbacks g)) i (tx, true)).
  - rewrite !delete_take_drop, take_insert_ge, drop_insert_lt by lia. simpl. lia.
  - apply list_lookup_insert_eq. by eapply lookup_lt_Some.
Qed.

Lemma unreceived_finish (g : gen) i (tx : Tx) :
  callbacks g !! i = Some (tx, true) ->
  unreceived (set_callbacks (A := A) (delete i (callbacks g)) g) = unreceived g /\
  length (callbacks g) = S (length (delete i (callbacks g))).
Proof.
  intros Hi. unfold unreceived. simpl. split.
  - rewrite (filterb_length_delete _ (callbacks g) i (tx, true)) by done. simpl. lia.
  - rewrite length_delete by done. apply lookup_lt_Some in Hi. lia.
Qed.

(** What the end of an iteration leaves alone, and where it can lead. *)
Lemma loop_end_frame (g : gen) :
  pendingChan (loop_end t g) = pendingChan g /\ pendingWg (loop_end t g) = pendingWg g /\
  blockQueue (loop_end t g) = blockQueue g /\ callbacks (loop_end t g) = callbacks g /\
  nextIndex (loop_end t g) = nextIndex g /\ lastIndex (loop_end t g) = lastIndex g /\
  totalCount (loop_end t g) = totalCount g /\ ctxErr (loop_end t g) = ctxErr g /\
  match at_point (loop_end t g) with Generating _ _ | Releasing => False | _ => True end.
Proof. unfold loop_end, leave_loop, finish_task. repeat case_match; done. Qed.

Lemma loop_end_holding (g : gen) : holding (loop_end t g) = 0%nat /\ unreceived (loop_end t g) = unreceived g.
Proof.
  destruct (loop_end_frame g) as (_ & _ & _ & Hc & _ & _ & _ & _ & Hp).
  unfold holding, unreceived. rewrite Hc. by destruct (at_point _) as [| |? [] | | |].
Qed.

(** After an iteration no token is held. *)
Lemma pending_inv_loop_end (g : gen) :
  (if hasChan t then pendingChan g = unreceived g else pendingChan g = 0%nat) ->
  (if hasWaitGroup t then pendingWg g = length (callbacks g) else pendingWg g = 0%nat) ->
  (hasChan t = true -> Z.of_nat (pendingChan g) <= LimitPending t) -> pending_inv t (loop_end t g).
Proof.
  intros Hc Hw Hb. destruct (loop_end_frame g) as (Ec & Ew & _ & Ecb & _).
  destruct (loop_end_holding g) as [Eh Eu].
  split; rewrite ?Ec, ?Ew, ?Ecb, ?Eh, ?Eu, ?Nat.add_0_r; done.
Qed.

Lemma wg_done_spec (g : gen) n :
  (if hasWaitGroup t then pendingWg g = S n else pendingWg g = 0%nat) ->
  wg_done t g = Ret (set_pending (pendingChan g) (if hasWaitGroup t then n else 0%nat) g).
Proof.
  unfold wg_done. destruct (hasWaitGroup t); intros Hn; [by rewrite Hn|].
  destruct g; simpl in *; by subst.
Qed.

(** One step of a run without refused sends keeps the invariant and does not
    panic. *)
Lemma pending_inv_step e (g : gen) r :
  pending_inv t g -> send_refused e g = false -> gen_step t e g = Some r ->
  exists g', r = Ret g' /\ pending_inv t g'.
Proof.
  intros Hinv Hok Hstep. pose proof Hinv as [Hc Hw Hb]. unfold holding in *.
  destruct e as [|tx|[err|]| | | | | |err|i|i receipt err]; simpl in Hstep;
    try match type of Hstep with context [match at_point g with _ => _ end] => destruct (at_point g) eqn:Hp; try done end.
  - (* Acquire *)
    destruct (hasChan t && (LimitPending t <=? Z.of_nat (pendingChan g))) eqn:Hfull; [done|].
    injection Hstep as <-. eexists. split; [reflexivity|]. unfold wg_add.
    assert (hasChan t = true -> Z.of_nat (S (pendingChan g)) <= LimitPending t) as Hroom.
    { intros Hh. rewrite Hh in Hfull. simpl in Hfull. lia. }
    destruct (hasChan t) eqn:Hh, (hasWaitGroup t) eqn:Hg; (split; rewrite ?Hh, ?Hg; unfold holding; simpl; [|lia|]);
      try (unfold unreceived in *; simpl; lia); try done; intros; by apply Hroom.
  - (* Launch *)
    destruct launched; [done|]. simplify_eq. eexists. split; [done|].
    split; unfold holding; simpl; rewrite ?length_app; simpl.
    + change (unreceived (goto (Generating accountIdx (Some tx)) (set_callbacks (callbacks g ++ [(tx, false)]) g)))
        with (unreceived (set_callbacks (callbacks g ++ [(tx, false)]) g)).
      rewrite unreceived_launch. destruct (hasChan t); lia.
    + destruct (hasWaitGroup t); lia.
    + done.
  - (* GenerateReturns with an error *)
    unfold send_refused in Hok. rewrite Hp in Hok. destruct launched; [done|].
    destruct (hasChan t) eqn:Hh; simplify_eq.
    + eexists. split; [done|]. split; unfold holding; simpl; rewrite ?Hh; [exact Hc|exact Hw|exact Hb].
    + rewrite (wg_done_spec g (length (callbacks g))) by (destruct (hasWaitGroup t); lia). simpl.
      eexists. split; [done|]. apply pending_inv_loop_end; simpl; rewrite ?Hh; [done| |done].
      by destruct (hasWaitGroup t).
  - (* GenerateReturns *)
    destruct launched; [|done]. simplify_eq. eexists. split; [done|].
    apply pending_inv_loop_end; simpl; [|destruct (hasWaitGroup t); lia|done].
    change (unreceived _) with (unreceived g). destruct (hasChan t); lia.
  - (* Release *)
    unfold chan_receive in Hstep. destruct (hasChan t) eqn:Hh.
    + destruct (pendingChan g) as [|n] eqn:Hn; [done|]. simpl in Hstep.
      rewrite (wg_done_spec _ (length (callbacks g))) in Hstep by (simpl; destruct (hasWaitGroup t); lia).
      simpl in Hstep. simplify_eq. eexists. split; [done|]. apply pending_inv_loop_end; simpl; rewrite ?Hh.
      * change (n = unreceived g). lia.
      * by destruct (hasWaitGroup t).
      * intros. specialize (Hb eq_refl). lia.
    + simpl in Hstep. rewrite (wg_done_spec _ (length (callbacks g))) in Hstep by (destruct (hasWaitGroup t); lia).
      simpl in Hstep. simplify_eq. eexists. split; [done|]. apply pending_inv_loop_end; simpl; rewrite ?Hh; try done.
      by destruct (hasWaitGroup t).
  - (* BlockEvent *)
    destruct (0 <? LimitPerSlot t); [|done]. injection Hstep as <-. eexists. split; [done|].
    by destruct (blockQueue g <? 10)%nat.
  - (* NewBlock *)
    destruct (blockQueue g); [done|]. injection Hstep as <-. eexists. split; [done|]. by split.
  - (* Waited *)
    destruct (decide _); [|done]. injection Hstep as <-. eexists. split; [done|]. by split.
  - (* CtxDone at the top *)
    destruct (_ && _); [|done]. injection Hstep as <-. eexists. split; [done|]. by split.
  - (* CtxDone awaiting a block *)
    destruct (bool_decide _); [|done]. injection Hstep as <-. eexists. split; [done|]. by split.
  - (* Cancel *)
    destruct (ctxErr g); [done|]. injection Hstep as <-. eexists. split; [done|]. by split.
  - (* CbReceive *)
    destruct (callbacks g !! i) as [[tx [|]]|] eqn:Hi; try done. pose proof (unreceived_receive g i tx Hi) as Hu.
    unfold chan_receive in Hstep. destruct (hasChan t) eqn:Hh.
    + destruct (pendingChan g) as [|n] eqn:Hn; [done|]. simpl in Hstep. injection Hstep as <-.
      eexists. split; [done|].
      split; rewrite ?Hh; unfold holding, unreceived in *; simpl in *; rewrite ?length_insert; [lia|done|].
      intros. specialize (Hb eq_refl). lia.
    + simpl in Hstep. injection Hstep as <-. eexists. split; [done|].
      split; rewrite ?Hh; unfold holding, unreceived in *; simpl in *; rewrite ?length_insert; done.
  - (* CbFinish *)
    destruct (callbacks g !! i) as [[tx [|]]|] eqn:Hi; try done. injection Hstep as <-.
    destruct (unreceived_finish g i tx Hi) as [Hu Hl].
    rewrite (wg_done_spec _ (length (delete i (callbacks g)) + holding g)%nat)
      by (simpl; unfold holding; destruct (hasWaitGroup t); lia).
    eexists. split; [done|].
    split; unfold holding, unreceived in *; simpl in *; [rewrite Hu; done|by destruct (hasWaitGroup t)|done].
Qed.

Lemma pending_inv_start StartIndex IndexCount (v : A) : pending_inv t (gen_start StartIndex IndexCount v).
Proof.
  split; unfold hasChan; simpl; [by destruct (0 <? _)|by destruct (hasWaitGroup t)|].
  intros Hh. lia.
Qed.

Lemma pending_inv_run es (g : gen) r :
  pending_inv t g -> sends_accepted t es g -> gen_run t es g = Some r -> exists g', r = Ret g' /\ pending_inv t g'.
Proof.
  revert g. induction es as [|e es IH]; intros g Hinv Hacc; simpl in *; [intros [= <-]; eauto|].
  destruct Hacc as [Hok Hacc]. destruct (gen_step t e g) as [r'|] eqn:Hs; [|done].
  destruct (pending_inv_step e g r' Hinv Hok Hs) as (g' & -> & Hinv'). by apply IH.
Qed.

(** *** Limits, in every run *)

#[local] Abbreviation ev := (event (Tx := Tx) (Receipt := Receipt)) (only parsing).
#[local] Abbreviation state := (gen (Tx := Tx) (A := A)) (only parsing).

Definition is_acquire (e : ev) : bool := if e is Acquire then true else false.
Definition is_new_block (e : ev) : bool := if e is NewBlock then true else false.
Definition count_events (p : ev -> bool) (es : list ev) : Z := Z.of_nat (length (filterb p es)).

(** Is the loop neither waiting for a block nor left? *)
Definition in_iteration (p : point (Tx := Tx)) : bool :=
  match p with AtTop | Generating _ _ | Releasing => true | _ => false end.

Record limits_inv (start blocks calls : Z) (g : state) : Prop := {
  li_total : 0 < LimitTotal t -> totalCount g <= LimitTotal t /\
    (in_iteration (at_point g) || (if at_point g is AwaitingBlock then true else false) = true ->
     totalCount g < LimitTotal t);
  li_slot : 0 < LimitPerSlot t -> totalCount g <= LimitPerSlot t * (blocks + 1) /\
    (in_iteration (at_point g) = true ->
     perSlotCount g < LimitPerSlot t /\ totalCount g <= LimitPerSlot t * blocks + perSlotCount g);
  li_index : 0 < lastIndex g -> start + calls <= nextIndex g <= lastIndex g /\
    ((if at_point g is AtTop then true else if at_point g is AwaitingBlock then true else false) = true ->
     nextIndex g < lastIndex g);
  li_waiting : at_point g = AwaitingBlock -> perSlotCount g = 0;
  li_range : 0 <= start /\ 0 <= calls /\ lastIndex g < two64
}.

(** The end of an iteration, from what holds before its tests. *)
Lemma limits_inv_loop_end start blocks calls (g : state) :
  (0 < LimitTotal t -> totalCount g <= LimitTotal t) ->
  (0 < LimitPerSlot t -> totalCount g <= LimitPerSlot t * blocks + perSlotCount g /\ perSlotCount g <= LimitPerSlot t) ->
  (0 < lastIndex g -> start + calls <= nextIndex g <= lastIndex g) ->
  0 <= start /\ 0 <= calls /\ lastIndex g < two64 -> limits_inv start blocks calls (loop_end t g).
Proof.
  intros Ht Hs Hi Hr. unfold loop_end, leave_loop, finish_task.
  destruct (0 <? lastIndex g) eqn:H1, (lastIndex g <=? nextIndex g) eqn:H2, (0 <? LimitTotal t) eqn:H3,
    (LimitTotal t <=? totalCount g) eqn:H4, (0 <? LimitPerSlot t) eqn:H5, (LimitPerSlot t <=? perSlotCount g) eqn:H6;
    simpl; repeat case_match; (split; simpl; [lia|intros; split; [|intros ?]; try done; nia|intros; split; [lia|intros ?; try done; lia]|try done|exact Hr]).
Qed.

Lemma wg_done_frame (g g' : state) :
  wg_done t g = Ret g' ->
  totalCount g' = totalCount g /\ perSlotCount g' = perSlotCount g /\ nextIndex g' = nextIndex g /\
  lastIndex g' = lastIndex g /\ at_point g' = at_point g.
Proof. unfold wg_done. repeat case_match; intros; simplify_eq; done. Qed.

Lemma chan_receive_frame (g g' : state) :
  chan_receive t g = Some g' ->
  totalCount g' = totalCount g /\ perSlotCount g' = perSlotCount g /\ nextIndex g' = nextIndex g /\
  lastIndex g' = lastIndex g /\ at_point g' = at_point g.
Proof. unfold chan_receive. repeat case_match; intros; simplify_eq; done. Qed.

Lemma limits_inv_step start blocks calls e (g g' : state) :
  limits_inv start blocks calls g -> gen_step t e g = Some (Ret g') ->
  limits_inv start (blocks + if is_new_block e then 1 else 0) (calls + if is_acquire e then 1 else 0) g'.
Proof.
  intros [Ht Hs Hi Hq Hr] Hstep.
  destruct e as [|tx|[err|]| | | | | |err|i|i receipt err]; simpl in Hstep; rewrite ?Z.add_0_r; simpl;
    try match type of Hstep with context [match at_point g with _ => _ end] => destruct (at_point g) eqn:Hp; try done end.
  - (* Acquire *)
    destruct (_ && _); [done|]. injection Hstep as <-.
    assert (Hn : 0 < lastIndex g -> nextIndex g +u 1 = nextIndex g + 1).
    { intros Hl. apply u64_add_lt; [|lia|]; destruct (Hi Hl) as [? Hlt]; specialize (Hlt eq_refl); go_lia. }
    unfold wg_add. destruct (hasChan t), (hasWaitGroup t); (split; simpl in *; [tauto|tauto| |done|lia]);
      intros Hl; rewrite Hn by done; specialize (Hi Hl); (split; [lia|done]).
  - (* Launch *)
    destruct launched; [done|]. injection Hstep as <-. split; simpl in *; [tauto|tauto|tauto|done|lia].
  - (* GenerateReturns with an error *)
    destruct (hasChan t).
    + injection Hstep as <-. split; simpl in *; [tauto|tauto|tauto|done|lia].
    + destruct (wg_done t g) as [g1| |] eqn:Hw; simpl in Hstep; try done. injection Hstep as <-.
      destruct (wg_done_frame _ _ Hw) as (E1 & E2 & E3 & E4 & _).
      apply limits_inv_loop_end; rewrite ?E1, ?E2, ?E3, ?E4; simpl in *;
        [tauto|intros Hl; specialize (Hs Hl); lia|tauto|done].
  - (* GenerateReturns *)
    destruct launched; [|done]. injection Hstep as <-.
    apply limits_inv_loop_end; simpl in *; [|intros Hl; specialize (Hs Hl); lia|tauto|done].
    intros Hl. destruct (Ht Hl) as [_ Hlt]. specialize (Hlt eq_refl). lia.
  - (* Release *)
    destruct (chan_receive t g) as [g1|] eqn:Hc; [|done]. simpl in Hstep.
    destruct (wg_done t g1) as [g2| |] eqn:Hw; simpl in Hstep; try done. injection Hstep as <-.
    destruct (wg_done_frame _ _ Hw) as (E1 & E2 & E3 & E4 & _).
    destruct (chan_receive_frame _ _ Hc) as (F1 & F2 & F3 & F4 & _).
    apply limits_inv_loop_end; rewrite ?E1, ?E2, ?E3, ?E4, ?F1, ?F2, ?F3, ?F4; simpl in *;
      [tauto|intros Hl; specialize (Hs Hl); lia|tauto|done].
  - (* BlockEvent *)
    destruct (0 <? LimitPerSlot t); [|done]. injection Hstep as <-. destruct (blockQueue g <? 10)%nat; by split.
  - (* NewBlock *)
    destruct (blockQueue g); [done|]. injection Hstep as <-. split; simpl in *; [tauto| |tauto|done|lia].
    intros Hl. specialize (Hs Hl). rewrite Hq by done. split; [lia|]. intros _. lia.
  - (* Waited *)
    destruct (decide _); [|done]. injection Hstep as <-. by split.
  - (* CtxDone at the top *)
    destruct (_ && _); [|done]. injection Hstep as <-.
    split; simpl in *; [intros Hl; split; [tauto|done]|intros Hl; split; [tauto|done]| |done|lia].
    intros Hl. destruct (Hi Hl) as [? Hlt]. specialize (Hlt eq_refl).
    rewrite u64_add_lt; [split; [lia|done]|go_lia|lia|lia].
  - (* CtxDone awaiting a block *)
    destruct (bool_decide _); [|done]. injection Hstep as <-.
    split; simpl in *; try done; intros Hl; [destruct (Ht Hl)|destruct (Hi Hl)]; by split.
  - (* Cancel *)
    destruct (ctxErr g); [done|]. injection Hstep as <-. by split.
  - (* CbReceive *)
    destruct (callbacks g !! i) as [[tx [|]]|]; try done.
    destruct (chan_receive t g) as [g1|] eqn:Hc; [|done]. simpl in Hstep. injection Hstep as <-.
    destruct (chan_receive_frame _ _ Hc) as (F1 & F2 & F3 & F4 & F5).
    split; simpl; rewrite ?F1, ?F2, ?F3, ?F4, ?F5; done.
  - (* CbFinish *)
    destruct (callbacks g !! i) as [[tx [|]]|]; try done. injection Hstep as Hw.
    destruct (wg_done_frame _ _ Hw) as (E1 & E2 & E3 & E4 & E5).
    split; rewrite ?E1, ?E2, ?E3, ?E4, ?E5; simpl; done.
Qed.

Lemma loop_end_lastIndex (g : state) : lastIndex (loop_end t g) = lastIndex g.
Proof. apply loop_end_frame. Qed.

Lemma lastIndex_run es : forall g g' : state, gen_run t es g = Some (Ret g') -> lastIndex g' = lastIndex g.
Proof.
  induction es as [|e es IH]; intros g g' Hrun; simpl in Hrun; [by injection Hrun as <-|].
  destruct (gen_step t e g) as [[g1| |]|] eqn:Hs; try done. rewrite (IH _ _ Hrun). clear -Hs.
  destruct e as [|tx|[err|]| | | | | |err|i|i receipt err]; simpl in Hs;
    try match type of Hs with context [at_point g] => destruct (at_point g); try done end;
    repeat first
      [ progress simplify_eq/=
      | match type of Hs with
        | context [wg_done t ?x] => let E := fresh in destruct (wg_done t x) eqn:E; simpl in Hs; try done;
            apply wg_done_frame in E as (_ & _ & _ & E & _); simpl in E
        | context [chan_receive t ?x] => let E := fresh in destruct (chan_receive t x) eqn:E; simpl in Hs; try done;
            apply chan_receive_frame in E as (_ & _ & _ & E & _)
        end
      | case_match ]; rewrite ?loop_end_lastIndex; try congruence;
    unfold wg_add; by repeat case_match.
Qed.

Lemma limits_inv_run start es : forall blocks calls (g g' : state),
  limits_inv start blocks calls g -> gen_run t es g = Some (Ret g') ->
  limits_inv start (blocks + count_events is_new_block es) (calls + count_events is_acquire es) g'.
Proof.
  induction es as [|e es IH]; intros blocks calls g g' Hinv Hrun; simpl in Hrun.
  - injection Hrun as <-. unfold count_events. by rewrite !filterb_nil, !Z.add_0_r.
  - destruct (gen_step t e g) as [[g1| |]|] eqn:Hs; try done.
    pose proof (IH _ _ _ _ (limits_inv_step _ _ _ _ _ _ Hinv Hs) Hrun) as Hend.
    unfold count_events in *. rewrite !filterb_cons.
    destruct (is_new_block e), (is_acquire e); cbn [length]; rewrite ?Nat2Z.inj_succ, <- ?Z.add_1_l, ?Z.add_0_r in *;
      rewrite ?Z.add_assoc; done.
Qed.

Lemma limits_inv_start StartIndex IndexCount (v : A) :
  is_i64 StartIndex -> is_i64 IndexCount ->
  limits_inv (Z.max 0 StartIndex) 0 0 (gen_start StartIndex IndexCount v).
Proof.
  intros HS HC. unfold gen_start.
  assert ((if 0 <? StartIndex then u64 StartIndex else 0) = Z.max 0 StartIndex) as ->.
  { destruct (0 <? StartIndex) eqn:H0; [rewrite u64_id by go_lia|]; lia. }
  destruct (0 <? IndexCount) eqn:H1.
  - rewrite (u64_id IndexCount), u64_add_lt by go_lia. split; simpl; [lia|lia|lia|done|go_lia].
  - split; simpl; [lia|lia|lia|done|go_lia].
Qed.

(** C21: The limits of the configuration hold in every run, whatever the order of
    the callbacks and however many sends fail: at most [LimitTotal]
    transactions are sent; at most [LimitPerSlot] between two block events,
    so at most that many times one more than the events taken; and with a
    range of indexes the builder is called at most once per index of it. *)
Theorem limits_respected StartIndex IndexCount (v : A) es (g : state) :
  is_i64 StartIndex -> is_i64 IndexCount -> gen_run t es (gen_start StartIndex IndexCount v) = Some (Ret g) ->
  (0 < LimitTotal t -> totalCount g <= LimitTotal t) /\
  (0 < LimitPerSlot t -> totalCount g <= LimitPerSlot t * (count_events is_new_block es + 1)) /\
  (0 < IndexCount -> Z.max 0 StartIndex + count_events is_acquire es <= nextIndex g <= Z.max 0 StartIndex + IndexCount).
Proof.
  intros HS HC Hrun.
  destruct (limits_inv_run _ _ _ _ _ _ (limits_inv_start StartIndex IndexCount v HS HC) Hrun) as [Ht Hs Hi _ _].
  split_and!; [intros Hl; by apply Ht|intros Hl; by apply Hs|]. intros Hc.
  assert (Hlast : lastIndex g = Z.max 0 StartIndex + IndexCount).
  { rewrite (lastIndex_run _ _ _ Hrun). unfold gen_start. simpl.
    destruct (0 <? IndexCount) eqn:E; [|lia]. destruct (0 <? StartIndex) eqn:E'; rewrite ?(u64_id StartIndex), (u64_id IndexCount), u64_add_lt by go_lia; lia. }
  rewrite <- Hlast. apply Hi. lia.
Qed.

(** C20: The tokens are bounded and balanced.  In a run without refused sends the
    loop never panics; at most [LimitPending] callbacks are outstanding; the
    wait group counts exactly the callbacks that have not finished (and the
    call in progress); no callback ever blocks on its token; and the task's
    goroutine is never stuck: a free token lets the next iteration start, a
    held one can be given back, and the final wait ends with the last
    callback. *)
Theorem pending_bounded StartIndex IndexCount (v : A) es r :
  let start := gen_start StartIndex IndexCount v in
  sends_accepted t es start -> gen_run t es start = Some r ->
  exists g : state, r = Ret g /\
    (0 < LimitPending t -> Z.of_nat (unreceived g) <= LimitPending t) /\
    (hasWaitGroup t = true -> pendingWg g = (length (callbacks g) + holding g)%nat) /\
    (forall i tx, callbacks g !! i = Some (tx, false) -> is_Some (gen_step t (CbReceive i) g)) /\
    match at_point g with
    | AtTop => unreceived g = O -> is_Some (gen_step t Acquire g)
    | Releasing => is_Some (gen_step t Release g)
    | AwaitingReceipts => hasWaitGroup t = true -> callbacks g = [] -> is_Some (gen_step t Waited g)
    | _ => True
    end.
Proof.
  intros start Hacc Hrun.
  destruct (pending_inv_run es start r (pending_inv_start _ _ _) Hacc Hrun) as (g & -> & [Hc Hw Hb]).
  assert (Hpos : hasChan t = true <-> 0 < LimitPending t) by (unfold hasChan; lia).
  exists g. split; [done|]. split_and!.
  - intros Hl. apply Hpos in Hl as Hh. specialize (Hb Hh). rewrite Hh in Hc. lia.
  - intros Hg. by rewrite Hg in Hw.
  - intros i tx Hi. simpl. rewrite Hi. unfold chan_receive. destruct (hasChan t); [|by eexists].
    rewrite (unreceived_receive g i tx Hi) in Hc. rewrite Hc. simpl. by eexists.
  - destruct (at_point g) eqn:Hp; try done; unfold holding in *; rewrite Hp in *.
    + intros Hu. simpl. rewrite Hp. rewrite Hu in Hc. destruct (hasChan t) eqn:Hh; simpl; [|by eexists].
      destruct (LimitPending t <=? _) eqn:E; [|by eexists]. destruct Hpos as [Hpos _]. specialize (Hpos eq_refl). lia.
    + simpl. rewrite Hp. unfold chan_receive. destruct (hasChan t); [|by eexists].
      rewrite Nat.add_1_r in Hc. rewrite Hc. by eexists.
    + intros Hg Hcb. simpl. rewrite Hp. rewrite Hg, Hcb in Hw. simpl in Hw. rewrite Hw. by eexists.
Qed.

Lemma loop_end_callbacks (g : state) : callbacks (loop_end t g) = callbacks g.
Proof. apply loop_end_frame. Qed.

Lemma loop_end_wg (g : state) : pendingWg (loop_end t g) = pendingWg g.
Proof. apply loop_end_frame. Qed.

Lemma loop_end_chan (g : state) : pendingChan (loop_end t g) = pendingChan g.
Proof. apply loop_end_frame. Qed.

Lemma gen_run_app es1 es2 (g : state) :
  gen_run t (es1 ++ es2) g = match gen_run t es1 g with Some (Ret g) => gen_run t es2 g | r => r end.
Proof.
  revert g. induction es1 as [|e es1 IH]; intros g; simpl; [done|].
  destruct (gen_step t e g) as [[g1| |]|]; [apply IH|done..].
Qed.

(** No token in the channel, nobody to send one: only block events and the
    cancellation of the context still happen. *)
Lemma stuck_releasing es : forall (g : state) r,
  hasChan t = true -> at_point g = Releasing -> callbacks g = [] -> pendingChan g = O ->
  gen_run t es g = Some r -> exists g' : state, r = Ret g' /\ at_point g' = Releasing.
Proof.
  induction es as [|e es IH]; intros g r Hh Hp Hcb Hch Hrun; simpl in Hrun; [injection Hrun as <-; eauto|].
  assert (Hstep : forall r1, gen_step t e g = Some r1 ->
    exists g1 : state, r1 = Ret g1 /\ at_point g1 = Releasing /\ callbacks g1 = [] /\ pendingChan g1 = O).
  { intros r1. destruct e as [|tx|[err|]| | | | | |err|i|i receipt err]; simpl; rewrite ?Hp, ?Hcb; try done.
    - unfold chan_receive. by rewrite Hh, Hch.
    - destruct (0 <? LimitPerSlot t), (blockQueue g <? 10)%nat; intros [= <-]; eauto 10.
    - destruct (ctxErr g); intros [= <-]; eauto 10. }
  destruct (gen_step t e g) as [r1|] eqn:Hs; [|done].
  destruct (Hstep r1 eq_refl) as (g1 & -> & H1 & H2 & H3). by apply (IH g1).
Qed.

(** A refused send up to the return of its call. *)
Lemma refused_until_error (g : state) (tx : Tx) (e : error) :
  at_point g = AtTop -> callbacks g = [] -> pendingChan g = O -> pendingWg g = O -> hasWaitGroup t = true ->
  exists g1 : state, gen_run t [Acquire; Launch tx; GenerateReturns (Some e)] g = Some (Ret g1) /\
    (if hasChan t then at_point g1 = Releasing else True) /\ callbacks g1 = [(tx, false)] /\
    pendingChan g1 = (if hasChan t then 1%nat else O) /\ pendingWg g1 = (if hasChan t then 1%nat else O).
Proof.
  intros Hp Hcb Hchan Hwg Hg.
  assert (Ha : exists g1 : state, gen_step t Acquire g = Some (Ret g1) /\ at_point g1 = Generating (nextIndex g) None /\
    callbacks g1 = [] /\ pendingChan g1 = (if hasChan t then 1%nat else O) /\ pendingWg g1 = 1%nat).
  { simpl. rewrite Hp, Hchan. destruct (hasChan t) eqn:Hh; cbn [andb].
    - unfold hasChan in Hh. destruct (LimitPending t <=? Z.of_nat 0) eqn:E; [apply Z.leb_le in E; apply Z.ltb_lt in Hh; change (Z.of_nat 0) with 0 in E; lia|].
      unfold wg_add. rewrite Hg. eexists. simpl. by rewrite Hwg.
    - unfold wg_add. rewrite Hg. eexists. simpl. by rewrite Hwg. }
  destruct Ha as (g1 & Ha & Hp1 & Hcb1 & Hch1 & Hwg1). cbn [gen_run]. rewrite Ha.
  cbn [gen_step]. rewrite Hp1. cbn [gen_step at_point goto]. destruct (hasChan t) eqn:Hh.
  - eexists. split; [done|]. simpl. by rewrite Hcb1.
  - unfold wg_done. rewrite Hg. simpl. rewrite Hwg1. simpl. eexists. split; [done|].
    rewrite loop_end_callbacks, loop_end_wg, loop_end_chan. simpl. by rewrite Hcb1.
Qed.

Lemma gen_run_receive (g1 : state) es (tx : Tx) :
  callbacks g1 = [(tx, false)] -> pendingChan g1 = (if hasChan t then 1%nat else O) ->
  gen_run t (CbReceive 0 :: es) g1 =
    gen_run t es (set_callbacks [(tx, true)] (if hasChan t then set_pending 0 (pendingWg g1) g1 else g1)).
Proof.
  intros Hcb Hch. cbn [gen_run gen_step]. rewrite Hcb. cbn. unfold chan_receive. destruct (hasChan t); [rewrite Hch|]; simpl; by rewrite Hcb.
Qed.

(** A transaction that every client refuses gives its token back twice: once
    by the task, which sees the error of the send, and once by the callback,
    which the wallet runs all the same.  With nothing else pending, without a
    pending limit the wait group's counter becomes negative and the program
    panics; with a limit the callback may take the token first, and the task
    is left waiting for it for ever, even when its context is cancelled. *)
Theorem refused_send_released_twice (g : state) (tx : Tx) (e : error) :
  at_point g = AtTop -> callbacks g = [] -> pendingChan g = O -> pendingWg g = O -> hasWaitGroup t = true ->
  let refused := [Acquire; Launch tx; GenerateReturns (Some e); CbReceive 0; CbFinish 0 None None] in
  (LimitPending t <= 0 -> gen_run t refused g = Some (Panic "sync: negative WaitGroup counter")) /\
  (0 < LimitPending t ->
   is_Some (gen_run t refused g) /\
   forall es r, gen_run t (refused ++ es) g = Some r -> exists g' : state, r = Ret g' /\ at_point g' = Releasing).
Proof.
  intros Hp Hcb Hchan Hwg Hg refused. destruct (refused_until_error g tx e) as (g1 & Hrun & Hat & Hcb1 & Hch1 & Hwg1); [done..|].
  assert (Hsplit : forall es, refused ++ es = [Acquire; Launch tx; GenerateReturns (Some e)] ++ CbReceive 0 :: CbFinish 0 None None :: es)
    by done.
  split; intros Hl.
  - assert (Hf : hasChan t = false) by (unfold hasChan; lia). rewrite Hf in *.
    rewrite <- (app_nil_r refused), Hsplit, gen_run_app, Hrun.
    rewrite (gen_run_receive g1 _ tx); [|done|by rewrite Hf, Hch1]. rewrite Hf. simpl. unfold wg_done. rewrite Hg. simpl. by rewrite Hwg1.
  - assert (Hf : hasChan t = true) by (unfold hasChan; lia). rewrite Hf in *.
    assert (Hall : forall es, gen_run t (refused ++ es) g = gen_run t es
      (set_pending 0 0 (set_vars (onConfirm t tx None None (vars g1)) (set_callbacks [] (set_callbacks [(tx, true)] (set_pending 0 1 g1)))))).
    { intros es. rewrite Hsplit, gen_run_app, Hrun, (gen_run_receive g1 _ tx); [|done|by rewrite Hf, Hch1].
      rewrite Hf, Hwg1. simpl. unfold wg_done. by rewrite Hg. }
    split; [specialize (Hall []); rewrite app_nil_r in Hall; by rewrite Hall|].
    intros es r. rewrite Hall. by apply stuck_releasing.
Qed.

(** *** What happened to every transaction *)

Definition in_flight (g : state) : list Tx :=
  match at_point g with Generating _ (Some tx) => [tx] | _ => [] end.

(** A property of the task's variables, of the finished callbacks (with the
    receipts they were given) and of the sent transactions, that the callback
    and the branch of a sent transaction preserve. *)
Definition kept (P : list (Tx * option Receipt) -> list Tx -> A -> Prop) : Prop :=
  (forall f s v tx receipt err, P f s v -> P (f ++ [(tx, receipt)]) s (onConfirm t tx receipt err v)) /\
  (forall f s v tx, P f s v -> P f (s ++ [tx]) (onSent t tx v)).

Definition returned (g : state) : bool := if at_point g is Returned _ then true else false.

Definition accounted (P : list (Tx * option Receipt) -> list Tx -> A -> Prop) (g : state) : Prop :=
  returned g = false -> exists f s, P f s (vars g) /\ totalCount g = Z.of_nat (length s) /\
    f.*1 ++ (callbacks g).*1 ≡ₚ s ++ in_flight g.

Lemma accounted_loop_end P (g : state) :
  (exists f s, P f s (vars g) /\ totalCount g = Z.of_nat (length s) /\ f.*1 ++ (callbacks g).*1 ≡ₚ s) ->
  accounted P (loop_end t g).
Proof.
  intros (f & s & HP & Hn & Hperm) Hret. exists f, s. revert Hret.
  unfold loop_end, leave_loop, finish_task, returned, in_flight.
  repeat case_match; simpl in *; try done; intros _; by rewrite app_nil_r.
Qed.

Lemma wg_done_vars (g g' : state) :
  wg_done t g = Ret g' ->
  vars g' = vars g /\ totalCount g' = totalCount g /\ callbacks g' = callbacks g /\ at_point g' = at_point g.
Proof. unfold wg_done. repeat case_match; intros; simplify_eq; done. Qed.

Lemma chan_receive_vars (g g' : state) :
  chan_receive t g = Some g' ->
  vars g' = vars g /\ totalCount g' = totalCount g /\ callbacks g' = callbacks g /\ at_point g' = at_point g.
Proof. unfold chan_receive. repeat case_match; intros; simplify_eq; done. Qed.

Lemma returned_step e (g g' : state) :
  returned g = true -> gen_step t e g = Some (Ret g') -> returned g' = true.
Proof.
  unfold returned. intros Hret Hstep. destruct (at_point g) as [| | | | |err0] eqn:Hp; try done.
  destruct e as [|tx|[err|]| | | | | |err|i|i receipt err]; simpl in Hstep; rewrite ?Hp in Hstep; try done.
  - destruct (0 <? LimitPerSlot t); [|done]. injection Hstep as <-.
    destruct (blockQueue g <? 10)%nat; simpl; by rewrite Hp.
  - destruct (ctxErr g); [done|]. injection Hstep as <-. simpl. by rewrite Hp.
  - destruct (callbacks g !! i) as [[tx [|]]|]; try done.
    destruct (chan_receive t g) as [g1|] eqn:Hc; [|done]. simpl in Hstep. injection Hstep as <-.
    apply chan_receive_vars in Hc as (_ & _ & _ & E). simpl. by rewrite E, Hp.
  - destruct (callbacks g !! i) as [[tx [|]]|]; try done. injection Hstep as Hw.
    apply wg_done_vars in Hw as (_ & _ & _ & E). rewrite E. simpl. by rewrite Hp.
Qed.

Lemma accounted_step P e (g g' : state) :
  kept P -> accounted P g -> send_refused e g = false -> gen_step t e g = Some (Ret g') -> accounted P g'.
Proof.
  intros [Hconf Hsent] Hacc Hok Hstep.
  destruct (returned g) eqn:Hret.
  { assert (returned g' = true) as Hr by (by eapply returned_step). unfold accounted. by rewrite Hr. }
  destruct (Hacc Hret) as (f & s & HP & Hn & Hperm). unfold in_flight in Hperm.
  destruct e as [|tx|[err|]| | | | | |err|i|i receipt err]; simpl in Hstep;
    try match type of Hstep with context [match at_point g with _ => _ end] => destruct (at_point g) eqn:Hp; try done end.
  - (* Acquire *)
    destruct (_ && _); [done|]. injection Hstep as <-. intros _. exists f, s. unfold wg_add.
    by destruct (hasChan t), (hasWaitGroup t).
  - (* Launch *)
    destruct launched; [done|]. injection Hstep as <-. intros _. exists f, s. split_and!; [done..|].
    unfold in_flight. simpl. rewrite fmap_app, app_assoc, Hperm, app_nil_r. done.
  - (* GenerateReturns with an error *)
    unfold send_refused in Hok. rewrite Hp in Hok. destruct launched; [done|].
    rewrite app_nil_r in Hperm. destruct (hasChan t).
    + injection Hstep as <-. intros _. exists f, s. unfold in_flight. simpl. by rewrite app_nil_r.
    + destruct (wg_done t g) as [g1| |] eqn:Hw; simpl in Hstep; try done. injection Hstep as <-.
      apply wg_done_vars in Hw as (E1 & E2 & E3 & E4). apply accounted_loop_end.
      exists f, s. by rewrite E1, E2, E3.
  - (* GenerateReturns *)
    destruct launched as [tx|]; [|done]. injection Hstep as <-. apply accounted_loop_end.
    exists f, (s ++ [tx]). simpl. split_and!; [by apply Hsent| |done].
    rewrite length_app, Nat2Z.inj_add. simpl. lia.
  - (* Release *)
    destruct (chan_receive t g) as [g1|] eqn:Hc; [|done]. simpl in Hstep.
    destruct (wg_done t g1) as [g2| |] eqn:Hw; simpl in Hstep; try done. injection Hstep as <-.
    apply wg_done_vars in Hw as (E1 & E2 & E3 & E4). apply chan_receive_vars in Hc as (F1 & F2 & F3 & F4).
    apply accounted_loop_end. rewrite app_nil_r in Hperm.
    exists f, s. by rewrite E1, E2, E3, F1, F2, F3.
  - (* BlockEvent *)
    destruct (0 <? LimitPerSlot t); [|done]. injection Hstep as <-. intros _. exists f, s.
    by destruct (blockQueue g <? 10)%nat.
  - destruct (blockQueue g); [done|]. injection Hstep as <-. intros _. by exists f, s.
  - (* Waited *)
    destruct (decide _); [|done]. by injection Hstep as <-.
  - destruct (_ && _); [|done]. injection Hstep as <-. intros _. by exists f, s.
  - destruct (bool_decide _); [|done]. injection Hstep as <-. intros _. by exists f, s.
  - destruct (ctxErr g); [done|]. injection Hstep as <-. intros _. by exists f, s.
  - (* CbReceive *)
    destruct (callbacks g !! i) as [[tx [|]]|] eqn:Hi; try done.
    destruct (chan_receive t g) as [g1|] eqn:Hc; [|done]. simpl in Hstep. injection Hstep as <-.
    apply chan_receive_vars in Hc as (F1 & F2 & F3 & F4). intros _. exists f, s. unfold in_flight. simpl.
    rewrite F1, F2, F3, F4, list_fmap_insert, list_insert_id; [done|]. by rewrite list_lookup_fmap, Hi.
  - (* CbFinish *)
    destruct (callbacks g !! i) as [[tx [|]]|] eqn:Hi; try done. injection Hstep as Hw.
    apply wg_done_vars in Hw as (E1 & E2 & E3 & E4). simpl in *. intros _. exists (f ++ [(tx, receipt)]), s.
    unfold in_flight. rewrite E1, E2, E3, E4. split_and!; [by apply Hconf|done|].
    rewrite <- Hperm, fmap_app, <- app_assoc. f_equiv. simpl.
    pose proof (delete_Permutation (callbacks g) i (tx, true) Hi) as Hd. apply (fmap_Permutation fst) in Hd.
    symmetry. exact Hd.
Qed.

Lemma accounted_run P es : forall g g' : state,
  kept P -> accounted P g -> sends_accepted t es g -> gen_run t es g = Some (Ret g') -> accounted P g'.
Proof.
  induction es as [|e es IH]; intros g g' Hk Hacc Hok Hrun; simpl in *; [by injection Hrun as <-|].
  destruct Hok as [Hok Hrest]. destruct (gen_step t e g) as [[g1| |]|] eqn:Hs; try done.
  eapply IH; [done| |done..]. by eapply accounted_step.
Qed.

(** When the final wait is over, every sent transaction has had its callback. *)
Lemma awaited_all P StartIndex IndexCount (v : A) es (g g' : state) :
  kept P -> P [] [] v -> hasWaitGroup t = true ->
  sends_accepted t es (gen_start StartIndex IndexCount v) ->
  gen_run t es (gen_start StartIndex IndexCount v) = Some (Ret g) ->
  gen_step t Waited g = Some (Ret g') ->
  exists f s v', P f s v' /\ f.*1 ≡ₚ s /\ totalCount g' = Z.of_nat (length s) /\
    vars g' = afterLoop t (totalCount g') v' /\ at_point g' = Returned None.
Proof.
  intros Hk H0 Hg Hok Hrun Hw.
  destruct (pending_inv_run es _ _ (pending_inv_start _ _ _) Hok Hrun) as (g2 & [= <-] & [_ Hwg _]).
  assert (accounted P (gen_start StartIndex IndexCount v)) as Hacc by (intros _; by exists [], []).
  simpl in Hw. destruct (at_point g) eqn:Hp; try done.
  destruct (accounted_run P es _ _ Hk Hacc Hok Hrun) as (f & s & HP & Hn & Hperm); [by unfold returned; rewrite Hp|]. destruct (decide (pendingWg g = 0%nat)) as [Hz|]; [|done].
  injection Hw as <-. exists f, s, (vars g). simpl.
  rewrite Hg, Hz in Hwg. destruct (callbacks g) eqn:Hcb; [|done].
  unfold in_flight in Hperm. rewrite Hp, !app_nil_r in Hperm. done.
Qed.
End loop_lemmas.

(** ** Properties at concrete inputs *)

(** A task that may send 3 transactions, 2 per block, with 1 outstanding. *)
Definition ex_task : GenTask (Tx := nat) (Receipt := bool) (A := unit) := {|
  LimitPerSlot := 2; LimitTotal := 3; LimitPending := 1; AwaitReceipt := true; hasWaitGroup := true;
  returnsCtxErr := true; onConfirm := fun _ _ _ v => v; onSent := fun _ v => v; afterLoop := fun _ v => v |}.
Definition ex_send (tx : nat) : list (event (Tx := nat) (Receipt := bool)) :=
  [Acquire; Launch tx; GenerateReturns None; CbReceive 0; CbFinish 0 (Some true) None].
Definition ex_events : list (event (Tx := nat) (Receipt := bool)) :=
  ex_send 10 ++ [Acquire; GenerateReturns (Some "no client"%string); Release] ++ ex_send 11 ++ [BlockEvent; NewBlock] ++ ex_send 12.

Lemma limits_respected_witness :
  exists g, gen_run ex_task ex_events (gen_start 5 4 tt) = Some (Ret g) /\
    (0 < LimitTotal ex_task -> totalCount g <= LimitTotal ex_task) /\
    (0 < LimitPerSlot ex_task -> totalCount g <= LimitPerSlot ex_task * (count_events is_new_block ex_events + 1)) /\
    (0 < 4 -> Z.max 0 5 + count_events is_acquire ex_events <= nextIndex g <= Z.max 0 5 + 4).
Proof.
  eexists. split; [vm_compute; reflexivity|].
  apply (limits_respected ex_task 5 4 tt ex_events); [go_lia|go_lia|vm_compute; reflexivity].
Defined.

Lemma pending_bounded_witness :
  exists r g, gen_run ex_task ex_events (gen_start 5 4 tt) = Some r /\ r = Ret g /\
    (0 < LimitPending ex_task -> Z.of_nat (unreceived g) <= LimitPending ex_task).
Proof.
  assert (sends_accepted ex_task ex_events (gen_start 5 4 tt)) as Hacc by (vm_compute; repeat split; reflexivity).
  destruct (gen_run ex_task ex_events (gen_start 5 4 tt)) as [r|] eqn:Hrun; [|vm_compute in Hrun; discriminate].
  destruct (pending_bounded ex_task 5 4 tt ex_events r Hacc Hrun) as (g & Hr & Hb & _).
  exists r, g. exact (conj eq_refl (conj Hr Hb)).
Defined.

Lemma refused_send_released_twice_witness :
  let g := gen_start 5 4 tt in
  let refused : list (event (Tx := nat) (Receipt := bool)) :=
    [Acquire; Launch 10%nat; GenerateReturns (Some "refused"%string); CbReceive 0; CbFinish 0 None None] in
  is_Some (gen_run ex_task refused g) /\
  exists g', gen_run ex_task (refused ++ [Cancel "context canceled"%string]) g = Some (Ret g') /\ at_point g' = Releasing.
Proof.
  intros g refused.
  destruct (refused_send_released_twice ex_task (gen_start 5 4 tt) 10%nat "refused"%string eq_refl eq_refl eq_refl eq_refl eq_refl)
    as [_ Hstuck].
  destruct (Hstuck eq_refl) as [Hsome Hes]. split; [exact Hsome|].
  destruct (gen_run ex_task (refused ++ [Cancel "context canceled"%string]) g) as [r|] eqn:Hrun;
    [|vm_compute in Hrun; discriminate].
  destruct (Hes [Cancel "context canceled"%string] r Hrun) as (g' & Hr & Hp). exists g'. rewrite Hr. exact (conj eq_refl Hp).
Defined.
