(* ===== verification/GenTasks.v ===== *)
(** * The transaction generator tasks

    tasks/generate_eoa_transactions, generate_blob_transactions,
    generate_deposits, generate_consolidations and
    generate_withdrawal_requests: what each puts into a transaction, the
    client and wallet it uses, its callback and its verdict.  The loop they
    share is in GenLoop.v; a call of a builder gives the events of that loop
    ([call_events]).  go-ethereum's transactions, random source and contract
    binding, and the BLS, SSZ and key derivation libraries are parameters. *)

From Stdlib Require Import Strings.Byte.
From S2P Require Import Prelude Vars Db Scheduler Wallet WalletPool BlobTx GenLoop.

#[local] Open Scope string_scope.
#[local] Open Scope list_scope.
Open Scope Z_scope.

(** ** Transactions *)

(** [ethtypes.SetCodeAuthorization], with its signature once there is one. *)
Record SetCodeAuthorization := mkAuthorization {
  sa_ChainID : Z; sa_Address : Address; sa_Nonce : Z; sa_signature : option bytes }.

(** [ethtypes.TxData]; amounts and fees are [big.Int]. *)
Inductive TxData :=
  | LegacyTx (Nonce GasPrice Gas : Z) (To : option Address) (Value : Z) (Data : bytes)
  | DynamicFeeTx (ChainID Nonce GasTipCap GasFeeCap Gas : Z) (To : option Address) (Value : Z) (Data : bytes)
  | BlobTransaction (ChainID Nonce BlobFeeCap GasTipCap GasFeeCap Gas : Z) (To : Address) (Value : Z) (Data : bytes)
      (BlobHashes : list bytes) (Sidecar : BlobTxSidecar)
  | SetCodeTx (ChainID Nonce GasTipCap GasFeeCap Gas : Z) (To : Address) (Value : Z) (Data : bytes)
      (AuthList : list SetCodeAuthorization).

Definition data_Nonce (d : TxData) : Z :=
  match d with
  | LegacyTx n _ _ _ _ _ | DynamicFeeTx _ n _ _ _ _ _ _ | BlobTransaction _ n _ _ _ _ _ _ _ _ _
  | SetCodeTx _ n _ _ _ _ _ _ _ => n
  end.
Definition data_Value (d : TxData) : Z :=
  match d with
  | LegacyTx _ _ _ _ v _ | DynamicFeeTx _ _ _ _ _ _ v _ | BlobTransaction _ _ _ _ _ _ _ v _ _ _
  | SetCodeTx _ _ _ _ _ _ v _ _ => v
  end.

Class GethTx `{types : EthTypes} := {
  geth_NewTx : TxData -> Tx;
  geth_NewTx_Nonce : forall d, Tx_Nonce (geth_NewTx d) = data_Nonce d;
  geth_NewTx_Value : forall d, Tx_Value (geth_NewTx d) = data_Value d
}.

(** What the random source answers: an address, and [rand.Int] for a
    positive bound (for another one it panics). *)
Record randomness := mkRandom { rnd_address : Address; rnd_Int : Z -> result Z }.

Definition rand_Int (rnd : randomness) (max : Z) : go (result Z) :=
  if max <=? 0 then Panic "crypto/rand: argument to Int is <= 0" else Ret (rnd_Int rnd max).

(** [txAmount]: the configured amount, or a random one below it. *)
Definition tx_amount (rnd : randomness) (RandomAmount : bool) (Amount : Z) : go Z :=
  if RandomAmount then do! n := rand_Int rnd Amount in Ret (match n with Ok n => n | Err _ => Amount end)
  else Ret Amount.

(** ** A call of a builder, as the loop sees it *)

(** Not sent at all, refused by every client, or sent. *)
Inductive call_result {Tx : Type} :=
  | NotSent (e : error)
  | Refused (tx : Tx) (e : error)
  | Sent (tx : Tx).
Arguments call_result Tx : clear implicits.

Definition call_events {Tx Receipt : Type} (r : call_result Tx) : list (event (Tx := Tx) (Receipt := Receipt)) :=
  match r with
  | NotSent e => [GenerateReturns (Some e)]
  | Refused tx e => [Launch tx; GenerateReturns (Some e)]
  | Sent tx => [Launch tx; GenerateReturns None]
  end.

(** [SendTransaction] with a callback. *)
Definition send_tx {Tx C} (clients : list C) (offset : Z) (send : C -> Tx -> option error) (tx : Tx) : call_result Tx :=
  match (send_first clients offset (fun c => send c tx)).2 with None => Sent tx | Some e => Refused tx e end.

(** The clients to send to: the ready ones, or those the patterns select
    (both in the order the pool gave them). *)
Definition select_clients {C} (clientPattern excludeClientPattern : string) (ready matched : list C) : result (list C) :=
  let! clients :=
    if bool_decide (clientPattern = "") && bool_decide (excludeClientPattern = "") then Ok ready
    else match matched with [] => Err ("no client found with pattern " +:+ clientPattern) | _ => Ok matched end in
  match clients with [] => Err "no ready clients available" | _ => Ok clients end.

(** [strings.ToLower] on the ASCII letters, and [strings.Contains]. *)
Definition lower_char (c : Ascii.ascii) : Ascii.ascii :=
  let n := Ascii.nat_of_ascii c in
  if (65 <=? Z.of_nat n) && (Z.of_nat n <=? 90) then Ascii.ascii_of_nat (n + 32) else c.
Fixpoint ToLower (s : string) : string :=
  match s with EmptyString => EmptyString | String c s => String (lower_char c) (ToLower s) end.
Definition Contains (s sub : string) : bool := if String.index 0 sub s is Some _ then true else false.

Section wallets.
Context `{types : EthTypes} `{geth : !GethTx}.
#[local] Existing Instance types.

(** [BuildTransaction] with a builder that may panic; [None] while it waits
    for the state of the wallet. *)
Definition build_tx (buildFn : Z -> go TxData) (ctxErr : option error) (w : Wallet) : Wallet * option (go (result Tx)) :=
  match AwaitReady ctxErr w with
  | None => (w, None)
  | Some (Some e) => (w, Some (Ret (Err e)))
  | Some None =>
      match buildFn (pendingNonce w) with
      | Panic p => (w, Some (Panic p))
      | Fail e => (w, Some (Ret (Err e)))
      | Ret d =>
          let '(w, r) := BuildTransaction ctxErr (fun _ => Ok (geth_NewTx d)) w in
          (w, Ret <$> r)
      end
  end.

(** The wallet of a task, or its pool of child wallets. *)
Record senders := mkSenders {
  s_wallets : gmap Address Wallet;
  s_wallet : option Address;
  s_pool : option WalletPool }.

Definition with_wallet (a : Address) (w : Wallet) (s : senders) : senders :=
  mkSenders (<[a := w]> (s_wallets s)) (s_wallet s) (s_pool s).

Definition next_sender (s : senders) : go (senders * Address) :=
  match s_wallet s, s_pool s with
  | Some a, _ => Ret (s, a)
  | None, Some pool =>
      do! p := GetNextChildWallet pool in
      let '(pool, a) := p in
      Ret (mkSenders (s_wallets s) None (Some pool), a)
  | None, None => Panic "nil pointer dereference"
  end.

(** ** generate_eoa_transactions *)

Record EoaConfig := mkEoaConfig {
  eoa_LimitPerBlock : Z; eoa_LimitTotal : Z; eoa_LimitPending : Z;
  eoa_PrivateKey : string; eoa_ChildWallets : Z; eoa_WalletSeed : string;
  eoa_RefillPendingLimit : Z; eoa_RefillFeeCap : Z; eoa_RefillTipCap : Z; eoa_RefillAmount : Z; eoa_RefillMinBalance : Z;
  eoa_LegacyTxType : bool; eoa_FeeCap : Z; eoa_TipCap : Z; eoa_GasLimit : Z;
  eoa_TargetAddress : string; eoa_RandomTarget : bool; eoa_ContractDeployment : bool; eoa_CallData : string;
  eoa_RandomAmount : bool; eoa_Amount : Z;
  eoa_AwaitReceipt : bool; eoa_FailOnReject : bool; eoa_FailOnSuccess : bool;
  eoa_ClientPattern : string; eoa_ExcludeClientPattern : string }.

Definition eoa_DefaultConfig : EoaConfig :=
  mkEoaConfig 0 0 0 "" 0 "" 200 500000000000 1000000000 1000000000000000000 500000000000000000
    false 100000000000 1000000000 50000 "" false false "" false 0 false false false "" "".

Definition eoa_Validate (c : EoaConfig) : option error :=
  if (eoa_LimitPerBlock c =? 0) && (eoa_LimitTotal c =? 0) && (eoa_LimitPending c =? 0)
  then Some "either limitPerBlock or limitTotal or limitPending must be set"
  else if bool_decide (eoa_PrivateKey c = "") then Some "privateKey must be set"
  else None.

(** The function passed to [BuildTransaction]: [targetAddr] and
    [transactionData] as decoded by [LoadConfig]. *)
Definition eoa_buildTx (c : EoaConfig) (targetAddr : Address) (transactionData : option bytes) (chainID : Z)
    (rnd : randomness) (txWallet : Address) (nonce : Z) : go TxData :=
  let toAddr :=
    if eoa_ContractDeployment c then None
    else if eoa_RandomTarget c then Some (rnd_address rnd)
    else if bool_decide (eoa_TargetAddress c = "") then Some txWallet
    else Some targetAddr in
  do! txAmount := tx_amount rnd (eoa_RandomAmount c) (eoa_Amount c) in
  let txData := default [] transactionData in
  Ret (if eoa_LegacyTxType c
       then LegacyTx nonce (eoa_FeeCap c) (eoa_GasLimit c) toAddr txAmount txData
       else DynamicFeeTx chainID nonce (eoa_TipCap c) (eoa_FeeCap c) (eoa_GasLimit c) toAddr txAmount txData).

(** [generateTransaction]; [None] while the wallet is not ready. *)
Definition eoa_generateTransaction {C} (c : EoaConfig) (targetAddr : Address) (transactionData : option bytes)
    (chainID : Z) (rnd : randomness) (ready matched : list C) (send : C -> Tx -> option error) (ctxErr : option error)
    (transactionIdx : Z) (s : senders) : option (go (senders * call_result Tx)) :=
  match next_sender s with
  | Fail e => Some (Fail e)
  | Panic p => Some (Panic p)
  | Ret (s, a) =>
      let '(w, r) := build_tx (eoa_buildTx c targetAddr transactionData chainID rnd a) ctxErr (get_wallet (s_wallets s) a) in
      let s := with_wallet a w s in
      match r with
      | None => None
      | Some (Panic p) => Some (Panic p)
      | Some (Fail e) => Some (Fail e)
      | Some (Ret (Err e)) => Some (Ret (s, NotSent e))
      | Some (Ret (Ok tx)) =>
          match select_clients (eoa_ClientPattern c) (eoa_ExcludeClientPattern c) ready matched with
          | Err e => Some (Ret (s, NotSent e))
          | Ok clients =>
              match send_tx clients transactionIdx send tx with
              | Refused tx e =>
                  let w := if Contains (ToLower e) "nonce" then ResyncState w else w in
                  Some (Ret (with_wallet a w s, Refused tx e))
              | r => Some (Ret (s, r))
              end
          end
      end
  end.

(** The counters of [Execute] and the last result that was set. *)
Record eoa_vars := mkEoaVars {
  sucessCount : Z; revertCount : Z; unknownCount : Z; eoa_result : option TaskResult }.

Definition eoa_onConfirm (tx : Tx) (receipt : option Receipt) (err : option error) (v : eoa_vars) : eoa_vars :=
  match receipt with
  | Some receipt =>
      if Receipt_Status receipt =? 0
      then mkEoaVars (sucessCount v) (revertCount v + 1) (unknownCount v) (eoa_result v)
      else mkEoaVars (sucessCount v + 1) (revertCount v) (unknownCount v) (eoa_result v)
  | None => mkEoaVars (sucessCount v) (revertCount v) (unknownCount v + 1) (eoa_result v)
  end.

Definition eoa_afterLoop (c : EoaConfig) (totalCount : Z) (v : eoa_vars) : eoa_vars :=
  let set (r : TaskResult) := mkEoaVars (sucessCount v) (revertCount v) (unknownCount v) (Some r) in
  if eoa_FailOnSuccess c && (0 <? sucessCount v) then set TaskResultFailure
  else if eoa_FailOnReject c && (0 <? revertCount v) then set TaskResultFailure
  else if totalCount =? 0 then set TaskResultFailure
  else v.

Definition eoa_task (c : EoaConfig) : GenTask (Tx := Tx) (Receipt := Receipt) (A := eoa_vars) := {|
  LimitPerSlot := eoa_LimitPerBlock c; LimitTotal := eoa_LimitTotal c; LimitPending := eoa_LimitPending c;
  AwaitReceipt := eoa_AwaitReceipt c; hasWaitGroup := true; returnsCtxErr := true;
  onConfirm := eoa_onConfirm; onSent := fun _ v => v; afterLoop := eoa_afterLoop c |}.

Definition eoa_start : gen (Tx := Tx) (A := eoa_vars) := gen_start 0 0 (mkEoaVars 0 0 0 None).

(** ** generate_blob_transactions *)

Record BlobConfig := mkBlobConfig {
  blob_LimitPerBlock : Z; blob_LimitTotal : Z; blob_LimitPending : Z;
  blob_PrivateKey : string; blob_ChildWallets : Z; blob_WalletSeed : string;
  blob_RefillPendingLimit : Z; blob_RefillFeeCap : Z; blob_RefillTipCap : Z; blob_RefillAmount : Z;
  blob_RefillMinBalance : Z;
  blob_BlobSidecars : Z; blob_BlobFeeCap : Z; blob_FeeCap : Z; blob_TipCap : Z; blob_GasLimit : Z;
  blob_TargetAddress : string; blob_RandomTarget : bool; blob_CallData : string; blob_BlobData : string;
  blob_RandomAmount : bool; blob_Amount : Z;
  blob_ClientPattern : string; blob_ExcludeClientPattern : string }.

Definition blob_DefaultConfig : BlobConfig :=
  mkBlobConfig 0 0 0 "" 0 "" 200 500000000000 1000000000 1000000000000000000 500000000000000000
    1 10000000000 100000000000 2000000000 100000 "" false "" "" false 0 "" "".

Definition blob_Validate (c : BlobConfig) : option error :=
  if (blob_LimitPerBlock c =? 0) && (blob_LimitTotal c =? 0) && (blob_LimitPending c =? 0)
  then Some "either limitPerBlock or limitTotal or limitPending must be set"
  else if bool_decide (blob_PrivateKey c = "") then Some "privateKey must be set"
  else None.

(** [uint256.MustFromBig] *)
Definition MustFromBig (z : Z) : go Z := if (0 <=? z) && (z <? 2 ^ 256) then Ret z else Panic "overflow".

Section blob_task.
Context `{kzg : Kzg} `{src : BlobSources}.

Definition blob_refs (c : BlobConfig) : list string :=
  let blobRef := if bool_decide (blob_BlobData c = "") then "identifier,random" else blob_BlobData c in
  replicate (Z.to_nat (blob_BlobSidecars c)) blobRef.

Definition blob_buildTx (c : BlobConfig) (targetAddr : Address) (transactionData : option bytes) (chainID : Z)
    (rnd : randomness) (sidecar : list bytes * BlobTxSidecar) (txWallet : Address) (nonce : Z) : go TxData :=
  let toAddr :=
    if blob_RandomTarget c then rnd_address rnd
    else if bool_decide (blob_TargetAddress c = "") then txWallet
    else targetAddr in
  do! txAmount := tx_amount rnd (blob_RandomAmount c) (blob_Amount c) in
  let txData := default [] transactionData in
  do! chainID := MustFromBig chainID in
  do! blobFeeCap := MustFromBig (blob_BlobFeeCap c) in
  do! tipCap := MustFromBig (blob_TipCap c) in
  do! feeCap := MustFromBig (blob_FeeCap c) in
  do! txAmount := MustFromBig txAmount in
  Ret (BlobTransaction chainID nonce blobFeeCap tipCap feeCap (blob_GasLimit c) toAddr txAmount txData
         sidecar.1 sidecar.2).

Definition blob_generateTransaction {C} (c : BlobConfig) (targetAddr : Address) (transactionData : option bytes)
    (chainID : Z) (rnd : randomness) (ready matched : list C) (send : C -> Tx -> option error) (ctxErr : option error)
    (transactionIdx : Z) (s : senders) : option (go (senders * call_result Tx)) :=
  match next_sender s with
  | Fail e => Some (Fail e)
  | Panic p => Some (Panic p)
  | Ret (s, a) =>
      match GenerateBlobSidecar (blob_refs c) transactionIdx 0 with
      | Panic p => Some (Panic p)
      | Fail e => Some (Ret (s, NotSent e))
      | Ret sidecar =>
          let '(w, r) := build_tx (blob_buildTx c targetAddr transactionData chainID rnd sidecar a) ctxErr
                           (get_wallet (s_wallets s) a) in
          let s := with_wallet a w s in
          match r with
          | None => None
          | Some (Panic p) => Some (Panic p)
          | Some (Fail e) => Some (Fail e)
          | Some (Ret (Err e)) => Some (Ret (s, NotSent e))
          | Some (Ret (Ok tx)) =>
              match select_clients (blob_ClientPattern c) (blob_ExcludeClientPattern c) ready matched with
              | Err e => Some (Ret (s, NotSent e))
              | Ok clients => Some (Ret (s, send_tx clients transactionIdx send tx))
              end
          end
      end
  end.
End blob_task.

(** The loop has no wait group, its callback only logs, and nothing follows. *)
Definition blob_task (c : BlobConfig) : GenTask (Tx := Tx) (Receipt := Receipt) (A := unit) := {|
  LimitPerSlot := blob_LimitPerBlock c; LimitTotal := blob_LimitTotal c; LimitPending := blob_LimitPending c;
  AwaitReceipt := false; hasWaitGroup := false; returnsCtxErr := true;
  onConfirm := fun _ _ _ v => v; onSent := fun _ v => v; afterLoop := fun _ v => v |}.

(** ** Validator keys and the beacon chain's libraries *)

Record Validator := mkValidator {
  v_Index : Z; v_Status : string; v_PublicKey : bytes; v_WithdrawalCredentials : bytes; v_ExitEpoch : Z; v_Balance : Z }.

(** Key derivation, BLS signatures, SSZ roots and signing domains. *)
Class Eth2Crypto := {
  Seed : Type;
  BLSPrivateKey : Type;
  PrivateKeyFromSeedAndPath : Seed -> string -> result BLSPrivateKey;
  PublicKey_Marshal : BLSPrivateKey -> bytes;
  (** [secKey.Deserialize(key.Marshal())], then [secKey.SignHash(..)] *)
  Deserialize : BLSPrivateKey -> result unit;
  SignHash : BLSPrivateKey -> bytes -> bytes;
  hashing_Hash : bytes -> bytes;
  ComputeDomain : string -> bytes -> bytes -> bytes;
  ComputeSigningRoot : bytes -> bytes -> bytes;
  DepositMessage_root : bytes -> bytes -> Z -> bytes;
  DepositData_root : bytes -> bytes -> Z -> bytes -> bytes;
  common_FromHex : string -> bytes
}.

(** [fmt.Sprintf("m/12381/3600/%d/0/0", accountIdx)] and the withdrawal key. *)
Definition validator_path (accountIdx : Z) : string := "m/12381/3600/" +:+ pretty (Z.to_N accountIdx) +:+ "/0/0".
Definition withdrawal_path (accountIdx : Z) : string := "m/12381/3600/" +:+ pretty (Z.to_N accountIdx) +:+ "/0".

(** [for _, val := range validatorSet { if bytes.Equal(..) { .. } }], over the
    entries in the order of the map's iteration; and [validatorSet[index]]. *)
Definition find_validator (pubkey : bytes) (validatorSet : list Validator) : option Validator :=
  snd <$> list_find (fun val => v_PublicKey val = pubkey) validatorSet.
Definition validator_at (index : Z) (validatorSet : list Validator) : option Validator :=
  snd <$> list_find (fun val => v_Index val = index) validatorSet.

(** Go's [copy] into a fresh array of [n] bytes, and the conversion of a
    slice to an array of [n] bytes. *)
Definition pad_to (n : nat) (b : bytes) : bytes := take n b ++ replicate (n - length b) x00.
Definition array_of (n : nat) (b : bytes) : go bytes :=
  if (length b <? n)%nat then Panic "cannot convert slice to array" else Ret (take n b).

(** ** generate_deposits *)

Record DepositsConfig := mkDepositsConfig {
  dep_LimitPerSlot : Z; dep_LimitTotal : Z; dep_LimitPending : Z;
  dep_Mnemonic : string; dep_StartIndex : Z; dep_IndexCount : Z; dep_PublicKey : string;
  dep_WalletPrivkey : string; dep_DepositContract : string; dep_DepositAmount : Z;
  dep_DepositTxFeeCap : Z; dep_DepositTxTipCap : Z; dep_WithdrawalCredentials : string; dep_TopUpDeposit : bool;
  dep_ClientPattern : string; dep_ExcludeClientPattern : string; dep_AwaitReceipt : bool; dep_FailOnReject : bool;
  DepositTransactionsResultVar : string; DepositReceiptsResultVar : string; ValidatorPubkeysResultVar : string }.

Definition dep_DefaultConfig : DepositsConfig :=
  mkDepositsConfig 0 0 0 "" 0 0 "" "" "" 32 100000000000 1000000000 "" false "" "" false false "" "" "".

Definition dep_Validate (c : DepositsConfig) : option error :=
  let empty (s : string) := bool_decide (s = "") in
  if (dep_LimitPerSlot c =? 0) && (dep_LimitTotal c =? 0) && (dep_IndexCount c =? 0)
  then Some "either limitPerSlot or limitTotal or indexCount must be set"
  else if empty (dep_Mnemonic c) && empty (dep_PublicKey c) then Some "mnemonic or publickey must be set"
  else if negb (empty (dep_Mnemonic c)) && negb (empty (dep_PublicKey c))
  then Some "only one of mnemonic or publickey must be set"
  else if negb (empty (dep_PublicKey c)) && negb (dep_TopUpDeposit c)
  then Some "publicKey can only be used with topUpDeposit"
  else if empty (dep_WalletPrivkey c) then Some "walletPrivkey must be set"
  else if empty (dep_DepositContract c) then Some "depositContract must be set"
  else if dep_DepositAmount c =? 0 then Some "depositAmount must be > 0"
  else None.

Record DepositData := mkDepositData {
  dd_Pubkey : bytes; dd_WithdrawalCredentials : bytes; dd_Amount : Z; dd_Signature : bytes }.

Section deposits.
Context `{crypto : Eth2Crypto}.

(** The deposit of [generateDeposit], before a client is chosen:
    [valkeySeed] is nil for a top up by public key; [version] is the genesis
    fork version. *)
Definition deposit_data (c : DepositsConfig) (valkeySeed : option Seed) (version : bytes) (accountIdx : Z) : go DepositData :=
  do! key := match valkeySeed with
             | Some seed =>
                 match PrivateKeyFromSeedAndPath seed (validator_path accountIdx) with
                 | Err e => Fail ("failed generating validator key " +:+ validator_path accountIdx +:+ ": " +:+ e)
                 | Ok key => Ret (Some key, PublicKey_Marshal key)
                 end
             | None => Ret (None, common_FromHex (dep_PublicKey c))
             end in
  let '(validatorPrivkey, validatorPubkey) := key in
  let pub := pad_to 48 validatorPubkey in
  do! withdrCreds :=
    if negb (bool_decide (dep_WithdrawalCredentials c = "")) then Ret (common_FromHex (dep_WithdrawalCredentials c))
    else if dep_TopUpDeposit c then Ret (replicate 32 x00)
    else
      match valkeySeed with
      | None => Panic "nil seed"
      | Some seed =>
          match PrivateKeyFromSeedAndPath seed (withdrawal_path accountIdx) with
          | Err e => Fail ("failed generating key " +:+ withdrawal_path accountIdx +:+ ": " +:+ e)
          | Ok key => Ret (<[0%nat := x00]> (hashing_Hash (PublicKey_Marshal key)))
          end
      end in
  do! creds := array_of 32 withdrCreds in
  let amount := dep_DepositAmount c *u 1000000000 in
  if dep_TopUpDeposit c then Ret (mkDepositData pub creds amount (replicate 96 x00))
  else
    match validatorPrivkey with
    | None => Panic "nil pointer dereference"
    | Some key =>
        match Deserialize key with
        | Err _ => Fail "cannot convert validator priv key"
        | Ok _ =>
            let dom := ComputeDomain "DOMAIN_DEPOSIT" version (replicate 32 x00) in
            let msg := ComputeSigningRoot (DepositMessage_root pub creds amount) dom in
            Ret (mkDepositData pub creds amount (pad_to 96 (SignHash key msg)))
        end
    end.

(** The transaction: [contract_Deposit] is the generated binding, which packs
    the call for go-ethereum's bound contract with gas limit 200000. *)
Definition deposit_tx (c : DepositsConfig) (contract_Deposit : Z -> Z -> Z -> Z -> DepositData -> bytes -> result Tx)
    (data : DepositData) (nonce : Z) : result Tx :=
  contract_Deposit nonce (dd_Amount data * 1000000000) (dep_DepositTxFeeCap c) (dep_DepositTxTipCap c) data
    (DepositData_root (dd_Pubkey data) (dd_WithdrawalCredentials data) (dd_Amount data) (dd_Signature data)).

(** [generateDeposit], with the public key in the result. *)
Definition generateDeposit {C} (c : DepositsConfig) (valkeySeed : option Seed) (version : bytes)
    (contract_Deposit : Z -> Z -> Z -> Z -> DepositData -> bytes -> result Tx)
    (ready matched : list C) (send : C -> Tx -> option error) (ctxErr : option error) (accountIdx : Z) (w : Wallet)
    : Wallet * option (go (call_result (bytes * Tx))) :=
  match deposit_data c valkeySeed version accountIdx with
  | Panic p => (w, Some (Panic p))
  | Fail e => (w, Some (Ret (NotSent e)))
  | Ret data =>
      match select_clients (dep_ClientPattern c) (dep_ExcludeClientPattern c) ready matched with
      | Err e => (w, Some (Ret (NotSent e)))
      | Ok clients =>
          let '(w, r) := BuildTransaction ctxErr (deposit_tx c contract_Deposit data) w in
          match r with
          | None => (w, None)
          | Some (Err e) => (w, Some (Ret (NotSent e)))
          | Some (Ok tx) =>
              (w, Some (Ret (match send_tx clients 0 send tx with
                             | NotSent e => NotSent e
                             | Refused tx e => Refused (dd_Pubkey data, tx) ("failed sending deposit transaction: " +:+ e)
                             | Sent tx => Sent (dd_Pubkey data, tx)
                             end)))
          end
      end
  end.
End deposits.

(** ** Receipts, outputs and verdict (deposits, consolidations, withdrawals) *)

(** What the tasks collect: the hashes of the sent transactions (and, for
    deposits, the public keys), the receipt map, the last result, and what
    was set in the task's variables and outputs. *)
Inductive out_value :=
  | OutPubkeys (l : list bytes)
  | OutHashes (l : list N)
  | OutReceipts (l : list (option value)).

Record tx_vars := mkTxVars {
  transactions : list N;
  validatorPubkeys : list bytes;
  receipts : gmap N (option Receipt);
  tx_result : option TaskResult;
  set_outputs : list (string * out_value);
  set_variables : list (string * out_value) }.

Definition no_vars : tx_vars := mkTxVars [] [] ∅ None [] [].

Definition tx_onConfirm (tx : Tx) (receipt : option Receipt) (v : tx_vars) : tx_vars :=
  mkTxVars (transactions v) (validatorPubkeys v) (<[Tx_Hash tx := receipt]> (receipts v)) (tx_result v)
    (set_outputs v) (set_variables v).

Definition tx_onSent (pubkey : list bytes) (tx : Tx) (v : tx_vars) : tx_vars :=
  mkTxVars (transactions v ++ [Tx_Hash tx]) (validatorPubkeys v ++ pubkey) (receipts v) (Some TaskResultSuccess)
    (set_outputs v) (set_variables v).

(** The receipts as values: nil for a missing one and for one that JSON
    cannot carry ([receiptMap], from encoding/json). *)
Definition receipt_list (receiptMap : Receipt -> option value) (v : tx_vars) : list (option value) :=
  (fun txhash => match receipts v !! txhash with Some (Some r) => receiptMap r | _ => None end) <$> transactions v.

(** The loop of [FailOnReject]: does it meet a missing or failed receipt? *)
Fixpoint rejected (m : gmap N (option Receipt)) (txs : list N) : bool :=
  match txs with
  | [] => false
  | txhash :: txs =>
      match m !! txhash with
      | Some (Some r) => if Receipt_Status r =? 0 then true else rejected m txs
      | _ => true
      end
  end.

Definition fail_on_reject (FailOnReject : bool) (v : tx_vars) : tx_vars :=
  if FailOnReject && rejected (receipts v) (transactions v)
  then mkTxVars (transactions v) (validatorPubkeys v) (receipts v) (Some TaskResultFailure) (set_outputs v) (set_variables v)
  else v.

Definition set_output (name : string) (x : out_value) (v : tx_vars) : tx_vars :=
  mkTxVars (transactions v) (validatorPubkeys v) (receipts v) (tx_result v) (set_outputs v ++ [(name, x)]) (set_variables v).
Definition set_variable (name : string) (x : out_value) (v : tx_vars) : tx_vars :=
  if bool_decide (name = "") then v
  else mkTxVars (transactions v) (validatorPubkeys v) (receipts v) (tx_result v) (set_outputs v)
         (set_variables v ++ [(name, x)]).

Definition dep_afterLoop (c : DepositsConfig) (receiptMap : Receipt -> option value) (v : tx_vars) : tx_vars :=
  let v := set_variable (ValidatorPubkeysResultVar c) (OutPubkeys (validatorPubkeys v)) v in
  let v := set_output "validatorPubkeys" (OutPubkeys (validatorPubkeys v)) v in
  let v := set_variable (DepositTransactionsResultVar c) (OutHashes (transactions v)) v in
  let v := set_output "depositTransactions" (OutHashes (transactions v)) v in
  let receiptList := receipt_list receiptMap v in
  let v := set_variable (DepositReceiptsResultVar c) (OutReceipts receiptList) v in
  let v := set_output "depositReceipts" (OutReceipts receiptList) v in
  fail_on_reject (dep_FailOnReject c) v.

Definition dep_task (c : DepositsConfig) (receiptMap : Receipt -> option value)
    : GenTask (Tx := bytes * Tx) (Receipt := Receipt) (A := tx_vars) := {|
  LimitPerSlot := dep_LimitPerSlot c; LimitTotal := dep_LimitTotal c; LimitPending := dep_LimitPending c;
  AwaitReceipt := dep_AwaitReceipt c; hasWaitGroup := true; returnsCtxErr := false;
  onConfirm := fun tx receipt _ v => tx_onConfirm tx.2 receipt v;
  onSent := fun tx v => tx_onSent [tx.1] tx.2 v;
  afterLoop := fun _ v => dep_afterLoop c receiptMap v |}.

Definition dep_start (c : DepositsConfig) : gen (Tx := bytes * Tx) (A := tx_vars) :=
  gen_start (dep_StartIndex c) (dep_IndexCount c) no_vars.

(** ** generate_consolidations *)

Record ConsolidationsConfig := mkConsolidationsConfig {
  con_LimitPerSlot : Z; con_LimitTotal : Z; con_LimitPending : Z;
  con_SourceMnemonic : string; con_SourceStartIndex : Z; con_SourceStartValidatorIndex : option Z;
  con_SourceIndexCount : Z; con_TargetPublicKey : string; con_TargetValidatorIndex : option Z;
  con_ConsolidationEpoch : option Z; con_WalletPrivkey : string; con_ConsolidationContract : string;
  con_TxAmount : Z; con_TxFeeCap : Z; con_TxTipCap : Z; con_TxGasLimit : Z;
  con_ClientPattern : string; con_ExcludeClientPattern : string; con_AwaitReceipt : bool; con_FailOnReject : bool }.

Definition con_DefaultConfig : ConsolidationsConfig :=
  mkConsolidationsConfig 0 0 0 "" 0 None 0 "" None None "" "0x0000BBdDc7CE488642fb579F8B00f3a590007251"
    500000000000000000 100000000000 1000000000 200000 "" "" false false.

Definition con_Validate (c : ConsolidationsConfig) : option error :=
  if (con_LimitTotal c =? 0) && (con_SourceIndexCount c =? 0) then Some "either limitTotal or indexCount must be set"
  else if bool_decide (con_SourceMnemonic c = "") && bool_decide (con_SourceStartValidatorIndex c = None)
  then Some "either sourceMnemonic with sourceStartIndex or sourceStartValidatorIndex must be set"
  else if bool_decide (con_TargetValidatorIndex c = None) && bool_decide (con_TargetPublicKey c = "")
  then Some "either targetValidatorIndex or targetPublicKey must be set"
  else None.

Section requests.
Context `{crypto : Eth2Crypto}.

(** The source validator of an index: by derived key, or by position. *)
Definition source_validator (sourceSeed : option Seed) (startValidatorIndex : option Z) (accountIdx : Z)
    (validatorSet : list Validator) : result (option Validator) :=
  match sourceSeed with
  | Some seed =>
      match PrivateKeyFromSeedAndPath seed (validator_path accountIdx) with
      | Err e => Err ("failed generating validator key " +:+ validator_path accountIdx +:+ ": " +:+ e)
      | Ok key => Ok (find_validator (PublicKey_Marshal key) validatorSet)
      end
  | None =>
      match startValidatorIndex with
      | Some start => Ok (validator_at (start +u accountIdx) validatorSet)
      | None => Ok None
      end
  end.

Definition target_validator (c : ConsolidationsConfig) (validatorSet : list Validator) : option Validator :=
  match con_TargetValidatorIndex c with
  | None => find_validator (common_FromHex (con_TargetPublicKey c)) validatorSet
  | Some index => validator_at index validatorSet
  end.

(** [txData]: 96 bytes, the source key and then the target key. *)
Definition consolidation_data (source target : Validator) : bytes :=
  copy_at 48 (v_PublicKey target) (copy_at 0 (take 48 (v_PublicKey source)) (replicate 96 x00)).

Definition consolidation_tx (c : ConsolidationsConfig) (chainID : Z) (contract : Address) (source target : Validator)
    (nonce : Z) : TxData :=
  DynamicFeeTx chainID nonce (con_TxTipCap c) (con_TxFeeCap c) (con_TxGasLimit c) (Some contract) (con_TxAmount c)
    (consolidation_data source target).

(** [generateConsolidation] *)
Definition generateConsolidation {C} (c : ConsolidationsConfig) (sourceSeed : option Seed) (chainID : Z)
    (contract : Address) (validatorSet : list Validator) (ready matched : list C) (send : C -> Tx -> option error)
    (ctxErr : option error) (accountIdx : Z) (w : Wallet) : Wallet * option (call_result Tx) :=
  match source_validator sourceSeed (con_SourceStartValidatorIndex c) accountIdx validatorSet with
  | Err e => (w, Some (NotSent e))
  | Ok None => (w, Some (NotSent "source validator not found in validator set"))
  | Ok (Some source) =>
      match target_validator c validatorSet with
      | None => (w, Some (NotSent "target validator not found"))
      | Some target =>
          match select_clients (con_ClientPattern c) (con_ExcludeClientPattern c) ready matched with
          | Err e => (w, Some (NotSent e))
          | Ok clients =>
              let '(w, r) := BuildTransaction ctxErr
                               (fun nonce => Ok (geth_NewTx (consolidation_tx c chainID contract source target nonce))) w in
              (w, match r with
                  | None => None
                  | Some (Err e) => Some (NotSent e)
                  | Some (Ok tx) => Some (send_tx clients 0 send tx)
                  end)
          end
      end
  end.

(** ** generate_withdrawal_requests *)

Record WithdrawalsConfig := mkWithdrawalsConfig {
  wdr_LimitPerSlot : Z; wdr_LimitTotal : Z; wdr_LimitPending : Z;
  wdr_SourcePubkey : string; wdr_SourceMnemonic : string; wdr_SourceStartIndex : Z;
  wdr_SourceStartValidatorIndex : option Z; wdr_SourceIndexCount : Z; wdr_WithdrawAmount : Z;
  wdr_WalletPrivkey : string; wdr_WithdrawalContract : string;
  wdr_TxAmount : Z; wdr_TxFeeCap : Z; wdr_TxTipCap : Z; wdr_TxGasLimit : Z;
  wdr_ClientPattern : string; wdr_ExcludeClientPattern : string; wdr_AwaitReceipt : bool; wdr_FailOnReject : bool }.

Definition wdr_DefaultConfig : WithdrawalsConfig :=
  mkWithdrawalsConfig 0 0 0 "" "" 0 None 0 0 "" "0x00000961Ef480Eb55e80D19ad83579A64c007002"
    500000000000000000 100000000000 1000000000 200000 "" "" false false.

Definition wdr_Validate (c : WithdrawalsConfig) : option error :=
  if (wdr_LimitTotal c =? 0) && (wdr_LimitPerSlot c =? 0) then Some "either limitTotal or limitPerSlot must be set"
  else if bool_decide (wdr_SourcePubkey c = "") && bool_decide (wdr_SourceMnemonic c = "")
          && bool_decide (wdr_SourceStartValidatorIndex c = None)
  then Some "either sourcePubkey or sourceMnemonic with sourceStartIndex or sourceStartValidatorIndex must be set"
  else None.

(** The index a call uses: it wraps around within the configured count. *)
Definition source_index (c : WithdrawalsConfig) (accountIdx : Z) : Z :=
  if 0 <? wdr_SourceIndexCount c then accountIdx mod u64 (wdr_SourceIndexCount c) else accountIdx.

Definition source_pubkey (c : WithdrawalsConfig) (sourceSeed : option Seed) (validatorSet : list Validator)
    (accountIdx : Z) : result bytes :=
  if negb (bool_decide (wdr_SourcePubkey c = "")) then Ok (common_FromHex (wdr_SourcePubkey c))
  else
    match source_validator sourceSeed (wdr_SourceStartValidatorIndex c) (source_index c accountIdx) validatorSet with
    | Err e => Err e
    | Ok None => Err "source validator not found in validator set"
    | Ok (Some source) => Ok (v_PublicKey source)
    end.

(** [amount.FillBytes(make([]byte, 8))], and [txData]: 56 bytes. *)
Definition byte_of_Z (z : Z) : Byte.byte := default x00 (Byte.of_N (Z.to_N z)).
Definition FillBytes8 (amount : Z) : bytes := byte_of_Z <$> be_bytes 8 amount.
Definition withdrawal_data (sourcePubkey : bytes) (WithdrawAmount : Z) : bytes :=
  copy_at 48 (FillBytes8 WithdrawAmount) (copy_at 0 (take 48 sourcePubkey) (replicate 56 x00)).

Definition withdrawal_tx (c : WithdrawalsConfig) (chainID : Z) (contract : Address) (sourcePubkey : bytes) (nonce : Z)
    : TxData :=
  DynamicFeeTx chainID nonce (wdr_TxTipCap c) (wdr_TxFeeCap c) (wdr_TxGasLimit c) (Some contract) (wdr_TxAmount c)
    (withdrawal_data sourcePubkey (wdr_WithdrawAmount c)).

(** [generateWithdrawal] *)
Definition generateWithdrawal {C} (c : WithdrawalsConfig) (sourceSeed : option Seed) (chainID : Z)
    (contract : Address) (validatorSet : list Validator) (ready matched : list C) (send : C -> Tx -> option error)
    (ctxErr : option error) (accountIdx : Z) (w : Wallet) : Wallet * option (call_result Tx) :=
  match source_pubkey c sourceSeed validatorSet accountIdx with
  | Err e => (w, Some (NotSent e))
  | Ok sourcePubkey =>
      match select_clients (wdr_ClientPattern c) (wdr_ExcludeClientPattern c) ready matched with
      | Err e => (w, Some (NotSent e))
      | Ok clients =>
          let '(w, r) := BuildTransaction ctxErr
                           (fun nonce => Ok (geth_NewTx (withdrawal_tx c chainID contract sourcePubkey nonce))) w in
          (w, match r with
              | None => None
              | Some (Err e) => Some (NotSent e)
              | Some (Ok tx) => Some (send_tx clients 0 send tx)
              end)
      end
  end.
End requests.

(** The code after both loops, and the two tasks. *)
Definition req_afterLoop (FailOnReject : bool) (receiptMap : Receipt -> option value) (v : tx_vars) : tx_vars :=
  let v := set_output "transactionHashes" (OutHashes (transactions v)) v in
  let v := set_output "transactionReceipts" (OutReceipts (receipt_list receiptMap v)) v in
  fail_on_reject FailOnReject v.

Definition con_task (c : ConsolidationsConfig) (receiptMap : Receipt -> option value)
    : GenTask (Tx := Tx) (Receipt := Receipt) (A := tx_vars) := {|
  LimitPerSlot := con_LimitPerSlot c; LimitTotal := con_LimitTotal c; LimitPending := con_LimitPending c;
  AwaitReceipt := con_AwaitReceipt c; hasWaitGroup := true; returnsCtxErr := false;
  onConfirm := fun tx receipt _ v => tx_onConfirm tx receipt v; onSent := fun tx v => tx_onSent [] tx v;
  afterLoop := fun _ v => req_afterLoop (con_FailOnReject c) receiptMap v |}.
Definition con_start (c : ConsolidationsConfig) : gen (Tx := Tx) (A := tx_vars) :=
  gen_start (con_SourceStartIndex c) (con_SourceIndexCount c) no_vars.

Definition wdr_task (c : WithdrawalsConfig) (receiptMap : Receipt -> option value)
    : GenTask (Tx := Tx) (Receipt := Receipt) (A := tx_vars) := {|
  LimitPerSlot := wdr_LimitPerSlot c; LimitTotal := wdr_LimitTotal c; LimitPending := wdr_LimitPending c;
  AwaitReceipt := wdr_AwaitReceipt c; hasWaitGroup := true; returnsCtxErr := false;
  onConfirm := fun tx receipt _ v => tx_onConfirm tx receipt v; onSent := fun tx v => tx_onSent [] tx v;
  afterLoop := fun _ v => req_afterLoop (wdr_FailOnReject c) receiptMap v |}.
Definition wdr_start (c : WithdrawalsConfig) : gen (Tx := Tx) (A := tx_vars) :=
  gen_start (wdr_SourceStartIndex c) 0 no_vars.

(** The loops of the five tasks ([Execute] after the configuration is loaded
    and the wallet is there). *)
Definition eoa_Execute (c : EoaConfig) es := gen_run (eoa_task c) es eoa_start.
Definition blob_Execute (c : BlobConfig) es := gen_run (blob_task c) es (gen_start 0 0 tt).
Definition dep_Execute (c : DepositsConfig) receiptMap es := gen_run (dep_task c receiptMap) es (dep_start c).
Definition con_Execute (c : ConsolidationsConfig) receiptMap es := gen_run (con_task c receiptMap) es (con_start c).
Definition wdr_Execute (c : WithdrawalsConfig) receiptMap es := gen_run (wdr_task c receiptMap) es (wdr_start c).
End wallets.

(** ** Lemmas *)

(** The receipt map is filled by the callbacks, one entry each. *)
Section collected.
Context `{types : EthTypes} {X : Type} (proj : X -> Tx) (keys : X -> list bytes).
#[local] Existing Instance types.
Context (t : GenTask (Tx := X) (Receipt := Receipt) (A := tx_vars)).
Hypothesis t_confirm : forall x receipt err v, onConfirm t x receipt err v = tx_onConfirm (proj x) receipt v.
Hypothesis t_sent : forall x v, onSent t x v = tx_onSent (keys x) (proj x) v.

Definition receipt_map (got : list (X * option Receipt)) : gmap N (option Receipt) :=
  fold_left (fun m e => <[Tx_Hash (proj e.1) := e.2]> m) got ∅.

Lemma receipt_map_app got x r : receipt_map (got ++ [(x, r)]) = <[Tx_Hash (proj x) := r]> (receipt_map got).
Proof. unfold receipt_map. by rewrite fold_left_app. Qed.

Lemma receipt_map_dom got h : is_Some (receipt_map got !! h) <-> h ∈ (fun e => Tx_Hash (proj e.1)) <$> got.
Proof.
  induction got as [|[x r] got IH] using rev_ind.
  - unfold receipt_map. simpl. rewrite lookup_empty. split; [by intros [? ?]|by intros ?%elem_of_nil].
  - rewrite receipt_map_app, lookup_insert_is_Some, fmap_app, elem_of_app, <- IH. simpl. rewrite list_elem_of_singleton.
    destruct (decide (h = Tx_Hash (proj x))) as [->|]; [tauto|]. split; [intros [?|[_ ?]]|intros [?|?]]; auto; congruence.
Qed.

Lemma receipt_map_lookup got x r :
  NoDup ((fun e => Tx_Hash (proj e.1)) <$> got) -> (x, r) ∈ got -> receipt_map got !! Tx_Hash (proj x) = Some r.
Proof.
  induction got as [|[y q] got IH] using rev_ind; intros Hnd Hin; [by apply elem_of_nil in Hin|].
  rewrite receipt_map_app. rewrite fmap_app, NoDup_app in Hnd. destruct Hnd as (Hnd & Hdis & _).
  apply elem_of_app in Hin as [Hin|Hin].
  - rewrite lookup_insert_ne; [by apply IH|]. intros Heq. apply (Hdis (Tx_Hash (proj x))).
    + apply list_elem_of_fmap. by exists (x, r).
    + simpl. rewrite <- Heq. by left.
  - apply list_elem_of_singleton in Hin. injection Hin as -> ->. apply lookup_insert_eq.
Qed.

(** The tests of [FailOnReject], over what the callbacks got. *)
Definition is_rejected (r : option Receipt) : bool :=
  match r with Some r => Receipt_Status r =? 0 | None => true end.

Lemma rejected_spec m txs :
  rejected m txs = true <->
  exists h, h ∈ txs /\ match m !! h with Some r => is_rejected r = true | None => True end.
Proof.
  induction txs as [|h txs IH]; simpl.
  - split; [done|]. by intros (h & ?%elem_of_nil & _).
  - setoid_rewrite elem_of_cons. destruct (m !! h) as [[r|]|] eqn:Hm.
    + destruct (Receipt_Status r =? 0) eqn:Hs.
      * split; [|done]. intros _. exists h. rewrite Hm. simpl. auto.
      * rewrite IH. split; [intros (k & ? & ?); eauto|]. intros (k & [->|Hk] & Hr); [|eauto].
        rewrite Hm in Hr. simpl in Hr. congruence.
    + split; [|done]. intros _. exists h. rewrite Hm. auto.
    + split; [|done]. intros _. exists h. rewrite Hm. auto.
Qed.

Lemma rejected_got got sent :
  got.*1 ≡ₚ sent -> NoDup ((fun x => Tx_Hash (proj x)) <$> sent) ->
  rejected (receipt_map got) ((fun x => Tx_Hash (proj x)) <$> sent) = existsb (fun e => is_rejected e.2) got.
Proof.
  intros Hperm Hnd. apply eq_iff_eq_true. rewrite rejected_spec, existsb_elem_of.
  assert (Hnd' : NoDup ((fun e => Tx_Hash (proj e.1)) <$> got)).
  { rewrite <- Hperm, <- list_fmap_compose in Hnd. exact Hnd. }
  split.
  - intros (h & Hh & Hr). apply list_elem_of_fmap in Hh as (x & -> & Hx). rewrite <- Hperm in Hx.
    apply list_elem_of_fmap in Hx as ([y r] & -> & Hin). exists (y, r). split; [done|].
    simpl in Hr. rewrite (receipt_map_lookup got y r Hnd' Hin) in Hr. done.
  - intros ([x r] & Hin & Hr). exists (Tx_Hash (proj x)). split.
    + apply list_elem_of_fmap. exists x. split; [done|]. rewrite <- Hperm. apply list_elem_of_fmap. by exists (x, r).
    + by rewrite (receipt_map_lookup got x r Hnd' Hin).
Qed.

(** What the callbacks and the sent branch maintain. *)
Definition collects (f : list (X * option Receipt)) (s : list X) (v : tx_vars) : Prop :=
  transactions v = (fun x => Tx_Hash (proj x)) <$> s /\ validatorPubkeys v = concat (keys <$> s) /\
  receipts v = receipt_map f /\ set_outputs v = [] /\ tx_result v = (if s is [] then None else Some TaskResultSuccess).

Lemma collects_kept : kept t collects.
Proof.
  split.
  - intros f s v x r err (H1 & H2 & H3 & H4 & H5). rewrite t_confirm. unfold collects. simpl.
    by rewrite receipt_map_app, H1, H2, H3, H4, H5.
  - intros f s v x (H1 & H2 & H3 & H4 & H5). rewrite t_sent. unfold collects. simpl.
    rewrite H1, H2, H3, !fmap_app, concat_app. simpl. rewrite app_nil_r. split_and!; try done. by destruct s.
Qed.

(** The verdict after the final wait. *)
Lemma fail_on_reject_result b got sent v :
  collects got sent v -> got.*1 ≡ₚ sent -> NoDup ((fun x => Tx_Hash (proj x)) <$> sent) ->
  forall outs vars', tx_result (fail_on_reject b (mkTxVars (transactions v) (validatorPubkeys v) (receipts v) (tx_result v) outs vars')) =
    if b && existsb (fun e => is_rejected e.2) got then Some TaskResultFailure
    else if sent is [] then None else Some TaskResultSuccess.
Proof.
  intros (H1 & H2 & H3 & _ & H4) Hperm Hnd outs vars'. unfold fail_on_reject. simpl.
  rewrite H1, H3, rejected_got by done. by destruct b, (existsb _ got).
Qed.
Lemma collects_receipts got sent v x r :
  collects got sent v -> got.*1 ≡ₚ sent -> NoDup ((fun x => Tx_Hash (proj x)) <$> sent) ->
  (x, r) ∈ got -> receipts v !! Tx_Hash (proj x) = Some r.
Proof.
  intros (_ & _ & H3 & _) Hperm Hnd Hin. rewrite H3. apply receipt_map_lookup; [|done].
  rewrite <- Hperm, <- list_fmap_compose in Hnd. exact Hnd.
Qed.
End collected.

Lemma fail_on_reject_frame `{types : EthTypes} b (v : tx_vars (types := types)) :
  transactions (fail_on_reject b v) = transactions v /\ validatorPubkeys (fail_on_reject b v) = validatorPubkeys v /\
  receipts (fail_on_reject b v) = receipts v /\ set_outputs (fail_on_reject b v) = set_outputs v /\
  forall rm, receipt_list rm (fail_on_reject b v) = receipt_list rm v.
Proof. unfold fail_on_reject. by destruct (_ && _). Qed.

Lemma set_variable_shape `{types : EthTypes} name x (v : tx_vars (types := types)) :
  exists vs, set_variable name x v =
    mkTxVars (transactions v) (validatorPubkeys v) (receipts v) (tx_result v) (set_outputs v) vs.
Proof. unfold set_variable. destruct (bool_decide _); [destruct v|]; by eexists. Qed.

(** The code after the loop of deposits only adds outputs before its verdict. *)
Lemma dep_afterLoop_shape `{types : EthTypes} c rm (v : tx_vars (types := types)) :
  exists vs, dep_afterLoop c rm v = fail_on_reject (dep_FailOnReject c)
    (mkTxVars (transactions v) (validatorPubkeys v) (receipts v) (tx_result v)
       (set_outputs v ++ [("validatorPubkeys", OutPubkeys (validatorPubkeys v));
                          ("depositTransactions", OutHashes (transactions v));
                          ("depositReceipts", OutReceipts (receipt_list rm v))]) vs).
Proof.
  unfold dep_afterLoop.
  destruct (set_variable_shape (ValidatorPubkeysResultVar c) (OutPubkeys (validatorPubkeys v)) v) as [vs1 ->].
  unfold set_output at 3. simpl.
  match goal with |- context [set_variable ?n ?x ?u] => destruct (set_variable_shape n x u) as [vs2 ->] end.
  unfold set_output at 2. simpl.
  match goal with |- context [set_variable ?n ?x ?u] => destruct (set_variable_shape n x u) as [vs3 ->] end.
  unfold set_output. simpl. rewrite <- !app_assoc. by exists vs3.
Qed.

(** ** Properties *)

Section verdicts.
Context `{types : EthTypes}.
#[local] Existing Instance types.

(** The verdict of generate_deposits.  In every run in which no send was
    refused by all clients, with the callbacks in any order, what the task
    reports when its final wait is over is complete: a public key and a hash
    for every deposit that was sent, in the order of sending; a receipt entry
    for each, the one its callback was given; and (hashes being distinct)
    with [FailOnReject] the result is a failure exactly when some deposit has
    no receipt or a failed one, else a success if anything was sent. *)
Theorem deposits_verdict (c : DepositsConfig) (receiptMap : Receipt -> option value) es g g' :
  sends_accepted (dep_task c receiptMap) es (dep_start c) ->
  dep_Execute c receiptMap es = Some (Ret g) ->
  gen_step (dep_task c receiptMap) Waited g = Some (Ret g') ->
  exists (sent : list (bytes * Tx)) (got : list ((bytes * Tx) * option Receipt)),
    got.*1 ≡ₚ sent /\ totalCount g' = Z.of_nat (length sent) /\ at_point g' = Returned None /\
    transactions (vars g') = (fun d => Tx_Hash d.2) <$> sent /\
    validatorPubkeys (vars g') = fst <$> sent /\
    set_outputs (vars g') =
      [("validatorPubkeys", OutPubkeys (fst <$> sent)); ("depositTransactions", OutHashes ((fun d => Tx_Hash d.2) <$> sent));
       ("depositReceipts", OutReceipts (receipt_list receiptMap (vars g')))] /\
    (NoDup ((fun d => Tx_Hash d.2) <$> sent) ->
     (forall d r, (d, r) ∈ got -> receipts (vars g') !! Tx_Hash d.2 = Some r) /\
     tx_result (vars g') =
       if dep_FailOnReject c && existsb (fun e => is_rejected e.2) got then Some TaskResultFailure
       else if sent is [] then None else Some TaskResultSuccess).
Proof.
  intros Hok Hrun Hw.
  destruct (awaited_all (dep_task c receiptMap) (collects snd (fun d => [d.1])) (dep_StartIndex c) (dep_IndexCount c)
    no_vars es g g') as (got & sent & v & HP & Hperm & Hn & Hv & Hp); try done.
  { by apply collects_kept. }
  exists sent, got. rewrite Hv. simpl afterLoop. destruct (dep_afterLoop_shape c receiptMap v) as [vs ->].
  destruct (fail_on_reject_frame (dep_FailOnReject c) (mkTxVars (transactions v) (validatorPubkeys v) (receipts v)
    (tx_result v) (set_outputs v ++ [("validatorPubkeys", OutPubkeys (validatorPubkeys v));
      ("depositTransactions", OutHashes (transactions v)); ("depositReceipts", OutReceipts (receipt_list receiptMap v))]) vs))
    as (-> & -> & -> & -> & ->).
  pose proof HP as (H1 & H2 & H3 & H4 & _).
  assert (Hkeys : validatorPubkeys v = fst <$> sent) by (rewrite H2; clear; induction sent as [|d l IH]; [done|]; simpl; f_equal; exact IH).
  split_and!; try done; simpl; [unfold receipt_list; simpl; by rewrite H4, Hkeys, H1|].
  intros Hnd. split.
  - intros d r Hin. by apply (collects_receipts snd (fun d => [d.1]) got sent v d r).
  - by apply (fail_on_reject_result snd (fun d => [d.1]) (dep_FailOnReject c) got sent v).
Qed.

(** The same for generate_consolidations and generate_withdrawal_requests. *)
Lemma requests_verdict (t : GenTask (Tx := Tx) (Receipt := Receipt) (A := tx_vars)) (b : bool)
    (receiptMap : Receipt -> option value) StartIndex IndexCount es g g' :
  hasWaitGroup t = true -> (forall tx r err v, onConfirm t tx r err v = tx_onConfirm tx r v) ->
  (forall tx v, onSent t tx v = tx_onSent [] tx v) -> (forall n v, afterLoop t n v = req_afterLoop b receiptMap v) ->
  sends_accepted t es (gen_start StartIndex IndexCount no_vars) ->
  gen_run t es (gen_start StartIndex IndexCount no_vars) = Some (Ret g) ->
  gen_step t Waited g = Some (Ret g') ->
  exists (sent : list Tx) (got : list (Tx * option Receipt)),
    got.*1 ≡ₚ sent /\ totalCount g' = Z.of_nat (length sent) /\
    transactions (vars g') = Tx_Hash <$> sent /\
    (NoDup (Tx_Hash <$> sent) ->
     (forall tx r, (tx, r) ∈ got -> receipts (vars g') !! Tx_Hash tx = Some r) /\
     tx_result (vars g') =
       if b && existsb (fun e => is_rejected e.2) got then Some TaskResultFailure
       else if sent is [] then None else Some TaskResultSuccess).
Proof.
  intros Hg Hc Hs Ha Hok Hrun Hw.
  destruct (awaited_all t (collects (fun tx => tx) (fun _ => [])) StartIndex IndexCount no_vars es g g')
    as (got & sent & v & HP & Hperm & Hn & Hv & Hp); try done.
  { by apply collects_kept. }
  exists sent, got. rewrite Hv, Ha. unfold req_afterLoop, set_output. simpl.
  match goal with |- context [fail_on_reject b ?x] => destruct (fail_on_reject_frame b x) as (-> & _ & -> & _ & _) end.
  pose proof HP as (H1 & _). split_and!; try done. intros Hnd. split.
  - intros d r Hin. by apply (collects_receipts (fun tx => tx) (fun _ => []) got sent v d r).
  - by apply (fail_on_reject_result (fun tx => tx) (fun _ => []) b got sent v).
Qed.

(** What the callbacks of generate_eoa_transactions got. *)
Definition confirmed (r : option Receipt) : bool := if r is Some r then negb (Receipt_Status r =? 0) else false.
Definition reverted (r : option Receipt) : bool := if r is Some r then Receipt_Status r =? 0 else false.

Definition eoa_counts (f : list (Tx * option Receipt)) (s : list Tx) (v : eoa_vars) : Prop :=
  sucessCount v = Z.of_nat (length (filterb (fun e => confirmed e.2) f)) /\
  revertCount v = Z.of_nat (length (filterb (fun e => reverted e.2) f)) /\
  sucessCount v + revertCount v + unknownCount v = Z.of_nat (length f) /\ eoa_result v = None.

Lemma eoa_counts_kept c : kept (eoa_task c) eoa_counts.
Proof.
  split; [|done]. intros f s v tx r err (H1 & H2 & H3 & H4). unfold eoa_counts. simpl. unfold eoa_onConfirm.
  rewrite !filterb_app, !length_app, !filterb_cons, !filterb_nil.
  destruct r as [r|]; simpl; [destruct (Receipt_Status r =? 0)|]; simpl; split_and!; try done; lia.
Qed.

Lemma positive_length {B} (p : B -> bool) l : existsb p l = (0 <? Z.of_nat (length (filterb p l))).
Proof.
  induction l as [|x l IH]; [done|]. rewrite filterb_cons. cbn [existsb]. destruct (p x); [|exact IH]. symmetry. apply Z.ltb_lt. cbn [length]. lia.
Qed.

(** The verdict of generate_eoa_transactions.  In every run without refused
    sends, with the callbacks in any order, when the final wait is over every
    sent transaction is counted once, as confirmed, reverted or unknown; and
    the result is a failure exactly when one was confirmed under
    [FailOnSuccess], one reverted under [FailOnReject], or none was sent. *)
Theorem eoa_verdict (c : EoaConfig) es g g' :
  sends_accepted (eoa_task c) es eoa_start -> eoa_Execute c es = Some (Ret g) ->
  gen_step (eoa_task c) Waited g = Some (Ret g') ->
  exists (sent : list Tx) (got : list (Tx * option Receipt)),
    got.*1 ≡ₚ sent /\ totalCount g' = Z.of_nat (length sent) /\
    sucessCount (vars g') = Z.of_nat (length (filterb (fun e => confirmed e.2) got)) /\
    revertCount (vars g') = Z.of_nat (length (filterb (fun e => reverted e.2) got)) /\
    sucessCount (vars g') + revertCount (vars g') + unknownCount (vars g') = totalCount g' /\
    eoa_result (vars g') =
      if (eoa_FailOnSuccess c && existsb (fun e => confirmed e.2) got)
         || (eoa_FailOnReject c && existsb (fun e => reverted e.2) got) || bool_decide (sent = [])
      then Some TaskResultFailure else None.
Proof.
  intros Hok Hrun Hw.
  destruct (awaited_all (eoa_task c) eoa_counts 0 0 (mkEoaVars 0 0 0 None) es g g')
    as (got & sent & v & HP & Hperm & Hn & Hv & Hp); try done.
  { apply eoa_counts_kept. }
  destruct HP as (H1 & H2 & H3 & H4).
  assert (Hlen : length got = length sent) by (rewrite <- (length_fmap fst got); by rewrite Hperm).
  assert (Hz : (totalCount g' =? 0) = bool_decide (sent = [])).
  { rewrite Hn. destruct sent; [done|]. rewrite bool_decide_false by done. cbn [length]. apply Z.eqb_neq. lia. }
  exists sent, got. rewrite Hv. simpl afterLoop. unfold eoa_afterLoop.
  rewrite Hz, H1, H2, <- !positive_length.
  destruct (eoa_FailOnSuccess c && _), (eoa_FailOnReject c && _), (bool_decide _); simpl;
    rewrite ?H1, ?H2, ?H4; split_and!; try done; lia.
Qed.
End verdicts.

(** *** Call data *)

(** The number a big-endian byte string stands for. *)
Definition be_value (b : bytes) : Z := fold_left (fun acc c => 256 * acc + Z.of_N (Byte.to_N c)) b 0.

Lemma be_value_app b c : be_value (b ++ [c]) = 256 * be_value b + Z.of_N (Byte.to_N c).
Proof. unfold be_value. by rewrite fold_left_app. Qed.

Lemma byte_of_Z_value z : 0 <= z < 256 -> Z.of_N (Byte.to_N (byte_of_Z z)) = z.
Proof.
  intros Hz. unfold byte_of_Z. destruct (Byte.of_N (Z.to_N z)) as [b|] eqn:Hb; simpl.
  - apply Byte.to_of_N in Hb. rewrite Hb. lia.
  - apply Byte.of_N_None_iff in Hb. lia.
Qed.

Lemma be_value_be_bytes n z : 0 <= z < 256 ^ Z.of_nat n -> be_value (byte_of_Z <$> be_bytes n z) = z.
Proof.
  revert z. induction n as [|n IH]; intros z Hz; [change (256 ^ Z.of_nat 0) with 1 in Hz; simpl; unfold be_value; simpl; lia|].
  rewrite Nat2Z.inj_succ, Z.pow_succ_r in Hz by lia. cbn [be_bytes]. rewrite fmap_app. cbn [fmap list_fmap].
  rewrite be_value_app. change 255 with (Z.ones 8). rewrite Z.land_ones, Z.shiftr_div_pow2 by lia. change (2 ^ 8) with 256.
  rewrite byte_of_Z_value by (apply Z.mod_pos_bound; lia).
  rewrite IH by (split; [apply Z.div_pos; lia|apply Z.div_lt_upper_bound; lia]).
  pose proof (Z.div_mod z 256 ltac:(lia)). lia.
Qed.

(** Two pieces copied into a zeroed buffer of exactly their length. *)
Lemma copy_two (a b : bytes) n m :
  length a = n -> length b = m ->
  copy_at n b (copy_at 0 (take n a) (replicate (n + m) x00)) = a ++ b.
Proof.
  intros Ha Hb. unfold copy_at. rewrite (take_ge a) by lia.
  rewrite length_replicate, Nat.sub_0_r, Nat.add_0_l. rewrite (Nat.min_l (length a)) by lia.
  rewrite (take_ge a) by lia. rewrite take_0, app_nil_l, drop_replicate.
  replace (n + m - length a)%nat with m by lia.
  rewrite length_app, length_replicate. replace (length a + m - n)%nat with m by lia.
  rewrite (Nat.min_l (length b)) by lia. rewrite (take_ge b) by lia.
  rewrite take_app_length' by done. f_equal.
  rewrite drop_ge by (rewrite length_app, length_replicate; lia). by rewrite app_nil_r.
Qed.

Section calldata.
Context `{crypto : Eth2Crypto}.

(** The call data of the requests can be read back as the system contracts
    read them: a consolidation is the source key and the target key, a
    withdrawal the validator's key and the amount as eight big-endian bytes. *)
Theorem request_data_decodes (source target : Validator) (pubkey : bytes) (amount : Z) :
  length (v_PublicKey source) = 48%nat -> length (v_PublicKey target) = 48%nat -> length pubkey = 48%nat ->
  is_u64 amount ->
  (length (consolidation_data source target) = 96%nat /\
   take 48 (consolidation_data source target) = v_PublicKey source /\
   drop 48 (consolidation_data source target) = v_PublicKey target) /\
  length (withdrawal_data pubkey amount) = 56%nat /\
  take 48 (withdrawal_data pubkey amount) = pubkey /\ be_value (drop 48 (withdrawal_data pubkey amount)) = amount.
Proof.
  intros Hs Ht Hp Ha.
  assert (Hc : consolidation_data source target = v_PublicKey source ++ v_PublicKey target)
    by (exact (copy_two _ _ 48 48 Hs Ht)).
  assert (H8 : length (FillBytes8 amount) = 8%nat) by (unfold FillBytes8; by rewrite length_fmap, be_bytes_length).
  assert (Hw : withdrawal_data pubkey amount = pubkey ++ FillBytes8 amount) by (exact (copy_two _ _ 48 8 Hp H8)).
  rewrite Hc, Hw, !length_app, Hs, Ht, Hp, H8. split_and!; try done.
  - by apply take_app_length'.
  - by apply drop_app_length'.
  - by apply take_app_length'.
  - rewrite drop_app_length' by done. apply be_value_be_bytes. exact Ha.
Qed.

(** With a source count the start index selects nothing: every call uses an
    index below the count, so with a start index that is not below it no
    validator of the documented range is ever asked for. *)
Theorem source_range_wraps (c : WithdrawalsConfig) (sourceSeed : option Seed) (validatorSet : list Validator) (k : Z) :
  0 < wdr_SourceIndexCount c -> is_i64 (wdr_SourceIndexCount c) -> wdr_SourceIndexCount c <= wdr_SourceStartIndex c ->
  0 <= k ->
  let accountIdx := wdr_SourceStartIndex c + k in
  source_index c accountIdx < wdr_SourceStartIndex c /\
  source_pubkey c sourceSeed validatorSet accountIdx =
    source_pubkey c sourceSeed validatorSet (accountIdx mod wdr_SourceIndexCount c).
Proof.
  intros Hc Hi Hs Hk accountIdx. unfold source_pubkey, source_index.
  assert (0 <? wdr_SourceIndexCount c = true) as -> by lia. rewrite u64_id by go_lia.
  rewrite Z.mod_mod by lia. split; [|done].
  pose proof (Z.mod_pos_bound accountIdx (wdr_SourceIndexCount c) ltac:(lia)). lia.
Qed.

(** Which validator a key selects does not depend on the iteration order of
    the validator map, keys being distinct. *)
Lemma find_validator_perm (pubkey : bytes) (set1 set2 : list Validator) :
  NoDup (v_PublicKey <$> set1) -> set1 ≡ₚ set2 -> find_validator pubkey set1 = find_validator pubkey set2.
Proof.
  assert (Hfind : forall (l : list Validator) v, NoDup (v_PublicKey <$> l) ->
    find_validator pubkey l = Some v <-> v ∈ l /\ v_PublicKey v = pubkey).
  { intros l v Hnd. unfold find_validator. destruct (list_find _ l) as [[i w]|] eqn:Hf; simpl.
    - apply list_find_Some in Hf as (Hi & Hw & _). split.
      + intros [= <-]. split; [by eapply list_elem_of_lookup_2|done].
      + intros [[j Hj]%list_elem_of_lookup Hv]. f_equal.
        assert (i = j) as ->.
        { apply (NoDup_lookup (v_PublicKey <$> l) i j pubkey Hnd); rewrite list_lookup_fmap; [rewrite Hi|rewrite Hj]; simpl; by f_equal. }
        congruence.
    - apply list_find_None in Hf. rewrite Forall_forall in Hf. split; [done|]. intros [Hin Hv]. by destruct (Hf v Hin). }
  intros Hnd Hperm. assert (Hnd2 : NoDup (v_PublicKey <$> set2)) by (by rewrite <- Hperm).
  destruct (find_validator pubkey set1) as [v|] eqn:H1.
  - apply Hfind in H1 as [Hin Hv]; [|done]. symmetry. apply Hfind; [done|]. by rewrite <- Hperm.
  - destruct (find_validator pubkey set2) as [v|] eqn:H2; [|done].
    apply Hfind in H2; [|done]. rewrite <- Hperm in H2. apply Hfind in H2; [|done]. congruence.
Qed.
End calldata.

(** *** Nonces and amounts *)

Section calls.
Context `{types : EthTypes} `{geth : !GethTx}.
#[local] Existing Instance types.

(** The builder runs before a client is looked for: when none is ready, the
    call fails and nothing is sent, but the wallet's next nonce has moved and
    the amount is gone from its pending balance; the transactions that follow
    wait for a nonce that nobody used. *)
Theorem eoa_no_client_burns_nonce {C} (c : EoaConfig) targetAddr data chainID rnd (send : C -> Tx -> option error)
    (idx : Z) (s : senders) (a : Address) (sign : Tx -> Tx) :
  let w := get_wallet (s_wallets s) a in
  s_wallet s = Some a -> readyChan w ∈ closedReady w -> nonce_ok (pendingNonce w) ->
  (forall tx, SignTx tx (privkey w) = Ok (sign tx)) ->
  eoa_ClientPattern c = "" -> eoa_ExcludeClientPattern c = "" -> eoa_RandomAmount c = false ->
  exists s', eoa_generateTransaction c targetAddr data chainID rnd ([] : list C) [] send None idx s =
      Some (Ret (s', NotSent "no ready clients available")) /\
    pendingNonce (get_wallet (s_wallets s') a) = pendingNonce w + 1 /\
    pendingBalance (get_wallet (s_wallets s') a) = pendingBalance w - eoa_Amount c.
Proof.
  intros w Hs Hr Hn Hsign Hp He Hra. unfold eoa_generateTransaction, next_sender. rewrite Hs.
  fold w. unfold build_tx, AwaitReady. rewrite decide_True by done.
  unfold eoa_buildTx, tx_amount. rewrite Hra. simpl go_bind. cbv iota beta.
  unfold BuildTransaction, AwaitReady. rewrite decide_True by done. rewrite Hsign, geth_NewTx_Nonce, geth_NewTx_Value.
  unfold select_clients. rewrite Hp, He. simpl.
  set (d := if eoa_LegacyTxType c then _ else _).
  assert (data_Nonce d = pendingNonce w /\ data_Value d = eoa_Amount c) as [-> ->] by (unfold d; by destruct (eoa_LegacyTxType c)).
  rewrite nonce_succ by done. assert (pendingNonce w <? pendingNonce w + 1 = true) as -> by lia.
  eexists. split; [done|]. simpl. rewrite get_wallet_insert, decide_True by done. done.
Qed.

(** [randomAmount] with the default amount of 0 panics. *)
Lemma eoa_random_zero_panics (c : EoaConfig) targetAddr data chainID rnd a nonce :
  eoa_RandomAmount c = true -> eoa_Amount c <= 0 ->
  eoa_buildTx c targetAddr data chainID rnd a nonce = Panic "crypto/rand: argument to Int is <= 0".
Proof.
  intros Hr Ha. unfold eoa_buildTx, tx_amount, rand_Int. rewrite Hr.
  assert (eoa_Amount c <=? 0 = true) as -> by lia. done.
Qed.

(** When every client answers an error the transaction is refused, and its
    call has the events of a refused send. *)
Lemma send_tx_all_refuse {C} (clients : list C) (offset : Z) (send : C -> Tx -> option error) (tx : Tx) :
  clients <> [] -> (forall c, c ∈ clients -> is_Some (send c tx)) -> exists e, send_tx clients offset send tx = Refused tx e.
Proof.
  intros Hne Hall. unfold send_tx, send_first.
  destruct (send_loop _ _ _ _ _ _) as [log [e|]] eqn:Hl; simpl; [by exists e|].
  destruct (send_loop_spec _ _ _ _ _ _ _ _ Hl Hne) as (_ & Hlog & _ & [[Hz _]|[c Hlast]]); [by destruct clients|].
  rewrite last_lookup in Hlast. apply Hlog in Hlast as [Hat Hc].
  destruct (Hall c) as [e He]; [|congruence]. unfold client_at in Hat. by eapply list_elem_of_lookup_2.
Qed.
End calls.

(** *** At concrete inputs *)

Definition ex_send2 {Tx} (tx1 tx2 : Tx) (r1 r2 : option (@Receipt ex_types))
    : list (event (Tx := Tx) (Receipt := @Receipt ex_types)) :=
  [Acquire; Launch tx1; GenerateReturns None; Acquire; Launch tx2; GenerateReturns None;
   CbReceive 1; CbFinish 1 r2 None; CbReceive 0; CbFinish 0 r1 None].

Definition ex_deposits : DepositsConfig :=
  mkDepositsConfig 0 2 0 "mnemonic" 0 0 "" "key" "contract" 32 100000000000 1000000000 "" false "" "" true true "" "" "".
Definition ex_dep_events : list (event (Tx := bytes * @Tx ex_types) (Receipt := @Receipt ex_types)) :=
  ex_send2 ([x01], mkExTx 1 7 5 2) ([x02], mkExTx 1 8 5 2) (Some (ex_receipt 1)) (Some (ex_receipt 0)).

Lemma deposits_verdict_witness :
  exists g g' sent, gen_run (dep_task (types := ex_types) ex_deposits (fun _ => None)) ex_dep_events (dep_start ex_deposits) = Some (Ret g) /\
    gen_step (dep_task (types := ex_types) ex_deposits (fun _ => None)) Waited g = Some (Ret g') /\
    transactions (vars g') = (fun d : bytes * @Tx ex_types => Tx_Hash d.2) <$> sent /\
    tx_result (vars g') = Some TaskResultFailure.
Proof.
  assert (sends_accepted (dep_task (types := ex_types) ex_deposits (fun _ => None)) ex_dep_events (dep_start ex_deposits)) as Hacc
    by (vm_compute; repeat split; reflexivity).
  destruct (gen_run (dep_task (types := ex_types) ex_deposits (fun _ => None)) ex_dep_events (dep_start ex_deposits)) as [[g| |]|] eqn:Hrun;
    [|vm_compute in Hrun; discriminate..].
  destruct (gen_step (dep_task (types := ex_types) ex_deposits (fun _ => None)) Waited g) as [[g'| |]|] eqn:Hw;
    [|vm_compute in Hrun; injection Hrun as <-; vm_compute in Hw; discriminate..].
  destruct (deposits_verdict (types := ex_types) ex_deposits (fun _ => None) ex_dep_events g g' Hacc Hrun Hw)
    as (sent & got & _ & _ & _ & Htx & _).
  exists g, g', sent. split; [reflexivity|]. split; [exact Hw|]. split; [exact Htx|].
  vm_compute in Hrun. injection Hrun as <-. vm_compute in Hw. injection Hw as <-. reflexivity.
Defined.

Definition ex_eoa : EoaConfig :=
  mkEoaConfig 0 2 1 "key" 0 "" 200 1 1 1 1 false 1 1 50000 "" false false "" false 5 true true false "" "".
Definition ex_eoa_events : list (event (Tx := @Tx ex_types) (Receipt := @Receipt ex_types)) :=
  [Acquire; Launch (mkExTx 1 7 5 2); GenerateReturns None; CbReceive 0; Acquire; Launch (mkExTx 1 8 5 2);
   CbFinish 0 (Some (ex_receipt 1)) None; GenerateReturns None; CbReceive 0; CbFinish 0 (Some (ex_receipt 0)) None].

Lemma eoa_verdict_witness :
  exists g g', gen_run (eoa_task ex_eoa) ex_eoa_events eoa_start = Some (Ret g) /\
    gen_step (eoa_task ex_eoa) Waited g = Some (Ret g') /\
    sucessCount (vars g') + revertCount (vars g') + unknownCount (vars g') = totalCount g' /\
    eoa_result (vars g') = Some TaskResultFailure.
Proof.
  assert (sends_accepted (eoa_task ex_eoa) ex_eoa_events eoa_start) as Hacc by (vm_compute; repeat split; reflexivity).
  destruct (gen_run (eoa_task ex_eoa) ex_eoa_events eoa_start) as [[g| |]|] eqn:Hrun;
    [|vm_compute in Hrun; discriminate..].
  destruct (gen_step (eoa_task ex_eoa) Waited g) as [[g'| |]|] eqn:Hw;
    [|vm_compute in Hrun; injection Hrun as <-; vm_compute in Hw; discriminate..].
  destruct (eoa_verdict (types := ex_types) ex_eoa ex_eoa_events g g' Hacc Hrun Hw)
    as (sent & got & _ & _ & _ & _ & Hsum & _).
  exists g, g'. split; [reflexivity|]. split; [exact Hw|]. split; [exact Hsum|].
  vm_compute in Hrun. injection Hrun as <-. vm_compute in Hw. injection Hw as <-. reflexivity.
Defined.

Lemma request_data_decodes_witness :
  let v k := mkValidator 0 "" (replicate 48 k) [] 0 0 in
  take 48 (consolidation_data (v x01) (v x02)) = replicate 48 x01 /\
  be_value (drop 48 (withdrawal_data (replicate 48 x03) 32000000000)) = 32000000000.
Proof.
  intros v.
  destruct (request_data_decodes (v x01) (v x02) (replicate 48 x03) 32000000000 eq_refl eq_refl eq_refl)
    as ((_ & H1 & _) & _ & _ & H2); [go_lia|]. exact (conj H1 H2).
Defined.

Definition ex_crypto : Eth2Crypto := {|
  Seed := unit; BLSPrivateKey := string; PrivateKeyFromSeedAndPath := fun _ path => Ok path;
  PublicKey_Marshal := fun path => [byte_of_Z (Z.of_nat (String.length path))]; Deserialize := fun _ => Ok tt;
  SignHash := fun _ h => h; hashing_Hash := fun b => b; ComputeDomain := fun _ _ _ => []; ComputeSigningRoot := fun _ _ => [];
  DepositMessage_root := fun _ _ _ => []; DepositData_root := fun _ _ _ _ => []; common_FromHex := fun _ => [] |}.
Definition ex_withdrawals : WithdrawalsConfig :=
  mkWithdrawalsConfig 1 0 0 "" "mnemonic" 100 None 10 0 "key" "" 1 1 1 1 "" "" false false.

Lemma source_range_wraps_witness :
  source_index ex_withdrawals (100 + 3) < 100 /\
  source_pubkey (crypto := ex_crypto) ex_withdrawals (Some tt) [] (100 + 3) =
    source_pubkey (crypto := ex_crypto) ex_withdrawals (Some tt) [] ((100 + 3) mod 10).
Proof.
  apply (source_range_wraps (crypto := ex_crypto) ex_withdrawals (Some tt) [] 3); vm_compute; [reflexivity|split; [discriminate|reflexivity]|discriminate|discriminate].
Defined.

Definition ex_geth : GethTx (types := ex_types).
Proof.
  refine (Build_GethTx ex_types (fun d => mkExTx 1 (data_Nonce d) (data_Value d) 2) _ _); reflexivity.
Defined.

Definition ex_senders : senders (types := ex_types) :=
  mkSenders (types := ex_types) (<[1%N := ex_wallet 1 7 100]> ∅) (Some 1%N) None.

Lemma eoa_no_client_burns_nonce_witness :
  exists s', eoa_generateTransaction (types := ex_types) (geth := ex_geth) ex_eoa 2%N None 1 (mkRandom 3 Ok)
      ([] : list nat) [] (fun _ _ => None) None 0 ex_senders = Some (Ret (s', NotSent "no ready clients available")) /\
    pendingNonce (get_wallet (types := ex_types) (s_wallets s') 1) = pendingNonce (get_wallet (types := ex_types) (s_wallets ex_senders) 1) + 1 /\
    pendingBalance (get_wallet (types := ex_types) (s_wallets s') 1) = pendingBalance (get_wallet (types := ex_types) (s_wallets ex_senders) 1) - eoa_Amount ex_eoa.
Proof.
  apply (eoa_no_client_burns_nonce (types := ex_types) (geth := ex_geth) ex_eoa 2%N None 1 (mkRandom 3 Ok) (fun (_ : nat) _ => None) 0
    ex_senders 1%N (fun tx => tx)); try reflexivity. vm_compute. split; [discriminate|reflexivity].
Defined.
