(* ===== verification/GenOps.v ===== *)
(** * The tasks that send signed beacon operations

    tasks/generate_exits, generate_bls_changes and generate_slashings: a loop
    over key indexes that builds, signs and submits one operation per index,
    with the limits of the transaction generators but without anything
    pending.  SSZ roots, signatures and domains are parameters
    ([Eth2Crypto] of GenTasks.v and [Eth2Roots] here). *)

From Stdlib Require Import Strings.Byte.
From S2P Require Import Prelude Vars Db Scheduler Wallet WalletPool BlobTx GenLoop GenTasks.

#[local] Open Scope string_scope.
#[local] Open Scope list_scope.
Open Scope Z_scope.

(** ** The loop *)

Section op_loop.
Context {Op V : Type}.

Record OpTask := mkOpTask {
  op_LimitPerSlot : Z; op_LimitTotal : Z;
  op_onSuccess : Op -> V -> V;
  op_afterLoop : Z -> V -> V }.

(** What the environment answers to attempt [k]: the result of the builder
    for an index, [ctx.Err()] after it, and which case of the wait for a
    block is taken ([true] for a block). *)
Record world := mkWorld {
  w_generate : nat -> Z -> go Op;
  w_ctxErr : nat -> option error;
  w_block : nat -> bool }.

Record op_state := mkOpState {
  op_nextIndex : Z; op_lastIndex : Z; op_perSlotCount : Z; op_totalCount : Z; op_vars : V }.

Inductive op_outcome :=
  | OpReturned (err : option error) (s : op_state)
  | OpPanicked (what : string)
  | OpRunning (s : op_state).

Context (t : OpTask) (w : world).

Definition op_finish (s : op_state) : op_outcome :=
  OpReturned None (mkOpState (op_nextIndex s) (op_lastIndex s) (op_perSlotCount s) (op_totalCount s)
                     (op_afterLoop t (op_totalCount s) (op_vars s))).

(** The tests at the end of attempt [k]: leave, or go on with a state. *)
Definition op_end (k : nat) (s : op_state) : op_state + op_outcome :=
  if (0 <? op_lastIndex s) && (op_lastIndex s <=? op_nextIndex s) then inr (op_finish s)
  else if (0 <? op_LimitTotal t) && (op_LimitTotal t <=? op_totalCount s) then inr (op_finish s)
  else if (0 <? op_LimitPerSlot t) && (op_LimitPerSlot t <=? op_perSlotCount s) then
    let s := mkOpState (op_nextIndex s) (op_lastIndex s) 0 (op_totalCount s) (op_vars s) in
    if w_block w k then inl s else inr (OpReturned None s)
  else match w_ctxErr w k with Some e => inr (OpReturned (Some e) s) | None => inl s end.

(** Attempt [k] and the following ones, while there is fuel. *)
Fixpoint op_loop (fuel k : nat) (s : op_state) : op_outcome :=
  match fuel with
  | O => OpRunning s
  | S fuel =>
      let accountIdx := op_nextIndex s in
      let next := op_nextIndex s +u 1 in
      match w_generate w k accountIdx with
      | Panic p => OpPanicked p
      | r =>
          let s :=
            match r with
            | Ret op => mkOpState next (op_lastIndex s) (op_perSlotCount s + 1) (op_totalCount s + 1) (op_onSuccess t op (op_vars s))
            | _ => mkOpState next (op_lastIndex s) (op_perSlotCount s) (op_totalCount s) (op_vars s)
            end in
          match op_end k s with inl s => op_loop fuel (S k) s | inr out => out end
      end
  end.

Definition op_start (StartIndex IndexCount : Z) (v : V) : op_state :=
  let nextIndex := if 0 <? StartIndex then u64 StartIndex else 0 in
  let lastIndex := if 0 <? IndexCount then nextIndex +u u64 IndexCount else 0 in
  mkOpState nextIndex lastIndex 0 0 v.

(** ** What a loop over a range does *)

Fixpoint successes (rs : list (go Op)) : list Op :=
  match rs with [] => [] | Ret op :: rs => op :: successes rs | _ :: rs => successes rs end.

(** The first operations of a list, up to the total limit, [done] of it
    being used up. *)
Definition limited (limit done : Z) (ops : list Op) : list Op :=
  if 0 <? limit then take (Z.to_nat (limit - done)) ops else ops.

Definition results (k : nat) (from : Z) (n : nat) : list (go Op) :=
  (fun j => w_generate w (k + j)%nat (from + Z.of_nat j)) <$> seq 0 n.

Lemma results_S k from n : results k from (S n) = w_generate w k from :: results (S k) (from + 1) n.
Proof.
  unfold results. cbn [seq]. rewrite fmap_cons. f_equal; [f_equal; lia|].
  rewrite <- seq_shift, <- list_fmap_compose. apply list_fmap_ext. intros i x _. simpl. f_equal; lia.
Qed.

Hypothesis no_cancel : forall k, w_ctxErr w k = None.
Hypothesis blocks_arrive : forall k, w_block w k = true.

Lemma op_loop_S fuel k s :
  op_loop (S fuel) k s =
    match w_generate w k (op_nextIndex s) with
    | Panic p => OpPanicked p
    | r =>
        match op_end k (match r with
            | Ret op => mkOpState (op_nextIndex s +u 1) (op_lastIndex s) (op_perSlotCount s + 1) (op_totalCount s + 1)
                          (op_onSuccess t op (op_vars s))
            | _ => mkOpState (op_nextIndex s +u 1) (op_lastIndex s) (op_perSlotCount s) (op_totalCount s) (op_vars s)
            end) with
        | inl s => op_loop fuel (S k) s
        | inr out => out
        end
    end.
Proof. reflexivity. Qed.

Lemma limited_cons limit dn op ops :
  (0 < limit -> dn < limit) -> limited limit dn (op :: ops) = op :: limited limit (dn + 1) ops.
Proof.
  intros Hl. unfold limited. destruct (0 <? limit) eqn:H0; [|done].
  replace (Z.to_nat (limit - dn)) with (S (Z.to_nat (limit - (dn + 1)))) by lia. done.
Qed.

Lemma limited_none limit dn ops : 0 < limit <= dn -> limited limit dn ops = [].
Proof.
  intros Hl. unfold limited. assert (0 <? limit = true) as -> by lia.
  replace (Z.to_nat (limit - dn)) with O by lia. done.
Qed.

(** In the middle of the range only the total limit ends the loop. *)
Lemma op_end_cases k s :
  op_nextIndex s < op_lastIndex s ->
  (0 < op_LimitTotal t <= op_totalCount s /\ op_end k s = inr (op_finish s)) \/
  ((0 < op_LimitTotal t -> op_totalCount s < op_LimitTotal t) /\
   exists ps, op_end k s = inl (mkOpState (op_nextIndex s) (op_lastIndex s) ps (op_totalCount s) (op_vars s))).
Proof.
  intros Hlt. unfold op_end. rewrite blocks_arrive, no_cancel.
  assert ((0 <? op_lastIndex s) && (op_lastIndex s <=? op_nextIndex s) = false) as -> by lia.
  destruct ((0 <? op_LimitTotal t) && (op_LimitTotal t <=? op_totalCount s)) eqn:Hl; [left; split; [lia|done]|].
  right. split; [lia|]. destruct ((0 <? op_LimitPerSlot t) && _); [by eexists|]. exists (op_perSlotCount s). by destruct s.
Qed.

Lemma op_loop_range n : forall k s,
  op_lastIndex s = op_nextIndex s + Z.of_nat (S n) -> 0 <= op_nextIndex s -> op_lastIndex s < two64 ->
  (0 < op_LimitTotal t -> op_totalCount s < op_LimitTotal t) ->
  (forall r, r ∈ results k (op_nextIndex s) (S n) -> match r with Panic _ => False | _ => True end) ->
  let ops := limited (op_LimitTotal t) (op_totalCount s) (successes (results k (op_nextIndex s) (S n))) in
  exists s', op_loop (S n) k s = OpReturned None s' /\
    op_totalCount s' = op_totalCount s + Z.of_nat (length ops) /\
    op_vars s' = op_afterLoop t (op_totalCount s') (fold_left (fun v op => op_onSuccess t op v) ops (op_vars s)).
Proof.
  induction n as [|n IH]; intros k s Hlast H0 H64 Hlim Hnp; rewrite results_S in *; intros ops; rewrite op_loop_S;
    rewrite u64_add_lt by go_lia;
    pose proof (Hnp (w_generate w k (op_nextIndex s)) ltac:(by left)) as Hr.
  - assert (Hend : forall s1, op_nextIndex s1 = op_nextIndex s + 1 -> op_lastIndex s1 = op_lastIndex s ->
      op_end k s1 = inr (op_finish s1)).
    { intros s1 E1 E2. unfold op_end. rewrite E1, E2.
      assert ((0 <? op_lastIndex s) && (op_lastIndex s <=? op_nextIndex s + 1) = true) as -> by lia. done. }
    unfold ops, results. simpl successes.
    destruct (w_generate w k (op_nextIndex s)) as [op|e|p]; [| |done]; rewrite Hend by done; eexists; (split; [done|]).
    + rewrite limited_cons by done. unfold limited. rewrite take_nil. simpl. by destruct (0 <? op_LimitTotal t).
    + unfold limited. rewrite take_nil. destruct (0 <? op_LimitTotal t); simpl; (split; [lia|done]).
  - assert (Hnp' : forall r, r ∈ results (S k) (op_nextIndex s + 1) (S n) -> match r with Panic _ => False | _ => True end).
    { intros r Hin. apply Hnp. by right. }
    destruct (w_generate w k (op_nextIndex s)) as [op|e|p]; [| |done]; simpl successes in ops.
    + set (s1 := mkOpState _ _ _ _ _). destruct (op_end_cases k s1) as [(Hl & ->)|(Hl & ps & ->)]; [simpl; lia| |].
      * eexists. split; [done|]. unfold ops. rewrite limited_cons by done.
        rewrite limited_none by (simpl in Hl; lia). simpl. by split.
      * destruct (IH (S k) (mkOpState (op_nextIndex s1) (op_lastIndex s1) ps (op_totalCount s1) (op_vars s1)))
          as (s' & -> & Ht & Hv); simpl; try done; try lia.
        exists s'. split; [done|]. unfold ops. rewrite limited_cons by done. simpl in Ht, Hv |- *.
        split; [rewrite Ht; simpl; lia|done].
    + set (s1 := mkOpState _ _ _ _ _). destruct (op_end_cases k s1) as [(Hl & ->)|(Hl & ps & ->)]; [simpl; lia| |].
      * simpl in Hl. lia.
      * destruct (IH (S k) (mkOpState (op_nextIndex s1) (op_lastIndex s1) ps (op_totalCount s1) (op_vars s1)))
          as (s' & -> & Ht & Hv); simpl; try done; try lia.
        by exists s'.
Qed.
End op_loop.

(** ** Voluntary exits *)

Section operations.
Context `{crypto : Eth2Crypto}.

(** SSZ roots of the signed messages. *)
Record VoluntaryExit := mkVoluntaryExit { ve_Epoch : Z; ve_ValidatorIndex : Z }.
Record BLSToExecutionChange := mkBlsChange { bc_ValidatorIndex : Z; bc_FromBLSPubKey : bytes; bc_ToExecutionAddress : bytes }.
Record Checkpoint := mkCheckpoint { cp_Epoch : Z; cp_Root : bytes }.
Record AttestationData := mkAttestationData {
  ad_Slot : Z; ad_Index : Z; ad_BeaconBlockRoot : bytes; ad_Source : Checkpoint; ad_Target : Checkpoint }.
Record BeaconBlockHeader := mkHeader {
  bh_Slot : Z; bh_ProposerIndex : Z; bh_ParentRoot : bytes; bh_StateRoot : bytes; bh_BodyRoot : bytes }.

Class Eth2Roots := {
  root_exit : VoluntaryExit -> result bytes;
  root_bls_change : BLSToExecutionChange -> bytes;
  root_attestation : AttestationData -> result bytes;
  root_header : BeaconBlockHeader -> result bytes
}.
Context `{roots : Eth2Roots}.

Record Fork := mkFork { fork_Epoch : Z; fork_CurrentVersion : bytes }.
Record Specs := mkSpecs { SlotsPerEpoch : Z; CappellaForkEpoch : Z; CappellaForkVersion : bytes }.
Record Genesis := mkGenesis { GenesisForkVersion : bytes; GenesisValidatorsRoot : bytes }.

Record ExitsConfig := mkExitsConfig {
  ex_LimitPerSlot : Z; ex_LimitTotal : Z; ex_Mnemonic : string; ex_StartIndex : Z; ex_IndexCount : Z; ex_ExitEpoch : Z;
  ex_ClientPattern : string; ex_ExcludeClientPattern : string }.

Definition exits_DefaultConfig : ExitsConfig := mkExitsConfig 0 0 "" 0 0 0 "" "".

Definition exits_Validate (c : ExitsConfig) : option error :=
  if (ex_LimitPerSlot c =? 0) && (ex_LimitTotal c =? 0) && (ex_IndexCount c =? 0)
  then Some "either limitPerSlot or limitTotal or indexCount must be set"
  else if bool_decide (ex_Mnemonic c = "") then Some "mnemonic must be set"
  else None.

(** The client an operation goes to: without patterns the one ready endpoint
    of the pool, nil when there is none, else the first that matches. *)
Definition pick_client {C} (clientPattern excludeClientPattern : string) (ready : option C) (matched : list C)
    : result (option C) :=
  if bool_decide (clientPattern = "") && bool_decide (excludeClientPattern = "") then Ok ready
  else match matched with [] => Err ("no client found with pattern " +:+ clientPattern) | c :: _ => Ok (Some c) end.

Definition derive (seed : Seed) (path : string) : go BLSPrivateKey :=
  match PrivateKeyFromSeedAndPath seed path with
  | Err e => Fail ("failed generating key " +:+ path +:+ ": " +:+ e)
  | Ok key => Ret key
  end.

Definition signed {Op} (key : BLSPrivateKey) (root : result bytes) (dom : bytes) (msg : Op) : go (Op * bytes) :=
  do! root := of_result root in
  do! _ := of_result (Deserialize key) in
  Ret (msg, pad_to 96 (SignHash key (ComputeSigningRoot root dom))).

(** [generateVoluntaryExit] up to the submission: the client and the signed
    message; [head] is [GetLastHead] of a client. *)
Definition build_exit {C} (c : ExitsConfig) (seed : Seed) (validatorSet : list Validator) (specs : Specs) (genesis : Genesis)
    (ready : option C) (matched : list C) (head : C -> Z) (fork : option Fork) (accountIdx : Z)
    : go (C * (VoluntaryExit * bytes)) :=
  do! key := derive seed (validator_path accountIdx) in
  match find_validator (PublicKey_Marshal key) validatorSet with
  | None => Fail "validator not found"
  | Some validator =>
      if negb (v_ExitEpoch validator =? MaxUint64) then Fail "validator is already exited"
      else
        do! client := of_result (pick_client (ex_ClientPattern c) (ex_ExcludeClientPattern c) ready matched) in
        do! epoch :=
          if 0 <=? ex_ExitEpoch c then Ret (ex_ExitEpoch c)
          else
            match client with
            | None => Panic "nil pointer dereference"
            | Some client => if SlotsPerEpoch specs =? 0 then Panic "integer divide by zero" else Ret (head client / SlotsPerEpoch specs)
            end in
        let operation := mkVoluntaryExit epoch (v_Index validator) in
        do! root := of_result (root_exit operation) in
        do! _ := of_result (Deserialize key) in
        match fork with
        | None => Panic "nil pointer dereference"
        | Some fork =>
            let forkVersion := if CappellaForkEpoch specs <=? fork_Epoch fork then CappellaForkVersion specs
                               else fork_CurrentVersion fork in
            let dom := ComputeDomain "DOMAIN_VOLUNTARY_EXIT" forkVersion (GenesisValidatorsRoot genesis) in
            do! msg := signed key (Ok root) dom operation in
            match client with
            | None => Panic "nil pointer dereference"
            | Some client => Ret (client, msg)
            end
        end
  end.

(** The whole attempt: [submit] is the node's answer. *)
Definition generateVoluntaryExit {C} (c : ExitsConfig) (seed : Seed) (validatorSet : list Validator) (specs : Specs)
    (genesis : Genesis) (ready : option C) (matched : list C) (head : C -> Z)
    (submit : C -> VoluntaryExit * bytes -> option error) (fork : option Fork) (accountIdx : Z) : go (VoluntaryExit * bytes) :=
  do! m := build_exit c seed validatorSet specs genesis ready matched head fork accountIdx in
  match submit m.1 m.2 with Some e => Fail e | None => Ret m.2 end.

(** [Execute]: the last result that was set. *)
Definition exits_task (c : ExitsConfig) : OpTask (Op := VoluntaryExit * bytes) (V := option TaskResult) := {|
  op_LimitPerSlot := ex_LimitPerSlot c; op_LimitTotal := ex_LimitTotal c;
  op_onSuccess := fun _ _ => Some TaskResultSuccess;
  op_afterLoop := fun totalCount v => if totalCount =? 0 then Some TaskResultFailure else v |}.

Definition exits_Execute (c : ExitsConfig) (w : world (Op := VoluntaryExit * bytes)) (fork : result (option Fork)) (fuel : nat) :=
  match fork with
  | Err e => Err e
  | Ok _ => Ok (op_loop (exits_task c) w fuel 0 (op_start (ex_StartIndex c) (ex_IndexCount c) None))
  end.

(** ** Changes of withdrawal credentials *)

Record BlsChangesConfig := mkBlsChangesConfig {
  bl_LimitPerSlot : Z; bl_LimitTotal : Z; bl_Mnemonic : string; bl_StartIndex : Z; bl_IndexCount : Z;
  bl_TargetAddress : string; bl_ClientPattern : string; bl_ExcludeClientPattern : string }.

Definition bls_DefaultConfig : BlsChangesConfig := mkBlsChangesConfig 0 0 "" 0 0 "" "" "".

Definition bls_Validate (c : BlsChangesConfig) : option error :=
  if (bl_LimitPerSlot c =? 0) && (bl_LimitTotal c =? 0) && (bl_IndexCount c =? 0)
  then Some "either limitPerSlot or limitTotal or indexCount must be set"
  else if bool_decide (bl_Mnemonic c = "") then Some "mnemonic must be set"
  else if bool_decide (bl_TargetAddress c = "") then Some "targetAddress must be set"
  else None.

(** [generateBlsChange]; [ready] is what [AwaitReadyEndpoint] returned, with
    the context's error when it is nil; the conversion of the message through
    JSON keeps it. *)
Definition generateBlsChange {C} (c : BlsChangesConfig) (seed : Seed) (targetAddr : bytes) (validatorSet : list Validator)
    (genesis : Genesis) (ready : option C) (ctxErr : error) (matched : list C)
    (submit : C -> BLSToExecutionChange * bytes -> option error) (accountIdx : Z) : go (BLSToExecutionChange * bytes) :=
  do! key := derive seed (validator_path accountIdx) in
  match find_validator (PublicKey_Marshal key) validatorSet with
  | None => Fail "validator not found"
  | Some validator =>
      match v_WithdrawalCredentials validator with
      | [] => Panic "index out of range"
      | prefix :: _ =>
          if negb (bool_decide (prefix = x00)) then Fail "validator does not have 0x00 withdrawal creds"
          else
            do! withdr := derive seed (withdrawal_path accountIdx) in
            let msg := mkBlsChange (v_Index validator) (pad_to 48 (PublicKey_Marshal withdr)) targetAddr in
            let dom := ComputeDomain "DOMAIN_BLS_TO_EXECUTION_CHANGE" (GenesisForkVersion genesis) (GenesisValidatorsRoot genesis) in
            do! signedMsg := signed withdr (Ok (root_bls_change msg)) dom msg in
            do! client := of_result (pick_client (bl_ClientPattern c) (bl_ExcludeClientPattern c) ready matched) in
            match client with
            | None => Fail ctxErr
            | Some client => match submit client signedMsg with Some e => Fail e | None => Ret signedMsg end
            end
      end
  end.

(** [Execute]: the list of changes, published after each, and the result. *)
Definition bls_task (c : BlsChangesConfig)
    : OpTask (Op := BLSToExecutionChange * bytes) (V := list (BLSToExecutionChange * bytes) * option TaskResult) := {|
  op_LimitPerSlot := bl_LimitPerSlot c; op_LimitTotal := bl_LimitTotal c;
  op_onSuccess := fun op v => (v.1 ++ [op], Some TaskResultSuccess);
  op_afterLoop := fun _ v => v |}.

(** ** Slashings *)

Record SlashingsConfig := mkSlashingsConfig {
  sl_SlashingType : string; sl_LimitPerSlot : Z; sl_LimitTotal : Z; sl_Mnemonic : string; sl_StartIndex : Z;
  sl_IndexCount : Z; sl_ClientPattern : string; sl_ExcludeClientPattern : string }.

Definition slashings_DefaultConfig : SlashingsConfig := mkSlashingsConfig "attester" 0 0 "" 0 0 "" "".

Definition slashings_Validate (c : SlashingsConfig) : option error :=
  if (sl_LimitPerSlot c =? 0) && (sl_LimitTotal c =? 0) && (sl_IndexCount c =? 0)
  then Some "either limitPerSlot or limitTotal or indexCount must be set"
  else if bool_decide (sl_Mnemonic c = "") then Some "mnemonic must be set"
  else None.

Record IndexedAttestation := mkIndexed { ia_AttestingIndices : list Z; ia_Data : AttestationData; ia_Signature : bytes }.
Record AttesterSlashing := mkAttesterSlashing { Attestation1 : IndexedAttestation; Attestation2 : IndexedAttestation }.
Record SignedHeader := mkSignedHeader { sh_Message : BeaconBlockHeader; sh_Signature : bytes }.
Record ProposerSlashing := mkProposerSlashing { SignedHeader1 : SignedHeader; SignedHeader2 : SignedHeader }.

(** The fixed roots: 32 bytes each. *)
Definition root_of (b : Byte.byte) : bytes := replicate 32 b.

Definition attestation_data1 (specs : Specs) (blockRoot : bytes) (slot1 : Z) : AttestationData :=
  let targetEpoch1 := slot1 / SlotsPerEpoch specs in
  mkAttestationData slot1 0 blockRoot (mkCheckpoint (targetEpoch1 -u 3) (root_of x10)) (mkCheckpoint targetEpoch1 (root_of xaa)).
Definition attestation_data2 (specs : Specs) (blockRoot : bytes) (slot1 : Z) : AttestationData :=
  let slot2 := slot1 -u SlotsPerEpoch specs -u 2 in
  let targetEpoch2 := slot2 / SlotsPerEpoch specs in
  mkAttestationData slot2 0 blockRoot (mkCheckpoint targetEpoch2 (root_of x10)) (mkCheckpoint targetEpoch2 (root_of xbb)).

(** [generateSurroundAttesterSlashing]; [blockRoot] is the fixed block root,
    [slot] and [epoch] the wall clock. *)
Definition generateSurroundAttesterSlashing (specs : Specs) (genesis : Genesis) (blockRoot : bytes) (slot epoch : Z)
    (validatorIndex : Z) (key : BLSPrivateKey) (forkState : option Fork) : go AttesterSlashing :=
  if epoch <? 4 then Fail "current epoch too low (require epoch >= 4)"
  else if SlotsPerEpoch specs =? 0 then Panic "integer divide by zero"
  else
    let data1 := attestation_data1 specs blockRoot slot in
    let data2 := attestation_data2 specs blockRoot slot in
    match forkState with
    | None => Panic "nil pointer dereference"
    | Some forkState =>
        let dom := ComputeDomain "DOMAIN_BEACON_ATTESTER" (fork_CurrentVersion forkState) (GenesisValidatorsRoot genesis) in
        do! _ := of_result (Deserialize key) in
        do! sig1 := signed key (root_attestation data1) dom data1 in
        do! sig2 := signed key (root_attestation data2) dom data2 in
        Ret (mkAttesterSlashing (mkIndexed [validatorIndex] data1 sig1.2) (mkIndexed [validatorIndex] data2 sig2.2))
    end.

Definition generateProposerSlashing (genesis : Genesis) (slot : Z) (validatorIndex : Z) (key : BLSPrivateKey)
    (forkState : option Fork) : go ProposerSlashing :=
  let headerData1 := mkHeader slot validatorIndex (root_of x10) (root_of xaa) (root_of xa1) in
  let headerData2 := mkHeader slot validatorIndex (root_of x10) (root_of xbb) (root_of xb1) in
  match forkState with
  | None => Panic "nil pointer dereference"
  | Some forkState =>
      let dom := ComputeDomain "DOMAIN_BEACON_PROPOSER" (fork_CurrentVersion forkState) (GenesisValidatorsRoot genesis) in
      do! _ := of_result (Deserialize key) in
      do! sig1 := signed key (root_header headerData1) dom headerData1 in
      do! sig2 := signed key (root_header headerData2) dom headerData2 in
      Ret (mkProposerSlashing (mkSignedHeader headerData1 sig1.2) (mkSignedHeader headerData2 sig2.2))
  end.

(** [generateSlashing] *)
Definition generateSlashing {C} (c : SlashingsConfig) (seed : Seed) (validatorSet : list Validator) (specs : Specs)
    (genesis : Genesis) (blockRoot : bytes) (slot epoch : Z) (ready : option C) (matched : list C)
    (submit : C -> AttesterSlashing + ProposerSlashing -> option error) (forkState : option Fork) (accountIdx : Z)
    : go (AttesterSlashing + ProposerSlashing) :=
  do! key := derive seed (validator_path accountIdx) in
  match find_validator (PublicKey_Marshal key) validatorSet with
  | None => Fail "validator not found"
  | Some validator =>
      if negb (bool_decide (v_Status validator = "active_ongoing")) then Fail "validator is not active"
      else
        do! slashing :=
          if bool_decide (sl_SlashingType c ∈ ["attester"; "surround_attester"]) then
            match generateSurroundAttesterSlashing specs genesis blockRoot slot epoch (v_Index validator) key forkState with
            | Ret s => Ret (inl s)
            | Fail e => Fail ("failed generating slashing: " +:+ e)
            | Panic p => Panic p
            end
          else if bool_decide (sl_SlashingType c = "proposer") then
            match generateProposerSlashing genesis slot (v_Index validator) key forkState with
            | Ret s => Ret (inr s)
            | Fail e => Fail ("failed generating slashing: " +:+ e)
            | Panic p => Panic p
            end
          else Fail ("unknown slashing type: " +:+ sl_SlashingType c) in
        do! client := of_result (pick_client (sl_ClientPattern c) (sl_ExcludeClientPattern c) ready matched) in
        match client with
        | None => Panic "nil pointer dereference"
        | Some client => match submit client slashing with Some e => Fail e | None => Ret slashing end
        end
  end.

Definition slashings_task (c : SlashingsConfig)
    : OpTask (Op := AttesterSlashing + ProposerSlashing) (V := option TaskResult) := {|
  op_LimitPerSlot := sl_LimitPerSlot c; op_LimitTotal := sl_LimitTotal c;
  op_onSuccess := fun _ _ => Some TaskResultSuccess; op_afterLoop := fun _ v => v |}.

(** ** Lemmas *)

Lemma signed_Ret {Op} key root dom (msg : Op) r :
  signed key root dom msg = Ret r ->
  exists h, root = Ok h /\ r = (msg, pad_to 96 (SignHash key (ComputeSigningRoot h dom))).
Proof.
  unfold signed. destruct root as [h|]; [|done]. simpl. destruct (Deserialize key); simpl; [|done].
  intros [= <-]. eauto.
Qed.

Lemma find_validator_Some pubkey set v : find_validator pubkey set = Some v -> v ∈ set /\ v_PublicKey v = pubkey.
Proof.
  unfold find_validator. destruct (list_find _ set) as [[i w]|] eqn:Hf; simpl; [|done]. intros [= <-].
  apply list_find_Some in Hf as (Hi & Hw & _). split; [by eapply list_elem_of_lookup_2|done].
Qed.

(** ** Properties *)

(** The consensus specification: two different votes for one target, or a
    vote that surrounds the other. *)
Definition is_slashable_attestation_data (d1 d2 : AttestationData) : Prop :=
  (d1 <> d2 /\ cp_Epoch (ad_Target d1) = cp_Epoch (ad_Target d2)) \/
  (cp_Epoch (ad_Source d1) < cp_Epoch (ad_Source d2) /\ cp_Epoch (ad_Target d2) < cp_Epoch (ad_Target d1)).

(** Two different headers of one proposer for one slot. *)
Definition is_slashable_headers (h1 h2 : BeaconBlockHeader) : Prop :=
  bh_Slot h1 = bh_Slot h2 /\ bh_ProposerIndex h1 = bh_ProposerIndex h2 /\ h1 <> h2.

Lemma surround_epochs specs slot blockRoot :
  2 <= SlotsPerEpoch specs -> is_u64 slot -> 4 <= slot / SlotsPerEpoch specs ->
  let d1 := attestation_data1 specs blockRoot slot in
  let d2 := attestation_data2 specs blockRoot slot in
  cp_Epoch (ad_Source d1) < cp_Epoch (ad_Source d2) /\ cp_Epoch (ad_Target d2) < cp_Epoch (ad_Target d1).
Proof.
  intros HS Hu H4. simpl. set (S := SlotsPerEpoch specs) in *.
  assert (Hq : 4 * S <= slot) by (pose proof (Z.mul_div_le slot S ltac:(lia)); nia).
  assert (Hle : slot / S <= slot) by (apply Z.div_le_upper_bound; nia).
  rewrite (u64_sub_ge slot S), (u64_sub_ge (slot - S) 2), (u64_sub_ge (slot / S) 3) by go_lia.
  pose proof (Z.mul_div_le slot S ltac:(lia)). pose proof (Z.mul_succ_div_gt slot S ltac:(lia)).
  pose proof (Z.mul_div_le (slot - S - 2) S ltac:(lia)). pose proof (Z.mul_succ_div_gt (slot - S - 2) S ltac:(lia)).
  split; nia.
Qed.

(** C23: What generate_slashings submits is slashable.  Whenever it reports a
    slashing as sent, the key of the index belongs to an active validator of
    the set; an attester slashing has that validator alone on both sides and
    two attestations one of which surrounds the other (epochs of at least two
    slots, the clock at the epoch of its slot); a proposer slashing has two
    different headers of that proposer for the current slot. *)
Theorem slashing_is_slashable {C} (c : SlashingsConfig) seed set specs genesis blockRoot slot epoch
    (ready : option C) matched submit forkState accountIdx sl :
  2 <= SlotsPerEpoch specs -> is_u64 slot -> epoch = slot / SlotsPerEpoch specs ->
  generateSlashing c seed set specs genesis blockRoot slot epoch ready matched submit forkState accountIdx = Ret sl ->
  exists key v, PrivateKeyFromSeedAndPath seed (validator_path accountIdx) = Ok key /\
    v ∈ set /\ v_PublicKey v = PublicKey_Marshal key /\ v_Status v = "active_ongoing" /\
    match sl with
    | inl a =>
        ia_AttestingIndices (Attestation1 a) = [v_Index v] /\ ia_AttestingIndices (Attestation2 a) = [v_Index v] /\
        is_slashable_attestation_data (ia_Data (Attestation1 a)) (ia_Data (Attestation2 a))
    | inr p =>
        bh_ProposerIndex (sh_Message (SignedHeader1 p)) = v_Index v /\
        is_slashable_headers (sh_Message (SignedHeader1 p)) (sh_Message (SignedHeader2 p))
    end.
Proof.
  intros HS Hu He Hgen. unfold generateSlashing, derive in Hgen.
  destruct (PrivateKeyFromSeedAndPath seed _) as [key|] eqn:Hkey; [|done]. simpl in Hgen.
  destruct (find_validator _ set) as [v|] eqn:Hv; [|done]. apply find_validator_Some in Hv as [Hin Hpk].
  destruct (bool_decide (v_Status v = _)) eqn:Hst; [|done]. apply bool_decide_eq_true in Hst. simpl in Hgen.
  apply go_bind_Ret in Hgen as (slashing & Hsl & Hgen).
  destruct (of_result _) as [[client|]| |]; simpl in Hgen; try done.
  destruct (submit client slashing); [done|]. injection Hgen as ->.
  exists key, v. split_and!; try done.
  destruct (bool_decide (sl_SlashingType c ∈ _)); [|destruct (bool_decide (sl_SlashingType c = _)); [|done]].
  - destruct (generateSurroundAttesterSlashing _ _ _ _ _ _ _ _) as [a| |] eqn:Ha; [|done..]. injection Hsl as <-.
    unfold generateSurroundAttesterSlashing in Ha. destruct (epoch <? 4) eqn:H4; [done|].
    destruct (SlotsPerEpoch specs =? 0); [done|]. destruct forkState as [fs|]; [|done].
    apply go_bind_Ret in Ha as (_ & _ & Ha). apply go_bind_Ret in Ha as (s1 & _ & Ha). apply go_bind_Ret in Ha as (s2 & _ & Ha).
    injection Ha as <-. split_and!; [done..|]. right. by apply surround_epochs; [..|lia].
  - destruct (generateProposerSlashing _ _ _ _ _) as [p| |] eqn:Hp; [|done..]. injection Hsl as <-.
    unfold generateProposerSlashing in Hp. destruct forkState as [fs|]; [|done].
    apply go_bind_Ret in Hp as (_ & _ & Hp). apply go_bind_Ret in Hp as (s1 & _ & Hp). apply go_bind_Ret in Hp as (s2 & _ & Hp).
    injection Hp as <-. split; [done|]. split_and!; done.
Qed.

(** A sent exit is one the network can accept: its validator is in the set,
    has the key of the index and has not exited; the signature is over the
    message's root in the exit domain of the Capella fork (the current fork
    before it); and without a configured epoch it names the head's epoch. *)
Theorem exit_is_valid {C} (c : ExitsConfig) seed set specs genesis (ready : option C) matched head submit fork accountIdx m :
  generateVoluntaryExit c seed set specs genesis ready matched head submit (Some fork) accountIdx = Ret m ->
  exists key v root client, PrivateKeyFromSeedAndPath seed (validator_path accountIdx) = Ok key /\
    v ∈ set /\ v_PublicKey v = PublicKey_Marshal key /\ v_ExitEpoch v = MaxUint64 /\
    ve_ValidatorIndex m.1 = v_Index v /\
    ve_Epoch m.1 = (if 0 <=? ex_ExitEpoch c then ex_ExitEpoch c else head client / SlotsPerEpoch specs) /\
    root_exit m.1 = Ok root /\ submit client m = None /\
    m.2 = pad_to 96 (SignHash key (ComputeSigningRoot root (ComputeDomain "DOMAIN_VOLUNTARY_EXIT"
            (if CappellaForkEpoch specs <=? fork_Epoch fork then CappellaForkVersion specs else fork_CurrentVersion fork)
            (GenesisValidatorsRoot genesis)))).
Proof.
  unfold generateVoluntaryExit. intros Hgen. apply go_bind_Ret in Hgen as ([client m'] & Hb & Hsub). simpl in Hsub.
  destruct (submit client m') eqn:Hs; [done|]. injection Hsub as ->. unfold build_exit, derive in Hb.
  destruct (PrivateKeyFromSeedAndPath seed _) as [key|] eqn:Hkey; [|done]. simpl in Hb.
  destruct (find_validator _ set) as [v|] eqn:Hv; [|done]. apply find_validator_Some in Hv as [Hin Hpk].
  destruct (v_ExitEpoch v =? MaxUint64) eqn:Hex; [|done]. simpl in Hb.
  apply go_bind_Ret in Hb as (oc & Hoc & Hb). apply go_bind_Ret in Hb as (ep & Hep & Hb).
  apply go_bind_Ret in Hb as (root & Hroot & Hb). apply go_bind_Ret in Hb as (_ & _ & Hb).
  apply go_bind_Ret in Hb as (msg & Hmsg & Hb). destruct oc as [cl|]; [|done]. injection Hb as <- <-.
  apply signed_Ret in Hmsg as (h & [= <-] & ->). exists key, v, root, cl. simpl.
  destruct (root_exit _) as [r|] eqn:Hr; [|done]. injection Hroot as <-.
  split_and!; try done; [lia|]. destruct (0 <=? ex_ExitEpoch c); [by injection Hep as <-|].
  destruct (SlotsPerEpoch specs =? 0); [done|]. by injection Hep as <-.
Qed.

(** With a range of indexes the task ends by itself, after one attempt per
    index at most: if the context is not cancelled, blocks arrive and no
    attempt panics, [IndexCount] attempts of the loop are enough; the exits
    sent are the successful ones in the order of the indexes, up to
    [LimitTotal], and the result is a failure exactly when there is none. *)
Theorem exits_range_processed (c : ExitsConfig) (w : world (Op := VoluntaryExit * bytes)) fork :
  let start := Z.max 0 (ex_StartIndex c) in
  let n := Z.to_nat (ex_IndexCount c) in
  is_i64 (ex_StartIndex c) -> is_i64 (ex_IndexCount c) -> 0 < ex_IndexCount c ->
  (forall k, w_ctxErr w k = None) -> (forall k, w_block w k = true) ->
  (forall r, r ∈ results w 0 start n -> match r with Panic _ => False | _ => True end) ->
  let sent := limited (ex_LimitTotal c) 0 (successes (results w 0 start n)) in
  exists s, exits_Execute c w (Ok fork) n = Ok (OpReturned None s) /\
    op_totalCount s = Z.of_nat (length sent) /\
    op_vars s = Some (if sent is [] then TaskResultFailure else TaskResultSuccess).
Proof.
  intros start n HS HC Hpos Hctx Hblk Hnp sent. unfold exits_Execute, op_start.
  assert ((if 0 <? ex_StartIndex c then u64 (ex_StartIndex c) else 0) = start) as ->.
  { unfold start. destruct (0 <? ex_StartIndex c) eqn:H0; [rewrite u64_id by go_lia|]; lia. }
  assert (0 <? ex_IndexCount c = true) as -> by lia.
  assert (start +u u64 (ex_IndexCount c) = start + ex_IndexCount c) as -> by (rewrite (u64_id (ex_IndexCount c)), u64_add_lt by go_lia; lia).
  assert (exists m, n = S m) as [m Hm] by (exists (pred n); lia).
  assert (Hsent : sent = limited (op_LimitTotal (exits_task c)) 0 (successes (results w 0 start (S m))))
    by (unfold sent; by rewrite Hm).
  rewrite Hm in Hnp |- *.
  destruct (op_loop_range (exits_task c) w Hctx Hblk m 0 (mkOpState start (start + ex_IndexCount c) 0 0 None))
    as (s & -> & Ht & Hv); cbn [op_lastIndex op_nextIndex op_totalCount op_LimitTotal exits_task]; try done; try lia; [go_lia|].
  cbn [op_nextIndex op_totalCount op_vars] in Ht, Hv. rewrite <- Hsent in Ht, Hv. clear Hsent.
  exists s. split; [done|]. split; [lia|]. rewrite Hv, Ht. destruct sent as [|op ops]; [done|]. cbn [length fold_left].
  assert (0 + Z.of_nat (S (length ops)) =? 0 = false) as Hz by (apply Z.eqb_neq; lia).
  cbv beta iota delta [exits_task op_afterLoop op_onSuccess]. rewrite Hz. clear. by induction ops.
Qed.

(** The default configuration asks for epoch 0, not for the epoch of the
    head. *)
Lemma default_exit_epoch {C} seed set specs genesis (ready : option C) matched head submit fork accountIdx m :
  generateVoluntaryExit exits_DefaultConfig seed set specs genesis ready matched head submit fork accountIdx = Ret m ->
  ve_Epoch m.1 = 0.
Proof.
  unfold generateVoluntaryExit. intros Hgen. apply go_bind_Ret in Hgen as ([client m'] & Hb & Hsub). simpl in Hsub.
  destruct (submit client m') eqn:Hs; [done|]. injection Hsub as ->. unfold build_exit in Hb.
  apply go_bind_Ret in Hb as (key & _ & Hb). destruct (find_validator _ set) as [v|]; [|done].
  destruct (negb _); [done|]. apply go_bind_Ret in Hb as (oc & _ & Hb). simpl in Hb.
  apply go_bind_Ret in Hb as (root & _ & Hb). apply go_bind_Ret in Hb as (_ & _ & Hb). destruct fork; [|done].
  apply go_bind_Ret in Hb as (msg & Hmsg & Hb). destruct oc; [|done]. injection Hb as <- <-.
  apply signed_Ret in Hmsg as (h & _ & ->). done.
Qed.

(** No ready client (and no pattern): the attempt panics. *)
Lemma no_ready_client_panics {C} (c : ExitsConfig) seed set specs genesis matched (head : C -> Z) submit fork accountIdx key v root :
  PrivateKeyFromSeedAndPath seed (validator_path accountIdx) = Ok key -> Deserialize key = Ok tt ->
  find_validator (PublicKey_Marshal key) set = Some v -> v_ExitEpoch v = MaxUint64 ->
  ex_ClientPattern c = "" -> ex_ExcludeClientPattern c = "" -> (forall op, root_exit op = Ok (root op)) ->
  generateVoluntaryExit c seed set specs genesis None matched head submit (Some fork) accountIdx = Panic "nil pointer dereference".
Proof.
  intros Hk Hd Hv Hx Hp He Hr. unfold generateVoluntaryExit, build_exit, derive, pick_client.
  rewrite Hk. simpl. rewrite Hv, Hx, Hp, He. simpl.
  destruct (0 <=? ex_ExitEpoch c); simpl; [|done]. rewrite Hr. simpl. unfold signed. by rewrite Hd.
Qed.
End operations.

(** ** At concrete inputs *)

Definition ex_crypto_ops : Eth2Crypto := {|
  Seed := unit; BLSPrivateKey := string; PrivateKeyFromSeedAndPath := fun _ path => Ok path;
  PublicKey_Marshal := fun path => [byte_of_Z (Z.of_nat (String.length path))]; Deserialize := fun _ => Ok tt;
  SignHash := fun _ h => h; hashing_Hash := fun b => b; ComputeDomain := fun _ _ _ => []; ComputeSigningRoot := fun r _ => r;
  DepositMessage_root := fun _ _ _ => []; DepositData_root := fun _ _ _ _ => []; common_FromHex := fun _ => [] |}.
Definition ex_roots : Eth2Roots := {|
  root_exit := fun _ => Ok [x01]; root_bls_change := fun _ => [x02]; root_attestation := fun _ => Ok [x03];
  root_header := fun _ => Ok [x04] |}.
Definition ex_validators : list Validator :=
  [mkValidator 4 "active_ongoing" [byte_of_Z (Z.of_nat (String.length (validator_path 7)))] [x00] MaxUint64 32].
Definition ex_specs : Specs := mkSpecs 32 0 [x05].
Definition ex_genesis : Genesis := mkGenesis [] [].
Definition ex_exits : ExitsConfig := mkExitsConfig 0 0 "mnemonic" 7 2 (-1) "" "".

Definition ex_slashing : go (AttesterSlashing + ProposerSlashing) :=
  generateSlashing (crypto := ex_crypto_ops) (roots := ex_roots) slashings_DefaultConfig tt ex_validators ex_specs ex_genesis
    [] 200 6 (Some tt) [] (fun _ _ => None) (Some (mkFork 0 [])) 7.

Lemma slashing_is_slashable_witness :
  exists a, ex_slashing = Ret (inl a) /\
    is_slashable_attestation_data (ia_Data (Attestation1 a)) (ia_Data (Attestation2 a)).
Proof.
  destruct ex_slashing as [[a|p]| |] eqn:Hs; [|vm_compute in Hs; discriminate..].
  exists a. split; [reflexivity|].
  destruct (slashing_is_slashable (crypto := ex_crypto_ops) (roots := ex_roots) slashings_DefaultConfig tt ex_validators ex_specs
    ex_genesis [] 200 6 (Some tt) [] (fun _ _ => None) (Some (mkFork 0 [])) 7 (inl a)) as (key & v & _ & _ & _ & _ & _ & _ & H);
    [vm_compute; discriminate|go_lia|reflexivity|exact Hs|]. exact H.
Defined.

Definition ex_exit (idx : Z) : go (VoluntaryExit * bytes) :=
  generateVoluntaryExit (crypto := ex_crypto_ops) (roots := ex_roots) ex_exits tt ex_validators ex_specs ex_genesis
    (Some tt) [] (fun _ => 100) (fun _ _ => None) (Some (mkFork 0 [])) idx.

Lemma exit_is_valid_witness :
  exists m v, ex_exit 7 = Ret m /\ v ∈ ex_validators /\ ve_ValidatorIndex m.1 = v_Index v.
Proof.
  destruct (ex_exit 7) as [m| |] eqn:Hm; [|vm_compute in Hm; discriminate..].
  destruct (exit_is_valid (crypto := ex_crypto_ops) (roots := ex_roots) ex_exits tt ex_validators ex_specs ex_genesis
    (Some tt) [] (fun _ => 100) (fun _ _ => None) (mkFork 0 []) 7 m Hm) as (key & v & root & client & _ & Hin & _ & _ & Hidx & _).
  exists m, v. exact (conj eq_refl (conj Hin Hidx)).
Defined.

Definition ex_world : world (Op := VoluntaryExit * bytes) := mkWorld (fun _ => ex_exit) (fun _ => None) (fun _ => true).

Lemma exits_range_processed_witness :
  exists s, exits_Execute ex_exits ex_world (Ok (Some (mkFork 0 []))) 2 = Ok (OpReturned None s) /\
    op_totalCount s = Z.of_nat (length (limited 0 0 (successes (results ex_world 0 7 2)))) /\
    op_vars s = Some TaskResultSuccess.
Proof.
  apply (exits_range_processed ex_exits ex_world (Some (mkFork 0 [])));
    [vm_compute; split; [discriminate|reflexivity]|vm_compute; split; [discriminate|reflexivity]|reflexivity|reflexivity|reflexivity|].
  intros r Hr. assert (forallb (fun r => match r with Panic _ => false | _ => true end) (results ex_world 0 7 2) = true) as Hall
    by (vm_compute; reflexivity).
  apply (proj1 (forallb_elem_of _ _) Hall) in Hr. destruct r; [exact I|exact I|discriminate].
Defined.
