(* ===== verification/Clients.v ===== *)
(** * The client pool and the checks of its clients

    pkg/coordinator/clients/clients.go pairs a consensus and an execution
    endpoint per configured client; the tasks check_clients_are_healthy,
    check_consensus_sync_status and check_execution_sync_status poll the
    clients whose names match a pattern.  Regular expressions and the answers
    of the nodes are parameters. *)

From S2P Require Import Prelude Vars Db Scheduler BlockIndex Pool.
From S2P Require ClientLogic ExecClients.

#[local] Open Scope string_scope.
#[local] Open Scope list_scope.
Open Scope Z_scope.

(** [regexp.MatchString] *)
Class Regexp := { MatchString : string -> string -> result bool }.

(** ** The pool *)

Record ClientConfig := mkClientConfig { cc_Name : string; cc_ConsensusURL : string; cc_ExecutionURL : string }.

(** A pair of endpoints, by their positions in the two pools. *)
Record PairedClient := mkPaired { pc_Config : ClientConfig; pc_Consensus : nat; pc_Execution : nat }.

Section client_pool.
Context `{regexp : Regexp} {C1 C2 : Type} `{!PoolClient C1, !PoolClient C2}.

Record ClientPool := mkClientPool {
  consensusPool : Pool C1; executionPool : Pool C2; paired : list PairedClient }.

(** Both pools have a fork distance of 1 and the default scheduler. *)
Definition NewClientPool : result ClientPool :=
  match NewPool 1 "" with
  | Err e => Err ("could not init consensus pool: " +:+ e)
  | Ok cl =>
      match NewPool 1 "" with
      | Err e => Err ("could not init execution pool: " +:+ e)
      | Ok el => Ok (mkClientPool cl el [])
      end
  end.

(** [newCL] and [newEL] create the endpoints from the configuration. *)
Definition AddClient (newCL : ClientConfig -> Z -> result C1) (newEL : ClientConfig -> Z -> result C2)
    (config : ClientConfig) (pool : ClientPool) : ClientPool * option error :=
  match AddEndpoint (newCL config) (consensusPool pool) with
  | (cl, Err e) => (mkClientPool cl (executionPool pool) (paired pool), Some ("could not init consensus client: " +:+ e))
  | (cl, Ok consensusClient) =>
      match AddEndpoint (newEL config) (executionPool pool) with
      | (el, Err e) => (mkClientPool cl el (paired pool), Some ("could not init consensus client: " +:+ e))
      | (el, Ok executionClient) =>
          (mkClientPool cl el (paired pool ++ [mkPaired config consensusClient executionClient]), None)
      end
  end.

(** [clients[v], clients[i] = clients[i], clients[v]] *)
Definition swap {A} (i v : nat) (l : list A) : list A :=
  match l !! v, l !! i with Some x, Some y => <[i := x]> (<[v := y]> l) | _, _ => l end.

Definition name_matches (includePattern excludePattern : string) (client : PairedClient) : bool :=
  let matched (pattern : string) := match MatchString pattern (cc_Name (pc_Config client)) with Ok b => b | Err _ => false end in
  (bool_decide (includePattern = "") || matched includePattern) &&
  (bool_decide (excludePattern = "") || negb (matched excludePattern)).

(** [perm n] is what [rand.Perm(n)] returns. *)
Definition GetClientsByNamePatterns (perm : nat -> list nat) (includePattern excludePattern : string) (pool : ClientPool)
    : list PairedClient :=
  let clients := filterb (name_matches includePattern excludePattern) (paired pool) in
  fold_left (fun l e => swap e.1 e.2 l) (imap pair (perm (length clients))) clients.

(** [processConsensusBlockNotification] for one event: the execution block of
    a consensus block, once its body is there, is announced to the paired
    execution client; [notify] is its [NotifyNewBlock]. *)
Definition forward_block {Body} (ExecutionBlockHash : Body -> result Root) (ExecutionBlockNumber : Body -> result Z)
    (notify : Root -> Z -> C2 -> option C2) (versionedBlock : option Body) (client : C2) : option C2 :=
  match versionedBlock with
  | None => Some client
  | Some body =>
      match ExecutionBlockHash body, ExecutionBlockNumber body with
      | Ok hash, Ok number => notify hash number client
      | _, _ => Some client
      end
  end.
End client_pool.
Arguments ClientPool : clear implicits.

(** ** check_clients_are_healthy *)

Record HealthConfig := mkHealthConfig {
  h_ClientPattern : string; h_PollInterval : Z; h_SkipConsensusCheck : bool; h_SkipExecutionCheck : bool;
  h_ExpectUnhealthy : bool; h_MinClientCount : Z; h_MaxUnhealthyCount : Z; h_FailOnCheckMiss : bool;
  h_ExecutionRPCResultVar : string; h_ConsensusRPCResultVar : string }.

Definition health_DefaultConfig : HealthConfig := mkHealthConfig "" 5000000000 false false false 0 (-1) false "" "".

#[local] Existing Instances ClientLogic.ClientStatus_eq_dec ExecClients.ExecStatus_eq_dec.

(** A selected client with the status of its two halves, as the client
    components report it. *)
Record ClientView := mkClientView {
  cv_Config : ClientConfig; cv_consensus : ClientLogic.ClientStatus; cv_execution : ExecClients.ExecStatus }.

Definition health_processClientCheck (c : HealthConfig) (client : ClientView) : bool :=
  (h_SkipConsensusCheck c || negb (bool_decide (cv_consensus client = ClientLogic.ClientStatusOffline))) &&
  (h_SkipExecutionCheck c || negb (bool_decide (cv_execution client = ExecClients.ExecOffline))).

Record HealthOutputs := mkHealthOutputs {
  goodClients : list ClientConfig; failedClients : list ClientConfig;
  totalCount : Z; failedCount : Z; goodCount : Z;
  resultVars : list (string * string) }.

(** The loop: one client. *)
Definition health_client (c : HealthConfig) (o : HealthOutputs) (client : ClientView) : HealthOutputs :=
  if Bool.eqb (health_processClientCheck c client) (negb (h_ExpectUnhealthy c)) then
    let passResultCount := goodCount o + 1 in
    let set (name url : string) := if negb (bool_decide (name = "")) && (passResultCount =? 1) then [(name, url)] else [] in
    mkHealthOutputs (goodClients o ++ [cv_Config client]) (failedClients o) (totalCount o + 1) (failedCount o) passResultCount
      (resultVars o ++ set (h_ExecutionRPCResultVar c) (cc_ExecutionURL (cv_Config client))
         ++ set (h_ConsensusRPCResultVar c) (cc_ConsensusURL (cv_Config client)))
  else
    mkHealthOutputs (goodClients o) (failedClients o ++ [cv_Config client]) (totalCount o + 1) (failedCount o + 1) (goodCount o)
      (resultVars o).

Definition health_processCheck (c : HealthConfig) (selected : list ClientView) : HealthOutputs * TaskResult :=
  let o := fold_left (health_client c) selected (mkHealthOutputs [] [] 0 0 0 []) in
  let requiredPassCount := if h_MinClientCount c =? 0 then totalCount o else h_MinClientCount c in
  let resultPass := requiredPassCount <=? goodCount o in
  let missed := if h_FailOnCheckMiss c then TaskResultFailure else TaskResultNone in
  (o, if (-1 <? h_MaxUnhealthyCount c) && (h_MaxUnhealthyCount c <? Z.of_nat (length (failedClients o))) then missed
      else if resultPass then TaskResultSuccess
      else missed).

(** ** check_consensus_sync_status and check_execution_sync_status *)

Record SyncConfig := mkSyncConfig {
  s_ClientPattern : string; s_PollInterval : Z; s_ExpectSyncing : bool; s_ExpectOptimistic : bool;
  s_ExpectMinPercent : spec_float; s_ExpectMaxPercent : spec_float; s_MinHeight : Z; s_WaitForChainProgression : bool }.

Definition sync_DefaultConfig : SyncConfig := mkSyncConfig "" 5000000000 false false (f64 100) (f64 100) 10 false.

Definition consensus_sync_Validate (c : SyncConfig) : option error :=
  if SFltb (f64 100) (s_ExpectMinPercent c) then Some "expectMinPercent must be less than 100"
  else if SFltb (f64 100) (s_ExpectMaxPercent c) then Some "ExpectMaxPercent must be less than 100"
  else if SFltb (s_ExpectMaxPercent c) (s_ExpectMinPercent c) then Some "ExpectMaxPercent must be <= ExpectMinPercent"
  else if s_MinHeight c <? 0 then Some "minSlotHeight must be >= 0"
  else None.
Definition execution_sync_Validate (c : SyncConfig) : option error :=
  if SFltb (f64 100) (s_ExpectMinPercent c) then Some "expectMinPercent must be less than 100"
  else if SFltb (f64 100) (s_ExpectMaxPercent c) then Some "ExpectMaxPercent must be less than 100"
  else if SFltb (s_ExpectMaxPercent c) (s_ExpectMinPercent c) then Some "ExpectMaxPercent must be <= ExpectMinPercent"
  else if s_MinHeight c <? 0 then Some "minBlockHeight must be >= 0"
  else None.

(** The consensus node's answer, from the sync state of its API. *)
Record ConsensusSync := mkConsensusSync {
  cs_IsSyncing : bool; cs_IsOptimistic : bool; cs_HeadSlot : Z; cs_EstimatedHighestHeadSlot : Z; cs_SyncDistance : Z }.
Definition NewSyncStatus (isSyncing isOptimistic : bool) (headSlot syncDistance : Z) : ConsensusSync :=
  mkConsensusSync isSyncing isOptimistic headSlot (syncDistance +u headSlot) syncDistance.
Definition consensus_Percent (s : ConsensusSync) : spec_float :=
  if cs_IsSyncing s then f64_mul (f64_div (f64 (cs_HeadSlot s)) (f64 (cs_EstimatedHighestHeadSlot s))) (f64 100) else f64 100.

Record ExecutionSync := mkExecutionSync { es_IsSyncing : bool; es_CurrentBlock : Z; es_HighestBlock : Z }.
Definition execution_Percent (s : ExecutionSync) : spec_float :=
  if es_IsSyncing s then f64_mul (f64_div (f64 (es_CurrentBlock s)) (f64 (es_HighestBlock s))) (f64 100) else f64 100.

(** [GetNodeSyncing]: no progress means not syncing. *)
Definition execution_sync_of (progress : option (Z * Z)) : ExecutionSync :=
  match progress with None => mkExecutionSync false 0 0 | Some (current, highest) => mkExecutionSync true current highest end.

(** The shared part of [processClientCheck]: [height] is the head slot or the
    head block, [firstHeight] the task's map by client index. *)
Definition note_height (idx height : Z) (firstHeight : gmap Z Z) : gmap Z Z :=
  if default 0 (firstHeight !! idx) =? 0 then <[idx := height]> firstHeight else firstHeight.

Definition height_ok (c : SyncConfig) (idx height : Z) (percent : spec_float) (firstHeight : gmap Z Z) : bool :=
  if SFltb percent (s_ExpectMinPercent c) then false
  else if SFltb (s_ExpectMaxPercent c) percent then false
  else if i64 height <? s_MinHeight c then false
  else if s_WaitForChainProgression c && (height <=? default 0 (firstHeight !! idx)) then false
  else true.

Definition consensus_processClientCheck (c : SyncConfig) (idx : Z) (s : ConsensusSync) (firstHeight : gmap Z Z)
    : gmap Z Z * bool :=
  let firstHeight := note_height idx (cs_HeadSlot s) firstHeight in
  (firstHeight,
   if negb (Bool.eqb (cs_IsSyncing s) (s_ExpectSyncing c)) then false
   else if negb (Bool.eqb (cs_IsOptimistic s) (s_ExpectOptimistic c)) then false
   else height_ok c idx (cs_HeadSlot s) (consensus_Percent s) firstHeight).

Definition execution_processClientCheck (c : SyncConfig) (idx currentBlock : Z) (s : ExecutionSync) (firstHeight : gmap Z Z)
    : gmap Z Z * bool :=
  let firstHeight := note_height idx currentBlock firstHeight in
  (firstHeight,
   if negb (Bool.eqb (es_IsSyncing s) (s_ExpectSyncing c)) then false
   else height_ok c idx currentBlock (execution_Percent s) firstHeight).

(** A selected client with its execution index, its execution head and the
    answer of its node. *)
Record SyncView (S : Type) := mkSyncView { sv_Name : string; sv_idx : Z; sv_head : Z; sv_status : result S }.
Arguments mkSyncView {S}. Arguments sv_Name {S}. Arguments sv_idx {S}. Arguments sv_head {S}. Arguments sv_status {S}.

(** What is published of a client ([Optimistic] only by the consensus check). *)
Record SyncInfo := mkSyncInfo {
  si_Name : string; si_Synchronizing : bool; si_Optimistic : option bool; si_SyncHead : Z; si_SyncDistance : Z }.

Definition consensus_getClientInfo (name : string) (s : option ConsensusSync) : go SyncInfo :=
  match s with
  | None => Panic "nil pointer dereference"
  | Some s => Ret (mkSyncInfo name (cs_IsSyncing s) (Some (cs_IsOptimistic s)) (cs_HeadSlot s) (cs_SyncDistance s))
  end.
Definition execution_getClientInfo (name : string) (s : option ExecutionSync) : go SyncInfo :=
  match s with
  | None => Ret (mkSyncInfo name false None 0 0)
  | Some s => Ret (mkSyncInfo name (es_IsSyncing s) None (es_CurrentBlock s) (es_HighestBlock s -u es_CurrentBlock s))
  end.

(** The task's [firstHeight], and what a check collects. *)
Record SyncCheck := mkSyncCheck { firstHeight : gmap Z Z; sy_good : list SyncInfo; sy_failed : list SyncInfo }.

Section sync_loop.
Context {S : Type} (check : SyncView S -> S -> gmap Z Z -> gmap Z Z * bool) (info : string -> option S -> go SyncInfo).

(** The loop of [processCheck] over the clients; [ctxDone k]: the context is
    found done after the answer of client [k]. *)
Fixpoint sync_clients (k : nat) (ctxDone : nat -> bool) (l : list (SyncView S)) (st : SyncCheck) : go (SyncCheck * bool) :=
  match l with
  | [] => Ret (st, true)
  | client :: l =>
      if ctxDone k then Ret (st, false)
      else
        let '(heights, checkResult, status) :=
          match sv_status client with
          | Err _ => (firstHeight st, false, None)
          | Ok s => let '(h, r) := check client s (firstHeight st) in (h, r, Some s)
          end in
        do! i := info (sv_Name client) status in
        sync_clients (k + 1)%nat ctxDone l
          (if checkResult then mkSyncCheck heights (sy_good st ++ [i]) (sy_failed st)
           else mkSyncCheck heights (sy_good st) (sy_failed st ++ [i]))
  end.

(** [processCheck]: the heights it leaves, and the outputs with the result,
    unless it was cancelled. *)
Definition sync_processCheck (ctxDone : nat -> bool) (selected : list (SyncView S)) (heights : gmap Z Z)
    : go (gmap Z Z * option (list SyncInfo * list SyncInfo * TaskResult)) :=
  do! r := sync_clients 0 ctxDone selected (mkSyncCheck heights [] []) in
  let '(st, completed) := r in
  Ret (firstHeight st,
       if completed
       then Some (sy_good st, sy_failed st, if sy_failed st is [] then TaskResultSuccess else TaskResultNone)
       else None).
End sync_loop.

Definition consensus_sync_processCheck (c : SyncConfig) :=
  sync_processCheck (fun client s => consensus_processClientCheck c (sv_idx client) s) consensus_getClientInfo.
Definition execution_sync_processCheck (c : SyncConfig) :=
  sync_processCheck (fun client s => execution_processClientCheck c (sv_idx client) (sv_head client) s) execution_getClientInfo.

(** ** Lemmas *)

Lemma swap_perm {A} i v (l : list A) : swap i v l ≡ₚ l.
Proof.
  unfold swap. destruct (l !! v) as [x|] eqn:Hv, (l !! i) as [y|] eqn:Hi; try done. by apply Permutation_insert_swap.
Qed.

Lemma swaps_perm {A} (es : list (nat * nat)) (l : list A) : fold_left (fun l e => swap e.1 e.2 l) es l ≡ₚ l.
Proof. revert l. induction es as [|e es IH]; intros l; simpl; [done|]. by rewrite IH, swap_perm. Qed.

Lemma health_fold c selected o :
  let pass := fun client => Bool.eqb (health_processClientCheck c client) (negb (h_ExpectUnhealthy c)) in
  let o' := fold_left (health_client c) selected o in
  goodClients o' = goodClients o ++ (cv_Config <$> filterb pass selected) /\
  failedClients o' = failedClients o ++ (cv_Config <$> filterb (fun x => negb (pass x)) selected) /\
  totalCount o' = totalCount o + Z.of_nat (length selected) /\
  failedCount o' = failedCount o + Z.of_nat (length (filterb (fun x => negb (pass x)) selected)) /\
  goodCount o' = goodCount o + Z.of_nat (length (filterb pass selected)).
Proof.
  intros pass. revert o. induction selected as [|x l IH]; intros o; simpl.
  { rewrite !app_nil_r, !Z.add_0_r. done. }
  specialize (IH (health_client c o x)). simpl in IH. destruct IH as (-> & -> & -> & -> & ->).
  rewrite !filterb_cons. unfold health_client. fold (pass x). destruct (pass x); simpl.
  - rewrite <- !app_assoc. simpl. split_and!; try done; lia.
  - rewrite <- !app_assoc. simpl. split_and!; try done; lia.
Qed.

Lemma filterb_split_length {A} (p : A -> bool) (l : list A) :
  (length (filterb p l) + length (filterb (fun x => negb (p x)) l))%nat = length l.
Proof. induction l as [|x l IH]; [done|]. rewrite !filterb_cons. destruct (p x); simpl; lia. Qed.

(** The first height that is not 0 is kept. *)
Lemma note_height_lookup idx height m :
  default 0 (note_height idx height m !! idx) =
    if default 0 (m !! idx) =? 0 then height else default 0 (m !! idx).
Proof. unfold note_height. destruct (default 0 (m !! idx) =? 0); [by rewrite lookup_insert_eq|done]. Qed.

Lemma note_height_other idx j height m : j <> idx -> note_height idx height m !! j = m !! j.
Proof. intros Hne. unfold note_height. destruct (_ =? 0); [by rewrite lookup_insert_ne|done]. Qed.

(** ** Properties *)

(** The clients that are checked: whatever the random permutation, the
    clients whose name matches the one pattern and not the other, each once;
    a pattern that does not compile matches nothing. *)
Theorem GetClientsByNamePatterns_selects `{regexp : Regexp} {C1 C2} perm incl excl (pool : ClientPool C1 C2) :
  GetClientsByNamePatterns perm incl excl pool ≡ₚ filterb (name_matches incl excl) (paired pool) /\
  forall c, c ∈ GetClientsByNamePatterns perm incl excl pool <->
    c ∈ paired pool /\ (incl = "" \/ MatchString incl (cc_Name (pc_Config c)) = Ok true) /\
    (excl = "" \/ MatchString excl (cc_Name (pc_Config c)) <> Ok true).
Proof.
  assert (Hp : GetClientsByNamePatterns perm incl excl pool ≡ₚ filterb (name_matches incl excl) (paired pool))
    by apply swaps_perm.
  split; [exact Hp|]. intros c. rewrite Hp, elem_of_filterb. unfold name_matches.
  rewrite andb_true_iff, !orb_true_iff, !bool_decide_eq_true, negb_true_iff.
  destruct (MatchString incl _) as [[|]|], (MatchString excl _) as [[|]|]; intuition congruence.
Qed.

(** The health check: the published lists are the selected clients that are
    as expected and those that are not, in order; the result is a success
    exactly when enough are as expected (all, without a minimum) and not too
    many are otherwise.  Without a matching client the check succeeds. *)
Theorem health_verdict (c : HealthConfig) (selected : list ClientView) o r :
  health_processCheck c selected = (o, r) ->
  let pass := fun client => Bool.eqb (health_processClientCheck c client) (negb (h_ExpectUnhealthy c)) in
  let good := filterb pass selected in
  let bad := filterb (fun x => negb (pass x)) selected in
  goodClients o = cv_Config <$> good /\ failedClients o = cv_Config <$> bad /\
  totalCount o = Z.of_nat (length selected) /\ goodCount o = Z.of_nat (length good) /\
  failedCount o = totalCount o - goodCount o /\
  (r = TaskResultSuccess <->
    (h_MaxUnhealthyCount c < 0 \/ Z.of_nat (length bad) <= h_MaxUnhealthyCount c) /\
    (if h_MinClientCount c =? 0 then bad = [] else h_MinClientCount c <= Z.of_nat (length good))) /\
  (r <> TaskResultSuccess -> r = if h_FailOnCheckMiss c then TaskResultFailure else TaskResultNone).
Proof.
  intros Hc pass good bad. unfold health_processCheck in Hc. injection Hc as Ho Hr.
  assert (Hall : goodClients o = cv_Config <$> good /\ failedClients o = cv_Config <$> bad /\
    totalCount o = Z.of_nat (length selected) /\ failedCount o = Z.of_nat (length bad) /\
    goodCount o = Z.of_nat (length good)).
  { rewrite <- Ho. apply (health_fold c selected (mkHealthOutputs [] [] 0 0 0 [])). }
  destruct Hall as (H1 & H2 & H3 & H4 & H5). rewrite Ho, H2, H3, H5, length_fmap in Hr.
  assert (Hsum : (length good + length bad)%nat = length selected) by apply filterb_split_length.
  rewrite H1, H2, H3, H4, H5. split_and!; try done; try lia.
  - subst r. assert (Hbad : bad = [] <-> length bad = O) by (by rewrite length_zero_iff_nil).
    destruct ((-1 <? h_MaxUnhealthyCount c) && (h_MaxUnhealthyCount c <? Z.of_nat (length bad))) eqn:Hm.
    + split; [by destruct (h_FailOnCheckMiss c)|]. intros [[?|?] _]; lia.
    + destruct (h_MinClientCount c =? 0) eqn:Hmin;
        [destruct (Z.of_nat (length selected) <=? Z.of_nat (length good)) eqn:Hp
        |destruct (h_MinClientCount c <=? Z.of_nat (length good)) eqn:Hp];
        (split; [try (by destruct (h_FailOnCheckMiss c)); intros _; split; try lia; try (apply Hbad; lia)
                |intros [_ Hx]; try done; exfalso; try apply Hbad in Hx; lia]).
  - subst r. intros Hne. destruct (_ && _); [done|]. destruct (_ <=? _); done.
Qed.

Section sync_lemmas.
Context {S : Type} (ht : SyncView S -> S -> Z) (tst : SyncView S -> S -> Z -> bool) (info : string -> option S -> go SyncInfo).

(** Both checks note the height of the client and then only look at the
    entry of its index. *)
Definition noting_check (client : SyncView S) (s : S) (m : gmap Z Z) : gmap Z Z * bool :=
  let m := note_height (sv_idx client) (ht client s) m in (m, tst client s (default 0 (m !! sv_idx client))).

Definition answer (v : SyncView S) : option S := match sv_status v with Ok s => Some s | Err _ => None end.

(** The first height a client's index has after this check. *)
Definition first_of (m : gmap Z Z) (v : SyncView S) (s : S) : Z :=
  if default 0 (m !! sv_idx v) =? 0 then ht v s else default 0 (m !! sv_idx v).

Definition passes (m : gmap Z Z) (v : SyncView S) : Prop :=
  exists s, sv_status v = Ok s /\ tst v s (first_of m v s) = true.

Lemma sync_clients_spec l : forall k st,
  NoDup (sv_idx <$> l) -> (forall v, v ∈ l -> exists i, info (sv_Name v) (answer v) = Ret i) ->
  exists st', sync_clients noting_check info k (fun _ => false) l st = Ret (st', true) /\
    (sy_failed st' = [] <-> sy_failed st = [] /\ forall v, v ∈ l -> passes (firstHeight st) v) /\
    (length (sy_good st') + length (sy_failed st') = length (sy_good st) + length (sy_failed st) + length l)%nat /\
    (forall j, j ∉ sv_idx <$> l -> firstHeight st' !! j = firstHeight st !! j) /\
    (forall v s, v ∈ l -> sv_status v = Ok s -> default 0 (firstHeight st' !! sv_idx v) = first_of (firstHeight st) v s).
Proof.
  induction l as [|v l IH]; intros k st Hnd Hinfo; simpl.
  { exists st. split_and!; [done| |lia|done|].
    - split; [intros ?; split; [done|by intros ? ?%elem_of_nil]|by intros [? _]].
    - by intros ? ? ?%elem_of_nil. }
  simpl in Hnd. apply NoDup_cons in Hnd as [Hv Hnd]. destruct (Hinfo v ltac:(by left)) as [i Hi].
  assert (Hinfo' : forall u, u ∈ l -> exists i, info (sv_Name u) (answer u) = Ret i) by (intros u Hu; apply Hinfo; by right).
  set (step := match sv_status v with Ok s => noting_check v s (firstHeight st) | Err _ => (firstHeight st, false) end).
  assert (Hfst : forall j, j <> sv_idx v -> step.1 !! j = firstHeight st !! j).
  { intros j Hne. unfold step. destruct (sv_status v); [|done]. simpl. by apply note_height_other. }
  assert (Hsnd : step.2 = true <-> passes (firstHeight st) v).
  { unfold step, passes. destruct (sv_status v) as [s|e]; simpl.
    - rewrite note_height_lookup. split; [intros Ht; by exists s|intros (s' & [= <-] & Ht); done].
    - split; [done|]. by intros (s & ? & _). }
  assert (Hsame : forall u, u ∈ l -> (passes step.1 u <-> passes (firstHeight st) u)).
  { intros u Hu. unfold passes, first_of. rewrite Hfst; [done|].
    intros Heq. apply Hv. rewrite <- Heq. apply list_elem_of_fmap. eauto. }
  destruct (IH (k + 1)%nat (if step.2 then mkSyncCheck step.1 (sy_good st ++ [i]) (sy_failed st)
    else mkSyncCheck step.1 (sy_good st) (sy_failed st ++ [i])) Hnd Hinfo') as (st' & Hrun & Hf & Hlen & Hout & Hin).
  exists st'. split_and!.
  - rewrite <- Hrun. unfold step, answer in *. destruct (sv_status v); rewrite Hi; simpl; done.
  - rewrite Hf. destruct step.2 eqn:Hs; simpl.
    + split; intros [H1 H2]; (split; [done|]); intros u Hu.
      * apply elem_of_cons in Hu as [->|Hu]; [by apply Hsnd|]. apply Hsame; [done|]. by apply H2.
      * apply Hsame; [done|]. apply H2. by right.
    + split; [intros [H1 _]; by apply app_nil in H1 as [_ ?]|].
      intros [_ H2]. assert (false = true) by (apply Hsnd, H2; by left). done.
  - rewrite Hlen. destruct step.2; simpl; rewrite length_app; simpl; lia.
  - intros j Hj. rewrite elem_of_cons in Hj. rewrite Hout by tauto. destruct step.2; simpl; apply Hfst; tauto.
  - intros u s [->|Hu]%elem_of_cons Hs.
    + rewrite Hout by done. unfold step, first_of. rewrite Hs. simpl. destruct (tst _ _ _); simpl; apply note_height_lookup.
    + rewrite (Hin u s Hu Hs). unfold first_of. destruct step.2; simpl; rewrite Hfst; try done;
        intros Heq; apply Hv; rewrite <- Heq; apply list_elem_of_fmap; eauto.
Qed.
End sync_lemmas.

(** The test of one client, given the first height of its index. *)
Definition height_test (c : SyncConfig) (height : Z) (percent : spec_float) (first : Z) : bool :=
  negb (SFltb percent (s_ExpectMinPercent c)) && negb (SFltb (s_ExpectMaxPercent c) percent) &&
  (s_MinHeight c <=? i64 height) && (negb (s_WaitForChainProgression c) || (first <? height)).

Lemma height_ok_test c idx height percent m :
  height_ok c idx height percent m = height_test c height percent (default 0 (m !! idx)).
Proof.
  unfold height_ok, height_test. destruct (SFltb percent _); [done|]. destruct (SFltb _ percent); [done|]. simpl.
  rewrite (Z.leb_antisym (i64 height)), (Z.ltb_antisym height). destruct (i64 height <? s_MinHeight c); [done|]. simpl.
  by destruct (s_WaitForChainProgression c), (height <=? _).
Qed.

Definition execution_test (c : SyncConfig) (v : SyncView ExecutionSync) (s : ExecutionSync) (first : Z) : bool :=
  Bool.eqb (es_IsSyncing s) (s_ExpectSyncing c) && height_test c (sv_head v) (execution_Percent s) first.
Definition consensus_test (c : SyncConfig) (v : SyncView ConsensusSync) (s : ConsensusSync) (first : Z) : bool :=
  Bool.eqb (cs_IsSyncing s) (s_ExpectSyncing c) && Bool.eqb (cs_IsOptimistic s) (s_ExpectOptimistic c) &&
  height_test c (cs_HeadSlot s) (consensus_Percent s) first.

Lemma execution_noting c client s m :
  execution_processClientCheck c (sv_idx client) (sv_head client) s m =
    noting_check (fun v _ => sv_head v) (execution_test c) client s m.
Proof.
  unfold execution_processClientCheck, noting_check, execution_test. rewrite height_ok_test.
  by destruct (Bool.eqb _ _).
Qed.

Lemma consensus_noting c client s m :
  consensus_processClientCheck c (sv_idx client) s m =
    noting_check (fun _ s => cs_HeadSlot s) (consensus_test c) client s m.
Proof.
  unfold consensus_processClientCheck, noting_check, consensus_test. rewrite height_ok_test.
  destruct (Bool.eqb _ _); [|done]. by destruct (Bool.eqb _ _).
Qed.

Lemma sync_clients_ext {S} (check check' : SyncView S -> S -> gmap Z Z -> gmap Z Z * bool) info k done_at l st :
  (forall v s m, check v s m = check' v s m) ->
  sync_clients check info k done_at l st = sync_clients check' info k done_at l st.
Proof.
  intros Heq. revert k st. induction l as [|v l IH]; intros k st; simpl; [done|].
  destruct (done_at k); [done|]. destruct (sv_status v); simpl; rewrite ?Heq;
    [destruct (check' _ _ _); simpl|]; destruct (info _ _); simpl; try done; apply IH.
Qed.

(** The verdict of check_execution_sync_status in one poll of clients with
    different indexes: the task succeeds exactly when every selected client
    answered and is as configured, and otherwise leaves the result open; the
    height remembered of a client is its first one that is not 0, and with
    [WaitForChainProgression] a client only passes above it (so never in the
    poll that first sees it). *)
Theorem execution_sync_verdict (c : SyncConfig) (selected : list (SyncView ExecutionSync)) (heights : gmap Z Z) :
  NoDup (sv_idx <$> selected) ->
  exists heights' good failed r,
    execution_sync_processCheck c (fun _ => false) selected heights = Ret (heights', Some (good, failed, r)) /\
    (r = TaskResultSuccess <-> forall v, v ∈ selected -> exists s, sv_status v = Ok s /\
       es_IsSyncing s = s_ExpectSyncing c /\ s_MinHeight c <= i64 (sv_head v) /\
       SFltb (execution_Percent s) (s_ExpectMinPercent c) = false /\ SFltb (s_ExpectMaxPercent c) (execution_Percent s) = false /\
       (s_WaitForChainProgression c = true ->
        default 0 (heights !! sv_idx v) <> 0 /\ default 0 (heights !! sv_idx v) < sv_head v)) /\
    (r <> TaskResultSuccess -> r = TaskResultNone) /\
    (forall v s, v ∈ selected -> sv_status v = Ok s -> default 0 (heights' !! sv_idx v) =
       if default 0 (heights !! sv_idx v) =? 0 then sv_head v else default 0 (heights !! sv_idx v)).
Proof.
  intros Hnd. unfold execution_sync_processCheck, sync_processCheck.
  erewrite sync_clients_ext by apply execution_noting.
  destruct (sync_clients_spec (fun v _ => sv_head v) (execution_test c) execution_getClientInfo selected 0
    (mkSyncCheck heights [] []) Hnd) as (st & -> & Hf & _ & _ & Hin).
  { intros v _. unfold answer. destruct (sv_status v); simpl; by eexists. }
  simpl. eexists _, _, _, _. split; [done|]. split_and!.
  - transitivity (sy_failed st = []); [by destruct (sy_failed st)|]. rewrite Hf. simpl.
    split; [intros [_ H] v Hv|intros H; split; [done|]; intros v Hv];
      destruct (H v Hv) as (s & Hs & Ht); exists s; (split; [done|]);
      unfold execution_test, height_test, first_of in *; simpl in *.
    + rewrite !andb_true_iff, orb_true_iff, !negb_true_iff, Bool.eqb_true_iff in Ht.
      destruct Ht as (H1 & ((H2 & H3) & H4) & H5). split_and!; try done; try lia; destruct H5 as [H5|H5]; try congruence;
        destruct (default 0 (heights !! sv_idx v) =? 0) eqn:E; lia.
    + destruct Ht as (H1 & H2 & H3 & H4 & H5).
      rewrite !andb_true_iff, orb_true_iff, !negb_true_iff, Bool.eqb_true_iff. split_and!; try done; [lia|].
      destruct (s_WaitForChainProgression c); [right|by left]. destruct (H5 eq_refl) as [H6 H7].
      assert (default 0 (heights !! sv_idx v) =? 0 = false) as -> by lia. lia.
  - intros Hr. by destruct (sy_failed st).
  - intros v s Hv Hs. by apply (Hin v s).
Qed.

(** check_consensus_sync_status looks into the answer of a client that did
    not give one: as soon as one selected client cannot be reached (and the
    task is not cancelled) the check panics, instead of listing the client as
    failed as the execution check does. *)
Theorem consensus_sync_error_panics (c : SyncConfig) (selected : list (SyncView ConsensusSync)) (heights : gmap Z Z) v e :
  v ∈ selected -> sv_status v = Err e ->
  consensus_sync_processCheck c (fun _ => false) selected heights = Panic "nil pointer dereference".
Proof.
  intros Hin He. unfold consensus_sync_processCheck, sync_processCheck.
  enough (forall l k st, v ∈ l -> sync_clients (fun client s => consensus_processClientCheck c (sv_idx client) s)
    consensus_getClientInfo k (fun _ => false) l st = Panic "nil pointer dereference") as -> by done.
  induction l as [|u l IH]; intros k st Hl; [by apply elem_of_nil in Hl|]. cbn [sync_clients].
  destruct (sv_status u) as [s|e'] eqn:Hu; [|done]. cbn [consensus_getClientInfo].
  apply elem_of_cons in Hl as [->|Hl]; [congruence|].
  destruct (consensus_processClientCheck _ _ _ _) as [m r]. simpl. destruct r; by apply IH.
Qed.

(** ** At concrete inputs *)

Definition ex_view (name : string) (online : bool) : ClientView :=
  mkClientView (mkClientConfig name "cl" "el") 
    (if online then ClientLogic.ClientStatusOnline else ClientLogic.ClientStatusOffline) ExecClients.ExecOnline.

Lemma health_verdict_witness :
  let r := health_processCheck (mkHealthConfig "" 5 false false false 1 1 false "" "") [ex_view "a" true; ex_view "b" false] in
  goodCount r.1 = 1 /\ failedCount r.1 = totalCount r.1 - goodCount r.1 /\ r.2 = TaskResultSuccess.
Proof.
  intros r.
  destruct (health_verdict (mkHealthConfig "" 5 false false false 1 1 false "" "") [ex_view "a" true; ex_view "b" false] r.1 r.2 eq_refl)
    as (_ & _ & _ & H1 & H2 & H3 & _).
  split; [exact H1|]. split; [exact H2|]. apply H3. split; [right|]; vm_compute; discriminate.
Defined.

Definition ex_sync (head : Z) : SyncView ExecutionSync := mkSyncView "a" 3 head (Ok (execution_sync_of None)).
Definition ex_sync_config : SyncConfig := mkSyncConfig "" 5 false false (f64 100) (f64 100) 10 true.

Lemma execution_sync_verdict_witness :
  exists heights' good failed r,
    execution_sync_processCheck ex_sync_config (fun _ => false) [ex_sync 20] {[3 := 15]} = Ret (heights', Some (good, failed, r)) /\
    r = TaskResultSuccess.
Proof.
  destruct (execution_sync_verdict ex_sync_config [ex_sync 20] {[3 := 15]}) as (h & good & failed & r & Hr & Hv & _).
  { apply NoDup_singleton. }
  exists h, good, failed, r. split; [exact Hr|]. apply Hv. intros v Hin. apply list_elem_of_singleton in Hin. subst v.
  exists (execution_sync_of None). split; [reflexivity|]. split; [reflexivity|].
  split; [vm_compute; discriminate|]. split; [vm_compute; reflexivity|]. split; [vm_compute; reflexivity|].
  intros _. split; [vm_compute; discriminate|vm_compute; reflexivity].
Defined.

Lemma consensus_sync_error_panics_witness :
  consensus_sync_processCheck ex_sync_config (fun _ => false) [mkSyncView "a" 3 0 (Err "timeout")] ∅ =
    Panic "nil pointer dereference".
Proof.
  apply (consensus_sync_error_panics ex_sync_config [mkSyncView "a" 3 0 (Err "timeout")] ∅ (mkSyncView "a" 3 0 (Err "timeout")) "timeout");
    [left|reflexivity].
Defined.
