(* ===== verification/ChainChecks.v ===== *)
(** * Checks of the chain

    The tasks check_consensus_finality, check_consensus_slot_range,
    check_consensus_forks, check_consensus_reorgs,
    check_consensus_proposer_duty and check_consensus_validator_status: what
    each computes from the wall clock, the finalized checkpoint, the forks,
    the block cache, the duties and the validator set, and the result it sets.
    The wall clock's answers, block headers, validator names and regular
    expressions are arguments. *)

From Stdlib Require Import Strings.Byte.
From S2P Require Import Prelude Vars Db Scheduler BlockIndex Pool Clients BlobTx GenTasks.

#[local] Open Scope string_scope.
#[local] Open Scope list_scope.
Open Scope Z_scope.

(** [wallclock.Now()]: slot and epoch. *)
Definition Wallclock := result (Z * Z).

(** The result of a check that is only met or missed. *)
Definition check_result (failOnMiss ok : bool) : TaskResult :=
  if ok then TaskResultSuccess else if failOnMiss then TaskResultFailure else TaskResultNone.

(** ** check_consensus_finality *)

Record FinalityConfig := mkFinalityConfig {
  fin_MinUnfinalizedEpochs : Z; fin_MaxUnfinalizedEpochs : Z; fin_MinFinalizedEpochs : Z; fin_FailOnCheckMiss : bool }.
Definition finality_DefaultConfig : FinalityConfig := mkFinalityConfig 0 0 0 false.

(** [runFinalityCheck]: the outputs (finalized epoch, unfinalized epochs) and
    the verdict. *)
Definition runFinalityCheck (c : FinalityConfig) (now : Wallclock) (finalizedEpoch : Z) : option (Z * Z) * bool :=
  match now with
  | Err _ => (None, false)
  | Ok (_, currentEpoch) =>
      let unfinalizedEpochs := currentEpoch -u finalizedEpoch in
      (Some (finalizedEpoch, unfinalizedEpochs),
       if (0 <? fin_MinUnfinalizedEpochs c) && (unfinalizedEpochs <? fin_MinUnfinalizedEpochs c) then false
       else if (0 <? fin_MaxUnfinalizedEpochs c) && (fin_MaxUnfinalizedEpochs c <? unfinalizedEpochs) then false
       else if (0 <? fin_MinFinalizedEpochs c) && (finalizedEpoch <? fin_MinFinalizedEpochs c) then false
       else true)
  end.

(** The results [Execute] sets: at the start and after every wall clock epoch
    or finalized checkpoint, with what the clock and the cache say then. *)
Definition finality_Execute (c : FinalityConfig) (views : list (Wallclock * Z)) : list TaskResult :=
  (fun v => check_result (fin_FailOnCheckMiss c) (runFinalityCheck c v.1 v.2).2) <$> views.

(** ** check_consensus_slot_range *)

Record SlotRangeConfig := mkSlotRangeConfig {
  sr_MinSlotNumber : Z; sr_MaxSlotNumber : Z; sr_MinEpochNumber : Z; sr_MaxEpochNumber : Z; sr_FailIfLower : bool }.
Definition slot_range_DefaultConfig : SlotRangeConfig := mkSlotRangeConfig 0 MaxUint64 0 MaxUint64 false.

(** [runRangeCheck]: is the clock in the range, is it below it. *)
Definition runRangeCheck (c : SlotRangeConfig) (genesisReached : bool) (now : Wallclock) : bool * bool :=
  if negb genesisReached then (false, true)
  else
    match now with
    | Err _ => (false, true)
    | Ok (currentSlot, currentEpoch) =>
        if currentSlot <? sr_MinSlotNumber c then (false, true)
        else if currentEpoch <? sr_MinEpochNumber c then (false, true)
        else if sr_MaxSlotNumber c <? currentSlot then (false, false)
        else if sr_MaxEpochNumber c <? currentEpoch then (false, false)
        else (true, false)
    end.

(** What a check publishes: once the chain started and the clock answers. *)
Definition range_outputs (genesisTime : Z) (genesisReached : bool) (now : Wallclock) : list (string * Z) :=
  match now with
  | Ok (currentSlot, currentEpoch) =>
      if genesisReached
      then [("genesisTime", genesisTime); ("currentSlot", currentSlot); ("currentEpoch", currentEpoch)] else []
  | Err _ => []
  end.

Definition slot_range_result (c : SlotRangeConfig) (r : bool * bool) : TaskResult :=
  if r.1 then TaskResultSuccess
  else if negb r.2 || sr_FailIfLower c then TaskResultFailure
  else TaskResultNone.

Definition slot_range_Execute (c : SlotRangeConfig) (views : list (bool * Wallclock)) : list TaskResult :=
  (fun v => slot_range_result c (runRangeCheck c v.1 v.2)) <$> views.

(** ** check_consensus_forks *)

Record ForksConfig := mkForksConfig { fk_MinCheckEpochCount : Z; fk_MaxForkDistance : Z; fk_MaxForkCount : Z }.
Definition forks_DefaultConfig : ForksConfig := mkForksConfig 1 1 0.

Record ForkInfo := mkForkInfo { fi_HeadSlot : Z; fi_HeadRoot : Root; fi_Clients : list string }.

(** [runCheck] of the head forks of the pool, at the configured distance. *)
Definition forks_runCheck (c : ForksConfig) (clientName : nat -> string) (startEpoch : Z) (headForks : list HeadFork)
    (now : Wallclock) : list ForkInfo * TaskResult :=
  let info := (fun f => mkForkInfo (Fork_Slot f) (Fork_Root f) (clientName <$> AllClients f)) <$> headForks in
  let headForkLen := Z.of_nat (length headForks) in
  (info,
   if (1 <=? headForkLen) && (fk_MaxForkCount c <? headForkLen - 1) then TaskResultFailure
   else
     match now with
     | Err _ => TaskResultNone
     | Ok (_, currentEpoch) =>
         let epochCount := currentEpoch -u startEpoch in
         if (0 <? fk_MinCheckEpochCount c) && (epochCount <? fk_MinCheckEpochCount c) then TaskResultNone
         else TaskResultSuccess
     end).

(** [Execute]: a check for every block event. *)
Definition forks_Execute (c : ForksConfig) (clientName : nat -> string) (now : Wallclock)
    (blocks : list (list HeadFork * Wallclock)) : result (list TaskResult) :=
  match now with
  | Err e => Err ("failed fetching wallclock: " +:+ e)
  | Ok (_, startEpoch) => Ok ((fun b => (forks_runCheck c clientName startEpoch b.1 b.2).2) <$> blocks)
  end.

(** ** check_consensus_reorgs *)

Record ReorgsConfig := mkReorgsConfig {
  ro_MinCheckEpochCount : Z; ro_MaxReorgDistance : Z; ro_MaxReorgsPerEpoch : spec_float; ro_MaxTotalReorgs : Z }.
Definition reorgs_DefaultConfig : ReorgsConfig := mkReorgsConfig 1 0 (f64 0) 0.

Section reorgs.
Context {B : Type} `{blk : BlockLike B}.

Record ReorgTask := mkReorgTask {
  startEpoch : Z; totalReorgs : Z; maxReorgDistance : Z; lastBlock : option B; ro_result : option TaskResult }.

(** The walk of [processChainReorg] from the old head; is the base unknown,
    and the two distances.  [None] only when the fuel is used up. *)
Fixpoint reorg_loop (fuel : nat) (cache : BlockIndex B) (newHead : Root) (parentHead : B) (oldHeadDistance : Z)
    : option (bool * Z * Z) :=
  match fuel with
  | O => None
  | S fuel =>
      match blk_parent parentHead ≫= lookup_block cache with
      | None => Some (true, oldHeadDistance, 0)
      | Some parentHead =>
          let oldHeadDistance := oldHeadDistance +u 1 in
          match GetBlockDistance (blk_root parentHead) newHead cache with
          | None => None
          | Some (true, newHeadDist) => Some (false, oldHeadDistance, newHeadDist)
          | Some (false, _) => reorg_loop fuel cache newHead parentHead oldHeadDistance
          end
      end
  end.

Definition processChainReorg (cache : BlockIndex B) (oldHead newHead : B) (t : ReorgTask) : option ReorgTask :=
  '(_, oldHeadDistance, newHeadDistance) ← reorg_loop (S (distance_fuel cache)) cache (blk_root newHead) oldHead 0;
  let reorgDistance := oldHeadDistance +u newHeadDistance in
  Some (mkReorgTask (startEpoch t) (totalReorgs t +u 1) (Z.max (maxReorgDistance t) reorgDistance) (lastBlock t) (ro_result t)).

Definition reorgs_runCheck (c : ReorgsConfig) (now : Wallclock) (t : ReorgTask) : TaskResult :=
  match now with
  | Err _ => TaskResultNone
  | Ok (_, currentEpoch) =>
      let epochCount := currentEpoch -u startEpoch t in
      if (0 <? ro_MinCheckEpochCount c) && (epochCount <? ro_MinCheckEpochCount c) then TaskResultNone
      else if SFltb (f64 0) (ro_MaxReorgsPerEpoch c) && (0 <? epochCount)
              && SFltb (ro_MaxReorgsPerEpoch c) (f64_div (f64 (totalReorgs t)) (f64 epochCount)) then TaskResultFailure
      else TaskResultSuccess
  end.

(** A block event: the cache and the clock at that time, the block, and the
    parent root of its header if it came in time. *)
Record ReorgEvent := mkReorgEvent { re_cache : BlockIndex B; re_now : Wallclock; re_block : B; re_header : option Root }.

(** One event of [Execute]; the error is its return. *)
Definition reorgs_event (c : ReorgsConfig) (e : ReorgEvent) (t : ReorgTask) : option (ReorgTask * option error) :=
  match re_header e with
  | None => Some (t, None)
  | Some parentRoot =>
      t ← match lastBlock t with
          | Some last => if decide (parentRoot = blk_root last) then Some (t, false)
                         else t ← processChainReorg (re_cache e) last (re_block e) t; Some (t, true)
          | None => Some (t, false)
          end;
      let '(t, reorg) := t in
      if reorg && (0 <? ro_MaxReorgDistance c) && (ro_MaxReorgDistance c <? maxReorgDistance t)
      then Some (mkReorgTask (startEpoch t) (totalReorgs t) (maxReorgDistance t) (lastBlock t) (Some TaskResultFailure),
                 Some "max reorg distance exceeded")
      else Some (mkReorgTask (startEpoch t) (totalReorgs t) (maxReorgDistance t) (Some (re_block e))
                   (Some (reorgs_runCheck c (re_now e) t)), None)
  end.

Fixpoint reorgs_events (c : ReorgsConfig) (es : list ReorgEvent) (t : ReorgTask) : option (ReorgTask * option error) :=
  match es with
  | [] => Some (t, None)
  | e :: es =>
      '(t, err) ← reorgs_event c e t;
      match err with Some _ => Some (t, err) | None => reorgs_events c es t end
  end.

Definition reorgs_Execute (c : ReorgsConfig) (now : Wallclock) (es : list ReorgEvent) : option (result (ReorgTask * option error)) :=
  match now with
  | Err e => Some (Err ("failed fetching wallclock: " +:+ e))
  | Ok (_, currentEpoch) => Ok <$> reorgs_events c es (mkReorgTask currentEpoch 0 0 None None)
  end.
End reorgs.

(** ** check_consensus_proposer_duty *)

Record DutyConfig := mkDutyConfig {
  du_ValidatorNamePattern : string; du_ValidatorIndex : option Z; du_MinSlotDistance : Z; du_MaxSlotDistance : Z;
  du_FailOnCheckMiss : bool }.
Definition duty_DefaultConfig : DutyConfig := mkDutyConfig "" None 0 0 false.

Section duties.
Context `{regexp : Regexp} (validatorName : Z -> string).

(** [loadEpochDuties]: the duties (slot and validator index) of the last
    answer, keyed by slot, a later duty of a slot replacing an earlier one. *)
Definition loadEpochDuties (answer : option (result (list (Z * Z)))) (currentProposerDuties : option (gmap Z Z))
    : option (gmap Z Z) :=
  match answer with
  | None | Some (Err _) => currentProposerDuties
  | Some (Ok proposerDuties) => Some (fold_left (fun m d => <[d.1 := d.2]> m) proposerDuties ∅)
  end.

(** The tests of one duty: is its validator the wanted one? *)
Definition duty_matches (c : DutyConfig) (validatorIndex : Z) : result bool :=
  if (if du_ValidatorIndex c is Some i then negb (validatorIndex =? i) else false) then Ok false
  else if bool_decide (du_ValidatorNamePattern c = "") then Ok true
  else MatchString (du_ValidatorNamePattern c) (validatorName validatorIndex).

Fixpoint duty_loop (fuel : nat) (c : DutyConfig) (duties : gmap Z Z) (currentSlot slot : Z) : option bool :=
  match fuel with
  | O => None
  | S fuel =>
      match duties !! slot with
      | None => Some false
      | Some validatorIndex =>
          if (0 <? du_MaxSlotDistance c) && (du_MaxSlotDistance c <? slot -u currentSlot) then Some false
          else
            match duty_matches c validatorIndex with
            | Err _ => Some false
            | Ok false => duty_loop fuel c duties currentSlot (slot +u 1)
            | Ok true => Some (negb ((0 <? du_MinSlotDistance c) && (slot -u currentSlot <? du_MinSlotDistance c)))
            end
      end
  end.

Definition runProposerDutyCheck (c : DutyConfig) (duties : option (gmap Z Z)) (slot : Z) : option bool :=
  match duties with
  | None => Some false
  | Some duties => duty_loop (S (size duties)) c duties slot slot
  end.

(** The events of [Execute]: an epoch, with what the node answers (nothing
    without a ready client), and a slot. *)
Inductive duty_event := DutyEpoch (answer : option (result (list (Z * Z)))) | DutySlot (slot : Z).

Fixpoint duty_events (c : DutyConfig) (es : list duty_event) (duties : option (gmap Z Z)) : option (list TaskResult) :=
  match es with
  | [] => Some []
  | DutyEpoch answer :: es => duty_events c es (loadEpochDuties answer duties)
  | DutySlot slot :: es =>
      ok ← runProposerDutyCheck c duties slot; rs ← duty_events c es duties;
      Some (check_result (du_FailOnCheckMiss c) ok :: rs)
  end.

Definition duty_Execute (c : DutyConfig) (now : Wallclock) (first : option (result (list (Z * Z)))) (es : list duty_event)
    : result (option (list TaskResult)) :=
  match now with
  | Err e => Err ("failed fetching wallclock: " +:+ e)
  | Ok _ => Ok (duty_events c (DutyEpoch first :: es) None)
  end.
End duties.

(** ** check_consensus_validator_status *)

Record ValidatorStatusConfig := mkValidatorStatusConfig {
  vs_ValidatorPubKey : string; vs_ValidatorNamePattern : string; vs_ValidatorIndex : option Z;
  vs_ValidatorStatus : list string; vs_MinValidatorBalance : Z; vs_MaxValidatorBalance : option Z;
  vs_WithdrawalCredsPrefix : string; vs_FailOnCheckMiss : bool;
  vs_ValidatorInfoResultVar : string; vs_ValidatorPubKeyResultVar : string }.
Definition validator_status_DefaultConfig : ValidatorStatusConfig := mkValidatorStatusConfig "" "" None [] 0 None "" false "" "".

Section validator_status.
Context `{regexp : Regexp} (validatorName : Z -> string) (fromHex : string -> bytes).

(** Is it one the task looks for ([namePattern] compiled), and is it in the
    wanted state? *)
Definition vs_selected (c : ValidatorStatusConfig) (v : Validator) : bool :=
  (if vs_ValidatorIndex c is Some i then v_Index v =? i else true) &&
  (bool_decide (vs_ValidatorNamePattern c = "")
   || bool_decide (MatchString (vs_ValidatorNamePattern c) (validatorName (v_Index v)) = Ok true)) &&
  (bool_decide (vs_ValidatorPubKey c = "") || bool_decide (fromHex (vs_ValidatorPubKey c) = v_PublicKey v)).

Definition vs_accepted (c : ValidatorStatusConfig) (v : Validator) : bool :=
  (bool_decide (vs_ValidatorStatus c = []) || bool_decide (v_Status v ∈ vs_ValidatorStatus c)) &&
  negb ((0 <? vs_MinValidatorBalance c) && (v_Balance v <? vs_MinValidatorBalance c)) &&
  (if vs_MaxValidatorBalance c is Some m then negb (m <? v_Balance v) else true) &&
  (bool_decide (vs_WithdrawalCredsPrefix c = "")
   || bool_decide (take (length (fromHex (vs_WithdrawalCredsPrefix c))) (v_WithdrawalCredentials v)
                   = fromHex (vs_WithdrawalCredsPrefix c))).

(** The loop: the validator that was published last, and the verdict. *)
Fixpoint vs_loop (fuel : nat) (c : ValidatorStatusConfig) (validatorSet : gmap Z Validator) (currentIndex : Z)
    (published : option Validator) : option (option Validator * bool) :=
  match fuel with
  | O => None
  | S fuel =>
      match validatorSet !! currentIndex with
      | None => Some (published, false)
      | Some v =>
          if vs_selected c v then
            if vs_accepted c v then Some (Some v, true)
            else vs_loop fuel c validatorSet (currentIndex +u 1) (Some v)
          else vs_loop fuel c validatorSet (currentIndex +u 1) published
      end
  end.

(** [compiles]: does [regexp.Compile] accept the pattern. *)
Definition runValidatorStatusCheck (compiles : string -> bool) (c : ValidatorStatusConfig)
    (validatorSet : option (gmap Z Validator)) : option (option Validator * bool) :=
  match validatorSet with
  | None => Some (None, false)
  | Some validatorSet =>
      if negb (bool_decide (vs_ValidatorNamePattern c = "")) && negb (compiles (vs_ValidatorNamePattern c)) then Some (None, false)
      else vs_loop (S (size validatorSet)) c validatorSet 0 None
  end.

Definition validator_status_runCheck (compiles : string -> bool) (c : ValidatorStatusConfig)
    (validatorSet : option (gmap Z Validator)) : option TaskResult :=
  '(_, ok) ← runValidatorStatusCheck compiles c validatorSet; Some (check_result (vs_FailOnCheckMiss c) ok).
End validator_status.

(** ** Lemmas *)

(** A run of consecutive keys is not longer than the map. *)
Lemma run_size {A} (m : gmap Z A) s n :
  (forall i, 0 <= i < Z.of_nat n -> is_Some (m !! (s + i))) -> (n <= size m)%nat.
Proof.
  intros Hrun. rewrite <- size_dom.
  assert (n = size (list_to_set (C := gset Z) (seqZ s (Z.of_nat n)))) as Hn.
  { rewrite size_list_to_set by apply NoDup_seqZ. rewrite length_seqZ. lia. }
  rewrite Hn at 1. apply subseteq_size. intros k [Hk]%elem_of_list_to_set%elem_of_seqZ.
  apply elem_of_dom. replace k with (s + (k - s)) by lia. apply Hrun. lia.
Qed.

Section reorg_lemmas.
Context {B : Type} `{blk : BlockLike B} (c : BlockIndex B) (newHead : Root).
Hypothesis (Hwf : index_wf c) (Hdec : slots_decrease c).

(** [base] is cached, [k + 1] parents above the old head, [j] parents above
    the new one, and the nearest such block seen from the old head. *)
Definition reorg_base (oldHead : Root) (k j : nat) (base : Root) : Prop :=
  is_Some (lookup_block c base) /\ ancestor c (S k) oldHead base /\ ancestor c j newHead base /\
  forall k' r, (k' < k)%nat -> ancestor c (S k') oldHead r -> forall j', ~ ancestor c j' newHead r.

(** No cached block above the old head is on the chain of the new one. *)
Definition reorg_unrelated (oldHead : Root) : Prop :=
  forall k r, is_Some (lookup_block c r) -> ancestor c (S k) oldHead r -> forall j, ~ ancestor c j newHead r.

Lemma ancestor_next k r b p r' :
  lookup_block c r = Some b -> blk_parent b = Some p -> ancestor c (S k) r r' -> ancestor c k p r'.
Proof. intros Hb Hp Ha. inversion Ha; simplify_eq. done. Qed.

Lemma reorg_loop_spec fuel (X : gset Root) ph d :
  lookup_block c (blk_root ph) = Some ph -> 0 <= d -> d + blk_slot ph < two63 ->
  X ⊆ dom (blockRootMap c) ->
  (forall r b, r ∈ X -> lookup_block c r = Some b -> blk_slot ph < blk_slot b) ->
  (size (dom (blockRootMap c)) < fuel + size X)%nat ->
  exists u od nd, reorg_loop fuel c newHead ph d = Some (u, od, nd) /\
  if (u : bool) then nd = 0 /\ reorg_unrelated (blk_root ph)
  else exists k j base, od = d + Z.of_nat (S k) /\ nd = Z.of_nat j /\ reorg_base (blk_root ph) k j base.
Proof.
  revert X ph d. induction fuel as [|fuel IH]; intros X ph d Hph Hd Hbound Hsub Hlow Hsize.
  { apply subseteq_size in Hsub. lia. }
  simpl. destruct (blk_parent ph) as [p|] eqn:Hp; cycle 1.
  { exists true, d, 0. split; [done|]. split; [done|]. intros k r _ Ha. inversion Ha; congruence. }
  simpl. destruct (lookup_block c p) as [b|] eqn:Hb; cycle 1.
  { exists true, d, 0. split; [done|]. split; [done|]. intros k r Hr Ha.
    pose proof (ancestor_next _ _ _ _ _ Hph Hp Ha) as Ha'. inversion Ha'; subst; [by destruct Hr; congruence|congruence]. }
  destruct (lookup_block_wf _ _ _ Hwf Hb) as [Hroot Hslot].
  pose proof (Hdec _ _ _ _ Hph Hp Hb) as Hlt.
  assert (d +u 1 = d + 1) as -> by (apply u64_id; go_lia).
  rewrite Hroot. destruct (GetBlockDistance_sound c p newHead Hwf Hdec) as (l & n & -> & Hl).
  destruct l.
  - destruct Hl as (j & Ha & -> & _). exists false, (d + 1), (Z.of_nat j). split; [done|].
    exists 0%nat, j, p. split; [lia|]. split; [done|]. split; [eauto|]. split; [by repeat econstructor|].
    split; [done|lia].
  - destruct Hl as (_ & _ & Hno). specialize (Hno ltac:(eauto)).
    assert (blk_root ph ∉ X) as Hnew by (intros Hin; pose proof (Hlow _ _ Hin Hph); lia).
    destruct (IH ({[blk_root ph]} ∪ X) b (d + 1)) as (u & od & nd & -> & Hu); try lia.
    + by rewrite Hroot.
    + apply lookup_block_Some in Hph as (q & Hq & _). apply union_subseteq. split; [|done].
      apply singleton_subseteq_l. apply elem_of_dom. eauto.
    + intros r b' [->%elem_of_singleton|Hr]%elem_of_union Hb'; [by simplify_eq|].
      pose proof (Hlow _ _ Hr Hb'). lia.
    + rewrite size_union, size_singleton by set_solver. lia.
    + exists u, od, nd. split; [done|]. rewrite Hroot in Hu. destruct u.
      * destruct Hu as [-> Hu]. split; [done|]. intros k r Hr Ha%(ancestor_next _ _ _ _ _ Hph Hp).
        destruct k as [|k]; [inversion Ha; subst; apply Hno|by eapply Hu].
      * destruct Hu as (k & j & base & -> & -> & Hbase & Ha & Hj & Hmin).
        exists (S k), j, base. split; [lia|]. split; [done|]. split; [done|]. split; [by econstructor|].
        split; [done|]. intros [|k'] r Hk Hr%(ancestor_next _ _ _ _ _ Hph Hp); [inversion Hr; subst; apply Hno|].
        eapply Hmin; [|done]. lia.
Qed.

Lemma processChainReorg_spec oldHead newBlock t :
  lookup_block c (blk_root oldHead) = Some oldHead -> blk_root newBlock = newHead ->
  exists od nd t', processChainReorg c oldHead newBlock t = Some t' /\
    totalReorgs t' = totalReorgs t +u 1 /\ maxReorgDistance t' = Z.max (maxReorgDistance t) (od +u nd) /\
    startEpoch t' = startEpoch t /\ lastBlock t' = lastBlock t /\
    (nd = 0 /\ reorg_unrelated (blk_root oldHead) \/
     exists k j base, od = Z.of_nat (S k) /\ nd = Z.of_nat j /\ reorg_base (blk_root oldHead) k j base).
Proof.
  intros Hold Hnew. destruct (lookup_block_wf _ _ _ Hwf Hold) as [_ Hs].
  destruct (iwf_max _ Hwf) as [Hm _].
  destruct (reorg_loop_spec (S (distance_fuel c)) ∅ oldHead 0) as (u & od & nd & Hloop & Hu);
    [done|lia|lia|set_solver|set_solver| |].
  { unfold distance_fuel. rewrite size_dom, size_empty. lia. }
  unfold processChainReorg. rewrite Hnew, Hloop. simpl. exists od, nd. eexists. split; [done|]. simpl.
  do 4 (split; [done|]). destruct u; [left; done|right; done].
Qed.
End reorg_lemmas.

Section duty_lemmas.
Context `{regexp : Regexp} (validatorName : Z -> string) (c : DutyConfig) (duties : gmap Z Z) (cur : Z).

(** The [n]th slot from the current one is the first with a wanted duty, the
    slots before it having duties of other validators. *)
Definition first_duty (n : nat) : Prop :=
  (exists v, duties !! (cur + Z.of_nat n) = Some v /\ duty_matches validatorName c v = Ok true) /\
  forall i, (i < n)%nat -> exists v, duties !! (cur + Z.of_nat i) = Some v /\ duty_matches validatorName c v = Ok false.

(** The distance is one the task accepts. *)
Definition duty_distance (n : nat) : Prop :=
  (du_MinSlotDistance c <= Z.of_nat n \/ du_MinSlotDistance c <= 0) /\
  (Z.of_nat n <= du_MaxSlotDistance c \/ du_MaxSlotDistance c <= 0).

Lemma first_duty_unique n m : first_duty n -> first_duty m -> n = m.
Proof.
  intros [(v & Hv & Hvm) Hn] [(w & Hw & Hwm) Hm].
  destruct (lt_eq_lt_dec n m) as [[Hlt| ->]|Hlt]; [|done|].
  - destruct (Hm _ Hlt) as (? & ? & ?). congruence.
  - destruct (Hn _ Hlt) as (? & ? & ?). congruence.
Qed.

Hypothesis (Hcur : is_u64 cur) (Hend : cur + Z.of_nat (size duties) < two64).

Lemma duty_loop_spec fuel n :
  (forall i, (i < n)%nat -> exists v, duties !! (cur + Z.of_nat i) = Some v /\ duty_matches validatorName c v = Ok false) ->
  (size duties < fuel + n)%nat ->
  exists b, duty_loop validatorName fuel c duties cur (cur + Z.of_nat n) = Some b /\
    (b = true <-> exists m, first_duty m /\ duty_distance m).
Proof.
  revert n. induction fuel as [|fuel IH]; intros n Hrun Hsize.
  { assert (n <= size duties)%nat; [|lia]. apply (run_size duties cur). intros i Hi.
    destruct (Hrun (Z.to_nat i)) as (v & Hv & _); [lia|]. rewrite Z2Nat.id in Hv by lia. eauto. }
  assert (n <= size duties)%nat as Hn.
  { apply (run_size duties cur). intros i Hi. destruct (Hrun (Z.to_nat i)) as (v & Hv & _); [lia|].
    rewrite Z2Nat.id in Hv by lia. eauto. }
  assert (forall m, first_duty m -> (n <= m)%nat) as Hge.
  { intros m [(v & Hv & Hvm) _]. destruct (decide (m < n)%nat) as [Hlt|]; [|lia].
    destruct (Hrun _ Hlt) as (? & ? & ?). congruence. }
  assert (forall m, first_duty m -> (n = m)%nat \/ exists v, duties !! (cur + Z.of_nat n) = Some v /\ duty_matches validatorName c v = Ok false) as Hstep.
  { intros m Hm. destruct (decide (n = m)); [by left|right]. pose proof (Hge m Hm). apply Hm. lia. }
  simpl. destruct (duties !! (cur + Z.of_nat n)) as [v|] eqn:Hv; cycle 1.
  { exists false. split; [done|]. split; [done|]. intros (m & Hm & _).
    destruct (Hstep m Hm) as [<-|(? & ? & ?)]; [|congruence]. destruct Hm as [(? & ? & ?) _]. congruence. }
  assert (cur + Z.of_nat n -u cur = Z.of_nat n) as -> by (rewrite u64_id by go_lia; lia).
  destruct ((0 <? du_MaxSlotDistance c) && (du_MaxSlotDistance c <? Z.of_nat n)) eqn:Hmax.
  { exists false. split; [done|]. split; [done|]. intros (m & Hm & _ & Hd). pose proof (Hge m Hm). lia. }
  destruct (duty_matches validatorName c v) as [[]|e] eqn:Hmatch.
  - eexists. split; [done|].
    assert (first_duty n) as Hfirst by (split; [eauto|done]). rewrite negb_true_iff. split.
    + intros Hmin. exists n. split; [done|]. unfold duty_distance. lia.
    + intros (m & Hm & Hd). rewrite (first_duty_unique _ _ Hm Hfirst) in Hd. destruct Hd. lia.
  - assert ((n < size duties)%nat) as Hlt.
    { apply (run_size duties cur (S n)). intros i Hi. destruct (decide (i = Z.of_nat n)) as [->|]; [eauto|].
      destruct (Hrun (Z.to_nat i)) as (w & Hw & _); [lia|]. rewrite Z2Nat.id in Hw by lia. eauto. }
    assert (cur + Z.of_nat n +u 1 = cur + Z.of_nat (S n)) as -> by (rewrite u64_id by go_lia; lia).
    apply IH; [|lia]. intros i Hi. destruct (decide (i = n)) as [->|]; [eauto|]. apply Hrun. lia.
  - exists false. split; [done|]. split; [done|]. intros (m & Hm & _).
    destruct (Hstep m Hm) as [<-|(? & ? & ?)]; [|congruence]. destruct Hm as [(? & ? & ?) _]. congruence.
Qed.
End duty_lemmas.

Section status_lemmas.
Context `{regexp : Regexp} (validatorName : Z -> string) (fromHex : string -> bytes).
Context (c : ValidatorStatusConfig) (validatorSet : gmap Z Validator).

(** The validator the check looks for: in the gapless part of the set from
    index 0, selected by the configuration and in the wanted state. *)
Definition wanted_validator (n : nat) (v : Validator) : Prop :=
  (forall i, (i <= n)%nat -> is_Some (validatorSet !! Z.of_nat i)) /\ validatorSet !! Z.of_nat n = Some v /\
  vs_selected validatorName fromHex c v = true /\ vs_accepted fromHex c v = true.

Hypothesis (Hsize : Z.of_nat (size validatorSet) < two64).

Lemma vs_loop_spec fuel n p :
  (forall i, (i < n)%nat -> is_Some (validatorSet !! Z.of_nat i)) ->
  (forall i v, (i < n)%nat -> ~ wanted_validator i v) ->
  (size validatorSet < fuel + n)%nat ->
  exists p' b, vs_loop validatorName fromHex fuel c validatorSet (Z.of_nat n) p = Some (p', b) /\
    if (b : bool) then exists m v, wanted_validator m v /\ p' = Some v /\ forall i w, (i < m)%nat -> ~ wanted_validator i w
    else forall m v, ~ wanted_validator m v.
Proof.
  assert (forall n, (forall i, (i < n)%nat -> is_Some (validatorSet !! Z.of_nat i)) -> (n <= size validatorSet)%nat) as Hrun_size.
  { intros k Hk. apply (run_size validatorSet 0). intros i Hi. specialize (Hk (Z.to_nat i) ltac:(lia)).
    by rewrite Z2Nat.id in Hk by lia. }
  revert n p. induction fuel as [|fuel IH]; intros n p Hrun Hnone Hf; pose proof (Hrun_size n Hrun); [lia|].
  simpl. destruct (validatorSet !! Z.of_nat n) as [v|] eqn:Hv; cycle 1.
  { exists p, false. split; [done|]. intros m w Hw. destruct (decide (m < n)%nat) as [Hm|]; [by eapply Hnone|].
    destruct Hw as [Hw _]. destruct (Hw n ltac:(lia)). congruence. }
  assert (forall i, (i < S n)%nat -> is_Some (validatorSet !! Z.of_nat i)) as Hrun'.
  { intros i Hi. destruct (decide (i = n)) as [->|]; [eauto|]. apply Hrun. lia. }
  pose proof (Hrun_size (S n) Hrun').
  assert (Z.of_nat n +u 1 = Z.of_nat (S n)) as -> by (rewrite u64_id by go_lia; lia).
  assert (vs_selected validatorName fromHex c v && vs_accepted fromHex c v = false ->
    forall i w, (i < S n)%nat -> ~ wanted_validator i w) as Hnone'.
  { intros Hno i w Hi Hw. destruct (decide (i = n)) as [->|]; [|eapply (Hnone i w); [lia|done]].
    destruct Hw as (_ & Hw & Hs & Ha). rewrite Hv in Hw. simplify_eq. by rewrite Hs, Ha in Hno. }
  destruct (vs_selected validatorName fromHex c v) eqn:Hsel; [destruct (vs_accepted fromHex c v) eqn:Hacc|].
  - exists (Some v), true. split; [done|]. exists n, v. split; [|done]. split; [|done].
    intros i Hi. apply Hrun'. lia.
  - apply IH; [done|by apply Hnone'|lia].
  - apply IH; [done|by apply Hnone'|lia].
Qed.
End status_lemmas.

(** ** Properties *)

(** The walk of [processChainReorg] ends, counts one reorg and raises the
    recorded maximum to the distance of this one: when some cached block
    above the old head is on the chain of the new head, the sum of the
    numbers of parent links from the two heads to the nearest such block;
    otherwise only the links it could follow from the old head.  The other
    fields of the task stay as they were. *)
Theorem reorg_distance {B} `{BlockLike B} (c : BlockIndex B) (oldHead newBlock : B) (t : ReorgTask) :
  index_wf c -> slots_decrease c -> lookup_block c (blk_root oldHead) = Some oldHead ->
  exists od nd t', processChainReorg c oldHead newBlock t = Some t' /\
    totalReorgs t' = totalReorgs t +u 1 /\ maxReorgDistance t' = Z.max (maxReorgDistance t) (od +u nd) /\
    startEpoch t' = startEpoch t /\ lastBlock t' = lastBlock t /\
    (nd = 0 /\ reorg_unrelated c (blk_root newBlock) (blk_root oldHead) \/
     exists k j base, od = Z.of_nat (S k) /\ nd = Z.of_nat j /\
       reorg_base c (blk_root newBlock) (blk_root oldHead) k j base).
Proof. intros Hwf Hdec Hold. by apply processChainReorg_spec. Qed.

Lemma reorg_distance_witness :
  processChainReorg ex_index (mkExBlock 3 5 (Some 2%N)) (mkExBlock 4 5 (Some 2%N)) (mkReorgTask 7 0 1 None None)
    = Some (mkReorgTask 7 1 2 None None) /\
  exists k j base, reorg_base ex_index 4 3 k j base.
Proof.
  assert (lookup_block ex_index 3 = Some (mkExBlock 3 5 (Some 2%N))) as Hold by (by vm_compute).
  split; [by vm_compute|].
  destruct (reorg_distance ex_index (mkExBlock 3 5 (Some 2%N)) (mkExBlock 4 5 (Some 2%N)) (mkReorgTask 7 0 1 None None)
    ex_index_wf ex_index_decrease Hold) as (od & nd & t' & _ & _ & _ & _ & _ & [[_ Hno]|(k & j & base & _ & _ & Hb)]);
    [exfalso|by exists k, j, base].
  assert (lookup_block ex_index 4 = Some (mkExBlock 4 5 (Some 2%N))) as H4 by (by vm_compute).
  refine (Hno 0%nat 2%N _ _ 1%nat _); [vm_compute; eauto| |];
    (econstructor; [eassumption|reflexivity|constructor]).
Defined.

(** The duty check of a slot always answers, after at most one step per
    known duty: it is met exactly when, going up from the slot through slots
    with known duties, the first duty of a wanted validator is at an accepted
    distance.  A later duty of the validator does not count. *)
Theorem proposer_duty_check `{Regexp} validatorName (c : DutyConfig) (duties : gmap Z Z) (slot : Z) :
  is_u64 slot -> slot + Z.of_nat (size duties) < two64 ->
  exists ok, runProposerDutyCheck validatorName c (Some duties) slot = Some ok /\
    (ok = true <-> exists n, first_duty validatorName c duties slot n /\ duty_distance c n).
Proof.
  intros Hslot Hend. unfold runProposerDutyCheck.
  pose proof (duty_loop_spec validatorName c duties slot Hslot Hend (S (size duties)) 0) as Hspec.
  rewrite Z.add_0_r in Hspec. apply Hspec; lia.
Qed.

#[local] Instance ex_regexp : Regexp := {| MatchString := fun p s => Ok (bool_decide (p = s)) |}.

Definition ex_duties : gmap Z Z := <[100 := 7]> (<[101 := 3]> (<[102 := 7]> ∅)).

Lemma proposer_duty_check_witness :
  let c := mkDutyConfig "" (Some 3) 0 2 true in
  runProposerDutyCheck (fun _ => "") c (Some ex_duties) 100 = Some true /\
  exists n, first_duty (fun _ => "") c ex_duties 100 n /\ duty_distance c n.
Proof.
  intros c. assert (runProposerDutyCheck (fun _ => "") c (Some ex_duties) 100 = Some true) as Hrun by (by vm_compute).
  split; [done|].
  destruct (proposer_duty_check (fun _ => "") c ex_duties 100) as (ok & Hok & Hiff); [go_lia|by vm_compute|].
  rewrite Hrun in Hok. apply Hiff. congruence.
Defined.

(** The validator check always answers: it is met exactly when a validator in
    the gapless part of the set from index 0 fits the configuration and has a
    wanted status, an accepted balance and the credentials prefix; the
    validator it publishes then is the one with the lowest such index. *)
Theorem validator_status_check `{Regexp} validatorName fromHex compiles (c : ValidatorStatusConfig)
    (validatorSet : gmap Z Validator) :
  Z.of_nat (size validatorSet) < two64 -> compiles (vs_ValidatorNamePattern c) = true ->
  exists p ok, runValidatorStatusCheck validatorName fromHex compiles c (Some validatorSet) = Some (p, ok) /\
    if (ok : bool) then exists n v, wanted_validator validatorName fromHex c validatorSet n v /\ p = Some v /\
      forall i w, (i < n)%nat -> ~ wanted_validator validatorName fromHex c validatorSet i w
    else forall n v, ~ wanted_validator validatorName fromHex c validatorSet n v.
Proof.
  intros Hsize Hc. unfold runValidatorStatusCheck. rewrite Hc, andb_false_r.
  apply (vs_loop_spec validatorName fromHex c validatorSet Hsize (S (size validatorSet)) 0 None); lia.
Qed.

Definition ex_validator (i : Z) (status : string) : Validator := mkValidator i status [] [] MaxUint64 32000000000.

Lemma validator_status_check_witness :
  let c := mkValidatorStatusConfig "" "" None ["active_exiting"] 0 None "" true "" "" in
  let vs : gmap Z Validator := <[0 := ex_validator 0 "active_ongoing"]> (<[1 := ex_validator 1 "active_exiting"]> ∅) in
  runValidatorStatusCheck (fun _ => "") (fun _ => []) (fun _ => true) c (Some vs) = Some (Some (ex_validator 1 "active_exiting"), true) /\
  exists n v, wanted_validator (fun _ => "") (fun _ => []) c vs n v.
Proof.
  intros c vs.
  assert (runValidatorStatusCheck (fun _ => "") (fun _ => []) (fun _ => true) c (Some vs)
    = Some (Some (ex_validator 1 "active_exiting"), true)) as Hrun by (by vm_compute).
  split; [done|].
  destruct (validator_status_check (fun _ => "") (fun _ => []) (fun _ => true) c vs) as (p & ok & Hok & Hif);
    [by vm_compute|done|].
  rewrite Hrun in Hok. injection Hok as <- <-. destruct Hif as (n & v & Hw & _). eauto.
Defined.

(** A finality check is met iff the clock answers and the configured lower
    bound on finalized epochs and the bounds on unfinalized ones hold, each
    bound counting only when it is not zero. *)
Theorem finality_check_exact (c : FinalityConfig) (now : Wallclock) (fin : Z) :
  (runFinalityCheck c now fin).2 = true <->
  exists slot epoch, now = Ok (slot, epoch) /\
    (0 < fin_MinUnfinalizedEpochs c -> fin_MinUnfinalizedEpochs c <= epoch -u fin) /\
    (0 < fin_MaxUnfinalizedEpochs c -> epoch -u fin <= fin_MaxUnfinalizedEpochs c) /\
    (0 < fin_MinFinalizedEpochs c -> fin_MinFinalizedEpochs c <= fin).
Proof.
  unfold runFinalityCheck. destruct now as [[slot epoch]|e]; simpl; [|split; [done|by intros (? & ? & ? & _)]].
  split.
  - intros Hv. exists slot, epoch. split; [done|]. repeat case_match; try done. lia.
  - intros (s & e & [= <- <-] & H1 & H2 & H3). repeat case_match; try done; lia.
Qed.

(** The result of the slot range task: met iff the chain has started and slot
    and epoch are in the ranges; once it failed by being past the range, no
    later clock reading is met. *)
Theorem slot_range_final (c : SlotRangeConfig) (slot epoch slot' epoch' : Z) :
  slot <= slot' -> epoch <= epoch' ->
  (runRangeCheck c true (Ok (slot, epoch)) = (true, false) <->
    sr_MinSlotNumber c <= slot <= sr_MaxSlotNumber c /\ sr_MinEpochNumber c <= epoch <= sr_MaxEpochNumber c) /\
  (runRangeCheck c true (Ok (slot, epoch)) = (false, false) ->
    runRangeCheck c true (Ok (slot', epoch')) = (false, false)).
Proof.
  intros Hs He. unfold runRangeCheck. simpl.
  split; [split; [|intros [? ?]]|]; repeat case_match; try done; lia.
Qed.

Lemma slot_range_final_witness :
  let c := mkSlotRangeConfig 10 20 0 5 false in
  runRangeCheck c true (Ok (21, 2)) = (false, false) /\ runRangeCheck c true (Ok (30, 3)) = (false, false).
Proof.
  intros c. split; [by vm_compute|].
  apply (proj2 (slot_range_final c 21 2 30 3 ltac:(lia) ltac:(lia))). by vm_compute.
Defined.
