(* ===== verification/SingleTx.v ===== *)
(** * Single transactions

    tasks/generate_transaction builds one transaction of any kind, sends it
    and checks its receipt; set-code authorizations take their nonces from the
    wallets of their signers while the transaction is being built.  Also
    generate_child_wallet and get_wallet_details, which hand out a wallet. *)

From Stdlib Require Import Strings.Byte.
From S2P Require Import Prelude Vars Db Scheduler Wallet WalletPool BlobTx GenTasks.

#[local] Open Scope string_scope.
#[local] Open Scope list_scope.
Open Scope Z_scope.

(** ** The configuration *)

Record AuthorizationConfig := mkAuthConfig {
  au_ChainID : Z; au_Nonce : option Z; au_CodeAddress : string; au_SignerPrivkey : string }.

Record ExpectedEvent := mkExpected { ee_Topic0 : string; ee_Topic1 : string; ee_Topic2 : string; ee_Data : string }.

Record TransactionConfig := mkTransactionConfig {
  tc_PrivateKey : string; tc_LegacyTxType : bool; tc_BlobTxType : bool; tc_SetCodeTxType : bool;
  tc_BlobFeeCap : option Z; tc_FeeCap : Z; tc_TipCap : Z; tc_GasLimit : Z;
  tc_TargetAddress : string; tc_RandomTarget : bool; tc_ContractDeployment : bool;
  tc_CallData : string; tc_BlobData : string; tc_RandomAmount : bool; tc_Amount : Z; tc_Nonce : option Z;
  tc_Authorizations : list AuthorizationConfig;
  tc_ClientPattern : string; tc_ExcludeClientPattern : string;
  tc_AwaitReceipt : bool; tc_FailOnReject : bool; tc_FailOnSuccess : bool; tc_ExpectEvents : list ExpectedEvent;
  tc_TransactionHashResultVar : string; tc_TransactionReceiptResultVar : string; tc_ContractAddressResultVar : string }.

Definition tc_DefaultConfig : TransactionConfig :=
  mkTransactionConfig "" false false false None 100000000000 1000000000 50000 "" false false "" "" false 0 None [] "" ""
    true false false [] "" "" "".

Definition tc_Validate (c : TransactionConfig) : option error :=
  if bool_decide (tc_PrivateKey c = "") then Some "privateKey must be set" else None.

(** A log of a receipt, as far as the task looks at it. *)
Record Log := mkLog { log_Topics : list bytes; log_Data : bytes }.

(** Addresses from hexadecimal, signatures of authorizations (which leave the
    signed fields alone), and the receipt's logs and contract address. *)
Class TransactionLib `{types : EthTypes} := {
  HexToAddress : string -> Address;
  hex_bytes : string -> bytes;
  SignSetCode : option PrivateKey -> SetCodeAuthorization -> result SetCodeAuthorization;
  SignSetCode_keeps : forall k a a', SignSetCode k a = Ok a' ->
    sa_ChainID a' = sa_ChainID a /\ sa_Address a' = sa_Address a /\ sa_Nonce a' = sa_Nonce a;
  Receipt_Logs : Receipt -> list Log;
  ContractAddress : Receipt -> Address;
  MarshalBinary : Tx -> result bytes
}.

Section single_tx.
Context `{types : EthTypes} `{geth : !GethTx} `{lib : !TransactionLib} `{kzg : Kzg} `{src : BlobSources}.
#[local] Existing Instance types.

(** ** Building it *)

(** The loop over the authorizations, with the wallets of their signers; the
    wallets change as the nonces are taken. *)
Fixpoint auth_list (auths : list AuthorizationConfig) (signers : list Address) (m : gmap Address Wallet)
    : gmap Address Wallet * go (list SetCodeAuthorization) :=
  match auths, signers with
  | [], _ => (m, Ret [])
  | _ :: _, [] => (m, Panic "index out of range")
  | authorization :: auths, a :: signers =>
      let authWallet := get_wallet m a in
      let '(m, nonce) :=
        match au_Nonce authorization with
        | Some n => (m, n)
        | None => let '(w, n) := UseNextNonce true authWallet in (<[a := w]> m, n)
        end in
      match SignSetCode (privkey authWallet)
              (mkAuthorization (au_ChainID authorization) (HexToAddress (au_CodeAddress authorization)) nonce None) with
      | Err e => (m, Fail e)
      | Ok authEntry =>
          let '(m, r) := auth_list auths signers m in
          (m, do! l := r in Ret (authEntry :: l))
      end
  end.

(** The closure that [generateTransaction] passes to [BuildTransaction];
    [a] is the sending wallet. *)
Definition tc_buildTx (c : TransactionConfig) (targetAddr : Address) (transactionData : option bytes) (chainID : Z)
    (rnd : randomness) (signers : list Address) (a : Address) (nonce : Z) (m : gmap Address Wallet)
    : gmap Address Wallet * go TxData :=
  let toAddr :=
    if tc_ContractDeployment c then None
    else if tc_RandomTarget c then Some (rnd_address rnd)
    else if bool_decide (tc_TargetAddress c = "") then Some a
    else Some targetAddr in
  match tx_amount rnd (tc_RandomAmount c) (tc_Amount c) with
  | Fail e => (m, Fail e)
  | Panic p => (m, Panic p)
  | Ret txAmount =>
      let nonce := default nonce (tc_Nonce c) in
      let txData := default [] transactionData in
      if tc_LegacyTxType c then (m, Ret (LegacyTx nonce (tc_FeeCap c) (tc_GasLimit c) toAddr txAmount txData))
      else if tc_BlobTxType c then
        (m, match toAddr with
            | None => Fail "contract deployment not supported with blob transactions"
            | Some toAddr =>
                let blobData := if bool_decide (tc_BlobData c = "") then "identifier" else tc_BlobData c in
                do! sidecar := GenerateBlobSidecar (Split ";" blobData) 0 0 in
                do! blobFeeCap := match tc_BlobFeeCap c with
                                  | Some v => MustFromBig v
                                  | None => Panic "nil pointer dereference"
                                  end in
                do! tipCap := MustFromBig (tc_TipCap c) in
                do! feeCap := MustFromBig (tc_FeeCap c) in
                do! txAmount := MustFromBig txAmount in
                Ret (BlobTransaction 0 nonce blobFeeCap tipCap feeCap (tc_GasLimit c) toAddr txAmount txData
                       sidecar.1 sidecar.2)
            end)
      else if tc_SetCodeTxType c then
        let '(m, r) := auth_list (tc_Authorizations c) signers m in
        (m, do! authList := r in
            do! chainID := MustFromBig chainID in
            do! tipCap := MustFromBig (tc_TipCap c) in
            do! feeCap := MustFromBig (tc_FeeCap c) in
            do! toAddr := match toAddr with Some toAddr => Ret toAddr | None => Panic "nil pointer dereference" end in
            do! txAmount := MustFromBig txAmount in
            Ret (SetCodeTx chainID nonce tipCap feeCap (tc_GasLimit c) toAddr txAmount txData authList))
      else (m, Ret (DynamicFeeTx chainID nonce (tc_TipCap c) (tc_FeeCap c) (tc_GasLimit c) toAddr txAmount txData))
  end.

(** [generateTransaction]; the closure runs on the nonce the wallet had
    before it, the rest of [BuildTransaction] on the wallet as it is then.
    [None] while the wallet is not ready. *)
Definition tc_generateTransaction (c : TransactionConfig) targetAddr transactionData chainID rnd
    (signers : list Address) (a : Address) (ctxErr : option error) (m : gmap Address Wallet)
    : gmap Address Wallet * option (go Tx) :=
  match AwaitReady ctxErr (get_wallet m a) with
  | None => (m, None)
  | Some (Some e) => (m, Some (Fail e))
  | Some None =>
      match tc_buildTx c targetAddr transactionData chainID rnd signers a (pendingNonce (get_wallet m a)) m with
      | (m, Panic p) => (m, Some (Panic p))
      | (m, Fail e) => (m, Some (Fail e))
      | (m, Ret d) =>
          let '(w, r) := BuildTransaction ctxErr (fun _ => Ok (geth_NewTx d)) (get_wallet m a) in
          (<[a := w]> m, of_result <$> r)
      end
  end.

(** ** Sending it and checking the receipt *)

Definition topic_ok (want : string) (i : nat) (log : Log) : bool :=
  bool_decide (want = "") || (if log_Topics log !! i is Some t then bool_decide (hex_bytes want = t) else false).

Definition event_matches (e : ExpectedEvent) (log : Log) : bool :=
  topic_ok (ee_Topic0 e) 0 log && topic_ok (ee_Topic1 e) 1 log && topic_ok (ee_Topic2 e) 2 log
  && (bool_decide (ee_Data e = "") || bool_decide (hex_bytes (ee_Data e) = log_Data log)).

Fixpoint check_events (es : list ExpectedEvent) (logs : list Log) : option error :=
  match es with
  | [] => None
  | e :: es => if existsb (event_matches e) logs then check_events es logs else Some "expected event not fired"
  end.

(** Values of outputs and variables. *)
Inductive tx_output :=
  | TxValue (tx : Tx) | TxHex (b : bytes) | TxHash (h : N) | TxContract (a : Address) | TxReceipt (r : Receipt).

Definition set_if (name : string) (v : tx_output) : list (string * tx_output) :=
  if bool_decide (name = "") then [] else [(name, v)].

(** What the part of [Execute] after the receipt does: variables, outputs and
    the error. *)
Definition check_receipt (c : TransactionConfig) (generalizes : Receipt -> bool) (receipt : Receipt)
    : list (string * tx_output) * list (string * tx_output) * option error :=
  if tc_FailOnSuccess c && (0 <? Receipt_Status receipt)
  then ([], [], Some "transaction succeeded, but expected rejection")
  else if tc_FailOnReject c && (Receipt_Status receipt =? 0)
  then ([], [], Some "transaction rejected, but expected success")
  else
    let contract := TxContract (ContractAddress receipt) in
    let g := generalizes receipt in
    (set_if (tc_ContractAddressResultVar c) contract
       ++ (if g then set_if (tc_TransactionReceiptResultVar c) (TxReceipt receipt) else []),
     ("contractAddress", contract) :: (if g then [("receipt", TxReceipt receipt)] else []),
     check_events (tc_ExpectEvents c) (Receipt_Logs receipt)).

Record tx_exec := mkExec {
  te_wallets : gmap Address Wallet; te_vars : list (string * tx_output); te_outputs : list (string * tx_output);
  te_err : option error }.

(** [ResyncState] of the signers. *)
Definition resync_all (signers : list Address) (m : gmap Address Wallet) : gmap Address Wallet :=
  fold_left (fun m a => <[a := ResyncState (get_wallet m a)]> m) signers m.

(** The first signer whose wallet is not ready: waiting, or its error. *)
Fixpoint await_signers (ctxErr : option error) (signers : list Address) (m : gmap Address Wallet) : option (option error) :=
  match signers with
  | [] => Some None
  | a :: signers =>
      match AwaitReady ctxErr (get_wallet m a) with
      | Some None => await_signers ctxErr signers m
      | r => r
      end
  end.

(** The clients [Execute] sends to, in its order. *)
Definition tc_clients {C} (c : TransactionConfig) (ready matched : list C) : result (list C) :=
  select_clients (tc_ClientPattern c) (tc_ExcludeClientPattern c) ready matched.

(** [Execute]; [awaited] is what [AwaitTransaction] answers ([None] while it
    waits), [gen_tx] and [gen_receipt] whether a value can be generalized. *)
Definition tc_Execute {C} (c : TransactionConfig) targetAddr transactionData chainID rnd (signers : list Address)
    (a : Address) (ctxErr : option error) (ready matched : list C) (send : C -> Tx -> option error)
    (awaited : Tx -> option (result (option Receipt))) (gen_tx : Tx -> bool) (gen_receipt : Receipt -> bool)
    (m : gmap Address Wallet) : option (go tx_exec) :=
  let failed m outs e := Some (Ret (mkExec m [] outs (Some e))) in
  match AwaitReady ctxErr (get_wallet m a) with
  | None => None
  | Some (Some e) => failed m [] ("cannot load wallet state: " +:+ e)
  | Some None =>
      match (if tc_SetCodeTxType c then await_signers ctxErr signers m else Some None) with
      | None => None
      | Some (Some e) => failed m [] ("cannot load authorization wallet state: " +:+ e)
      | Some None =>
          match tc_generateTransaction c targetAddr transactionData chainID rnd signers a ctxErr m with
          | (_, None) => None
          | (_, Some (Panic p)) => Some (Panic p)
          | (m, Some (Fail e)) => failed m [] e
          | (m, Some (Ret tx)) =>
              let outs :=
                (if gen_tx tx then [("transaction", TxValue tx)] else [])
                ++ match MarshalBinary tx with Ok b => [("transactionHex", TxHex b)] | Err _ => [] end in
              match tc_clients c ready matched with
              | Err e => failed m outs e
              | Ok clients =>
                  match send_first_ok (fun client => send client tx) clients None with
                  | Some e => failed m outs e
                  | None =>
                      let vars := set_if (tc_TransactionHashResultVar c) (TxHash (Tx_Hash tx)) in
                      let outs := outs ++ [("transactionHash", TxHash (Tx_Hash tx))] in
                      let done m := Some (Ret (mkExec (resync_all signers m) vars outs None)) in
                      if tc_AwaitReceipt c then
                        match awaited tx with
                        | None => None
                        | Some (Err e) => Some (Ret (mkExec m vars outs (Some ("failed waiting for tx receipt: " +:+ e))))
                        | Some (Ok None) => Some (Ret (mkExec m vars outs (Some "tx receipt not found")))
                        | Some (Ok (Some receipt)) =>
                            let '(vars', outs', err) := check_receipt c gen_receipt receipt in
                            match err with
                            | Some e => Some (Ret (mkExec m (vars ++ vars') (outs ++ outs') (Some e)))
                            | None => Some (Ret (mkExec (resync_all signers m) (vars ++ vars') (outs ++ outs') None))
                            end
                        end
                      else done m
                  end
              end
          end
      end
  end.

(** [LoadConfig] on the configuration after [ConsumeVars]: the sender, the
    signers and the decoded target and data; every wallet is the manager's. *)
Section load.
Context `{pt : !PoolTypes} (HexToECDSA : string -> result PrivateKey) (UnmarshalText : string -> result Address).

Definition load_wallet (privkey : string) (m : gmap Address Wallet) : gmap Address Wallet * result Address :=
  match HexToECDSA privkey with
  | Err e => (m, Err e)
  | Ok key => let a := PubkeyToAddress key in ((GetWalletByPrivkey key a m).1, Ok a)
  end.

Fixpoint load_signers (auths : list AuthorizationConfig) (m : gmap Address Wallet)
    : gmap Address Wallet * result (list Address) :=
  match auths with
  | [] => (m, Ok [])
  | authorization :: auths =>
      let '(m, r) := load_wallet (au_SignerPrivkey authorization) m in
      match r with
      | Err e => (m, Err e)
      | Ok a => let '(m, r) := load_signers auths m in (m, let! l := r in Ok (a :: l))
      end
  end.

Definition tc_LoadConfig (c : TransactionConfig) (m : gmap Address Wallet)
    : gmap Address Wallet * result (Address * list Address * option Address * option bytes) :=
  match tc_Validate c with
  | Some e => (m, Err e)
  | None =>
      let '(m, r) := load_wallet (tc_PrivateKey c) m in
      match r with
      | Err e => (m, Err e)
      | Ok a =>
          let '(m, r) := if tc_SetCodeTxType c then load_signers (tc_Authorizations c) m else (m, Ok []) in
          (m, let! signers := r in
              let! target := if bool_decide (tc_TargetAddress c = "") then Ok None
                             else match UnmarshalText (tc_TargetAddress c) with
                                  | Ok t => Ok (Some t)
                                  | Err e => Err ("cannot decode execution addr: " +:+ e)
                                  end in
              Ok (a, signers, target,
                  if bool_decide (tc_CallData c = "") then None else Some (hex_bytes (tc_CallData c))))
      end
  end.

(** ** generate_child_wallet *)

Record ChildWalletConfig := mkChildWalletConfig {
  cw_PrivateKey : string; cw_WalletSeed : string; cw_RandomSeed : bool;
  cw_PrefundFeeCap : Z; cw_PrefundTipCap : Z; cw_PrefundAmount : Z; cw_PrefundMinBalance : Z;
  cw_WalletAddressResultVar : string; cw_WalletPrivateKeyResultVar : string }.

Definition cw_DefaultConfig : ChildWalletConfig :=
  mkChildWalletConfig "" "" false 500000000000 1000000000 1000000000000000000 500000000000000000 "" "".

Definition cw_Validate (c : ChildWalletConfig) : option error :=
  if bool_decide (cw_PrivateKey c = "") then Some "privateKey must be set" else None.

Definition letterBytes : string := "abcdefghijklmnopqrstuvwxyzABCDEFGHIJKLMNOPQRSTUVWXYZ".

(** [randStringBytes]: [intn i] is the [i]th answer of [rand.Intn(52)]. *)
Definition randStringBytes (intn : nat -> nat) (n : nat) : list Ascii.ascii :=
  (fun i => default Ascii.zero (String.get (intn i) letterBytes)) <$> seq 0 n.

(** [GetSummary] of a wallet, and what the two tasks publish. *)
Record WalletSummary := mkSummary {
  su_Address : Address; su_PrivKey : option PrivateKey; su_PendingBalance : Z; su_PendingNonce : Z;
  su_ConfirmedBalance : Z; su_ConfirmedNonce : Z }.

Definition GetSummary (w : Wallet) : WalletSummary :=
  mkSummary (address w) (privkey w) (pendingBalance w) (pendingNonce w) (confirmedBalance w) (confirmedNonce w).

Record child_outputs := mkChildOutputs {
  co_childWallet : WalletSummary; co_address : option Address; co_privkey : option (option PrivateKey) }.

(** [Execute] with the seed in bytes, the funding events that happen and
    [ctx.Err()] at its end; [None] while it waits. *)
Definition cw_Execute {C} (c : ChildWalletConfig) (rootKey : PrivateKey) (seed : list Z) (ctxErr endErr : option error)
    (clients : list C) (es : list (funding_event (C := C))) (m : gmap Address Wallet)
    : option (gmap Address Wallet * (option child_outputs * option error)) :=
  let root := PubkeyToAddress rootKey in
  match AwaitReady ctxErr (get_wallet m root) with
  | None => None
  | Some (Some e) => Some (m, (None, Some e))
  | Some None =>
      match GetWalletPoolByPrivkey rootKey 1 seed m with
      | (m, Err e) => Some (m, (None, Some e))
      | (m, Ok pool) =>
          let '(sc, scanned) :=
            scan_wallets (rootWallet pool) (cw_PrefundAmount c) ctxErr (wallets pool)
              (mkScan m (cw_PrefundMinBalance c) [] None) in
          match scanned with
          | None => None
          | Some (Err e) => Some (sc_wallets sc, (None, Some e))
          | Some (Ok _) =>
              s ← funding_run clients 1 es (funding_start sc);
              funded ← funding_result s;
              match funded with
              | Some e => Some (sc_wallets sc, (None, Some e))
              | None =>
                  match GetNextChildWallet pool with
                  | Ret (_, child) =>
                      let w := get_wallet (sc_wallets sc) child in
                      Some (sc_wallets sc,
                            (Some (mkChildOutputs (GetSummary w)
                                     (if bool_decide (cw_WalletAddressResultVar c = "") then None else Some (address w))
                                     (if bool_decide (cw_WalletPrivateKeyResultVar c = "") then None else Some (privkey w))),
                             endErr))
                  | _ => None
                  end
              end
          end
      end
  end.

(** ** get_wallet_details *)

Definition wd_Validate (PrivateKey Address : string) : option error :=
  if bool_decide (PrivateKey = "") && bool_decide (Address = "") then Some "either privateKey or address must be set"
  else if negb (bool_decide (PrivateKey = "")) && negb (bool_decide (Address = ""))
  then Some "only one of privateKey or address must be set"
  else None.

(** The outputs: address, confirmed balance and nonce, and the summary. *)
Definition wd_Execute (PrivateKey Address' : string) (ctxErr : option error) (m : gmap Address Wallet)
    : gmap Address Wallet * option (result (Address * Z * Z * WalletSummary)) :=
  let '(m, r) :=
    if bool_decide (PrivateKey = "")
    then let a := HexToAddress Address' in ((GetWalletByAddress a m).1, Ok a)
    else load_wallet PrivateKey m in
  match r with
  | Err e => (m, Some (Err e))
  | Ok a =>
      let w := get_wallet m a in
      (m, match AwaitReady ctxErr w with
          | None => None
          | Some (Some e) => Some (Err e)
          | Some None => Some (Ok (address w, confirmedBalance w, confirmedNonce w, GetSummary w))
          end)
  end.
End load.
End single_tx.

(** ** Lemmas *)

Section lemmas.
Context `{types : EthTypes} `{geth : !GethTx} `{lib : !TransactionLib}.
#[local] Existing Instance types.

(** The pending nonces of a manager's wallets. *)
Definition pending (m : gmap Address Wallet) (x : Address) : Z := pendingNonce (get_wallet m x).

(** The rule of the chain (EIP-7702): the sender's nonce is raised first, then
    an authorization is applied iff it has the current nonce of its signer,
    which it raises; others are skipped. *)
Definition bump (a : Address) (nonces : Address -> Z) (x : Address) : Z :=
  if decide (x = a) then nonces x + 1 else nonces x.

Fixpoint apply_auths (nonces : Address -> Z) (entries : list (Address * Z)) : list bool * (Address -> Z) :=
  match entries with
  | [] => ([], nonces)
  | (x, n) :: entries =>
      let applied := nonces x =? n in
      let '(oks, nonces) := apply_auths (if applied then bump x nonces else nonces) entries in
      (applied :: oks, nonces)
  end.

Lemma pending_insert m a w x : pending (<[a := w]> m) x = if decide (a = x) then pendingNonce w else pending m x.
Proof. unfold pending. rewrite get_wallet_insert. by case_decide. Qed.

(** Authorizations without an explicit nonce apply, and leave the wallets
    with the nonces of the chain; [nonces] need only agree on the signers. *)
Lemma auth_list_applies auths signers m m' l nonces :
  auth_list auths signers m = (m', Ret l) -> Forall (fun au => au_Nonce au = None) auths ->
  (forall x, x ∈ signers -> nonces x = pending m x) ->
  (forall x, 0 <= pending m x /\ pending m x + Z.of_nat (length auths) < two64) ->
  exists nonces', apply_auths nonces (zip signers (sa_Nonce <$> l)) = (replicate (length auths) true, nonces') /\
    (forall x, x ∈ signers -> nonces' x = pending m' x) /\
    (forall x, x ∉ signers -> nonces' x = nonces x /\ pending m' x = pending m x).
Proof.
  revert signers m m' l nonces. induction auths as [|au auths IH]; intros signers m m' l nonces Hl Hau Hag Hb.
  { simpl in Hl. injection Hl as <- <-. exists nonces. simpl. rewrite zip_with_nil_r. naive_solver. }
  destruct signers as [|a signers]; [done|]. apply Forall_cons in Hau as [Hnone Hau].
  cbn [auth_list] in Hl. rewrite Hnone in Hl. cbn [UseNextNonce] in Hl.
  destruct (SignSetCode _ _) as [e|] eqn:Hsign; [|done].
  destruct (SignSetCode_keeps _ _ _ Hsign) as (_ & _ & Hnonce). simpl in Hnonce.
  set (w := set_pending (pendingNonce (get_wallet m a) +u 1) (pendingBalance (get_wallet m a)) (get_wallet m a)) in Hl.
  destruct (auth_list auths signers (<[a := w]> m)) as [m1 r] eqn:Hrest.
  destruct r as [l1| |]; [|done..]. simpl in Hl. injection Hl as <- <-.
  pose proof (Hb a) as [Ha0 Ha1]. cbn [length] in Ha1.
  assert (Hw : pendingNonce w = pending m a + 1).
  { unfold w, pending in *. cbn [pendingNonce set_pending]. apply u64_id. go_lia. }
  destruct (IH signers (<[a := w]> m) m1 l1 (bump a nonces) Hrest Hau) as (N' & HN & Hin & Hout).
  { intros x Hx. unfold bump. rewrite pending_insert, Hw. repeat case_decide; subst; try done; rewrite Hag by set_solver; done. }
  { intros x. rewrite pending_insert. specialize (Hb x). cbn [length] in Hb. case_decide; subst; rewrite ?Hw; lia. }
  exists N'. cbn [zip zip_with fmap list_fmap apply_auths]. rewrite Hnonce, (Hag a) by set_solver.
  assert (pending m a =? pendingNonce (get_wallet m a) = true) as -> by (apply Z.eqb_eq; done).
  rewrite HN. split; [done|]. split.
  - intros x [->|Hx]%elem_of_cons; [|by apply Hin].
    destruct (decide (a ∈ signers)) as [Ha|Ha]; [by apply Hin|].
    destruct (Hout a Ha) as [-> ->]. rewrite pending_insert, decide_True, Hw by done.
    unfold bump. rewrite decide_True by done. rewrite Hag by set_solver. done.
  - intros x [Hne Hx]%not_elem_of_cons. destruct (Hout x Hx) as [-> ->]. rewrite pending_insert, decide_False by done.
    unfold bump. by rewrite decide_False.
Qed.

Context `{kzg : Kzg} `{src : BlobSources}.

(** What a built set-code transaction comes from. *)
Lemma set_code_built c targetAddr transactionData chainID rnd signers a ctxErr m m' tx :
  tc_LegacyTxType c = false -> tc_BlobTxType c = false -> tc_SetCodeTxType c = true ->
  tc_generateTransaction c targetAddr transactionData chainID rnd signers a ctxErr m = (m', Some (Ret tx)) ->
  exists m1 l chainID' tip fee to value data w,
    let d := SetCodeTx chainID' (default (pending m a) (tc_Nonce c)) tip fee (tc_GasLimit c) to value data l in
    auth_list (tc_Authorizations c) signers m = (m1, Ret l) /\
    SignTx (geth_NewTx d) (privkey (get_wallet m1 a)) = Ok tx /\ m' = <[a := w]> m1 /\
    pendingNonce w = (if pending m1 a <? data_Nonce d +u 1 then data_Nonce d +u 1 else pending m1 a).
Proof.
  intros Hlt Hbt Hst. unfold tc_generateTransaction, tc_buildTx. rewrite Hlt, Hbt, Hst.
  destruct (AwaitReady ctxErr (get_wallet m a)) as [[e|]|]; [done| |done].
  destruct (tx_amount _ _ _) as [amount| |]; [|done..].
  destruct (auth_list _ _ _) as [m1 [l| |]] eqn:Hl; simpl; [|done..].
  destruct (MustFromBig chainID) as [ch| |]; simpl; [|done..].
  destruct (MustFromBig (tc_TipCap c)) as [tip| |]; simpl; [|done..].
  destruct (MustFromBig (tc_FeeCap c)) as [fee| |]; simpl; [|done..].
  set (toAddr := if tc_ContractDeployment c then None else _). destruct toAddr as [to|]; simpl; [|done].
  destruct (MustFromBig amount) as [value| |]; simpl; [|done..].
  set (d := SetCodeTx _ _ _ _ _ _ _ _ _). unfold BuildTransaction.
  destruct (AwaitReady ctxErr (get_wallet m1 a)) as [[e|]|]; [done| |done].
  destruct (SignTx _ _) as [tx'|] eqn:Hs; [|done]. simpl. intros [= <- <-].
  eexists m1, l, ch, tip, fee, to, value, _, _. split; [done|]. split; [exact Hs|]. split; [done|].
  cbn [pendingNonce set_pending]. by rewrite geth_NewTx_Nonce.
Qed.

(** A log a configured event stands for. *)
Definition event_fits (e : ExpectedEvent) (log : Log) : Prop :=
  (ee_Topic0 e = "" \/ log_Topics log !! 0%nat = Some (hex_bytes (ee_Topic0 e))) /\
  (ee_Topic1 e = "" \/ log_Topics log !! 1%nat = Some (hex_bytes (ee_Topic1 e))) /\
  (ee_Topic2 e = "" \/ log_Topics log !! 2%nat = Some (hex_bytes (ee_Topic2 e))) /\
  (ee_Data e = "" \/ log_Data log = hex_bytes (ee_Data e)).

Lemma topic_ok_spec want i log : topic_ok want i log = true <-> want = "" \/ log_Topics log !! i = Some (hex_bytes want).
Proof.
  unfold topic_ok. rewrite orb_true_iff, bool_decide_eq_true.
  destruct (log_Topics log !! i) as [t|]; [rewrite bool_decide_eq_true|]; naive_solver.
Qed.

Lemma event_matches_spec e log : event_matches e log = true <-> event_fits e log.
Proof.
  unfold event_matches, event_fits. rewrite !andb_true_iff, !topic_ok_spec, orb_true_iff, !bool_decide_eq_true. naive_solver.
Qed.

Lemma check_events_spec es logs : check_events es logs = None <-> forall e, e ∈ es -> exists log, log ∈ logs /\ event_fits e log.
Proof.
  induction es as [|e es IH]; simpl; [set_solver|].
  destruct (existsb (event_matches e) logs) eqn:He.
  - rewrite IH. apply existsb_exists in He as (log & Hin & Hm). apply event_matches_spec in Hm. apply list_elem_of_In in Hin.
    set_solver.
  - split; [done|]. intros Hall. destruct (Hall e) as (log & Hin & Hf); [set_solver|].
    assert (existsb (event_matches e) logs = true); [|congruence].
    apply existsb_exists. exists log. split; [by apply list_elem_of_In|by apply event_matches_spec].
Qed.

Lemma send_first_ok_spec {C} (send : C -> option error) clients err :
  send_first_ok send clients err = None <-> (clients = [] /\ err = None) \/ exists cl, cl ∈ clients /\ send cl = None.
Proof.
  revert err. induction clients as [|cl clients IH]; intros err; simpl; [set_solver|].
  destruct (send cl) as [e|] eqn:Hs; [|split; [right; exists cl; set_solver|done]].
  rewrite IH. split.
  - intros [[_ ?]|(c & Hin & Hc)]; [done|]. right. exists c. set_solver.
  - intros [[? _]|(c & [->|Hin]%elem_of_cons & Hc)]; [done|congruence|]. right. eauto.
Qed.

Lemma select_clients_nonempty {C} p q (ready matched clients : list C) :
  select_clients p q ready matched = Ok clients -> clients <> [].
Proof. unfold select_clients. repeat case_match; simpl; try done; repeat case_match; naive_solver. Qed.

(** The receipt the configuration asks for. *)
Definition receipt_wanted (c : TransactionConfig) (receipt : Receipt) : Prop :=
  (tc_FailOnSuccess c = true -> Receipt_Status receipt <= 0) /\
  (tc_FailOnReject c = true -> Receipt_Status receipt <> 0) /\
  forall e, e ∈ tc_ExpectEvents c -> exists log, log ∈ Receipt_Logs receipt /\ event_fits e log.

Lemma check_receipt_spec c gen receipt : (check_receipt c gen receipt).2 = None <-> receipt_wanted c receipt.
Proof.
  unfold check_receipt, receipt_wanted. rewrite <- check_events_spec.
  destruct (tc_FailOnSuccess c && (0 <? Receipt_Status receipt)) eqn:H1; simpl.
  { split; [done|]. intros (Hs & _). apply andb_true_iff in H1 as [Hf Hp]. specialize (Hs Hf). lia. }
  destruct (tc_FailOnReject c && (Receipt_Status receipt =? 0)) eqn:H2; simpl.
  { split; [done|]. intros (_ & Hr & _). apply andb_true_iff in H2 as [Hf Hp]. specialize (Hr Hf). lia. }
  split; [|by intros (_ & _ & ?)]. intros He. split; [|split; [|done]].
  - intros Hf. rewrite Hf in H1. simpl in H1. lia.
  - intros Hf. rewrite Hf in H2. simpl in H2. lia.
Qed.
End lemmas.

(** ** Properties *)

(** The authorizations of a set-code transaction are valid on the chain.
    Signed by wallets other than the sender's, without explicit nonces: if the
    pending nonces are the account nonces when the transaction is included,
    then under the rule of the chain every authorization is applied, however
    often a signer occurs, and afterwards the account nonces are again the
    pending nonces of all wallets. *)
Theorem set_code_authorizations_apply `{types : EthTypes} `{!GethTx} `{!TransactionLib} `{Kzg} `{BlobSources}
    c targetAddr transactionData chainID rnd signers a ctxErr m m' tx :
  tc_LegacyTxType c = false -> tc_BlobTxType c = false -> tc_SetCodeTxType c = true -> tc_Nonce c = None ->
  Forall (fun au => au_Nonce au = None) (tc_Authorizations c) -> a ∉ signers ->
  (forall x, 0 <= pending m x /\ pending m x + Z.of_nat (length (tc_Authorizations c)) + 1 < two64) ->
  tc_generateTransaction c targetAddr transactionData chainID rnd signers a ctxErr m = (m', Some (Ret tx)) ->
  exists chainID' tip fee to value data l key nonces,
    let d := SetCodeTx chainID' (pending m a) tip fee (tc_GasLimit c) to value data l in
    SignTx (geth_NewTx d) key = Ok tx /\
    apply_auths (bump a (pending m)) (zip signers (sa_Nonce <$> l)) =
      (replicate (length (tc_Authorizations c)) true, nonces) /\
    forall x, nonces x = pending m' x.
Proof.
  intros Hlt Hbt Hst Hn Hau Ha Hb Hgen.
  destruct (set_code_built _ _ _ _ _ _ _ _ _ _ _ Hlt Hbt Hst Hgen)
    as (m1 & l & ch & tip & fee & to & value & data & w & Hl & Hs & -> & Hw).
  rewrite Hn in *. cbn [default data_Nonce] in Hs, Hw.
  destruct (auth_list_applies _ _ _ _ _ (bump a (pending m)) Hl Hau) as (N' & HN & Hin & Hout).
  { intros x Hx. unfold bump. rewrite decide_False; [done|]. by intros ->. }
  { intros x. specialize (Hb x). lia. }
  exists ch, tip, fee, to, value, data, l, (privkey (get_wallet m1 a)), N'. split; [exact Hs|]. split; [exact HN|].
  intros x. rewrite pending_insert. destruct (Hout a Ha) as [HNa Hpa]. pose proof (Hb a).
  case_decide as Hax; [subst x|].
  - rewrite HNa, Hw, Hpa. unfold bump. rewrite decide_True by done.
    assert (pending m a +u 1 = pending m a + 1) as -> by (apply u64_id; go_lia).
    assert (pending m a <? pending m a + 1 = true) as -> by lia. done.
  - destruct (decide (x ∈ signers)) as [Hx|Hx]; [by apply Hin|]. destruct (Hout x Hx) as [-> ->].
    unfold bump. by rewrite decide_False.
Qed.

(** A wallet that authorizes in its own transaction is given the nonce of the
    transaction, which is used up before the authorizations are looked at:
    the chain skips the authorization. *)
Theorem self_authorization_skipped `{types : EthTypes} `{!GethTx} `{!TransactionLib} `{Kzg} `{BlobSources}
    c targetAddr transactionData chainID rnd au auths signers a ctxErr m m' tx :
  tc_LegacyTxType c = false -> tc_BlobTxType c = false -> tc_SetCodeTxType c = true -> tc_Nonce c = None ->
  tc_Authorizations c = au :: auths -> au_Nonce au = None ->
  tc_generateTransaction c targetAddr transactionData chainID rnd (a :: signers) a ctxErr m = (m', Some (Ret tx)) ->
  exists chainID' tip fee to value data e l key,
    let d := SetCodeTx chainID' (pending m a) tip fee (tc_GasLimit c) to value data (e :: l) in
    SignTx (geth_NewTx d) key = Ok tx /\ sa_Nonce e = pending m a /\
    forall entries, head (apply_auths (bump a (pending m)) ((a, sa_Nonce e) :: entries)).1 = Some false.
Proof.
  intros Hlt Hbt Hst Hn Hau Hnone Hgen.
  destruct (set_code_built _ _ _ _ _ _ _ _ _ _ _ Hlt Hbt Hst Hgen)
    as (m1 & l & ch & tip & fee & to & value & data & w & Hl & Hs & -> & Hw).
  rewrite Hn in Hs. rewrite Hau in Hl. cbn [auth_list] in Hl. rewrite Hnone in Hl. cbn [UseNextNonce] in Hl.
  destruct (SignSetCode _ _) as [e|] eqn:Hsign; [|done].
  destruct (SignSetCode_keeps _ _ _ Hsign) as (_ & _ & Hnonce). simpl in Hnonce.
  destruct (auth_list auths signers _) as [m2 [l2| |]]; [|done..]. simpl in Hl. injection Hl as <- <-.
  exists ch, tip, fee, to, value, data, e, l2, (privkey (get_wallet m2 a)). split; [exact Hs|]. split; [done|].
  intros entries. simpl. rewrite Hnonce.
  assert (bump a (pending m) a =? pendingNonce (get_wallet m a) = false) as ->.
  { unfold bump, pending. rewrite decide_True by done. apply Z.eqb_neq. lia. }
  by destruct (apply_auths _ entries).
Qed.

(** The verdict of generate_transaction.  A run that ends without a panic ends
    without an error exactly when the wallets were ready, the transaction was
    built, some selected client accepted it and, if the receipt is awaited,
    the receipt arrived with a status that is not excluded and a fitting log
    for every expected event. *)
Theorem transaction_verdict `{types : EthTypes} `{!GethTx} `{!TransactionLib} `{Kzg} `{BlobSources} {C}
    c targetAddr transactionData chainID rnd signers a ctxErr (ready matched : list C) send awaited gen_tx gen_receipt m r :
  tc_Execute c targetAddr transactionData chainID rnd signers a ctxErr ready matched send awaited gen_tx gen_receipt m = Some (Ret r) ->
  te_err r = None <->
  AwaitReady ctxErr (get_wallet m a) = Some None /\
  (tc_SetCodeTxType c = true -> await_signers ctxErr signers m = Some None) /\
  exists tx clients client,
    (tc_generateTransaction c targetAddr transactionData chainID rnd signers a ctxErr m).2 = Some (Ret tx) /\
    tc_clients c ready matched = Ok clients /\ client ∈ clients /\ send client tx = None /\
    (tc_AwaitReceipt c = true -> exists receipt, awaited tx = Some (Ok (Some receipt)) /\ receipt_wanted c receipt).
Proof.
  unfold tc_Execute. intros Hrun.
  destruct (AwaitReady ctxErr (get_wallet m a)) as [[e|]|]; [| |done].
  { injection Hrun as <-. simpl. split; [done|]. by intros (? & _). }
  destruct (if tc_SetCodeTxType c then _ else _) as [[e|]|] eqn:Haw; [| |done].
  { injection Hrun as <-. simpl. split; [done|]. intros (_ & Hs & _). destruct (tc_SetCodeTxType c); [|done].
    rewrite Hs in Haw by done. done. }
  destruct (tc_generateTransaction _ _ _ _ _ _ _ _ _) as [m1 [[tx|e|p]|]]; [| |done..].
  2: { injection Hrun as <-. simpl. split; [done|]. by intros (_ & _ & ? & ? & ? & ? & _). }
  destruct (tc_clients c ready matched) as [clients|e] eqn:Hc; [|injection Hrun as <-; simpl; split; [done|]; by intros (_ & _ & ? & ? & ? & _ & ? & _)].
  assert (Hne : clients <> []) by (by eapply select_clients_nonempty).
  destruct (send_first_ok _ clients None) as [e|] eqn:Hsend.
  { injection Hrun as <-. simpl. split; [done|]. intros (_ & _ & tx' & cl' & client & [= <-] & [= <-] & Hin & Hs & _).
    assert (send_first_ok (fun client => send client tx) clients None = None); [|congruence].
    apply send_first_ok_spec. right. eauto. }
  apply send_first_ok_spec in Hsend as [[? _]|(client & Hin & Hs)]; [done|].
  assert (Hiff : forall P : Prop, P <->
    ((tc_AwaitReceipt c = true -> exists receipt, awaited tx = Some (Ok (Some receipt)) /\ receipt_wanted c receipt)) ->
    P <-> (Some None = Some (@None error) /\ (tc_SetCodeTxType c = true -> await_signers ctxErr signers m = Some None) /\
    exists tx0 clients0 client0, (m1, Some (Ret tx)).2 = Some (Ret tx0) /\ Ok clients = Ok clients0 /\ client0 ∈ clients0 /\
      send client0 tx0 = None /\
      (tc_AwaitReceipt c = true -> exists receipt, awaited tx0 = Some (Ok (Some receipt)) /\ receipt_wanted c receipt))).
  { intros P ->. split.
    - intros Hr. split; [done|]. split; [intros Hst; by rewrite Hst in Haw|]. by exists tx, clients, client.
    - intros (_ & _ & tx' & cl' & client' & [= <-] & [= <-] & _ & _ & Hr). done. }
  apply Hiff. clear Hiff. destruct (tc_AwaitReceipt c); [|injection Hrun as <-; simpl; naive_solver].
  destruct (awaited tx) as [[[receipt|]|e]|]; [| | |done]; try (injection Hrun as <-; simpl; naive_solver).
  pose proof (check_receipt_spec c gen_receipt receipt) as Hcr.
  destruct (check_receipt c gen_receipt receipt) as [[vs os] [e|]]; injection Hrun as <-; simpl in *; naive_solver.
Qed.

(** ** At concrete inputs *)

Section examples.
#[local] Existing Instances ex_types ex_geth ex_kzg ex_sources.

Definition ex_txlib : TransactionLib (types := ex_types).
Proof.
  refine (Build_TransactionLib ex_types (fun s => N.of_nat (String.length s)) ex_hex
    (fun _ a => Ok (mkAuthorization (sa_ChainID a) (sa_Address a) (sa_Nonce a) (Some [x01]))) _
    (fun _ => [mkLog [ex_hex "transfer"; ex_hex "alice"] (ex_hex "5")]) (fun _ => 9%N) (fun _ => Ok [x02])).
  intros k a a' [= <-]. done.
Defined.
#[local] Existing Instance ex_txlib.

Definition ex_auth : AuthorizationConfig := mkAuthConfig 1 None "0xcode" "key".

(** A set-code transaction of wallet 1; wallet 2 signs two authorizations. *)
Definition ex_set_code (auths : list AuthorizationConfig) : TransactionConfig :=
  mkTransactionConfig "key" false false true None 100 10 50000 "" false false "" "" false 5 None auths "" ""
    true true false [mkExpected "transfer" "" "" "5"] "" "" "".

Definition ex_wallets : gmap Address (@Wallet ex_types) := <[1%N := ex_wallet 1 7 100]> (<[2%N := ex_wallet 2 3 50]> ∅).

Lemma ex_pending_bounds n : 0 <= n < 1000 -> forall x, 0 <= pending ex_wallets x /\ pending ex_wallets x + n + 1 < two64.
Proof.
  intros Hn x. unfold ex_wallets. rewrite !pending_insert. unfold two64.
  assert (pendingNonce (ex_wallet 1 7 100) = 7 /\ pendingNonce (ex_wallet 2 3 50) = 3) as [-> ->] by (vm_compute; done).
  repeat case_decide; [lia..|]. unfold pending, get_wallet. rewrite lookup_empty. cbn. lia.
Qed.

Lemma set_code_authorizations_apply_witness :
  let c := ex_set_code [ex_auth; ex_auth] in
  exists m' tx, tc_generateTransaction c 0%N None 1 (mkRandom 3 Ok) [2; 2]%N 1%N None ex_wallets = (m', Some (Ret tx)) /\
    pending m' 1 = 8 /\ pending m' 2 = 5 /\
    exists l nonces, apply_auths (bump 1 (pending ex_wallets)) (zip [2; 2]%N (sa_Nonce <$> l)) = ([true; true], nonces) /\
      nonces 2%N = 5.
Proof.
  intros c.
  destruct (tc_generateTransaction c 0%N None 1 (mkRandom 3 Ok) [2; 2]%N 1%N None ex_wallets) as [m' [[tx| |]|]] eqn:Hgen;
    [|vm_compute in Hgen; discriminate..].
  exists m', tx. split; [reflexivity|].
  assert (pending m' 1 = 8 /\ pending m' 2 = 5) as [H1 H2] by (vm_compute in Hgen; injection Hgen as <- <-; by vm_compute).
  split; [exact H1|]. split; [exact H2|].
  destruct (set_code_authorizations_apply c 0%N None 1 (mkRandom 3 Ok) [2; 2]%N 1%N None ex_wallets m' tx)
    as (ch & tip & fee & to & value & data & l & key & N' & _ & HN & Heq); try reflexivity; try exact Hgen.
  - repeat constructor.
  - set_solver.
  - apply ex_pending_bounds. cbn. lia.
  - exists l, N'. split; [exact HN|]. rewrite Heq. exact H2.
Defined.

Lemma self_authorization_skipped_witness :
  let c := ex_set_code [ex_auth] in
  exists m' tx, tc_generateTransaction c 0%N None 1 (mkRandom 3 Ok) [1]%N 1%N None ex_wallets = (m', Some (Ret tx)) /\
    exists e : SetCodeAuthorization, sa_Nonce e = 7 /\
      head (apply_auths (bump 1 (pending ex_wallets)) [(1%N, sa_Nonce e)]).1 = Some false.
Proof.
  intros c.
  destruct (tc_generateTransaction c 0%N None 1 (mkRandom 3 Ok) [1]%N 1%N None ex_wallets) as [m' [[tx| |]|]] eqn:Hgen;
    [|vm_compute in Hgen; discriminate..].
  exists m', tx. split; [reflexivity|].
  destruct (self_authorization_skipped c 0%N None 1 (mkRandom 3 Ok) ex_auth [] [] 1%N None ex_wallets m' tx)
    as (ch & tip & fee & to & value & data & e & l & key & _ & He & Hskip); try reflexivity; try exact Hgen.
  exists e. split; [rewrite He; reflexivity|apply Hskip].
Defined.

Lemma transaction_verdict_witness :
  let c := ex_set_code [ex_auth] in
  let exec status := tc_Execute c 0%N None 1 (mkRandom 3 Ok) [2]%N 1%N None ["cl"; "cl2"] []
    (fun cl _ => if String.eqb cl "cl2" then None else Some "refused") (fun _ => Some (Ok (Some (ex_receipt status))))
    (fun _ => true) (fun _ => true) ex_wallets in
  exists r r', exec 1 = Some (Ret r) /\ exec 0 = Some (Ret r') /\ te_err r = None /\ te_err r' <> None /\
    exists client, client ∈ ["cl"; "cl2"] /\ (if String.eqb client "cl2" then None else Some "refused") = None.
Proof.
  intros c exec. destruct (exec 1) as [[r| |]|] eqn:H1; [|vm_compute in H1; discriminate..].
  destruct (exec 0) as [[r'| |]|] eqn:H0; [|vm_compute in H0; discriminate..].
  assert (te_err r = None) as Hr by (vm_compute in H1; injection H1 as <-; reflexivity).
  exists r, r'. split; [reflexivity|]. split; [reflexivity|]. split; [exact Hr|].
  split; [vm_compute in H0; injection H0 as <-; discriminate|].
  apply (transaction_verdict _ _ _ _ _ _ _ _ _ _ _ _ _ _ _ _ H1) in Hr as (_ & _ & tx & clients & client & _ & Hc & Hin & Hs & _).
  vm_compute in Hc. injection Hc as <-. exists client. split; [exact Hin|exact Hs].
Defined.
End examples.
