(* ===== verification/Shell.v ===== *)
(** * Shell commands

    tasks/run_shell and tasks/run_command.  [run_shell] feeds a script to a
    shell, reads its two output streams line by line in goroutines, sets
    variables for lines with a directive, and stores the files the script left
    in its result directory.  The process, the file system, JSON and temporary
    directories are the environment; the goroutines are interleaved by an
    explicit sequence of events. *)

From S2P Require Import Prelude Vars Db Scheduler Execution TaskFlow Tests Registry.

#[local] Open Scope string_scope.
#[local] Open Scope list_scope.
Open Scope Z_scope.

(** ** Lines of a stream *)

Definition LF : Ascii.ascii := "010"%char.
Definition CR : Ascii.ascii := "013"%char.

(** The part before the first line feed, if there is one. *)
Fixpoint cut_line (s : list Ascii.ascii) : option (list Ascii.ascii) :=
  match s with
  | [] => None
  | c :: s => if Ascii.eqb c LF then Some [] else cons c <$> cut_line s
  end.

Definition ends_cr (line : list Ascii.ascii) : bool :=
  match last line with Some c => Ascii.eqb c CR | None => false end.
Definition strip_cr (line : list Ascii.ascii) : list Ascii.ascii :=
  if ends_cr line then removelast line else line.

(** [bufio.Reader.ReadLine] with a buffer of [size] bytes on the rest of a
    stream: a line or a piece of one ([isPrefix]) and what is left; [None] is
    [io.EOF].  A carriage return at the end of a full buffer is put back. *)
Definition ReadLine (size : nat) (s : list Ascii.ascii)
    : option (list Ascii.ascii * bool * list Ascii.ascii) :=
  match s with
  | [] => None
  | _ =>
      match cut_line (take size s) with
      | Some line => Some (strip_cr line, false, drop (S (length line)) s)
      | None =>
          if (length s <? size)%nat then Some (s, false, [])
          else
            let line := take size s in
            if ends_cr line then Some (removelast line, true, CR :: drop size s)
            else Some (line, true, drop size s)
      end
  end.

(** The default size of a [bufio.Reader]. *)
Definition bufio_size : nat := Z.to_nat 4096.

(** The inner loop of the reader goroutine: the line collected, the rest of
    the stream and whether its end was met. *)
Fixpoint read_pieces (size fuel : nat) (ln s : list Ascii.ascii)
    : list Ascii.ascii * list Ascii.ascii * bool :=
  match fuel with
  | O => (ln, s, true)
  | S fuel =>
      match ReadLine size s with
      | None => (ln, s, true)
      | Some (line, isPrefix, s) =>
          let ln := ln ++ line in
          if isPrefix then read_pieces size fuel ln s else (ln, s, false)
      end
  end.

Definition nonempty_line (ln : list Ascii.ascii) : list string :=
  match ln with [] => [] | _ => [String.string_of_list_ascii ln] end.

(** The lines a reader goroutine sends for a stream. *)
Fixpoint read_lines (size fuel : nat) (s : list Ascii.ascii) : list string :=
  match fuel with
  | O => []
  | S fuel =>
      let '(ln, s', eof) := read_pieces size (S (length s)) [] s in
      nonempty_line ln ++ (if eof then [] else read_lines size fuel s')
  end.

Definition readOutputStream (s : list Ascii.ascii) : list string :=
  read_lines bufio_size (S (length s)) s.

(** The reference, one byte at a time: lines end at a line feed, lose one
    carriage return before it, and are dropped when nothing is left. *)
Fixpoint lines_from (ln s : list Ascii.ascii) : list string :=
  match s with
  | [] => nonempty_line ln
  | c :: s =>
      if Ascii.eqb c LF then nonempty_line (strip_cr ln) ++ lines_from [] s
      else lines_from (ln ++ [c]) s
  end.

(** ** Directives in the output *)

Definition space : Ascii.ascii := " "%char.

Fixpoint skip_spaces (s : string) : string :=
  match s with
  | String c s' => if Ascii.eqb c space then skip_spaces s' else s
  | EmptyString => EmptyString
  end.

(** One or more spaces at the start of the text: the text after all of them. *)
Definition some_spaces (s : string) : option string :=
  match s with
  | String c s' => if Ascii.eqb c space then Some (skip_spaces s') else None
  | EmptyString => None
  end.

(** The characters up to the first space, and the text from there on. *)
Fixpoint take_word (s : string) : string * string :=
  match s with
  | String c s' =>
      if Ascii.eqb c space then (EmptyString, s)
      else let '(w, r) := take_word s' in (String c w, r)
  | EmptyString => (EmptyString, EmptyString)
  end.

(** Any characters but line feeds, to the end of the text. *)
Definition to_end (s : string) : option string := if free_of LF s then Some s else None.

(** The common tail of the three expressions: spaces, a name, spaces and a
    value up to the end of the line. *)
Definition match_assignment (s : string) : option (string * string) :=
  s ← some_spaces s;
  let '(name, s) := take_word s in
  if bool_decide (name = "") then None
  else s ← some_spaces s; v ← to_end s; Some (name, v).

Fixpoint after (prefix s : string) : option string :=
  match prefix, s with
  | EmptyString, _ => Some s
  | String c p, String d s => if Ascii.eqb c d then after p s else None
  | String _ _, EmptyString => None
  end.

(** [outputVarPattern] and [outputJSONPattern] *)
Definition outputVarPattern (line : string) : option (string * string) :=
  after "::set-var" line ≫= match_assignment.
Definition outputJSONPattern (line : string) : option (string * string) :=
  after "::set-json" line ≫= match_assignment.

(** [outputOutPattern]: whether the second group is the one for JSON, name and
    value. *)
Definition outputOutPattern (line : string) : option (bool * string * string) :=
  s ← after "::set-out" line;
  let s := default s (after "put" s) in
  let '(json, s) := match after "-json" s with Some s => (true, s) | None => (false, s) end in
  '(name, v) ← match_assignment s;
  Some (json, name, v).

Section shell.
Context `{lib : Library}.

(** JSON, files and processes.  [json_Unmarshal] is [json.Unmarshal] into an
    [interface{}], [json_Marshal] its inverse direction. *)
Class Json := {
  json_Unmarshal : string -> result value;
  json_Marshal : value -> result string
}.
Context `{json : Json}.

(** [parseOutputVars]: sets a variable or an output; [true] when the line is
    not to be logged as output. *)
Definition parseOutputVars (i : Z) (line : string) (w : TaskScheduler) : TaskScheduler * bool :=
  let set_output :=
    match outputOutPattern line with
    | None => (w, false)
    | Some (true, name, text) =>
        match json_Unmarshal text with
        | Err _ => (w, false)
        | Ok x => (set_var (ctx_Outputs i w) name x w, true)
        end
    | Some (false, name, text) => (set_var (ctx_Outputs i w) name (VString text) w, false)
    end in
  match outputVarPattern line with
  | Some (name, text) => (set_var (ctx_Vars i w) name (VString text) w, true)
  | None =>
      match outputJSONPattern line with
      | Some (name, text) =>
          match json_Unmarshal text with
          | Ok x => (set_var (ctx_Vars i w) name x w, true)
          | Err _ => set_output
          end
      | None => set_output
      end
  end.

(** ** The output loop

    Main goroutine, a reader per stream and the one that waits for the
    process.  A reader sends its lines over an unbuffered channel, then closes
    its [closeChan]; the waiter needs both closed before [command.Wait].  When
    the main goroutine leaves [Execute] it closes the line channels. *)
Inductive shell_main := InLoop | LeftLoop | ChannelsClosed | Crashed.

Inductive shell_log := OUT (line : string) | ERR (line : string).

Record shell := mkShell {
  sh_out : list string; sh_err : list string;
  sh_outClosed : bool; sh_errClosed : bool; sh_waited : bool;
  sh_main : shell_main; sh_logs : list shell_log; sh_world : TaskScheduler
}.

Inductive shell_event :=
  | OutLine | ErrLine | OutEOF | ErrEOF | ProcessWaited | BreakLoop | CloseChannels.

(** One event, when it is possible.  Sending on a closed channel panics in the
    reader, which ends the program. *)
Definition shell_step (i : Z) (e : shell_event) (s : shell) : option shell :=
  let '(mkShell out err oc ec wt m logs w) := s in
  match e, m with
  | _, Crashed => None
  | OutLine, InLoop =>
      match out with
      | [] => None
      | line :: out =>
          let '(w, handled) := parseOutputVars i line w in
          Some (mkShell out err oc ec wt m (if handled then logs else logs ++ [OUT line]) w)
      end
  | ErrLine, InLoop =>
      match err with
      | [] => None
      | line :: err => Some (mkShell out err oc ec wt m (logs ++ [ERR line]) w)
      end
  | OutLine, ChannelsClosed =>
      match out with [] => None | _ => Some (mkShell out err oc ec wt Crashed logs w) end
  | ErrLine, ChannelsClosed =>
      match err with [] => None | _ => Some (mkShell out err oc ec wt Crashed logs w) end
  | OutEOF, _ => if bool_decide (out = []) && negb oc then Some (mkShell out err true ec wt m logs w) else None
  | ErrEOF, _ => if bool_decide (err = []) && negb ec then Some (mkShell out err oc true wt m logs w) else None
  | ProcessWaited, _ => if oc && ec && negb wt then Some (mkShell out err oc ec true m logs w) else None
  | BreakLoop, InLoop => if wt then Some (mkShell out err oc ec wt LeftLoop logs w) else None
  | CloseChannels, LeftLoop => Some (mkShell out err oc ec wt ChannelsClosed logs w)
  | _, _ => None
  end.

Fixpoint shell_run (i : Z) (es : list shell_event) (s : shell) : option shell :=
  match es with
  | [] => Some s
  | e :: es => s ← shell_step i e s; shell_run i es s
  end.

(** The goroutines as the command has been started and its script written. *)
Definition shell_start (out err : list string) (w : TaskScheduler) : shell :=
  mkShell out err false false false InLoop [] w.

(** ... and when writing the script failed: [Execute] returns at once. *)
Definition shell_stdin_failed (out err : list string) (w : TaskScheduler) : shell :=
  mkShell out err false false false LeftLoop [] w.

(** What all lines of the output do, in order. *)
Definition handle_lines (i : Z) (lines : list string) (w : TaskScheduler) : TaskScheduler :=
  fold_left (fun w line => (parseOutputVars i line w).1) lines w.

(** ** Results *)

(** Files as the script left them; reading may fail. *)
Inductive entry :=
  | File (name : string) (data : result (list Z))
  | Dir (name : string) (files : result (list entry)).

(** The engine's answer to one statement. *)
Variable exec_err : TaskResultRow -> option error.

Definition put_result (r : TaskResultRow) (db : Database) : Database :=
  match exec_err r with
  | Some _ => db
  | None => match UpsertTaskResult r db with Ok db => db | Err _ => db end
  end.

(** The entry with the given prefix of names; the index counts on also for
    files that cannot be read or stored. *)
Fixpoint store_entry (runID taskID : Z) (prefix : string) (e : entry) (st : Z * Database) : Z * Database :=
  match e with
  | Dir name (Ok files) =>
      fold_left (fun st f => store_entry runID taskID (prefix +:+ name +:+ "/") f st) files st
  | Dir name (Err _) => st
  | File name data =>
      let '(fileIdx, db) := st in
      (fileIdx +u 1,
       match data with
       | Err _ => db
       | Ok data =>
           put_result (mkTaskResultRow runID taskID "result" fileIdx (prefix +:+ name) (Z.of_nat (length data)) data) db
       end)
  end.

Definition storeResultFilesFn (runID taskID : Z) (files : result (list entry)) (st : Z * Database) : Z * Database :=
  match files with
  | Err _ => st
  | Ok files => fold_left (fun st e => store_entry runID taskID "" e st) files st
  end.

(** The handler of the transaction; [summary] is what [Cleanup] returned. *)
Definition store_handler (runID taskID : Z) (summary : result (list Z)) (files : result (list entry)) (db : Database)
    : result Database :=
  let db := match summary with
            | Ok ((_ :: _) as data) =>
                put_result (mkTaskResultRow runID taskID "summary" 0 "" (Z.of_nat (length data)) data) db
            | _ => db
            end in
  Ok (storeResultFilesFn runID taskID files (0, db)).2.

(** The handler swallows errors of statements, which [exec_err] decides. *)
Definition swallowed (o : engine_outcome) : engine_outcome := match o with EngineExecErr _ => EngineOk | _ => o end.

(** [storeTaskResults]; [None] is a panic: the database is used without a
    test. *)
Definition storeTaskResults (i : Z) (summary : result (list Z)) (files : result (list entry)) (w : TaskScheduler)
    : option TaskScheduler :=
  db ← database w;
  Some (upd_database (Some (RunTransaction (swallowed (lib_engine (txCount w)))
                              (store_handler (testRunID w) i summary files) db).1)
          (upd_txCount (S (txCount w)) w)).

(** ** The task *)

Record ShellConfig := mkShellConfig {
  shell_Shell : string; shell_ShellArgs : list string; shell_EnvVars : gmap string string; shell_Command : string }.

Definition shell_DefaultConfig : ShellConfig := mkShellConfig "bash" [] ∅ "".

Definition shell_Validate (c : ShellConfig) : option error :=
  if bool_decide (shell_Command c = "") then Some "command must be specified" else None.

Variables (shell_Unmarshal : value -> ShellConfig -> result ShellConfig)
  (shell_decode : string -> ShellConfig -> result ShellConfig).

Definition shell_LoadConfig (i : Z) (opts : TaskOptions) (w : TaskScheduler) : result ShellConfig :=
  load_config "run_shell" shell_DefaultConfig shell_Unmarshal shell_decode shell_Validate i opts w.

(** What becomes of a started process: the answer to writing the script, its
    two output streams, the result of [Wait], and the files it leaves. *)
Record process := mkProcess {
  p_stdin : option error;
  p_stdout : list Ascii.ascii; p_stderr : list Ascii.ascii;
  p_wait : option error;
  p_summary : result (list Z); p_files : result (list entry)
}.

(** The operating system: the task's directory, the pipes, the summary file
    and the result directory, and starting a shell with arguments, environment
    and script. *)
Record system := mkSystem {
  sys_MkdirTemp : result string;
  sys_pipes : option error;
  sys_summary : option error;
  sys_MkdirAll : option error;
  sys_start : string -> list string -> list string -> string -> result process
}.

(** The [NAME=json] entries for the environment variables, in the order
    [names] of the iteration over the map. *)
Fixpoint build_env (i : Z) (names : list (string * string)) (w : TaskScheduler) : result (list string) :=
  match names with
  | [] => Ok []
  | (envName, varName) :: names =>
      match resolve_query (ctx_Vars i w) varName w with
      | Err e => Err e
      | Ok None => build_env i names w
      | Ok (Some x) =>
          match json_Marshal x with
          | Err e => Err e
          | Ok text =>
              match build_env i names w with
              | Err e => Err e
              | Ok env => Ok ((envName +:+ "=" +:+ text) :: env)
              end
          end
      end
  end.

Context `{raw : RawMessages} `{srcs : !RegistrySources}.

(** The deferred [storeTaskResults] on the way out with [err]. *)
Definition leave_shell (i : Z) (p : process) (err : option error) (s : shell) : TaskScheduler * outcome :=
  match storeTaskResults i (p_summary p) (p_files p) (sh_world s) with
  | Some w => (w, Returned err)
  | None => (sh_world s, Panicked (Some "invalid memory address or nil pointer dereference"))
  end.

(** [Execute] with the goroutines taking the steps [es] until the main one
    leaves the output loop; [None] if [es] is no such sequence. *)
Definition shell_Execute (c : ShellConfig) (sys : system) (es : list shell_event) (i : Z) (w : TaskScheduler)
    : option (TaskScheduler * outcome) :=
  match sys_MkdirTemp sys with
  | Err e => Some (w, Returned (Some e))
  | Ok taskDir =>
      match sys_pipes sys with
      | Some e => Some (w, Returned (Some e))
      | None =>
          match build_env i (iterate (shell_EnvVars c)) w with
          | Err e => Some (w, Returned (Some e))
          | Ok env =>
              match sys_summary sys with
              | Some e => Some (w, Returned (Some e))
              | None =>
                  let env := env ++ ["ASSERTOOR_SUMMARY=" +:+ taskDir +:+ "/summary"] in
                  match sys_MkdirAll sys with
                  | Some e => Some (w, Returned (Some e))
                  | None =>
                      let env := env ++ ["ASSERTOOR_RESULT_DIR=" +:+ taskDir +:+ "/results"] in
                      match sys_start sys (shell_Shell c) (shell_ShellArgs c) env
                              (shell_Command c +:+ String LF EmptyString) with
                      | Err e =>
                          (* nothing ran: the summary file is empty and so is the directory *)
                          Some (leave_shell i (mkProcess None [] [] None (Ok []) (Ok [])) (Some e) (shell_start [] [] w))
                      | Ok p =>
                          let out := readOutputStream (p_stdout p) in
                          let err := readOutputStream (p_stderr p) in
                          match p_stdin p with
                          | Some e => Some (leave_shell i p (Some e) (shell_stdin_failed out err w))
                          | None =>
                              s ← shell_run i es (shell_start out err w);
                              match sh_main s with
                              | LeftLoop => Some (leave_shell i p (p_wait p) s)
                              | _ => None
                              end
                          end
                      end
                  end
              end
          end
      end
  end.

(** ** run_command *)

Record CommandConfig := mkCommandConfig { cmd_AllowedToFail : bool; cmd_Command : list string }.

Definition command_DefaultConfig : CommandConfig := mkCommandConfig false [].

Definition command_Validate (c : CommandConfig) : option error :=
  match cmd_Command c with [] => Some "command must be specified" | _ => None end.

Variables (command_Unmarshal : value -> CommandConfig -> result CommandConfig)
  (command_decode : string -> CommandConfig -> result CommandConfig).

Definition command_LoadConfig (i : Z) (opts : TaskOptions) (w : TaskScheduler) : result CommandConfig :=
  load_config "run_command" command_DefaultConfig command_Unmarshal command_decode command_Validate i opts w.

(** [CombinedOutput]: what the command printed and how it ended. *)
Definition command_Execute (CombinedOutput : string -> list string -> string * option error) (c : CommandConfig)
    (i : Z) (w : TaskScheduler) : TaskScheduler * option error :=
  match cmd_Command c with
  | [] => (w, None)
  | com :: args =>
      let '(stdOut, err) := CombinedOutput com args in
      let w := set_var (ctx_Outputs i w) "stdout" (VString stdOut) w in
      match err with
      | Some e =>
          let w := set_var (ctx_Outputs i w) "error" (VString e) w in
          (w, if cmd_AllowedToFail c then None else Some e)
      | None => (w, None)
      end
  end.

End shell.

(** ** Streams are cut into lines *)

Lemma cut_line_Some s l : cut_line s = Some l -> exists r, s = l ++ LF :: r /\ LF ∉ l.
Proof.
  revert l. induction s as [|c s IH]; intros l; cbn [cut_line]; [done|].
  destruct (Ascii.eqb_spec c LF) as [->|Hc].
  - intros [= <-]. exists s. split; [done|apply not_elem_of_nil].
  - destruct (cut_line s) as [l'|]; [|done]. intros [= <-].
    destruct (IH l' eq_refl) as (r & -> & Hl). exists r. split; [done|].
    rewrite not_elem_of_cons. split; [congruence|done].
Qed.

Lemma cut_line_None s : cut_line s = None -> LF ∉ s.
Proof.
  induction s as [|c s IH]; cbn [cut_line]; [intros _; apply not_elem_of_nil|].
  destruct (Ascii.eqb_spec c LF) as [->|Hc]; [done|]. destruct (cut_line s); [done|]. intros _.
  rewrite not_elem_of_cons. split; [congruence|by apply IH].
Qed.

Lemma lines_from_app l ln s : LF ∉ l -> lines_from ln (l ++ s) = lines_from (ln ++ l) s.
Proof.
  revert ln. induction l as [|c l IH]; intros ln Hl; [by rewrite app_nil_r|].
  apply not_elem_of_cons in Hl as [Hc Hl]. cbn [app lines_from].
  destruct (Ascii.eqb_spec c LF); [congruence|]. by rewrite IH, <- app_assoc.
Qed.

Lemma lines_from_LF ln s : lines_from ln (LF :: s) = nonempty_line (strip_cr ln) ++ lines_from [] s.
Proof. done. Qed.

Lemma strip_cr_app ln l : l <> [] -> strip_cr (ln ++ l) = ln ++ strip_cr l.
Proof.
  intros Hl. destruct (exists_last Hl) as (l' & c & ->). unfold strip_cr, ends_cr.
  rewrite app_assoc, !last_snoc. destruct (Ascii.eqb c CR); [|by rewrite app_assoc].
  by rewrite !removelast_last.
Qed.

Lemma strip_cr_id ln : ends_cr ln = false -> strip_cr ln = ln.
Proof. intros H. unfold strip_cr. by rewrite H. Qed.

Lemma ends_cr_split line : ends_cr line = true -> line = removelast line ++ [CR].
Proof.
  unfold ends_cr. destruct (decide (line = [])) as [->|Hl]; [done|].
  destruct (exists_last Hl) as (l & c & ->). rewrite last_snoc, removelast_last.
  by destruct (Ascii.eqb_spec c CR) as [->|].
Qed.

(** A collected piece ends in a carriage return only when another one was put
    back after it. *)
Definition held_back (ln s : list Ascii.ascii) : Prop := ends_cr ln = true -> exists s', s = CR :: s'.

(** One [ReadLine]: a complete line, the last line, or a piece after which the
    lines still to come are the same. *)
Lemma ReadLine_lines size ln s line isPrefix s' :
  (2 <= size)%nat -> held_back ln s -> ReadLine size s = Some (line, isPrefix, s') ->
  (length s' < length s)%nat /\
  lines_from ln s = (if isPrefix then lines_from (ln ++ line) s' else nonempty_line (ln ++ line) ++ lines_from [] s') /\
  (isPrefix = true -> held_back (ln ++ line) s').
Proof.
  intros Hsize Hheld. unfold ReadLine. destruct s as [|c s0]; [done|].
  set (s := c :: s0) in *. assert (1 <= length s)%nat as Hlen by (cbn; lia). clearbody s. clear c s0.
  destruct (cut_line (take size s)) as [l|] eqn:Hcut.
  - apply cut_line_Some in Hcut as (r & Htake & Hl). intros [= <- <- <-].
    assert (exists rest, s = l ++ LF :: rest) as [rest Hs].
    { exists (r ++ drop size s). rewrite <- (take_drop size s) at 1. by rewrite Htake, <- app_assoc. }
    assert (drop (S (length l)) s = rest) as ->.
    { rewrite Hs. change (LF :: rest) with ([LF] ++ rest). rewrite app_assoc.
      replace (S (length l)) with (length (l ++ [LF])) by (rewrite length_app; cbn; lia). apply drop_app_length. }
    rewrite Hs. split; [rewrite length_app; cbn; lia|]. split; [|done].
    rewrite lines_from_app by done. rewrite lines_from_LF. f_equal. f_equal.
    destruct l as [|c l]; [|by apply strip_cr_app]. rewrite app_nil_r. cbn. rewrite app_nil_r.
    apply strip_cr_id. destruct (ends_cr ln) eqn:Hcr; [|done].
    destruct (Hheld Hcr) as [s' Hs']. rewrite Hs' in Hs. discriminate Hs.
  - apply cut_line_None in Hcut. destruct (Nat.ltb_spec (length s) size) as [Hlt|Hge].
    + intros [= <- <- <-]. rewrite take_ge in Hcut by lia. split; [cbn; lia|]. split; [|done].
      rewrite <- (app_nil_r s) at 1. rewrite lines_from_app by done. cbn. by rewrite app_nil_r.
    + destruct (ends_cr (take size s)) eqn:Hcr; intros [= <- <- <-].
      * apply ends_cr_split in Hcr.
        assert (length (removelast (take size s)) = size - 1)%nat as Hrl.
        { apply (f_equal length) in Hcr. rewrite length_app, length_take in Hcr. cbn in Hcr. lia. }
        split; [cbn [length]; rewrite length_drop; lia|]. split; [|intros _ _; eauto].
        rewrite <- (take_drop size s) at 1. rewrite Hcr at 1. rewrite <- app_assoc.
        rewrite lines_from_app; [done|]. intros Hin. apply Hcut. rewrite Hcr. apply elem_of_app. by left.
      * split; [rewrite length_drop; lia|]. split; [|].
        -- rewrite <- (take_drop size s) at 1. by rewrite lines_from_app.
        -- intros _ Hcr'. exfalso. unfold ends_cr in Hcr, Hcr'. rewrite last_app in Hcr'.
           destruct (last (take size s)) eqn:Hlast; [congruence|].
           apply last_None in Hlast. assert (length (take size s) = 0%nat) as H0 by (by rewrite Hlast).
           rewrite length_take in H0. lia.
Qed.

Lemma read_pieces_lines size fuel ln s :
  (2 <= size)%nat -> (length s < fuel)%nat -> held_back ln s ->
  let '(ln', s', eof) := read_pieces size fuel ln s in
  lines_from ln s = nonempty_line ln' ++ (if eof then [] else lines_from [] s') /\
  (eof = false -> (length s' < length s)%nat).
Proof.
  intros Hsize. revert ln s. induction fuel as [|fuel IH]; intros ln s Hfuel Hheld; [lia|].
  cbn [read_pieces]. destruct (ReadLine size s) as [[[line isPrefix] s']|] eqn:Hr.
  - apply (ReadLine_lines _ ln) in Hr as (Hlt & Hlines & Hheld'); [|done..].
    destruct isPrefix; [|by rewrite Hlines].
    specialize (IH (ln ++ line) s' ltac:(lia) (Hheld' eq_refl)).
    destruct (read_pieces size fuel (ln ++ line) s') as [[ln' s''] eof]. destruct IH as [IH1 IH2].
    rewrite Hlines. split; [done|]. intros He. specialize (IH2 He). lia.
  - destruct s as [|c s]; [cbn; by rewrite app_nil_r|]. unfold ReadLine in Hr.
    destruct (cut_line _); [done|]. destruct (_ <? _)%nat; [done|]. by destruct (ends_cr _).
Qed.

Lemma read_lines_lines size fuel s :
  (2 <= size)%nat -> (length s < fuel)%nat -> read_lines size fuel s = lines_from [] s.
Proof.
  intros Hsize. revert s. induction fuel as [|fuel IH]; intros s Hfuel; [lia|]. cbn [read_lines].
  pose proof (read_pieces_lines size (S (length s)) [] s Hsize ltac:(lia)) as H.
  destruct (read_pieces size (S (length s)) [] s) as [[ln s'] eof].
  destruct H as [H1 H2]; [done|]. rewrite H1. f_equal. destruct eof; [done|]. apply IH.
  specialize (H2 eq_refl). lia.
Qed.

(** The reader goroutines deliver the lines of a stream.  Whatever the
    length of the lines against the 4096 bytes of the buffer, and wherever a
    carriage return falls, the lines sent for a stream are those of the
    byte-wise reference: cut at line feeds, without one carriage return before
    the line feed, without empty lines, and with an unterminated last line. *)
Theorem readOutputStream_lines (s : list Ascii.ascii) : readOutputStream s = lines_from [] s.
Proof. apply read_lines_lines; [unfold bufio_size; lia|lia]. Qed.

(** ** Directives *)

Fixpoint spaces (n : nat) : string :=
  match n with O => EmptyString | S n => String space (spaces n) end.

Definition starts_with_space (s : string) : bool :=
  match s with String c _ => Ascii.eqb c space | EmptyString => false end.

(** Spaces, a name, spaces and a value, as the regular expressions say it. *)
Definition assignment (s name v : string) : Prop :=
  exists n m, s = spaces (S n) +:+ name +:+ spaces (S m) +:+ v /\
    name <> "" /\ free_of space name = true /\ starts_with_space v = false /\ free_of LF v = true.

Lemma skip_spaces_spec s : exists n, s = spaces n +:+ skip_spaces s /\ starts_with_space (skip_spaces s) = false.
Proof.
  induction s as [|c s (n & Hs & H)]; [by exists 0%nat|]. cbn [skip_spaces].
  destruct (Ascii.eqb c space) eqn:Hc.
  - apply Ascii.eqb_eq in Hc as ->. exists (S n). cbn [spaces]. rewrite string_app_cons. by rewrite <- Hs.
  - by exists 0%nat.
Qed.

Lemma skip_spaces_app n s : starts_with_space s = false -> skip_spaces (spaces n +:+ s) = s.
Proof.
  intros Hs. induction n as [|n IH]; cbn [spaces].
  - rewrite string_app_nil_l. destruct s as [|c s]; [done|]. cbn [skip_spaces starts_with_space] in *. by rewrite Hs.
  - rewrite string_app_cons. cbn [skip_spaces]. by rewrite Ascii.eqb_refl.
Qed.

Lemma some_spaces_Some s r :
  some_spaces s = Some r <-> exists n, s = spaces (S n) +:+ r /\ starts_with_space r = false.
Proof.
  split.
  - destruct s as [|c s]; cbn [some_spaces]; [done|]. destruct (Ascii.eqb_spec c space) as [->|]; [|done].
    intros [= <-]. destruct (skip_spaces_spec s) as (n & Hs & H). exists n. split; [|done].
    cbn [spaces]. rewrite string_app_cons. by rewrite <- Hs.
  - intros (n & -> & Hr). cbn [spaces]. rewrite string_app_cons. cbn [some_spaces].
    rewrite Ascii.eqb_refl. by rewrite skip_spaces_app.
Qed.

Lemma take_word_spec s w r :
  take_word s = (w, r) <-> s = w +:+ r /\ free_of space w = true /\ (r = "" \/ starts_with_space r = true).
Proof.
  revert w r. induction s as [|c s IH]; intros w r; cbn [take_word].
  - split; [intros [= <- <-]; eauto|]. intros (Hs & _ & _). destruct w as [|d w]; [|by rewrite string_app_cons in Hs].
    rewrite string_app_nil_l in Hs. by subst.
  - destruct (Ascii.eqb_spec c space) as [->|Hc].
    + split; [intros [= <- <-]; eauto|]. intros (Hs & Hw & _). destruct w as [|d w]; [rewrite string_app_nil_l in Hs; by subst|].
      rewrite string_app_cons in Hs. injection Hs as <- Hs. cbn in Hw. done.
    + destruct (take_word s) as [w' r'] eqn:Ht. destruct (proj1 (IH w' r') eq_refl) as (Hs & Hw & Hr).
      split.
      * intros [= <- <-]. rewrite string_app_cons, <- Hs. split; [done|]. split; [|done].
        cbn [free_of]. rewrite Hw, andb_true_r. apply negb_true_iff, Ascii.eqb_neq. congruence.
      * intros (Hs2 & Hw2 & Hr2). destruct w as [|d w].
        { rewrite string_app_nil_l in Hs2. subst r. destruct Hr2 as [|Hr2]; [done|].
          cbn in Hr2. apply Ascii.eqb_eq in Hr2. congruence. }
        rewrite string_app_cons in Hs2. injection Hs2 as <- Hs2.
        cbn [free_of] in Hw2. apply andb_true_iff in Hw2 as [_ Hw2].
        assert ((w', r') = (w, r)) as [= -> ->] by (apply IH; eauto). done.
Qed.

Lemma match_assignment_spec s name v : match_assignment s = Some (name, v) <-> assignment s name v.
Proof.
  unfold match_assignment, assignment. split.
  - destruct (some_spaces s) as [s1|] eqn:H1; [|done]. cbn [mbind option_bind].
    apply some_spaces_Some in H1 as (n & -> & Hs1). destruct (take_word s1) as [w r] eqn:H2.
    apply take_word_spec in H2 as (-> & Hw & _). case_bool_decide; [done|].
    destruct (some_spaces r) as [s2|] eqn:H3; [|done]. cbn [mbind option_bind].
    apply some_spaces_Some in H3 as (m & -> & Hs2). unfold to_end.
    destruct (free_of LF s2) eqn:H4; [|done]. intros [= <- <-]. by exists n, m.
  - intros (n & m & -> & Hne & Hfree & Hv & HLF).
    rewrite (proj2 (some_spaces_Some _ (name +:+ spaces (S m) +:+ v))).
    2:{ exists n. split; [done|]. destruct name as [|c name]; [done|]. cbn [free_of] in Hfree.
        apply andb_true_iff in Hfree as [Hc _]. rewrite string_app_cons. cbn [starts_with_space].
        rewrite Ascii.eqb_sym. by apply negb_true_iff. }
    cbn [mbind option_bind].
    rewrite (proj2 (take_word_spec _ name (spaces (S m) +:+ v))) by eauto.
    rewrite bool_decide_false by done.
    rewrite (proj2 (some_spaces_Some _ v)) by eauto. cbn [mbind option_bind]. unfold to_end. by rewrite HLF.
Qed.

Lemma after_spec prefix s r : after prefix s = Some r <-> s = prefix +:+ r.
Proof.
  revert s. induction prefix as [|c p IH]; intros s; cbn [after].
  - rewrite string_app_nil_l. split; [by intros [= ->]|by intros ->].
  - rewrite string_app_cons. destruct s as [|d s]; [done|].
    destruct (Ascii.eqb_spec c d) as [->|Hc].
    + rewrite IH. split; [by intros ->|by intros [= ->]].
    + split; [done|congruence].
Qed.

(** The text after a directive's word begins with a space. *)
Lemma assignment_no_prefix c p s name v : c <> space -> assignment s name v -> after (String c p) s = None.
Proof.
  intros Hc (n & m & -> & _). cbn [spaces]. rewrite string_app_cons. cbn [after].
  destruct (Ascii.eqb_spec c space); [done|done].
Qed.

Definition out_directive (json : bool) (put : bool) : string :=
  "::set-out" +:+ (if put then "put" else "") +:+ (if json then "-json" else "").

Lemma outputOutPattern_spec line json name v :
  outputOutPattern line = Some (json, name, v) <->
  exists put s, line = out_directive json put +:+ s /\ assignment s name v.
Proof.
  unfold outputOutPattern, out_directive. split.
  - destruct (after "::set-out" line) as [s|] eqn:H1; [|done]. apply after_spec in H1 as ->.
    cbn [mbind option_bind]. intros H.
    assert (exists put : bool, s = (if put then "put" else "") +:+ default s (after "put" s)) as [put Hput].
    { destruct (after "put" s) as [s'|] eqn:H2; [|by exists false]. exists true. by apply after_spec in H2. }
    set (s1 := default s (after "put" s)) in *.
    destruct (after "-json" s1) as [s2|] eqn:H3.
    + destruct (match_assignment s2) as [[n' v']|] eqn:Hm; [|done]. cbn in H. injection H as <- <- <-.
      apply match_assignment_spec in Hm. apply after_spec in H3. exists put, s2. split; [|done].
      rewrite Hput at 1. rewrite H3. by rewrite !string_app_assoc.
    + destruct (match_assignment s1) as [[n' v']|] eqn:Hm; [|done]. cbn in H. injection H as <- <- <-.
      apply match_assignment_spec in Hm. exists put, s1. split; [|done].
      rewrite Hput at 1. by rewrite !string_app_assoc.
  - intros (put & s & -> & Ha). rewrite !string_app_assoc, (proj2 (after_spec "::set-out" (_ +:+ _) _) eq_refl).
    cbn [mbind option_bind].
    assert (forall t, after "put" ((if json then "-json" else "") +:+ s) = Some t -> False) as Hnp.
    { intros t. destruct json; [done|]. rewrite string_app_nil_l.
      by rewrite (assignment_no_prefix "p" "ut" s name v). }
    assert (default ((if put then "put" else "") +:+ (if json then "-json" else "") +:+ s)
              (after "put" ((if put then "put" else "") +:+ (if json then "-json" else "") +:+ s))
            = (if json then "-json" else "") +:+ s) as ->.
    { destruct put; [by rewrite (proj2 (after_spec "put" (_ +:+ _) _) eq_refl)|]. rewrite !string_app_nil_l.
      destruct (after "put" _) as [t|] eqn:Ht; [|done]. by destruct (Hnp t). }
    destruct json.
    + rewrite (proj2 (after_spec "-json" (_ +:+ _) _) eq_refl). by rewrite (proj2 (match_assignment_spec _ _ _) Ha).
    + rewrite string_app_nil_l, (assignment_no_prefix "-" "json" s name v) by done.
      by rewrite (proj2 (match_assignment_spec _ _ _) Ha).
Qed.

(** The three directives, exactly.  A line sets a variable iff it is
    [::set-var], spaces, a name without spaces, spaces and a value, whatever
    else the value holds; it sets an output iff it is [::set-out] or
    [::set-output], with or without [-json], in the same form. *)
Theorem directives_recognised (line : string) :
  (forall name v, outputVarPattern line = Some (name, v) <->
     exists s, line = "::set-var" +:+ s /\ assignment s name v) /\
  (forall name v, outputJSONPattern line = Some (name, v) <->
     exists s, line = "::set-json" +:+ s /\ assignment s name v) /\
  (forall json name v, outputOutPattern line = Some (json, name, v) <->
     exists put s, line = out_directive json put +:+ s /\ assignment s name v).
Proof.
  split; [|split; [|intros; apply outputOutPattern_spec]]; intros name v;
    unfold outputVarPattern, outputJSONPattern.
  all: split; [|intros (s & -> & Ha); rewrite (proj2 (after_spec _ (_ +:+ _) _) eq_refl);
    cbn [mbind option_bind]; by apply match_assignment_spec].
  all: destruct (after _ line) as [s|] eqn:H; [|done]; cbn [mbind option_bind].
  all: rewrite match_assignment_spec; apply after_spec in H; eauto.
Qed.

(** ** The output loop handles everything *)

Section loop_proofs.
Context `{lib : Library} `{json : Json}.

Definition out_of (l : shell_log) : option string := match l with OUT line => Some line | ERR _ => None end.
Definition err_of (l : shell_log) : option string := match l with ERR line => Some line | OUT _ => None end.

(** The lines that are logged as output: those no directive took. *)
Fixpoint unhandled (i : Z) (lines : list string) (w : TaskScheduler) : list string :=
  match lines with
  | [] => []
  | line :: lines =>
      let '(w, handled) := parseOutputVars i line w in
      (if handled then [] else [line]) ++ unhandled i lines w
  end.

Lemma handle_lines_app i a b w : handle_lines i (a ++ b) w = handle_lines i b (handle_lines i a w).
Proof. apply fold_left_app. Qed.

Lemma unhandled_app i a b w : unhandled i (a ++ b) w = unhandled i a w ++ unhandled i b (handle_lines i a w).
Proof.
  revert w. induction a as [|l a IH]; intros w; [done|]. cbn [app unhandled]. unfold handle_lines. cbn [fold_left].
  destruct (parseOutputVars i l w) as [w' h]. cbn [fst]. rewrite <- app_assoc. f_equal. apply IH.
Qed.

(** After the lines [dout] and [derr] have been handled. *)
Record loop_inv (i : Z) (out err : list string) (w0 : TaskScheduler) (s : shell) (dout derr : list string) : Prop := {
  li_out : out = dout ++ sh_out s;
  li_err : err = derr ++ sh_err s;
  li_world : sh_world s = handle_lines i dout w0;
  li_outlog : omap out_of (sh_logs s) = unhandled i dout w0;
  li_errlog : omap err_of (sh_logs s) = derr;
  li_outClosed : sh_outClosed s = true -> sh_out s = [];
  li_errClosed : sh_errClosed s = true -> sh_err s = [];
  li_waited : sh_waited s = true -> sh_outClosed s = true /\ sh_errClosed s = true;
  li_left : sh_main s <> InLoop -> sh_waited s = true;
  li_alive : sh_main s <> Crashed
}.

(** What is left to do, at most. *)
Definition loop_measure (s : shell) : nat :=
  length (sh_out s) + length (sh_err s) + (if sh_outClosed s then 0 else 1) + (if sh_errClosed s then 0 else 1)
  + (if sh_waited s then 0 else 1) + match sh_main s with InLoop => 2 | LeftLoop => 1 | _ => 0 end.

Lemma shell_step_inv i out err w0 s s' e dout derr :
  loop_inv i out err w0 s dout derr -> shell_step i e s = Some s' ->
  exists dout' derr', loop_inv i out err w0 s' dout' derr' /\ S (loop_measure s') = loop_measure s.
Proof.
  intros [Ho He Hw Hlo Hle Hoc Hec Hwt Hl Ha] H.
  destruct s as [so se oc ec wt m logs w]; cbn [sh_out sh_err sh_outClosed sh_errClosed sh_waited sh_main sh_logs sh_world] in *.
  destruct e, m; cbn [shell_step] in H; try done.
  all: try solve [case_bool_decide as Hso; [|done]; destruct oc; [done|]; injection H as <-; exists dout, derr;
    split; [split; cbn; try done; intros; split; [done|by apply Hwt]|unfold loop_measure; cbn; lia]].
  all: try solve [case_bool_decide as Hse; [|done]; destruct ec; [done|]; injection H as <-; exists dout, derr;
    split; [split; cbn; try done; intros; split; [by apply Hwt|done]|unfold loop_measure; cbn; lia]].
  all: try solve [destruct oc, ec, wt; try done; injection H as <-; exists dout, derr;
    split; [by split|unfold loop_measure; cbn; lia]].
  - destruct so as [|l so]; [done|]. destruct (parseOutputVars i l w) as [w' h] eqn:Hp.
    injection H as <-. exists (dout ++ [l]), derr. split.
    + assert (handle_lines i (dout ++ [l]) w0 = w') as Hw'.
      { rewrite handle_lines_app, <- Hw. unfold handle_lines. cbn [fold_left]. by rewrite Hp. }
      assert (unhandled i (dout ++ [l]) w0 = unhandled i dout w0 ++ (if h then [] else [l])) as Hu.
      { rewrite unhandled_app, <- Hw. cbn [unhandled]. rewrite Hp. by rewrite app_nil_r. }
      assert (oc = false) as -> by (destruct oc; [by specialize (Hoc eq_refl)|done]).
      split; cbn; try done.
      * by rewrite <- app_assoc.
      * rewrite Hu. destruct h; [by rewrite app_nil_r|]. by rewrite omap_app, Hlo.
      * destruct h; [done|]. rewrite omap_app, Hle. apply app_nil_r.
    + unfold loop_measure. cbn. lia.
  - assert (so <> []) as Hne by (by destruct so). specialize (Hwt (Hl ltac:(done))) as [-> _]. by specialize (Hoc eq_refl).
  - destruct se as [|l se]; [done|]. injection H as <-. exists dout, (derr ++ [l]). split.
    + assert (ec = false) as -> by (destruct ec; [by specialize (Hec eq_refl)|done]).
      split; cbn; try done.
      * by rewrite <- app_assoc.
      * rewrite omap_app, Hlo. apply app_nil_r.
      * by rewrite omap_app, Hle.
    + unfold loop_measure. cbn. lia.
  - assert (se <> []) as Hne by (by destruct se). specialize (Hwt (Hl ltac:(done))) as [_ ->]. by specialize (Hec eq_refl).
  - destruct wt; [|done]. injection H as <-. exists dout, derr. split; [by split|unfold loop_measure; cbn; lia].
  - injection H as <-. exists dout, derr. split; [|unfold loop_measure; cbn; lia].
    split; cbn; try done. intros _. by apply Hl.
Qed.

Lemma shell_run_inv i es out err w0 s s' dout derr :
  loop_inv i out err w0 s dout derr -> shell_run i es s = Some s' ->
  exists dout' derr', loop_inv i out err w0 s' dout' derr' /\ (length es + loop_measure s' = loop_measure s)%nat.
Proof.
  revert s dout derr. induction es as [|e es IH]; intros s dout derr Hinv H; cbn [shell_run] in H.
  - injection H as <-. by exists dout, derr.
  - destruct (shell_step i e s) as [s1|] eqn:Hs; [|done]. cbn [mbind option_bind] in H.
    destruct (shell_step_inv _ _ _ _ _ _ _ _ _ Hinv Hs) as (d1 & d2 & Hinv1 & Hm).
    destruct (IH _ _ _ Hinv1 H) as (d1' & d2' & Hinv2 & Hm2). exists d1', d2'. split; [done|]. cbn [length]. lia.
Qed.

(** No deadlock: until the channels are closed some goroutine can go on. *)
Lemma shell_progress i out err w0 s dout derr :
  loop_inv i out err w0 s dout derr -> (0 < loop_measure s)%nat -> exists e s', shell_step i e s = Some s'.
Proof.
  intros [_ _ _ _ _ Hoc Hec Hwt Hl Ha] Hm.
  destruct s as [so se oc ec wt m logs w]; cbn [sh_out sh_err sh_outClosed sh_errClosed sh_waited sh_main] in *.
  destruct m; [| |exfalso; destruct (Hwt (Hl ltac:(done))) as [-> ->];
    unfold loop_measure in Hm; cbn in Hm; rewrite Hoc, Hec, Hl in Hm by done; cbn in Hm; lia|done].
  - destruct so as [|l so]; [|exists OutLine; cbn; destruct (parseOutputVars i l w); eauto].
    destruct se as [|l se]; [|exists ErrLine; cbn; eauto].
    destruct oc; [|exists OutEOF; cbn; eauto]. destruct ec; [|exists ErrEOF; cbn; eauto].
    destruct wt; [exists BreakLoop|exists ProcessWaited]; cbn; eauto.
  - exists CloseChannels. cbn. eauto.
Qed.

Lemma shell_start_inv i out err w : loop_inv i out err w (shell_start out err w) [] [].
Proof. by split. Qed.

(** The output of a command is handled completely and in order, however
    the goroutines are scheduled.  Every sequence of steps from the start of
    the command is at most as long as the output has lines, plus five; no
    goroutine ever sends on a closed channel; a sequence that cannot be
    continued has left the output loop and closed the channels; and whenever
    the loop has been left, every line of the standard output has had its
    effect on the variables, one after the other, the lines no directive took
    have been logged in order, and so have all lines of the standard error. *)
Theorem shell_output_complete (i : Z) (out err : list string) (w : TaskScheduler) (es : list shell_event) (s : shell) :
  shell_run i es (shell_start out err w) = Some s ->
  (length es <= length out + length err + 5)%nat /\
  sh_main s <> Crashed /\
  ((forall e, shell_step i e s = None) -> sh_main s = ChannelsClosed) /\
  (sh_main s <> InLoop ->
     sh_world s = handle_lines i out w /\
     omap out_of (sh_logs s) = unhandled i out w /\
     omap err_of (sh_logs s) = err).
Proof.
  intros H. destruct (shell_run_inv _ _ _ _ _ _ _ _ _ (shell_start_inv i out err w) H) as (d1 & d2 & Hinv & Hm).
  split. { unfold loop_measure in Hm at 2. cbn in Hm. lia. }
  split; [apply Hinv|]. split.
  - intros Hstuck. destruct (decide (0 < loop_measure s)%nat) as [Hpos|Hz].
    + destruct (shell_progress _ _ _ _ _ _ _ Hinv Hpos) as (e & s' & He). by rewrite Hstuck in He.
    + unfold loop_measure in Hz. destruct (sh_main s) eqn:Hmain; try lia; [done|].
      by destruct (li_alive _ _ _ _ _ _ _ Hinv).
  - intros Hleft. destruct (li_waited _ _ _ _ _ _ _ Hinv (li_left _ _ _ _ _ _ _ Hinv Hleft)) as [Hoc Hec].
    pose proof (li_out _ _ _ _ _ _ _ Hinv) as Ho. pose proof (li_err _ _ _ _ _ _ _ Hinv) as He.
    rewrite (li_outClosed _ _ _ _ _ _ _ Hinv Hoc), app_nil_r in Ho.
    rewrite (li_errClosed _ _ _ _ _ _ _ Hinv Hec), app_nil_r in He. subst d1 d2.
    split; [apply Hinv|]. split; apply Hinv.
Qed.

(** The main goroutine is gone and a reader still holds a line. *)
Definition doomed (s : shell) : Prop :=
  sh_main s = Crashed \/
  sh_main s <> InLoop /\ sh_out s ++ sh_err s <> [] /\
  (sh_outClosed s = true -> sh_out s = []) /\ (sh_errClosed s = true -> sh_err s = []).

Lemma doomed_step i e s s' : doomed s -> shell_step i e s = Some s' -> doomed s'.
Proof.
  unfold doomed. destruct s as [so se oc ec wt m logs w]. cbn [sh_out sh_err sh_outClosed sh_errClosed sh_main].
  intros [->|(Hm & Hne & Ho & He)] H; [by destruct e|].
  destruct e, m; cbn [shell_step] in H; try done.
  all: try (case_bool_decide; [|done]).
  all: repeat match type of H with context [match ?x with _ => _ end] => destruct x end; try done.
  all: injection H as <-; cbn; auto.
Qed.

Lemma doomed_run i es s s' : doomed s -> shell_run i es s = Some s' -> doomed s'.
Proof.
  revert s. induction es as [|e es IH]; intros s Hd H; cbn [shell_run] in H; [by injection H as <-|].
  destruct (shell_step i e s) as [s1|] eqn:He; [|done]. eapply IH; [|exact H]. by eapply doomed_step.
Qed.

Lemma doomed_crashes i s : doomed s -> exists es s', shell_run i es s = Some s' /\ sh_main s' = Crashed.
Proof.
  intros [Hc|(Hm & Hne & _)]; [by exists [], s|].
  destruct s as [so se oc ec wt m logs w]. cbn [sh_out sh_err sh_main] in *.
  destruct m; try done.
  - destruct so; [destruct se; [done|exists [CloseChannels; ErrLine]]|exists [CloseChannels; OutLine]]; cbn; eauto.
  - destruct so; [destruct se; [done|exists [ErrLine]]|exists [OutLine]]; cbn; eauto.
  - by exists [], (mkShell so se oc ec wt Crashed logs w).
Qed.

(** A script that cannot be written crashes the program.  When writing the
    script to the process fails (a process that ends without reading its
    input), [Execute] returns and closes the line channels while the readers
    still hold lines: whatever has happened, some steps lead to the panic of a
    reader that sends on a closed channel, which no [recover] catches, and no
    schedule ends otherwise. *)
Theorem script_failure_crashes (i : Z) (out err : list string) (w : TaskScheduler) (es : list shell_event) (s : shell) :
  out ++ err <> [] -> shell_run i es (shell_stdin_failed out err w) = Some s ->
  (exists es' s', shell_run i es' s = Some s' /\ sh_main s' = Crashed) /\
  ((forall e, shell_step i e s = None) -> sh_main s = Crashed).
Proof.
  intros Hne H. assert (doomed s) as Hd.
  { eapply doomed_run; [|exact H]. right. by cbn. }
  destruct (doomed_crashes i s Hd) as (es' & s' & Hrun & Hc). split; [eauto|].
  intros Hstuck. destruct es' as [|e es']; cbn [shell_run] in Hrun; [by injection Hrun as <-|].
  by rewrite Hstuck in Hrun.
Qed.

End loop_proofs.

(** ** Stored results *)

Section store_proofs.
Context `{lib : Library}.
Variable exec_err : TaskResultRow -> option error.

(** The files below an entry in the order of the walk, under their names
    relative to the result directory. *)
Fixpoint listing (prefix : string) (e : entry) : list (string * result (list Z)) :=
  match e with
  | File name data => [(prefix +:+ name, data)]
  | Dir name (Ok files) => flat_map (listing (prefix +:+ name +:+ "/")) files
  | Dir name (Err _) => []
  end.

Definition result_row (runID taskID k : Z) (name : string) (data : list Z) : TaskResultRow :=
  mkTaskResultRow runID taskID "result" k name (Z.of_nat (length data)) data.
Definition summary_row (runID taskID : Z) (data : list Z) : TaskResultRow :=
  mkTaskResultRow runID taskID "summary" 0 "" (Z.of_nat (length data)) data.

Definition store_file (runID taskID : Z) (st : Z * Database) (f : string * result (list Z)) : Z * Database :=
  (st.1 +u 1, match f.2 with Err _ => st.2 | Ok data => put_result exec_err (result_row runID taskID st.1 f.1 data) st.2 end).

(** The walk is one pass over the listing; by induction on the directory tree. *)
Fixpoint store_entry_listing runID taskID prefix e st {struct e} :
  store_entry exec_err runID taskID prefix e st = fold_left (store_file runID taskID) (listing prefix e) st.
Proof.
  destruct e as [name data|name [files|err]]; cbn [store_entry listing].
  - by destruct st as [idx db], data.
  - revert st. generalize (prefix +:+ name +:+ "/"). intros p.
    induction files as [|f files IH]; intros st; [done|]. cbn [fold_left flat_map].
    rewrite fold_left_app, IH. f_equal. apply store_entry_listing.
  - done.
Qed.

Lemma storeResultFilesFn_listing runID taskID files st :
  storeResultFilesFn exec_err runID taskID (Ok files) st =
  fold_left (store_file runID taskID) (flat_map (listing "") files) st.
Proof.
  unfold storeResultFilesFn. revert st. induction files as [|f files IH]; intros st; [done|].
  cbn [fold_left flat_map]. by rewrite fold_left_app, IH, store_entry_listing.
Qed.

(** The row a stored file is read back as. *)
Definition stored (r : TaskResultRow) (old : option TaskResultRow) : option TaskResultRow :=
  match exec_err r with None => Some r | Some _ => old end.

Definition file_row (runID taskID k : Z) (f : option (string * result (list Z))) (old : option TaskResultRow)
    : option TaskResultRow :=
  match f with Some (name, Ok data) => stored (result_row runID taskID k name data) old | _ => old end.

Lemma put_result_lookup r db key :
  task_results (put_result exec_err r db) !! key =
  if bool_decide (key = (res_RunID r, res_TaskID r, res_Type r, res_Index r)) then stored r (task_results db !! key)
  else task_results db !! key.
Proof.
  unfold put_result, stored. destruct (exec_err r); [by case_bool_decide|]. cbn.
  case_bool_decide as Hk; [by rewrite Hk, lookup_insert_eq|by rewrite lookup_insert_ne by congruence].
Qed.

Lemma store_files_rows runID taskID files idx db :
  0 <= idx -> idx + Z.of_nat (length files) < two64 ->
  let db' := (fold_left (store_file runID taskID) files (idx, db)).2 in
  (forall k, task_results db' !! (runID, taskID, "result", k) =
     file_row runID taskID k (if k <? idx then None else files !! Z.to_nat (k - idx))
       (task_results db !! (runID, taskID, "result", k))) /\
  (forall r t typ k, (r, t, typ) <> (runID, taskID, "result") ->
     task_results db' !! (r, t, typ, k) = task_results db !! (r, t, typ, k)).
Proof.
  revert idx db. induction files as [|[name data] files IH]; intros idx db Hidx Hlen.
  { split; [|done]. intros k. by destruct (k <? idx). }
  cbn [fold_left length] in *.
  set (db1 := (store_file runID taskID (idx, db) (name, data)).2).
  assert (store_file runID taskID (idx, db) (name, data) = (idx + 1, db1)) as ->.
  { subst db1. unfold store_file. cbn [fst snd]. by rewrite u64_id by (unfold is_u64; lia). }
  destruct (IH (idx + 1) db1 ltac:(lia) ltac:(lia)) as [IH1 IH2].
  assert (forall key, task_results db1 !! key =
    if bool_decide (key = (runID, taskID, "result", idx)) then file_row runID taskID idx (Some (name, data)) (task_results db !! key)
    else task_results db !! key) as Hdb1.
  { intros key. subst db1. unfold store_file. cbn [fst snd]. destruct data as [data|e]; [apply put_result_lookup|]. by case_bool_decide. }
  split.
  - intros k. rewrite IH1, Hdb1. destruct (Z.ltb_spec k idx) as [Hk|Hk].
    { assert ((k <? idx + 1) = true) as -> by lia. rewrite bool_decide_false by (intros [=]; lia).
      done. }
    destruct (decide (k = idx)) as [->|Hne].
    + assert ((idx <? idx + 1) = true) as -> by lia. by rewrite bool_decide_true, Z.sub_diag by done.
    + assert ((k <? idx + 1) = false) as -> by lia. rewrite bool_decide_false by congruence.
      by replace (Z.to_nat (k - idx)) with (S (Z.to_nat (k - (idx + 1)))) by lia.
  - intros r t typ k Hne. rewrite IH2, Hdb1 by done. by rewrite bool_decide_false by congruence.
Qed.

(** What a shell command leaves behind is stored completely.  When the
    transaction goes through, the file at position [k] of a depth-first walk of
    the result directory is read back at index [k] under its relative path with
    its contents; positions whose file could not be read or stored keep
    what was there, and so do all rows of other tasks; the summary is stored iff
    it is not empty. *)
Theorem storeTaskResults_rows (i : Z) (summary : result (list Z)) (files : list entry) (w w' : TaskScheduler)
    (db : Database) :
  let fs := flat_map (listing "") files in
  database w = Some db -> swallowed (lib_engine (txCount w)) = EngineOk -> Z.of_nat (length fs) < two64 ->
  storeTaskResults exec_err i summary (Ok files) w = Some w' ->
  exists db', database w' = Some db' /\
    (forall k, GetTaskResultByIndex (testRunID w) i "result" k db' =
       file_row (testRunID w) i k (if k <? 0 then None else fs !! Z.to_nat k)
         (GetTaskResultByIndex (testRunID w) i "result" k db)) /\
    GetTaskResultByIndex (testRunID w) i "summary" 0 db' =
      (match summary with
       | Ok ((_ :: _) as data) => stored (summary_row (testRunID w) i data) (GetTaskResultByIndex (testRunID w) i "summary" 0 db)
       | _ => GetTaskResultByIndex (testRunID w) i "summary" 0 db
       end) /\
    (forall r t typ k, (r, t) <> (testRunID w, i) -> GetTaskResultByIndex r t typ k db' = GetTaskResultByIndex r t typ k db).
Proof.
  intros fs Hdb Heng Hlen. unfold storeTaskResults, store_handler. rewrite Hdb. cbn [mbind option_bind].
  rewrite Heng. cbn [RunTransaction fst]. intros Hw. apply (inj Some) in Hw as <-.
  rewrite storeResultFilesFn_listing. fold fs.
  set (db1 := match summary with Ok [] => db | Ok ((_ :: _) as data) => _ | Err _ => db end).
  assert (forall key, task_results db1 !! key =
    if bool_decide (key = (testRunID w, i, "summary", 0)) then
      match summary with Ok ((_ :: _) as data) => stored (summary_row (testRunID w) i data) (task_results db !! key)
                       | _ => task_results db !! key end
    else task_results db !! key) as Hdb1.
  { intros key. subst db1. destruct summary as [[|b data]|e]; [by case_bool_decide|apply put_result_lookup|by case_bool_decide]. }
  destruct (store_files_rows (testRunID w) i fs 0 db1 ltac:(lia) ltac:(lia)) as [H1 H2].
  eexists. split; [reflexivity|]. unfold GetTaskResultByIndex. split; [|split].
  - intros k. rewrite H1, Hdb1, bool_decide_false by congruence. by rewrite Z.sub_0_r.
  - rewrite H2, Hdb1, bool_decide_true by congruence. done.
  - intros r t typ k Hne. rewrite H2, Hdb1, bool_decide_false by congruence. done.
Qed.

End store_proofs.

(** ** The task as a whole *)

Section execute_proofs.
Context `{lib : Library} `{json : Json} `{raw : RawMessages} `{srcs : !RegistrySources}.
Variable exec_err : TaskResultRow -> option error.

Lemma left_world i out err w es s :
  shell_run i es (shell_start out err w) = Some s -> sh_main s <> InLoop -> sh_world s = handle_lines i out w.
Proof.
  intros H Hleft. destruct (shell_run_inv _ _ _ _ _ _ _ _ _ (shell_start_inv i out err w) H) as (d1 & d2 & Hinv & _).
  destruct (li_waited _ _ _ _ _ _ _ Hinv (li_left _ _ _ _ _ _ _ Hinv Hleft)) as [Hoc _].
  pose proof (li_out _ _ _ _ _ _ _ Hinv) as Ho. rewrite (li_outClosed _ _ _ _ _ _ _ Hinv Hoc), app_nil_r in Ho.
  subst d1. apply Hinv.
Qed.

Lemma shell_run_app i a b s : shell_run i (a ++ b) s = shell_run i a s ≫= shell_run i b.
Proof.
  revert s. induction a as [|e a IH]; intros s; [done|]. cbn [app shell_run].
  destruct (shell_step i e s) as [s'|]; [apply IH|done].
Qed.

(** One schedule: the output lines, the error lines, the ends. *)
Definition one_schedule (out err : list string) : list shell_event :=
  replicate (length out) OutLine ++ replicate (length err) ErrLine ++ [OutEOF; ErrEOF; ProcessWaited; BreakLoop].

Lemma run_errs i err logs w :
  exists logs', shell_run i (replicate (length err) ErrLine ++ [OutEOF; ErrEOF; ProcessWaited; BreakLoop])
    (mkShell [] err false false false InLoop logs w) = Some (mkShell [] [] true true true LeftLoop logs' w).
Proof.
  revert logs. induction err as [|l err IH]; intros logs; [by exists logs|].
  cbn [length replicate app shell_run shell_step mbind option_bind]. apply IH.
Qed.

Lemma run_outs i out err logs w :
  exists logs' w', shell_run i (one_schedule out err) (mkShell out err false false false InLoop logs w)
    = Some (mkShell [] [] true true true LeftLoop logs' w').
Proof.
  unfold one_schedule. revert logs w. induction out as [|l out IH]; intros logs w.
  - destruct (run_errs i err logs w) as [logs' H]. by exists logs', w.
  - cbn [length replicate app shell_run shell_step mbind option_bind].
    destruct (parseOutputVars i l w) as [w' h]. cbn [mbind option_bind]. apply IH.
Qed.

(** C10: [run_shell] as a whole.  Once the process has been started and has
    taken its script, some schedule of the goroutines brings the task to its
    end, and every schedule that does ends it the same way: the task returns
    the error of [Wait], and its effect is that of every line of the standard
    output in order, followed by the storing of summary and result files. *)
Theorem shell_Execute_result (c : ShellConfig) (sys : system) (i : Z) (w : TaskScheduler) (dir : string)
    (env : list string) (p : process) :
  sys_MkdirTemp sys = Ok dir -> sys_pipes sys = None -> sys_summary sys = None -> sys_MkdirAll sys = None ->
  build_env i (iterate (shell_EnvVars c)) w = Ok env ->
  sys_start sys (shell_Shell c) (shell_ShellArgs c)
    ((env ++ ["ASSERTOOR_SUMMARY=" +:+ dir +:+ "/summary"]) ++ ["ASSERTOOR_RESULT_DIR=" +:+ dir +:+ "/results"])
    (shell_Command c +:+ String LF EmptyString) = Ok p ->
  p_stdin p = None ->
  let done := handle_lines i (lines_from [] (p_stdout p)) w in
  let result := match storeTaskResults exec_err i (p_summary p) (p_files p) done with
                | Some w' => (w', Returned (p_wait p))
                | None => (done, Panicked (Some "invalid memory address or nil pointer dereference"))
                end in
  (exists es, shell_Execute exec_err c sys es i w = Some result) /\
  (forall es r, shell_Execute exec_err c sys es i w = Some r -> r = result).
Proof.
  intros Hdir Hpipes Hsum Hmk Henv Hstart Hstdin done result.
  assert (readOutputStream (p_stdout p) = lines_from [] (p_stdout p)) as Hlines.
  { apply read_lines_lines; [unfold bufio_size; lia|lia]. }
  assert (forall es, shell_Execute exec_err c sys es i w =
    (s ← shell_run i es (shell_start (lines_from [] (p_stdout p)) (readOutputStream (p_stderr p)) w);
     match sh_main s with LeftLoop => Some (leave_shell exec_err i p (p_wait p) s) | _ => None end)) as Hex.
  { intros es. unfold shell_Execute. rewrite Hdir, Hpipes, Henv, Hsum, Hmk. cbn zeta. rewrite Hstart, Hstdin.
    by rewrite Hlines. }
  assert (forall s, sh_world s = done -> leave_shell exec_err i p (p_wait p) s = result) as Hleave.
  { intros s Hs. unfold leave_shell. by rewrite Hs. }
  split.
  - destruct (run_outs i (lines_from [] (p_stdout p)) (readOutputStream (p_stderr p)) [] w) as (logs & w' & Hrun).
    eexists. rewrite Hex. unfold shell_start. rewrite Hrun. cbn [mbind option_bind sh_main]. f_equal.
    apply Hleave. eapply left_world; [exact Hrun|done].
  - intros es r. rewrite Hex. destruct (shell_run i es _) as [s|] eqn:Hrun; [|done]. cbn [mbind option_bind].
    destruct (sh_main s) eqn:Hm; try done. intros [= <-]. apply Hleave. eapply left_world; [exact Hrun|].
    by rewrite Hm.
Qed.

End execute_proofs.

(** ** Witnesses *)

Definition ex_json : Json :=
  {| json_Unmarshal := fun s => if String.eqb s "[]" then Ok (VList []) else Err "unexpected end of JSON input";
     json_Marshal := fun x => match x with VNil => Ok "null" | _ => Err "unsupported" end |}.

Definition ex_shell_sched : TaskScheduler := ex_sched.
Definition ex_shell_out : list string := ["::set-var a  b c"; "hello"; "::set-output-json o []"].
Definition ex_run : list shell_event :=
  [OutLine; OutLine; ErrLine; OutLine; ErrEOF; OutEOF; ProcessWaited; BreakLoop].

(** A line that sets a variable, one that does not, one on the error stream. *)
Lemma shell_output_complete_witness :
  exists s, shell_run (json := ex_json) 2 ex_run (shell_start ex_shell_out ["oops"] ex_shell_sched) = Some s /\
    sh_main s = LeftLoop /\ omap out_of (sh_logs s) = ["hello"] /\
    GetVar 20 (scopes (sh_world s)) (ctx_Vars 2 (sh_world s)) "a" = Some (VString "b c") /\
    sh_world s = handle_lines (json := ex_json) 2 ex_shell_out ex_shell_sched.
Proof.
  destruct (shell_run (json := ex_json) 2 ex_run (shell_start ex_shell_out ["oops"] ex_shell_sched)) as [s|] eqn:H;
    [|by vm_compute in H].
  exists s. split; [done|].
  pose proof (shell_output_complete (json := ex_json) _ _ _ _ _ _ H) as (_ & _ & _ & Hall).
  assert (sh_main s = LeftLoop) as Hm.
  { assert (sh_main <$> shell_run (json := ex_json) 2 ex_run (shell_start ex_shell_out ["oops"] ex_shell_sched) = Some LeftLoop)
      as H2 by (by vm_compute). rewrite H in H2. by injection H2. }
  destruct (Hall ltac:(by rewrite Hm)) as (Hw & Ho & _). split; [done|].
  split; [rewrite Ho; by vm_compute|]. split; [rewrite Hw; by vm_compute|done].
Defined.

(** The process has ended without reading its script, after printing a line. *)
Lemma script_failure_crashes_witness :
  exists es s, shell_run (json := ex_json) 2 es (shell_stdin_failed ["hello"] [] ex_shell_sched) = Some s /\ sh_main s = Crashed.
Proof.
  apply (script_failure_crashes (json := ex_json) 2 ["hello"] [] ex_shell_sched []
    (shell_stdin_failed ["hello"] [] ex_shell_sched)); [done|reflexivity].
Defined.

Lemma ex_shell_db : exists db, database ex_shell_sched = Some db /\ task_results db = ∅.
Proof.
  assert (task_results <$> database ex_shell_sched = Some ∅) as H by (by vm_compute).
  destruct (database ex_shell_sched) as [db|]; [|done]. exists db. by injection H.
Qed.

Lemma ex_shell_ready :
  swallowed (lib_engine (Library := ex_lib 9) (txCount ex_shell_sched)) = EngineOk /\ testRunID ex_shell_sched = 7.
Proof. by vm_compute. Qed.

(** Two files, one of them in a directory, and one that cannot be read. *)
Definition ex_files : list entry :=
  [File "a.txt" (Ok [1; 2]); File "b.txt" (Err "permission denied"); Dir "sub" (Ok [File "c.txt" (Ok [3])])].

Lemma ex_stored :
  exists w', storeTaskResults (lib := ex_lib 9) (fun _ => None) 2 (Ok [9]) (Ok ex_files) ex_shell_sched = Some w'.
Proof.
  destruct ex_shell_db as (db & Hdb & _). unfold storeTaskResults. rewrite Hdb. eexists. reflexivity.
Qed.

Lemma storeTaskResults_rows_witness :
  exists w' db', storeTaskResults (lib := ex_lib 9) (fun _ => None) 2 (Ok [9]) (Ok ex_files) ex_shell_sched = Some w' /\
    database w' = Some db' /\
    GetTaskResultByIndex 7 2 "result" 0 db' = Some (result_row 7 2 0 "a.txt" [1; 2]) /\
    GetTaskResultByIndex 7 2 "result" 1 db' = None /\
    GetTaskResultByIndex 7 2 "result" 2 db' = Some (result_row 7 2 2 "sub/c.txt" [3]) /\
    GetTaskResultByIndex 7 2 "summary" 0 db' = Some (summary_row 7 2 [9]).
Proof.
  destruct ex_shell_db as (db & Hdb & Hempty). destruct ex_shell_ready as [Heng Hid].
  destruct ex_stored as [w' Hw].
  destruct (storeTaskResults_rows (lib := ex_lib 9) (fun _ => None) 2 (Ok [9]) ex_files ex_shell_sched w' db
    Hdb Heng ltac:(cbn; unfold two64; lia) Hw) as (db' & Hdb' & Hres & Hsum & _).
  rewrite Hid in Hres, Hsum. exists w', db'. split; [done|]. split; [done|].
  rewrite !Hres, Hsum. unfold GetTaskResultByIndex. rewrite Hempty. done.
Defined.

Definition ex_process : process :=
  mkProcess None (String.list_ascii_of_string ("::set-output-json  o []" +:+ String CR (String LF "bye"))) [] None
    (Ok []) (Ok ex_files).
Definition ex_system : system :=
  mkSystem (Ok "/tmp/x") None None None (fun _ _ _ script => if String.eqb script "" then Err "no script" else Ok ex_process).

(** A shell that prints a directive and a line without line feed. *)
Lemma shell_Execute_result_witness :
  exists es w' o, shell_Execute (lib := ex_lib 9) (json := ex_json) (raw := ex_raw) (srcs := ex_sources) (fun _ => None)
      (mkShellConfig "bash" [] ∅ "true") ex_system es 2 ex_shell_sched = Some (w', o) /\
    o = Returned None /\
    GetVar 20 (scopes w') (ctx_Outputs 2 w') "o" = Some (VList []) /\
    option_map (fun db => GetTaskResultByIndex 7 2 "result" 2 db) (database w')
      = Some (Some (result_row 7 2 2 "sub/c.txt" [3])).
Proof.
  destruct (shell_Execute_result (lib := ex_lib 9) (json := ex_json) (raw := ex_raw) (srcs := ex_sources) (fun _ => None)
    (mkShellConfig "bash" [] ∅ "true") ex_system 2 ex_shell_sched "/tmp/x" [] ex_process) as [[es Hes] _];
    [by vm_compute..|].
  eexists es, _, _. split; [rewrite Hes; apply f_equal, surjective_pairing|]. by vm_compute.
Defined.

(** The theorem on directives has no hypothesis; an example of each form. *)
Lemma ex_directives :
  outputVarPattern "::set-var name some value" = Some ("name", "some value") /\
  outputJSONPattern "::set-json n {}" = Some ("n", "{}") /\
  outputOutPattern "::set-output n v" = Some (false, "n", "v") /\
  outputOutPattern "::set-out-json n v" = Some (true, "n", "v") /\
  outputVarPattern " ::set-var name v" = None /\ outputVarPattern "::set-var name" = None.
Proof. by vm_compute. Qed.

(** A carriage return before the line feed, an empty line, and no line feed at
    the end, for a buffer of three bytes. *)
Lemma ex_lines :
  read_lines 3 100 (String.list_ascii_of_string ("ab" +:+ String CR (String LF (String LF "cdefg"))))
    = ["ab"; "cdefg"].
Proof. by vm_compute. Qed.
