(* ===== verification/ExternalTasks.v ===== *)
(** * External tests as tasks

    tasks/run_external_tasks: a task that loads the tasks of another test,
    gives them a variable scope of their own with the test's configuration,
    runs them and then the test's cleanup tasks.  It is a flow task like those
    of TaskFlow.v and keeps the scheduler's contract; fetching and decoding
    the test are the sources of Registry.v. *)

From S2P Require Import Prelude Vars Db Scheduler Execution TaskFlow Tests Registry.

#[local] Open Scope string_scope.
#[local] Open Scope list_scope.
Open Scope Z_scope.

Record ExternalConfig := mkExternalConfig {
  et_TestFile : string; et_TestConfig : gmap string value; et_TestConfigVars : gmap string string;
  et_ExpectFailure : bool; et_IgnoreFailure : bool }.

Definition et_DefaultConfig : ExternalConfig := mkExternalConfig "" ∅ ∅ false false.

Definition et_Validate (c : ExternalConfig) : option error :=
  if bool_decide (et_TestFile c = "") then Some "testFile is missing" else None.

Section external.
Context `{lib : Library} `{raw : RawMessages} `{srcs : !RegistrySources}.

(** [ctx.Err()] of the task's context. *)
Variable ctx_Err : TaskScheduler -> option error.

Variables (et_Unmarshal : value -> ExternalConfig -> result ExternalConfig)
  (et_decode : string -> ExternalConfig -> result ExternalConfig)
  (et_value : ExternalConfig -> value).

(** [loadTestConfig]: the file or URL, decoded. *)
Definition et_loadTestConfig (testFile : string) : result TestConfig :=
  match read_external testFile with
  | Err e => Err e
  | Ok text =>
      match src_Decode text with
      | Err e => Err ("error decoding external test config " +:+ testFile +:+ ": " +:+ e)
      | Ok testConfig => Ok testConfig
      end
  end.

(** The scope of the test: a child of the task's scope, published filtered as
    [childScope], with the test's configuration as defaults, the task's as
    variables, and the variables of the task's scope that the mappings of both
    name (the task's win). *)
Definition et_scope (i : Z) (c : ExternalConfig) (testConfig : TestConfig) (w : TaskScheduler)
    : TaskScheduler * Variables_ref * option error :=
  let '(w, testVars) := new_child_scope i w in
  let w := set_sub_scope (ctx_Outputs i w) "childScope" (NewScopeFilter testVars) w in
  let w := upd_scope_with (set_defaults testVars (cfg_Config testConfig)) w in
  let w := upd_scope_with (set_vars testVars (et_TestConfig c)) w in
  let '(h, err) := copy_vars testVars (ctx_Vars i w) (et_TestConfigVars c ∪ cfg_ConfigVars testConfig) (scopes w) in
  (upd_scopes h w, testVars,
   (fun e => "error decoding external test configVars " +:+ et_TestFile c +:+ ": " +:+ e) <$> err).

(** The loops that create the children. *)
Fixpoint et_create (i : Z) (testVars : Variables_ref) (raws : list RawMessage) (w : TaskScheduler)
    : TaskScheduler * result (list Z) :=
  match raws with
  | [] => (w, Ok [])
  | r :: raws =>
      match Unmarshal_TaskOptions r with
      | Err e => (w, Err e)
      | Ok opts =>
          let '(w, r) := ctx_NewTask i opts (Some testVars) w in
          match r with
          | Err e => (w, Err e)
          | Ok task =>
              let '(w, r) := et_create i testVars raws w in
              (w, match r with Err e => Err e | Ok tasks => Ok (task :: tasks) end)
          end
      end
  end.

(** How the loop over the tasks ends: the context was cancelled, or with
    [resError]. *)
Inductive et_end := Cancelled (e : error) | Finished (resError : option error).

(** The loop over the tasks, [n] of them before. *)
Fixpoint et_children (ex : bool -> Z -> TaskScheduler -> TaskScheduler * option error) (c : ExternalConfig)
    (n : nat) (tasks : list Z) (w : TaskScheduler) : TaskScheduler * et_end :=
  match tasks with
  | [] => (w, Finished None)
  | task :: tasks =>
      match ctx_Err w with
      | Some e => (w, Cancelled e)
      | None =>
          let '(w, err) := ex true task w in
          match err with
          | Some e =>
              if et_IgnoreFailure c then et_children ex c (S n) tasks w
              else (w, Finished (Some ("child task #" +:+ pretty (S n) +:+ " failed: " +:+ e)))
          | None => et_children ex c (S n) tasks w
          end
      end
  end.

(** The loop over the cleanup tasks; [Some] when the context was cancelled. *)
Fixpoint et_cleanup (ex : bool -> Z -> TaskScheduler -> TaskScheduler * option error) (tasks : list Z)
    (w : TaskScheduler) : TaskScheduler * option error :=
  match tasks with
  | [] => (w, None)
  | task :: tasks =>
      match ctx_Err w with
      | Some e => (w, Some e)
      | None => et_cleanup ex tasks (ex true task w).1
      end
  end.

(** The end of [Execute]. *)
Definition et_verdict (c : ExternalConfig) (resError : option error) : option error :=
  if et_ExpectFailure c then
    match resError with None => Some "test should have failed, but succeeded" | Some _ => None end
  else resError.

(** From the creation of the children on. *)
Definition et_run (ex : bool -> Z -> TaskScheduler -> TaskScheduler * option error) (c : ExternalConfig)
    (tasks cleanupTasks : list Z) (w : TaskScheduler) : TaskScheduler * outcome :=
  let '(w, e) := et_children ex c 0 tasks w in
  match e with
  | Cancelled e => (w, Returned (Some e))
  | Finished resError =>
      let '(w, e) := et_cleanup ex cleanupTasks w in
      (w, Returned (match e with Some e => Some e | None => et_verdict c resError end))
  end.

Definition et_Execute (ex : bool -> Z -> TaskScheduler -> TaskScheduler * option error) (i : Z)
    (c : ExternalConfig) (w : TaskScheduler) : TaskScheduler * outcome :=
  match et_loadTestConfig (et_TestFile c) with
  | Err e => (w, Returned (Some e))
  | Ok testConfig =>
      let '(w, testVars, err) := et_scope i c testConfig w in
      match err with
      | Some e => (w, Returned (Some e))
      | None =>
          let '(w, r) := et_create i testVars (cfg_Tasks testConfig) w in
          match r with
          | Err e => (w, Returned (Some e))
          | Ok tasks =>
              let '(w, r) := et_create i testVars (cfg_CleanupTasks testConfig) w in
              match r with
              | Err e => (w, Returned (Some e))
              | Ok cleanupTasks => et_run ex c tasks cleanupTasks w
              end
          end
      end
  end.

Definition et_NewTask (ex : bool -> Z -> TaskScheduler -> TaskScheduler * option error) (i : Z) (opts : TaskOptions)
    : task_instance := fun w =>
  match load_config "run_external_tasks" et_DefaultConfig et_Unmarshal et_decode et_Validate i opts w with
  | Err e => (w, Err e)
  | Ok config => (w, Ok (mkLoadedTask (et_value config) (opt_Timeout opts) (et_Execute ex i config)))
  end.

(** ** The contract with the scheduler *)

Lemma grows_task R i w w' : grows R w w' -> is_Some (taskStateMap w !! i) -> is_Some (taskStateMap w' !! i).
Proof. intros Hg [t Ht]. destruct (gr_task _ _ _ Hg i t Ht) as (? & ? & _). eauto. Qed.

Lemma et_scope_grows i c cfg w : grows no_task_at w (et_scope i c cfg w).1.1.
Proof.
  unfold et_scope. pose proof (grows_new_child_scope no_task_at i w) as H1.
  destruct (new_child_scope i w) as [w1 v]. cbn [fst] in H1. destruct (copy_vars _ _ _ _) as [h err]. cbn [fst].
  etrans; [exact H1|]. etrans; [apply grows_upd_scope_with|]. etrans; [apply grows_upd_scope_with|].
  etrans; [apply grows_upd_scope_with|]. apply grows_same_tree; [apply same_tree_scopes|done].
Qed.

Lemma et_create_ok i v raws w :
  sched_wf w -> is_Some (taskStateMap w !! i) ->
  grows no_task_at w (et_create i v raws w).1 /\
  forall tasks, (et_create i v raws w).2 = Ok tasks -> forall j, j ∈ tasks -> has_parent (et_create i v raws w).1 j.
Proof.
  revert w. induction raws as [|r raws IH]; intros w Hwf Hi; cbn [et_create].
  { split; [done|]. intros tasks [= <-] j Hj. by apply elem_of_nil in Hj. }
  destruct (Unmarshal_TaskOptions r) as [opts|e]; [|by split].
  destruct (ctx_NewTask_ok i opts (Some v) w Hwf Hi) as [Hg Hch].
  destruct (ctx_NewTask i opts (Some v) w) as [w1 [task|e]]; cbn [fst snd] in *; [|by split].
  destruct (IH w1 (gr_wf _ _ _ Hg Hwf) (grows_task _ _ _ _ Hg Hi)) as [Hg2 Hch2].
  destruct (et_create i v raws w1) as [w2 rs]. cbn [fst snd] in *.
  split; [by etrans|]. intros tasks Htasks j Hj. destruct rs as [ts|]; [|done]. injection Htasks as <-.
  apply elem_of_cons in Hj as [->|Hj]; [eapply grows_has_parent; eauto|by eapply Hch2].
Qed.

(** Running one child keeps the contract. *)
Lemma child_grows ex j w : exec_ok ex -> sched_wf w -> has_parent w j -> grows no_task_at w (ex true j w).1.
Proof. intros Hex Hwf Hj. eapply grows_child; [exact Hj|]. by apply Hex. Qed.

Lemma et_children_grows ex c n tasks w :
  exec_ok ex -> sched_wf w -> (forall j, j ∈ tasks -> has_parent w j) ->
  grows no_task_at w (et_children ex c n tasks w).1.
Proof.
  intros Hex. revert n w. induction tasks as [|j tasks IH]; intros n w Hwf Hch; cbn [et_children]; [done|].
  destruct (ctx_Err w); [done|].
  pose proof (child_grows ex j w Hex Hwf ltac:(apply Hch, elem_of_cons; by left)) as H1.
  destruct (ex true j w) as [w1 err]. cbn [fst] in H1.
  assert (forall n, grows no_task_at w (et_children ex c n tasks w1).1) as H2.
  { intros m. etrans; [exact H1|]. apply IH; [exact (gr_wf _ _ _ H1 Hwf)|].
    intros k Hk. eapply grows_has_parent; [exact H1|]. apply Hch, elem_of_cons. by right. }
  destruct err; [destruct (et_IgnoreFailure c)|]; done.
Qed.

Lemma et_cleanup_grows ex tasks w :
  exec_ok ex -> sched_wf w -> (forall j, j ∈ tasks -> has_parent w j) ->
  grows no_task_at w (et_cleanup ex tasks w).1.
Proof.
  intros Hex. revert w. induction tasks as [|j tasks IH]; intros w Hwf Hch; cbn [et_cleanup]; [done|].
  destruct (ctx_Err w); [done|].
  pose proof (child_grows ex j w Hex Hwf ltac:(apply Hch, elem_of_cons; by left)) as H1.
  etrans; [exact H1|]. apply IH; [exact (gr_wf _ _ _ H1 Hwf)|].
  intros k Hk. eapply grows_has_parent; [exact H1|]. apply Hch, elem_of_cons. by right.
Qed.

Lemma et_run_grows ex c tasks cleanupTasks w :
  exec_ok ex -> sched_wf w -> (forall j, j ∈ tasks ++ cleanupTasks -> has_parent w j) ->
  grows no_task_at w (et_run ex c tasks cleanupTasks w).1.
Proof.
  intros Hex Hwf Hch. unfold et_run.
  pose proof (et_children_grows ex c 0 tasks w Hex Hwf ltac:(intros j Hj; apply Hch, elem_of_app; by left)) as H1.
  destruct (et_children ex c 0 tasks w) as [w1 [e|res]]; cbn [fst] in H1; [done|].
  pose proof (et_cleanup_grows ex cleanupTasks w1 Hex (gr_wf _ _ _ H1 Hwf)) as H2.
  destruct (et_cleanup ex cleanupTasks w1) as [w2 e]. cbn [fst] in *. etrans; [exact H1|]. apply H2.
  intros j Hj. eapply grows_has_parent; [exact H1|]. apply Hch, elem_of_app. by right.
Qed.

Lemma et_Execute_grows ex i c w :
  exec_ok ex -> sched_wf w -> is_Some (taskStateMap w !! i) -> grows no_task_at w (et_Execute ex i c w).1.
Proof.
  intros Hex Hwf Hi. unfold et_Execute. destruct (et_loadTestConfig _) as [cfg|e]; [|done].
  pose proof (et_scope_grows i c cfg w) as H1. destruct (et_scope i c cfg w) as [[w1 v] err]. cbn [fst] in H1.
  destruct err; [done|].
  destruct (et_create_ok i v (cfg_Tasks cfg) w1 (gr_wf _ _ _ H1 Hwf) (grows_task _ _ _ _ H1 Hi)) as [H2 Hc2].
  destruct (et_create i v (cfg_Tasks cfg) w1) as [w2 [tasks|e]]; cbn [fst snd] in *; [|by etrans].
  assert (grows no_task_at w w2) as H12 by (by etrans).
  destruct (et_create_ok i v (cfg_CleanupTasks cfg) w2 (gr_wf _ _ _ H12 Hwf) (grows_task _ _ _ _ H12 Hi)) as [H3 Hc3].
  destruct (et_create i v (cfg_CleanupTasks cfg) w2) as [w3 [cleanups|e]]; cbn [fst snd] in *; [|by etrans].
  assert (grows no_task_at w w3) as H13 by (by etrans).
  etrans; [exact H13|]. apply et_run_grows; [done|exact (gr_wf _ _ _ H13 Hwf)|].
  intros j [Hj|Hj]%elem_of_app; [eapply grows_has_parent; [exact H3|by eapply Hc2]|by eapply Hc3].
Qed.

(** External tests keep the scheduler's contract.  Whatever the file and
    the decoders yield, [run_external_tasks] loads and executes by creating and
    running only children of its own in a well-formed scheduler, so it is one of
    the implementations for which the theorems on [ExecuteTask] and [RunTasks]
    hold. *)
Theorem external_keeps_contract ex i opts : exec_ok ex -> instance_ok i (et_NewTask ex i opts).
Proof.
  intros Hex w t Hwf Ht. unfold et_NewTask.
  destruct (load_config _ _ _ _ _ _ _ _) as [c|e]; [|by split].
  split; [done|]. intros inst [= <-] w' Hg' Hwf'. cbn [fst] in Hg'.
  apply et_Execute_grows; [done..|]. eapply grows_task; [exact Hg'|by eexists].
Qed.

(** ** What the task does *)

Definition is_failure (err : option error) : bool := match err with Some _ => true | None => false end.

(** The children [et_children] runs end with the first failure it does not
    ignore. *)
Lemma et_children_spec ex c n tasks w :
  (forall w, ctx_Err w = None) ->
  exists k res, (k <= length tasks)%nat /\
    let r := run_children ex true (take k tasks) w in
    et_children ex c n tasks w = (r.1, Finished res) /\
    is_failure res = negb (et_IgnoreFailure c) && existsb is_failure r.2 /\
    (k = length tasks \/ exists errs e, r.2 = errs ++ [Some e]) /\
    (et_IgnoreFailure c = true -> k = length tasks) /\
    (et_IgnoreFailure c = false -> forall j, (S j < length r.2)%nat -> r.2 !! j = Some None).
Proof.
  intros Hctx. revert n w. induction tasks as [|j tasks IH]; intros n w; cbn [et_children].
  { exists 0%nat, None. cbn. rewrite andb_false_r. split_and!; try done; [by left|intros; lia]. }
  rewrite Hctx. destruct (ex true j w) as [w1 err] eqn:Hex.
  assert (forall k errs, run_children ex true (take k tasks) w1 = errs ->
    run_children ex true (take (S k) (j :: tasks)) w = (errs.1, err :: errs.2)) as Hrun.
  { intros k errs <-. cbn [take run_children]. rewrite Hex. by destruct (run_children ex true (take k tasks) w1). }
  destruct err as [e|].
  - destruct (et_IgnoreFailure c) eqn:Hig.
    + destruct (IH (S n) w1) as (k & res & Hk & Heq & Hres & Hlast & Hall & _).
      exists (S k), res. split; [cbn; lia|]. rewrite (Hrun _ _ eq_refl). cbn zeta in *. cbn [fst snd].
      rewrite Heq. split; [done|]. split; [done|].
      split; [|split; [intros _; cbn; by rewrite Hall|done]].
      left. cbn. by rewrite Hall.
    + exists 1%nat. eexists. split; [cbn; lia|]. rewrite (Hrun 0%nat (w1, []) eq_refl). cbn.
      split; [done|]. split; [done|]. split; [right; by exists [], e|]. split; [done|]. intros _ m Hm.
      cbn in Hm. lia.
  - destruct (IH (S n) w1) as (k & res & Hk & Heq & Hres & Hlast & Hall & Hpre).
    exists (S k), res. split; [cbn; lia|]. rewrite (Hrun _ _ eq_refl). cbn zeta in *. cbn [fst snd existsb is_failure].
    rewrite Heq. split; [done|]. split; [done|]. split.
    { destruct Hlast as [->|(errs & e & ->)]; [by left|]. right. by exists (None :: errs), e. }
    split; [intros H; cbn; by rewrite Hall|]. intros H [|m] Hm; [done|]. cbn [length lookup list_lookup] in *. apply Hpre; [done|]. lia.
Qed.

Lemma et_cleanup_spec ex tasks w :
  (forall w, ctx_Err w = None) -> et_cleanup ex tasks w = ((run_children ex true tasks w).1, None).
Proof.
  intros Hctx. revert w. induction tasks as [|j tasks IH]; intros w; cbn [et_cleanup run_children]; [done|].
  rewrite Hctx, IH. destruct (ex true j w) as [w1 err]. cbn [fst].
  by destruct (run_children ex true tasks w1).
Qed.

(** C9: The verdict of an external test and its cleanup.  While the task's
    context is alive, the tasks run in order up to the first failure
    ([ignoreFailure]: all of them), then every cleanup task runs whatever the
    outcome, and the task returns no error iff the test failed exactly when a
    failure was expected, where ignored failures do not count.  Once the context
    is cancelled no further task is run, the cleanup tasks included. *)
Theorem external_verdict_and_cleanup ex c tasks cleanupTasks :
  ((forall w, ctx_Err w = None) -> forall w,
     exists k, (k <= length tasks)%nat /\
       let r := run_children ex true (take k tasks) w in
       let failed := negb (et_IgnoreFailure c) && existsb is_failure r.2 in
       (et_run ex c tasks cleanupTasks w).1 = (run_children ex true cleanupTasks r.1).1 /\
       ((et_run ex c tasks cleanupTasks w).2 = Returned None <-> et_ExpectFailure c = failed) /\
       (k = length tasks \/ exists errs e, r.2 = errs ++ [Some e]) /\
       (et_IgnoreFailure c = true -> k = length tasks) /\
       (et_IgnoreFailure c = false -> forall j, (S j < length r.2)%nat -> r.2 !! j = Some None)) /\
  (forall w e, ctx_Err w = Some e -> tasks ++ cleanupTasks <> [] ->
     et_run ex c tasks cleanupTasks w = (w, Returned (Some e))).
Proof.
  split.
  - intros Hctx w. destruct (et_children_spec ex c 0 tasks w Hctx) as (k & res & Hk & Heq & Hres & Hlast).
    exists k. split; [done|]. cbn zeta in *. unfold et_run. rewrite Heq, et_cleanup_spec by done. cbn [fst snd].
    split; [done|]. split; [|done]. rewrite <- Hres. unfold et_verdict.
    by destruct (et_ExpectFailure c), res; cbn.
  - intros w e Hctx Hne. unfold et_run. destruct tasks as [|j tasks]; cbn [et_children].
    + destruct cleanupTasks as [|j cl]; [done|]. cbn [et_cleanup]. by rewrite Hctx.
    + by rewrite Hctx.
Qed.

End external.

(** ** Witnesses *)

(** Children that fail when their index is 2. *)
Definition ex_exec (watch : bool) (i : Z) (w : TaskScheduler) : TaskScheduler * option error :=
  (set_var (Ref 0) "last" (VInt i) w, if i =? 2 then Some "boom" else None).

(** The second of three children fails: the third is left out, both cleanup
    tasks run, and the failure was expected. *)
Lemma external_verdict_and_cleanup_witness :
  exists k, (k <= 3)%nat /\
    (et_run (fun _ => None) ex_exec (mkExternalConfig "f" ∅ ∅ true false) [1; 2; 3] [4; 5] ex_sched).1 =
      (run_children ex_exec true [4; 5] (run_children ex_exec true (take k [1; 2; 3]) ex_sched).1).1.
Proof.
  destruct (proj1 (external_verdict_and_cleanup (fun _ => None) ex_exec (mkExternalConfig "f" ∅ ∅ true false) [1; 2; 3] [4; 5])
    (fun _ => eq_refl) ex_sched) as (k & Hk & Heq & _).
  exists k. split; [exact Hk|exact Heq].
Defined.

Example ex_external_run :
  (et_run (fun _ => None) ex_exec (mkExternalConfig "f" ∅ ∅ true false) [1; 2; 3] [4; 5] ex_sched).2 = Returned None.
Proof. by vm_compute. Qed.

#[local] Existing Instance ex_raw.
#[local] Existing Instance ex_sources.

Lemma ex_exec_ok : exec_ok ex_exec.
Proof. intros watch i w Hwf. apply grows_set_var. Qed.

Lemma external_keeps_contract_witness :
  instance_ok 1 (et_NewTask (lib := ex_lib 9) (fun _ => None) (fun _ c => Ok c) (fun _ c => Ok c) (fun _ => VNil) ex_exec 1
    (ex_opts "run_external_tasks" "")).
Proof. apply external_keeps_contract, ex_exec_ok. Defined.
