(* ===== verification/ScopeGraph.v ===== *)
(** * The graph of the variable scopes of a test

    pkg/coordinator/vars reads variables by recursion through parents and sub
    scopes and has no guard against cycles.  The graph of a test does have
    cycles of pointers: the outputs of a task hold the scope of its children,
    whose parent is the scope of the task, in which the outputs are registered
    again.  That the reads end all the same is a property of how
    scheduler/task_state.go and the flow tasks build the graph.  Here every
    scope gets a role, [heap_shape] says which roles may point to which, the
    operations of Scheduler.v, Execution.v, TaskFlow.v and ExternalTasks.v are
    shown to keep that shape ([keeps]), and the shape makes the graph of reads
    well founded.  The operations only mean what they do on a state of one
    test; the scopes of the registry it starts from are those of
    [registry_scopes]. *)

From S2P Require Import Prelude Vars Db Scheduler Execution TaskFlow Tests Registry ExternalTasks.

#[local] Open Scope string_scope.
#[local] Open Scope list_scope.
Open Scope Z_scope.

(** ** Roles and shape *)

(** A scope of variables; the [tasks] sub scope of the scope [owner]; the
    status of a task with the scope [outputs]; the outputs of a task; the
    scopes of the children of a task, published with its outputs or not. *)
Inductive role := RScope | RTasks (owner : nat) | RStatus (outputs : nat) | ROutputs | RChildren | RDetached.

Notation roles := (gmap nat role).

(** The pointers a scope at [l] with a role may have. *)
Definition parent_ok (K : roles) (l : nat) (r : role) (p : Variables_ref) : Prop :=
  match r with
  | RScope => exists q, p = Ref q /\ K !! q = Some RScope /\ (q < l)%nat
  | RTasks o => exists q o', p = Ref q /\ K !! q = Some (RTasks o') /\ (o' < o)%nat
  | _ => False
  end.

Definition sub_ok (K : roles) (l : nat) (r : role) (sub : Variables_ref) : Prop :=
  match r with
  | RScope => exists t, sub = Ref t /\ K !! t = Some (RTasks l)
  | RTasks o => exists s u, sub = Ref s /\ K !! s = Some (RStatus u) /\ (o < u)%nat
  | RStatus u => sub = Ref u /\ K !! u = Some ROutputs
  | ROutputs => (exists m, sub = Ref m /\ K !! m = Some RChildren /\ (l < m)%nat) \/
                (exists c, sub = ScopeFilter (Ref c) /\ K !! c = Some RScope /\ (l < c)%nat)
  | RChildren => exists c, sub = ScopeFilter (Ref c) /\ K !! c = Some RScope /\ (l < c)%nat
  | RDetached => exists c, sub = ScopeFilter (Ref c) /\ K !! c = Some RScope
  end.

(** The scopes a role names are older. *)
Definition role_ok (l : nat) (r : role) : Prop :=
  match r with RTasks o => (o < l)%nat | RStatus u => (u < l)%nat | _ => True end.

Record heap_shape (K : roles) (h : heap) : Prop := {
  hs_wf : heap_wf h;
  hs_dom : forall l, is_Some (K !! l) <-> is_Some (cells h !! l);
  hs_role : forall l r, K !! l = Some r -> role_ok l r;
  hs_parent : forall l r s p, K !! l = Some r -> cells h !! l = Some s -> parentScope s = Some p -> parent_ok K l r p;
  hs_sub : forall l r s name sub, K !! l = Some r -> cells h !! l = Some s -> subScopes s !! name = Some sub ->
    sub_ok K l r sub
}.

(** ** Reads are well founded *)

(** Reading with [skipParent] only goes down, to scopes of higher rank. *)
Definition rank (l : nat) (r : role) : nat :=
  match r with
  | RScope => 4 * l + 1
  | RTasks o => 4 * o + 2
  | RStatus u => 4 * u + 3
  | ROutputs => 4 * l + 4
  | RChildren => 4 * l + 1
  | RDetached => 0
  end.

(** Reading with the parents goes down to a lower level, or up within one. *)
Definition level (r : role) : nat :=
  match r with RScope => 4 | RTasks _ => 3 | RStatus _ => 2 | ROutputs => 1 | _ => 0 end.

Lemma rank_bound K h l r : heap_shape K h -> K !! l = Some r -> (rank l r < 4 * next h + 5)%nat.
Proof.
  intros Hs Hl. pose proof (hs_role _ _ Hs _ _ Hl) as Hr.
  assert (l < next h)%nat as Hlt by (apply (hs_wf _ _ Hs), (hs_dom _ _ Hs); eauto).
  destruct r; cbn in *; lia.
Qed.

Lemma sub_rank K l r sub :
  sub_ok K l r sub -> exists r', K !! target sub = Some r' /\ (rank l r < rank (target sub) r')%nat /\
    ((level r' < level r)%nat \/ exists v, sub = ScopeFilter v).
Proof.
  destruct r; cbn.
  - intros (t & -> & Ht). eexists. split; [exact Ht|]. cbn. split; [lia|left; lia].
  - intros (s & u & -> & Hs & Hu). eexists. split; [exact Hs|]. cbn. split; [lia|left; lia].
  - intros [-> Hu]. eexists. split; [exact Hu|]. cbn. split; [lia|left; lia].
  - intros [(m & -> & Hm & Hl)|(c & -> & Hc & Hl)]; (eexists; split; [done|]); cbn; (split; [lia|]); [left; lia|eauto].
  - intros (c & -> & Hc & Hl). eexists. split; [exact Hc|]. cbn. split; [lia|eauto].
  - intros (c & -> & Hc). eexists. split; [exact Hc|]. cbn. split; [lia|eauto].
Qed.

Lemma parent_rank K l r p :
  parent_ok K l r p -> exists q r', p = Ref q /\ K !! q = Some r' /\ (rank q r' < rank l r)%nat /\ level r' = level r.
Proof.
  destruct r; cbn; try done.
  - intros (q & -> & Hq & ?). exists q, RScope. cbn. split_and!; [done..|lia|done].
  - intros (q & o' & -> & Hq & ?). exists q, (RTasks o'). cbn. split_and!; [done..|lia|done].
Qed.

(** A scope that is not allocated reads nothing. *)
Lemma unallocated_acc K h v skip : heap_shape K h -> K !! target v = None -> Acc (reads h) (v, skip).
Proof.
  intros Hs. revert skip. induction v as [l|v IH]; intros skip Hv; cbn in Hv; constructor; intros [v' skip'] Hr.
  - assert (forall s, cells h !! l <> Some s) as Hn.
    { intros s Hl. destruct (proj2 (hs_dom _ _ Hs l) ltac:(by eexists)) as [r ?]. congruence. }
    inversion Hr; subst; exfalso; by eapply Hn.
  - inversion Hr; subst. by apply IH.
Qed.

Lemma filtered_acc K h : heap_shape K h -> forall v, Acc (reads h) (v, true).
Proof.
  intros Hs. assert (forall n v r, K !! target v = Some r -> (4 * next h + 5 - rank (target v) r < n)%nat ->
    Acc (reads h) (v, true)) as H.
  { induction n as [|n IH]; [lia|]. intros v. induction v as [l|v IHv]; intros r Hr Hn; constructor; intros [v' skip'] Hv.
    - inversion Hv as [|l' s name sub ? Hl Hsub|]; subst. cbn in Hr, Hn.
      destruct (sub_rank _ _ _ _ (hs_sub _ _ Hs _ _ _ _ _ Hr Hl Hsub)) as (r' & Hr' & Hlt & _).
      apply (IH v' r' Hr'). pose proof (rank_bound _ _ _ _ Hs Hr'). lia.
    - inversion Hv; subst. by apply (IHv r). }
  intros v. destruct (K !! target v) as [r|] eqn:Hr; [|by eapply unallocated_acc].
  by apply (H (S (4 * next h + 5 - rank (target v) r)) v r); [|lia].
Qed.

Lemma shape_acc K h : heap_shape K h -> forall v skip, Acc (reads h) (v, skip).
Proof.
  intros Hs v [|]; [by eapply filtered_acc|].
  assert (forall v, Acc (reads h) (ScopeFilter v, false)) as Hf.
  { intros v'. constructor. intros [v2 skip2] Hv. inversion Hv; subst. by eapply filtered_acc. }
  assert (forall k n l r, K !! l = Some r -> (level r <= k)%nat -> (rank l r < n)%nat -> Acc (reads h) (Ref l, false)) as H.
  { induction k as [k IHk] using lt_wf_ind. induction n as [|n IHn]; [lia|]. intros l r Hr Hk Hn.
    constructor. intros [v' skip'] Hv. inversion Hv as [|l' s name sub ? Hl Hsub|l' s p Hl Hp]; subst.
    - destruct (sub_rank _ _ _ _ (hs_sub _ _ Hs _ _ _ _ _ Hr Hl Hsub)) as (r' & Hr' & _ & [Hlt|[v2 ->]]); [|apply Hf].
      destruct v' as [l'|v2]; [|apply Hf]. apply (IHk (level r') ltac:(lia) (S (rank l' r')) l' r'); [done|lia|lia].
    - destruct (parent_rank _ _ _ _ (hs_parent _ _ Hs _ _ _ _ Hr Hl Hp)) as (q & r' & -> & Hr' & Hlt & Hlv).
      apply (IHn q r'); [done|lia|lia]. }
  destruct v as [l|v]; [|apply Hf]. destruct (K !! l) as [r|] eqn:Hr; [|by eapply unallocated_acc].
  by apply (H (level r) (S (rank l r)) l r); [|lia..].
Qed.

(** Parents lead to a root without a filter. *)
Lemma shape_chain K h l : heap_shape K h -> is_Some (cells h !! l) -> exists ss, chain h (Ref l) ss.
Proof.
  intros Hs Hl. apply (hs_dom _ _ Hs) in Hl as [r Hr]. remember (rank l r) as n eqn:Hn. revert l r Hr Hn.
  induction n as [n IH] using lt_wf_ind. intros l r Hr ->.
  destruct (proj1 (hs_dom _ _ Hs l) ltac:(by eexists)) as [s Hl].
  destruct (parentScope s) as [p|] eqn:Hp; [|eexists; by apply chain_root].
  destruct (parent_rank _ _ _ _ (hs_parent _ _ Hs _ _ _ _ Hr Hl Hp)) as (q & r' & -> & Hr' & Hlt & _).
  destruct (IH _ Hlt q r' Hr' eq_refl) as [ss Hss]. eexists. by eapply chain_child.
Qed.

(** ** What keeps the shape *)

Lemma parent_ok_mono K K' l r p : K ⊆ K' -> parent_ok K l r p -> parent_ok K' l r p.
Proof.
  intros HK. destruct r; cbn; try done.
  - intros (q & ? & Hq & ?). exists q. split_and!; [done|by eapply lookup_weaken|done].
  - intros (q & o' & ? & Hq & ?). exists q, o'. split_and!; [done|by eapply lookup_weaken|done].
Qed.

Lemma sub_ok_mono K K' l r sub : K ⊆ K' -> sub_ok K l r sub -> sub_ok K' l r sub.
Proof.
  intros HK. assert (forall x y, K !! x = Some y -> K' !! x = Some y) as Hw by (intros x y Hx; by eapply lookup_weaken).
  destruct r; cbn; naive_solver.
Qed.

(** Writing variables. *)
Lemma shape_write K h f v :
  heap_shape K h -> (forall s, parentScope (f s) = parentScope s /\ subScopes (f s) = subScopes s) ->
  heap_wf (update_scope f v h) -> heap_shape K (update_scope f v h).
Proof.
  intros [Hwf Hd Hr Hp Hs] Hf Hwf'.
  assert (forall l s, cells (update_scope f v h) !! l = Some s ->
    exists s0, cells h !! l = Some s0 /\ parentScope s = parentScope s0 /\ subScopes s = subScopes s0) as Hc.
  { intros l s. unfold update_scope. cbn [cells]. destruct (decide (target v = l)) as [<-|Hne].
    - rewrite lookup_alter_eq, fmap_Some. intros (s0 & Hs0 & ->). exists s0. split; [done|apply Hf].
    - rewrite lookup_alter_ne by done. intros Hs0. by exists s. }
  split; [done| |done| |].
  - intros l. rewrite Hd. unfold update_scope. cbn [cells]. by rewrite lookup_alter_is_Some.
  - intros l r s p Hl Hcl Hps. destruct (Hc _ _ Hcl) as (s0 & Hs0 & Ep & _). rewrite Ep in Hps. by eapply Hp.
  - intros l r s name sub Hl Hcl Hss. destruct (Hc _ _ Hcl) as (s0 & Hs0 & _ & Es). rewrite Es in Hss. by eapply Hs.
Qed.

Lemma shape_SetVar K h v name x : heap_shape K h -> heap_shape K (SetVar v name x h).
Proof. intros Hs. apply shape_write; [done|done|]. apply (vars_step_wf h); [constructor|apply Hs]. Qed.

Lemma shape_SetDefaultVar K h v name x : heap_shape K h -> heap_shape K (SetDefaultVar v name x h).
Proof. intros Hs. apply shape_write; [done|done|]. apply (vars_step_wf h); [constructor|apply Hs]. Qed.

(** Allocating a scope with a role. *)
Lemma shape_new K h r parent :
  heap_shape K h -> role_ok (next h) r -> (forall p, parent = Some p -> parent_ok K (next h) r p) ->
  K ⊆ <[next h := r]> K /\ heap_shape (<[next h := r]> K) (NewVariables parent h).1 /\ K !! next h = None.
Proof.
  intros [Hwf Hd Hr Hp Hs] Hrole Hpar.
  assert (K !! next h = None) as Hfresh.
  { destruct (K !! next h) as [r0|] eqn:E; [|done]. pose proof (proj1 Hwf (next h) (proj1 (Hd _) ltac:(by eexists))). lia. }
  assert (K ⊆ <[next h := r]> K) as HK by by apply insert_subseteq.
  split; [done|]. split; [|done]. unfold NewVariables. cbn [fst]. split; cbn [cells].
  - apply (vars_step_wf h ((NewVariables parent h).1)); [|done]. constructor. intros p ->. specialize (Hpar p eq_refl).
    apply Hd. destruct r; cbn in Hpar; try done; naive_solver.
  - intros l. destruct (decide (next h = l)) as [<-|Hne]; [rewrite (lookup_insert_eq K), (lookup_insert_eq (cells h)); split; intros _; by eexists|].
    rewrite (lookup_insert_ne K), (lookup_insert_ne (cells h)) by done. apply Hd.
  - intros l r' [[<- <-]|[_ Hl]]%lookup_insert_Some; [done|by apply Hr].
  - intros l r' s p [[<- <-]|[Hne Hl]]%lookup_insert_Some.
    + rewrite lookup_insert_eq. intros [= <-]. cbn. intros ->. eapply parent_ok_mono; [done|by apply Hpar].
    + rewrite lookup_insert_ne by done. intros Hc Hps. eapply parent_ok_mono; [done|by eapply Hp].
  - intros l r' s name sub [[<- <-]|[Hne Hl]]%lookup_insert_Some.
    + rewrite lookup_insert_eq. intros [= <-]. cbn. by rewrite lookup_empty.
    + rewrite lookup_insert_ne by done. intros Hc Hss. eapply sub_ok_mono; [done|by eapply Hs].
Qed.

(** Linking a sub scope that the role allows. *)
Lemma shape_link K h l r name sub :
  heap_shape K h -> K !! l = Some r -> sub_ok K l r sub -> heap_shape K (SetSubScope (Ref l) name sub h).
Proof.
  intros [Hwf Hd Hr Hp Hs] Hl Hsub. unfold SetSubScope, update_scope. cbn [target]. split; cbn [cells].
  - apply (vars_step_wf h (SetSubScope (Ref l) name sub h)); [|done]. constructor. apply Hd.
    destruct (sub_rank _ _ _ _ Hsub) as (r' & Hr' & _). eauto.
  - intros l'. rewrite Hd. by rewrite lookup_alter_is_Some.
  - done.
  - intros l' r' s p Hl'. destruct (decide (l = l')) as [<-|Hne].
    + rewrite lookup_alter_eq, fmap_Some. intros (s0 & Hs0 & ->). cbn. by eapply Hp.
    + rewrite lookup_alter_ne by done. by eapply Hp.
  - intros l' r' s name' sub' Hl'. destruct (decide (l = l')) as [<-|Hne].
    + rewrite lookup_alter_eq, fmap_Some. intros (s0 & Hs0 & ->). cbn.
      intros [[_ <-]|[_ Hss]]%lookup_insert_Some; [by simplify_eq|by eapply Hs].
    + rewrite lookup_alter_ne by done. by eapply Hs.
Qed.

(** [GetSubScope] on a scope finds or creates its [tasks] scope, and those of
    its parents. *)
Lemma shape_GetSubScope n K h l name h' sub :
  heap_shape K h -> K !! l = Some RScope -> GetSubScope n (Ref l) name h = Some (h', sub) ->
  exists K' t, K ⊆ K' /\ heap_shape K' h' /\ sub = Ref t /\ K' !! t = Some (RTasks l).
Proof.
  revert K h l h' sub. induction n as [|n IH]; intros K h l h' sub Hs Hl H; [done|]. cbn [GetSubScope] in H.
  destruct (cells h !! l) as [s|] eqn:Hc; cbn [mbind option_bind] in H; [|done].
  assert (exists h1 ps K1, match parentScope s with
    | Some p => '(h1, ps) ← GetSubScope n p name h; Some (h1, Some ps)
    | None => Some (h, None) end = Some (h1, ps) /\ K ⊆ K1 /\ heap_shape K1 h1 /\
    (forall p, ps = Some p -> exists q o, p = Ref q /\ K1 !! q = Some (RTasks o) /\ (o < l)%nat)) as (h1 & ps & K1 & E & HK & Hs1 & Hps).
  { destruct (parentScope s) as [p|] eqn:Hp; [|by exists h, None, K].
    destruct (hs_parent _ _ Hs _ _ _ _ Hl Hc Hp) as (q & -> & Hq & Hlt).
    destruct (GetSubScope n (Ref q) name h) as [[h1 ps]|] eqn:Hg; cbn in H; [|done].
    destruct (IH _ _ _ _ _ Hs Hq Hg) as (K1 & t & HK & Hs1 & -> & Ht). exists h1, (Some (Ref t)), K1.
    split_and!; try done. intros p [= <-]. eauto. }
  rewrite E in H. clear E. cbn [mbind option_bind] in H.
  destruct (cells h1 !! l) as [s1|] eqn:Hc1; cbn [mbind option_bind] in H; [|done].
  assert (K1 !! l = Some RScope) as Hl1 by (by eapply lookup_weaken).
  destruct (subScopes s1 !! name) as [sub'|] eqn:Hsub; [simplify_eq|].
  - destruct (hs_sub _ _ Hs1 _ _ _ _ _ Hl1 Hc1 Hsub) as (t & -> & Ht). eauto 10.
  - assert (l < next h1)%nat as Hlt by (apply (hs_wf _ _ Hs1); eauto).
    destruct (shape_new K1 h1 (RTasks l) ps Hs1 Hlt) as (HK2 & Hs2 & Hf).
    { intros p Hp. destruct (Hps p Hp) as (q & o & -> & Hq & Ho). cbn. eauto. }
    cbn [NewVariables] in H. simplify_eq. exists (<[next h1 := RTasks l]> K1), (next h1).
    split_and!; [by etrans| |done|by rewrite lookup_insert_eq].
    apply (shape_link _ _ l RScope); [done|by eapply lookup_weaken|]. cbn. exists (next h1).
    by rewrite lookup_insert_eq.
Qed.

(** ** States of a test *)

Definition scope_ref (K : roles) (v : Variables_ref) : Prop := exists l, v = Ref l /\ K !! l = Some RScope.
Definition outputs_ref (K : roles) (v : Variables_ref) : Prop := exists l, v = Ref l /\ K !! l = Some ROutputs.

Lemma scope_ref_mono K K' v : K ⊆ K' -> scope_ref K v -> scope_ref K' v.
Proof. intros HK (l & ? & Hl). exists l. split; [done|by eapply lookup_weaken]. Qed.

Lemma outputs_ref_mono K K' v : K ⊆ K' -> outputs_ref K v -> outputs_ref K' v.
Proof. intros HK (l & ? & Hl). exists l. split; [done|by eapply lookup_weaken]. Qed.

Definition links (t : taskState) : Variables_ref * Variables_ref := (taskVars t, taskOutputs t).

Record shaped (K : roles) (w : TaskScheduler) : Prop := {
  sh_heap : heap_shape K (scopes w);
  sh_root : scope_ref K (rootVars w);
  sh_tasks : forall i t, taskStateMap w !! i = Some t -> scope_ref K (taskVars t) /\ outputs_ref K (taskOutputs t);
  sh_count : forall i, is_Some (taskStateMap w !! i) -> i <= taskCount w
}.

(** From a state of shape [K] to [w']: every task stays with its scopes, and
    the shape of [w'] extends [K]. *)
Definition same_links (w w' : TaskScheduler) : Prop :=
  forall i t, taskStateMap w !! i = Some t -> exists t', taskStateMap w' !! i = Some t' /\ links t' = links t.

Definition kept (K : roles) (w w' : TaskScheduler) : Prop :=
  same_links w w' /\
  exists K', K ⊆ K' /\ shaped K' w'.

#[export] Instance same_links_preorder : PreOrder same_links.
Proof.
  split; [intros w i t; eauto|]. intros w1 w2 w3 H1 H2 i t Ht.
  destruct (H1 i t Ht) as (t2 & Ht2 & <-). by apply H2.
Qed.

Lemma kept_refl K w : shaped K w -> kept K w w.
Proof. intros Hs. split; [done|]. by exists K. Qed.

Lemma kept_trans K w1 w2 w3 :
  kept K w1 w2 -> (forall K', K ⊆ K' -> shaped K' w2 -> kept K' w2 w3) -> kept K w1 w3.
Proof.
  intros [H1 (K1 & HK & Hs)] H2. destruct (H2 K1 HK Hs) as [H3 (K2 & HK2 & Hs2)].
  split; [by etrans|]. exists K2. split; [by etrans|done].
Qed.

Lemma kept_ext K K' w w1 w2 :
  K ⊆ K' -> taskStateMap w1 = taskStateMap w -> kept K' w1 w2 -> kept K w w2.
Proof.
  intros HK Em [H1 (K2 & HK2 & Hs2)]. unfold same_links in H1. rewrite Em in H1. split; [done|]. exists K2. split; [by etrans|done].
Qed.

Lemma kept_shaped K w w' : taskStateMap w' = taskStateMap w -> shaped K w' -> kept K w w'.
Proof. intros Em Hs. eapply kept_ext; [done|exact Em|by apply kept_refl]. Qed.

(** What every operation guarantees. *)
Definition keeps (w w' : TaskScheduler) : Prop := forall K, shaped K w -> kept K w w'.

#[export] Instance keeps_preorder : PreOrder keeps.
Proof.
  split; [intros w K; apply kept_refl|]. intros w1 w2 w3 H1 H2 K Hs. eapply kept_trans; [by apply H1|].
  intros K' _. apply H2.
Qed.

(** Operations that write variables and the status of tasks. *)
Record quiet (w w' : TaskScheduler) : Prop := {
  qt_root : rootVars w' = rootVars w;
  qt_count : taskCount w' = taskCount w;
  qt_tasks : forall i, links <$> taskStateMap w' !! i = links <$> taskStateMap w !! i;
  qt_heap : forall K, heap_shape K (scopes w) -> heap_shape K (scopes w')
}.

#[export] Instance quiet_preorder : PreOrder quiet.
Proof.
  split; [by split|]. intros w1 w2 w3 [H1 H0 H2 H3] [H4 H7 H5 H6].
  split; [congruence|congruence| |auto]. intros i. by rewrite H5.
Qed.

Lemma quiet_links w w' : quiet w w' -> same_links w w'.
Proof.
  intros Hq i t Ht. pose proof (qt_tasks _ _ Hq i) as H. rewrite Ht in H.
  destruct (taskStateMap w' !! i) as [t'|]; [|done]. exists t'. split; [done|]. cbn in H. congruence.
Qed.

Lemma quiet_shaped K w w' : quiet w w' -> shaped K w -> shaped K w'.
Proof.
  intros [H1 H0 H2 H3] [Hh Hr Ht Hc]. split; [by apply H3|by rewrite H1| |].
  - intros i t' Ht'. specialize (H2 i). rewrite Ht' in H2. destruct (taskStateMap w !! i) as [t|] eqn:E; [|done].
    cbn in H2. injection H2 as -> ->. by apply (Ht i).
  - intros i [t' Ht']. rewrite H0. apply Hc. specialize (H2 i). rewrite Ht' in H2. by destruct (taskStateMap w !! i).
Qed.

Lemma kept_quiet w w' : quiet w w' -> keeps w w'.
Proof. intros Hq K Hs. split; [by apply quiet_links|]. exists K. split; [done|by eapply quiet_shaped]. Qed.

Lemma quiet_update i f w : (forall t, links (f t) = links t) -> quiet w (update_task i f w).
Proof.
  intros Hf. split; [done|done| |done]. intros j. cbn. rewrite lookup_alter. case_decide as E; [subst j|done].
  destruct (taskStateMap w !! i); cbn; [by rewrite Hf|done].
Qed.

Lemma quiet_heap h w : (forall K, heap_shape K (scopes w) -> heap_shape K h) -> quiet w (upd_scopes h w).
Proof. intros Hh. by split. Qed.

Section operations.
Context `{lib : Library} `{envm : Environment}.

Lemma quiet_set_var v name x w : quiet w (set_var v name x w).
Proof. apply quiet_heap. intros K. apply shape_SetVar. Qed.

Lemma quiet_run_transaction handler db w : quiet w (run_transaction handler db w).1.
Proof. unfold run_transaction. by destruct (RunTransaction _ _ _) as [db' err]. Qed.

Lemma quiet_updateTaskState i w : quiet w (updateTaskState i w).1.
Proof.
  unfold updateTaskState. destruct (getTaskState i w) as [t|]; [|done].
  destruct (dbTaskState t) as [row|]; [|done].
  destruct (lib_yaml_Marshal (Config_of t)); [|by apply quiet_update].
  destruct (lib_yaml_Marshal (VMap _)); [|by apply quiet_update].
  destruct (changed_row _ _ _ _ _) as [row' changed].
  assert (quiet w (update_task i (set_dbTaskState (Some row')) w)) as Hq by by apply quiet_update.
  destruct changed; [done|]. cbn. destruct (database w); [|done].
  etrans; [exact Hq|]. apply quiet_run_transaction.
Qed.

Lemma quiet_setTaskResult i r upd w : quiet w (setTaskResult i r upd w).
Proof.
  unfold setTaskResult. destruct (getTaskState i w) as [t|]; [|done].
  set (w0 := if upd then _ else w).
  assert (quiet w w0) as H0 by (unfold w0; destruct upd; [by apply quiet_update|done]). case_decide; [done|].
  set (w3 := (updateTaskState i _).1). assert (quiet w w3) as H3.
  { etrans; [exact H0|]. etrans; [by apply (quiet_update i (set_taskResult r))|].
    etrans; [apply quiet_set_var|]. apply quiet_updateTaskState. }
  destruct (resultNotifyChan t) as [c|]; [|done].
  etrans; [exact H3|]. etrans; [by apply (quiet_update i (set_resultNotifyChan None))|]. by split.
Qed.

Lemma quiet_GetTaskResultUpdateChan i r w : quiet w (GetTaskResultUpdateChan i r w).1.
Proof.
  unfold GetTaskResultUpdateChan. destruct (getTaskState i w) as [t|]; [|done].
  case_decide; [|done]. destruct (resultNotifyChan t); [done|]. cbn.
  etrans; [by apply (quiet_update i (set_resultNotifyChan (Some (nextChan w))))|]. by split.
Qed.

Lemma quiet_start i w : quiet w (start_task i w).
Proof.
  unfold start_task, time_Now. cbv beta iota zeta. etrans; [|apply quiet_updateTaskState].
  etrans; [|apply quiet_set_var]. etrans; [|apply quiet_set_var].
  transitivity (upd_clock (S (clock w)) w); [by split|by apply quiet_update].
Qed.

Lemma quiet_finish i w : quiet w (finish_task i w).
Proof.
  unfold finish_task, time_Now. cbv beta iota zeta. etrans; [|apply quiet_updateTaskState].
  etrans; [|apply quiet_set_var]. transitivity (upd_clock (S (clock w)) w); [by split|by apply quiet_update].
Qed.

Lemma quiet_fire_timer i z w : quiet w (fire_timer i z w).
Proof.
  unfold fire_timer. destruct (_ && _); [|done]. etrans; [by apply (quiet_update i (set_isTimeout true))|].
  apply quiet_set_var.
Qed.

Lemma quiet_conclude i err w : quiet w (conclude_task i err w).1.
Proof.
  unfold conclude_task. set (w0 := match err with Some _ => _ | None => _ end).
  assert (quiet w w0) as H0.
  { unfold w0. destruct err; [|done]. apply quiet_update. intros t. by destruct (taskError t). }
  destruct (getTaskState i w0) as [t|]; [|done]. etrans; [exact H0|].
  set (w1 := if _ || _ then _ else _).
  assert (quiet w0 w1) as H1 by (unfold w1; destruct (_ || _); [apply quiet_setTaskResult|done]).
  destruct (getTaskState i w1) as [t'|]; [|done]. by case_decide.
Qed.

Lemma quiet_recover i perr w : quiet w (recover_panic i perr w).1.
Proof.
  unfold recover_panic. cbn [fst]. etrans; [|apply quiet_setTaskResult]. destruct perr; [|done]. by apply quiet_update.
Qed.

(** *** Creating a task *)

Lemma next_above K h l : heap_shape K h -> is_Some (K !! l) -> (l < next h)%nat.
Proof. intros Hs Hl. by apply (hs_wf _ _ Hs), (hs_dom _ _ Hs). Qed.

(** The two scopes of a task and their registration in the scope [l]. *)
Lemma task_scopes_shape K h l id :
  heap_shape K h -> K !! l = Some RScope ->
  let '(h1, outputs) := NewVariables None h in
  let '(h2, statusVars) := NewVariables None h1 in
  let h3 := SetSubScope statusVars "outputs" outputs h2 in
  let h4 := if String.eqb id "" then h3
            else match GetSubScope lib_depth (Ref l) "tasks" h3 with
                 | Some (h', tasksScope) => SetSubScope tasksScope id statusVars h'
                 | None => h3
                 end in
  exists K', K ⊆ K' /\ heap_shape K' h4 /\ outputs_ref K' outputs.
Proof.
  intros Hs Hl. pose proof (next_above _ _ _ Hs ltac:(by eexists)) as Hlt.
  destruct (shape_new K h ROutputs None Hs I ltac:(done)) as (HK1 & Hs1 & _).
  set (K1 := <[next h := ROutputs]> K) in *. set (h1 := (NewVariables None h).1) in *.
  destruct (shape_new K1 h1 (RStatus (next h)) None Hs1 ltac:(cbn; lia) ltac:(done)) as (HK2 & Hs2 & Hf2).
  set (K2 := <[next h1 := RStatus (next h)]> K1) in *.
  assert (K2 !! next h1 = Some (RStatus (next h))) as Hst by (unfold K2; apply lookup_insert_eq).
  assert (K2 !! next h = Some ROutputs) as Hout by (eapply lookup_weaken; [|exact HK2]; apply lookup_insert_eq).
  pose proof (shape_link K2 _ (next h1) (RStatus (next h)) "outputs" (Ref (next h)) Hs2 Hst (conj eq_refl Hout)) as Hs3.
  change (NewVariables None h) with (h1, Ref (next h)). cbn [NewVariables].
  change (mkHeap _ _) with (NewVariables None h1).1 at 1. set (h3 := SetSubScope (Ref (next h1)) "outputs" (Ref (next h)) _) in *.
  assert (K ⊆ K2) as HK by by etrans.
  cbv zeta. destruct (String.eqb id ""); [exists K2; split_and!; [done|done|by eexists]|].
  destruct (GetSubScope lib_depth (Ref l) "tasks" h3) as [[h' t]|] eqn:Hg; [|exists K2; split_and!; [done|done|by eexists]].
  destruct (shape_GetSubScope _ K2 h3 l "tasks" h' t Hs3 ltac:(by eapply lookup_weaken) Hg) as (K3 & t' & HK3 & Hs4 & -> & Ht').
  exists K3. split; [by etrans|]. split.
  - apply (shape_link _ _ _ (RTasks l)); [done|done|]. exists (next h1), (next h).
    split; [done|]. split; [by eapply lookup_weaken|done].
  - exists (next h). split; [done|by eapply lookup_weaken].
Qed.

Lemma newTaskState_grown K opts parent vars cleanup w :
  shaped K w -> (forall v, vars = Some v -> scope_ref K v) ->
  exists K', K ⊆ K' /\ shaped K' (newTaskState opts parent vars cleanup w).1.
Proof.
  intros [Hh Hr Ht Hcnt] Hv. unfold newTaskState. set (v := match vars with Some v => v | None => _ end).
  assert (scope_ref K v) as (l & El & Hl).
  { unfold v. destruct vars as [v0|]; [by apply Hv|]. destruct (parent ≫= _) as [p|] eqn:Hp; [|done].
    destruct parent as [i|]; cbn in Hp; [|done]. by destruct (Ht _ _ Hp). }
  destruct (GetTaskDescriptor _) as [desc|]; [|by exists K]. rewrite El. clearbody v. subst v.
  pose proof (task_scopes_shape K (scopes w) l (opt_ID opts) Hh Hl) as Hsc.
  destruct (NewVariables None (scopes w)) as [h1 o]. destruct (NewVariables None h1) as [h2 st].
  cbv zeta in Hsc |- *. set (h4 := if String.eqb _ _ then _ else _) in *. destruct Hsc as (K' & HK & Hs' & Ho).
  set (t := mkTaskState _ _ _ _ _ _ _ _ _ _ _ _ _ _ _ _ _ _ _ _ _ _).
  set (w1 := upd_scopes h4 _). set (w2 := if cleanup then _ else _).
  assert (shaped K' w2) as H2.
  { assert (shaped K' w1) as H1.
    { split; [done|by eapply scope_ref_mono| |].
      2:{ intros i [t' Hi]. change (<[taskCount w + 1 := t]> (taskStateMap w) !! i = Some t') in Hi.
        change (taskCount w1) with (taskCount w + 1). apply lookup_insert_Some in Hi as [[<- _]|[_ Hi]]; [lia|].
        pose proof (Hcnt i ltac:(by eexists)). lia. }
      intros i t' Ht'. change (<[taskCount w + 1 := t]> (taskStateMap w) !! i = Some t') in Ht'.
      apply lookup_insert_Some in Ht' as [[<- <-]|[_ Ht']].
      - split; [|done]. exists l. split; [done|by eapply lookup_weaken].
      - destruct (Ht _ _ Ht'). split; [by eapply scope_ref_mono|by eapply outputs_ref_mono]. }
    clearbody w1. clear Hv. destruct H1. unfold w2. case_match; by split. }
  assert (forall w3, quiet w2 w3 -> exists K', K ⊆ K' /\ shaped K' w3) as Hend by (intros w3 Hq; exists K'; split; [done|by eapply quiet_shaped]).
  destruct (database w2) as [db|]; [|by apply Hend].
  set (w3 := update_task _ _ w2). pose proof (quiet_run_transaction (InsertTaskState (initial_row t w2)) db w3) as Hq.
  destruct (run_transaction _ db w3) as [w4 err]. apply Hend. cbn [fst] in *. etrans; [|exact Hq]. by apply quiet_update.
Qed.

Lemma newTaskState_links opts parent vars cleanup w :
  (forall i, is_Some (taskStateMap w !! i) -> i <= taskCount w) ->
  same_links w (newTaskState opts parent vars cleanup w).1.
Proof.
  intros Hc i t Ht. pose proof (Hc i ltac:(by eexists)) as Hi. unfold newTaskState.
  destruct (GetTaskDescriptor _) as [desc|]; [|by exists t].
  destruct (NewVariables None (scopes w)) as [h1 o]. destruct (NewVariables None h1) as [h2 st]. cbv zeta.
  set (h4 := if String.eqb _ _ then _ else _). set (t0 := mkTaskState _ _ _ _ _ _ _ _ _ _ _ _ _ _ _ _ _ _ _ _ _ _).
  set (w2 := if cleanup then _ else _).
  assert (taskStateMap w2 !! i = Some t) as H2.
  { unfold w2. assert (<[taskCount w + 1 := t0]> (taskStateMap w) !! i = Some t) as H by (by rewrite lookup_insert_ne by lia).
    clearbody t0 h4. by destruct cleanup. }
  assert (forall w3, quiet w2 w3 -> exists t', taskStateMap w3 !! i = Some t' /\ links t' = links t) as Hend
    by (intros w3 Hq; by apply (quiet_links _ _ Hq)).
  destruct (database w2) as [db|]; [|by apply Hend].
  set (w3 := update_task _ _ w2). pose proof (quiet_run_transaction (InsertTaskState (initial_row t0 w2)) db w3) as Hq.
  destruct (run_transaction _ db w3) as [w4 err]. apply Hend. cbn [fst] in *. etrans; [|exact Hq]. by apply quiet_update.
Qed.

Lemma newTaskState_kept K opts parent vars cleanup w :
  shaped K w -> (forall v, vars = Some v -> scope_ref K v) -> kept K w (newTaskState opts parent vars cleanup w).1.
Proof. intros Hs Hv. split; [by apply newTaskState_links, (sh_count _ _ Hs)|by apply newTaskState_grown]. Qed.

Lemma AddRootTask_kept opts w : keeps w (AddRootTask opts w).1.
Proof.
  intros K Hs. unfold AddRootTask. pose proof (newTaskState_kept K opts None None false w Hs ltac:(done)) as Hk.
  destruct (newTaskState _ _ _ _ w) as [w1 [i|e]]; [|done]. eapply kept_trans; [exact Hk|].
  intros K' _ Hs'. by apply kept_quiet.
Qed.

Lemma AddCleanupTask_kept opts w : keeps w (AddCleanupTask opts w).1.
Proof.
  intros K Hs. unfold AddCleanupTask. pose proof (newTaskState_kept K opts None None true w Hs ltac:(done)) as Hk.
  destruct (newTaskState _ _ _ _ w) as [w1 [i|e]]; [|done]. eapply kept_trans; [exact Hk|].
  intros K' _ Hs'. by apply kept_quiet.
Qed.

(** *** The scopes of the flow tasks *)

Lemma ctx_Vars_ref K i w : shaped K w -> scope_ref K (ctx_Vars i w).
Proof.
  intros [_ Hr Ht _]. unfold ctx_Vars, getTaskState. destruct (taskStateMap w !! i) as [t|] eqn:E; [|done]. by apply (Ht i).
Qed.

Lemma ctx_Outputs_ref K i w : shaped K w -> is_Some (taskStateMap w !! i) -> outputs_ref K (ctx_Outputs i w).
Proof. intros [_ _ Ht _] [t E]. unfold ctx_Outputs, getTaskState. rewrite E. by apply (Ht i). Qed.

Lemma shaped_heap K K' h w : K ⊆ K' -> shaped K w -> heap_shape K' h -> shaped K' (upd_scopes h w).
Proof.
  intros HK [_ Hr Ht Hc] Hh. split; [done|by eapply scope_ref_mono| |done].
  intros i t Hi. destruct (Ht i t Hi). split; [by eapply scope_ref_mono|by eapply outputs_ref_mono].
Qed.

(** A pointer published with the outputs of a task. *)
Lemma publish_shaped K i name sub w :
  shaped K w -> is_Some (taskStateMap w !! i) -> (forall o, ctx_Outputs i w = Ref o -> sub_ok K o ROutputs sub) ->
  shaped K (set_sub_scope (ctx_Outputs i w) name sub w).
Proof.
  intros Hs Hi Hsub. destruct (ctx_Outputs_ref K i w Hs Hi) as (o & Eo & Ho). rewrite Eo.
  apply (shaped_heap K); [done|done|]. apply (shape_link _ _ _ ROutputs); [apply Hs|done|by apply Hsub].
Qed.

Lemma new_child_scope_shaped K i w :
  shaped K w ->
  let '(w', v) := new_child_scope i w in
  exists K' c, K ⊆ K' /\ shaped K' w' /\ taskStateMap w' = taskStateMap w /\ v = Ref c /\ K' !! c = Some RScope /\
    (forall l, is_Some (K !! l) -> (l < c)%nat).
Proof.
  intros Hs. unfold new_child_scope, NewScope. destruct (ctx_Vars_ref K i w Hs) as (l & El & Hl). rewrite El. cbn [target].
  destruct (shape_new K (scopes w) RScope (Some (Ref l)) (sh_heap _ _ Hs) I) as (HK & Hs1 & _).
  { intros p [= <-]. exists l. split_and!; [done..|]. eapply next_above; [apply Hs|by eexists]. }
  cbn [NewVariables] in *. exists (<[next (scopes w) := RScope]> K), (next (scopes w)). split; [done|].
  split; [|split_and!; [done|done|by rewrite lookup_insert_eq|intros l' Hl'; eapply next_above; [apply Hs|done]]].
  eapply quiet_shaped; [apply quiet_set_var|]. by apply (shaped_heap K).
Qed.

(** The scope of the children, published behind a filter. *)
Lemma published_child_scope K i name w :
  shaped K w -> is_Some (taskStateMap w !! i) ->
  let '(w', v) := new_child_scope i w in
  let w2 := set_sub_scope (ctx_Outputs i w') name (NewScopeFilter v) w' in
  exists K', K ⊆ K' /\ shaped K' w2 /\ taskStateMap w2 = taskStateMap w /\ scope_ref K' v.
Proof.
  intros Hs Hi. pose proof (new_child_scope_shaped K i w Hs) as H. destruct (new_child_scope i w) as [w' v].
  destruct H as (K' & c & HK & Hs' & Em & -> & Hc & Hlt). exists K'. split; [done|].
  split; [|split; [done|by exists c]]. apply publish_shaped; [done|by rewrite Em|].
  intros o Eo. right. exists c. split_and!; [done|done|]. apply Hlt.
  destruct (ctx_Outputs_ref K i w Hs Hi) as (o' & Eo' & Ho'). unfold ctx_Outputs, getTaskState in Eo, Eo'. rewrite Em in Eo.
  rewrite Eo in Eo'. injection Eo' as ->. by eexists.
Qed.

End operations.

(** ** The flow tasks *)

(** What executing a task promises to the flow tasks, and what loading and
    executing an implementation promise to the scheduler. *)
Definition exec_keeps (ex : bool -> Z -> TaskScheduler -> TaskScheduler * option error) : Prop :=
  forall watch i w, keeps w (ex watch i w).1.

Definition instance_keeps (i : Z) (LoadConfig : task_instance) : Prop :=
  forall w, is_Some (taskStateMap w !! i) ->
    keeps w (LoadConfig w).1 /\
    forall inst, (LoadConfig w).2 = Ok inst ->
      forall w', is_Some (taskStateMap w' !! i) -> keeps w' (inst_Execute inst w').1.

Definition registry_keeps
    (NewTask : (bool -> Z -> TaskScheduler -> TaskScheduler * option error) ->
       Z -> TaskOptions -> result task_instance) : Prop :=
  forall ex i opts LoadConfig, exec_keeps ex -> NewTask ex i opts = Ok LoadConfig -> instance_keeps i LoadConfig.

Lemma kept_at K w w' i : kept K w w' -> is_Some (taskStateMap w !! i) -> is_Some (taskStateMap w' !! i).
Proof. intros [H _] [t Ht]. destruct (H i t Ht) as (t' & ? & _). eauto. Qed.

Section flow.
Context `{lib : Library} `{envm : Environment} `{dec : Decoding}.

Lemma ctx_NewTask_kept K i opts vars w :
  shaped K w -> (forall v, vars = Some v -> scope_ref K v) -> kept K w (ctx_NewTask i opts vars w).1.
Proof. intros Hs Hv. by apply newTaskState_kept. Qed.

Lemma create_children_kept K i vars n raws w :
  shaped K w -> (forall v, vars = Some v -> scope_ref K v) -> kept K w (create_children i vars n raws w).1.
Proof.
  revert K n w. induction raws as [|raw raws IH]; intros K n w Hs Hv; cbn [create_children]; [by apply kept_refl|].
  destruct (dec_options raw) as [opts|e]; [|by apply kept_refl].
  pose proof (ctx_NewTask_kept K i opts vars w Hs Hv) as H1. destruct (ctx_NewTask i opts vars w) as [w1 [j|e]]; [|done].
  eapply kept_trans; [exact H1|]. intros K' HK Hs'.
  pose proof (IH K' (S n) w1 Hs' (fun v Hx => scope_ref_mono _ _ _ HK (Hv v Hx))) as H2.
  by destruct (create_children i vars (S n) raws w1).
Qed.

(** [run_tasks] reads the option from a configuration that is still zero, so
    that it never publishes a scope without a filter. *)
Lemma run_tasks_init_keeps i c w : keeps w (run_tasks_init run_tasks_zeroConfig i c w).1.
Proof. intros K Hs. by apply create_children_kept. Qed.

Lemma run_tasks_Execute_keeps ex c n tasks w : exec_keeps ex -> keeps w (run_tasks_Execute ex c n tasks w).1.
Proof.
  intros Hex. revert n w. induction tasks as [|j tasks IH]; intros n w; cbn [run_tasks_Execute]; [done|].
  pose proof (Hex (rt_StopChildOnResult c) j w) as H1. destruct (ex _ j w) as [w1 err].
  assert (keeps w (run_tasks_Execute ex c (S n) tasks w1).1) as H2 by (etrans; [exact H1|apply IH]).
  by destruct (rt_ExpectFailure c), (rt_ContinueOnFailure c), err.
Qed.

(** A new published scope or the scope of the task itself, for one child. *)
Lemma child_task_kept K i name (own : bool) opts w :
  shaped K w -> is_Some (taskStateMap w !! i) ->
  let '(w1, v) :=
    if own then
      let '(w', v) := new_child_scope i w in (set_sub_scope (ctx_Outputs i w') name (NewScopeFilter v) w', v)
    else (w, ctx_Vars i w) in
  kept K w (ctx_NewTask i opts (Some v) w1).1.
Proof.
  intros Hs Hi. destruct own.
  - pose proof (published_child_scope K i name w Hs Hi) as H. destruct (new_child_scope i w) as [w' v].
    destruct H as (K' & HK & Hs' & Em & Hv). eapply kept_ext; [exact HK|exact Em|].
    apply ctx_NewTask_kept; [done|]. by intros v' [= <-].
  - apply ctx_NewTask_kept; [done|]. intros v [= <-]. by apply ctx_Vars_ref.
Qed.

Lemma options_attempt_keeps ex i c w :
  exec_keeps ex -> is_Some (taskStateMap w !! i) -> keeps w (options_attempt ex i c w).1.
Proof.
  intros Hex Hi K Hs. unfold options_attempt. destruct (dec_options _) as [opts|e]; [|by apply kept_refl].
  pose proof (child_task_kept K i "childScope" (ro_NewVariableScope c) opts w Hs Hi) as H1.
  destruct (if ro_NewVariableScope c then _ else _) as [w1 v]. destruct (ctx_NewTask i opts (Some v) w1) as [w2 [j|e]]; [|done].
  cbn [fst] in H1. pose proof (Hex true j w2) as H2. destruct (ex true j w2) as [w3 err].
  eapply kept_trans; [exact H1|]. intros K' _. apply H2.
Qed.

Lemma options_conclude_keeps i c b e w : keeps w (options_conclude i c b e w).1.
Proof.
  unfold options_conclude, ctx_SetResult.
  destruct b, (ro_ExpectFailure c), (ro_IgnoreFailure c), e; try done; apply kept_quiet, quiet_setTaskResult.
Qed.

Lemma run_task_options_Execute_keeps ex i c left w :
  exec_keeps ex -> is_Some (taskStateMap w !! i) -> keeps w (run_task_options_Execute ex i c left w).1.
Proof.
  intros Hex. revert w. induction left as [|left IH]; intros w Hi K Hs; cbn [run_task_options_Execute];
    pose proof (options_attempt_keeps ex i c w Hex Hi K Hs) as H1;
    destruct (options_attempt ex i c w) as [w1 [err|e]]; try done; cbn [fst] in H1;
    assert (forall b, kept K w (options_conclude i c b err w1).1) as Hc
      by (intros b; eapply kept_trans; [exact H1|intros K' _; apply options_conclude_keeps]); [apply Hc|].
  destruct (ro_RetryOnFailure c); [|apply Hc]. destruct err; [|apply Hc].
  eapply kept_trans; [exact H1|]. intros K' _. apply IH. by eapply kept_at.
Qed.

(** *** Concurrent children *)

Lemma create_scoped_child_kept K i m n raw v w :
  shaped K w -> scope_ref K v -> (exists r, K !! m = Some r /\ sub_ok K m r (NewScopeFilter v)) ->
  kept K w (create_scoped_child i (Ref m) n raw v w).1.
Proof.
  intros Hs Hv (r & Hm & Hsub). unfold create_scoped_child. destruct (dec_options raw) as [opts|e]; [|by apply kept_refl].
  pose proof (ctx_NewTask_kept K i opts (Some v) w Hs ltac:(by intros v' [= <-])) as H1.
  destruct (ctx_NewTask i opts (Some v) w) as [w1 [j|e]]; [|done]. eapply kept_trans; [exact H1|].
  intros K' HK Hs'. apply kept_shaped; [done|]. apply (shaped_heap K'); [done|done|].
  apply (shape_link _ _ _ r); [apply Hs'|by eapply lookup_weaken|by eapply sub_ok_mono].
Qed.

(** The scopes of concurrent children are published with their outputs only if
    every child has a new one. *)
Definition children_role (own : bool) : role := if own then RChildren else RDetached.

Lemma scoped_child_kept K i m (own : bool) n raw (f : Variables_ref -> TaskScheduler -> TaskScheduler) w :
  (forall v w, quiet w (f v w)) -> shaped K w -> K !! m = Some (children_role own) ->
  let '(w1, v) := if own then new_child_scope i w else (w, ctx_Vars i w) in
  kept K w (create_scoped_child i (Ref m) n raw v (f v w1)).1.
Proof.
  intros Hf Hs Hm. assert (forall K' v w1, K ⊆ K' -> shaped K' w1 -> taskStateMap w1 = taskStateMap w -> scope_ref K' v ->
    sub_ok K' m (children_role own) (NewScopeFilter v) -> kept K w (create_scoped_child i (Ref m) n raw v (f v w1)).1) as H.
  { intros K' v w1 HK Hs' Em Hv Hsub. eapply kept_ext; [exact HK|exact Em|].
    eapply kept_trans; [by apply (kept_quiet _ _ (Hf v w1))|]. intros K2 HK2 Hs2.
    apply create_scoped_child_kept; [done|by eapply scope_ref_mono|]. exists (children_role own).
    split; [eapply lookup_weaken; [exact Hm|by etrans]|by eapply sub_ok_mono]. }
  destruct own.
  - pose proof (new_child_scope_shaped K i w Hs) as Hn. destruct (new_child_scope i w) as [w1 v].
    destruct Hn as (K' & c & HK & Hs' & Em & -> & Hc & Hlt). apply (H K'); [done..|by exists c|].
    exists c. split_and!; [done|done|]. apply Hlt. by eexists.
  - destruct (ctx_Vars_ref K i w Hs) as (l & El & Hl). apply (H K); [done..|by exists l|]. exists l. by rewrite El.
Qed.

Lemma concurrent_children_kept K i m own n raws w :
  shaped K w -> K !! m = Some (children_role own) -> kept K w (concurrent_children i (Ref m) own n raws w).1.
Proof.
  revert K n w. induction raws as [|raw raws IH]; intros K n w Hs Hm; cbn [concurrent_children]; [by apply kept_refl|].
  pose proof (scoped_child_kept K i m own n raw (fun _ w => w) w ltac:(done) Hs Hm) as H1.
  destruct (if own then _ else _) as [w1 v]. destruct (create_scoped_child i (Ref m) n raw v w1) as [w2 [j|e]]; [|done].
  eapply kept_trans; [exact H1|]. intros K' HK Hs'.
  pose proof (IH K' (S n) w2 Hs' ltac:(by eapply lookup_weaken)) as H2. by destruct (concurrent_children i (Ref m) own (S n) raws w2).
Qed.

Lemma matrix_children_kept K i m c n vals w :
  shaped K w -> K !! m = Some RChildren -> kept K w (matrix_children i (Ref m) c n vals w).1.
Proof.
  revert K n w. induction vals as [|x vals IH]; intros K n w Hs Hm; cbn [matrix_children]; [by apply kept_refl|].
  pose proof (scoped_child_kept K i m true n (default VNil (mc_Task c))
    (fun v w => if String.eqb (mc_MatrixVar c) "" then w else set_var v (mc_MatrixVar c) x w) w) as H1.
  destruct (new_child_scope i w) as [w1 v].
  specialize (H1 ltac:(intros v' w'; destruct (String.eqb _ _); [done|apply quiet_set_var]) Hs Hm). cbv beta in H1.
  destruct (create_scoped_child _ _ _ _ _ _) as [w2 [j|e]]; [|done].
  eapply kept_trans; [exact H1|]. intros K' HK Hs'.
  pose proof (IH K' (S n) w2 Hs' ltac:(by eapply lookup_weaken)) as H2. by destruct (matrix_children i (Ref m) c (S n) vals w2).
Qed.

(** The sub scope for the children is newer than the outputs it is published
    with. *)
Lemma children_scope_kept K i r w (children : Variables_ref -> TaskScheduler -> TaskScheduler * result (list Z)) (publish : bool) :
  shaped K w -> is_Some (taskStateMap w !! i) -> (r = RChildren \/ r = RDetached /\ publish = false) ->
  (forall K' m w1, shaped K' w1 -> K' !! m = Some r -> kept K' w1 (children (Ref m) w1).1) ->
  kept K w
    (let '(h, childScopes) := NewVariables None (scopes w) in
     let '(w2, x) := children childScopes (upd_scopes h w) in
     match x with
     | Err e => (w2, Err (A := list Z) e)
     | Ok tasks => (if publish then set_sub_scope (ctx_Outputs i w2) "childScopes" childScopes w2 else w2, Ok tasks)
     end).1.
Proof.
  intros Hs Hi Hr Hch. destruct (ctx_Outputs_ref K i w Hs Hi) as (o & Eo & Ho).
  destruct (shape_new K (scopes w) r None (sh_heap _ _ Hs) ltac:(by destruct Hr as [->|[-> _]]) ltac:(done)) as (HK & Hs1 & _).
  pose proof (next_above K _ o (sh_heap _ _ Hs) ltac:(by eexists)) as Hlt.
  cbn [NewVariables fst] in *. set (m := next (scopes w)) in *. set (w1 := upd_scopes _ w).
  assert (shaped (<[m := r]> K) w1) as Hs1' by by apply (shaped_heap K).
  pose proof (Hch _ m w1 Hs1' ltac:(apply lookup_insert_eq)) as H2.
  destruct (children (Ref m) w1) as [w2 x]. cbn [fst] in H2. eapply kept_ext; [exact HK|done|].
  destruct x as [tasks|e]; [|exact H2]. destruct publish; [|exact H2]. destruct Hr as [->|[_ ?]]; [|done].
  eapply kept_trans; [exact H2|]. intros K2 HK2 Hs2. apply kept_shaped; [done|].
  apply publish_shaped; [done|by eapply kept_at|]. intros o' Eo'. left. exists m.
  split; [done|]. split; [eapply lookup_weaken; [|exact HK2]; apply lookup_insert_eq|].
  destruct Hi as [t Ht]. destruct (proj1 H2 i t Ht) as (t' & Ht' & El). injection El as _ Eout.
  unfold ctx_Outputs, getTaskState in Eo, Eo'. rewrite Ht in Eo. rewrite Ht' in Eo'. cbn in Eo, Eo'. congruence.
Qed.

Lemma concurrent_init_keeps i c w : is_Some (taskStateMap w !! i) -> keeps w (concurrent_init i c w).1.
Proof.
  intros Hi K Hs. unfold concurrent_init.
  apply (children_scope_kept K i (children_role (cc_NewVariableScope c)) w
    (fun m w => concurrent_children i m (cc_NewVariableScope c) 0 (cc_Tasks c) w) (cc_NewVariableScope c) Hs Hi).
  - destruct (cc_NewVariableScope c); [by left|by right].
  - intros K' m w1 Hs' Hm. by apply concurrent_children_kept.
Qed.

Lemma matrix_init_keeps i c w : is_Some (taskStateMap w !! i) -> keeps w (matrix_init i c w).1.
Proof.
  intros Hi K Hs. unfold matrix_init.
  apply (children_scope_kept K i RChildren w (fun m w => matrix_children i m c 0 (mc_MatrixValues c) w) true Hs Hi); [by left|].
  intros K' m w1 Hs' Hm. by apply matrix_children_kept.
Qed.

Lemma background_init_keeps i c w : is_Some (taskStateMap w !! i) -> keeps w (background_init i c w).1.
Proof.
  intros Hi K Hs. unfold background_init. set (p := match bc_BackgroundTask c with Some _ => _ | None => _ end).
  assert (kept K w p.1) as H1.
  { unfold p. destruct (bc_BackgroundTask c) as [raw|]; [|by apply kept_refl].
    destruct (dec_options raw) as [opts|e]; [|by apply kept_refl].
    pose proof (child_task_kept K i "backgroundScope" true opts w Hs Hi) as H. cbn iota in H.
    destruct (new_child_scope i w) as [w' v]. by destruct (ctx_NewTask i opts (Some v) _). }
  destruct p as [w1 [bg|e]]; [|done]. destruct (dec_options _) as [opts|e]; [|done].
  eapply kept_trans; [exact H1|]. intros K' _ Hs'.
  pose proof (child_task_kept K' i "foregroundScope" (bc_NewVariableScope c) opts w1 Hs' (kept_at _ _ _ _ H1 Hi)) as H2.
  destruct (if bc_NewVariableScope c then _ else _) as [w2 v]. by destruct (ctx_NewTask i opts (Some v) w2).
Qed.

(** *** External tests *)

Context `{raw : RawMessages} `{srcs : !RegistrySources}.

Lemma shape_set_vars K v m h : heap_shape K h -> heap_shape K (set_vars v m h).
Proof.
  unfold set_vars. revert h. induction (iterate m) as [|kv l IH]; intros h Hs; [done|]. by apply IH, shape_SetVar.
Qed.

Lemma shape_set_defaults K v m h : heap_shape K h -> heap_shape K (set_defaults v m h).
Proof.
  unfold set_defaults. revert h. induction (iterate m) as [|kv l IH]; intros h Hs; [done|]. by apply IH, shape_SetDefaultVar.
Qed.

Lemma shape_copy_vars K v source m h : heap_shape K h -> heap_shape K (copy_vars v source m h).1.
Proof.
  intros Hs. unfold copy_vars. set (r := CopyVars _ _ _ _ _ _ _ _ _).
  assert (forall h' x, r = Some (h', x) -> heap_shape K h') as H.
  { unfold r. clear r. revert h Hs. induction (iterate m) as [|[name q] l IH]; intros h Hs h' x; cbn [CopyVars]; [by intros [= <- _]|].
    destruct (ResolveQuery _ _ _ _ _ _ _ _) as [[[val|]|e]|]; cbn [mbind option_bind]; try done.
    - apply IH. by apply shape_SetVar.
    - by apply IH.
    - by intros [= <- _]. }
  destruct r as [[h' [u|e]]|]; [by apply (H _ (Ok u))|by apply (H _ (Err e))|done].
Qed.

Lemma et_create_kept K i v raws w :
  shaped K w -> scope_ref K v -> kept K w (et_create i v raws w).1.
Proof.
  revert K w. induction raws as [|r raws IH]; intros K w Hs Hv; cbn [et_create]; [by apply kept_refl|].
  destruct (Unmarshal_TaskOptions r) as [opts|e]; [|by apply kept_refl].
  pose proof (ctx_NewTask_kept K i opts (Some v) w Hs ltac:(by intros v' [= <-])) as H1.
  destruct (ctx_NewTask i opts (Some v) w) as [w1 [j|e]]; [|done].
  eapply kept_trans; [exact H1|]. intros K' HK Hs'.
  pose proof (IH K' w1 Hs' (scope_ref_mono _ _ _ HK Hv)) as H2. by destruct (et_create i v raws w1).
Qed.

Variable ctx_Err : TaskScheduler -> option error.

Lemma et_children_keeps ex c n tasks w : exec_keeps ex -> keeps w (et_children ctx_Err ex c n tasks w).1.
Proof.
  intros Hex. revert n w. induction tasks as [|j tasks IH]; intros n w; cbn [et_children]; [done|].
  destruct (ctx_Err w); [done|]. pose proof (Hex true j w) as H1. destruct (ex true j w) as [w1 err].
  destruct err; [|by etrans; [exact H1|apply IH]]. destruct (et_IgnoreFailure c); [by etrans; [exact H1|apply IH]|done].
Qed.

Lemma et_cleanup_keeps ex tasks w : exec_keeps ex -> keeps w (et_cleanup ctx_Err ex tasks w).1.
Proof.
  intros Hex. revert w. induction tasks as [|j tasks IH]; intros w; cbn [et_cleanup]; [done|].
  destruct (ctx_Err w); [done|]. etrans; [apply (Hex true j w)|apply IH].
Qed.

Lemma et_run_keeps ex c tasks cleanupTasks w : exec_keeps ex -> keeps w (et_run ctx_Err ex c tasks cleanupTasks w).1.
Proof.
  intros Hex. unfold et_run. pose proof (et_children_keeps ex c 0 tasks w Hex) as H1.
  destruct (et_children ctx_Err ex c 0 tasks w) as [w1 [e|e]]; [done|].
  pose proof (et_cleanup_keeps ex cleanupTasks w1 Hex) as H2. destruct (et_cleanup _ _ _ w1) as [w2 e2]. by etrans.
Qed.

Lemma et_Execute_keeps ex i c w :
  exec_keeps ex -> is_Some (taskStateMap w !! i) -> keeps w (et_Execute ctx_Err ex i c w).1.
Proof.
  intros Hex Hi K Hs. unfold et_Execute. destruct (et_loadTestConfig _) as [cfg|e]; [|by apply kept_refl].
  unfold et_scope. pose proof (published_child_scope K i "childScope" w Hs Hi) as H.
  destruct (new_child_scope i w) as [w1 v]. cbv zeta in H |- *. destruct H as (K1 & HK & Hs1 & Em & Hv).
  set (w2 := set_sub_scope _ _ _ w1) in *. set (h3 := set_vars v (et_TestConfig c) (set_defaults v (cfg_Config cfg) (scopes w2))).
  assert (heap_shape K1 h3) as Hh3 by (apply shape_set_vars, shape_set_defaults, Hs1).
  pose proof (shape_copy_vars K1 v (ctx_Vars i w2) (et_TestConfigVars c ∪ cfg_ConfigVars cfg) h3 Hh3) as Hh4.
  set (w3 := upd_scope_with (set_vars v (et_TestConfig c)) _).
  change (scopes w3) with h3. change (ctx_Vars i w3) with (ctx_Vars i w2).
  destruct (copy_vars _ _ _ h3) as [h4 err]. cbn [fst] in Hh4.
  set (w4 := upd_scopes h4 w3).
  assert (shaped K1 w4) as Hs4.
  { apply (shaped_heap K1); [done| |done]. apply (shaped_heap K1); [done| |exact Hh3].
    apply (shaped_heap K1); [done|exact Hs1|apply shape_set_defaults, Hs1]. }
  eapply kept_ext; [exact HK|exact (eq_trans (eq_refl : taskStateMap w4 = taskStateMap w2) Em)|].
  destruct err; cbn [fmap option_fmap option_map]; [by apply kept_refl|].
  pose proof (et_create_kept K1 i v (cfg_Tasks cfg) w4 Hs4 Hv) as H5.
  destruct (et_create i v (cfg_Tasks cfg) w4) as [w5 [tasks|e]]; [|done].
  eapply kept_trans; [exact H5|]. intros K5 HK5 Hs5.
  pose proof (et_create_kept K5 i v (cfg_CleanupTasks cfg) w5 Hs5 (scope_ref_mono _ _ _ HK5 Hv)) as H6.
  destruct (et_create i v (cfg_CleanupTasks cfg) w5) as [w6 [cleanups|e]]; [|done].
  eapply kept_trans; [exact H6|]. intros K6 _. by apply et_run_keeps.
Qed.
End flow.

(** ** Execution *)

Section execution.
Context `{lib : Library} `{envm : Environment}.

Lemma run_instance_keeps watch i inst w :
  is_Some (taskStateMap w !! i) ->
  (forall w', is_Some (taskStateMap w' !! i) -> keeps w' (inst_Execute inst w').1) -> keeps w (run_instance watch i inst w).1.
Proof.
  intros Hi Hex K Hs. unfold run_instance.
  set (w1 := update_task i _ w). set (w2 := if watch then _ else _).
  assert (quiet w w2) as H2.
  { transitivity w1; [by apply quiet_update|]. unfold w2. destruct watch; [apply quiet_GetTaskResultUpdateChan|done]. }
  pose proof (kept_quiet _ _ H2 K Hs) as Hk2. specialize (Hex w2 (kept_at _ _ _ _ Hk2 Hi)).
  eapply kept_trans; [exact Hk2|]. intros K' _ Hs'. destruct (inst_Execute inst w2) as [w3 out]. cbn [fst] in Hex.
  revert K' Hs'. change (keeps w2 (let w4 := fire_timer i (inst_Timeout inst) w3 in
    let '(w5, ret) := match out with Returned err => conclude_task i err w4 | Panicked perr => recover_panic i perr w4 end in
    (update_task i (set_task None) w5, ret)).1).
  etrans; [exact Hex|]. apply kept_quiet. cbv zeta. set (w4 := fire_timer _ _ w3).
  transitivity w4; [apply quiet_fire_timer|].
  assert (forall r : TaskScheduler * option error, quiet w4 r.1 ->
    quiet w4 (let '(w5, ret) := r in (update_task i (set_task None) w5, ret)).1) as Hend.
  { intros [w5 ret] H5. cbn [fst] in *. etrans; [exact H5|]. by apply quiet_update. }
  apply Hend. destruct out; [apply quiet_conclude|apply quiet_recover].
Qed.

Lemma execute_body_keeps NewTask watch i t w :
  (forall LoadConfig, NewTask i (options t) = Ok LoadConfig -> instance_keeps i LoadConfig) ->
  is_Some (taskStateMap w !! i) -> keeps w (execute_body NewTask watch i t w).1.
Proof.
  intros Hok Hi. unfold execute_body. destruct (check_condition t w) as [[|]|e].
  - destruct (NewTask i (options t)) as [LoadConfig|e]; [|done]. intros K Hs.
    destruct (Hok _ eq_refl w Hi) as [Hload Hrun]. specialize (Hload K Hs).
    destruct (LoadConfig w) as [w1 [inst|e]]; cbn [fst snd] in *; (eapply kept_trans; [exact Hload|]); intros K' _.
    + apply run_instance_keeps; [by eapply kept_at|]. by apply Hrun.
    + apply kept_quiet, quiet_setTaskResult.
  - etrans; [by apply kept_quiet, (quiet_update i (set_isSkipped true))|]. apply kept_quiet, quiet_setTaskResult.
  - apply kept_quiet, quiet_setTaskResult.
Qed.

Lemma ExecuteTask_keeps NewTask watch i w :
  (forall opts LoadConfig, NewTask i opts = Ok LoadConfig -> instance_keeps i LoadConfig) ->
  keeps w (ExecuteTask NewTask watch i w).1.
Proof.
  intros Hok K Hs. unfold ExecuteTask, getTaskState. destruct (taskStateMap w !! i) as [t|] eqn:Ht; [|by apply kept_refl].
  destruct (isStarted t); [by apply kept_refl|].
  pose proof (kept_quiet _ _ (quiet_start i w) K Hs) as H0. pose proof (kept_at _ _ _ i H0 ltac:(by eexists)) as Hi.
  pose proof (execute_body_keeps NewTask watch i t (start_task i w) (fun L => Hok _ L) Hi) as H1.
  destruct (execute_body _ _ _ _ _) as [w1 err]. cbn [fst] in *.
  eapply kept_trans; [exact H0|]. intros K' _. revert K'. change (keeps (start_task i w) (finish_task i w1)).
  etrans; [exact H1|]. apply kept_quiet, quiet_finish.
Qed.

Lemma exec_exec_keeps NewTask fuel : registry_keeps NewTask -> exec_keeps (exec NewTask fuel).
Proof.
  intros Hreg. induction fuel as [|fuel IH]; intros watch i w; cbn [exec]; [done|].
  apply ExecuteTask_keeps. intros opts LoadConfig HN. by eapply Hreg.
Qed.
End execution.

(** ** A test *)

Section program.
Context `{lib : Library} `{envm : Environment} `{dec : Decoding} `{raw : RawMessages} `{srcs : !RegistrySources}.
Context (ctx_Err : TaskScheduler -> option error).

(** The typed decoders of the flow tasks. *)
Context (run_tasks_Unmarshal : value -> run_tasks_Config -> result run_tasks_Config)
  (run_tasks_decode : string -> run_tasks_Config -> result run_tasks_Config)
  (config_value : run_tasks_Config -> value)
  (run_task_options_Unmarshal : value -> run_task_options_Config -> result run_task_options_Config)
  (run_task_options_decode : string -> run_task_options_Config -> result run_task_options_Config)
  (options_value : run_task_options_Config -> value)
  (et_Unmarshal : value -> ExternalConfig -> result ExternalConfig)
  (et_decode : string -> ExternalConfig -> result ExternalConfig)
  (et_value : ExternalConfig -> value).

(** The tasks that have no children: they load their configuration and execute
    writing variables and the status of tasks. *)
Context (leaf : string -> Z -> TaskOptions -> result task_instance).

Definition leaf_quiet : Prop :=
  forall name i opts LoadConfig, leaf name i opts = Ok LoadConfig -> forall w,
    quiet w (LoadConfig w).1 /\
    forall inst, (LoadConfig w).2 = Ok inst -> forall w', quiet w' (inst_Execute inst w').1.

(** The registry of the tasks. *)
Definition test_registry (ex : bool -> Z -> TaskScheduler -> TaskScheduler * option error)
    (i : Z) (opts : TaskOptions) : result task_instance :=
  match GetTaskDescriptor (opt_Name opts) with
  | Some d =>
      if String.eqb (desc_Name d) "run_external_tasks"
      then Ok (et_NewTask ctx_Err et_Unmarshal et_decode et_value ex i opts)
      else flow_registry run_tasks_Unmarshal run_tasks_decode config_value
             run_task_options_Unmarshal run_task_options_decode options_value leaf ex i opts
  | None => Err ("unknown task name: " ++ opt_Name opts)%string
  end.

Lemma test_registry_keeps : leaf_quiet -> registry_keeps test_registry.
Proof.
  intros Hleaf ex i opts LoadConfig Hex HN. unfold test_registry, flow_registry in HN.
  destruct (GetTaskDescriptor _) as [d|]; [|done].
  destruct (String.eqb (desc_Name d) "run_external_tasks").
  { injection HN as <-. intros w Hi. unfold et_NewTask. destruct (load_config _ _ _ _ _ _ _ _) as [c|e]; [|by split].
    split; [done|]. intros inst [= <-] w' Hi'. by apply et_Execute_keeps. }
  destruct (String.eqb (desc_Name d) "run_tasks").
  { injection HN as <-. intros w Hi. unfold run_tasks_NewTask. destruct (load_config _ _ _ _ _ _ _ _) as [c|e]; [|by split].
    pose proof (run_tasks_init_keeps i c w) as H. destruct (run_tasks_init _ i c w) as [w1 [tasks|e]]; cbn [fst snd] in *; [|by split].
    split; [done|]. intros inst [= <-] w' Hi'. by apply run_tasks_Execute_keeps. }
  destruct (String.eqb (desc_Name d) "run_task_options").
  { injection HN as <-. intros w Hi. unfold run_task_options_NewTask. destruct (load_config _ _ _ _ _ _ _ _) as [c|e]; [|by split].
    split; [done|]. intros inst [= <-] w' Hi'. by apply run_task_options_Execute_keeps. }
  intros w Hi. destruct (Hleaf _ _ _ _ HN w) as [H1 H2]. split; [by apply kept_quiet|].
  intros inst Hinst w' _. by apply kept_quiet, (H2 inst).
Qed.

(** The scopes of the registry: global variables and the variables of the test
    descriptors. *)
Inductive registry_scopes : heap -> Prop :=
  | rs_empty : registry_scopes empty_heap
  | rs_global h : registry_scopes h -> registry_scopes (NewVariables None h).1
  | rs_scope h l : registry_scopes h -> is_Some (cells h !! l) -> registry_scopes (NewScope (Ref l) h).1
  | rs_var h v name x : registry_scopes h -> registry_scopes (SetVar v name x h)
  | rs_default h v name x : registry_scopes h -> registry_scopes (SetDefaultVar v name x h).

(** What happens in a test: its tasks are created, the whole execution of a
    task with all tasks below it, the tasks that run children concurrently load
    their configuration (each child is then executed by its own), variables are
    written and results set, between the others and in any order. *)
Inductive test_step (w : TaskScheduler) : TaskScheduler -> Prop :=
  | ts_root opts : test_step w (AddRootTask opts w).1
  | ts_cleanup opts : test_step w (AddCleanupTask opts w).1
  | ts_execute fuel watch i : test_step w (exec test_registry fuel watch i w).1
  | ts_concurrent i c : is_Some (taskStateMap w !! i) -> test_step w (concurrent_init i c w).1
  | ts_matrix i c : is_Some (taskStateMap w !! i) -> test_step w (matrix_init i c w).1
  | ts_background i c : is_Some (taskStateMap w !! i) -> test_step w (background_init i c w).1
  | ts_var v name x : test_step w (set_var v name x w)
  | ts_result i r upd : test_step w (setTaskResult i r upd w)
  | ts_update i : test_step w (updateTaskState i w).1.

(** [CreateTest]'s scheduler: its variables are a scope in those of the
    descriptor, which are at [l]. *)
Definition new_test (l : nat) (runID : Z) (db : option Database) (h : heap) : TaskScheduler :=
  let '(h, v) := NewVariables (Some (Ref l)) h in NewTaskScheduler v runID h db.

(** The states of the tests that follow each other on a registry. *)
Inductive test_state (h0 : heap) : TaskScheduler -> Prop :=
  | first_test l runID db : is_Some (cells h0 !! l) -> test_state h0 (new_test l runID db h0)
  | next_test w l runID db : test_state h0 w -> is_Some (cells h0 !! l) -> test_state h0 (new_test l runID db (scopes w))
  | next_step w w' : test_state h0 w -> test_step w w' -> test_state h0 w'.

Lemma test_step_keeps w w' : leaf_quiet -> test_step w w' -> keeps w w'.
Proof.
  intros Hleaf. destruct 1.
  - apply AddRootTask_kept.
  - apply AddCleanupTask_kept.
  - by apply exec_exec_keeps, test_registry_keeps.
  - by apply concurrent_init_keeps.
  - by apply matrix_init_keeps.
  - by apply background_init_keeps.
  - apply kept_quiet, quiet_set_var.
  - apply kept_quiet, quiet_setTaskResult.
  - apply kept_quiet, quiet_updateTaskState.
Qed.

Lemma empty_shape : heap_shape ∅ empty_heap.
Proof. split; [apply empty_heap_wf| |done..]. intros l. split; by intros [? ?]. Qed.

Lemma registry_shape h : registry_scopes h -> exists K, heap_shape K h /\ forall l r, K !! l = Some r -> r = RScope.
Proof.
  assert (forall (K : roles) (h : heap), (forall l r, K !! l = Some r -> r = RScope) ->
    forall l r, <[next h := RScope]> K !! l = Some r -> r = RScope) as Hins.
  { intros K h0 HK l r [[_ <-]|[_ Hl]]%lookup_insert_Some; [done|by eapply HK]. }
  induction 1 as [|h _ (K & Hs & HK)|h l _ (K & Hs & HK) Hl|h v name x _ (K & Hs & HK)|h v name x _ (K & Hs & HK)].
  - exists ∅. split; [apply empty_shape|done].
  - destruct (shape_new K h RScope None Hs I ltac:(done)) as (_ & Hs' & _). eauto.
  - apply (hs_dom _ _ Hs) in Hl as [r Hl]. pose proof (HK _ _ Hl) as ->.
    destruct (shape_new K h RScope (Some (Ref l)) Hs I) as (_ & Hs' & _); [|eauto].
    intros p [= <-]. exists l. split_and!; [done..|]. eapply next_above; [done|by eexists].
  - exists K. split; [by apply shape_SetVar|done].
  - exists K. split; [by apply shape_SetDefaultVar|done].
Qed.

Lemma new_test_shaped K l runID db h :
  heap_shape K h -> K !! l = Some RScope -> exists K', K ⊆ K' /\ shaped K' (new_test l runID db h).
Proof.
  intros Hs Hl. destruct (shape_new K h RScope (Some (Ref l)) Hs I) as (HK & Hs' & _).
  { intros p [= <-]. exists l. split_and!; [done..|]. eapply next_above; [done|by eexists]. }
  exists (<[next h := RScope]> K). split; [done|]. split; [done|exists (next h); split; [done|apply lookup_insert_eq]|done|].
  intros i [? ?]. done.
Qed.

Lemma test_state_shaped h0 w :
  leaf_quiet -> registry_scopes h0 -> test_state h0 w ->
  exists K, shaped K w /\ forall l, is_Some (cells h0 !! l) -> K !! l = Some RScope.
Proof.
  intros Hleaf Hreg. destruct (registry_shape h0 Hreg) as (K0 & Hs0 & HK0).
  assert (forall l, is_Some (cells h0 !! l) -> K0 !! l = Some RScope) as Hl0.
  { intros l Hl. apply (hs_dom _ _ Hs0) in Hl as [r Hr]. by rewrite <- (HK0 _ _ Hr). }
  induction 1 as [l runID db Hl|w l runID db _ (K & Hs & HK) Hl|w w' _ (K & Hs & HK) Hstep].
  - destruct (new_test_shaped K0 l runID db h0 Hs0 (Hl0 l Hl)) as (K' & HK' & Hs'). exists K'. split; [done|].
    intros l' Hl'. eapply lookup_weaken; [by apply Hl0|done].
  - destruct (new_test_shaped K l runID db (scopes w) (sh_heap _ _ Hs) (HK l Hl)) as (K' & HK' & Hs'). exists K'. split; [done|].
    intros l' Hl'. eapply lookup_weaken; [by apply HK|done].
  - destruct (test_step_keeps w w' Hleaf Hstep K Hs) as [_ (K' & HK' & Hs')]. exists K'. split; [done|].
    intros l' Hl'. eapply lookup_weaken; [by apply HK|done].
Qed.

(** C25: Reading variables terminates in every state of a test.  Whatever tests
    were run before on the registry, whatever tasks were created, nested and
    executed in the test, with which scopes for their children, every scope
    that exists can be read: some amount of fuel is enough for [GetVarsMap],
    with or without the parents and whatever it is asked to add to, and for the
    lookup of any name; a larger amount returns the same. *)
Theorem scope_reads_terminate (h0 : heap) (w : TaskScheduler) (l : nat) :
  leaf_quiet -> registry_scopes h0 -> test_state h0 w -> is_Some (cells (scopes w) !! l) ->
  (forall skipParent, exists n, forall acc, exists m, forall fuel, (n <= fuel)%nat ->
     GetVarsMap fuel (scopes w) (Ref l) acc skipParent = Some m) /\
  (forall name, exists n r, forall fuel, (n <= fuel)%nat ->
     LookupVar fuel (scopes w) (Ref l) name = Some r /\ GetVar fuel (scopes w) (Ref l) name = Some (default VNil r)).
Proof.
  intros Hleaf Hreg Hw Hl. destruct (test_state_shaped h0 w Hleaf Hreg Hw) as (K & Hs & _).
  pose proof (sh_heap _ _ Hs) as Hh. pose proof (shape_acc K _ Hh) as Hacc. split.
  - intros skip. destruct (GetVarsMap_total (scopes w) (Ref l) skip (hs_wf _ _ Hh) Hl (Hacc _ _)) as [n Hn].
    exists n. intros acc. destruct (Hn acc) as [m Hm]. exists m. intros fuel Hle. by eapply GetVarsMap_mono.
  - intros name. destruct (shape_chain K _ l Hh Hl) as [ss Hc].
    destruct (LookupVar_total (scopes w) (Ref l) ss name (hs_wf _ _ Hh) Hc (Hacc _ _)) as (n & r & Hr).
    exists n, r. intros fuel Hle. eapply LookupVar_mono in Hr; [|exact Hle]. by rewrite GetVar_LookupVar, Hr.
Qed.
End program.

(** ** A concrete test

    A root task with a background child: 0 and 1 are the scopes of the
    registry and of the test, 2 and 3 the outputs and the status of the root
    task, 4 and 5 the [tasks] of the first two, 6 the scope of the child, 7 and
    8 its outputs and status, and 9 the [tasks] of its scope. *)

#[local] Existing Instance ex_raw.
#[local] Existing Instance ex_sources.

Definition ex_named : Decoding :=
  {| dec_options := fun raw => match raw with
                               | VString name => Ok (ex_opts name "child")
                               | _ => Err "not a task"%string end |}.

Definition ex_graph_h0 : heap := (NewVariables None empty_heap).1.

Definition ex_graph0 : TaskScheduler := new_test 0 7 None ex_graph_h0.
Definition ex_graph1 : TaskScheduler := (AddRootTask (lib := ex_lib 9) (ex_opts "run_task_background" "parent") ex_graph0).1.

Definition ex_background_config : background_Config :=
  mkBackgroundConfig (Some (VString "sleep")) (Some (VString "sleep")) false false "" true.

Definition ex_graph : TaskScheduler :=
  (background_init (lib := ex_lib 9) (dec := ex_named) 1 ex_background_config ex_graph1).1.

Definition ex_no_leaf (name : string) (i : Z) (opts : TaskOptions) : result task_instance := Err "no such task"%string.

Lemma ex_no_leaf_quiet : leaf_quiet ex_no_leaf.
Proof. by intros name i opts L. Qed.

Lemma ex_graph_state :
  registry_scopes ex_graph_h0 /\
  test_state (lib := ex_lib 9) (envm := ex_env) (dec := ex_named) (fun _ => None) ex_unmarshal (fun _ c => Ok c) (fun _ => VNil)
    (fun _ c => Ok c) (fun _ c => Ok c) (fun _ => VNil) (fun _ c => Ok c) (fun _ c => Ok c) (fun _ => VNil) ex_no_leaf
    ex_graph_h0 ex_graph.
Proof.
  split; [apply rs_global, rs_empty|].
  eapply next_step; [|apply ts_background; eexists; vm_compute; reflexivity].
  eapply next_step; [|apply ts_root]. apply first_test. eexists. vm_compute. reflexivity.
Qed.

Lemma scope_reads_terminate_witness :
  exists n, forall acc, exists m, forall fuel, (n <= fuel)%nat ->
    GetVarsMap fuel (scopes ex_graph) (Ref 6) acc false = Some m.
Proof.
  exact (proj1 (scope_reads_terminate (lib := ex_lib 9) (envm := ex_env) (dec := ex_named) (fun _ => None)
    ex_unmarshal (fun _ c => Ok c) (fun _ => VNil) (fun _ c => Ok c) (fun _ c => Ok c) (fun _ => VNil)
    (fun _ c => Ok c) (fun _ c => Ok c) (fun _ => VNil) ex_no_leaf ex_graph_h0 ex_graph 6 ex_no_leaf_quiet
    (proj1 ex_graph_state) (proj2 ex_graph_state) (mk_is_Some _ _ (eq_refl (cells (scopes ex_graph) !! 6%nat)))) false).
Defined.

(** The same scope is read twice in one call: while [GetVarsMap] goes over the
    sub scopes of the child's scope, and so holds its read lock, it comes back
    to it through the parents of its [tasks] and the outputs of the owner. *)
Example scope_read_while_locked :
  exists s, cells (scopes ex_graph) !! 6%nat = Some s /\ subScopes s !! "tasks" = Some (Ref 9) /\
    tc (reads (scopes ex_graph)) (Ref 6, true) (Ref 9, false).
Proof.
  eexists. split; [vm_compute; reflexivity|]. split; [vm_compute; reflexivity|].
  eapply tc_l; [apply reads_filter|].
  eapply tc_l; [eapply (reads_sub _ 2 _ "backgroundScope"); vm_compute; reflexivity|].
  eapply tc_l; [eapply (reads_sub _ 3 _ "outputs"); vm_compute; reflexivity|].
  eapply tc_l; [eapply (reads_sub _ 5 _ "parent"); vm_compute; reflexivity|].
  eapply tc_once, reads_parent; vm_compute; reflexivity.
Qed.

(** [run_tasks] publishes the scope of its children without a filter, but never
    gets there ([run_tasks_init_keeps]).  If it did, reading that scope would
    not end: *)
Definition ex_unfiltered : heap :=
  scopes (run_tasks_init (lib := ex_lib 9) (dec := ex_dec) (mkRunTasksConfig [] false false false true) 1
            (mkRunTasksConfig [] false false false true) ex_graph1).1.

Lemma GetVarsMap_reads_sub n h l s acc skip m name sub :
  cells h !! l = Some s -> subScopes s !! name = Some sub -> acc !! name = None ->
  GetVarsMap (S n) h (Ref l) acc skip = Some m -> is_Some (GetVarsMap n h sub ∅ skip).
Proof.
  intros Hl Hsub Hacc H. cbn [GetVarsMap] in H. rewrite Hl in H.
  destruct (map_traverse _ _) as [r|] eqn:Hr; [|done].
  destruct (map_traverse_is_Some_inv _ _ r name sub Hr) as [x Hx]; [|by exists x].
  by apply map_lookup_filter_Some.
Qed.

Lemma GetVarsMap_reads_parent n h l s acc m p :
  cells h !! l = Some s -> subScopes s = ∅ -> parentScope s = Some p ->
  GetVarsMap (S n) h (Ref l) acc false = Some m ->
  GetVarsMap n h p (acc ∪ (VMap <$> ∅) ∪ (vv_value <$> varsMap s)) false <> None.
Proof.
  intros Hl Hsub Hp H Hn. cbn [GetVarsMap] in H. rewrite Hl, Hsub, Hp, map_filter_empty in H.
  change (map_traverse _ ∅) with (Some (∅ : gmap string (gmap string value))) in H. cbn in H. by rewrite Hn in H.
Qed.

Example unfiltered_scope_never_read fuel : GetVarsMap fuel ex_unfiltered (Ref 6) ∅ false = None.
Proof.
  induction fuel as [fuel IH] using lt_wf_ind.
  destruct (GetVarsMap fuel ex_unfiltered (Ref 6) ∅ false) as [m|] eqn:H; [exfalso|done].
  destruct fuel as [|n]; [done|].
  eapply GetVarsMap_reads_parent in H; [|vm_compute; reflexivity..].
  destruct (GetVarsMap n _ _ _ _) as [m1|] eqn:H1; [clear H|done]. destruct n as [|n]; [done|].
  eapply (GetVarsMap_reads_sub _ _ _ _ _ _ _ "tasks" (Ref 5)) in H1 as [m2 H2]; [|vm_compute; reflexivity..].
  destruct n as [|n]; [done|].
  eapply (GetVarsMap_reads_sub _ _ _ _ _ _ _ "parent" (Ref 3)) in H2 as [m3 H3]; [|vm_compute; reflexivity..].
  destruct n as [|n]; [done|].
  eapply (GetVarsMap_reads_sub _ _ _ _ _ _ _ "outputs" (Ref 2)) in H3 as [m4 H4]; [|vm_compute; reflexivity..].
  destruct n as [|n]; [done|].
  eapply (GetVarsMap_reads_sub _ _ _ _ _ _ _ "childScope" (Ref 6)) in H4 as [m5 H5]; [|vm_compute; reflexivity..].
  rewrite IH in H5; [done|lia].
Qed.
