(* ===== verification/Queries.v ===== *)
(** * Queries and small tasks

    tasks/check_eth_call compares the answers of clients to a call, at one
    block or at every block; tasks/get_execution_block, get_consensus_specs,
    get_random_mnemonic, get_pubkeys_from_mnemonic and sleep publish one value
    or wait.  Clients' answers, key derivation, word lists and rendering of
    headers are parameters. *)

From Stdlib Require Import Strings.Byte.
From S2P Require Import Prelude Vars Db Scheduler Execution TaskFlow.

#[local] Open Scope string_scope.
#[local] Open Scope list_scope.
Open Scope Z_scope.

(** [fmt.Sprintf("0x%x", b)] *)
Definition hex_digit (n : N) : Ascii.ascii := Ascii.ascii_of_N (if (n <? 10)%N then 48 + n else 87 + n).
Fixpoint hex_text (b : list byte) : string :=
  match b with
  | [] => EmptyString
  | x :: b => String (hex_digit (Byte.to_N x / 16)) (String (hex_digit (Byte.to_N x mod 16)) (hex_text b))
  end.
Definition format_hex (b : list byte) : string := "0x" +:+ hex_text b.

(** ** check_eth_call *)

Record EthCallConfig := mkEthCallConfig {
  ec_EthCallData : string; ec_ExpectResult : string; ec_IgnoreResults : list string; ec_CallAddress : string;
  ec_BlockNumber : Z; ec_FailOnMismatch : bool; ec_ClientPattern : string; ec_ExcludeClientPattern : string }.

Definition ec_DefaultConfig : EthCallConfig :=
  mkEthCallConfig "0x" "" [] "0x0000000000000000000000000000000000000000" 0 false "" "".

Definition ec_Validate (c : EthCallConfig) : option error := None.

Section eth_call.
Context `{lib : Library}.
(** Clients and blocks of the block cache. *)
Context {client block : Type}.

(** [common.FromHex] and, at the check with a running number: the clients of
    the pool that are ready or match the patterns, whether a client reports a
    block within the ten seconds of the check, and its answer to the call at a
    block number. *)
Class CallSources := {
  call_FromHex : string -> list byte;
  call_clients : nat -> EthCallConfig -> list client;
  AwaitSeenBy : nat -> client -> block -> bool;
  GetEthCall : nat -> client -> string -> string -> Z -> result (list byte);
  block_Number : block -> Z
}.
Context `{calls : CallSources}.

(** [LoadConfig] also decodes the results to ignore. *)
Definition ignoreResult (c : EthCallConfig) (r : list byte) : bool :=
  existsb (fun s => bool_decide (r = call_FromHex s)) (ec_IgnoreResults c).

(** What a mismatch sets. *)
Definition mismatch_result (c : EthCallConfig) (r : list byte) : TaskResult :=
  if ec_FailOnMismatch c && negb (ignoreResult c r) then TaskResultFailure else TaskResultNone.

(** The loop over the clients; [callResult] is the first answer and [checked]
    the number of clients that agreed. *)
Fixpoint call_loop (n : nat) (i : Z) (c : EthCallConfig) (blockNumber : Z) (b : option block)
    (callResult : option (list byte)) (checked : nat) (clients : list client) (w : TaskScheduler) : TaskScheduler :=
  match clients with
  | [] => match checked with O => w | S _ => ctx_SetResult i TaskResultSuccess w end
  | cl :: clients =>
      if match b with Some b => negb (AwaitSeenBy n cl b) | None => false end
      then call_loop n i c blockNumber b callResult checked clients w
      else
        match GetEthCall n cl (ec_CallAddress c) (ec_EthCallData c) blockNumber with
        | Err _ => ctx_SetResult i TaskResultFailure w
        | Ok fetched =>
            let w := match callResult with
                     | None => set_var (ctx_Outputs i w) "callResult" (VString (format_hex fetched)) w
                     | Some _ => w
                     end in
            if match callResult with Some r => negb (bool_decide (r = fetched)) | None => false end
            then ctx_SetResult i (mismatch_result c fetched) w
            else if negb (bool_decide (ec_ExpectResult c = "")) && negb (bool_decide (fetched = call_FromHex (ec_ExpectResult c)))
            then ctx_SetResult i (mismatch_result c fetched) w
            else call_loop n i c blockNumber b (Some fetched) (S checked) clients w
        end
  end.

Definition ec_runCheck (n : nat) (i : Z) (c : EthCallConfig) (blockNumber : Z) (b : option block) (w : TaskScheduler)
    : TaskScheduler :=
  match call_clients n c with
  | [] => ctx_SetResult i TaskResultFailure w
  | clients => call_loop n i c blockNumber b None 0 clients w
  end.

(** The newest of the cached blocks; the first of those with its number. *)
Definition latest_block (blocks : list block) : option block :=
  fold_left (fun latest b =>
    match latest with
    | None => Some b
    | Some l => if block_Number l <? block_Number b then Some b else latest
    end) blocks None.

(** The loop over the blocks that arrive until the context ends with [e]; [n]
    checks were run before. *)
Fixpoint ec_loop (n : nat) (i : Z) (c : EthCallConfig) (e : error) (blocks : list block) (w : TaskScheduler)
    : TaskScheduler * option error :=
  match blocks with
  | [] => (w, Some e)
  | b :: blocks =>
      if ec_BlockNumber c =? 0 then ec_loop (S n) i c e blocks (ec_runCheck n i c (block_Number b) (Some b) w)
      else if ec_BlockNumber c <=? block_Number b then
        (ec_runCheck n i c (ec_BlockNumber c) (if block_Number b =? ec_BlockNumber c then Some b else None) w, None)
      else ec_loop n i c e blocks w
  end.

Definition ec_Execute (i : Z) (c : EthCallConfig) (cached blocks : list block) (e : error) (w : TaskScheduler)
    : TaskScheduler * option error :=
  match latest_block cached with
  | None => ec_loop 0 i c e blocks w
  | Some latest =>
      if ec_BlockNumber c =? 0 then ec_loop 1 i c e blocks (ec_runCheck 0 i c (block_Number latest) (Some latest) w)
      else if ec_BlockNumber c <=? block_Number latest then (ec_runCheck 0 i c (ec_BlockNumber c) None w, None)
      else ec_loop 0 i c e blocks w
  end.

(** ** Its verdict *)

(** The answers of the clients that report the block, in order. *)
Definition answers (n : nat) (c : EthCallConfig) (blockNumber : Z) (b : option block) (clients : list client)
    : list (result (list byte)) :=
  (fun cl => GetEthCall n cl (ec_CallAddress c) (ec_EthCallData c) blockNumber) <$>
    filterb (fun cl => match b with Some b => AwaitSeenBy n cl b | None => true end) clients.

(** An answer is as the first one and as expected. *)
Definition agrees (c : EthCallConfig) (first : list byte) (a : result (list byte)) : bool :=
  match a with
  | Ok r => bool_decide (r = first) && (bool_decide (ec_ExpectResult c = "") || bool_decide (r = call_FromHex (ec_ExpectResult c)))
  | Err _ => false
  end.

(** The result for a list of answers: the first one that does not agree
    decides. *)
Definition verdict (c : EthCallConfig) (as_ : list (result (list byte))) : option TaskResult :=
  match as_ with
  | [] => None
  | Err _ :: _ => Some TaskResultFailure
  | Ok first :: _ =>
      match filterb (fun a => negb (agrees c first a)) as_ with
      | [] => Some TaskResultSuccess
      | Err _ :: _ => Some TaskResultFailure
      | Ok r :: _ => Some (mismatch_result c r)
      end
  end.

Definition set_verdict (i : Z) (v : option TaskResult) (w : TaskScheduler) : TaskScheduler :=
  match v with Some r => ctx_SetResult i r w | None => w end.

Lemma call_loop_next n i c num b first checked clients w :
  call_loop n i c num b (Some first) (S checked) clients w =
  set_verdict i (match filterb (fun a => negb (agrees c first a)) (answers n c num b clients) with
                 | [] => Some TaskResultSuccess
                 | Err _ :: _ => Some TaskResultFailure
                 | Ok r :: _ => Some (mismatch_result c r)
                 end) w.
Proof.
  revert checked. induction clients as [|cl clients IH]; intros checked; [done|].
  cbn [call_loop]. unfold answers in *. rewrite filterb_cons.
  set (seen := match b with Some b => AwaitSeenBy n cl b | None => true end).
  assert (match b with Some b => negb (AwaitSeenBy n cl b) | None => false end = negb seen) as ->.
  { subst seen. by destruct b. }
  destruct seen; cbn [negb]; [|apply IH]. cbn [fmap list_fmap].
  destruct (GetEthCall n cl _ _ num) as [r|e]; rewrite ?filterb_cons; cbn [agrees negb]; [|done].
  destruct (decide (first = r)) as [<-|Hne].
  - rewrite !bool_decide_true by done. cbn [negb andb].
    destruct (bool_decide (ec_ExpectResult c = "")); cbn [negb andb orb]; [apply IH|].
    case_bool_decide; cbn [negb]; [apply IH|done].
  - rewrite (bool_decide_false (first = r)), (bool_decide_false (r = first)) by congruence. done.
Qed.

(** The verdict on an [eth_call].  A check fails without clients; else only
    the clients that report the block are asked, the first answer becomes the
    [callResult] output, and the check succeeds iff some client answers and all
    answers are alike and as expected.  A failing client fails the check; of
    two mismatches the first counts, and it fails the check only with
    [failOnMismatch] for a value that is not ignored.  If no client reports the
    block the result stays as it was. *)
Theorem eth_call_verdict (n : nat) (i : Z) (c : EthCallConfig) (num : Z) (b : option block) (w : TaskScheduler) :
  let as_ := answers n c num b (call_clients n c) in
  ec_runCheck n i c num b w =
    match call_clients n c with
    | [] => ctx_SetResult i TaskResultFailure w
    | _ => set_verdict i (verdict c as_)
             (match as_ with Ok r :: _ => set_var (ctx_Outputs i w) "callResult" (VString (format_hex r)) w | _ => w end)
    end /\
  (verdict c as_ = Some TaskResultSuccess <-> exists first, as_ <> [] /\ forallb (agrees c first) as_ = true) /\
  (verdict c as_ = Some TaskResultFailure -> exists e, e ∈ as_ /\ forall first, as_ !! 0%nat = Some (Ok first) -> agrees c first e = false).
Proof.
  cbn zeta. split; [|split].
  - unfold ec_runCheck. destruct (call_clients n c) as [|cl0 cls]; [done|].
    generalize (cl0 :: cls). clear cl0 cls. intros clients. induction clients as [|cl clients IH]; [done|].
    cbn [call_loop]. unfold answers in *. rewrite filterb_cons.
    set (seen := match b with Some b => AwaitSeenBy n cl b | None => true end).
    assert (match b with Some b => negb (AwaitSeenBy n cl b) | None => false end = negb seen) as ->.
    { subst seen. by destruct b. }
    destruct seen; cbn [negb]; [|apply IH]. cbn [fmap list_fmap verdict].
    destruct (GetEthCall n cl _ _ num) as [r|e]; [|done].
    rewrite filterb_cons. cbn [agrees negb andb]. rewrite (bool_decide_true (r = r)) by done. cbn [andb].
    destruct (bool_decide (ec_ExpectResult c = "")); cbn [negb andb orb]; [apply call_loop_next|].
    case_bool_decide; cbn [negb andb orb]; [apply call_loop_next|].
    done.
  - unfold verdict. destruct (answers n c num b (call_clients n c)) as [|[first|e] rest].
    + split; [done|]. by intros (? & ? & _).
    + split.
      * destruct (filterb _ _) as [|a l] eqn:Hf; [|destruct a; [unfold mismatch_result; by destruct (_ && _)|done]].
        intros _. exists first. split; [done|]. apply forallb_forall. intros a Ha. apply list_elem_of_In in Ha.
        destruct (agrees c first a) eqn:Hag; [done|]. exfalso.
        assert (a ∈ filterb (fun a => negb (agrees c first a)) (Ok first :: rest)) as Hin.
        { apply elem_of_filterb. by rewrite Hag. }
        rewrite Hf in Hin. by apply elem_of_nil in Hin.
      * intros (f & _ & Hall). assert (f = first) as ->.
        { cbn [forallb agrees] in Hall. apply andb_true_iff in Hall as [Hall _]. apply andb_true_iff in Hall as [Hall _].
          by apply bool_decide_eq_true in Hall. }
        destruct (filterb _ _) as [|a l] eqn:Hf; [done|]. exfalso.
        assert (a ∈ filterb (fun a => negb (agrees c first a)) (Ok first :: rest)) as Hin by (rewrite Hf; apply elem_of_cons; by left).
        apply elem_of_filterb in Hin as [Ha Hin]. rewrite forallb_forall in Hall.
        rewrite Hall in Ha; [done|]. by apply list_elem_of_In.
    + split; [done|]. intros (f & _ & Hall). cbn in Hall. done.
  - unfold verdict. destruct (answers n c num b (call_clients n c)) as [|[first|e] rest]; [done| |].
    + destruct (filterb _ _) as [|a l] eqn:Hf; [done|]. intros _. exists a.
      assert (a ∈ filterb (fun a => negb (agrees c first a)) (Ok first :: rest)) as Hin by (rewrite Hf; apply elem_of_cons; by left).
      apply elem_of_filterb in Hin as [Ha Hin]. split; [done|]. intros f [= <-]. by apply negb_true_iff.
    + intros _. exists (Err e). split; [apply elem_of_cons; by left|done].
Qed.

(** With a block number, the check runs once, at the first block that has
    reached it. *)
Lemma ec_loop_specific n i c e blocks w :
  ec_BlockNumber c <> 0 ->
  ec_loop n i c e blocks w =
  match List.find (fun b => ec_BlockNumber c <=? block_Number b) blocks with
  | None => (w, Some e)
  | Some b => (ec_runCheck n i c (ec_BlockNumber c) (if block_Number b =? ec_BlockNumber c then Some b else None) w, None)
  end.
Proof.
  intros Hn. induction blocks as [|b blocks IH]; [done|]. cbn [ec_loop List.find].
  assert ((ec_BlockNumber c =? 0) = false) as -> by lia.
  by destruct (ec_BlockNumber c <=? block_Number b).
Qed.

Lemma ec_loop_every n i c e blocks w : ec_BlockNumber c = 0 -> (ec_loop n i c e blocks w).2 = Some e.
Proof.
  intros Hn. revert n w. induction blocks as [|b blocks IH]; intros n w; [done|]. cbn [ec_loop].
  rewrite Hn. apply IH.
Qed.

Lemma latest_block_max (bs : list block) acc :
  let f := fun latest b =>
    match latest with None => Some b | Some l => if block_Number l <? block_Number b then Some b else latest end in
  match fold_left f bs acc with
  | None => bs = [] /\ acc = None
  | Some m => (m ∈ bs \/ acc = Some m) /\ forall b, b ∈ bs \/ acc = Some b -> block_Number b <= block_Number m
  end.
Proof.
  cbn zeta. revert acc. induction bs as [|b bs IH]; intros acc; cbn [fold_left].
  { destruct acc as [m|]; [|done]. split; [by right|]. intros b [Hb|[= ->]]; [by apply elem_of_nil in Hb|lia]. }
  match goal with |- context [fold_left _ bs ?a] => specialize (IH a); set (acc' := a) in * end.
  destruct (fold_left _ bs acc') as [m|]; [|destruct IH as [_ IH]; subst acc'; destruct acc; [by destruct (_ <? _)|done]].
  destruct IH as [Hm Hmax].
  assert (forall x, acc = Some x \/ x = b -> block_Number x <= block_Number m) as Hold.
  { subst acc'. intros x Hx. destruct acc as [l|].
    - destruct (Z.ltb_spec (block_Number l) (block_Number b)).
      + pose proof (Hmax b ltac:(by right)). destruct Hx as [[= ->]| ->]; lia.
      + pose proof (Hmax l ltac:(by right)). destruct Hx as [[= ->]| ->]; lia.
    - destruct Hx as [?| ->]; [done|]. apply Hmax. by right. }
  split.
  - destruct Hm as [Hm|Hm]; [left; apply elem_of_cons; by right|]. subst acc'. destruct acc as [l|].
    + destruct (_ <? _); injection Hm as <-; [left; apply elem_of_cons; by left|by right].
    + injection Hm as <-. left. apply elem_of_cons. by left.
  - intros x [Hx|Hx]; [|apply Hold; by left]. apply elem_of_cons in Hx as [->|Hx]; [apply Hold; by right|].
    apply Hmax. by left.
Qed.

(** When [check_eth_call] ends.  Without a block number it checks every
    block and only ends with the error of its context; with one it runs one
    check, for that number, as soon as a cached or an arriving block has reached
    it, and returns without an error; if none ever does, no check is run. *)
Theorem eth_call_ends (i : Z) (c : EthCallConfig) (cached blocks : list block) (e : error) (w : TaskScheduler) :
  (ec_BlockNumber c = 0 -> (ec_Execute i c cached blocks e w).2 = Some e) /\
  (ec_BlockNumber c <> 0 ->
     ((exists b, b ∈ cached ++ blocks /\ ec_BlockNumber c <= block_Number b) ->
        exists b, ec_Execute i c cached blocks e w = (ec_runCheck 0 i c (ec_BlockNumber c) b w, None) /\
          forall b', b = Some b' -> block_Number b' = ec_BlockNumber c) /\
     ((forall b, b ∈ cached ++ blocks -> block_Number b < ec_BlockNumber c) ->
        ec_Execute i c cached blocks e w = (w, Some e))).
Proof.
  unfold ec_Execute. pose proof (latest_block_max cached None) as Hmax. cbn zeta in Hmax. fold (latest_block cached) in Hmax.
  split.
  - intros Hn. destruct (latest_block cached); [rewrite Hn; cbn [Z.eqb]|]; by apply ec_loop_every.
  - intros Hn. split.
    + intros (b & Hb & Hge).
      assert (forall n, (exists b, b ∈ blocks /\ ec_BlockNumber c <= block_Number b) ->
        exists b, ec_loop n i c e blocks w = (ec_runCheck n i c (ec_BlockNumber c) b w, None) /\
          forall b', b = Some b' -> block_Number b' = ec_BlockNumber c) as Hloop.
      { intros n (b0 & Hb0 & Hge0). rewrite ec_loop_specific by done.
        destruct (List.find _ blocks) as [b1|] eqn:Hfind.
        - eexists. split; [done|]. intros b' Hb'. destruct (Z.eqb_spec (block_Number b1) (ec_BlockNumber c)); [|done].
          by injection Hb' as <-.
        - exfalso. apply list_elem_of_In in Hb0. pose proof (List.find_none _ _ Hfind _ Hb0) as Hf. cbn in Hf. lia. }
      destruct (latest_block cached) as [l|].
      * assert ((ec_BlockNumber c =? 0) = false) as -> by lia.
        destruct (Z.leb_spec (ec_BlockNumber c) (block_Number l)) as [Hle|Hlt]; [by exists None|].
        apply Hloop. apply elem_of_app in Hb as [Hb|Hb]; [|eauto].
        pose proof (proj2 Hmax b ltac:(by left)). lia.
      * apply Hloop. destruct Hmax as [-> _]. eauto.
    + intros Hall. rewrite ec_loop_specific by done.
      assert (List.find (fun b => ec_BlockNumber c <=? block_Number b) blocks = None) as Hf.
      { destruct (List.find _ blocks) as [b|] eqn:Hf; [|done]. apply List.find_some in Hf as [Hin Hle].
        apply list_elem_of_In in Hin. specialize (Hall b ltac:(apply elem_of_app; by right)). lia. }
      rewrite Hf.
      destruct (latest_block cached) as [l|]; [|done].
      assert ((ec_BlockNumber c =? 0) = false) as -> by lia.
      destruct Hmax as [[Hl|Hl] _]; [|done]. specialize (Hall l ltac:(apply elem_of_app; by left)).
      by assert ((ec_BlockNumber c <=? block_Number l) = false) as -> by lia.
Qed.

End eth_call.

(** ** Small tasks *)

Section small.
Context `{lib : Library}.

(** get_consensus_specs: [readings] are the cached specs at each poll, a second
    apart, until the context ends with [e]. *)
Fixpoint specs_Execute (i : Z) (e : error) (readings : list (option (gmap string value))) (w : TaskScheduler)
    : TaskScheduler * option error :=
  match readings with
  | [] => (w, Some e)
  | Some specs :: _ => (set_var (ctx_Outputs i w) "specs" (VMap specs) w, None)
  | None :: readings => specs_Execute i e readings w
  end.

(** get_execution_block: the cached blocks, a pointer that may be nil each,
    with their bodies; [GeneralizeData] renders the header. *)
Definition block_Execute {B} (GeneralizeData : B -> result value) (i : Z) (cached : list (option (option B)))
    (w : TaskScheduler) : TaskScheduler * option error :=
  match cached with
  | Some (Some b) :: _ =>
      (match GeneralizeData b with
       | Ok header => set_var (ctx_Outputs i w) "header" header w
       | Err _ => w
       end, None)
  | _ => (w, Some "no blocks found or the first block is nil")
  end.

(** get_random_mnemonic *)
Record MnemonicConfig := mkMnemonicConfig { mn_MnemonicResultVar : string }.
Definition mn_DefaultConfig : MnemonicConfig := mkMnemonicConfig "".

Definition mn_Execute (NewEntropy : Z -> result (list byte)) (NewMnemonic : list byte -> result string) (i : Z)
    (c : MnemonicConfig) (w : TaskScheduler) : TaskScheduler * option error :=
  match NewEntropy 256 with
  | Err e => (w, Some ("could not create entropy: " +:+ e))
  | Ok entropy =>
      match NewMnemonic entropy with
      | Err e => (w, Some ("could not create mnemonic: " +:+ e))
      | Ok mnemonic =>
          let w := if bool_decide (mn_MnemonicResultVar c = "") then w
                   else set_var (ctx_Vars i w) (mn_MnemonicResultVar c) (VString mnemonic) w in
          (set_var (ctx_Outputs i w) "mnemonic" (VString mnemonic) w, None)
      end
  end.

(** get_pubkeys_from_mnemonic *)
Record PubkeysConfig := mkPubkeysConfig { pk_Mnemonic : string; pk_StartIndex : Z; pk_Count : Z }.
Definition pk_DefaultConfig : PubkeysConfig := mkPubkeysConfig "" 0 1.
Definition pk_Validate (c : PubkeysConfig) : option error :=
  if bool_decide (pk_Mnemonic c = "") then Some "mnemonic is required" else None.

(** The key path of a validator; [%d] prints a sign. *)
Definition validatorKeyPath (index : Z) : string := "m/12381/3600/" +:+ pretty index +:+ "/0/0".

(** The loop while [index] is below [last]. *)
Fixpoint pk_loop (pubkey_at : string -> result string) (fuel : nat) (index last : Z) (pubkeys : list string)
    : result (list string) :=
  match fuel with
  | O => Ok pubkeys
  | S fuel =>
      if index <? last then
        match pubkey_at (validatorKeyPath index) with
        | Err e => Err ("failed generating validator key " +:+ validatorKeyPath index +:+ ": " +:+ e)
        | Ok k => pk_loop pubkey_at fuel (index + 1) last (pubkeys ++ [k])
        end
      else Ok pubkeys
  end.

(** The most strings [make] can reserve (16 bytes each, 2^48 in all). *)
Definition max_strings : Z := 17592186044416.

(** [IsMnemonicValid] of the trimmed mnemonic, and the public key a seed has at
    a path. *)
Definition pk_Execute (TrimSpace : string -> string) (IsMnemonicValid : string -> bool)
    (pubkey_at : string -> string -> result string) (i : Z) (c : PubkeysConfig) (w : TaskScheduler)
    : go (TaskScheduler) :=
  let mnemonic := TrimSpace (pk_Mnemonic c) in
  if negb (IsMnemonicValid mnemonic) then Fail "mnemonic is not valid"
  else if (pk_Count c <? 0) || (max_strings <? pk_Count c) then Panic "makeslice: cap out of range"
  else
    do! pubkeys := of_result (pk_loop (pubkey_at mnemonic) (Z.to_nat (pk_Count c)) (pk_StartIndex c)
                                (i64 (pk_StartIndex c + pk_Count c)) []) in
    Ret (set_var (ctx_Outputs i w) "pubkeys" (VList (VString <$> pubkeys)) w).

(** sleep: its duration passes, or its context ends before. *)
Definition sleep_Validate (duration : Z) : option error :=
  if duration <=? 0 then Some "duration must be greater than 0" else None.
Definition sleep_Execute (ctx_Err : option error) : option error := ctx_Err.

(** The indexes whose keys are wanted. *)
Definition pk_indexes (c : PubkeysConfig) : list Z :=
  (fun k => pk_StartIndex c + Z.of_nat k) <$> seq 0 (Z.to_nat (pk_Count c)).

Lemma pk_loop_all pubkey_at fuel index last acc ks :
  last = index + Z.of_nat fuel ->
  pk_loop pubkey_at fuel index last acc = Ok ks <->
  exists ks', ks = acc ++ ks' /\
    Forall2 (fun k p => pubkey_at (validatorKeyPath (index + Z.of_nat k)) = Ok p) (seq 0 fuel) ks'.
Proof.
  revert index acc. induction fuel as [|fuel IH]; intros index acc Hlast; cbn [pk_loop].
  - split.
    + intros [= <-]. exists []. by rewrite app_nil_r.
    + intros (ks' & -> & H). apply Forall2_nil_inv_l in H as ->. by rewrite app_nil_r.
  - assert ((index <? last) = true) as -> by lia.
    assert (forall ks', Forall2 (fun k p => pubkey_at (validatorKeyPath (index + Z.of_nat k)) = Ok p) (seq 1 fuel) ks' <->
      Forall2 (fun k p => pubkey_at (validatorKeyPath ((index + 1) + Z.of_nat k)) = Ok p) (seq 0 fuel) ks') as Hshift.
    { intros ks'. rewrite <- (fmap_S_seq 0 fuel), Forall2_fmap_l.
      assert (forall k, index + 1 + Z.of_nat k = index + Z.of_nat (S k)) as E by (intros k; lia).
      split; intros H; (eapply Forall2_impl; [exact H|]); intros k p Hkp; cbn [compose] in *; [by rewrite E|by rewrite <- E]. }
    change (seq 0 (S fuel)) with (0%nat :: seq 1 fuel).
    destruct (pubkey_at (validatorKeyPath index)) as [k|e] eqn:Hk.
    + rewrite IH by lia. split.
      * intros (ks' & -> & H). exists (k :: ks'). rewrite <- app_assoc. split; [done|].
        constructor; [by rewrite Z.add_0_r|by apply Hshift].
      * intros (ks' & -> & H). apply Forall2_cons_inv_l in H as (k' & ks'' & Hk' & H & ->).
        rewrite Z.add_0_r, Hk in Hk'. injection Hk' as <-. exists ks''. rewrite <- app_assoc. split; [done|by apply Hshift].
    + split; [done|]. intros (ks' & -> & H). apply Forall2_cons_inv_l in H as (k' & ks'' & Hk' & _).
      rewrite Z.add_0_r, Hk in Hk'. done.
Qed.

(** The keys derived from a mnemonic.  Within the range of [int] the task
    publishes exactly the public keys of the [count] indexes from [startIndex]
    on, in order, and only if all can be derived; a negative count, which the
    configuration allows, panics. *)
Theorem pubkeys_published (TrimSpace : string -> string) (IsMnemonicValid : string -> bool)
    (pubkey_at : string -> string -> result string) (i : Z) (c : PubkeysConfig) (w w' : TaskScheduler) :
  IsMnemonicValid (TrimSpace (pk_Mnemonic c)) = true ->
  (pk_Count c < 0 -> exists what, pk_Execute TrimSpace IsMnemonicValid pubkey_at i c w = Panic what) /\
  (0 <= pk_Count c <= max_strings -> is_i64 (pk_StartIndex c) -> pk_StartIndex c + pk_Count c < two63 ->
     pk_Execute TrimSpace IsMnemonicValid pubkey_at i c w = Ret w' <->
     exists keys, Forall2 (fun index k => pubkey_at (TrimSpace (pk_Mnemonic c)) (validatorKeyPath index) = Ok k) (pk_indexes c) keys /\
       w' = set_var (ctx_Outputs i w) "pubkeys" (VList (VString <$> keys)) w).
Proof.
  intros Hvalid. unfold pk_Execute. rewrite Hvalid. cbn [negb]. split.
  - intros Hneg. assert ((pk_Count c <? 0) = true) as -> by lia. by eexists.
  - intros Hc Hs Hlast. assert ((pk_Count c <? 0) || (max_strings <? pk_Count c) = false) as -> by lia.
    assert (i64 (pk_StartIndex c + pk_Count c) = pk_StartIndex c + pk_Count c) as ->.
    { apply i64_id. unfold is_i64 in *. lia. }
    rewrite go_bind_Ret. unfold pk_indexes.
    split.
    + intros (keys & Hkeys & Hw). injection Hw as <-. exists keys. split; [|done].
      destruct (pk_loop _ _ _ _ _) as [ks|e] eqn:Hl; [|done]. cbn in Hkeys. injection Hkeys as <-.
      apply pk_loop_all in Hl as (ks' & -> & H); [|lia]. by rewrite Forall2_fmap_l.
    + intros (keys & H & ->). exists keys. split; [|done]. rewrite Forall2_fmap_l in H.
      erewrite (proj2 (pk_loop_all _ _ _ _ _ keys _)); [done|]. by exists keys.
      Unshelve. lia.
Qed.

End small.

(** ** Witnesses *)

(** Three clients; the last one answers differently, and client 1 reports no
    block. *)
Definition ex_calls : CallSources (client := Z) (block := Z) :=
  {| call_FromHex := fun s => if String.eqb s "0x2a" then [x2a] else [];
     call_clients := fun n c => [0; 1; 2];
     AwaitSeenBy := fun n cl b => negb (cl =? 1);
     GetEthCall := fun n cl addr data num => if cl =? 2 then Ok [x2b] else Ok [x2a];
     block_Number := fun b => b |}.
#[local] Existing Instance ex_calls.

Definition ex_call_cfg (num : Z) (failing : bool) : EthCallConfig := mkEthCallConfig "0x" "0x2a" [] "0x00" num failing "" "".

(** The mismatch fails the check at block 7 with [failOnMismatch] only. *)
Example ex_call_verdicts :
  verdict (ex_call_cfg 0 true) (answers 0 (ex_call_cfg 0 true) 7 (Some 7) [0; 1; 2]) = Some TaskResultFailure /\
  verdict (ex_call_cfg 0 false) (answers 0 (ex_call_cfg 0 false) 7 (Some 7) [0; 1; 2]) = Some TaskResultNone /\
  verdict (ex_call_cfg 0 true) (answers 0 (ex_call_cfg 0 true) 7 (Some 7) [0; 1]) = Some TaskResultSuccess.
Proof. by vm_compute. Qed.

Lemma eth_call_ends_witness :
  exists b, ec_Execute (lib := ex_lib 9) 1 (ex_call_cfg 5 false) [3] [4; 6] "context canceled" ex_sched
      = (ec_runCheck (lib := ex_lib 9) 0 1 (ex_call_cfg 5 false) 5 b ex_sched, None).
Proof.
  destruct (proj2 (eth_call_ends (lib := ex_lib 9) 1 (ex_call_cfg 5 false) [3] [4; 6] "context canceled" ex_sched) ltac:(done))
    as [H _].
  destruct H as (b & Hb & _); [|by exists b]. exists 6. split; [|cbn; lia].
  do 2 (apply elem_of_cons; right). apply elem_of_cons. by left.
Defined.

(** A mismatch at a given block without [failOnMismatch]: the task ends without
    an error and with no result, so the scheduler reports success. *)
Lemma mismatch_concludes_success :
  let r := ec_Execute (lib := ex_lib 9) 1 (ex_call_cfg 5 false) [7] [] "context canceled" ex_sched in
  r.2 = None /\
  taskResult <$> getTaskState 1 (conclude_task (lib := ex_lib 9) 1 r.2 r.1).1 = Some TaskResultSuccess.
Proof. by vm_compute. Qed.

Lemma pubkeys_published_witness :
  pk_Execute (fun s => s) (fun _ => true) (fun m path => Ok (m +:+ ":" +:+ path)) 1 (mkPubkeysConfig "seed" 3 2) ex_sched =
  Ret (set_var (ctx_Outputs 1 ex_sched) "pubkeys"
         (VList [VString "seed:m/12381/3600/3/0/0"; VString "seed:m/12381/3600/4/0/0"]) ex_sched).
Proof.
  refine (proj2 (proj2 (pubkeys_published (fun s => s) (fun _ => true) (fun m path => Ok (m +:+ ":" +:+ path)) 1
    (mkPubkeysConfig "seed" 3 2) ex_sched _ _) _ _ _) _).
  - reflexivity.
  - cbn. unfold max_strings. lia.
  - unfold is_i64, two63. cbn. lia.
  - cbn. unfold two63. lia.
  - exists ["seed:m/12381/3600/3/0/0"; "seed:m/12381/3600/4/0/0"]. split; [|done].
    repeat constructor.
Defined.
