(* ===== verification/LoadTool.v ===== *)
(** * The load tool and the transaction pool tasks

    utils/tx_load_tool sends transactions at a fixed rate and measures, from the
    announcements of a peer, how long each takes to come back;
    tasks/tx_pool_latency_analysis and tx_pool_throughput_analysis run it once or
    over a range of rates, tx_pool_clean waits for empty pools.  A load is a
    state that the generator goroutine, the goroutine of each transaction and
    the measuring task change in turn ([load_event]).  Times are nanoseconds
    since the Unix epoch; the peer's announcements and the clock are part of the
    events, transactions those of Wallet.v and GenTasks.v. *)

From S2P Require Import Prelude Vars Db Scheduler Execution TaskFlow Wallet BlobTx GenTasks.

#[local] Open Scope string_scope.
#[local] Open Scope list_scope.
Open Scope Z_scope.

Definition Second : Z := 1000000000.

(** [time.Time{}] and [t.Sub(u)], which saturates. *)
Definition zeroTime : Z := -62135596800000000000.
Definition sub_times (t u : Z) : Z := Z.max (- two63) (Z.min MaxInt64 (t - u)).
Definition Microseconds (d : Z) : Z := Z.quot d 1000.

(** ** The data of a transaction

    [fmt.Sprintf("txIndex:%d", i)] and [fmt.Sscanf(s, "txIndex:%d", &i)]: the
    literal, spaces, a sign and digits; what follows is not looked at. *)

Definition tx_data (i : Z) : string := "txIndex:" +:+ pretty i.

Fixpoint leading_digits (s : string) : string :=
  match s with
  | String c s' =>
      let d := Z.of_nat (Ascii.nat_of_ascii c) - 48 in
      if (0 <=? d) && (d <=? 9) then String c (leading_digits s') else EmptyString
  | EmptyString => EmptyString
  end.

Fixpoint skip_blanks (s : string) : string :=
  match s with
  | String c s' => if Ascii.eqb c " " then skip_blanks s' else s
  | EmptyString => EmptyString
  end.

Fixpoint strip_literal (lit s : string) : option string :=
  match lit, s with
  | EmptyString, _ => Some s
  | String c lit, String d s => if Ascii.eqb c d then strip_literal lit s else None
  | String _ _, EmptyString => None
  end.

Definition scan_int (s : string) : option Z :=
  let digits (s : string) := match leading_digits s with EmptyString => None | ds => parse_digits 0 ds end in
  n ← match skip_blanks s with
      | String "-" s => Z.opp <$> digits s
      | String "+" s => digits s
      | s => digits s
      end;
  if (- two63 <=? n) && (n <? two63) then Some n else None.

Definition scan_tx_data (s : string) : option Z := strip_literal "txIndex:" s ≫= scan_int.

(** ** The load *)

Section load.
Context {Tx : Type}.

Record LoadResult := mkLoadResult {
  lr_Failed : bool; lr_StartTime : Z; lr_EndTime : Z; lr_TotalTxs : Z;
  lr_Txs : list (option Tx); lr_TxStartTime : list Z; lr_LatenciesMus : list Z; lr_LastMeasureDelay : Z;
  lr_SentTxCount : Z; lr_DuplicatedP2PEventCount : Z; lr_CoordinatedOmissionEventCount : Z;
  lr_NotReceivedP2PEventCount : Z }.

(** [make] with a length that is negative or larger than the memory panics;
    the largest length is that of the largest array of 24 byte times. *)
Definition max_times : Z := 11728124029610.

Definition NewLoadResult (totNumberOfTxs : Z) : go LoadResult :=
  if (totNumberOfTxs <? 0) || (max_times <? totNumberOfTxs) then Panic "makeslice: len out of range"
  else
    let n := Z.to_nat totNumberOfTxs in
    Ret (mkLoadResult false zeroTime zeroTime totNumberOfTxs (replicate n None) (replicate n zeroTime) (replicate n 0) 0
           0 0 0 0).

Definition set_failed (r : LoadResult) : LoadResult :=
  mkLoadResult true (lr_StartTime r) (lr_EndTime r) (lr_TotalTxs r) (lr_Txs r) (lr_TxStartTime r) (lr_LatenciesMus r)
    (lr_LastMeasureDelay r) (lr_SentTxCount r) (lr_DuplicatedP2PEventCount r) (lr_CoordinatedOmissionEventCount r)
    (lr_NotReceivedP2PEventCount r).
Definition set_start (now : Z) (r : LoadResult) : LoadResult :=
  mkLoadResult (lr_Failed r) now (lr_EndTime r) (lr_TotalTxs r) (lr_Txs r) (lr_TxStartTime r) (lr_LatenciesMus r)
    (lr_LastMeasureDelay r) (lr_SentTxCount r) (lr_DuplicatedP2PEventCount r) (lr_CoordinatedOmissionEventCount r)
    (lr_NotReceivedP2PEventCount r).
Definition set_end (now : Z) (r : LoadResult) : LoadResult :=
  mkLoadResult (lr_Failed r) (lr_StartTime r) now (lr_TotalTxs r) (lr_Txs r) (lr_TxStartTime r) (lr_LatenciesMus r)
    (lr_LastMeasureDelay r) (lr_SentTxCount r) (lr_DuplicatedP2PEventCount r) (lr_CoordinatedOmissionEventCount r)
    (lr_NotReceivedP2PEventCount r).
Definition set_txStart (i : nat) (now : Z) (r : LoadResult) : LoadResult :=
  mkLoadResult (lr_Failed r) (lr_StartTime r) (lr_EndTime r) (lr_TotalTxs r) (lr_Txs r) (<[i := now]> (lr_TxStartTime r))
    (lr_LatenciesMus r) (lr_LastMeasureDelay r) (lr_SentTxCount r) (lr_DuplicatedP2PEventCount r)
    (lr_CoordinatedOmissionEventCount r) (lr_NotReceivedP2PEventCount r).
Definition set_sent (i : nat) (tx : Tx) (r : LoadResult) : LoadResult :=
  mkLoadResult (lr_Failed r) (lr_StartTime r) (lr_EndTime r) (lr_TotalTxs r) (<[i := Some tx]> (lr_Txs r))
    (lr_TxStartTime r) (lr_LatenciesMus r) (lr_LastMeasureDelay r) (lr_SentTxCount r + 1)
    (lr_DuplicatedP2PEventCount r) (lr_CoordinatedOmissionEventCount r) (lr_NotReceivedP2PEventCount r).
Definition count_omission (r : LoadResult) : LoadResult :=
  mkLoadResult (lr_Failed r) (lr_StartTime r) (lr_EndTime r) (lr_TotalTxs r) (lr_Txs r) (lr_TxStartTime r)
    (lr_LatenciesMus r) (lr_LastMeasureDelay r) (lr_SentTxCount r) (lr_DuplicatedP2PEventCount r)
    (lr_CoordinatedOmissionEventCount r + 1) (lr_NotReceivedP2PEventCount r).
Definition count_duplicate (r : LoadResult) : LoadResult :=
  mkLoadResult (lr_Failed r) (lr_StartTime r) (lr_EndTime r) (lr_TotalTxs r) (lr_Txs r) (lr_TxStartTime r)
    (lr_LatenciesMus r) (lr_LastMeasureDelay r) (lr_SentTxCount r) (lr_DuplicatedP2PEventCount r + 1)
    (lr_CoordinatedOmissionEventCount r) (lr_NotReceivedP2PEventCount r).
Definition set_latency (i : nat) (delay latency : Z) (r : LoadResult) : LoadResult :=
  mkLoadResult (lr_Failed r) (lr_StartTime r) (lr_EndTime r) (lr_TotalTxs r) (lr_Txs r) (lr_TxStartTime r)
    (<[i := latency]> (lr_LatenciesMus r)) delay (lr_SentTxCount r) (lr_DuplicatedP2PEventCount r)
    (lr_CoordinatedOmissionEventCount r) (lr_NotReceivedP2PEventCount r).
Definition set_missed (lats : list Z) (n : Z) (r : LoadResult) : LoadResult :=
  mkLoadResult (lr_Failed r) (lr_StartTime r) (lr_EndTime r) (lr_TotalTxs r) (lr_Txs r) (lr_TxStartTime r) lats
    (lr_LastMeasureDelay r) (lr_SentTxCount r) (lr_DuplicatedP2PEventCount r) (lr_CoordinatedOmissionEventCount r) n.

(** The generator goroutine: asleep, about to wait for tick [i], ended. *)
Inductive generator := Asleep | AtTick (i : Z) | Stopped.

(** The measuring task: reading, ended without or with an error. *)
Inductive measuring := Reading | Measured (err : option error).

(** [senders] has the goroutines of single transactions: [false] builds,
    [true] (with the transaction) sends. *)
Record load := mkLoad {
  ld_TPS : Z; ld_DurationS : Z; ld_LogInterval : Z; ld_testDeadline : Z; ld_Result : LoadResult;
  ld_generator : generator; ld_senders : gmap Z (option Tx);
  ld_receivedEvents : Z; ld_measuring : measuring; ld_taskFailed : bool }.

Definition NewLoad (tps durationS testDeadline logInterval : Z) : go load :=
  do! r := NewLoadResult (i64 (tps * durationS)) in
  Ret (mkLoad tps durationS logInterval testDeadline r Asleep ∅ 0 Reading false).

Definition with_result (f : LoadResult -> LoadResult) (l : load) : load :=
  mkLoad (ld_TPS l) (ld_DurationS l) (ld_LogInterval l) (ld_testDeadline l) (f (ld_Result l)) (ld_generator l)
    (ld_senders l) (ld_receivedEvents l) (ld_measuring l) (ld_taskFailed l).
Definition with_generator (g : generator) (l : load) : load :=
  mkLoad (ld_TPS l) (ld_DurationS l) (ld_LogInterval l) (ld_testDeadline l) (ld_Result l) g
    (ld_senders l) (ld_receivedEvents l) (ld_measuring l) (ld_taskFailed l).
Definition with_deadline (t : Z) (l : load) : load :=
  mkLoad (ld_TPS l) (ld_DurationS l) (ld_LogInterval l) t (ld_Result l) (ld_generator l)
    (ld_senders l) (ld_receivedEvents l) (ld_measuring l) (ld_taskFailed l).
Definition with_senders (s : gmap Z (option Tx)) (l : load) : load :=
  mkLoad (ld_TPS l) (ld_DurationS l) (ld_LogInterval l) (ld_testDeadline l) (ld_Result l) (ld_generator l)
    s (ld_receivedEvents l) (ld_measuring l) (ld_taskFailed l).
Definition with_received (n : Z) (l : load) : load :=
  mkLoad (ld_TPS l) (ld_DurationS l) (ld_LogInterval l) (ld_testDeadline l) (ld_Result l) (ld_generator l)
    (ld_senders l) n (ld_measuring l) (ld_taskFailed l).
Definition end_measure (e : option error) (l : load) : load :=
  mkLoad (ld_TPS l) (ld_DurationS l) (ld_LogInterval l) (ld_testDeadline l) (ld_Result l) (ld_generator l)
    (ld_senders l) (ld_receivedEvents l) (Measured e) (ld_taskFailed l).
(** [SetResult(TaskResultFailure)] *)
Definition fail_task (l : load) : load :=
  mkLoad (ld_TPS l) (ld_DurationS l) (ld_LogInterval l) (ld_testDeadline l) (ld_Result l) (ld_generator l)
    (ld_senders l) (ld_receivedEvents l) (ld_measuring l) true.

(** [n%l.LogInterval] *)
Definition log_every (n : Z) (l : load) : go load :=
  if ld_LogInterval l =? 0 then Panic "integer divide by zero" else Ret l.

(** *** The generator goroutine *)

Definition generator_start (now : Z) (l : load) : go load :=
  let endTime := now + Second * ld_DurationS l in
  let l := with_result (set_start now) l in
  let l := if ld_testDeadline l <? endTime then with_deadline endTime l else l in
  if ld_TPS l =? 0 then Panic "integer divide by zero"
  else if Z.quot Second (ld_TPS l) <=? 0 then Panic "non-positive interval for NewTicker"
  else Ret (with_generator (AtTick 0) l).

(** One tick; [omitted] is whether starting the goroutine took longer than
    the interval. *)
Definition generator_tick (i : Z) (omitted ctxDone : bool) (now : Z) (l : load) : go load :=
  let l := with_senders (<[i := None]> (ld_senders l)) l in
  let l := if omitted then with_result count_omission l else l in
  do! l := log_every (i + 1) l in
  Ret (with_generator
         (if ctxDone || lr_Failed (ld_Result l) || (ld_testDeadline l <? now) then Stopped else AtTick (i + 1)) l).

(** *** [generateAndSendTx] *)

Definition fail_load (l : load) : load := with_result set_failed (fail_task l).

Definition tx_generated (i now : Z) (r : result Tx) (l : load) : load :=
  match r with
  | Err _ => with_senders (delete i (ld_senders l)) (fail_load l)
  | Ok tx => with_senders (<[i := Some tx]> (ld_senders l)) (with_result (set_txStart (Z.to_nat i) now) l)
  end.

Definition tx_sent (i : Z) (tx : Tx) (err : option error) (l : load) : go load :=
  let l := with_senders (delete i (ld_senders l)) l in
  match err with
  | Some _ => Ret (if lr_Failed (ld_Result l) then l else fail_load l)
  | None =>
      let l := with_result (set_sent (Z.to_nat i) tx) l in
      log_every (lr_SentTxCount (ld_Result l)) l
  end.

(** *** [MeasurePropagationLatencies] *)

(** An announced transaction, with the clock's two readings. *)
Record announced := mkAnnounced { an_Data : string; an_now1 : Z; an_now2 : Z }.

Inductive read_answer := ReadTimeout | ReadFailed (e : error) | ReadTxs (txs : list announced).

Definition abort_measure (e : error) (l : load) : load := end_measure (Some e) (fail_load l).

Definition measure_tx (a : announced) (l : load) : go load :=
  match scan_tx_data (an_Data a) with
  | None => Ret (abort_measure "measurement stopped: failed to parse transaction data" l)
  | Some txIndex =>
      if (txIndex <? 0) || (lr_TotalTxs (ld_Result l) <=? txIndex)
      then Ret (abort_measure "measurement stopped: transaction index out of range" l)
      else
        let i := Z.to_nat txIndex in
        let l :=
          if nth i (lr_LatenciesMus (ld_Result l)) 0 =? 0 then
            with_received (ld_receivedEvents l + 1)
              (with_result (set_latency i (sub_times (an_now1 a) (lr_StartTime (ld_Result l)))
                 (Microseconds (sub_times (an_now2 a) (nth i (lr_TxStartTime (ld_Result l)) zeroTime)))) l)
          else with_result count_duplicate l in
        log_every (ld_receivedEvents l) l
  end.

Fixpoint measure_txs (txs : list announced) (l : load) : go load :=
  match txs with
  | [] => Ret l
  | a :: txs =>
      do! l := measure_tx a l in
      match ld_measuring l with Reading => measure_txs txs l | Measured _ => Ret l end
  end.

(** The latencies with -1 for those that are missing, and their number. *)
Definition mark_missed (lats : list Z) : list Z * Z :=
  ((fun x => if x =? 0 then -1 else x) <$> lats, Z.of_nat (length (filterb (fun x => x =? 0) lats))).

(** After the reading loop. *)
Definition finish_measure (l : load) : load :=
  if lr_Failed (ld_Result l) then end_measure (Some "measurement stopped: execution failed") l
  else
    let '(lats, missed) := mark_missed (lr_LatenciesMus (ld_Result l)) in
    end_measure None (with_result (set_missed lats missed) l).

(** One answer of the peer; [ctxDone] and [now] are looked at after it. *)
Definition measure_read (r : read_answer) (ctxDone : bool) (now : Z) (l : load) : go load :=
  match r with
  | ReadTimeout => Ret (finish_measure l)
  | ReadFailed _ => Ret (abort_measure "measurement stopped: failed reading p2p events" l)
  | ReadTxs [] => Ret l
  | ReadTxs txs =>
      do! l := measure_txs txs l in
      Ret (match ld_measuring l with
           | Measured _ => l
           | Reading =>
               if lr_TotalTxs (ld_Result l) <=? ld_receivedEvents l then finish_measure l
               else if ctxDone then end_measure (Some "measurement stopped: task cancelled") (with_result set_failed l)
               else if ld_testDeadline l <? now
               then end_measure (Some "measurement stopped: reached duration limit") (with_result set_failed l)
               else if lr_Failed (ld_Result l) then end_measure (Some "measurement stopped: execution failed") l
               else l
           end)
  end.

(** *** Interleaving *)

Inductive load_event :=
  | Started (now : Z)
  | Ticked (omitted ctxDone : bool) (now : Z)
  | Finished (now : Z)
  | Generated (i now : Z) (r : result Tx)
  | Sent (i : Z) (err : option error)
  | Read (r : read_answer) (ctxDone : bool) (now : Z).

(** One event, when it is possible.  A panic of a goroutine ends the program,
    one of the measuring task ends the task. *)
Definition load_step (e : load_event) (l : load) : option (go load) :=
  match e with
  | Started now => match ld_generator l with Asleep => Some (generator_start now l) | _ => None end
  | Ticked omitted ctxDone now =>
      match ld_generator l with
      | AtTick i => if i <? lr_TotalTxs (ld_Result l) then Some (generator_tick i omitted ctxDone now l) else None
      | _ => None
      end
  | Finished now =>
      match ld_generator l with
      | AtTick i => if i <? lr_TotalTxs (ld_Result l) then None
                    else Some (Ret (with_generator Stopped (with_result (set_end now) l)))
      | _ => None
      end
  | Generated i now r =>
      match ld_senders l !! i with Some None => Some (Ret (tx_generated i now r l)) | _ => None end
  | Sent i err => match ld_senders l !! i with Some (Some tx) => Some (tx_sent i tx err l) | _ => None end
  | Read r ctxDone now =>
      match ld_measuring l with Reading => Some (measure_read r ctxDone now l) | Measured _ => None end
  end.

Fixpoint load_run (es : list load_event) (l : load) : option (go load) :=
  match es with
  | [] => Some (Ret l)
  | e :: es =>
      match load_step e l with
      | Some (Ret l) => load_run es l
      | r => r
      end
  end.

(** ** Accounting of the announcements *)

Definition announcements (es : list load_event) : list announced :=
  flat_map (fun e => match e with Read (ReadTxs txs) _ _ => txs | _ => [] end) es.

(** The announcement is one of transaction [j]. *)
Definition announces (j : Z) (a : announced) : bool :=
  match scan_tx_data (an_Data a) with Some i => i =? j | None => false end.

(** From its generation at [start] to the clock reading of the announcement. *)
Definition latency_of (start : Z) (a : announced) : Z := Microseconds (sub_times (an_now2 a) start).

(** The latency of transaction [j] in a history: from its generation before
    its first announcement ([start], if it was generated already) to that
    announcement, whatever comes later; [None] without an announcement. *)
Fixpoint first_latency (j start : Z) (es : list load_event) : option Z :=
  match es with
  | [] => None
  | Generated i now (Ok _) :: es => first_latency j (if i =? j then now else start) es
  | Read (ReadTxs txs) _ _ :: es =>
      match find (announces j) txs with
      | Some a => Some (latency_of start a)
      | None => first_latency j start es
      end
  | _ :: es => first_latency j start es
  end.

(** Every transaction is first announced a microsecond or more after it was
    generated. *)
Definition timely (es : list load_event) : Prop :=
  forall j lat, first_latency j zeroTime es = Some lat -> 0 < lat.

(** What the latency of [j] becomes when the announcements [txs] of the
    current read and then the events [es] are still to come. *)
Definition coming_latency (l : load) (j : nat) (txs : list announced) (es : list load_event) : option Z :=
  let lat := nth j (lr_LatenciesMus (ld_Result l)) 0 in
  let start := nth j (lr_TxStartTime (ld_Result l)) zeroTime in
  if lat =? 0 then
    match find (announces (Z.of_nat j)) txs with
    | Some a => Some (latency_of start a)
    | None => first_latency (Z.of_nat j) start es
    end
  else Some lat.

Definition measured_count (lats : list Z) : Z := Z.of_nat (length (filterb (fun x => 0 <? x) lats)).

(** A load of [n] transactions; [k] announcements were read. *)
Record load_inv (n k : Z) (l : load) : Prop := {
  li_total : lr_TotalTxs (ld_Result l) = n;
  li_lats : Z.of_nat (length (lr_LatenciesMus (ld_Result l))) = n;
  li_starts : Z.of_nat (length (lr_TxStartTime (ld_Result l))) = n;
  li_senders : forall i s, ld_senders l !! i = Some s -> 0 <= i;
  li_tick : forall i, ld_generator l = AtTick i -> 0 <= i;
  li_pos : forall x, x ∈ lr_LatenciesMus (ld_Result l) -> 0 <= x;
  li_received : ld_receivedEvents l = measured_count (lr_LatenciesMus (ld_Result l));
  li_duplicates : lr_DuplicatedP2PEventCount (ld_Result l) + ld_receivedEvents l = k
}.

(** A measurement of [n] transactions that ended well after [k] announcements. *)
Record measured_ok (n k : Z) (lats : list Z) (l : load) : Prop := {
  mo_done : ld_measuring l = Measured None;
  mo_lats : lr_LatenciesMus (ld_Result l) = (fun x => if x =? 0 then -1 else x) <$> lats;
  mo_length : Z.of_nat (length lats) = n;
  mo_received : ld_receivedEvents l = measured_count lats;
  mo_missed : lr_NotReceivedP2PEventCount (ld_Result l) = n - ld_receivedEvents l;
  mo_duplicates : lr_DuplicatedP2PEventCount (ld_Result l) + ld_receivedEvents l = k
}.

Definition all_timely (n : Z) (l : load) (txs : list announced) (es : list load_event) : Prop :=
  forall j lat, Z.of_nat j < n -> coming_latency l j txs es = Some lat -> 0 < lat.

Definition in_range (n : Z) (a : announced) : Prop := exists i, scan_tx_data (an_Data a) = Some i /\ 0 <= i < n.

Lemma measured_count_insert lats j x :
  nth j lats 0 = 0 -> (j < length lats)%nat -> 0 < x -> measured_count (<[j := x]> lats) = measured_count lats + 1.
Proof.
  unfold measured_count. revert j. induction lats as [|y lats IH]; intros j Hj Hlen Hx; [cbn in Hlen; lia|].
  destruct j as [|j].
  - cbn [nth] in Hj. subst y. change (<[0%nat := x]> (0 :: lats)) with (x :: lats). rewrite !filterb_cons.
    assert ((0 <? x) = true) as -> by lia. cbn [Z.ltb Z.compare length]. lia.
  - change (<[S j := x]> (y :: lats)) with (y :: <[j := x]> lats). rewrite !filterb_cons.
    specialize (IH j Hj ltac:(cbn in Hlen; lia) Hx). destruct (0 <? y); cbn [length]; lia.
Qed.

Lemma mark_missed_spec lats :
  (forall x, x ∈ lats -> 0 <= x) ->
  mark_missed lats = ((fun x => if x =? 0 then -1 else x) <$> lats, Z.of_nat (length lats) - measured_count lats).
Proof.
  intros Hpos. unfold mark_missed, measured_count. f_equal. induction lats as [|x lats IH]; [done|].
  specialize (IH (fun y Hy => Hpos y ltac:(apply elem_of_cons; by right))).
  pose proof (Hpos x ltac:(apply elem_of_cons; by left)) as Hx. rewrite !filterb_cons.
  destruct (Z.eqb_spec x 0) as [->|Hne]; [cbn [Z.ltb Z.compare length] in *; lia|].
  assert ((0 <? x) = true) as -> by lia. cbn [length] in *. lia.
Qed.

Lemma log_every_Ret n l l' : log_every n l = Ret l' -> l' = l.
Proof. unfold log_every. destruct (_ =? 0); [done|]. by intros [= <-]. Qed.

Lemma announces_true j a : announces j a = true <-> scan_tx_data (an_Data a) = Some j.
Proof.
  unfold announces. destruct (scan_tx_data _) as [i|]; [|done].
  rewrite Z.eqb_eq. split; [by intros ->|by intros [= ->]].
Qed.

(** One announcement: the measurement is aborted, or the latencies that are
    to come do not change and the announcement is counted once. *)
Lemma measure_tx_inv n k a txs es l l' :
  load_inv n k l -> ld_measuring l = Reading -> all_timely n l (a :: txs) es -> measure_tx a l = Ret l' ->
  (exists e, ld_measuring l' = Measured (Some e)) \/
  (ld_measuring l' = Reading /\ load_inv n (k + 1) l' /\ in_range n a /\
   forall j, Z.of_nat j < n -> coming_latency l' j txs es = coming_latency l j (a :: txs) es).
Proof.
  intros [Htot Hlen Hst Hse Htick Hpos Hrec Hk] Hm Ht H. unfold measure_tx in H.
  destruct (scan_tx_data (an_Data a)) as [i|] eqn:Hi; [|injection H as <-; left; cbn; eauto].
  destruct ((i <? 0) || (lr_TotalTxs (ld_Result l) <=? i)) eqn:Hrange; [injection H as <-; left; cbn; eauto|].
  apply orb_false_iff in Hrange as [H1 H2]. right. apply log_every_Ret in H as ->.
  assert (in_range n a) as Hin by (exists i; split; [done|lia]).
  assert (announces (Z.of_nat (Z.to_nat i)) a = true) as Hann by (rewrite Z2Nat.id by lia; by apply announces_true).
  assert (forall j, j <> Z.to_nat i -> announces (Z.of_nat j) a = false) as Hother.
  { intros j Hj. unfold announces. rewrite Hi. lia. }
  destruct (Z.eqb_spec (nth (Z.to_nat i) (lr_LatenciesMus (ld_Result l)) 0) 0) as [Hz|Hnz].
  - specialize (Ht (Z.to_nat i) (latency_of (nth (Z.to_nat i) (lr_TxStartTime (ld_Result l)) zeroTime) a) ltac:(lia)).
    unfold coming_latency in Ht at 1. cbn [find] in Ht. rewrite Hz, Hann in Ht. specialize (Ht eq_refl).
    assert (Z.to_nat i < length (lr_LatenciesMus (ld_Result l)))%nat as Hil by lia.
    split; [done|]. split; [|split; [done|]].
    + split; cbn; try done; [by rewrite length_insert| | |lia].
      * intros x Hx. apply list_elem_of_lookup in Hx as [j Hj].
        apply list_lookup_insert_Some in Hj as [(<- & <- & _)|[_ Hj]]; [unfold latency_of in Ht; lia|].
        apply Hpos. by eapply list_elem_of_lookup_2.
      * rewrite measured_count_insert by done. lia.
    + intros j Hj. unfold coming_latency. cbn -[first_latency find]. destruct (decide (j = Z.to_nat i)) as [->|Hne].
      * rewrite (nth_lookup_Some _ _ _ _ (list_lookup_insert_eq _ _ _ Hil)). rewrite Hz. cbn [find]. rewrite Hann.
        unfold latency_of in *. set (lat := Microseconds _) in *.
        assert ((lat =? 0) = false) as -> by lia. done.
      * rewrite !nth_lookup, list_lookup_insert_ne by done. cbn [find]. by rewrite (Hother j Hne).
  - split; [done|]. split; [|split; [done|]].
    + split; cbn; try done. lia.
    + intros j Hj. unfold coming_latency. cbn -[first_latency find]. destruct (decide (j = Z.to_nat i)) as [->|Hne].
      * by apply Z.eqb_neq in Hnz as ->.
      * cbn [find]. by rewrite (Hother j Hne).
Qed.

Lemma measure_txs_inv n k txs es l l' :
  load_inv n k l -> ld_measuring l = Reading -> all_timely n l txs es -> measure_txs txs l = Ret l' ->
  (exists e, ld_measuring l' = Measured (Some e)) \/
  (ld_measuring l' = Reading /\ load_inv n (k + Z.of_nat (length txs)) l' /\ Forall (in_range n) txs /\
   forall j, Z.of_nat j < n -> coming_latency l' j [] es = coming_latency l j txs es).
Proof.
  revert k l. induction txs as [|a txs IH]; intros k l Hinv Hm Ht H; cbn [measure_txs] in H.
  { injection H as <-. right. rewrite Z.add_0_r. by split_and!. }
  apply go_bind_Ret in H as (l1 & Ha & H).
  destruct (measure_tx_inv n k a txs es l l1 Hinv Hm Ht Ha) as [(e & Hm1)|(Hm1 & Hinv1 & Hr & Hc)]; rewrite Hm1 in H.
  - injection H as <-. eauto.
  - destruct (IH (k + 1) l1 Hinv1 Hm1) as [He|(Hm2 & Hinv2 & Hr2 & Hc2)]; [|done|by left|right].
    { intros j lat Hj. rewrite Hc by done. by apply Ht. }
    split_and!; [done| |by constructor|].
    + cbn [length]. by replace (k + Z.of_nat (S (length txs))) with (k + 1 + Z.of_nat (length txs)) by lia.
    + intros j Hj. by rewrite Hc2, Hc.
Qed.

Lemma finish_measure_inv n k l :
  load_inv n k l ->
  (exists e, ld_measuring (finish_measure l) = Measured (Some e)) \/
  measured_ok n k (lr_LatenciesMus (ld_Result l)) (finish_measure l).
Proof.
  intros [Htot Hlen Hst Hse Htick Hpos Hrec Hk]. unfold finish_measure.
  destruct (lr_Failed (ld_Result l)); [left; cbn; eauto|right]. rewrite mark_missed_spec by done.
  split; cbn; try done. lia.
Qed.

(** What one event does to a measurement that is running, with the events [es]
    to come: it aborts it, goes on with it, or ends it. *)
Inductive measure_progress (n k : Z) (es : list load_event) (want : nat -> option Z) (l' : load) : Prop :=
| progress_aborted e : ld_measuring l' = Measured (Some e) -> measure_progress n k es want l'
| progress_reading :
    ld_measuring l' = Reading -> load_inv n k l' ->
    (forall j, Z.of_nat j < n -> coming_latency l' j [] es = want j) -> measure_progress n k es want l'
| progress_ended l1 :
    measured_ok n k (lr_LatenciesMus (ld_Result l1)) l' ->
    (forall j, Z.of_nat j < n -> coming_latency l1 j [] es = want j) -> measure_progress n k es want l'.

Lemma finish_progress n k es want l :
  load_inv n k l -> (forall j, Z.of_nat j < n -> coming_latency l j [] es = want j) ->
  measure_progress n k es want (finish_measure l).
Proof.
  intros Hinv Hc. destruct (finish_measure_inv n k l Hinv) as [[e He]|Hok]; [by eapply progress_aborted|].
  by eapply progress_ended.
Qed.

Lemma measure_read_progress n k r ctxDone now es l l' :
  load_inv n k l -> ld_measuring l = Reading -> all_timely n l [] (Read r ctxDone now :: es) ->
  measure_read r ctxDone now l = Ret l' ->
  measure_progress n (k + Z.of_nat (length (announcements [Read r ctxDone now]))) es
    (fun j => coming_latency l j [] (Read r ctxDone now :: es)) l' /\
  ((exists e, ld_measuring l' = Measured (Some e)) \/ Forall (in_range n) (announcements [Read r ctxDone now])).
Proof.
  intros Hinv Hm Ht H. destruct r as [|e|txs]; cbn [measure_read announcements flat_map app length] in *.
  - injection H as <-. rewrite Z.add_0_r. split; [by apply finish_progress|by right].
  - injection H as <-. split; [by eapply progress_aborted|left; cbn; eauto].
  - rewrite app_nil_r. destruct txs as [|a txs].
    { injection H as <-. rewrite Z.add_0_r. split; [by apply progress_reading|by right]. }
    apply go_bind_Ret in H as (l1 & H1 & H). injection H as <-.
    destruct (measure_txs_inv n k (a :: txs) es l l1 Hinv Hm Ht H1) as [[e He]|(Hm1 & Hinv1 & Hr & Hc)].
    { rewrite He. split; [by eapply progress_aborted|left; eauto]. }
    rewrite Hm1. split; [|by right].
    destruct (lr_TotalTxs (ld_Result l1) <=? ld_receivedEvents l1); [by apply finish_progress|].
    destruct ctxDone; [by eapply progress_aborted|]. destruct (ld_testDeadline l1 <? now); [by eapply progress_aborted|].
    destruct (lr_Failed (ld_Result l1)); [by eapply progress_aborted|by apply progress_reading].
Qed.

(** The other goroutines leave what is measured as it is. *)
Record same_measure (l l' : load) : Prop := {
  sm_total : lr_TotalTxs (ld_Result l') = lr_TotalTxs (ld_Result l);
  sm_lats : lr_LatenciesMus (ld_Result l') = lr_LatenciesMus (ld_Result l);
  sm_dups : lr_DuplicatedP2PEventCount (ld_Result l') = lr_DuplicatedP2PEventCount (ld_Result l);
  sm_missed : lr_NotReceivedP2PEventCount (ld_Result l') = lr_NotReceivedP2PEventCount (ld_Result l);
  sm_received : ld_receivedEvents l' = ld_receivedEvents l;
  sm_measuring : ld_measuring l' = ld_measuring l
}.

#[local] Ltac same := by split.

(** The generation times after an event. *)
Definition times_after (e : load_event) (starts : list Z) : list Z :=
  match e with Generated i now (Ok _) => <[Z.to_nat i := now]> starts | _ => starts end.

Lemma quiet_step e l l' :
  load_step e l = Some (Ret l') -> (forall r c now, e <> Read r c now) ->
  same_measure l l' /\ lr_TxStartTime (ld_Result l') = times_after e (lr_TxStartTime (ld_Result l)).
Proof.
  intros H Hread.
  destruct e as [now|omitted ctxDone now|now|i now r|i err|r ctxDone now]; cbn [load_step] in H;
    [| | | | |by destruct (Hread r ctxDone now)].
  - destruct (ld_generator l); try done. apply (inj Some) in H. unfold generator_start in H.
    destruct (_ <? _) in H; cbn [ld_TPS with_deadline with_result] in H;
      destruct (ld_TPS l =? 0) in H; try done; destruct (_ <=? 0) in H; try done; injection H as <-; split; [same|done|same|done].
  - destruct (ld_generator l) as [|i|]; try done. destruct (_ <? _); [|done]. apply (inj Some) in H.
    unfold generator_tick in H. apply go_bind_Ret in H as (l1 & Hlog & H). apply log_every_Ret in Hlog as ->.
    injection H as <-. destruct omitted; split; [same|done|same|done].
  - destruct (ld_generator l) as [|i|]; try done. destruct (_ <? _); [done|]. injection H as <-. split; [same|done].
  - destruct (ld_senders l !! i) as [[?|]|]; try done. injection H as <-. destruct r; split; [same|done|same|done].
  - destruct (ld_senders l !! i) as [[tx|]|]; try done. apply (inj Some) in H. unfold tx_sent in H. destruct err as [e|].
    + injection H as <-. destruct (lr_Failed _); split; [same|done|same|done].
    + apply log_every_Ret in H as ->. split; [same|done].
Qed.

(** The indexes of the goroutines are not negative. *)
Lemma quiet_indexes e l l' :
  (forall i s, ld_senders l !! i = Some s -> 0 <= i) -> (forall i, ld_generator l = AtTick i -> 0 <= i) ->
  load_step e l = Some (Ret l') -> (forall r c now, e <> Read r c now) ->
  (forall i s, ld_senders l' !! i = Some s -> 0 <= i) /\ (forall i, ld_generator l' = AtTick i -> 0 <= i) /\
  (forall i now r, e = Generated i now r -> 0 <= i).
Proof.
  intros Hse Htick H Hread.
  destruct e as [now|omitted ctxDone now|now|i now r|i err|r ctxDone now]; cbn [load_step] in H;
    [| | | | |by destruct (Hread r ctxDone now)].
  - destruct (ld_generator l); try done. apply (inj Some) in H. unfold generator_start in H.
    destruct (_ <? _) in H; cbn [ld_TPS with_deadline with_result] in H;
      destruct (ld_TPS l =? 0) in H; try done; destruct (_ <=? 0) in H; try done; injection H as <-;
      (split_and!; [done|cbn; by intros ? [= <-]|done]).
  - destruct (ld_generator l) as [|i|] eqn:Hg; try done. destruct (_ <? _); [|done]. apply (inj Some) in H.
    unfold generator_tick in H. apply go_bind_Ret in H as (l1 & Hlog & H). apply log_every_Ret in Hlog as ->.
    injection H as <-. pose proof (Htick i eq_refl) as Hi. split_and!; [..|done]; destruct omitted; cbn.
    all: try (intros j s [[<- <-]|[? Hj]]%lookup_insert_Some; [done|by eapply Hse]).
    all: intros j; destruct (_ || _); [done|]; intros [= <-]; lia.
  - destruct (ld_generator l) as [|i|] eqn:Hg; try done. destruct (_ <? _); [done|]. injection H as <-. by split_and!.
  - destruct (ld_senders l !! i) as [[?|]|] eqn:Hs; try done. injection H as <-. pose proof (Hse _ _ Hs) as Hi.
    destruct r as [tx|e]; cbn [tx_generated]; split_and!; try done; cbn; try (by intros ? ? ? [= <- _ _]); intros j s.
    + intros [[<- <-]|[? Hj]]%lookup_insert_Some; [done|by eapply Hse].
    + intros [? Hj]%lookup_delete_Some. by eapply Hse.
  - destruct (ld_senders l !! i) as [[tx|]|] eqn:Hs; try done. apply (inj Some) in H. unfold tx_sent in H.
    assert (forall j s, delete i (ld_senders l) !! j = Some s -> 0 <= j) as Hdel.
    { intros j s [? Hj]%lookup_delete_Some. by eapply Hse. }
    destruct err as [e|].
    + injection H as <-. destruct (lr_Failed _); by split_and!.
    + apply log_every_Ret in H as ->. by split_and!.
Qed.

Lemma coming_quiet n k e es l l' :
  load_inv n k l -> (forall r c now, e <> Read r c now) -> same_measure l l' ->
  lr_TxStartTime (ld_Result l') = times_after e (lr_TxStartTime (ld_Result l)) ->
  (forall i now r, e = Generated i now r -> 0 <= i) ->
  forall j, Z.of_nat j < n -> coming_latency l' j [] es = coming_latency l j [] (e :: es).
Proof.
  intros Hinv Hread [_ Hl _ _ _ _] Hst Hi j Hj. unfold coming_latency. rewrite Hl, Hst. destruct (_ =? 0); [|done].
  destruct e as [| | |i now [tx|e]| |r c now]; cbn -[nth]; try done; [|by destruct (Hread r c now)].
  specialize (Hi i now (Ok tx) eq_refl). pose proof (li_starts _ _ _ Hinv) as Hlen.
  destruct (Z.eqb_spec i (Z.of_nat j)) as [->|Hne].
  - rewrite Nat2Z.id. assert (j < length (lr_TxStartTime (ld_Result l)))%nat as Hj' by lia.
    by rewrite (nth_lookup_Some _ _ _ _ (list_lookup_insert_eq _ _ _ Hj')).
  - rewrite !nth_lookup, list_lookup_insert_ne by lia. done.
Qed.

Lemma load_step_progress n k e es l l' :
  load_inv n k l -> ld_measuring l = Reading -> all_timely n l [] (e :: es) -> load_step e l = Some (Ret l') ->
  measure_progress n (k + Z.of_nat (length (announcements [e]))) es (fun j => coming_latency l j [] (e :: es)) l' /\
  ((exists e, ld_measuring l' = Measured (Some e)) \/ Forall (in_range n) (announcements [e])).
Proof.
  intros Hinv Hm Ht H.
  destruct (match e with Read _ _ _ => true | _ => false end) eqn:Hread.
  { destruct e as [| | | | |r c now]; try done. cbn [load_step] in H. rewrite Hm in H. apply (inj Some) in H.
    by apply measure_read_progress. }
  assert (announcements [e] = [] /\ forall r c now, e <> Read r c now) as [Ha Hr] by (by destruct e).
  destruct (quiet_step e l l' H Hr) as [Hsame Hst].
  destruct (quiet_indexes e l l' (li_senders _ _ _ Hinv) (li_tick _ _ _ Hinv) H Hr) as (Hse & Htick & Hi).
  rewrite Ha. split; [|by right]. cbn [length Z.of_nat]. rewrite Z.add_0_r.
  pose proof (coming_quiet n k e es l l' Hinv Hr Hsame Hst Hi) as Hc.
  destruct Hsame as [E1 E2 E3 E4 E5 E6]. apply progress_reading; [congruence| |done].
  destruct Hinv. split; rewrite ?E1, ?E2, ?E3, ?E5; try done.
  rewrite Hst. destruct e as [| | |? ? []| |]; cbn; rewrite ?length_insert; done.
Qed.

(** Once the measurement has ended, nothing is read and nothing changes. *)
Lemma measured_run es l l' err :
  ld_measuring l = Measured err -> load_run es l = Some (Ret l') -> announcements es = [] /\ same_measure l l'.
Proof.
  revert l. induction es as [|e es IH]; intros l Hm H; cbn [load_run] in H; [injection H as <-; by split|].
  destruct (load_step e l) as [[l1|?|?]|] eqn:He; try done.
  assert (announcements [e] = [] /\ forall r c now, e <> Read r c now) as [Ha Hr].
  { destruct e; try done. cbn in He. by rewrite Hm in He. }
  destruct (quiet_step e l l1 He Hr) as [Hsame _].
  destruct (IH l1 ltac:(destruct Hsame; congruence) H) as [Ha2 Hsame2]. split.
  - change (e :: es) with ([e] ++ es). unfold announcements in *. rewrite flat_map_app, Ha. exact Ha2.
  - destruct Hsame, Hsame2. split; congruence.
Qed.

(** A transaction has a latency exactly when it was announced. *)
Lemma first_latency_announced j start es :
  is_Some (first_latency j start es) <-> existsb (announces j) (announcements es) = true.
Proof.
  revert start. induction es as [|e es IH]; intros start; [split; [by intros []|done]|].
  destruct e as [| | |i now []| |[| |txs] c now]; cbn [first_latency]; try exact (IH start); try apply IH.
  change (announcements (Read (ReadTxs txs) c now :: es)) with (txs ++ announcements es).
  rewrite existsb_app, orb_true_iff, <- (IH start), existsb_exists. destruct (find _ txs) as [a|] eqn:Hf.
  - apply find_some in Hf. split; [by left; exists a|by eexists].
  - split; [by right|]. intros [(a & Ha & Hj)|?]; [|done]. pose proof (find_none _ _ Hf a Ha). congruence.
Qed.

Lemma announced_from_here e es : announcements (e :: es) = announcements [e] ++ announcements es.
Proof. cbn. by rewrite app_nil_r. Qed.

(** The whole measurement: what was to come is what it has in the end. *)
Lemma load_run_measured n k es l l' :
  load_inv n k l -> ld_measuring l = Reading -> all_timely n l [] es -> load_run es l = Some (Ret l') ->
  ld_measuring l' = Measured None ->
  Forall (in_range n) (announcements es) /\
  exists lats, measured_ok n (k + Z.of_nat (length (announcements es))) lats l' /\
    (forall j, Z.of_nat j < n -> nth j lats 0 = default 0 (coming_latency l j [] es)).
Proof.
  revert k l. induction es as [|e es IH]; intros k l Hinv Hm Ht H Hend; cbn [load_run] in H.
  { injection H as <-. congruence. }
  destruct (load_step e l) as [[l1|?|?]|] eqn:He; try done. rewrite announced_from_here, length_app, Nat2Z.inj_add, Z.add_assoc.
  destruct (load_step_progress n k e es l l1 Hinv Hm Ht He) as [Hp Hr].
  destruct Hp as [err Hm1|Hm1 Hinv1 Hc|l2 Hok Hc].
  - destruct (measured_run es l1 l' _ Hm1 H) as [_ Hsame]. destruct Hsame; congruence.
  - destruct Hr as [[? ?]|Hr]; [congruence|].
    destruct (IH _ l1 Hinv1 Hm1) as (Hr2 & lats & Hok & Hl); [|done|done|].
    { intros j lat Hj. rewrite Hc by done. by apply Ht. }
    split; [by apply Forall_app|]. exists lats. split; [done|]. intros j Hj. by rewrite Hl, Hc.
  - destruct (measured_run es l1 l' _ (mo_done _ _ _ _ Hok) H) as [Ha Hsame]. rewrite Ha.
    destruct Hr as [[? Hr]|Hr]; [pose proof (mo_done _ _ _ _ Hok); congruence|].
    split; [by apply Forall_app|]. exists (lr_LatenciesMus (ld_Result l2)). split.
    + cbn [length Z.of_nat]. rewrite Z.add_0_r. destruct Hsame, Hok. by split; congruence.
    + intros j Hj. rewrite <- Hc by done. unfold coming_latency. cbn [find].
      destruct (Z.eqb_spec (nth j (lr_LatenciesMus (ld_Result l2)) 0) 0) as [->|]; [|done].
      destruct (first_latency _ _ es) as [lat|] eqn:Hf; [|done].
      pose proof (proj1 (first_latency_announced _ _ es) (mk_is_Some _ _ Hf)) as Hx. by rewrite Ha in Hx.
Qed.

Lemma NewLoad_inv tps durationS deadline logInterval l :
  NewLoad tps durationS deadline logInterval = Ret l ->
  load_inv (i64 (tps * durationS)) 0 l /\ ld_measuring l = Reading /\
  forall j es, coming_latency l j [] es = first_latency (Z.of_nat j) zeroTime es.
Proof.
  unfold NewLoad, NewLoadResult. destruct (_ || _) eqn:Hr; [done|]. apply orb_false_iff in Hr as [H1 H2].
  cbn [go_bind]. intros [= <-]. split_and!; [|done|].
  - split; cbn; try done; [rewrite length_replicate; lia..| |].
    + intros x Hx. apply elem_of_replicate in Hx as [-> _]. lia.
    + unfold measured_count. generalize (Z.to_nat (i64 (tps * durationS))). intros m.
      induction m as [|m IH]; [done|]. cbn [replicate]. rewrite filterb_cons. cbn [Z.ltb Z.compare]. exact IH.
  - intros j es. unfold coming_latency. cbn [ld_Result lr_LatenciesMus lr_TxStartTime]. assert (forall m (x : Z), nth j (replicate m x) x = x) as Hrep.
    { intros m x. rewrite nth_lookup. destruct (replicate m x !! j) as [y|] eqn:Hy; [|done].
      by apply lookup_replicate in Hy as [-> _]. }
    by rewrite !Hrep.
Qed.

(** How many of the first [n] transactions the announcements name. *)
Definition announced_count (n : Z) (anns : list announced) : Z :=
  Z.of_nat (length (filterb (fun j => existsb (announces (Z.of_nat j)) anns) (seq 0 (Z.to_nat n)))).

Lemma measured_announced n lats es :
  timely es -> Z.of_nat (length lats) = n ->
  (forall j, Z.of_nat j < n -> nth j lats 0 = default 0 (first_latency (Z.of_nat j) zeroTime es)) ->
  measured_count lats = announced_count n (announcements es).
Proof.
  intros Ht Hlen Hl. unfold measured_count, announced_count. subst n. rewrite Nat2Z.id. f_equal.
  assert (lats = map (fun j => default 0 (first_latency (Z.of_nat j) zeroTime es)) (seq 0 (length lats))) as E.
  { apply (nth_ext _ _ 0 0); [by rewrite length_map, length_seq|]. intros j Hj. rewrite Hl by lia.
    rewrite (nth_indep _ 0 (default 0 (first_latency (Z.of_nat 0) zeroTime es))) by (by rewrite length_map, length_seq).
    by rewrite (map_nth (fun j => default 0 (first_latency (Z.of_nat j) zeroTime es))), seq_nth. }
  rewrite E at 1. clear E Hl. generalize (seq 0 (length lats)). intros js.
  induction js as [|j js IH]; [done|]. cbn [map]. rewrite !filterb_cons.
  pose proof (first_latency_announced (Z.of_nat j) zeroTime es) as Hann.
  destruct (first_latency (Z.of_nat j) zeroTime es) as [lat|] eqn:Hf; cbn [default].
  - rewrite (proj1 Hann ltac:(by eexists)). cbn [from_option id]. assert ((0 <? lat) = true) as -> by (specialize (Ht _ _ Hf); lia).
    cbn [length]. by rewrite IH.
  - destruct (existsb _ _); [by destruct (proj2 Hann eq_refl)|]. exact IH.
Qed.

(** C36: Every transaction has the latency of its own first announcement.  A
    measurement of [tps * durationS] transactions that ends without an error,
    in whatever order the generator, the senders and the measuring task took
    their turns, has: for each transaction [j] the microseconds from its
    generation to the first announcement that carries the index [j], whatever
    is announced later, and -1 when no announcement carries it; the number of
    those announced and of those missed; every announcement carrying an index
    in range, and each one that is not the first of its transaction counted as
    a duplicate.  This assumes [timely]: no first latency is below one
    microsecond, because the code takes a latency of 0 for a transaction that
    was not announced yet ([early_announcement_missed]). *)
Theorem announcements_accounted (tps durationS deadline logInterval : Z) (es : list load_event) (l0 l : load) :
  NewLoad tps durationS deadline logInterval = Ret l0 -> timely es -> load_run es l0 = Some (Ret l) ->
  ld_measuring l = Measured None ->
  let r := ld_Result l in
  let n := i64 (tps * durationS) in
  Z.of_nat (length (lr_LatenciesMus r)) = n /\
  (forall j, Z.of_nat j < n ->
     lr_LatenciesMus r !! j = Some (default (-1) (first_latency (Z.of_nat j) zeroTime es))) /\
  Forall (in_range n) (announcements es) /\
  ld_receivedEvents l = announced_count n (announcements es) /\
  lr_NotReceivedP2PEventCount r = n - announced_count n (announcements es) /\
  lr_DuplicatedP2PEventCount r = Z.of_nat (length (announcements es)) - announced_count n (announcements es).
Proof.
  intros H0 Ht Hrun Hm. destruct (NewLoad_inv _ _ _ _ _ H0) as (Hinv & Hr & Hc). cbn zeta.
  destruct (load_run_measured _ 0 es l0 l Hinv Hr) as (Hrange & lats & Hok & Hl); [|done|done|].
  { intros j lat _. rewrite Hc. apply Ht. }
  assert (forall j, Z.of_nat j < i64 (tps * durationS) -> nth j lats 0 = default 0 (first_latency (Z.of_nat j) zeroTime es)) as Hl'.
  { intros j Hj. by rewrite Hl, Hc. }
  destruct Hok as [_ Hlats Hlen Hrec Hmiss Hdup]. rewrite (measured_announced _ lats es Ht Hlen Hl') in Hrec.
  split_and!; [by rewrite Hlats, length_fmap| |done|done|lia|lia].
  intros j Hj. rewrite Hlats, list_lookup_fmap.
  destruct (lats !! j) as [x|] eqn:Hx; [|apply lookup_ge_None in Hx; lia].
  pose proof (Hl' j Hj) as Hn. rewrite (nth_lookup_Some _ _ _ _ Hx) in Hn. subst x. cbn [fmap option_fmap option_map]. f_equal.
  destruct (first_latency _ _ es) as [lat|] eqn:Hf; cbn [default from_option id]; [|done].
  specialize (Ht _ _ Hf). by destruct (Z.eqb_spec lat 0); [lia|].
Qed.

(** A load without a rate ends the program.  [Validate] accepts a rate of
    zero, a negative one, or a log interval of zero; with a rate that is not
    positive the generator goroutine panics as it starts, and with a log
    interval of zero at its first tick, and nothing recovers a panic there. *)
Theorem zero_rate_crashes (l : load) (now : Z) (omitted ctxDone : bool) (i : Z) :
  (ld_TPS l <= 0 -> ld_generator l = Asleep -> exists what, load_step (Started now) l = Some (Panic what)) /\
  (ld_LogInterval l = 0 -> ld_generator l = AtTick i -> i < lr_TotalTxs (ld_Result l) ->
     exists what, load_step (Ticked omitted ctxDone now) l = Some (Panic what)).
Proof.
  split.
  - intros Htps Hg. cbn [load_step]. rewrite Hg. unfold generator_start.
    assert (forall l1, ld_TPS l1 = ld_TPS l -> exists what,
      (if ld_TPS l1 =? 0 then Panic (A := load) "integer divide by zero"
       else if Z.quot Second (ld_TPS l1) <=? 0 then Panic "non-positive interval for NewTicker"
            else Ret (with_generator (AtTick 0) l1)) = Panic what) as H.
    { intros l1 ->. destruct (Z.eqb_spec (ld_TPS l) 0); [eauto|].
      assert (Z.quot Second (ld_TPS l) <= 0) as Hq.
      { replace (ld_TPS l) with (- - ld_TPS l) by lia. rewrite Z.quot_opp_r by lia.
        pose proof (Z.quot_pos Second (- ld_TPS l) ltac:(unfold Second; lia) ltac:(lia)). lia. }
      assert ((Z.quot Second (ld_TPS l) <=? 0) = true) as -> by lia. eauto. }
    destruct (_ <? _);
      match goal with |- context [with_generator (AtTick 0) ?l1] => destruct (H l1 eq_refl) as [what Hw] end;
      exists what; f_equal; exact Hw.
  - intros Hlog Hg Hi. cbn [load_step]. rewrite Hg. assert ((i <? lr_TotalTxs (ld_Result l)) = true) as -> by lia.
    eexists. unfold generator_tick, log_every. destruct omitted; cbn; by rewrite Hlog.
Qed.

End load.

(** ** The transaction of a load target *)

Section target.
Context `{types : EthTypes} `{geth : !GethTx}.
#[local] Existing Instance types.

(** [LoadTarget.GenerateTransaction]: a random amount below ten ether to the
    wallet itself (nothing when the random source fails). *)
Definition GenerateTransaction (chainID : Z) (rnd : randomness) (ctxErr : option error) (i : Z) (w : Wallet)
    : Wallet * option (result Tx) :=
  BuildTransaction ctxErr (fun nonce =>
    let txAmount := match rnd_Int rnd 10000000000000000000 with Ok n => n | Err _ => 0 end in
    Ok (geth_NewTx (DynamicFeeTx chainID nonce 1000000000 100000000000 50000 (Some (address w)) txAmount
                      (String.list_byte_of_string (tx_data i))))) w.

End target.

(** *** The index is read back *)

Lemma leading_digits_go (x : N) (s : string) :
  leading_digits (pretty_N_go x s) = pretty_N_go x (leading_digits s).
Proof.
  revert s. induction (N.lt_wf_0 x) as [x _ IH]; intros s. destruct (decide (0 < x)%N) as [Hx|Hx].
  - rewrite !(pretty_N_go_step x) by done. rewrite IH by (apply N.div_lt; lia). f_equal.
    cbn [leading_digits]. rewrite pretty_N_char_digit by (apply N.mod_lt; lia).
    pose proof (N.mod_lt x 10 ltac:(done)).
    generalize dependent (x `mod` 10)%N. intros d Hd.
    assert (((0 <=? Z.of_N d) && (Z.of_N d <=? 9)) = true) as -> by lia. done.
  - assert (x = 0%N) as -> by lia. by rewrite !pretty_N_go_0.
Qed.

Lemma scan_positive (x : N) (s : string) :
  (0 < x)%N -> leading_digits s = EmptyString -> Z.of_N x < two63 -> scan_int (pretty_N_go x s) = Some (Z.of_N x).
Proof.
  intros Hx Hs Hbound. unfold scan_int.
  pose proof (leading_digits_go x s) as Hld. rewrite Hs in Hld.
  pose proof (parse_pretty_go x EmptyString) as Hparse. cbn [parse_digits] in Hparse.
  destruct (pretty_go_head x s Hx) as (d & s' & Hd & Hd1). destruct (pretty_go_head x EmptyString Hx) as (d' & t' & Hd' & _).
  rewrite Hd in Hld |- *. rewrite Hd' in Hld, Hparse.
  assert (d ∈ [1; 2; 3; 4; 5; 6; 7; 8; 9]%N) as Hin by (rewrite !elem_of_cons; lia).
  assert (skip_blanks (String (pretty_N_char d) s') = String (pretty_N_char d) s') as Hskip.
  { clear -Hin. repeat (apply elem_of_cons in Hin as [->|Hin]; [done|]). by apply elem_of_nil in Hin. }
  rewrite Hskip.
  assert ((match String (pretty_N_char d) s' with
           | String "-" s => Z.opp <$> match leading_digits s with EmptyString => None | String _ _ as ds => parse_digits 0 ds end
           | String "+" s => match leading_digits s with EmptyString => None | String _ _ as ds => parse_digits 0 ds end
           | s => match leading_digits s with EmptyString => None | String _ _ as ds => parse_digits 0 ds end
           end) = Some (Z.of_N x)) as ->.
  { assert (match leading_digits (String (pretty_N_char d) s') with
            | EmptyString => None | String _ _ as ds => parse_digits 0 ds end = Some (Z.of_N x)) as Hdig.
    { rewrite Hld. exact Hparse. }
    clear -Hin Hdig. repeat (apply elem_of_cons in Hin as [->|Hin]; [exact Hdig|]). by apply elem_of_nil in Hin. }
  cbn [mbind option_bind].
  assert ((- two63 <=? Z.of_N x) && (Z.of_N x <? two63) = true) as -> by (unfold two63 in *; lia). done.
Qed.

(** Indexes survive the transport.  The index that the load tool writes
    into the data of a transaction is the one it reads from the announcement. *)
Theorem tx_index_roundtrip (i : Z) : 0 <= i < two63 -> scan_tx_data (tx_data i) = Some i.
Proof.
  intros [H0 H1]. unfold scan_tx_data, tx_data.
  assert (forall s, strip_literal "txIndex:" ("txIndex:" +:+ s) = Some s) as -> by reflexivity.
  cbn [mbind option_bind]. destruct i as [|p|p]; [done| |lia].
  change (pretty (Z.pos p)) with (pretty (N.pos p)). unfold pretty, pretty_N. rewrite decide_False by done.
  by apply (scan_positive (N.pos p)).
Qed.

(** ** tx_pool_latency_analysis *)

Record LatencyConfig := mkLatencyConfig {
  la_PrivateKey : string; la_TPS : Z; la_DurationS : Z; la_LogInterval : Z; la_SecondsBeforeRunning : Z }.
Definition la_DefaultConfig : LatencyConfig := mkLatencyConfig "" 100 60 100 0.

(** The largest latency and the smallest positive one. *)
Definition latency_stats (lats : list Z) : Z * Z :=
  fold_left (fun mm lat => (if mm.1 <? lat then lat else mm.1, if (lat <? mm.2) && (0 <? lat) then lat else mm.2))
    lats (0, MaxInt64).

(** [float64(a)/float64(b)] *)
Definition rate (a b : Z) : spec_float := f64_div (f64 a) (f64 b).

Section pool_tasks.
Context `{lib : Library} {Tx client : Type}.

(** The rendering of a [float64], and of the list of measures of a sweep. *)
Variable fmt_f : spec_float -> string.

Definition set_out (i : Z) (name : string) (x : value) (w : TaskScheduler) : TaskScheduler :=
  set_var (ctx_Outputs i w) name x w.

(** How a measurement with this load and these events ends: an error, or the
    measured result; [None] if the events do not end it. *)
Definition run_load (tps durationS testDeadline logInterval : Z) (es : list load_event)
    : option (go (load (Tx := Tx) * option error)) :=
  match NewLoad tps durationS testDeadline logInterval with
  | Panic p => Some (Panic p)
  | Fail e => Some (Fail e)
  | Ret l0 =>
      match load_run es l0 with
      | Some (Ret l) => match ld_measuring l with Measured e => Some (Ret (l, e)) | Reading => None end
      | Some (Fail e) => Some (Fail e)
      | Some (Panic p) => Some (Panic p)
      | None => None
      end
  end.

(** Before the load: [ready] is the end of [AwaitReady], [waited] the error of
    a context cancelled during the waiting time; [pick] is the random client. *)
Definition pool_prepare (ready : option error) (clients : list client) (secondsBeforeRunning : Z) (waited : option error)
    : result bool :=
  match ready with
  | Some e => Err ("cannot load wallet state: " +:+ e)
  | None =>
      match clients with
      | [] => Ok false
      | _ => if 0 <? secondsBeforeRunning then match waited with Some e => Err e | None => Ok true end else Ok true
      end
  end.

Definition la_Execute (i : Z) (c : LatencyConfig) (ready : option error) (clients : list client) (waited : option error)
    (now : Z) (es : list load_event) (Plot : list Z -> result string) (WriteFile : string -> option error)
    (w : TaskScheduler) : option (go (TaskScheduler * option error)) :=
  match pool_prepare ready clients (la_SecondsBeforeRunning c) waited with
  | Err e => Some (Ret (w, Some e))
  | Ok false => Some (Ret (ctx_SetResult i TaskResultFailure w, None))
  | Ok true =>
      match run_load (la_TPS c) (la_DurationS c) (now + Second * (la_DurationS c + 1800)) (la_LogInterval c) es with
      | None => None
      | Some (Panic p) => Some (Panic p)
      | Some (Fail e) => Some (Fail e)
      | Some (Ret (l, Some e)) => Some (Ret (ctx_SetResult i TaskResultFailure w, Some e))
      | Some (Ret (l, None)) =>
          let w := if ld_taskFailed l then ctx_SetResult i TaskResultFailure w else w in
          let r := ld_Result l in
          if lr_Failed r then Some (Ret (w, Some "error measuring transaction propagation latencies: load failed"))
          else
            let '(maxLatency, minLatency) := latency_stats (lr_LatenciesMus r) in
            match Plot (lr_LatenciesMus r) with
            | Err _ => Some (Ret (ctx_SetResult i TaskResultFailure w, None))
            | Ok plot =>
                match WriteFile plot with
                | Some _ => Some (Ret (ctx_SetResult i TaskResultFailure w, None))
                | None =>
                    let n := lr_TotalTxs r in
                    let w := set_out i "tx_count" (VInt n) w in
                    let w := set_out i "min_latency_mus" (VInt minLatency) w in
                    let w := set_out i "max_latency_mus" (VInt maxLatency) w in
                    let w := set_out i "duplicated_p2p_event_count" (VInt (lr_DuplicatedP2PEventCount r)) w in
                    let w := set_out i "missed_p2p_event_count" (VInt (lr_NotReceivedP2PEventCount r)) w in
                    let w := set_out i "coordinated_omission_event_count" (VInt (lr_CoordinatedOmissionEventCount r)) w in
                    let w := set_out i "duplicated_p2p_event_rate" (VFloat (fmt_f (rate (lr_DuplicatedP2PEventCount r) n))) w in
                    let w := set_out i "missed_p2p_event_rate" (VFloat (fmt_f (rate (lr_NotReceivedP2PEventCount r) n))) w in
                    let w := set_out i "coordinated_omission_event_rate" (VFloat (fmt_f (rate (lr_CoordinatedOmissionEventCount r) n))) w in
                    let w := set_out i "hdr_plot" (VString plot) w in
                    Some (Ret (ctx_SetResult i TaskResultSuccess w, None))
                end
            end
      end
  end.

(** ** tx_pool_throughput_analysis *)

Record ThroughputConfig := mkThroughputConfig {
  th_PrivateKey : string; th_StartingTPS : Z; th_EndingTPS : Z; th_IncrementTPS : Z; th_DurationS : Z;
  th_LogInterval : Z; th_SecondsBeforeRunning : Z }.
Definition th_DefaultConfig : ThroughputConfig := mkThroughputConfig "" 100 1000 100 60 100 0.

Record ThroughoutMeasure := mkMeasure {
  me_LoadTPS : Z; me_ProcessedTPS : Z; me_NotReceived : Z; me_NotReceivedRate : spec_float;
  me_Omission : Z; me_OmissionRate : spec_float }.

(** [int(f)]: truncation; outside the range of [int64] what amd64 yields. *)
Definition int_of_float (f : spec_float) : Z :=
  match f with
  | S754_zero _ => 0
  | S754_finite s m e =>
      let a := if 0 <=? e then Z.pos m * 2 ^ e else Z.pos m / 2 ^ (- e) in
      let n := if s then - a else a in
      if (- two63 <=? n) && (n <? two63) then n else - two63
  | S754_infinity _ | S754_nan => - two63
  end.

(** [d.Seconds()] *)
Definition Seconds (d : Z) : spec_float :=
  SFadd 53 1024 (f64 (Z.quot d Second)) (f64_div (f64 (Z.rem d Second)) (f64 Second)).

(** [measureTpsWithLoad], with the percentile 0.99 the task asks for; [load]
    is the end of the load at this rate. *)
Definition measureTpsWithLoad (i : Z) (loaded : option (go (load (Tx := Tx) * option error))) (w : TaskScheduler)
    : option (go (TaskScheduler * result (Z * Z * Z))) :=
  match loaded with
  | None => None
  | Some (Panic p) => Some (Panic p)
  | Some (Fail e) => Some (Fail e)
  | Some (Ret (l, Some e)) => Some (Ret (ctx_SetResult i TaskResultFailure w, Err e))
  | Some (Ret (l, None)) =>
      let w := if ld_taskFailed l then ctx_SetResult i TaskResultFailure w else w in
      let r := ld_Result l in
      Some (Ret (w,
        if lr_Failed r then Err "error measuring transaction propagation latencies: load failed"
        else Ok (int_of_float (f64_div (f64 (lr_TotalTxs r)) (Seconds (lr_LastMeasureDelay r))),
                 lr_NotReceivedP2PEventCount r, lr_CoordinatedOmissionEventCount r)))
  end.

(** The totals of a sweep so far. *)
Record sweep := mkSweep {
  sw_measures : list ThroughoutMeasure; sw_maxTps : Z; sw_totalSentTx : Z; sw_missed : Z; sw_omission : Z }.

(** The loop over the rates: [measures k tps] is the [k]th measurement. [None]
    when the fuel runs out or a measurement does not end. *)
Fixpoint th_loop (measures : nat -> Z -> TaskScheduler -> option (go (TaskScheduler * result (Z * Z * Z))))
    (i : Z) (c : ThroughputConfig) (fuel k : nat) (sendingTps : Z) (s : sweep) (w : TaskScheduler)
    : option (go (TaskScheduler * result sweep)) :=
  match fuel with
  | O => None
  | S fuel =>
      if sendingTps <=? th_EndingTPS c then
        match measures k sendingTps w with
        | None => None
        | Some (Panic p) => Some (Panic p)
        | Some (Fail e) => Some (Fail e)
        | Some (Ret (w, Err e)) => Some (Ret (ctx_SetResult i TaskResultFailure w, Err e))
        | Some (Ret (w, Ok (processedTps, notReceived, omission))) =>
            let partialSentTx := i64 (sendingTps * th_DurationS c) in
            let s := mkSweep
              (sw_measures s ++ [mkMeasure sendingTps processedTps notReceived (rate notReceived partialSentTx)
                                   omission (rate omission partialSentTx)])
              (if sw_maxTps s <? processedTps then processedTps else sw_maxTps s)
              (sw_totalSentTx s + partialSentTx) (sw_missed s + notReceived) (sw_omission s + omission) in
            th_loop measures i c fuel (S k) (i64 (sendingTps + th_IncrementTPS c)) s w
        end
      else Some (Ret (w, Ok s))
  end.

Variable measures_value : list ThroughoutMeasure -> value.

Definition th_Execute (i : Z) (c : ThroughputConfig) (ready : option error) (clients : list client) (waited : option error)
    (now : Z) (es : nat -> Z -> list load_event) (fuel : nat) (w : TaskScheduler) : option (go (TaskScheduler * option error)) :=
  match pool_prepare ready clients (th_SecondsBeforeRunning c) waited with
  | Err e => Some (Ret (w, Some e))
  | Ok false => Some (Ret (ctx_SetResult i TaskResultFailure w, None))
  | Ok true =>
      let deadline := now + Second * (th_DurationS c + 1800) in
      let measures k tps w :=
        measureTpsWithLoad i (run_load tps (th_DurationS c) deadline (th_LogInterval c) (es k tps)) w in
      match th_loop measures i c fuel 0 (th_StartingTPS c) (mkSweep [] 0 0 0 0) w with
      | None => None
      | Some (Panic p) => Some (Panic p)
      | Some (Fail e) => Some (Fail e)
      | Some (Ret (w, Err e)) => Some (Ret (w, Some e))
      | Some (Ret (w, Ok s)) =>
          let w := set_out i "throughput_measures" (measures_value (sw_measures s)) w in
          let w := set_out i "missed_p2p_event_count" (VInt (sw_missed s)) w in
          let w := set_out i "coordinated_omission_event_count" (VInt (sw_omission s)) w in
          let w := set_out i "starting_tps" (VInt (th_StartingTPS c)) w in
          let w := set_out i "ending_tps" (VInt (th_EndingTPS c)) w in
          let w := set_out i "increment_tps" (VInt (th_IncrementTPS c)) w in
          let w := set_out i "duration_s" (VInt (th_DurationS c)) w in
          let w := set_out i "total_sent_tx" (VInt (sw_totalSentTx s)) w in
          let w := set_out i "missed_p2p_event_rate" (VFloat (fmt_f (rate (sw_missed s) (sw_totalSentTx s)))) w in
          let w := set_out i "coordinated_omission_event_rate" (VFloat (fmt_f (rate (sw_omission s) (sw_totalSentTx s)))) w in
          let w := set_out i "max_tps" (VInt (sw_maxTps s)) w in
          Some (Ret (ctx_SetResult i TaskResultSuccess w, None))
      end
  end.

(** ** tx_pool_clean *)

(** The pending transactions of a pool, by sender and nonce. *)
Definition isPoolClean (answer : result (list (list bool))) : result bool :=
  match answer with
  | Err e => Err e
  | Ok pending => Ok (negb (existsb (existsb id) pending))
  end.

(** [cleanRecursive]: the answers of one client, five seconds apart; [None]
    while the pool is not clean. *)
Fixpoint cleanRecursive (answers : list (result (list (list bool)))) : option (option error) :=
  match answers with
  | [] => None
  | a :: answers =>
      match isPoolClean a with
      | Err e => Some (Some e)
      | Ok true => Some None
      | Ok false => cleanRecursive answers
      end
  end.

Fixpoint clean_Execute (i : Z) (clients : list (list (result (list (list bool))))) (w : TaskScheduler)
    : option (TaskScheduler * option error) :=
  match clients with
  | [] => Some (ctx_SetResult i TaskResultSuccess w, None)
  | answers :: clients =>
      match cleanRecursive answers with
      | None => None
      | Some (Some e) => Some (ctx_SetResult i TaskResultFailure w, Some e)
      | Some None => clean_Execute i clients w
      end
  end.

(** ** What a sweep measures *)

Definition totals_of (s : sweep) : Prop :=
  sw_maxTps s = fold_left Z.max (me_ProcessedTPS <$> sw_measures s) 0 /\
  sw_missed s = fold_left Z.add (me_NotReceived <$> sw_measures s) 0 /\
  sw_omission s = fold_left Z.add (me_Omission <$> sw_measures s) 0.

Lemma totals_snoc s m sent :
  totals_of s -> totals_of (mkSweep (sw_measures s ++ [m])
    (if sw_maxTps s <? me_ProcessedTPS m then me_ProcessedTPS m else sw_maxTps s) sent
    (sw_missed s + me_NotReceived m) (sw_omission s + me_Omission m)).
Proof.
  intros (H1 & H2 & H3). unfold totals_of. cbn. rewrite !fmap_app, !fold_left_app. cbn.
  rewrite <- H1, <- H2, <- H3. split; [|done]. destruct (Z.ltb_spec (sw_maxTps s) (me_ProcessedTPS m)); lia.
Qed.

(** The rates from [tps] on. *)
Definition rates (c : ThroughputConfig) (tps : Z) (n : nat) : list Z :=
  (fun j => tps + Z.of_nat j * th_IncrementTPS c) <$> seq 0 n.

Lemma th_loop_ends measures i c n k tps s w :
  (forall k tps w, exists w' v, measures k tps w = Some (Ret (w', Ok v))) ->
  0 < th_IncrementTPS c -> th_EndingTPS c + th_IncrementTPS c < two63 -> - two63 <= tps ->
  n = Z.to_nat ((th_EndingTPS c - tps) / th_IncrementTPS c + 1) -> tps <= th_EndingTPS c + th_IncrementTPS c ->
  totals_of s ->
  exists w' s', th_loop measures i c (S n) k tps s w = Some (Ret (w', Ok s')) /\
    me_LoadTPS <$> sw_measures s' = (me_LoadTPS <$> sw_measures s) ++ rates c tps n /\
    sw_totalSentTx s' = fold_left Z.add ((fun r => i64 (r * th_DurationS c)) <$> rates c tps n) (sw_totalSentTx s) /\
    totals_of s'.
Proof.
  intros Hm Hinc Hend Hlow Hn Htps Ht. revert k tps s w Hlow Hn Htps Ht.
  induction n as [|n IH]; intros k tps s w Hlow Hn Htps Ht.
  - assert (th_EndingTPS c < tps) as Hgt.
    { destruct (Z.le_gt_cases tps (th_EndingTPS c)); [|done].
      pose proof (Z.div_pos (th_EndingTPS c - tps) (th_IncrementTPS c) ltac:(lia) ltac:(lia)). lia. }
    cbn [th_loop]. assert ((tps <=? th_EndingTPS c) = false) as -> by lia.
    exists w, s. by rewrite app_nil_r.
  - assert (tps <= th_EndingTPS c) as Hle.
    { destruct (Z.le_gt_cases tps (th_EndingTPS c)); [done|].
      pose proof (Z.div_lt_upper_bound (th_EndingTPS c - tps) (th_IncrementTPS c) 0 ltac:(lia) ltac:(lia)). lia. }
    destruct (Hm k tps w) as (w1 & [[p nr] om] & E).
    change (th_loop measures i c (S (S n)) k tps s w) with
      (if tps <=? th_EndingTPS c then
         match measures k tps w with
         | None => None
         | Some (Panic p) => Some (Panic p)
         | Some (Fail e) => Some (Fail e)
         | Some (Ret (w, Err e)) => Some (Ret (ctx_SetResult i TaskResultFailure w, Err e))
         | Some (Ret (w, Ok (processedTps, notReceived, omission))) =>
             let partialSentTx := i64 (tps * th_DurationS c) in
             let s := mkSweep
               (sw_measures s ++ [mkMeasure tps processedTps notReceived (rate notReceived partialSentTx)
                                    omission (rate omission partialSentTx)])
               (if sw_maxTps s <? processedTps then processedTps else sw_maxTps s)
               (sw_totalSentTx s + partialSentTx) (sw_missed s + notReceived) (sw_omission s + omission) in
             th_loop measures i c (S n) (S k) (i64 (tps + th_IncrementTPS c)) s w
         end
       else Some (Ret (w, Ok s))).
    assert ((tps <=? th_EndingTPS c) = true) as -> by lia. rewrite E. cbn zeta.
    rewrite i64_id by (unfold is_i64 in *; lia).
    match goal with |- context [th_loop _ _ _ _ _ _ ?s1 _] => set (s1' := s1) end.
    assert ((th_EndingTPS c - (tps + th_IncrementTPS c)) / th_IncrementTPS c + 1 = (th_EndingTPS c - tps) / th_IncrementTPS c) as Ediv.
    { replace (th_EndingTPS c - (tps + th_IncrementTPS c)) with (th_EndingTPS c - tps + (-1) * th_IncrementTPS c) by lia.
      rewrite Z.div_add by lia. lia. }
    assert (n = Z.to_nat ((th_EndingTPS c - (tps + th_IncrementTPS c)) / th_IncrementTPS c + 1)) as Hn1.
    { rewrite Ediv. pose proof (Z.div_pos (th_EndingTPS c - tps) (th_IncrementTPS c) ltac:(lia) ltac:(lia)). lia. }
    destruct (IH (S k) (tps + th_IncrementTPS c) s1' w1 ltac:(lia) Hn1 ltac:(lia)
      (totals_snoc s (mkMeasure tps p nr _ om _) _ Ht)) as (w' & s' & Hrun & Hl & Hsum & Htot).
    exists w', s'. split; [done|].
    assert (rates c tps (S n) = tps :: rates c (tps + th_IncrementTPS c) n) as Hrates.
    { unfold rates. change (seq 0 (S n)) with (0%nat :: seq 1 n). rewrite <- fmap_S_seq, fmap_cons, <- list_fmap_compose.
      f_equal; [lia|]. apply list_fmap_ext. intros j x _. cbn. lia. }
    rewrite Hl, Hsum, Hrates. subst s1'. cbn. rewrite fmap_app, <- app_assoc. done.
Qed.

(** The rates of a sweep.  When every measurement succeeds, the loop of
    tx_pool_throughput_analysis ends for a positive increment: it measures each
    rate from the starting one in steps of the increment up to the ending one,
    once and in order, the maximum is that of the processed rates, and the
    totals are the sums over the measurements.  With an increment of zero, which
    the configuration allows, it never ends. *)
Theorem sweep_rates (measures : nat -> Z -> TaskScheduler -> option (go (TaskScheduler * result (Z * Z * Z))))
    (i : Z) (c : ThroughputConfig) (w : TaskScheduler) :
  (forall k tps w, exists w' v, measures k tps w = Some (Ret (w', Ok v))) -> is_i64 (th_StartingTPS c) ->
  (0 < th_IncrementTPS c -> th_EndingTPS c + th_IncrementTPS c < two63 ->
   th_StartingTPS c <= th_EndingTPS c + th_IncrementTPS c ->
   let n := Z.to_nat ((th_EndingTPS c - th_StartingTPS c) / th_IncrementTPS c + 1) in
   exists w' s, th_loop measures i c (S n) 0 (th_StartingTPS c) (mkSweep [] 0 0 0 0) w = Some (Ret (w', Ok s)) /\
     me_LoadTPS <$> sw_measures s = rates c (th_StartingTPS c) n /\
     sw_totalSentTx s = fold_left Z.add ((fun r => i64 (r * th_DurationS c)) <$> rates c (th_StartingTPS c) n) 0 /\
     totals_of s) /\
  (th_IncrementTPS c = 0 -> th_StartingTPS c <= th_EndingTPS c ->
     forall fuel, th_loop measures i c fuel 0 (th_StartingTPS c) (mkSweep [] 0 0 0 0) w = None).
Proof.
  intros Hm Hs. split.
  - intros Hinc Hend Hle n.
    destruct (th_loop_ends measures i c n 0 (th_StartingTPS c) (mkSweep [] 0 0 0 0) w Hm Hinc Hend ltac:(apply Hs) eq_refl Hle)
      as (w' & s & H); [done|]. exists w', s. exact H.
  - intros Hinc Hle fuel. generalize 0%nat (mkSweep [] 0 0 0 0). intros k s. revert k s w.
    induction fuel as [|fuel IH]; intros k s w; [done|]. cbn [th_loop].
    assert ((th_StartingTPS c <=? th_EndingTPS c) = true) as -> by lia.
    destruct (Hm k (th_StartingTPS c) w) as (w1 & [[p nr] om] & ->). cbn zeta.
    rewrite Hinc, Z.add_0_r, i64_id by done. apply IH.
Qed.

(** The statistics of a measurement. *)
Lemma latency_stats_from lats mm :
  let r := fold_left (fun mm lat => (if mm.1 <? lat then lat else mm.1, if (lat <? mm.2) && (0 <? lat) then lat else mm.2)) lats mm in
  (forall x, x ∈ lats -> x <= r.1 /\ (0 < x -> r.2 <= x)) /\ mm.1 <= r.1 /\ r.2 <= mm.2 /\
  (r.1 = mm.1 \/ r.1 ∈ lats) /\ (r.2 = mm.2 \/ r.2 ∈ lats /\ 0 < r.2).
Proof.
  cbn zeta. revert mm. induction lats as [|x lats IH]; intros mm; cbn [fold_left].
  { split_and!; [intros x Hx; by apply elem_of_nil in Hx|lia|lia|by left|by left]. }
  set (mm1 := (if mm.1 <? x then x else mm.1, if (x <? mm.2) && (0 <? x) then x else mm.2)).
  destruct (IH mm1) as (H1 & H2 & H3 & H4 & H5).
  assert (x <= mm1.1 /\ mm.1 <= mm1.1 /\ (mm1.1 = mm.1 \/ mm1.1 = x)) as (Ha & Hb & Hc).
  { subst mm1. cbn [fst]. destruct (Z.ltb_spec mm.1 x); split_and!; try lia; auto. }
  assert ((0 < x -> mm1.2 <= x) /\ mm1.2 <= mm.2 /\ (mm1.2 = mm.2 \/ mm1.2 = x /\ 0 < x)) as (Hd & He & Hf).
  { subst mm1. cbn [snd]. destruct (Z.ltb_spec x mm.2), (Z.ltb_spec 0 x); cbn [andb]; split_and!; try lia; auto. }
  split_and!; [|lia|lia| |].
  - intros y [->|Hy]%elem_of_cons; [split; [lia|intros; pose proof (Hd ltac:(lia)); lia]|by apply H1].
  - destruct H4 as [H4|H4]; [destruct Hc as [Hc|Hc]; [left; lia|right; apply elem_of_cons; left; lia]|].
    right. apply elem_of_cons. by right.
  - destruct H5 as [H5|[H5 H5']]; [destruct Hf as [Hf|[Hf Hf']]; [left; lia|right; split; [apply elem_of_cons; left; lia|lia]]|].
    right. split; [apply elem_of_cons; by right|done].
Qed.

(** The reported extremes.  The largest latency is the largest value of a
    measurement (zero if all are negative), the smallest is the smallest positive
    one, or the largest integer when no transaction was announced. *)
Theorem latency_extremes (lats : list Z) :
  let r := latency_stats lats in
  (forall x, x ∈ lats -> x <= r.1 /\ (0 < x -> r.2 <= x)) /\
  (r.1 ∈ lats \/ r.1 = 0 /\ forall x, x ∈ lats -> x <= 0) /\
  (r.2 ∈ lats /\ 0 < r.2 \/ r.2 = MaxInt64 /\ forall x, x ∈ lats -> x <= 0 \/ MaxInt64 <= x).
Proof.
  cbn zeta. destruct (latency_stats_from lats (0, MaxInt64)) as (H1 & H2 & H3 & H4 & H5).
  fold (latency_stats lats) in *. cbn [fst snd] in *. split; [done|]. split.
  - destruct H4 as [H4|H4]; [|by left]. right. split; [done|]. intros x Hx. destruct (H1 x Hx). lia.
  - destruct H5 as [H5|H5]; [|by left]. right. split; [done|]. intros x Hx. destruct (H1 x Hx) as [_ H].
    destruct (Z.le_gt_cases x 0); [by left|]. right. specialize (H ltac:(lia)). lia.
Qed.

End pool_tasks.

(** ** Witnesses *)

(** Three transactions; the second is announced first and once more later,
    the first is announced after it and the third never. *)
Definition ex_load_events : list (load_event (Tx := nat)) :=
  [Started 1000000; Ticked false false 1001000; Generated 0 1002000 (Ok 7%nat); Sent 0 None;
   Ticked false false 2001000; Generated 1 2002000 (Ok 8%nat); Sent 1 None;
   Ticked false false 3001000; Generated 2 3002000 (Ok 9%nat); Sent 2 None; Finished 3003000;
   Read (ReadTxs [mkAnnounced "txIndex:1" 3500000 3500000; mkAnnounced "txIndex:0" 3600000 3600000]) false 3600000;
   Read (ReadTxs [mkAnnounced "txIndex:1" 3900000 3900000]) false 3900000; Read ReadTimeout false 4000000].

Lemma ex_load_timely : timely ex_load_events.
Proof.
  intros j lat H. destruct (decide (j = 0)) as [->|H0]; [vm_compute in H; by injection H as <-|].
  destruct (decide (j = 1)) as [->|H1]; [vm_compute in H; by injection H as <-|].
  pose proof (proj1 (first_latency_announced _ _ _) (mk_is_Some _ _ H)) as Ha.
  apply existsb_exists in Ha as (a & Ha & Hj). apply announces_true in Hj. cbn in Ha.
  by destruct Ha as [<-|[<-|[<-|[]]]]; vm_compute in Hj; injection Hj as <-.
Qed.

Lemma announcements_accounted_witness :
  exists l0 l : load (Tx := nat), NewLoad 1 3 5000000 10 = Ret l0 /\ load_run ex_load_events l0 = Some (Ret l) /\
    lr_LatenciesMus (ld_Result l) !! 0%nat = Some 2598 /\ lr_LatenciesMus (ld_Result l) !! 1%nat = Some 1498 /\
    lr_LatenciesMus (ld_Result l) !! 2%nat = Some (-1) /\
    lr_NotReceivedP2PEventCount (ld_Result l) = 1 /\ lr_DuplicatedP2PEventCount (ld_Result l) = 1.
Proof.
  destruct (NewLoad (Tx := nat) 1 3 5000000 10) as [l0|?|?] eqn:H0; [|discriminate H0|discriminate H0].
  destruct (load_run ex_load_events l0) as [[l|?|?]|] eqn:Hrun;
    [|vm_compute in H0; injection H0 as <-; vm_compute in Hrun; discriminate Hrun..].
  assert (ld_measuring l = Measured None) as Hm.
  { vm_compute in H0. injection H0 as <-. vm_compute in Hrun. by injection Hrun as <-. }
  destruct (announcements_accounted 1 3 5000000 10 ex_load_events l0 l H0 ex_load_timely Hrun Hm) as (_ & H1 & _ & _ & H2 & H3).
  exists l0, l. split; [done|]. split; [done|].
  split; [by rewrite (H1 0%nat ltac:(done))|]. split; [by rewrite (H1 1%nat ltac:(done))|].
  split; [by rewrite (H1 2%nat ltac:(done))|]. split; [rewrite H2|rewrite H3]; by vm_compute.
Defined.

(** An announcement within the first microsecond is received, but counted as
    missed at the end. *)
Example early_announcement_missed :
  match NewLoad (Tx := nat) 1 1 5000000 10 with
  | Ret l0 =>
      (fun r => match r with
                | Ret l => (ld_receivedEvents l, lr_NotReceivedP2PEventCount (ld_Result l), ld_measuring l)
                | _ => (0, 0, Reading)
                end) <$>
        load_run [Started 0; Ticked false false 1000; Generated 0 2000 (Ok 7%nat); Sent 0 None;
                  Read (ReadTxs [mkAnnounced "txIndex:0" 2500 2500]) false 3000] l0
  | _ => None
  end = Some (1, 1, Measured None).
Proof. by vm_compute. Qed.

Lemma tx_index_roundtrip_witness : scan_tx_data (tx_data 9007199254740993) = Some 9007199254740993.
Proof. apply tx_index_roundtrip. unfold two63. lia. Defined.

(** Measurements that process what is sent, at 100, 150 and 200 per second. *)
Lemma sweep_rates_witness :
  exists w' s,
    th_loop (lib := ex_lib 9) (fun _ tps w => Some (Ret (w, Ok (tps, 1, 0)))) 1 (mkThroughputConfig "key" 100 200 50 60 10 0) 4 0 100
      (mkSweep [] 0 0 0 0) ex_sched = Some (Ret (w', Ok s)) /\
    me_LoadTPS <$> sw_measures s = [100; 150; 200] /\ sw_totalSentTx s = 27000 /\ totals_of s.
Proof.
  refine (proj1 (sweep_rates (lib := ex_lib 9) (fun _ tps w => Some (Ret (w, Ok (tps, 1, 0)))) 1
    (mkThroughputConfig "key" 100 200 50 60 10 0) ex_sched _ _) _ _ _).
  - intros k tps w. by eexists _, _.
  - unfold is_i64, two63. cbn. lia.
  - cbn. lia.
  - unfold two63. cbn. lia.
  - cbn. lia.
Defined.
