(* ===== verification/Api.v ===== *)
(** * The HTTP API

    web/api/*.go on the state of the coordinator: the runner with its world
    (Runner.v), the registry (Registry.v) and the tests read back from the
    database (History.v).  A handler is a function of the decoded request; the
    decoders of request bodies, YAML of untyped values and the loggers of live
    tasks are parameters.  The scheduler of a running test is the one in its
    entry of [tests], in the state its goroutine has reached. *)

From S2P Require Import Prelude Vars Db Scheduler Execution Tests Registry Runner History Logger.

#[local] Open Scope string_scope.
#[local] Open Scope list_scope.
Open Scope Z_scope.

(** ** Standard library *)

(** [strconv.ParseUint(s, 10, 32)] and [strconv.ParseInt(s, 10, 32)] *)
Definition ParseUint32 (s : string) : option Z :=
  n ← ParseUint s; if n <? 4294967296 then Some n else None.

Definition ParseInt32 (s : string) : option Z :=
  n ← Atoi s; if (-2147483648 <=? n) && (n <? 2147483648) then Some n else None.

(** [fmt.Sprint] of an unsigned integer *)
Definition show (n : Z) : string := pretty (Z.to_N n).

(** [time.Time{}] *)
Definition zero_time : Z := -62135596800000000000.
Definition IsZero (t : Z) : bool := t =? zero_time.

(** Milliseconds as the API shows them, negative ones as zero. *)
Definition clip (ms : Z) : Z := if ms <? 0 then 0 else ms.

(** ** Interfaces

    A Go interface value: nil, a nil pointer of some type, or an object. *)
Inductive iface (A : Type) := NilInterface | NilPointer | Object (a : A).
Arguments NilInterface {A}.
Arguments NilPointer {A}.
Arguments Object {A} _.

(** [x == nil]: only the first of them. *)
Definition is_nil {A} (x : iface A) : bool := match x with NilInterface => true | _ => false end.

(** A call of a method that reads the object. *)
Definition deref {A} (x : iface A) : go A :=
  match x with
  | Object a => Ret a
  | _ => Panic "invalid memory address or nil pointer dereference"
  end.

(** [logger.LogReader] *)
Record LogReader := mkLogReader { GetLogEntryCount : Z; lr_GetLogEntries : Z -> Z -> list TaskLog }.

(** What the getters of a [types.TaskState] return. *)
Record TaskView := mkTaskView {
  tv_Index : Z; tv_ParentIndex : Z; tv_Name : string; tv_Title : string; tv_Timeout : Z;
  tv_Config : value; tv_Vars : gmap string value; tv_Status : History.TaskStatus; tv_Logger : LogReader }.

Section interfaces.
Context `{lib : Library} `{raw : RawMessages} `{srcs : !RegistrySources} `{ssort : !SliceSort}.

(** [yaml.Unmarshal] into an [interface{}]; [yaml.Unmarshal] into a
    [map[string]string] gives the map it leaves and its error. *)
Class ApiLibrary := {
  yaml_any : string -> result value;
  yaml_fields : string -> gmap string string * option error;
  (** the logger of a task of a live test *)
  live_logger : Z -> Z -> LogReader
}.
Context `{apil : ApiLibrary}.

(** [types.Test]: a test of the runner or one of the database. *)
Inductive test_ref := Live (t : Test) | Stored (d : dbTest).

Definition ref_RunID (x : test_ref) : Z := match x with Live t => runID t | Stored d => dt_runID d end.
Definition ref_TestID (x : test_ref) : string := match x with Live t => TestID t | Stored d => dt_TestID d end.
Definition ref_Name (x : test_ref) : string :=
  match x with Live t => cfg_Name (td_config (test_descriptor t)) | Stored d => tr_Name (dt_testRun d) end.
Definition ref_Status (x : test_ref) : string :=
  match x with Live t => TestStatus_string (status t) | Stored d => dt_Status d end.
Definition ref_StartTime (x : test_ref) : Z :=
  match x with Live t => default zero_time (test_startTime t) | Stored d => of_UnixMilli (tr_StartTime (dt_testRun d)) end.
Definition ref_StopTime (x : test_ref) : Z :=
  match x with Live t => default zero_time (test_stopTime t) | Stored d => of_UnixMilli (tr_StopTime (dt_testRun d)) end.
Definition ref_Timeout (x : test_ref) : Z := match x with Live t => timeout t | Stored d => dt_Timeout d end.

(** *** Its scheduler *)

Definition sched_GetTaskCount (w : World) (x : test_ref) : Z :=
  match x with
  | Live t => GetTaskCount (Some (taskScheduler t))
  | Stored d => history_GetTaskCount (w_db w) d
  end.

(** [append(GetAllTasks(), GetAllCleanupTasks()...)] *)
Definition sched_all_tasks (w : World) (x : test_ref) : list Z :=
  match x with
  | Live t => GetAllTasks (taskScheduler t) ++ GetAllCleanupTasks (taskScheduler t)
  | Stored d => history_GetAllTasks (w_db w) d ++ history_GetAllCleanupTasks (w_db w) d
  end.

Definition GetTaskStatus (t : taskState) : History.TaskStatus :=
  mkTaskStatus (index t) (ParentIndex t) (isStarted t) (isRunning t) (isSkipped t)
    (default zero_time (startTime t)) (default zero_time (stopTime t)) (TaskResult_int (taskResult t)) (taskError t).

Definition live_view (w : World) (t : Test) (s : taskState) : TaskView :=
  let sched := enter w (taskScheduler t) in
  mkTaskView (index s) (ParentIndex s) (opt_Name (options s)) (Title_of s sched) (opt_Timeout (options s))
    (Config_of s) (read_vars (taskStatusVars s) sched) (GetTaskStatus s) (live_logger (runID t) (index s)).

(** [logDBReader] *)
Definition db_reader (run task : Z) (db : Database) : LogReader :=
  mkLogReader (GetLastLogIndex run task db) (fun from limit => GetTaskLogs run task from limit db).

Definition stored_Config (r : Db.TaskState) : value :=
  match yaml_any (TaskConfig r) with Ok v => v | Err _ => VNil end.

(** [GetTaskStatusVars().GetVarsMap(nil, false)] of a stored task: fresh
    variables with the entries of its status. *)
Definition stored_Vars (r : Db.TaskState) (w : World) : gmap string value :=
  let '(h, v) := NewVariables None (w_scopes w) in
  let h := match lib_yaml_Unmarshal (Db.TaskStatus r) ∅ with Ok m => set_vars v m h | Err _ => h end in
  default ∅ (GetVarsMap lib_depth h v ∅ false).

Definition stored_view (w : World) (r : Db.TaskState) : TaskView :=
  mkTaskView (TaskID r) (ParentTask r) (Db.Name r) (Title r) (i64 (Timeout r * second))
    (stored_Config r) (stored_Vars r w) (history_GetTaskStatus r) (db_reader (RunID r) (TaskID r) (w_db w)).

(** [GetTaskState]: the live scheduler returns its map's pointer as an
    interface, the stored one a plain nil for an unknown task. *)
Definition sched_GetTaskState (w : World) (x : test_ref) (i : Z) : iface TaskView :=
  match x with
  | Live t => match getTaskState i (taskScheduler t) with Some s => Object (live_view w t s) | None => NilPointer end
  | Stored d => match history_GetTaskState (w_db w) d i with Some r => Object (stored_view w r) | None => NilInterface end
  end.

(** *** The coordinator *)

Definition of_view (v : test_view) : test_ref :=
  match v with LiveTest t => Live t | DbTest row => Stored (WrapDBTestRun row) end.

Definition coordinator_GetTestByRunID (id : Z) (r : TestRunner) : option test_ref :=
  match GetTestByRunID id r with
  | Some t => Some (Live t)
  | None =>
      if MaxInt64 <? id then None
      else match LoadTestFromDB id (w_db (rworld r)) with Ok d => Some (Stored d) | Err _ => None end
  end.
End interfaces.

(** ** Responses *)

(** [sendOKResponse], [sendErrorResponse]; a handler that panics aborts its
    connection ([Panic]). *)
Inductive Response (A : Type) := SendOK (data : A) | SendError (message : string) (code : Z).
Arguments SendOK {A} _.
Arguments SendError {A} _ _.

Definition StatusBadRequest : Z := 400.
Definition StatusNotFound : Z := 404.
Definition StatusInternalServerError : Z := 500.

(** A request body: its content type and what the two decoders make of it. *)
Record body (A : Type) := mkBody { body_ContentType : string; body_yaml : result A; body_json : result A }.
Arguments mkBody {A} _ _ _.
Arguments body_ContentType {A} _.
Arguments body_yaml {A} _.
Arguments body_json {A} _.

(** The start of the POST handlers: the decoder of the content type, and the
    message of its error. *)
Definition decode_body {A} (b : body A) : result A :=
  if String.eqb (body_ContentType b) "application/yaml" then
    match body_yaml b with Err e => Err ("error decoding request body yaml: " +:+ e) | r => r end
  else
    match body_json b with Err e => Err ("error decoding request body json: " +:+ e) | r => r end.

(** The start of the handlers of one run. *)
Definition find_run `{lib : Library} `{raw : RawMessages} (runId : string) (r : TestRunner) : test_ref + string * Z :=
  match ParseUint runId with
  | None => inr ("invalid runId provided", StatusBadRequest)
  | Some runID =>
      match coordinator_GetTestByRunID runID r with
      | None => inr ("test run not found", StatusNotFound)
      | Some x => inl x
      end
  end.

(** ** Test runs *)

Record GetTestRunsResponse := mkRunEntry {
  re_RunID : Z; re_TestID : string; re_Name : string; re_Status : string; re_StartTime : Z; re_StopTime : Z }.

Record GetTestRunTaskResult := mkResultFile {
  rf_Type : string; rf_Index : Z; rf_Name : string; rf_Size : Z; rf_URL : string }.

Record GetTestRunTask := mkRunTask {
  rt_Index : Z; rt_ParentIndex : Z; rt_Name : string; rt_Title : string; rt_Started : bool; rt_Completed : bool;
  rt_StartTime : Z; rt_StopTime : Z; rt_Timeout : Z; rt_RunTime : Z; rt_Status : string; rt_Result : string;
  rt_ResultFiles : list GetTestRunTaskResult; rt_ResultError : string }.

Record GetTestRunResponse := mkRunResponse { rr_entry : GetTestRunsResponse; rr_Tasks : list GetTestRunTask }.

Record GetTestRunDetailedTaskLog := mkDetailedLog {
  dl_Time : Z; dl_Level : Z; dl_Message : string; dl_DataLen : Z; dl_Data : gmap string string }.

(** [dt_task] has no result files. *)
Record GetTestRunDetailedTask := mkDetailedTask {
  dt_task : GetTestRunTask; dt_Log : list GetTestRunDetailedTaskLog; dt_ConfigYaml : string; dt_ResultYaml : string }.

Record GetTestRunDetailsResponse := mkDetailsResponse {
  dr_entry : GetTestRunsResponse; dr_Tasks : list GetTestRunDetailedTask }.

(** The status, start, stop and run time of a task at the time [now]. *)
Definition task_times (now : Z) (st : History.TaskStatus) : string * Z * Z * Z :=
  if negb (st_IsStarted st) then ("pending", 0, 0, 0)
  else if st_IsRunning st then ("running", UnixMilli (st_StartTime st), 0, elapsed_ms now (st_StartTime st))
  else ("complete", UnixMilli (st_StartTime st), UnixMilli (st_StopTime st),
        elapsed_ms (st_StopTime st) (st_StartTime st)).

(** [types.TaskResult] is an integer; a row may hold any. *)
Definition result_text (n : Z) : string :=
  match n with 0 => "none" | 1 => "success" | 2 => "failure" | _ => "" end.

Section run_handlers.
Context `{lib : Library} `{raw : RawMessages} `{srcs : !RegistrySources} `{ssort : !SliceSort} `{apil : !ApiLibrary}.

Definition run_entry (x : test_ref) : GetTestRunsResponse :=
  mkRunEntry (ref_RunID x) (ref_TestID x) (ref_Name x) (ref_Status x)
    (if IsZero (ref_StartTime x) then 0 else Unix (ref_StartTime x))
    (if IsZero (ref_StopTime x) then 0 else Unix (ref_StopTime x)).

Definition GetTestRuns (filterTestID : string) (r : TestRunner) : Response (list GetTestRunsResponse) :=
  SendOK ((fun v => run_entry (of_view v)) <$> (GetTestHistory filterTestID 0 0 100 r).1).

(** The task of [GetTestRun] and [GetTestRunDetails]. *)
Definition run_task (now : Z) (files : list GetTestRunTaskResult) (v : TaskView) : GetTestRunTask :=
  let st := tv_Status v in
  let '(status, start, stop, runtime) := task_times now st in
  mkRunTask (tv_Index v) (tv_ParentIndex v) (tv_Name v) (tv_Title v) (st_IsStarted st)
    (st_IsStarted st && negb (st_IsRunning st)) start stop (clip (Milliseconds (tv_Timeout v))) (clip runtime) status
    (result_text (st_Result st)) files (default "" (st_Error st)).

(** The result files of a task, from the headers of its run. *)
Definition result_files (runID task : Z) (headers : list (Z * string * Z * string * Z)) : list GetTestRunTaskResult :=
  (fun '(_, typ, index, name, size) =>
     mkResultFile typ index name size
       ("/api/v1/test_run/" +:+ show runID +:+ "/task/" +:+ show task +:+ "/result/" +:+ typ +:+ "/" +:+ show index)) <$>
  filterb (fun '(id, _, _, _, _) => id =? task) headers.

(** The loops over the tasks: a task of the lists that is unknown to
    [GetTaskState] would be a nil dereference. *)
Fixpoint collect_tasks {A} (f : TaskView -> A) (w : World) (x : test_ref) (tasks : list Z) : go (list A) :=
  match tasks with
  | [] => Ret []
  | i :: tasks =>
      do! v := deref (sched_GetTaskState w x i) in
      do! rest := collect_tasks f w x tasks in
      Ret (f v :: rest)
  end%go.

Definition all_tasks {A} (f : TaskView -> A) (w : World) (x : test_ref) : go (list A) :=
  if 0 <? sched_GetTaskCount w x then collect_tasks f w x (sched_all_tasks w x) else Ret [].

(** [GetTestRun]; [dbErr] is the error of the query for the result headers. *)
Definition GetTestRun (now : Z) (dbErr : option error) (runId : string) (r : TestRunner) : go (Response GetTestRunResponse) :=
  match find_run runId r with
  | inr (msg, code) => Ret (SendError msg code)
  | inl x =>
      match dbErr with
      | Some _ => Ret (SendError "failed to get result headers" StatusInternalServerError)
      | None =>
          let w := rworld r in
          let runID := default 0 (ParseUint runId) in
          let headers := GetAllTaskResultHeaders runID (w_db w) in
          do! tasks := all_tasks (fun v => run_task now (result_files runID (tv_Index v) headers) v) w x in
          Ret (SendOK (mkRunResponse (run_entry x) tasks))
      end
  end%go.

Definition GetTestRunStatus (runId : string) (r : TestRunner) : Response string :=
  match find_run runId r with
  | inr (msg, code) => SendError msg code
  | inl x => SendOK (ref_Status x)
  end.

(** *** Details *)

(** The last page of a log. *)
Definition details_log (lr : LogReader) : list TaskLog :=
  let logCount := GetLogEntryCount lr in
  let logLimit := 100 in
  let logStart := if logLimit <? logCount then (logCount -u logLimit)%go else 0 in
  lr_GetLogEntries lr logStart logLimit.

(** Log times are shown in nanoseconds. *)
Definition detailed_log (l : TaskLog) : GetTestRunDetailedTaskLog :=
  let '(len, data) :=
    if String.eqb (LogFields l) "" then (0, ∅)
    else let '(m, err) := yaml_fields (LogFields l) in
         (match err with None => Z.of_nat (size m) | Some _ => 0 end, m) in
  mkDetailedLog (i64 (LogTime l * 1000000)) (LogLevel l) (LogMessage l) len data.

Definition marshal_or (what : string) (v : value) : string :=
  match lib_yaml_Marshal v with Ok s => s | Err e => "failed marshalling " +:+ what +:+ ": " +:+ e end.

Definition detailed_task (task : TaskView -> GetTestRunTask) (v : TaskView) : GetTestRunDetailedTask :=
  mkDetailedTask (task v) (detailed_log <$> details_log (tv_Logger v))
    (marshal_or "config" (tv_Config v)) (marshal_or "result" (VMap (tv_Vars v))).

Definition GetTestRunDetails (now : Z) (runId : string) (r : TestRunner) : go (Response GetTestRunDetailsResponse) :=
  match find_run runId r with
  | inr (msg, code) => Ret (SendError msg code)
  | inl x =>
      do! tasks := all_tasks (detailed_task (run_task now [])) (rworld r) x in
      Ret (SendOK (mkDetailsResponse (run_entry x) tasks))
  end%go.

(** The task of [GetTestRunTaskDetails]: the timeout is in seconds, and a
    negative timeout or run time is converted to a uint64. *)
Definition single_task (now : Z) (v : TaskView) : GetTestRunTask :=
  let st := tv_Status v in
  let '(status, start, stop, runtime) := task_times now st in
  mkRunTask (tv_Index v) (tv_ParentIndex v) (tv_Name v) (tv_Title v) (st_IsStarted st)
    (st_IsStarted st && negb (st_IsRunning st)) start stop (u64 (tv_Timeout v ÷ second)) (u64 runtime) status
    (result_text (st_Result st)) [] (default "" (st_Error st)).

(** The start of the handlers of one task. *)
Definition find_task (runId taskId what : string) (r : TestRunner) : iface TaskView + string * Z :=
  match ParseUint runId with
  | None => inr ("invalid runId provided", StatusBadRequest)
  | Some runID =>
      match ParseUint taskId with
      | None => inr ("invalid " +:+ what +:+ " provided", StatusBadRequest)
      | Some taskID =>
          match coordinator_GetTestByRunID runID r with
          | None => inr ("test run not found", StatusNotFound)
          | Some x =>
              let taskState := sched_GetTaskState (rworld r) x taskID in
              if is_nil taskState then inr ("task not found", StatusNotFound) else inl taskState
          end
      end
  end.

Definition GetTestRunTaskDetails (now : Z) (runId taskIndex : string) (r : TestRunner)
    : go (Response GetTestRunDetailedTask) :=
  match find_task runId taskIndex "taskIndex" r with
  | inr (msg, code) => Ret (SendError msg code)
  | inl taskState =>
      do! v := deref taskState in
      Ret (SendOK (detailed_task (single_task now) v))
  end%go.
End run_handlers.

(** *** Result files *)

(** The part after the last dot of the last path element ([filepath.Ext]);
    [acc] is the extension found so far. *)
Fixpoint ext_loop (acc : string) (s : string) : string :=
  match s with
  | EmptyString => acc
  | String "/" s => ext_loop "" s
  | String "." s' => ext_loop s s'
  | String _ s => ext_loop acc s
  end.
Definition Ext (path : string) : string := ext_loop "" path.

(** [strings.ToLower] on ASCII; no other letter is mapped to one of the
    extensions below. *)
Fixpoint ToLower (s : string) : string :=
  match s with
  | EmptyString => ""
  | String c s =>
      let n := Ascii.N_of_ascii c in
      String (if ((65 <=? n) && (n <=? 90))%N then Ascii.ascii_of_N (n + 32) else c) (ToLower s)
  end.

Definition content_type (name : string) : string :=
  let ext := ToLower (Ext name) in
  let among l := existsb (String.eqb ext) l in
  if among [".txt"; ".log"; ".yaml"; ".yml"; ".json"; ".md"] then "text/plain"
  else if among [".html"; ".htm"] then "text/html"
  else if among [".css"] then "text/css"
  else if among [".png"] then "image/png"
  else if among [".jpg"; ".jpeg"] then "image/jpeg"
  else if among [".pdf"] then "application/pdf"
  else "text/plain".

(** What [http.ServeContent] gets. *)
Record served_file := mkServed {
  sf_ContentType : string; sf_Disposition : option string; sf_Name : string; sf_Data : list Z }.

Section result_handler.
Context `{lib : Library} `{raw : RawMessages} `{srcs : !RegistrySources} `{ssort : !SliceSort} `{apil : !ApiLibrary}.

Definition find_result (runID task : Z) (resultType fileID : string) (db : Database) : option TaskResultRow :=
  match ParseInt32 fileID with
  | Some fileIndex => GetTaskResultByIndex runID task resultType fileIndex db
  | None => GetTaskResultByName runID task resultType fileID db
  end.

Definition GetTaskResult (runId taskId resultType fileID : string) (downloadMode : bool) (r : TestRunner)
    : go (Response served_file) :=
  match ParseUint runId with
  | None => Ret (SendError "invalid runId provided" StatusBadRequest)
  | Some runID =>
      match ParseUint taskId with
      | None => Ret (SendError "invalid taskId provided" StatusBadRequest)
      | Some taskID =>
          if String.eqb resultType "" then Ret (SendError "invalid resultType provided" StatusBadRequest)
          else if String.eqb fileID "" then Ret (SendError "invalid fileId provided" StatusBadRequest)
          else
            match find_task runId taskId "taskId" r with
            | inr (msg, code) => Ret (SendError msg code)
            | inl taskState =>
                do! v := deref taskState in
                match find_result runID (tv_Index v) resultType fileID (w_db (rworld r)) with
                | None => Ret (SendError "result file not found" StatusNotFound)
                | Some file =>
                    Ret (SendOK (mkServed
                      (if downloadMode then "application/octet-stream" else content_type (res_Name file))
                      (if downloadMode then Some ("attachment; filename=" +:+ res_Name file) else None)
                      (res_Name file) (res_Data file)))
                end
            end
      end
  end%go.
End result_handler.

(** ** Cancelling and deleting runs *)

Record PostTestRunCancelRequest := mkCancelRequest { cr_TestID : string; cr_SkipCleanup : bool }.
Record PostTestRunCancelResponse := mkCancelResponse {
  cp_TestID : string; cp_RunID : Z; cp_Name : string; cp_Status : string }.

(** Both delete handlers answer with what they deleted and the errors. *)
Record DeleteResponse (A : Type) := mkDeleteResponse { Deleted : list A; Errors : list string }.
Arguments mkDeleteResponse {A} _ _.
Arguments Deleted {A} _.
Arguments Errors {A} _.

Section run_posts.
Context `{lib : Library} `{raw : RawMessages} `{srcs : !RegistrySources}.

(** [x.AbortTest(skipCleanup)]: nothing for a stored test. *)
Definition ref_AbortTest (x : test_ref) (skipCleanup : bool) (r : TestRunner) : TestRunner * test_ref :=
  match x with
  | Live t => (set_test (runID t) (AbortTest skipCleanup t) r, Live (AbortTest skipCleanup t))
  | Stored d => (r, x)
  end.

Definition PostTestRunCancel (b : body PostTestRunCancelRequest) (runId : string) (r : TestRunner)
    : TestRunner * Response PostTestRunCancelResponse :=
  match decode_body b with
  | Err e => (r, SendError e StatusBadRequest)
  | Ok req =>
      match find_run runId r with
      | inr (msg, code) => (r, SendError msg code)
      | inl x =>
          if negb (String.eqb (ref_TestID x) (cr_TestID req)) then (r, SendError "test id does not match" StatusNotFound)
          else
            let '(r, x) := ref_AbortTest x (cr_SkipCleanup req) r in
            (r, SendOK (mkCancelResponse (ref_TestID x) (ref_RunID x) (ref_Name x) (ref_Status x)))
      end
  end.

(** The loop of the two delete handlers. *)
Fixpoint delete_loop {S A} (delete : A -> S -> S * option error) (show : A -> string) (l : list A) (s : S)
    : S * DeleteResponse A :=
  match l with
  | [] => (s, mkDeleteResponse [] [])
  | x :: l =>
      let '(s, err) := delete x s in
      let '(s, resp) := delete_loop delete show l s in
      (s, match err with
          | Some e => mkDeleteResponse (Deleted resp) (("failed deleting test " +:+ show x +:+ ": " +:+ e) :: Errors resp)
          | None => mkDeleteResponse (x :: Deleted resp) (Errors resp)
          end)
  end.

Definition PostTestRunsDelete (b : body (list Z)) (r : TestRunner) : TestRunner * Response (DeleteResponse Z) :=
  match decode_body b with
  | Err e => (r, SendError e StatusBadRequest)
  | Ok runs => let '(r, resp) := delete_loop coordinator_DeleteTestRun show runs r in (r, SendOK resp)
  end.
End run_posts.

(** ** Test definitions *)

(** The parts of the coordinator these handlers use. *)
Record Coordinator `{raw : RawMessages} := mkCoordinator { co_runner : TestRunner; co_registry : TestRegistry }.

Record GetTestsResponse := mkTestEntry { te_ID : string; te_Source : string; te_Name : string }.

Record GetTestResponse := mkTestResponse {
  gt_entry : GetTestsResponse; gt_Timeout : Z; gt_Config : gmap string value; gt_ConfigVars : gmap string string;
  gt_Schedule : option TestSchedule }.

Record PostTestRunsScheduleRequest := mkScheduleRequest {
  sr_TestID : string; sr_Config : gmap string value; sr_AllowDuplicate : bool; sr_SkipQueue : bool }.
Record PostTestRunsScheduleResponse := mkScheduleResponse {
  sp_TestID : string; sp_RunID : Z; sp_Name : string; sp_Config : gmap string value }.

Record PostTestsRegisterRequest `{raw : RawMessages} := mkRegisterRequest {
  rq_ID : string; rq_Name : string; rq_Timeout : string; rq_Config : gmap string value;
  rq_ConfigVars : gmap string string; rq_Tasks : list RawMessage; rq_CleanupTasks : list RawMessage;
  rq_Schedule : option TestSchedule }.

(** The timeout is a uint64 of seconds. *)
Record PostTestsRegisterExternalRequest := mkExternalRequest {
  xq_File : string; xq_Name : string; xq_Timeout : Z; xq_Config : gmap string value;
  xq_ConfigVars : gmap string string; xq_Schedule : option TestSchedule }.

Record PostTestsRegisterResponse := mkRegisterResponse {
  rp_TestID : string; rp_Name : string; rp_Config : gmap string value }.

(** [time.ParseDuration] *)

Definition is_digit (c : Ascii.ascii) : bool :=
  let n := Ascii.N_of_ascii c in ((48 <=? n) && (n <=? 57))%N.
Definition digit (c : Ascii.ascii) : Z := Z.of_N (Ascii.N_of_ascii c) - 48.

(** [leadingInt]: [None] when the number exceeds [1<<63]. *)
Fixpoint leadingInt (x : Z) (s : string) : option (Z * string) :=
  match s with
  | String c s' =>
      if is_digit c then
        if two63 / 10 <? x then None
        else let x := x * 10 + digit c in if two63 <? x then None else leadingInt x s'
      else Some (x, s)
  | EmptyString => Some (x, s)
  end.

(** [leadingFraction]: digits after an overflow are skipped. *)
Fixpoint leadingFraction (x scale : Z) (overflow : bool) (s : string) : Z * Z * string :=
  match s with
  | String c s' =>
      if is_digit c then
        if overflow then leadingFraction x scale true s'
        else if (two63 - 1) / 10 <? x then leadingFraction x scale true s'
        else
          let y := x * 10 + digit c in
          if two63 <? y then leadingFraction x scale true s' else leadingFraction y (scale * 10) false s'
      else (x, scale, s)
  | EmptyString => (x, scale, s)
  end.

(** The unit: all up to the next dot or digit. *)
Fixpoint span_unit (s : string) : string * string :=
  match s with
  | String c s' =>
      if is_digit c || Ascii.eqb c "." then ("", s) else let '(u, rest) := span_unit s' in (String c u, rest)
  | EmptyString => ("", "")
  end.

(** [unitMap]; the two spellings of microseconds with a Greek letter are UTF-8. *)
Definition micro_sign : string := String "194"%char (String "181"%char "s").
Definition greek_mu : string := String "206"%char (String "188"%char "s").
Definition unit_of (u : string) : option Z :=
  if String.eqb u "ns" then Some 1
  else if String.eqb u "us" || String.eqb u micro_sign || String.eqb u greek_mu then Some 1000
  else if String.eqb u "ms" then Some 1000000
  else if String.eqb u "s" then Some 1000000000
  else if String.eqb u "m" then Some 60000000000
  else if String.eqb u "h" then Some 3600000000000
  else None.

(** [uint64(x)] of a non-negative float below [2^64]. *)
Definition f64_trunc (x : spec_float) : Z :=
  match x with S754_finite _ m e => Z.shiftl (Zpos m) e | _ => 0 end.

(** One number with its unit, added to [d]; [None] for an invalid duration. *)
Definition parse_item (d : Z) (s : string) : option (Z * string) :=
  match s with
  | String c _ =>
      if negb (is_digit c || Ascii.eqb c ".") then None
      else
        '(v, s1) ← leadingInt 0 s;
        let pre := negb (String.eqb s1 s) in
        let '(f, scale, post, s2) :=
          match s1 with
          | String "." s1' => let '(f, scale, s2) := leadingFraction 0 1 false s1' in (f, scale, negb (String.eqb s2 s1'), s2)
          | _ => (0, 1, false, s1)
          end in
        if negb (pre || post) then None
        else
          let '(u, rest) := span_unit s2 in
          if String.eqb u "" then None
          else
            unit ← unit_of u;
            if two63 / unit <? v then None
            else
              let v := v * unit in
              let v := if 0 <? f then v + f64_trunc (f64_mul (f64 f) (f64_div (f64 unit) (f64 scale))) else v in
              if two63 <? v then None
              else let d := d + v in if two63 <? d then None else Some (d, rest)
  | EmptyString => None
  end.

Fixpoint parse_items (fuel : nat) (d : Z) (s : string) : option Z :=
  match s with
  | EmptyString => Some d
  | _ =>
      match fuel with
      | O => None
      | S fuel => '(d, s) ← parse_item d s; parse_items fuel d s
      end
  end.

(** Each item consumes a character, so that the length is enough fuel
    ([ParseDuration_fuel]).  [None] is an error; its text is left out. *)
Definition ParseDuration (orig : string) : option Z :=
  let '(neg, s) := match orig with
    | String "-" s => (true, s)
    | String "+" s => (false, s)
    | s => (false, s)
    end in
  if String.eqb s "0" then Some 0
  else if String.eqb s "" then None
  else
    d ← parse_items (String.length s) 0 s;
    if neg then Some (- d) else if two63 - 1 <? d then None else Some d.

Example ParseDuration_1 : ParseDuration "1h15m30.918s" = Some 4530918000000.
Proof. by vm_compute. Qed.
Example ParseDuration_2 : ParseDuration "-.5s" = Some (-500000000).
Proof. by vm_compute. Qed.
Example ParseDuration_3 : ParseDuration "3000000h" = None.
Proof. by vm_compute. Qed.

Section test_handlers.
Context `{lib : Library} `{raw : RawMessages} `{srcs : !RegistrySources} `{ssort : !SliceSort}.

Definition test_entry (d : Descriptor) : GetTestsResponse := mkTestEntry (td_id d) (td_source d) (cfg_Name (td_config d)).

(** The descriptors that loaded. *)
Definition loaded (d : Descriptor) : bool := match td_err d with None => true | Some _ => false end.

Definition GetTests (co : Coordinator) : Response (list GetTestsResponse) :=
  SendOK (test_entry <$> filterb loaded (GetTestDescriptors (co_registry co))).

(** The search for a descriptor by test id. *)
Definition find_descriptor (testID : string) (c : TestRegistry) : option Descriptor :=
  List.find (fun d => loaded d && String.eqb (td_id d) testID) (GetTestDescriptors c).

Definition GetTest (testId : string) (co : Coordinator) : Response GetTestResponse :=
  if String.eqb testId "" then SendError "testId missing" StatusBadRequest
  else
    match find_descriptor testId (co_registry co) with
    | None => SendError "test not found" StatusNotFound
    | Some d =>
        let cfg := td_config d in
        SendOK (mkTestResponse (test_entry d) (u64 (cfg_Timeout cfg ÷ second)) (cfg_Config cfg) (cfg_ConfigVars cfg)
                  (cfg_Schedule cfg))
    end.

(** [ScheduleTest] of the runner returns after the notification of the queue
    loop, or the send to the off-queue loop. *)
Definition finish_schedule (skipQueue : bool) (id : Z) (r : TestRunner) : TestRunner :=
  default r (if skipQueue then send_off_queue id r else notify r).

(** [GetTestVariables().GetVarsMap(nil, false)] *)
Definition test_vars_map (t : Test) (r : TestRunner) : gmap string value :=
  default ∅ (GetVarsMap lib_depth (w_scopes (rworld r)) (variables t) ∅ false).

Definition PostTestRunsSchedule (b : body PostTestRunsScheduleRequest) (co : Coordinator)
    : Coordinator * Response PostTestRunsScheduleResponse :=
  match decode_body b with
  | Err e => (co, SendError e StatusBadRequest)
  | Ok req =>
      match find_descriptor (sr_TestID req) (co_registry co) with
      | None => (co, SendError "test not found" StatusNotFound)
      | Some d =>
          let '(r, res) :=
            ScheduleTest d (iterate (sr_Config req)) (sr_AllowDuplicate req) (sr_SkipQueue req) (co_runner co) in
          match res with
          | Err e => (mkCoordinator _ r (co_registry co), SendError ("failed creating test: " +:+ e) StatusInternalServerError)
          | Ok id =>
              let r := finish_schedule (sr_SkipQueue req) id r in
              (mkCoordinator _ r (co_registry co),
               SendOK (mkScheduleResponse (td_id d) id (cfg_Name (td_config d))
                         (from_option (fun t => test_vars_map t r) ∅ (tests r !! id))))
          end
      end
  end.

(** Registering changes the registry and the world. *)
Definition with_registry (c : TestRegistry) (w : World) (co : Coordinator) : Coordinator :=
  mkCoordinator _ (set_world w (co_runner co)) c.

Definition register_response (d : Descriptor) : PostTestsRegisterResponse :=
  mkRegisterResponse (td_id d) (cfg_Name (td_config d)) (cfg_Config (td_config d)).

Definition PostTestsRegister (b : body PostTestsRegisterRequest) (co : Coordinator)
    : Coordinator * Response PostTestsRegisterResponse :=
  match decode_body b with
  | Err e => (co, SendError e StatusBadRequest)
  | Ok req =>
      if String.eqb (rq_ID req) "" then (co, SendError "test id missing or empty" StatusBadRequest)
      else if String.eqb (rq_Name req) "" then (co, SendError "test name missing or empty" StatusBadRequest)
      else if bool_decide (rq_Tasks req = []) then (co, SendError "test must have 1 or more tasks" StatusBadRequest)
      else
        match (if String.eqb (rq_Timeout req) "" then Some 0 else ParseDuration (rq_Timeout req)) with
        | None => (co, SendError "failed decoding timeout" StatusBadRequest)
        | Some timeout =>
            let testConfig := mkTestCfg (rq_ID req) (rq_Name req) timeout (rq_Config req) (rq_ConfigVars req)
                                (rq_Tasks req) (rq_CleanupTasks req) (rq_Schedule req) in
            let '(c, w, res) := AddLocalTest testConfig (co_registry co) (rworld (co_runner co)) in
            let co := with_registry c w co in
            match res with
            | Err e => (co, SendError ("failed adding test: " +:+ e) StatusInternalServerError)
            | Ok d => (co, SendOK (register_response d))
            end
        end
  end.

(** The timeout is set even when the request has none. *)
Definition external_of_request (req : PostTestsRegisterExternalRequest) : ExternalTestConfig :=
  mkExternal "" (xq_File req) (xq_Name req)
    (Some (if 0 <? xq_Timeout req then i64 (i64 (xq_Timeout req) * second) else 0))
    (xq_Config req) (xq_ConfigVars req) (xq_Schedule req).

Definition PostTestsRegisterExternal (b : body PostTestsRegisterExternalRequest) (co : Coordinator)
    : Coordinator * Response PostTestsRegisterResponse :=
  match decode_body b with
  | Err e => (co, SendError e StatusBadRequest)
  | Ok req =>
      let '(c, w, _, res) := AddExternalTest (external_of_request req) (co_registry co) (rworld (co_runner co)) in
      let co := with_registry c w co in
      match res with
      | Err e => (co, SendError ("failed adding test: " +:+ e) StatusInternalServerError)
      | Ok d => (co, SendOK (register_response d))
      end
  end.

Definition delete_test (testID : string) (co : Coordinator) : Coordinator * option error :=
  let '(c, w, err) := DeleteTest testID (co_registry co) (rworld (co_runner co)) in (with_registry c w co, err).

Definition PostTestsDelete (b : body (list string)) (co : Coordinator) : Coordinator * Response (DeleteResponse string) :=
  match decode_body b with
  | Err e => (co, SendError e StatusBadRequest)
  | Ok ids => let '(co, resp) := delete_loop delete_test (fun id => id) ids co in (co, SendOK resp)
  end.
End test_handlers.

(** ** Durations: the length of the text is enough fuel *)

Lemma leadingInt_length x s v rest : leadingInt x s = Some (v, rest) -> (String.length rest <= String.length s)%nat.
Proof.
  revert x. induction s as [|c s IH]; intros x; simpl; [by intros [= <- <-]|].
  destruct (is_digit c); [|by intros [= <- <-]]. repeat case_match; try done. intros Hr%IH. lia.
Qed.

Lemma leadingFraction_length x scale o s f scale' rest :
  leadingFraction x scale o s = (f, scale', rest) -> (String.length rest <= String.length s)%nat.
Proof.
  revert x scale o. induction s as [|c s IH]; intros x scale o; simpl; [by intros [= <- <- <-]|].
  destruct (is_digit c); [|by intros [= <- <- <-]]. repeat case_match; intros Hr%IH; lia.
Qed.

Lemma span_unit_length s u rest : span_unit s = (u, rest) ->
  String.length s = (String.length u + String.length rest)%nat.
Proof.
  revert u rest. induction s as [|c s IH]; intros u rest; simpl; [by intros [= <- <-]|].
  destruct (_ || _); [by intros [= <- <-]|]. destruct (span_unit s) as [u' rest'] eqn:Hs. intros [= <- <-]. simpl. by rewrite (IH _ _ eq_refl).
Qed.

(** An item has a unit, so that it is not empty. *)
Lemma parse_item_shorter d s d' rest : parse_item d s = Some (d', rest) -> (String.length rest < String.length s)%nat.
Proof.
  unfold parse_item. destruct s as [|c s0]; [done|]. set (s := String c s0). clearbody s. destruct (negb _); [done|].
  destruct (leadingInt 0 s) as [[v s1]|] eqn:Hi; [|done]. apply leadingInt_length in Hi. simpl.
  set (p := match s1 with EmptyString => _ | _ => _ end).
  assert (String.length p.2 <= String.length s1)%nat as Hp.
  { unfold p. destruct s1 as [|a s1']; [done|]. repeat case_match; simpl; try lia;
      match goal with Hf : leadingFraction _ _ _ _ = _ |- _ => apply leadingFraction_length in Hf; simpl; lia end. }
  destruct p as [[[f scale] post] s2]. simpl in Hp. destruct (negb _); [done|].
  destruct (span_unit s2) as [u rest'] eqn:Hu. apply span_unit_length in Hu.
  destruct (String.eqb_spec u ""); [done|]. assert (0 < String.length u)%nat as Hpos by (destruct u; [done|simpl; lia]).
  destruct (unit_of u); simpl; [|done]. repeat case_match; try done; intros [= _ <-]; lia.
Qed.

Lemma parse_items_enough n m d s : (String.length s <= n)%nat -> (String.length s <= m)%nat ->
  parse_items n d s = parse_items m d s.
Proof.
  revert m d s. induction n as [|n IH]; intros m d s Hn Hm; (destruct s as [|c s0]; [by destruct m|]); [simpl in Hn; lia|].
  destruct m as [|m]; [simpl in Hm; lia|]. cbn [parse_items]. set (s := String c s0) in *.
  destruct (parse_item d s) as [[d' rest]|] eqn:Hi; [|done]. apply parse_item_shorter in Hi. apply IH; lia.
Qed.

Lemma ParseDuration_fuel n d s : (String.length s <= n)%nat -> parse_items n d s = parse_items (String.length s) d s.
Proof. intros H. by apply parse_items_enough. Qed.

(** ** The page of a log *)

(** A reader of a scope that holds the entries [es]. *)
Record reads_scope `{lib : Library} (o : ScopeOptions) (es : list log_entry) (lr : LogReader) : Prop := {
  rs_count : GetLogEntryCount lr = Z.of_nat (length es);
  rs_entries : forall from limit, is_u64 from -> 0 < limit -> lr_GetLogEntries lr from limit = log_page (scope_log o es) from limit }.

Lemma scope_log_page `{lib : Library} o es (n : nat) limit :
  log_page (scope_log o es) (Z.of_nat n) limit = limit_entries limit (drop (n - 1) (scope_log o es)).
Proof.
  unfold log_page. rewrite (filter_from_drop _ 1 _).
  - by replace (Z.to_nat (Z.of_nat n - 1)) with (n - 1)%nat by lia.
  - intros i l Hi. destruct (scope_log_lookup _ _ _ _ Hi) as [H _]. rewrite H. lia.
Qed.

(** The details of a task show its log while it has at most 100 entries.
    Beyond that the page starts one entry too early, since indexes count from
    one: the newest entry is not shown. *)
Theorem details_log_page `{lib : Library} o es lr :
  reads_scope o es lr -> Z.of_nat (length es) < two64 ->
  details_log lr =
    if (length es <=? 100)%nat then scope_log o es
    else take 100 (drop (length es - 101) (scope_log o es)).
Proof.
  intros [Hc He] Hlen. unfold details_log. rewrite Hc.
  assert (length (scope_log o es) = length es) as Hl by apply scope_log_length.
  destruct (Nat.leb_spec (length es) 100) as [Hle|Hgt].
  - assert ((100 <? Z.of_nat (length es)) = false) as -> by lia.
    rewrite He by (unfold is_u64, two64; lia). change 0 with (Z.of_nat 0) at 1. rewrite scope_log_page. change (0 - 1)%nat with 0%nat. rewrite drop_0. unfold limit_entries. rewrite Hl.
    by assert ((Z.of_nat (length es) <=? 100) = true) as -> by lia.
  - assert ((100 <? Z.of_nat (length es)) = true) as -> by lia. cbv zeta.
    rewrite u64_sub_ge by (unfold is_u64; lia). rewrite He by (unfold is_u64; lia).
    replace (Z.of_nat (length es) - 100) with (Z.of_nat (length es - 100)) by lia. rewrite scope_log_page.
    unfold limit_entries. rewrite length_drop, Hl.
    assert ((Z.of_nat (length es - (length es - 100 - 1)) <=? 100) = false) as -> by (apply Z.leb_gt; lia).
    replace (length es - 100 - 1)%nat with (length es - 101)%nat by lia. done.
Qed.

(** ** Deleting *)

Lemma ParseUint_show id : is_u64 id -> ParseUint (show id) = Some id.
Proof. apply ParseUint_pretty. Qed.

Section deleting.
Context {S A : Type} (delete : A -> S -> S * option error) (sh : A -> string).

(** Both handlers account for every item of the request. *)
Lemma delete_loop_accounts l s s' resp : delete_loop delete sh l s = (s', resp) ->
  sublist (Deleted resp) l /\ (length (Deleted resp) + length (Errors resp) = length l)%nat.
Proof.
  revert s s' resp. induction l as [|x l IH]; intros s s' resp; simpl; [by intros [= <- <-]|].
  destruct (delete x s) as [s1 err]. destruct (delete_loop delete sh l s1) as [s2 resp2] eqn:Hl.
  destruct (IH _ _ _ Hl) as [Hs Hn]. intros [= <- <-]. destruct err; simpl; (split; [by constructor|lia]).
Qed.

(** What a successful deletion gives and later ones keep holds in the end. *)
Lemma delete_loop_deleted (Q : A -> S -> Prop) l s s' resp :
  (forall x s s', delete x s = (s', None) -> Q x s') ->
  (forall x y s s' err, delete y s = (s', err) -> Q x s -> Q x s') ->
  delete_loop delete sh l s = (s', resp) ->
  (forall x, x ∈ Deleted resp -> Q x s') /\ (forall x, Q x s -> Q x s').
Proof.
  intros Hdel Hkeep. revert s s' resp. induction l as [|x l IH]; intros s s' resp; simpl.
  { intros [= <- <-]. split; [intros y Hy; by apply not_elem_of_nil in Hy|done]. }
  destruct (delete x s) as [s1 err] eqn:Hx. destruct (delete_loop delete sh l s1) as [s2 resp2] eqn:Hl.
  destruct (IH _ _ _ Hl) as [H1 H2]. intros [= <- <-]. split; [|intros y Hy; by eapply H2, Hkeep].
  destruct err as [e|]; simpl; [done|]. intros y [->|Hy]%elem_of_cons; [|by apply H1]. by eapply H2, Hdel.
Qed.
End deleting.

Section delete_runs.
Context `{lib : Library} `{raw : RawMessages} `{srcs : !RegistrySources} `{ssort : !SliceSort}.

Lemma unknown_run id r : coordinator_GetTestByRunID id r = None <->
  GetTestByRunID id r = None /\ (MaxInt64 < id \/ test_runs (w_db (rworld r)) !! id = None).
Proof.
  unfold coordinator_GetTestByRunID, LoadTestFromDB, GetTestRunByRunID. destruct (GetTestByRunID id r); [naive_solver|].
  destruct (Z.ltb_spec MaxInt64 id); [naive_solver|].
  destruct (test_runs (w_db (rworld r)) !! id) as [row|]; simpl; split; naive_solver lia.
Qed.

Lemma delete_row_runs id w x :
  let '(w', err) := run_tx (DeleteTestRun id) w in
  (err = None -> test_runs (w_db w') !! id = None) /\
  (test_runs (w_db w) !! x = None -> test_runs (w_db w') !! x = None).
Proof.
  pose proof (run_tx_cases (DeleteTestRun id) w) as H. destruct (run_tx _ w) as [w' err]. simpl in H.
  destruct H as (_ & _ & _ & [[-> Hdb]|[-> [e ->]]]); [|done]. injection Hdb as <-. simpl.
  rewrite lookup_delete_eq. split; [done|]. intros Hx. rewrite lookup_delete. by case_decide.
Qed.

Lemma DeleteTestRun_gone id r r' : coordinator_DeleteTestRun id r = (r', None) -> coordinator_GetTestByRunID id r' = None.
Proof.
  unfold coordinator_DeleteTestRun.
  assert (forall r0, GetTestByRunID id r0 = None ->
    (let '(w, err) := run_tx (DeleteTestRun id) (rworld r0) in (set_world w r0, err)) = (r', None) ->
    coordinator_GetTestByRunID id r' = None) as Hrow.
  { intros r0 H0 H. pose proof (delete_row_runs id (rworld r0) id) as Hd. destruct (run_tx _ _) as [w err].
    injection H as <- ->. apply unknown_run. split; [exact H0|]. right. exact (proj1 Hd eq_refl). }
  destruct (GetTestByRunID id r) as [t|] eqn:Ht; [|by apply Hrow]. case_decide; [|done].
  unfold RemoveTestFromQueue. case_decide; [|done]. case_decide; [done|]. apply Hrow.
  unfold GetTestByRunID. simpl. by rewrite decide_False by set_solver.
Qed.

Lemma DeleteTestRun_keeps x id r r' err : coordinator_DeleteTestRun id r = (r', err) ->
  coordinator_GetTestByRunID x r = None -> coordinator_GetTestByRunID x r' = None.
Proof.
  unfold coordinator_DeleteTestRun. rewrite !unknown_run.
  assert (forall r0, (GetTestByRunID x r = None -> GetTestByRunID x r0 = None) -> rworld r0 = rworld r ->
    (let '(w, err) := run_tx (DeleteTestRun id) (rworld r0) in (set_world w r0, err)) = (r', err) ->
    GetTestByRunID x r = None /\ (MaxInt64 < x \/ test_runs (w_db (rworld r)) !! x = None) ->
    GetTestByRunID x r' = None /\ (MaxInt64 < x \/ test_runs (w_db (rworld r')) !! x = None)) as Hrow.
  { intros r0 H0 Hw H [H1 H2]. rewrite Hw in H. pose proof (delete_row_runs id (rworld r) x) as Hd. destruct (run_tx _ _) as [w err'].
    injection H as <- ->. split; [exact (H0 H1)|]. destruct H2 as [H2|H2]; [by left|right; exact (proj2 Hd H2)]. }
  destruct (GetTestByRunID id r) as [t|] eqn:Ht; [|by apply Hrow].
  case_decide; [|by intros [= <- <-]]. unfold RemoveTestFromQueue.
  case_decide; [|by intros [= <- <-]]. case_decide; [by intros [= <- <-]|]. apply Hrow; [|done].
  unfold GetTestByRunID. simpl. repeat case_decide; set_solver.
Qed.
End delete_runs.

(** The answer to a deletion of runs accounts for every run of the request,
    and none of the runs reported as deleted is found afterwards. *)
Theorem deleted_runs_not_found `{lib : Library} `{raw : RawMessages} `{srcs : !RegistrySources} b r r' resp :
  PostTestRunsDelete b r = (r', SendOK resp) ->
  exists runs, decode_body b = Ok runs /\ sublist (Deleted resp) runs /\
    (length (Deleted resp) + length (Errors resp) = length runs)%nat /\
    forall id, is_u64 id -> id ∈ Deleted resp ->
      GetTestRunStatus (show id) r' = SendError "test run not found" StatusNotFound.
Proof.
  unfold PostTestRunsDelete. destruct (decode_body b) as [runs|]; [|done].
  destruct (delete_loop _ _ runs r) as [r1 resp1] eqn:Hl. intros [= <- <-]. exists runs. split; [done|].
  destruct (delete_loop_accounts _ _ _ _ _ _ Hl) as [Hs Hn]. split_and!; [done..|].
  destruct (delete_loop_deleted _ _ (fun id r => coordinator_GetTestByRunID id r = None) _ _ _ _
    DeleteTestRun_gone DeleteTestRun_keeps Hl) as [Hgone _].
  intros id Hid Hin. unfold GetTestRunStatus, find_run. rewrite ParseUint_show by done. by rewrite Hgone.
Qed.

(** ** Scheduling *)

Section scheduling.
Context `{lib : Library} `{raw : RawMessages} `{srcs : !RegistrySources} `{ssort : !SliceSort}.

Lemma ScheduleTest_created d overrides dup skip r r' id : ScheduleTest d overrides dup skip r = (r', Ok id) ->
  id = (runIDCounter r +u 1)%go /\ id ∈ testRunMap r' /\
  testQueue r' = (if skip then testQueue r else testQueue r ++ [id]) /\
  toSend r' = (if skip then toSend r ++ [id] else toSend r) /\
  exists t, tests r' !! id = Some t /\ status t = TestStatusPending /\ runID t = id /\ test_descriptor t = d.
Proof.
  unfold ScheduleTest, createTestRun. destruct (td_err d); [done|]. destruct (negb dup && _); [done|].
  destruct (CreateTest _ d overrides (rworld r)) as [w res] eqn:Hc.
  destruct res as [t|]; [|done]. destruct (CreateTest_spec _ _ _ _ _ _ Hc) as [_ Ht].
  destruct (Ht t eq_refl) as (H1 & H2 & H3 & _). intros H. injection H as <- <-.
  destruct skip; simpl; (split_and!; [done|set_solver|done..|]); exists t; by rewrite lookup_insert_eq.
Qed.

Lemma finish_schedule_keeps skip id r :
  tests (finish_schedule skip id r) = tests r /\ testRunMap (finish_schedule skip id r) = testRunMap r /\
  testQueue (finish_schedule skip id r) = testQueue r.
Proof.
  unfold finish_schedule, send_off_queue, notify. destruct skip; [by case_decide|by destruct (toNotify r)].
Qed.

Lemma live_run id r t : is_u64 id -> id ∈ testRunMap r -> tests r !! id = Some t -> find_run (show id) r = inl (Live t).
Proof.
  intros Hid Hm Ht. unfold find_run, coordinator_GetTestByRunID, GetTestByRunID.
  by rewrite ParseUint_show, decide_True, Ht by done.
Qed.

Lemma find_descriptor_spec testID c d : find_descriptor testID c = Some d -> td_id d = testID /\ td_err d = None.
Proof.
  unfold find_descriptor, loaded. intros [_ H]%List.find_some. apply andb_true_iff in H as [H ->%String.eqb_eq].
  by destruct (td_err d).
Qed.
End scheduling.

(** A test scheduled through the API is a new run of the requested test: its id
    is the next one, its status is pending, and it is at the end of the queue
    (or on its way to the off-queue loop and not in the queue). *)
Theorem scheduled_run_is_pending `{lib : Library} `{raw : RawMessages} `{srcs : !RegistrySources} `{ssort : !SliceSort}
    b co co' resp :
  PostTestRunsSchedule b co = (co', SendOK resp) ->
  exists req, decode_body b = Ok req /\ sp_TestID resp = sr_TestID req /\
    sp_RunID resp = (runIDCounter (co_runner co) +u 1)%go /\
    testQueue (co_runner co') = testQueue (co_runner co) ++ (if sr_SkipQueue req then [] else [sp_RunID resp]) /\
    co_registry co' = co_registry co /\
    GetTestRunStatus (show (sp_RunID resp)) (co_runner co') = SendOK "pending".
Proof.
  unfold PostTestRunsSchedule. destruct (decode_body b) as [req|]; [|done].
  destruct (find_descriptor _ _) as [d|] eqn:Hd; [|done]. destruct (find_descriptor_spec _ _ _ Hd) as [Hid _].
  destruct (ScheduleTest _ _ _ _ _) as [r res] eqn:Hs. destruct res as [id|]; [|done].
  destruct (ScheduleTest_created _ _ _ _ _ _ _ Hs) as (-> & Hm & Hq & _ & t & Ht & Hp & _).
  destruct (finish_schedule_keeps (sr_SkipQueue req) (runIDCounter (co_runner co) +u 1)%go r) as (F1 & F2 & F3).
  intros H. injection H as <- <-. exists req. simpl. split_and!; [done..| |done|].
  - rewrite F3, Hq. by destruct (sr_SkipQueue req); rewrite ?app_nil_r.
  - unfold GetTestRunStatus. rewrite (live_run _ _ t); [|apply u64_range|by rewrite F2|by rewrite F1]. simpl. by rewrite Hp.
Qed.

(** ** Result files and tasks *)

(** A request for a task that a live test does not have is a nil dereference,
    since the scheduler returns a nil pointer in an interface; the same
    request for a run of the database is answered with 404. *)
Theorem unknown_task_panics `{lib : Library} `{raw : RawMessages} `{srcs : !RegistrySources} `{ssort : !SliceSort}
    `{apil : !ApiLibrary} now id i t r :
  is_u64 id -> is_u64 i -> GetTestByRunID id r = Some t -> taskStateMap (taskScheduler t) !! i = None ->
  (exists msg, GetTestRunTaskDetails now (show id) (show i) r = Panic msg) /\
  (forall typ file dl, typ <> "" -> file <> "" -> exists msg, GetTaskResult (show id) (show i) typ file dl r = Panic msg) /\
  forall r' row, GetTestByRunID id r' = None -> id <= MaxInt64 -> test_runs (w_db (rworld r')) !! id = Some row ->
    task_states (w_db (rworld r')) !! (id, i) = None ->
    GetTestRunTaskDetails now (show id) (show i) r' = Ret (SendError "task not found" StatusNotFound).
Proof.
  intros Hid Hi Ht Hno.
  assert (forall what, find_task (show id) (show i) what r = inl NilPointer) as Hlive.
  { intros what. unfold find_task, coordinator_GetTestByRunID, sched_GetTaskState, getTaskState.
    by rewrite !ParseUint_show, Ht, Hno by done. }
  split_and!.
  - unfold GetTestRunTaskDetails. rewrite Hlive. by eexists.
  - intros typ file dl H1%String.eqb_neq H2%String.eqb_neq. unfold GetTaskResult.
    rewrite !ParseUint_show, H1, H2, Hlive by done. by eexists.
  - intros r' row H1 H2 H3 H4. unfold GetTestRunTaskDetails, find_task, coordinator_GetTestByRunID, LoadTestFromDB, GetTestRunByRunID.
    rewrite !ParseUint_show, H1 by done. assert ((MaxInt64 <? id) = false) as -> by lia. rewrite H3. simpl.
    unfold history_GetTaskState, GetTaskStateByTaskID. simpl. by rewrite H4.
Qed.

(** A result file whose name is a 32-bit decimal number cannot be requested by
    its name: the number is taken for the index. *)
Lemma numeric_names_unreachable run task typ index n name size data :
  ParseInt32 name = Some n -> n <> index ->
  find_result run task typ name
    (mkDatabase ∅ ∅ ∅ {[ (run, task, typ, index) := mkTaskResultRow run task typ index name size data ]} ∅ ∅) = None.
Proof.
  intros Hn Hne. unfold find_result, GetTaskResultByIndex. rewrite Hn. simpl. rewrite lookup_singleton_ne; [done|].
  by intros [= ->].
Qed.

(** ** External tests *)

(** A request without timeout replaces the timeout of the test's file by zero;
    a configured external test without timeout keeps it. *)
Lemma external_timeout_dropped `{lib : Library} `{raw : RawMessages} `{srcs : !RegistrySources} file req :
  xq_Timeout req = 0 ->
  cfg_Timeout (merge_external file (external_of_request req)) = 0 /\
  cfg_Timeout (merge_external file (mkExternal "" (xq_File req) (xq_Name req) None (xq_Config req) (xq_ConfigVars req)
    (xq_Schedule req))) = cfg_Timeout file.
Proof. intros H. unfold external_of_request. rewrite H. done. Qed.

(** Cancelling a run of the database changes nothing and answers OK. *)
Lemma cancel_stored_run `{lib : Library} `{raw : RawMessages} `{srcs : !RegistrySources} id d skip b r :
  find_run id r = inl (Stored d) -> decode_body b = Ok (mkCancelRequest (dt_TestID d) skip) ->
  PostTestRunCancel b id r =
    (r, SendOK (mkCancelResponse (dt_TestID d) (dt_runID d) (tr_Name (dt_testRun d)) (dt_Status d))).
Proof. intros Hd Hb. unfold PostTestRunCancel. rewrite Hb, Hd. simpl. by rewrite String.eqb_refl. Qed.

(** ** The response of a finished run after a restart *)

(** The row shows what the API reads of a task, for a timeout of whole seconds.
    Times matter once a task has started, and stopped. *)
Record mirrors `{lib : Library} (w : TaskScheduler) (t : taskState) (row : Db.TaskState) : Prop := {
  mi_id : TaskID row = index t;
  mi_parent : ParentTask row = ParentIndex t;
  mi_name : Db.Name row = opt_Name (options t);
  mi_title : Title row = Title_of t w;
  mi_timeout : i64 (Timeout row * second) = opt_Timeout (options t);
  mi_flags : RunFlags row = run_flags t;
  mi_start : isStarted t = true -> exists z, startTime t = Some z /\ StartTime row = UnixMilli z;
  mi_stop : isStarted t = true -> isRunning t = false -> exists z, stopTime t = Some z /\ StopTime row = UnixMilli z;
  mi_result : Db.TaskResult row = TaskResult_int (taskResult t);
  mi_error : TaskError row = default "" (taskError t) }.

Section restart.
Context `{lib : Library} `{raw : RawMessages} `{srcs : !RegistrySources} `{ssort : !SliceSort} `{apil : !ApiLibrary}.

(** What a row shows after an update of the task makes it a mirror. *)
Lemma row_shows_mirrors w t row cfg st : row_shows t (Title_of t w) cfg st row -> place_row t row ->
  Db.Name row = opt_Name (options t) -> i64 (Timeout row * second) = opt_Timeout (options t) ->
  (isStarted t = true -> is_Some (startTime t)) -> (isStarted t = true -> isRunning t = false -> is_Some (stopTime t)) ->
  (taskError t = None -> TaskError row = "") -> mirrors w t row.
Proof.
  intros (H1 & H2 & H3 & H4 & _ & _ & H7 & H8) [P1 P2 _] Hn Ht Hs He Herr. split; try done.
  - intros Hst. destruct (Hs Hst) as [z Hz]. exists z. by rewrite (H3 z Hz).
  - intros Hst Hr. destruct (He Hst Hr) as [z Hz]. exists z. by rewrite (H4 z Hz).
  - destruct (taskError t) as [e|] eqn:E; [by rewrite (H8 e)|by apply Herr].
Qed.

Definition set_RunTime (n : Z) (x : GetTestRunTask) : GetTestRunTask :=
  mkRunTask (rt_Index x) (rt_ParentIndex x) (rt_Name x) (rt_Title x) (rt_Started x) (rt_Completed x) (rt_StartTime x)
    (rt_StopTime x) (rt_Timeout x) n (rt_Status x) (rt_Result x) (rt_ResultFiles x) (rt_ResultError x).

(** The same task but for its run time, which differs by at most a
    millisecond. *)
Definition same_but_RunTime (a b : GetTestRunTask) : Prop :=
  b = set_RunTime (rt_RunTime b) a /\ Z.abs (rt_RunTime a - rt_RunTime b) <= 1.

(** The times of the task are whole milliseconds. *)
Definition whole_ms (t : taskState) : Prop :=
  forall z, startTime t = Some z \/ stopTime t = Some z -> of_UnixMilli (UnixMilli z) = z.

(** A row holds the times of its task in whole milliseconds: what the API
    makes of it is the live task but for the rounding of the run time. *)
Lemma run_task_mirror now files w w' t s row : mirrors (enter w (taskScheduler t)) s row -> isRunning s = false ->
  same_but_RunTime (run_task now files (live_view w t s)) (run_task now files (stored_view w' row)) /\
  (whole_ms s -> run_task now files (stored_view w' row) = run_task now files (live_view w t s)).
Proof.
  intros [M1 M2 M3 M4 M5 M6 M7 M8 M9 M10] Hnr. unfold run_task, task_times. simpl. unfold has_flag. rewrite !M6.
  assert ((Z.land (run_flags s) TaskRunFlagStarted =? 0) = negb (isStarted s)) as ->
    by (unfold run_flags; by destruct (isCleanup s), (isStarted s), (isRunning s), (isSkipped s), (isTimeout s)).
  assert ((Z.land (run_flags s) TaskRunFlagRunning =? 0) = negb (isRunning s)) as ->
    by (unfold run_flags; by destruct (isCleanup s), (isStarted s), (isRunning s), (isSkipped s), (isTimeout s)).
  rewrite !negb_involutive, M1, M2, M3, M4, M5, M9, M10.
  assert (default "" (if String.eqb (default "" (taskError s)) "" then None else Some (default "" (taskError s)))
    = default "" (taskError s)) as Herr
    by (generalize (default "" (taskError s)); intros e; by destruct (String.eqb_spec e "") as [->|]).
  rewrite Herr, Hnr. destruct (isStarted s); simpl; [|done].
  destruct (M7 eq_refl) as (a & Ea & ->), (M8 eq_refl Hnr) as (b & Eb & ->). rewrite Ea, Eb. simpl.
  rewrite !UnixMilli_of_UnixMilli. split.
  - split; [done|]. simpl. pose proof (elapsed_ms_close b a) as Hc. unfold clip. revert Hc.
    generalize (elapsed_ms (of_UnixMilli (UnixMilli b)) (of_UnixMilli (UnixMilli a))), (elapsed_ms b a). intros x y Hc.
    destruct (Z.ltb_spec x 0), (Z.ltb_spec y 0); lia.
  - intros Hw. by rewrite (Hw a), (Hw b) by auto.
Qed.

Lemma collect_tasks_rel {A} (R : A -> A -> Prop) (f g : TaskView -> A) w w' x x' l :
  (forall i, i ∈ l -> exists v v', sched_GetTaskState w x i = Object v /\ sched_GetTaskState w' x' i = Object v' /\
     tv_Index v = i /\ R (f v) (g v')) ->
  exists a b, collect_tasks f w x l = Ret a /\ collect_tasks g w' x' l = Ret b /\ Forall2 R a b /\
    Forall2 (fun i y => exists v, tv_Index v = i /\ y = f v) l a.
Proof.
  induction l as [|i l IH]; intros H; [exists [], []; split_and!; done|]. simpl.
  destruct (H i) as (v & v' & -> & -> & Hi & E); [by left|].
  destruct IH as (a & b & -> & -> & HR & HI); [intros j Hj; apply H; by right|]. simpl.
  exists (f v :: a), (g v' :: b). split_and!; [done..| |]; constructor; eauto.
Qed.

(** *** The start-up cleanup keeps finished runs *)

Lemma filterb_fmap_same {A} (p : A -> bool) (f : A -> A) l :
  (forall x, p (f x) = p x) -> (forall x, x ∈ l -> p x = true -> f x = x) -> filterb p (f <$> l) = filterb p l.
Proof.
  intros Hp. induction l as [|x l IH]; intros Hf; [done|]. rewrite fmap_cons, !filterb_cons, Hp.
  rewrite IH by (intros y Hy; apply Hf; by right). destruct (p x) eqn:E; [|done]. by rewrite Hf by (done || by left).
Qed.

Lemma cleanup_keeps_run id db db' :
  CleanupUncleanTestRuns db = Ok db' ->
  (forall k r, task_states db !! k = Some r -> k = (RunID r, TaskID r)) ->
  (forall i r, task_states db !! (id, i) = Some r -> Z.land (RunFlags r) TaskRunFlagRunning = 0) ->
  GetTaskStateIndex id db' = GetTaskStateIndex id db /\
  (forall i, task_states db' !! (id, i) = task_states db !! (id, i)) /\
  (forall row, test_runs db !! id = Some row -> tr_Status row <> "running" -> test_runs db' !! id = Some row) /\
  task_results db' = task_results db.
Proof.
  intros [= <-] Hkeys Hrun. simpl. split_and!; [| | |done].
  - unfold GetTaskStateIndex. simpl. set (f := fun r => if 0 <? _ then _ else r).
    rewrite (map_to_list_fmap f), <- list_fmap_compose. change (snd ∘ prod_map Datatypes.id f) with (f ∘ @snd (Z * Z) Db.TaskState).
    rewrite list_fmap_compose. rewrite filterb_fmap_same; [done| |].
    + intros r. unfold f. by destruct (0 <? _).
    + intros r Hr He. apply elem_of_values in Hr as [k Hk]. pose proof (Hkeys _ _ Hk) as ->.
      apply Z.eqb_eq in He. rewrite He in Hk. unfold f. by rewrite (Hrun _ _ Hk).
  - intros i. rewrite lookup_fmap. destruct (task_states db !! (id, i)) as [r|] eqn:Hr; [|done]. simpl. by rewrite (Hrun _ _ Hr).
  - intros row Hrow Hne. rewrite lookup_fmap, Hrow. simpl. by apply String.eqb_neq in Hne as ->.
Qed.

Lemma coordinator_start_world readErr h w r : coordinator_start readErr h w = Some r ->
  CleanupUncleanTestRuns (w_db w) = Ok (w_db (rworld r)) /\ forall id, GetTestByRunID id r = None.
Proof.
  unfold coordinator_start. pose proof (run_tx_cases CleanupUncleanTestRuns w) as H.
  destruct (run_tx _ w) as [w' [e|]]; [done|]. simpl in H. destruct H as (_ & _ & _ & [[_ Hdb]|[_ [e He]]]); [|done].
  intros [= <-]. split; [exact Hdb|]. done.
Qed.

(** The lists of a live test and of the rows of its scheduler. *)
Lemma same_tasks_after_restart w t db' d :
  history_ok (taskScheduler t) -> database (taskScheduler t) = Some (w_db w) -> testRunID (taskScheduler t) = runID t ->
  0 < GetTaskCount (Some (taskScheduler t)) ->
  GetTaskStateIndex (runID t) db' = GetTaskStateIndex (runID t) (w_db w) -> d = mkDbTest (runID t) (dt_testRun d) None ->
  forall w', w_db w' = db' -> sched_all_tasks w' (Stored d) = sched_all_tasks w (Live t) /\
    (0 <? sched_GetTaskCount w' (Stored d)) = true.
Proof.
  intros [Hwf (db & Hrec) Hroots] Hdb Hid Hcount Hidx Hd w' Hw'. pose proof (rd_database _ _ Hrec) as Hdb2.
  rewrite Hdb in Hdb2. injection Hdb2 as <-.
  destruct (history_lists _ _ (dt_testRun d) Hwf Hrec Hroots) as (L1 & L2 & _ & _ & L5). rewrite Hid, <- Hd in *.
  assert (task_rows (w_db w') d = task_rows (w_db w) d) as Hrows.
  { rewrite Hd, !task_rows_fresh, Hw'. done. }
  unfold sched_all_tasks, sched_GetTaskCount, history_GetAllTasks, history_GetAllCleanupTasks, history_GetTaskCount in *.
  rewrite Hrows, L1, L2. split; [done|]. apply Z.ltb_lt. rewrite L5. lia.
Qed.
End restart.

Section restart_response.
Context `{lib : Library} `{raw : RawMessages} `{srcs : !RegistrySources} `{ssort : !SliceSort} `{apil : !ApiLibrary}.

(** The seconds of a time that was stored in milliseconds. *)
Lemma stored_seconds z : 0 <= z ->
  (if IsZero (of_UnixMilli (UnixMilli z)) then 0 else Unix (of_UnixMilli (UnixMilli z))) =
  (if IsZero z then 0 else Unix z).
Proof.
  intros Hz. rewrite Unix_of_UnixMilli. unfold IsZero, zero_time.
  assert (0 <= of_UnixMilli (UnixMilli z)) by (unfold of_UnixMilli, UnixMilli, Millisecond; Z.div_mod_to_equations; lia).
  rewrite !(proj2 (Z.eqb_neq _ _)) by lia. done.
Qed.

(** The test run of the two kinds of tests has the same head. *)
Lemma run_entry_same t row d :
  (forall z, test_startTime t = Some z \/ test_stopTime t = Some z -> 0 <= z) ->
  row_shows_test t row -> tr_TestID row = TestID t ->
  tr_Name row = cfg_Name (td_config (test_descriptor t)) -> dt_testRun d = row -> dt_runID d = runID t ->
  run_entry (Stored d) = run_entry (Live t).
Proof.
  intros H0 (H1 & H2 & H3) H4 H5 H6 H7. unfold run_entry. simpl. unfold dt_TestID, dt_Status. rewrite H6, H7, H4, H5, H1, H2, H3.
  f_equal; [destruct (test_startTime t)|destruct (test_stopTime t)]; simpl; try done; by rewrite stored_seconds by auto.
Qed.

(** All tasks of the lists of a live test are known. *)
Lemma live_tasks_known w t i : sched_wf (taskScheduler t) -> i ∈ sched_all_tasks w (Live t) ->
  exists s, taskStateMap (taskScheduler t) !! i = Some s /\ index s = i.
Proof.
  intros Hwf Hi. unfold sched_all_tasks, GetAllTasks, GetAllCleanupTasks, sortTaskList in Hi.
  rewrite elem_of_app, !slice_sort_perm in Hi.
  destruct Hi as [(s & Hs & _)%(swf_all _ Hwf)|(s & Hs & _)%(swf_cleanup _ Hwf)]; exists s; (split; [done|]);
    by destruct (swf_key _ Hwf _ _ Hs).
Qed.
End restart_response.

(** C16: The API shows a finished run the same way after the process was
    restarted, but for the run times of its tasks.  Live, the response is built
    from the scheduler and its scopes; after the restart, which cleans up
    unfinished runs, from the rows of the database by other code: for a run
    whose rows were written by its scheduler and show its last state, whose
    timeouts are whole seconds and whose clock was past 1970, both answer with
    the same head and list the tasks of the scheduler in their order, and the
    two entries of a task differ in nothing but the run time, by at most one
    millisecond.  (The live run time is the rounded difference of times in
    nanoseconds, the other one the difference of the truncated milliseconds of
    the rows.)  When all task times are whole milliseconds the two responses
    are equal. *)
Theorem run_response_survives_restart `{lib : Library} `{raw : RawMessages} `{srcs : !RegistrySources} `{ssort : !SliceSort}
    `{apil : !ApiLibrary} now v h0 db0 t row r r' readErr h :
  let id := runID t in let s := taskScheduler t in let db := w_db (rworld r) in
  0 <= id <= MaxInt64 ->
  (forall k x, task_states db0 !! k = Some x -> k = (RunID x, TaskID x) /\ RunID x <> id) ->
  rtc history_step (NewTaskScheduler v id h0 (Some db0)) s -> database s = Some db -> 0 < GetTaskCount (Some s) ->
  GetTestByRunID id r = Some t -> status t <> TestStatusRunning ->
  (forall z, test_startTime t = Some z \/ test_stopTime t = Some z -> 0 <= z) ->
  test_runs db !! id = Some row -> row_shows_test t row -> tr_TestID row = TestID t ->
  tr_Name row = cfg_Name (td_config (test_descriptor t)) ->
  (forall i tk, taskStateMap s !! i = Some tk -> isRunning tk = false /\
     exists trow, task_states db !! (id, i) = Some trow /\ mirrors (enter (rworld r) s) tk trow) ->
  coordinator_start readErr h (rworld r) = Some r' ->
  exists resp resp', GetTestRun now None (show id) r = Ret (SendOK resp) /\
    GetTestRun now None (show id) r' = Ret (SendOK resp') /\
    rr_entry resp' = rr_entry resp /\ Forall2 same_but_RunTime (rr_Tasks resp) (rr_Tasks resp') /\
    rt_Index <$> rr_Tasks resp = GetAllTasks s ++ GetAllCleanupTasks s /\
    ((forall i tk, taskStateMap s !! i = Some tk -> whole_ms tk) -> resp' = resp).
Proof.
  intros id s db Hid Hdb0 Hsteps Hdb Hcount Hlive Hnr Htimes Hrow Hshow Htid Hname Htasks Hstart.
  assert (is_u64 id) as Hu by (unfold is_u64, two64, MaxInt64 in *; lia).
  pose proof (history_steps_ok _ _ Hsteps (NewTaskScheduler_history_ok v id h0 db0 Hdb0)) as Hok.
  pose proof (history_steps_id _ _ Hsteps) as Hrid. simpl in Hrid. pose proof Hok as [Hwf (db1 & Hrec) _].
  pose proof (rd_database _ _ Hrec) as E. fold s in E. rewrite Hdb in E. injection E as <-.
  destruct (coordinator_start_world _ _ _ _ Hstart) as [Hclean Hgone].
  destruct (cleanup_keeps_run id db _ Hclean) as (Hidx & Hst & Hruns & Hres); [apply (rd_keys _ _ Hrec)|..].
  { intros i x Hx. rewrite <- Hrid in Hx. destruct (rd_rows _ _ Hrec i x Hx) as (tk & Htk & _). rewrite Hrid in Hx.
    destruct (Htasks i tk Htk) as (Hr & trow & Htr & Hm). rewrite Hx in Htr. injection Htr as <-.
    rewrite (mi_flags _ _ _ Hm). unfold run_flags. rewrite Hr. by destruct (isCleanup tk), (isStarted tk), (isSkipped tk), (isTimeout tk). }
  set (d := mkDbTest id row None).
  assert (find_run (show id) r = inl (Live t)) as Hf by (unfold find_run, coordinator_GetTestByRunID; by rewrite ParseUint_show, Hlive).
  assert (find_run (show id) r' = inl (Stored d)) as Hf'.
  { unfold find_run, coordinator_GetTestByRunID, LoadTestFromDB, GetTestRunByRunID. rewrite ParseUint_show, Hgone by done.
    assert ((MaxInt64 <? id) = false) as -> by lia. rewrite (Hruns row); [done..|].
    destruct Hshow as (-> & _). intros Hrun. apply Hnr. by apply (TestStatus_string_inj _ TestStatusRunning). }
  destruct (same_tasks_after_restart (rworld r) t (w_db (rworld r')) d Hok Hdb Hrid Hcount Hidx eq_refl _ eq_refl) as [Hlists Hcnt].
  pose proof (live_tasks_known (rworld r) t) as Hknown.
  assert ((0 <? sched_GetTaskCount (rworld r) (Live t)) = true) as Hcnt0 by (apply Z.ltb_lt; exact Hcount).
  unfold GetTestRun. rewrite Hf, Hf', ParseUint_show by done. simpl default. unfold all_tasks. rewrite Hcnt, Hcnt0, Hlists.
  assert (GetAllTaskResultHeaders id (w_db (rworld r')) = GetAllTaskResultHeaders id db) as ->
    by (unfold GetAllTaskResultHeaders; by rewrite Hres). fold db.
  set (f := fun v => run_task now (result_files id (tv_Index v) (GetAllTaskResultHeaders id db)) v).
  destruct (collect_tasks_rel (fun a b => same_but_RunTime a b /\
    ((forall i tk, taskStateMap s !! i = Some tk -> whole_ms tk) -> b = a)) f f (rworld r) (rworld r') (Live t) (Stored d)
    (sched_all_tasks (rworld r) (Live t))) as (a & b & Ha & Hb & HR & HI).
  { intros i Hi. destruct (Hknown i Hwf Hi) as (tk & Htk & Hx).
    destruct (Htasks i tk Htk) as (Hrun & trow & Htr & Hm). exists (live_view (rworld r) t tk), (stored_view (rworld r') trow).
    simpl. unfold history_GetTaskState, GetTaskStateByTaskID, getTaskState. simpl. rewrite Hst. fold s. rewrite Htr. fold s in Htk. rewrite Htk.
    unfold f. simpl. rewrite (mi_id _ _ _ Hm).
    destruct (run_task_mirror now (result_files id (index tk) (GetAllTaskResultHeaders id db)) (rworld r) (rworld r') t tk trow Hm Hrun)
      as [HR Heq]. split_and!; [done..|]. intros Hw. by apply Heq, (Hw i). }
  rewrite Ha, Hb. eexists _, _. split; [reflexivity|]. split; [reflexivity|]. simpl.
  assert (run_entry (Stored d) = run_entry (Live t)) as Hhead by (by apply run_entry_same with row).
  split; [done|]. split; [eapply Forall2_impl; [exact HR|by intros ? ? [? _]]|]. split.
  - change (GetAllTasks s ++ GetAllCleanupTasks s) with (sched_all_tasks (rworld r) (Live t)). clear -HI.
    induction HI as [|i y l l' (v & <- & ->) _ IH]; [done|]. rewrite fmap_cons, IH. f_equal.
    unfold f, run_task. by destruct (task_times _ _) as [[[? ?] ?] ?].
  - intros Hw. rewrite Hhead. f_equal. clear -HR Hw. induction HR as [|? ? ? ? [_ ->] _ IH]; [done| |]; by rewrite ?IH.
Qed.

(** ** Witnesses *)

Section examples.
#[local] Existing Instance ex_raw.
#[local] Existing Instance ex_sources.
#[local] Instance ex_api_lib : Library := ex_lib 9.
#[local] Instance ex_api : ApiLibrary := {|
  yaml_any := fun _ => Ok VNil; yaml_fields := fun _ => (∅, None);
  live_logger := fun _ _ => mkLogReader 0 (fun _ _ => []) |}.

(** A finished run with one task, from six to eight seconds past the epoch. *)
Definition ex_api_row : TestRun := mkTestRun 7 "t1" "t1" "local-1" "{}" 5000 9000 60 "success".
Definition ex_api_db0 : Database := mkDatabase {[7 := ex_api_row]} ∅ ∅ ∅ ∅ ∅.
Definition ex_api_s0 : TaskScheduler := NewTaskScheduler (Ref 0) 7 (NewVariables None empty_heap).1 (Some ex_api_db0).
Definition ex_api_s1 : TaskScheduler := (AddRootTask (ex_opts "run_tasks" "a") ex_api_s0).1.
Definition ex_api_end (start stop : Z) (t : taskState) : taskState :=
  set_isStarted true (set_startTime (Some start) (set_stopTime (Some stop) (set_taskResult TaskResultSuccess t))).
Definition ex_api_s_of (start stop : Z) : TaskScheduler :=
  (updateTaskState 1 (update_task 1 (ex_api_end start stop) ex_api_s1)).1.
Definition ex_api_s : TaskScheduler := ex_api_s_of 6000000000 8000000000.

Definition ex_api_test_of (s : TaskScheduler) : Test :=
  mkTest 7 (ex_descriptor "t1" ["run_tasks"]) (Ref 0) s ex_api_row TestStatusSuccess (Some 5000000000) (Some 9000000000) 0
    (Some (false, false)).
Definition ex_api_test : Test := ex_api_test_of ex_api_s.
Definition ex_api_world_of (s : TaskScheduler) : World :=
  mkWorld (scopes s) (default empty_db (database s)) (txCount s) 0.
Definition ex_api_world : World := ex_api_world_of ex_api_s.
Definition ex_api_runner_of (s : TaskScheduler) : TestRunner :=
  mkTestRunner 7 {[7 := ex_api_test_of s]} {[7]} [] false 0 [] [] LoopWait ∅ ∅ (ex_api_world_of s).
Definition ex_api_runner : TestRunner := ex_api_runner_of ex_api_s.

Lemma ex_api_steps : rtc history_step ex_api_s0 ex_api_s.
Proof.
  apply (rtc_l _ _ ex_api_s1); [by apply (hs_root ex_api_s0 _ 1); vm_compute|].
  apply (rtc_l _ _ (update_task 1 (ex_api_end 6000000000 8000000000) ex_api_s1)); [by apply hs_status|].
  apply rtc_once, hs_updateTaskState.
Qed.

Definition ex_api_task : taskState := default no_task (taskStateMap ex_api_s !! 1).
Definition ex_api_trow : Db.TaskState :=
  default ex_row1 (task_states (w_db ex_api_world) !! (7, 1)).

Lemma ex_api_tasks i tk : taskStateMap ex_api_s !! i = Some tk -> i = 1 /\ tk = ex_api_task.
Proof.
  intros H. apply elem_of_map_to_list in H. assert (map_to_list (taskStateMap ex_api_s) = [(1, ex_api_task)]) as E by (by vm_compute).
  rewrite E in H. apply list_elem_of_singleton in H. by injection H.
Qed.

Lemma ex_api_mirrors : isRunning ex_api_task = false /\
  task_states (w_db ex_api_world) !! (7, 1) = Some ex_api_trow /\
  mirrors (enter ex_api_world ex_api_s) ex_api_task ex_api_trow.
Proof.
  split; [by vm_compute|]. split; [by vm_compute|].
  split; try match goal with |- _ = _ => vm_compute; reflexivity end.
  - intros _. exists 6000000000. split; vm_compute; reflexivity.
  - intros _ _. exists 8000000000. split; vm_compute; reflexivity.
Qed.

Lemma ex_api_facts :
  database ex_api_s = Some (w_db ex_api_world) /\ 0 < GetTaskCount (Some ex_api_s) /\
  test_runs (w_db ex_api_world) !! 7 = Some ex_api_row /\ coordinator_start None empty_heap ex_api_world <> None.
Proof. split_and!; by vm_compute. Qed.

Lemma run_response_survives_restart_witness :
  exists r' resp, coordinator_start None empty_heap (rworld ex_api_runner) = Some r' /\
    GetTestRun 10000000000 None (show 7) ex_api_runner = Ret (SendOK resp) /\
    GetTestRun 10000000000 None (show 7) r' = Ret (SendOK resp) /\ rt_Index <$> rr_Tasks resp = [1].
Proof.
  destruct ex_api_facts as (F1 & F2 & F3 & F4).
  destruct (coordinator_start None empty_heap ex_api_world) as [r'|] eqn:Hr; [|by destruct F4].
  exists r'.
  cut (exists resp resp', GetTestRun 10000000000 None (show 7) ex_api_runner = Ret (SendOK resp) /\
    GetTestRun 10000000000 None (show 7) r' = Ret (SendOK resp') /\
    rr_entry resp' = rr_entry resp /\ Forall2 same_but_RunTime (rr_Tasks resp) (rr_Tasks resp') /\
    rt_Index <$> rr_Tasks resp = GetAllTasks ex_api_s ++ GetAllCleanupTasks ex_api_s /\
    ((forall i tk, taskStateMap ex_api_s !! i = Some tk -> whole_ms tk) -> resp' = resp)).
  { intros (resp & resp' & H1 & H2 & _ & _ & H3 & H4). exists resp. split; [exact Hr|]. split; [exact H1|].
    split; [|rewrite H3; vm_compute; reflexivity]. rewrite H2, H4; [reflexivity|].
    intros i tk Htk. destruct (ex_api_tasks i tk Htk) as [-> ->]. intros z [Hz|Hz]; vm_compute in Hz; injection Hz as <-; reflexivity. }
  apply (run_response_survives_restart 10000000000 (Ref 0) (NewVariables None empty_heap).1 ex_api_db0 ex_api_test ex_api_row
    ex_api_runner r' None empty_heap).
  - unfold MaxInt64. simpl. lia.
  - intros k x. simpl. by rewrite lookup_empty.
  - exact ex_api_steps.
  - exact F1.
  - exact F2.
  - reflexivity.
  - discriminate.
  - intros z [Hz|Hz]; injection Hz as <-; lia.
  - exact F3.
  - split_and!; reflexivity.
  - reflexivity.
  - reflexivity.
  - intros i tk Htk. destruct (ex_api_tasks i tk Htk) as [-> ->]. destruct ex_api_mirrors as (M1 & M2 & M3).
    split; [exact M1|]. exists ex_api_trow. split; [exact M2|exact M3].
  - exact Hr.
Defined.

(** The run times of the first task of a response. *)
Definition ex_runtimes (r : TestRunner) : list Z :=
  match GetTestRun 10000000000 None (show 7) r with Ret (SendOK resp) => rt_RunTime <$> rr_Tasks resp | _ => [] end.

(** A task that ran from 0.9 to 2.1 milliseconds past the sixth second is shown
    with a run time of one millisecond before a restart and of two after it. *)
Lemma restart_changes_run_time :
  let r := ex_api_runner_of (ex_api_s_of 6000900000 6002100000) in
  ex_runtimes r = [1] /\ (ex_runtimes <$> coordinator_start None empty_heap (rworld r)) = Some [2].
Proof. split; by vm_compute. Qed.

(** Run 9 is pending and can be deleted, run 7 is over. *)
Definition ex_api_pending : Test := set_status TestStatusPending ex_api_test.
Definition ex_api_runner2 : TestRunner :=
  mkTestRunner 9 {[7 := ex_api_test; 9 := ex_api_pending]} {[7; 9]} [9] false 0 [] [] LoopWait ∅ ∅ ex_api_world.
Definition ex_json {A} (x : A) : body A := mkBody "application/json" (Err "") (Ok x).

Lemma ex_api_delete : exists r' resp, PostTestRunsDelete (ex_json [7; 9]) ex_api_runner2 = (r', SendOK resp) /\ Deleted resp = [9].
Proof.
  destruct (PostTestRunsDelete (ex_json [7; 9]) ex_api_runner2) as [r' resp] eqn:E.
  assert (match resp with SendOK d => Deleted d | _ => [] end = [9]) as H.
  { apply (f_equal (fun x => match x.2 with SendOK d => Deleted d | _ => [] end)) in E. cbn [snd] in E. rewrite <- E. by vm_compute. }
  destruct resp as [d|]; [|discriminate]. exists r', d. split; [reflexivity|exact H].
Qed.

Lemma deleted_runs_not_found_witness :
  exists r' resp, PostTestRunsDelete (ex_json [7; 9]) ex_api_runner2 = (r', SendOK resp) /\
    GetTestRunStatus (show 9) r' = SendError "test run not found" 404.
Proof.
  destruct ex_api_delete as (r' & resp & E & Hd). exists r', resp. split; [exact E|].
  destruct (deleted_runs_not_found (ex_json [7; 9]) ex_api_runner2 r' resp E) as (runs & _ & _ & _ & H).
  apply H; [split; [discriminate|reflexivity]|]. rewrite Hd. by left.
Defined.

Definition ex_api_co : Coordinator :=
  mkCoordinator _ ex_api_runner
    (register (ex_descriptor "t1" ["run_tasks"]) (NewTestRegistry (Ref 0))).
Definition ex_api_request : body PostTestRunsScheduleRequest := ex_json (mkScheduleRequest "t1" ∅ false false).

Lemma ex_api_schedule : exists co' resp, PostTestRunsSchedule ex_api_request ex_api_co = (co', SendOK resp) /\ sp_RunID resp = 8.
Proof.
  destruct (PostTestRunsSchedule ex_api_request ex_api_co) as [co' resp] eqn:E.
  assert (match resp with SendOK d => sp_RunID d | _ => 0 end = 8) as H.
  { apply (f_equal (fun x => match x.2 with SendOK d => sp_RunID d | _ => 0 end)) in E. cbn [snd] in E. rewrite <- E. by vm_compute. }
  destruct resp as [d|]; [|discriminate]. exists co', d. split; [reflexivity|exact H].
Qed.

Lemma scheduled_run_is_pending_witness :
  exists co' resp, PostTestRunsSchedule ex_api_request ex_api_co = (co', SendOK resp) /\
    GetTestRunStatus (show 8) (co_runner co') = SendOK "pending".
Proof.
  destruct ex_api_schedule as (co' & resp & E & Hid). exists co', resp. split; [exact E|].
  destruct (scheduled_run_is_pending ex_api_request ex_api_co co' resp E) as (req & _ & _ & _ & _ & _ & H).
  rewrite Hid in H. exact H.
Defined.

Lemma unknown_task_panics_witness :
  exists msg, GetTestRunTaskDetails 10000 (show 7) (show 5) ex_api_runner = Panic msg.
Proof.
  apply (unknown_task_panics 10000 7 5 ex_api_test ex_api_runner); [split; [discriminate|reflexivity]..|reflexivity|].
  destruct (taskStateMap ex_api_s !! 5) as [tk|] eqn:Hk; [|exact Hk]. destruct (ex_api_tasks 5 tk Hk) as [H _]. discriminate H.
Defined.

(** A log of 150 entries: entries 50 to 149 are shown. *)
Definition ex_api_log : list log_entry := (fun n => ex_entry (Z.of_nat n)) <$> seq 1 150.
Definition ex_api_reader : LogReader :=
  mkLogReader 150 (fun from limit => log_page (scope_log (mkScopeOptions 1000 7 1) ex_api_log) from limit).

Lemma details_log_page_witness : LogIndex <$> details_log ex_api_reader = Z.of_nat <$> seq 50 100.
Proof.
  rewrite (details_log_page (mkScopeOptions 1000 7 1) ex_api_log ex_api_reader).
  - vm_compute. reflexivity.
  - split; [vm_compute; reflexivity|]. intros from limit _ _. reflexivity.
  - vm_compute. reflexivity.
Defined.
End examples.
