(* ===== verification/Pages.v ===== *)
(** * The web pages

    web/handlers/*.go: the data of the pages (index, test, test run, registry,
    logs, sidebar), on the same state as the API; templates render it.  Page
    numbers come from the query of the request, and the lists of runs and of
    tests are cut into pages. *)

From S2P Require Import Prelude Vars Db Scheduler Execution Tests Registry Runner History Logger BlockIndex Pool Api.

#[local] Open Scope string_scope.
#[local] Open Scope list_scope.
Open Scope Z_scope.

(** ** Pages *)

Record PageArgs := mkPageArgs { pa_PageSize : Z; pa_Page : Z }.

(** The parsers of the index, test and registry pages are the same; an
    argument that does not parse or is out of range leaves the default. *)
Definition parse_page_args (ps p : option string) : PageArgs :=
  mkPageArgs
    (match ps ≫= ParseUint32 with Some val => if (0 <? val) && (val <=? 200) then val else 25 | None => 25 end)
    (match p ≫= ParseUint32 with Some val => if 0 <? val then val else 1 | None => 1 end).

(** [uint64(math.Ceil(x))] of a non-negative float below [2^64]. *)
Definition f64_ceil (x : spec_float) : Z :=
  match x with
  | S754_finite false m e => if 0 <=? e then Z.shiftl (Zpos m) e else - Z.shiftr (- Zpos m) (- e)
  | _ => 0
  end.

(** The counters of a page. *)
Record PageFrame := mkPageFrame {
  pf_TotalTests : Z; pf_FirstTestIndex : Z; pf_LastTestIndex : Z; pf_TotalPages : Z; pf_PageSize : Z;
  pf_CurrentPageIndex : Z; pf_PrevPageIndex : Z; pf_NextPageIndex : Z }.

Definition pageOffset (args : PageArgs) : Z := u64 (u64 (pa_Page args - 1) * pa_PageSize args).

Definition page_frame (args : PageArgs) (totalTests shown : Z) : PageFrame :=
  let totalPages := f64_ceil (f64_div (f64 totalTests) (f64 (pa_PageSize args))) in
  let page := pa_Page args in
  mkPageFrame totalTests (pageOffset args) (u64 (pageOffset args + shown - 1)) totalPages (pa_PageSize args) page
    (if 1 <? page then page - 1 else 0) (if page <? totalPages then page + 1 else 0).

(** The index of the last page on the index and registry pages. *)
Definition last_page_index (f : PageFrame) : Z := u64 (pf_TotalPages f - 1).

Record TestRunData := mkTestRunData {
  td_RunID : Z; td_TestID : string; td_Index : Z; td_Name : string; td_IsStarted : bool; td_IsCompleted : bool;
  td_StartTime : Z; td_StopTime : Z; td_Timeout : Z; td_HasTimeout : bool; td_RunTime : Z; td_HasRunTime : bool;
  td_Status : string; td_TaskCount : Z }.

(** Started and completed, on the lists of runs: an aborted run is neither. *)
Definition list_progress (status : string) : bool * bool :=
  if String.eqb status "running" then (true, false)
  else if String.eqb status "success" || String.eqb status "failure" then (true, true)
  else (false, false).

(** ... and on the page of one run, where an aborted run is both. *)
Definition run_progress (status : string) : bool * bool :=
  if String.eqb status "running" then (true, false)
  else if String.eqb status "success" || String.eqb status "failure" || String.eqb status "aborted" then (true, true)
  else (false, false).

(** What the front end is configured with. *)
Record FrontendHandler := mkFrontend { securityTrimmed : bool; isAPIEnabled : bool }.

Record IndexPage := mkIndexPage {
  ip_CanCancel : bool; ip_Tests : list TestRunData; ip_Frame : PageFrame; ip_LastPageIndex : Z }.

Record TestPage := mkTestPage {
  tp_ID : string; tp_Name : string; tp_Source : string; tp_Config : string; tp_CanStart : bool; tp_CanCancel : bool;
  tp_Tests : list TestRunData; tp_Frame : PageFrame }.

Record TestRegistryData := mkRegistryData {
  rd_Index : Z; rd_TestID : string; rd_Name : string; rd_Source : string; rd_Error : string; rd_Config : string;
  rd_RunCount : Z; rd_LastRun : option Z }.

Record RegistryPage := mkRegistryPage {
  rg_CanRegister : bool; rg_CanStart : bool; rg_CanDelete : bool; rg_Tests : list TestRegistryData;
  rg_Frame : PageFrame; rg_LastPageRegistry : Z }.

Section pages.
Context `{lib : Library} `{raw : RawMessages} `{srcs : !RegistrySources} `{ssort : !SliceSort} `{apil : !ApiLibrary}.
Variable fh : FrontendHandler.
(** [encoding/json.Marshal] of a map of variables *)
Variable json_Marshal : gmap string value -> result string.

(** The run time: of a finished run, or so far, rounded to milliseconds. *)
Definition getTestRunData (now : Z) (w : World) (idx : Z) (x : test_ref) : TestRunData :=
  let '(started, completed) := list_progress (ref_Status x) in
  mkTestRunData (ref_RunID x) (ref_TestID x) idx (ref_Name x) started completed (ref_StartTime x) (ref_StopTime x)
    (ref_Timeout x) (0 <? ref_Timeout x)
    (if completed then Round_ms (time_Sub (ref_StopTime x) (ref_StartTime x))
     else if started then Round_ms (time_Sub now (ref_StartTime x)) else 0)
    (completed || started) (ref_Status x) (sched_GetTaskCount w x).

Definition run_list (now : Z) (r : TestRunner) (tests : list test_view) : list TestRunData :=
  imap (fun idx v => getTestRunData now (rworld r) (Z.of_nat idx) (of_view v)) tests.

Definition getIndexPageData (now : Z) (args : PageArgs) (r : TestRunner) : IndexPage :=
  let '(tests, totalTests) := GetTestHistory "" 0 (pageOffset args) (pa_PageSize args) r in
  let runs := run_list now r tests in
  let frame := page_frame args totalTests (Z.of_nat (length runs)) in
  mkIndexPage (isAPIEnabled fh && negb (securityTrimmed fh)) runs frame (last_page_index frame).

Definition getTestPageData (now : Z) (testID : string) (args : PageArgs) (co : Coordinator) : result TestPage :=
  let r := co_runner co in
  match find_descriptor testID (co_registry co) with
  | None => Err ("unknown test id: " +:+ testID)
  | Some d =>
      let page config can :=
        let '(tests, totalTests) := GetTestHistory testID 0 (pageOffset args) (pa_PageSize args) r in
        let runs := run_list now r tests in
        mkTestPage testID (cfg_Name (td_config d)) (td_source d) config can can runs
          (page_frame args totalTests (Z.of_nat (length runs))) in
      if isAPIEnabled fh && negb (securityTrimmed fh) then
        match json_Marshal (default ∅ (GetVarsMap lib_depth (w_scopes (rworld r)) (td_vars d) ∅ false)) with
        | Err e => Err ("failed marshalling test vars: " +:+ e)
        | Ok config => Ok (page config true)
        end
      else Ok (page "null" false)
  end.

(** *** The registry *)

(** A descriptor that failed to load has neither configuration nor variables;
    [GetVarsMap(nil, true)] leaves out the parent's variables. *)
Definition getTestRegistryData (w : World) (idx : Z) (d : Descriptor) (stats : option (Z * Z)) : TestRegistryData :=
  let ok := loaded d || HasPrefix (td_source d) "local-" in
  mkRegistryData idx (td_id d) (if ok then cfg_Name (td_config d) else "") (td_source d) (default "" (td_err d))
    (if negb (securityTrimmed fh) && ok then
       match json_Marshal (default ∅ (GetVarsMap lib_depth (w_scopes w) (td_vars d) ∅ true)) with
       | Ok config => config
       | Err _ => "null"
       end
     else "null")
    (from_option fst 0 stats)
    (match stats with Some (_, lastRun) => if 0 <? lastRun then Some lastRun else None | None => None end).

(** [None] is the panic of slicing with bounds out of order. *)
Definition getRegistryPageData (args : PageArgs) (co : Coordinator) : option RegistryPage :=
  let w := rworld (co_runner co) in
  let testDescriptors := GetTestDescriptors (co_registry co) in
  let total := Z.of_nat (length testDescriptors) in
  let offset := Z.min (pageOffset args) total in
  let limit := Z.min (u64 (pageOffset args + pa_PageSize args)) total in
  let stats := GetTestRunStats (w_db w) in
  if limit <? offset then None
  else
    let tests := imap (fun idx d => getTestRegistryData w (Z.of_nat idx) d (stats !! td_id d))
                   (slice (Z.to_nat offset) (Z.to_nat limit) testDescriptors) in
    let frame := page_frame args total (Z.of_nat (length tests)) in
    let can := negb (securityTrimmed fh) in
    Some (mkRegistryPage can can can tests frame (last_page_index frame)).
End pages.

(** *** One run *)

Record TestRunTask := mkPageTask {
  pt_Index : Z; pt_ParentIndex : Z; pt_Name : string; pt_Title : string; pt_IsStarted : bool; pt_IsCompleted : bool;
  pt_StartTime : Z; pt_StopTime : Z; pt_Timeout : Z; pt_RunTime : Z; pt_Status : string; pt_Result : string;
  pt_ResultError : string; pt_ResultFiles : list GetTestRunTaskResult }.

Record TestRunPage := mkRunPage {
  rp_RunID : Z; rp_RunTestID : string; rp_RunName : string; rp_IsStarted : bool; rp_IsCompleted : bool; rp_StartTime : Z;
  rp_StopTime : Z; rp_Timeout : Z; rp_Status : string; rp_IsSecTrimmed : bool; rp_Tasks : list TestRunTask }.

Section run_page.
Context `{lib : Library} `{raw : RawMessages} `{srcs : !RegistrySources} `{ssort : !SliceSort} `{apil : !ApiLibrary}.
Variable fh : FrontendHandler.

(** A result file without name is shown under its type and index. *)
Definition named_file (f : GetTestRunTaskResult) : GetTestRunTaskResult :=
  if String.eqb (rf_Name f) "" then
    mkResultFile (rf_Type f) (rf_Index f) (rf_Type f +:+ "-" +:+ show (rf_Index f)) (rf_Size f) (rf_URL f)
  else f.

(** Times are shown for tasks that have not started or stopped, too, and
    durations are signed. *)
Definition page_task (now runID : Z) (headers : list (Z * string * Z * string * Z)) (v : TaskView) : TestRunTask :=
  let st := tv_Status v in
  let '(status, runtime) :=
    if negb (st_IsStarted st) then ("pending", Milliseconds (time_Sub now (st_StartTime st)))
    else if st_IsRunning st then ("running", elapsed_ms now (st_StartTime st))
    else ("complete", elapsed_ms (st_StopTime st) (st_StartTime st)) in
  mkPageTask (tv_Index v) (tv_ParentIndex v) (tv_Name v) (tv_Title v) (st_IsStarted st)
    (st_IsStarted st && negb (st_IsRunning st)) (UnixMilli (st_StartTime st)) (UnixMilli (st_StopTime st)) (Milliseconds (tv_Timeout v))
    runtime status (let s := result_text (st_Result st) in if String.eqb s "" then "unknown" else s)
    (default "" (st_Error st))
    (if securityTrimmed fh then [] else named_file <$> result_files runID (tv_Index v) headers).

(** [dbErr] is the error of the query for the result headers: it is logged
    and no files are shown. *)
Definition getTestRunPageData (now : Z) (dbErr : option error) (runID : Z) (r : TestRunner) : go TestRunPage :=
  match coordinator_GetTestByRunID runID r with
  | None => Fail "test not found"
  | Some x =>
      let w := rworld r in
      let '(started, completed) := run_progress (ref_Status x) in
      let headers := match dbErr with
        | None => if securityTrimmed fh then [] else GetAllTaskResultHeaders runID (w_db w)
        | Some _ => []
        end in
      do! tasks := all_tasks (page_task now runID headers) w x in
      Ret (mkRunPage runID (ref_TestID x) (ref_Name x) started completed (UnixMilli (ref_StartTime x)) (UnixMilli (ref_StopTime x))
             (Milliseconds (ref_Timeout x)) (ref_Status x) (securityTrimmed fh) tasks)
  end%go.

(** The handlers parse the id of the route. *)
Definition TestRunData_handler (now : Z) (dbErr : option error) (runId : string) (r : TestRunner) : go TestRunPage :=
  match ParseUint runId with
  | None => Fail "invalid syntax"
  | Some runID => getTestRunPageData now dbErr runID r
  end.
End run_page.

(** *** Logs and sidebar *)

Record LogsEntry := mkLogsEntry { le_TIdx : Z; le_entry : GetTestRunDetailedTaskLog }.

Section side.
Context `{lib : Library} `{raw : RawMessages} `{srcs : !RegistrySources} `{ssort : !SliceSort} `{apil : !ApiLibrary}.
Variable fh : FrontendHandler.

Definition getLogsPageData (since : Z) (lr : LogReader) : list LogsEntry :=
  (fun l => mkLogsEntry (LogIndex l) (detailed_log l)) <$> lr_GetLogEntries lr since 0.

(** [LogsData]; an index that does not parse is zero. *)
Definition LogsData (since : string) (lr : LogReader) : Response (list LogsEntry) :=
  if securityTrimmed fh then SendError "Not allowed" 403
  else SendOK (getLogsPageData (default 0 (ParseUint since)) lr).

Record SidebarTest := mkSidebarTest { sb_ID : string; sb_Name : string; sb_Active : bool }.

(** A head of the canonical fork: its ready clients, height and hash. *)
Record SidebarHead := mkSidebarHead { sh_Ready : Z; sh_Height : Z; sh_Hash : option Root }.
Definition sidebar_head (fork : option HeadFork) : SidebarHead :=
  match fork with
  | Some f => mkSidebarHead (Z.of_nat (length (ReadyClients f))) (Fork_Slot f) (Some (Fork_Root f))
  | None => mkSidebarHead 0 0 None
  end.

Record SidebarData := mkSidebar {
  sb_ClientCount : Z; sb_CL : SidebarHead; sb_EL : SidebarHead; sb_Tests : list SidebarTest; sb_AllTestsActive : bool;
  sb_RegistryActive : bool; sb_CanRegisterTests : bool }.

(** [cl] and [el] are [GetCanonicalFork(2)] of the two pools (Pool.v). *)
Definition getSidebarData (clients : Z) (cl el : option HeadFork) (activeTestID : string) (c : TestRegistry) : SidebarData :=
  mkSidebar clients (sidebar_head cl) (sidebar_head el)
    ((fun d => mkSidebarTest (td_id d) (cfg_Name (td_config d)) (String.eqb activeTestID (td_id d))) <$>
       filterb loaded (GetTestDescriptors c))
    (String.eqb activeTestID "*") (String.eqb activeTestID "*registry") (negb (securityTrimmed fh) && isAPIEnabled fh).
End side.

(** ** Pages cover what they list *)

Lemma ParseUint32_lt s v : ParseUint32 s = Some v -> v < 4294967296.
Proof. unfold ParseUint32. destruct (ParseUint s) as [n|]; simpl; [|done]. destruct (Z.ltb_spec n 4294967296); [by intros [= <-]|done]. Qed.

Lemma parse_page_args_range ps p : let args := parse_page_args ps p in
  0 < pa_PageSize args <= 200 /\ 1 <= pa_Page args < 4294967296.
Proof.
  cbv zeta. unfold parse_page_args. cbn [pa_PageSize pa_Page]. split.
  - destruct (ps ≫= ParseUint32) as [v|]; [|lia]. destruct (Z.ltb_spec 0 v), (Z.leb_spec v 200); simpl; lia.
  - destruct p as [s|]; simpl; [|lia]. destruct (ParseUint32 s) as [v|] eqn:E; [|lia]. apply ParseUint32_lt in E.
    destruct (Z.ltb_spec 0 v); lia.
Qed.

Lemma pageOffset_exact args : 0 < pa_PageSize args <= 200 -> 1 <= pa_Page args < 4294967296 ->
  pageOffset args = (pa_Page args - 1) * pa_PageSize args /\
  u64 (pageOffset args + pa_PageSize args) = pa_Page args * pa_PageSize args.
Proof.
  intros Hs Hp. unfold pageOffset. rewrite (u64_id (pa_Page args - 1)) by (unfold is_u64, two64; lia).
  assert (0 <= (pa_Page args - 1) * pa_PageSize args <= 4294967296 * 200) by nia.
  rewrite u64_id by (unfold is_u64, two64; lia). split; [done|]. rewrite u64_id by (unfold is_u64, two64; lia). lia.
Qed.

(** The pieces of [k] elements of a list. *)
Lemma concat_pieces {A} (k n : nat) (l : list A) : (length l <= n * k)%nat ->
  concat ((fun p => take k (drop (p * k) l)) <$> seq 0 n) = l.
Proof.
  revert l. induction n as [|n IH]; intros l Hl; [destruct l; [done|simpl in Hl; lia]|]. cbn [seq]. rewrite fmap_cons. cbn [concat].
  rewrite <- seq_shift, <- list_fmap_compose. simpl. rewrite drop_0.
  etrans; [|apply (take_drop k)]. f_equal. etrans; [|apply (IH (drop k l)); rewrite length_drop; lia].
  f_equal. apply list_fmap_ext. intros i p Hp. simpl. by rewrite drop_drop.
Qed.

Lemma fmap_concat {A B} (f : A -> B) (l : list (list A)) : (f <$> concat l : list B) = concat (((fun x : list A => (f <$> x : list B)) <$> l) : list (list B)).
Proof. induction l as [|x l IH]; [done|]. cbn [concat]. rewrite fmap_app, fmap_cons, IH. done. Qed.

Section paging.
Context `{lib : Library} `{raw : RawMessages} `{srcs : !RegistrySources} `{ssort : !SliceSort} `{apil : !ApiLibrary}.

Lemma slice_piece {A} (args : PageArgs) (l : list A) : 0 < pa_PageSize args <= 200 -> 1 <= pa_Page args < 4294967296 ->
  let total := Z.of_nat (length l) in
  let offset := Z.min (pageOffset args) total in
  let limit := Z.min (u64 (pageOffset args + pa_PageSize args)) total in
  offset <= limit /\
  slice (Z.to_nat offset) (Z.to_nat limit) l =
    take (Z.to_nat (pa_PageSize args)) (drop (Z.to_nat (pa_Page args - 1) * Z.to_nat (pa_PageSize args)) l).
Proof.
  intros Hs Hp. destruct (pageOffset_exact args Hs Hp) as [E1 E2]. cbv zeta. rewrite E2, E1.
  assert (Z.to_nat (pa_Page args - 1) * Z.to_nat (pa_PageSize args) = Z.to_nat ((pa_Page args - 1) * pa_PageSize args))%nat as -> by (by rewrite <- Z2Nat.inj_mul by lia).
  assert (pa_Page args * pa_PageSize args = (pa_Page args - 1) * pa_PageSize args + pa_PageSize args) as -> by lia.
  assert (0 <= (pa_Page args - 1) * pa_PageSize args) as Ho by nia.
  remember ((pa_Page args - 1) * pa_PageSize args) as off eqn:Eoff. clear E1 E2 Eoff. split; [lia|]. unfold slice.
  destruct (Z.leb_spec (Z.of_nat (length l)) off) as [Hle|Hgt].
  - rewrite Z.min_r by lia. rewrite (drop_ge l (Z.to_nat off)), drop_ge by lia. by rewrite !take_nil.
  - rewrite (Z.min_l off) by lia. destruct (Z.leb_spec (off + pa_PageSize args) (Z.of_nat (length l))).
    + rewrite Z.min_l by lia. f_equal. lia.
    + rewrite Z.min_r by lia. rewrite !take_ge; [done|rewrite length_drop; lia..].
Qed.
End paging.

Section covering.
Context `{lib : Library} `{raw : RawMessages} `{srcs : !RegistrySources} `{ssort : !SliceSort} `{apil : !ApiLibrary}.

(** A page of runs shows its piece of the history. *)
Lemma history_piece now testID args r runs total :
  (forall id t, tests r !! id = Some t -> runID t = id) ->
  GetTestRunRange testID 0 (pageOffset args) (pa_PageSize args) (w_db (rworld r)) = Ok (runs, total) ->
  td_RunID <$> run_list now r (GetTestHistory testID 0 (pageOffset args) (pa_PageSize args) r).1 = tr_RunID <$> runs.
Proof.
  intros Hids Hr. unfold GetTestHistory. rewrite Hr. simpl. unfold run_list. clear Hr.
  apply list_eq. intros i. rewrite !list_lookup_fmap, list_lookup_imap, list_lookup_fmap.
  destruct (runs !! i) as [row|]; [|done]. simpl. f_equal. unfold getTestRunData, GetTestByRunID.
  destruct (list_progress _). simpl. case_decide; [|done]. destruct (tests r !! tr_RunID row) as [t|] eqn:Ht; [|done].
  by apply Hids.
Qed.
End covering.

(** Leafing through a list of runs shows every run once, newest first: the pages
    of the index page, and those of a test with the runs of that test. *)
Theorem run_pages_cover `{lib : Library} `{raw : RawMessages} `{srcs : !RegistrySources} `{ssort : !SliceSort}
    `{apil : !ApiLibrary} fh now testID r :
  db_wf (w_db (rworld r)) -> (forall id t, tests r !! id = Some t -> runID t = id) ->
  exists runs,
    (forall x, x ∈ runs <-> (exists k, test_runs (w_db (rworld r)) !! k = Some x) /\ (testID = "" \/ tr_TestID x = testID)) /\
    StronglySorted (fun a b => tr_RunID b < tr_RunID a) runs /\
    forall size n, 0 < size <= 200 -> Z.of_nat n < 4294967296 -> Z.of_nat (length runs) <= Z.of_nat n * size ->
      concat ((fun p : nat => let args := mkPageArgs size (Z.of_nat p + 1) in
        td_RunID <$> run_list now r (GetTestHistory testID 0 (pageOffset args) (pa_PageSize args) r).1) <$> seq 0 n)
      = tr_RunID <$> runs /\
      (testID = "" -> concat ((fun p : nat =>
        td_RunID <$> ip_Tests (getIndexPageData fh now (mkPageArgs size (Z.of_nat p + 1)) r)) <$> seq 0 n) = tr_RunID <$> runs).
Proof.
  intros Hwf Hids. destruct (GetTestRunRange_pages testID 0 _ Hwf) as (runs & Hin & Hsort & Hpage). exists runs. split.
  { intros x. rewrite Hin. split; [intros (? & ? & _)|intros [? ?]]; [done|]. split_and!; [done..|]. left. lia. }
  split; [done|]. intros size n Hs Hn Hlen.
  assert (concat ((fun p : nat => let args := mkPageArgs size (Z.of_nat p + 1) in
      td_RunID <$> run_list now r (GetTestHistory testID 0 (pageOffset args) (pa_PageSize args) r).1) <$> seq 0 n)
    = tr_RunID <$> runs) as Hall.
  { rewrite <- (concat_pieces (Z.to_nat size) n runs) by lia. rewrite fmap_concat, <- list_fmap_compose. f_equal.
    apply list_fmap_ext. intros i p Hp. cbv zeta. apply lookup_seq in Hp as [-> Hp].
    set (args := mkPageArgs size (Z.of_nat (0 + i) + 1)).
    destruct (pageOffset_exact args) as [Ho _]; [done|simpl; lia|].
    erewrite history_piece; [|done|apply Hpage; [rewrite Ho; simpl; nia|simpl; lia]].
    simpl. f_equal. rewrite Ho. simpl. repeat f_equal. nia. }
  split; [exact Hall|]. intros ->. rewrite <- Hall. f_equal. apply list_fmap_ext. intros i p _. cbv zeta.
  unfold getIndexPageData. by destruct (GetTestHistory _ _ _ _ _).
Qed.

(** The registry page never slices out of bounds, whatever the query of the
    request, and leafing through it shows every registered test once, in the
    order of the registry. *)
Theorem registry_pages_cover `{lib : Library} `{raw : RawMessages} `{srcs : !RegistrySources} `{ssort : !SliceSort}
    fh json co :
  (forall ps p, is_Some (getRegistryPageData fh json (parse_page_args ps p) co)) /\
  forall size n, 0 < size <= 200 -> Z.of_nat n < 4294967296 ->
    Z.of_nat (length (GetTestDescriptors (co_registry co))) <= Z.of_nat n * size ->
    concat ((fun p : nat => from_option (fun page => rd_TestID <$> rg_Tests page) []
      (getRegistryPageData fh json (mkPageArgs size (Z.of_nat p + 1)) co)) <$> seq 0 n)
    = td_id <$> GetTestDescriptors (co_registry co).
Proof.
  assert (forall args, 0 < pa_PageSize args <= 200 -> 1 <= pa_Page args < 4294967296 ->
    exists page, getRegistryPageData fh json args co = Some page /\ rd_TestID <$> rg_Tests page =
      td_id <$> take (Z.to_nat (pa_PageSize args)) (drop (Z.to_nat (pa_Page args - 1) * Z.to_nat (pa_PageSize args))
        (GetTestDescriptors (co_registry co)))) as Hpage.
  { intros args Hs Hp. destruct (slice_piece args (GetTestDescriptors (co_registry co)) Hs Hp) as [Hle Hsl].
    unfold getRegistryPageData. rewrite (proj2 (Z.ltb_ge _ _) Hle), Hsl. eexists. split; [done|]. simpl.
    apply list_eq. intros i. rewrite !list_lookup_fmap, list_lookup_imap. by destruct (_ !! i). }
  split.
  - intros ps p. destruct (parse_page_args_range ps p) as [H1 H2]. destruct (Hpage _ H1 H2) as (page & -> & _). by eexists.
  - intros size n Hs Hn Hlen. rewrite <- (concat_pieces (Z.to_nat size) n (GetTestDescriptors (co_registry co))) by lia.
    rewrite fmap_concat, <- list_fmap_compose. f_equal. apply list_fmap_ext. intros i p Hp. apply lookup_seq in Hp as [-> Hp].
    destruct (Hpage (mkPageArgs size (Z.of_nat (0 + i) + 1))) as (page & -> & E); [done|simpl; lia|]. simpl in *. rewrite E.
    repeat f_equal. lia.
Qed.

(** The last index of an empty list wraps around, and so does the last page. *)
Lemma empty_page_wraps :
  let f := page_frame (mkPageArgs 25 1) 0 0 in
  pf_LastTestIndex f = MaxUint64 /\ pf_TotalPages f = 0 /\ last_page_index f = MaxUint64.
Proof. split_and!; by vm_compute. Qed.

(** An aborted run is started and completed on its page and neither on the lists. *)
Lemma aborted_progress_differs : list_progress "aborted" = (false, false) /\ run_progress "aborted" = (true, true).
Proof. done. Qed.

Example page_frame_1 : page_frame (mkPageArgs 25 2) 51 25 = mkPageFrame 51 25 49 3 25 2 1 3.
Proof. by vm_compute. Qed.

(** ** Witnesses *)

Section examples.
#[local] Existing Instance ex_raw.
#[local] Existing Instance ex_sources.
#[local] Existing Instance ex_api_lib.
#[local] Existing Instance ex_api.

Definition ex_frontend : FrontendHandler := mkFrontend false true.

Lemma ex_pages_db : db_wf (w_db (rworld ex_api_runner)) /\ forall id t, tests ex_api_runner !! id = Some t -> runID t = id.
Proof.
  split.
  - assert (map_to_list (test_runs (w_db ex_api_world)) = [(7, ex_api_row)] /\
      map_to_list (task_states (w_db ex_api_world)) = [((7, 1), ex_api_trow)] /\ task_logs (w_db ex_api_world) = ∅ /\
      task_results (w_db ex_api_world) = ∅ /\ test_configs (w_db ex_api_world) = ∅) as (E1 & E2 & E3 & E4 & E5)
      by (split_and!; by vm_compute).
    unfold db_wf. change (rworld ex_api_runner) with ex_api_world. rewrite ?E3, ?E4, ?E5. split_and!; try by intros k x H; rewrite lookup_empty in H.
    + intros k x H. apply elem_of_map_to_list in H. rewrite E1 in H. apply list_elem_of_singleton in H. by injection H as -> ->.
    + intros k x H. apply elem_of_map_to_list in H. rewrite E2 in H. apply list_elem_of_singleton in H.
      pose proof (f_equal fst H : k = (7, 1)) as ->. pose proof (f_equal snd H : x = ex_api_trow) as ->. vm_compute. reflexivity.
  - intros id t H. change (tests ex_api_runner) with ({[7 := ex_api_test]} : gmap Z Test) in H. apply lookup_singleton_Some in H as [<- <-]. reflexivity.
Qed.

Lemma run_pages_cover_witness :
  exists runs, StronglySorted (fun a b => tr_RunID b < tr_RunID a) runs /\ ex_api_row ∈ runs.
Proof.
  destruct ex_pages_db as [H1 H2].
  destruct (run_pages_cover ex_frontend 10000 "" ex_api_runner H1 H2) as (runs & Hin & Hs & _).
  exists runs. split; [exact Hs|]. apply Hin. split; [|left; reflexivity]. exists 7. destruct ex_api_facts as (_ & _ & E & _). exact E.
Defined.

Lemma registry_pages_cover_witness :
  is_Some (getRegistryPageData ex_frontend (fun _ => Ok "{}") (parse_page_args (Some "3") (Some "99")) ex_api_co).
Proof. apply (registry_pages_cover ex_frontend (fun _ => Ok "{}") ex_api_co). Defined.
End examples.
