(* ===== verification/EventStream.v ===== *)
(** * Event streams

    clients/consensus/rpc/eventstream/eventstream.go (the server-sent-event
    stream that reconnects by itself) and clients/consensus/rpc/beaconstream.go
    (the goroutine that turns its events into beacon events).  A [Stream] is
    shared by goroutines: the readers started by [stream.stream], and one per
    call of [Close].  Each goroutine is a program counter, its operations on
    the mutex and the channels are single steps, and an execution is a list of
    [action]s that says whose turn it is and what the network answers.  The
    decoder of the events, the HTTP client and the JSON decoder are not code of
    the repository: what they answer is part of the action, or a parameter. *)

From S2P Require Import Prelude.

#[local] Open Scope string_scope.
#[local] Open Scope list_scope.
Open Scope Z_scope.

(** ** The stream *)

(** The interface [StreamEvent]. *)
Record StreamEvent := mkStreamEvent { Id : string; EventName : string; Data : string; Retry : Z }.

#[export] Instance StreamEvent_eq_dec : EqDecision StreamEvent.
Proof. solve_decision. Defined.

(** [SubscriptionError] and its [Error]. *)
Record SubscriptionError := mkSubscriptionError { Code : Z; Message : string }.

Definition subscription_message (e : SubscriptionError) : error :=
  pretty (Code e) +:+ ": " +:+ Message e.

(** What [dec.Decode()] returns: a [StreamEvent], another value, an error. *)
Inductive decoded :=
  | DEvent (pub : StreamEvent)
  | DOther
  | DErr (err : error).

(** What [stream.c.Do(stream.req)] answers: a response and its status, or an
    error; the text is the body read when the status is not 200. *)
Inductive http_answer :=
  | HttpResponse (StatusCode : Z) (text : string)
  | HttpError (err : error).

(** Who holds the mutex. *)
Inductive goroutine := Reader (i : nat) | Closer (j : nat).

#[export] Instance goroutine_eq_dec : EqDecision goroutine.
Proof. solve_decision. Defined.

(** A reader: [stream.stream(r)] with its calls of [receiveEvents] and
    [retryRestartStream], [r] being the number of its response body.  [Unlock]
    carries what the goroutine does after it released the mutex. *)
Inductive reader :=
  | SendReady (r : nat)
  | Decode (r : nat)
  | Lock (r : nat) (d : decoded)
  | Locked (r : nat) (d : decoded)
  | SendErr (r : nat) (err : error)
  | SendEvent (r : nat) (pub : StreamEvent)
  | Unlock (next : reader)
  | StartRetry (r : nat)
  | Sleep (r : nat) (backoff : Z)
  | Connect (r : nat)
  | LockRetry (r : nat) (err : error)
  | LockedRetry (r : nat) (err : error)
  | SendErrRetry (r : nat) (err : error)
  | CloseBody (r : nat)
  | Done.

(** The goroutine of a call of [Close]. *)
Inductive closer :=
  | CLock
  | CCheck
  | CSet
  | CCloseErrors
  | CCloseEvents
  | CUnlock
  | CDone.

(** The fields of [Stream] that change.  [Errors] is the buffer of the channel
    (capacity 10); [Events] and [Ready] have no buffer, so they only have the
    flag that says they are closed, and [Ready] never is.  [requests] are the
    Last-Event-ID headers of the requests made so far (empty: no header),
    [bodies] the response bodies that were not closed yet, [next_body] the
    number of the next one; [panicked] is the run-time error, if any. *)
Record Stream := mkStream {
  lastEventID : string;
  retry : Z;
  isClosed : bool;
  closeMutex : option goroutine;
  Errors : list error;
  errorsClosed : bool;
  eventsClosed : bool;
  requests : list string;
  bodies : list nat;
  next_body : nat;
  panicked : option string
}.

Definition set_mutex (o : option goroutine) (s : Stream) : Stream :=
  mkStream (lastEventID s) (retry s) (isClosed s) o (Errors s) (errorsClosed s) (eventsClosed s)
    (requests s) (bodies s) (next_body s) (panicked s).
Definition set_errors (l : list error) (s : Stream) : Stream :=
  mkStream (lastEventID s) (retry s) (isClosed s) (closeMutex s) l (errorsClosed s) (eventsClosed s)
    (requests s) (bodies s) (next_body s) (panicked s).
Definition set_flags (closed errs evts : bool) (s : Stream) : Stream :=
  mkStream (lastEventID s) (retry s) closed (closeMutex s) (Errors s) errs evts
    (requests s) (bodies s) (next_body s) (panicked s).
Definition panic_with (m : string) (s : Stream) : Stream :=
  mkStream (lastEventID s) (retry s) (isClosed s) (closeMutex s) (Errors s) (errorsClosed s)
    (eventsClosed s) (requests s) (bodies s) (next_body s) (Some m).
Definition close_body (r : nat) (s : Stream) : Stream :=
  mkStream (lastEventID s) (retry s) (isClosed s) (closeMutex s) (Errors s) (errorsClosed s)
    (eventsClosed s) (requests s) (filter (fun b => b <> r) (bodies s)) (next_body s) (panicked s).

(** [if pub.Retry() > 0 { .. }] and [if pub.Id() != "" { .. }]: the product
    with [time.Millisecond] wraps around. *)
Definition note_event (pub : StreamEvent) (s : Stream) : Stream :=
  mkStream (if decide (Id pub = "") then lastEventID s else Id pub)
    (if 0 <? Retry pub then i64 (Retry pub * 1000000) else retry s)
    (isClosed s) (closeMutex s) (Errors s) (errorsClosed s)
    (eventsClosed s) (requests s) (bodies s) (next_body s) (panicked s).

(** [connect]: the request carries the last id; a response leaves its body
    open whatever its status is. *)
Definition connect (answer : http_answer) (s : Stream) : result nat * Stream :=
  let sent := requests s ++ [lastEventID s] in
  match answer with
  | HttpError err =>
      (Err err, mkStream (lastEventID s) (retry s) (isClosed s) (closeMutex s) (Errors s)
        (errorsClosed s) (eventsClosed s) sent (bodies s) (next_body s) (panicked s))
  | HttpResponse code text =>
      (if code =? 200 then Ok (next_body s)
       else Err (subscription_message (mkSubscriptionError code text)),
       mkStream (lastEventID s) (retry s) (isClosed s) (closeMutex s) (Errors s)
        (errorsClosed s) (eventsClosed s) sent (next_body s :: bodies s) (S (next_body s)) (panicked s))
  end.

(** ** Its goroutines *)

(** What a goroutine's turn is given: nothing, the decoder's or the HTTP
    client's answer, or a receiver at the other end of the channel. *)
Inductive input :=
  | Go
  | Decoded (d : decoded)
  | Answered (a : http_answer)
  | Received.

(** What the receiver of the stream's channels gets; [GotNil] is the zero
    value that a closed channel yields. *)
Inductive signal :=
  | GotReady
  | GotEvent (pub : StreamEvent)
  | GotError (err : error)
  | GotNilEvent
  | GotNilError.

Definition errors_cap : nat := 10.

(** [stream.closeMutex.Lock()] by [me]; it blocks while the mutex is held. *)
Definition lock (me : goroutine) (s : Stream) : option Stream :=
  match closeMutex s with
  | None => Some (set_mutex (Some me) s)
  | Some _ => None
  end.

(** [stream.closeMutex.Unlock()] *)
Definition unlock (s : Stream) : Stream :=
  match closeMutex s with
  | None => panic_with "fatal error: sync: unlock of unlocked mutex" s
  | Some _ => set_mutex None s
  end.

(** [stream.Errors <- err] *)
Definition send_error (err : error) (s : Stream) : option Stream :=
  if errorsClosed s then Some (panic_with "send on closed channel" s)
  else if decide (length (Errors s) < errors_cap)%nat then Some (set_errors (Errors s ++ [err]) s)
  else None.

(** One step of a reader: its next program counter, the goroutines it
    starts, the new state and what a receiver got; [None] when it has to wait. *)
Definition reader_step (me : goroutine) (w : reader) (inp : input) (s : Stream)
    : option (reader * list reader * Stream * option signal) :=
  match w, inp with
  | SendReady r, Received => Some (Decode r, [], s, Some GotReady)
  | Decode r, Decoded d => Some (Lock r d, [], s, None)
  | Lock r d, Go => s' ← lock me s; Some (Locked r d, [], s', None)
  | Locked r d, Go =>
      if isClosed s then Some (Unlock (StartRetry r), [], s, None)
      else match d with
      | DErr err => Some (SendErr r err, [], s, None)
      | DOther => Some (Unlock (Decode r), [], s, None)
      | DEvent pub => Some (SendEvent r pub, [], note_event pub s, None)
      end
  | SendErr r err, Go => s' ← send_error err s; Some (Unlock (StartRetry r), [], s', None)
  | SendEvent r pub, Received =>
      if eventsClosed s then None else Some (Unlock (Decode r), [], s, Some (GotEvent pub))
  | SendEvent r pub, Go =>
      if eventsClosed s then Some (SendEvent r pub, [], panic_with "send on closed channel" s, None)
      else None
  | Unlock next, Go => Some (next, [], unlock s, None)
  | StartRetry r, Go => Some (Sleep r (retry s), [], s, None)
  | Sleep r _, Go => Some (if isClosed s then CloseBody r else Connect r, [], s, None)
  | Connect r, Answered a =>
      match connect a s with
      | (Ok r', s') => Some (CloseBody r, [SendReady r'], s', None)
      | (Err err, s') => Some (LockRetry r err, [], s', None)
      end
  | LockRetry r err, Go => s' ← lock me s; Some (LockedRetry r err, [], s', None)
  | LockedRetry r err, Go =>
      Some (if isClosed s then Unlock (CloseBody r) else SendErrRetry r err, [], s, None)
  | SendErrRetry r err, Go =>
      s' ← send_error err s; Some (Unlock (Sleep r 10000000000), [], s', None)
  | CloseBody r, Go => Some (Done, [], close_body r s, None)
  | _, _ => None
  end.

Definition closer_step (me : goroutine) (c : closer) (s : Stream) : option (closer * Stream) :=
  match c with
  | CLock => s' ← lock me s; Some (CCheck, s')
  | CCheck => Some (if isClosed s then CUnlock else CSet, s)
  | CSet => Some (CCloseErrors, set_flags true (errorsClosed s) (eventsClosed s) s)
  | CCloseErrors =>
      Some (CCloseEvents, if errorsClosed s then panic_with "close of closed channel" s
                          else set_flags (isClosed s) true (eventsClosed s) s)
  | CCloseEvents =>
      Some (CUnlock, if eventsClosed s then panic_with "close of closed channel" s
                     else set_flags (isClosed s) (errorsClosed s) true s)
  | CUnlock => Some (CDone, unlock s)
  | CDone => None
  end.

(** A stream with its goroutines: the readers in the order they were started,
    and one closer per call of [Close]. *)
Record System := mkSystem { stream : Stream; readers : list reader; closers : list closer }.

(** Whose turn it is: a reader's, a closer's, a caller's of [Close], or a
    receiver's on [Errors], or on [Events] when that is closed. *)
Inductive action :=
  | ReaderTurn (i : nat) (inp : input)
  | CloserTurn (j : nat)
  | CallClose
  | RecvError
  | RecvClosed.

Definition system_step (a : action) (y : System) : option (System * option signal) :=
  match panicked (stream y) with
  | Some _ => None
  | None =>
      match a with
      | ReaderTurn i inp =>
          w ← readers y !! i;
          '(w', started, s', g) ← reader_step (Reader i) w inp (stream y);
          Some (mkSystem s' (<[i := w']> (readers y) ++ started) (closers y), g)
      | CloserTurn j =>
          c ← closers y !! j;
          '(c', s') ← closer_step (Closer j) c (stream y);
          Some (mkSystem s' (readers y) (<[j := c']> (closers y)), None)
      | CallClose => Some (mkSystem (stream y) (readers y) (closers y ++ [CLock]), None)
      | RecvError =>
          match Errors (stream y) with
          | err :: rest =>
              Some (mkSystem (set_errors rest (stream y)) (readers y) (closers y), Some (GotError err))
          | [] => if errorsClosed (stream y) then Some (y, Some GotNilError) else None
          end
      | RecvClosed => if eventsClosed (stream y) then Some (y, Some GotNilEvent) else None
      end
  end.

(** An execution, and what was received in it. *)
Fixpoint system_run (acts : list action) (y : System) : option (System * list signal) :=
  match acts with
  | [] => Some (y, [])
  | a :: acts =>
      '(y', g) ← system_step a y;
      '(y'', gs) ← system_run acts y';
      Some (y'', option_list g ++ gs)
  end.

(** [SubscribeWith]: the first connection is made by the caller, and the
    first reader started with its body. *)
Definition SubscribeWith (id : string) (answer : http_answer) : result System :=
  let s := mkStream id 3000000000 false None [] false false [] [] 0 None in
  match connect answer s with
  | (Err err, _) => Err err
  | (Ok r, s') => Ok (mkSystem s' [SendReady r] [])
  end.

(** ** Invariant *)

(** The reader that still serves the stream: all others only close their body. *)
Definition active (w : reader) : bool :=
  match w with
  | CloseBody _ | Unlock (CloseBody _) | Done => false
  | _ => true
  end.

(** What holds of a reader at its program counter: it holds the mutex between
    [Lock] and [Unlock], and it sends only while the stream is open. *)
Definition reader_ok (me : goroutine) (s : Stream) (w : reader) : Prop :=
  match w with
  | Locked _ _ | LockedRetry _ _ => closeMutex s = Some me
  | Unlock (StartRetry _ | Decode _ | Sleep _ _ | CloseBody _) => closeMutex s = Some me
  | Unlock _ => False
  | SendErr _ _ | SendEvent _ _ | SendErrRetry _ _ => closeMutex s = Some me /\ isClosed s = false
  | _ => closeMutex s <> Some me
  end.

Definition closer_ok (me : goroutine) (s : Stream) (c : closer) : Prop :=
  match c with
  | CLock => closeMutex s <> Some me
  | CCheck => closeMutex s = Some me
  | CSet => closeMutex s = Some me /\ isClosed s = false
  | CCloseErrors =>
      closeMutex s = Some me /\ isClosed s = true /\ errorsClosed s = false /\ eventsClosed s = false
  | CCloseEvents => closeMutex s = Some me /\ errorsClosed s = true /\ eventsClosed s = false
  | CUnlock => closeMutex s = Some me /\ isClosed s = true
  | CDone => closeMutex s <> Some me /\ isClosed s = true
  end.

Definition holder_exists (y : System) : Prop :=
  match closeMutex (stream y) with
  | None => True
  | Some (Reader i) => (i < length (readers y))%nat
  | Some (Closer j) => (j < length (closers y))%nat
  end.

Record system_wf (y : System) : Prop := {
  wf_readers : forall i w, readers y !! i = Some w -> reader_ok (Reader i) (stream y) w;
  wf_closers : forall j c, closers y !! j = Some c -> closer_ok (Closer j) (stream y) c;
  wf_holder : holder_exists y;
  wf_active : forall i w, readers y !! i = Some w -> active w = true -> S i = length (readers y);
  wf_flags : errorsClosed (stream y) = true \/ eventsClosed (stream y) = true -> isClosed (stream y) = true;
  wf_errors : (length (Errors (stream y)) <= errors_cap)%nat;
  wf_safe : panicked (stream y) = None
}.

(** What a step of the goroutine [me] may do to the fields that the other
    goroutines rely on: all of it only with the mutex, or to take the mutex. *)
Record guarantees (me : goroutine) (s s' : Stream) : Prop := {
  g_mutex : closeMutex s' = closeMutex s \/
            (closeMutex s = None /\ closeMutex s' = Some me) \/
            (closeMutex s = Some me /\ closeMutex s' = None);
  g_closed : isClosed s = true -> isClosed s' = true;
  g_owner : closeMutex s <> Some me ->
            isClosed s' = isClosed s /\ errorsClosed s' = errorsClosed s /\ eventsClosed s' = eventsClosed s
}.

Lemma guarantees_id me s s' :
  closeMutex s' = closeMutex s -> isClosed s' = isClosed s ->
  errorsClosed s' = errorsClosed s -> eventsClosed s' = eventsClosed s -> guarantees me s s'.
Proof. intros; split; [left; done|congruence|done]. Qed.

Lemma guarantees_other me t s s' :
  guarantees me s s' -> t <> me ->
  (closeMutex s' = Some t <-> closeMutex s = Some t) /\
  (closeMutex s = Some t ->
     isClosed s' = isClosed s /\ errorsClosed s' = errorsClosed s /\ eventsClosed s' = eventsClosed s).
Proof.
  intros [Hm _ Ho] Hne. split.
  - destruct Hm as [->|[[-> ->]|[-> ->]]]; [done|split; congruence..].
  - intros H. apply Ho. congruence.
Qed.

Lemma reader_ok_frame me t s s' w :
  guarantees me s s' -> t <> me -> reader_ok t s w -> reader_ok t s' w.
Proof.
  intros Hg Hne Hok. destruct (guarantees_other _ t _ _ Hg Hne) as [Hm Hf].
  destruct w as [ | | | | | |next| | | | | | | |]; simpl in *; try tauto.
  - destruct Hok as [H ?]. destruct (Hf H) as [-> _]. tauto.
  - destruct Hok as [H ?]. destruct (Hf H) as [-> _]. tauto.
  - destruct next; tauto.
  - destruct Hok as [H ?]. destruct (Hf H) as [-> _]. tauto.
Qed.

Lemma closer_ok_frame me t s s' c :
  guarantees me s s' -> t <> me -> closer_ok t s c -> closer_ok t s' c.
Proof.
  intros Hg Hne Hok. destruct (guarantees_other _ t _ _ Hg Hne) as [Hm Hf].
  pose proof (g_closed _ _ _ Hg) as Hc.
  destruct c; simpl in *; try tauto; destruct Hok as [H ?]; destruct (Hf H) as (E1 & E2 & E3);
    rewrite ?E1, ?E2, ?E3; tauto.
Qed.

Ltac step_inv :=
  repeat match goal with
  | H : None = Some _ |- _ => discriminate H
  | H : context [if decide ?P then _ else _] |- _ => destruct (decide P)
  | H : context [if ?b then _ else _] |- _ => let E := fresh "E" in destruct b eqn:E
  | H : context [match closeMutex ?s with _ => _ end] |- _ => let E := fresh "Hmx" in destruct (closeMutex s) eqn:E
  | H : (_ ≫= _) = Some _ |- _ => apply bind_Some in H as (? & ? & ?)
  | H : Some _ = Some _ |- _ => injection H as; subst
  end.

(** The steps of a reader, one goal for each that it can take. *)
Ltac reader_cases w inp H :=
  destruct w as [r|r|r d|r d|r err|r pub|next|r|r b|r|r err|r err|r err|r|], inp as [|d'|a|];
  simpl in H; try discriminate H; unfold lock, send_error, unlock, connect in *;
  try (destruct a as [code text|err]; [destruct (code =? 200)|]);
  try destruct d; step_inv.

(** One step of a reader from a good state: it does not panic, and what it
    says of itself holds again. *)
Lemma reader_step_ok me s w inp w' started s' g :
  reader_step me w inp s = Some (w', started, s', g) -> reader_ok me s w ->
  (errorsClosed s = true \/ eventsClosed s = true -> isClosed s = true) ->
  reader_ok me s' w' /\ panicked s' = panicked s.
Proof.
  intros Hs Hok Hfl. reader_cases w inp Hs; simpl in *; try (split; [tauto|done]); try tauto.
  all: try (exfalso; destruct Hok; intuition congruence).
  all: destruct w' as [ | | | | | |next| | | | | | | |]; simpl in *; try (split; [congruence|done]); try done; try congruence.
Qed.

(** It keeps to its guarantees, and does not close anything. *)
Lemma reader_step_guarantees me s w inp w' started s' g :
  reader_step me w inp s = Some (w', started, s', g) -> reader_ok me s w ->
  guarantees me s s' /\
  isClosed s' = isClosed s /\ errorsClosed s' = errorsClosed s /\ eventsClosed s' = eventsClosed s.
Proof.
  intros Hs Hok. reader_cases w inp Hs; simpl in *; (split; [|done]).
  all: try (apply guarantees_id; done).
  all: split; simpl; try done; try tauto.
  all: destruct w' as [ | | | | | |next| | | | | | | |]; simpl in *; try done; tauto.
Qed.

(** The buffer of the errors, and the goroutines started: a reader that starts
    another one is no longer active. *)
Lemma reader_step_started me s w inp w' started s' g :
  reader_step me w inp s = Some (w', started, s', g) -> reader_ok me s w ->
  (length (Errors s) <= errors_cap)%nat ->
  (length (Errors s') <= errors_cap)%nat /\ (active w' = true -> active w = true) /\
  (started = [] \/ (exists r, started = [SendReady r]) /\ active w = true /\ active w' = false /\
     closeMutex s' = closeMutex s).
Proof.
  intros Hs Hok Hlen. reader_cases w inp Hs; simpl in *; try rewrite length_app; simpl.
  all: split; [lia|]; split; [|by eauto 10].
  all: try done; destruct w' as [ | | | | | |next| | | | | | | |]; simpl in *; try done; tauto.
Qed.

Lemma closer_step_ok me s c c' s' :
  closer_step me c s = Some (c', s') -> closer_ok me s c ->
  (errorsClosed s = true \/ eventsClosed s = true -> isClosed s = true) ->
  closer_ok me s' c' /\ guarantees me s s' /\ panicked s' = panicked s /\ Errors s' = Errors s /\
  (errorsClosed s' = true \/ eventsClosed s' = true -> isClosed s' = true).
Proof.
  intros Hs Hok Hfl.
  assert (isClosed s = false -> errorsClosed s = false /\ eventsClosed s = false) as Hop
    by (destruct (isClosed s), (errorsClosed s), (eventsClosed s); intuition congruence).
  destruct c; simpl in Hs; unfold lock, unlock in *; step_inv; simpl in *.
  all: try (exfalso; tauto || (destruct Hok; intuition congruence)).
  all: repeat match goal with |- _ /\ _ => split end; rewrite ?E; try done; try congruence; try tauto.
  all: try (split; simpl; try done; tauto).
Qed.

(** ** Every step keeps the invariant *)

Lemma lookup_insert_app {A} (l : list A) i x (e : list A) k y :
  (i < length l)%nat -> (<[i := x]> l ++ e) !! k = Some y ->
  (k = i /\ y = x) \/ (k <> i /\ (k < length l)%nat /\ l !! k = Some y) \/
  ((length l <= k)%nat /\ e !! (k - length l)%nat = Some y).
Proof.
  intros Hi H. destruct (decide (k < length l)%nat) as [Hk|Hk].
  - rewrite lookup_app_l in H by (rewrite length_insert; done). destruct (decide (k = i)) as [->|Hne].
    + rewrite list_lookup_insert_eq in H by done. left. by simplify_eq.
    + rewrite list_lookup_insert_ne in H by done. right; left. done.
  - rewrite lookup_app_r, length_insert in H by (rewrite length_insert; lia). right; right. split; [lia|done].
Qed.

Lemma lookup_single {A} (x : A) k y : [x] !! k = Some y -> k = 0%nat /\ y = x.
Proof. destruct k as [|[|k]]; simpl; intros H; simplify_eq; done. Qed.

Lemma reader_turn_wf i inp w w' started s' g y :
  system_wf y -> readers y !! i = Some w ->
  reader_step (Reader i) w inp (stream y) = Some (w', started, s', g) ->
  system_wf (mkSystem s' (<[i := w']> (readers y) ++ started) (closers y)).
Proof.
  intros [Hr Hc Hh Ha Hf He Hp] Hi Hs. pose proof (lookup_lt_Some _ _ _ Hi) as Hlt.
  destruct (reader_step_ok _ _ _ _ _ _ _ _ Hs (Hr _ _ Hi) Hf) as [Hok' Hp'].
  destruct (reader_step_guarantees _ _ _ _ _ _ _ _ Hs (Hr _ _ Hi)) as (Hg & E1 & E2 & E3).
  destruct (reader_step_started _ _ _ _ _ _ _ _ Hs (Hr _ _ Hi) He) as (He' & Hact & Hst).
  split; simpl.
  - intros k v [[-> ->]|[(Hne & _ & Hk)|[Hge Hk]]]%lookup_insert_app; [done| |..|done].
    + eapply reader_ok_frame; [exact Hg|congruence|by apply Hr].
    + destruct Hst as [->|((r & ->) & _ & _ & Em)]; [done|].
      apply lookup_single in Hk as [_ ->]. simpl. rewrite Em. unfold holder_exists in Hh.
      intros E. rewrite E in Hh. lia.
  - intros j c Hj. eapply closer_ok_frame; [exact Hg|congruence|by apply Hc].
  - unfold holder_exists in *. simpl. rewrite length_app, length_insert.
    destruct (g_mutex _ _ _ Hg) as [->|[[_ ->]|[_ ->]]]; [|lia|done].
    destruct (closeMutex (stream y)) as [[k|k]|]; [lia|done|done].
  - intros k v Hk Hv. rewrite length_app, length_insert.
    apply lookup_insert_app in Hk as [[-> ->]|[(Hne & Hk' & Hk)|[Hge Hk]]]; [| | |done].
    + destruct Hst as [->|(_ & _ & Hf' & _)]; [|congruence]. simpl. rewrite <- (Ha i w) by auto. lia.
    + pose proof (Ha _ _ Hk Hv). destruct Hst as [->|(_ & Hw & _)]; [simpl; lia|].
      pose proof (Ha _ _ Hi Hw). lia.
    + destruct Hst as [->|((r & ->) & _)]; [done|]. apply lookup_single in Hk as [? _]. simpl. lia.
  - by rewrite E1, E2, E3.
  - done.
  - congruence.
Qed.

Lemma closer_turn_wf j c c' s' y :
  system_wf y -> closers y !! j = Some c -> closer_step (Closer j) c (stream y) = Some (c', s') ->
  system_wf (mkSystem s' (readers y) (<[j := c']> (closers y))).
Proof.
  intros [Hr Hc Hh Ha Hf He Hp] Hj Hs. pose proof (lookup_lt_Some _ _ _ Hj) as Hlt.
  destruct (closer_step_ok _ _ _ _ _ Hs (Hc _ _ Hj) Hf) as (Hok' & Hg & Hp' & He' & Hf').
  split; simpl; [| | |done|done|congruence|congruence].
  - intros k v Hk. eapply reader_ok_frame; [exact Hg|congruence|by apply Hr].
  - intros k v Hk. destruct (decide (k = j)) as [->|Hne].
    + rewrite list_lookup_insert_eq in Hk by done. by simplify_eq.
    + rewrite list_lookup_insert_ne in Hk by done. eapply closer_ok_frame; [exact Hg|congruence|by apply Hc].
  - unfold holder_exists in *. simpl. rewrite length_insert.
    destruct (g_mutex _ _ _ Hg) as [->|[[_ ->]|[_ ->]]]; [|lia|done].
    destruct (closeMutex (stream y)) as [[k|k]|]; done.
Qed.

Lemma system_step_wf a y y' g : system_wf y -> system_step a y = Some (y', g) -> system_wf y'.
Proof.
  intros Hwf Hs. unfold system_step in Hs. rewrite (wf_safe _ Hwf) in Hs. destruct a as [i inp|j| | |].
  - apply bind_Some in Hs as (w & Hi & Hs). apply bind_Some in Hs as ([[[w' st] s'] g'] & Hst & Hs).
    simplify_eq. by eapply reader_turn_wf.
  - apply bind_Some in Hs as (c & Hj & Hs). apply bind_Some in Hs as ([c' s'] & Hst & Hs).
    simplify_eq. by eapply closer_turn_wf.
  - simplify_eq. destruct Hwf as [Hr Hc Hh Ha Hf He Hp]. split; simpl; try done.
    + intros j c [Hj|[Hge Hj]]%lookup_app_Some; [by apply Hc|]. apply lookup_single in Hj as [E ->].
      simpl. unfold holder_exists in Hh. intros Em. rewrite Em in Hh. lia.
    + unfold holder_exists in *. simpl. rewrite length_app. destruct (closeMutex (stream y)) as [[|]|]; [done|lia|done].
  - destruct (Errors (stream y)) as [|err rest] eqn:E.
    + destruct (errorsClosed (stream y)); [|done]. by simplify_eq.
    + simplify_eq. destruct Hwf as [Hr Hc Hh Ha Hf He Hp]. split; simpl; try done. rewrite E in He. simpl in He. lia.
  - destruct (eventsClosed (stream y)); by simplify_eq.
Qed.

Lemma system_run_wf acts y y' gs : system_wf y -> system_run acts y = Some (y', gs) -> system_wf y'.
Proof.
  revert y gs. induction acts as [|a acts IH]; intros y gs Hwf Hr; simpl in Hr; [by simplify_eq|].
  apply bind_Some in Hr as ([y1 g] & Hs & Hr). apply bind_Some in Hr as ([y2 gs'] & Hr' & Hr). simplify_eq.
  eapply IH; [|exact Hr']. by eapply system_step_wf.
Qed.

Lemma SubscribeWith_wf id answer y : SubscribeWith id answer = Ok y -> system_wf y.
Proof.
  unfold SubscribeWith, connect. destruct answer as [code text|err]; [|done].
  destruct (code =? 200); [|done]. intros [= <-]. split; simpl; try done.
  - intros i w [_ ->]%lookup_single. done.
  - intros i w [-> _]%lookup_single. done.
  - intros [|]; done.
  - lia.
Qed.

(** What a subscription starts with. *)
Lemma SubscribeWith_open id answer y :
  SubscribeWith id answer = Ok y -> closers y = [] /\ isClosed (stream y) = false /\
  lastEventID (stream y) = id /\ retry (stream y) = 3000000000 /\ readers y = [SendReady 0] /\
  next_body (stream y) = 1%nat.
Proof.
  unfold SubscribeWith, connect. destruct answer as [code text|err]; [|done].
  destruct (code =? 200); [|done]. by intros [= <-].
Qed.

(** The channels of an open stream are open. *)
Lemma open_channels y :
  system_wf y -> isClosed (stream y) = false ->
  errorsClosed (stream y) = false /\ eventsClosed (stream y) = false.
Proof.
  intros Hwf Hc. split; apply not_true_iff_false; intros E; rewrite (wf_flags _ Hwf) in Hc by auto; done.
Qed.

(** ** What is received *)

Definition pending_of (w : reader) : list StreamEvent :=
  match w with
  | Lock _ (DEvent p) | Locked _ (DEvent p) | SendEvent _ p => [p]
  | _ => []
  end.

Definition sending_of (w : reader) : list StreamEvent :=
  match w with SendEvent _ p => [p] | _ => [] end.

(** The reader that serves the stream is the last one started. *)
Definition server (y : System) : reader := default Done (last (readers y)).

Definition decoded_event (a : action) : list StreamEvent :=
  match a with ReaderTurn _ (Decoded (DEvent p)) => [p] | _ => [] end.

Definition received_event (g : signal) : list StreamEvent :=
  match g with GotEvent p => [p] | _ => [] end.

Definition decoded_events (acts : list action) : list StreamEvent := acts ≫= decoded_event.
Definition received (gs : list signal) : list StreamEvent := gs ≫= received_event.

(** The values that the events leave in [lastEventID] and [retry]. *)
Definition last_id (id : string) (l : list StreamEvent) : string :=
  fold_left (fun id p => if decide (Id p = "") then id else Id p) l id.
Definition last_retry (ret : Z) (l : list StreamEvent) : Z :=
  fold_left (fun ret p => if 0 <? Retry p then i64 (Retry p * 1000000) else ret) l ret.

Section server_steps.
Context {A : Type} (f : reader -> list A) (f_inactive : forall w, active w = false -> f w = [])
  (f_start : forall r, f (SendReady r) = []).

Lemma server_lookup y i w :
  readers y !! i = Some w -> S i = length (readers y) -> server y = w.
Proof. intros Hi Hl. unfold server. by rewrite last_lookup, <- Hl; simpl; rewrite Hi. Qed.

(** The reader at [i] made a step: only the serving reader has something to
    show, before and after. *)
Lemma server_step y i inp w w' started s' g :
  system_wf y -> readers y !! i = Some w ->
  reader_step (Reader i) w inp (stream y) = Some (w', started, s', g) ->
  let y' := mkSystem s' (<[i := w']> (readers y) ++ started) (closers y) in
  if active w then f (server y) = f w /\ f (server y') = f w'
  else f w' = f w /\ f (server y') = f (server y).
Proof.
  intros Hwf Hi Hs y'. pose proof (lookup_lt_Some _ _ _ Hi) as Hlt.
  destruct (reader_step_started _ _ _ _ _ _ _ _ Hs (wf_readers _ Hwf _ _ Hi) (wf_errors _ Hwf)) as (_ & Hact & Hst).
  destruct (active w) eqn:Ew.
  - pose proof (wf_active _ Hwf _ _ Hi Ew) as Hl. split; [by rewrite (server_lookup _ _ _ Hi Hl)|].
    destruct Hst as [->|((r & ->) & _ & Ew' & _)].
    + rewrite (server_lookup y' i w'); [done|..]; unfold y'; simpl.
      * by rewrite app_nil_r, list_lookup_insert_eq.
      * by rewrite app_nil_r, length_insert.
    + unfold server, y'. simpl. rewrite last_snoc. simpl. by rewrite f_start, f_inactive.
  - assert (active w' = false) as Ew' by (destruct (active w'); [specialize (Hact eq_refl)|]; congruence).
    destruct Hst as [->|(_ & H & _)]; [|congruence]. split; [by rewrite !f_inactive|].
    unfold server, y'. simpl. rewrite app_nil_r, !last_lookup, length_insert.
    destruct (decide (pred (length (readers y)) = i)) as [E|Hne].
    + rewrite E, list_lookup_insert_eq, Hi by done. simpl. by rewrite !f_inactive.
    + by rewrite list_lookup_insert_ne by done.
Qed.
End server_steps.

Lemma pending_inactive w : active w = false -> pending_of w = [].
Proof. by destruct w. Qed.
Lemma sending_inactive w : active w = false -> sending_of w = [].
Proof. by destruct w. Qed.

(** An inactive reader neither decodes nor delivers. *)
Lemma inactive_step me w inp s w' started s' g :
  reader_step me w inp s = Some (w', started, s', g) -> active w = false -> inp = Go /\ g = None.
Proof. intros Hs Hw. reader_cases w inp Hs; by simpl in Hw. Qed.

Lemma reader_step_pending me w inp s w' started s' g :
  reader_step me w inp s = Some (w', started, s', g) -> reader_ok me s w ->
  if isClosed s then received (option_list g) = []
  else received (option_list g) ++ pending_of w' =
       pending_of w ++ decoded_event (ReaderTurn 0 inp).
Proof.
  intros Hs Hok. reader_cases w inp Hs; simpl in *; try rewrite ?E; try destruct (isClosed _) eqn:Ec; try done.
  all: try (destruct d'; done).
  all: try (destruct w'; done).
  all: destruct Hok; congruence.
Qed.

(** The event whose id and delay a step notes. *)
Definition noted_of (w : reader) (inp : input) (s : Stream) : list StreamEvent :=
  match w, inp with
  | Locked _ (DEvent p), Go => if isClosed s then [] else [p]
  | _, _ => []
  end.

Lemma reader_step_noted me w inp s w' started s' g :
  reader_step me w inp s = Some (w', started, s', g) -> reader_ok me s w ->
  received (option_list g) ++ sending_of w' = sending_of w ++ noted_of w inp s /\
  lastEventID s' = last_id (lastEventID s) (noted_of w inp s) /\
  retry s' = last_retry (retry s) (noted_of w inp s).
Proof.
  intros Hs Hok. reader_cases w inp Hs; simpl in *; rewrite ?E; simpl; try done.
  all: try (destruct w'; done).
Qed.

(** The events decoded are those received, in that order, and the one on the
    way; when the stream is being closed the last ones may be dropped. *)
Definition flow (decs recs : list StreamEvent) (y : System) : Prop :=
  if isClosed (stream y) then recs `prefix_of` decs
  else recs ++ pending_of (server y) = decs.

(** The id and the delay are those of the last event offered to the receiver. *)
Definition notes (id : string) (recs : list StreamEvent) (y : System) : Prop :=
  lastEventID (stream y) = last_id id (recs ++ sending_of (server y)) /\
  retry (stream y) = last_retry 3000000000 (recs ++ sending_of (server y)).

Lemma server_same y s cs : server (mkSystem s (readers y) cs) = server y.
Proof. done. Qed.

Lemma decoded_event_index i j inp : decoded_event (ReaderTurn i inp) = decoded_event (ReaderTurn j inp).
Proof. done. Qed.

Lemma flow_weaken decs recs y : flow decs recs y -> recs `prefix_of` decs.
Proof. unfold flow. destruct (isClosed _); [done|]. intros <-. by apply prefix_app_r. Qed.

(** Steps that leave the readers alone receive no event. *)
Lemma system_step_others a y y' g :
  system_wf y -> system_step a y = Some (y', g) -> (forall i inp, a <> ReaderTurn i inp) ->
  server y' = server y /\ received (option_list g) = [] /\ decoded_event a = [] /\
  (isClosed (stream y) = true -> isClosed (stream y') = true) /\
  lastEventID (stream y') = lastEventID (stream y) /\ retry (stream y') = retry (stream y).
Proof.
  intros Hwf Hs Hne. unfold system_step in Hs. rewrite (wf_safe _ Hwf) in Hs. destruct a as [i inp|j| | |].
  - by destruct (Hne i inp).
  - apply bind_Some in Hs as (c & Hj & Hs). apply bind_Some in Hs as ([c' s'] & Hst & Hs). simplify_eq.
    rewrite server_same. destruct c; simpl in Hst; unfold lock, unlock in *; step_inv; done.
  - by simplify_eq.
  - destruct (Errors (stream y)); [destruct (errorsClosed (stream y)); [|done]|]; by simplify_eq.
  - destruct (eventsClosed (stream y)); by simplify_eq.
Qed.

Lemma reader_turn_inv i inp y y' g :
  system_wf y -> system_step (ReaderTurn i inp) y = Some (y', g) ->
  exists w w' started s', readers y !! i = Some w /\
    reader_step (Reader i) w inp (stream y) = Some (w', started, s', g) /\
    y' = mkSystem s' (<[i := w']> (readers y) ++ started) (closers y).
Proof.
  intros Hwf Hs. unfold system_step in Hs. rewrite (wf_safe _ Hwf) in Hs.
  apply bind_Some in Hs as (w & Hi & Hs). apply bind_Some in Hs as ([[[w' st] s'] g'] & Hst & Hs).
  simplify_eq. eauto 10.
Qed.

Lemma reader_turn_or a :
  (exists i inp, a = ReaderTurn i inp) \/ (forall i inp, a <> ReaderTurn i inp).
Proof. destruct a; eauto. Qed.

Lemma system_step_flow a y y' g decs recs :
  system_wf y -> system_step a y = Some (y', g) -> flow decs recs y ->
  flow (decs ++ decoded_event a) (recs ++ received (option_list g)) y'.
Proof.
  intros Hwf Hs Hfl. destruct (reader_turn_or a) as [(i & inp & ->)|Hne].
  2: { destruct (system_step_others a y y' g Hwf Hs) as (Es & -> & -> & Hc & _); [done|].
       rewrite !app_nil_r. pose proof (flow_weaken _ _ _ Hfl) as Hpre. unfold flow in *. rewrite Es.
       destruct (isClosed (stream y)); [by rewrite Hc|]. by destruct (isClosed (stream y')). }
  destruct (reader_turn_inv _ _ _ _ _ Hwf Hs) as (w & w' & st & s' & Hi & Hst & ->).
  pose proof (reader_step_guarantees _ _ _ _ _ _ _ _ Hst (wf_readers _ Hwf _ _ Hi)) as (_ & Ec & _).
  pose proof (reader_step_pending _ _ _ _ _ _ _ _ Hst (wf_readers _ Hwf _ _ Hi)) as Hp.
  pose proof (server_step pending_of pending_inactive (fun _ => eq_refl) _ _ _ _ _ _ _ _ Hwf Hi Hst) as Hsv.
  unfold flow in *. simpl in Ec |- *. rewrite Ec. destruct (isClosed (stream y)).
  - rewrite Hp, app_nil_r. by apply prefix_app_r.
  - subst decs. rewrite <- !app_assoc. f_equal. destruct (active w) eqn:Ew.
    + destruct Hsv as [-> ->]. exact Hp.
    + destruct Hsv as [_ ->]. destruct (inactive_step _ _ _ _ _ _ _ _ Hst Ew) as [-> ->]. by rewrite app_nil_r.
Qed.

Lemma system_step_notes a y y' g id recs :
  system_wf y -> system_step a y = Some (y', g) -> notes id recs y ->
  notes id (recs ++ received (option_list g)) y'.
Proof.
  intros Hwf Hs [Hid Hret]. destruct (reader_turn_or a) as [(i & inp & ->)|Hne].
  2: { destruct (system_step_others a y y' g Hwf Hs) as (Es & -> & _ & _ & E1 & E2); [done|].
       rewrite app_nil_r. split; by rewrite Es, ?E1, ?E2. }
  destruct (reader_turn_inv _ _ _ _ _ Hwf Hs) as (w & w' & st & s' & Hi & Hst & ->).
  pose proof (reader_step_noted _ _ _ _ _ _ _ _ Hst (wf_readers _ Hwf _ _ Hi)) as (Hp & E1 & E2).
  pose proof (server_step sending_of sending_inactive (fun _ => eq_refl) _ _ _ _ _ _ _ _ Hwf Hi Hst) as Hsv.
  unfold notes, last_id, last_retry in *. simpl in *. destruct (active w) eqn:Ew.
  - destruct Hsv as [Ea ->]. rewrite Ea in Hid, Hret.
    rewrite <- !app_assoc, Hp, E1, E2, Hid, Hret, <- !fold_left_app, <- !app_assoc. done.
  - destruct Hsv as [_ ->]. destruct (inactive_step _ _ _ _ _ _ _ _ Hst Ew) as [-> ->]. simpl in *.
    rewrite app_nil_r, E1, E2. by destruct w.
Qed.

Lemma decoded_events_cons a acts : decoded_events (a :: acts) = decoded_event a ++ decoded_events acts.
Proof. done. Qed.
Lemma received_app gs1 gs2 : received (gs1 ++ gs2) = received gs1 ++ received gs2.
Proof. apply bind_app. Qed.

Lemma system_run_flow acts y y' gs id decs recs :
  system_wf y -> system_run acts y = Some (y', gs) -> flow decs recs y -> notes id recs y ->
  flow (decs ++ decoded_events acts) (recs ++ received gs) y' /\ notes id (recs ++ received gs) y'.
Proof.
  revert y gs decs recs. induction acts as [|a acts IH]; intros y gs decs recs Hwf Hr Hfl Hno; simpl in Hr.
  - simplify_eq. by rewrite !app_nil_r.
  - apply bind_Some in Hr as ([y1 g] & Hs & Hr). apply bind_Some in Hr as ([y2 gs'] & Hr' & Hr). simplify_eq.
    rewrite decoded_events_cons, received_app, !app_assoc.
    apply (IH y1); [by eapply system_step_wf|done|by apply system_step_flow with y|by eapply system_step_notes].
Qed.

Lemma SubscribeWith_flow id answer y : SubscribeWith id answer = Ok y -> flow [] [] y /\ notes id [] y.
Proof.
  intros (_ & Hc & Hid & Hret & Hr & _)%SubscribeWith_open.
  unfold flow, notes, server. by rewrite Hc, Hid, Hret, Hr.
Qed.

(** ** The stream's promises *)

(** Executions of the program: everything after a successful [SubscribeWith]. *)
Definition stream_execution (id : string) (acts : list action) (y : System) (gs : list signal) : Prop :=
  exists answer y0, SubscribeWith id answer = Ok y0 /\ system_run acts y0 = Some (y, gs).

Lemma execution_wf id acts y gs : stream_execution id acts y gs -> system_wf y.
Proof. intros (answer & y0 & Hsub & Hr). eapply system_run_wf; [|exact Hr]. by eapply SubscribeWith_wf. Qed.

(** C32: [Close] "is safe for concurrent access and can be called multiple times":
    however the readers, the closers and the receiver interleave, and whatever
    the server answers, no goroutine sends on a closed channel, closes a
    channel twice or unlocks a mutex that is not locked. *)
Theorem stream_never_panics id acts y gs :
  stream_execution id acts y gs -> panicked (stream y) = None.
Proof. intros Hx. by apply wf_safe, (execution_wf _ _ _ _ Hx). Qed.

(** The receiver gets a prefix of the events that were decoded, in their
    order; while the stream is open, all but at most the last one. *)
Theorem stream_events_in_order id acts y gs :
  stream_execution id acts y gs ->
  received gs `prefix_of` decoded_events acts /\
  (isClosed (stream y) = false ->
     decoded_events acts = received gs ++ pending_of (server y) /\
     (length (decoded_events acts) <= S (length (received gs)))%nat).
Proof.
  intros (answer & y0 & Hsub & Hr). destruct (SubscribeWith_flow _ _ _ Hsub) as [Hf Hn].
  destruct (system_run_flow _ _ _ _ _ _ _ (SubscribeWith_wf _ _ _ Hsub) Hr Hf Hn) as [Hfl _]. simpl in Hfl.
  split; [by eapply flow_weaken|]. unfold flow. intros Hc. unfold flow in Hfl. rewrite Hc in Hfl.
  split; [done|]. rewrite <- Hfl, length_app.
  assert (length (pending_of (server y)) <= 1)%nat; [|lia].
  destruct (server y) as [| |? []|? []| | | | | | | | | | |]; simpl; lia.
Qed.

(** A lost connection is taken up where it broke off: the request carries the
    id of the last event received that had one, and the delay before it is the
    last one the server asked for. *)
Theorem reconnect_resumes id acts y gs i inp y' g :
  stream_execution id acts y gs -> system_step (ReaderTurn i inp) y = Some (y', g) ->
  (forall r, readers y !! i = Some (StartRetry r) ->
     readers y' !! i = Some (Sleep r (last_retry 3000000000 (received gs)))) /\
  (forall r, readers y !! i = Some (Connect r) ->
     requests (stream y') = requests (stream y) ++ [last_id id (received gs)]).
Proof.
  intros Hx Hs. pose proof (execution_wf _ _ _ _ Hx) as Hwf. destruct Hx as (answer & y0 & Hsub & Hr).
  destruct (SubscribeWith_flow _ _ _ Hsub) as [Hf Hn].
  destruct (system_run_flow _ _ _ _ _ _ _ (SubscribeWith_wf _ _ _ Hsub) Hr Hf Hn) as [_ [Hid Hret]].
  simpl in Hid, Hret. destruct (reader_turn_inv _ _ _ _ _ Hwf Hs) as (w & w' & st & s' & Hi & Hst & ->).
  pose proof (lookup_lt_Some _ _ _ Hi) as Hlt. simpl.
  split; intros r Hw; pose proof Hw as Hw'; rewrite Hi in Hw'; injection Hw' as ->;
    rewrite (server_lookup _ _ _ Hw (wf_active _ Hwf _ _ Hw eq_refl)), app_nil_r in Hid, Hret.
  - destruct inp; simpl in Hst; simplify_eq.
    rewrite lookup_app_l, list_lookup_insert_eq by (rewrite ?length_insert; done). by rewrite Hret.
  - destruct inp as [| |a|]; simpl in Hst; try discriminate Hst. unfold connect in Hst.
    destruct a as [code text|err]; [destruct (code =? 200)|]; simplify_eq; simpl; by rewrite Hid.
Qed.

(** A stream whose receiver takes what it is offered never gets stuck: as long
    as a goroutine has not ended, some step other than a new call of [Close]
    is possible. *)
Definition unfinished (y : System) : Prop :=
  (exists i w, readers y !! i = Some w /\ w <> Done) \/ (exists j c, closers y !! j = Some c /\ c <> CDone).

Definition can_step (y : System) : Prop :=
  exists a, a <> CallClose /\ is_Some (system_step a y).

Lemma reader_can_step y i w inp :
  panicked (stream y) = None -> readers y !! i = Some w ->
  is_Some (reader_step (Reader i) w inp (stream y)) -> can_step y.
Proof.
  intros Hp Hi [[[[w' st] s'] g] Hs]. exists (ReaderTurn i inp). split; [done|].
  unfold system_step. rewrite Hp, Hi. simpl. rewrite Hs. simpl. eauto.
Qed.

Lemma closer_can_step y j c :
  panicked (stream y) = None -> closers y !! j = Some c ->
  is_Some (closer_step (Closer j) c (stream y)) -> can_step y.
Proof.
  intros Hp Hj [[c' s'] Hs]. exists (CloserTurn j). split; [done|].
  unfold system_step. rewrite Hp, Hj. simpl. rewrite Hs. simpl. eauto.
Qed.

(** [Errors] blocks its sender only when its buffer is full, and then the
    receiver can take from it. *)
Lemma send_error_or_receive s err :
  is_Some (send_error err s) \/ Errors s <> [].
Proof.
  unfold send_error, errors_cap. destruct (errorsClosed s); [left; eauto|]. case_decide; [left; eauto|].
  right. intros E. rewrite E in *. simpl in *. lia.
Qed.

Lemma errors_can_step y : panicked (stream y) = None -> Errors (stream y) <> [] -> can_step y.
Proof.
  intros Hp He. exists RecvError. split; [done|]. unfold system_step. rewrite Hp.
  destruct (Errors (stream y)); [done|eauto].
Qed.

(** The holder of the mutex is not waiting for it. *)
Lemma reader_progress y i w :
  system_wf y -> readers y !! i = Some w -> w <> Done ->
  closeMutex (stream y) = None \/ closeMutex (stream y) = Some (Reader i) -> can_step y.
Proof.
  intros Hwf Hi Hw Hm. pose proof (wf_safe _ Hwf) as Hp. pose proof (wf_readers _ Hwf _ _ Hi) as Hok.
  assert (Hr : forall inp, is_Some (reader_step (Reader i) w inp (stream y)) -> can_step y)
    by eauto using reader_can_step.
  destruct w as [r|r|r d|r d|r err|r pub|next|r|r b|r|r err|r err|r err|r|]; simpl in Hok; try done.
  - by apply (Hr Received).
  - by apply (Hr (Decoded DOther)).
  - apply (Hr Go). simpl. unfold lock. destruct Hm as [->|]; [done|congruence].
  - apply (Hr Go). simpl. destruct (isClosed _), d; done.
  - destruct (send_error_or_receive (stream y) err) as [[s' E]|He].
    + apply (Hr Go). simpl. by rewrite E.
    + by apply errors_can_step.
  - apply (Hr Received). simpl. destruct (eventsClosed _) eqn:E; [|done].
    destruct Hok as [_ Hc]. rewrite (wf_flags _ Hwf) in Hc by auto. done.
  - by apply (Hr Go).
  - by apply (Hr Go).
  - by apply (Hr Go).
  - by apply (Hr (Answered (HttpError ""))).
  - apply (Hr Go). simpl. unfold lock. destruct Hm as [->|]; [done|congruence].
  - by apply (Hr Go).
  - destruct (send_error_or_receive (stream y) err) as [[s' E]|He].
    + apply (Hr Go). simpl. by rewrite E.
    + by apply errors_can_step.
  - by apply (Hr Go).
Qed.

Lemma closer_progress y j c :
  system_wf y -> closers y !! j = Some c -> c <> CDone ->
  closeMutex (stream y) = None \/ closeMutex (stream y) = Some (Closer j) -> can_step y.
Proof.
  intros Hwf Hj Hc Hm. apply (closer_can_step y j c); [apply Hwf|done|].
  pose proof (wf_closers _ Hwf _ _ Hj) as Hok.
  destruct c; simpl in *; try done. unfold lock.
  destruct Hm as [->|]; [done|congruence].
Qed.

(** While the receiver goes on, the goroutines never wait for each other in a
    circle: as long as one has not ended, a step is possible. *)
Theorem stream_progress id acts y gs :
  stream_execution id acts y gs -> unfinished y -> can_step y.
Proof.
  intros Hwf%execution_wf Hun. destruct (closeMutex (stream y)) as [[i|j]|] eqn:Em.
  - pose proof (wf_holder _ Hwf) as Hh. unfold holder_exists in Hh. rewrite Em in Hh.
    apply lookup_lt_is_Some_2 in Hh as [w Hi]. apply (reader_progress y i w); [done..| |by right].
    intros ->. by apply (wf_readers _ Hwf _ _ Hi).
  - pose proof (wf_holder _ Hwf) as Hh. unfold holder_exists in Hh. rewrite Em in Hh.
    apply lookup_lt_is_Some_2 in Hh as [c Hj]. apply (closer_progress y j c); [done..| |by right].
    intros ->. by apply (wf_closers _ Hwf _ _ Hj).
  - destruct Hun as [(i & w & Hi & Hw)|(j & c & Hj & Hc)].
    + apply (reader_progress y i w); auto.
    + apply (closer_progress y j c); auto.
Qed.

(** ** Response bodies *)

Fixpoint body_of (w : reader) : option nat :=
  match w with
  | SendReady r | Decode r | Lock r _ | Locked r _ | SendErr r _ | SendEvent r _ | StartRetry r
  | Sleep r _ | Connect r | LockRetry r _ | LockedRetry r _ | SendErrRetry r _ | CloseBody r => Some r
  | Unlock next => body_of next
  | Done => None
  end.

(** Every reader's body was opened before. *)
Definition bodies_wf (y : System) : Prop :=
  forall i w r, readers y !! i = Some w -> body_of w = Some r -> (r < next_body (stream y))%nat.

(** The body [n] is open, and no goroutine has it to close it. *)
Definition leaked (n : nat) (y : System) : Prop :=
  (n < next_body (stream y))%nat /\ n ∈ bodies (stream y) /\
  forall i w, readers y !! i = Some w -> body_of w <> Some n.

Lemma reader_step_bodies me w inp s w' started s' g :
  reader_step me w inp s = Some (w', started, s', g) ->
  (next_body s <= next_body s')%nat /\
  (body_of w' = body_of w \/ body_of w' = None) /\
  (started = [] \/ started = [SendReady (next_body s)] /\ (next_body s < next_body s')%nat) /\
  (forall b, b ∈ bodies s -> body_of w <> Some b -> b ∈ bodies s').
Proof.
  intros Hs. reader_cases w inp Hs; simpl; repeat split; try lia; auto.
  all: try (intros b Hb Hne; simpl; set_solver).
  intros b Hb Hne. apply list_elem_of_filter. split; [congruence|done].
Qed.

Lemma system_step_bodies a y y' g :
  system_step a y = Some (y', g) -> (forall i inp, a <> ReaderTurn i inp) ->
  readers y' = readers y /\ next_body (stream y') = next_body (stream y) /\
  bodies (stream y') = bodies (stream y).
Proof.
  intros Hs Hne. unfold system_step in Hs. destruct (panicked (stream y)); [done|]. destruct a as [i inp|j| | |].
  - by destruct (Hne i inp).
  - apply bind_Some in Hs as (c & Hj & Hs). apply bind_Some in Hs as ([c' s'] & Hst & Hs). simplify_eq.
    destruct c; simpl in Hst; unfold lock, unlock in *; step_inv; done.
  - by simplify_eq.
  - destruct (Errors (stream y)); [destruct (errorsClosed (stream y)); [|done]|]; by simplify_eq.
  - destruct (eventsClosed (stream y)); by simplify_eq.
Qed.

Lemma bodies_wf_step a y y' g :
  system_wf y -> system_step a y = Some (y', g) -> bodies_wf y -> bodies_wf y'.
Proof.
  intros Hwf Hs Hb. destruct (reader_turn_or a) as [(i & inp & ->)|Hne].
  2: { destruct (system_step_bodies _ _ _ _ Hs Hne) as (E1 & E2 & _).
       intros j w r. rewrite E1, E2. apply Hb. }
  destruct (reader_turn_inv _ _ _ _ _ Hwf Hs) as (w & w' & st & s' & Hi & Hst & ->).
  destruct (reader_step_bodies _ _ _ _ _ _ _ _ Hst) as (Hn & Hw' & Hstd & _).
  intros j v r Hj Hv. simpl in Hj |- *. pose proof (lookup_lt_Some _ _ _ Hi) as Hlt.
  apply lookup_insert_app in Hj as [[-> ->]|[(Hne & Hlt' & Hj)|[_ Hj]]]; [| | |done].
  - destruct Hw' as [E|E]; [|congruence]. eapply Nat.lt_le_trans; [|exact Hn]. eapply Hb; [exact Hi|congruence].
  - eapply Nat.lt_le_trans; [|exact Hn]. by eapply Hb.
  - destruct Hstd as [->|[-> Hlt2]]; [done|]. apply lookup_single in Hj as [_ ->]. simpl in Hv. by simplify_eq.
Qed.

Lemma leaked_step n a y y' g :
  system_wf y -> system_step a y = Some (y', g) -> leaked n y -> leaked n y'.
Proof.
  intros Hwf Hs (Hn & Hin & Hb). destruct (reader_turn_or a) as [(i & inp & ->)|Hne].
  2: { destruct (system_step_bodies _ _ _ _ Hs Hne) as (E1 & E2 & E3).
       unfold leaked. by rewrite E1, E2, E3. }
  destruct (reader_turn_inv _ _ _ _ _ Hwf Hs) as (w & w' & st & s' & Hi & Hst & ->).
  destruct (reader_step_bodies _ _ _ _ _ _ _ _ Hst) as (Hn' & Hw' & Hstd & Hkeep).
  pose proof (lookup_lt_Some _ _ _ Hi) as Hlt. pose proof (Hb _ _ Hi) as Hwn.
  split; [simpl; lia|]. split; [by apply Hkeep|]. intros j v Hj Hv. simpl in Hj.
  apply lookup_insert_app in Hj as [[-> ->]|[(_ & _ & Hj)|[_ Hj]]]; [| | |done].
  - destruct Hw'; congruence.
  - by eapply Hb.
  - destruct Hstd as [->|[-> _]]; [done|]. apply lookup_single in Hj as [_ ->]. simpl in Hv.
    injection Hv as Hv. lia.
Qed.

Lemma leaked_run n acts y y' gs :
  system_wf y -> system_run acts y = Some (y', gs) -> leaked n y -> leaked n y'.
Proof.
  revert y gs. induction acts as [|a acts IH]; intros y gs Hwf Hr Hl; simpl in Hr; [by simplify_eq|].
  apply bind_Some in Hr as ([y1 g] & Hs & Hr). apply bind_Some in Hr as ([y2 gs'] & Hr' & Hr). simplify_eq.
  eapply IH; [|exact Hr'|]; [by eapply system_step_wf|by eapply leaked_step].
Qed.

Lemma bodies_wf_run acts y y' gs :
  system_wf y -> system_run acts y = Some (y', gs) -> bodies_wf y -> bodies_wf y'.
Proof.
  revert y gs. induction acts as [|a acts IH]; intros y gs Hwf Hr Hl; simpl in Hr; [by simplify_eq|].
  apply bind_Some in Hr as ([y1 g] & Hs & Hr). apply bind_Some in Hr as ([y2 gs'] & Hr' & Hr). simplify_eq.
  eapply IH; [|exact Hr'|]; [by eapply system_step_wf|by eapply bodies_wf_step].
Qed.

Lemma execution_bodies id acts y gs : stream_execution id acts y gs -> bodies_wf y.
Proof.
  intros (answer & y0 & Hsub & Hr). eapply bodies_wf_run; [|exact Hr|]; [by eapply SubscribeWith_wf|].
  destruct (SubscribeWith_open _ _ _ Hsub) as (_ & _ & _ & _ & Er & En).
  intros i w r. rewrite Er, En. intros [_ ->]%lookup_single [= <-]. lia.
Qed.

(** A reconnection that the server answers with another status than 200
    opens a response body that is never closed. *)
Theorem refused_body_leaks id acts y gs i r code text y1 acts' y' g gs' :
  stream_execution id acts y gs -> readers y !! i = Some (Connect r) -> code <> 200 ->
  system_step (ReaderTurn i (Answered (HttpResponse code text))) y = Some (y1, g) ->
  system_run acts' y1 = Some (y', gs') ->
  next_body (stream y) ∈ bodies (stream y').
Proof.
  intros Hx Hi Hc Hs Hr. pose proof (execution_wf _ _ _ _ Hx) as Hwf.
  pose proof (execution_bodies _ _ _ _ Hx) as Hb. pose proof (lookup_lt_Some _ _ _ Hi) as Hlt.
  eapply leaked_run; [by eapply system_step_wf|exact Hr|]. clear Hr.
  destruct (reader_turn_inv _ _ _ _ _ Hwf Hs) as (w & w' & st & s' & Hi' & Hst & ->).
  rewrite Hi in Hi'. injection Hi' as <-. simpl in Hst. unfold connect in Hst.
  assert ((code =? 200) = false) as E by lia. rewrite E in Hst. simplify_eq.
  split; [simpl; lia|]. split; [simpl; left|]. intros j v Hj Hv. simpl in Hj.
  apply lookup_insert_app in Hj as [[-> ->]|[(_ & _ & Hj)|[_ Hj]]]; [| |done|done].
  - simpl in Hv. injection Hv as ->. specialize (Hb _ _ _ Hi eq_refl). lia.
  - specialize (Hb _ _ _ Hj Hv). lia.
Qed.

(** ** The beacon stream *)

Definition StreamBlockEvent : Z := 1.
Definition StreamHeadEvent : Z := 2.
Definition StreamFinalizedEvent : Z := 4.

(** [if events&flag > 0 { .. }]: the text written so far and [topicsCount]. *)
Definition add_topic (flag : Z) (name : string) (events : Z) (t : string * Z) : string * Z :=
  if 0 <? Z.land events flag
  then (t.1 +:+ (if 0 <? t.2 then "," else "") +:+ name, t.2 + 1)
  else t.

Definition topics (events : Z) : string * Z :=
  add_topic StreamFinalizedEvent "finalized_checkpoint" events
    (add_topic StreamHeadEvent "head" events
      (add_topic StreamBlockEvent "block" events ("", 0))).

Definition streamURL (endpoint : string) (events : Z) : string :=
  endpoint +:+ "/eth/v1/events?topics=" +:+ (topics events).1.

(** Reference: the names of the topics asked for, joined by commas. *)
Definition topic_names (events : Z) : list string :=
  fst <$> filterb (fun nb => 0 <? Z.land events nb.2)
    [("block", StreamBlockEvent); ("head", StreamHeadEvent); ("finalized_checkpoint", StreamFinalizedEvent)].

Theorem topics_join events :
  topics events = (String.concat "," (topic_names events), Z.of_nat (length (topic_names events))).
Proof.
  unfold topics, topic_names, add_topic. rewrite !filterb_cons, filterb_nil. cbn [snd].
  destruct (0 <? Z.land events StreamBlockEvent), (0 <? Z.land events StreamHeadEvent),
    (0 <? Z.land events StreamFinalizedEvent); reflexivity.
Qed.

Section beacon.
Context {BlockEvent HeadEvent FinalizedCheckpointEvent : Type}.
Context (Unmarshal_block : string -> option BlockEvent) (Unmarshal_head : string -> option HeadEvent)
  (Unmarshal_finalized : string -> option FinalizedCheckpointEvent).

(** [BeaconStreamEvent]: the data's type goes with the event's number. *)
Inductive BeaconStreamEvent :=
  | BlockData (data : BlockEvent)
  | HeadData (data : HeadEvent)
  | FinalizedData (data : FinalizedCheckpointEvent).

Definition Event (e : BeaconStreamEvent) : Z :=
  match e with
  | BlockData _ => StreamBlockEvent
  | HeadData _ => StreamHeadEvent
  | FinalizedData _ => StreamFinalizedEvent
  end.

(** Where [startStream] is: in [subscribeStream], before an attempt or waiting
    for the next one; in its select; sending to one of its channels; in its
    deferred calls; at its end. *)
Inductive beacon_pc :=
  | Subscribing
  | WaitRetry
  | Selecting
  | PushEvent (e : BeaconStreamEvent)
  | PushReady (ready : bool)
  | Deferred
  | Returned.

(** [sys] is the event stream once subscribed; the two channels hold up to ten
    elements.  [crashed] is the run-time error of the goroutine, if any. *)
Record BeaconStream := mkBeaconStream {
  ctx_done : bool;
  running : bool;
  events : Z;
  ReadyChan : list bool;
  EventChan : list BeaconStreamEvent;
  lastHeadSeen : Z;
  sys : option System;
  pc : beacon_pc;
  crashed : option string
}.

Definition chan_cap : nat := 10.

(** [NewBlockStream]; the goroutine returns at once when there is no topic. *)
Definition NewBlockStream (evts : Z) : BeaconStream :=
  mkBeaconStream false true evts [] [] 0 None Subscribing None.

Definition go_to (p : beacon_pc) (b : BeaconStream) : BeaconStream :=
  mkBeaconStream (ctx_done b) (running b) (events b) (ReadyChan b) (EventChan b) (lastHeadSeen b)
    (sys b) p (crashed b).
Definition set_sys (y : System) (b : BeaconStream) : BeaconStream :=
  mkBeaconStream (ctx_done b) (running b) (events b) (ReadyChan b) (EventChan b) (lastHeadSeen b)
    (Some y) (pc b) (crashed b).
Definition set_chans (ready : list bool) (evts : list BeaconStreamEvent) (b : BeaconStream) : BeaconStream :=
  mkBeaconStream (ctx_done b) (running b) (events b) ready evts (lastHeadSeen b) (sys b) (pc b) (crashed b).
(** The deferred [bs.running = false]. *)
Definition finish (b : BeaconStream) : BeaconStream :=
  mkBeaconStream (ctx_done b) false (events b) (ReadyChan b) (EventChan b) (lastHeadSeen b)
    (sys b) Returned (crashed b).
Definition cancel (b : BeaconStream) : BeaconStream :=
  mkBeaconStream true (running b) (events b) (ReadyChan b) (EventChan b) (lastHeadSeen b)
    (sys b) (pc b) (crashed b).
Definition see_head (now : Z) (b : BeaconStream) : BeaconStream :=
  mkBeaconStream (ctx_done b) (running b) (events b) (ReadyChan b) (EventChan b) now
    (sys b) (pc b) (crashed b).
Definition crash (m : string) (b : BeaconStream) : BeaconStream :=
  mkBeaconStream (ctx_done b) (running b) (events b) (ReadyChan b) (EventChan b) (lastHeadSeen b)
    (sys b) (pc b) (Some m).

(** [processBlockEvent], [processHeadEvent] and [processFinalizedEvent] up to
    their send; an event that cannot be decoded is dropped. *)
Definition processBlockEvent (evt : StreamEvent) (b : BeaconStream) : BeaconStream :=
  match Unmarshal_block (Data evt) with
  | None => go_to Selecting b
  | Some parsed => go_to (PushEvent (BlockData parsed)) b
  end.
Definition processHeadEvent (now : Z) (evt : StreamEvent) (b : BeaconStream) : BeaconStream :=
  match Unmarshal_head (Data evt) with
  | None => go_to Selecting b
  | Some parsed => go_to (PushEvent (HeadData parsed)) (see_head now b)
  end.
Definition processFinalizedEvent (evt : StreamEvent) (b : BeaconStream) : BeaconStream :=
  match Unmarshal_finalized (Data evt) with
  | None => go_to Selecting b
  | Some parsed => go_to (PushEvent (FinalizedData parsed)) b
  end.

(** The cases of the select that receive from the stream: [evt.Event()] on the
    zero value of a closed channel is a nil dereference. *)
Definition handle (now : Z) (g : signal) (b : BeaconStream) : BeaconStream :=
  match g with
  | GotEvent evt =>
      if decide (EventName evt = "block") then processBlockEvent evt b
      else if decide (EventName evt = "head") then processHeadEvent now evt b
      else if decide (EventName evt = "finalized_checkpoint") then processFinalizedEvent evt b
      else go_to Selecting b
  | GotReady => go_to (PushReady true) b
  | GotError _ | GotNilError => go_to (PushReady false) b
  | GotNilEvent => crash "invalid memory address or nil pointer dereference" b
  end.

(** Whose turn it is: [Close] or the parent's cancellation; an attempt to
    subscribe; the end of the wait after a failed one (by the context or the
    timer); the stream's own goroutines; the select, receiving from the stream
    or from the context; a send on one of the channels; the deferred calls;
    and the client that reads the channels. *)
Inductive beacon_action :=
  | Close
  | Attempt (answer : http_answer)
  | WaitDone
  | WaitOver
  | Inside (a : action)
  | Receive (a : action) (now : Z)
  | SelectDone
  | Push
  | PushDone
  | CloseStream
  | TakeEvent
  | TakeReady.

(** The stream's actions that need a receiver. *)
Definition receiving (a : action) : bool :=
  match a with
  | ReaderTurn _ Received | RecvError | RecvClosed => true
  | _ => false
  end.

Definition internal (a : action) : bool :=
  match a with CallClose => false | _ => negb (receiving a) end.

(** One step; with it, the event that the client takes, if it does. *)
Definition beacon_step (a : beacon_action) (b : BeaconStream)
    : option (BeaconStream * option BeaconStreamEvent) :=
  match crashed b with
  | Some _ => None
  | None =>
    match a, pc b with
    | Close, _ => Some (cancel b, None)
    | Attempt answer, Subscribing =>
        if (topics (events b)).2 =? 0 then Some (finish b, None)
        else match SubscribeWith "" answer with
             | Ok y => Some (go_to Selecting (set_sys y b), None)
             | Err _ => Some (go_to WaitRetry b, None)
             end
    | WaitDone, WaitRetry => if ctx_done b then Some (finish b, None) else None
    | WaitOver, WaitRetry => Some (go_to Subscribing b, None)
    | Inside a, _ =>
        y ← sys b;
        if internal a then '(y', _) ← system_step a y; Some (set_sys y' b, None) else None
    | Receive a now, Selecting =>
        y ← sys b;
        if receiving a then
          '(y', g) ← system_step a y; g ← g; Some (handle now g (set_sys y' b), None)
        else None
    | SelectDone, Selecting => if ctx_done b then Some (go_to Deferred b, None) else None
    | Push, PushEvent e =>
        if decide (length (EventChan b) < chan_cap)%nat
        then Some (go_to Selecting (set_chans (ReadyChan b) (EventChan b ++ [e]) b), None) else None
    | Push, PushReady r =>
        if decide (length (ReadyChan b) < chan_cap)%nat
        then Some (go_to Selecting (set_chans (ReadyChan b ++ [r]) (EventChan b) b), None) else None
    | PushDone, PushReady false => if ctx_done b then Some (go_to Selecting b, None) else None
    | CloseStream, Deferred =>
        y ← sys b; '(y', _) ← system_step CallClose y; Some (finish (set_sys y' b), None)
    | TakeEvent, _ =>
        match EventChan b with
        | [] => None
        | e :: rest => Some (set_chans (ReadyChan b) rest b, Some e)
        end
    | TakeReady, _ =>
        match ReadyChan b with
        | [] => None
        | _ :: rest => Some (set_chans rest (EventChan b) b, None)
        end
    | _, _ => None
    end
  end.

Fixpoint beacon_run (acts : list beacon_action) (b : BeaconStream)
    : option (BeaconStream * list BeaconStreamEvent) :=
  match acts with
  | [] => Some (b, [])
  | a :: acts =>
      '(b', e) ← beacon_step a b;
      '(b'', es) ← beacon_run acts b';
      Some (b'', option_list e ++ es)
  end.

(** ** What the client of the beacon stream sees *)

(** The actions of the event stream within those of the beacon stream. *)
Definition stream_action (a : beacon_action) : list action :=
  match a with
  | Inside a | Receive a _ => [a]
  | CloseStream => [CallClose]
  | _ => []
  end.

Definition stream_actions (acts : list beacon_action) : list action := acts ≫= stream_action.

(** The beacon event that a stream event becomes, if it can be decoded. *)
Definition beacon_event (evt : StreamEvent) : option BeaconStreamEvent :=
  if decide (EventName evt = "block") then BlockData <$> Unmarshal_block (Data evt)
  else if decide (EventName evt = "head") then HeadData <$> Unmarshal_head (Data evt)
  else if decide (EventName evt = "finalized_checkpoint") then FinalizedData <$> Unmarshal_finalized (Data evt)
  else None.

Definition pushing (b : BeaconStream) : list BeaconStreamEvent :=
  match pc b with PushEvent e => [e] | _ => [] end.

(** The stream was not closed unless [Close] was called. *)
Definition unclosed (y : System) : Prop := closers y = [] -> isClosed (stream y) = false.

Lemma system_step_unclosed a y y' g :
  system_wf y -> system_step a y = Some (y', g) -> unclosed y ->
  unclosed y' /\ (a <> CallClose -> closers y = [] -> closers y' = []).
Proof.
  intros Hwf Hs Hu. destruct (reader_turn_or a) as [(i & inp & ->)|Hne].
  - destruct (reader_turn_inv _ _ _ _ _ Hwf Hs) as (w & w' & st & s' & Hi & Hst & ->).
    pose proof (reader_step_guarantees _ _ _ _ _ _ _ _ Hst (wf_readers _ Hwf _ _ Hi)) as (_ & Ec & _).
    split; [|done]. intros Hc. simpl in *. rewrite Ec. by apply Hu.
  - unfold system_step in Hs. rewrite (wf_safe _ Hwf) in Hs. destruct a as [i inp|j| | |].
    + by destruct (Hne i inp).
    + apply bind_Some in Hs as (c & Hj & Hs). apply bind_Some in Hs as ([c' s'] & Hst & Hs). simplify_eq.
      split; [|intros _ E; simpl; by rewrite E]. intros Hc. simpl in Hc.
      apply (f_equal length) in Hc. rewrite length_insert in Hc. destruct (closers y); [done|discriminate Hc].
    + simplify_eq. split; [|done]. intros Hc. simpl in Hc. by destruct (closers y).
    + destruct (Errors (stream y)); [destruct (errorsClosed (stream y)); [|done]|]; by simplify_eq.
    + destruct (eventsClosed (stream y)); by simplify_eq.
Qed.

Lemma system_run_snoc acts y y1 gs a y2 g :
  system_run acts y = Some (y1, gs) -> system_step a y1 = Some (y2, g) ->
  system_run (acts ++ [a]) y = Some (y2, gs ++ option_list g).
Proof.
  revert y gs. induction acts as [|b acts IH]; intros y gs Hr Hs; simpl in *.
  - simplify_eq. rewrite Hs. simpl. by rewrite app_nil_r.
  - apply bind_Some in Hr as ([y' g'] & Hb & Hr). apply bind_Some in Hr as ([y'' gs'] & Hr' & Hr). simplify_eq.
    rewrite Hb. simpl. rewrite (IH _ _ Hr' Hs). simpl. by rewrite app_assoc.
Qed.

Lemma execution_step id acts y gs a y' g :
  stream_execution id acts y gs -> system_step a y = Some (y', g) ->
  stream_execution id (acts ++ [a]) y' (gs ++ option_list g).
Proof. intros (an & y0 & Hsub & Hr) Hs. exists an, y0. split; [done|]. by eapply system_run_snoc. Qed.

(** What holds after the actions [acts] with the events [taken]. *)
Definition beacon_ok (acts : list action) (taken : list BeaconStreamEvent) (b : BeaconStream) : Prop :=
  crashed b = None /\
  match sys b with
  | None => acts = [] /\ taken ++ EventChan b ++ pushing b = []
  | Some y => exists gs,
      stream_execution "" acts y gs /\ unclosed y /\ (pc b <> Returned -> closers y = []) /\
      taken ++ EventChan b ++ pushing b = omap beacon_event (received gs) /\
      pc b <> Subscribing /\ pc b <> WaitRetry
  end.

Lemma handle_event now g b :
  g <> GotNilEvent -> EventChan (handle now g b) = EventChan b /\ sys (handle now g b) = sys b /\
  crashed (handle now g b) = crashed b /\
  pushing (handle now g b) = omap beacon_event (received_event g) /\
  pc (handle now g b) <> Returned /\ pc (handle now g b) <> Subscribing /\ pc (handle now g b) <> WaitRetry.
Proof.
  intros Hg. destruct g as [|evt|err| |]; try done; simpl.
  unfold beacon_event, processBlockEvent, processHeadEvent, processFinalizedEvent. repeat case_decide.
  - by destruct (Unmarshal_block (Data evt)).
  - by destruct (Unmarshal_head (Data evt)).
  - by destruct (Unmarshal_finalized (Data evt)).
  - done.
Qed.

Lemma internal_step_received a y y' g :
  system_wf y -> internal a = true -> system_step a y = Some (y', g) -> received (option_list g) = [].
Proof.
  intros Hwf Hi Hs. destruct (reader_turn_or a) as [(i & inp & ->)|Hne].
  - destruct (reader_turn_inv _ _ _ _ _ Hwf Hs) as (w & w' & st & s' & _ & Hst & _).
    reader_cases w inp Hst; done.
  - by apply (system_step_others _ _ _ _ Hwf Hs).
Qed.

(** The stream is not closed while the select is running, so that what it
    receives is never the zero value of a closed [Events]. *)
Lemma open_step_signal a y y' g :
  system_wf y -> isClosed (stream y) = false -> system_step a y = Some (y', g) -> g <> Some GotNilEvent.
Proof.
  intros Hwf Hc Hs. unfold system_step in Hs. rewrite (wf_safe _ Hwf) in Hs. destruct a as [i inp|j| | |].
  - apply bind_Some in Hs as (w & Hi & Hs). apply bind_Some in Hs as ([[[w' st] s'] g'] & Hst & Hs).
    simplify_eq. reader_cases w inp Hst; done.
  - apply bind_Some in Hs as (c & Hj & Hs). by apply bind_Some in Hs as ([c' s'] & Hst & [= <- <-]).
  - by simplify_eq.
  - destruct (Errors (stream y)); [destruct (errorsClosed (stream y)); [|done]|]; by simplify_eq.
  - destruct (eventsClosed (stream y)) eqn:E; [|done]. rewrite (wf_flags _ Hwf) in Hc by auto. done.
Qed.

Lemma stream_part_ok acts taken b b' y y' gs g a :
  sys b = Some y -> stream_execution "" acts y gs -> unclosed y -> system_step a y = Some (y', g) ->
  sys b' = Some y' -> crashed b' = None -> pc b' <> Subscribing -> pc b' <> WaitRetry ->
  (pc b' <> Returned -> a <> CallClose /\ closers y = []) ->
  taken ++ EventChan b' ++ pushing b' = omap beacon_event (received gs ++ received (option_list g)) ->
  beacon_ok (acts ++ [a]) taken b'.
Proof.
  intros Hsys Hx Hu Hs Hsys' Hcr H1 H2 Hret Heq. split; [done|]. rewrite Hsys'. exists (gs ++ option_list g).
  destruct (system_step_unclosed _ _ _ _ (execution_wf _ _ _ _ Hx) Hs Hu) as [Hu' Hcl].
  repeat split; [by eapply execution_step|done| |by rewrite received_app|done|done].
  intros Hp. destruct (Hret Hp). by apply Hcl.
Qed.

(** Steps that leave the event stream alone. *)
Lemma control_ok acts taken taken' b b' :
  beacon_ok acts taken b -> sys b' = sys b -> crashed b' = None ->
  taken' ++ EventChan b' ++ pushing b' = taken ++ EventChan b ++ pushing b ->
  (is_Some (sys b) -> (pc b = Returned -> pc b' = Returned) /\ pc b' <> Subscribing /\ pc b' <> WaitRetry) ->
  beacon_ok acts taken' b'.
Proof.
  intros [_ Hok] Es Hcr Heq Hpc. split; [done|]. rewrite Es, Heq. destruct (sys b) as [y|]; [|done].
  destruct Hok as (gs & Hx & Hu & Hcl & Ht & _). destruct (Hpc ltac:(done)) as (H1 & H2 & H3).
  exists gs. repeat split; try done. intros Hr. apply Hcl. by intros E%H1.
Qed.

Lemma inside_ok acts taken a b b' e :
  beacon_ok acts taken b -> beacon_step (Inside a) b = Some (b', e) ->
  beacon_ok (acts ++ [a]) (taken ++ option_list e) b'.
Proof.
  intros [Hcr Hok] Hs. unfold beacon_step in Hs. rewrite Hcr in Hs. destruct (sys b) as [y|] eqn:Es; [|done].
  simpl in Hs. destruct (internal a) eqn:Hi; [|done].
  apply bind_Some in Hs as ([y' g] & Hst & Hs). simplify_eq.
  destruct Hok as (gs & Hx & Hu & Hcl & Ht & H1 & H2).
  eapply stream_part_ok; [exact Es|exact Hx|done|exact Hst|done..| |].
  - intros Hr. split; [by intros ->|by apply Hcl].
  - rewrite (internal_step_received _ _ _ _ (execution_wf _ _ _ _ Hx) Hi Hst), !app_nil_r. exact Ht.
Qed.

Lemma receive_ok acts taken a now b b' e :
  beacon_ok acts taken b -> beacon_step (Receive a now) b = Some (b', e) ->
  beacon_ok (acts ++ [a]) (taken ++ option_list e) b'.
Proof.
  intros [Hcr Hok] Hs. unfold beacon_step in Hs. rewrite Hcr in Hs.
  destruct (pc b) eqn:Ep; try done. destruct (sys b) as [y|] eqn:Es; [|done].
  simpl in Hs. destruct (receiving a) eqn:Hi; [|done].
  apply bind_Some in Hs as ([y' og] & Hst & Hs). apply bind_Some in Hs as (g & -> & Hs). simplify_eq.
  destruct Hok as (gs & Hx & Hu & Hcl & Ht & _). specialize (Hcl ltac:(done)).
  pose proof (open_step_signal _ _ _ _ (execution_wf _ _ _ _ Hx) (Hu Hcl) Hst) as Hg.
  destruct (handle_event now g (set_sys y' b)) as (E1 & E2 & E3 & E4 & E5 & E6 & E7); [congruence|].
  eapply stream_part_ok; [exact Es|exact Hx|done|exact Hst|done|by rewrite E3|done..| |].
  - intros _. split; [by intros ->|done].
  - rewrite E1, E4, app_nil_r, omap_app, <- Ht. unfold pushing. rewrite Ep. simpl.
    by rewrite !app_nil_r, !app_assoc.
Qed.

Lemma closeStream_ok acts taken b b' e :
  beacon_ok acts taken b -> beacon_step CloseStream b = Some (b', e) ->
  beacon_ok (acts ++ [CallClose]) (taken ++ option_list e) b'.
Proof.
  intros [Hcr Hok] Hs. unfold beacon_step in Hs. rewrite Hcr in Hs.
  destruct (pc b) eqn:Ep; try done. destruct (sys b) as [y|] eqn:Es; [|done]. cbn [mbind option_bind] in Hs.
  apply bind_Some in Hs as ([y' g] & Hst & Hs). simplify_eq.
  destruct Hok as (gs & Hx & Hu & Hcl & Ht & _).
  destruct (system_step_others _ _ _ _ (execution_wf _ _ _ _ Hx) Hst) as (_ & Hg & _); [done|].
  eapply stream_part_ok; [exact Es|exact Hx|done|exact Hst|done..|].
  rewrite Hg, !app_nil_r. unfold pushing in *. rewrite Ep in Ht. simpl. by rewrite !app_nil_r in *.
Qed.

Lemma attempt_ok acts taken answer b b' e :
  beacon_ok acts taken b -> beacon_step (Attempt answer) b = Some (b', e) ->
  beacon_ok acts (taken ++ option_list e) b'.
Proof.
  intros [Hcr Hok] Hs. unfold beacon_step in Hs. rewrite Hcr in Hs. destruct (pc b) eqn:Ep; try done.
  destruct (sys b) as [y|] eqn:Es; [destruct Hok as (? & _ & _ & _ & _ & ? & _); done|].
  destruct Hok as [-> Hok]. unfold pushing in Hok. rewrite Ep in Hok.
  destruct ((topics (events b)).2 =? 0).
  { simplify_eq. split; [done|]. simpl. rewrite Es. split; [done|]. by rewrite app_nil_r. }
  destruct (SubscribeWith "" answer) as [y|err] eqn:Hsub; simplify_eq.
  - destruct (SubscribeWith_open _ _ _ Hsub) as (Ecl & Ec & _).
    split; [done|]. simpl. exists []. rewrite app_nil_r. repeat split; try done; [by exists answer, y|by intros _].
  - split; [done|]. simpl. rewrite Es. split; [done|]. by rewrite app_nil_r.
Qed.

Lemma subscribed_pc acts taken b :
  beacon_ok acts taken b -> is_Some (sys b) -> pc b <> Subscribing /\ pc b <> WaitRetry.
Proof. intros [_ Hok] [y Es]. rewrite Es in Hok. by destruct Hok as (gs & _ & _ & _ & _ & H). Qed.

Lemma beacon_step_ok acts taken a b b' e :
  beacon_ok acts taken b -> beacon_step a b = Some (b', e) ->
  beacon_ok (acts ++ stream_action a) (taken ++ option_list e) b'.
Proof.
  intros Hok Hs. pose proof (subscribed_pc _ _ _ Hok) as Hpc. pose proof (proj1 Hok) as Hcr.
  destruct a; simpl stream_action; rewrite ?app_nil_r;
    [|by eapply attempt_ok| | |by eapply inside_ok|by eapply receive_ok| | | |by eapply closeStream_ok| |];
    unfold beacon_step in Hs; rewrite Hcr in Hs;
    eapply control_ok; try exact Hok; try intros Hsome; try destruct (Hpc Hsome) as [H1 H2].
  all: try (destruct (pc b) as [| | |ev|[]| |] eqn:Ep; try done; step_inv; done).
  all: try (destruct (EventChan b) eqn:Ec; [discriminate Hs|]).
  all: try (destruct (ReadyChan b) eqn:Er; [discriminate Hs|]).
  all: try (destruct (pc b) as [| | |ev|[]| |] eqn:Ep; try discriminate Hs); step_inv.
  all: unfold pushing; simpl; rewrite ?Ep, ?app_nil_r, <- ?app_assoc; try done.
Qed.

Lemma beacon_run_ok acts taken bacts b b' es :
  beacon_ok acts taken b -> beacon_run bacts b = Some (b', es) ->
  beacon_ok (acts ++ stream_actions bacts) (taken ++ es) b'.
Proof.
  revert acts taken b es. induction bacts as [|a bacts IH]; intros acts taken b es Hok Hr; simpl in Hr.
  - simplify_eq. by rewrite !app_nil_r.
  - apply bind_Some in Hr as ([b1 e] & Hs & Hr). apply bind_Some in Hr as ([b2 es'] & Hr' & Hr). simplify_eq.
    change (stream_actions (a :: bacts)) with (stream_action a ++ stream_actions bacts).
    rewrite !app_assoc. eapply IH; [|exact Hr']. by eapply beacon_step_ok.
Qed.

Lemma NewBlockStream_ok evts : beacon_ok [] [] (NewBlockStream evts).
Proof. done. Qed.

(** C31: The client of a beacon stream takes the events of the server that it
    subscribed to, each decoded as its name says, in the order in which the
    server sent them; events are lost only at the end, never in between. *)
Theorem beacon_events_in_order evts acts b taken :
  beacon_run acts (NewBlockStream evts) = Some (b, taken) ->
  taken `prefix_of` omap beacon_event (decoded_events (stream_actions acts)).
Proof.
  intros Hr. destruct (beacon_run_ok _ _ _ _ _ _ (NewBlockStream_ok evts) Hr) as [_ Hok]. simpl in Hok.
  destruct (sys b) as [y|].
  - destruct Hok as (gs & Hx & _ & _ & Ht & _). destruct Hx as (an & y0 & Hsub & Hrun).
    destruct (SubscribeWith_flow _ _ _ Hsub) as [Hf Hn].
    destruct (system_run_flow _ _ _ _ _ _ _ (SubscribeWith_wf _ _ _ Hsub) Hrun Hf Hn) as [Hfl _].
    apply flow_weaken in Hfl as [rest E]. simpl in E. rewrite E, omap_app, <- Ht, <- !app_assoc.
    by apply prefix_app_r.
  - destruct Hok as [_ Ht]. apply app_nil in Ht as [-> _]. apply prefix_nil.
Qed.

(** The goroutine never dereferences the zero value of the closed channel
    [Events], although its select has no check for it: by the time the stream
    is closed it has left the loop. *)
Theorem beacon_never_crashes evts acts b taken :
  beacon_run acts (NewBlockStream evts) = Some (b, taken) -> crashed b = None.
Proof. intros Hr. by apply (beacon_run_ok _ _ _ _ _ _ (NewBlockStream_ok evts) Hr). Qed.

(** ** Closing *)

(** A reader that offers an event waits until it is received. *)
Lemma offered_step a y y' g i r p :
  system_wf y -> readers y !! i = Some (SendEvent r p) -> a <> ReaderTurn i Received ->
  system_step a y = Some (y', g) -> readers y' !! i = Some (SendEvent r p).
Proof.
  intros Hwf Hi Hne Hs. destruct (reader_turn_or a) as [(k & inp & ->)|Hn].
  - destruct (reader_turn_inv _ _ _ _ _ Hwf Hs) as (w & w' & st & s' & Hk & Hst & ->). simpl.
    pose proof (lookup_lt_Some _ _ _ Hi) as Hlt.
    rewrite lookup_app_l by (rewrite length_insert; done).
    destruct (decide (k = i)) as [->|Hki]; [|by rewrite list_lookup_insert_ne].
    rewrite list_lookup_insert_eq by done. rewrite Hi in Hk. injection Hk as <-.
    destruct inp; simpl in Hst; try done. by destruct (eventsClosed (stream y)); simplify_eq.
  - by destruct (system_step_bodies _ _ _ _ Hs Hn) as (-> & _).
Qed.

(** While an event is offered the stream is open, and the calls of [Close]
    wait for the mutex. *)
Lemma offered_open y i r p :
  system_wf y -> readers y !! i = Some (SendEvent r p) ->
  isClosed (stream y) = false /\ forall j c, closers y !! j = Some c -> c = CLock.
Proof.
  intros Hwf Hi. destruct (wf_readers _ Hwf _ _ Hi) as [Hm Hc]. split; [done|]. intros j c Hj.
  pose proof (wf_closers _ Hwf _ _ Hj) as Hok. destruct c; [done|..]; simpl in Hok; destruct_and?; congruence.
Qed.

(** [startStream] has left its loop and an event is being offered. *)
Definition abandoned (i r : nat) (p : StreamEvent) (b : BeaconStream) : Prop :=
  (pc b = Deferred \/ pc b = Returned) /\
  exists y, sys b = Some y /\ system_wf y /\ readers y !! i = Some (SendEvent r p).

Lemma abandoned_step i r p a b b' e :
  abandoned i r p b -> beacon_step a b = Some (b', e) -> abandoned i r p b'.
Proof.
  intros (Hpc & y & Es & Hwf & Hi) Hs. unfold beacon_step in Hs. destruct (crashed b); [done|].
  destruct a as [|an| | |a|a now| | | | | |].
  5: { rewrite Es in Hs. simpl in Hs. destruct (internal a) eqn:Hin; [|done].
       apply bind_Some in Hs as ([y' g] & Hst & Hs). simplify_eq. split; [done|]. exists y'.
       split; [done|]. split; [by eapply system_step_wf|]. eapply offered_step; [done|done| |exact Hst]. by intros ->. }
  9: { destruct Hpc as [E|E]; rewrite E in Hs; [|done]. rewrite Es in Hs. cbn [mbind option_bind] in Hs.
       apply bind_Some in Hs as ([y' g] & Hst & Hs). simplify_eq. split; [by right|]. exists y'.
       split; [done|]. split; [by eapply system_step_wf|]. by eapply offered_step; [exact Hwf|exact Hi| |exact Hst]. }
  all: try (destruct (EventChan b); [discriminate Hs|]); try (destruct (ReadyChan b); [discriminate Hs|]).
  all: destruct Hpc as [E|E]; rewrite ?E in Hs; try discriminate Hs; simplify_eq; split; eauto.
Qed.

Lemma abandoned_run i r p acts b b' es :
  abandoned i r p b -> beacon_run acts b = Some (b', es) -> abandoned i r p b'.
Proof.
  revert b es. induction acts as [|a acts IH]; intros b es Hab Hr; simpl in Hr; [by simplify_eq|].
  apply bind_Some in Hr as ([b1 e] & Hs & Hr). apply bind_Some in Hr as ([b2 es'] & Hr' & Hr). simplify_eq.
  eapply IH; [|exact Hr']. by eapply abandoned_step.
Qed.

(** C33: [Close] can hang: when [startStream] leaves its loop while a reader offers
    an event, that reader keeps the mutex for ever, so that no execution from
    there closes the stream, and both goroutines stay. *)
Theorem close_deadlock evts acts b taken y i r p acts' b' taken' :
  beacon_run acts (NewBlockStream evts) = Some (b, taken) ->
  sys b = Some y -> readers y !! i = Some (SendEvent r p) -> pc b = Returned ->
  beacon_run acts' b = Some (b', taken') ->
  exists y', sys b' = Some y' /\ readers y' !! i = Some (SendEvent r p) /\
    isClosed (stream y') = false /\ (forall j c, closers y' !! j = Some c -> c = CLock).
Proof.
  intros Hr Es Hi Hpc Hr'. destruct (beacon_run_ok _ _ _ _ _ _ (NewBlockStream_ok evts) Hr) as [_ Hok].
  rewrite Es in Hok. destruct Hok as (gs & Hx & _).
  destruct (abandoned_run i r p _ _ _ _ ltac:(split; [by right|];
    exists y; split; [done|]; split; [by eapply execution_wf|done]) Hr') as (_ & y' & Es' & Hwf' & Hi').
  exists y'. split; [done|]. split; [done|]. by eapply offered_open.
Qed.

(** Otherwise it works: with the mutex free, the deferred call closes the
    stream and both of its channels in the closer's six steps. *)
Theorem close_completes evts acts b taken y :
  beacon_run acts (NewBlockStream evts) = Some (b, taken) ->
  pc b = Deferred -> sys b = Some y -> closeMutex (stream y) = None ->
  exists b' y', beacon_run (CloseStream :: replicate 6 (Inside (CloserTurn 0))) b = Some (b', []) /\
    sys b' = Some y' /\ isClosed (stream y') = true /\ errorsClosed (stream y') = true /\
    eventsClosed (stream y') = true /\ closeMutex (stream y') = None /\ running b' = false.
Proof.
  intros Hr Hpc Es Hm. destruct (beacon_run_ok _ _ _ _ _ _ (NewBlockStream_ok evts) Hr) as [Hcr Hok].
  rewrite Es in Hok. destruct Hok as (gs & Hwf%execution_wf & Hu & Hcl & _).
  specialize (Hcl ltac:(congruence)). specialize (Hu Hcl). pose proof (wf_safe _ Hwf) as Hp.
  destruct (open_channels _ Hwf Hu) as [He Hv].
  destruct b as [? ? ? ? ? ? sy q cr], y as [[lid ret ic mx ers ec vc rq bd nb pk] rs cs]. simpl in *. subst.
  eexists _, _. split; [reflexivity|]. done.
Qed.

(** When the client no longer reads, [Close] is not seen at all: with the
    channel full, [startStream] waits in its send, which does not look at the
    context. *)
Theorem full_channel_ignores_close acts b b' e es :
  pc b = PushEvent e -> length (EventChan b) = chan_cap -> TakeEvent ∉ acts ->
  beacon_run acts b = Some (b', es) -> pc b' = PushEvent e /\ running b' = running b.
Proof.
  revert b es. induction acts as [|a acts IH]; intros b es Hpc Hlen Hnot Hr; simpl in Hr; [by simplify_eq|].
  apply bind_Some in Hr as ([b1 e1] & Hs & Hr). apply bind_Some in Hr as ([b2 es'] & Hr' & Hr). simplify_eq.
  apply not_elem_of_cons in Hnot as [Ha Hnot].
  assert (pc b1 = PushEvent e /\ length (EventChan b1) = chan_cap /\ running b1 = running b) as (H1 & H2 & H3).
  { unfold beacon_step in Hs. destruct (crashed b); [done|]. destruct a as [| | | |a| | | | | | |]; rewrite ?Hpc in Hs; try done.
    - by simplify_eq.
    - destruct (sys b) as [y|]; [|done]. simpl in Hs. destruct (internal a); [|done].
      by apply bind_Some in Hs as ([y' g] & _ & [= <- <-]).
    - rewrite Hlen in Hs. unfold chan_cap in Hs. case_decide; [lia|done].
    - destruct (ReadyChan b); by simplify_eq. }
  destruct (IH b1 es') as [-> ->]; done.
Qed.
End beacon.

(** ** Examples *)

Definition ex_unmarshal (s : string) : option string := if decide (s = "") then None else Some s.

Definition ex_event (id name data : string) (ret : Z) : StreamEvent := mkStreamEvent id name data ret.

(** The reader [i] decodes [pub], takes the mutex and offers it. *)
Definition ex_offer (i : nat) (pub : StreamEvent) : list action :=
  [ReaderTurn i (Decoded (DEvent pub)); ReaderTurn i Go; ReaderTurn i Go].

(** A subscription that delivers two events, loses its connection, is refused
    once and connects again. *)
Definition ex_stream_acts : list action :=
  [ReaderTurn 0 Received] ++
  ex_offer 0 (ex_event "7" "block" "b1" 0) ++ [ReaderTurn 0 Received; ReaderTurn 0 Go] ++
  ex_offer 0 (ex_event "" "block" "b2" 50) ++ [ReaderTurn 0 Received; ReaderTurn 0 Go] ++
  [ReaderTurn 0 (Decoded (DErr "unexpected EOF")); ReaderTurn 0 Go; ReaderTurn 0 Go; ReaderTurn 0 Go;
   ReaderTurn 0 Go; RecvError; ReaderTurn 0 Go; ReaderTurn 0 Go].

Definition ex_start : System :=
  match SubscribeWith "" (HttpResponse 200 "") with Ok y => y | Err _ => mkSystem (mkStream "" 0 false None [] false false [] [] 0 None) [] [] end.

Definition ex_after (acts : list action) : System :=
  match system_run acts ex_start with Some (y, _) => y | None => ex_start end.

Definition ex_signals (acts : list action) : list signal :=
  match system_run acts ex_start with Some (_, gs) => gs | None => [] end.

Example ex_stream_received :
  ex_signals ex_stream_acts =
    [GotReady; GotEvent (ex_event "7" "block" "b1" 0); GotEvent (ex_event "" "block" "b2" 50);
     GotError "unexpected EOF"] /\
  readers (ex_after ex_stream_acts) = [Connect 0] /\ lastEventID (stream (ex_after ex_stream_acts)) = "7".
Proof. by vm_compute. Qed.

Lemma ex_execution : stream_execution "" ex_stream_acts (ex_after ex_stream_acts) (ex_signals ex_stream_acts).
Proof. exists (HttpResponse 200 ""), ex_start. by vm_compute. Qed.

(** Two calls of [Close]: the second one closes, the first one finds the
    stream closed; the reader has not noticed yet. *)
Definition ex_close_acts : list action :=
  [ReaderTurn 0 Received; CallClose; CallClose; CloserTurn 1; ReaderTurn 0 (Decoded DOther);
   CloserTurn 1; CloserTurn 1; CloserTurn 1; CloserTurn 1; CloserTurn 1;
   CloserTurn 0; CloserTurn 0; CloserTurn 0].

Lemma stream_never_panics_witness :
  isClosed (stream (ex_after ex_close_acts)) = true /\ closers (ex_after ex_close_acts) = [CDone; CDone] /\
  panicked (stream (ex_after ex_close_acts)) = None.
Proof.
  split; [by vm_compute|]. split; [by vm_compute|].
  apply (stream_never_panics "" ex_close_acts (ex_after ex_close_acts) (ex_signals ex_close_acts)).
  exists (HttpResponse 200 ""), ex_start. split; [reflexivity|]. vm_compute. reflexivity.
Defined.

Lemma stream_events_in_order_witness :
  received (ex_signals ex_stream_acts) `prefix_of` decoded_events ex_stream_acts.
Proof. apply (stream_events_in_order "" ex_stream_acts (ex_after ex_stream_acts)). apply ex_execution. Defined.

Lemma reconnect_resumes_witness :
  requests (stream (ex_after (ex_stream_acts ++ [ReaderTurn 0 (Answered (HttpError "refused"))]))) = [""; "7"].
Proof.
  destruct (reconnect_resumes "" ex_stream_acts (ex_after ex_stream_acts) (ex_signals ex_stream_acts)
    0 (Answered (HttpError "refused")) (ex_after (ex_stream_acts ++ [ReaderTurn 0 (Answered (HttpError "refused"))])) None
    ex_execution) as [_ H]; [by vm_compute|]. rewrite (H 0%nat); by vm_compute.
Defined.

Lemma stream_progress_witness : can_step (ex_after ex_stream_acts).
Proof.
  apply (stream_progress "" ex_stream_acts (ex_after ex_stream_acts) (ex_signals ex_stream_acts)); [apply ex_execution|].
  left. exists 0%nat, (Connect 0). split; [by vm_compute|done].
Defined.

Lemma refused_body_leaks_witness :
  (1 : nat) ∈ bodies (stream (ex_after (ex_stream_acts ++ [ReaderTurn 0 (Answered (HttpResponse 503 "busy"))]))).
Proof.
  apply (refused_body_leaks "" ex_stream_acts (ex_after ex_stream_acts) (ex_signals ex_stream_acts) 0 0 503 "busy"
    (ex_after (ex_stream_acts ++ [ReaderTurn 0 (Answered (HttpResponse 503 "busy"))])) []
    _ None []); [apply ex_execution|by vm_compute|done|by vm_compute|reflexivity].
Defined.

Abbreviation ex_run := (beacon_run ex_unmarshal ex_unmarshal ex_unmarshal).

(** The client subscribes to blocks and finalized checkpoints, and takes one
    of the two events that the server sends. *)
Definition ex_beacon_acts : list beacon_action :=
  [Attempt (HttpError "connection refused"); WaitOver; Attempt (HttpResponse 200 "");
   Receive (ReaderTurn 0 Received) 0; Push; TakeReady] ++
  (Inside <$> ex_offer 0 (ex_event "" "block" "b1" 0)) ++
  [Receive (ReaderTurn 0 Received) 1; Push; Inside (ReaderTurn 0 Go)] ++
  (Inside <$> ex_offer 0 (ex_event "" "finalized_checkpoint" "c1" 0)) ++
  [Receive (ReaderTurn 0 Received) 2; Push; Inside (ReaderTurn 0 Go); TakeEvent].

Definition ex_beacon (acts : list beacon_action) : BeaconStream :=
  match ex_run acts (NewBlockStream 5) with Some (b, _) => b | None => NewBlockStream 5 end.

Example ex_topics : streamURL "http://node" 5 = "http://node/eth/v1/events?topics=block,finalized_checkpoint".
Proof. reflexivity. Qed.

Lemma beacon_events_in_order_witness :
  EventChan (ex_beacon ex_beacon_acts) = [FinalizedData "c1"] /\
  [BlockData "b1"] `prefix_of`
    omap (beacon_event ex_unmarshal ex_unmarshal ex_unmarshal) (decoded_events (stream_actions ex_beacon_acts)).
Proof.
  split; [by vm_compute|].
  apply (beacon_events_in_order ex_unmarshal ex_unmarshal ex_unmarshal 5 ex_beacon_acts (ex_beacon ex_beacon_acts)).
  vm_compute. reflexivity.
Defined.

Lemma beacon_never_crashes_witness : crashed (ex_beacon ex_beacon_acts) = None.
Proof.
  apply (beacon_never_crashes ex_unmarshal ex_unmarshal ex_unmarshal 5 ex_beacon_acts _ [BlockData "b1"]).
  vm_compute. reflexivity.
Defined.

(** The client closes the stream while an event is on the way. *)
Definition ex_hang_acts : list beacon_action :=
  ex_beacon_acts ++ (Inside <$> ex_offer 0 (ex_event "" "block" "b2" 0)) ++ [Close; SelectDone; CloseStream].

Definition ex_hang_stream : System := default ex_start (sys (ex_beacon ex_hang_acts)).

Lemma close_deadlock_witness :
  running (ex_beacon ex_hang_acts) = false /\
  ex_run [Inside (CloserTurn 0)] (ex_beacon ex_hang_acts) = None /\
  exists y', sys (ex_beacon (ex_hang_acts ++ [TakeEvent])) = Some y' /\
    readers y' !! 0%nat = Some (SendEvent 0 (ex_event "" "block" "b2" 0)) /\
    isClosed (stream y') = false /\ (forall j c, closers y' !! j = Some c -> c = CLock).
Proof.
  split; [by vm_compute|]. split; [by vm_compute|].
  apply (close_deadlock ex_unmarshal ex_unmarshal ex_unmarshal 5 ex_hang_acts (ex_beacon ex_hang_acts) [BlockData "b1"]
    ex_hang_stream 0 0 (ex_event "" "block" "b2" 0) [TakeEvent] _ [FinalizedData "c1"]); vm_compute; reflexivity.
Defined.

Lemma close_completes_witness :
  exists b' y', ex_run (CloseStream :: replicate 6 (Inside (CloserTurn 0)))
      (ex_beacon (ex_beacon_acts ++ [Close; SelectDone])) = Some (b', []) /\
    sys b' = Some y' /\ isClosed (stream y') = true /\ errorsClosed (stream y') = true /\
    eventsClosed (stream y') = true /\ closeMutex (stream y') = None /\ running b' = false.
Proof.
  apply (close_completes ex_unmarshal ex_unmarshal ex_unmarshal 5 (ex_beacon_acts ++ [Close; SelectDone])
    (ex_beacon (ex_beacon_acts ++ [Close; SelectDone])) [BlockData "b1"]
    (default ex_start (sys (ex_beacon (ex_beacon_acts ++ [Close; SelectDone]))))); vm_compute; reflexivity.
Defined.

(** Eleven events that nobody takes. *)
Definition ex_full_acts : list beacon_action :=
  take 6 ex_beacon_acts ++
  mjoin (replicate 10 ((Inside <$> ex_offer 0 (ex_event "" "block" "b1" 0)) ++
    [Receive (ReaderTurn 0 Received) 1; Push; Inside (ReaderTurn 0 Go)])) ++
  (Inside <$> ex_offer 0 (ex_event "" "block" "b1" 0)) ++ [Receive (ReaderTurn 0 Received) 1].

Lemma full_channel_ignores_close_witness :
  pc (ex_beacon (ex_full_acts ++ [Close])) = PushEvent (BlockData "b1") /\
  running (ex_beacon (ex_full_acts ++ [Close])) = true.
Proof.
  apply (full_channel_ignores_close ex_unmarshal ex_unmarshal ex_unmarshal [Close] (ex_beacon ex_full_acts)
    (ex_beacon (ex_full_acts ++ [Close])) (BlockData "b1") []); [vm_compute; reflexivity..|set_solver|vm_compute; reflexivity].
Defined.
