(* ===== verification/Startup.v ===== *)
(** * Start-up

    coordinator.go (Run, the garbage collection routine, the key self test),
    config.go, the opening of the database (db/common.go) and the routes of
    web/server.go: what a process does from its configuration to the execution
    loop, one stage after the other, and what requests find that arrive in
    between.  Opening a connection, listening on a port, migrating the schema,
    creating clients, reading files and decoding YAML are parameters. *)

From S2P Require Import Prelude Vars Db Scheduler Execution Tests Runner Registry Pool Clients.
From S2P Require Names Api.

#[local] Open Scope string_scope.
#[local] Open Scope list_scope.
Open Scope Z_scope.

(** ** Configuration *)

Record SqliteDatabaseConfig := mkSqlite { sq_File : string; sq_MaxOpenConns : Z; sq_MaxIdleConns : Z }.

Record PgsqlDatabaseConfig := mkPgsql {
  pg_Host : string; pg_Port : string; pg_Username : string; pg_Password : string; pg_Database : string;
  pg_MaxOpenConns : Z; pg_MaxIdleConns : Z }.

Record DatabaseConfig := mkDatabaseConfig {
  Engine : string; Sqlite : option SqliteDatabaseConfig; Pgsql : option PgsqlDatabaseConfig }.

(** The time limits of a server are passed on to net/http. *)
Record ServerConfig := mkServerConfig { Host : string; Port : string }.
Record FrontendConfig := mkFrontendConfig { Frontend_Enabled : bool; Frontend_Pprof : bool }.
Record APIConfig := mkAPIConfig { API_Enabled : bool }.
Record WebConfig := mkWebConfig {
  Server : option ServerConfig; PublicServer : option ServerConfig;
  Frontend : option FrontendConfig; API : option APIConfig }.

Record CoordinatorConfig := mkCoordinatorConfig { MaxConcurrentTests : Z; TestRetentionTime : Z }.

Section config.
Context `{raw : RawMessages}.

(** [Config]; pointers are options. *)
Record Config := mkConfig {
  cfg_Database : option DatabaseConfig;
  cfg_Endpoints : list ClientConfig;
  cfg_Web : option WebConfig;
  cfg_ValidatorNames : option Names.Config;
  cfg_GlobalVars : gmap string value;
  cfg_Coordinator : option CoordinatorConfig;
  cfg_Tests : list TestConfig;
  cfg_ExternalTests : list ExternalTestConfig
}.

Definition DefaultConfig : Config :=
  mkConfig None [mkClientConfig "local" "http://localhost:5052" "http://localhost:8545"] None None ∅
    (Some (mkCoordinatorConfig 0 0)) [] [].

(** [NewConfig]: the file is decoded over the defaults. *)
Definition NewConfig (ReadFile : string -> result string)
    (Unmarshal : string -> Config -> result Config) (path : string) : result Config :=
  if String.eqb path "" then Ok DefaultConfig
  else let! yamlFile := ReadFile path in Unmarshal yamlFile DefaultConfig.
End config.

(** ** The database *)

Inductive EngineType := EngineAny | EngineSqlite | EnginePgsql.

(** The connection limits that both engines compute: open and idle. *)
Definition conn_limits (open idle : Z) : Z * Z :=
  let open := if open =? 0 then 50 else open in
  let idle := if idle =? 0 then 10 else idle in
  (open, if open <? idle then open else idle).

Record connection := mkConnection { driver : string; source : string; limits : Z * Z }.

Definition nil_dereference : string := "invalid memory address or nil pointer dereference".

Section database.
(** [sqlx.Open]; the ping that follows ends the process when it fails. *)
Context (Open : string -> string -> option error).

Definition initSqlite (config : option SqliteDatabaseConfig) : go connection :=
  match config with
  | None => Panic nil_dereference
  | Some c =>
      let src := sq_File c +:+ "?_pragma=journal_mode(WAL)" in
      match Open "sqlite" src with
      | Some e => Fail ("error opening sqlite database: " +:+ e)
      | None => Ret (mkConnection "sqlite" src (conn_limits (sq_MaxOpenConns c) (sq_MaxIdleConns c)))
      end
  end.

Definition initPgsql (config : option PgsqlDatabaseConfig) : go connection :=
  match config with
  | None => Panic nil_dereference
  | Some c =>
      let src := "postgres://" +:+ pg_Username c +:+ ":" +:+ pg_Password c +:+ "@" +:+ pg_Host c +:+ ":" +:+
                 pg_Port c +:+ "/" +:+ pg_Database c +:+ "?sslmode=disable" in
      match Open "pgx" src with
      | Some e => Fail ("error getting pgsql writer database: " +:+ e)
      | None => Ret (mkConnection "pgx" src (conn_limits (pg_MaxOpenConns c) (pg_MaxIdleConns c)))
      end
  end.

Definition InitDB (config : DatabaseConfig) : go (EngineType * connection) :=
  if String.eqb (Engine config) "sqlite" then
    (do! c := initSqlite (Sqlite config) in Ret (EngineSqlite, c))%go
  else if String.eqb (Engine config) "pgsql" then
    (do! c := initPgsql (Pgsql config) in Ret (EnginePgsql, c))%go
  else Fail ("unknown database engine type: " +:+ Engine config).
End database.

Definition default_database : DatabaseConfig :=
  mkDatabaseConfig "sqlite" (Some (mkSqlite ":memory:?cache=shared" 0 0)) None.

(** ** The web servers *)

(** A route: its method (none: any) and its path; [Prefix] routes match every
    path that starts with it. *)
Inductive route := Route (method path : string) | Prefix (path : string).

#[export] Instance route_eq_dec : EqDecision route.
Proof. solve_decision. Defined.

Definition public_apis : list route :=
  [Route "GET" "/api/v1/tests"; Route "GET" "/api/v1/test/{testId}"; Route "GET" "/api/v1/test_runs";
   Route "GET" "/api/v1/test_run/{runId}"; Route "GET" "/api/v1/test_run/{runId}/status"].

Definition private_apis : list route :=
  [Route "POST" "/api/v1/tests/register"; Route "POST" "/api/v1/tests/register_external";
   Route "POST" "/api/v1/tests/delete"; Route "POST" "/api/v1/test_run"; Route "POST" "/api/v1/test_runs/schedule";
   Route "POST" "/api/v1/test_runs/delete"; Route "POST" "/api/v1/test_run/{runId}/cancel";
   Route "GET" "/api/v1/test_run/{runId}/details"; Route "GET" "/api/v1/test_run/{runId}/task/{taskIndex}/details";
   Route "GET" "/api/v1/test_run/{runId}/task/{taskId}/result/{resultType}/{fileId:.*}"].

Definition frontend_pages : list route :=
  [Route "GET" "/"; Route "GET" "/registry"; Route "GET" "/test/{testId}"; Route "GET" "/run/{runId}";
   Route "GET" "/clients"; Route "GET" "/logs/{since}"].

(** [ConfigureRoutes]: the routes in the order of their registration. *)
Definition ConfigureRoutes (frontendConfig : option FrontendConfig) (apiConfig : option APIConfig)
    (securityTrimmed : bool) : list route :=
  let isAPIEnabled := match apiConfig with Some c => API_Enabled c | None => false end in
  (if isAPIEnabled then public_apis ++ (if securityTrimmed then [] else private_apis) else []) ++
  match frontendConfig with
  | None => []
  | Some f =>
      (if securityTrimmed then [] else [Prefix "/debug/pprof/"]) ++
      (if Frontend_Enabled f
       then frontend_pages ++ (if isAPIEnabled then [Prefix "/api/docs/"] else []) ++ [Prefix "/"]
       else [])
  end.

Record WebServer := mkWebServer { Addr : string; routes : list route }.

(** [NewWebServer]: it serves from here on, without any route yet. *)
Definition NewWebServer (Listen : string -> option error) (config : ServerConfig) : result WebServer :=
  let host := if String.eqb (Host config) "" then "0.0.0.0" else Host config in
  let port := if String.eqb (Port config) "" then "8080" else Port config in
  match Listen (host +:+ ":" +:+ port) with
  | Some e => Err e
  | None => Ok (mkWebServer (host +:+ ":" +:+ port) [])
  end.

(** ** The stages of [Run] *)

(** The goroutines that [Run] starts, and the execution loop that it becomes. *)
Inductive routine :=
  | StartMetrics
  | RunTestScheduler
  | RunTestCleanup (retention : Z)
  | RunEpochGC
  | RunOffQueueTestExecutionLoop
  | RunTestExecutionLoop (limit : Z).

#[export] Instance routine_eq_dec : EqDecision routine.
Proof. solve_decision. Defined.

Section startup.
Context `{lib : Library} `{raw : RawMessages} `{!RegistrySources} {C1 C2 : Type}.

(** The outside world at start-up.  [env_GetLastRunID] is the error of the
    query for the last run id, [env_stored] what the query of the stored tests
    answers, [env_names_fuel] bounds the loop over a range of
    validators (Names.v). *)
Record Environment := mkEnvironment {
  env_Open : string -> string -> option error;
  env_ApplySchema : option error;
  env_GetLastRunID : option error;
  env_newCL : ClientConfig -> Z -> result C1;
  env_newEL : ClientConfig -> Z -> result C2;
  env_Listen : string -> option error;
  env_open_yaml : string -> result Names.inventory;
  env_get : string -> Names.http_answer;
  env_names_fuel : nat;
  env_stored : World -> option (list Db.TestConfig)
}.

(** The fields of the coordinator, the variables of [Run], the goroutines that
    were started and whether the deferred [CloseDB] ran.  [c_conn] is the local
    [database], [c_database] the field. *)
Record Coordinator := mkCoordinator {
  c_conn : option (EngineType * connection);
  c_database : bool;
  c_closed : bool;
  c_world : World;
  c_lastRunID : Z;
  c_clientPool : option (ClientPool C1 C2);
  c_globalVars : option Variables_ref;
  c_webserver : option WebServer;
  c_publicWebserver : option WebServer;
  c_validatorNames : option Names.ValidatorNames;
  c_registry : option TestRegistry;
  c_runner : option TestRunner;
  c_routines : list routine
}.

Definition NewCoordinator (w : World) : Coordinator :=
  mkCoordinator None false false w 0 None None None None None None None [].

Definition set_conn (x : EngineType * connection) (c : Coordinator) : Coordinator :=
  mkCoordinator (Some x) (c_database c) (c_closed c) (c_world c) (c_lastRunID c) (c_clientPool c) (c_globalVars c)
    (c_webserver c) (c_publicWebserver c) (c_validatorNames c) (c_registry c) (c_runner c) (c_routines c).
Definition set_database (b closed : bool) (c : Coordinator) : Coordinator :=
  mkCoordinator (c_conn c) b closed (c_world c) (c_lastRunID c) (c_clientPool c) (c_globalVars c)
    (c_webserver c) (c_publicWebserver c) (c_validatorNames c) (c_registry c) (c_runner c) (c_routines c).
Definition set_state (w : World) (last : Z) (c : Coordinator) : Coordinator :=
  mkCoordinator (c_conn c) (c_database c) (c_closed c) w last (c_clientPool c) (c_globalVars c)
    (c_webserver c) (c_publicWebserver c) (c_validatorNames c) (c_registry c) (c_runner c) (c_routines c).
Definition set_pool (p : ClientPool C1 C2) (c : Coordinator) : Coordinator :=
  mkCoordinator (c_conn c) (c_database c) (c_closed c) (c_world c) (c_lastRunID c) (Some p) (c_globalVars c)
    (c_webserver c) (c_publicWebserver c) (c_validatorNames c) (c_registry c) (c_runner c) (c_routines c).
Definition set_globals (v : Variables_ref) (c : Coordinator) : Coordinator :=
  mkCoordinator (c_conn c) (c_database c) (c_closed c) (c_world c) (c_lastRunID c) (c_clientPool c) (Some v)
    (c_webserver c) (c_publicWebserver c) (c_validatorNames c) (c_registry c) (c_runner c) (c_routines c).
Definition set_web (public : bool) (s : WebServer) (c : Coordinator) : Coordinator :=
  mkCoordinator (c_conn c) (c_database c) (c_closed c) (c_world c) (c_lastRunID c) (c_clientPool c) (c_globalVars c)
    (if public then c_webserver c else Some s) (if public then Some s else c_publicWebserver c)
    (c_validatorNames c) (c_registry c) (c_runner c) (c_routines c).
Definition set_names (vn : Names.ValidatorNames) (c : Coordinator) : Coordinator :=
  mkCoordinator (c_conn c) (c_database c) (c_closed c) (c_world c) (c_lastRunID c) (c_clientPool c) (c_globalVars c)
    (c_webserver c) (c_publicWebserver c) (Some vn) (c_registry c) (c_runner c) (c_routines c).
Definition set_registry (g : TestRegistry) (c : Coordinator) : Coordinator :=
  mkCoordinator (c_conn c) (c_database c) (c_closed c) (c_world c) (c_lastRunID c) (c_clientPool c) (c_globalVars c)
    (c_webserver c) (c_publicWebserver c) (c_validatorNames c) (Some g) (c_runner c) (c_routines c).
Definition set_runner (r : TestRunner) (c : Coordinator) : Coordinator :=
  mkCoordinator (c_conn c) (c_database c) (c_closed c) (c_world c) (c_lastRunID c) (c_clientPool c) (c_globalVars c)
    (c_webserver c) (c_publicWebserver c) (c_validatorNames c) (c_registry c) (Some r) (c_routines c).
Definition start (g : routine) (c : Coordinator) : Coordinator :=
  mkCoordinator (c_conn c) (c_database c) (c_closed c) (c_world c) (c_lastRunID c) (c_clientPool c) (c_globalVars c)
    (c_webserver c) (c_publicWebserver c) (c_validatorNames c) (c_registry c) (c_runner c) (c_routines c ++ [g]).

(** What a stage does: go on, return an error, panic, or not come back. *)
Inductive stage_result :=
  | Next (c : Coordinator)
  | Return (err : error)
  | Crash (what : string)
  | Blocks.

Section stages.
Variables (cfg : Config) (env : Environment).

Definition stage_InitDB (c : Coordinator) : stage_result :=
  match InitDB (env_Open env) (default default_database (cfg_Database cfg)) with
  | Ret x => Next (set_conn x c)
  | Fail e => Return e
  | Panic m => Crash m
  end.

Definition stage_ApplySchema (c : Coordinator) : stage_result :=
  match env_ApplySchema env with Some e => Return e | None => Next (set_database true false c) end.

(** The last run id is read before the runs left over are cleaned up. *)
Definition stage_load_state (c : Coordinator) : stage_result :=
  let last := lastTestRunID (env_GetLastRunID env) (w_db (c_world c)) in
  match run_tx CleanupUncleanTestRuns (c_world c) with
  | (_, Some e) => Return e
  | (w, None) => Next (set_state w last c)
  end.

Definition stage_NewClientPool (c : Coordinator) : stage_result :=
  match NewClientPool with Err e => Return e | Ok p => Next (set_pool p c) end.

Fixpoint add_clients (configs : list ClientConfig) (p : ClientPool C1 C2) : ClientPool C1 C2 * option error :=
  match configs with
  | [] => (p, None)
  | config :: configs =>
      match AddClient (env_newCL env) (env_newEL env) config p with
      | (p, Some e) => (p, Some e)
      | (p, None) => add_clients configs p
      end
  end.

Definition stage_AddClients (c : Coordinator) : stage_result :=
  match c_clientPool c with
  | None => Crash nil_dereference
  | Some p =>
      match add_clients (cfg_Endpoints cfg) p with
      | (_, Some e) => Return e
      | (p, None) => Next (set_pool p c)
      end
  end.

Definition stage_globals (c : Coordinator) : stage_result :=
  let w := c_world c in
  let '(h, v) := NewVariables None (w_scopes w) in
  Next (set_globals v (set_state (set_w_scopes (set_vars v (cfg_GlobalVars cfg) h) w) (c_lastRunID c) c)).

(** [NewWebServer] of one of the two servers, if it is configured. *)
Definition stage_NewWebServer (public : bool) (c : Coordinator) : stage_result :=
  match cfg_Web cfg ≫= (if public then PublicServer else Server) with
  | None => Next c
  | Some config =>
      match NewWebServer (env_Listen env) config with
      | Err e => Return e
      | Ok s => Next (set_web public s c)
      end
  end.

(** [ConfigureRoutes] of that server: the public one gets no API and is
    trimmed. *)
Definition stage_ConfigureRoutes (public : bool) (c : Coordinator) : stage_result :=
  match cfg_Web cfg, (if public then c_publicWebserver c else c_webserver c) with
  | Some web, Some s =>
      Next (set_web public (mkWebServer (Addr s)
        (ConfigureRoutes (Frontend web) (if public then None else API web) public)) c)
  | _, _ => Next c
  end.

Definition stage_start (g : routine) (c : Coordinator) : stage_result := Next (start g c).

Definition stage_names (c : Coordinator) : stage_result :=
  match Names.LoadValidatorNames (env_open_yaml env) (env_get env) (env_names_fuel env)
          (Names.NewValidatorNames (cfg_ValidatorNames cfg)) with
  | None => Blocks
  | Some vn => Next (set_names vn c)
  end.

Definition stage_LoadTests (c : Coordinator) : stage_result :=
  match c_globalVars c with
  | None => Crash nil_dereference
  | Some g =>
      let '(registry, w, _) :=
        LoadTests (env_stored env (c_world c)) (cfg_Tests cfg) (cfg_ExternalTests cfg) (NewTestRegistry g) (c_world c) in
      Next (set_registry registry (set_state w (c_lastRunID c) c))
  end.

Definition stage_NewTestRunner (c : Coordinator) : stage_result :=
  Next (set_runner (NewTestRunner (c_lastRunID c) (c_world c)) c).

(** [go c.runner.RunTestCleanup(ctx, c.Config.Coordinator.TestRetentionTime.Duration)]:
    the arguments are evaluated by [Run]. *)
Definition stage_cleanup (c : Coordinator) : stage_result :=
  match cfg_Coordinator cfg with
  | None => Crash nil_dereference
  | Some cc => Next (start (RunTestCleanup (TestRetentionTime cc)) c)
  end.

Definition stage_loop (c : Coordinator) : stage_result :=
  match cfg_Coordinator cfg with
  | None => Crash nil_dereference
  | Some cc => Next (start (RunTestExecutionLoop (MaxConcurrentTests cc)) c)
  end.

(** The stages up to the servers, those that load names and tests, and those
    from the runner on. *)
Definition setup_stages : list (Coordinator -> stage_result) :=
  [stage_InitDB; stage_ApplySchema; stage_load_state; stage_NewClientPool; stage_AddClients; stage_globals;
   stage_NewWebServer false; stage_ConfigureRoutes false; stage_NewWebServer true; stage_ConfigureRoutes true].
Definition load_stages : list (Coordinator -> stage_result) := [stage_names; stage_LoadTests].
Definition late_stages : list (Coordinator -> stage_result) :=
  [stage_NewTestRunner; stage_start RunTestScheduler; stage_cleanup; stage_start RunEpochGC;
   stage_start RunOffQueueTestExecutionLoop; stage_loop].

(** How [Run] goes: it has become the execution loop, it returns an error, it
    has recovered from a panic and returns nil, or it hangs. *)
Inductive ended :=
  | Looping
  | ReturnsErr (err : error)
  | Recovered (what : string)
  | Hangs.

(** The states between the stages, the last one, and how it ended. *)
Fixpoint run_stages (l : list (Coordinator -> stage_result)) (c : Coordinator)
    : list Coordinator * Coordinator * ended :=
  match l with
  | [] => ([], c, Looping)
  | st :: l =>
      match st c with
      | Next c' => let '(h, c'', e) := run_stages l c' in (c :: h, c'', e)
      | Return err => ([c], c, ReturnsErr err)
      | Crash m => ([c], c, Recovered m)
      | Blocks => ([c], c, Hangs)
      end
  end.

(** The deferred calls: the database is closed once the field is set. *)
Definition deferred (e : ended) (c : Coordinator) : Coordinator :=
  match e with
  | ReturnsErr _ | Recovered _ => set_database (c_database c) (c_database c) c
  | _ => c
  end.

(** [Run] *)
Definition Run (w : World) : list Coordinator * Coordinator * ended :=
  let '(h, c, e) := run_stages (setup_stages ++ [stage_start StartMetrics] ++ load_stages ++ late_stages) (NewCoordinator w) in
  (h, deferred e c, e).

(** The error that [Run] returns, if it has returned; the loop returns nil when
    its context is done. *)
Definition Run_result (e : ended) : option (option error) :=
  match e with
  | ReturnsErr err => Some (Some err)
  | Recovered _ => Some None
  | Looping | Hangs => None
  end.
End stages.

(** ** What a start-up leads to *)

Lemma run_stages_app l1 l2 c :
  run_stages (l1 ++ l2) c =
  match run_stages l1 c with
  | (h1, c1, Looping) => let '(h2, c2, e) := run_stages l2 c1 in (h1 ++ h2, c2, e)
  | r => r
  end.
Proof.
  revert c. induction l1 as [|st l1 IH]; intros c; simpl.
  - by destruct (run_stages l2 c) as [[h2 c2] e].
  - destruct (st c) as [c'| | |]; [|done..]. rewrite IH. destruct (run_stages l1 c') as [[h1 c1] []]; try done.
    by destruct (run_stages l2 c1) as [[h2 c2] e].
Qed.

Lemma run_stages_app_inv l1 l2 c h c2 :
  run_stages (l1 ++ l2) c = (h, c2, Looping) ->
  exists h1 c1 h2, run_stages l1 c = (h1, c1, Looping) /\ run_stages l2 c1 = (h2, c2, Looping) /\ h = h1 ++ h2.
Proof.
  rewrite run_stages_app. destruct (run_stages l1 c) as [[h1 c1] e]. destruct e; try done.
  destruct (run_stages l2 c1) as [[h2 c2'] e] eqn:E. intros [= <- <- ->]. eauto 10.
Qed.

Lemma run_stages_cons st l c h c'' :
  run_stages (st :: l) c = (h, c'', Looping) ->
  exists c' h', st c = Next c' /\ run_stages l c' = (h', c'', Looping) /\ h = c :: h'.
Proof.
  simpl. destruct (st c) as [c'| | |]; [|done..].
  destruct (run_stages l c') as [[h' c1] e] eqn:E. intros [= <- <- ->]. eauto.
Qed.

(** A stage that keeps [P]; stages that keep it one after the other do. *)
Definition keeps (P : Coordinator -> Prop) (st : Coordinator -> stage_result) : Prop :=
  forall c c', P c -> st c = Next c' -> P c'.

Lemma run_stages_keeps P l c h c' e :
  Forall (keeps P) l -> P c -> run_stages l c = (h, c', e) -> P c' /\ Forall P h.
Proof.
  intros Hl. revert c h. induction Hl as [|st l Hst Hl IH]; intros c h Hc Hr; simpl in Hr; [by simplify_eq|].
  destruct (st c) as [c1| | |] eqn:E; simplify_eq; [|by repeat constructor..].
  destruct (run_stages l c1) as [[h1 c2] e1] eqn:Er. simplify_eq.
  destruct (IH c1 h1 (Hst _ _ Hc E) Er). split; [done|by constructor].
Qed.

(** Before the runner is created: there is none, and the only goroutine is that
    of the metrics. *)
Definition no_runner (c : Coordinator) : Prop :=
  c_runner c = None /\ c_closed c = false /\ Forall (eq StartMetrics) (c_routines c).

Ltac stage_cases H :=
  repeat match type of H with
  | Next _ = Next _ => injection H as <-
  | Return _ = Next _ => discriminate H
  | Crash _ = Next _ => discriminate H
  | Blocks = Next _ => discriminate H
  | context [match ?x with _ => _ end] => destruct x
  end.

(** What the stages before the runner have in common: goroutines are left to
    the stages made for them. *)
Definition quiet (st : Coordinator -> stage_result) : Prop :=
  forall c c', st c = Next c' ->
  c_runner c' = c_runner c /\ c_routines c' = c_routines c /\ (c_closed c = false -> c_closed c' = false) /\
  (c_database c = true -> c_database c' = true).

Lemma early_quiet cfg env : Forall quiet (setup_stages cfg env ++ load_stages cfg env).
Proof.
  repeat apply Forall_cons_2; [..|constructor]; intros c c' Hst;
    unfold stage_InitDB, stage_ApplySchema, stage_load_state, stage_NewClientPool, stage_AddClients, stage_globals,
      stage_NewWebServer, stage_ConfigureRoutes, stage_names, stage_LoadTests in Hst.
  all: try (destruct (NewVariables _ _); by simplify_eq).
  all: try (destruct (LoadTests _ _ _ _ _) as [[? ?] ?] eqn:?; stage_cases Hst; done).
  all: stage_cases Hst; done.
Qed.

Lemma quiet_keeps st : quiet st -> keeps no_runner st.
Proof.
  intros Hq c c' (H1 & H2 & H3) Hs. destruct (Hq c c' Hs) as (E1 & E2 & E3 & _).
  split; [congruence|]. split; [by apply E3|]. by rewrite E2.
Qed.

Lemma early_keeps_no_runner cfg env :
  Forall (keeps no_runner) (setup_stages cfg env ++ [stage_start StartMetrics] ++ load_stages cfg env).
Proof.
  pose proof (early_quiet cfg env) as [Ha Hb]%Forall_app. rewrite !Forall_app. split; [|split].
  - eapply Forall_impl; [exact Ha|apply quiet_keeps].
  - constructor; [|constructor]. intros c c' (H1 & H2 & H3) [= <-]. split; [done|]. split; [done|].
    simpl. apply Forall_app. split; [done|]. by repeat constructor.
  - eapply Forall_impl; [exact Hb|apply quiet_keeps].
Qed.

Lemma NewCoordinator_no_runner w : no_runner (NewCoordinator w).
Proof. split; [done|]. split; [done|constructor]. Qed.

(** After the first three stages the last run id is that of the database as it
    was found; the other stages before the runner keep it, and the database. *)
Definition state_loaded (last : Z) (c : Coordinator) : Prop := c_lastRunID c = last /\ c_database c = true.

Lemma loaded_keeps last cfg env :
  Forall (keeps (state_loaded last)) (drop 3 (setup_stages cfg env) ++ [stage_start StartMetrics] ++ load_stages cfg env).
Proof.
  unfold setup_stages, load_stages. cbn [drop app].
  repeat apply Forall_cons_2; [..|constructor]; intros c c' [H1 H2] Hst;
    unfold stage_NewClientPool, stage_AddClients, stage_globals,
      stage_NewWebServer, stage_ConfigureRoutes, stage_names, stage_LoadTests, stage_start in Hst.
  all: try (destruct (NewVariables _ _); by simplify_eq).
  all: try (destruct (LoadTests _ _ _ _ _) as [[? ?] ?] eqn:?; stage_cases Hst; done).
  all: stage_cases Hst; done.
Qed.

Lemma database_stages cfg env w c1 c2 c3 :
  stage_InitDB cfg env (NewCoordinator w) = Next c1 -> stage_ApplySchema env c1 = Next c2 ->
  stage_load_state env c2 = Next c3 -> state_loaded (lastTestRunID (env_GetLastRunID env) (w_db w)) c3.
Proof.
  unfold stage_InitDB, stage_ApplySchema, stage_load_state. intros H1 H2 H3.
  destruct (InitDB _ _); [|done..]. injection H1 as <-. destruct (env_ApplySchema env); [done|]. injection H2 as <-.
  destruct (run_tx _ _) as [w' [e|]]; [done|]. by injection H3 as <-.
Qed.

Lemma load_stages_ok cfg env c h c' :
  run_stages (load_stages cfg env) c = (h, c', Looping) ->
  is_Some (c_validatorNames c') /\ is_Some (c_registry c') /\ c_routines c' = c_routines c.
Proof.
  intros (c1 & h1 & H1 & (c2 & h2 & H2 & H3 & _)%run_stages_cons & _)%run_stages_cons.
  simpl in H3. injection H3 as _ <-. unfold stage_names in H1. unfold stage_LoadTests in H2.
  destruct (Names.LoadValidatorNames _ _ _ _); [|done]. injection H1 as <-.
  destruct (c_globalVars _); [|done]. destruct (LoadTests _ _ _ _ _) as [[g w] x] eqn:E.
  injection H2 as <-. by simpl.
Qed.

Lemma late_stages_ok cfg c :
  run_stages (late_stages cfg) c =
  let c1 := start RunTestScheduler (set_runner (NewTestRunner (c_lastRunID c) (c_world c)) c) in
  match cfg_Coordinator cfg with
  | None => ([c; set_runner (NewTestRunner (c_lastRunID c) (c_world c)) c; c1], c1, Recovered nil_dereference)
  | Some cc =>
      let c2 := start (RunTestCleanup (TestRetentionTime cc)) c1 in
      let c3 := start RunEpochGC c2 in
      let c4 := start RunOffQueueTestExecutionLoop c3 in
      ([c; set_runner (NewTestRunner (c_lastRunID c) (c_world c)) c; c1; c2; c3; c4],
       start (RunTestExecutionLoop (MaxConcurrentTests cc)) c4, Looping)
  end.
Proof.
  unfold late_stages. cbn [run_stages]. unfold stage_NewTestRunner, stage_start, stage_cleanup, stage_loop.
  by destruct (cfg_Coordinator cfg).
Qed.

(** Everything before the runner, in a start-up that gets that far. *)
Definition before_runner cfg env : list (Coordinator -> stage_result) :=
  setup_stages cfg env ++ [stage_start StartMetrics] ++ load_stages cfg env.

Lemma before_runner_ok cfg env w h c :
  run_stages (before_runner cfg env) (NewCoordinator w) = (h, c, Looping) ->
  no_runner c /\ Forall no_runner h /\ state_loaded (lastTestRunID (env_GetLastRunID env) (w_db w)) c /\
  c_routines c = [StartMetrics] /\ is_Some (c_validatorNames c) /\ is_Some (c_registry c).
Proof.
  intros Hr. destruct (run_stages_keeps _ _ _ _ _ _ (early_keeps_no_runner cfg env) (NewCoordinator_no_runner w) Hr)
    as [Hn Hh]. split; [done|]. split; [done|]. split.
  - change (before_runner cfg env) with
      (stage_InitDB cfg env :: stage_ApplySchema env :: stage_load_state env ::
       (drop 3 (setup_stages cfg env) ++ [stage_start StartMetrics] ++ load_stages cfg env)) in Hr.
    apply run_stages_cons in Hr as (c1 & ? & H1 & Hr & _). apply run_stages_cons in Hr as (c2 & ? & H2 & Hr & _).
    apply run_stages_cons in Hr as (c3 & ? & H3 & Hr & _).
    eapply run_stages_keeps; [apply loaded_keeps|by eapply database_stages|exact Hr].
  - unfold before_runner in Hr. apply run_stages_app_inv in Hr as (h1 & c1 & h2 & Hr1 & Hr & _).
    apply run_stages_cons in Hr as (c2 & h3 & [= <-] & Hr & _). destruct (load_stages_ok _ _ _ _ _ Hr) as (H1 & H2 & H3).
    assert (c_routines c1 = []) as E.
    { pose proof (early_quiet cfg env) as [Ha _]%Forall_app.
      eapply (run_stages_keeps (fun c => c_routines c = []) _ (NewCoordinator w)); [|reflexivity|exact Hr1].
      eapply Forall_impl; [exact Ha|]. intros st Hq d d' Hd Hs. destruct (Hq _ _ Hs) as (_ & -> & _). done. }
    rewrite H3. simpl. by rewrite E.
Qed.

Lemma Run_unfold cfg env w :
  Run cfg env w =
  match run_stages (before_runner cfg env) (NewCoordinator w) with
  | (h, c, Looping) =>
      let '(h', c', e) := run_stages (late_stages cfg) c in (h ++ h', deferred e c', e)
  | (h, c, e) => (h, deferred e c, e)
  end.
Proof.
  unfold Run, before_runner. rewrite !app_assoc, run_stages_app.
  destruct (run_stages _ (NewCoordinator w)) as [[h c] []]; [|done..].
  by destruct (run_stages (late_stages cfg) c) as [[h' c'] e].
Qed.

(** A start-up that succeeds has gone through all stages: it has loaded the
    tests, created the runner with the last run id of the database as it was
    found, and started all goroutines in this order. *)
Theorem successful_start cfg env w h c :
  Run cfg env w = (h, c, Looping) ->
  exists cc, cfg_Coordinator cfg = Some cc /\
  c_routines c = [StartMetrics; RunTestScheduler; RunTestCleanup (TestRetentionTime cc); RunEpochGC;
                  RunOffQueueTestExecutionLoop; RunTestExecutionLoop (MaxConcurrentTests cc)] /\
  c_runner c = Some (NewTestRunner (lastTestRunID (env_GetLastRunID env) (w_db w)) (c_world c)) /\
  is_Some (c_registry c) /\ is_Some (c_validatorNames c) /\ c_database c = true /\ c_closed c = false.
Proof.
  rewrite Run_unfold. destruct (run_stages (before_runner cfg env) _) as [[h1 c1] e1] eqn:Hb.
  destruct e1; try done. destruct (before_runner_ok _ _ _ _ _ Hb) as ((_ & Hcl & _) & _ & [El Ed] & Er & Hn & Hg).
  rewrite late_stages_ok. destruct (cfg_Coordinator cfg) as [cc|]; [|done]. intros [= <- <-].
  exists cc. simpl. by rewrite Er, El.
Qed.

(** A start-up that returns an error has started no test, and it has closed the
    database if it had opened it up to its schema. *)
Theorem failed_start cfg env w h c err :
  Run cfg env w = (h, c, ReturnsErr err) ->
  c_runner c = None /\ Forall (eq StartMetrics) (c_routines c) /\ c_closed c = c_database c.
Proof.
  rewrite Run_unfold. destruct (run_stages (before_runner cfg env) _) as [[h1 c1] e1] eqn:Hb.
  destruct (run_stages_keeps _ _ _ _ _ _ (early_keeps_no_runner cfg env) (NewCoordinator_no_runner w) Hb)
    as [(Hn & _ & Hr) _].
  destruct e1; try done; [|by intros [= <- <- <-]].
  rewrite late_stages_ok. by destruct (cfg_Coordinator cfg).
Qed.

Definition with_coordinator (cc : option CoordinatorConfig) (cfg : Config) : Config :=
  mkConfig (cfg_Database cfg) (cfg_Endpoints cfg) (cfg_Web cfg) (cfg_ValidatorNames cfg) (cfg_GlobalVars cfg) cc
    (cfg_Tests cfg) (cfg_ExternalTests cfg).

(** Without the coordinator section ([coordinator:] with nothing below it) a
    start-up that would succeed panics instead, after the test scheduler was
    started; [Run] recovers, closes the database under the scheduler and
    returns no error. *)
Theorem missing_coordinator_section cfg env w h c cc :
  Run (with_coordinator (Some cc) cfg) env w = (h, c, Looping) ->
  exists h' c', Run (with_coordinator None cfg) env w = (h', c', Recovered nil_dereference) /\
    RunTestScheduler ∈ c_routines c' /\ is_Some (c_runner c') /\ c_closed c' = true /\
    Run_result (Recovered nil_dereference) = Some None.
Proof.
  rewrite !Run_unfold. change (before_runner (with_coordinator None cfg) env)
    with (before_runner (with_coordinator (Some cc) cfg) env).
  destruct (run_stages (before_runner _ env) _) as [[h1 c1] e1] eqn:Hb. destruct e1; try done.
  destruct (before_runner_ok _ _ _ _ _ Hb) as (_ & _ & [_ Ed] & Er & _). intros _.
  rewrite late_stages_ok. simpl. eexists _, _. split; [reflexivity|]. simpl. rewrite Er, Ed.
  split; [set_solver|]. split; [by eauto|]. done.
Qed.

(** ** Requests during the start-up *)

Context `{!SliceSort}.

(** [GET /api/v1/test_run/{runId}/status] and [GET /api/v1/tests] on the
    coordinator as it is: both dereference a field that [Run] sets late. *)
Definition request_status (runId : string) (c : Coordinator) : go (Api.Response string) :=
  match c_runner c with
  | Some r => Ret (Api.GetTestRunStatus runId r)
  | None =>
      match ParseUint runId with
      | None => Ret (Api.SendError "invalid runId provided" Api.StatusBadRequest)
      | Some _ => Panic nil_dereference
      end
  end.

Definition request_tests (c : Coordinator) : go (Api.Response (list Api.GetTestsResponse)) :=
  match c_registry c with
  | None => Panic nil_dereference
  | Some g => Ret (Api.SendOK (Api.test_entry <$> filterb Api.loaded (GetTestDescriptors g)))
  end.

Definition serves (r : route) (c : Coordinator) : Prop := exists s, c_webserver c = Some s /\ r ∈ routes s.

Lemma api_routes f api r :
  API_Enabled api = true -> r ∈ public_apis -> r ∈ ConfigureRoutes f (Some api) false.
Proof. intros Ha Hr. unfold ConfigureRoutes. rewrite Ha. apply elem_of_app. left. apply elem_of_app. by left. Qed.

(** The last stages keep the routes of the first server. *)
Lemma late_keeps_routes cfg env r :
  Forall (keeps (serves r)) (drop 8 (setup_stages cfg env) ++ [stage_start StartMetrics] ++ load_stages cfg env).
Proof.
  unfold setup_stages, load_stages. cbn [drop app].
  repeat apply Forall_cons_2; [..|constructor]; intros c c' Hs Hst;
    unfold stage_NewWebServer, stage_ConfigureRoutes, stage_names, stage_LoadTests, stage_start in Hst.
  all: try (destruct (LoadTests _ _ _ _ _) as [[? ?] ?] eqn:?; stage_cases Hst; done).
  all: stage_cases Hst; done.
Qed.

Lemma setup_keeps_registry cfg env : Forall (keeps (fun c => c_registry c = None)) (setup_stages cfg env).
Proof.
  unfold setup_stages. repeat apply Forall_cons_2; [..|constructor]; intros c c' Hn Hst;
    unfold stage_InitDB, stage_ApplySchema, stage_load_state, stage_NewClientPool, stage_AddClients, stage_globals,
      stage_NewWebServer, stage_ConfigureRoutes in Hst.
  all: try (destruct (NewVariables _ _); by simplify_eq).
  all: stage_cases Hst; done.
Qed.

(** The two stages of the first server. *)
Lemma server_stages cfg env web sc api r c1 c2 c3 :
  cfg_Web cfg = Some web -> Server web = Some sc -> API web = Some api -> API_Enabled api = true -> r ∈ public_apis ->
  stage_NewWebServer cfg env false c1 = Next c2 -> stage_ConfigureRoutes cfg false c2 = Next c3 -> serves r c3.
Proof.
  unfold stage_NewWebServer, stage_ConfigureRoutes. intros Hweb Hsrv Hapi Hen Hr H1 H2. rewrite Hweb in H1, H2.
  cbn [mbind option_bind] in H1. rewrite Hsrv in H1. destruct (NewWebServer _ _) as [s|]; [|done].
  injection H1 as <-. simpl in H2. injection H2 as <-. eexists. split; [reflexivity|]. simpl. rewrite Hapi.
  by apply api_routes.
Qed.

(** C11: Between the stages that configure the routes and the one that creates the
    runner, requests reach a server whose coordinator is not complete: while
    the validator names are loaded, the API dereferences nil. *)
Theorem requests_before_runner_panic cfg env w h c web sc api r :
  Run cfg env w = (h, c, Looping) ->
  cfg_Web cfg = Some web -> Server web = Some sc -> API web = Some api -> API_Enabled api = true ->
  r ∈ public_apis ->
  exists c1 c2, c1 ∈ h /\ stage_names cfg env c1 = Next c2 /\ serves r c1 /\
    (forall runId n, ParseUint runId = Some n -> request_status runId c1 = Panic nil_dereference) /\
    request_tests c1 = Panic nil_dereference.
Proof.
  intros Hrun Hweb Hsrv Hapi Hen Hr. unfold Run in Hrun.
  destruct (run_stages _ _) as [[h0 c'] e] eqn:Hs. injection Hrun as -> _ ->.
  apply run_stages_app_inv in Hs as (h1 & ca & h2 & Ha & Hs & ->).
  apply run_stages_cons in Hs as (cb & h3 & Hb & Hs & ->). pose proof Hb as [= <-].
  apply run_stages_cons in Hs as (cc & h4 & Hnames & _ & ->).
  pose proof (early_keeps_no_runner cfg env) as [Hk _]%Forall_app.
  destruct (run_stages_keeps _ _ _ _ _ _ Hk (NewCoordinator_no_runner w) Ha) as [(Hnr & _) _].
  destruct (run_stages_keeps _ _ (NewCoordinator w) _ _ _ (setup_keeps_registry cfg env) eq_refl Ha) as [Hng _].
  exists (start StartMetrics ca), cc. split; [apply elem_of_app; right; right; left|]. split; [done|]. split.
  - rewrite <- (take_drop 6 (setup_stages cfg env)) in Ha.
    apply run_stages_app_inv in Ha as (? & c6 & ? & _ & Ha & _). unfold setup_stages in Ha. cbn [drop] in Ha.
    apply run_stages_cons in Ha as (c7 & ? & H7 & Ha & _). apply run_stages_cons in Ha as (c8 & ? & H8 & Ha & _).
    pose proof (late_keeps_routes cfg env r) as [Hk8 _]%Forall_app.
    destruct (run_stages_keeps _ _ _ _ _ _ Hk8 (server_stages _ _ _ _ _ _ _ _ _ Hweb Hsrv Hapi Hen Hr H7 H8) Ha) as [Hsv _].
    exact Hsv.
  - unfold request_status, request_tests. simpl. rewrite Hnr, Hng. split; [|done]. intros runId n. by intros ->.
Qed.

(** ** Which routes are served *)

(** The public server only shows pages: no API, no profiling. *)
Theorem public_server_read_only f r :
  r ∈ ConfigureRoutes f None true -> r ∈ frontend_pages \/ r = Prefix "/".
Proof.
  unfold ConfigureRoutes. destruct f as [f|]; [|by intros ?%not_elem_of_nil].
  destruct (Frontend_Enabled f); [|by intros ?%not_elem_of_nil]. cbn [app].
  intros [Hr|Hr%list_elem_of_singleton]%elem_of_app; auto.
Qed.

(** The profiling handlers are served whenever there is a frontend section,
    even with [pprof: false] and the frontend disabled. *)
Theorem pprof_always_served enabled pprof api :
  Prefix "/debug/pprof/" ∈ ConfigureRoutes (Some (mkFrontendConfig enabled pprof)) api false.
Proof. unfold ConfigureRoutes. apply elem_of_app. right. cbn [app]. left. Qed.
End startup.

(** ** The garbage collection routine *)

(** [gcSlotDiff] and [gcSlotIndex]: the slot of an epoch before which the
    collection runs. *)
Definition gcSlotDiff (SlotsPerEpoch : Z) : Z := if SlotsPerEpoch / 2 <? 2 then 1 else 2.
Definition gcSlotIndex (SlotsPerEpoch : Z) : Z := SlotsPerEpoch -u gcSlotDiff SlotsPerEpoch -u 1.

(** One round of the loop: it waits for the genesis, or it runs the collection
    or not and waits for a slot. *)
Inductive gc_round :=
  | AwaitGenesis (sleepTime : Z)
  | AwaitSlot (collects : bool) (nextGcSlot : Z).

Definition divide_by_zero : string := "integer divide by zero".

Definition gc_turn (networkTime SecondsPerSlot SlotsPerEpoch : Z) : go gc_round :=
  if networkTime <? 0 then Ret (AwaitGenesis (Z.abs networkTime))
  else if SecondsPerSlot =? 0 then Panic divide_by_zero
  else
    let currentSlot := u64 (Z.quot networkTime SecondsPerSlot) in
    if SlotsPerEpoch =? 0 then Panic divide_by_zero
    else
      let currentSlotIndex := currentSlot mod SlotsPerEpoch in
      let gc := gcSlotIndex SlotsPerEpoch in
      Ret (if currentSlotIndex =? gc then AwaitSlot true (currentSlot +u SlotsPerEpoch)
           else if currentSlotIndex <? gc then AwaitSlot false (currentSlot +u (gc -u currentSlotIndex))
           else AwaitSlot false (currentSlot +u (SlotsPerEpoch -u currentSlotIndex) +u gc)).

(** The time since the genesis at which the wait for a slot ends. *)
Definition wake_time (SecondsPerSlot nextGcSlot : Z) : Z := i64 (i64 nextGcSlot * SecondsPerSlot).

Lemma gcSlotIndex_range S :
  2 <= S < two63 -> gcSlotIndex S = S - gcSlotDiff S - 1 /\ 0 <= gcSlotIndex S < S.
Proof. intros H. unfold gcSlotIndex, gcSlotDiff. destruct (S / 2 <? 2) eqn:E; unfold_ints; Z.div_mod_to_equations; lia. Qed.

(** In an epoch of at least two slots the routine collects in one slot, and
    from any other one it waits for the next slot of that kind, which comes
    before an epoch has passed. *)
Theorem gc_once_per_epoch slot S seconds :
  2 <= S -> 0 <= slot -> slot + 2 * S < two63 -> 0 < seconds -> slot * seconds < two63 ->
  exists next, gc_turn (slot * seconds) seconds S = Ret (AwaitSlot (slot mod S =? gcSlotIndex S) next) /\
    slot < next <= slot + S /\ next mod S = gcSlotIndex S /\
    (slot mod S = gcSlotIndex S -> next = slot + S).
Proof.
  intros HS Hslot Hmax Hsec Htime. destruct (gcSlotIndex_range S) as [_ Hg]; [unfold_ints; lia|].
  pose proof (Z.mod_pos_bound slot S ltac:(lia)) as Hidx. pose proof (Z.div_mod slot S ltac:(lia)) as Hdiv.
  unfold gc_turn. assert ((slot * seconds <? 0) = false) as -> by nia.
  assert ((seconds =? 0) = false) as -> by lia. assert ((S =? 0) = false) as -> by lia.
  rewrite Z.quot_mul by lia. rewrite (u64_id slot) by (unfold_ints; lia). cbv zeta.
  assert (Hnext : forall k, 0 <= k -> ((slot - slot mod S) + S * k + gcSlotIndex S) mod S = gcSlotIndex S).
  { intros k _. replace (slot - slot mod S + S * k + gcSlotIndex S) with (gcSlotIndex S + (slot / S + k) * S) by lia.
    rewrite Z.mod_add by lia. by apply Z.mod_small. }
  destruct (slot mod S =? gcSlotIndex S) eqn:E1; [|destruct (slot mod S <? gcSlotIndex S) eqn:E2]; eexists;
    (split; [reflexivity|]).
  - rewrite (u64_id (slot + S)) by (unfold_ints; lia). split; [lia|]. split; [|done].
    etransitivity; [|apply (Hnext 1); lia]. f_equal. lia.
  - rewrite (u64_id (gcSlotIndex S - slot mod S)), u64_id by (unfold_ints; lia). split; [lia|]. split; [|lia].
    etransitivity; [|apply (Hnext 0); lia]. f_equal. lia.
  - rewrite (u64_id (S - slot mod S)), (u64_id (slot + (S - slot mod S))), u64_id by (unfold_ints; lia).
    split; [lia|]. split; [|lia].
    etransitivity; [|apply (Hnext 1); lia]. f_equal. lia.
Qed.

(** With epochs of one slot the index wraps around: the routine never collects
    and waits for a slot in the past, that is, not at all. *)
Theorem gc_one_slot_busy slot seconds :
  0 <= slot < two63 -> 0 < seconds -> slot * seconds < two63 -> seconds < two63 ->
  exists next, gc_turn (slot * seconds) seconds 1 = Ret (AwaitSlot false next) /\
    wake_time seconds next = slot * seconds - seconds.
Proof.
  intros Hslot Hsec Htime Hs. unfold gc_turn. assert ((slot * seconds <? 0) = false) as -> by nia.
  assert ((seconds =? 0) = false) as -> by lia.
  rewrite Z.quot_mul by lia. rewrite (u64_id slot) by (unfold_ints; lia). cbv zeta. cbn [Z.eqb].
  rewrite Z.mod_1_r. change (gcSlotIndex 1) with MaxUint64. cbn [Z.eqb Z.ltb MaxUint64 Z.compare Z.sub].
  eexists. split; [reflexivity|]. unfold wake_time.
  assert (i64 (slot +u (MaxUint64 -u 0)) = slot - 1) as -> by go_lia.
  replace ((slot - 1) * seconds) with (slot * seconds - seconds) by lia. apply i64_id. unfold_ints. nia.
Qed.

(** ** The self test of the validator keys *)

Definition test_mnemonic : string :=
  "trigger mouse legal obey solve noble light employ shrug length kiwi make neutral friend divide like fortune outside trim install ocean gap token honey".

Definition test_pubkeys : list string :=
  ["0xb3c59dd04900cdcd10be94e31a9bf302ad9a323a1bb3fb710c44e7f5b7acd4ce35a590de88a640dce9b8dff3fc188a39";
   "0xa2caa2dc8b2295fe6ff78815cbe42a5103c668fb3a4e796a56d40145a192a2ce7e2be0d38cda931b6373e5c96d0f8a50";
   "0x8bfcfd33fda4385788b9c028f8025c35488b5187dfcd3901ac498a3ef0a6dbd0076e4d1f7b028c863e7e684713ff2521";
   "0x89e5207d07509abe027003c9adcc88649d072620e2583b212b2c1284d0a14aaf072b72e463997b39ca60bddeffa04896";
   "0x89d6cf68072d6a93aab7b4101d2c38cb514c2971460dd1430ae4a900969491b9927b5368d0c967bc0dc23b25798cde4c";
   "0x9861ce59afa1623bccee64b0caa6a195bb48ff60c932a0b355cc08f3ee6c3ab2a2dda4d7da04fe8c6ff07cfcf06c3081";
   "0xa9d49d74114bba6059528831ff053a9024e11f98a3eb3c5c73607ad78d7ca2d7379424a9ff0cc020523fdfed6cb3e6c3";
   "0x8f47915127f9b9692812f8bcd9b630b8766c9baac92540f222745fb2112e4c4ad5d72fd5462f5724a0faa550ba795f23";
   "0x97e8fafd9233f72a3da52805311bece0f405b64e80d0c831b5c8a2bb978b0a026f460e66789338a3e8057db6f5eece68";
   "0x8f0eb2ed68556fd0ee84c0b1fcf107617f88f4a9a390963b3b8a242a64ffcf481cd9424e74e6d2bb05caf40d3c16774f"].

Section self_test.
Context {Seed Key : Type} (IsMnemonicValid : string -> bool) (NewSeed : string -> string -> Seed)
  (PrivateKeyFromSeedAndPath : Seed -> string -> result Key)
  (** [fmt.Sprintf("0x%x", key.PublicKey().Marshal())] *)
  (pubkey_text : Key -> string).

Definition key_path (accountIdx : nat) : string :=
  "m/12381/3600/" +:+ pretty accountIdx +:+ "/0/0".

(** The loop over the accounts, from [idx] on. *)
Fixpoint check_keys (seed : Seed) (idx : nat) (expected : list string) : option error :=
  match expected with
  | [] => None
  | pubkey :: expected =>
      match PrivateKeyFromSeedAndPath seed (key_path idx) with
      | Err e => Some ("failed generating validator key " +:+ key_path idx +:+ ": " +:+ e)
      | Ok key =>
          if String.eqb (pubkey_text key) pubkey then check_keys seed (S idx) expected
          else Some ("validator pubkey " +:+ pretty idx +:+ " mismatch: " +:+ pubkey_text key +:+ " != " +:+ pubkey)
      end
  end.

Definition testBlsMath : option error :=
  if IsMnemonicValid test_mnemonic
  then check_keys (NewSeed test_mnemonic "") 0 test_pubkeys
  else Some "mnemonic is not valid".

Lemma check_keys_ok seed idx expected :
  check_keys seed idx expected = None <->
  forall i pubkey, expected !! i = Some pubkey ->
    exists key, PrivateKeyFromSeedAndPath seed (key_path (idx + i)) = Ok key /\ pubkey_text key = pubkey.
Proof.
  revert idx. induction expected as [|pubkey expected IH]; intros idx; simpl; [done|].
  destruct (PrivateKeyFromSeedAndPath seed (key_path idx)) as [key|e] eqn:E.
  2: { split; [done|]. intros H. destruct (H 0%nat pubkey eq_refl) as (key & Hk & _).
       rewrite Nat.add_0_r in Hk. congruence. }
  destruct (String.eqb_spec (pubkey_text key) pubkey) as [Heq|Hne].
  - rewrite IH. split; intros H i p Hi.
    + destruct i as [|i]; simpl in Hi; [simplify_eq; exists key; by rewrite Nat.add_0_r|].
      rewrite Nat.add_succ_r. apply (H i p Hi).
    + replace (S idx + i)%nat with (idx + S i)%nat by lia. by apply (H (S i)).
  - split; [done|]. intros H. destruct (H 0%nat pubkey eq_refl) as (key' & Hk & Hp).
    rewrite Nat.add_0_r in Hk. congruence.
Qed.

(** The self test passes exactly when the library accepts the mnemonic and
    derives all ten keys. *)
Theorem testBlsMath_spec :
  testBlsMath = None <->
  IsMnemonicValid test_mnemonic = true /\
  forall i pubkey, test_pubkeys !! i = Some pubkey ->
    exists key, PrivateKeyFromSeedAndPath (NewSeed test_mnemonic "") (key_path i) = Ok key /\ pubkey_text key = pubkey.
Proof.
  unfold testBlsMath. destruct (IsMnemonicValid test_mnemonic); [|by split; [|intros [? _]]].
  rewrite check_keys_ok. tauto.
Qed.
End self_test.

(** ** Examples *)

Section ex_startup.
#[local] Instance ex_startup_lib : Library := ex_lib 9.
#[local] Existing Instance ex_raw.
#[local] Existing Instance ex_sources.

Definition ex_env : Environment (C1 := unit) (C2 := unit) :=
  mkEnvironment (fun _ _ => None) None None (fun _ _ => Ok tt) (fun _ _ => Ok tt) (fun _ => None)
    (fun _ => Err "no such file") (fun _ => Names.Unreachable "no route") 10 (fun _ => Some []).

Definition ex_web : WebConfig :=
  mkWebConfig (Some (mkServerConfig "" "")) None (Some (mkFrontendConfig true false)) (Some (mkAPIConfig true)).

Definition ex_base : Config :=
  mkConfig None [mkClientConfig "local" "http://cl" "http://el"] (Some ex_web) None ∅ None [] [].

Definition ex_config : Config := with_coordinator (Some (mkCoordinatorConfig 2 0)) ex_base.

Definition ex_run := Run ex_config ex_env ex_world.

Lemma ex_run_loops : Run ex_config ex_env ex_world = (ex_run.1.1, ex_run.1.2, Looping).
Proof.
  assert (ex_run.2 = Looping) as <- by (vm_compute; reflexivity).
  unfold ex_run. by destruct (Run _ _ _) as [[h c] e].
Qed.

(** The port is taken. *)
Definition ex_env_busy : Environment (C1 := unit) (C2 := unit) :=
  mkEnvironment (fun _ _ => None) None None (fun _ _ => Ok tt) (fun _ _ => Ok tt)
    (fun addr => Some ("listen tcp " +:+ addr +:+ ": bind: address already in use"))
    (fun _ => Err "no such file") (fun _ => Names.Unreachable "no route") 10 (fun _ => Some []).

Lemma successful_start_witness :
  exists cc, cfg_Coordinator ex_config = Some cc /\
  c_routines ex_run.1.2 = [StartMetrics; RunTestScheduler; RunTestCleanup (TestRetentionTime cc); RunEpochGC;
                  RunOffQueueTestExecutionLoop; RunTestExecutionLoop (MaxConcurrentTests cc)] /\
  c_runner ex_run.1.2 = Some (NewTestRunner (lastTestRunID (env_GetLastRunID ex_env) (w_db ex_world)) (c_world ex_run.1.2)) /\
  is_Some (c_registry ex_run.1.2) /\ is_Some (c_validatorNames ex_run.1.2) /\
  c_database ex_run.1.2 = true /\ c_closed ex_run.1.2 = false.
Proof. apply (successful_start ex_config ex_env ex_world ex_run.1.1). exact ex_run_loops. Defined.

Lemma failed_start_witness :
  exists h c, Run ex_config ex_env_busy ex_world =
      (h, c, ReturnsErr "listen tcp 0.0.0.0:8080: bind: address already in use") /\
    c_runner c = None /\ Forall (eq StartMetrics) (c_routines c) /\ c_closed c = c_database c.
Proof.
  destruct (Run ex_config ex_env_busy ex_world) as [[h c] e] eqn:E. exists h, c.
  assert (e = ReturnsErr "listen tcp 0.0.0.0:8080: bind: address already in use") as ->.
  { apply (f_equal snd) in E. cbn [snd] in E. rewrite <- E. vm_compute. reflexivity. }
  split; [reflexivity|]. apply (failed_start _ _ _ _ _ _ E).
Defined.

Lemma missing_coordinator_section_witness :
  exists h' c', Run (with_coordinator None ex_base) ex_env ex_world = (h', c', Recovered nil_dereference) /\
    RunTestScheduler ∈ c_routines c' /\ is_Some (c_runner c') /\ c_closed c' = true /\
    Run_result (Recovered nil_dereference) = Some None.
Proof.
  apply (missing_coordinator_section ex_base ex_env ex_world ex_run.1.1 ex_run.1.2 (mkCoordinatorConfig 2 0)).
  exact ex_run_loops.
Defined.

Lemma requests_before_runner_panic_witness :
  exists c1 c2, c1 ∈ ex_run.1.1 /\ stage_names ex_config ex_env c1 = Next c2 /\
    serves (Route "GET" "/api/v1/test_run/{runId}/status") c1 /\
    (forall runId n, ParseUint runId = Some n -> request_status runId c1 = Panic nil_dereference) /\
    request_tests c1 = Panic nil_dereference.
Proof.
  apply (requests_before_runner_panic ex_config ex_env ex_world ex_run.1.1 ex_run.1.2 ex_web
    (mkServerConfig "" "") (mkAPIConfig true)); [exact ex_run_loops|reflexivity..|].
  unfold public_apis. rewrite !elem_of_cons. tauto.
Defined.
End ex_startup.

Lemma public_server_read_only_witness :
  Route "GET" "/clients" ∈ frontend_pages \/ Route "GET" "/clients" = Prefix "/".
Proof.
  apply (public_server_read_only (Some (mkFrontendConfig true false))).
  unfold ConfigureRoutes, frontend_pages. cbn. rewrite !elem_of_cons. tauto.
Defined.

Lemma gc_once_per_epoch_witness :
  exists next, gc_turn (70 * 12000000000) 12000000000 32 = Ret (AwaitSlot (70 mod 32 =? gcSlotIndex 32) next) /\
    70 < next <= 70 + 32 /\ next mod 32 = gcSlotIndex 32 /\ (70 mod 32 = gcSlotIndex 32 -> next = 70 + 32).
Proof. apply (gc_once_per_epoch 70 32 12000000000); unfold two63; lia. Defined.

Example ex_gc_slots : gc_turn (70 * 12000000000) 12000000000 32 = Ret (AwaitSlot false 93).
Proof. reflexivity. Qed.

Lemma gc_one_slot_busy_witness :
  exists next, gc_turn (70 * 12000000000) 12000000000 1 = Ret (AwaitSlot false next) /\
    wake_time 12000000000 next = 70 * 12000000000 - 12000000000.
Proof. apply (gc_one_slot_busy 70 12000000000); unfold two63; lia. Defined.
