(* ===== verification/Rpc.v ===== *)
(** * The RPC clients

    clients/consensus/rpc/beaconapi.go and clients/execution/rpc/executionapi.go:
    the calls that the client models are fed with.  The libraries that make the
    requests (go-eth2-client, go-ethereum, net/http) are parameters: a beacon
    service is the record of the interfaces it implements, an Ethereum client
    that of its answers.  The limit on concurrent requests is a channel of 50
    slots that the calls share. *)

From S2P Require Import Prelude.

#[local] Open Scope string_scope.
#[local] Open Scope list_scope.
Open Scope Z_scope.

(** ** JSON requests *)

(** What [client.Do] answers. *)
Inductive http_response :=
  | Unanswered (e : error)
  | Responded (StatusCode : Z) (body : string).

Section json.
Context {A : Type} (Decode : string -> result A) (Redacted : string -> string).

(** The part that both requests share once the answer is there. *)
Definition read_response (requrl : string) (answer : http_response) (decode : string -> result A) : result A :=
  match answer with
  | Unanswered e => Err e
  | Responded code body =>
      if code =? 200 then
        match decode body with
        | Err e => Err ("error parsing json response: " +:+ e)
        | Ok v => Ok v
        end
      else if code =? 404 then Err "not found"
      else Err ("url: " +:+ Redacted requrl +:+ ", error-response: " +:+ body)
  end.

(** [requestErr] is the error of building the request. *)
Definition getJSON (requrl : string) (requestErr : option error) (answer : http_response) : result A :=
  match requestErr with Some e => Err e | None => read_response requrl answer Decode end.
End json.

(** [postJSON] with [returnValue] nil, as both of its callers have it: the body
    is not read. *)
Definition postJSON (Redacted : string -> string) (postData : result string) (requrl : string)
    (requestErr : option error) (answer : http_response) : option error :=
  match postData with
  | Err e => Some ("error encoding json request: " +:+ e)
  | Ok _ =>
      match requestErr with
      | Some e => Some e
      | None =>
          match read_response Redacted requrl answer (fun _ => Ok tt) with
          | Ok _ => None
          | Err e => Some e
          end
      end
  end.

(** ** The beacon client *)

Section beacon.
Context {Genesis SyncState SpecMap Header Finality Block State Validators Duty Committee Fork : Type}.
Context {BLSChange Exit Slashing : Type}.

(** A service: [None] where it does not implement the interface.  Arguments
    are those that the calls vary. *)
Record Service := mkService {
  svc_Genesis : option (result Genesis);
  svc_NodeSyncing : option (result SyncState);
  svc_Spec : option (result SpecMap);
  svc_BeaconBlockHeader : option (string -> result Header);
  svc_Finality : option (string -> result Finality);
  svc_SignedBeaconBlock : option (string -> result Block);
  svc_BeaconState : option (string -> result State);
  svc_Validators : option (string -> result Validators);
  svc_ProposerDuties : option (Z -> result (list Duty));
  svc_BeaconCommittees : option (string -> Z -> result (list Committee));
  svc_Fork : option (string -> result Fork);
  svc_SubmitBLSChanges : option (list BLSChange -> option error);
  svc_SubmitVoluntaryExit : option (Exit -> option error)
}.

(** [clientSvc] is nil before [Initialize]. *)
Record BeaconClient := mkBeaconClient { bc_name : string; bc_endpoint : string; clientSvc : option Service }.

Definition NewBeaconClient (name url : string) : BeaconClient := mkBeaconClient name url None.

(** [Initialize]; [New] is [http.New]. *)
Definition Initialize (New : string -> result Service) (bc : BeaconClient) : BeaconClient * option error :=
  match clientSvc bc with
  | Some _ => (bc, None)
  | None =>
      match New (bc_endpoint bc) with
      | Err e => (bc, Some e)
      | Ok svc => (mkBeaconClient (bc_name bc) (bc_endpoint bc) (Some svc), None)
      end
  end.

(** [provider, isProvider := bc.clientSvc.(P)]; the assertion fails for nil. *)
Definition provider {P} (field : Service -> option P) (what : string) (bc : BeaconClient) : result P :=
  match clientSvc bc ≫= field with
  | None => Err (what +:+ " not supported")
  | Some p => Ok p
  end.

Definition GetGenesis (bc : BeaconClient) : result Genesis :=
  let! p := provider svc_Genesis "get genesis" bc in p.
Definition GetNodeSyncing (bc : BeaconClient) : result SyncState :=
  let! p := provider svc_NodeSyncing "get node syncing" bc in p.

(** [NewSyncStatus] is of syncstate.go. *)
Definition GetNodeSyncStatus {S} (NewSyncStatus : SyncState -> S) (bc : BeaconClient) : result S :=
  let! syncState := GetNodeSyncing bc in Ok (NewSyncStatus syncState).

Definition GetNodeVersion (Redacted : string -> string) (Decode : string -> result string)
    (requestErr : option error) (answer : http_response) (bc : BeaconClient) : result string :=
  match getJSON Decode Redacted (bc_endpoint bc +:+ "/eth/v1/node/version") requestErr answer with
  | Err e => Err ("error retrieving node version: " +:+ e)
  | Ok v => Ok v
  end.

Definition GetConfigSpecs (bc : BeaconClient) : result SpecMap :=
  let! p := provider svc_Spec "get specs" bc in p.

Definition get_header (ref : string) (bc : BeaconClient) : result Header :=
  let! p := provider svc_BeaconBlockHeader "get beacon block headers" bc in p ref.

Definition GetLatestBlockHead (bc : BeaconClient) : result Header := get_header "head" bc.
Definition GetBlockHeaderBySlot (slot : Z) (bc : BeaconClient) : result Header := get_header (pretty slot) bc.

(** [hex] formats a root with its prefix. *)
Definition GetBlockHeaderByBlockroot {Root} (hex : Root -> string) (blockroot : Root) (bc : BeaconClient) : result Header :=
  get_header (hex blockroot) bc.

Definition GetFinalityCheckpoints (bc : BeaconClient) : result Finality :=
  let! p := provider svc_Finality "get finality" bc in p "head".

Fixpoint has_prefix (p s : string) : bool :=
  match p, s with
  | EmptyString, _ => true
  | String a p, String b s => Ascii.eqb a b && has_prefix p s
  | String _ _, EmptyString => false
  end.

(** A block that the node does not have is neither a block nor an error. *)
Definition GetBlockBodyByBlockroot {Root} (hex : Root -> string) (blockroot : Root) (bc : BeaconClient)
    : result (option Block) :=
  let! p := provider svc_SignedBeaconBlock "get signed beacon block" bc in
  match p (hex blockroot) with
  | Ok block => Ok (Some block)
  | Err e => if has_prefix "GET failed with status 404" e then Ok None else Err e
  end.

Definition GetState (stateRef : string) (bc : BeaconClient) : result State :=
  let! p := provider svc_BeaconState "get beacon state" bc in p stateRef.
Definition GetStateValidators (stateRef : string) (bc : BeaconClient) : result Validators :=
  let! p := provider svc_Validators "get validators" bc in p stateRef.

(** The message is that of the committees. *)
Definition GetProposerDuties (epoch : Z) (bc : BeaconClient) : result (list Duty) :=
  let! p := provider svc_ProposerDuties "get beacon committees" bc in p epoch.
Definition GetCommitteeDuties (stateRef : string) (epoch : Z) (bc : BeaconClient) : result (list Committee) :=
  let! p := provider svc_BeaconCommittees "get beacon committees" bc in p stateRef epoch.
Definition GetForkState (stateRef : string) (bc : BeaconClient) : result Fork :=
  let! p := provider svc_Fork "get fork" bc in p stateRef.

Definition SubmitBLSToExecutionChanges (blsChanges : list BLSChange) (bc : BeaconClient) : option error :=
  match provider svc_SubmitBLSChanges "submit bls to execution changes" bc with
  | Err e => Some e
  | Ok submit => submit blsChanges
  end.
Definition SubmitVoluntaryExits (exit : Exit) (bc : BeaconClient) : option error :=
  match provider svc_SubmitVoluntaryExit "submit voluntary exit" bc with
  | Err e => Some e
  | Ok submit => submit exit
  end.

Definition SubmitAttesterSlashing (Redacted : string -> string) (Marshal : Slashing -> result string) (slashing : Slashing)
    (requestErr : option error) (answer : http_response) (bc : BeaconClient) : option error :=
  postJSON Redacted (Marshal slashing) (bc_endpoint bc +:+ "/eth/v1/beacon/pool/attester_slashings") requestErr answer.
Definition SubmitProposerSlashing (Redacted : string -> string) (Marshal : Slashing -> result string) (slashing : Slashing)
    (requestErr : option error) (answer : http_response) (bc : BeaconClient) : option error :=
  postJSON Redacted (Marshal slashing) (bc_endpoint bc +:+ "/eth/v1/beacon/pool/proposer_slashings") requestErr answer.

(** A client that was not initialized answers every call with an error. *)
Theorem uninitialized_beacon_client {Root} (hex : Root -> string) (root : Root) slot ref epoch changes exit bc :
  clientSvc bc = None ->
  is_ok (GetGenesis bc) = false /\ is_ok (GetNodeSyncing bc) = false /\ is_ok (GetConfigSpecs bc) = false /\
  is_ok (GetLatestBlockHead bc) = false /\ is_ok (GetFinalityCheckpoints bc) = false /\
  is_ok (GetBlockHeaderBySlot slot bc) = false /\ is_ok (GetBlockHeaderByBlockroot hex root bc) = false /\
  is_ok (GetBlockBodyByBlockroot hex root bc) = false /\ is_ok (GetState ref bc) = false /\
  is_ok (GetStateValidators ref bc) = false /\ is_ok (GetProposerDuties epoch bc) = false /\
  is_ok (GetCommitteeDuties ref epoch bc) = false /\ is_ok (GetForkState ref bc) = false /\
  is_Some (SubmitBLSToExecutionChanges changes bc) /\ is_Some (SubmitVoluntaryExits exit bc).
Proof.
  intros H. unfold GetGenesis, GetNodeSyncing, GetConfigSpecs, GetLatestBlockHead, GetFinalityCheckpoints,
    GetBlockHeaderBySlot, GetBlockHeaderByBlockroot, get_header, GetBlockBodyByBlockroot, GetState, GetStateValidators,
    GetProposerDuties, GetCommitteeDuties, GetForkState, SubmitBLSToExecutionChanges, SubmitVoluntaryExits, provider.
  rewrite H. simpl. repeat split; eauto.
Qed.

(** [Initialize] connects until it succeeds, and then never again. *)
Theorem Initialize_once New New' bc :
  let '(bc1, err) := Initialize New bc in
  (err = None -> is_Some (clientSvc bc1) /\ Initialize New' bc1 = (bc1, None)) /\
  (is_Some err -> bc1 = bc).
Proof.
  unfold Initialize. destruct (clientSvc bc) as [svc|] eqn:E.
  - rewrite E. split; [by eauto|by intros [? ?]].
  - destruct (New (bc_endpoint bc)) as [svc|e]; simpl; split; done.
Qed.

(** A block is reported absent exactly when the node answers 404; every other
    failure stays an error. *)
Theorem GetBlockBody_absent {Root} (hex : Root -> string) root bc svc fetch :
  clientSvc bc = Some svc -> svc_SignedBeaconBlock svc = Some fetch ->
  (forall block, fetch (hex root) = Ok block -> GetBlockBodyByBlockroot hex root bc = Ok (Some block)) /\
  (forall rest, fetch (hex root) = Err ("GET failed with status 404" +:+ rest) ->
     GetBlockBodyByBlockroot hex root bc = Ok None) /\
  (forall e, fetch (hex root) = Err e -> has_prefix "GET failed with status 404" e = false ->
     GetBlockBodyByBlockroot hex root bc = Err e).
Proof.
  intros Hc Hf. unfold GetBlockBodyByBlockroot, provider. rewrite Hc. cbn [mbind option_bind]. rewrite Hf.
  split; [by intros b ->|]. split; [by intros rest ->|]. by intros e -> ->.
Qed.
End beacon.

(** A slashing counts as submitted exactly when the node answers 200. *)
Theorem postJSON_accepted Redacted data requrl requestErr answer :
  postJSON Redacted data requrl requestErr answer = None <->
  is_ok data = true /\ requestErr = None /\ exists body, answer = Responded 200 body.
Proof.
  unfold postJSON, read_response. destruct data as [d|e]; [|by split; [|intros [? _]]].
  destruct requestErr as [e|]; [by split; [|intros (_ & ? & _)]|].
  destruct answer as [e|code body]; [by split; [|intros (_ & _ & ? & ?)]|].
  destruct (Z.eqb_spec code 200) as [->|Hne]; [by split; eauto|].
  destruct (code =? 404); (split; [done|]); intros (_ & _ & b & [= -> _]); done.
Qed.

(** ** The execution client *)

(** [concurrencyChan] holds one element per request that has a slot. *)
Definition concurrencyLimit : nat := 50.

(** A call of one of the limited requests: at the select of
    [enforceConcurrencyLimit], in the request with a slot or (when its context
    was done first) without, and after the deferred [closeFn]. *)
Inductive call := Entering | WithSlot | WithoutSlot | Returned.

#[export] Instance call_eq_dec : EqDecision call.
Proof. solve_decision. Defined.

Record ExecutionClient := mkExecutionClient { slots_used : nat; calls : list call }.

Definition NewExecutionClient : ExecutionClient := mkExecutionClient 0 [].

(** The cases of the select: it never yields a nil [closeFn]. *)
Inductive select_case := CtxDone | SlotFree.

Inductive call_step :=
  | Begin
  | Select (i : nat) (c : select_case)
  | End (i : nat).

(** One step; [None] when it has to wait. *)
Definition exec_step (a : call_step) (ec : ExecutionClient) : option ExecutionClient :=
  match a with
  | Begin => Some (mkExecutionClient (slots_used ec) (calls ec ++ [Entering]))
  | Select i c =>
      match calls ec !! i with
      | Some Entering =>
          match c with
          | CtxDone => Some (mkExecutionClient (slots_used ec) (<[i := WithoutSlot]> (calls ec)))
          | SlotFree =>
              if decide (slots_used ec < concurrencyLimit)%nat
              then Some (mkExecutionClient (S (slots_used ec)) (<[i := WithSlot]> (calls ec)))
              else None
          end
      | _ => None
      end
  | End i =>
      match calls ec !! i with
      | Some WithoutSlot => Some (mkExecutionClient (slots_used ec) (<[i := Returned]> (calls ec)))
      | Some WithSlot =>
          match slots_used ec with
          | O => None
          | S n => Some (mkExecutionClient n (<[i := Returned]> (calls ec)))
          end
      | _ => None
      end
  end.

Fixpoint exec_run (acts : list call_step) (ec : ExecutionClient) : option ExecutionClient :=
  match acts with [] => Some ec | a :: acts => ec' ← exec_step a ec; exec_run acts ec' end.

(** The calls that hold a slot. *)
Definition holds_slot (c : call) : bool := match c with WithSlot => true | _ => false end.
Definition holders (l : list call) : nat := length (filterb holds_slot l).

Definition b2n (b : bool) : nat := if b then 1%nat else 0%nat.

Lemma holders_app l1 l2 : holders (l1 ++ l2) = (holders l1 + holders l2)%nat.
Proof. unfold holders. by rewrite filterb_app, length_app. Qed.

Lemma holders_cons c l : holders (c :: l) = (b2n (holds_slot c) + holders l)%nat.
Proof. unfold holders. rewrite filterb_cons. by destruct (holds_slot c). Qed.

Lemma holders_insert l i c c' :
  l !! i = Some c -> (holders (<[i := c']> l) + b2n (holds_slot c) = holders l + b2n (holds_slot c'))%nat.
Proof.
  revert i. induction l as [|x l IH]; intros [|i] H; simpl in H; simplify_eq.
  - change (<[0%nat := c']> (c :: l)) with (c' :: l). rewrite !holders_cons. lia.
  - change (<[S i := c']> (x :: l)) with (x :: <[i := c']> l). rewrite !holders_cons. specialize (IH i H). lia.
Qed.

Definition slots_ok (ec : ExecutionClient) : Prop :=
  slots_used ec = holders (calls ec) /\ (slots_used ec <= concurrencyLimit)%nat.

Lemma exec_step_slots a ec ec' : slots_ok ec -> exec_step a ec = Some ec' -> slots_ok ec'.
Proof.
  intros [Hs Hl] H. destruct a as [|i c|i]; simpl in H.
  - injection H as <-. split; simpl; [|done]. rewrite holders_app. unfold holders at 2. simpl. lia.
  - destruct (calls ec !! i) as [[]|] eqn:Ei; try done. pose proof (holders_insert (calls ec) i Entering) as Hi.
    destruct c.
    + injection H as <-. specialize (Hi WithoutSlot Ei). simpl in Hi. split; simpl; lia.
    + case_decide; [|done]. injection H as <-. specialize (Hi WithSlot Ei). simpl in Hi. split; simpl; lia.
  - destruct (calls ec !! i) as [[]|] eqn:Ei; try done.
    + destruct (slots_used ec) as [|n] eqn:En; [done|]. injection H as <-.
      pose proof (holders_insert (calls ec) i WithSlot Returned Ei) as Hi. simpl in Hi. split; simpl; lia.
    + injection H as <-. pose proof (holders_insert (calls ec) i WithoutSlot Returned Ei) as Hi. simpl in Hi. split; simpl; lia.
Qed.

Lemma exec_run_slots acts ec ec' : slots_ok ec -> exec_run acts ec = Some ec' -> slots_ok ec'.
Proof.
  revert ec. induction acts as [|a acts IH]; intros ec Hok H; simpl in H; [by simplify_eq|].
  apply bind_Some in H as (ec1 & Hs & H). eapply IH; [|exact H]. by eapply exec_step_slots.
Qed.

(** In every interleaving of calls at most 50 requests with a live context run
    at once, a call that has its slot can always give it back, and one that
    waits can go on as soon as fewer than 50 hold a slot; "client busy" is
    never returned. *)
Theorem concurrency_limited acts ec :
  exec_run acts NewExecutionClient = Some ec ->
  (holders (calls ec) <= 50)%nat /\
  (forall i, calls ec !! i = Some WithSlot \/ calls ec !! i = Some WithoutSlot -> is_Some (exec_step (End i) ec)) /\
  (forall i, calls ec !! i = Some Entering -> (holders (calls ec) < 50)%nat -> is_Some (exec_step (Select i SlotFree) ec)).
Proof.
  intros Hr. destruct (exec_run_slots acts NewExecutionClient ec ltac:(split; simpl; [done|lia]) Hr) as [Hs Hl].
  rewrite <- Hs. split; [done|]. split.
  - intros i Hi. simpl. destruct (calls ec !! i) as [[]|] eqn:Ei; try (destruct Hi; done).
    destruct (slots_used ec) as [|n] eqn:En; [|by eauto].
    pose proof (holders_insert (calls ec) i WithSlot Returned Ei) as H. simpl in H. lia.
  - intros i Hi Hlt. simpl. rewrite Hi. unfold concurrencyLimit. rewrite decide_True by done. by eauto.
Qed.

(** *** Its calls *)

Section eth_calls.
Context {Receipt Block : Type}.

(** The answers of an Ethereum client; [None] for a nil pointer. *)
Record EthClient := mkEthClient {
  eth_ChainID : result Z;
  eth_SyncProgress : result (option (Z * Z * Z));
  eth_BlockByNumber : result Block
}.

Record SyncStatus := mkSyncStatus { IsSyncing : bool; CurrentBlock : Z; HighestBlock : Z; StartingBlock : Z }.

Definition deref_client (c : option EthClient) : go EthClient :=
  match c with None => Panic "invalid memory address or nil pointer dereference" | Some c => Ret c end.

(** [Dial] is [rpc.DialContext] with [ethclient.NewClient]. *)
Definition exec_Initialize (Dial : result EthClient) (c : option EthClient) : option EthClient * option error :=
  match c with
  | Some _ => (c, None)
  | None => match Dial with Err e => (None, Some e) | Ok c => (Some c, None) end
  end.

Definition GetChainSpec (c : option EthClient) : go string :=
  (do! c := deref_client c in do! chainID := of_result (eth_ChainID c) in Ret (pretty chainID))%go.

(** No progress means that the node is not syncing. *)
Definition exec_GetNodeSyncing (c : option EthClient) : go SyncStatus :=
  (do! c := deref_client c in
   do! status := of_result (eth_SyncProgress c) in
   Ret (match status with
        | None => mkSyncStatus false 0 0 0
        | Some (current, highest, starting) => mkSyncStatus true current highest starting
        end))%go.

Definition GetLatestBlock (c : option EthClient) : go Block :=
  (do! c := deref_client c in of_result (eth_BlockByNumber c))%go.

(** Before [Initialize] these calls panic; after it they give the node's
    answer. *)
Theorem exec_calls_need_Initialize Dial c :
  exec_Initialize Dial None = (c, None) ->
  (exists m, exec_GetNodeSyncing None = Panic m /\ GetChainSpec None = Panic m /\ GetLatestBlock None = Panic m) /\
  exists eth, Dial = Ok eth /\
    (forall s, exec_GetNodeSyncing c = Ret s -> (IsSyncing s = false <-> eth_SyncProgress eth = Ok None)) /\
    GetLatestBlock c = of_result (eth_BlockByNumber eth).
Proof.
  intros H. split; [by eexists|]. unfold exec_Initialize in H. destruct Dial as [eth|e]; [|done].
  injection H as <-. exists eth. split; [done|]. split; [|done]. intros s. unfold exec_GetNodeSyncing. simpl.
  destruct (eth_SyncProgress eth) as [[[[cur hi] st]|]|e]; simpl; intros [= <-]; simpl; split; done.
Qed.
End eth_calls.

(** ** Examples *)

Definition ex_service : Service (Genesis := Z) (SyncState := Z) (SpecMap := Z) (Header := Z) (Finality := Z)
    (Block := string) (State := Z) (Validators := Z) (Duty := Z) (Committee := Z) (Fork := Z) (BLSChange := Z) (Exit := Z) :=
  mkService (Some (Ok 1)) None None None None
    (Some (fun ref => if String.eqb ref "0x05" then Ok "block" else Err "GET failed with status 404: not found"))
    None None None None None None None.

Definition ex_new : BeaconClient (Genesis := Z) (SyncState := Z) (SpecMap := Z) (Header := Z) (Finality := Z)
    (Block := string) (State := Z) (Validators := Z) (Duty := Z) (Committee := Z) (Fork := Z) (BLSChange := Z) (Exit := Z) :=
  NewBeaconClient "cl" "http://cl".

Lemma uninitialized_beacon_client_witness : is_ok (GetGenesis ex_new) = false.
Proof.
  assert (H : clientSvc ex_new = None) by reflexivity.
  exact (proj1 (uninitialized_beacon_client (Root := unit) (fun _ => "0x07") tt 0 "head" 0 [] 0 ex_new H)).
Defined.

Lemma GetBlockBody_absent_witness :
  GetBlockBodyByBlockroot (fun _ : unit => "0x07") tt (mkBeaconClient "cl" "http://cl" (Some ex_service)) = Ok None.
Proof.
  destruct (GetBlockBody_absent (fun _ : unit => "0x07") tt (mkBeaconClient "cl" "http://cl" (Some ex_service)) ex_service
    (fun ref => if String.eqb ref "0x05" then Ok "block" else Err "GET failed with status 404: not found")
    eq_refl eq_refl) as (_ & H & _). apply (H ": not found"). reflexivity.
Defined.

(** One more call than there are slots, and one whose context is done. *)
Definition ex_calls : list call_step :=
  replicate 52 Begin ++ (fmap (fun i => Select i SlotFree) (seq 0 50)) ++ [Select 51 CtxDone].

Definition ex_client : ExecutionClient := default NewExecutionClient (exec_run ex_calls NewExecutionClient).

Lemma concurrency_limited_witness :
  exec_step (Select 50 SlotFree) ex_client = None /\ holders (calls ex_client) = 50%nat /\
  is_Some (exec_step (End 0) ex_client).
Proof.
  split; [by vm_compute|]. split; [by vm_compute|].
  assert (exec_run ex_calls NewExecutionClient = Some ex_client) as Hr by (vm_compute; reflexivity).
  pose proof (concurrency_limited ex_calls ex_client Hr) as (_ & H & _).
  apply (H 0%nat). left. vm_compute. reflexivity.
Defined.

Lemma exec_calls_need_Initialize_witness :
  exists m, GetLatestBlock (Block := Z) None = Panic m.
Proof.
  destruct (exec_calls_need_Initialize (Block := Z) (Ok (mkEthClient (Ok 1) (Ok None) (Ok 7))) _ eq_refl)
    as [(m & _ & _ & H) _]. exists m. exact H.
Defined.
