(* ===== verification/Balance.v ===== *)
(** * Readable balances

    [Wallet.GetReadableBalance] of wallet/wallet.go: a balance in base units as
    a decimal number of a larger unit, with the reader that the theorems invert
    it with.  Go's slices of a string panic outside its bounds. *)

From S2P Require Import Prelude.

#[local] Open Scope string_scope.
Open Scope Z_scope.

(** ** Strings of digits *)

(** [s[:n]] and [s[n:]] *)
Fixpoint str_take (n : nat) (s : string) : string :=
  match n, s with S n, String c s => String c (str_take n s) | _, _ => "" end.
Fixpoint str_drop (n : nat) (s : string) : string :=
  match n, s with S n, String c s => str_drop n s | _, _ => s end.

(** [strings.TrimRight(s, "0")] *)
Fixpoint trim_zeros (s : string) : string :=
  match s with
  | EmptyString => ""
  | String c s =>
      match trim_zeros s with
      | EmptyString => if Ascii.eqb c "0" then "" else String c ""
      | t => String c t
      end
  end.

(** [fmt.Sprintf("%0<n>d", 0)] for a positive [n]. *)
Fixpoint zeros (n : nat) : string := match n with O => "" | S n => String "0" (zeros n) end.

(** [strings.Replace(s, "-", "", 1)] *)
Fixpoint drop_minus (s : string) : string :=
  match s with
  | EmptyString => ""
  | String c s => if Ascii.eqb c "-" then s else String c (drop_minus s)
  end.

Definition is_digit (c : Ascii.ascii) : bool :=
  let d := Z.of_nat (Ascii.nat_of_ascii c) - 48 in (0 <=? d) && (d <=? 9).
Fixpoint all_digits (s : string) : bool :=
  match s with EmptyString => true | String c s => is_digit c && all_digits s end.

Lemma str_take_drop n s : str_take n s +:+ str_drop n s = s.
Proof. revert s. induction n as [|n IH]; intros [|c s]; simpl; try done. by rewrite string_app_cons, IH. Qed.

Lemma str_take_length n s : (n <= String.length s)%nat -> String.length (str_take n s) = n.
Proof. revert s. induction n as [|n IH]; intros [|c s] H; simpl in *; rewrite ?IH; lia. Qed.

Lemma str_drop_length n s : String.length (str_drop n s) = (String.length s - n)%nat.
Proof. revert s. induction n as [|n IH]; intros [|c s]; simpl; rewrite ?IH; lia. Qed.

Lemma length_string_app s t : String.length (s +:+ t) = (String.length s + String.length t)%nat.
Proof. induction s as [|c s IH]; [done|]. rewrite string_app_cons. simpl. by rewrite IH. Qed.

Lemma zeros_length n : String.length (zeros n) = n.
Proof. induction n as [|n IH]; simpl; congruence. Qed.

Lemma all_digits_app s t : all_digits (s +:+ t) = all_digits s && all_digits t.
Proof. induction s as [|c s IH]; [done|]. rewrite string_app_cons. simpl. by rewrite IH, andb_assoc. Qed.

Lemma all_digits_zeros n : all_digits (zeros n) = true.
Proof. by induction n. Qed.

(** What was trimmed are zeros. *)
Lemma trim_zeros_pad s : trim_zeros s +:+ zeros (String.length s - String.length (trim_zeros s)) = s.
Proof.
  induction s as [|c s IH]; [done|]. simpl. destruct (trim_zeros s) as [|d t] eqn:E.
  - rewrite string_app_nil_l, Nat.sub_0_r in IH. simpl in IH. destruct (Ascii.eqb_spec c "0") as [->|_].
    + rewrite string_app_nil_l. simpl. by rewrite IH.
    + simpl. rewrite Nat.sub_0_r. by rewrite string_app_cons, string_app_nil_l, IH.
  - rewrite string_app_cons. f_equal. exact IH.
Qed.

Lemma trim_zeros_length s : (String.length (trim_zeros s) <= String.length s)%nat.
Proof.
  pose proof (f_equal String.length (trim_zeros_pad s)) as H. rewrite length_string_app in H. lia.
Qed.

Lemma parse_digits_Some acc s : all_digits s = true <-> is_Some (parse_digits acc s).
Proof.
  revert acc. induction s as [|c s IH]; intros acc; simpl; [by split; eauto|].
  unfold is_digit. destruct ((0 <=? _) && (_ <=? 9)); simpl; [apply IH|]. by split; [|intros [? ?]].
Qed.

Lemma parse_digits_app acc s t :
  parse_digits acc (s +:+ t) = parse_digits acc s ≫= fun a => parse_digits a t.
Proof.
  revert acc. induction s as [|c s IH]; intros acc; [done|]. rewrite string_app_cons. cbn [parse_digits].
  destruct ((0 <=? _) && (_ <=? 9)); [apply IH|done].
Qed.

(** The digits read after [acc] add their own value to it, shifted. *)
Lemma parse_digits_shift s acc v :
  parse_digits 0 s = Some v ->
  parse_digits acc s = Some (acc * 10 ^ Z.of_nat (String.length s) + v) /\ 0 <= v < 10 ^ Z.of_nat (String.length s).
Proof.
  revert acc v. induction s as [|c s IH]; intros acc v Hv.
  - simpl in *. simplify_eq. split; [f_equal; lia|done].
  - cbn [parse_digits] in *. cbv zeta in *. destruct ((0 <=? Z.of_nat (Ascii.nat_of_ascii c) - 48) && _) eqn:Ec; [|done].
    set (d := Z.of_nat (Ascii.nat_of_ascii c) - 48) in *. simpl String.length. rewrite Nat2Z.inj_succ, Z.pow_succ_r by lia.
    destruct (parse_digits 0 s) as [v0|] eqn:E0.
    + destruct (IH (10 * 0 + d) v0 eq_refl) as [E1 Hr]. rewrite E1 in Hv. injection Hv as <-.
      destruct (IH (10 * acc + d) v0 eq_refl) as [E2 _]. rewrite E2. split; [f_equal; ring|]. nia.
    + exfalso. apply eq_None_not_Some in E0. apply E0, parse_digits_Some, (parse_digits_Some (10 * 0 + d)). by eexists.
Qed.

(** A digit string is its first digits and the rest. *)
Lemma parse_digits_split s t n :
  parse_digits 0 (s +:+ t) = Some n ->
  parse_digits 0 s = Some (n / 10 ^ Z.of_nat (String.length t)) /\
  parse_digits 0 t = Some (n mod 10 ^ Z.of_nat (String.length t)).
Proof.
  rewrite parse_digits_app. destruct (parse_digits 0 s) as [a|] eqn:Es; [|done]. simpl. intros Ht.
  destruct (parse_digits 0 t) as [b|] eqn:Eb.
  - destruct (parse_digits_shift t a b Eb) as [E Hb]. rewrite E in Ht. injection Ht as <-.
    rewrite Z.div_add_l, (Z.div_small b), Z.add_0_r by lia.
    rewrite Z.add_comm, Z.mod_add, Z.mod_small by lia. done.
  - exfalso. apply eq_None_not_Some in Eb. apply Eb, parse_digits_Some, (parse_digits_Some a). by eexists.
Qed.

Lemma parse_digits_zeros n acc : parse_digits acc (zeros n) = Some (acc * 10 ^ Z.of_nat n).
Proof.
  revert acc. induction n as [|n IH]; intros acc; cbn [zeros parse_digits]; [f_equal; lia|].
  change (Z.of_nat (Ascii.nat_of_ascii "0") - 48) with 0. cbv zeta. cbn [Z.leb Z.compare andb].
  rewrite IH, Nat2Z.inj_succ, Z.pow_succ_r by lia. f_equal. ring.
Qed.

(** [amount.String()] without its sign. *)
Lemma parse_pretty_N (x : N) : parse_digits 0 (pretty x) = Some (Z.of_N x).
Proof.
  unfold pretty, pretty_N. case_decide as Hx; [by subst|].
  rewrite parse_pretty_go. done.
Qed.

(** ** [GetReadableBalance] *)

Definition slice_panic : string := "slice bounds out of range".

(** The digits before and after the point, and the limit on the latter; [s]
    are the digits of the amount. *)
Definition balance_parts (unitDigits maxPreCommaDigitsBeforeTrim digits : Z) (s : string) : go (string * string * Z) :=
  let l := Z.of_nat (String.length s) in
  if unitDigits <? l then
    if unitDigits <? 0 then Panic slice_panic
    else
      let l := l - unitDigits in
      let digits :=
        if (0 <? maxPreCommaDigitsBeforeTrim) && (maxPreCommaDigitsBeforeTrim <? l)
        then let l := l - maxPreCommaDigitsBeforeTrim in if digits <? l then 0 else digits - l
        else digits in
      Ret (str_take (Z.to_nat l) s, trim_zeros (str_drop (Z.to_nat l) s), digits)
  else if l =? unitDigits then Ret ("0", trim_zeros s, digits)
  else if negb (l =? 0) then Ret ("0", trim_zeros (zeros (Z.to_nat (unitDigits - l)) +:+ s), digits)
  else Ret ("0", "0", digits).

Definition point (postComma : string) : string := if String.eqb postComma "" then "" else "." +:+ postComma.

(** [amount] is [None] for a nil pointer. *)
Definition GetReadableBalance (unitDigits maxPreCommaDigitsBeforeTrim digits : Z) (addPositiveSign trimAmount : bool)
    (amount : option Z) : go string :=
  match amount with
  | None => Ret (if trimAmount then "0" else "")
  | Some a =>
      let s := pretty a in
      let '(proceed, s) :=
        if (0 <? a) && addPositiveSign then ("+", s)
        else if a <? 0 then ("-", drop_minus s) else ("", s) in
      match balance_parts unitDigits maxPreCommaDigitsBeforeTrim digits s with
      | Panic m => Panic m
      | Fail e => Fail e
      | Ret (preComma, postComma, digits) =>
          let fullAmount := preComma +:+ point postComma in
          if (digits <? Z.of_nat (String.length postComma)) && (digits <? 0) then Panic slice_panic
          else
            let postComma := if digits <? Z.of_nat (String.length postComma)
                             then str_take (Z.to_nat digits) postComma else postComma in
            Ret (proceed +:+ (if trimAmount then preComma +:+ point postComma else fullAmount))
      end
  end.

(** ** Reading it back *)

(** The amount in base units that a decimal number stands for. *)
Definition read_unsigned (unitDigits : nat) (s : string) : option Z :=
  match Split "." s with
  | [pre] => a ← parse_digits 0 pre; Some (a * 10 ^ Z.of_nat unitDigits)
  | [pre; post] =>
      a ← parse_digits 0 pre;
      b ← parse_digits 0 (post +:+ zeros (unitDigits - String.length post));
      Some (a * 10 ^ Z.of_nat unitDigits + b)
  | _ => None
  end.

Definition read_balance (unitDigits : nat) (s : string) : option Z :=
  match s with
  | String c s' =>
      if Ascii.eqb c "-" then Z.opp <$> read_unsigned unitDigits s'
      else if Ascii.eqb c "+" then read_unsigned unitDigits s'
      else read_unsigned unitDigits s
  | EmptyString => None
  end.

Lemma is_digit_not (c d : Ascii.ascii) : is_digit c = true -> is_digit d = false -> Ascii.eqb c d = false.
Proof. intros Hc Hd. destruct (Ascii.eqb_spec c d) as [->|]; congruence. Qed.

Lemma digits_free_of d s : is_digit d = false -> all_digits s = true -> free_of d s = true.
Proof.
  intros Hd. induction s as [|c s IH]; simpl; [done|]. intros [Hc Hs]%andb_prop.
  rewrite (Ascii.eqb_sym d c), (is_digit_not c d) by done. by apply IH.
Qed.

Lemma split_free sep s : free_of sep s = true -> Split sep s = [s].
Proof. intros H. unfold Split. by rewrite split_at_free. Qed.

Lemma split_point sep s t :
  free_of sep s = true -> free_of sep t = true -> Split sep (s +:+ String sep t) = [s; t].
Proof. intros Hs Ht. unfold Split. rewrite split_at_app by done. by rewrite split_free. Qed.

(** Two digit strings with a point between them are read as the number whose
    digits they are. *)
Lemma read_parts u pre post a b :
  parse_digits 0 pre = Some a -> all_digits post = true -> (String.length post <= u)%nat ->
  parse_digits 0 (post +:+ zeros (u - String.length post)) = Some b ->
  read_unsigned u (pre +:+ point post) = Some (a * 10 ^ Z.of_nat u + b).
Proof.
  intros Ha Hpost Hlen Hb. assert (Hpre : all_digits pre = true) by (apply (parse_digits_Some 0); by eexists).
  unfold read_unsigned, point. destruct (String.eqb_spec post "") as [->|Hne].
  - rewrite string_app_nil_l, parse_digits_zeros in Hb. injection Hb as <-.
    rewrite string_app_nil_r, split_free by by apply digits_free_of. rewrite Ha. simpl. f_equal. lia.
  - change ("." +:+ post) with (String "." post). rewrite split_point by by apply digits_free_of.
    rewrite Ha. cbn [mbind option_bind]. by rewrite Hb.
Qed.

(** A sign before them is the sign of the number. *)
Lemma read_signed u s (sign : string) n :
  read_unsigned u s = Some n -> (exists c s', s = String c s' /\ is_digit c = true) ->
  (sign = "" \/ sign = "+" -> read_balance u (sign +:+ s) = Some n) /\
  (sign = "-" -> read_balance u (sign +:+ s) = Some (- n)).
Proof.
  intros Hr (c & s' & -> & Hc). split.
  - intros [->| ->].
    + rewrite string_app_nil_l. cbn [read_balance]. by rewrite !is_digit_not.
    + change ("+" +:+ String c s') with (String "+" (String c s')). exact Hr.
  - intros ->. change ("-" +:+ String c s') with (String "-" (String c s')). cbn [read_balance].
    change (Ascii.eqb "-" "-") with true. cbv iota. by rewrite Hr.
Qed.

(** ** Correctness *)

Lemma trimmed_digits t u b :
  parse_digits 0 t = Some b -> String.length t = u ->
  all_digits (trim_zeros t) = true /\ (String.length (trim_zeros t) <= u)%nat /\
  parse_digits 0 (trim_zeros t +:+ zeros (u - String.length (trim_zeros t))) = Some b.
Proof.
  intros Hb <-. pose proof (trim_zeros_pad t) as Hpad. split; [|split].
  - assert (all_digits t = true) as Ht by (apply (parse_digits_Some 0); by eexists).
    rewrite <- Hpad, all_digits_app in Ht. by apply andb_prop in Ht as [Ht _].
  - apply trim_zeros_length.
  - by rewrite Hpad.
Qed.

Lemma balance_parts_ok (u : nat) m d s n :
  parse_digits 0 s = Some n -> s <> "" ->
  exists pre post d', balance_parts (Z.of_nat u) m d s = Ret (pre, post, d') /\
    parse_digits 0 pre = Some (n / 10 ^ Z.of_nat u) /\ (exists c s', pre = String c s' /\ is_digit c = true) /\
    all_digits post = true /\ (String.length post <= u)%nat /\
    parse_digits 0 (post +:+ zeros (u - String.length post)) = Some (n mod 10 ^ Z.of_nat u) /\
    (0 <= d -> 0 <= d') /\ (m <= 0 -> d' = d).
Proof.
  intros Hn Hne. destruct (parse_digits_shift s 0 n Hn) as [_ Hrange].
  unfold balance_parts. remember (String.length s) as l eqn:Hl. destruct (Z.ltb_spec (Z.of_nat u) (Z.of_nat l)) as [El|El].
  - assert ((Z.of_nat u <? 0) = false) as -> by (apply Z.ltb_ge; lia). cbv zeta.
    replace (Z.to_nat (Z.of_nat l - Z.of_nat u)) with (l - u)%nat by lia.
    pose proof (str_take_drop (l - u) s) as Hsplit.
    assert (String.length (str_drop (l - u) s) = u) as Hlen by (rewrite str_drop_length; rewrite <- ?Hl; lia).
    rewrite <- Hsplit in Hn. apply parse_digits_split in Hn as [Hpre Hpost]. rewrite Hlen in Hpre, Hpost.
    destruct (trimmed_digits _ u _ Hpost Hlen) as (H1 & H2 & H3).
    eexists _, _, _. split; [reflexivity|]. split; [exact Hpre|]. split.
    + assert (all_digits (str_take (l - u) s) = true) as Hall by (apply (parse_digits_Some 0); by eexists).
      destruct (str_take (l - u) s) as [|c s'] eqn:Et.
      * apply (f_equal String.length) in Et. rewrite str_take_length in Et by (rewrite <- ?Hl; lia). simpl in Et. lia.
      * exists c, s'. split; [done|]. by apply andb_prop in Hall as [? _].
    + split; [done|]. split; [done|]. split; [done|].
      destruct ((0 <? m) && _) eqn:Em; [|done]. destruct (d <? _) eqn:Ed; split; lia.
  - assert (Hpad : parse_digits 0 (zeros (u - l) +:+ s) = Some n)
      by (rewrite parse_digits_app, parse_digits_zeros; exact Hn).
    assert (Hlen : String.length (zeros (u - l) +:+ s) = u)
      by (rewrite length_string_app, zeros_length; rewrite <- ?Hl; lia).
    destruct (trimmed_digits _ u _ Hpad Hlen) as (H1 & H2 & H3).
    assert (n < 10 ^ Z.of_nat u) as Hnu.
    { eapply Z.lt_le_trans; [apply Hrange|]. apply Z.pow_le_mono_r; lia. }
    exists "0", (trim_zeros (zeros (u - l) +:+ s)), d. split.
    + destruct (Z.eqb_spec (Z.of_nat l) (Z.of_nat u)) as [Eq|Eq].
      * replace (u - l)%nat with 0%nat by lia. done.
      * assert (l <> 0%nat) by (destruct s; [done|simpl in Hl; lia]).
        assert ((Z.of_nat l =? 0) = false) as -> by (apply Z.eqb_neq; lia). simpl negb. cbv iota.
        replace (Z.to_nat (Z.of_nat u - Z.of_nat l)) with (u - l)%nat by lia. done.
    + rewrite Z.div_small, Z.mod_small by lia. split; [done|]. split; [by eexists _, _|]. done.
Qed.

Lemma digits_of_abs (a : Z) :
  exists s, parse_digits 0 s = Some (Z.abs a) /\ s <> "" /\
    pretty a = (if a <? 0 then "-" else "") +:+ s /\ drop_minus ("-" +:+ s) = s.
Proof.
  exists (pretty (Z.to_N (Z.abs a))). split; [|split; [|split]].
  - rewrite parse_pretty_N. f_equal. lia.
  - intros H. pose proof (parse_pretty_N (Z.to_N (Z.abs a))) as Hp. rewrite H in Hp. simpl in Hp.
    injection Hp as Hp. assert (Z.to_N (Z.abs a) = 0%N) as E by lia. rewrite E in H. discriminate H.
  - destruct a as [|p|p]; [done|by rewrite string_app_nil_l|done].
  - done.
Qed.

(** The sign that the function puts before the digits. *)
Definition sign_of (addPositiveSign : bool) (a : Z) : string :=
  if (0 <? a) && addPositiveSign then "+" else if a <? 0 then "-" else "".

Lemma balance_text (u : nat) m d plus trim a :
  0 <= d ->
  exists pre post d', GetReadableBalance (Z.of_nat u) m d plus trim (Some a) =
      Ret (sign_of plus a +:+ (pre +:+ point (if trim then
             (if d' <? Z.of_nat (String.length post) then str_take (Z.to_nat d') post else post) else post))) /\
    parse_digits 0 pre = Some (Z.abs a / 10 ^ Z.of_nat u) /\ (exists c s', pre = String c s' /\ is_digit c = true) /\
    all_digits post = true /\ (String.length post <= u)%nat /\
    parse_digits 0 (post +:+ zeros (u - String.length post)) = Some (Z.abs a mod 10 ^ Z.of_nat u) /\
    0 <= d' /\ (m <= 0 -> d' = d).
Proof.
  intros Hd. destruct (digits_of_abs a) as (s & Hs & Hne & Hp & Hdrop).
  destruct (balance_parts_ok u m d s _ Hs Hne) as (pre & post & d' & Hb & H1 & H2 & H3 & H4 & H5 & H6 & H7).
  exists pre, post, d'. split; [|by eauto 10]. unfold GetReadableBalance, sign_of. rewrite Hp.
  assert ((if (0 <? a) && plus then ("+", (if a <? 0 then "-" else "") +:+ s)
           else if a <? 0 then ("-", drop_minus ((if a <? 0 then "-" else "") +:+ s))
           else ("", (if a <? 0 then "-" else "") +:+ s)) =
          (if (0 <? a) && plus then "+" else if a <? 0 then "-" else "", s)) as ->.
  { destruct (a <? 0) eqn:Ea; [assert ((0 <? a) = false) as -> by (apply Z.ltb_ge; apply Z.ltb_lt in Ea; lia)|]; cbn [andb]; [by rewrite Hdrop|].
    rewrite string_app_nil_l. by destruct ((0 <? a) && plus). }
  rewrite Hb. assert ((d' <? 0) = false) as -> by (apply Z.ltb_ge; auto). rewrite andb_false_r. by destruct trim.
Qed.

(** C39: The untrimmed text is exact: reading it gives the balance. *)
Theorem readable_balance_exact (u : nat) m d plus a :
  0 <= d ->
  exists text, GetReadableBalance (Z.of_nat u) m d plus false (Some a) = Ret text /\ read_balance u text = Some a.
Proof.
  intros Hd. destruct (balance_text u m d plus false a Hd) as (pre & post & d' & Hb & H1 & (c & s' & Hc & Hdig) & H3 & H4 & H5 & _).
  eexists. split; [exact Hb|]. pose proof (read_parts u pre post _ _ H1 H3 H4 H5) as Hr.
  destruct (read_signed u _ (sign_of plus a) _ Hr) as [Hpos Hneg].
  { exists c, (s' +:+ point post). by rewrite Hc, string_app_cons. }
  pose proof (Z.div_mod (Z.abs a) (10 ^ Z.of_nat u) ltac:(lia)) as Hdm.
  assert (Z.abs a / 10 ^ Z.of_nat u * 10 ^ Z.of_nat u + Z.abs a mod 10 ^ Z.of_nat u = Z.abs a) as E by lia.
  rewrite E in *. unfold sign_of in *. destruct (Z.ltb_spec 0 a) as [Ha|Ha], plus; cbn [andb] in *;
    destruct (Z.ltb_spec a 0) as [Ha'|Ha']; try lia.
  all: try (rewrite Hpos by auto; f_equal; lia).
  all: rewrite Hneg by done; f_equal; lia.
Qed.

(** Cutting the digits after the point at [d]. *)
Lemma cut_digits u d post b :
  (d <= u)%nat -> all_digits post = true -> (String.length post <= u)%nat ->
  parse_digits 0 (post +:+ zeros (u - String.length post)) = Some b ->
  let cut := if Z.of_nat d <? Z.of_nat (String.length post) then str_take d post else post in
  all_digits cut = true /\ (String.length cut <= u)%nat /\
  parse_digits 0 (cut +:+ zeros (u - String.length cut)) =
    Some (b / 10 ^ Z.of_nat (u - d) * 10 ^ Z.of_nat (u - d)).
Proof.
  intros Hd Hall Hlen Hb. cbv zeta. destruct (Z.ltb_spec (Z.of_nat d) (Z.of_nat (String.length post))) as [Hlt|Hge].
  - pose proof (str_take_drop d post) as Hs.
    assert (String.length (str_take d post) = d) as Ed by (apply str_take_length; lia).
    rewrite <- Hs, all_digits_app in Hall. apply andb_prop in Hall as [Hall _].
    split; [done|]. split; [lia|]. rewrite Ed. rewrite <- Hs, string_app_assoc in Hb at 1.
    apply parse_digits_split in Hb as [Hb _]. rewrite parse_digits_app. rewrite Hb. cbn [mbind option_bind].
    rewrite parse_digits_zeros. repeat f_equal. rewrite length_string_app, zeros_length, str_drop_length. lia.
  - split; [done|]. split; [done|]. rewrite Hb. f_equal.
    assert (zeros (u - String.length post) = zeros (d - String.length post) +:+ zeros (u - d)) as Ez.
    { replace (u - String.length post)%nat with ((d - String.length post) + (u - d))%nat by lia.
      induction (d - String.length post)%nat as [|k IH]; [done|]. simpl. by rewrite IH, string_app_cons. }
    rewrite Ez, <- string_app_assoc in Hb. pose proof (parse_digits_split _ _ _ Hb) as [_ Hz].
    rewrite parse_digits_zeros, zeros_length in Hz. injection Hz as Hz.
    rewrite (Z.div_mod b (10 ^ Z.of_nat (u - d))) at 1 by lia. lia.
Qed.

(** The trimmed text is the balance rounded towards zero at the given digit. *)
Theorem readable_balance_trimmed (u d : nat) m plus a :
  (d <= u)%nat -> m <= 0 ->
  exists text, GetReadableBalance (Z.of_nat u) m (Z.of_nat d) plus true (Some a) = Ret text /\
    read_balance u text = Some (Z.quot a (10 ^ Z.of_nat (u - d)) * 10 ^ Z.of_nat (u - d)).
Proof.
  intros Hdu Hm. destruct (balance_text u m (Z.of_nat d) plus true a ltac:(lia))
    as (pre & post & d' & Hb & H1 & (c & s' & Hc & Hdig) & H3 & H4 & H5 & _ & Hd').
  rewrite (Hd' Hm), Nat2Z.id in Hb. eexists. split; [exact Hb|].
  destruct (cut_digits u d post _ Hdu H3 H4 H5) as (K3 & K4 & K5).
  pose proof (read_parts u pre _ _ _ H1 K3 K4 K5) as Hr.
  destruct (read_signed u _ (sign_of plus a) _ Hr) as [Hpos Hneg].
  { exists c. eexists. rewrite Hc, string_app_cons. done. }
  set (T := 10 ^ Z.of_nat (u - d)) in *.
  assert (10 ^ Z.of_nat u = 10 ^ Z.of_nat d * T) as EU.
  { unfold T. rewrite <- Z.pow_add_r by lia. f_equal. lia. }
  assert (0 < T) as HT by (apply Z.pow_pos_nonneg; lia).
  assert (0 < 10 ^ Z.of_nat d) as HD by (apply Z.pow_pos_nonneg; lia).
  assert (Z.abs a / 10 ^ Z.of_nat u * 10 ^ Z.of_nat u + Z.abs a mod 10 ^ Z.of_nat u / T * T = Z.abs a / T * T) as E.
  { rewrite EU. pose proof (Z.div_mod (Z.abs a) (10 ^ Z.of_nat d * T) ltac:(lia)) as Hdm.
    remember (Z.abs a mod (10 ^ Z.of_nat d * T)) as r. rewrite Hdm at 2.
    replace (10 ^ Z.of_nat d * T * (Z.abs a / (10 ^ Z.of_nat d * T)) + r)
      with (r + (10 ^ Z.of_nat d * (Z.abs a / (10 ^ Z.of_nat d * T))) * T) by ring.
    rewrite Z.div_add by lia. ring. }
  rewrite E in *. unfold sign_of in *. destruct (Z.ltb_spec 0 a) as [Ha|Ha], plus; cbn [andb] in *;
    destruct (Z.ltb_spec a 0) as [Ha'|Ha']; try lia.
  all: try (rewrite Hpos by auto; rewrite Z.quot_div_nonneg, Z.abs_eq by lia; done).
  all: rewrite Hneg by done; f_equal; rewrite <- (Z.opp_involutive a) at 2; rewrite Z.quot_opp_l, Z.quot_div_nonneg by lia;
    rewrite Z.abs_neq by lia; ring.
Qed.

(** ** Examples *)

Example ex_balance : GetReadableBalance 18 0 4 false false (Some 1234500000000000000) = Ret "1.2345".
Proof. reflexivity. Qed.

(** The digits are only limited when the amount is trimmed, and then zeros at
    the cut are kept. *)
Example ex_balance_trimmed : GetReadableBalance 18 0 4 true true (Some 2000070000000000000) = Ret "+2.0000".
Proof. reflexivity. Qed.

Example ex_balance_digits_ignored : GetReadableBalance 18 0 4 false false (Some 2000070000000000000) = Ret "2.00007".
Proof. reflexivity. Qed.

Lemma readable_balance_exact_witness :
  exists text, GetReadableBalance (Z.of_nat 18) 0 4 false false (Some (-5)) = Ret text /\ read_balance 18 text = Some (-5).
Proof. apply (readable_balance_exact 18 0 4 false (-5)). lia. Defined.

Lemma readable_balance_trimmed_witness :
  exists text, GetReadableBalance (Z.of_nat 18) 0 (Z.of_nat 4) true true (Some (-1234567000000000000)) = Ret text /\
    read_balance 18 text = Some (Z.quot (-1234567000000000000) (10 ^ Z.of_nat (18 - 4)) * 10 ^ Z.of_nat (18 - 4)).
Proof. apply (readable_balance_trimmed 18 4 0 true (-1234567000000000000)); lia. Defined.
