(* ===== verification/TaskConfig.v ===== *)
(** * Configurations of the tasks

    The [LoadConfig] of every task of pkg/coordinator/tasks whose package has
    nothing else to load in another file: the common head [load_config] of
    TaskFlow.v, then what the task decodes or fetches from its configuration.
    The generator tasks turn private keys into wallets of the manager
    (Wallet.v) or into a pool of child wallets (WalletPool.v).  Parsers of keys,
    addresses and mnemonics are parameters.

    [LoadConfig] runs before [ExecuteTask] installs its recovery: a panic here
    ends the process. *)

From Stdlib Require Import Strings.Byte Floats.SpecFloat.
From S2P Require Import Prelude Vars Db Scheduler Execution TaskFlow.
From S2P Require Import Wallet BlobTx WalletPool CheckBlocks CheckAttestations GenTasks GenOps Clients ChainChecks.
From S2P Require Import SingleTx Shell ExternalTasks Queries LoadTool.

#[local] Open Scope string_scope.
#[local] Open Scope list_scope.
Open Scope Z_scope.

(** ** [strings.TrimSpace] *)

(** The UTF-8 encodings of the runes [unicode.IsSpace] accepts. *)
Definition spaces : list (list Byte.byte) :=
  [[x09]; [x0a]; [x0b]; [x0c]; [x0d]; [x20]; [xc2; x85]; [xc2; xa0]; [xe1; x9a; x80];
   [xe2; x80; x80]; [xe2; x80; x81]; [xe2; x80; x82]; [xe2; x80; x83]; [xe2; x80; x84]; [xe2; x80; x85];
   [xe2; x80; x86]; [xe2; x80; x87]; [xe2; x80; x88]; [xe2; x80; x89]; [xe2; x80; x8a];
   [xe2; x80; xa8]; [xe2; x80; xa9]; [xe2; x80; xaf]; [xe2; x81; x9f]; [xe3; x80; x80]].

Fixpoint strip_prefix (p s : list Byte.byte) : option (list Byte.byte) :=
  match p, s with
  | [], _ => Some s
  | x :: p, y :: s => if Byte.eqb x y then strip_prefix p s else None
  | _, [] => None
  end.

(** The rest of [s] after the first of the [seps] it starts with. *)
Definition strip_one (seps : list (list Byte.byte)) (s : list Byte.byte) : option (list Byte.byte) :=
  head (omap (fun p => strip_prefix p s) seps).

(** Every step removes a byte at least, so the length is fuel enough. *)
Fixpoint trim_left (seps : list (list Byte.byte)) (fuel : nat) (s : list Byte.byte) : list Byte.byte :=
  match fuel with
  | O => s
  | S fuel => match strip_one seps s with Some s => trim_left seps fuel s | None => s end
  end.

Definition trim (seps : list (list Byte.byte)) (s : list Byte.byte) : list Byte.byte :=
  trim_left seps (length s) s.

Definition TrimSpace (s : string) : string :=
  String.string_of_list_byte
    (rev (trim (map (@rev _) spaces) (rev (trim spaces (String.list_byte_of_string s))))).

(** ** Loading with the wallet manager *)

(** What go-ethereum and bip39 parse. *)
Class ConfigParsers `{types : EthTypes} := {
  HexToECDSA : string -> result PrivateKey;
  UnmarshalText : string -> result Address;
  HexToAddress : string -> Address;
  FromHex : string -> bytes;
  IsMnemonicValid : string -> bool;
  NewSeed : string -> string -> bytes
}.

(** A computation on the manager's wallets that can fail or panic. *)
Definition loader `{types : EthTypes} (A : Type) : Type := gmap Address Wallet -> go (gmap Address Wallet * result A).

Section loader.
Context `{types : EthTypes}.
#[local] Existing Instance types.

Definition lift {A} (r : result A) : loader A := fun m => Ret (m, r).
Definition lpanic {A} (what : string) : loader A := fun _ => Panic what.
Definition lbind {A B} (l : loader A) (k : A -> loader B) : loader B := fun m =>
  match l m with
  | Ret (m, Ok a) => k a m
  | Ret (m, Err e) => Ret (m, Err e)
  | Fail e => Fail e
  | Panic what => Panic what
  end.

(** [fmt.Errorf("<prefix>: %w", err)] *)
Definition wrap {A} (prefix : string) (r : result A) : result A :=
  match r with Ok a => Ok a | Err e => Err (prefix +:+ ": " +:+ e) end.
End loader.

Notation "'let*' x ':=' l 'in' k" := (lbind l (fun x => k))
  (at level 10, x pattern, l at level 100, k at level 200).

Section wallets.
Context `{types : EthTypes} `{pt : !PoolTypes} `{ps : !ConfigParsers}.
#[local] Existing Instance types.

(** [WalletManager().GetWalletByPrivkey(privKey)]: the wallet's address. *)
Definition load_key_wallet (key : PrivateKey) : loader Address := fun m =>
  let a := PubkeyToAddress key in Ret ((GetWalletByPrivkey key a m).1, Ok a).

(** [make] of more pointers than the address space holds panics, after the root
    wallet has been fetched. *)
Definition max_wallets : Z := 2 ^ 45.
Definition seed_bytes (s : string) : list Z :=
  (fun b => Z.of_N (Byte.to_N b)) <$> String.list_byte_of_string s.

Definition load_key_pool (key : PrivateKey) (walletCount : Z) (childSeed : string) : loader WalletPool := fun m =>
  if max_wallets <? walletCount then Panic "makeslice: len out of range"
  else Ret (GetWalletPoolByPrivkey key (Z.to_nat walletCount) (seed_bytes childSeed) m).

Definition mnemonicToSeed (mnemonic : string) : result bytes :=
  let mnemonic := TrimSpace mnemonic in
  if IsMnemonicValid mnemonic then Ok (NewSeed mnemonic "") else Err "mnemonic is not valid".

(** [targetAddr], which keeps its zero value without a configured address. *)
Definition decode_target (s : string) : result (option Address) :=
  if bool_decide (s = "") then Ok None
  else wrap "cannot decode execution addr" (let! a := UnmarshalText s in Ok (Some a)).
Definition decode_calldata (s : string) : option bytes :=
  if bool_decide (s = "") then None else Some (FromHex s).
End wallets.

(** ** The registered tasks *)

(** A [TaskDescriptor] with the [Validate] method of its configuration. *)
Record TaskKind (C : Type) := mkKind {
  kind_Name : string; kind_Aliases : list string; kind_Description : string;
  kind_Config : C; kind_Validate : C -> option error }.
Arguments mkKind {C}. Arguments kind_Name {C}. Arguments kind_Aliases {C}. Arguments kind_Description {C}.
Arguments kind_Config {C}. Arguments kind_Validate {C}.

Record AnyKind := mkAny { any_Config : Type; any_kind :> TaskKind any_Config }.
Arguments mkAny {any_Config}.

(** Configurations that no other file declares. *)
Record WalletDetailsConfig := mkWalletDetailsConfig { wd_PrivateKey : string; wd_Address : string }.
Definition wd_DefaultConfig : WalletDetailsConfig := mkWalletDetailsConfig "" "".
Definition sleep_DefaultConfig : Z := 0.
Definition matrix_Validate (c : matrix_Config) : option error :=
  match mc_Task c with None => Some "child task must be specified" | Some _ => None end.
Definition background_DefaultConfig : background_Config := mkBackgroundConfig None None false false "" false.
Definition background_Validate (c : background_Config) : option error :=
  match bc_ForegroundTask c with None => Some "foreground task must be specified" | Some _ => None end.

Definition health_kind : TaskKind HealthConfig :=
  mkKind "check_clients_are_healthy" [] "Checks if clients are healthy."
    health_DefaultConfig (fun _ => None).
Definition attestation_stats_kind : TaskKind CheckAttestations.Config :=
  mkKind "check_consensus_attestation_stats" [] "Check attestation stats for consensus chain."
    CheckAttestations.DefaultConfig (fun _ => None).
Definition block_proposals_kind : TaskKind CheckBlocks.Config :=
  mkKind "check_consensus_block_proposals" [] "Check for consensus block proposals that meet specific criteria."
    CheckBlocks.DefaultConfig (fun _ => None).
Definition finality_kind : TaskKind FinalityConfig :=
  mkKind "check_consensus_finality" [] "Check finality status for consensus chain."
    finality_DefaultConfig (fun _ => None).
Definition forks_kind : TaskKind ForksConfig :=
  mkKind "check_consensus_forks" [] "Check for consensus layer forks."
    forks_DefaultConfig (fun _ => None).
Definition duty_kind : TaskKind DutyConfig :=
  mkKind "check_consensus_proposer_duty" [] "Check consensus chain proposer duties."
    duty_DefaultConfig (fun _ => None).
Definition reorgs_kind : TaskKind ReorgsConfig :=
  mkKind "check_consensus_reorgs" [] "Check for consensus layer reorgs."
    reorgs_DefaultConfig (fun _ => None).
Definition slot_range_kind : TaskKind SlotRangeConfig :=
  mkKind "check_consensus_slot_range" [] "Check if consensus wallclock is in a specific range."
    slot_range_DefaultConfig (fun _ => None).
Definition consensus_sync_kind : TaskKind SyncConfig :=
  mkKind "check_consensus_sync_status" [] "Checks consensus clients for their sync status."
    sync_DefaultConfig consensus_sync_Validate.
Definition validator_status_kind : TaskKind ValidatorStatusConfig :=
  mkKind "check_consensus_validator_status" [] "Check validator status on consensus chain."
    validator_status_DefaultConfig (fun _ => None).
Definition execution_block_kind : TaskKind unit :=
  mkKind "get_execution_block" [] "Gets the latest execution block."
    tt (fun _ => None).
Definition eth_call_kind : TaskKind EthCallConfig :=
  mkKind "check_eth_call" [] "Checks the response of an eth_call transaction"
    ec_DefaultConfig ec_Validate.
Definition execution_sync_kind : TaskKind SyncConfig :=
  mkKind "check_execution_sync_status" [] "Checks execution clients for their sync status."
    sync_DefaultConfig execution_sync_Validate.
Definition blob_kind : TaskKind BlobConfig :=
  mkKind "generate_blob_transactions" [] "Generates blob transactions and sends them to the network"
    blob_DefaultConfig blob_Validate.
Definition bls_kind : TaskKind BlsChangesConfig :=
  mkKind "generate_bls_changes" [] "Generates bls changes and sends them to the network"
    bls_DefaultConfig bls_Validate.
Definition cw_kind : TaskKind ChildWalletConfig :=
  mkKind "generate_child_wallet" [] "Generates a funded child wallet."
    cw_DefaultConfig cw_Validate.
Definition con_kind : TaskKind ConsolidationsConfig :=
  mkKind "generate_consolidations" [] "Generates consolidations and sends them to the network"
    con_DefaultConfig con_Validate.
Definition eoa_kind : TaskKind EoaConfig :=
  mkKind "generate_eoa_transactions" [] "Generates normal eoa transactions and sends them to the network"
    eoa_DefaultConfig eoa_Validate.
Definition dep_kind : TaskKind DepositsConfig :=
  mkKind "generate_deposits" [] "Generates deposits and sends them to the network"
    dep_DefaultConfig dep_Validate.
Definition exits_kind : TaskKind ExitsConfig :=
  mkKind "generate_exits" [] "Generates voluntary exits and sends them to the network"
    exits_DefaultConfig exits_Validate.
Definition slashings_kind : TaskKind SlashingsConfig :=
  mkKind "generate_slashings" [] "Generates slashable attestations / proposals and sends them to the network"
    slashings_DefaultConfig slashings_Validate.
Definition tc_kind : TaskKind TransactionConfig :=
  mkKind "generate_transaction" [] "Generates normal transaction, sends it to the network and checks the receipt"
    tc_DefaultConfig tc_Validate.
Definition wdr_kind : TaskKind WithdrawalsConfig :=
  mkKind "generate_withdrawal_requests" [] "Generates withdrawal requests and sends them to the network"
    wdr_DefaultConfig wdr_Validate.
Definition pk_kind : TaskKind PubkeysConfig :=
  mkKind "get_pubkeys_from_mnemonic" [] "Get public keys from mnemonic"
    pk_DefaultConfig pk_Validate.
Definition specs_kind : TaskKind unit :=
  mkKind "get_consensus_specs" [] "Get consensus chain specs."
    tt (fun _ => None).
Definition mn_kind : TaskKind MnemonicConfig :=
  mkKind "get_random_mnemonic" ["generate_random_mnemonic"] "Get random mnemonic."
    mn_DefaultConfig (fun _ => None).
Definition wd_kind : TaskKind WalletDetailsConfig :=
  mkKind "get_wallet_details" [] "Get wallet details."
    wd_DefaultConfig (fun c => wd_Validate (wd_PrivateKey c) (wd_Address c)).
Definition command_kind : TaskKind CommandConfig :=
  mkKind "run_command" [] "Runs a shell command."
    command_DefaultConfig command_Validate.
Definition et_kind : TaskKind ExternalConfig :=
  mkKind "run_external_tasks" [] "Run external test playbook."
    et_DefaultConfig et_Validate.
Definition shell_kind : TaskKind ShellConfig :=
  mkKind "run_shell" [] "Runs commands in a shell."
    shell_DefaultConfig shell_Validate.
Definition background_kind : TaskKind background_Config :=
  mkKind "run_task_background" [] "Runs foreground and background task with configurable dependencies."
    background_DefaultConfig background_Validate.
Definition matrix_kind : TaskKind matrix_Config :=
  mkKind "run_task_matrix" [] "Run a task multiple times based on an input array."
    matrix_DefaultConfig matrix_Validate.
Definition run_task_options_kind : TaskKind run_task_options_Config :=
  mkKind "run_task_options" [] "Runs task with configurable behaviour."
    run_task_options_DefaultConfig run_task_options_Validate.
Definition run_tasks_kind : TaskKind run_tasks_Config :=
  mkKind "run_tasks" [] "Run tasks sequentially."
    run_tasks_DefaultConfig run_tasks_Validate.
Definition concurrent_kind : TaskKind concurrent_Config :=
  mkKind "run_tasks_concurrent" [] "Runs multiple tasks in parallel."
    concurrent_DefaultConfig concurrent_Validate.
Definition la_kind : TaskKind LatencyConfig :=
  mkKind "tx_pool_latency_analysis" [] "Checks the TxPool transaction propagation latency"
    la_DefaultConfig (fun _ => None).
Definition th_kind : TaskKind ThroughputConfig :=
  mkKind "tx_pool_throughput_analysis" [] "Checks the TxPool transaction propagation throughput"
    th_DefaultConfig (fun _ => None).
Definition clean_kind : TaskKind unit :=
  mkKind "tx_pool_clean" [] "Check if the transaction pool is clean and wait until it is."
    tt (fun _ => None).
Definition sleep_kind : TaskKind Z :=
  mkKind "sleep" [] "Sleeps for a specified duration."
    sleep_DefaultConfig sleep_Validate.

Definition task_kinds : list AnyKind :=
  [mkAny health_kind;
   mkAny attestation_stats_kind;
   mkAny block_proposals_kind;
   mkAny finality_kind;
   mkAny forks_kind;
   mkAny duty_kind;
   mkAny reorgs_kind;
   mkAny slot_range_kind;
   mkAny consensus_sync_kind;
   mkAny validator_status_kind;
   mkAny execution_block_kind;
   mkAny eth_call_kind;
   mkAny execution_sync_kind;
   mkAny blob_kind;
   mkAny bls_kind;
   mkAny cw_kind;
   mkAny con_kind;
   mkAny eoa_kind;
   mkAny dep_kind;
   mkAny exits_kind;
   mkAny slashings_kind;
   mkAny tc_kind;
   mkAny wdr_kind;
   mkAny pk_kind;
   mkAny specs_kind;
   mkAny mn_kind;
   mkAny wd_kind;
   mkAny command_kind;
   mkAny et_kind;
   mkAny shell_kind;
   mkAny background_kind;
   mkAny matrix_kind;
   mkAny run_task_options_kind;
   mkAny run_tasks_kind;
   mkAny concurrent_kind;
   mkAny la_kind;
   mkAny th_kind;
   mkAny clean_kind;
   mkAny sleep_kind].

(** The error of a task that is given no configuration. *)
Definition default_error (k : AnyKind) : option error := kind_Validate k (kind_Config k).

(** ** LoadConfig *)

(** The typed YAML decoders of a configuration. *)
Class ConfigDecoding (C : Type) := {
  cfg_Unmarshal : value -> C -> result C;
  cfg_decode : string -> C -> result C
}.

Section load.
Context `{lib : Library}.

Definition load_kind {C} `{!ConfigDecoding C} (k : TaskKind C) (i : Z) (opts : TaskOptions) (w : TaskScheduler)
    : result C :=
  load_config (kind_Name k) (kind_Config k) cfg_Unmarshal cfg_decode (kind_Validate k) i opts w.

(** *** Tasks that only keep their configuration *)

Definition health_LoadConfig `{!ConfigDecoding HealthConfig} (i : Z) (opts : TaskOptions) (w : TaskScheduler) : result HealthConfig :=
  load_kind health_kind i opts w.
Definition attestation_stats_LoadConfig `{!ConfigDecoding CheckAttestations.Config} (i : Z) (opts : TaskOptions) (w : TaskScheduler) : result CheckAttestations.Config :=
  load_kind attestation_stats_kind i opts w.
Definition block_proposals_LoadConfig `{!ConfigDecoding CheckBlocks.Config} (i : Z) (opts : TaskOptions) (w : TaskScheduler) : result CheckBlocks.Config :=
  load_kind block_proposals_kind i opts w.
Definition finality_LoadConfig `{!ConfigDecoding FinalityConfig} (i : Z) (opts : TaskOptions) (w : TaskScheduler) : result FinalityConfig :=
  load_kind finality_kind i opts w.
Definition forks_LoadConfig `{!ConfigDecoding ForksConfig} (i : Z) (opts : TaskOptions) (w : TaskScheduler) : result ForksConfig :=
  load_kind forks_kind i opts w.
Definition duty_LoadConfig `{!ConfigDecoding DutyConfig} (i : Z) (opts : TaskOptions) (w : TaskScheduler) : result DutyConfig :=
  load_kind duty_kind i opts w.
Definition reorgs_LoadConfig `{!ConfigDecoding ReorgsConfig} (i : Z) (opts : TaskOptions) (w : TaskScheduler) : result ReorgsConfig :=
  load_kind reorgs_kind i opts w.
Definition slot_range_LoadConfig `{!ConfigDecoding SlotRangeConfig} (i : Z) (opts : TaskOptions) (w : TaskScheduler) : result SlotRangeConfig :=
  load_kind slot_range_kind i opts w.
Definition consensus_sync_LoadConfig `{!ConfigDecoding SyncConfig} (i : Z) (opts : TaskOptions) (w : TaskScheduler) : result SyncConfig :=
  load_kind consensus_sync_kind i opts w.
Definition validator_status_LoadConfig `{!ConfigDecoding ValidatorStatusConfig} (i : Z) (opts : TaskOptions) (w : TaskScheduler) : result ValidatorStatusConfig :=
  load_kind validator_status_kind i opts w.
Definition execution_block_LoadConfig `{!ConfigDecoding unit} (i : Z) (opts : TaskOptions) (w : TaskScheduler) : result unit :=
  load_kind execution_block_kind i opts w.
Definition execution_sync_LoadConfig `{!ConfigDecoding SyncConfig} (i : Z) (opts : TaskOptions) (w : TaskScheduler) : result SyncConfig :=
  load_kind execution_sync_kind i opts w.
Definition pk_LoadConfig `{!ConfigDecoding PubkeysConfig} (i : Z) (opts : TaskOptions) (w : TaskScheduler) : result PubkeysConfig :=
  load_kind pk_kind i opts w.
Definition specs_LoadConfig `{!ConfigDecoding unit} (i : Z) (opts : TaskOptions) (w : TaskScheduler) : result unit :=
  load_kind specs_kind i opts w.
Definition mn_LoadConfig `{!ConfigDecoding MnemonicConfig} (i : Z) (opts : TaskOptions) (w : TaskScheduler) : result MnemonicConfig :=
  load_kind mn_kind i opts w.
Definition wd_LoadConfig `{!ConfigDecoding WalletDetailsConfig} (i : Z) (opts : TaskOptions) (w : TaskScheduler) : result WalletDetailsConfig :=
  load_kind wd_kind i opts w.
Definition clean_LoadConfig `{!ConfigDecoding unit} (i : Z) (opts : TaskOptions) (w : TaskScheduler) : result unit :=
  load_kind clean_kind i opts w.
Definition sleep_LoadConfig `{!ConfigDecoding Z} (i : Z) (opts : TaskOptions) (w : TaskScheduler) : result Z :=
  load_kind sleep_kind i opts w.

(** [t.config] and [t.ignoreResults] *)
Definition eth_call_LoadConfig `{!ConfigDecoding EthCallConfig} `{ps : ConfigParsers}
    (i : Z) (opts : TaskOptions) (w : TaskScheduler) : result (EthCallConfig * list bytes) :=
  let! config := load_kind eth_call_kind i opts w in
  Ok (config, FromHex <$> ec_IgnoreResults config).

(** *** Flow control: the children are created in the scheduler *)

Section flow_load.
Context `{dec : Decoding}.

Definition concurrent_LoadConfig `{!ConfigDecoding concurrent_Config} (i : Z) (opts : TaskOptions)
    (w : TaskScheduler) : TaskScheduler * result (concurrent_Config * list Z) :=
  match load_kind concurrent_kind i opts w with
  | Err e => (w, Err e)
  | Ok config =>
      let '(w, r) := concurrent_init i config w in
      (w, let! childTasks := r in Ok (config, childTasks))
  end.

Definition matrix_LoadConfig `{!ConfigDecoding matrix_Config} (i : Z) (opts : TaskOptions)
    (w : TaskScheduler) : TaskScheduler * result (matrix_Config * list Z) :=
  match load_kind matrix_kind i opts w with
  | Err e => (w, Err e)
  | Ok config =>
      let '(w, r) := matrix_init i config w in
      (w, let! childTasks := r in Ok (config, childTasks))
  end.

(** The background and the foreground task. *)
Definition background_LoadConfig `{!ConfigDecoding background_Config} (i : Z) (opts : TaskOptions)
    (w : TaskScheduler) : TaskScheduler * result (background_Config * (Z * Z)) :=
  match load_kind background_kind i opts w with
  | Err e => (w, Err e)
  | Ok config =>
      let '(w, r) := background_init i config w in
      (w, let! tasks := r in Ok (config, tasks))
  end.
End flow_load.

(** *** Generators: keys and mnemonics *)

Section generators.
Context `{types : EthTypes} `{pt : !PoolTypes} `{ps : !ConfigParsers}.
#[local] Existing Instance types.

(** What [generate_eoa_transactions] and [generate_blob_transactions] keep;
    wallets by address, a nil pointer as [None]. *)
Record generator (C : Type) := mkGenerator {
  g_config : C;
  g_wallet : option Address;
  g_walletPool : option WalletPool;
  g_targetAddr : option Address;
  g_transactionData : option bytes }.
#[global] Arguments mkGenerator {C}. #[global] Arguments g_config {C}. #[global] Arguments g_wallet {C}.
#[global] Arguments g_walletPool {C}. #[global] Arguments g_targetAddr {C}. #[global] Arguments g_transactionData {C}.

(** The part after validation, the same code in both. *)
Definition load_generator {C} (config : C) (PrivateKey : string) (ChildWallets : Z)
    (WalletSeed TargetAddress CallData : string) : loader (generator C) :=
  let* privKey := lift (HexToECDSA PrivateKey) in
  let* wallets :=
    if ChildWallets =? 0
    then let* wallet := load_key_wallet privKey in lift (Ok (Some wallet, None))
    else let* walletPool := (fun m =>
           match load_key_pool privKey ChildWallets WalletSeed m with
           | Ret (m, r) => Ret (m, wrap "cannot initialize wallet pool" r)
           | other => other
           end) in lift (Ok (None, Some walletPool)) in
  let* targetAddr := lift (decode_target TargetAddress) in
  lift (Ok (mkGenerator config wallets.1 wallets.2 targetAddr (decode_calldata CallData))).

Definition eoa_LoadConfig `{!ConfigDecoding EoaConfig} (i : Z) (opts : TaskOptions) (w : TaskScheduler)
    : loader (generator EoaConfig) :=
  let* config := lift (load_kind eoa_kind i opts w) in
  load_generator config (eoa_PrivateKey config) (eoa_ChildWallets config) (eoa_WalletSeed config)
    (eoa_TargetAddress config) (eoa_CallData config).

Definition blob_LoadConfig `{!ConfigDecoding BlobConfig} (i : Z) (opts : TaskOptions) (w : TaskScheduler)
    : loader (generator BlobConfig) :=
  let* config := lift (load_kind blob_kind i opts w) in
  load_generator config (blob_PrivateKey config) (blob_ChildWallets config) (blob_WalletSeed config)
    (blob_TargetAddress config) (blob_CallData config).

(** [t.config] and [t.wallet] *)
Definition child_wallet_LoadConfig `{!ConfigDecoding ChildWalletConfig} (i : Z) (opts : TaskOptions)
    (w : TaskScheduler) : loader (ChildWalletConfig * Address) :=
  let* config := lift (load_kind cw_kind i opts w) in
  let* privKey := lift (HexToECDSA (cw_PrivateKey config)) in
  let* wallet := load_key_wallet privKey in
  lift (Ok (config, wallet)).

(** The sender, the signers, the target and the data: [tc_LoadConfig] of
    SingleTx.v is the part from the validation on. *)
Definition transaction_LoadConfig `{!TransactionLib} `{!ConfigDecoding TransactionConfig} (i : Z) (opts : TaskOptions)
    (w : TaskScheduler) : loader (TransactionConfig * (Address * list Address * option Address * option bytes)) :=
  let* config := lift (load_config (kind_Name tc_kind) tc_DefaultConfig cfg_Unmarshal cfg_decode (fun _ => None) i opts w) in
  let* prepared := (fun m => Ret (tc_LoadConfig HexToECDSA UnmarshalText config m)) in
  lift (Ok (config, prepared)).

(** The tasks that send requests keep the parsed key and fetch its wallet for
    every transaction: [t.valkeySeed] or [t.sourceSeed] (nil without a
    mnemonic), [t.walletPrivKey] and the contract's address. *)
Definition deposits_LoadConfig `{!ConfigDecoding DepositsConfig} (i : Z) (opts : TaskOptions) (w : TaskScheduler)
    : result (DepositsConfig * option bytes * PrivateKey * Address) :=
  let! config := load_kind dep_kind i opts w in
  let! valkeySeed := if bool_decide (dep_Mnemonic config = "") then Ok None
                     else let! seed := mnemonicToSeed (dep_Mnemonic config) in Ok (Some seed) in
  let! walletPrivKey := HexToECDSA (dep_WalletPrivkey config) in
  Ok (config, valkeySeed, walletPrivKey, HexToAddress (dep_DepositContract config)).

Definition consolidations_LoadConfig `{!ConfigDecoding ConsolidationsConfig} (i : Z) (opts : TaskOptions)
    (w : TaskScheduler) : result (ConsolidationsConfig * option bytes * PrivateKey * Address) :=
  let! config := load_kind con_kind i opts w in
  let! sourceSeed := if bool_decide (con_SourceMnemonic config = "") then Ok None
                     else let! seed := mnemonicToSeed (con_SourceMnemonic config) in Ok (Some seed) in
  let! walletPrivKey := HexToECDSA (con_WalletPrivkey config) in
  Ok (config, sourceSeed, walletPrivKey, HexToAddress (con_ConsolidationContract config)).

Definition withdrawals_LoadConfig `{!ConfigDecoding WithdrawalsConfig} (i : Z) (opts : TaskOptions)
    (w : TaskScheduler) : result (WithdrawalsConfig * option bytes * PrivateKey * Address) :=
  let! config := load_kind wdr_kind i opts w in
  let! sourceSeed :=
    if bool_decide (wdr_SourceMnemonic config = "") then Ok None
    else wrap "failed parsing sourceMnemonic"
           (let! seed := mnemonicToSeed (wdr_SourceMnemonic config) in Ok (Some seed)) in
  let! walletPrivKey := wrap "failed parsing walletPrivKey" (HexToECDSA (wdr_WalletPrivkey config)) in
  Ok (config, sourceSeed, walletPrivKey, HexToAddress (wdr_WithdrawalContract config)).

(** The beacon operations: [t.withdrSeed], and the target of credential
    changes. *)
Definition exits_LoadConfig `{!ConfigDecoding ExitsConfig} (i : Z) (opts : TaskOptions) (w : TaskScheduler)
    : result (ExitsConfig * bytes) :=
  let! config := load_kind exits_kind i opts w in
  let! withdrSeed := mnemonicToSeed (ex_Mnemonic config) in
  Ok (config, withdrSeed).

Definition slashings_LoadConfig `{!ConfigDecoding SlashingsConfig} (i : Z) (opts : TaskOptions) (w : TaskScheduler)
    : result (SlashingsConfig * bytes) :=
  let! config := load_kind slashings_kind i opts w in
  let! withdrSeed := mnemonicToSeed (sl_Mnemonic config) in
  Ok (config, withdrSeed).

Definition bls_LoadConfig `{!ConfigDecoding BlsChangesConfig} (i : Z) (opts : TaskOptions) (w : TaskScheduler)
    : result (BlsChangesConfig * bytes * Address) :=
  let! config := load_kind bls_kind i opts w in
  let! withdrSeed := mnemonicToSeed (bl_Mnemonic config) in
  let! targetAddr := wrap "cannot decode execution addr" (UnmarshalText (bl_TargetAddress config)) in
  Ok (config, withdrSeed, targetAddr).

(** *** The load tests of the transaction pool *)

(** [GetWalletByPrivkey] of a key pointer: [privkey.Public()] takes the address
    of a field of the key. *)
Definition load_key_pointer (privkey : option PrivateKey) : loader Address :=
  match privkey with
  | None => lpanic "invalid memory address or nil pointer dereference"
  | Some key => load_key_wallet key
  end.

(** [privKey, _ := crypto.HexToECDSA(..)]: the error is dropped; the pointer
    that comes with an error is nil. *)
Definition load_unchecked_wallet (PrivateKey : string) : loader Address :=
  let privKey := match HexToECDSA PrivateKey with Ok key => Some key | Err _ => None end in
  load_key_pointer privKey.

Definition latency_LoadConfig `{!ConfigDecoding LatencyConfig} (i : Z) (opts : TaskOptions) (w : TaskScheduler)
    : loader (LatencyConfig * Address) :=
  let* config := lift (load_kind la_kind i opts w) in
  let* wallet := load_unchecked_wallet (la_PrivateKey config) in
  lift (Ok (config, wallet)).

Definition throughput_LoadConfig `{!ConfigDecoding ThroughputConfig} (i : Z) (opts : TaskOptions) (w : TaskScheduler)
    : loader (ThroughputConfig * Address) :=
  let* config := lift (load_kind th_kind i opts w) in
  let* wallet := load_unchecked_wallet (th_PrivateKey config) in
  lift (Ok (config, wallet)).
End generators.
End load.

(** ** Trimming *)

Lemma strip_prefix_spec p s t : strip_prefix p s = Some t <-> s = p ++ t.
Proof.
  revert s. induction p as [|x p IH]; intros s; simpl; [split; [by intros [= ->]|by intros ->]|].
  destruct s as [|y s]; [done|]. destruct (Byte.eqb x y) eqn:E.
  - apply Byte.byte_dec_bl in E as <-. rewrite IH. split; [by intros ->|by intros [= ->]].
  - split; [done|]. intros [= -> _]. by rewrite (Byte.byte_dec_lb eq_refl) in E.
Qed.

Lemma strip_one_Some seps s t : strip_one seps s = Some t -> exists p, p ∈ seps /\ s = p ++ t.
Proof.
  unfold strip_one. intros H. destruct (omap _ seps) as [|t' l] eqn:E; [done|]. injection H as ->.
  assert (t ∈ omap (fun p => strip_prefix p s) seps) as (p & Hp & Ht)%list_elem_of_omap by (rewrite E; left).
  exists p. split; [done|]. by apply strip_prefix_spec.
Qed.

Lemma strip_one_None seps s : strip_one seps s = None <-> forall p t, p ∈ seps -> s <> p ++ t.
Proof.
  unfold strip_one. split.
  - intros H p t Hp Hs. destruct (omap _ seps) as [|t' l] eqn:E; [|done].
    assert (t ∈ omap (fun p => strip_prefix p s) seps) as Ht.
    { apply list_elem_of_omap. exists p. split; [done|]. by apply strip_prefix_spec. }
    rewrite E in Ht. by apply not_elem_of_nil in Ht.
  - intros H. destruct (omap _ seps) as [|t l] eqn:E; [done|].
    assert (t ∈ omap (fun p => strip_prefix p s) seps) as (p & Hp & Ht)%list_elem_of_omap by (rewrite E; left).
    apply strip_prefix_spec in Ht. by destruct (H p t Hp).
Qed.

Lemma trim_left_spec seps fuel s :
  [] ∉ seps -> (length s <= fuel)%nat ->
  exists ws, ws ⊆ seps /\ s = concat ws ++ trim_left seps fuel s /\ strip_one seps (trim_left seps fuel s) = None.
Proof.
  intros Hne. revert s. induction fuel as [|fuel IH]; intros s Hs; simpl.
  - destruct s; [|simpl in Hs; lia]. exists []. split_and!; [set_solver|done|].
    apply strip_one_None. intros p t Hp Ht. by destruct p.
  - destruct (strip_one seps s) as [s'|] eqn:E; [|by exists []; split_and!; [set_solver|done|]].
    apply strip_one_Some in E as (p & Hp & ->).
    destruct (IH s') as (ws & Hws & Hs' & Hn).
    { rewrite length_app in Hs. destruct p; [done|]. simpl in Hs. lia. }
    exists (p :: ws). split_and!; [by intros x [->|Hx]%elem_of_cons; [|apply Hws]| |done]. simpl. by rewrite <- app_assoc, <- Hs'.
Qed.

Lemma trim_spec seps s :
  [] ∉ seps -> exists ws, ws ⊆ seps /\ s = concat ws ++ trim seps s /\ strip_one seps (trim seps s) = None.
Proof. intros Hne. by apply trim_left_spec. Qed.

Lemma concat_rev (ws : list (list Byte.byte)) : rev (concat ws) = concat (rev (map (@rev _) ws)).
Proof. induction ws as [|x ws IH]; [done|]. simpl. rewrite rev_app_distr, IH, concat_app. simpl. by rewrite app_nil_r. Qed.

Lemma spaces_nonempty : [] ∉ spaces.
Proof. apply (bool_decide_unpack ([] ∉ spaces)). by vm_compute. Qed.

(** [strings.TrimSpace] cuts whitespace, and only whitespace, off both ends,
    and leaves none there. *)
Theorem TrimSpace_spec s :
  let t := String.list_byte_of_string (TrimSpace s) in
  exists before after, before ⊆ spaces /\ after ⊆ spaces /\
    String.list_byte_of_string s = concat before ++ t ++ concat after /\
    forall p u, p ∈ spaces -> t <> p ++ u /\ t <> u ++ p.
Proof.
  cbv zeta. unfold TrimSpace. rewrite String.list_byte_of_string_of_list_byte.
  set (b := String.list_byte_of_string s).
  destruct (trim_spec spaces b spaces_nonempty) as (ws & Hws & Hb & Hl).
  set (c := trim spaces b) in *.
  assert ([] ∉ map (@rev Byte.byte) spaces) as Hrev by (apply (bool_decide_unpack _); by vm_compute).
  destruct (trim_spec _ (rev c) Hrev) as (vs & Hvs & Hc & Hr).
  set (d := trim (map (@rev _) spaces) (rev c)) in *.
  assert (c = rev d ++ concat (rev (map (@rev _) vs))) as Ec.
  { rewrite <- (rev_involutive c), Hc, rev_app_distr, concat_rev. done. }
  exists ws, (rev (map (@rev _) vs)). split_and!.
  - done.
  - intros p (q & <- & Hq%list_elem_of_In)%list_elem_of_In%in_rev%in_map_iff. apply Hvs in Hq.
    apply list_elem_of_fmap in Hq as (q' & -> & Hq). by rewrite rev_involutive.
  - by rewrite <- Ec.
  - intros p u Hp. split; intros E.
    + apply (proj1 (strip_one_None _ _) Hl p (u ++ concat (rev (map (@rev _) vs))) Hp).
      rewrite Ec, E, app_assoc. done.
    + apply (proj1 (strip_one_None _ _) Hr (rev p) (rev u)); [by apply list_elem_of_fmap_2|].
      by rewrite <- (rev_involutive d), E, rev_app_distr.
Qed.

(** ** The table of tasks *)

(** The packages' descriptors are the ones the scheduler looks names up in. *)
Theorem kinds_registered :
  (fun k : AnyKind => mkTaskDescriptor (kind_Name k) (kind_Aliases k)) <$> task_kinds = AvailableTaskDescriptors.
Proof. reflexivity. Qed.

(** The tasks that cannot run without a configuration, with their errors; the
    request generators name the limit first, the others what is missing. *)
Definition needs_config : list (string * error) :=
  [("generate_blob_transactions", "either limitPerBlock or limitTotal or limitPending must be set");
   ("generate_bls_changes", "either limitPerSlot or limitTotal or indexCount must be set");
   ("generate_child_wallet", "privateKey must be set");
   ("generate_consolidations", "either limitTotal or indexCount must be set");
   ("generate_eoa_transactions", "either limitPerBlock or limitTotal or limitPending must be set");
   ("generate_deposits", "either limitPerSlot or limitTotal or indexCount must be set");
   ("generate_exits", "either limitPerSlot or limitTotal or indexCount must be set");
   ("generate_slashings", "either limitPerSlot or limitTotal or indexCount must be set");
   ("generate_transaction", "privateKey must be set");
   ("generate_withdrawal_requests", "either limitTotal or limitPerSlot must be set");
   ("get_pubkeys_from_mnemonic", "mnemonic is required");
   ("get_wallet_details", "either privateKey or address must be set");
   ("run_command", "command must be specified");
   ("run_external_tasks", "testFile is missing");
   ("run_shell", "command must be specified");
   ("run_task_background", "foreground task must be specified");
   ("run_task_matrix", "child task must be specified");
   ("run_task_options", "child task must be specified");
   ("run_tasks", "at least one task must be specified");
   ("run_tasks_concurrent", "at least one task must be specified");
   ("sleep", "duration must be greater than 0")].

Lemma NoDup_fmap_elem {A B} (f : A -> B) l x y : NoDup (f <$> l) -> x ∈ l -> y ∈ l -> f x = f y -> x = y.
Proof.
  intros Hn (i & Hi)%list_elem_of_lookup_1 (j & Hj)%list_elem_of_lookup_1 E.
  assert (i = j) as <-; [|congruence].
  eapply NoDup_lookup; [exact Hn|by rewrite list_lookup_fmap, Hi|by rewrite list_lookup_fmap, Hj, E].
Qed.

Lemma default_errors :
  omap (fun k : AnyKind => pair (kind_Name k) <$> default_error k) task_kinds = needs_config.
Proof. by vm_compute. Qed.

Section loading.
Context `{lib : Library}.

Lemma load_kind_valid {C} `{!ConfigDecoding C} (k : TaskKind C) i opts w c :
  load_kind k i opts w = Ok c -> kind_Validate k c = None.
Proof.
  unfold load_kind, load_config. intros H.
  destruct (match opt_Config opts with None => _ | Some raw => _ end) as [c0|]; [|done].
  destruct (ConsumeVars _ _ _ _ _ _ _ _ _ _) as [[c1|]|]; [|done..].
  destruct (kind_Validate k c1) eqn:E; [done|]. by injection H as <-.
Qed.

(** A task without configuration, whose dynamic variables leave the defaults
    alone, loads unless the table names its error. *)
Theorem unconfigured_load (k : AnyKind) (D : ConfigDecoding (any_Config k)) i opts w :
  k ∈ task_kinds -> opt_Config opts = None ->
  ConsumeVars lib_yaml_Marshal lib_yaml_Unmarshal lib_gojq_Parse lib_query_Run cfg_decode lib_depth
    (scopes w) (ctx_Vars i w) (kind_Config k) (opt_ConfigVars opts) = Some (Ok (kind_Config k)) ->
  (forall c, load_kind k i opts w = Ok c <-> c = kind_Config k /\ kind_Name k ∉ needs_config.*1) /\
  (forall e, load_kind k i opts w = Err e <-> (kind_Name k, e) ∈ needs_config).
Proof.
  intros Hk Hopts Hvars.
  assert (load_kind k i opts w = match default_error k with Some e => Err e | None => Ok (kind_Config k) end) as ->.
  { unfold load_kind, load_config. by rewrite Hopts, Hvars. }
  assert (forall e, (kind_Name k, e) ∈ needs_config <-> default_error k = Some e) as Htab.
  { rewrite <- default_errors. intros e. rewrite list_elem_of_omap. split.
    - intros (k' & Hk' & He). destruct (default_error k') as [e'|] eqn:E; [|done].
      injection He as En <-. assert (k' = k) as <-; [|done].
      apply (NoDup_fmap_elem (fun k : AnyKind => kind_Name k) task_kinds); [|done..].
      apply (bool_decide_unpack _). by vm_compute.
    - intros He. exists k. by rewrite He. }
  destruct (default_error k) as [e0|] eqn:E.
  - split; [|intros e; rewrite Htab; split; congruence].
    intros c. split; [done|]. intros [_ []]. apply list_elem_of_fmap. exists (kind_Name k, e0).
    split; [done|]. by apply Htab.
  - split; [|intros e; rewrite Htab; split; congruence]. intros c. split; [|by intros [-> _]].
    intros [= <-]. split; [done|]. intros ((n & e) & Hn & He)%list_elem_of_fmap. simpl in Hn. subst n.
    by apply Htab in He.
Qed.
End loading.

(** ** What loading does to the manager *)

Section manager.
Context `{types : EthTypes} `{pt : !PoolTypes}.
#[local] Existing Instance types.
Implicit Types (m : gmap Address Wallet) (a : Address) (w : Wallet).

(** The same wallet, possibly with the key of its address filled in. *)
Definition keyed a w w' : Prop :=
  w' = w \/ privkey w = None /\ exists k, PubkeyToAddress k = a /\ w' = set_privkey k w.

(** More wallets, all new or as before but for a key. *)
Record grown m m' : Prop := {
  grown_keeps a : is_Some (m !! a) -> is_Some (m' !! a);
  grown_keyed a w' : m' !! a = Some w' -> keyed a (get_wallet m a) w'
}.

(** Wallets are stored under their address, and their keys are its keys. *)
Definition keys_match m : Prop :=
  forall a w, m !! a = Some w ->
    address w = a /\ (forall k, privkey w = Some k -> PubkeyToAddress k = a).

(** A transaction built with the wallet at [a] is signed by its owner. *)
Definition can_sign m a : Prop :=
  exists w k, m !! a = Some w /\ address w = a /\ privkey w = Some k /\ PubkeyToAddress k = a.

Lemma keyed_trans a w w' w'' : keyed a w w' -> keyed a w' w'' -> keyed a w w''.
Proof. intros [->|(Hw & k & Hk & ->)] H; [done|]. destruct H as [->|(Hn & _)]; [right; eauto|done]. Qed.

#[export] Instance grown_preorder : PreOrder grown.
Proof.
  split.
  - intros m. split; [done|]. intros a w' Hw. left. unfold get_wallet. by rewrite Hw.
  - intros m m' m'' [K1 W1] [K2 W2]. split; [auto|].
    intros a w'' Hw. specialize (W2 a w'' Hw). unfold get_wallet in *.
    destruct (m' !! a) as [w'|] eqn:E; [by eapply keyed_trans; eauto|].
    destruct (m !! a) eqn:E'; [|done]. destruct (K1 a) as [? ?]; [by eexists|congruence].
Qed.

Lemma newWallet_facts a : address (newWallet a) = a /\ privkey (newWallet a) = None.
Proof. done. Qed.

Lemma grown_keys_match m m' : grown m m' -> keys_match m -> keys_match m'.
Proof.
  intros [_ Hw] Hm a w' Ha. apply Hw in Ha.
  assert (address (get_wallet m a) = a /\ forall k, privkey (get_wallet m a) = Some k -> PubkeyToAddress k = a) as [Had Hk].
  { unfold get_wallet. destruct (m !! a) as [w|] eqn:E; [by apply Hm|done]. }
  destruct Ha as [->|(_ & k & Hk' & ->)]; [done|]. split; [done|]. by intros k' [= <-].
Qed.

Lemma grown_can_sign m m' a : grown m m' -> can_sign m a -> can_sign m' a.
Proof.
  intros [K W] (w & k & Hw & Ha & Hk & Hp). destruct (K a) as [w' Hw']; [by eexists|].
  destruct (W a w' Hw') as [->|[Hn _]]; unfold get_wallet in *; rewrite Hw in *; simpl in *; [|congruence].
  by exists w, k.
Qed.

(** [GetWalletByPrivkey] of a key and its address. *)
Lemma GetWalletByPrivkey_grows key m :
  let a := PubkeyToAddress key in
  let m' := (GetWalletByPrivkey key a m).1 in
  grown m m' /\ is_Some (m' !! a ≫= privkey).
Proof.
  cbv zeta. set (a := PubkeyToAddress key).
  assert (forall w', keyed a (get_wallet m a) w' -> grown m (<[a := w']> m)) as Hins.
  { intros w' Hw. split.
    - intros b Hb. by apply lookup_insert_is_Some'; right.
    - intros b w'' Hb. destruct (decide (a = b)) as [<-|Hne].
      + rewrite lookup_insert_eq in Hb. by injection Hb as <-.
      + rewrite lookup_insert_ne in Hb by done. left. unfold get_wallet. by rewrite Hb. }
  unfold GetWalletByPrivkey, GetWalletByAddress. unfold get_wallet in Hins.
  destruct (m !! a) as [w|] eqn:E; simpl in *.
  - destruct (privkey w) as [k|] eqn:Ek; simpl.
    + split; [reflexivity|]. rewrite E. simpl. by rewrite Ek.
    + split; [|by rewrite lookup_insert_eq]. apply Hins. right. eauto.
  - rewrite insert_insert_eq. split; [|by rewrite lookup_insert_eq].
    apply Hins. right. eauto.
Qed.

Lemma key_wallet_signs key m :
  keys_match m ->
  let m' := (GetWalletByPrivkey key (PubkeyToAddress key) m).1 in
  keys_match m' /\ can_sign m' (PubkeyToAddress key).
Proof.
  intros Hm. destruct (GetWalletByPrivkey_grows key m) as [Hg [k Hk]]. cbv zeta in *.
  pose proof (grown_keys_match _ _ Hg Hm) as Hm'. split; [done|].
  apply bind_Some in Hk as (w & Hw & Hk). destruct (Hm' _ _ Hw) as [Ha Hp]. exists w, k. auto.
Qed.
End manager.

#[export] Hint Resolve grown_keys_match grown_can_sign : go.

(** ** A program logic for loading *)

Section logic.
Context `{types : EthTypes} `{pt : !PoolTypes} `{ps : !ConfigParsers}.
#[local] Existing Instance types.

(** From wallets that match their keys the loader, if it does not panic, only
    lets the manager grow, and its result satisfies [Q], which may also speak
    of the manager then. *)
Definition loads {A} (P : gmap Address Wallet -> Prop) (l : loader A) (Q : A -> gmap Address Wallet -> Prop) : Prop :=
  forall m, keys_match m -> P m ->
    match l m with
    | Ret (m', r) => grown m m' /\ forall a, r = Ok a -> Q a m'
    | Fail _ => False
    | Panic _ => True
    end.

Lemma loads_lift {A} P (r : result A) : loads P (lift r) (fun a m => P m /\ r = Ok a).
Proof. intros m _ HP. split; [reflexivity|auto]. Qed.

Lemma lbind_lift {A B} (r : result A) (k : A -> loader B) m :
  lbind (lift r) k m = match r with Ok a => k a m | Err e => Ret (m, Err e) end.
Proof. by destruct r. Qed.

Lemma loads_bind {A B} P (l : loader A) (Q : A -> _ -> Prop) (k : A -> loader B) R :
  loads P l Q -> (forall a, loads (Q a) (k a) R) -> loads P (lbind l k) R.
Proof.
  intros Hl Hk m Hm HP. specialize (Hl m Hm HP). unfold lbind.
  destruct (l m) as [[m' [a|e]]| |]; [|by destruct Hl|done..].
  destruct Hl as [Hg HQ]. specialize (Hk a m' (grown_keys_match _ _ Hg Hm) (HQ a eq_refl)).
  destruct (k a m') as [[m'' r]| |]; [|done..]. destruct Hk as [Hg' HR].
  split; [by etransitivity|done].
Qed.

Lemma loads_weaken {A} P (l : loader A) (Q R : A -> _ -> Prop) :
  loads P l Q -> (forall a m, Q a m -> R a m) -> loads P l R.
Proof.
  intros Hl HQR m Hm HP. specialize (Hl m Hm HP). destruct (l m) as [[m' r]| |]; [|done..].
  destruct Hl as [Hg HQ]. split; [done|]. auto.
Qed.

(** What holds of every larger manager survives a loader. *)
Lemma loads_frame {A} (F : gmap Address Wallet -> Prop) (P P' : gmap Address Wallet -> Prop) (l : loader A) Q :
  (forall m m', grown m m' -> F m -> F m') -> loads P l Q -> (forall m, P' m -> F m /\ P m) ->
  loads P' l (fun a m => F m /\ Q a m).
Proof.
  intros HF Hl Hpre m Hm [HFm HP]%Hpre. specialize (Hl m Hm HP). destruct (l m) as [[m' r]| |]; [|done..].
  destruct Hl as [Hg HQ]. split; [done|]. intros a Ha. split; [by eapply HF|auto].
Qed.

Lemma loads_key_wallet P key :
  loads P (load_key_wallet key) (fun a m => a = PubkeyToAddress key /\ can_sign m a).
Proof.
  intros m Hm _. simpl. pose proof (GetWalletByPrivkey_grows key m) as [Hg _].
  split; [done|]. intros a [= <-]. split; [done|]. by apply key_wallet_signs.
Qed.

Lemma pool_loop_loads root childSeed n i m :
  keys_match m ->
  let '(m', r) := pool_loop root childSeed n i m in
  grown m m' /\ forall l, r = Ok l -> length l = n /\ Forall (can_sign m') l.
Proof.
  revert i m. induction n as [|n IH]; intros i m Hm; simpl; [by split; [|intros l [= <-]]|].
  unfold newChildWallet. destruct (ToECDSA _) as [key|e]; [|done].
  pose proof (GetWalletByPrivkey_grows key m) as [Hg _].
  destruct (key_wallet_signs key m Hm) as [Hm1 Hs]. cbv zeta in *.
  specialize (IH (i + 1) _ Hm1). destruct (pool_loop _ _ _ _ _) as [m' [l|e]].
  - destruct IH as [Hg' IH]. split; [by etransitivity|]. intros l' [= <-].
    destruct (IH l eq_refl) as [Hl Hf]. simpl. split; [by rewrite Hl|]. constructor; [by eapply grown_can_sign|done].
  - destruct IH as [Hg' _]. split; [by etransitivity|done].
Qed.

Definition pool_signs (key : PrivateKey) (walletCount : Z) (p : WalletPool) (m : gmap Address Wallet) : Prop :=
  rootWallet p = PubkeyToAddress key /\ can_sign m (rootWallet p) /\
  length (wallets p) = Z.to_nat walletCount /\ Forall (can_sign m) (wallets p) /\ nextIdx p = 0.

Lemma loads_key_pool P key walletCount childSeed :
  loads P (load_key_pool key walletCount childSeed) (pool_signs key walletCount).
Proof.
  intros m Hm _. unfold load_key_pool. destruct (max_wallets <? walletCount); [done|].
  unfold GetWalletPoolByPrivkey. pose proof (GetWalletByPrivkey_grows key m) as [Hg _].
  destruct (key_wallet_signs key m Hm) as [Hm1 Hs]. cbv zeta in *.
  pose proof (pool_loop_loads key (seed_bytes childSeed) (Z.to_nat walletCount) 0 _ Hm1) as Hl.
  destruct (pool_loop _ _ _ _ _) as [m' [l|e]]; destruct Hl as [Hg' Hl].
  - split; [by etransitivity|]. intros p [= <-]. destruct (Hl l eq_refl) as [Hn Hf].
    split_and!; simpl; [done|by eapply grown_can_sign|done..].
  - split; [by etransitivity|done].
Qed.

(** Loaders that only read [m] from outside the logic. *)
Lemma loads_wrap {A} P (l : loader A) Q prefix :
  loads P l Q ->
  loads P (fun m => match l m with Ret (m, r) => Ret (m, wrap prefix r) | other => other end) Q.
Proof.
  intros Hl m Hm HP. specialize (Hl m Hm HP). destruct (l m) as [[m' r]| |]; [|done..].
  destruct Hl as [Hg HQ]. split; [done|]. intros a Ha. apply HQ. by destruct r.
Qed.

(** Who signs for a generator: its wallet, or the children of its pool. *)
Definition signers_of {C} (key : PrivateKey) (ChildWallets : Z) (g : generator C) (m : gmap Address Wallet) : Prop :=
  match g_wallet g, g_walletPool g with
  | Some a, None => ChildWallets = 0 /\ a = PubkeyToAddress key /\ can_sign m a
  | None, Some p => ChildWallets <> 0 /\ pool_signs key ChildWallets p m
  | _, _ => False
  end.

Lemma load_generator_loads {C} P (config : C) privateKey ChildWallets seed target data :
  loads P (load_generator config privateKey ChildWallets seed target data) (fun g m =>
    g_config g = config /\ exists key, HexToECDSA privateKey = Ok key /\ signers_of key ChildWallets g m).
Proof.
  unfold load_generator. eapply loads_bind; [apply loads_lift|]. intros key. simpl.
  eapply (loads_bind _ _ (fun ws m => HexToECDSA privateKey = Ok key /\
    signers_of key ChildWallets (mkGenerator config ws.1 ws.2 None None) m)).
  - destruct (ChildWallets =? 0) eqn:Ez.
    + eapply loads_bind; [eapply (loads_frame (fun _ => HexToECDSA privateKey = Ok key) (fun _ => True)); [done|apply loads_key_wallet|by intros m' [_ ?]]|].
      intros a. eapply loads_weaken; [apply loads_lift|]. intros ws m' [(Hk & -> & Hs) [= <-]].
      split; [done|]. simpl. split_and!; [lia|done..].
    + eapply loads_bind; [eapply (loads_frame (fun _ => HexToECDSA privateKey = Ok key) (fun _ => True)); [done|apply loads_wrap, loads_key_pool|by intros m' [_ ?]]|].
      intros p. eapply loads_weaken; [apply loads_lift|]. intros ws m' [(Hk & Hs) [= <-]].
      split; [done|]. simpl. split; [lia|done].
  - intros ws. eapply loads_bind; [apply loads_lift|]. intros t.
    eapply loads_weaken; [apply loads_lift|]. intros g m' [[[Hk Hs] _] [= <-]].
    split; [done|]. by exists key.
Qed.
End logic.

(** ** The tasks' loaders *)

Section task_loaders.
Context `{lib : Library} `{types : EthTypes} `{pt : !PoolTypes} `{ps : !ConfigParsers} `{txlib : !TransactionLib}.
Context `{!ConfigDecoding EoaConfig, !ConfigDecoding BlobConfig, !ConfigDecoding ChildWalletConfig}.
Context `{!ConfigDecoding TransactionConfig, !ConfigDecoding LatencyConfig, !ConfigDecoding ThroughputConfig}.
#[local] Existing Instance types.
Implicit Types m : gmap Address Wallet.

Lemma load_wallet_grows privkey m :
  keys_match m -> let '(m', r) := load_wallet HexToECDSA privkey m in grown m m'.
Proof.
  intros Hm. unfold load_wallet. destruct (HexToECDSA privkey) as [key|e]; [|done].
  by apply (GetWalletByPrivkey_grows key m).
Qed.

Lemma signers_grow auths m :
  keys_match m -> let '(m', r) := SingleTx.load_signers HexToECDSA auths m in grown m m'.
Proof.
  revert m. induction auths as [|au auths IH]; intros m Hm; simpl; [done|].
  pose proof (load_wallet_grows (au_SignerPrivkey au) m Hm) as Hg.
  destruct (load_wallet _ _ _) as [m1 [a|e]]; [|done].
  specialize (IH m1 (grown_keys_match _ _ Hg Hm)).
  destruct (SingleTx.load_signers _ _ _) as [m2 r]. by etransitivity.
Qed.

Lemma tc_loads P (c : TransactionConfig) :
  loads P (fun m => Ret (tc_LoadConfig HexToECDSA UnmarshalText c m)) (fun _ _ => True).
Proof.
  intros m Hm _. unfold tc_LoadConfig. destruct (tc_Validate c); [done|].
  pose proof (load_wallet_grows (tc_PrivateKey c) m Hm) as Hg.
  destruct (load_wallet _ _ _) as [m1 [a|e]]; [|done].
  pose proof (signers_grow (tc_Authorizations c) m1 (grown_keys_match _ _ Hg Hm)) as Hg'.
  destruct (tc_SetCodeTxType c); [|done].
  destruct (SingleTx.load_signers _ _ _) as [m2 r]. split; [by etransitivity|done].
Qed.

Lemma loads_unchecked_wallet P privkey :
  loads P (load_unchecked_wallet privkey) (fun a m => can_sign m a).
Proof.
  unfold load_unchecked_wallet. destruct (HexToECDSA privkey) as [key|e]; [|by intros m].
  eapply loads_weaken; [apply loads_key_wallet|]. by intros a m [_ ?].
Qed.

(** The loaders that use the manager, of any task. *)
Inductive wallet_load : forall A, loader A -> Prop :=
  | load_eoa i opts w : wallet_load _ (eoa_LoadConfig i opts w)
  | load_blob i opts w : wallet_load _ (blob_LoadConfig i opts w)
  | load_child i opts w : wallet_load _ (child_wallet_LoadConfig i opts w)
  | load_transaction i opts w : wallet_load _ (transaction_LoadConfig i opts w)
  | load_latency i opts w : wallet_load _ (latency_LoadConfig i opts w)
  | load_throughput i opts w : wallet_load _ (throughput_LoadConfig i opts w).

Lemma wallet_load_loads A (l : loader A) : wallet_load A l -> loads (fun _ => True) l (fun _ _ => True).
Proof.
  assert (forall B Q (r : result B), loads Q (lift r) (fun _ _ => True)) as Hlift.
  { intros B Q r. eapply loads_weaken; [apply loads_lift|done]. }
  destruct 1 as [i opts w|i opts w|i opts w|i opts w|i opts w|i opts w];
    (eapply loads_bind; [apply loads_lift|]; intros c).
  1,2: (eapply loads_weaken; [eapply load_generator_loads|done]).
  - eapply loads_bind; [apply loads_lift|]. intros key.
    eapply loads_bind; [apply loads_key_wallet|]. intros a. apply Hlift.
  - eapply loads_bind; [apply tc_loads|]. intros a. apply Hlift.
  - eapply loads_bind; [apply loads_unchecked_wallet|]. intros a. apply Hlift.
  - eapply loads_bind; [apply loads_unchecked_wallet|]. intros a. apply Hlift.
Qed.

(** Loading configurations keeps the manager's invariant.  Whatever the
    configuration of a task that uses wallets, and whether it loads or is
    refused half way, the wallets known before are as they were, up to a key
    filled in where there was none; new ones are fresh; and every wallet is
    stored under its address with a key of this address. *)
Theorem loading_only_adds_wallets A (l : loader A) m m' r :
  wallet_load A l -> keys_match m -> l m = Ret (m', r) -> grown m m' /\ keys_match m'.
Proof.
  intros Hl Hm E. pose proof (wallet_load_loads A l Hl m Hm I) as H. rewrite E in H.
  destruct H as [Hg _]. split; [done|by eapply grown_keys_match].
Qed.

(** C19: A generator that loads can sign.  Its configuration is valid; without
    child wallets its one wallet is that of the configured key, else it has a
    pool of exactly the configured number of children under this root; and each
    of these wallets is in the manager with the key of its own address. *)
Theorem loaded_generator_signs i opts w m m' :
  keys_match m ->
  (forall g, eoa_LoadConfig i opts w m = Ret (m', Ok g) ->
     eoa_Validate (g_config g) = None /\
     exists key, HexToECDSA (eoa_PrivateKey (g_config g)) = Ok key /\
       signers_of key (eoa_ChildWallets (g_config g)) g m') /\
  (forall g, blob_LoadConfig i opts w m = Ret (m', Ok g) ->
     blob_Validate (g_config g) = None /\
     exists key, HexToECDSA (blob_PrivateKey (g_config g)) = Ok key /\
       signers_of key (blob_ChildWallets (g_config g)) g m').
Proof.
  intros Hm. unfold eoa_LoadConfig, blob_LoadConfig. rewrite !lbind_lift.
  split; intros g; (destruct (load_kind _ i opts w) as [c|e] eqn:Ec; [|done]);
    intros E; match type of E with load_generator ?c ?k ?n ?s ?t ?d _ = _ =>
      pose proof (load_generator_loads (fun _ => True) c k n s t d m Hm I) as H end; rewrite E in H;
    destruct H as [_ H]; destruct (H g eq_refl) as [-> Hk]; split; try done;
    exact (load_kind_valid _ _ _ _ _ Ec).
Qed.

Lemma pool_loop_ok root childSeed n i m :
  (exists l, (pool_loop root childSeed n i m).2 = Ok l) <->
  forall j, (j < n)%nat -> exists k, ToECDSA (Sum256 (child_preimage root (i + Z.of_nat j) childSeed)) = Ok k.
Proof.
  revert i m. induction n as [|n IH]; intros i m; simpl; [split; [by intros _ j Hj; lia|eauto]|].
  unfold newChildWallet. split.
  - intros [l Hl] [|j] Hj.
    + rewrite Z.add_0_r. destruct (ToECDSA _); [eauto|done].
    + destruct (ToECDSA _) as [key|]; [|done]. simpl in Hl.
      destruct (pool_loop _ _ _ _ _) as [m' [l'|e]] eqn:E; [|done].
      replace (i + Z.of_nat (S j)) with (i + 1 + Z.of_nat j) by lia.
      eapply (proj1 (IH (i + 1) _)); [|lia]. exists l'. by rewrite E.
  - intros H. destruct (H 0%nat ltac:(lia)) as [k Hk]. rewrite Z.add_0_r in Hk. rewrite Hk. simpl.
    destruct (proj2 (IH (i + 1) (GetWalletByPrivkey k (PubkeyToAddress k) m).1)) as [l Hl].
    { intros j Hj. destruct (H (S j) ltac:(lia)) as [k' Hk'].
      replace (i + 1 + Z.of_nat j) with (i + Z.of_nat (S j)) by lia. eauto. }
    destruct (pool_loop _ _ _ _ _) as [m' r]. simpl in *. subst r. eauto.
Qed.

Lemma is_Ok_of_result {A} (r : result A) : (exists a, r = Ok a) \/ exists e, r = Err e.
Proof. destruct r; eauto. Qed.

(** What a generator's fields must satisfy. *)
Definition generator_ready (privateKey : string) (ChildWallets : Z) (seed target : string) : Prop :=
  exists key, HexToECDSA privateKey = Ok key /\ ChildWallets <= max_wallets /\
    (forall j, (j < Z.to_nat ChildWallets)%nat ->
       exists k, ToECDSA (Sum256 (child_preimage key (Z.of_nat j) (seed_bytes seed))) = Ok k) /\
    (target = "" \/ exists a, UnmarshalText target = Ok a).

Lemma decode_target_ok s : (exists t, decode_target s = Ok t) <-> s = "" \/ exists a, UnmarshalText s = Ok a.
Proof.
  unfold decode_target. case_bool_decide as Hs; [split; eauto|].
  destruct (UnmarshalText s) as [a|e]; simpl; split; [eauto..|by intros [? ?]|by intros [?|[? ?]]].
Qed.

Lemma load_generator_iff {C} (config : C) privateKey ChildWallets seed target data m :
  (exists m' g, load_generator config privateKey ChildWallets seed target data m = Ret (m', Ok g)) <->
  generator_ready privateKey ChildWallets seed target.
Proof.
  unfold load_generator, generator_ready. rewrite lbind_lift.
  destruct (HexToECDSA privateKey) as [key|e]; [|split; [by intros (? & ? & ?)|by intros (? & ? & _)]].
  transitivity (ChildWallets <= max_wallets /\ (forall j, (j < Z.to_nat ChildWallets)%nat ->
       exists k, ToECDSA (Sum256 (child_preimage key (Z.of_nat j) (seed_bytes seed))) = Ok k) /\
       exists t, decode_target target = Ok t).
  2:{ rewrite decode_target_ok. split; [intros H; by exists key|]. by intros (key' & [= <-] & H). }
  destruct (Z.eqb_spec ChildWallets 0) as [->|Hz].
  - unfold lbind, load_key_wallet, lift. destruct (decode_target target) as [t|e].
    + split; [|by eauto]. intros _. split_and!; [done|simpl; lia|eauto].
    + split; [by intros (? & ? & ?)|by intros (_ & _ & ? & ?)].
  - unfold lbind at 1, lbind at 1, load_key_pool. destruct (Z.ltb_spec max_wallets ChildWallets) as [Hlt|Hle].
    { split; [by intros (? & ? & ?)|intros [? _]; lia]. }
    unfold GetWalletPoolByPrivkey.
    pose proof (pool_loop_ok key (seed_bytes seed) (Z.to_nat ChildWallets) 0
      (GetWalletByPrivkey key (PubkeyToAddress key) m).1) as Hp.
    destruct (pool_loop _ _ _ _ _) as [m1 [l|e]]; simpl in *.
    + unfold lbind, lift. destruct (decode_target target) as [t|e].
      * split; [|by eauto]. intros _. split_and!; [done|apply Hp; eauto|eauto].
      * split; [by intros (? & ? & ?)|by intros (_ & _ & ? & ?)].
    + split; [by intros (? & ? & ?)|]. intros (_ & H & _). apply Hp in H as [? ?]. done.
Qed.

(** A generator loads exactly if its configuration is accepted, its key
    parses, its pool fits the address space, every child's hash is a key and
    its target, if it has one, is an address. *)
Theorem generators_load_iff i opts w m :
  ((exists m' g, eoa_LoadConfig i opts w m = Ret (m', Ok g)) <->
   exists c, load_kind eoa_kind i opts w = Ok c /\
     generator_ready (eoa_PrivateKey c) (eoa_ChildWallets c) (eoa_WalletSeed c) (eoa_TargetAddress c)) /\
  ((exists m' g, blob_LoadConfig i opts w m = Ret (m', Ok g)) <->
   exists c, load_kind blob_kind i opts w = Ok c /\
     generator_ready (blob_PrivateKey c) (blob_ChildWallets c) (blob_WalletSeed c) (blob_TargetAddress c)).
Proof.
  unfold eoa_LoadConfig, blob_LoadConfig. rewrite !lbind_lift.
  split; (destruct (load_kind _ i opts w) as [c|e]; [rewrite load_generator_iff|]);
    (split; [intros H; by exists c|by intros (? & [= <-] & ?)]) || (split; [by intros (? & ? & ?)|by intros (? & ? & _)]).
Qed.

(** A task whose [LoadConfig] is a loader on the wallets [m]; [inst] is what it
    becomes. *)
Definition loaded_with {A} (L : Z -> TaskOptions -> TaskScheduler -> loader A) (inst : A -> loaded_task)
    (m : gmap Address Wallet) : Z -> TaskOptions -> result panicking_load := fun i opts =>
  Ok (fun w => (w, match L i opts w m with
    | Ret (_, Ok a) => inl (Ok (inst a))
    | Ret (_, Err e) => inl (Err e)
    | Fail e => inl (Err e)
    | Panic what => inr what
    end)).

Definition nil_key : string := "invalid memory address or nil pointer dereference".

Lemma unchecked_wallet_panics key m what :
  load_unchecked_wallet key m = Panic what <-> what = nil_key /\ exists e, HexToECDSA key = Err e.
Proof.
  unfold load_unchecked_wallet, load_key_pointer, load_key_wallet, lpanic.
  destruct (HexToECDSA key) as [k|e]; [split; [done|by intros (_ & ? & ?)]|].
  split; [intros [= <-]; eauto|by intros [-> _]].
Qed.

(** A loader that validates a configuration and then fetches the wallet of its
    key without looking at the parser's error. *)
Lemma unchecked_load_panics {C} (config : result C) (key : C -> string) m what :
  (let* c := lift config in let* wallet := load_unchecked_wallet (key c) in lift (Ok (c, wallet))) m = Panic what <->
  what = nil_key /\ exists c e, config = Ok c /\ HexToECDSA (key c) = Err e.
Proof.
  rewrite lbind_lift. destruct config as [c|e]; [|split; [done|by intros (_ & ? & ? & ? & _)]].
  transitivity (load_unchecked_wallet (key c) m = Panic what).
  - unfold lbind. destruct (load_unchecked_wallet (key c) m) as [[? []]| |]; try done. split; congruence.
  - rewrite unchecked_wallet_panics. split; [intros (-> & e & ?); eauto|by intros (-> & c' & e & [= <-] & ?); eauto].
Qed.

(** The timers and contexts of the call. *)
Context `{envm : Execution.Environment}.

Lemma loaded_with_panics {A} (L : Z -> TaskOptions -> TaskScheduler -> loader A) inst m watch i w what :
  (ExecuteTask_panic (loaded_with L inst m) watch i w).2 = Panics what <->
  exists t, reaches_load i w t /\ L i (options t) (start_task i w) m = Panic what.
Proof.
  rewrite ExecuteTask_panic_Panics. unfold loaded_with. split.
  - intros (t & L' & Ht & [= <-] & HL). exists t. split; [done|]. simpl in HL.
    destruct (L i (options t) (start_task i w) m) as [[? []]| |]; congruence.
  - intros (t & Ht & HL). exists t. eexists. split; [done|]. split; [done|]. simpl. by rewrite HL.
Qed.

Lemma loaded_with_leaves {A} (L : Z -> TaskOptions -> TaskScheduler -> loader A) inst m watch i w t what :
  reaches_load i w t -> L i (options t) (start_task i w) m = Panic what ->
  exists t', getTaskState i (ExecuteTask_panic (loaded_with L inst m) watch i w).1 = Some t' /\
    isStarted t' = true /\ isRunning t' = false /\ taskResult t' = taskResult t /\ taskError t' = taskError t.
Proof. intros Ht HL. eapply ExecuteTask_panic_leaves; [done|reflexivity| |done]. simpl. by rewrite HL. Qed.

(** C12: A load test with a private key that does not parse crashes.  The error
    of the parser is dropped and the nil key dereferenced in [LoadConfig], before
    [ExecuteTask] installs its recover: the call of [ExecuteTask] itself panics,
    and leaves the task started and stopped without the failure that a
    recovered panic gives.  Executing one of these two tasks panics in no other
    case: it must be known, not started before, its condition met, its
    configuration accepted and its key unparsable.  The child wallet task, which
    loads its wallet in the same way, fails and reports the same key as an
    error. *)
Theorem unparsable_key_crashes watch i w m :
  (forall inst what,
    (ExecuteTask_panic (loaded_with latency_LoadConfig inst m) watch i w).2 = Panics what <->
    what = nil_key /\ exists t c e, reaches_load i w t /\ load_kind la_kind i (options t) (start_task i w) = Ok c /\
      HexToECDSA (la_PrivateKey c) = Err e) /\
  (forall inst what,
    (ExecuteTask_panic (loaded_with throughput_LoadConfig inst m) watch i w).2 = Panics what <->
    what = nil_key /\ exists t c e, reaches_load i w t /\ load_kind th_kind i (options t) (start_task i w) = Ok c /\
      HexToECDSA (th_PrivateKey c) = Err e) /\
  (forall inst t c e, reaches_load i w t -> load_kind la_kind i (options t) (start_task i w) = Ok c ->
    HexToECDSA (la_PrivateKey c) = Err e ->
    exists t', getTaskState i (ExecuteTask_panic (loaded_with latency_LoadConfig inst m) watch i w).1 = Some t' /\
      isStarted t' = true /\ isRunning t' = false /\ taskResult t' = taskResult t /\ taskError t' = taskError t) /\
  (forall inst t c e, reaches_load i w t -> load_kind cw_kind i (options t) (start_task i w) = Ok c ->
    HexToECDSA (cw_PrivateKey c) = Err e ->
    let r := ExecuteTask_panic (loaded_with child_wallet_LoadConfig inst m) watch i w in
    r.2 = Returns (Some ("task " +:+ opt_Name (options t) +:+ " config validation failed: " +:+ e)) /\
    taskResult <$> getTaskState i r.1 = Some TaskResultFailure).
Proof.
  split_and!.
  - intros inst what. rewrite loaded_with_panics. unfold latency_LoadConfig. setoid_rewrite unchecked_load_panics.
    naive_solver.
  - intros inst what. rewrite loaded_with_panics. unfold throughput_LoadConfig. setoid_rewrite unchecked_load_panics.
    naive_solver.
  - intros inst t c e Ht Hc He. apply (loaded_with_leaves _ _ _ _ _ _ _ nil_key Ht). apply unchecked_load_panics. eauto.
  - intros inst t c e (Ht & Hs & Hcond) Hc He. cbv zeta.
    assert (child_wallet_LoadConfig i (options t) (start_task i w) m = Ret (m, Err e)) as HL
      by (unfold child_wallet_LoadConfig; by rewrite lbind_lift, Hc, lbind_lift, He).
    unfold ExecuteTask_panic, execute_body_panic, loaded_with.
    rewrite Ht, Hs, Hcond, HL. cbn [fst snd]. split; [done|].
    assert (exists t1, taskStateMap (start_task i w) !! i = Some t1) as [t1 Ht1].
    { destruct (taskStateMap (start_task i w) !! i) as [t1|] eqn:E; [by exists t1|]. exfalso.
      pose proof (grows_start (eq i) i w (or_introl eq_refl)) as Hg. destruct (gr_task _ _ _ Hg i t Ht) as (t1 & Ht1 & _).
      congruence. }
    destruct (setTaskResult_task i TaskResultFailure false _ t1 Ht1) as (t2 & Ht2 & Hr & _).
    destruct (finish_task_proj taskResult i _ t2 ltac:(done) Ht2) as [now Hf]. unfold getTaskState. rewrite Hf. simpl. by rewrite Hr.
Qed.
End task_loaders.

(** ** Examples and witnesses *)

#[local] Existing Instances ex_types ex_pool_types ex_txlib.

(** The key 7 for any text but the empty one. *)
Definition ex_parsers : ConfigParsers (types := ex_types) := {|
  HexToECDSA s := if bool_decide (s = "") then Err "invalid length, need 256 bits" else Ok (7%N : @PrivateKey ex_types);
  UnmarshalText s := if bool_decide (s = "bad") then Err "hex string without 0x prefix" else Ok 9%N;
  TaskConfig.HexToAddress _ := 9%N;
  FromHex := String.list_byte_of_string;
  IsMnemonicValid s := bool_decide (s = "test junk");
  NewSeed m p := String.list_byte_of_string (m +:+ p) |}.
#[local] Existing Instance ex_parsers.
#[local] Instance ex_cfg_lib : Library := ex_lib 9.

(** Decoders that answer with a fixed configuration, or keep what is there. *)
Definition ex_decoding {C} (c : C) : ConfigDecoding C := {| cfg_Unmarshal _ _ := Ok c; cfg_decode _ c := Ok c |}.
#[local] Instance ex_eoa : ConfigDecoding EoaConfig :=
  ex_decoding (mkEoaConfig 2 0 0 "0x07" 3 "seed" 200 0 0 0 0 false 0 0 0 "0x09" false false "" false 0 false false false "" "").
#[local] Instance ex_blob : ConfigDecoding BlobConfig := ex_decoding blob_DefaultConfig.
#[local] Instance ex_cw : ConfigDecoding ChildWalletConfig := ex_decoding cw_DefaultConfig.
#[local] Instance ex_tc : ConfigDecoding TransactionConfig := ex_decoding tc_DefaultConfig.
#[local] Instance ex_la : ConfigDecoding LatencyConfig := ex_decoding la_DefaultConfig.
#[local] Instance ex_th : ConfigDecoding ThroughputConfig := ex_decoding th_DefaultConfig.

Definition ex_configured : TaskOptions := mkTaskOptions "" (Some VNil) [] "" 0 "" "".
Definition ex_manager0 : gmap Address (@Wallet ex_types) := {[7%N := newWallet 7%N]}.

Lemma ex_manager0_match : keys_match ex_manager0.
Proof. intros a w Hw. unfold ex_manager0 in Hw. apply lookup_singleton_Some in Hw as [<- <-]. by split. Qed.

Example ex_trim : TrimSpace (String "009"%char "  test junk ") = "test junk".
Proof. by vm_compute. Qed.

Example ex_seed : mnemonicToSeed " test junk" = Ok (String.list_byte_of_string "test junk").
Proof. by vm_compute. Qed.

Lemma ex_eoa_loaded :
  exists m' g, eoa_LoadConfig 1 ex_configured ex_sched0 ex_manager0 = Ret (m', Ok g).
Proof. by eexists _, _; vm_compute. Qed.

Lemma ex_consume {C} (c : C) :
  ConsumeVars lib_yaml_Marshal lib_yaml_Unmarshal lib_gojq_Parse lib_query_Run (fun _ c => Ok c) lib_depth
    (scopes ex_sched0) (ctx_Vars 1 ex_sched0) c [] = Some (Ok c).
Proof. by vm_compute. Qed.

Lemma unconfigured_load_witness :
  (load_kind (ConfigDecoding0 := ex_decoding 0) sleep_kind 1 (ex_opts "sleep" "") ex_sched0 =
     Err "duration must be greater than 0") /\
  (load_kind finality_kind (ConfigDecoding0 := ex_decoding finality_DefaultConfig) 1 (ex_opts "check_consensus_finality" "") ex_sched0 =
     Ok finality_DefaultConfig).
Proof.
  split.
  - apply (unconfigured_load (mkAny sleep_kind) (ex_decoding 0) 1 (ex_opts "sleep" "") ex_sched0);
      [by do 38 right; left|done|apply ex_consume|apply (bool_decide_unpack _); by vm_compute].
  - apply (unconfigured_load (mkAny finality_kind) (ex_decoding finality_DefaultConfig) 1
      (ex_opts "check_consensus_finality" "") ex_sched0);
      [by do 3 right; left|done|apply ex_consume|split; [done|apply (bool_decide_unpack _); by vm_compute]].
Defined.

Lemma loading_only_adds_wallets_witness :
  exists m' r, eoa_LoadConfig 1 ex_configured ex_sched0 ex_manager0 = Ret (m', r) /\ keys_match m'.
Proof.
  destruct ex_eoa_loaded as (m' & g & E). exists m', (Ok g). split; [exact E|].
  apply (loading_only_adds_wallets _ _ ex_manager0 m' (Ok g) (load_eoa 1 ex_configured ex_sched0) ex_manager0_match E).
Defined.

Lemma loaded_generator_signs_witness :
  exists m' g, eoa_LoadConfig 1 ex_configured ex_sched0 ex_manager0 = Ret (m', Ok g) /\
    eoa_Validate (g_config g) = None /\
    exists key, HexToECDSA (eoa_PrivateKey (g_config g)) = Ok key /\ signers_of key (eoa_ChildWallets (g_config g)) g m'.
Proof.
  destruct ex_eoa_loaded as (m' & g & E). exists m', g. split; [exact E|].
  apply (loaded_generator_signs 1 ex_configured ex_sched0 ex_manager0 m' ex_manager0_match). exact E.
Defined.

(** A load test without configuration crashes on its empty key. *)
Example ex_crash :
  latency_LoadConfig 1 (ex_opts "tx_pool_latency_analysis" "") ex_sched0 ex_manager0 =
  Panic "invalid memory address or nil pointer dereference".
Proof. by vm_compute. Qed.

Definition ex_crash_sched (name : string) : TaskScheduler := (AddRootTask (ex_opts name "") ex_sched0).1.

Lemma unparsable_key_crashes_witness :
  let w := ex_crash_sched "tx_pool_latency_analysis" in
  (ExecuteTask_panic (envm := ex_env) (loaded_with latency_LoadConfig (fun _ => ex_loaded (Returned None)) ex_manager0) true 1 w).2 =
    Panics nil_key /\
  (ExecuteTask_panic (envm := ex_env) (loaded_with (child_wallet_LoadConfig
      (ConfigDecoding0 := ex_decoding (mkChildWalletConfig "" "x" false 0 0 0 0 "" "")))
      (fun _ => ex_loaded (Returned None)) ex_manager0) true 1 w).2 <> Panics nil_key.
Proof.
  intros w. split; [|by vm_compute].
  apply (unparsable_key_crashes (envm := ex_env) true 1 w ex_manager0). split; [reflexivity|].
  exists (default (mkTaskState 0 (ex_opts "" "") (mkTaskDescriptor "" []) 0 (Ref 0) None false false false false false None None None
    VNil (Ref 0) (Ref 0) false TaskResultNone None None None) (getTaskState 1 w)), la_DefaultConfig, "invalid length, need 256 bits".
  split; [split_and!; by vm_compute|split; by vm_compute].
Defined.
